(* ===== verification/_CoqProject ===== *)
-Q . S2P
Prelude.v
Kernel.v
Bytes.v
Bmt.v
Layout.v
ExtentNode.v
ExtentTree.v
ExtentTreeSpec.v
Fs.v
Block.v
Inode.v
EvfsExtent.v
Dirent.v
DxBlock.v
DxBlockSpec.v
DxSplit.v
DxRoom.v
Namei.v
NameiSpec.v
Mkdir.v
MkdirSpec.v
DirOps.v
Dx.v
DxLookup.v
DxTree.v
DxAdd.v
DxKeep.v
DxInsert.v
DxAddEntry.v
Dentry.v
DxHooks.v
Rename.v
RenameSpec.v
ExtentRemove.v
ExtentRemoveSpec.v
ExtentRemoveFlat.v
ExtentMap.v
ExtentMapSpec.v
ExtentMapFlat.v
ExtentConvert.v
ExtentWrite.v
ExtentShift.v
ExtentShiftSpec.v
ExtentShiftFlat.v
Falloc.v
FallocSpec.v
FallocAlloc.v
Mount.v
MountOpts.v
MountOptsSpec.v
MountSuper.v
MountSpec.v
MountUse.v
SuperState.v
SuperSpec.v
SuperReport.v
Remount.v
RemountSpec.v
RemountUse.v
Life.v
Ioctl.v
Witness.v
WitnessDx.v
WitnessDir.v
WitnessRemove.v
WitnessMap.v
WitnessMount.v
WitnessSuper.v
WitnessLife.v
WitnessFalloc.v
