(* ===== verification/Prelude.v ===== *)
(** * Verification of the eVFS extension of ext4 (linux-6.8)

    eVFS adds to ext4 an ioctl interface with which a program edits a mounted file
    system below the VFS: allocate or free one block or one inode, add, read, update or
    delete one directory entry, list the extents of a file and move a range of them.
    Paths below are relative to src/linux-6.8/.

    ** The parts of the program and the files that model them

    - Prelude.v: machine integers (wrap-around written out), error numbers, tactics and
      hints shared by all files.
    - Kernel.v: the effects.  A handler is a function of type [K S A] on a [world]: the
      state [S], the list of locks and references held, and the history of calls to code
      outside the repository.  The class [Env] gives the answers of that code, for any
      history.  [Ret] is a return; [Oops] stands for a NULL or error pointer
      dereference, a BUG_ON, an access outside an array and a use after free;
      [Deadlock] for waiting on a lock the same thread holds.  [wp] is the weakest
      precondition with its rules, [keeps] says that no path releases a resource.
    - Bytes.v: buffers as lists of bytes, little-endian loads and stores.
    - Bmt.v: the inode tracker (fs/ext4/evfs-bmt.c, .h), a two-level lazily allocated
      bitmap with a semaphore per bitmap; [tracked] is its abstraction.
    - Layout.v: super block, group descriptors, feature flags, checksums
      (fs/ext4/ext4.h, super.c), on byte buffers at their offsets.
    - ExtentNode.v, ExtentTree.v, ExtentTreeSpec.v: the extent tree (fs/ext4/extents.c):
      one node; the tree, its lookup path and the operations that change it; properties.
      [mapping] and [tree_map] are the abstraction, from logical to physical blocks.
    - ExtentRemove.v: the removal of a range of blocks, [ext4_ext_remove_space]
      (fs/ext4/extents.c): the walk from the right, the leaves, the indexes that become
      empty, the clusters two extents share, the credits and restarts of the journal.
      ExtentRemoveSpec.v, ExtentRemoveFlat.v: the removal from a leaf, and from a tree
      whose extents are in the inode.
    - ExtentMap.v: [ext4_ext_map_blocks] (fs/ext4/extents.c): lookup, allocation, the
      conversions of unwritten extents.  ExtentMapSpec.v, ExtentMapFlat.v, ExtentConvert.v,
      ExtentWrite.v: the insertion of an extent, the lookup and the allocation, the
      conversion after a write, the write into an unwritten extent, for trees whose extents
      are in the inode.
    - ExtentShift.v: [ext4_ext_shift_extents] (fs/ext4/extents.c): all extents from a block
      on move left or right, leaf by leaf, with a second try after a restart.
      ExtentShiftSpec.v, ExtentShiftFlat.v: the shift of a leaf, and of a tree whose extents
      are in the inode.
    - Falloc.v: [ext4_fallocate] with its branches and [ext4_ext_truncate] (fs/ext4/extents.c)
      on the state of the file system.  FallocSpec.v: collapsing, inserting and
      truncating as operations on the map and the size of the file; FallocAlloc.v: the
      preallocation, against the interface [FallocOpsOk] of the block mapping.
    - Fs.v: the state of the handlers (super block information and buffer, descriptors
      and bitmaps by group, counters, tracker, inodes with extent tree and directory
      blocks) and the calls with an effect on it.
    - Block.v, Inode.v, EvfsExtent.v, Dentry.v: the handlers of fs/ext4/evfs.c, one
      definition per handler; shared endings and labels are definitions of their own, in
      the order in which the code falls through them.
    - Dirent.v: directory blocks (fs/ext4/namei.c, ext4.h): record lengths, matching,
      search, insertion, deletion, checksums, on the bytes.  [live] is the abstraction,
      the list of the entries of a block.
    - Namei.v: directories (fs/ext4/namei.c): read, append, find, add, delete, link,
      unlink.  Hash-tree and inline directories are behind the class [DirHooks].
      NameiSpec.v: the lookup and the removal of names, as operations on the list of the
      entries of a directory ([linear]).
    - Mkdir.v, MkdirSpec.v, DirOps.v: creation and removal of files and directories
      (fs/ext4/namei.c): [ext4_mkdir], [ext4_rmdir], [ext4_create], [ext4_mknod] with
      their retries; a new directory's first block and the test that a directory is empty;
      then the operations as a whole, as operations on the abstract directory.
    - Rename.v, RenameSpec.v: [ext4_rename], [ext4_cross_rename], [ext4_rename2] with
      whiteouts (fs/ext4/namei.c); the renaming of a file.
    - DxBlock.v, DxBlockSpec.v, DxSplit.v, DxRoom.v: blocks of a hash-tree directory
      (fs/ext4/namei.c): index entries, and the split of a leaf on the bytes of its two
      blocks; their properties, and the room the split leaves.
    - Dx.v: hash-tree directories: the probe, the next leaf, the lookup, the listing in
      hash order, the split of a leaf and of an index, the conversion of a linear
      directory; the instance of [DirHooks].  DxLookup.v, DxTree.v: the lookup on any
      directory, and on a well-formed tree, seen as the ordered list of its leaves.
      DxAdd.v, DxKeep.v, DxInsert.v, DxAddEntry.v: the split of a leaf in the file system,
      what it leaves of the rest of the tree, and the insertion of an entry.
      DxHooks.v: the interfaces of the directory code, discharged for the tree.
    - Mount.v, MountOpts.v, MountSuper.v: mounting (fs/ext4/super.c, ext4.h): the functions
      of [__ext4_fill_super] on the state of a mount; the mount options with their table,
      checks and application; the super block and the group descriptors read from a device
      through buffers, and [fill_super_checks], the function up to [ext4_group_desc_init]
      with its error labels.  MountSpec.v: the geometry a mount accepts, by stages;
      MountOptsSpec.v: the meaning of a list of options; MountUse.v: a mount followed by
      the allocating handlers of Block.v and Inode.v.
    - SuperState.v: error reports and the writing of the super block (fs/ext4/super.c:
      [ext4_handle_error], [ext4_update_super], [ext4_commit_super], [update_super_work]) on the
      state [super], a mount with the errors in memory and what the device may hold.
      SuperSpec.v: the log of errors, an abstraction of memory and super block together;
      SuperReport.v: every report and write over that log.
    - Remount.v: the life of a mounted file system: the mark of a file system in use
      ([ext4_setup_super]), the end of a recovery, freezing, thawing, remounting with its
      error path and the unmount up to its last write.  RemountSpec.v, RemountUse.v: frames
      of these operations and the theorem on [__ext4_remount]; Life.v: histories of them.
    - Ioctl.v: the command numbers and structures (include/uapi/linux/evfs.h) and the
      dispatcher [ext4_ioctl_evfs] with its copies from and to the user.
    - Witness.v, WitnessDx.v, WitnessDir.v, WitnessRemove.v, WitnessMap.v, WitnessMount.v,
      WitnessSuper.v, WitnessLife.v, WitnessFalloc.v: concrete instances of every class, a small concrete file system, a concrete hash tree, a concrete directory tree,
      a device that is mounted and journals that run out of credits; each property with hypotheses is applied there.

    ** What the theorems show

    Blocks: allocation and freeing are all or nothing on every answer of the outside,
    give back what they took, and sequences of them keep the free counts of groups and
    super block equal to the clear bits of the bitmaps.  Inodes: allocation and freeing
    change exactly one inode, bit and counter, and only tracked inodes are freed.
    Tracker: it implements a set.  Extents: the search is the linear scan, the entry
    check is the invariant, merging, splitting and growth in depth keep the map of the
    file, lookup returns on any tree, and moving an extent moves exactly the range; removing a
    range unmaps exactly that range and frees exactly its physical blocks, also when the
    transaction restarts in the middle, and an error leaves a part of it done.  Mapping
    blocks: a lookup answers what the extents map, an allocation adds exactly the blocks it
    reports, a conversion after a write changes the state of exactly the blocks written, and a write into
    an unwritten extent makes no block of the tree written that was not asked for or zeroed.  Collapsing a
    range takes its blocks out of the file and moves the rest up, inserting one moves the rest
    down, truncating frees exactly the blocks past the end, preallocating ends and gives every
    block of its range an extent; sizes follow, and locks are given back.  Which answers of
    the journal and of the memory allocator these theorems and those on directories assume
    is said in the comment of each ([journal_ok], [kcalloc_ok], [answers_ok], [journal_calm],
    [retry_bounded]); named examples show what the code does without them.
    Directories: search, insertion and deletion in a block refine the list of entries;
    adding, reading and updating an entry through eVFS do so for a directory.  Looking
    up a name returns a record with it or shows that there is none; unlinking removes one
    entry and a link; a new directory holds its two dot entries, a directory is removed
    only when it holds nothing else, and creating, removing and renaming change exactly
    the entries and link counts they should, with nothing left held; the error of a lookup,
    an unlink or a test for emptiness is traced to the call of the same run that caused it.  Hash
    trees: the lookup returns on every directory, corrupted or not, and on a well-formed
    tree it is the lookup among the entries of all leaves; the sort of a leaf's map
    sorts, the split of a leaf divides its entries by hash between two well-formed
    blocks, and adding an entry keeps the tree well-formed and adds exactly that entry,
    with or without a split (the splits of the index are modelled, but the theorem asks
    for an index with room).  Mounting: a mount is refused with every buffer given back, or
    has a geometry in which sizes divide each other, groups cover the blocks and inodes,
    bitmaps have room and the bitmaps and inode table of each group pass the checks on
    their numbers; on such a file system every inode and block number has one place in one
    group, and the allocating handlers of eVFS set the bit of that place and no other.  Mount options: collected bits and
    masks give what the options give one after the other, the last one for a bit winning.  Errors:
    no report is lost in any order of reports and writes, and what follows a report is what
    the option errors= says.  Life: a remount does what was asked or gives the options back; a
    file system that can be written is marked in use, in memory and on the device, through
    every history of remounts, freezes and thaws that go well, and three examples show how the
    mark is lost when they do not.  Layout: accessors are independent, checksums verify after
    they were set.  Several theorems state what the handlers really do where that is not
    what they mean to do (locks left held, reports of success, memory copied out
    unwritten, a name written past the end of a directory block).

    ** Bounds

    Fuel is never a restriction on the code: the binary search runs [eh_entries] rounds,
    the searches in a block one round per byte plus one, the repetition of
    [ext4_ext_create_new_leaf] at most once per level (the lookup refuses more than
    [EXT4_MAX_EXTENT_DEPTH]), the restart of [__ext4_find_entry] once (a directory cannot
    grow while it is searched by one thread), the retries of [__ext4_link] and of the creations
    at most 5 ([ext4_should_retry_alloc] gives up after 3), the rounds of [ext4_empty_dir] 2^33
    (its 32-bit offset grows in every round), the loops over the leaves of a hash tree
    2^48 rounds (the frames are a counter of at most three digits of 16 bits), the rounds
    of [ext4_dx_add_entry] 2^32 (each repeated one appended a block), the loop of [__evfs_extent_map] 8
    rounds (each round leaves, splits at one end of the range or moves on to the next
    extent), the walk of [ext4_ext_remove_space] 2^600 rounds (a node of a 64 kB block has
    fewer than 2^13 indexes and there are at most 33 levels) and its restarts as often as
    the journal asks for them, a bound that is a hypothesis on the journal; the search of
    [ext4_ext_determine_insert_hole] 2 rounds (the second starts at the block itself); the
    rounds of a shift and of a preallocation 2^600 (a round moves its iterator past a leaf, maps
    a block or counts as one of five tries).  Where fuel could run out the result is [Oops] or [None], which the theorems
    about results exclude.

    ** Outside the repository

    balloc.c, bitmap.c, ialloc.c, inode.c, dir.c, hash.c, inline.c, ext4_extents.h, jbd2,
    the buffer cache, the VFS, quota, fscrypt and unicode are not part of it.  Their
    functions are answers of [Env] or fields of the classes [Balloc], [ExtFmt], [ExtOps],
    [TreeEnv], [RemoveEnv], [MapEnv], [MountEnv], [Disk], [OptionAnswers], [Csum], [DirNames], [NameiEnv], [InlineDir], [DirInode], [RenameHooks], [FallocEnv], [FallocOps] and [SystemStates];
    what the theorems use of them are the laws [EnvFs], [EnvErrno], [BallocOk],
    [ExtFmtOk], [DirNamesOk], [DirHashOk], [NewInodeOk], [HooksLinks], [MountEnvOk], [DescsThere], [FallocOpsOk] and named hypotheses.
    Kernel primitives (bit operations, locks, reference counts, link counts) have their
    documented meaning.  The configuration is a 64-bit machine without
    CONFIG_EXT4_DEBUG, and without CONFIG_FS_ENCRYPTION in [ext4_fname_setup_filename].

    ** Not modelled

    The code of super.c behind the group descriptors of a mount (loading of the journal, quota,
    orphans, lazy initialisation) and the release of memory at unmount, the quota files,
    the other ioctls of ioctl.c,
    the remaining entry points of namei.c (lookup, get_parent, symlink, tmpfile and the
    wrapper of link), and the fiemap, swap and fast commit code of extents.c: none of it is reached from the
    eVFS handlers.  Removal from deep trees and with clusters and shifts of deep trees are modelled, the
    theorem is about extents in the inode and no clusters; so are the theorems on the mapping
    of blocks, and the conversion of written extents to unwritten is run in WitnessMap.v,
    without a theorem yet.  [ext4_zero_range] and the dispatch of [ext4_fallocate] are run in
    WitnessFalloc.v only.  Renaming a directory, replacing a target and exchanging two names are
    modelled and run in WitnessDir.v, without a theorem yet.  Threads are not interleaved: a handler runs against arbitrary answers
    of the outside but a fixed state.  The test programs and scripts are not modelled. *)

From stdpp Require Import prelude list gmap.
From Stdlib Require Import ZArith Lia.

(** ** Notations of the development *)

Declare Scope evfs_scope.
Delimit Scope evfs_scope with evfs.
Open Scope Z_scope.

(** ** Machine integers

    A w-bit unsigned quantity is a [Z]; every C assignment that may leave the
    range is written with the wrap-around of its type. *)

Definition wrap (w x : Z) : Z := x mod 2 ^ w.
Definition u8 (x : Z) : Z := wrap 8 x.
Definition u16 (x : Z) : Z := wrap 16 x.
Definition u32 (x : Z) : Z := wrap 32 x.
Definition u64 (x : Z) : Z := wrap 64 x.

(** [(int) x] on a two's complement machine. *)
Definition s32 (x : Z) : Z := (x + 2 ^ 31) mod 2 ^ 32 - 2 ^ 31.
(** [(long long) x], for [loff_t]. *)
Definition s64 (x : Z) : Z := (x + 2 ^ 63) mod 2 ^ 64 - 2 ^ 63.

Definition in_u (w x : Z) : Prop := 0 <= x < 2 ^ w.

Lemma wrap_small w x : in_u w x -> wrap w x = x.
Proof. apply Z.mod_small. Qed.

Lemma wrap_range w x : 0 <= w -> in_u w (wrap w x).
Proof. intros. apply Z.mod_pos_bound. lia. Qed.

Lemma u8_small x : 0 <= x < 256 -> u8 x = x.
Proof. apply Z.mod_small. Qed.
Lemma u16_small x : 0 <= x < 65536 -> u16 x = x.
Proof. apply Z.mod_small. Qed.
Lemma u32_small x : 0 <= x < 4294967296 -> u32 x = x.
Proof. apply Z.mod_small. Qed.
Lemma u64_small x : 0 <= x < 18446744073709551616 -> u64 x = x.
Proof. apply Z.mod_small. Qed.
Lemma s32_small x : -2147483648 <= x < 2147483648 -> s32 x = x.
Proof. intros. unfold s32. rewrite Z.mod_small; lia. Qed.
Lemma s64_small x : - 2 ^ 63 <= x < 2 ^ 63 -> s64 x = x.
Proof. intros. unfold s64. rewrite Z.mod_small; lia. Qed.

Lemma u8_range x : 0 <= u8 x < 256.
Proof. apply Z.mod_pos_bound. lia. Qed.
Lemma u16_range x : 0 <= u16 x < 65536.
Proof. apply Z.mod_pos_bound. lia. Qed.
Lemma u32_range x : 0 <= u32 x < 4294967296.
Proof. apply Z.mod_pos_bound. lia. Qed.
Lemma u64_range x : 0 <= u64 x < 18446744073709551616.
Proof. apply Z.mod_pos_bound. lia. Qed.

(** A number fits in [w] bits exactly when it has no bit from [w] on. *)
Lemma in_u_bits w x :
  0 <= w -> in_u w x <-> (forall i, w <= i -> Z.testbit x i = false).
Proof.
  intros Hw. split.
  - intros Hx i Hi. rewrite <- (wrap_small w x Hx). by apply Z.mod_pow2_bits_high.
  - intros Hb. replace x with (wrap w x); [by apply wrap_range|].
    apply Z.bits_inj'. intros i Hi. unfold wrap.
    destruct (Z.lt_ge_cases i w).
    + by apply Z.mod_pow2_bits_low.
    + rewrite Z.mod_pow2_bits_high by lia. symmetry. by apply Hb.
Qed.

(** The halves of a split counter do not overlap. *)
Lemma lor_shiftl_add lo hi k :
  0 <= k -> 0 <= lo < 2 ^ k -> Z.lor lo (Z.shiftl hi k) = lo + hi * 2 ^ k.
Proof.
  intros Hk Hlo. rewrite Z.shiftl_mul_pow2 by lia. symmetry.
  rewrite <- Z.lxor_lor; [apply Z.add_nocarry_lxor|];
    apply Z.bits_inj'; intros i Hi; rewrite Z.land_spec, Z.bits_0;
    rewrite Z.mul_pow2_bits by lia;
    (destruct (Z.lt_ge_cases i k);
     [rewrite (Z.testbit_neg_r _ (i - k)) by lia; apply andb_false_r
     |rewrite (proj1 (in_u_bits k lo Hk) Hlo i) by lia; done]).
Qed.

Lemma div_mod_shift v k : 0 <= k -> v mod 2 ^ k + Z.shiftr v k * 2 ^ k = v.
Proof.
  intros. rewrite Z.shiftr_div_pow2 by lia. pose proof (Z.div_mod v (2 ^ k)). lia.
Qed.

(** ** errno values used by the sources *)

Definition ENOENT : Z := 2.
Definition EIO : Z := 5.
Definition EAGAIN : Z := 11.
Definition ENOMEM : Z := 12.
Definition EFAULT : Z := 14.
Definition EBUSY : Z := 16.
Definition EEXIST : Z := 17.
Definition ENOTDIR : Z := 20.
Definition EINVAL : Z := 22.
Definition ENOTTY : Z := 25.
Definition ENOSPC : Z := 28.
Definition EBADMSG : Z := 74.
Definition EUCLEAN : Z := 117.
Definition EDQUOT : Z := 122.
Definition ENOKEY : Z := 126.
Definition ERESTARTSYS : Z := 512.
Definition EFSBADCRC : Z := EBADMSG.
Definition EFSCORRUPTED : Z := EUCLEAN.

(** ** Hints and tactics *)

Create HintDb evfs.

(** Rewriting with the range lemmas of the machine integers. *)
Create Rewrite HintDb machine.
#[export] Hint Rewrite u8_small u16_small u32_small u64_small s32_small
  using lia : machine.

(** Reflect the boolean comparisons of the code into arithmetic facts. *)
Ltac reflect_bools :=
  repeat match goal with
  | H : (_ =? _) = true |- _ => apply Z.eqb_eq in H
  | H : (_ =? _) = false |- _ => apply Z.eqb_neq in H
  | H : (_ <? _) = true |- _ => apply Z.ltb_lt in H
  | H : (_ <? _) = false |- _ => apply Z.ltb_ge in H
  | H : (_ <=? _) = true |- _ => apply Z.leb_le in H
  | H : (_ <=? _) = false |- _ => apply Z.leb_gt in H
  | H : (_ && _)%bool = true |- _ => apply andb_true_iff in H; destruct H
  | H : (_ || _)%bool = false |- _ => apply orb_false_iff in H; destruct H
  | H : negb _ = true |- _ => apply negb_true_iff in H
  | H : negb _ = false |- _ => apply negb_false_iff in H
  end.

(** Decide one comparison of the goal and continue on both branches. *)
Ltac case_cmp :=
  match goal with
  | |- context [?a =? ?b] => destruct (Z.eqb_spec a b)
  | |- context [?a <? ?b] => destruct (Z.ltb_spec a b)
  | |- context [?a <=? ?b] => destruct (Z.leb_spec a b)
  end.
