(* ===== verification/Kernel.v ===== *)
(** * The kernel environment of the handlers

    A small state monad in which the handlers of evfs.c, namei.c and
    extents.c are written.  A computation runs on a [world]: the modelled
    state of the component, the resources the thread holds (locks, buffer and
    inode references, journal handles), and the history of the calls it made to
    code outside the repository.  The answers of that code are given by an
    [Env] instance, a parameter that may depend on the whole history. *)

From stdpp Require Import prelude list gmap strings.
From Stdlib Require Import ZArith Lia.
From S2P Require Import Prelude.

(** ** Resources *)

(** The locks taken by the modelled code. *)
Inductive lockid :=
  | LInode (ino : Z)      (* inode->i_rwsem *)
  | LDataSem (ino : Z)    (* EXT4_I(inode)->i_data_sem *)
  | LReservation (ino : Z)  (* EXT4_I(inode)->i_block_reservation_lock *)
  | LInvalidate (ino : Z) (* mapping->invalidate_lock *)
  | LGroup (g : Z)        (* ext4_group_lock_ptr(sb, g) *)
  | LSbh                  (* the buffer lock of sbi->s_sbh *)
  | LBuffer (b : Z)       (* lock_buffer *)
  | LError                (* sbi->s_error_lock *)
  | LWritepages           (* sbi->s_writepages_rwsem *)
  | LBarrier              (* jbd2_journal_lock_updates *)
  | LNew (ino : Z)        (* I_NEW of an inode being set up *)
  | LTracker (n : Z).     (* tracker->rwsems[n] *)

(** Counted references. *)
Inductive refid :=
  | RInode (ino : Z)      (* iget .. iput *)
  | RBh (b : Z)           (* bread/getblk .. brelse, by buffer *)
  | RDirBh (ino b : Z)    (* the same for a logical block of a directory *)
  | RDentry (d : Z)       (* d_alloc / d_find_any_alias .. dput *)
  | RHandle.              (* ext4_journal_start .. ext4_journal_stop *)

Inductive res :=
  | Excl (l : lockid)
  | Shared (l : lockid)
  | Ref (r : refid).

Definition lockid_eqb (a b : lockid) : bool :=
  match a, b with
  | LInode i, LInode j | LDataSem i, LDataSem j | LReservation i, LReservation j | LInvalidate i, LInvalidate j
  | LGroup i, LGroup j | LTracker i, LTracker j | LBuffer i, LBuffer j
  | LNew i, LNew j => i =? j
  | LSbh, LSbh | LError, LError | LWritepages, LWritepages | LBarrier, LBarrier => true
  | _, _ => false
  end.

Definition refid_eqb (a b : refid) : bool :=
  match a, b with
  | RInode i, RInode j | RBh i, RBh j | RDentry i, RDentry j => i =? j
  | RDirBh i k, RDirBh j l => (i =? j) && (k =? l)
  | RHandle, RHandle => true
  | _, _ => false
  end.

Definition res_eqb (a b : res) : bool :=
  match a, b with
  | Excl l, Excl m | Shared l, Shared m => lockid_eqb l m
  | Ref r, Ref s => refid_eqb r s
  | _, _ => false
  end.

#[export] Instance lockid_eq_dec : EqDecision lockid.
Proof. solve_decision. Defined.
#[export] Instance refid_eq_dec : EqDecision refid.
Proof. solve_decision. Defined.
#[export] Instance res_eq_dec : EqDecision res.
Proof. solve_decision. Defined.

Lemma res_eqb_eq a b : res_eqb a b = true <-> a = b.
Proof.
  split.
  - destruct a as [[]|[]|[]], b as [[]|[]|[]]; simpl; try discriminate;
      intros H; reflect_bools; congruence.
  - intros <-. destruct a as [[]|[]|[]]; simpl; rewrite ?Z.eqb_refl; done.
Qed.

Lemma res_eqb_refl a : res_eqb a a = true.
Proof. by apply res_eqb_eq. Qed.

(** [take_res r held]: the new set of held resources, or [None] when taking
    [r] blocks forever because this very thread holds the lock. *)
Definition blocks_on (r h : res) : bool :=
  match r, h with
  | Excl l, Excl m | Excl l, Shared m | Shared l, Excl m => lockid_eqb l m
  | _, _ => false
  end.

Definition take_res (r : res) (held : list res) : option (list res) :=
  if existsb (blocks_on r) held then None else Some (r :: held).

(** [drop_res r held] gives one [r] back; [None] when it is not held. *)
Fixpoint drop_res (r : res) (held : list res) : option (list res) :=
  match held with
  | [] => None
  | h :: held => if res_eqb r h then Some held
                 else (h ::.) <$> drop_res r held
  end.

(** ** Answers of the code outside the repository *)

Abbreviation call := (string * list Z)%type.

(** A pointer-returning function answers a valid pointer, an error pointer or
    NULL. *)
Inductive reply := PtrOk | PtrErr (e : Z) | PtrNull.

Class Env := {
  env_int : list call -> string -> list Z -> Z;
  env_ptr : list call -> string -> list Z -> reply
}.

(** Between the histories [h] and [h'] a function was called, and this was the answer. *)
Definition answered `{Env} (h h' : list call) (f : string) (a : list Z) (z : Z) : Prop :=
  exists hm, h `suffix_of` hm /\ (f, a) :: hm `suffix_of` h' /\ env_int hm f a = z.
Definition answered_ptr `{Env} (h h' : list call) (f : string) (a : list Z) (r : reply) : Prop :=
  exists hm, h `suffix_of` hm /\ (f, a) :: hm `suffix_of` h' /\ env_ptr hm f a = r.

Lemma answered_last `{Env} h hm f a z : h `suffix_of` hm -> env_int hm f a = z -> answered h ((f, a) :: hm) f a z.
Proof. intros Hs He. by exists hm. Qed.
Lemma answered_ptr_last `{Env} h hm f a r :
  h `suffix_of` hm -> env_ptr hm f a = r -> answered_ptr h ((f, a) :: hm) f a r.
Proof. intros Hs He. by exists hm. Qed.
Lemma answered_later `{Env} h h' h'' f a z : h' `suffix_of` h'' -> answered h h' f a z -> answered h h'' f a z.
Proof. intros Hs (hm & ? & ? & ?). exists hm. split_and!; [done|by etrans|done]. Qed.
Lemma answered_ptr_later `{Env} h h' h'' f a r :
  h' `suffix_of` h'' -> answered_ptr h h' f a r -> answered_ptr h h'' f a r.
Proof. intros Hs (hm & ? & ? & ?). exists hm. split_and!; [done|by etrans|done]. Qed.

(** A history grows by the calls of the steps taken. *)
Ltac grown := repeat first [assumption|reflexivity|apply suffix_cons_r].

(** IS_ERR(p) holds of the last MAX_ERRNO addresses only, so an error pointer
    carries a value in [-4095, -1]. *)
Class EnvErrno `{Env} := {
  env_errno : forall h f a e, env_ptr h f a = PtrErr e -> -4095 <= e < 0
}.

(** ** Worlds and the monad *)

Record world (S : Type) := World {
  w_st : S;
  w_held : list res;
  w_calls : list call
}.
Arguments World {S} _ _ _.
Arguments w_st {S} _.
Arguments w_held {S} _.
Arguments w_calls {S} _.

(** [Ret]: the code returns; [Oops]: it dereferences NULL, hits a BUG_ON or
    releases what it does not hold; [Deadlock]: it waits for itself. *)
Inductive outcome (S A : Type) :=
  | Ret (a : A) (w : world S)
  | Oops
  | Deadlock.
Arguments Ret {S A} _ _.
Arguments Oops {S A}.
Arguments Deadlock {S A}.

Definition K (S A : Type) : Type := world S -> outcome S A.

Definition kret {S A} (a : A) : K S A := fun w => Ret a w.

Definition kbind {S A B} (m : K S A) (f : A -> K S B) : K S B := fun w =>
  match m w with
  | Ret a w' => f a w'
  | Oops => Oops
  | Deadlock => Deadlock
  end.

Definition koops {S A} : K S A := fun _ => Oops.

Definition kget {S} : K S S := fun w => Ret (w_st w) w.

Definition kmodify {S} (f : S -> S) : K S unit := fun w =>
  Ret tt (World (f (w_st w)) (w_held w) (w_calls w)).

Notation "x <~ m ;; k" := (kbind m (fun x => k))
  (at level 100, m at next level, right associativity) : evfs_scope.
Notation "m ;;; k" := (kbind m (fun _ => k))
  (at level 100, right associativity) : evfs_scope.
Open Scope evfs_scope.

Definition acquire {S} (r : res) : K S unit := fun w =>
  match take_res r (w_held w) with
  | Some h => Ret tt (World (w_st w) h (w_calls w))
  | None => Deadlock
  end.

Definition release {S} (r : res) : K S unit := fun w =>
  match drop_res r (w_held w) with
  | Some h => Ret tt (World (w_st w) h (w_calls w))
  | None => Oops
  end.

Section Calls.
Context `{Env} {S : Type}.

Definition call_int (f : string) (args : list Z) : K S Z := fun w =>
  Ret (env_int (w_calls w) f args)
      (World (w_st w) (w_held w) ((f, args) :: w_calls w)).

Definition call_ptr (f : string) (args : list Z) : K S reply := fun w =>
  Ret (env_ptr (w_calls w) f args)
      (World (w_st w) (w_held w) ((f, args) :: w_calls w)).
End Calls.

(** Run a computation of one component inside a larger state. *)
Definition zoom {S T A} (get : S -> T) (put : T -> S -> S) (m : K T A) : K S A :=
  fun w =>
    match m (World (get (w_st w)) (w_held w) (w_calls w)) with
    | Ret a w' => Ret a (World (put (w_st w') (w_st w)) (w_held w') (w_calls w'))
    | Oops => Oops
    | Deadlock => Deadlock
    end.

(** ** Monad laws *)

Lemma kbind_kret {S A B} (a : A) (f : A -> K S B) w : kbind (kret a) f w = f a w.
Proof. reflexivity. Qed.

Lemma kbind_assoc {S A B C} (m : K S A) (f : A -> K S B) (g : B -> K S C) w :
  kbind (kbind m f) g w = kbind m (fun x => kbind (f x) g) w.
Proof. unfold kbind. by destruct (m w). Qed.

(** ** Reasoning principles

    [wp m Q w]: running [m] from [w] returns and the result satisfies [Q]; in
    particular the run neither oopses nor deadlocks. *)
Definition wp {S A} (m : K S A) (Q : A -> world S -> Prop) (w : world S) : Prop :=
  match m w with Ret a w' => Q a w' | _ => False end.

Lemma wp_ret {S A} (a : A) (Q : A -> world S -> Prop) w : Q a w -> wp (kret a) Q w.
Proof. done. Qed.

Lemma wp_bind {S A B} (m : K S A) (f : A -> K S B) Q w :
  wp m (fun a => wp (f a) Q) w -> wp (kbind m f) Q w.
Proof. unfold wp, kbind. by destruct (m w). Qed.

Lemma wp_mono {S A} (m : K S A) (P Q : A -> world S -> Prop) w :
  wp m P w -> (forall a w', P a w' -> Q a w') -> wp m Q w.
Proof. unfold wp. destruct (m w); auto. Qed.

Lemma wp_get {S} (Q : S -> world S -> Prop) w : Q (w_st w) w -> wp kget Q w.
Proof. done. Qed.

Lemma wp_modify {S} (f : S -> S) (Q : unit -> world S -> Prop) w :
  Q tt (World (f (w_st w)) (w_held w) (w_calls w)) -> wp (kmodify f) Q w.
Proof. done. Qed.

Lemma wp_acquire {S} r (Q : unit -> world S -> Prop) w :
  existsb (blocks_on r) (w_held w) = false ->
  Q tt (World (w_st w) (r :: w_held w) (w_calls w)) -> wp (acquire r) Q w.
Proof. unfold wp, acquire, take_res. by intros ->. Qed.

Lemma wp_release {S} r h (Q : unit -> world S -> Prop) w :
  drop_res r (w_held w) = Some h ->
  Q tt (World (w_st w) h (w_calls w)) -> wp (release r) Q w.
Proof. unfold wp, release. by intros ->. Qed.

Lemma wp_call_int {S} `{Env} f args (Q : Z -> world S -> Prop) w :
  (forall z, env_int (w_calls w) f args = z ->
     Q z (World (w_st w) (w_held w) ((f, args) :: w_calls w))) ->
  wp (call_int f args) Q w.
Proof. unfold wp, call_int. eauto. Qed.

Lemma wp_call_ptr {S} `{Env} f args (Q : reply -> world S -> Prop) w :
  (forall r, env_ptr (w_calls w) f args = r ->
     Q r (World (w_st w) (w_held w) ((f, args) :: w_calls w))) ->
  wp (call_ptr f args) Q w.
Proof. unfold wp, call_ptr. eauto. Qed.

Lemma wp_zoom {S T A} get put (m : K T A) (Q : A -> world S -> Prop) w :
  wp m (fun a w' => Q a (World (put (w_st w') (w_st w)) (w_held w') (w_calls w')))
     (World (get (w_st w)) (w_held w) (w_calls w)) ->
  wp (zoom get put m) Q w.
Proof. unfold wp, zoom. by destruct (m _). Qed.

Lemma drop_res_head r held : drop_res r (r :: held) = Some held.
Proof. simpl. by rewrite res_eqb_refl. Qed.

Lemma drop_res_app r l h0 :
  r ∈ l -> exists l', drop_res r (l ++ h0) = Some (l' ++ h0) /\ l ≡ₚ r :: l'.
Proof.
  induction l as [|x l IH]; intros Hr; [by apply not_elem_of_nil in Hr|]. simpl.
  destruct (res_eqb r x) eqn:Hx.
  - apply res_eqb_eq in Hx as ->. eauto.
  - assert (Hl : r ∈ l).
    { apply elem_of_cons in Hr as [->|]; [by rewrite res_eqb_refl in Hx|done]. }
    destruct (IH Hl) as (l' & -> & Hp). exists (x :: l'). split; [done|].
    rewrite Hp. apply Permutation_swap.
Qed.

(** The resources [l] are held on top of [h0], in some order. *)
Definition on_top (l h0 held : list res) : Prop := exists l', held = l' ++ h0 /\ l' ≡ₚ l.

Lemma on_top_nil h0 held : on_top [] h0 held <-> held = h0.
Proof.
  split; [intros (l & -> & Hl)|intros ->; by exists []]. by apply Permutation_nil_r in Hl as ->.
Qed.
Lemma on_top_cons r l h0 held : on_top l h0 held -> on_top (r :: l) h0 (r :: held).
Proof. intros (l' & -> & Hl). exists (r :: l'). split; [done|by rewrite Hl]. Qed.
Lemma on_top_permutation l l' h0 held : l ≡ₚ l' -> on_top l h0 held -> on_top l' h0 held.
Proof. intros Hp (k & -> & Hk). exists k. split; [done|by rewrite Hk]. Qed.

Lemma wp_release_top {S} r l h0 (Q : unit -> world S -> Prop) w :
  on_top (r :: l) h0 (w_held w) ->
  (forall h, on_top l h0 h -> Q tt (World (w_st w) h (w_calls w))) -> wp (release r) Q w.
Proof.
  intros (k & Hw & Hk) HQ. destruct (drop_res_app r k h0) as (k' & Hd & Hp).
  { rewrite Hk. by apply list_elem_of_here. }
  rewrite <- Hw in Hd. eapply wp_release; [exact Hd|]. apply HQ. exists k'. split; [done|].
  apply (Permutation_cons_inv (a := r)). by rewrite <- Hp.
Qed.

(** A run that oopses after its first part returned. *)
Lemma bind_oops {S A B} (m : K S A) (f : A -> K S B) w :
  wp m (fun a w' => f a w' = Oops) w -> kbind m f w = Oops.
Proof. unfold wp, kbind. by destruct (m w). Qed.

Lemma bind_oops_left {S A B} (m : K S A) (f : A -> K S B) w : m w = Oops -> kbind m f w = Oops.
Proof. unfold kbind. by intros ->. Qed.

(** Taking a counted reference never blocks. *)
Lemma existsb_ref r held : existsb (blocks_on (Ref r)) held = false.
Proof. by induction held as [|[]]. Qed.

Lemma wp_run {S A} (m : K S A) (Q : A -> world S -> Prop) w :
  wp m Q w -> exists a w', m w = Ret a w' /\ Q a w'.
Proof. unfold wp. destruct (m w); naive_solver. Qed.

(** Symbolic execution: apply the rule of the head operation, decide the locks
    and references by computation, and stop at the branches of the code. *)
Ltac held_simpl :=
  cbn [existsb blocks_on lockid_eqb orb drop_res res_eqb refid_eqb
       w_held w_st w_calls fmap option_fmap option_map];
  rewrite ?Z.eqb_refl;
  cbn [existsb blocks_on lockid_eqb orb drop_res res_eqb refid_eqb
       w_held w_st w_calls fmap option_fmap option_map].

Ltac wp_step :=
  lazymatch goal with
  | |- wp (kret _) _ _ => apply wp_ret
  | |- wp (kbind _ _) _ _ => apply wp_bind
  | |- wp kget _ _ => apply wp_get
  | |- wp (kmodify _) _ _ => apply wp_modify
  | |- wp (acquire (Ref _)) _ _ => apply wp_acquire; [apply existsb_ref|]
  | |- wp (acquire _) _ _ => apply wp_acquire; [held_simpl; try done|]
  | |- wp (release _) _ _ =>
      eapply wp_release; [first [apply drop_res_head | held_simpl; reflexivity]|]
  | |- wp (call_int _ _) _ _ => let H := fresh "Hc" in
      apply wp_call_int; intros ? H; cbn [w_held w_st w_calls] in H
  | |- wp (call_ptr _ _) _ _ => let H := fresh "Hc" in
      apply wp_call_ptr; intros ? H; cbn [w_held w_st w_calls] in H
  | |- wp (zoom _ _ _) _ _ => apply wp_zoom
  end; cbn [w_held w_st w_calls].

(** Case split on the scrutinee the execution is stuck on. *)
Ltac wp_case :=
  match goal with
  | |- wp (match ?x with _ => _ end) _ _ => destruct x eqn:?
  | |- wp (if ?x then _ else _) _ _ => destruct x eqn:?
  end.

Ltac wp_auto := repeat (wp_step || wp_case).

(** ** Loops

    [kiter p body a] runs at most [p] rounds of [body]: [inr] is the result of a round
    that left the loop, [inl] the state after the last round.  The bound is binary, so a
    loop with a large bound still runs as long as the code does. *)
Fixpoint kiter {S A B} (p : positive) (body : A -> K S (A + B)) (a : A) : K S (A + B) :=
  let twice q a :=
    r <~ kiter q body a;;
    match r with inl a => kiter q body a | inr b => kret (inr b) end in
  match p with
  | xH => body a
  | xO q => twice q a
  | xI q => r <~ body a;; match r with inl a => twice q a | inr b => kret (inr b) end
  end.

Definition kloop {S A B} (p : positive) (body : A -> K S (A + B)) (a : A) : K S B :=
  r <~ kiter p body a;; match r with inl _ => koops | inr b => kret b end.

Section Loops.
Context {S A B : Type} (body : A -> K S (A + B)).
Context (I : A -> world S -> Prop) (mu : A -> world S -> Z) (Q : B -> world S -> Prop).

(** What a round promises: it leaves with [Q], or keeps [I] and lowers [mu]. *)
Definition round_ok (m : Z) (r : A + B) (w : world S) : Prop :=
  match r with inl a => I a w /\ 0 <= mu a w <= m | inr b => Q b w end.

Hypothesis Hbody : forall a w, I a w -> wp (body a) (round_ok (mu a w - 1)) w.

Lemma round_ok_le m m' r w : m <= m' -> round_ok m r w -> round_ok m' r w.
Proof. destruct r; simpl; [|done]. intros ? [? ?]. split; [done|lia]. Qed.

Lemma wp_kiter p : forall a w, I a w -> wp (kiter p body a) (round_ok (mu a w - Z.pos p)) w.
Proof.
  assert (Htwice : forall q, (forall a w, I a w -> wp (kiter q body a) (round_ok (mu a w - Z.pos q)) w) ->
    forall a w m, I a w -> mu a w - 2 * Z.pos q <= m ->
    wp (r <~ kiter q body a;; match r with inl a => kiter q body a | inr b => kret (inr b) end)
      (round_ok m) w).
  { intros q IH a w m Ha Hm. apply wp_bind. eapply wp_mono; [by apply IH|].
    intros [a'|b] w'; simpl; [|by intros ?; apply wp_ret]. intros [Ha' Hmu].
    eapply wp_mono; [by apply IH|]. intros r w''. apply round_ok_le. lia. }
  induction p as [p IH|p IH|]; intros a w Ha; cbn [kiter].
  - apply wp_bind. eapply wp_mono; [by apply Hbody|].
    intros [a'|b] w'; simpl; [|by intros ?; apply wp_ret]. intros [Ha' Hmu].
    apply (Htwice p IH); [done|lia].
  - apply (Htwice p IH); [done|lia].
  - eapply wp_mono; [by apply Hbody|]. intros r w'. apply round_ok_le. lia.
Qed.

(** A loop whose measure starts below its bound returns. *)
Lemma wp_kloop p a w : I a w -> mu a w < Z.pos p -> wp (kloop p body a) Q w.
Proof.
  intros Ha Hmu. apply wp_bind. eapply wp_mono; [by apply wp_kiter|].
  intros [a'|b] w'; simpl; [lia|]. intros ?. by apply wp_ret.
Qed.
End Loops.

(** ** Locks that survive a computation *)

(** [keeps r m]: a run of [m] that returns still holds [r] if it held it before. *)
Definition keeps {S A} (r : res) (m : K S A) : Prop :=
  forall w a w', m w = Ret a w' -> r ∈ w_held w -> r ∈ w_held w'.

Section Keeps.
Context {S : Type} (r : res).

Lemma keeps_ret {A} (a : A) : keeps r (@kret S A a).
Proof. intros w a' w' [= <- <-]. done. Qed.
Lemma keeps_oops {A} : keeps r (@koops S A).
Proof. intros w a' w' [=]. Qed.
Lemma keeps_get : keeps r (@kget S).
Proof. intros w a' w' [= <- <-]. done. Qed.
Lemma keeps_modify (f : S -> S) : keeps r (kmodify f).
Proof. intros w a' w' [= <- <-]. done. Qed.
Lemma keeps_bind {A B} (m : K S A) (f : A -> K S B) :
  keeps r m -> (forall a, keeps r (f a)) -> keeps r (kbind m f).
Proof.
  intros Hm Hf w a' w'. unfold kbind. destruct (m w) eqn:E; intros Hr Hin; try done.
  eapply Hf; [exact Hr|]. by eapply Hm.
Qed.
Lemma keeps_acquire x : keeps r (@acquire S x).
Proof.
  intros w a' w'. unfold acquire, take_res. case_match; [|done].
  destruct (existsb _ _); [done|]. simplify_eq. intros [= <- <-]. simpl. by right.
Qed.
Lemma keeps_release x : x <> r -> keeps r (@release S x).
Proof.
  intros Hne w a' w'. unfold release.
  destruct (drop_res x (w_held w)) as [h|] eqn:E; [|done].
  intros [= <- <-]. simpl. revert h E. induction (w_held w) as [|y l IH]; simpl; [done|].
  intros h. destruct (res_eqb x y) eqn:Exy.
  - intros [= <-] Hin. apply res_eqb_eq in Exy. subst y.
    apply elem_of_cons in Hin as [->|]; done.
  - destruct (drop_res x l) as [h'|]; simpl; [|done]. intros [= <-] Hin.
    apply elem_of_cons in Hin as [->|Hin]; [by left|right; eauto].
Qed.
Lemma keeps_call_int `{Env} f args : keeps r (@call_int _ S f args).
Proof. intros w a' w' [= <- <-]. done. Qed.
Lemma keeps_call_ptr `{Env} f args : keeps r (@call_ptr _ S f args).
Proof. intros w a' w' [= <- <-]. done. Qed.
Lemma keeps_zoom {T A} get put (m : K T A) : keeps r m -> keeps r (@zoom S T A get put m).
Proof.
  intros Hm w a' w'. unfold zoom. destruct (m _) eqn:E; intros Hr; try done.
  simplify_eq. simpl. intros Hin. by eapply (Hm _ _ _ E).
Qed.

(** Taking another lock of a kind: either it is another one, or the thread waits
    for itself and does not return. *)
Lemma keeps_lock {A} l m (f : unit -> K S A) :
  r = Excl l -> (m <> l -> forall a, keeps r (f a)) -> keeps r (kbind (acquire (Excl m)) f).
Proof.
  intros -> Hf w a w'. unfold kbind, acquire, take_res. destruct (existsb _ _) eqn:E; [done|].
  intros Hr Hin. eapply (Hf ltac:(idtac) tt); [exact Hr|by right].
  Unshelve. intros ->. assert (existsb (blocks_on (Excl l)) (w_held w) = true); [|congruence].
  apply existsb_exists. exists (Excl l). split; [by apply list_elem_of_In|].
  apply (res_eqb_refl (Excl l)).
Qed.

Lemma keeps_kiter {A B} p (body : A -> K S (A + B)) :
  (forall a, keeps r (body a)) -> forall a, keeps r (kiter p body a).
Proof.
  intros Hb. assert (Htwice : forall q, (forall a, keeps r (kiter q body a)) -> forall a,
    keeps r (x <~ kiter q body a;; match x with inl a => kiter q body a | inr b => kret (inr b) end)).
  { intros q Hq a. apply keeps_bind; [done|]. intros [?|?]; [done|apply keeps_ret]. }
  induction p as [p IH|p IH|]; intros a; cbn [kiter]; [|by apply Htwice|done].
  apply keeps_bind; [done|]. intros [?|?]; [by apply Htwice|apply keeps_ret].
Qed.
Lemma keeps_kloop {A B} p (body : A -> K S (A + B)) a :
  (forall a, keeps r (body a)) -> keeps r (kloop p body a).
Proof.
  intros Hb. apply keeps_bind; [by apply keeps_kiter|]. intros [?|?]; [apply keeps_oops|apply keeps_ret].
Qed.
End Keeps.

(** Walk through a computation, case by case. *)
Ltac keeps_step :=
  lazymatch goal with
  | |- keeps _ (kret _) => apply keeps_ret
  | |- keeps _ koops => apply keeps_oops
  | |- keeps _ kget => apply keeps_get
  | |- keeps _ (kmodify _) => apply keeps_modify
  | |- keeps _ (kbind _ _) => apply keeps_bind; [|intros ?]
  | |- keeps _ (acquire _) => apply keeps_acquire
  | |- keeps _ (release _) => apply keeps_release; done
  | |- keeps _ (call_int _ _) => apply keeps_call_int
  | |- keeps _ (call_ptr _ _) => apply keeps_call_ptr
  | |- keeps _ (zoom _ _ _) => apply keeps_zoom
  | |- keeps _ (kloop _ _ _) => apply keeps_kloop; intros ?
  | |- keeps _ (match ?x with _ => _ end) => destruct x
  end.
Create HintDb keepsdb.
Ltac keeps_auto := repeat (keeps_step || (solve [eauto with keepsdb]) || (progress cbv zeta)).
