(* ===== verification/Bytes.v ===== *)
(** * Buffers of bytes

    On-disk structures (super block, group descriptors, directory blocks) are
    buffers: lists of bytes, each a [Z] in [0, 256).  This file holds the
    little-endian loads and stores ([le16_to_cpu], [cpu_to_le32], ...), [memcpy]
    and [memset], and the read-after-write lemmas the components use. *)

From stdpp Require Import prelude list.
From Stdlib Require Import ZArith Lia.
From S2P Require Import Prelude.

(** Load of one byte; the model reads 0 outside the buffer. *)
Definition getb (l : list Z) (i : Z) : Z :=
  if i <? 0 then 0 else nth (Z.to_nat i) l 0.

(** Store of one byte; a store outside the buffer has no effect on it. *)
Definition putb (l : list Z) (i v : Z) : list Z :=
  if i <? 0 then l else <[Z.to_nat i := u8 v]> l.

(** [memcpy(l + off, bs, length bs)] *)
Fixpoint puts (l : list Z) (off : Z) (bs : list Z) : list Z :=
  match bs with
  | [] => l
  | b :: bs => puts (putb l off b) (off + 1) bs
  end.

(** The [n] bytes at [off]. *)
Definition gets (l : list Z) (off : Z) (n : nat) : list Z :=
  (fun k => getb l (off + Z.of_nat k)) <$> seq 0 n.

Definition memset (l : list Z) (off c n : Z) : list Z :=
  puts l off (replicate (Z.to_nat n) c).

(** Little-endian values of [n] bytes. *)
Fixpoint le_get (n : nat) (l : list Z) (off : Z) : Z :=
  match n with
  | O => 0
  | S n => getb l off + 256 * le_get n l (off + 1)
  end.

Fixpoint le_bytes (n : nat) (v : Z) : list Z :=
  match n with
  | O => []
  | S n => u8 v :: le_bytes n (v / 256)
  end.

Definition le_put (n : nat) (l : list Z) (off v : Z) : list Z :=
  puts l off (le_bytes n v).

Abbreviation get16 := (le_get 2).
Abbreviation get32 := (le_get 4).
Abbreviation put16 := (le_put 2).
Abbreviation put32 := (le_put 4).

Definition bytes_ok (l : list Z) : Prop := Forall (fun b => 0 <= b < 256) l.

(** ** Lengths *)

Lemma length_putb l i v : length (putb l i v) = length l.
Proof. unfold putb. case_cmp; [done|]. apply length_insert. Qed.

Lemma length_puts bs : forall l off, length (puts l off bs) = length l.
Proof. induction bs; simpl; intros; [done|]. by rewrite IHbs, length_putb. Qed.

Lemma length_le_bytes n : forall v, length (le_bytes n v) = n.
Proof. induction n; simpl; intros; auto. Qed.

Lemma length_le_put n l off v : length (le_put n l off v) = length l.
Proof. apply length_puts. Qed.

Lemma length_memset l off c n : length (memset l off c n) = length l.
Proof. apply length_puts. Qed.

Lemma length_gets l off n : length (gets l off n) = n.
Proof. unfold gets. by rewrite length_fmap, length_seq. Qed.

Create Rewrite HintDb len.
#[export] Hint Rewrite length_putb length_puts length_le_bytes length_le_put
  length_memset length_gets @length_replicate : len.

(** ** Loads after stores *)

Lemma getb_putb_ne l i j v : i <> j -> getb (putb l i v) j = getb l j.
Proof.
  intros Hne. unfold getb, putb. repeat case_cmp; try done.
  rewrite !nth_lookup, list_lookup_insert_ne by lia. done.
Qed.

Lemma getb_putb_eq l i v :
  0 <= i < Z.of_nat (length l) -> getb (putb l i v) i = u8 v.
Proof.
  intros Hi. unfold getb, putb. case_cmp; [lia|].
  rewrite nth_lookup, list_lookup_insert_eq by lia. done.
Qed.

Lemma getb_puts_out bs : forall l off i,
  (i < off \/ off + Z.of_nat (length bs) <= i) ->
  getb (puts l off bs) i = getb l i.
Proof.
  induction bs as [|b bs IH]; simpl; intros l off i Hi; [done|].
  rewrite IH by lia. apply getb_putb_ne. lia.
Qed.

Lemma getb_puts_in bs : forall l off k,
  0 <= off -> off + Z.of_nat (length bs) <= Z.of_nat (length l) ->
  (k < length bs)%nat ->
  getb (puts l off bs) (off + Z.of_nat k) = u8 (nth k bs 0).
Proof.
  induction bs as [|b bs IH]; simpl; intros l off k H0 Hl Hk; [lia|].
  destruct k as [|k].
  - rewrite getb_puts_out by lia. replace (off + Z.of_nat 0) with off by lia.
    apply getb_putb_eq. lia.
  - replace (off + Z.of_nat (S k)) with (off + 1 + Z.of_nat k) by lia.
    apply IH; [lia| |lia]. rewrite length_putb. lia.
Qed.

Lemma le_get_ext n : forall l l' off,
  (forall i, off <= i < off + Z.of_nat n -> getb l i = getb l' i) ->
  le_get n l off = le_get n l' off.
Proof.
  induction n as [|n IH]; simpl; intros l l' off H; [done|].
  rewrite H by lia. f_equal. f_equal. apply IH. intros. apply H. lia.
Qed.

Lemma le_get_puts_out n l off bs i :
  (i + Z.of_nat n <= off \/ off + Z.of_nat (length bs) <= i) ->
  le_get n (puts l off bs) i = le_get n l i.
Proof. intros H. apply le_get_ext. intros. apply getb_puts_out. lia. Qed.

Lemma le_get_put_out n m l off v i :
  (i + Z.of_nat n <= off \/ off + Z.of_nat m <= i) ->
  le_get n (le_put m l off v) i = le_get n l i.
Proof. intros H. apply le_get_puts_out. by rewrite length_le_bytes. Qed.

Lemma le_get_put_eq n : forall l off v,
  0 <= off -> off + Z.of_nat n <= Z.of_nat (length l) ->
  le_get n (le_put n l off v) off = v mod 256 ^ Z.of_nat n.
Proof.
  induction n as [|n IH]; intros l off v H0 Hl.
  - simpl. by rewrite Z.mod_1_r.
  - unfold le_put in *. cbn [le_bytes puts le_get].
    rewrite getb_puts_out by lia. rewrite getb_putb_eq by lia.
    rewrite IH; [|lia|rewrite length_putb; lia].
    rewrite Nat2Z.inj_succ, Z.pow_succ_r by lia.
    rewrite (Z.rem_mul_r v 256) by lia.
    unfold u8, wrap. change (2 ^ 8) with 256. by rewrite Zmod_mod.
Qed.

Lemma getb_range l i : bytes_ok l -> 0 <= getb l i < 256.
Proof.
  intros Hl. unfold getb. case_cmp; [lia|].
  rewrite nth_lookup. destruct (l !! Z.to_nat i) eqn:E; simpl; [|lia].
  eapply Forall_lookup in Hl; eauto.
Qed.

Lemma bytes_ok_putb l i v : bytes_ok l -> bytes_ok (putb l i v).
Proof.
  intros Hl. unfold putb. case_cmp; [done|].
  apply Forall_insert; [done|]. apply u8_range.
Qed.

Lemma bytes_ok_puts bs : forall l off, bytes_ok l -> bytes_ok (puts l off bs).
Proof. induction bs; simpl; auto using bytes_ok_putb. Qed.

Lemma le_get_range n : forall l off,
  bytes_ok l -> 0 <= le_get n l off < 256 ^ Z.of_nat n.
Proof.
  induction n as [|n IH]; intros l off Hl; [simpl; lia|].
  cbn [le_get]. rewrite Nat2Z.inj_succ, Z.pow_succ_r by lia.
  pose proof (getb_range l off Hl). specialize (IH l (off + 1) Hl). nia.
Qed.

Lemma get16_range l off : bytes_ok l -> 0 <= get16 l off < 65536.
Proof. apply (le_get_range 2). Qed.

Lemma get32_range l off : bytes_ok l -> 0 <= get32 l off < 4294967296.
Proof. apply (le_get_range 4). Qed.

Lemma get16_put16_eq l off v :
  0 <= off -> off + 2 <= Z.of_nat (length l) -> get16 (put16 l off v) off = u16 v.
Proof. intros. rewrite le_get_put_eq by lia. done. Qed.

Lemma get32_put32_eq l off v :
  0 <= off -> off + 4 <= Z.of_nat (length l) -> get32 (put32 l off v) off = u32 v.
Proof. intros. rewrite le_get_put_eq by lia. done. Qed.

Lemma gets_ext l l' off n :
  (forall i, off <= i < off + Z.of_nat n -> getb l i = getb l' i) ->
  gets l off n = gets l' off n.
Proof.
  intros H. unfold gets. apply list_fmap_ext. intros i k Hk.
  apply lookup_seq in Hk as [-> ?]. apply H. lia.
Qed.

Lemma gets_puts_eq l off bs :
  0 <= off -> off + Z.of_nat (length bs) <= Z.of_nat (length l) -> bytes_ok bs ->
  gets (puts l off bs) off (length bs) = bs.
Proof.
  intros H0 Hl Hbs. apply list_eq. intros k. unfold gets.
  rewrite list_lookup_fmap.
  destruct (decide (k < length bs)%nat) as [Hk|Hk].
  - rewrite lookup_seq_lt by done. simpl. rewrite getb_puts_in by lia.
    destruct (lookup_lt_is_Some_2 bs k Hk) as [b Hb]. rewrite Hb.
    rewrite nth_lookup, Hb. simpl. f_equal. apply u8_small.
    unfold bytes_ok in Hbs. by eapply Forall_lookup in Hbs.
  - rewrite lookup_seq_ge by lia. simpl. symmetry. apply lookup_ge_None. lia.
Qed.

Lemma gets_puts_out l off bs i n :
  (i + Z.of_nat n <= off \/ off + Z.of_nat (length bs) <= i) ->
  gets (puts l off bs) i n = gets l i n.
Proof. intros H. apply gets_ext. intros. apply getb_puts_out. lia. Qed.

Lemma getb_memset_in l off c n i :
  0 <= off -> 0 <= n -> off + n <= Z.of_nat (length l) -> off <= i < off + n ->
  getb (memset l off c n) i = u8 c.
Proof.
  intros. unfold memset. replace i with (off + Z.of_nat (Z.to_nat (i - off))) by lia.
  rewrite getb_puts_in; [|lia|rewrite length_replicate; lia|rewrite length_replicate; lia].
  rewrite nth_lookup, lookup_replicate_2 by lia. done.
Qed.

Lemma le_get_zero n : forall l off,
  (forall i, off <= i < off + Z.of_nat n -> getb l i = 0) -> le_get n l off = 0.
Proof.
  induction n as [|n IH]; simpl; intros l off H; [done|].
  rewrite H, IH by (intros; try apply H; lia). lia.
Qed.

Lemma le_get_putb_out n l i v off :
  (off + Z.of_nat n <= i \/ i < off) -> le_get n (putb l i v) off = le_get n l off.
Proof. intros Hi. apply (le_get_puts_out n l i [v]). simpl. lia. Qed.

Lemma getb_put_out n l off v i :
  (i < off \/ off + Z.of_nat n <= i) -> getb (le_put n l off v) i = getb l i.
Proof. intros Hi. apply getb_puts_out. by rewrite length_le_bytes. Qed.

Lemma getb_putb l i v j :
  0 <= j < Z.of_nat (length l) -> getb (putb l i v) j = if i =? j then u8 v else getb l j.
Proof.
  intros Hj. destruct (Z.eqb_spec i j) as [->|Hne]; [by apply getb_putb_eq|by apply getb_putb_ne].
Qed.

Lemma bytes_ok_le_put n l off v : bytes_ok l -> bytes_ok (le_put n l off v).
Proof. apply bytes_ok_puts. Qed.

Lemma bytes_ok_memset l off c n : bytes_ok l -> bytes_ok (memset l off c n).
Proof. apply bytes_ok_puts. Qed.

Lemma getb_memset_out l off c n i :
  (i < off \/ off + n <= i) -> 0 <= n -> getb (memset l off c n) i = getb l i.
Proof. intros. apply getb_puts_out. rewrite length_replicate. lia. Qed.

#[export] Hint Resolve bytes_ok_putb bytes_ok_puts bytes_ok_le_put bytes_ok_memset : evfs.

(** ** Stores away from a field

    [same_off l b b']: the buffers differ in the ranges [l] (offset and length) only. *)

Definition off_range (i : Z) (r : Z * Z) : bool := (i <? r.1) || (r.1 + r.2 <=? i).
Definition same_off (l : list (Z * Z)) (b b' : list Z) : Prop :=
  forall i, forallb (off_range i) l = true -> getb b' i = getb b i.
(** The [n] bytes at [a] are away from the ranges. *)
Definition apart (l : list (Z * Z)) (a n : Z) : bool :=
  forallb (fun r => (a + n <=? r.1) || (r.1 + r.2 <=? a)) l.

Lemma apart_off l a n i : apart l a n = true -> a <= i < a + n -> forallb (off_range i) l = true.
Proof.
  unfold apart, off_range. rewrite !forallb_forall. intros Ha Hi r Hr. specialize (Ha r Hr).
  apply orb_true_iff. apply orb_true_iff in Ha as [Ha|Ha]; reflect_bools; [left|right]; by case_cmp; lia.
Qed.

Lemma same_off_refl l b : same_off l b b.
Proof. done. Qed.
Lemma same_off_app l l' b b' b'' : same_off l b b' -> same_off l' b' b'' -> same_off (l ++ l') b b''.
Proof.
  intros H1 H2 i Hi. rewrite forallb_app in Hi. apply andb_true_iff in Hi as [Hi Hi'].
  by rewrite H2, H1.
Qed.
Lemma same_off_puts b off bs : same_off [(off, Z.of_nat (length bs))] b (puts b off bs).
Proof.
  intros i Hi. apply getb_puts_out. cbn in Hi. unfold off_range in Hi. cbn in Hi.
  rewrite andb_true_r in Hi. apply orb_true_iff in Hi as [Hi|Hi]; reflect_bools; lia.
Qed.
Lemma same_off_put b off n v : same_off [(off, Z.of_nat n)] b (le_put n b off v).
Proof. pose proof (same_off_puts b off (le_bytes n v)) as Hs. by rewrite length_le_bytes in Hs. Qed.
Lemma same_off_putb b off v : same_off [(off, 1)] b (putb b off v).
Proof. apply (same_off_puts b off [v]). Qed.
Lemma same_off_incl l l' b b' : (forall i, forallb (off_range i) l' = true -> forallb (off_range i) l = true) ->
  same_off l b b' -> same_off l' b b'.
Proof. intros Hi Hs i Hl. apply Hs, Hi, Hl. Qed.

Lemma same_off_get l b b' n a :
  same_off l b b' -> apart l a (Z.of_nat n) = true -> le_get n b' a = le_get n b a.
Proof. intros Hs Ha. apply le_get_ext. intros i Hi. apply Hs. by eapply apart_off. Qed.
Lemma same_off_getb l b b' a : same_off l b b' -> apart l a 1 = true -> getb b' a = getb b a.
Proof. intros Hs Ha. apply Hs. eapply apart_off; [exact Ha|lia]. Qed.
Lemma same_off_gets l b b' a n :
  same_off l b b' -> apart l a (Z.of_nat n) = true -> gets b' a n = gets b a n.
Proof. intros Hs Ha. apply gets_ext. intros i Hi. apply Hs. by eapply apart_off. Qed.
#[export] Hint Resolve same_off_refl same_off_puts same_off_put same_off_putb : evfs.

(** Bytes read back after they were stored, each cut to a byte. *)
Lemma gets_puts_u8 l off bs :
  0 <= off -> off + Z.of_nat (length bs) <= Z.of_nat (length l) ->
  gets (puts l off bs) off (length bs) = u8 <$> bs.
Proof.
  intros Hoff Hl. apply list_eq. intros k. unfold gets. rewrite !list_lookup_fmap.
  destruct (decide (k < length bs)%nat) as [Hk|Hk].
  - rewrite lookup_seq_lt by done. simpl. rewrite getb_puts_in by lia.
    destruct (lookup_lt_is_Some_2 bs k Hk) as [b Hb]. by rewrite Hb, nth_lookup, Hb.
  - rewrite lookup_seq_ge, lookup_ge_None_2 by lia. done.
Qed.
