(* ===== verification/Bmt.v ===== *)
(** * The bitmap tracker (fs/ext4/evfs-bmt.c, evfs-bmt.h)

    The tracker remembers, one bit per number, what was allocated through
    eVFS.  It is an array of lazily allocated bitmaps of
    [EXT4_EVFS_GRP_BM_LEN] machine words, each protected by a read-write
    semaphore.  [evfs_bit_wrapper] applies a bit operation under the semaphore
    and allocates the bitmap on first use.

    The abstract view of a tracker is the set of its set bits ([tracked]); the
    theorems at the end show that the operations implement that set. *)

From stdpp Require Import prelude list strings.
From Stdlib Require Import ZArith Lia.
From S2P Require Import Prelude Kernel.

Local Open Scope string_scope.
Local Open Scope Z_scope.

(** [#define EXT4_EVFS_GRP_BM_LEN 1] *)
Definition EXT4_EVFS_GRP_BM_LEN : Z := 1.

(** [sizeof(size_t)] on the 64-bit kernels the project targets. *)
Definition sizeof_size_t : Z := 8.

(** [size_t bits_per_bm = EXT4_EVFS_GRP_BM_LEN * sizeof(size_t) * 8;] *)
Definition bits_per_bm : Z := EXT4_EVFS_GRP_BM_LEN * sizeof_size_t * 8.

(** [struct evfs_bitmap]: [unsigned long data[EXT4_EVFS_GRP_BM_LEN]]; with a
    length of one the array is one 64-bit word, bit [k] being bit [k] of it. *)
Record evfs_bitmap := Bitmap { data : Z }.

(** [struct evfs_bm_tracker]: a NULL entry of [bitmaps] is [None]; the array
    [rwsems] has one semaphore per entry, held as [LTracker i] in the world. *)
Record evfs_bm_tracker := Tracker {
  bitmaps : list (option evfs_bitmap);
  num_bitmaps : Z
}.

(** [evfs_bitop]: a tagged operation on one bit of a bitmap. *)
Inductive evfs_bitop :=
  | EBO_VOID (op_v : Z -> Z -> Z)             (* bit, word -> word *)
  | EBO_BOOL (op_b : Z -> Z -> bool * Z).     (* bit, word -> old bit, word *)

(** The kernel bit operations passed by evfs.c. *)
Definition test_and_set_bit (nr word : Z) : bool * Z :=
  (Z.testbit word nr, Z.setbit word nr).
Definition test_and_clear_bit (nr word : Z) : bool * Z :=
  (Z.testbit word nr, Z.clearbit word nr).
Definition clear_bit (nr word : Z) : Z := Z.clearbit word nr.

(** A pointer to the tracker, NULL when the mount could not create it. *)
Abbreviation tracker_ptr := (option evfs_bm_tracker).

Section Tracker.
Context `{Env}.
Abbreviation T := (K tracker_ptr).

(** [evfs_bm_test]: is [tracker->bitmaps[bitmap_num]] allocated? *)
Definition evfs_bm_test (t : evfs_bm_tracker) (bitmap_num : Z) : bool :=
  match bitmaps t !! Z.to_nat bitmap_num with
  | Some (Some _) => true
  | _ => false
  end.

Definition set_bitmap (t : evfs_bm_tracker) (n : Z) (b : option evfs_bitmap) :=
  Tracker (<[Z.to_nat n := b]> (bitmaps t)) (num_bitmaps t).

(** [evfs_bm_alloc]: [kzalloc] gives a zeroed bitmap or NULL. *)
Definition evfs_bm_alloc (bitmap_num : Z) : T Z :=
  b <~ call_ptr "kzalloc" [bitmap_num];;
  match b with
  | PtrOk => kmodify (fmap (fun t => set_bitmap t bitmap_num (Some (Bitmap 0))));;;
             kret 0
  | _ => kret (- ENOMEM)
  end.

(** [evfs_bm_free] *)
Definition evfs_bm_free (bitmap_num : Z) : T unit :=
  kmodify (fmap (fun t => set_bitmap t bitmap_num None)).

(** [evfs_bm_tracker_init]: three allocations; an error return leaves
    [*tracker] as it was.  The result is what is stored in [*tracker]. *)
Definition evfs_bm_tracker_init (num_bits : Z) : T Z :=
  t <~ call_ptr "kmalloc" [0];;
  match t with
  | PtrOk =>
      let num_bitmaps := u64 (u64 (num_bits + bits_per_bm) - 1) / bits_per_bm in
      bms <~ call_ptr "kzalloc" [num_bitmaps];;
      match bms with
      | PtrOk =>
          rw <~ call_ptr "kmalloc" [num_bitmaps];;
          match rw with
          | PtrOk =>
              kmodify (fun _ =>
                Some (Tracker (replicate (Z.to_nat num_bitmaps) None) num_bitmaps));;;
              kret 0
          | _ => kret (- ENOMEM)
          end
      | _ => kret (- ENOMEM)
      end
  | _ => kret (- ENOMEM)
  end.

(** The loop of [evfs_bm_tracker_final], from bitmap [i], [n] bitmaps left. *)
Fixpoint final_loop (n : nat) (i : Z) : T unit :=
  match n with
  | O => kret tt
  | S n =>
      acquire (Excl (LTracker i));;;
      ot <~ kget;;
      (match ot with
       | Some t => if evfs_bm_test t i then evfs_bm_free i else kret tt
       | None => koops
       end);;;
      release (Excl (LTracker i));;;
      final_loop n (i + 1)
  end.

(** [evfs_bm_tracker_final]; the kfree of the tracker leaves no object. *)
Definition evfs_bm_tracker_final : T Z :=
  ot <~ kget;;
  match ot with
  | None => kret (- EFAULT)
  | Some t =>
      final_loop (Z.to_nat (num_bitmaps t)) 0;;;
      kmodify (fun _ => None);;;
      kret 0
  end.

(** The critical section of [evfs_bit_wrapper]: the operation on the word of
    bitmap [bitmap_num]; a NULL bitmap is dereferenced. *)
Definition apply_bitop (op : evfs_bitop) (bitmap_num bit_offset : Z) : T Z :=
  ot <~ kget;;
  match ot with
  | Some t =>
      match bitmaps t !! Z.to_nat bitmap_num with
      | Some (Some b) =>
          match op with
          | EBO_VOID op_v =>
              kmodify (fun _ => Some (set_bitmap t bitmap_num
                                        (Some (Bitmap (op_v bit_offset (data b))))));;;
              kret 0
          | EBO_BOOL op_b =>
              let '(old, w) := op_b bit_offset (data b) in
              kmodify (fun _ => Some (set_bitmap t bitmap_num (Some (Bitmap w))));;;
              kret (Z.b2z old)
          end
      | _ => koops
      end
  | None => koops
  end.

(** [evfs_bit_wrapper]: the semaphore is taken for reading; when the bitmap
    is missing it is retaken for writing, the test repeated, the bitmap
    allocated, and the semaphore downgraded to a reader. *)
Definition evfs_bit_wrapper (ebitop : evfs_bitop) (nr : Z) : T Z :=
  ot <~ kget;;
  match ot with
  | None => kret (- EFAULT)
  | Some t =>
      let bitmap_num := nr / bits_per_bm in
      let bit_offset := nr mod bits_per_bm in
      if num_bitmaps t <=? bitmap_num then kret (- EINVAL) else
      acquire (Shared (LTracker bitmap_num));;;
      (if evfs_bm_test t bitmap_num then kret tt
       else
         release (Shared (LTracker bitmap_num));;;
         acquire (Excl (LTracker bitmap_num));;;
         ot' <~ kget;;
         (match ot' with
          | Some t' => if evfs_bm_test t' bitmap_num then kret 0
                       else evfs_bm_alloc bitmap_num
          | None => koops
          end);;;
         (* downgrade_write *)
         release (Excl (LTracker bitmap_num));;;
         acquire (Shared (LTracker bitmap_num)));;;
      ret <~ apply_bitop ebitop bitmap_num bit_offset;;
      release (Shared (LTracker bitmap_num));;;
      kret ret
  end.
End Tracker.

(** ** Well-formedness and the abstract set *)

Definition word_ok (b : option evfs_bitmap) : Prop :=
  match b with Some b => in_u 64 (data b) | None => True end.

(** The array has [num_bitmaps] entries, each holding a 64-bit word. *)
Definition tracker_wf (t : evfs_bm_tracker) : Prop :=
  Z.of_nat (length (bitmaps t)) = num_bitmaps t /\ Forall word_ok (bitmaps t).

(** Number of bits the tracker can record. *)
Definition capacity (t : evfs_bm_tracker) : Z := num_bitmaps t * bits_per_bm.

(** The abstract state: is number [nr] recorded? *)
Definition tracked (t : evfs_bm_tracker) (nr : Z) : bool :=
  match bitmaps t !! Z.to_nat (nr / bits_per_bm) with
  | Some (Some b) => Z.testbit (data b) (nr mod bits_per_bm)
  | _ => false
  end.

(** What the abstract set does under an operation on one number. *)
Definition tracked_upd (f : Z -> bool) (nr : Z) (v : bool) (k : Z) : bool :=
  if k =? nr then v else f k.

Lemma bits_per_bm_64 : bits_per_bm = 64.
Proof. reflexivity. Qed.

Lemma split_nr a b : a / 64 = b / 64 -> a mod 64 = b mod 64 -> a = b.
Proof. intros. rewrite (Z.div_mod a 64), (Z.div_mod b 64); lia. Qed.

Lemma setbit_u64 w k : in_u 64 w -> 0 <= k < 64 -> in_u 64 (Z.setbit w k).
Proof.
  rewrite !in_u_bits by lia. intros Hw Hk i Hi.
  rewrite Z.setbit_eqb, Hw, orb_false_r by lia. apply Z.eqb_neq. lia.
Qed.

Lemma clearbit_u64 w k : in_u 64 w -> in_u 64 (Z.clearbit w k).
Proof.
  rewrite !in_u_bits by lia. intros Hw i Hi.
  by rewrite Z.clearbit_eqb, Hw.
Qed.

(** Replacing the word of [nr]'s bitmap changes the set at [nr] only. *)
Lemma tracked_set_bitmap t nr w0 w v :
  tracker_wf t -> 0 <= nr < capacity t ->
  (match bitmaps t !! Z.to_nat (nr / bits_per_bm) with
   | Some (Some b) => w0 = data b | _ => w0 = 0 end) ->
  (forall k, 0 <= k < 64 ->
     Z.testbit w k = if k =? nr mod 64 then v else Z.testbit w0 k) ->
  forall k, 0 <= k ->
    tracked (set_bitmap t (nr / bits_per_bm) (Some (Bitmap w))) k
      = tracked_upd (tracked t) nr v k.
Proof.
  intros [Hlen _] Hnr Hw0 Hw k Hk. unfold capacity in Hnr.
  rewrite bits_per_bm_64 in *. unfold tracked, tracked_upd. rewrite bits_per_bm_64.
  cbn [set_bitmap bitmaps].
  pose proof (Z.div_pos k 64). pose proof (Z.div_pos nr 64).
  destruct (decide (Z.to_nat (nr / 64) = Z.to_nat (k / 64))) as [He|Hne].
  - rewrite <- He, list_lookup_insert_eq.
    2:{ apply Nat2Z.inj_lt. rewrite Hlen, Z2Nat.id by lia. apply Z.div_lt_upper_bound; lia. }
    simpl. rewrite Hw by (apply Z.mod_pos_bound; lia).
    destruct (Z.eqb_spec (k mod 64) (nr mod 64)) as [Hm|Hm].
    + rewrite (proj2 (Z.eqb_eq k nr)); [done|]. apply split_nr; lia.
    + rewrite (proj2 (Z.eqb_neq k nr)) by congruence.
      destruct (bitmaps t !! Z.to_nat (nr / 64)) as [[b|]|];
        subst w0; auto using Z.bits_0.
  - rewrite list_lookup_insert_ne by done.
    rewrite (proj2 (Z.eqb_neq k nr)) by congruence. done.
Qed.

Lemma set_bitmap_wf t n w :
  tracker_wf t -> in_u 64 w -> tracker_wf (set_bitmap t n (Some (Bitmap w))).
Proof.
  intros [Hl Hf] Hw. split; cbn [set_bitmap bitmaps num_bitmaps].
  - by rewrite length_insert.
  - by apply Forall_insert.
Qed.

Lemma tracked_capacity t nr :
  tracker_wf t -> 0 <= nr -> tracked t nr = true -> nr < capacity t.
Proof.
  intros [Hl _] H0. unfold tracked, capacity. rewrite bits_per_bm_64.
  destruct (bitmaps t !! _) eqn:E; [|done]. intros _.
  apply lookup_lt_Some in E. pose proof (Z.div_pos nr 64).
  assert (nr / 64 < num_bitmaps t) by lia.
  pose proof (Z.mul_succ_div_gt nr 64). nia.
Qed.

(** ** Symbolic execution of the operations *)

(** The word the operation works on (a missing bitmap starts zeroed), and the
    value and word it produces. *)
Definition word_of (t : evfs_bm_tracker) (nr : Z) : Z :=
  match bitmaps t !! Z.to_nat (nr / bits_per_bm) with
  | Some (Some b) => data b
  | _ => 0
  end.

Definition run_op (op : evfs_bitop) (bit word : Z) : Z * Z :=
  match op with
  | EBO_VOID op_v => (0, op_v bit word)
  | EBO_BOOL op_b => (Z.b2z (op_b bit word).1, (op_b bit word).2)
  end.

(** Nobody else's tracker semaphore is held by this thread. *)
Definition no_tracker_lock (held : list res) : Prop :=
  forall n, existsb (blocks_on (Excl (LTracker n))) held = false.

Lemma no_tracker_shared held n :
  no_tracker_lock held -> existsb (blocks_on (Shared (LTracker n))) held = false.
Proof.
  intros H. specialize (H n). induction held as [|h held IH]; [done|].
  simpl in *. apply orb_false_iff in H as [H1 H2]. rewrite IH by done.
  destruct h; simpl in *; auto. by rewrite H1.
Qed.

Section TrackerProofs.
Context `{Env}.
Implicit Types (t : evfs_bm_tracker) (held : list res) (calls : list call).

Lemma lookup_bitmap t nr :
  tracker_wf t -> 0 <= nr < capacity t ->
  exists b, bitmaps t !! Z.to_nat (nr / bits_per_bm) = Some b.
Proof.
  intros [Hl _] Hnr. unfold capacity in Hnr. rewrite bits_per_bm_64 in *.
  apply lookup_lt_is_Some_2. pose proof (Z.div_pos nr 64).
  assert (nr / 64 < num_bitmaps t) by (apply Z.div_lt_upper_bound; lia). lia.
Qed.

Lemma set_bitmap_twice t n b c :
  set_bitmap (set_bitmap t n b) n c = set_bitmap t n c.
Proof. unfold set_bitmap; simpl. by rewrite list_insert_insert_eq. Qed.

Lemma apply_bitop_wp op nr t b held calls (Q : Z -> world tracker_ptr -> Prop) :
  bitmaps t !! Z.to_nat (nr / bits_per_bm) = Some (Some b) ->
  Q (run_op op (nr mod bits_per_bm) (data b)).1
    (World (Some (set_bitmap t (nr / bits_per_bm)
       (Some (Bitmap (run_op op (nr mod bits_per_bm) (data b)).2)))) held calls) ->
  wp (apply_bitop op (nr / bits_per_bm) (nr mod bits_per_bm)) Q
     (World (Some t) held calls).
Proof.
  intros Hb HQ. unfold apply_bitop, wp, kbind, kget. cbn [w_st]. rewrite Hb.
  destruct op; simpl in *; [done|]. by destruct (op_b _ _).
Qed.

(** The specification of the wrapper for an arbitrary bit operation. *)
Lemma evfs_bit_wrapper_wp op nr t held calls (Q : Z -> world tracker_ptr -> Prop) :
  tracker_wf t -> 0 <= nr < capacity t -> no_tracker_lock held ->
  evfs_bm_test t (nr / bits_per_bm) = true \/
    env_ptr calls "kzalloc" [nr / bits_per_bm] = PtrOk ->
  (forall calls',
     Q (run_op op (nr mod bits_per_bm) (word_of t nr)).1
       (World (Some (set_bitmap t (nr / bits_per_bm)
          (Some (Bitmap (run_op op (nr mod bits_per_bm) (word_of t nr)).2))))
          held calls')) ->
  wp (evfs_bit_wrapper op nr) Q (World (Some t) held calls).
Proof.
  intros Hwf Hnr Hheld Halloc HQ. unfold evfs_bit_wrapper.
  do 2 wp_step. destruct (lookup_bitmap t nr Hwf Hnr) as [b Hb].
  rewrite (proj2 (Z.leb_gt _ _)).
  2:{ unfold capacity in Hnr. rewrite bits_per_bm_64 in *.
      apply Z.div_lt_upper_bound; lia. }
  unfold word_of in HQ. rewrite Hb in HQ.
  unfold evfs_bm_test in *. rewrite Hb in *. cbn [w_held].
  wp_step. apply wp_acquire; [by apply no_tracker_shared|]. cbn [w_st w_held w_calls].
  destruct b as [b|].
  - wp_step. wp_step. wp_step. eapply apply_bitop_wp; [done|].
    wp_step. eapply wp_release; [apply drop_res_head|]. wp_step. apply HQ.
  - destruct Halloc as [|Halloc]; [done|].
    do 2 wp_step. eapply wp_release; [apply drop_res_head|]. wp_step.
    apply wp_acquire; [by apply Hheld|]. cbn [w_st w_held w_calls].
    do 3 wp_step. rewrite Hb. unfold evfs_bm_alloc. do 2 wp_step.
    rewrite Halloc in Hc. subst. do 4 wp_step.
    eapply wp_release; [apply drop_res_head|]. cbn [w_st w_held w_calls].
    apply wp_acquire; [by apply no_tracker_shared|]. cbn [w_st w_held w_calls].
    wp_step. eapply apply_bitop_wp.
    { cbn [fmap option_fmap option_map set_bitmap bitmaps].
      apply list_lookup_insert_eq. by eapply lookup_lt_Some. }
    wp_step. eapply wp_release; [apply drop_res_head|]. wp_step.
    rewrite set_bitmap_twice. apply HQ.
Qed.
End TrackerProofs.

(** ** The tracker implements a set of numbers *)

(** The three operations evfs.c performs, their bit operation, and what they
    return and leave in the abstract set. *)
Inductive trk_op := TrkTestSet | TrkTestClear | TrkClear.

Definition bitop_of (o : trk_op) : evfs_bitop :=
  match o with
  | TrkTestSet => EBO_BOOL test_and_set_bit
  | TrkTestClear => EBO_BOOL test_and_clear_bit
  | TrkClear => EBO_VOID clear_bit
  end.

Definition trk_ret (o : trk_op) (old : bool) : Z :=
  match o with TrkClear => 0 | _ => Z.b2z old end.

Definition trk_bit (o : trk_op) : bool :=
  match o with TrkTestSet => true | _ => false end.

Lemma run_op_ret o t nr :
  (run_op (bitop_of o) (nr mod bits_per_bm) (word_of t nr)).1
    = trk_ret o (tracked t nr).
Proof.
  unfold word_of, tracked.
  destruct o; simpl; try done;
    destruct (bitmaps t !! _) as [[]|]; simpl; by rewrite ?Z.bits_0.
Qed.

Lemma run_op_word o bit w k :
  0 <= k -> 0 <= bit ->
  Z.testbit (run_op (bitop_of o) bit w).2 k =
    if k =? bit then trk_bit o else Z.testbit w k.
Proof.
  intros Hk Hb. destruct o; simpl; unfold clear_bit;
    rewrite ?Z.setbit_eqb, ?Z.clearbit_eqb by lia;
    rewrite (Z.eqb_sym bit k); by destruct (k =? bit), (Z.testbit w k).
Qed.

Lemma run_op_u64 o bit w :
  in_u 64 w -> 0 <= bit < 64 -> in_u 64 (run_op (bitop_of o) bit w).2.
Proof. intros. destruct o; [by apply setbit_u64|by apply clearbit_u64..]. Qed.

Lemma word_of_u64 t nr : tracker_wf t -> in_u 64 (word_of t nr).
Proof.
  intros [_ Hf]. unfold word_of. destruct (bitmaps t !! _) as [[b|]|] eqn:E;
    try (unfold in_u; lia).
  eapply Forall_lookup in E; eauto. done.
Qed.

(** One operation: the answer and the effect on the abstract set. *)
Definition trk_post (o : trk_op) (nr : Z) (t : evfs_bm_tracker) (held : list res)
    (r : Z) (w' : world tracker_ptr) : Prop :=
  r = trk_ret o (tracked t nr) /\ w_held w' = held /\
  exists t', w_st w' = Some t' /\ tracker_wf t' /\ num_bitmaps t' = num_bitmaps t /\
    (forall k, 0 <= k -> tracked t' k = tracked_upd (tracked t) nr (trk_bit o) k).

Lemma bit_wrapper_set `{Env} o nr t held calls :
  tracker_wf t -> 0 <= nr < capacity t -> no_tracker_lock held ->
  evfs_bm_test t (nr / bits_per_bm) = true \/
    env_ptr calls "kzalloc" [nr / bits_per_bm] = PtrOk ->
  wp (evfs_bit_wrapper (bitop_of o) nr) (trk_post o nr t held)
     (World (Some t) held calls).
Proof.
  intros Hwf Hnr Hh Ha. apply evfs_bit_wrapper_wp; try done. intros calls'.
  rewrite run_op_ret. split; [done|]. split; [done|]. eexists.
  split; [reflexivity|].
  assert (0 <= nr mod 64 < 64) by (apply Z.mod_pos_bound; lia).
  split; [|split; [done|]].
  - apply set_bitmap_wf; [done|]. by apply run_op_u64; [apply word_of_u64|].
  - apply (tracked_set_bitmap t nr (word_of t nr)); [done|done| |].
    + unfold word_of. by destruct (bitmaps t !! _) as [[]|].
    + intros k Hk. rewrite bits_per_bm_64. apply run_op_word; lia.
Qed.

Lemma evfs_bit_wrapper_range `{Env} op nr t held calls :
  capacity t <= nr -> 0 <= num_bitmaps t ->
  evfs_bit_wrapper op nr (World (Some t) held calls)
    = Ret (- EINVAL) (World (Some t) held calls).
Proof.
  intros Hc Hn. unfold evfs_bit_wrapper, kbind, kget. cbn [w_st].
  rewrite (proj2 (Z.leb_le _ _)); [done|].
  unfold capacity in Hc. rewrite bits_per_bm_64 in *.
  apply Z.div_le_lower_bound; lia.
Qed.

(** A sequence of operations, on the tracker and on the abstract set. *)
Fixpoint run_tracker `{Env} (ops : list (trk_op * Z)) : K tracker_ptr (list Z) :=
  match ops with
  | [] => kret []
  | (o, nr) :: ops =>
      r <~ evfs_bit_wrapper (bitop_of o) nr;;
      rs <~ run_tracker ops;;
      kret (r :: rs)
  end.

Fixpoint run_set (f : Z -> bool) (ops : list (trk_op * Z)) : list Z :=
  match ops with
  | [] => []
  | (o, nr) :: ops =>
      trk_ret o (f nr) :: run_set (tracked_upd f nr (trk_bit o)) ops
  end.

Lemma run_set_ext ops : forall f g,
  Forall (fun o => 0 <= o.2) ops -> (forall k, 0 <= k -> f k = g k) ->
  run_set f ops = run_set g ops.
Proof.
  induction ops as [|[o nr] ops IH]; intros f g Hops Hfg; [done|].
  inversion Hops; subst. simpl in *. rewrite Hfg by done. f_equal.
  apply IH; [done|]. intros k Hk. unfold tracked_upd. case_cmp; auto.
Qed.

(** C35: started from a well-formed tracker whose bitmaps can be allocated, any
    sequence of test-and-set, test-and-clear and clear operations on numbers
    below the capacity gives the answers of the same sequence on a mathematical
    set, and leaves no semaphore held: the two-level lazily allocated bitmap
    refines the set abstraction. *)
Theorem tracker_refines_set `{Env} ops t held calls :
  tracker_wf t -> no_tracker_lock held ->
  (forall h n, env_ptr h "kzalloc" n = PtrOk) ->
  Forall (fun o => 0 <= o.2 < capacity t) ops ->
  exists w', run_tracker ops (World (Some t) held calls)
               = Ret (run_set (tracked t) ops) w' /\ w_held w' = held.
Proof.
  intros Hwf Hh Hz Hops. revert t calls Hwf Hops.
  induction ops as [|[o nr] ops IH]; intros t calls Hwf Hops; [by eexists|].
  inversion Hops as [|? ? Hnr Hops']; subst. simpl in Hnr.
  pose proof (bit_wrapper_set o nr t held calls Hwf Hnr Hh (or_intror (Hz _ _))) as Hw.
  apply wp_run in Hw as (r & [st h c] & Hrun & -> & Hheld & t' & Hst & Hwf' & Hcap & Ht').
  cbn [w_st w_held] in *. subst. simpl. unfold kbind. rewrite Hrun.
  destruct (IH t' c Hwf') as (w' & Hr & Hh').
  { unfold capacity in *. by rewrite Hcap. }
  rewrite Hr. eexists. split; [|done]. unfold kret. f_equal. f_equal.
  apply run_set_ext; [|done].
  eapply Forall_impl; [exact Hops'|]. simpl. lia.
Qed.

(** Mounting creates an empty tracker with room for at least the requested
    number of bits, rounded up to whole bitmaps, when the three allocations
    succeed. *)
Theorem tracker_init_spec `{Env} num_bits held calls old :
  0 <= num_bits < 2 ^ 32 ->
  (forall h f n, env_ptr h f n = PtrOk) ->
  exists t calls',
    evfs_bm_tracker_init num_bits (World old held calls)
      = Ret 0 (World (Some t) held calls') /\
    tracker_wf t /\ (forall nr, tracked t nr = false) /\
    num_bits <= capacity t < num_bits + bits_per_bm /\
    num_bitmaps t = (num_bits + 63) / 64.
Proof.
  intros Hn Ha.
  assert (Hq : u64 (u64 (num_bits + bits_per_bm) - 1) / bits_per_bm
               = (num_bits + 63) / 64).
  { rewrite bits_per_bm_64. rewrite (u64_small (num_bits + 64)) by lia.
    rewrite u64_small by lia. f_equal. lia. }
  eexists _, _. unfold evfs_bm_tracker_init, kbind, call_ptr. cbn [w_calls w_st w_held].
  rewrite Ha. cbn [w_calls w_st w_held]. rewrite Ha. cbn [w_calls w_st w_held].
  rewrite Ha, Hq. split; [reflexivity|].
  pose proof (Z.div_pos (num_bits + 63) 64 ltac:(lia) ltac:(lia)).
  split; [split|split; [|split]]; cbn [bitmaps num_bitmaps].
  - rewrite length_replicate. lia.
  - by apply Forall_replicate.
  - intros nr. unfold tracked; cbn [bitmaps].
    destruct (replicate _ _ !! _) as [b|] eqn:E; [|done].
    apply lookup_replicate in E as [-> _]. done.
  - unfold capacity; cbn [num_bitmaps]. rewrite bits_per_bm_64.
    pose proof (Z.div_mod (num_bits + 63) 64 ltac:(lia)).
    pose proof (Z.mod_pos_bound (num_bits + 63) 64 ltac:(lia)). lia.
  - done.
Qed.

Lemma final_loop_wp `{Env} n : forall i t held calls (Q : unit -> world tracker_ptr -> Prop),
  no_tracker_lock held ->
  (forall t' calls', num_bitmaps t' = num_bitmaps t -> Q tt (World (Some t') held calls')) ->
  wp (final_loop n i) Q (World (Some t) held calls).
Proof.
  induction n as [|n IH]; intros i t held calls Q Hh HQ; simpl.
  - wp_step. by apply HQ.
  - wp_step. apply wp_acquire; [apply Hh|]. cbn [w_held w_st w_calls].
    do 3 wp_step.
    destruct (evfs_bm_test t i).
    + unfold evfs_bm_free. wp_step. wp_step. eapply wp_release; [apply drop_res_head|].
      cbn [fmap option_fmap option_map w_st w_calls]. by apply IH.
    + wp_step. wp_step. eapply wp_release; [apply drop_res_head|].
      cbn [w_st w_calls]. by apply IH.
Qed.

(** Unmounting ([evfs_bm_tracker_final]) always returns: 0 with the tracker
    gone and every semaphore it took released, or -EFAULT without effect when
    there is no tracker. *)
Theorem tracker_final_spec `{Env} ot held calls :
  no_tracker_lock held ->
  exists calls',
    evfs_bm_tracker_final (World ot held calls)
      = Ret (match ot with Some _ => 0 | None => - EFAULT end)
            (World None held calls').
Proof.
  intros Hh. destruct ot as [t|]; [|by eexists].
  assert (Hw : wp evfs_bm_tracker_final
            (fun r w' => r = 0 /\ w_st w' = None /\ w_held w' = held)
            (World (Some t) held calls)).
  { unfold evfs_bm_tracker_final. do 3 wp_step. apply final_loop_wp; [done|].
    intros. do 3 wp_step. done. }
  apply wp_run in Hw as (r & [st h c] & Hrun & -> & Hst & Hheld).
  simpl in *. subst. by eexists.
Qed.

(** When the bitmap of [nr] is missing and [kzalloc] fails, the return code
    of [evfs_bm_alloc] is ignored and the wrapper dereferences the NULL bitmap:
    the kernel oopses instead of returning -ENOMEM. *)
Theorem bit_wrapper_oom_oops `{Env} op nr t held calls :
  tracker_wf t -> 0 <= nr < capacity t -> no_tracker_lock held ->
  evfs_bm_test t (nr / bits_per_bm) = false ->
  env_ptr calls "kzalloc" [nr / bits_per_bm] <> PtrOk ->
  evfs_bit_wrapper op nr (World (Some t) held calls) = Oops.
Proof.
  intros Hwf Hnr Hh Ht Hz.
  destruct (lookup_bitmap t nr Hwf Hnr) as [b Hb].
  unfold evfs_bit_wrapper, kbind, kget. cbn [w_st].
  rewrite (proj2 (Z.leb_gt _ _)).
  2:{ unfold capacity in Hnr. rewrite bits_per_bm_64 in *.
      apply Z.div_lt_upper_bound; lia. }
  unfold acquire, take_res, release. cbn [w_held w_st w_calls].
  rewrite no_tracker_shared by done. cbn [w_held w_st w_calls]. rewrite Ht.
  cbn [w_held w_st w_calls].
  rewrite drop_res_head. cbn [w_held w_st w_calls].
  rewrite (Hh (nr / bits_per_bm)). cbn [w_held w_st w_calls]. rewrite Ht.
  unfold evfs_bm_alloc, kbind, call_ptr. cbn [w_held w_st w_calls].
  destruct (env_ptr calls "kzalloc" _) eqn:E; [done| |];
    cbn [w_held w_st w_calls kret]; rewrite drop_res_head;
    cbn [w_held w_st w_calls]; rewrite no_tracker_shared by done;
    unfold apply_bitop, kbind, kget; cbn [w_st]; rewrite Hb;
    unfold evfs_bm_test in Ht; rewrite Hb in Ht; by destruct b.
Qed.

(** The tracker of a file system with [n] inodes is created with [n] bits
    and indexed by the inode number, which starts at 1: when [n] is a multiple
    of 64 the last inode is out of range and every operation on it fails with
    -EINVAL. *)
Theorem tracker_misses_last_inode `{Env} op n t held calls :
  0 <= n -> n mod 64 = 0 -> num_bitmaps t = (n + 63) / 64 ->
  evfs_bit_wrapper op n (World (Some t) held calls)
    = Ret (- EINVAL) (World (Some t) held calls).
Proof.
  intros H0 Hm Hn. pose proof (Z.div_pos (n + 63) 64).
  apply evfs_bit_wrapper_range; [|lia].
  unfold capacity. rewrite bits_per_bm_64, Hn.
  pose proof (Z.div_mod n 64 ltac:(lia)).
  assert ((n + 63) / 64 = n / 64); [|lia].
  symmetry. apply Z.div_unique with 63; lia.
Qed.
