(* ===== verification/Layout.v ===== *)
(** * On-disk layout: super block, features and group descriptors

    ext4.h and super.c.  The super block and the group descriptors are the
    buffers the kernel reads from disk; their fields are little-endian values
    at the offsets of [struct ext4_super_block] and [struct ext4_group_desc].
    The accessors of super.c split 64-bit block numbers and 32-bit counters in
    a low and a high half; the theorems show when a stored value is read back.

    The checksum functions ([crc32c] through the crypto driver, [crc16]) are
    not part of the repository: they are the fields of [Csum]. *)

From stdpp Require Import prelude list.
From Stdlib Require Import ZArith Lia.
From S2P Require Import Prelude Bytes.

(** The checksum primitives: initial value, data, result. *)
Class Csum := {
  crypto_crc32c : Z -> list Z -> Z;
  crc16 : Z -> list Z -> Z
}.

(** ** In-memory super block information (struct ext4_sb_info) *)

Record ext4_sb_info := SbInfo {
  s_desc_size : Z;             (* Size of a group descriptor in bytes *)
  s_blocks_per_group : Z;
  s_clusters_per_group : Z;
  s_inodes_per_group : Z;
  s_cluster_ratio : Z;         (* Number of blocks per cluster *)
  s_cluster_bits : Z;          (* log2 of s_cluster_ratio *)
  s_groups_count : Z;
  s_blocksize : Z;             (* sb->s_blocksize *)
  s_csum_seed : Z;
  s_chksum_driver : bool;      (* the driver pointer is not NULL *)
  s_mount_state : Z
}.

(** ** Fields of struct ext4_super_block (offsets in bytes) *)

Definition s_inodes_count (es : list Z) : Z := get32 es 0x0.
Definition s_blocks_count_lo (es : list Z) : Z := get32 es 0x4.
Definition s_r_blocks_count_lo (es : list Z) : Z := get32 es 0x8.
Definition s_free_blocks_count_lo (es : list Z) : Z := get32 es 0xC.
Definition s_feature_compat (es : list Z) : Z := get32 es 0x5C.
Definition s_feature_incompat (es : list Z) : Z := get32 es 0x60.
Definition s_feature_ro_compat (es : list Z) : Z := get32 es 0x64.
Definition s_uuid (es : list Z) : list Z := gets es 0x68 16.
Definition s_blocks_count_hi (es : list Z) : Z := get32 es 0x150.
Definition s_r_blocks_count_hi (es : list Z) : Z := get32 es 0x154.
Definition s_free_blocks_count_hi (es : list Z) : Z := get32 es 0x158.
Definition s_checksum_type (es : list Z) : Z := getb es 0x175.
Definition s_checksum (es : list Z) : Z := get32 es 0x3FC.

Definition sizeof_ext4_super_block : Z := 1024.

(** ** Feature flags *)

Definition EXT4_FEATURE_COMPAT_DIR_INDEX : Z := 0x0020.
Definition EXT4_FEATURE_RO_COMPAT_GDT_CSUM : Z := 0x0010.
Definition EXT4_FEATURE_RO_COMPAT_DIR_NLINK : Z := 0x0020.
Definition EXT4_FEATURE_RO_COMPAT_BIGALLOC : Z := 0x0200.
Definition EXT4_FEATURE_RO_COMPAT_METADATA_CSUM : Z := 0x0400.
Definition EXT4_FEATURE_INCOMPAT_FILETYPE : Z := 0x0002.
Definition EXT4_FEATURE_INCOMPAT_64BIT : Z := 0x0080.
Definition EXT4_FEATURE_INCOMPAT_LARGEDIR : Z := 0x4000.
Definition EXT4_FEATURE_INCOMPAT_INLINE_DATA : Z := 0x8000.

(** [EXT4_FEATURE_{COMPAT,RO_COMPAT,INCOMPAT}_FUNCS]: the test generated for a
    flag of each word. *)
Definition ext4_has_compat (es : list Z) (flag : Z) : bool :=
  negb (Z.land (s_feature_compat es) flag =? 0).
Definition ext4_has_ro_compat (es : list Z) (flag : Z) : bool :=
  negb (Z.land (s_feature_ro_compat es) flag =? 0).
Definition ext4_has_incompat (es : list Z) (flag : Z) : bool :=
  negb (Z.land (s_feature_incompat es) flag =? 0).

(** [ext4_update_dynamic_rev] *)
Definition EXT4_GOOD_OLD_REV : Z := 0.
Definition EXT4_DYNAMIC_REV : Z := 1.
Definition EXT4_GOOD_OLD_FIRST_INO : Z := 11.
Definition EXT4_GOOD_OLD_INODE_SIZE : Z := 128.
Definition ext4_update_dynamic_rev (es : list Z) : list Z :=
  if EXT4_GOOD_OLD_REV <? get32 es 0x4C then es
  else
    let es := put32 es 0x54 EXT4_GOOD_OLD_FIRST_INO in
    let es := put16 es 0x58 EXT4_GOOD_OLD_INODE_SIZE in
    put32 es 0x4C EXT4_DYNAMIC_REV.

(** The setters and clearers the same macros generate. *)
Definition ext4_set_compat (es : list Z) (flag : Z) : list Z :=
  let es := ext4_update_dynamic_rev es in
  put32 es 0x5C (Z.lor (s_feature_compat es) flag).
Definition ext4_clear_compat (es : list Z) (flag : Z) : list Z :=
  put32 es 0x5C (Z.land (s_feature_compat es) (Z.lnot flag)).
Definition ext4_set_ro_compat (es : list Z) (flag : Z) : list Z :=
  let es := ext4_update_dynamic_rev es in
  put32 es 0x64 (Z.lor (s_feature_ro_compat es) flag).
Definition ext4_clear_ro_compat (es : list Z) (flag : Z) : list Z :=
  put32 es 0x64 (Z.land (s_feature_ro_compat es) (Z.lnot flag)).
Definition ext4_set_incompat (es : list Z) (flag : Z) : list Z :=
  let es := ext4_update_dynamic_rev es in
  put32 es 0x60 (Z.lor (s_feature_incompat es) flag).
Definition ext4_clear_incompat (es : list Z) (flag : Z) : list Z :=
  put32 es 0x60 (Z.land (s_feature_incompat es) (Z.lnot flag)).

Definition ext4_has_feature_dir_index es := ext4_has_compat es EXT4_FEATURE_COMPAT_DIR_INDEX.
Definition ext4_has_feature_gdt_csum es := ext4_has_ro_compat es EXT4_FEATURE_RO_COMPAT_GDT_CSUM.
Definition ext4_has_feature_dir_nlink es := ext4_has_ro_compat es EXT4_FEATURE_RO_COMPAT_DIR_NLINK.
Definition ext4_has_feature_metadata_csum es :=
  ext4_has_ro_compat es EXT4_FEATURE_RO_COMPAT_METADATA_CSUM.
Definition ext4_has_feature_filetype es := ext4_has_incompat es EXT4_FEATURE_INCOMPAT_FILETYPE.
Definition ext4_has_feature_64bit es := ext4_has_incompat es EXT4_FEATURE_INCOMPAT_64BIT.
Definition ext4_has_feature_inline_data es := ext4_has_incompat es EXT4_FEATURE_INCOMPAT_INLINE_DATA.

(** A flag of s_mount_state. *)
Definition EXT4_FC_REPLAY : Z := 0x0020.

(** [ext4_has_metadata_csum], [ext4_has_group_desc_csum] *)
Definition ext4_has_metadata_csum (sbi : ext4_sb_info) (es : list Z) : bool :=
  ext4_has_feature_metadata_csum es && s_chksum_driver sbi.
Definition ext4_has_group_desc_csum (sbi : ext4_sb_info) (es : list Z) : bool :=
  ext4_has_feature_gdt_csum es || ext4_has_metadata_csum sbi es.

(** ** Clusters *)

(** [EXT4_B2C], [EXT4_C2B], [EXT4_NUM_B2C] on unsigned 32-bit arguments. *)
Definition EXT4_B2C (sbi : ext4_sb_info) (blk : Z) : Z := Z.shiftr blk (s_cluster_bits sbi).
Definition EXT4_C2B (sbi : ext4_sb_info) (cluster : Z) : Z :=
  u32 (Z.shiftl cluster (s_cluster_bits sbi)).
Definition EXT4_NUM_B2C (sbi : ext4_sb_info) (blks : Z) : Z :=
  Z.shiftr (u32 (u32 (blks + s_cluster_ratio sbi) - 1)) (s_cluster_bits sbi).
Definition EXT4_PBLK_CMASK (sbi : ext4_sb_info) (pblk : Z) : Z :=
  Z.ldiff pblk (s_cluster_ratio sbi - 1).
Definition EXT4_LBLK_CMASK (sbi : ext4_sb_info) (lblk : Z) : Z :=
  Z.ldiff lblk (s_cluster_ratio sbi - 1).
Definition EXT4_LBLK_CFILL (sbi : ext4_sb_info) (lblk : Z) : Z :=
  Z.lor lblk (s_cluster_ratio sbi - 1).
Definition EXT4_PBLK_COFF (sbi : ext4_sb_info) (pblk : Z) : Z :=
  Z.land pblk (s_cluster_ratio sbi - 1).
Definition EXT4_LBLK_COFF (sbi : ext4_sb_info) (lblk : Z) : Z :=
  Z.land lblk (s_cluster_ratio sbi - 1).

(** ** Block counters of the super block *)

(** [ext4_read_incompat_64bit_val(es, name)] *)
Definition read_incompat_64bit (es : list Z) (hi lo : Z) : Z :=
  Z.lor (if negb (Z.land (s_feature_incompat es) EXT4_FEATURE_INCOMPAT_64BIT =? 0)
         then Z.shiftl hi 32 else 0) lo.

Definition ext4_blocks_count (es : list Z) : Z :=
  read_incompat_64bit es (s_blocks_count_hi es) (s_blocks_count_lo es).
Definition ext4_r_blocks_count (es : list Z) : Z :=
  read_incompat_64bit es (s_r_blocks_count_hi es) (s_r_blocks_count_lo es).
Definition ext4_free_blocks_count (es : list Z) : Z :=
  read_incompat_64bit es (s_free_blocks_count_hi es) (s_free_blocks_count_lo es).

Definition ext4_blocks_count_set (es : list Z) (blk : Z) : list Z :=
  put32 (put32 es 0x4 (u32 blk)) 0x150 (Z.shiftr blk 32).
Definition ext4_free_blocks_count_set (es : list Z) (blk : Z) : list Z :=
  put32 (put32 es 0xC (u32 blk)) 0x158 (Z.shiftr blk 32).
Definition ext4_r_blocks_count_set (es : list Z) (blk : Z) : list Z :=
  put32 (put32 es 0x8 (u32 blk)) 0x154 (Z.shiftr blk 32).

(** ** Fields of struct ext4_group_desc (offsets in bytes) *)

Definition bg_block_bitmap_lo : Z := 0.
Definition bg_inode_bitmap_lo : Z := 4.
Definition bg_inode_table_lo : Z := 8.
Definition bg_free_blocks_count_lo : Z := 12.
Definition bg_free_inodes_count_lo : Z := 14.
Definition bg_used_dirs_count_lo : Z := 16.
Definition bg_flags : Z := 18.
Definition bg_exclude_bitmap_lo : Z := 20.
Definition bg_block_bitmap_csum_lo : Z := 24.
Definition bg_inode_bitmap_csum_lo : Z := 26.
Definition bg_itable_unused_lo : Z := 28.
Definition bg_checksum : Z := 30.
Definition bg_block_bitmap_hi : Z := 32.
Definition bg_inode_bitmap_hi : Z := 36.
Definition bg_inode_table_hi : Z := 40.
Definition bg_free_blocks_count_hi : Z := 44.
Definition bg_free_inodes_count_hi : Z := 46.
Definition bg_used_dirs_count_hi : Z := 48.
Definition bg_itable_unused_hi : Z := 50.
Definition bg_exclude_bitmap_hi : Z := 52.
Definition bg_block_bitmap_csum_hi : Z := 56.
Definition bg_inode_bitmap_csum_hi : Z := 58.

Definition EXT4_MIN_DESC_SIZE : Z := 32.
Definition EXT4_MIN_DESC_SIZE_64BIT : Z := 64.
Definition EXT4_BG_INODE_UNINIT : Z := 0x0001.
Definition EXT4_BG_BLOCK_UNINIT : Z := 0x0002.
Definition EXT4_BG_INODE_ZEROED : Z := 0x0004.

(** ** Accessors of super.c *)

Definition desc64 (sbi : ext4_sb_info) : bool := EXT4_MIN_DESC_SIZE_64BIT <=? s_desc_size sbi.

(** A block number split in two 32-bit halves. *)
Definition gd_block (sbi : ext4_sb_info) (bg : list Z) (lo hi : Z) : Z :=
  Z.lor (get32 bg lo) (if desc64 sbi then Z.shiftl (get32 bg hi) 32 else 0).
Definition gd_block_set (sbi : ext4_sb_info) (bg : list Z) (lo hi blk : Z) : list Z :=
  let bg := put32 bg lo (u32 blk) in
  if desc64 sbi then put32 bg hi (Z.shiftr blk 32) else bg.

(** A counter split in two 16-bit halves. *)
Definition gd_count (sbi : ext4_sb_info) (bg : list Z) (lo hi : Z) : Z :=
  Z.lor (get16 bg lo) (if desc64 sbi then Z.shiftl (get16 bg hi) 16 else 0).
Definition gd_count_set (sbi : ext4_sb_info) (bg : list Z) (lo hi count : Z) : list Z :=
  let bg := put16 bg lo (u16 count) in
  if desc64 sbi then put16 bg hi (Z.shiftr count 16) else bg.

Definition ext4_block_bitmap sbi bg := gd_block sbi bg bg_block_bitmap_lo bg_block_bitmap_hi.
Definition ext4_inode_bitmap sbi bg := gd_block sbi bg bg_inode_bitmap_lo bg_inode_bitmap_hi.
Definition ext4_inode_table sbi bg := gd_block sbi bg bg_inode_table_lo bg_inode_table_hi.
Definition ext4_free_group_clusters sbi bg :=
  gd_count sbi bg bg_free_blocks_count_lo bg_free_blocks_count_hi.
Definition ext4_free_inodes_count sbi bg :=
  gd_count sbi bg bg_free_inodes_count_lo bg_free_inodes_count_hi.
Definition ext4_used_dirs_count sbi bg :=
  gd_count sbi bg bg_used_dirs_count_lo bg_used_dirs_count_hi.
Definition ext4_itable_unused_count sbi bg :=
  gd_count sbi bg bg_itable_unused_lo bg_itable_unused_hi.

Definition ext4_block_bitmap_set sbi bg blk :=
  gd_block_set sbi bg bg_block_bitmap_lo bg_block_bitmap_hi blk.
Definition ext4_inode_bitmap_set sbi bg blk :=
  gd_block_set sbi bg bg_inode_bitmap_lo bg_inode_bitmap_hi blk.
Definition ext4_inode_table_set sbi bg blk :=
  gd_block_set sbi bg bg_inode_table_lo bg_inode_table_hi blk.
Definition ext4_free_group_clusters_set sbi bg count :=
  gd_count_set sbi bg bg_free_blocks_count_lo bg_free_blocks_count_hi count.
Definition ext4_free_inodes_set sbi bg count :=
  gd_count_set sbi bg bg_free_inodes_count_lo bg_free_inodes_count_hi count.
Definition ext4_used_dirs_set sbi bg count :=
  gd_count_set sbi bg bg_used_dirs_count_lo bg_used_dirs_count_hi count.
Definition ext4_itable_unused_set sbi bg count :=
  gd_count_set sbi bg bg_itable_unused_lo bg_itable_unused_hi count.

Definition gd_flags (bg : list Z) : Z := get16 bg bg_flags.
Definition gd_has_flag (bg : list Z) (flag : Z) : bool := negb (Z.land (gd_flags bg) flag =? 0).
Definition gd_clear_flag (bg : list Z) (flag : Z) : list Z :=
  put16 bg bg_flags (Z.land (gd_flags bg) (Z.lnot flag)).

(** ** Time stamps of the super block ([__ext4_update_tstamp], [__ext4_get_tstamp]):
    a 40-bit time in a 32-bit and an 8-bit field. *)
Definition ext4_update_tstamp (now : Z) : Z * Z :=
  let now := Z.min (Z.max now 0) (2 ^ 40 - 1) in
  (u32 now, u8 (Z.shiftr now 32)).
Definition ext4_get_tstamp (lo hi : Z) : Z := Z.shiftl hi 32 + lo.

(** ** Checksums *)

Definition EXT4_CRC32C_CHKSUM : Z := 1.

Section Checksums.
Context `{Csum}.

(** [ext4_chksum]: the driver applied to a buffer. *)
Definition ext4_chksum (crc : Z) (buf : list Z) : Z := u32 (crypto_crc32c crc buf).

Definition ext4_verify_csum_type (es : list Z) : bool :=
  if negb (ext4_has_feature_metadata_csum es) then true
  else s_checksum_type es =? EXT4_CRC32C_CHKSUM.

(** [ext4_superblock_csum]: all bytes before the checksum field. *)
Definition ext4_superblock_csum (es : list Z) : Z :=
  ext4_chksum (2 ^ 32 - 1) (gets es 0 (Z.to_nat 0x3FC)).
Definition ext4_superblock_csum_verify (sbi : ext4_sb_info) (es : list Z) : bool :=
  if negb (ext4_has_metadata_csum sbi es) then true
  else s_checksum es =? ext4_superblock_csum es.
Definition ext4_superblock_csum_set (sbi : ext4_sb_info) (es : list Z) : list Z :=
  if negb (ext4_has_metadata_csum sbi es) then es
  else put32 es 0x3FC (ext4_superblock_csum es).

(** [ext4_group_desc_csum]: the descriptor without its checksum field. *)
Definition ext4_group_desc_csum (sbi : ext4_sb_info) (es : list Z)
    (block_group : Z) (gdp : list Z) : Z :=
  let offset := bg_checksum in
  let le_group := le_bytes 4 block_group in
  if ext4_has_metadata_csum sbi es then
    let csum32 := ext4_chksum (s_csum_seed sbi) le_group in
    let csum32 := ext4_chksum csum32 (gets gdp 0 (Z.to_nat offset)) in
    let csum32 := ext4_chksum csum32 (le_bytes 2 0) in
    let offset := offset + 2 in
    let csum32 :=
      if offset <? s_desc_size sbi
      then ext4_chksum csum32 (gets gdp offset (Z.to_nat (s_desc_size sbi - offset)))
      else csum32 in
    Z.land csum32 0xFFFF
  else if negb (ext4_has_feature_gdt_csum es) then 0
  else
    let crc := crc16 0xFFFF (s_uuid es) in
    let crc := crc16 crc le_group in
    let crc := crc16 crc (gets gdp 0 (Z.to_nat offset)) in
    let offset := offset + 2 in
    let crc :=
      if ext4_has_feature_64bit es && (offset <? s_desc_size sbi)
      then crc16 crc (gets gdp offset (Z.to_nat (s_desc_size sbi - offset)))
      else crc in
    u16 crc.

Definition ext4_group_desc_csum_verify sbi es block_group gdp : bool :=
  if ext4_has_group_desc_csum sbi es &&
     negb (get16 gdp bg_checksum =? ext4_group_desc_csum sbi es block_group gdp)
  then false else true.
Definition ext4_group_desc_csum_set sbi es block_group gdp : list Z :=
  if negb (ext4_has_group_desc_csum sbi es) then gdp
  else put16 gdp bg_checksum (ext4_group_desc_csum sbi es block_group gdp).
End Checksums.

(** ** Well-formed buffers *)

Definition es_wf (es : list Z) : Prop :=
  Z.of_nat (length es) = sizeof_ext4_super_block /\ bytes_ok es.

(** A descriptor occupies [s_desc_size] bytes of its block, at least 32. *)
Definition gd_wf (sbi : ext4_sb_info) (bg : list Z) : Prop :=
  Z.of_nat (length bg) = s_desc_size sbi /\ EXT4_MIN_DESC_SIZE <= s_desc_size sbi /\
  bytes_ok bg.


(** *** Split values *)

Section Split.
Context (sbi : ext4_sb_info) (bg : list Z) (Hwf : gd_wf sbi bg).

(** The two halves lie in the descriptor and do not overlap. *)
Definition halves (w lo hi : Z) : Prop :=
  0 <= lo /\ lo + w <= 32 /\ 32 <= hi /\ hi + w <= 64.

Lemma gd_set_wf n lo hi v v' :
  gd_wf sbi (if desc64 sbi then le_put n (le_put n bg lo v) hi v' else le_put n bg lo v).
Proof using Hwf.
  destruct Hwf as (Hl & Hs & Hb).
  split; [|split]; [by destruct (desc64 sbi); autorewrite with len|done|].
  destruct (desc64 sbi); auto with evfs.
Qed.

Lemma gd_count_set_eq lo hi v :
  halves 2 lo hi ->
  gd_count sbi (gd_count_set sbi bg lo hi v) lo hi
    = v mod 2 ^ (if desc64 sbi then 32 else 16).
Proof using Hwf.
  destruct Hwf as (Hl & Hs & Hb). unfold halves, EXT4_MIN_DESC_SIZE in *. intros H.
  unfold gd_count, gd_count_set. destruct (desc64 sbi) eqn:Hd.
  - unfold desc64, EXT4_MIN_DESC_SIZE_64BIT in Hd. apply Z.leb_le in Hd.
    rewrite le_get_put_out by lia.
    rewrite !get16_put16_eq by (autorewrite with len; lia).
    rewrite lor_shiftl_add by (try apply u16_range; lia).
    rewrite (u16_small (u16 v)) by apply u16_range.
    unfold u16, wrap. rewrite Z.shiftr_div_pow2 by lia.
    change (2 ^ 32) with (2 ^ 16 * 2 ^ 16). rewrite Z.rem_mul_r by lia. lia.
  - rewrite get16_put16_eq by lia. rewrite Z.lor_0_r.
    apply u16_small, u16_range.
Qed.

Lemma gd_block_set_eq lo hi v :
  halves 4 lo hi ->
  gd_block sbi (gd_block_set sbi bg lo hi v) lo hi
    = v mod 2 ^ (if desc64 sbi then 64 else 32).
Proof using Hwf.
  destruct Hwf as (Hl & Hs & Hb). unfold halves, EXT4_MIN_DESC_SIZE in *. intros H.
  unfold gd_block, gd_block_set. destruct (desc64 sbi) eqn:Hd.
  - unfold desc64, EXT4_MIN_DESC_SIZE_64BIT in Hd. apply Z.leb_le in Hd.
    rewrite le_get_put_out by lia.
    rewrite !get32_put32_eq by (autorewrite with len; lia).
    rewrite lor_shiftl_add by (try apply u32_range; lia).
    rewrite (u32_small (u32 v)) by apply u32_range.
    unfold u32, wrap. rewrite Z.shiftr_div_pow2 by lia.
    change (2 ^ 64) with (2 ^ 32 * 2 ^ 32). rewrite Z.rem_mul_r by lia. lia.
  - rewrite get32_put32_eq by lia. rewrite Z.lor_0_r.
    apply u32_small, u32_range.
Qed.
End Split.

(** *** The fields as a table *)

Inductive gdfield :=
  | FBlockBitmap | FInodeBitmap | FInodeTable
  | FFreeClusters | FFreeInodes | FUsedDirs | FItableUnused.

#[export] Instance gdfield_eq_dec : EqDecision gdfield.
Proof. solve_decision. Defined.

Definition gd_read (sbi : ext4_sb_info) (f : gdfield) (bg : list Z) : Z :=
  match f with
  | FBlockBitmap => ext4_block_bitmap sbi bg
  | FInodeBitmap => ext4_inode_bitmap sbi bg
  | FInodeTable => ext4_inode_table sbi bg
  | FFreeClusters => ext4_free_group_clusters sbi bg
  | FFreeInodes => ext4_free_inodes_count sbi bg
  | FUsedDirs => ext4_used_dirs_count sbi bg
  | FItableUnused => ext4_itable_unused_count sbi bg
  end.

Definition gd_write (sbi : ext4_sb_info) (f : gdfield) (bg : list Z) (v : Z) : list Z :=
  match f with
  | FBlockBitmap => ext4_block_bitmap_set sbi bg v
  | FInodeBitmap => ext4_inode_bitmap_set sbi bg v
  | FInodeTable => ext4_inode_table_set sbi bg v
  | FFreeClusters => ext4_free_group_clusters_set sbi bg v
  | FFreeInodes => ext4_free_inodes_set sbi bg v
  | FUsedDirs => ext4_used_dirs_set sbi bg v
  | FItableUnused => ext4_itable_unused_set sbi bg v
  end.

(** Bits the on-disk field can hold, by descriptor size. *)
Definition gd_bits (sbi : ext4_sb_info) (f : gdfield) : Z :=
  match f with
  | FBlockBitmap | FInodeBitmap | FInodeTable => if desc64 sbi then 64 else 32
  | _ => if desc64 sbi then 32 else 16
  end.

Ltac unfold_gd :=
  cbn [gd_read gd_write];
  unfold ext4_block_bitmap, ext4_inode_bitmap, ext4_inode_table,
    ext4_free_group_clusters, ext4_free_inodes_count, ext4_used_dirs_count,
    ext4_itable_unused_count, ext4_block_bitmap_set, ext4_inode_bitmap_set,
    ext4_inode_table_set, ext4_free_group_clusters_set, ext4_free_inodes_set,
    ext4_used_dirs_set, ext4_itable_unused_set,
    bg_block_bitmap_lo, bg_block_bitmap_hi, bg_inode_bitmap_lo, bg_inode_bitmap_hi,
    bg_inode_table_lo, bg_inode_table_hi, bg_free_blocks_count_lo,
    bg_free_blocks_count_hi, bg_free_inodes_count_lo, bg_free_inodes_count_hi,
    bg_used_dirs_count_lo, bg_used_dirs_count_hi, bg_itable_unused_lo,
    bg_itable_unused_hi.

Lemma gd_write_wf sbi f bg v : gd_wf sbi bg -> gd_wf sbi (gd_write sbi f bg v).
Proof. intros H. destruct f; apply (gd_set_wf sbi bg H). Qed.

Lemma gd_read_write_eq sbi f bg v :
  gd_wf sbi bg -> gd_read sbi f (gd_write sbi f bg v) = v mod 2 ^ gd_bits sbi f.
Proof.
  intros H. destruct f; unfold_gd; cbn [gd_bits];
    (apply gd_block_set_eq || apply gd_count_set_eq); unfold halves; lia || done.
Qed.

Lemma gd_read_write_ne sbi f g bg v :
  f <> g -> gd_read sbi g (gd_write sbi f bg v) = gd_read sbi g bg.
Proof.
  intros Hne. destruct f, g; try done; clear Hne; unfold_gd;
    unfold gd_block, gd_count, gd_block_set, gd_count_set;
    destruct (desc64 sbi); rewrite ?le_get_put_out by lia; done.
Qed.

Lemma gd_flags_write sbi f bg v : gd_flags (gd_write sbi f bg v) = gd_flags bg.
Proof.
  unfold gd_flags, bg_flags. destruct f; unfold_gd; unfold gd_block_set, gd_count_set;
    destruct (desc64 sbi); by rewrite ?le_get_put_out by lia.
Qed.

Lemma gd_read_range sbi f bg : gd_wf sbi bg -> 0 <= gd_read sbi f bg < 2 ^ gd_bits sbi f.
Proof.
  intros (Hl & Hs & Hb).
  destruct f; unfold_gd; unfold gd_block, gd_count, gd_bits; destruct (desc64 sbi);
  (rewrite lor_shiftl_add || rewrite Z.lor_0_r);
  try (apply (get32_range bg _ Hb) || apply (get16_range bg _ Hb) || lia);
  match goal with
  | |- context [get32 bg ?a + get32 bg ?b * _] =>
      pose proof (get32_range bg a Hb); pose proof (get32_range bg b Hb)
  | |- context [get16 bg ?a + get16 bg ?b * _] =>
      pose proof (get16_range bg a Hb); pose proof (get16_range bg b Hb)
  end; lia.
Qed.

(** *** Super block counters *)

Lemma es_free_blocks_set_wf es n : es_wf es -> es_wf (ext4_free_blocks_count_set es n).
Proof.
  intros [Hl Hb]. unfold ext4_free_blocks_count_set.
  split; [by autorewrite with len|auto with evfs].
Qed.

Lemma es_free_blocks_set_features es n :
  s_feature_incompat (ext4_free_blocks_count_set es n) = s_feature_incompat es /\
  s_feature_ro_compat (ext4_free_blocks_count_set es n) = s_feature_ro_compat es /\
  s_feature_compat (ext4_free_blocks_count_set es n) = s_feature_compat es.
Proof.
  unfold s_feature_incompat, s_feature_ro_compat, s_feature_compat,
    ext4_free_blocks_count_set.
  by rewrite !le_get_put_out by lia.
Qed.

Lemma ext4_free_blocks_count_eq es n :
  es_wf es ->
  ext4_free_blocks_count (ext4_free_blocks_count_set es n)
    = n mod 2 ^ (if ext4_has_feature_64bit es then 64 else 32).
Proof.
  intros [Hl Hb]. unfold sizeof_ext4_super_block in Hl.
  destruct (es_free_blocks_set_features es n) as (Hi & _ & _).
  unfold ext4_free_blocks_count, read_incompat_64bit, ext4_has_feature_64bit,
    ext4_has_incompat. rewrite Hi.
  unfold s_free_blocks_count_hi, s_free_blocks_count_lo, ext4_free_blocks_count_set.
  rewrite get32_put32_eq by (autorewrite with len; lia).
  rewrite le_get_put_out by lia. rewrite get32_put32_eq by lia.
  rewrite (u32_small (u32 n)) by apply u32_range.
  destruct (Z.land _ _ =? 0); simpl negb; cbv iota.
  - rewrite Z.lor_0_l. reflexivity.
  - rewrite Z.lor_comm, lor_shiftl_add by (try apply u32_range; lia).
    unfold u32, wrap. rewrite Z.shiftr_div_pow2 by lia.
    change (2 ^ 64) with (2 ^ 32 * 2 ^ 32). rewrite Z.rem_mul_r by lia. lia.
Qed.

Lemma csum_features_set sbi es off v n :
  (off + Z.of_nat n <= 0x5C \/ 0x68 <= off) ->
  ext4_has_metadata_csum sbi (le_put n es off v) = ext4_has_metadata_csum sbi es /\
  ext4_has_group_desc_csum sbi (le_put n es off v) = ext4_has_group_desc_csum sbi es /\
  ext4_has_feature_gdt_csum (le_put n es off v) = ext4_has_feature_gdt_csum es /\
  ext4_has_feature_64bit (le_put n es off v) = ext4_has_feature_64bit es.
Proof.
  intros Ho.
  unfold ext4_has_group_desc_csum, ext4_has_metadata_csum, ext4_has_feature_metadata_csum,
    ext4_has_feature_gdt_csum, ext4_has_feature_64bit, ext4_has_ro_compat,
    ext4_has_incompat, s_feature_ro_compat, s_feature_incompat.
  by rewrite !le_get_put_out by lia.
Qed.

(** *** Cluster arithmetic *)

Lemma num_b2c_pred sbi n :
  s_cluster_ratio sbi = 1 -> s_cluster_bits sbi = 0 -> 0 < n < 2 ^ 32 ->
  EXT4_NUM_B2C sbi (u32 (EXT4_C2B sbi n - 1)) = n - 1.
Proof.
  intros Hr Hb Hn. unfold EXT4_NUM_B2C, EXT4_C2B. rewrite Hr, Hb, Z.shiftr_0_r, Z.shiftl_0_r.
  rewrite (u32_small n) by lia. rewrite (u32_small (n - 1)) by lia.
  rewrite (u32_small (n - 1 + 1)) by lia. rewrite u32_small; lia.
Qed.

Lemma num_b2c_succ sbi n :
  s_cluster_ratio sbi = 1 -> s_cluster_bits sbi = 0 -> 0 <= n < 2 ^ 32 - 2 ->
  EXT4_NUM_B2C sbi (u32 (EXT4_C2B sbi n + 1)) = n + 1.
Proof.
  intros Hr Hb Hn. unfold EXT4_NUM_B2C, EXT4_C2B. rewrite Hr, Hb, Z.shiftr_0_r, Z.shiftl_0_r.
  rewrite (u32_small n) by lia. rewrite (u32_small (n + 1)) by lia.
  rewrite (u32_small (n + 1 + 1)) by lia. rewrite u32_small; lia.
Qed.

(** With more than one block per cluster the rounding up of [EXT4_NUM_B2C]
    undoes the decrement. *)
Lemma num_b2c_pred_bigalloc sbi n k :
  0 < k -> s_cluster_bits sbi = k -> s_cluster_ratio sbi = 2 ^ k ->
  0 < n -> (n + 1) * 2 ^ k < 2 ^ 32 ->
  EXT4_NUM_B2C sbi (u32 (EXT4_C2B sbi n - 1)) = n.
Proof.
  intros Hk Hb Hr Hn Hmax. unfold EXT4_NUM_B2C, EXT4_C2B. rewrite Hr, Hb.
  rewrite Z.shiftl_mul_pow2 by lia.
  assert (Hp : 2 <= 2 ^ k) by (apply (Z.pow_le_mono_r 2 1 k); lia).
  set (P := 2 ^ k) in *.
  rewrite (u32_small (n * P)) by nia. rewrite (u32_small (n * P - 1)) by nia.
  rewrite (u32_small (n * P - 1 + P)) by nia. rewrite u32_small by nia.
  rewrite Z.shiftr_div_pow2 by lia. fold P. symmetry.
  apply (Z.div_unique _ _ _ (P - 2)); nia.
Qed.

(** *** Checksums *)

Section ChecksumLemmas.
Context `{Csum}.

Lemma gd_csum_range sbi es g bg : in_u 16 (ext4_group_desc_csum sbi es g bg).
Proof.
  unfold ext4_group_desc_csum. destruct (ext4_has_metadata_csum sbi es).
  - cbv zeta. rewrite (Z.land_ones _ 16) by lia. apply Z.mod_pos_bound. lia.
  - destruct (ext4_has_feature_gdt_csum es); [apply u16_range|unfold in_u; simpl; lia].
Qed.

Lemma gd_csum_verify sbi es g bg :
  gd_wf sbi bg ->
  ext4_group_desc_csum_verify sbi es g (ext4_group_desc_csum_set sbi es g bg) = true.
Proof.
  intros (Hl & Hs & Hb). unfold EXT4_MIN_DESC_SIZE in Hs.
  unfold ext4_group_desc_csum_verify, ext4_group_desc_csum_set.
  destruct (ext4_has_group_desc_csum sbi es) eqn:Hc; cbn [negb andb]; [|done].
  assert (Hcs : forall v, ext4_group_desc_csum sbi es g (put16 bg bg_checksum v)
                          = ext4_group_desc_csum sbi es g bg).
  { intros v. unfold ext4_group_desc_csum, bg_checksum.
    by rewrite !(gets_ext (put16 bg 30 v) bg)
      by (intros; apply getb_puts_out; simpl length; lia). }
  rewrite get16_put16_eq, Hcs by (unfold bg_checksum; lia).
  rewrite u16_small by apply gd_csum_range. by rewrite Z.eqb_refl.
Qed.

Lemma gd_csum_keeps sbi es g bg :
  (forall f, gd_read sbi f (ext4_group_desc_csum_set sbi es g bg) = gd_read sbi f bg) /\
  gd_flags (ext4_group_desc_csum_set sbi es g bg) = gd_flags bg.
Proof.
  unfold ext4_group_desc_csum_set. destruct (ext4_has_group_desc_csum sbi es); [|done].
  cbn [negb]. unfold bg_checksum, gd_flags, bg_flags. split.
  - intros f. destruct f; unfold_gd; unfold gd_block, gd_count;
      destruct (desc64 sbi); by rewrite ?le_get_put_out by lia.
  - by rewrite le_get_put_out by lia.
Qed.

Lemma gd_csum_wf sbi es g bg : gd_wf sbi bg -> gd_wf sbi (ext4_group_desc_csum_set sbi es g bg).
Proof.
  intros (Hl & Hs & Hb). unfold ext4_group_desc_csum_set.
  destruct (negb _); [done|]. split; [by autorewrite with len|auto with evfs].
Qed.

(** The features a checksum depends on do not depend on the checksum field. *)
Lemma sb_csum_features sbi es :
  let es' := ext4_superblock_csum_set sbi es in
  ext4_has_metadata_csum sbi es' = ext4_has_metadata_csum sbi es /\
  ext4_has_group_desc_csum sbi es' = ext4_has_group_desc_csum sbi es /\
  ext4_has_feature_gdt_csum es' = ext4_has_feature_gdt_csum es /\
  ext4_has_feature_64bit es' = ext4_has_feature_64bit es.
Proof.
  unfold ext4_superblock_csum_set. destruct (negb _); [done|]. apply csum_features_set. lia.
Qed.

(** The descriptor checksum reads the features and the UUID of the super block
    only, so updating its counters does not invalidate it. *)
Lemma gd_csum_es sbi es es' g bg :
  ext4_has_metadata_csum sbi es' = ext4_has_metadata_csum sbi es ->
  ext4_has_group_desc_csum sbi es' = ext4_has_group_desc_csum sbi es ->
  ext4_has_feature_gdt_csum es' = ext4_has_feature_gdt_csum es ->
  ext4_has_feature_64bit es' = ext4_has_feature_64bit es -> s_uuid es' = s_uuid es ->
  ext4_group_desc_csum_verify sbi es' g bg = ext4_group_desc_csum_verify sbi es g bg.
Proof.
  intros Hm Hg Ht H64 Hu. unfold ext4_group_desc_csum_verify, ext4_group_desc_csum.
  by rewrite Hm, Hg, Ht, H64, Hu.
Qed.

Lemma sb_csum_verify sbi es :
  es_wf es -> ext4_superblock_csum_verify sbi (ext4_superblock_csum_set sbi es) = true.
Proof.
  intros [Hl Hb]. unfold sizeof_ext4_super_block in Hl.
  destruct (sb_csum_features sbi es) as (Hm & _).
  unfold ext4_superblock_csum_verify. rewrite Hm. unfold ext4_superblock_csum_set.
  destruct (ext4_has_metadata_csum sbi es); [|done]. cbn [negb]. unfold s_checksum.
  rewrite get32_put32_eq by lia. apply Z.eqb_eq.
  rewrite u32_small by apply u32_range. unfold ext4_superblock_csum. f_equal.
  apply gets_ext. intros i Hi. symmetry. apply getb_puts_out. simpl length. lia.
Qed.

Lemma sb_csum_keeps sbi es :
  ext4_free_blocks_count (ext4_superblock_csum_set sbi es) = ext4_free_blocks_count es.
Proof.
  unfold ext4_superblock_csum_set. destruct (negb _); [done|].
  unfold ext4_free_blocks_count, read_incompat_64bit, s_feature_incompat,
    s_free_blocks_count_hi, s_free_blocks_count_lo.
  by rewrite !le_get_put_out by lia.
Qed.

Lemma sb_csum_wf sbi es : es_wf es -> es_wf (ext4_superblock_csum_set sbi es).
Proof.
  intros [Hl Hb]. unfold ext4_superblock_csum_set. destruct (negb _); [done|].
  split; [by autorewrite with len|auto with evfs].
Qed.

(** The update of the free count with its checksum, as the handlers do it. *)
Lemma sb_count_update sbi es n bg g :
  es_wf es ->
  let es' := ext4_superblock_csum_set sbi (ext4_free_blocks_count_set es n) in
  es_wf es' /\ ext4_superblock_csum_verify sbi es' = true /\
  ext4_free_blocks_count es' = n mod 2 ^ (if ext4_has_feature_64bit es then 64 else 32) /\
  ext4_has_feature_64bit es' = ext4_has_feature_64bit es /\
  ext4_has_group_desc_csum sbi es' = ext4_has_group_desc_csum sbi es /\
  ext4_group_desc_csum_verify sbi es' g bg = ext4_group_desc_csum_verify sbi es g bg.
Proof.
  intros Hwf es'. pose proof (es_free_blocks_set_wf es n Hwf) as Hwf1.
  set (es1 := ext4_free_blocks_count_set es n) in *.
  destruct (sb_csum_features sbi es1) as (Hm & Hg & Ht & H64).
  assert (Hf1 : ext4_has_metadata_csum sbi es1 = ext4_has_metadata_csum sbi es /\
    ext4_has_group_desc_csum sbi es1 = ext4_has_group_desc_csum sbi es /\
    ext4_has_feature_gdt_csum es1 = ext4_has_feature_gdt_csum es /\
    ext4_has_feature_64bit es1 = ext4_has_feature_64bit es).
  { subst es1. unfold ext4_free_blocks_count_set.
    destruct (csum_features_set sbi es 0xC (u32 n) 4) as (A & B & C & D); [lia|].
    destruct (csum_features_set sbi (put32 es 0xC (u32 n)) 0x158 (Z.shiftr n 32) 4)
      as (-> & -> & -> & ->); [lia|done]. }
  destruct Hf1 as (Hm1 & Hg1 & Ht1 & H641).
  assert (Hu : s_uuid es' = s_uuid es).
  { subst es' es1. unfold s_uuid, ext4_superblock_csum_set, ext4_free_blocks_count_set.
    apply gets_ext. intros i Hi. destruct (negb _);
      unfold le_put; rewrite !getb_puts_out by (simpl length; lia); done. }
  subst es'. split_and!.
  - by apply sb_csum_wf.
  - by apply sb_csum_verify.
  - rewrite sb_csum_keeps. by apply ext4_free_blocks_count_eq.
  - congruence.
  - congruence.
  - apply gd_csum_es; congruence.
Qed.
End ChecksumLemmas.

(** ** Properties *)

(** C37: every accessor pair of super.c is independent: after writing field [f] of
    a descriptor, [f] reads back the value truncated to the bits the descriptor
    size gives it (32-byte descriptors keep only the low half), every other field
    reads as before, and the flags are untouched. *)
Theorem group_desc_accessors sbi f g bg v :
  gd_wf sbi bg ->
  gd_read sbi g (gd_write sbi f bg v)
    = (if decide (f = g) then v mod 2 ^ gd_bits sbi f else gd_read sbi g bg) /\
  gd_flags (gd_write sbi f bg v) = gd_flags bg /\ gd_wf sbi (gd_write sbi f bg v).
Proof.
  intros H. split; [|split; [apply gd_flags_write|by apply gd_write_wf]].
  case_decide; [subst; by apply gd_read_write_eq|by apply gd_read_write_ne].
Qed.

(** The checksum of a group descriptor excludes its own field: after
    [ext4_group_desc_csum_set] the verification of the same group succeeds, and
    no accessor of super.c sees a difference. *)
Theorem group_desc_csum_set_verify `{Csum} sbi es g bg :
  gd_wf sbi bg ->
  ext4_group_desc_csum_verify sbi es g (ext4_group_desc_csum_set sbi es g bg) = true /\
  (forall f, gd_read sbi f (ext4_group_desc_csum_set sbi es g bg) = gd_read sbi f bg) /\
  gd_flags (ext4_group_desc_csum_set sbi es g bg) = gd_flags bg.
Proof. intros Hwf. split; [by apply gd_csum_verify|apply gd_csum_keeps]. Qed.

(** After [ext4_superblock_csum_set] the super block verifies, and the free
    block count is not affected. *)
Theorem superblock_csum_set_verify `{Csum} sbi es :
  es_wf es ->
  ext4_superblock_csum_verify sbi (ext4_superblock_csum_set sbi es) = true /\
  ext4_free_blocks_count (ext4_superblock_csum_set sbi es) = ext4_free_blocks_count es.
Proof. intros Hwf. split; [by apply sb_csum_verify|apply sb_csum_keeps]. Qed.

(** The 40-bit time stamp of the super block survives its split in a 32-bit
    and an 8-bit field, clamped to [0, 2^40 - 1]. *)
Theorem tstamp_roundtrip now :
  let '(lo, hi) := ext4_update_tstamp now in
  ext4_get_tstamp lo hi = Z.min (Z.max now 0) (2 ^ 40 - 1) /\ in_u 32 lo /\ in_u 8 hi.
Proof.
  unfold ext4_update_tstamp, ext4_get_tstamp.
  set (t := Z.min (Z.max now 0) (2 ^ 40 - 1)).
  assert (Ht : 0 <= t < 2 ^ 40) by lia.
  assert (Hs : 0 <= Z.shiftr t 32 < 256).
  { rewrite Z.shiftr_div_pow2 by lia. split; [apply Z.div_pos; lia|].
    apply Z.div_lt_upper_bound; lia. }
  split; [|split; [apply u32_range|apply u8_range]].
  rewrite u8_small by done. rewrite Z.shiftl_mul_pow2 by lia.
  unfold u32, wrap. pose proof (div_mod_shift t 32). lia.
Qed.

(** [ext4_set_feature_*] makes the test of the same flag succeed and
    [ext4_clear_feature_*] makes it fail; neither changes another flag of the word. *)
Theorem feature_set_clear es flag other :
  es_wf es -> 0 < flag < 2 ^ 32 -> Z.land flag other = 0 ->
  ext4_has_ro_compat (ext4_set_ro_compat es flag) flag = true /\
  ext4_has_ro_compat (ext4_clear_ro_compat es flag) flag = false /\
  ext4_has_ro_compat (ext4_set_ro_compat es flag) other = ext4_has_ro_compat es other /\
  ext4_has_ro_compat (ext4_clear_ro_compat es flag) other = ext4_has_ro_compat es other.
Proof.
  intros [Hl Hb] Hf Ho. unfold sizeof_ext4_super_block in Hl.
  set (es' := ext4_update_dynamic_rev es).
  assert (Hes' : Z.of_nat (length es') = 1024 /\ bytes_ok es' /\
            s_feature_ro_compat es' = s_feature_ro_compat es).
  { unfold es', ext4_update_dynamic_rev. case_cmp; [done|].
    split; [by autorewrite with len|]. split; [auto with evfs|].
    unfold s_feature_ro_compat. by rewrite !le_get_put_out by lia. }
  destruct Hes' as (Hl' & Hb' & Hro).
  assert (Hw : forall e v, Z.of_nat (length e) = 1024 ->
            s_feature_ro_compat (put32 e 0x64 v) = u32 v).
  { intros. unfold s_feature_ro_compat. apply get32_put32_eq; lia. }
  pose proof (get32_range es 0x64 Hb) as Hr. fold (s_feature_ro_compat es) in Hr.
  set (F := s_feature_ro_compat es) in *.
  assert (Hor : u32 (Z.lor F flag) = Z.lor F flag).
  { apply wrap_small. apply (in_u_bits 32); [lia|]. intros i Hi.
    rewrite Z.lor_spec, (proj1 (in_u_bits 32 F ltac:(lia)) Hr i Hi).
    apply (proj1 (in_u_bits 32 flag ltac:(lia))); [unfold in_u; lia|done]. }
  assert (Hand : u32 (Z.land F (Z.lnot flag)) = Z.land F (Z.lnot flag)).
  { apply wrap_small. apply (in_u_bits 32); [lia|]. intros i Hi.
    by rewrite Z.land_spec, (proj1 (in_u_bits 32 F ltac:(lia)) Hr i Hi). }
  unfold ext4_has_ro_compat, ext4_set_ro_compat, ext4_clear_ro_compat.
  fold es'. rewrite !Hw, Hro by done. fold F. rewrite Hor, Hand.
  assert (Hoi : Z.land (Z.lnot flag) other = other).
  { rewrite Z.land_comm, <- Z.ldiff_land. apply Z.bits_inj'. intros i Hi.
    rewrite Z.ldiff_spec. apply (f_equal (fun x => Z.testbit x i)) in Ho.
    rewrite Z.land_spec, Z.bits_0 in Ho. by destruct (Z.testbit flag i), (Z.testbit other i). }
  repeat split.
  - rewrite Z.land_comm, Z.land_lor_distr_r, Z.land_diag.
    apply negb_true_iff, Z.eqb_neq. intros Hz.
    apply Z.lor_eq_0_iff in Hz. lia.
  - by rewrite <- Z.land_assoc, (Z.land_comm (Z.lnot flag)), Z.land_lnot_diag, Z.land_0_r.
  - by rewrite (Z.land_comm _ other), Z.land_lor_distr_r, (Z.land_comm other flag), Ho,
      Z.lor_0_r, Z.land_comm.
  - by rewrite <- Z.land_assoc, Hoi.
Qed.
