(* ===== verification/ExtentNode.v ===== *)
(** * Nodes of the extent tree (fs/ext4/extents.c)

    A node is a header followed by an array of 12-byte slots, of which the
    first [eh_entries] are in use.  This file models the code that works inside
    one node: the validity check, the two binary searches, the merge of
    neighbouring extents and the insertion of a slot, all on the raw array with
    [memmove].  The abstraction of a leaf is the list of its extents in use and,
    above it, the partial map from logical to physical blocks ([mapping]).

    ext4_extents.h is not part of the repository.  What the code uses of it is
    the class [ExtFmt] (the packing of the length and of the block number), with
    its documented behaviour in [ExtFmtOk]. *)

From stdpp Require Import prelude list.
From Stdlib Require Import ZArith Lia.
From S2P Require Import Prelude.

(** ** Extents and indexes *)

(** [struct ext4_extent]; [ee_start] is the split block number, read and
    written through [ext4_ext_pblock] and [ext4_ext_store_pblock]. *)
Record ext4_extent := Ext { ee_block : Z; ee_len : Z; ee_start : Z }.

(** [struct ext4_extent_idx] *)
Record ext4_extent_idx := Idx { ei_block : Z; ei_leaf : Z }.

#[export] Instance ext4_extent_eq_dec : EqDecision ext4_extent.
Proof. solve_decision. Defined.
#[export] Instance ext4_extent_inhabited : Inhabited ext4_extent := populate (Ext 0 0 0).
#[export] Instance ext4_extent_idx_inhabited : Inhabited ext4_extent_idx := populate (Idx 0 0).

(** The packing functions and limits of ext4_extents.h. *)
Class ExtFmt := {
  len_is_unwritten : Z -> bool;      (* of ee_len *)
  len_actual : Z -> Z;               (* ext4_ext_get_actual_len, of ee_len *)
  len_mark_unwritten : Z -> Z;
  len_mark_initialized : Z -> Z;
  pblock_of : Z -> Z;                (* of the stored block number *)
  pblock_store : Z -> Z;
  EXT_INIT_MAX_LEN : Z;
  EXT_UNWRITTEN_MAX_LEN : Z;
  EXT_MAX_BLOCKS : Z;                (* the largest logical block number *)
  EXT4_EXT_MAGIC : Z;
  EXT4_MAX_EXTENT_DEPTH : Z;
  sizeof_extent_header : Z;
  sizeof_extent : Z;
  sizeof_extent_idx : Z
}.

(** Documented behaviour: a length up to [EXT_INIT_MAX_LEN] is initialized and
    stands for itself, marking it unwritten (once or again) keeps the length; a 48-bit block
    number is stored exactly; ee_len is a 16-bit field. *)
Class ExtFmtOk `{ExtFmt} := {
  fmt_limits : 0 < EXT_UNWRITTEN_MAX_LEN <= EXT_INIT_MAX_LEN /\ EXT_INIT_MAX_LEN < 65536;
  fmt_init n : 0 < n <= EXT_INIT_MAX_LEN -> len_is_unwritten n = false /\ len_actual n = n;
  fmt_unwritten n : 0 < n <= EXT_UNWRITTEN_MAX_LEN ->
    len_is_unwritten (len_mark_unwritten n) = true /\ len_actual (len_mark_unwritten n) = n;
  fmt_unwritten_again l : len_is_unwritten l = true -> 0 < len_actual l ->
    len_is_unwritten (len_mark_unwritten l) = true /\ len_actual (len_mark_unwritten l) = len_actual l;
  fmt_range l : 0 <= len_actual l /\
    len_actual l <= (if len_is_unwritten l then EXT_UNWRITTEN_MAX_LEN else EXT_INIT_MAX_LEN);
  fmt_mark_initialized l : 0 < len_actual l ->
    len_is_unwritten (len_mark_initialized l) = false /\
    len_actual (len_mark_initialized l) = len_actual l;
  fmt_pblock p : 0 <= p < 2 ^ 48 -> pblock_of (pblock_store p) = p;
  fmt_pblock_range s : 0 <= pblock_of s < 2 ^ 48;
  fmt_max_blocks : EXT_MAX_BLOCKS = 2 ^ 32 - 1;
  fmt_depth : 0 < EXT4_MAX_EXTENT_DEPTH
}.

(** ** Nodes *)

(** A node: the header fields and the slots, as extents (used when
    [eh_depth = 0]) and as indexes. *)
Record node := Node {
  eh_magic : Z;
  eh_entries : Z;
  eh_max : Z;
  eh_depth : Z;
  eh_generation : Z;
  n_ext : list ext4_extent;
  n_idx : list ext4_extent_idx
}.

Definition set_entries (n : Z) (nd : node) : node :=
  Node (eh_magic nd) n (eh_max nd) (eh_depth nd) (eh_generation nd) (n_ext nd) (n_idx nd).
Definition set_ext (l : list ext4_extent) (nd : node) : node :=
  Node (eh_magic nd) (eh_entries nd) (eh_max nd) (eh_depth nd) (eh_generation nd) l (n_idx nd).
Definition set_idx (l : list ext4_extent_idx) (nd : node) : node :=
  Node (eh_magic nd) (eh_entries nd) (eh_max nd) (eh_depth nd) (eh_generation nd) (n_ext nd) l.

(** [memmove] of [n] slots from index [src] to index [dst]. *)
Definition memmove {A} (a : list A) (dst src n : nat) : list A :=
  take dst a ++ take n (drop src a) ++ drop (dst + n) a.

(** Pointer [EXT_FIRST_EXTENT(eh) + i] as the index [i]. *)
Definition slot (nd : node) (i : Z) : ext4_extent := n_ext nd !!! Z.to_nat i.
Definition islot (nd : node) (i : Z) : ext4_extent_idx := n_idx nd !!! Z.to_nat i.
Definition set_slot (i : Z) (e : ext4_extent) (nd : node) : node :=
  set_ext (<[Z.to_nat i := e]> (n_ext nd)) nd.
Definition set_islot (i : Z) (x : ext4_extent_idx) (nd : node) : node :=
  set_idx (<[Z.to_nat i := x]> (n_idx nd)) nd.

(** [EXT_LAST_EXTENT(eh)] and [EXT_MAX_EXTENT(eh)], as indexes. *)
Definition EXT_LAST (nd : node) : Z := eh_entries nd - 1.
Definition EXT_MAX (nd : node) : Z := eh_max nd - 1.

Section Node.
Context `{ExtFmt}.

Definition ext4_ext_is_unwritten (e : ext4_extent) : bool := len_is_unwritten (ee_len e).
Definition ext4_ext_get_actual_len (e : ext4_extent) : Z := len_actual (ee_len e).
Definition ext4_ext_pblock (e : ext4_extent) : Z := pblock_of (ee_start e).
Definition ext4_idx_pblock (x : ext4_extent_idx) : Z := pblock_of (ei_leaf x).
Definition ext4_ext_store_pblock (e : ext4_extent) (p : Z) : ext4_extent :=
  Ext (ee_block e) (ee_len e) (pblock_store p).
Definition ext4_idx_store_pblock (x : ext4_extent_idx) (p : Z) : ext4_extent_idx :=
  Idx (ei_block x) (pblock_store p).
Definition ext4_ext_mark_unwritten (e : ext4_extent) : ext4_extent :=
  Ext (ee_block e) (len_mark_unwritten (ee_len e)) (ee_start e).
Definition ext4_ext_mark_initialized (e : ext4_extent) : ext4_extent :=
  Ext (ee_block e) (len_mark_initialized (ee_len e)) (ee_start e).
(** [ex->ee_len = cpu_to_le16(n)] *)
Definition set_ee_len (e : ext4_extent) (n : Z) : ext4_extent :=
  Ext (ee_block e) (u16 n) (ee_start e).

(** *** Validity of a node's entries *)

(** [ext4_valid_extent]; [valid_block block len] is [ext4_inode_block_valid]. *)
Definition ext4_valid_extent (valid_block : Z -> Z -> bool) (e : ext4_extent) : bool :=
  let lblock := ee_block e in
  let len := ext4_ext_get_actual_len e in
  if u32 (lblock + len) <=? lblock then false
  else valid_block (ext4_ext_pblock e) len.

Definition ext4_valid_extent_idx (valid_block : Z -> Z -> bool) (x : ext4_extent_idx) : bool :=
  valid_block (ext4_idx_pblock x) 1.

(** The two loops of [ext4_valid_extent_entries], over the entries left. *)
Fixpoint valid_leaf_loop (vb : Z -> Z -> bool) (cur : Z) (l : list ext4_extent) : bool :=
  match l with
  | [] => true
  | e :: l =>
      if negb (ext4_valid_extent vb e) then false
      else if ee_block e <? cur then false
      else valid_leaf_loop vb (u32 (ee_block e + ext4_ext_get_actual_len e)) l
  end.

Fixpoint valid_idx_loop (vb : Z -> Z -> bool) (cur : Z) (l : list ext4_extent_idx) : bool :=
  match l with
  | [] => true
  | x :: l =>
      if negb (ext4_valid_extent_idx vb x) then false
      else if ei_block x <? cur then false
      else valid_idx_loop vb (u32 (ei_block x + 1)) l
  end.

(** [ext4_valid_extent_entries]: [root_depth] is [ext_depth(inode)]. *)
Definition ext4_valid_extent_entries (vb : Z -> Z -> bool) (root_depth : Z)
    (nd : node) (lblk depth : Z) : bool :=
  if eh_entries nd =? 0 then true
  else if depth =? 0 then
    if negb (depth =? root_depth) && negb (lblk =? ee_block (slot nd 0)) then false
    else valid_leaf_loop vb 0 (take (Z.to_nat (eh_entries nd)) (n_ext nd))
  else
    if negb (depth =? root_depth) && negb (lblk =? ei_block (islot nd 0)) then false
    else valid_idx_loop vb 0 (take (Z.to_nat (eh_entries nd)) (n_idx nd)).

(** *** Binary search *)

(** The loop [while (l <= r)] of both searches: [key m] is the first logical
    block of entry [m], the result is [l - 1].  [fuel] bounds the iterations. *)
Fixpoint binsearch_loop (fuel : nat) (key : Z -> Z) (block l r : Z) : option Z :=
  if l <=? r then
    match fuel with
    | O => None
    | S fuel =>
        let m := l + (r - l) / 2 in
        if block <? key m then binsearch_loop fuel key block l (m - 1)
        else binsearch_loop fuel key block (m + 1) r
    end
  else Some (l - 1).

(** [ext4_ext_binsearch_idx]: [path->p_idx]. *)
Definition ext4_ext_binsearch_idx (nd : node) (block : Z) : option Z :=
  binsearch_loop (Z.to_nat (eh_entries nd)) (fun m => ei_block (islot nd m))
    block 1 (EXT_LAST nd).

(** [ext4_ext_binsearch]: [path->p_ext], [None] (NULL) in an empty leaf. *)
Definition ext4_ext_binsearch (nd : node) (block : Z) : option Z :=
  if eh_entries nd =? 0 then None
  else binsearch_loop (Z.to_nat (eh_entries nd)) (fun m => ee_block (slot nd m))
         block 1 (EXT_LAST nd).

(** The linear reference search of the [CHECK_BINSEARCH] blocks: scan the [n]
    entries from [k], remembering the last one that starts at or before
    [block]. *)
Fixpoint linear_scan (key : Z -> Z) (block : Z) (n : nat) (k ch : Z) : Z :=
  match n with
  | O => ch
  | S n => if block <? key k then ch else linear_scan key block n (k + 1) k
  end.

Definition check_binsearch (key : Z -> Z) (block n : Z) : Z :=
  linear_scan key block (Z.to_nat n) 0 0.

(** *** Merging *)

(** [ext4_can_extents_be_merged] *)
Definition ext4_can_extents_be_merged (ex1 ex2 : ext4_extent) : bool :=
  if negb (Bool.eqb (ext4_ext_is_unwritten ex1) (ext4_ext_is_unwritten ex2)) then false
  else
  let ext1_ee_len := ext4_ext_get_actual_len ex1 in
  let ext2_ee_len := ext4_ext_get_actual_len ex2 in
  if negb (u32 (ee_block ex1 + ext1_ee_len) =? ee_block ex2) then false
  else if EXT_INIT_MAX_LEN <? ext1_ee_len + ext2_ee_len then false
  else if ext4_ext_is_unwritten ex1 && (EXT_UNWRITTEN_MAX_LEN <? ext1_ee_len + ext2_ee_len)
  then false
  else ext4_ext_pblock ex1 + ext1_ee_len =? ext4_ext_pblock ex2.

(** The extent after absorbing its right neighbour. *)
Definition merged (ex ex2 : ext4_extent) : ext4_extent :=
  let unwritten := ext4_ext_is_unwritten ex in
  let ex' := set_ee_len ex (ext4_ext_get_actual_len ex + ext4_ext_get_actual_len ex2) in
  if unwritten then ext4_ext_mark_unwritten ex' else ex'.

(** One iteration of [ext4_ext_try_to_merge_right] at index [ex]. *)
Definition merge_step (nd : node) (ex : Z) : node :=
  let nd1 := set_slot ex (merged (slot nd ex) (slot nd (ex + 1))) nd in
  let nd2 :=
    if ex + 1 <? EXT_LAST nd1
    then set_ext (memmove (n_ext nd1) (Z.to_nat (ex + 1)) (Z.to_nat (ex + 2))
                    (Z.to_nat (EXT_LAST nd1 - ex - 1))) nd1
    else nd1 in
  set_entries (u16 (eh_entries nd2 - 1)) nd2.

(** [ext4_ext_try_to_merge_right]: the loop, and whether a merge was done. *)
Fixpoint merge_right_loop (fuel : nat) (nd : node) (ex : Z) (merge_done : bool) : bool * node :=
  match fuel with
  | O => (merge_done, nd)
  | S fuel =>
      if ex <? EXT_LAST nd then
        if negb (ext4_can_extents_be_merged (slot nd ex) (slot nd (ex + 1)))
        then (merge_done, nd)
        else merge_right_loop fuel (merge_step nd ex) ex true
      else (merge_done, nd)
  end.

Definition ext4_ext_try_to_merge_right (nd : node) (ex : Z) : bool * node :=
  merge_right_loop (Z.to_nat (eh_entries nd)) nd ex false.

(** The leaf part of [ext4_ext_try_to_merge]. *)
Definition try_to_merge_leaf (nd : node) (ex : Z) : node :=
  let '(merge_done, nd1) :=
    if 0 <? ex then ext4_ext_try_to_merge_right nd (ex - 1) else (false, nd) in
  if merge_done then nd1 else (ext4_ext_try_to_merge_right nd1 ex).2.

(** *** Insertion of a slot *)

(** [has_space] part of [ext4_ext_insert_extent] on the leaf: where the new
    extent goes relative to the nearest one, the move of the tail and the
    store.  [None] is the BUG_ON for an equal start block. *)
Definition insert_slot (nd : node) (nearex : option Z) (newext : ext4_extent)
    : option (Z * node) :=
  let near :=
    match nearex with
    | None => Some 0
    | Some i => if ee_block (slot nd i) <? ee_block newext then Some (i + 1)
                else if ee_block newext =? ee_block (slot nd i) then None
                else Some i
    end in
  match near with
  | None => None
  | Some i =>
      let len := EXT_LAST nd - i + 1 in
      let nd1 :=
        if (match nearex with Some _ => true | None => false end) && (0 <? len)
        then set_ext (memmove (n_ext nd) (Z.to_nat (i + 1)) (Z.to_nat i) (Z.to_nat len)) nd
        else nd in
      let nd2 := set_entries (u16 (eh_entries nd1 + 1)) nd1 in
      let e := ext4_ext_store_pblock (slot nd2 i) (ext4_ext_pblock newext) in
      Some (i, set_slot i (Ext (ee_block newext) (ee_len newext) (ee_start e)) nd2)
  end.
End Node.

(** ** Abstraction of a leaf *)

(** The extents in use. *)
Definition entries (nd : node) : list ext4_extent :=
  take (Z.to_nat (eh_entries nd)) (n_ext nd).

(** The header is consistent with the array. *)
Definition node_wf (nd : node) : Prop :=
  0 <= eh_entries nd <= eh_max nd /\ eh_max nd <= Z.of_nat (length (n_ext nd)) /\
  eh_max nd < 65536.

Section Leaf.
Context `{ExtFmt}.
Implicit Types (e : ext4_extent) (l : list ext4_extent).

Definition ext_end e : Z := ee_block e + ext4_ext_get_actual_len e.

Definition ext_ok e : Prop :=
  0 <= ee_block e /\ 0 < ext4_ext_get_actual_len e /\ ext_end e < 2 ^ 32.

(** The extents of a leaf are valid, sorted and disjoint, from block [cur] on. *)
Fixpoint leaf_ok (cur : Z) l : Prop :=
  match l with
  | [] => True
  | e :: l => ext_ok e /\ cur <= ee_block e /\ leaf_ok (ext_end e) l
  end.

Definition covers e (b : Z) : bool := (ee_block e <=? b) && (b <? ext_end e).

Definition phys e (b : Z) : Z * bool :=
  (ext4_ext_pblock e + (b - ee_block e), ext4_ext_is_unwritten e).

(** The physical block and state of logical block [b]. *)
Fixpoint mapping l (b : Z) : option (Z * bool) :=
  match l with
  | [] => None
  | e :: l => if covers e b then Some (phys e b) else mapping l b
  end.

(** *** Sorted lists of extents *)

Lemma leaf_ok_mono cur cur' l : cur' <= cur -> leaf_ok cur l -> leaf_ok cur' l.
Proof. intros Hc. destruct l; simpl; [done|]. intros (Ha & Hb & Hd). split_and!; [done|lia|done]. Qed.

Lemma leaf_ok_app cur l1 e l2 :
  leaf_ok cur (l1 ++ e :: l2) <->
  leaf_ok cur (l1 ++ [e]) /\ leaf_ok (ext_end e) l2.
Proof.
  revert cur. induction l1 as [|x l1 IH]; intros cur; simpl; [tauto|].
  rewrite IH. tauto.
Qed.

Lemma leaf_ok_elem cur l e : leaf_ok cur l -> e ∈ l -> ext_ok e /\ cur <= ee_block e.
Proof.
  revert cur. induction l as [|x l IH]; intros cur; [set_solver|].
  intros (Hx & Hc & Hl) [->|Hin]%elem_of_cons; [done|].
  destruct (IH _ Hl Hin) as [He Hle]. split; [done|].
  destruct Hx as (? & ? & ?). unfold ext_end in *. lia.
Qed.

Lemma leaf_ok_drop cur l1 l2 : leaf_ok cur (l1 ++ l2) -> exists c, cur <= c /\ leaf_ok c l2.
Proof.
  revert cur. induction l1 as [|x l1 IH]; intros cur; simpl; [by exists cur|].
  intros ((? & ? & ?) & ? & Hl). destruct (IH _ Hl) as (c & ? & ?).
  exists c. unfold ext_end in *. split; [lia|done].
Qed.

Lemma leaf_ok_take cur l1 l2 : leaf_ok cur (l1 ++ l2) -> leaf_ok cur l1.
Proof.
  revert cur. induction l1 as [|x l1 IH]; intros cur; simpl; [done|].
  intros (Hx & Hc & Hl). split_and!; auto.
Qed.

Lemma covers_spec e b : covers e b = true <-> ee_block e <= b < ext_end e.
Proof. unfold covers. rewrite andb_true_iff, Z.leb_le, Z.ltb_lt. lia. Qed.

Lemma covers_false e b : covers e b = false <-> (b < ee_block e \/ ext_end e <= b).
Proof. rewrite <- not_true_iff_false, covers_spec. lia. Qed.

(** Nothing is mapped before the first extent. *)
Lemma mapping_before cur l b : leaf_ok cur l -> b < cur -> mapping l b = None.
Proof.
  revert cur. induction l as [|e l IH]; intros cur Hl Hb; [done|].
  destruct Hl as ((? & ? & ?) & ? & Hl). simpl.
  rewrite (proj2 (covers_false e b)) by lia.
  apply (IH (ext_end e)); [done|]. unfold ext_end in *. lia.
Qed.

Lemma mapping_app l1 l2 b :
  mapping (l1 ++ l2) b =
    match mapping l1 b with Some p => Some p | None => mapping l2 b end.
Proof. induction l1 as [|e l1 IH]; simpl; [done|]. by destruct (covers e b). Qed.

(** The extent that covers a block determines its mapping. *)
Lemma mapping_covered cur l e b :
  leaf_ok cur l -> e ∈ l -> covers e b = true -> mapping l b = Some (phys e b).
Proof.
  revert cur. induction l as [|x l IH]; intros cur Hl Hin Hc; [set_solver|].
  destruct Hl as (Hx & Hcx & Hl).
  apply elem_of_cons in Hin as [->|Hin]; simpl; [by rewrite Hc|].
  destruct (leaf_ok_elem _ _ _ Hl Hin) as [_ Hle].
  rewrite (proj2 (covers_false x b)) by (apply covers_spec in Hc; lia).
  by eapply IH.
Qed.

Lemma mapping_none l b : (forall e, e ∈ l -> covers e b = false) -> mapping l b = None.
Proof.
  induction l as [|e l IH]; simpl; intros Hc; [done|].
  rewrite Hc by set_solver. apply IH. set_solver.
Qed.

(** *** Merging preserves the mapping *)

Context `{!ExtFmtOk}.

Lemma merged_spec ex1 ex2 :
  ext_ok ex1 -> ext_ok ex2 -> ext4_can_extents_be_merged ex1 ex2 = true ->
  ext_end ex1 = ee_block ex2 /\
  ext4_ext_pblock ex1 + ext4_ext_get_actual_len ex1 = ext4_ext_pblock ex2 /\
  ext4_ext_is_unwritten ex1 = ext4_ext_is_unwritten ex2 /\
  ee_block (merged ex1 ex2) = ee_block ex1 /\
  ext_end (merged ex1 ex2) = ext_end ex2 /\
  ext4_ext_pblock (merged ex1 ex2) = ext4_ext_pblock ex1 /\
  ext4_ext_is_unwritten (merged ex1 ex2) = ext4_ext_is_unwritten ex1.
Proof.
  intros (H1 & H2 & H3) (H4 & H5 & H6) Hm. unfold ext4_can_extents_be_merged in Hm.
  destruct (Bool.eqb _ _) eqn:Hu; simpl in Hm; [|done].
  apply Bool.eqb_prop in Hu.
  destruct (u32 _ =? _) eqn:Hb; simpl in Hm; [|done].
  destruct (EXT_INIT_MAX_LEN <? _) eqn:Hi; [done|].
  destruct (_ && _) eqn:Hw; [done|].
  apply Z.eqb_eq in Hm. apply Z.ltb_ge in Hi.
  unfold ext_end in *. rewrite u32_small in Hb by lia. apply Z.eqb_eq in Hb.
  destruct fmt_limits as [Hlim Hlim'].
  unfold merged, set_ee_len. rewrite u16_small by lia.
  unfold ext4_ext_is_unwritten, ext4_ext_get_actual_len, ext4_ext_pblock in *.
  destruct (len_is_unwritten (ee_len ex1)) eqn:Hux; simpl in *.
  - apply Z.ltb_ge in Hw.
    destruct (fmt_unwritten (len_actual (ee_len ex1) + len_actual (ee_len ex2)))
      as [-> ->]; [lia|]. split_and!; auto; lia.
  - destruct (fmt_init (len_actual (ee_len ex1) + len_actual (ee_len ex2)))
      as [-> ->]; [lia|]. split_and!; auto; lia.
Qed.

Lemma merged_ok ex1 ex2 :
  ext_ok ex1 -> ext_ok ex2 -> ext4_can_extents_be_merged ex1 ex2 = true ->
  ext_ok (merged ex1 ex2).
Proof.
  intros H1 H2 Hm. destruct (merged_spec _ _ H1 H2 Hm) as (? & ? & ? & Hb & He & ? & ?).
  destruct H1 as (? & ? & ?), H2 as (? & ? & ?).
  unfold ext_ok. rewrite He, Hb. unfold ext_end in *. lia.
Qed.

Lemma mapping_merged ex1 ex2 l b :
  ext_ok ex1 -> ext_ok ex2 -> ext4_can_extents_be_merged ex1 ex2 = true ->
  mapping (merged ex1 ex2 :: l) b = mapping (ex1 :: ex2 :: l) b.
Proof.
  intros Hok1 Hok2 Hm.
  destruct (merged_spec _ _ Hok1 Hok2 Hm) as (He & Hp & Hu & Hb & Hend & Hpm & Hum).
  simpl. unfold phys. rewrite Hb, Hpm, Hum.
  destruct (covers (merged ex1 ex2) b) eqn:Hc.
  - apply covers_spec in Hc. rewrite Hb, Hend in Hc.
    destruct (covers ex1 b) eqn:Hc1; [done|].
    apply covers_false in Hc1. rewrite (proj2 (covers_spec ex2 b)) by lia.
    f_equal. f_equal; [|done]. unfold ext_end in *. lia.
  - apply covers_false in Hc. rewrite Hb, Hend in Hc.
    destruct Hok1 as (? & ? & ?), Hok2 as (? & ? & ?). unfold ext_end in *.
    rewrite (proj2 (covers_false ex1 b)) by (unfold ext_end; lia).
    rewrite (proj2 (covers_false ex2 b)) by (unfold ext_end; lia). done.
Qed.

Lemma leaf_ok_merged cur l1 ex1 ex2 l2 :
  leaf_ok cur (l1 ++ ex1 :: ex2 :: l2) -> ext4_can_extents_be_merged ex1 ex2 = true ->
  leaf_ok cur (l1 ++ merged ex1 ex2 :: l2).
Proof.
  revert cur. induction l1 as [|x l1 IH]; intros cur; simpl.
  - intros (Hok1 & Hc & Hok2 & Hc2 & Hl) Hm.
    destruct (merged_spec _ _ Hok1 Hok2 Hm) as (He & Hp & Hu & Hb & Hend & Hpm & Hum).
    split_and!; [by apply merged_ok|lia|by rewrite Hend].
  - intros (? & ? & ?) Hm. split_and!; auto.
Qed.
End Leaf.

(** ** The raw array operations are list operations on the entries *)

Lemma length_entries nd :
  node_wf nd -> Z.of_nat (length (entries nd)) = eh_entries nd.
Proof. intros (? & ? & ?). unfold entries. rewrite length_take. lia. Qed.

Lemma entries_slot nd i :
  node_wf nd -> 0 <= i < eh_entries nd -> entries nd !! Z.to_nat i = Some (slot nd i).
Proof.
  intros (? & ? & ?) Hi. unfold entries, slot.
  rewrite lookup_take_lt by lia. apply list_lookup_lookup_total_lt. lia.
Qed.

Lemma entries_split nd i :
  node_wf nd -> 0 <= i < eh_entries nd ->
  entries nd = take (Z.to_nat i) (entries nd) ++ slot nd i ::
               drop (S (Z.to_nat i)) (entries nd).
Proof. intros Hwf Hi. symmetry. apply take_drop_middle. by apply entries_slot. Qed.

Lemma entries_split2 nd i :
  node_wf nd -> 0 <= i -> i + 1 < eh_entries nd ->
  entries nd = take (Z.to_nat i) (entries nd) ++ slot nd i :: slot nd (i + 1) ::
               drop (S (S (Z.to_nat i))) (entries nd).
Proof.
  intros Hwf Hi Hi'. rewrite (entries_split nd i) at 1 by (auto; lia). do 2 f_equal.
  rewrite <- (take_drop_middle (drop (S (Z.to_nat i)) (entries nd)) 0 (slot nd (i + 1))).
  - simpl. by rewrite drop_drop, Nat.add_comm.
  - rewrite lookup_drop, Nat.add_0_r. replace (S (Z.to_nat i)) with (Z.to_nat (i + 1)) by lia.
    apply entries_slot; [done|lia].
Qed.

Section Arrays.
Context `{ExtFmt}.

Lemma merge_step_entries nd ex :
  node_wf nd -> 0 <= ex -> ex + 1 < eh_entries nd ->
  entries (merge_step nd ex) =
    take (Z.to_nat ex) (entries nd) ++ merged (slot nd ex) (slot nd (ex + 1)) ::
    drop (S (S (Z.to_nat ex))) (entries nd) /\
  node_wf (merge_step nd ex) /\ eh_entries (merge_step nd ex) = eh_entries nd - 1 /\
  eh_max (merge_step nd ex) = eh_max nd.
Proof.
  intros (H1 & H2 & H3) Hex Hex'.
  set (m := merged (slot nd ex) (slot nd (ex + 1))).
  assert (He : eh_entries (merge_step nd ex) = eh_entries nd - 1).
  { unfold merge_step. cbn [set_entries eh_entries].
    case_cmp; cbn [set_ext set_slot eh_entries]; rewrite u16_small; lia. }
  assert (Hx : n_ext (merge_step nd ex) =
    if ex + 1 <? eh_entries nd - 1
    then memmove (<[Z.to_nat ex := m]> (n_ext nd)) (Z.to_nat (ex + 1)) (Z.to_nat (ex + 2))
           (Z.to_nat (eh_entries nd - 1 - ex - 1))
    else <[Z.to_nat ex := m]> (n_ext nd)).
  { unfold merge_step, EXT_LAST. cbn [set_slot set_ext eh_entries set_entries n_ext].
    fold m. by case_cmp. }
  assert (Hlen : length (n_ext (merge_step nd ex)) = length (n_ext nd)).
  { rewrite Hx. case_cmp; [|by rewrite length_insert]. unfold memmove.
    rewrite !length_app, !length_take, !length_drop, length_insert. lia. }
  assert (Hm : eh_max (merge_step nd ex) = eh_max nd).
  { unfold merge_step. cbn [set_entries eh_max]. by case_cmp. }
  split_and!; [| |done|done].
  2:{ split_and!; rewrite ?He, ?Hm, ?Hlen; lia. }
  unfold entries at 1. rewrite He, Hx.
  apply list_eq. intros k. unfold entries.
  destruct (decide (k < Z.to_nat (eh_entries nd - 1))%nat) as [Hk|Hk].
  2:{ rewrite lookup_take_ge by lia. symmetry. apply lookup_ge_None_2.
      rewrite length_app. cbn [length]. rewrite length_drop, !length_take. lia. }
  rewrite lookup_take_lt by lia.
  destruct (decide (k < Z.to_nat ex)%nat) as [Hlt|Hge].
  - rewrite (lookup_app_l (take _ _)) by (rewrite !length_take; lia).
    rewrite lookup_take_lt, lookup_take_lt by lia.
    case_cmp; [unfold memmove; rewrite lookup_app_l, lookup_take_lt
                 by (rewrite ?length_take, ?length_insert; lia)|];
      by rewrite list_lookup_insert_ne by lia.
  - rewrite (lookup_app_r (take _ _)) by (rewrite !length_take; lia).
    rewrite !length_take.
    replace (Z.to_nat ex `min` (Z.to_nat (eh_entries nd) `min` length (n_ext nd)))%nat
      with (Z.to_nat ex) by lia.
    destruct (decide (k = Z.to_nat ex)) as [->|Hne].
    + rewrite Nat.sub_diag. simpl.
      case_cmp; [unfold memmove; rewrite lookup_app_l, lookup_take_lt
                   by (rewrite ?length_take, ?length_insert; lia)|];
        by rewrite list_lookup_insert_eq by lia.
    + replace (k - Z.to_nat ex)%nat with (S (k - S (Z.to_nat ex))) by lia. simpl.
      rewrite lookup_drop, lookup_take_lt by lia.
      case_cmp; [|lia]. unfold memmove.
      rewrite lookup_app_r by (rewrite length_take, length_insert; lia).
      rewrite length_take, length_insert.
      rewrite lookup_app_l by (rewrite length_take, length_drop, length_insert; lia).
      rewrite lookup_take_lt by lia. rewrite lookup_drop, list_lookup_insert_ne by lia.
      f_equal. lia.
Qed.

Lemma insert_slot_entries nd i near newext :
  node_wf nd -> eh_entries nd < eh_max nd -> 0 <= i <= eh_entries nd ->
  near = None /\ eh_entries nd = 0 /\ i = 0 \/
  (exists j, near = Some j /\
     (i = j + 1 /\ ee_block (slot nd j) < ee_block newext \/
      i = j /\ ee_block newext < ee_block (slot nd j))) ->
  exists nd', insert_slot nd near newext = Some (i, nd') /\
    entries nd' = take (Z.to_nat i) (entries nd) ++
      Ext (ee_block newext) (ee_len newext) (pblock_store (ext4_ext_pblock newext)) ::
      drop (Z.to_nat i) (entries nd) /\
    node_wf nd' /\ eh_entries nd' = eh_entries nd + 1 /\ eh_max nd' = eh_max nd.
Proof.
  intros (H1 & H2 & H3) Hroom Hi Hnear.
  set (e := Ext (ee_block newext) (ee_len newext) (pblock_store (ext4_ext_pblock newext))).
  set (arr := match near with
              | Some _ => if 0 <? eh_entries nd - i
                          then memmove (n_ext nd) (Z.to_nat (i + 1)) (Z.to_nat i)
                                 (Z.to_nat (eh_entries nd - i))
                          else n_ext nd
              | None => n_ext nd
              end).
  assert (Hins : insert_slot nd near newext =
    Some (i, set_slot i e (set_entries (eh_entries nd + 1) (set_ext arr nd)))).
  { unfold insert_slot, EXT_LAST.
    assert (Hn : match near with
            | None => Some 0
            | Some j => if ee_block (slot nd j) <? ee_block newext then Some (j + 1)
                else if ee_block newext =? ee_block (slot nd j) then None else Some j
            end = Some i).
    { destruct Hnear as [(-> & _ & ->)|(j & -> & [(-> & Hlt)|(-> & Hlt)])]; [done| |].
      - by rewrite (proj2 (Z.ltb_lt _ _)).
      - rewrite (proj2 (Z.ltb_ge _ _)) by lia. by rewrite (proj2 (Z.eqb_neq _ _)) by lia. }
    rewrite Hn. replace (eh_entries nd - 1 - i + 1) with (eh_entries nd - i) by lia.
    unfold arr, e. destruct near; cbn [andb];
      [case_cmp|]; cbn [set_ext eh_entries set_entries]; rewrite u16_small by lia;
      destruct nd; reflexivity. }
  assert (Hlen : length arr = length (n_ext nd)).
  { unfold arr. destruct near; [|done]. case_cmp; [|done]. unfold memmove.
    rewrite !length_app, !length_take, !length_drop. lia. }
  eexists. split; [exact Hins|]. cbn [set_slot set_ext set_entries eh_entries n_ext eh_max].
  split_and!; [|..|done|done];
    [|split_and!; cbn [set_slot set_ext set_entries eh_entries n_ext eh_max];
      rewrite ?length_insert, ?Hlen; lia].
  unfold entries at 1. cbn [set_slot set_ext set_entries eh_entries n_ext].
  apply list_eq. intros k. unfold entries.
  destruct (decide (k < Z.to_nat (eh_entries nd + 1))%nat) as [Hk|Hk].
  2:{ rewrite lookup_take_ge by lia. symmetry. apply lookup_ge_None_2.
      rewrite length_app. cbn [length]. rewrite length_drop, !length_take. lia. }
  rewrite lookup_take_lt by lia.
  assert (Hold : (k < Z.to_nat i)%nat -> arr !! k = n_ext nd !! k).
  { intros Hlt. unfold arr. destruct near; [|done]. case_cmp; [|done]. unfold memmove.
    rewrite lookup_app_l, lookup_take_lt by (rewrite ?length_take; lia). done. }
  assert (Hnew : (Z.to_nat i < k)%nat -> arr !! k = n_ext nd !! (k - 1)%nat).
  { intros Hlt. unfold arr. destruct Hnear as [(-> & Hz & ->)|(j & -> & _)]; [lia|].
    case_cmp; [|lia]. unfold memmove.
    rewrite lookup_app_r by (rewrite length_take; lia). rewrite length_take.
    rewrite lookup_app_l by (rewrite length_take, length_drop; lia).
    rewrite lookup_take_lt, lookup_drop by lia. f_equal. lia. }
  destruct (decide (k < Z.to_nat i)%nat) as [Hlt|Hge].
  - rewrite (lookup_app_l (take _ _)) by (rewrite !length_take; lia).
    rewrite lookup_take_lt, lookup_take_lt by lia.
    rewrite list_lookup_insert_ne by lia. auto.
  - rewrite (lookup_app_r (take _ _)) by (rewrite !length_take; lia). rewrite !length_take.
    replace (Z.to_nat i `min` (Z.to_nat (eh_entries nd) `min` length (n_ext nd)))%nat
      with (Z.to_nat i) by lia.
    destruct (decide (k = Z.to_nat i)) as [->|Hne].
    + rewrite Nat.sub_diag. simpl. apply list_lookup_insert_eq. lia.
    + replace (k - Z.to_nat i)%nat with (S (k - S (Z.to_nat i))) by lia. simpl.
      rewrite lookup_drop, lookup_take_lt by lia.
      rewrite list_lookup_insert_ne, Hnew by lia. f_equal. lia.
Qed.
End Arrays.

(** ** Merging a leaf *)

Section Merge.
Context `{ExtFmtOk}.

(** Two leaves with the same mapping, both valid. *)
Definition same_leaf (nd nd' : node) : Prop :=
  node_wf nd' /\ eh_max nd' = eh_max nd /\
  (forall cur, leaf_ok cur (entries nd) -> leaf_ok cur (entries nd')) /\
  (forall cur, leaf_ok cur (entries nd) ->
     forall b, mapping (entries nd') b = mapping (entries nd) b).

Lemma same_leaf_refl nd : node_wf nd -> same_leaf nd nd.
Proof. intros Hwf. unfold same_leaf. split_and!; auto; apply Hwf. Qed.

Lemma same_leaf_trans a b c : same_leaf a b -> same_leaf b c -> same_leaf a c.
Proof.
  intros (W1 & M1 & O1 & P1) (W2 & M2 & O2 & P2). split_and!; [done|congruence|eauto|].
  intros cur Hok x. rewrite (P2 cur) by eauto. eauto.
Qed.

Lemma merge_step_same nd ex :
  node_wf nd -> 0 <= ex -> ex + 1 < eh_entries nd ->
  ext4_can_extents_be_merged (slot nd ex) (slot nd (ex + 1)) = true ->
  same_leaf nd (merge_step nd ex).
Proof.
  intros Hwf Hex Hex' Hm.
  destruct (merge_step_entries nd ex Hwf Hex Hex') as (He & Hwf' & Hn & Hmax).
  pose proof (entries_split2 nd ex Hwf Hex Hex') as Hs.
  set (A := take (Z.to_nat ex) (entries nd)) in *.
  set (B := drop (S (S (Z.to_nat ex))) (entries nd)) in *. clearbody A B.
  split; [done|]. split; [done|]. rewrite He, Hs.
  split; intros cur Hok; [by apply leaf_ok_merged|]. intros b.
  destruct (leaf_ok_drop _ _ _ Hok) as (c & _ & (Hok1 & _ & Hok2 & _)).
  by rewrite !mapping_app, mapping_merged.
Qed.

Lemma merge_right_loop_spec fuel : forall nd ex done,
  node_wf nd -> 0 <= ex < eh_entries nd -> eh_entries nd <= Z.of_nat fuel ->
  let r := merge_right_loop fuel nd ex done in
  same_leaf nd r.2 /\ ex < eh_entries r.2 <= eh_entries nd /\
  (r.1 = done \/ eh_entries r.2 < eh_entries nd) /\
  (ex + 1 < eh_entries r.2 ->
   ext4_can_extents_be_merged (slot r.2 ex) (slot r.2 (ex + 1)) = false).
Proof.
  induction fuel as [|fuel IH]; intros nd ex dn Hwf Hex Hf; [lia|].
  cbn [merge_right_loop]. unfold EXT_LAST.
  destruct (Z.ltb_spec ex (eh_entries nd - 1)) as [Hlt|Hge].
  2:{ cbn [fst snd]. split_and!; [by apply same_leaf_refl|lia|lia|by left|lia]. }
  destruct (ext4_can_extents_be_merged (slot nd ex) (slot nd (ex + 1))) eqn:Hm;
    cbn [negb].
  2:{ cbn [fst snd]. split_and!; [by apply same_leaf_refl|lia|lia|by left|by auto]. }
  destruct (merge_step_entries nd ex Hwf ltac:(lia) ltac:(lia)) as (He & Hwf' & Hn & Hmax).
  destruct (IH (merge_step nd ex) ex true) as (Hs & Hb & Hd & Hmax'); [done|lia|lia|].
  split_and!; [|lia|lia|right; lia|done].
  eapply same_leaf_trans; [|exact Hs]. by apply merge_step_same; auto; lia.
Qed.

Lemma try_to_merge_leaf_same nd ex :
  node_wf nd -> 0 <= ex < eh_entries nd ->
  same_leaf nd (try_to_merge_leaf nd ex).
Proof.
  intros Hwf Hex. unfold try_to_merge_leaf, ext4_ext_try_to_merge_right.
  assert (Hr : forall nd e, node_wf nd -> 0 <= e < eh_entries nd ->
            same_leaf nd (merge_right_loop (Z.to_nat (eh_entries nd)) nd e false).2).
  { intros n e Hn He. apply (merge_right_loop_spec _ n e false); [done|lia|lia]. }
  destruct (Z.ltb_spec 0 ex) as [Hpos|Hz]; [|by apply Hr].
  destruct (merge_right_loop (Z.to_nat (eh_entries nd)) nd (ex - 1) false)
    as [dn nd1] eqn:Hl.
  pose proof (merge_right_loop_spec (Z.to_nat (eh_entries nd)) nd (ex - 1) false
                Hwf ltac:(lia) ltac:(lia)) as Hspec.
  rewrite Hl in Hspec. destruct Hspec as (Hs & Hb & Hd & _); cbn [fst snd] in *.
  destruct dn; [done|].
  destruct (Z.eq_dec (eh_entries nd1) (eh_entries nd)) as [Heq|Hne].
  - eapply same_leaf_trans; [exact Hs|]. apply Hr; [by destruct Hs|lia].
  - (* the loop merged at least once: it reports so *)
    exfalso. clear -Hl Hne Hwf Hex Hpos.
    assert (Hgen : forall fuel n e n', merge_right_loop fuel n e true = (false, n') -> False).
    { clear. induction fuel as [|fuel IH]; cbn [merge_right_loop]; [done|].
      intros n e n'. repeat case_match; try done. apply IH. }
    revert Hl. generalize (Z.to_nat (eh_entries nd)). intros fuel.
    destruct fuel as [|fuel]; cbn [merge_right_loop]; [by intros [= <-]|].
    repeat case_match; try (by intros [= <-]). by intros ?%Hgen.
Qed.
End Merge.

(** ** Binary search *)

(** The loop of the search always ends within its fuel. *)
Lemma binsearch_loop_total key block fuel : forall l r,
  r - l + 1 <= Z.of_nat fuel -> is_Some (binsearch_loop fuel key block l r).
Proof.
  induction fuel as [|fuel IH]; intros l r Hf; simpl.
  - destruct (Z.leb_spec l r); [lia|]. by eexists.
  - destruct (Z.leb_spec l r) as [Hlr|]; [|by eexists].
    assert (Hm : l <= l + (r - l) / 2 <= r).
    { pose proof (Z.div_pos (r - l) 2). pose proof (Z.div_le_upper_bound (r - l) 2 (r - l)). lia. }
    case_match; apply IH; lia.
Qed.

Section Search.
Context (key : Z -> Z) (n : Z).
Context (Hmono : forall i j, 0 < i -> i < j -> j < n -> key i <= key j).

(** The position both searches look for: the last entry that starts at or
    before [block], the first entry when there is none. *)
Definition is_position (block p : Z) : Prop :=
  0 <= p < n /\ (forall i, 0 < i <= p -> key i <= block) /\
  (forall i, p < i < n -> block < key i).

Lemma is_position_unique block p q : is_position block p -> is_position block q -> p = q.
Proof.
  intros (Hp & Hp1 & Hp2) (Hq & Hq1 & Hq2).
  destruct (Z.lt_trichotomy p q) as [Hlt|[->|Hlt]]; [|done|].
  - specialize (Hq1 q ltac:(lia)). specialize (Hp2 q ltac:(lia)). lia.
  - specialize (Hp1 p ltac:(lia)). specialize (Hq2 p ltac:(lia)). lia.
Qed.

Lemma binsearch_loop_spec fuel block : forall l r,
  1 <= l -> l - 1 <= r < n -> r - l + 1 <= Z.of_nat fuel ->
  (forall i, 0 < i < l -> key i <= block) ->
  (forall i, r < i < n -> block < key i) ->
  exists p, binsearch_loop fuel key block l r = Some p /\ is_position block p.
Proof using Hmono.
  induction fuel as [|fuel IH]; intros l r Hl Hr Hf Hlo Hhi; simpl.
  - rewrite (proj2 (Z.leb_gt _ _)) by lia. eexists. split; [done|].
    split_and!; intros; [lia|lia|apply Hlo; lia|apply Hhi; lia].
  - destruct (Z.leb_spec l r) as [Hlr|Hlr].
    2:{ eexists. split; [done|].
        split_and!; intros; [lia|lia|apply Hlo; lia|apply Hhi; lia]. }
    set (m := l + (r - l) / 2).
    assert (Hm : l <= m <= r).
    { unfold m. pose proof (Z.div_pos (r - l) 2). pose proof (Z.div_le_upper_bound (r - l) 2 (r - l)).
      lia. }
    destruct (Z.ltb_spec block (key m)) as [Hb|Hb].
    + apply IH; [lia|lia|lia|done|]. intros i Hi.
      destruct (Z.eq_dec i m) as [->|]; [done|].
      destruct (Z.lt_ge_cases i m); [lia|].
      specialize (Hmono m i ltac:(lia) ltac:(lia) ltac:(lia)). lia.
    + apply IH; [lia|lia|lia| |done]. intros i Hi.
      destruct (Z.eq_dec i m) as [->|]; [done|].
      specialize (Hmono i m ltac:(lia) ltac:(lia) ltac:(lia)). lia.
Qed.

Lemma linear_scan_spec block : forall m k ch,
  0 <= k -> k + Z.of_nat m = n -> (0 < k /\ ch = k - 1 \/ k = 0 /\ ch = 0) -> 0 < n ->
  (forall i, 0 < i < n -> key 0 <= key i) -> (forall i, 0 < i < k -> key i <= block) ->
  is_position block (linear_scan key block m k ch).
Proof using Hmono.
  induction m as [|m IH]; intros k ch Hk Hn Hch Hpos H0 Hlo; simpl.
  - split_and!; intros; [lia|lia|apply Hlo; lia|lia].
  - destruct (Z.ltb_spec block (key k)) as [Hb|Hb].
    + split_and!; intros; [lia|lia|apply Hlo; lia|].
      destruct (Z.eq_dec i k) as [->|]; [done|].
      destruct (Z.eq_dec k 0) as [->|]; [specialize (H0 i ltac:(lia)); lia|].
      specialize (Hmono k i ltac:(lia) ltac:(lia) ltac:(lia)). lia.
    + apply IH; [lia|lia|lia|lia|done|]. intros i Hi.
      destruct (Z.eq_dec i k) as [->|]; [done|]. apply Hlo. lia.
Qed.
End Search.

(** ** Order of the slots of a valid leaf *)

Section Sorted.
Context `{ExtFmtOk}.

Lemma leaf_ok_lookup_lt l : forall cur i j x y,
  leaf_ok cur l -> (i < j)%nat -> l !! i = Some x -> l !! j = Some y ->
  ext_end x <= ee_block y.
Proof.
  induction l as [|e l IH]; intros cur i j x y Hl Hij Hx Hy; [done|].
  destruct Hl as (He & Hc & Hl). destruct j as [|j]; [lia|]. simpl in Hy.
  destruct i as [|i]; simpl in Hx.
  - injection Hx as <-.
    destruct (leaf_ok_elem _ _ y Hl) as [_ ?]; [by eapply list_elem_of_lookup_2|done].
  - eapply (IH _ i j); eauto. lia.
Qed.

Lemma slot_ok nd cur i :
  node_wf nd -> leaf_ok cur (entries nd) -> 0 <= i < eh_entries nd ->
  ext_ok (slot nd i) /\ cur <= ee_block (slot nd i).
Proof.
  intros Hwf Hl Hi. apply (leaf_ok_elem cur (entries nd)); [done|].
  eapply list_elem_of_lookup_2. by apply entries_slot.
Qed.

Lemma slot_sorted nd cur i j :
  node_wf nd -> leaf_ok cur (entries nd) -> 0 <= i -> i < j -> j < eh_entries nd ->
  ext_end (slot nd i) <= ee_block (slot nd j).
Proof.
  intros Hwf Hl Hi Hij Hj.
  eapply (leaf_ok_lookup_lt _ cur (Z.to_nat i) (Z.to_nat j)); eauto; [lia|..];
    apply entries_slot; auto; lia.
Qed.

Lemma slot_mono nd cur :
  node_wf nd -> leaf_ok cur (entries nd) ->
  forall i j, 0 <= i -> i < j -> j < eh_entries nd ->
    ee_block (slot nd i) <= ee_block (slot nd j).
Proof.
  intros Hwf Hl i j Hi Hij Hj. pose proof (slot_sorted nd cur i j Hwf Hl Hi Hij Hj).
  destruct (slot_ok nd cur i Hwf Hl ltac:(lia)) as [(? & ? & ?) _].
  unfold ext_end in *. lia.
Qed.

(** The search in a valid leaf finds the position of [block]. *)
Lemma binsearch_position nd cur block :
  node_wf nd -> leaf_ok cur (entries nd) -> 0 < eh_entries nd ->
  exists p, ext4_ext_binsearch nd block = Some p /\
    is_position (fun m => ee_block (slot nd m)) (eh_entries nd) block p.
Proof.
  intros Hwf Hl Hn. unfold ext4_ext_binsearch, EXT_LAST.
  rewrite (proj2 (Z.eqb_neq _ _)) by lia.
  apply binsearch_loop_spec; [intros; eapply slot_mono; eauto; lia|lia..].
Qed.

(** A position that does not cover [block] lies before it or is the first; the
    block is then not mapped by this leaf. *)
Lemma position_covers nd cur block p :
  node_wf nd -> leaf_ok cur (entries nd) ->
  is_position (fun m => ee_block (slot nd m)) (eh_entries nd) block p ->
  mapping (entries nd) block =
    (if covers (slot nd p) block then Some (phys (slot nd p) block) else None).
Proof.
  intros Hwf Hl (Hp & Hlo & Hhi). destruct (covers (slot nd p) block) eqn:Hc.
  - eapply mapping_covered; eauto. eapply list_elem_of_lookup_2. by apply entries_slot.
  - apply mapping_none. intros e [k Hk]%list_elem_of_lookup.
    pose proof (lookup_lt_Some _ _ _ Hk) as Hlt.
    pose proof (length_entries nd Hwf) as Hlen.
    replace k with (Z.to_nat (Z.of_nat k)) in Hk by lia.
    rewrite entries_slot in Hk by (auto; lia). injection Hk as <-.
    apply covers_false in Hc. apply covers_false.
    destruct (Z.lt_trichotomy (Z.of_nat k) p) as [Hkp|[->|Hkp]]; [|done|].
    + right. pose proof (slot_sorted nd cur (Z.of_nat k) p Hwf Hl ltac:(lia) Hkp ltac:(lia)).
      specialize (Hlo p ltac:(lia)). simpl in Hlo. lia.
    + left. by apply (Hhi (Z.of_nat k)); lia.
Qed.

(** Inserting a disjoint extent keeps the leaf valid and adds its blocks. *)
Lemma leaf_ok_insert cur l1 l2 e :
  leaf_ok cur (l1 ++ l2) -> ext_ok e -> cur <= ee_block e ->
  (forall x, x ∈ l1 -> ext_end x <= ee_block e) ->
  (forall x, x ∈ l2 -> ext_end e <= ee_block x) ->
  leaf_ok cur (l1 ++ e :: l2).
Proof.
  revert cur. induction l1 as [|x l1 IH]; intros cur Hl He Hc H1 H2.
  - simpl in *. split_and!; [done|done|]. destruct l2 as [|y l2]; [done|].
    destruct Hl as (Hy & _ & Hl). split_and!; [done|apply H2; set_solver|done].
  - destruct Hl as (Hx & Hcx & Hl). simpl. split_and!; [done|done|].
    apply IH; [done|done|apply H1; set_solver| |done].
    intros y Hy. apply H1. set_solver.
Qed.

Lemma mapping_insert cur l1 l2 e b :
  leaf_ok cur (l1 ++ e :: l2) ->
  mapping (l1 ++ e :: l2) b = if covers e b then Some (phys e b) else mapping (l1 ++ l2) b.
Proof.
  intros Hl. destruct (covers e b) eqn:Hc.
  - eapply mapping_covered; eauto. set_solver.
  - rewrite !mapping_app. simpl. by rewrite Hc.
Qed.
End Sorted.

(** ** Properties *)

Section NodeProperties.
Context `{ExtFmtOk}.

(** [ext4_ext_try_to_merge] inside a leaf never changes where a logical
    block is stored nor whether it is written, and keeps the leaf sorted and
    disjoint, whatever neighbours it merges. *)
Theorem merge_preserves_mapping nd ex cur :
  node_wf nd -> leaf_ok cur (entries nd) -> 0 <= ex < eh_entries nd ->
  let nd' := try_to_merge_leaf nd ex in
  node_wf nd' /\ leaf_ok cur (entries nd') /\
  (forall b, mapping (entries nd') b = mapping (entries nd) b).
Proof.
  intros Hwf Hl Hex. destruct (try_to_merge_leaf_same nd ex Hwf Hex) as (? & ? & ? & ?).
  split_and!; eauto.
Qed.

(** [ext4_ext_try_to_merge_right] is maximal: when it stops, the extent at
    [ex] can no longer be merged with its right neighbour, and it never removes
    the extent itself. *)
Theorem merge_right_maximal nd ex :
  node_wf nd -> 0 <= ex < eh_entries nd ->
  let nd' := (ext4_ext_try_to_merge_right nd ex).2 in
  ex < eh_entries nd' <= eh_entries nd /\
  (ex + 1 < eh_entries nd' ->
   ext4_can_extents_be_merged (slot nd' ex) (slot nd' (ex + 1)) = false).
Proof.
  intros Hwf Hex.
  destruct (merge_right_loop_spec (Z.to_nat (eh_entries nd)) nd ex false Hwf Hex)
    as (_ & ? & _ & ?); [lia|]. done.
Qed.

(** On a valid non-empty leaf the binary search terminates within
    [eh_entries] iterations and finds exactly the extent the linear scan of the
    CHECK_BINSEARCH block finds. *)
Theorem binsearch_is_linear_scan nd cur block :
  node_wf nd -> leaf_ok cur (entries nd) -> 0 < eh_entries nd ->
  ext4_ext_binsearch nd block =
    Some (check_binsearch (fun m => ee_block (slot nd m)) block (eh_entries nd)).
Proof.
  intros Hwf Hl Hn. destruct (binsearch_position nd cur block Hwf Hl Hn) as (p & -> & Hp).
  f_equal. eapply is_position_unique; [exact Hp|].
  apply linear_scan_spec; try lia; intros; eapply slot_mono; eauto; lia.
Qed.

(** The extent found by the binary search decides the mapping of the block:
    it covers the block, or the leaf maps it nowhere. *)
Theorem binsearch_finds_mapping nd cur block :
  node_wf nd -> leaf_ok cur (entries nd) -> 0 < eh_entries nd ->
  exists p, ext4_ext_binsearch nd block = Some p /\ 0 <= p < eh_entries nd /\
    mapping (entries nd) block =
      (if covers (slot nd p) block then Some (phys (slot nd p) block) else None).
Proof.
  intros Hwf Hl Hn. destruct (binsearch_position nd cur block Hwf Hl Hn) as (p & Hb & Hp).
  exists p. split_and!; [done|apply Hp..|by eapply position_covers].
Qed.

Lemma valid_leaf_loop_iff vb l : forall cur,
  0 <= cur -> Forall (fun e => in_u 32 (ee_block e)) l ->
  valid_leaf_loop vb cur l = true <->
  leaf_ok cur l /\
  Forall (fun e => vb (ext4_ext_pblock e) (ext4_ext_get_actual_len e) = true) l.
Proof.
  induction l as [|e l IH]; intros cur Hcur Hf; simpl; [done|].
  inversion Hf as [|? ? He Hf']; subst. unfold in_u in He.
  unfold ext4_valid_extent, ext4_ext_get_actual_len.
  destruct (fmt_range (ee_len e)) as [Hr0 Hr1]. destruct fmt_limits as [Hlim1 Hlim2].
  assert (Hr : len_actual (ee_len e) < 65536)
    by (destruct (len_is_unwritten (ee_len e)); lia).
  unfold ext_ok, ext_end, ext4_ext_get_actual_len. rewrite Forall_cons.
  destruct (Z.leb_spec (u32 (ee_block e + len_actual (ee_len e))) (ee_block e)) as [Hov|Hov];
    cbn [negb].
  - split; [done|]. intros (((? & ? & ?) & ? & ?) & ?).
    rewrite u32_small in Hov by lia. lia.
  - assert (Hsum : ee_block e + len_actual (ee_len e) < 2 ^ 32).
    { destruct (Z.lt_ge_cases (ee_block e + len_actual (ee_len e)) (2 ^ 32)) as [|Hge]; [done|].
      exfalso. unfold u32, wrap in Hov.
      rewrite <- (Z.mod_unique_pos _ (2 ^ 32) 1
        (ee_block e + len_actual (ee_len e) - 2 ^ 32)) in Hov; lia. }
    rewrite u32_small in * by lia.
    destruct (vb _ _) eqn:Hvb; cbn [negb]; [|by split; [|intros (_ & ? & _)]].
    destruct (Z.ltb_spec (ee_block e) cur); [split; [done|lia]|].
    rewrite IH by (auto; lia). split; [intros [? ?]; split_and!; auto; lia|tauto].
Qed.

(** [ext4_valid_extent_entries] accepts a leaf exactly when its extents are
    non-empty, do not wrap, are sorted and disjoint, and lie on valid blocks: the
    check used before every search establishes the invariant the search needs. *)
Theorem valid_entries_iff vb nd :
  node_wf nd -> Forall (fun e => in_u 32 (ee_block e)) (entries nd) ->
  ext4_valid_extent_entries vb 0 nd 0 0 = true <->
  leaf_ok 0 (entries nd) /\
  Forall (fun e => vb (ext4_ext_pblock e) (ext4_ext_get_actual_len e) = true) (entries nd).
Proof.
  intros Hwf Hf. unfold ext4_valid_extent_entries. fold (entries nd).
  destruct (Z.eqb_spec (eh_entries nd) 0) as [Hz|Hz].
  - unfold entries. rewrite Hz. simpl. done.
  - cbn [Z.eqb negb andb]. apply valid_leaf_loop_iff; [lia|done].
Qed.
End NodeProperties.
