(* ===== verification/ExtentTree.v ===== *)
(** * The extent tree of an inode (fs/ext4/extents.c)

    The root node lives in the inode, the other nodes in metadata blocks.  A
    lookup builds a path: for each level the node, the entry followed and the
    buffer reference held.  The operations that change the tree (insertion,
    split of an extent, creation of a leaf, growth in depth, merge) are written
    with their journal calls and error exits; buffers taken by a path are
    references of the world and must be given back.

    Outside the repository: the journal, the buffer cache and the block
    allocator (answers of [Env]), [ext4_inode_block_valid] ([valid_block]) and the
    bytes a node checksum covers ([node_csum]). *)

From stdpp Require Import prelude list gmap strings.
From Stdlib Require Import ZArith Lia.
From S2P Require Import Prelude Kernel ExtentNode.

Local Open Scope string_scope.
Local Open Scope Z_scope.

(** ** State and paths *)

(** A metadata block: its node and the checksum of its tail. *)
Record xblock := XBlock { xb_node : node; et_checksum : Z }.

Definition zero_node : node := Node 0 0 0 0 0 [] [].
#[export] Instance node_inhabited : Inhabited node := populate zero_node.
#[export] Instance xblock_inhabited : Inhabited xblock := populate (XBlock zero_node 0).

Record xtree := XTree {
  x_root : node;               (* ext_inode_hdr(inode) *)
  x_blk : gmap Z xblock;       (* the metadata blocks, by number *)
  x_verified : gset Z          (* buffers with the verified bit *)
}.

(** Where a header is: in the inode or in a block. *)
Inductive nloc := InRoot | InBlk (b : Z).

(** [struct ext4_ext_path]; entries are slot indexes, NULL is [None]. *)
Record ext4_ext_path := Path {
  p_block : Z;
  p_depth : Z;
  p_maxdepth : Z;
  p_ext : option Z;
  p_idx : option Z;
  p_hdr : nloc;
  p_bh : option Z
}.
#[export] Instance path_inhabited : Inhabited ext4_ext_path :=
  populate (Path 0 0 0 None None InRoot None).

Abbreviation path := (list ext4_ext_path).
Definition pnth (p : path) (i : Z) : ext4_ext_path := p !!! Z.to_nat i.
Definition pset (p : path) (i : Z) (e : ext4_ext_path) : path := <[Z.to_nat i := e]> p.

Definition set_p_ext (x : option Z) (p : ext4_ext_path) : ext4_ext_path :=
  Path (p_block p) (p_depth p) (p_maxdepth p) x (p_idx p) (p_hdr p) (p_bh p).
Definition set_p_idx (x : option Z) (p : ext4_ext_path) : ext4_ext_path :=
  Path (p_block p) (p_depth p) (p_maxdepth p) (p_ext p) x (p_hdr p) (p_bh p).

Definition node_at (t : xtree) (l : nloc) : node :=
  match l with InRoot => x_root t | InBlk b => xb_node (x_blk t !!! b) end.

Definition set_node (l : nloc) (nd : node) (t : xtree) : xtree :=
  match l with
  | InRoot => XTree nd (x_blk t) (x_verified t)
  | InBlk b => XTree (x_root t)
                 (<[b := XBlock nd (et_checksum (x_blk t !!! b))]> (x_blk t)) (x_verified t)
  end.

Definition ext_depth (t : xtree) : Z := eh_depth (x_root t).

(** Flags of extents.c and ext4.h. *)
Definition EXT4_FREE_BLOCKS_METADATA : Z := 0x0001.
Definition EXT4_FREE_BLOCKS_FORGET : Z := 0x0002.
Definition EXT4_EXT_MAY_ZEROOUT : Z := 0x1.
Definition EXT4_EXT_MARK_UNWRIT1 : Z := 0x2.
Definition EXT4_EXT_MARK_UNWRIT2 : Z := 0x4.
Definition EXT4_EXT_DATA_VALID1 : Z := 0x8.
Definition EXT4_EXT_DATA_VALID2 : Z := 0x10.
Definition EXT4_GET_BLOCKS_PRE_IO : Z := 0x0008.
Definition EXT4_GET_BLOCKS_DELALLOC_RESERVE : Z := 0x0004.
Definition EXT4_GET_BLOCKS_METADATA_NOFAIL : Z := 0x0020.
Definition EXT4_EX_NOCACHE : Z := 0x40000000.
Definition EXT4_EX_FORCE_CACHE : Z := 0x20000000.
Definition EXT4_EX_NOFAIL : Z := 0x10000000.
Definition EXT4_MB_DELALLOC_RESERVED : Z := 0x0400.
Definition EXT4_MB_USE_RESERVED : Z := 0x2000.
Definition EXT4_MB_HINT_TRY_GOAL : Z := 0x0200.
Definition has_flag (flags f : Z) : bool := negb (Z.land flags f =? 0).

(** [sizeof(EXT4_I(inode)->i_data)]: EXT4_N_BLOCKS words of 4 bytes. *)
Definition sizeof_i_data : Z := 60.

(** The inode and the file system the tree belongs to: the inode number, the
    block size and first data block of the superblock, the metadata_csum feature,
    and the two outside functions. *)
Class TreeEnv := {
  ino : Z;
  blocksize : Z;
  first_data_block : Z;
  has_csum : bool;
  valid_block : Z -> Z -> bool;
  node_csum : node -> Z
}.

Section Tree.
Context `{ExtFmt} `{Env} `{TreeEnv}.
Abbreviation X := (K xtree).

(** *** Capacity of nodes *)

Definition ext4_ext_space_block : Z :=
  (blocksize - sizeof_extent_header) / sizeof_extent.
Definition ext4_ext_space_block_idx : Z :=
  (blocksize - sizeof_extent_header) / sizeof_extent_idx.
Definition ext4_ext_space_root : Z :=
  (sizeof_i_data - sizeof_extent_header) / sizeof_extent.
Definition ext4_ext_space_root_idx : Z :=
  (sizeof_i_data - sizeof_extent_header) / sizeof_extent_idx.

Definition ext4_ext_max_entries (t : xtree) (depth : Z) : Z :=
  if depth =? ext_depth t then
    if depth =? 0 then ext4_ext_space_root else ext4_ext_space_root_idx
  else
    if depth =? 0 then ext4_ext_space_block else ext4_ext_space_block_idx.

(** *** Checksums of blocks *)

Definition ext4_extent_block_csum_verify (b : xblock) : bool :=
  if negb has_csum then true else et_checksum b =? node_csum (xb_node b).
Definition ext4_extent_block_csum_set (b : xblock) : xblock :=
  if negb has_csum then b else XBlock (xb_node b) (node_csum (xb_node b)).

(** [__ext4_ext_check]: 0 or a negative error; [blk] is the block checked, None
    for the root (whose checksum is the inode's). *)
Definition ext4_ext_check (t : xtree) (nd : node) (csum_ok : bool)
    (depth lblk : Z) : Z :=
  if negb (eh_magic nd =? EXT4_EXT_MAGIC) then - EFSCORRUPTED
  else if negb (eh_depth nd =? depth) then - EFSCORRUPTED
  else if eh_max nd =? 0 then - EFSCORRUPTED
  else if ext4_ext_max_entries t depth <? eh_max nd then - EFSCORRUPTED
  else if eh_max nd <? eh_entries nd then - EFSCORRUPTED
  else if (eh_entries nd =? 0) && (0 <? depth) then - EFSCORRUPTED
  else if negb (ext4_valid_extent_entries valid_block (ext_depth t) nd lblk depth)
  then - EFSCORRUPTED
  else if 32 <? depth then - EFSCORRUPTED
  else if negb (ext_depth t =? depth) && negb csum_ok then - EFSBADCRC
  else 0.

Definition ext4_ext_check_inode (t : xtree) : Z :=
  ext4_ext_check t (x_root t) true (ext_depth t) 0.

(** *** References of a path *)

Fixpoint drop_refs_loop (p : path) (n : nat) : X unit :=
  match n, p with
  | S n, e :: p =>
      (match p_bh e with Some b => release (Ref (RBh b)) | None => kret tt end);;;
      drop_refs_loop p n
  | _, _ => kret tt
  end.

(** [ext4_ext_drop_refs]: levels [0 .. path->p_depth]. *)
Definition ext4_ext_drop_refs (p : path) : X unit :=
  drop_refs_loop p (Z.to_nat (p_depth (pnth p 0) + 1)).

(** [ext4_free_ext_path] on a path or NULL. *)
Definition ext4_free_ext_path (p : option path) : X unit :=
  match p with Some p => ext4_ext_drop_refs p | None => kret tt end.

(** [ext4_ext_get_access] and [__ext4_ext_dirty] for one level of a path. *)
Definition ext4_ext_get_access (e : ext4_ext_path) : X Z :=
  match p_bh e with
  | Some b =>
      err <~ call_int "ext4_journal_get_write_access" [b];;
      (if err =? 0 then
         kmodify (fun t => XTree (x_root t) (x_blk t) (x_verified t ∖ {[b]}))
       else kret tt);;;
      kret err
  | None => kret 0
  end.

Definition ext4_ext_dirty (e : ext4_ext_path) : X Z :=
  match p_bh e with
  | Some b =>
      kmodify (fun t => XTree (x_root t)
                 (<[b := ext4_extent_block_csum_set (x_blk t !!! b)]> (x_blk t))
                 (x_verified t));;;
      err <~ call_int "ext4_handle_dirty_metadata" [b];;
      (if err =? 0 then
         kmodify (fun t => XTree (x_root t) (x_blk t) ({[b]} ∪ x_verified t))
       else kret tt);;;
      kret err
  | None => call_int "ext4_mark_inode_dirty" [ino]
  end.

(** *** Lookup *)

(** [__read_extent_tree_block]: the block of an index entry, checked. *)
Definition read_extent_tree_block (idx : ext4_extent_idx) (depth flags : Z) : X (Z + Z) :=
  let pblk := ext4_idx_pblock idx in
  bh <~ call_ptr "sb_getblk_gfp" [pblk];;
  match bh with
  | PtrOk =>
      acquire (Ref (RBh pblk));;;
      let errout err := release (Ref (RBh pblk));;; kret (inl err) in
      up <~ call_int "bh_uptodate_or_lock" [pblk];;
      rd <~ (if up =? 0 then call_int "ext4_read_bh" [pblk] else kret 0);;
      if rd <? 0 then errout rd else
      t <~ kget;;
      if bool_decide (pblk ∈ x_verified t) && negb (has_flag flags EXT4_EX_FORCE_CACHE)
      then kret (inr pblk)
      else
        let b := x_blk t !!! pblk in
        let err := ext4_ext_check t (xb_node b) (ext4_extent_block_csum_verify b)
                     depth (ei_block idx) in
        if negb (err =? 0) then errout err else
        kmodify (fun t => XTree (x_root t) (x_blk t) ({[pblk]} ∪ x_verified t));;;
        (if negb (has_flag flags EXT4_EX_NOCACHE) && (depth =? 0)
         then call_int "ext4_cache_extents" [pblk];;; kret tt else kret tt);;;
        kret (inr pblk)
  | _ => kret (inl (- ENOMEM))
  end.

(** [while (i)] of [ext4_find_extent]: level [ppos] of the path, whose header is
    known, is searched for [block] and the child read. *)
Fixpoint find_loop (i : nat) (ppos block flags : Z) (p : path) : X (Z + path) :=
  match i with
  | O =>
      t <~ kget;;
      let e := pnth p ppos in
      let nd := node_at t (p_hdr e) in
      let ex := ext4_ext_binsearch nd block in
      let blk := match ex with Some k => ext4_ext_pblock (slot nd k) | None => p_block e end in
      kret (inr (pset p ppos (Path blk 0 (p_maxdepth e) ex None (p_hdr e) (p_bh e))))
  | S i =>
      t <~ kget;;
      let e := pnth p ppos in
      let nd := node_at t (p_hdr e) in
      match ext4_ext_binsearch_idx nd block with
      | None => koops
      | Some k =>
          let idx := islot nd k in
          let p := pset p ppos (Path (ext4_idx_pblock idx) (Z.of_nat (S i)) (p_maxdepth e)
                                  None (Some k) (p_hdr e) (p_bh e)) in
          bh <~ read_extent_tree_block idx (Z.of_nat i) flags;;
          match bh with
          | inl err => ext4_free_ext_path (Some p);;; kret (inl err)
          | inr b =>
              let c := pnth p (ppos + 1) in
              find_loop i (ppos + 1) block flags
                (pset p (ppos + 1) (Path (p_block c) (p_depth c) (p_maxdepth c)
                   (p_ext c) (p_idx c) (InBlk b) (Some b)))
          end
      end
  end.

(** [kcalloc] of a zeroed path for a tree of the given depth. *)
Definition alloc_path (depth : Z) : X (option path) :=
  mem <~ call_ptr "kcalloc" [depth + 2];;
  kret (match mem with
        | PtrOk => Some (pset (replicate (Z.to_nat (depth + 2)) (Path 0 0 0 None None InRoot None))
                           0 (Path 0 0 (depth + 1) None None InRoot None))
        | _ => None
        end).

(** The search itself, once the path array is there. *)
Definition find_from (depth block flags : Z) (p : path) : X (Z + path) :=
  let e := pnth p 0 in
  let p := pset p 0 (Path (p_block e) (p_depth e) (p_maxdepth e) (p_ext e) (p_idx e)
                       InRoot None) in
  (if negb (has_flag flags EXT4_EX_NOCACHE) && (depth =? 0)
   then call_int "ext4_cache_extents" [ino];;; kret tt else kret tt);;;
  find_loop (Z.to_nat depth) 0 block flags p.

Definition clear_bh (e : ext4_ext_path) : ext4_ext_path :=
  Path (p_block e) (p_depth e) (p_maxdepth e) (p_ext e) (p_idx e) (p_hdr e) None.

(** The array after [ext4_ext_drop_refs] cleared its buffers. *)
Definition dropped (p : path) : path :=
  let n := Z.to_nat (p_depth (pnth p 0) + 1) in
  ((clear_bh <$> take n p) ++ drop n p)%list.

(** [ext4_find_extent]: [orig] is [*orig_path]; a path is reused when it is deep
    enough for the tree, otherwise a fresh zeroed array of [depth + 2] entries is
    used. *)
Definition ext4_find_extent (block : Z) (orig : option path) (flags : Z) : X (Z + path) :=
  t <~ kget;;
  let depth := ext_depth t in
  if (depth <? 0) || (EXT4_MAX_EXTENT_DEPTH <? depth) then
    ext4_free_ext_path orig;;; kret (inl (- EFSCORRUPTED))
  else
  reuse <~ (match orig with
            | Some p =>
                ext4_ext_drop_refs p;;;
                kret (if p_maxdepth (pnth p 0) <? depth then None else Some (dropped p))
            | None => kret None
            end);;
  fresh <~ (match reuse with Some p => kret (Some p) | None => alloc_path depth end);;
  match fresh with
  | None => kret (inl (- ENOMEM))
  | Some p => find_from depth block flags p
  end.

(** [ext4_ext_next_allocated_block]: scan the path upwards from [depth]. *)
Fixpoint next_allocated_loop (t : xtree) (p : path) (n : nat) : Z :=
  match n with
  | O => EXT_MAX_BLOCKS
  | S d =>
      let depth := Z.of_nat d in
      let e := pnth p depth in
      let nd := node_at t (p_hdr e) in
      if depth =? p_depth (pnth p 0) then
        match p_ext e with
        | Some k => if negb (k =? EXT_LAST nd) then ee_block (slot nd (k + 1))
                    else next_allocated_loop t p d
        | None => next_allocated_loop t p d
        end
      else
        match p_idx e with
        | Some k => if negb (k =? EXT_LAST nd) then ei_block (islot nd (k + 1))
                    else next_allocated_loop t p d
        | None => next_allocated_loop t p d
        end
  end.

Definition ext4_ext_next_allocated_block (t : xtree) (p : path) : Z :=
  let depth := p_depth (pnth p 0) in
  if (depth =? 0) && (match p_ext (pnth p 0) with None => true | _ => false end)
  then EXT_MAX_BLOCKS
  else next_allocated_loop t p (Z.to_nat (depth + 1)).

(** [ext4_ext_next_leaf_block] *)
Fixpoint next_leaf_loop (t : xtree) (p : path) (n : nat) : Z :=
  match n with
  | O => EXT_MAX_BLOCKS
  | S d =>
      let e := pnth p (Z.of_nat d) in
      let nd := node_at t (p_hdr e) in
      match p_idx e with
      | Some k => if negb (k =? EXT_LAST nd) then ei_block (islot nd (k + 1))
                  else next_leaf_loop t p d
      | None => next_leaf_loop t p d
      end
  end.

Definition ext4_ext_next_leaf_block (t : xtree) (p : path) : Z :=
  let depth := p_depth (pnth p 0) in
  if depth =? 0 then EXT_MAX_BLOCKS else next_leaf_loop t p (Z.to_nat depth).

(** *** Corrections of the indexes above a leaf *)

(** Entry [k] of the node at [l] gets the start block [border]. *)
Definition set_ei_block (l : nloc) (k border : Z) (t : xtree) : xtree :=
  let nd := node_at t l in
  set_node l (set_islot k (Idx border (ei_leaf (islot nd k))) nd) t.

(** The assignment of one level: access, store, dirty. *)
Definition correct_level (e : ext4_ext_path) (border : Z) : X Z :=
  err <~ ext4_ext_get_access e;;
  if negb (err =? 0) then kret err else
  match p_idx e with
  | Some k => kmodify (set_ei_block (p_hdr e) k border);;; ext4_ext_dirty e
  | None => koops
  end.

(** [while (k--)] of [ext4_ext_correct_indexes]: levels [k - 1 .. 0]. *)
Fixpoint correct_loop (k : nat) (p : path) (border : Z) : X Z :=
  match k with
  | O => kret 0
  | S k =>
      match p_idx (pnth p (Z.of_nat (S k))) with
      | Some 0 =>
          err <~ correct_level (pnth p (Z.of_nat k)) border;;
          if negb (err =? 0) then kret err else correct_loop k p border
      | _ => kret 0
      end
  end.

Definition ext4_ext_correct_indexes (p : path) : X Z :=
  t <~ kget;;
  let depth := ext_depth t in
  let e := pnth p depth in
  match p_ext e with
  | None => kret (- EFSCORRUPTED)
  | Some k =>
      if depth =? 0 then kret 0
      else if negb (k =? 0) then kret 0
      else
        let border := ee_block (slot (node_at t (p_hdr e)) k) in
        err <~ correct_level (pnth p (depth - 1)) border;;
        if negb (err =? 0) then kret err
        else correct_loop (Z.to_nat (depth - 1)) p border
  end.

(** *** Merging *)

(** [ext4_ext_try_to_merge_up]: a single leaf that fits is moved into the inode. *)
Definition ext4_ext_try_to_merge_up (p : path) : X path :=
  t <~ kget;;
  let max_root := ext4_ext_space_root in
  let leaf := node_at t (p_hdr (pnth p 1)) in
  if negb (p_depth (pnth p 0) =? 1) || negb (eh_entries (x_root t) =? 1)
     || (max_root <? eh_entries leaf)
  then kret p
  else
    ext <~ call_int "ext4_journal_extend" [2];;
    if negb (ext =? 0) then kret p else
    match p_idx (pnth p 0) with
    | None => koops
    | Some k =>
        let blk := ext4_idx_pblock (islot (x_root t) k) in
        (* memcpy of the header and of eh_entries slots *)
        let n := Z.to_nat (eh_entries leaf) in
        let root := Node (eh_magic leaf) (eh_entries leaf) max_root (eh_depth leaf)
                      (eh_generation leaf)
                      (take n (n_ext leaf) ++ drop n (n_ext (x_root t)))%list
                      (take n (n_idx leaf) ++ drop n (n_idx (x_root t)))%list in
        kmodify (set_node InRoot root);;;
        let e0 := pnth p 0 in
        let e1 := pnth p 1 in
        let p := pset p 1 (Path (p_block e1) (p_depth e1) (p_maxdepth e0) (p_ext e1)
                             (p_idx e1) (p_hdr e1) (p_bh e1)) in
        let p := pset p 0 (Path (p_block e0) 0 (p_maxdepth e0) (p_ext e1) (p_idx e0)
                             (p_hdr e0) (p_bh e0)) in
        (match p_bh e1 with Some b => release (Ref (RBh b)) | None => kret tt end);;;
        call_int "ext4_free_blocks"
          [blk; 1; Z.lor EXT4_FREE_BLOCKS_METADATA EXT4_FREE_BLOCKS_FORGET];;;
        kret p
    end.

(** [ext4_ext_try_to_merge] *)
Definition ext4_ext_try_to_merge (p : path) (ex : Z) : X path :=
  t <~ kget;;
  let l := p_hdr (pnth p (ext_depth t)) in
  kmodify (fun t => set_node l (try_to_merge_leaf (node_at t l) ex) t);;;
  ext4_ext_try_to_merge_up p.

(** [ext4_ext_check_overlap]: the possibly shortened extent and the flag;
    [cmask] is [EXT4_LBLK_CMASK(sbi, .)]. *)
Definition ext4_ext_check_overlap (cmask : Z -> Z) (t : xtree) (p : path)
    (newext : ext4_extent) : ext4_extent * bool :=
  let b1 := ee_block newext in
  let len1 := ext4_ext_get_actual_len newext in
  let e := pnth p (ext_depth t) in
  match p_ext e with
  | None => (newext, false)
  | Some k =>
      let b2 := cmask (ee_block (slot (node_at t (p_hdr e)) k)) in
      let nb := ext4_ext_next_allocated_block t p in
      if (b2 <? b1) && (nb =? EXT_MAX_BLOCKS) then (newext, false)
      else
        let b2 := if b2 <? b1 then cmask nb else b2 in
        let '(newext, len1, ret) :=
          if u32 (b1 + len1) <? b1
          then (set_ee_len newext (EXT_MAX_BLOCKS - b1), EXT_MAX_BLOCKS - b1, true)
          else (newext, len1, false) in
        if b2 <? u32 (b1 + len1) then (set_ee_len newext (b2 - b1), true)
        else (newext, ret)
  end.

(** *** New metadata blocks *)

(** [ext4_ext_find_goal] *)
Definition ext4_ext_find_goal (p : path) (block : Z) : X Z :=
  t <~ kget;;
  let depth := p_depth (pnth p 0) in
  let e := pnth p depth in
  match p_ext e with
  | Some k =>
      let ex := slot (node_at t (p_hdr e)) k in
      kret (if ee_block ex <? block
            then u64 (ext4_ext_pblock ex + (block - ee_block ex))
            else u64 (ext4_ext_pblock ex - (ee_block ex - block)))
  | None =>
      match p_bh e with
      | Some b => kret b
      | None => call_int "ext4_inode_to_goal_block" [ino]
      end
  end.

(** [ext4_ext_new_meta_block]: an answer [z > 0] of the allocator is the block;
    otherwise the block is 0 and [z] is [*err]. *)
Definition ext4_ext_new_meta_block (p : path) (ex : ext4_extent) (flags : Z) : X Z :=
  goal <~ ext4_ext_find_goal p (ee_block ex);;
  call_int "ext4_new_meta_blocks" [goal; flags].

Fixpoint alloc_blocks (n : nat) (p : path) (newext : ext4_extent) (flags : Z)
    (ablocks : list Z) : X (Z * list Z) :=
  match n with
  | O => kret (0, ablocks)
  | S n =>
      z <~ ext4_ext_new_meta_block p newext flags;;
      if z <=? 0 then kret (z, ablocks)
      else alloc_blocks n p newext flags (ablocks ++ [z])%list
  end.

Fixpoint free_blocks (bs : list Z) : X unit :=
  match bs with
  | [] => kret tt
  | b :: bs => call_int "ext4_free_blocks" [b; 1; EXT4_FREE_BLOCKS_METADATA];;; free_blocks bs
  end.

(** [ext4_ext_insert_index]: [logical] at the entry of [curp]. *)
Definition ext4_ext_insert_index (curp : ext4_ext_path) (logical ptr : Z) : X Z :=
  err <~ ext4_ext_get_access curp;;
  if negb (err =? 0) then kret err else
  t <~ kget;;
  let nd := node_at t (p_hdr curp) in
  match p_idx curp with
  | None => koops
  | Some k =>
      if logical =? ei_block (islot nd k) then kret (- EFSCORRUPTED)
      else if eh_max nd <=? eh_entries nd then kret (- EFSCORRUPTED)
      else
        let ix := if ei_block (islot nd k) <? logical then k + 1 else k in
        if EXT_MAX nd <? ix then kret (- EFSCORRUPTED) else
        let len := EXT_LAST nd - ix + 1 in
        if len <? 0 then koops else
        let nd1 := if 0 <? len
                   then set_idx (memmove (n_idx nd) (Z.to_nat (ix + 1)) (Z.to_nat ix)
                                   (Z.to_nat len)) nd
                   else nd in
        let nd2 := set_islot ix (ext4_idx_store_pblock (Idx logical 0) ptr) nd1 in
        let nd3 := set_entries (u16 (eh_entries nd2 + 1)) nd2 in
        kmodify (set_node (p_hdr curp) nd3);;;
        if EXT_LAST nd3 <? ix then kret (- EFSCORRUPTED) else
        err <~ ext4_ext_dirty curp;;
        kret err
  end.
(** *** Splitting the path down to the leaf *)

(** Header and slots of a fresh leaf or index block. *)
Definition new_leaf (moved : list ext4_extent) : node :=
  let n := Z.to_nat ext4_ext_space_block in
  Node EXT4_EXT_MAGIC (u16 (Z.of_nat (length moved))) (u16 ext4_ext_space_block) 0 0
    (moved ++ replicate (n - length moved) (Ext 0 0 0))%list (replicate n (Idx 0 0)).

Definition new_index (first : ext4_extent_idx) (moved : list ext4_extent_idx) (depth : Z) : node :=
  let n := Z.to_nat ext4_ext_space_block_idx in
  Node EXT4_EXT_MAGIC (u16 (1 + Z.of_nat (length moved))) (u16 ext4_ext_space_block_idx)
    (u16 depth) 0 (replicate n (Ext 0 0 0))
    (first :: moved ++ replicate (n - 1 - length moved) (Idx 0 0))%list.

(** Store a node with its checksum in block [b] ([set_buffer_uptodate] included). *)
Definition store_block (b : Z) (nd : node) (t : xtree) : xtree :=
  XTree (x_root t) (<[b := ext4_extent_block_csum_set (XBlock nd 0)]> (x_blk t))
    (x_verified t).

(** "correct old leaf / old index": the [m] entries moved away are dropped. *)
Definition drop_entries (e : ext4_ext_path) (m : Z) : X Z :=
  if m =? 0 then kret 0 else
  err <~ ext4_ext_get_access e;;
  if negb (err =? 0) then kret err else
  kmodify (fun t => let nd := node_at t (p_hdr e) in
                    set_node (p_hdr e) (set_entries (u16 (eh_entries nd - m)) nd) t);;;
  ext4_ext_dirty e.

(** One new block of the subtree: take the buffer, lock it, get create access,
    initialise its header, fill it ([content] answers [false] on the corruption
    exit of the code), mark it dirty.  Returns the error and whether the entries
    were moved. *)
Definition fill_block (b : Z) (content : xtree -> node * bool) : X (Z * bool) :=
  bh <~ call_ptr "sb_getblk_gfp" [b];;
  match bh with
  | PtrOk =>
      acquire (Ref (RBh b));;;
      acquire (Excl (LBuffer b));;;
      let unlock err :=
        release (Excl (LBuffer b));;; release (Ref (RBh b));;; kret (err, false) in
      err <~ call_int "ext4_journal_get_create_access" [b];;
      if negb (err =? 0) then unlock err else
      t <~ kget;;
      let '(nd, ok) := content t in
      if negb ok then
        kmodify (set_node (InBlk b) nd);;; unlock (- EFSCORRUPTED)
      else
        kmodify (store_block b nd);;;
        release (Excl (LBuffer b));;;
        err <~ call_int "ext4_handle_dirty_metadata" [b];;
        release (Ref (RBh b));;;
        kret (err, true)
  | _ => kret (- ENOMEM, false)
  end.

(** The loop [while (k--)] that creates the intermediate index blocks: level [i]
    of the path is moved to block [ablocks[a - 1]]; the last block is returned. *)
Fixpoint split_index_loop (k : nat) (p : path) (depth i a newblock border : Z)
    (ablocks : list Z) : X (Z * Z * path) :=
  match k with
  | O => kret (0, newblock, p)
  | S k =>
      let oldblock := newblock in
      match ablocks !! Z.to_nat (a - 1) with
      | None => koops
      | Some newblock =>
          let e := pnth p i in
          match p_idx e with
          | None => koops
          | Some x =>
              t0 <~ kget;;
              let m := EXT_MAX (node_at t0 (p_hdr e)) - x in
              f <~ fill_block newblock (fun t =>
                let nd := node_at t (p_hdr e) in
                let first := ext4_idx_store_pblock (Idx border 0) oldblock in
                if negb (EXT_MAX nd =? EXT_LAST nd)
                then (new_index first [] (depth - i), false)
                else (new_index first (take (Z.to_nat m) (drop (Z.to_nat (x + 1)) (n_idx nd)))
                        (depth - i), true));;
              let '(err, moved) := f in
              let p := if moved : bool then pset p i (set_p_idx (Some (x + 1)) e) else p in
              if negb (err =? 0) then kret (err, newblock, p) else
              err <~ drop_entries (pnth p i) m;;
              if negb (err =? 0) then kret (err, newblock, p)
              else split_index_loop k p depth (i - 1) (a - 1) newblock border ablocks
          end
      end
  end.

(** [ext4_ext_split]: a new subtree below the free index entry at level [at_].
    Returns the error and the path with its advanced entries. *)
Definition ext4_ext_split (flags : Z) (p : path) (newext : ext4_extent) (at_ : Z)
    : X (Z * path) :=
  t <~ kget;;
  let depth := ext_depth t in
  let leaf := pnth p depth in
  let nd := node_at t (p_hdr leaf) in
  match p_ext leaf with
  | None => koops
  | Some x =>
      if EXT_MAX nd <? x then kret (- EFSCORRUPTED, p) else
      let border := if negb (x =? EXT_MAX nd) then ee_block (slot nd (x + 1))
                    else ee_block newext in
      mem <~ call_ptr "kcalloc" [depth];;
      match mem with
      | PtrOk =>
          al <~ alloc_blocks (Z.to_nat (depth - at_)) p newext flags [];;
          let '(err, ablocks) := al in
          let cleanup err p :=
            (if negb (err =? 0) then free_blocks ablocks else kret tt);;; kret (err, p) in
          if Z.of_nat (length ablocks) <? depth - at_ then cleanup err p else
          let a := depth - at_ - 1 in
          match ablocks !! Z.to_nat a with
          | None => koops
          | Some newblock =>
              let m := EXT_MAX nd - x in
              f <~ fill_block newblock (fun t =>
                let nd := node_at t (p_hdr leaf) in
                if negb (eh_entries nd =? eh_max nd) then (new_leaf [], false)
                else (new_leaf (take (Z.to_nat m) (drop (Z.to_nat (x + 1)) (n_ext nd))), true));;
              let '(err, moved) := f in
              let p := if moved : bool then pset p depth (set_p_ext (Some (x + 1)) leaf) else p in
              if negb (err =? 0) then cleanup err p else
              err <~ drop_entries (pnth p depth) m;;
              if negb (err =? 0) then cleanup err p else
              let k := depth - at_ - 1 in
              if k <? 0 then cleanup (- EFSCORRUPTED) p else
              r <~ split_index_loop (Z.to_nat k) p depth (depth - 1) a newblock border ablocks;;
              let '(err, newblock, p) := r in
              if negb (err =? 0) then cleanup err p else
              err <~ ext4_ext_insert_index (pnth p at_) border newblock;;
              cleanup err p
          end
      | _ => kret (- ENOMEM, p)
      end
  end.

(** *** Growth in depth *)

(** The block the old root moves to: the inode's data followed by zeros, with
    the capacity of a block. *)
Definition grown_block (t : xtree) : node :=
  let r := x_root t in
  let isidx := negb (ext_depth t =? 0) in
  Node EXT4_EXT_MAGIC (eh_entries r)
    (u16 (if isidx then ext4_ext_space_block_idx else ext4_ext_space_block))
    (eh_depth r) (eh_generation r)
    (n_ext r ++ replicate (Z.to_nat ext4_ext_space_block - length (n_ext r)) (Ext 0 0 0))%list
    (n_idx r ++ replicate (Z.to_nat ext4_ext_space_block_idx - length (n_idx r)) (Idx 0 0))%list.

(** The root after growth: one index, to the new block. *)
Definition grown_root (r : node) (newblock : Z) : node :=
  let i0 := ext4_idx_store_pblock (islot r 0) newblock in
  let leafroot := eh_depth r =? 0 in
  Node (eh_magic r) 1 (if leafroot then u16 ext4_ext_space_root_idx else eh_max r)
    (u16 (eh_depth r + 1)) (eh_generation r) (n_ext r)
    (<[0%nat := if leafroot then Idx (ee_block (slot r 0)) (ei_leaf i0) else i0]> (n_idx r)).

(** The root is moved into block [newblock], the answer of the allocator. *)
Definition grow_into (newblock : Z) : X Z :=
  if newblock <=? 0 then kret newblock else
  bh <~ call_ptr "sb_getblk_gfp" [newblock];;
  match bh with
  | PtrOk =>
      acquire (Ref (RBh newblock));;;
      acquire (Excl (LBuffer newblock));;;
      let out err := release (Ref (RBh newblock));;; kret err in
      err <~ call_int "ext4_journal_get_create_access" [newblock];;
      if negb (err =? 0) then release (Excl (LBuffer newblock));;; out err else
      kmodify (fun t => store_block newblock (grown_block t) t);;;
      kmodify (fun t => XTree (x_root t) (x_blk t) ({[newblock]} ∪ x_verified t));;;
      release (Excl (LBuffer newblock));;;
      err <~ call_int "ext4_handle_dirty_metadata" [newblock];;
      if negb (err =? 0) then out err else
      kmodify (fun t => set_node InRoot (grown_root (x_root t) newblock) t);;;
      err <~ call_int "ext4_mark_inode_dirty" [ino];;
      out err
  | _ => kret (- ENOMEM)
  end.

(** [ext4_ext_grow_indepth] *)
Definition ext4_ext_grow_indepth (flags : Z) : X Z :=
  t <~ kget;;
  let goal := if negb (ext_depth t =? 0) then ext4_idx_pblock (islot (x_root t) 0) else 0 in
  newblock <~ (if first_data_block <? goal
               then call_int "ext4_new_meta_blocks"
                      [goal - 1; Z.lor flags EXT4_MB_HINT_TRY_GOAL]
               else goal <~ call_int "ext4_inode_to_goal_block" [ino];;
                    call_int "ext4_new_meta_blocks" [goal; flags]);;
  grow_into newblock.

(** *** Creating a leaf *)

(** The path of a caller after a callee may have moved it: [PSame]: its array
    holds the new path; [PMoved]: its array was freed and [*ppath] is a new one;
    [PNull]: its array was freed and [*ppath] is NULL. *)
Inductive ppath := PSame (p : path) | PMoved (p : path) | PNull.

Definition ppath_of (pp : ppath) : option path :=
  match pp with PSame p | PMoved p => Some p | PNull => None end.

(** A later call moved the array that [pp] already describes. *)
Definition ppath_then (pp pp' : ppath) : ppath :=
  match pp, pp' with PMoved _, PSame p => PMoved p | _, _ => pp' end.

(** [path = ext4_find_extent(inode, block, ppath, flags)] *)
Definition refill (p : path) (block flags : Z) : X (Z * ppath) :=
  t <~ kget;;
  let moved := p_maxdepth (pnth p 0) <? ext_depth t in
  r <~ ext4_find_extent block (Some p) flags;;
  kret (match r with
        | inl err => (err, PNull)
        | inr p => (0, if moved then PMoved p else PSame p)
        end).

Definition EXT_HAS_FREE_INDEX (t : xtree) (e : ext4_ext_path) : bool :=
  let nd := node_at t (p_hdr e) in eh_entries nd <? eh_max nd.

(** The walk up to a level with a free index entry. *)
Fixpoint free_index_level (t : xtree) (p : path) (i : nat) : Z :=
  match i with
  | O => 0
  | S i' => if EXT_HAS_FREE_INDEX t (pnth p (Z.of_nat i)) then Z.of_nat i
            else free_index_level t p i'
  end.

(** [ext4_ext_create_new_leaf]; each [repeat] follows a growth in depth, which
    [ext4_find_extent] refuses beyond [EXT4_MAX_EXTENT_DEPTH], so [fuel] levels
    are enough. *)
Fixpoint create_new_leaf_loop (fuel : nat) (mb_flags gb_flags : Z) (pp : ppath) (p : path)
    (newext : ext4_extent) : X (Z * ppath) :=
  match fuel with
  | O => koops
  | S fuel =>
      t <~ kget;;
      let i := free_index_level t p (Z.to_nat (ext_depth t)) in
      if EXT_HAS_FREE_INDEX t (pnth p i) then
        r <~ ext4_ext_split mb_flags p newext i;;
        let '(err, p) := r in
        let pp := ppath_then pp (PSame p) in
        if negb (err =? 0) then kret (err, pp) else
        r <~ refill p (ee_block newext) gb_flags;;
        let '(err, pp') := r in
        kret (err, ppath_then pp pp')
      else
        err <~ ext4_ext_grow_indepth mb_flags;;
        if negb (err =? 0) then kret (err, pp) else
        r <~ refill p (ee_block newext) gb_flags;;
        let '(err, pp') := r in
        let pp := ppath_then pp pp' in
        match ppath_of pp' with
        | None => kret (err, pp)
        | Some p =>
            t <~ kget;;
            let nd := node_at t (p_hdr (pnth p (ext_depth t))) in
            if eh_entries nd =? eh_max nd
            then create_new_leaf_loop fuel mb_flags gb_flags pp p newext
            else kret (0, pp)
        end
  end.

Definition ext4_ext_create_new_leaf (mb_flags gb_flags : Z) (p : path)
    (newext : ext4_extent) : X (Z * ppath) :=
  create_new_leaf_loop (Z.to_nat (EXT4_MAX_EXTENT_DEPTH + 2)) mb_flags gb_flags
    (PSame p) p newext.

(** *** Inserting an extent *)

Definition mod_leaf (e : ext4_ext_path) (f : node -> node) : X unit :=
  kmodify (fun t => set_node (p_hdr e) (f (node_at t (p_hdr e))) t).

(** The extent after it was extended to the left by [newext]. *)
Definition prepended (ex newext : ext4_extent) : ext4_extent :=
  let ex' := Ext (ee_block newext)
               (u16 (ext4_ext_get_actual_len ex + ext4_ext_get_actual_len newext))
               (pblock_store (ext4_ext_pblock newext)) in
  if ext4_ext_is_unwritten ex then ext4_ext_mark_unwritten ex' else ex'.

(** The part of [ext4_ext_insert_extent] from the label [merge] on. *)
Definition insert_merge (p : path) (nearex gb_flags : Z) : X (Z * path) :=
  p <~ (if has_flag gb_flags EXT4_GET_BLOCKS_PRE_IO then kret p
        else ext4_ext_try_to_merge p nearex);;
  err <~ ext4_ext_correct_indexes p;;
  if negb (err =? 0) then kret (err, p) else
  err <~ ext4_ext_dirty (pnth p (p_depth (pnth p 0)));;
  kret (err, p).

(** The part from the label [has_space] on. *)
Definition insert_has_space (p : path) (newext : ext4_extent) (gb_flags : Z) : X (Z * path) :=
  t <~ kget;;
  let depth := ext_depth t in
  let e := pnth p depth in
  err <~ ext4_ext_get_access e;;
  if negb (err =? 0) then kret (err, p) else
  match insert_slot (node_at t (p_hdr e)) (p_ext e) newext with
  | None => koops
  | Some (i, nd) =>
      kmodify (set_node (p_hdr e) nd);;;
      insert_merge (pset p depth (set_p_ext (Some i) e)) i gb_flags
  end.

(** Which extent of the leaf is tried for a merge: its index and whether only
    prepending is considered. *)
Definition merge_candidate (nd : node) (ex : Z) (newext : ext4_extent) : Z * bool :=
  if (ex <? EXT_LAST nd) &&
     (u32 (ee_block (slot nd ex) + ext4_ext_get_actual_len (slot nd ex)) <? ee_block newext)
  then (ex + 1, true)
  else if (0 <? ex) &&
     (u32 (ee_block newext + ext4_ext_get_actual_len newext) <? ee_block (slot nd ex))
  then (ex - 1, false)
  else (ex, false).

(** The extent the candidate becomes when it can absorb [newext]. *)
Definition absorb (ex newext : ext4_extent) (prepend_only : bool) : option ext4_extent :=
  if negb prepend_only && ext4_can_extents_be_merged ex newext
  then Some (merged ex newext)
  else if ext4_can_extents_be_merged newext ex then Some (prepended ex newext)
  else None.

(** No leaf has space: create one, then insert there.  The code goes on with its
    own [path] variable, so a path moved by the creation is a use after free. *)
Definition insert_new_leaf (p : path) (newext : ext4_extent) (mb_flags gb_flags : Z)
    (cleanup : Z * ppath -> X (Z * ppath)) : X (Z * ppath) :=
  let mb_flags := if has_flag gb_flags EXT4_GET_BLOCKS_METADATA_NOFAIL
                  then Z.lor mb_flags EXT4_MB_USE_RESERVED else mb_flags in
  r <~ ext4_ext_create_new_leaf mb_flags gb_flags p newext;;
  let '(err, pp) := r in
  if negb (err =? 0) then cleanup (err, pp) else
  match pp with
  | PSame p =>
      r <~ insert_has_space p newext gb_flags;;
      cleanup (r.1, PSame r.2)
  | _ => koops
  end.

(** [ext4_ext_insert_extent] *)
Definition ext4_ext_insert_extent (p : path) (newext : ext4_extent) (gb_flags : Z)
    : X (Z * ppath) :=
  let same (r : Z * path) := kret (r.1, PSame r.2) in
  let mb_flags := if has_flag gb_flags EXT4_GET_BLOCKS_DELALLOC_RESERVE
                  then EXT4_MB_DELALLOC_RESERVED else 0 in
  if ext4_ext_get_actual_len newext =? 0 then kret (- EFSCORRUPTED, PSame p) else
  t <~ kget;;
  let depth := ext_depth t in
  let e := pnth p depth in
  let nd := node_at t (p_hdr e) in
  let near :=
    match p_ext e with
    | Some ex =>
        if has_flag gb_flags EXT4_GET_BLOCKS_PRE_IO then None
        else let '(ex, prepend_only) := merge_candidate nd ex newext in
             (fun x => (ex, x)) <$> absorb (slot nd ex) newext prepend_only
    | None => None
    end in
  match near with
  | Some (ex, x) =>
      err <~ ext4_ext_get_access e;;
      if negb (err =? 0) then kret (err, PSame p) else
      mod_leaf e (set_slot ex x);;;
      r <~ insert_merge p ex gb_flags;; same r
  | None =>
      if eh_entries nd <? eh_max nd
      then r <~ insert_has_space p newext gb_flags;; same r
      else
      let next := if ee_block (slot nd (EXT_LAST nd)) <? ee_block newext
                  then ext4_ext_next_leaf_block t p else EXT_MAX_BLOCKS in
      np <~ (if negb (next =? EXT_MAX_BLOCKS)
             then r <~ ext4_find_extent next None gb_flags;;
                  kret (match r with inl err => inl err | inr np => inr (Some np) end)
             else kret (inr None));;
      match np with
      | inl err => kret (err, PSame p)
      | inr npath =>
          let cleanup (np : option path) (r : Z * ppath) :=
            ext4_free_ext_path np;;; kret r in
          t <~ kget;;
          let usable :=
            match npath with
            | Some np => let nd := node_at t (p_hdr (pnth np depth)) in
                         eh_entries nd <? eh_max nd
            | None => false
            end in
          match npath with
          | Some np =>
              if negb (p_depth (pnth np 0) =? p_depth (pnth p 0)) then koops
              else if usable then
                r <~ insert_has_space np newext gb_flags;;
                cleanup (Some r.2) (r.1, PSame p)
              else insert_new_leaf p newext mb_flags gb_flags (cleanup (Some np))
          | None => insert_new_leaf p newext mb_flags gb_flags (cleanup None)
          end
      end
  end.

(** *** Splitting an extent *)

(** [ext4_ext_zeroout] and [ext4_zeroout_es] *)
Definition ext4_ext_zeroout (ex : ext4_extent) : X Z :=
  call_int "ext4_issue_zeroout"
    [ee_block ex; ext4_ext_pblock ex; ext4_ext_get_actual_len ex].

Definition ext4_zeroout_es (ex : ext4_extent) : X unit :=
  if ext4_ext_get_actual_len ex =? 0 then kret tt else
  call_int "ext4_es_insert_extent"
    [ee_block ex; ext4_ext_get_actual_len ex; ext4_ext_pblock ex];;; kret tt.

(** The fallback of [ext4_split_extent_at] when the insertion of the second half
    failed for lack of space: [ex] is the entry at index [x] of level [e], [p] the
    path, [ex2] the second half, [orig_ex] the extent before the split. *)
Definition split_zeroout (p : path) (e : ext4_ext_path) (x ee_len split_flag : Z)
    (ex2 orig_ex : ext4_extent) (fix_extent_len : Z -> X Z) : X Z :=
  t <~ kget;;
  let ex := slot (node_at t (p_hdr e)) x in
  let victim :=
    if has_flag split_flag EXT4_EXT_DATA_VALID1 then ex2
    else if has_flag split_flag EXT4_EXT_DATA_VALID2 then ex
    else orig_ex in
  err <~ ext4_ext_zeroout victim;;
  let zero_ex := Ext (ee_block victim) (u16 (ext4_ext_get_actual_len victim))
                   (pblock_store (ext4_ext_pblock victim)) in
  if err =? 0 then
    mod_leaf e (fun nd => set_slot x (set_ee_len (slot nd x) ee_len) nd);;;
    p <~ ext4_ext_try_to_merge p x;;
    err <~ ext4_ext_dirty (pnth p (p_depth (pnth p 0)));;
    (if err =? 0 then ext4_zeroout_es zero_ex else kret tt);;;
    kret err
  else fix_extent_len err.

(** [ext4_split_extent_at]: the error and the caller's path.  After a failed
    insertion the code goes on with its own [path] variable. *)
Definition ext4_split_extent_at (p : path) (split split_flag flags : Z) : X (Z * ppath) :=
  if Z.land split_flag (Z.lor EXT4_EXT_DATA_VALID1 EXT4_EXT_DATA_VALID2)
     =? Z.lor EXT4_EXT_DATA_VALID1 EXT4_EXT_DATA_VALID2 then koops else
  t <~ kget;;
  let depth := ext_depth t in
  let e := pnth p depth in
  match p_ext e with
  | None => koops
  | Some x =>
      let ex := slot (node_at t (p_hdr e)) x in
      let ee_block := ee_block ex in
      let ee_len := ext4_ext_get_actual_len ex in
      let newblock := u64 (u32 (split - ee_block) + ext4_ext_pblock ex) in
      if (split <? ee_block) || (u32 (ee_block + ee_len) <=? split) then koops else
      if negb (ext4_ext_is_unwritten ex) &&
         has_flag split_flag (Z.lor EXT4_EXT_MAY_ZEROOUT
                                (Z.lor EXT4_EXT_MARK_UNWRIT1 EXT4_EXT_MARK_UNWRIT2))
      then koops else
      err <~ ext4_ext_get_access e;;
      if negb (err =? 0) then kret (err, PSame p) else
      if split =? ee_block then
        mod_leaf e (fun nd => set_slot x (if has_flag split_flag EXT4_EXT_MARK_UNWRIT2
                                          then ext4_ext_mark_unwritten (slot nd x)
                                          else ext4_ext_mark_initialized (slot nd x)) nd);;;
        p <~ (if has_flag flags EXT4_GET_BLOCKS_PRE_IO then kret p
              else ext4_ext_try_to_merge p x);;
        err <~ ext4_ext_dirty (pnth p (p_depth (pnth p 0)));;
        kret (err, PSame p)
      else
      let orig_ex := ex in
      mod_leaf e (fun nd =>
        let ex := set_ee_len (slot nd x) (split - ee_block) in
        set_slot x (if has_flag split_flag EXT4_EXT_MARK_UNWRIT1
                    then ext4_ext_mark_unwritten ex else ex) nd);;;
      let fix_extent_len (p : path) (err : Z) : X Z :=
        mod_leaf e (fun nd =>
          set_slot x (Ext (ExtentNode.ee_block (slot nd x)) (ExtentNode.ee_len orig_ex)
                        (ee_start (slot nd x))) nd);;;
        ext4_ext_dirty (pnth p (p_depth (pnth p 0)));;;
        kret err in
      err <~ ext4_ext_dirty e;;
      if negb (err =? 0) then err <~ fix_extent_len p err;; kret (err, PSame p) else
      let ex2 := Ext split (u16 (ee_len - (split - ee_block))) (pblock_store newblock) in
      let ex2 := if has_flag split_flag EXT4_EXT_MARK_UNWRIT2
                 then ext4_ext_mark_unwritten ex2 else ex2 in
      r <~ ext4_ext_insert_extent p ex2 flags;;
      let '(err, pp) := r in
      if negb (err =? - ENOSPC) && negb (err =? - EDQUOT) && negb (err =? - ENOMEM)
      then kret (err, pp)
      else
        match pp with
        | PSame p =>
            err <~ (if has_flag split_flag EXT4_EXT_MAY_ZEROOUT
                    then split_zeroout p e x ee_len split_flag ex2 orig_ex (fix_extent_len p)
                    else fix_extent_len p err);;
            kret (err, PSame p)
        | _ => koops
        end
  end.

(** [ext4_force_split_extent_at] *)
Definition ext4_force_split_extent_at (p : path) (lblk : Z) (nofail : bool) : X (Z * ppath) :=
  t <~ kget;;
  let e := pnth p (p_depth (pnth p 0)) in
  match p_ext e with
  | None => koops
  | Some x =>
      let unwritten := ext4_ext_is_unwritten (slot (node_at t (p_hdr e)) x) in
      let flags := Z.lor EXT4_EX_NOCACHE EXT4_GET_BLOCKS_PRE_IO in
      let flags := if nofail then Z.lor flags (Z.lor EXT4_GET_BLOCKS_METADATA_NOFAIL
                                                 EXT4_EX_NOFAIL) else flags in
      ext4_split_extent_at p lblk
        (if unwritten then Z.lor EXT4_EXT_MARK_UNWRIT1 EXT4_EXT_MARK_UNWRIT2 else 0) flags
  end.

(** [ext4_split_extent] for the range [m_lblk .. m_lblk + m_len): an error or
    [allocated], and the caller's path. *)
Definition ext4_split_extent (p : path) (m_lblk m_len split_flag flags : Z) : X (Z * ppath) :=
  t <~ kget;;
  let e := pnth p (ext_depth t) in
  match p_ext e with
  | None => koops
  | Some x =>
      let ex := slot (node_at t (p_hdr e)) x in
      let ee_block := ee_block ex in
      let ee_len := ext4_ext_get_actual_len ex in
      let unwritten := ext4_ext_is_unwritten ex in
      first <~ (if u32 (m_lblk + m_len) <? u32 (ee_block + ee_len) then
                  let split_flag1 := Z.land split_flag EXT4_EXT_MAY_ZEROOUT in
                  let split_flag1 :=
                    if unwritten then Z.lor split_flag1 (Z.lor EXT4_EXT_MARK_UNWRIT1
                                                           EXT4_EXT_MARK_UNWRIT2)
                    else split_flag1 in
                  let split_flag1 :=
                    if has_flag split_flag EXT4_EXT_DATA_VALID2
                    then Z.lor split_flag1 EXT4_EXT_DATA_VALID1 else split_flag1 in
                  r <~ ext4_split_extent_at p (u32 (m_lblk + m_len)) split_flag1
                         (Z.lor flags EXT4_GET_BLOCKS_PRE_IO);;
                  kret (r, m_len)
                else kret ((0, PSame p), s32 (ee_len - (m_lblk - ee_block))));;
      let '((err, pp), allocated) := first in
      if negb (err =? 0) then kret (err, pp) else
      r <~ (match ppath_of pp with
            | Some p => refill p m_lblk flags
            | None => r <~ ext4_find_extent m_lblk None flags;;
                      kret (match r with inl e => (e, PNull) | inr p => (0, PMoved p) end)
            end);;
      let '(err, pp') := r in
      let pp := ppath_then pp pp' in
      match ppath_of pp with
      | None => kret (err, pp)
      | Some p =>
          t <~ kget;;
          let e := pnth p (ext_depth t) in
          match p_ext e with
          | None => kret (- EFSCORRUPTED, pp)
          | Some x =>
              let unwritten := ext4_ext_is_unwritten (slot (node_at t (p_hdr e)) x) in
              if ee_block <=? m_lblk then
                let split_flag1 := Z.land split_flag EXT4_EXT_DATA_VALID2 in
                let split_flag1 :=
                  if unwritten
                  then Z.lor (Z.lor split_flag1 EXT4_EXT_MARK_UNWRIT1)
                         (Z.land split_flag (Z.lor EXT4_EXT_MAY_ZEROOUT EXT4_EXT_MARK_UNWRIT2))
                  else split_flag1 in
                r <~ ext4_split_extent_at p m_lblk split_flag1 flags;;
                let '(err, pp') := r in
                let pp := ppath_then pp pp' in
                if negb (err =? 0) then kret (err, pp) else kret (allocated, pp)
              else kret (allocated, pp)
          end
      end
  end.

(** [ext4_ext_tree_init] on the inode's root; [ext4_mark_inode_dirty] follows. *)
Definition ext4_ext_tree_init : X unit :=
  kmodify (fun t =>
    let r := x_root t in
    set_node InRoot (Node EXT4_EXT_MAGIC 0 (u16 ext4_ext_space_root) 0 0
                       (n_ext r) (n_idx r)) t);;;
  call_int "ext4_mark_inode_dirty" [ino];;; kret tt.
End Tree.
