(* ===== verification/ExtentTreeSpec.v ===== *)
(** * Properties of the extent tree

    The lookup returns on every tree and keeps its buffer references balanced;
    it descends to the leaf the reference descent [descend] reaches.  Growth in
    depth keeps the map from logical to physical blocks, and so does splitting an
    extent in a leaf that has room. *)

From stdpp Require Import prelude list gmap strings.
From Stdlib Require Import ZArith Lia.
From S2P Require Import Prelude Kernel ExtentNode ExtentTree.

Local Open Scope Z_scope.

(** ** Buffer references of a path *)

Definition bh_res (e : ext4_ext_path) : list res :=
  match p_bh e with Some b => [Ref (RBh b)] | None => [] end.

Definition path_refs (p : path) : list res := p ≫= bh_res.

(** The references of [p] are held on top of [h0], in some order. *)
Definition owns (p : path) (h0 : list res) (held : list res) : Prop :=
  exists l, held = l ++ h0 /\ l ≡ₚ path_refs p.

Lemma owns_release r l p h0 held :
  held = l ++ h0 -> l ≡ₚ r :: p ->
  exists l', drop_res r held = Some (l' ++ h0) /\ l' ≡ₚ p.
Proof.
  intros -> Hl. destruct (drop_res_app r l h0) as (l' & Hd & Hp).
  { rewrite Hl. by apply list_elem_of_here. }
  exists l'. split; [done|]. apply (Permutation_cons_inv (a := r)). by rewrite <- Hp.
Qed.

(** The thread holds no buffer lock. *)
Definition no_buffer_locked (held : list res) : Prop :=
  Forall (fun r => match r with Excl (LBuffer _) | Shared (LBuffer _) => False | _ => True end) held.

Lemma no_buffer_lock b held :
  no_buffer_locked held -> existsb (blocks_on (Excl (LBuffer b))) held = false.
Proof. by induction 1 as [|[[]|[]|] l Hr _ IH]. Qed.

(** ** Trees that differ in the verified bits only *)

Definition same_tree (t t' : xtree) : Prop :=
  x_root t' = x_root t /\ x_blk t' = x_blk t.

#[export] Instance same_tree_equiv : Equivalence same_tree.
Proof.
  split; unfold same_tree; [by intros ?|by intros ? ? [-> ->]|].
  by intros ? ? ? [-> ->] [-> ->].
Qed.

#[export] Instance node_at_proper : Proper (same_tree ==> eq ==> eq) node_at.
Proof. intros t t' [Hr Hb] l _ <-. destruct l; simpl; by rewrite ?Hr, ?Hb. Qed.

#[export] Instance ext_depth_proper : Proper (same_tree ==> eq) ext_depth.
Proof. intros t t' [Hr _]. unfold ext_depth. by rewrite Hr. Qed.

Section Lookup.
Context `{ExtFmt} `{Env} `{TreeEnv}.

(** The descent of the lookup as a function of the tree: the header reached
    from [l] after [i] levels. *)
Fixpoint descend (t : xtree) (i : nat) (l : nloc) (block : Z) : nloc :=
  match i with
  | O => l
  | S i =>
      let nd := node_at t l in
      let k := default 0 (ext4_ext_binsearch_idx nd block) in
      descend t i (InBlk (ext4_idx_pblock (islot nd k))) block
  end.

Lemma descend_same t t' i : forall l block,
  same_tree t t' -> descend t' i l block = descend t i l block.
Proof.
  induction i as [|i IH]; intros l block Ht; simpl; [done|].
  rewrite (node_at_proper t t' Ht l l eq_refl). by apply IH.
Qed.

Lemma binsearch_idx_total nd block : is_Some (ext4_ext_binsearch_idx nd block).
Proof. apply binsearch_loop_total. unfold EXT_LAST. lia. Qed.

(** Releasing the references of a path. *)
Lemma wp_drop_refs_loop p : forall n h0 (Q : unit -> world xtree -> Prop) w,
  owns p h0 (w_held w) -> path_refs (drop n p) = [] ->
  Q tt (World (w_st w) h0 (w_calls w)) -> wp (drop_refs_loop p n) Q w.
Proof.
  induction p as [|e p IH]; intros n h0 Q w (l & Hw & Hl) Hn HQ.
  - apply Permutation_nil_r in Hl as ->. destruct n; simpl; apply wp_ret;
      destruct w; simpl in *; by subst.
  - destruct n as [|n].
    { rewrite drop_0 in Hn. rewrite Hn in Hl. apply Permutation_nil_r in Hl as ->.
      apply wp_ret. destruct w; simpl in *; by subst. }
    unfold path_refs in Hl. cbn [mbind list_bind] in Hl.
    cbn [drop_refs_loop]. apply wp_bind. unfold bh_res in Hl.
    destruct (p_bh e) as [b|] eqn:Hb.
    + destruct (owns_release _ _ _ _ _ Hw Hl) as (l' & Hd & Hl').
      eapply wp_release; [exact Hd|]. apply (IH n h0); [by exists l'|done|done].
    + apply wp_ret. apply (IH n h0); [by exists l|done|done].
Qed.

Lemma path_refs_app p q : path_refs (p ++ q) = path_refs p ++ path_refs q.
Proof. apply bind_app. Qed.

(** Setting a level that had no buffer adds the references of the new entry. *)
Lemma path_refs_pset p i e :
  0 <= i < Z.of_nat (length p) ->
  path_refs (pset p i e) ++ bh_res (pnth p i) ≡ₚ path_refs p ++ bh_res e.
Proof.
  intros Hi. unfold pset, pnth.
  destruct (lookup_lt_is_Some_2 p (Z.to_nat i)) as [x Hx]; [lia|].
  rewrite (list_lookup_total_correct _ _ _ Hx).
  rewrite insert_take_drop by lia. rewrite <- (take_drop_middle p _ _ Hx) at 3.
  rewrite !path_refs_app. unfold path_refs at 2 4. cbn [mbind list_bind].
  fold (path_refs (drop (S (Z.to_nat i)) p)). solve_Permutation.
Qed.

Lemma pnth_pset_eq p i e : 0 <= i < Z.of_nat (length p) -> pnth (pset p i e) i = e.
Proof. intros Hi. unfold pnth, pset. apply list_lookup_total_insert_eq. lia. Qed.

Lemma pnth_pset_ne p i j e : 0 <= i -> 0 <= j -> i <> j -> pnth (pset p i e) j = pnth p j.
Proof. intros Hi Hj Hne. unfold pnth, pset. apply list_lookup_total_insert_ne. lia. Qed.

Lemma length_pset p i e : length (pset p i e) = length p.
Proof. apply length_insert. Qed.

(** Replacing an entry by one with the same buffer, or adding a buffer to an
    entry that had none. *)
Lemma owns_pset_same p i e h0 held :
  0 <= i < Z.of_nat (length p) -> p_bh e = p_bh (pnth p i) ->
  owns p h0 held -> owns (pset p i e) h0 held.
Proof.
  intros Hi He (l & Hw & Hl). exists l. split; [done|].
  pose proof (path_refs_pset p i e Hi) as Hp. unfold bh_res in Hp. rewrite He in Hp.
  apply Permutation_app_inv_r in Hp. by rewrite Hl, Hp.
Qed.

Lemma owns_pset_new p i e b h0 held :
  0 <= i < Z.of_nat (length p) -> p_bh (pnth p i) = None -> p_bh e = Some b ->
  owns p h0 held -> owns (pset p i e) h0 (Ref (RBh b) :: held).
Proof.
  intros Hi Hn He (l & -> & Hl). exists (Ref (RBh b) :: l). split; [done|].
  pose proof (path_refs_pset p i e Hi) as Hp. unfold bh_res in Hp.
  rewrite Hn, He, app_nil_r in Hp. rewrite Hp, Hl. by rewrite Permutation_cons_append.
Qed.

(** A level below which no buffer is held. *)
Definition no_bh_from (p : path) (i : Z) : Prop :=
  forall j, i <= j -> p_bh (pnth p j) = None.

Lemma no_bh_refs p i : 0 <= i -> no_bh_from p i -> path_refs (drop (Z.to_nat i) p) = [].
Proof.
  intros Hi Hn.
  assert (Hall : Forall (fun e => p_bh e = None) (drop (Z.to_nat i) p)).
  { apply Forall_lookup. intros j x Hj. rewrite lookup_drop in Hj.
    specialize (Hn (i + Z.of_nat j) ltac:(lia)). unfold pnth in Hn.
    rewrite Z2Nat.inj_add, Nat2Z.id in Hn by lia.
    by rewrite (list_lookup_total_correct _ _ _ Hj) in Hn. }
  induction Hall as [|e l He _ IH]; [done|]. unfold path_refs, bh_res. cbn [mbind list_bind].
  rewrite He. exact IH.
Qed.

Lemma wp_free_ext_path p h0 (Q : unit -> world xtree -> Prop) w :
  owns p h0 (w_held w) -> 0 <= p_depth (pnth p 0) ->
  no_bh_from p (p_depth (pnth p 0) + 1) ->
  Q tt (World (w_st w) h0 (w_calls w)) -> wp (ext4_free_ext_path (Some p)) Q w.
Proof.
  intros Ho Hd Hn HQ. eapply wp_drop_refs_loop; eauto. apply no_bh_refs; [lia|done].
Qed.

(** One block of the tree is read: the reference is held on success only, and
    only verified bits change. *)
Lemma wp_read_extent_tree_block idx depth flags (Q : Z + Z -> world xtree -> Prop) w :
  (forall err calls t', same_tree (w_st w) t' ->
     Q (inl err) (World t' (w_held w) calls)) ->
  (forall calls t', same_tree (w_st w) t' ->
     Q (inr (ext4_idx_pblock idx))
       (World t' (Ref (RBh (ext4_idx_pblock idx)) :: w_held w) calls)) ->
  wp (read_extent_tree_block idx depth flags) Q w.
Proof.
  intros Herr Hok. unfold read_extent_tree_block.
  wp_step. wp_step. destruct r; [|by wp_step; apply Herr..].
  wp_step. wp_step.
  do 3 wp_step. destruct (z =? 0).
  all: wp_auto; try (apply Herr; done); try (apply Hok; done).
Qed.

(** What the lookup leaves in its path: the leaf the descent reaches, the entry
    the search finds there, and references for its own levels only. *)
Record found (t : xtree) (depth block : Z) (l : nloc) (n : nat) (p : path) : Prop := {
  fd_length : length p = n;
  fd_depth : p_depth (pnth p 0) = depth;
  fd_nobh : no_bh_from p (depth + 1);
  fd_hdr : p_hdr (pnth p depth) = l;
  fd_ext : p_ext (pnth p depth) = ext4_ext_binsearch (node_at t l) block
}.

Lemma wp_find_loop i : forall ppos block flags p h0 (Q : Z + path -> world xtree -> Prop) w,
  0 <= ppos -> ppos + Z.of_nat i < Z.of_nat (length p) ->
  owns p h0 (w_held w) -> no_bh_from p (ppos + 1) ->
  (0 < ppos -> p_depth (pnth p 0) = ppos + Z.of_nat i) ->
  (forall err calls t', same_tree (w_st w) t' -> Q (inl err) (World t' h0 calls)) ->
  (forall p' held calls t', same_tree (w_st w) t' -> owns p' h0 held ->
     found (w_st w) (ppos + Z.of_nat i) block
       (descend (w_st w) i (p_hdr (pnth p ppos)) block) (length p) p' ->
     Q (inr p') (World t' held calls)) ->
  wp (find_loop i ppos block flags p) Q w.
Proof.
  induction i as [|i IH]; intros ppos block flags p h0 Q w Hpos Hlen Ho Hnb Hd Herr Hok.
  - cbn [find_loop]. wp_step. wp_step. apply wp_ret. destruct w as [t held calls].
    cbn [w_st w_held w_calls] in *. rewrite Z.add_0_r in *.
    apply Hok; [done|apply owns_pset_same; [lia|done|done]|].
    split.
    + apply length_pset.
    + destruct (Z.eq_dec ppos 0) as [->|]; [by rewrite pnth_pset_eq by lia|].
      rewrite pnth_pset_ne by lia. auto with lia.
    + intros j Hj. rewrite pnth_pset_ne by lia. apply Hnb. lia.
    + by rewrite pnth_pset_eq by lia.
    + by rewrite pnth_pset_eq by lia.
  - cbn [find_loop]. wp_step. wp_step.
    set (nd := node_at (w_st w) (p_hdr (pnth p ppos))).
    destruct (binsearch_idx_total nd block) as [k Hk]. rewrite Hk.
    set (p1 := pset _ _ _).
    assert (Hp10 : p_depth (pnth p1 0) = ppos + Z.of_nat (S i)).
    { subst p1. destruct (Z.eq_dec ppos 0) as [->|]; [by rewrite pnth_pset_eq by lia|].
      rewrite pnth_pset_ne by lia. auto with lia. }
    assert (Ho1 : owns p1 h0 (w_held w)) by (apply owns_pset_same; [lia|done|done]).
    assert (Hnb1 : no_bh_from p1 (ppos + 1)).
    { intros j Hj. subst p1. rewrite pnth_pset_ne by lia. by apply Hnb. }
    assert (Hlen1 : length p1 = length p) by apply length_pset.
    wp_step. apply wp_read_extent_tree_block.
    + intros err calls t' Ht. wp_step.
      eapply wp_free_ext_path; [exact Ho1|lia| |].
      * intros j Hj. apply Hnb1. lia.
      * apply wp_ret. by apply Herr.
    + intros calls t' Ht. cbn [w_st w_held w_calls] in *.
      eapply (IH _ _ _ _ h0); cbn [w_st w_held w_calls].
      * lia.
      * rewrite length_pset, Hlen1. lia.
      * apply owns_pset_new; [lia|apply Hnb1; lia|done|done].
      * intros j Hj. rewrite pnth_pset_ne by lia. apply Hnb1. lia.
      * intros _. rewrite pnth_pset_ne by lia. lia.
      * intros err calls' t'' Ht'. apply Herr. by etrans.
      * intros p' held' calls' t'' Ht' Hown [? ? ? ? ?]. apply Hok; [by etrans|done|].
        rewrite pnth_pset_eq in * by lia. cbn [p_hdr] in *.
        rewrite (descend_same (w_st w)) in * by done.
        replace (ppos + Z.of_nat (S i)) with (ppos + 1 + Z.of_nat i) by lia.
        rewrite length_pset, Hlen1 in *.
        assert (Hdesc : descend (w_st w) (S i) (p_hdr (pnth p ppos)) block =
                  descend (w_st w) i (InBlk (ext4_idx_pblock (islot nd k))) block).
        { cbn [descend]. fold nd. by rewrite Hk. }
        rewrite Hdesc. split; try done.
        by rewrite (node_at_proper (w_st w) t' Ht _ _ eq_refl).
Qed.

(** A path argument: none, or an allocated path whose references are held on
    top of [h0]. *)
Definition path_arg (orig : option path) (h0 held : list res) : Prop :=
  match orig with
  | None => held = h0
  | Some p => owns p h0 held /\ 0 <= p_depth (pnth p 0) /\
              no_bh_from p (p_depth (pnth p 0) + 1) /\
              p_maxdepth (pnth p 0) < Z.of_nat (length p)
  end.

(** A path without buffers owns nothing. *)
Lemma owns_no_bh p h0 : no_bh_from p 0 -> owns p h0 h0.
Proof.
  intros Hn. exists []. split; [done|]. by rewrite <- (no_bh_refs p 0 ltac:(lia) Hn), drop_0.
Qed.

Lemma no_bh_all p : Forall (fun e => p_bh e = None) p -> no_bh_from p 0.
Proof.
  intros Hall j _. unfold pnth. destruct (decide (Z.to_nat j < length p)%nat) as [Hlt|Hge].
  - apply (Forall_lookup_total_1 _ _ _ Hall Hlt).
  - by rewrite list_lookup_total_alt, lookup_ge_None_2 by lia.
Qed.

Lemma dropped_spec p :
  0 <= p_depth (pnth p 0) -> no_bh_from p (p_depth (pnth p 0) + 1) ->
  no_bh_from (dropped p) 0 /\ length (dropped p) = length p.
Proof.
  intros Hd Hn. apply no_bh_refs in Hn; [|lia]. unfold dropped.
  revert Hn. generalize (Z.to_nat (p_depth (pnth p 0) + 1)). intros n Hn.
  split; [|rewrite length_app, length_fmap, length_take, length_drop; lia].
  apply no_bh_all, Forall_app. split; [by apply Forall_fmap, Forall_true|].
  induction (drop n p) as [|e l IH]; [done|]. unfold path_refs, bh_res in Hn.
  cbn [mbind list_bind] in Hn. apply app_eq_nil in Hn as [He Hl].
  constructor; [by destruct (p_bh e)|by apply IH].
Qed.

Lemma wp_alloc_path depth (Q : option path -> world xtree -> Prop) w :
  0 <= depth ->
  (forall calls, Q None (World (w_st w) (w_held w) calls)) ->
  (forall p calls, no_bh_from p 0 -> depth < Z.of_nat (length p) ->
     Q (Some p) (World (w_st w) (w_held w) calls)) ->
  wp (alloc_path depth) Q w.
Proof.
  intros Hd Hnone Hsome. unfold alloc_path. wp_step. wp_step. apply wp_ret.
  destruct r; [|apply Hnone..].
  apply Hsome; [|rewrite length_pset, length_replicate; lia].
  apply no_bh_all. unfold pset. apply Forall_insert; [by apply Forall_replicate|done].
Qed.

(** What callers know after a lookup. *)
Definition find_post (w : world xtree) (block : Z) (h0 : list res)
    (Q : Z + path -> world xtree -> Prop) : Prop :=
  (forall err calls t', same_tree (w_st w) t' -> Q (inl err) (World t' h0 calls)) /\
  (forall p n held calls t', same_tree (w_st w) t' -> owns p h0 held ->
     0 <= ext_depth (w_st w) <= EXT4_MAX_EXTENT_DEPTH -> ext_depth (w_st w) < Z.of_nat n ->
     found (w_st w) (ext_depth (w_st w)) block
       (descend (w_st w) (Z.to_nat (ext_depth (w_st w))) InRoot block) n p ->
     Q (inr p) (World t' held calls)).

Lemma wp_find_from block flags p Q w :
  let depth := ext_depth (w_st w) in
  0 <= depth <= EXT4_MAX_EXTENT_DEPTH -> no_bh_from p 0 -> depth < Z.of_nat (length p) ->
  find_post w block (w_held w) Q -> wp (find_from depth block flags p) Q w.
Proof.
  intros depth Hd Hn Hlen [Herr Hok]. unfold find_from. cbv zeta. wp_step.
  assert (Hgo : forall calls,
    wp (find_loop (Z.to_nat depth) 0 block flags
          (pset p 0 (Path (p_block (pnth p 0)) (p_depth (pnth p 0)) (p_maxdepth (pnth p 0))
             (p_ext (pnth p 0)) (p_idx (pnth p 0)) InRoot None))) Q
       (World (w_st w) (w_held w) calls)).
  { intros calls. eapply (wp_find_loop _ 0 _ _ _ (w_held w)); cbn [w_st w_held].
    - lia.
    - rewrite length_pset. lia.
    - apply owns_pset_same; [lia|by rewrite Hn by lia|by apply owns_no_bh].
    - intros j Hj. rewrite pnth_pset_ne by lia. apply Hn. lia.
    - lia.
    - intros. by apply Herr.
    - intros p' held' calls'' t' Ht Ho. rewrite Z.add_0_l, Z2Nat.id by lia.
      rewrite pnth_pset_eq by lia. intros Hf. eapply Hok; [done|done|done| |exact Hf].
      rewrite length_pset. lia. }
  destruct w. destruct (_ && _); repeat wp_step; apply Hgo.
Qed.

Lemma wp_find_extent block orig flags h0 Q w :
  path_arg orig h0 (w_held w) -> find_post w block h0 Q ->
  wp (ext4_find_extent block orig flags) Q w.
Proof.
  intros Harg Hpost. pose proof Hpost as [Herr Hok].
  unfold ext4_find_extent. wp_step. wp_step.
  set (depth := ext_depth (w_st w)) in *.
  destruct ((depth <? 0) || (EXT4_MAX_EXTENT_DEPTH <? depth)) eqn:Hdepth.
  - wp_step. destruct orig as [p|].
    + destruct Harg as (Ho & Hd & Hn & _).
      eapply wp_free_ext_path; eauto. apply wp_ret. by apply Herr.
    + apply wp_ret. apply wp_ret. destruct w; simpl in *; subst. by apply Herr.
  - apply orb_false_iff in Hdepth as [Hd0%Z.ltb_ge Hd1%Z.ltb_ge].
    assert (Hgo : forall p calls, no_bh_from p 0 -> depth < Z.of_nat (length p) ->
      wp (find_from depth block flags p) Q (World (w_st w) h0 calls)).
    { intros p calls Hn Hl. by apply (wp_find_from block flags p Q (World (w_st w) h0 calls)). }
    destruct orig as [p|].
    + destruct Harg as (Ho & Hpd & Hn & Hmax). wp_step. wp_step.
      eapply wp_drop_refs_loop; [exact Ho|by apply no_bh_refs; [lia|]|]. apply wp_ret.
      destruct (dropped_spec p Hpd Hn) as [Hn1 Hl1].
      destruct (Z.ltb_spec (p_maxdepth (pnth p 0)) depth);
        [wp_step; apply wp_alloc_path; [done|intros; by apply wp_ret, Herr|by auto]|].
      wp_step. wp_step. apply Hgo; [done|lia].
    + wp_step. wp_step. wp_step. simpl in Harg. subst h0.
      apply wp_alloc_path; [done|intros; by apply wp_ret, Herr|by auto].
Qed.

(** C36: whatever the tree holds and the outside answers, [ext4_find_extent]
    returns, in at most [ext_depth] block reads; it changes no node.  On an error
    every buffer it took, and every buffer of the path it was given, is released;
    on success the path leads to the leaf that the descent of the tree reaches,
    with the entry the binary search finds there, and [ext4_free_ext_path] gives
    back exactly what the lookup took. *)
Theorem find_extent_total block orig flags h0 w :
  path_arg orig h0 (w_held w) ->
  exists r w', ext4_find_extent block orig flags w = Ret r w' /\
    same_tree (w_st w) (w_st w') /\
    match r with
    | inl err => w_held w' = h0
    | inr p =>
        let depth := ext_depth (w_st w) in
        let leaf := descend (w_st w) (Z.to_nat depth) InRoot block in
        p_depth (pnth p 0) = depth /\ p_hdr (pnth p depth) = leaf /\
        p_ext (pnth p depth) = ext4_ext_binsearch (node_at (w_st w) leaf) block /\
        exists w'', ext4_free_ext_path (Some p) w' = Ret tt w'' /\
          w_held w'' = h0 /\ w_st w'' = w_st w'
    end.
Proof.
  intros Harg. apply wp_run. eapply wp_find_extent; [exact Harg|]. split.
  - intros err calls t' Ht. by split.
  - intros p n held calls t' Ht Ho [Hd0 Hd1] Hn [_ Hd Hnb Hh He]. split_and!; try done.
    edestruct (wp_run (ext4_free_ext_path (Some p))
                 (fun _ w'' => w_held w'' = h0 /\ w_st w'' = t') (World t' held calls))
      as ([] & w'' & Hr & Hh' & Ht').
    { eapply wp_free_ext_path; [exact Ho|lia|by rewrite Hd|done]. }
    cbv zeta. split_and!; eauto.
Qed.
End Lookup.

(** ** Growth in depth *)

Section Grow.
Context `{ExtFmtOk} `{Env} `{TreeEnv}.

(** The leaf a logical block belongs to, and the map the whole tree stands for. *)
Definition tree_leaf (t : xtree) (block : Z) : node :=
  node_at t (descend t (Z.to_nat (ext_depth t)) InRoot block).

Definition tree_map (t : xtree) (block : Z) : option (Z * bool) :=
  mapping (entries (tree_leaf t block)) block.

(** [nb] is not a block of the tree. *)
Definition fresh_block (t : xtree) (nb : Z) : Prop :=
  forall i block, (i <= Z.to_nat (ext_depth t))%nat -> descend t i InRoot block <> InBlk nb.

Lemma islot_app nd l n x :
  n_idx nd = (l ++ replicate n (Idx 0 0))%list -> islot nd x = l !!! Z.to_nat x.
Proof.
  intros Hl. unfold islot. rewrite Hl.
  destruct (decide (Z.to_nat x < length l)%nat); [by rewrite lookup_total_app_l by lia|].
  rewrite lookup_total_app_r by lia.
  rewrite (list_lookup_total_alt l), (lookup_ge_None_2 l) by lia.
  rewrite list_lookup_total_alt. destruct (replicate n (Idx 0 0) !! _) eqn:Hr; [|done].
  by apply lookup_replicate in Hr as [-> _].
Qed.

Lemma binsearch_loop_ext key key' block fuel : forall l r,
  (forall m, key m = key' m) ->
  binsearch_loop fuel key block l r = binsearch_loop fuel key' block l r.
Proof.
  induction fuel as [|fuel IH]; intros l r Hk; simpl; [done|].
  rewrite Hk. by rewrite !(IH _ _ Hk).
Qed.

(** The block the old root moves to has the same entries, in both readings. *)
Lemma grown_block_islot t x : islot (grown_block t) x = islot (x_root t) x.
Proof. by erewrite islot_app by reflexivity. Qed.

Lemma grown_block_search t block :
  ext4_ext_binsearch_idx (grown_block t) block = ext4_ext_binsearch_idx (x_root t) block.
Proof.
  apply binsearch_loop_ext. intros m. by rewrite grown_block_islot.
Qed.

Lemma grown_block_entries t : node_wf (x_root t) -> entries (grown_block t) = entries (x_root t).
Proof.
  intros Hwf. unfold entries. cbn [grown_block eh_entries n_ext].
  rewrite take_app_le; [done|]. destruct Hwf as (? & ? & ?). lia.
Qed.

(** The tree after growth. *)
Definition grown (t : xtree) (nb : Z) (v : gset Z) : xtree :=
  XTree (grown_root (x_root t) nb)
    (<[nb := ext4_extent_block_csum_set (XBlock (grown_block t) 0)]> (x_blk t)) v.

Lemma grown_node_new t nb v : node_at (grown t nb v) (InBlk nb) = grown_block t.
Proof.
  unfold grown. cbn [node_at x_blk]. rewrite lookup_total_insert_eq.
  unfold ext4_extent_block_csum_set. by destruct (negb has_csum).
Qed.

Lemma grown_node_old t nb v b : b <> nb -> node_at (grown t nb v) (InBlk b) = node_at t (InBlk b).
Proof. intros Hb. unfold grown. cbn [node_at x_blk]. by rewrite lookup_total_insert_ne. Qed.

(** Trees that agree on all blocks but [nb]. *)
Definition agree_off (nb : Z) (t t' : xtree) : Prop :=
  forall b, b <> nb -> node_at t' (InBlk b) = node_at t (InBlk b).

(** A descent that does not reach [nb] is the same in both. *)
Lemma descend_off t t' nb block i : forall b,
  agree_off nb t t' ->
  (forall j, (j <= i)%nat -> descend t j (InBlk b) block <> InBlk nb) ->
  descend t' i (InBlk b) block = descend t i (InBlk b) block /\
  exists b', descend t i (InBlk b) block = InBlk b' /\ b' <> nb.
Proof.
  induction i as [|i IH]; intros b Ha Hf; cbn [descend].
  - split; [done|]. exists b. split; [done|]. specialize (Hf 0%nat ltac:(lia)).
    intros ->. by apply Hf.
  - rewrite Ha.
    2:{ intros ->. by apply (Hf 0%nat ltac:(lia)). }
    apply IH; [done|]. intros j Hj. by apply (Hf (S j) ltac:(lia)).
Qed.

(** Writing a block outside the tree does not change the map. *)
Lemma tree_map_off t t' nb block :
  agree_off nb t t' -> x_root t' = x_root t -> fresh_block t nb ->
  tree_map t' block = tree_map t block.
Proof.
  intros Ha Hr Hf. unfold tree_map, tree_leaf. unfold fresh_block in Hf.
  unfold ext_depth in *. rewrite Hr.
  destruct (Z.to_nat (eh_depth (x_root t))) as [|d]; cbn [descend node_at]; [by rewrite Hr|].
  rewrite Hr. set (b := ext4_idx_pblock _).
  destruct (descend_off t t' nb block d b Ha) as [-> (b' & -> & Hb')].
  { intros j Hj. apply (Hf (S j) block). lia. }
  by rewrite Ha.
Qed.

Lemma grown_root_step t nb v block i :
  0 <= nb < 2 ^ 48 -> (0 < length (n_idx (x_root t)))%nat ->
  descend (grown t nb v) (S i) InRoot block = descend (grown t nb v) i (InBlk nb) block.
Proof.
  intros Hnb Hlen. cbn [descend]. do 2 f_equal.
  assert (Hs : ext4_ext_binsearch_idx (node_at (grown t nb v) InRoot) block = Some 0) by done.
  rewrite Hs. unfold islot, grown. cbn [node_at x_root grown_root n_idx default].
  rewrite list_lookup_total_insert_eq by done.
  destruct (eh_depth (x_root t) =? 0); by apply fmt_pblock.
Qed.

Lemma tree_map_grown t nb v block :
  node_wf (x_root t) -> (0 < length (n_idx (x_root t)))%nat ->
  0 <= ext_depth t < 65535 -> 0 <= nb < 2 ^ 48 -> fresh_block t nb ->
  tree_map (grown t nb v) block = tree_map t block.
Proof.
  intros Hwf Hlen Hd Hnb Hf. unfold tree_map, tree_leaf.
  assert (Hd' : ext_depth (grown t nb v) = ext_depth t + 1).
  { unfold ext_depth, grown, grown_root. cbn [x_root eh_depth]. apply u16_small.
    unfold ext_depth in Hd. lia. }
  rewrite Hd', Z2Nat.inj_add, Nat.add_1_r by lia.
  rewrite grown_root_step by done.
  unfold fresh_block in Hf. destruct (Z.to_nat (ext_depth t)) as [|d].
  - cbn [descend]. by rewrite grown_node_new, grown_block_entries.
  - cbn [descend]. rewrite grown_node_new, grown_block_search, grown_block_islot.
    cbn [node_at]. set (b := ext4_idx_pblock _).
    destruct (descend_off t (grown t nb v) nb block d b) as [-> (b' & -> & Hb')].
    { intros b' Hb'. by apply grown_node_old. }
    { intros j Hj. apply (Hf (S j) block). lia. }
    by rewrite grown_node_old.
Qed.

(** What the tree is after an attempt to grow: unchanged but for a block outside
    of it, or grown. *)
Definition grow_result (t t' : xtree) (err : Z) : Prop :=
  (err <> 0 /\ exists nb, x_root t' = x_root t /\ agree_off nb t t' /\
     (t' = t \/ fresh_block t nb)) \/
  (exists nb v, t' = grown t nb v /\ 0 <= nb < 2 ^ 48 /\ fresh_block t nb).

(** The allocator answers an error, or a block number of 48 bits that is not a
    block of the tree. *)
Definition alloc_fresh (t : xtree) : Prop :=
  forall h args z, env_int h "ext4_new_meta_blocks" args = z ->
    z <> 0 /\ (0 < z -> z < 2 ^ 48 /\ fresh_block t z).

Lemma wp_grow flags (Q : Z -> world xtree -> Prop) w :
  alloc_fresh (w_st w) ->
  no_buffer_locked (w_held w) ->
  (forall err t' calls, grow_result (w_st w) t' err -> Q err (World t' (w_held w) calls)) ->
  wp (ext4_ext_grow_indepth flags) Q w.
Proof.
  intros Ha Hl HQ. unfold ext4_ext_grow_indepth. wp_step. wp_step.
  assert (Hself : forall err, err <> 0 -> grow_result (w_st w) (w_st w) err).
  { intros err He. left. split; [done|]. exists 0. split_and!; [done|by intros ?|by left]. }
  assert (Hbody : forall calls nb, (nb <> 0 /\ (0 < nb -> nb < 2 ^ 48 /\ fresh_block (w_st w) nb)) ->
    wp (grow_into nb) Q (World (w_st w) (w_held w) calls)).
  { intros calls nb [Hnz Hnb]. unfold grow_into.
    destruct (Z.leb_spec nb 0); [apply wp_ret, HQ, Hself; lia|]. destruct Hnb as [Hnb Hf]; [done|].
    wp_step. wp_step. destruct r; [|apply wp_ret, HQ, Hself; unfold ENOMEM; lia..].
    wp_step. wp_step. wp_step. wp_step.
    { by apply no_buffer_lock. }
    wp_step. wp_step. destruct (Z.eqb_spec z 0); cbn [negb].
    2:{ wp_auto. by apply HQ, Hself. }
    do 8 wp_step. destruct (Z.eqb_spec z0 0); cbn [negb].
    - wp_auto. apply HQ. right. exists nb, ({[nb]} ∪ x_verified (w_st w)). split_and!; [done|lia|lia|done].
    - wp_auto. apply HQ. left. split; [done|]. exists nb. split_and!; [done| |by right].
      intros b Hb. cbn [node_at x_blk store_block]. by rewrite lookup_total_insert_ne. }
  wp_step. case_match; repeat wp_step; apply Hbody; eapply Ha; eauto.
Qed.

(** [ext4_ext_grow_indepth] moves the root into a new block and puts one
    index above it without losing or moving anything: the tree maps every logical
    block as before, on success (where it is one level deeper and the new block's
    checksum verifies) and on every failure; the buffer taken is released. *)
Theorem grow_indepth_preserves_map flags w :
  let t := w_st w in
  node_wf (x_root t) -> (0 < length (n_idx (x_root t)))%nat ->
  0 <= ext_depth t < 65535 -> alloc_fresh t -> no_buffer_locked (w_held w) ->
  exists err w', ext4_ext_grow_indepth flags w = Ret err w' /\
    w_held w' = w_held w /\
    (forall block, tree_map (w_st w') block = tree_map t block) /\
    (err = 0 -> ext_depth (w_st w') = ext_depth t + 1 /\
       exists nb, 0 <= nb < 2 ^ 48 /\ descend (w_st w') 1 InRoot 0 = InBlk nb /\
         ext4_extent_block_csum_verify (x_blk (w_st w') !!! nb) = true).
Proof.
  intros t Hwf Hlen Hd Ha Hl. apply wp_run. apply wp_grow; [done|done|].
  intros err t' calls [(He & nb & Hr & Hag & Hcase)|(nb & v & -> & Hnb & Hf)];
    cbn [w_held w_st].
  - split_and!; [done| |done]. intros block. destruct Hcase as [->|Hf]; [done|].
    by eapply tree_map_off.
  - split_and!; [done|intros; by apply tree_map_grown|]. intros _. split.
    + unfold ext_depth, grown, grown_root. cbn [x_root eh_depth]. apply u16_small.
      unfold ext_depth in Hd. fold t. lia.
    + exists nb. split_and!; [lia|lia|by rewrite grown_root_step|].
      unfold grown. cbn [x_blk]. rewrite lookup_total_insert_eq.
      unfold ext4_extent_block_csum_set, ext4_extent_block_csum_verify.
      destruct has_csum; cbn [negb]; [apply Z.eqb_refl|done].
Qed.
End Grow.

(** ** Splitting an extent inside a leaf with room *)

(** The journal grants every access and accepts every buffer. *)
Definition journal_ok `{Env} : Prop :=
  forall h a, env_int h "ext4_journal_get_write_access" a = 0 /\
    env_int h "ext4_handle_dirty_metadata" a = 0 /\
    env_int h "ext4_mark_inode_dirty" a = 0.

(** The blocks that the calls of a history freed, newest call first. *)
Definition free_call (c : call) : list Z :=
  if String.eqb c.1 "ext4_free_blocks" then
    match c.2 with [pblk; count; _] => seqZ pblk count | _ => [] end
  else [].
Definition freed (h : list call) : list Z := h ≫= free_call.

(** How often the journal was asked for credits. *)
Definition credit_call (c : call) : bool := String.eqb c.1 "ext4_journal_ensure_credits_fn".
Definition credit_calls (h : list call) : nat := length (filter (fun c => credit_call c = true) h).

(** The history [h'] goes on from [h] without freeing a block. *)
Definition quiet (h h' : list call) : Prop :=
  freed h' = freed h /\ (credit_calls h <= credit_calls h')%nat /\ h `suffix_of` h'.

#[export] Instance quiet_preorder : PreOrder quiet.
Proof.
  split; unfold quiet; [by split|]. intros h1 h2 h3 (E1 & L1 & S1) (E2 & L2 & S2).
  split_and!; [congruence|lia|by etrans].
Qed.
Lemma quiet_cons c h : free_call c = [] -> quiet h (c :: h).
Proof.
  intros Hc. unfold quiet, freed, credit_calls. cbn [mbind list_bind]. rewrite Hc.
  split_and!; [done| |by apply suffix_cons_r].
  rewrite filter_cons. case_decide; simpl; lia.
Qed.
Ltac quiet_done := repeat first [reflexivity|apply quiet_cons; reflexivity|etrans; [|apply quiet_cons; reflexivity]].

(** Trees with the same nodes (checksums and verified bits may differ). *)
Definition same_nodes (t t' : xtree) : Prop := forall l, node_at t' l = node_at t l.

#[export] Instance same_nodes_equiv : Equivalence same_nodes.
Proof.
  split; unfold same_nodes; [by intros ? ?|by intros ? ? H l; rewrite H|].
  intros ? ? ? H1 H2 l. by rewrite H2, H1.
Qed.

Lemma same_nodes_depth t t' : same_nodes t t' -> ext_depth t' = ext_depth t.
Proof. intros Hs. unfold ext_depth. by rewrite (Hs InRoot : x_root t' = x_root t). Qed.

Lemma node_at_set_node l nd t : node_at (set_node l nd t) l = nd.
Proof. destruct l; simpl; [done|]. by rewrite lookup_total_insert_eq. Qed.

Lemma node_at_set_node_ne l l' nd t : l <> l' -> node_at (set_node l nd t) l' = node_at t l'.
Proof.
  destruct l as [|b], l' as [|b']; simpl; try done.
  intros Hne. by rewrite lookup_total_insert_ne by congruence.
Qed.

#[export] Instance nloc_eq_dec : EqDecision nloc.
Proof. solve_decision. Defined.

Lemma same_nodes_set_node l nd t t' :
  same_nodes t t' -> same_nodes (set_node l nd t) (set_node l nd t').
Proof.
  intros Ht l'. destruct (decide (l = l')) as [->|Hne]; [by rewrite !node_at_set_node|].
  by rewrite !node_at_set_node_ne by done.
Qed.

(** A second store to the same node hides the first. *)
Lemma same_nodes_overwrite l nd nd' t t' :
  same_nodes (set_node l nd t) t' -> same_nodes (set_node l nd' t) (set_node l nd' t').
Proof.
  intros Ht l'. destruct (decide (l = l')) as [->|Hne]; [by rewrite !node_at_set_node|].
  rewrite !node_at_set_node_ne by done. by rewrite Ht, node_at_set_node_ne.
Qed.

Lemma ext_depth_set_node l nd t :
  eh_depth nd = eh_depth (node_at t l) -> ext_depth (set_node l nd t) = ext_depth t.
Proof. by destruct l. Qed.

Section Split.
Context `{ExtFmtOk} `{Env} `{TreeEnv}.

Lemma wp_get_access e (Q : Z -> world xtree -> Prop) w :
  journal_ok ->
  (forall t' calls, same_nodes (w_st w) t' -> quiet (w_calls w) calls ->
     Q 0 (World t' (w_held w) calls)) ->
  wp (ext4_ext_get_access e) Q w.
Proof.
  intros Hj HQ. unfold ext4_ext_get_access. destruct (p_bh e) as [b|].
  - wp_step. wp_step. rewrite (proj1 (Hj _ _)) in Hc. subst z. cbn [Z.eqb].
    repeat wp_step. apply HQ; [done|quiet_done].
  - apply wp_ret. destruct w. by apply HQ.
Qed.

Lemma wp_dirty e (Q : Z -> world xtree -> Prop) w :
  journal_ok ->
  (forall t' calls, same_nodes (w_st w) t' -> quiet (w_calls w) calls ->
     Q 0 (World t' (w_held w) calls)) ->
  wp (ext4_ext_dirty e) Q w.
Proof.
  intros Hj HQ. unfold ext4_ext_dirty. destruct (p_bh e) as [b|].
  - wp_step. wp_step. wp_step. wp_step. rewrite (proj1 (proj2 (Hj _ _))) in Hc. subst z.
    cbn [Z.eqb]. repeat wp_step. apply HQ; [|quiet_done]. intros [|b']; [done|]. cbn [node_at x_blk].
    destruct (decide (b = b')) as [->|]; [|by rewrite lookup_total_insert_ne].
    rewrite lookup_total_insert_eq. unfold ext4_extent_block_csum_set. by case_match.
  - wp_step. rewrite (proj2 (proj2 (Hj _ _))) in Hc. subst z. apply HQ; [done|quiet_done].
Qed.

Lemma insert_slot_depth nd near newext i nd' :
  insert_slot nd near newext = Some (i, nd') -> eh_depth nd' = eh_depth nd.
Proof. unfold insert_slot. intros Hi. repeat case_match; naive_solver. Qed.

(** Insertion into a leaf with room when merging is off and the new extent is
    not the first of the leaf. *)
Lemma wp_insert_room p newext flags i nd' (Q : Z * ppath -> world xtree -> Prop) w :
  let t := w_st w in
  let e := pnth p (ext_depth t) in
  let nd := node_at t (p_hdr e) in
  journal_ok -> ext4_ext_get_actual_len newext <> 0 ->
  has_flag flags EXT4_GET_BLOCKS_PRE_IO = true ->
  0 <= ext_depth t < Z.of_nat (length p) -> eh_entries nd < eh_max nd ->
  insert_slot nd (p_ext e) newext = Some (i, nd') -> 0 < i ->
  (forall t' calls, same_nodes (set_node (p_hdr e) nd' t) t' -> quiet (w_calls w) calls ->
     Q (0, PSame (pset p (ext_depth t) (set_p_ext (Some i) e))) (World t' (w_held w) calls)) ->
  wp (ext4_ext_insert_extent p newext flags) Q w.
Proof.
  intros t e nd Hj Hlen Hpre Hd Hroom Hins Hi HQ. unfold ext4_ext_insert_extent.
  rewrite (proj2 (Z.eqb_neq _ _)) by done. wp_step. wp_step. fold t e nd.
  rewrite Hpre. replace (match p_ext e with Some _ => None | None => None end)
    with (@None (Z * ext4_extent)) by (by destruct (p_ext e)).
  rewrite (proj2 (Z.ltb_lt _ _) Hroom). wp_step. unfold insert_has_space.
  wp_step. wp_step. wp_step. fold t e. apply wp_get_access; [done|].
  intros t1 calls Ht1 Hf1. cbn [Z.eqb negb]. fold nd. rewrite Hins.
  wp_step. wp_step. cbn [w_st]. unfold insert_merge. rewrite Hpre.
  wp_step. wp_step. wp_step. unfold ext4_ext_correct_indexes. wp_step. wp_step.
  assert (Hdep : ext_depth (set_node (p_hdr e) nd' t1) = ext_depth t).
  { rewrite ext_depth_set_node; [by apply same_nodes_depth|].
    rewrite (insert_slot_depth _ _ _ _ _ Hins). by rewrite Ht1. }
  rewrite Hdep, pnth_pset_eq by done. cbn [set_p_ext p_ext].
  pose proof (same_nodes_set_node (p_hdr e) nd' t t1 Ht1) as Ht2.
  destruct (ext_depth t =? 0); [|rewrite (proj2 (Z.eqb_neq i 0)) by lia; cbn [negb]];
    wp_step; cbn [Z.eqb negb]; wp_step; (apply wp_dirty; [done|]);
    intros t3 calls3 Ht3 Hf3; repeat wp_step; (apply HQ; [by etrans|by etrans]).
Qed.

(** The two halves of [ex] at [split]. *)
Definition left_half (ex : ext4_extent) (split : Z) : ext4_extent :=
  let ex' := set_ee_len ex (split - ee_block ex) in
  if ext4_ext_is_unwritten ex then ext4_ext_mark_unwritten ex' else ex'.

Definition right_half (ex : ext4_extent) (split : Z) : ext4_extent :=
  let ex' := Ext split (u16 (ext4_ext_get_actual_len ex - (split - ee_block ex)))
               (pblock_store (ext4_ext_pblock ex + (split - ee_block ex))) in
  if ext4_ext_is_unwritten ex then ext4_ext_mark_unwritten ex' else ex'.

(** A length field after [set_ee_len] and, for an unwritten extent, the mark. *)
Lemma len_halved l n :
  0 < n <= len_actual l ->
  let l' := if len_is_unwritten l then len_mark_unwritten (u16 n) else u16 n in
  len_is_unwritten l' = len_is_unwritten l /\ len_actual l' = n.
Proof.
  intros Hn l'. destruct (fmt_range l) as [_ Hr]. destruct fmt_limits as [Hlim1 Hlim2].
  subst l'. destruct (len_is_unwritten l); rewrite u16_small by lia.
  - apply fmt_unwritten. lia.
  - apply fmt_init. lia.
Qed.

Lemma halves_spec ex split :
  ext_ok ex -> ee_block ex < split < ext_end ex ->
  ext4_ext_pblock ex + ext4_ext_get_actual_len ex <= 2 ^ 48 ->
  (ext_ok (left_half ex split) /\ ee_block (left_half ex split) = ee_block ex /\
   ext_end (left_half ex split) = split /\
   forall b, phys (left_half ex split) b = phys ex b) /\
  (ext_ok (right_half ex split) /\ ee_block (right_half ex split) = split /\
   ext_end (right_half ex split) = ext_end ex /\
   ext4_ext_pblock (right_half ex split) = ext4_ext_pblock ex + (split - ee_block ex) /\
   forall b, phys (right_half ex split) b = phys ex b).
Proof.
  intros (Hb & Hl & He) Hs Hp. unfold ext_end, ext4_ext_get_actual_len in *.
  pose proof (fmt_pblock_range (ee_start ex)) as Hpr.
  unfold ext4_ext_pblock in *.
  assert (Hst : pblock_of (pblock_store (pblock_of (ee_start ex) + (split - ee_block ex))) =
                pblock_of (ee_start ex) + (split - ee_block ex)) by (apply fmt_pblock; lia).
  assert (Hn : 0 < split - ee_block ex <= len_actual (ee_len ex) /\
    0 < len_actual (ee_len ex) - (split - ee_block ex) <= len_actual (ee_len ex)) by lia.
  destruct Hn as [H1'%len_halved H2'%len_halved].
  unfold left_half, right_half, ext_ok, ext_end, phys, ext4_ext_is_unwritten,
    ext4_ext_get_actual_len, ext4_ext_pblock, set_ee_len, ext4_ext_mark_unwritten in *.
  destruct (len_is_unwritten (ee_len ex)) eqn:Hu; cbn [ee_block ee_len ee_start] in *;
    destruct H1' as [Hu1 Hl1], H2' as [Hu2 Hl2]; split; split_and!; try lia; intros b; f_equal; try congruence; lia.
Qed.

(** Replacing an extent by its halves keeps the leaf and its map. *)
Lemma leaf_ok_halves cur l1 ex l2 split :
  leaf_ok cur (l1 ++ ex :: l2) -> ee_block ex < split < ext_end ex ->
  ext4_ext_pblock ex + ext4_ext_get_actual_len ex <= 2 ^ 48 ->
  let l := (l1 ++ left_half ex split :: right_half ex split :: l2)%list in
  leaf_ok cur l /\ forall b, mapping l b = mapping (l1 ++ ex :: l2) b.
Proof.
  intros Hl Hs Hp l.
  assert (Hex : ext_ok ex) by (apply (leaf_ok_elem _ _ ex Hl), elem_of_app; right; apply list_elem_of_here).
  destruct (halves_spec ex split Hex Hs Hp)
    as ((Ho1 & Hb1 & He1 & Hm1) & (Ho2 & Hb2 & He2 & Hp2 & Hm2)).
  split.
  - clear -Hl Ho1 Hb1 He1 Ho2 Hb2 He2. revert cur Hl. subst l.
    induction l1 as [|x l1 IH]; intros cur.
    + intros (_ & Hc & Hl). simpl. split_and!; [done|lia|done|lia|by rewrite He2].
    + intros (Hx & Hc & Hl). split_and!; [done|done|by apply IH].
  - intros b. subst l. rewrite !mapping_app. cbn [mapping].
    destruct (mapping l1 b); [done|]. unfold covers. rewrite Hb1, He1, Hb2, He2, Hm1, Hm2.
    repeat case_match; reflect_bools; try done; lia.
Qed.

(** The leaf after a split at slot [x]. *)
Lemma split_leaf nd x split :
  let ex := slot nd x in
  let nd1 := set_slot x (left_half ex split) nd in
  node_wf nd -> leaf_ok 0 (entries nd) -> 0 <= x < eh_entries nd ->
  eh_entries nd < eh_max nd -> ee_block ex < split < ext_end ex ->
  ext4_ext_pblock ex + ext4_ext_get_actual_len ex <= 2 ^ 48 ->
  exists nd', insert_slot nd1 (Some x) (right_half ex split) = Some (x + 1, nd') /\
    entries nd' = (take (Z.to_nat x) (entries nd) ++
      left_half ex split :: right_half ex split :: drop (Z.to_nat (x + 1)) (entries nd))%list /\
    node_wf nd' /\ eh_entries nd' = eh_entries nd + 1 /\ eh_max nd' = eh_max nd.
Proof.
  intros ex nd1 Hwf Hl Hx Hroom Hs Hp.
  destruct (slot_ok nd 0 x Hwf Hl Hx) as [Hex _]. fold ex in Hex.
  destruct (halves_spec ex split Hex Hs Hp)
    as ((Ho1 & Hb1 & He1 & Hm1) & (Ho2 & Hb2 & He2 & Hp2 & Hm2)).
  assert (Hlen : (Z.to_nat x < length (entries nd))%nat) by (pose proof (length_entries nd Hwf); lia).
  assert (Hslots : (Z.to_nat x < length (n_ext nd))%nat) by (destruct Hwf as (? & ? & ?); lia).
  assert (He : entries nd1 = (take (Z.to_nat x) (entries nd) ++ left_half ex split ::
                             drop (Z.to_nat (x + 1)) (entries nd))%list).
  { unfold entries, nd1, set_slot, set_ext. cbn [n_ext eh_entries].
    rewrite take_insert_lt by lia. fold (entries nd).
    rewrite insert_take_drop by done. repeat f_equal. lia. }
  assert (Hslot : slot nd1 x = left_half ex split).
  { unfold slot, nd1, set_slot, set_ext. cbn [n_ext]. by apply list_lookup_total_insert_eq. }
  destruct (insert_slot_entries nd1 (x + 1) (Some x) (right_half ex split))
    as (nd' & Hi & He' & Hwf' & Hn' & Hm').
  { unfold node_wf, nd1, set_slot, set_ext in *. cbn [n_ext eh_entries eh_max] in *.
    by rewrite length_insert. }
  { done. }
  { cbn. lia. }
  { right. exists x. split; [done|]. left. rewrite Hslot, Hb1, Hb2. split; lia. }
  exists nd'. split_and!; [done| |apply Hwf'..|done|done]. rewrite He', He.
  assert (Hr : Ext (ee_block (right_half ex split)) (ee_len (right_half ex split))
            (pblock_store (ext4_ext_pblock (right_half ex split))) = right_half ex split).
  { rewrite Hp2. unfold right_half. by destruct (ext4_ext_is_unwritten ex). }
  assert (Htk : length (take (Z.to_nat x) (entries nd) ++ [left_half ex split]) = Z.to_nat (x + 1)).
  { rewrite length_app, length_take. simpl. lia. }
  rewrite Hr. clear -Htk. set (l := drop _ (entries nd)).
  replace (take (Z.to_nat x) (entries nd) ++ left_half ex split :: l)
    with ((take (Z.to_nat x) (entries nd) ++ [left_half ex split]) ++ l) by (by rewrite <- app_assoc).
  rewrite take_app_length', drop_app_length' by done. by rewrite <- app_assoc.
Qed.

(** Bits of the flag words. *)
Lemma pre_io_set (nofail : bool) :
  has_flag (let flags := Z.lor EXT4_EX_NOCACHE EXT4_GET_BLOCKS_PRE_IO in
            if nofail then Z.lor flags (Z.lor EXT4_GET_BLOCKS_METADATA_NOFAIL EXT4_EX_NOFAIL)
            else flags) EXT4_GET_BLOCKS_PRE_IO = true.
Proof. by destruct nofail. Qed.

(** Flags of a split that passes the checks and gives both halves the state of the whole. *)
Definition keeps_state (sf : Z) (unwritten : bool) : Prop :=
  (Z.land sf (Z.lor EXT4_EXT_DATA_VALID1 EXT4_EXT_DATA_VALID2)
     =? Z.lor EXT4_EXT_DATA_VALID1 EXT4_EXT_DATA_VALID2) = false /\
  negb unwritten &&
    has_flag sf (Z.lor EXT4_EXT_MAY_ZEROOUT (Z.lor EXT4_EXT_MARK_UNWRIT1 EXT4_EXT_MARK_UNWRIT2))
    = false /\
  has_flag sf EXT4_EXT_MARK_UNWRIT1 = unwritten /\
  has_flag sf EXT4_EXT_MARK_UNWRIT2 = unwritten.

Lemma split_flags ex :
  keeps_state (if ext4_ext_is_unwritten ex
               then Z.lor EXT4_EXT_MARK_UNWRIT1 EXT4_EXT_MARK_UNWRIT2 else 0) (ext4_ext_is_unwritten ex).
Proof. by destruct (ext4_ext_is_unwritten ex). Qed.

(** The split proper, at an entry with room for its second half. *)
Lemma wp_split_room p x split sf flags nd' (Q : Z * ppath -> world xtree -> Prop) w :
  let t := w_st w in
  let e := pnth p (ext_depth t) in
  let nd := node_at t (p_hdr e) in
  let ex := slot nd x in
  journal_ok -> has_flag flags EXT4_GET_BLOCKS_PRE_IO = true -> keeps_state sf (ext4_ext_is_unwritten ex) ->
  0 <= ext_depth t < Z.of_nat (length p) -> p_ext e = Some x ->
  ext_ok ex -> 0 <= x -> eh_entries nd < eh_max nd -> ee_block ex < split < ext_end ex ->
  ext4_ext_pblock ex + ext4_ext_get_actual_len ex <= 2 ^ 48 ->
  insert_slot (set_slot x (left_half ex split) nd) (Some x) (right_half ex split)
    = Some (x + 1, nd') ->
  (forall t' calls, same_nodes (set_node (p_hdr e) nd' t) t' -> quiet (w_calls w) calls ->
     Q (0, PSame (pset p (ext_depth t) (set_p_ext (Some (x + 1)) e))) (World t' (w_held w) calls)) ->
  wp (ext4_split_extent_at p split sf flags) Q w.
Proof.
  intros t e nd ex Hj Hpre (Hf1 & Hf2 & Hf3 & Hf4) Hd Hx (Hb0 & Hl0 & He0) Hx0 Hroom Hs Hp Hins HQ.
  pose proof (fmt_pblock_range (ee_start ex)) as Hpr. fold (ext4_ext_pblock ex) in Hpr.
  unfold ext4_split_extent_at.
  rewrite Hf1.
  wp_step. wp_step. fold t e. rewrite Hx. fold nd ex.
  unfold ext_end in *. rewrite !u32_small by lia.
  rewrite (proj2 (Z.ltb_ge _ _)), (proj2 (Z.leb_gt _ _)) by lia. cbn [orb].
  rewrite Hf2. wp_step. apply wp_get_access; [done|]. intros t1 calls1 Ht1 Hfr1. cbn [Z.eqb negb].
  rewrite (proj2 (Z.eqb_neq split (ee_block ex))) by lia.
  wp_step. unfold mod_leaf at 1. wp_step. cbn [w_st w_held w_calls].
  rewrite (Ht1 (p_hdr e)). fold t nd ex.
  rewrite Hf3. fold (left_half ex split).
  wp_step. apply wp_dirty; [done|]. intros t2 calls2 Ht2 Hfr2. cbn [Z.eqb negb].
  rewrite Hf4, u64_small by lia. rewrite (Z.add_comm (split - _) (ext4_ext_pblock _)).
  fold (right_half ex split).
  cbn [w_st w_held] in *. wp_step.
  assert (Ht2' : same_nodes (set_node (p_hdr e) (set_slot x (left_half ex split) nd) t) t2).
  { etrans; [apply same_nodes_set_node, Ht1|exact Ht2]. }
  assert (Hdep : ext_depth t2 = ext_depth t).
  { rewrite (same_nodes_depth _ _ Ht2'). by apply ext_depth_set_node. }
  eapply (wp_insert_room p _ _ (x + 1) nd'); cbn [w_st w_held]; rewrite ?Hdep; fold e;
    rewrite ?(Ht2' (p_hdr e)), ?node_at_set_node, ?Hx; auto; try lia.
  { destruct (halves_spec ex split) as [_ ((_ & Hlen & _) & _)]; unfold ext_ok, ext_end in *;
      try done; lia. }
  intros t' calls Ht' Hfr'. cbn [w_calls] in *. apply wp_ret, HQ; [|etrans; [exact Hfr1|etrans; [exact Hfr2|exact Hfr']]].
  etrans; [|exact Ht']. by eapply same_nodes_overwrite.
Qed.

(** The leaf after the split is valid and maps the same. *)
Lemma leaf_split_map nd x split :
  let ex := slot nd x in
  node_wf nd -> leaf_ok 0 (entries nd) -> 0 <= x < eh_entries nd ->
  ee_block ex < split < ext_end ex ->
  ext4_ext_pblock ex + ext4_ext_get_actual_len ex <= 2 ^ 48 ->
  let l := (take (Z.to_nat x) (entries nd) ++
      left_half ex split :: right_half ex split :: drop (Z.to_nat (x + 1)) (entries nd))%list in
  leaf_ok 0 l /\ forall b, mapping l b = mapping (entries nd) b.
Proof.
  intros ex Hwf Hl Hxr Hs Hp l.
  pose proof (entries_split nd x Hwf Hxr) as Hsp. fold ex in Hsp.
  replace (S (Z.to_nat x)) with (Z.to_nat (x + 1)) in Hsp by lia.
  destruct (leaf_ok_halves 0 (take (Z.to_nat x) (entries nd)) ex
              (drop (Z.to_nat (x + 1)) (entries nd)) split) as [Hlo Hmap]; [by rewrite <- Hsp|done..|].
  split; [done|]. intros b. unfold l. by rewrite Hmap, <- Hsp.
Qed.

Lemma wp_force_split p x split nofail nd' (Q : Z * ppath -> world xtree -> Prop) w :
  let t := w_st w in
  let e := pnth p (ext_depth t) in
  let nd := node_at t (p_hdr e) in
  let ex := slot nd x in
  journal_ok -> p_depth (pnth p 0) = ext_depth t -> 0 <= ext_depth t < Z.of_nat (length p) ->
  p_ext e = Some x -> ext_ok ex -> 0 <= x -> eh_entries nd < eh_max nd ->
  ee_block ex < split < ext_end ex ->
  ext4_ext_pblock ex + ext4_ext_get_actual_len ex <= 2 ^ 48 ->
  insert_slot (set_slot x (left_half ex split) nd) (Some x) (right_half ex split)
    = Some (x + 1, nd') ->
  (forall t' calls, same_nodes (set_node (p_hdr e) nd' t) t' -> quiet (w_calls w) calls ->
     Q (0, PSame (pset p (ext_depth t) (set_p_ext (Some (x + 1)) e))) (World t' (w_held w) calls)) ->
  wp (ext4_force_split_extent_at p split nofail) Q w.
Proof.
  intros t e nd ex Hj Hpd Hd Hx Hok Hx0 Hroom Hs Hp Hins HQ.
  unfold ext4_force_split_extent_at. wp_step. wp_step. rewrite Hpd. fold t e. rewrite Hx.
  fold nd ex. by apply wp_split_room with (x := x) (nd' := nd'); eauto using pre_io_set, split_flags.
Qed.

(** [ext4_force_split_extent_at] on a leaf with a free slot cuts the extent in
    two at [split] and changes nothing else: every logical block stays mapped to
    the same physical block in the same written or unwritten state, the leaf stays
    sorted and disjoint, no other node of the tree changes, no block is freed, and the
    caller's path array is still valid. *)
Theorem force_split_preserves_map p x split nofail w :
  let t := w_st w in
  let e := pnth p (ext_depth t) in
  let nd := node_at t (p_hdr e) in
  let ex := slot nd x in
  journal_ok -> p_depth (pnth p 0) = ext_depth t -> 0 <= ext_depth t < Z.of_nat (length p) ->
  p_ext e = Some x -> node_wf nd -> leaf_ok 0 (entries nd) -> 0 <= x < eh_entries nd ->
  eh_entries nd < eh_max nd -> ee_block ex < split < ext_end ex ->
  ext4_ext_pblock ex + ext4_ext_get_actual_len ex <= 2 ^ 48 ->
  exists p' w', ext4_force_split_extent_at p split nofail w = Ret (0, PSame p') w' /\
    w_held w' = w_held w /\ quiet (w_calls w) (w_calls w') /\
    let nd' := node_at (w_st w') (p_hdr e) in
    entries nd' = (take (Z.to_nat x) (entries nd) ++
      left_half ex split :: right_half ex split :: drop (Z.to_nat (x + 1)) (entries nd))%list /\
    leaf_ok 0 (entries nd') /\
    (forall b, mapping (entries nd') b = mapping (entries nd) b) /\
    (forall l, l <> p_hdr e -> node_at (w_st w') l = node_at t l).
Proof.
  intros t e nd ex Hj Hpd Hd Hx Hwf Hl Hxr Hroom Hs Hp.
  destruct (split_leaf nd x split Hwf Hl Hxr Hroom Hs Hp) as (nd' & Hins & Hent & _).
  destruct (slot_ok nd 0 x Hwf Hl Hxr) as [(Hb0 & Hl0 & He0) _]. fold ex in Hb0, Hl0, He0.
  destruct (leaf_split_map nd x split Hwf Hl Hxr Hs Hp) as [Hlo Hmap].
  destruct (wp_run (ext4_force_split_extent_at p split nofail)
    (fun r w' => (exists p', r = (0, PSame p')) /\ w_held w' = w_held w /\
       quiet (w_calls w) (w_calls w') /\
       same_nodes (set_node (p_hdr e) nd' t) (w_st w')) w) as (r & w' & Hr & (p' & ->) & Hh & Hf & Hn).
  { apply wp_force_split with (x := x) (nd' := nd'); try done; try lia.
    intros t' calls Ht' Hf. split_and!; [by eexists|done|done|done]. }
  exists p', w'. split_and!; [done|done|done|]. cbv zeta.
  rewrite (Hn (p_hdr e)), node_at_set_node, Hent.
  split_and!; [done|done|done|]. intros l Hne. by rewrite Hn, node_at_set_node_ne by done.
Qed.
End Split.
