(* ===== verification/Fs.v ===== *)
(** * The file system state the eVFS handlers work on

    One record for what evfs.c, namei.c and extents.c share: the super block
    information and buffer, the group descriptors and bitmaps by group, the
    per-cpu counters, the inode tracker and the in-memory inodes with their extent
    trees and directory blocks.

    Outside the repository are balloc.c and bitmap.c (class [Balloc], laws
    [BallocOk]), and the functions that read bitmaps and inodes or start
    transactions (answers of [Env], laws [EnvFs]). *)

From stdpp Require Import prelude list gmap strings.
From Stdlib Require Import ZArith Lia.
From S2P Require Import Prelude Kernel Bytes Bmt Layout ExtentNode ExtentTree.

Local Open Scope string_scope.
Local Open Scope Z_scope.

(** ** Inodes *)

(** A time stamp, [struct timespec64]. *)
Record timespec := Ts { tv_sec : Z; tv_nsec : Z }.

(** [struct inode] with the fields of [struct ext4_inode_info] the code uses. *)
Record inode := Inode {
  i_mode : Z;
  i_nlink : Z;
  i_uid : Z;
  i_gid : Z;
  i_rdev : Z;
  i_version : Z;
  i_size : Z;
  i_blocks : Z;
  i_atime : timespec;
  i_mtime : timespec;
  i_ctime : timespec;
  i_generation : Z;
  i_noquota : bool;            (* S_NOQUOTA of i_flags *)
  i_crtime : timespec;
  i_disksize : Z;
  i_flags : Z;                 (* ei->i_flags *)
  i_file_acl : Z;
  i_dtime : Z;
  i_block_group : Z;
  i_last_alloc_group : Z;
  i_dir_start_lookup : Z;
  i_csum_seed : Z;
  i_tree : xtree;              (* i_data and the extent blocks below it *)
  i_dir : list (list Z)        (* directory: the bytes of its logical blocks *)
}.

Definition zero_ts : timespec := Ts 0 0.
Definition zero_tree : xtree := XTree zero_node ∅ ∅.
Definition zero_inode : inode :=
  Inode 0 0 0 0 0 0 0 0 zero_ts zero_ts zero_ts 0 false zero_ts 0 0 0 0 0 0 0 0 zero_tree [].
#[export] Instance inode_inhabited : Inhabited inode := populate zero_inode.

Definition set_nlink (n : Z) (i : inode) : inode :=
  Inode (i_mode i) n (i_uid i) (i_gid i) (i_rdev i) (i_version i) (i_size i) (i_blocks i)
    (i_atime i) (i_mtime i) (i_ctime i) (i_generation i) (i_noquota i) (i_crtime i)
    (i_disksize i) (i_flags i) (i_file_acl i) (i_dtime i) (i_block_group i)
    (i_last_alloc_group i) (i_dir_start_lookup i) (i_csum_seed i) (i_tree i) (i_dir i).
Definition set_version (v : Z) (i : inode) : inode :=
  Inode (i_mode i) (i_nlink i) (i_uid i) (i_gid i) (i_rdev i) v (i_size i) (i_blocks i)
    (i_atime i) (i_mtime i) (i_ctime i) (i_generation i) (i_noquota i) (i_crtime i)
    (i_disksize i) (i_flags i) (i_file_acl i) (i_dtime i) (i_block_group i)
    (i_last_alloc_group i) (i_dir_start_lookup i) (i_csum_seed i) (i_tree i) (i_dir i).
Definition set_times (m c : timespec) (i : inode) : inode :=
  Inode (i_mode i) (i_nlink i) (i_uid i) (i_gid i) (i_rdev i) (i_version i) (i_size i)
    (i_blocks i) (i_atime i) m c (i_generation i) (i_noquota i) (i_crtime i)
    (i_disksize i) (i_flags i) (i_file_acl i) (i_dtime i) (i_block_group i)
    (i_last_alloc_group i) (i_dir_start_lookup i) (i_csum_seed i) (i_tree i) (i_dir i).
Definition set_size (n : Z) (i : inode) : inode :=
  Inode (i_mode i) (i_nlink i) (i_uid i) (i_gid i) (i_rdev i) (i_version i) n
    (i_blocks i) (i_atime i) (i_mtime i) (i_ctime i) (i_generation i) (i_noquota i) (i_crtime i)
    n (i_flags i) (i_file_acl i) (i_dtime i) (i_block_group i)
    (i_last_alloc_group i) (i_dir_start_lookup i) (i_csum_seed i) (i_tree i) (i_dir i).
Definition set_iflags (f : Z) (i : inode) : inode :=
  Inode (i_mode i) (i_nlink i) (i_uid i) (i_gid i) (i_rdev i) (i_version i) (i_size i)
    (i_blocks i) (i_atime i) (i_mtime i) (i_ctime i) (i_generation i) (i_noquota i) (i_crtime i)
    (i_disksize i) f (i_file_acl i) (i_dtime i) (i_block_group i)
    (i_last_alloc_group i) (i_dir_start_lookup i) (i_csum_seed i) (i_tree i) (i_dir i).
Definition set_start_lookup (b : Z) (i : inode) : inode :=
  Inode (i_mode i) (i_nlink i) (i_uid i) (i_gid i) (i_rdev i) (i_version i) (i_size i)
    (i_blocks i) (i_atime i) (i_mtime i) (i_ctime i) (i_generation i) (i_noquota i) (i_crtime i)
    (i_disksize i) (i_flags i) (i_file_acl i) (i_dtime i) (i_block_group i)
    (i_last_alloc_group i) b (i_csum_seed i) (i_tree i) (i_dir i).
Definition set_seed (g s : Z) (i : inode) : inode :=
  Inode (i_mode i) (i_nlink i) (i_uid i) (i_gid i) (i_rdev i) (i_version i) (i_size i)
    (i_blocks i) (i_atime i) (i_mtime i) (i_ctime i) g (i_noquota i) (i_crtime i)
    (i_disksize i) (i_flags i) (i_file_acl i) (i_dtime i) (i_block_group i)
    (i_last_alloc_group i) (i_dir_start_lookup i) s (i_tree i) (i_dir i).
Definition set_tree (t : xtree) (i : inode) : inode :=
  Inode (i_mode i) (i_nlink i) (i_uid i) (i_gid i) (i_rdev i) (i_version i) (i_size i)
    (i_blocks i) (i_atime i) (i_mtime i) (i_ctime i) (i_generation i) (i_noquota i) (i_crtime i)
    (i_disksize i) (i_flags i) (i_file_acl i) (i_dtime i) (i_block_group i)
    (i_last_alloc_group i) (i_dir_start_lookup i) (i_csum_seed i) t (i_dir i).
Definition set_dir (d : list (list Z)) (i : inode) : inode :=
  Inode (i_mode i) (i_nlink i) (i_uid i) (i_gid i) (i_rdev i) (i_version i) (i_size i)
    (i_blocks i) (i_atime i) (i_mtime i) (i_ctime i) (i_generation i) (i_noquota i) (i_crtime i)
    (i_disksize i) (i_flags i) (i_file_acl i) (i_dtime i) (i_block_group i)
    (i_last_alloc_group i) (i_dir_start_lookup i) (i_csum_seed i) (i_tree i) d.

Definition set_noquota (i : inode) : inode :=
  Inode (i_mode i) (i_nlink i) (i_uid i) (i_gid i) (i_rdev i) (i_version i) (i_size i)
    (i_blocks i) (i_atime i) (i_mtime i) (i_ctime i) (i_generation i) true (i_crtime i)
    (i_disksize i) (i_flags i) (i_file_acl i) (i_dtime i) (i_block_group i)
    (i_last_alloc_group i) (i_dir_start_lookup i) (i_csum_seed i) (i_tree i) (i_dir i).

(** File types of a mode. *)
Definition S_IFMT : Z := 0xF000.
Definition S_IFREG : Z := 0x8000.
Definition S_IFDIR : Z := 0x4000.
Definition S_IFBLK : Z := 0x6000.
Definition S_IFCHR : Z := 0x2000.
Definition S_ISDIR (m : Z) : bool := Z.land m S_IFMT =? S_IFDIR.
Definition S_ISBLK (m : Z) : bool := Z.land m S_IFMT =? S_IFBLK.
Definition S_ISCHR (m : Z) : bool := Z.land m S_IFMT =? S_IFCHR.

(** ** The state *)

Record fs := Fs {
  f_sbi : ext4_sb_info;
  f_es : list Z;                  (* sbi->s_es *)
  f_gd : gmap Z (list Z);         (* group descriptors *)
  f_bbm : gmap Z Z;               (* block bitmaps: bit [i] of the mask is bit [i] *)
  f_ibm : gmap Z Z;               (* inode bitmaps *)
  f_freeclusters : Z;             (* s_freeclusters_counter *)
  f_freeinodes : Z;               (* s_freeinodes_counter *)
  f_tracker : option evfs_bm_tracker;   (* s_inode_tracker *)
  f_inodes : gmap Z inode         (* inodes by number *)
}.

Definition set_es (x : list Z) (s : fs) : fs :=
  Fs (f_sbi s) x (f_gd s) (f_bbm s) (f_ibm s) (f_freeclusters s) (f_freeinodes s)
    (f_tracker s) (f_inodes s).
Definition set_gd (g : Z) (x : list Z) (s : fs) : fs :=
  Fs (f_sbi s) (f_es s) (<[g := x]> (f_gd s)) (f_bbm s) (f_ibm s) (f_freeclusters s)
    (f_freeinodes s) (f_tracker s) (f_inodes s).
Definition set_bbm (g x : Z) (s : fs) : fs :=
  Fs (f_sbi s) (f_es s) (f_gd s) (<[g := x]> (f_bbm s)) (f_ibm s) (f_freeclusters s)
    (f_freeinodes s) (f_tracker s) (f_inodes s).
Definition set_ibm (g x : Z) (s : fs) : fs :=
  Fs (f_sbi s) (f_es s) (f_gd s) (f_bbm s) (<[g := x]> (f_ibm s)) (f_freeclusters s)
    (f_freeinodes s) (f_tracker s) (f_inodes s).
Definition set_freeclusters (x : Z) (s : fs) : fs :=
  Fs (f_sbi s) (f_es s) (f_gd s) (f_bbm s) (f_ibm s) x (f_freeinodes s) (f_tracker s) (f_inodes s).
Definition set_freeinodes (x : Z) (s : fs) : fs :=
  Fs (f_sbi s) (f_es s) (f_gd s) (f_bbm s) (f_ibm s) (f_freeclusters s) x (f_tracker s) (f_inodes s).
Definition set_tracker (x : option evfs_bm_tracker) (s : fs) : fs :=
  Fs (f_sbi s) (f_es s) (f_gd s) (f_bbm s) (f_ibm s) (f_freeclusters s) (f_freeinodes s) x (f_inodes s).
Definition set_inode (n : Z) (i : inode) (s : fs) : fs :=
  Fs (f_sbi s) (f_es s) (f_gd s) (f_bbm s) (f_ibm s) (f_freeclusters s) (f_freeinodes s)
    (f_tracker s) (<[n := i]> (f_inodes s)).

Definition gd_of (s : fs) (g : Z) : list Z := f_gd s !!! g.
Definition bbm_of (s : fs) (g : Z) : Z := default 0 (f_bbm s !! g).
Definition ibm_of (s : fs) (g : Z) : Z := default 0 (f_ibm s !! g).
Definition inode_of (s : fs) (n : Z) : inode := f_inodes s !!! n.
Definition upd_inode (n : Z) (f : inode -> inode) (s : fs) : fs := set_inode n (f (inode_of s n)) s.

(** ** Code outside the repository *)

(** balloc.c and bitmap.c: pure functions of the super block, the descriptor and
    the bitmap. *)
Class Balloc := {
  (* ext4_get_group_no_and_offset *)
  group_no_and_offset : ext4_sb_info -> list Z -> Z -> Z * Z;
  (* ext4_free_clusters_after_init *)
  free_clusters_after_init : ext4_sb_info -> list Z -> Z -> list Z -> Z;
  (* ext4_block_bitmap_csum_set, ext4_inode_bitmap_csum_set: the new descriptor *)
  block_bitmap_csum_set : ext4_sb_info -> list Z -> list Z -> Z -> list Z;
  inode_bitmap_csum_set : ext4_sb_info -> list Z -> list Z -> Z -> list Z
}.

(** They write the bitmap checksum fields of the descriptor only; an offset is not
    negative. *)
Class BallocOk `{Balloc} := {
  bbm_csum_wf sbi es gd bm : gd_wf sbi gd -> gd_wf sbi (block_bitmap_csum_set sbi es gd bm);
  bbm_csum_read sbi es gd bm f :
    gd_read sbi f (block_bitmap_csum_set sbi es gd bm) = gd_read sbi f gd;
  bbm_csum_flags sbi es gd bm : gd_flags (block_bitmap_csum_set sbi es gd bm) = gd_flags gd;
  ibm_csum_wf sbi es gd bm : gd_wf sbi gd -> gd_wf sbi (inode_bitmap_csum_set sbi es gd bm);
  ibm_csum_read sbi es gd bm f :
    gd_read sbi f (inode_bitmap_csum_set sbi es gd bm) = gd_read sbi f gd;
  ibm_csum_flags sbi es gd bm : gd_flags (inode_bitmap_csum_set sbi es gd bm) = gd_flags gd;
  offset_nonneg sbi es b : 0 <= (group_no_and_offset sbi es b).2
}.

(** Functions that answer a valid pointer or an error pointer, never NULL. *)
Definition err_or_valid : list string :=
  ["ext4_read_block_bitmap"; "ext4_read_inode_bitmap"; "ext4_journal_start"; "ext4_iget";
   "d_alloc_anon"].

Class EnvFs `{Env} := {
  fs_errno h f a e : env_ptr h f a = PtrErr e -> -4095 <= e < 0;
  fs_nonnull h f a : f ∈ err_or_valid -> env_ptr h f a <> PtrNull
}.

(** ** Shared steps of the handlers *)

Section Steps.
Context `{Env}.

(** The bitmap buffer of a group, by the block the descriptor names. *)
Definition bbm_ref (s : fs) (g : Z) : res := Ref (RBh (ext4_block_bitmap (f_sbi s) (gd_of s g))).
Definition ibm_ref (s : fs) (g : Z) : res := Ref (RBh (ext4_inode_bitmap (f_sbi s) (gd_of s g))).

Definition ext4_read_block_bitmap (g : Z) : K fs reply :=
  bh <~ call_ptr "ext4_read_block_bitmap" [g];;
  s <~ kget;;
  (match bh with PtrOk => acquire (bbm_ref s g) | _ => kret tt end);;;
  kret bh.

Definition ext4_read_inode_bitmap (g : Z) : K fs reply :=
  bh <~ call_ptr "ext4_read_inode_bitmap" [g];;
  s <~ kget;;
  (match bh with PtrOk => acquire (ibm_ref s g) | _ => kret tt end);;;
  kret bh.

Definition ext4_journal_start (credits : Z) : K fs reply :=
  h <~ call_ptr "ext4_journal_start" [credits];;
  (match h with PtrOk => acquire (Ref RHandle) | _ => kret tt end);;;
  kret h.

Definition ext4_journal_stop : K fs Z :=
  release (Ref RHandle);;; call_int "ext4_journal_stop" [].

Definition ext4_iget (n : Z) : K fs reply :=
  i <~ call_ptr "ext4_iget" [n];;
  (match i with PtrOk => acquire (Ref (RInode n)) | _ => kret tt end);;;
  kret i.

Definition iput (n : Z) : K fs unit := release (Ref (RInode n)).

Definition inode_lock (n : Z) : K fs unit := acquire (Excl (LInode n)).
Definition inode_unlock (n : Z) : K fs unit := release (Excl (LInode n)).

(** [ext4_mark_inode_dirty] *)
Definition ext4_mark_inode_dirty (n : Z) : K fs Z := call_int "ext4_mark_inode_dirty" [n].
End Steps.

(** ** Rules for the shared steps

    Each call succeeds and takes its resource, or fails with an error and takes
    nothing. *)

Section Rules.
Context `{EnvFs}.

(** One answer of a function that never answers NULL. *)
Lemma err_or_valid_cases h f a (P : reply -> Prop) :
  f ∈ err_or_valid -> P PtrOk -> (forall e, -4095 <= e < 0 -> P (PtrErr e)) ->
  P (env_ptr h f a).
Proof.
  intros Hf Hok Herr. destruct (env_ptr h f a) as [|e|] eqn:Hr; [done| |].
  - apply Herr. by eapply fs_errno.
  - by eapply fs_nonnull in Hr.
Qed.

Lemma wp_read_block_bitmap g s held calls (Q : reply -> world fs -> Prop) :
  (forall calls, Q PtrOk (World s (bbm_ref s g :: held) calls)) ->
  (forall e calls, -4095 <= e < 0 -> Q (PtrErr e) (World s held calls)) ->
  wp (ext4_read_block_bitmap g) Q (World s held calls).
Proof.
  intros Hok Herr. unfold ext4_read_block_bitmap. wp_step. wp_step. subst r.
  apply err_or_valid_cases; [unfold err_or_valid; set_solver|..]; intros;
    unfold bbm_ref in *; wp_auto; auto.
Qed.

Lemma wp_read_inode_bitmap g s held calls (Q : reply -> world fs -> Prop) :
  (forall calls, Q PtrOk (World s (ibm_ref s g :: held) calls)) ->
  (forall e calls, -4095 <= e < 0 -> Q (PtrErr e) (World s held calls)) ->
  wp (ext4_read_inode_bitmap g) Q (World s held calls).
Proof.
  intros Hok Herr. unfold ext4_read_inode_bitmap. wp_step. wp_step. subst r.
  apply err_or_valid_cases; [unfold err_or_valid; set_solver|..]; intros;
    unfold ibm_ref in *; wp_auto; auto.
Qed.

Lemma wp_journal_start n s held calls (Q : reply -> world fs -> Prop) :
  (forall calls, Q PtrOk (World s (Ref RHandle :: held) calls)) ->
  (forall e calls, -4095 <= e < 0 -> Q (PtrErr e) (World s held calls)) ->
  wp (ext4_journal_start n) Q (World s held calls).
Proof.
  intros Hok Herr. unfold ext4_journal_start. wp_step. wp_step. subst r.
  apply err_or_valid_cases; [unfold err_or_valid; set_solver|..]; intros; wp_auto; auto.
Qed.

Lemma wp_journal_stop s held calls (Q : Z -> world fs -> Prop) :
  (forall err calls, Q err (World s held calls)) ->
  wp ext4_journal_stop Q (World s (Ref RHandle :: held) calls).
Proof. intros HQ. unfold ext4_journal_stop. wp_auto. auto. Qed.

Lemma wp_iget n s held calls (Q : reply -> world fs -> Prop) :
  (forall calls, Q PtrOk (World s (Ref (RInode n) :: held) calls)) ->
  (forall e calls, -4095 <= e < 0 -> Q (PtrErr e) (World s held calls)) ->
  wp (ext4_iget n) Q (World s held calls).
Proof.
  intros Hok Herr. unfold ext4_iget. wp_step. wp_step. subst r.
  apply err_or_valid_cases; [unfold err_or_valid; set_solver|..]; intros; wp_auto; auto.
Qed.
End Rules.
