(* ===== verification/Block.v ===== *)
(** * Block operations of eVFS (fs/ext4/evfs.c)

    [evfs_block_alloc] and [evfs_block_free] flip one bit of a group's block
    bitmap inside a transaction and keep the group, super block and per-cpu free
    counters and the checksums in step; [evfs_fspace_iter] scans for the next run
    of free blocks.

    The abstract view of a group is the set of its allocated clusters (the bits of
    the bitmap) with the number of free ones; the invariant [group_ok] ties the
    counter of the descriptor to it. *)

From stdpp Require Import prelude list gmap strings.
From Stdlib Require Import ZArith Lia.
From S2P Require Import Prelude Kernel Bytes Bmt Layout ExtentNode ExtentTree Fs.

Local Open Scope string_scope.
Local Open Scope Z_scope.

Section Block.
Context `{Env} `{Csum} `{Balloc}.

(** Both handlers end alike: the superblock counter, the two dirty buffers, and
    the labels [stop_journal] and [out]. *)
Definition block_out (group ret : Z) : K fs Z :=
  s <~ kget;; release (bbm_ref s group);;; kret ret.

Definition block_stop_journal (group ret : Z) : K fs Z :=
  err <~ ext4_journal_stop;;
  block_out group (if err <? 0 then err else ret).

Definition block_finish (group delta : Z) : K fs Z :=
  kmodify (fun s => set_freeclusters (f_freeclusters s + delta * EXT4_NUM_B2C (f_sbi s) 1) s);;;
  acquire (Excl LSbh);;;
  kmodify (fun s => set_es (ext4_superblock_csum_set (f_sbi s)
             (ext4_free_blocks_count_set (f_es s)
                (u64 (ext4_free_blocks_count (f_es s) + delta)))) s);;;
  release (Excl LSbh);;;
  err <~ call_int "ext4_handle_dirty_metadata" [0; group];;
  if err <? 0 then block_stop_journal group err else
  err <~ call_int "ext4_handle_dirty_metadata" [1; group];;
  if err <? 0 then block_stop_journal group err else
  block_stop_journal group 0.

(** The descriptor after one block of the group was allocated. *)
Definition alloc_gd (s : fs) (group bitmap : Z) : list Z :=
  let sbi := f_sbi s in
  let gd := gd_of s group in
  let gd := ext4_free_group_clusters_set sbi gd
              (EXT4_NUM_B2C sbi (u32 (EXT4_C2B sbi (ext4_free_group_clusters sbi gd) - 1))) in
  if ext4_has_group_desc_csum sbi (f_es s) then
    let gd :=
      if gd_has_flag gd EXT4_BG_BLOCK_UNINIT then
        let gd := gd_clear_flag gd EXT4_BG_BLOCK_UNINIT in
        ext4_free_group_clusters_set sbi gd (free_clusters_after_init sbi (f_es s) group gd)
      else gd in
    let gd := block_bitmap_csum_set sbi (f_es s) gd bitmap in
    ext4_group_desc_csum_set sbi (f_es s) group gd
  else gd.

(** The descriptor after one block of the group was freed. *)
Definition free_gd (s : fs) (group bitmap : Z) : list Z :=
  let sbi := f_sbi s in
  let gd := gd_of s group in
  let gd := ext4_free_group_clusters_set sbi gd
              (EXT4_NUM_B2C sbi (u32 (EXT4_C2B sbi (ext4_free_group_clusters sbi gd) + 1))) in
  if ext4_has_group_desc_csum sbi (f_es s) then
    let gd := block_bitmap_csum_set sbi (f_es s) gd bitmap in
    ext4_group_desc_csum_set sbi (f_es s) group gd
  else gd.

(** The common entry of the two handlers: bitmap, descriptor, transaction, write
    access to both buffers; then [body] runs with the handle open. *)
Definition block_enter (group : Z) (body : K fs Z) : K fs Z :=
  bh <~ ext4_read_block_bitmap group;;
  match bh with
  | PtrErr e => kret e
  | PtrNull => koops
  | PtrOk =>
      gd <~ call_ptr "ext4_get_group_desc" [group];;
      match gd with
      | PtrOk =>
          h <~ ext4_journal_start 2;;
          match h with
          | PtrErr e => block_out group e
          | PtrNull => koops
          | PtrOk =>
              err <~ call_int "ext4_journal_get_write_access" [1; group];;
              if err <? 0 then block_stop_journal group err else
              err <~ call_int "ext4_journal_get_write_access" [0; group];;
              if err <? 0 then block_stop_journal group err else
              body
          end
      | _ => block_out group (- EINVAL)
      end
  end.

(** [evfs_block_alloc] *)
Definition evfs_block_alloc (bindex : Z) : K fs Z :=
  s <~ kget;;
  let '(group, offset) := group_no_and_offset (f_sbi s) (f_es s) bindex in
  block_enter group (
    acquire (Excl (LGroup group));;;
    s <~ kget;;
    let '(old, bm) := test_and_set_bit offset (bbm_of s group) in
    kmodify (set_bbm group bm);;;
    if old : bool then
      release (Excl (LGroup group));;; block_stop_journal group (- EEXIST)
    else
      kmodify (fun s => set_gd group (alloc_gd s group bm) s);;;
      release (Excl (LGroup group));;;
      block_finish group (-1)).

(** [evfs_block_free] *)
Definition evfs_block_free (bindex : Z) : K fs Z :=
  s <~ kget;;
  let '(group, offset) := group_no_and_offset (f_sbi s) (f_es s) bindex in
  block_enter group (
    acquire (Excl (LGroup group));;;
    s <~ kget;;
    let '(old, bm) := test_and_clear_bit offset (bbm_of s group) in
    kmodify (set_bbm group bm);;;
    if negb old then
      release (Excl (LGroup group));;; block_stop_journal group (- EEXIST)
    else
      kmodify (fun s => set_gd group (free_gd s group bm) s);;;
      release (Excl (LGroup group));;;
      block_finish group 1).

(** The loop of [evfs_fspace_iter] from block [b], [n] blocks left: the start and
    the length found.  The C index has 64 bits: it cannot wrap when the block count is
    below 2^64 - 1, which the property of the scan assumes. *)
Fixpoint fspace_loop (n : nat) (b found_start found_length : Z) (in_free_extent : bool)
    : K fs (Z * Z) :=
  match n with
  | O => kret (found_start, found_length)
  | S n =>
      s <~ kget;;
      let '(group, offset) := group_no_and_offset (f_sbi s) (f_es s) b in
      bh <~ ext4_read_block_bitmap group;;
      match bh with
      | PtrOk =>
          let is_free := negb (Z.testbit (bbm_of s group) offset) in
          release (bbm_ref s group);;;
          if is_free then
            fspace_loop n (b + 1) (if negb in_free_extent then b else found_start)
              (found_length + 1) true
          else if in_free_extent then kret (found_start, found_length)
          else fspace_loop n (b + 1) found_start found_length in_free_extent
      | _ =>
          if in_free_extent then kret (found_start, found_length)
          else fspace_loop n (b + 1) found_start found_length in_free_extent
      end
  end.

(** [evfs_fspace_iter]: the block and the length stored in [args->out]. *)
Definition evfs_fspace_iter (start : Z) : K fs (Z * Z) :=
  s <~ kget;;
  let total_blocks := ext4_blocks_count (f_es s) in
  fspace_loop (Z.to_nat (total_blocks - start + 1)) start 0 0 false.
End Block.

(** ** Counting free bits *)

(** Clear bits among the first [n] of a bitmap. *)
Fixpoint count_clear (w : Z) (n : nat) : Z :=
  match n with
  | O => 0
  | S n => count_clear w n + Z.b2z (negb (Z.testbit w (Z.of_nat n)))
  end.

Lemma count_clear_set w k n :
  0 <= k < Z.of_nat n -> Z.testbit w k = false ->
  count_clear (Z.setbit w k) n = count_clear w n - 1.
Proof.
  intros Hk Hb. induction n as [|n IH]; [lia|]. cbn [count_clear].
  destruct (Z.eq_dec k (Z.of_nat n)) as [->|Hne].
  - rewrite Z.setbit_eq, Hb by lia.
    assert (He : forall m, (m <= n)%nat ->
              count_clear (Z.setbit w (Z.of_nat n)) m = count_clear w m).
    { induction m as [|m IHm]; intros Hm; [done|]. cbn [count_clear].
      rewrite IHm, Z.setbit_neq by lia. done. }
    rewrite He by lia. simpl. lia.
  - rewrite IH, Z.setbit_neq by lia. lia.
Qed.

Lemma count_clear_clear w k n :
  0 <= k < Z.of_nat n -> Z.testbit w k = true ->
  count_clear (Z.clearbit w k) n = count_clear w n + 1.
Proof.
  intros Hk Hb.
  assert (Hs : Z.setbit (Z.clearbit w k) k = w).
  { apply Z.bits_inj'. intros i Hi. destruct (Z.eq_dec i k) as [->|Hne].
    - rewrite Z.setbit_eq by lia. done.
    - rewrite Z.setbit_neq by lia. by rewrite Z.clearbit_neq by lia. }
  rewrite <- Hs at 2. rewrite count_clear_set; [lia|done|]. apply Z.clearbit_eq.
Qed.

Lemma count_clear_range w n : 0 <= count_clear w n <= Z.of_nat n.
Proof. induction n as [|n IH]; cbn [count_clear]; [lia|]. destruct (negb _); simpl; lia. Qed.

Lemma setbit_idem w k : 0 <= k -> Z.testbit w k = true -> Z.setbit w k = w.
Proof.
  intros Hk Hb. apply Z.bits_inj'. intros i Hi. destruct (Z.eq_dec i k) as [->|Hne].
  - by rewrite Z.setbit_eq.
  - by rewrite Z.setbit_neq by lia.
Qed.

Lemma clearbit_idem w k : Z.testbit w k = false -> Z.clearbit w k = w.
Proof.
  intros Hb. apply Z.bits_inj'. intros i Hi. destruct (Z.eq_dec i k) as [->|Hne].
  - by rewrite Z.clearbit_eq.
  - by rewrite Z.clearbit_neq by lia.
Qed.

(** Sum of a counter over the groups [0 .. n - 1]. *)
Fixpoint sum_upto (f : Z -> Z) (n : nat) : Z :=
  match n with O => 0 | S n => sum_upto f n + f (Z.of_nat n) end.

Lemma sum_upto_ext f f' n :
  (forall g, 0 <= g < Z.of_nat n -> f' g = f g) -> sum_upto f' n = sum_upto f n.
Proof.
  induction n as [|n IH]; intros He; [done|]. simpl. rewrite IH, He; [done|lia|].
  intros g Hg. apply He. lia.
Qed.

Lemma sum_upto_update f f' n g d :
  0 <= g < Z.of_nat n -> f' g = f g + d -> (forall h, h <> g -> f' h = f h) ->
  sum_upto f' n = sum_upto f n + d.
Proof.
  induction n as [|n IH]; intros Hg Hf Ho; [lia|]. simpl.
  destruct (Z.eq_dec g (Z.of_nat n)) as [->|Hne].
  - rewrite (sum_upto_ext f f' n), Hf; [lia|]. intros h Hh. apply Ho. lia.
  - rewrite IH, (Ho (Z.of_nat n)) by (try done; lia). lia.
Qed.

Lemma sum_upto_ge f n g :
  (forall h, 0 <= h < Z.of_nat n -> 0 <= f h) -> 0 <= g < Z.of_nat n -> f g <= sum_upto f n.
Proof.
  induction n as [|n IH]; intros Hf Hg; [lia|]. simpl.
  assert (Hp : 0 <= sum_upto f n).
  { clear -Hf. induction n as [|n IH]; simpl; [lia|]. pose proof (Hf (Z.of_nat n)).
    assert (0 <= sum_upto f n) by (apply IH; intros; apply Hf; lia). lia. }
  pose proof (Hf (Z.of_nat n)).
  destruct (Z.eq_dec g (Z.of_nat n)) as [->|Hne]; [lia|].
  assert (f g <= sum_upto f n) by (apply IH; [intros; apply Hf|]; lia). lia.
Qed.

Lemma sum_upto_le f n m :
  (forall h, 0 <= h < Z.of_nat n -> f h <= m) -> sum_upto f n <= Z.of_nat n * m.
Proof.
  induction n as [|n IH]; intros Hf; simpl; [lia|]. pose proof (Hf (Z.of_nat n)).
  assert (sum_upto f n <= Z.of_nat n * m) by (apply IH; intros; apply Hf; lia). lia.
Qed.

(** ** States after the two operations *)

Section States.
Context `{Csum} `{Balloc}.

(** The end of both operations: per-cpu counter and super block. *)
Definition finish_state (delta : Z) (s : fs) : fs :=
  set_es (ext4_superblock_csum_set (f_sbi s)
            (ext4_free_blocks_count_set (f_es s) (u64 (ext4_free_blocks_count (f_es s) + delta))))
    (set_freeclusters (f_freeclusters s + delta * EXT4_NUM_B2C (f_sbi s) 1) s).

Definition alloc_state (s : fs) (group offset : Z) : fs :=
  let bm := Z.setbit (bbm_of s group) offset in
  finish_state (-1) (set_gd group (alloc_gd (set_bbm group bm s) group bm) (set_bbm group bm s)).

Definition free_state (s : fs) (group offset : Z) : fs :=
  let bm := Z.clearbit (bbm_of s group) offset in
  finish_state 1 (set_gd group (free_gd (set_bbm group bm s) group bm) (set_bbm group bm s)).
End States.

(** No lock of the block layer is held by the thread. *)
Definition no_block_lock (held : list res) : Prop :=
  forall l, (l = LSbh \/ exists g, l = LGroup g) -> existsb (blocks_on (Excl l)) held = false.

(** A bit that is already as wanted: the store changes nothing. *)
Lemma set_bbm_same s g bm : bbm_of s g = bm -> f_bbm s !! g <> None -> set_bbm g bm s = s.
Proof.
  intros Hb Hs. destruct s as [sbi es gd bbm ibm fc fi tr ino]. unfold set_bbm, bbm_of in *.
  cbn in *. f_equal. apply insert_id. destruct (bbm !! g) as [x|] eqn:Hx; [|done].
  by subst.
Qed.

Lemma gd_of_set_gd s g x : gd_of (set_gd g x s) g = x.
Proof. unfold gd_of, set_gd. cbn. apply lookup_total_insert_eq. Qed.
Lemma gd_of_set_gd_ne s g g' x : g <> g' -> gd_of (set_gd g x s) g' = gd_of s g'.
Proof. intros. unfold gd_of, set_gd. cbn. by apply lookup_total_insert_ne. Qed.
Lemma bbm_of_set_bbm s g x : bbm_of (set_bbm g x s) g = x.
Proof. unfold bbm_of, set_bbm. cbn. by rewrite lookup_insert_eq. Qed.
Lemma bbm_of_set_bbm_ne s g g' x : g <> g' -> bbm_of (set_bbm g x s) g' = bbm_of s g'.
Proof. intros. unfold bbm_of, set_bbm. cbn. by rewrite lookup_insert_ne. Qed.

(** The counter fields do not overlap the flags. *)
Lemma gd_read_clear_flag sbi f gd flag : gd_read sbi f (gd_clear_flag gd flag) = gd_read sbi f gd.
Proof.
  unfold gd_clear_flag, bg_flags.
  destruct f; unfold_gd; unfold gd_block, gd_count; destruct (desc64 sbi);
    by rewrite ?le_get_put_out by lia.
Qed.

Lemma gd_clear_flag_wf sbi gd flag : gd_wf sbi gd -> gd_wf sbi (gd_clear_flag gd flag).
Proof.
  intros (Hl & Hs & Hb). unfold gd_clear_flag.
  split; [by autorewrite with len|auto with evfs].
Qed.

Lemma free_clusters_set_eq sbi gd v :
  ext4_free_group_clusters_set sbi gd v = gd_write sbi FFreeClusters gd v.
Proof. done. Qed.

Section BlockSpec.
Context `{EnvFs} `{Csum} `{BallocOk}.

(** The block number of the bitmap is not changed by either operation. *)
Lemma alloc_gd_bitmap s g bm :
  ext4_block_bitmap (f_sbi s) (alloc_gd s g bm) = ext4_block_bitmap (f_sbi s) (gd_of s g).
Proof.
  change (ext4_block_bitmap ?a ?b) with (gd_read a FBlockBitmap b). unfold alloc_gd.
  cbv zeta. rewrite ?free_clusters_set_eq.
  repeat case_match; rewrite ?(proj1 (gd_csum_keeps _ _ _ _)), ?bbm_csum_read,
    ?gd_read_write_ne, ?gd_read_clear_flag, ?gd_read_write_ne by done; done.
Qed.

Lemma free_gd_bitmap s g bm :
  ext4_block_bitmap (f_sbi s) (free_gd s g bm) = ext4_block_bitmap (f_sbi s) (gd_of s g).
Proof.
  change (ext4_block_bitmap ?a ?b) with (gd_read a FBlockBitmap b). unfold free_gd.
  cbv zeta. rewrite ?free_clusters_set_eq.
  repeat case_match; rewrite ?(proj1 (gd_csum_keeps _ _ _ _)), ?bbm_csum_read,
    ?gd_read_write_ne by done; done.
Qed.

(** Only success returns 0; the buffer and the handle are given back. *)
Lemma wp_block_stop group ret s held calls (Q : Z -> world fs -> Prop) :
  (forall err calls, (err = ret \/ err < 0) -> Q err (World s held calls)) ->
  wp (block_stop_journal group ret) Q (World s (Ref RHandle :: bbm_ref s group :: held) calls).
Proof.
  intros HQ. unfold block_stop_journal, ext4_journal_stop, block_out. wp_step. wp_step.
  wp_step. wp_step. do 5 wp_step. destruct (Z.ltb_spec z 0).
  - apply HQ. by right.
  - apply HQ. by left.
Qed.

Lemma wp_block_finish group delta s held calls (Q : Z -> world fs -> Prop) :
  no_block_lock held ->
  (forall err calls, err <= 0 -> Q err (World (finish_state delta s) held calls)) ->
  wp (block_finish group delta) Q (World s (Ref RHandle :: bbm_ref s group :: held) calls).
Proof.
  intros Hl HQ. unfold block_finish. wp_step. wp_step. wp_step. wp_step.
  { apply Hl. by left. }
  do 4 wp_step. fold (finish_state delta s).
  change (bbm_ref s group) with (bbm_ref (finish_state delta s) group).
  wp_step. wp_step. destruct (Z.ltb_spec z 0).
  { apply wp_block_stop. intros err ? ?. apply HQ. lia. }
  wp_step. wp_step. destruct (Z.ltb_spec z0 0);
    apply wp_block_stop; intros err ? ?; apply HQ; lia.
Qed.

(** [ext4_get_group_desc] answered a descriptor for the group. *)
Definition has_desc (g : Z) : Prop := exists h, env_ptr h "ext4_get_group_desc" [g] = PtrOk.

(** The entry: every failure leaves the state alone; [body] starts with the
    handle and the bitmap buffer. *)
Lemma wp_block_enter group body s held calls (Q : Z -> world fs -> Prop) :
  (forall err calls, err < 0 -> Q err (World s held calls)) ->
  (forall calls, has_desc group ->
     wp body Q (World s (Ref RHandle :: bbm_ref s group :: held) calls)) ->
  wp (block_enter group body) Q (World s held calls).
Proof.
  intros Herr Hok. unfold block_enter. wp_step. apply wp_read_block_bitmap; intros.
  2:{ wp_step. apply Herr. lia. }
  wp_step. wp_step. destruct r.
  2,3: unfold block_out; repeat wp_step; apply Herr; unfold EINVAL; lia.
  wp_step. apply wp_journal_start; intros.
  2:{ unfold block_out. repeat wp_step. apply Herr. lia. }
  wp_step. wp_step. destruct (Z.ltb_spec z 0).
  { apply wp_block_stop. intros. apply Herr. lia. }
  wp_step. wp_step. destruct (Z.ltb_spec z0 0); [|by apply Hok; exists calls0].
  apply wp_block_stop. intros. apply Herr. lia.
Qed.

(** The two handlers: an error with the state unchanged, or the new state. *)
Lemma wp_block_alloc bindex s held calls (Q : Z -> world fs -> Prop) :
  let '(g, off) := group_no_and_offset (f_sbi s) (f_es s) bindex in
  no_block_lock held ->
  (forall err calls, err < 0 -> Q err (World s held calls)) ->
  (forall err calls, err <= 0 -> has_desc g -> Z.testbit (bbm_of s g) off = false ->
     Q err (World (alloc_state s g off) held calls)) ->
  wp (evfs_block_alloc bindex) Q (World s held calls).
Proof.
  destruct (group_no_and_offset (f_sbi s) (f_es s) bindex) as [g off] eqn:Hg.
  intros Hl Herr Hok. unfold evfs_block_alloc. wp_step. wp_step. rewrite Hg.
  pose proof (offset_nonneg (f_sbi s) (f_es s) bindex) as Hoff. rewrite Hg in Hoff. simpl in Hoff.
  apply wp_block_enter; [done|]. intros calls' Hdesc. wp_step. wp_step.
  { apply Hl. right. eauto. }
  wp_step. wp_step. unfold test_and_set_bit. wp_step. wp_step.
  destruct (Z.testbit (bbm_of s g) off) eqn:Hb.
  - wp_step. wp_step. rewrite setbit_idem by done.
    rewrite set_bbm_same; [|done|].
    2:{ intros Hn. unfold bbm_of in Hb. rewrite Hn in Hb.
        by cbn in Hb; rewrite Z.bits_0 in Hb. }
    apply wp_block_stop. intros. apply Herr. unfold EEXIST in *. lia.
  - do 4 wp_step. set (bm := Z.setbit _ _). set (s1 := set_bbm g bm s).
    set (s2 := set_gd g (alloc_gd s1 g bm) s1).
    replace (bbm_ref s g) with (bbm_ref s2 g).
    2:{ unfold bbm_ref. do 2 f_equal. unfold s2 at 2. rewrite gd_of_set_gd.
        apply (alloc_gd_bitmap s1). }
    apply wp_block_finish; [done|]. intros. by apply Hok.
Qed.

Lemma wp_block_free bindex s held calls (Q : Z -> world fs -> Prop) :
  let '(g, off) := group_no_and_offset (f_sbi s) (f_es s) bindex in
  no_block_lock held -> (has_desc g -> f_bbm s !! g <> None) ->
  (forall err calls, err < 0 -> Q err (World s held calls)) ->
  (forall err calls, err <= 0 -> has_desc g -> Z.testbit (bbm_of s g) off = true ->
     Q err (World (free_state s g off) held calls)) ->
  wp (evfs_block_free bindex) Q (World s held calls).
Proof.
  destruct (group_no_and_offset (f_sbi s) (f_es s) bindex) as [g off] eqn:Hg.
  intros Hl Hin Herr Hok. unfold evfs_block_free. wp_step. wp_step. rewrite Hg.
  apply wp_block_enter; [done|]. intros calls' Hdesc. wp_step. wp_step.
  { apply Hl. right. eauto. }
  wp_step. wp_step. unfold test_and_clear_bit. wp_step. wp_step.
  destruct (Z.testbit (bbm_of s g) off) eqn:Hb; cbn [negb].
  - do 4 wp_step. set (bm := Z.clearbit _ _). set (s1 := set_bbm g bm s).
    set (s2 := set_gd g (free_gd s1 g bm) s1).
    replace (bbm_ref s g) with (bbm_ref s2 g).
    2:{ unfold bbm_ref. do 2 f_equal. unfold s2 at 2. rewrite gd_of_set_gd.
        apply (free_gd_bitmap s1). }
    apply wp_block_finish; [done|]. intros. by apply Hok.
  - wp_step. wp_step. rewrite clearbit_idem, set_bbm_same by auto.
    apply wp_block_stop. intros. apply Herr. unfold EEXIST in *. lia.
Qed.

(** *** Effects on the descriptor *)

(** Writing the free cluster count and the checksums. *)
Lemma gd_update s g gd bm n :
  gd_wf (f_sbi s) gd ->
  let gd1 := ext4_free_group_clusters_set (f_sbi s) gd n in
  let gd2 := if ext4_has_group_desc_csum (f_sbi s) (f_es s)
             then ext4_group_desc_csum_set (f_sbi s) (f_es s) g
                    (block_bitmap_csum_set (f_sbi s) (f_es s) gd1 bm)
             else gd1 in
  gd_wf (f_sbi s) gd2 /\ gd_flags gd2 = gd_flags gd /\
  ext4_group_desc_csum_verify (f_sbi s) (f_es s) g gd2 = true /\
  ext4_free_group_clusters (f_sbi s) gd2 = n mod 2 ^ gd_bits (f_sbi s) FFreeClusters.
Proof.
  intros Hwf gd1 gd2.
  assert (Hwf1 : gd_wf (f_sbi s) gd1) by (by apply (gd_write_wf _ FFreeClusters)).
  assert (Hr1 : gd_read (f_sbi s) FFreeClusters gd1 = n mod 2 ^ gd_bits (f_sbi s) FFreeClusters)
    by (by apply (gd_read_write_eq _ FFreeClusters)).
  assert (Hf1 : gd_flags gd1 = gd_flags gd) by (apply (gd_flags_write _ FFreeClusters)).
  change (ext4_free_group_clusters (f_sbi s) gd2) with (gd_read (f_sbi s) FFreeClusters gd2).
  subst gd2. destruct (ext4_has_group_desc_csum (f_sbi s) (f_es s)) eqn:Hc.
  - destruct (gd_csum_keeps (f_sbi s) (f_es s) g
      (block_bitmap_csum_set (f_sbi s) (f_es s) gd1 bm)) as [Hk Hkf].
    split_and!.
    + by apply gd_csum_wf, bbm_csum_wf.
    + by rewrite Hkf, bbm_csum_flags.
    + by apply gd_csum_verify, bbm_csum_wf.
    + by rewrite Hk, bbm_csum_read.
  - split_and!; [done|done| |done]. unfold ext4_group_desc_csum_verify. by rewrite Hc.
Qed.

(** [alloc_gd] is such an update of the old descriptor. *)
Lemma alloc_gd_spec s g bm :
  gd_wf (f_sbi s) (gd_of s g) ->
  let sbi := f_sbi s in
  let gd := gd_of s g in
  let gd' := alloc_gd s g bm in
  let uninit := ext4_has_group_desc_csum sbi (f_es s) && gd_has_flag gd EXT4_BG_BLOCK_UNINIT in
  gd_wf sbi gd' /\ ext4_group_desc_csum_verify sbi (f_es s) g gd' = true /\
  (uninit = false ->
     gd_flags gd' = gd_flags gd /\
     ext4_free_group_clusters sbi gd' =
       EXT4_NUM_B2C sbi (u32 (EXT4_C2B sbi (ext4_free_group_clusters sbi gd) - 1))
         mod 2 ^ gd_bits sbi FFreeClusters) /\
  (uninit = true -> exists gd0,
     (forall f, f <> FFreeClusters -> gd_read sbi f gd0 = gd_read sbi f gd) /\
     ext4_free_group_clusters sbi gd' =
       free_clusters_after_init sbi (f_es s) g gd0 mod 2 ^ gd_bits sbi FFreeClusters).
Proof.
  intros Hwf sbi gd gd' uninit. subst gd'. unfold alloc_gd. cbv zeta. fold sbi gd.
  set (n := EXT4_NUM_B2C _ _).
  assert (Hflag : gd_has_flag (ext4_free_group_clusters_set sbi gd n) EXT4_BG_BLOCK_UNINIT
                  = gd_has_flag gd EXT4_BG_BLOCK_UNINIT).
  { unfold gd_has_flag. rewrite free_clusters_set_eq. by rewrite gd_flags_write. }
  rewrite Hflag. subst uninit.
  destruct (gd_has_flag gd EXT4_BG_BLOCK_UNINIT) eqn:Hu, (ext4_has_group_desc_csum sbi (f_es s)) eqn:Hc;
    cbn [andb].
  2-4: destruct (gd_update s g gd bm n Hwf) as (A & B & C & D); fold sbi in A, B, C, D;
       rewrite Hc in A, B, C, D; split_and!; try done.
  set (gd0 := gd_clear_flag (ext4_free_group_clusters_set sbi gd n) EXT4_BG_BLOCK_UNINIT).
  destruct (gd_update s g gd0 bm (free_clusters_after_init sbi (f_es s) g gd0))
    as (A & B & C & D).
  { apply gd_clear_flag_wf. by apply (gd_write_wf _ FFreeClusters). }
  fold sbi in A, B, C, D. rewrite Hc in A, B, C, D. split_and!; try done.
  intros _. exists gd0. split; [|done]. intros f Hf. subst gd0.
  rewrite gd_read_clear_flag. by apply (gd_read_write_ne sbi FFreeClusters).
Qed.

Lemma free_gd_spec s g bm :
  gd_wf (f_sbi s) (gd_of s g) ->
  let sbi := f_sbi s in
  let gd := gd_of s g in
  let gd' := free_gd s g bm in
  gd_wf sbi gd' /\ ext4_group_desc_csum_verify sbi (f_es s) g gd' = true /\
  gd_flags gd' = gd_flags gd /\
  ext4_free_group_clusters sbi gd' =
    EXT4_NUM_B2C sbi (u32 (EXT4_C2B sbi (ext4_free_group_clusters sbi gd) + 1))
      mod 2 ^ gd_bits sbi FFreeClusters.
Proof.
  intros Hwf sbi gd gd'. subst gd'. unfold free_gd. cbv zeta. fold sbi gd.
  set (n := EXT4_NUM_B2C _ _). by destruct (gd_update s g gd bm n Hwf) as (A & B & C & D).
Qed.

(** *** Effects on the whole state *)

(** What both operations do outside the descriptor and the bitmap. *)
Lemma finish_state_spec delta s g bg :
  es_wf (f_es s) ->
  let s' := finish_state delta s in
  es_wf (f_es s') /\ ext4_superblock_csum_verify (f_sbi s') (f_es s') = true /\
  ext4_free_blocks_count (f_es s') =
    u64 (ext4_free_blocks_count (f_es s) + delta)
      mod 2 ^ (if ext4_has_feature_64bit (f_es s) then 64 else 32) /\
  ext4_has_feature_64bit (f_es s') = ext4_has_feature_64bit (f_es s) /\
  ext4_has_group_desc_csum (f_sbi s') (f_es s') = ext4_has_group_desc_csum (f_sbi s) (f_es s) /\
  ext4_group_desc_csum_verify (f_sbi s') (f_es s') g bg =
    ext4_group_desc_csum_verify (f_sbi s) (f_es s) g bg.
Proof. intros Hwf. by apply sb_count_update. Qed.

(** *** The invariant of a file system without clusters of several blocks *)

Definition group_free (s : fs) (g : Z) : Z := ext4_free_group_clusters (f_sbi s) (gd_of s g).
Definition total_free (s : fs) : Z :=
  sum_upto (group_free s) (Z.to_nat (s_groups_count (f_sbi s))).

(** Group [g]: an initialised bitmap whose clear bits are what the descriptor
    counts. *)
Record group_ok (s : fs) (g : Z) : Prop := {
  go_wf : gd_wf (f_sbi s) (gd_of s g);
  go_init : gd_has_flag (gd_of s g) EXT4_BG_BLOCK_UNINIT = false;
  go_bitmap : f_bbm s !! g <> None;
  go_count : group_free s g =
               count_clear (bbm_of s g) (Z.to_nat (s_clusters_per_group (f_sbi s)))
}.

Record blocks_inv (s : fs) : Prop := {
  bi_es : es_wf (f_es s);
  bi_ratio : s_cluster_ratio (f_sbi s) = 1 /\ s_cluster_bits (f_sbi s) = 0;
  bi_cpg : 0 <= s_clusters_per_group (f_sbi s) < 2 ^ 16;
  bi_size : s_groups_count (f_sbi s) * s_clusters_per_group (f_sbi s) < 2 ^ 32;
  bi_groups : forall g, 0 <= g < s_groups_count (f_sbi s) -> group_ok s g;
  bi_total : ext4_free_blocks_count (f_es s) = total_free s
}.

Lemma total_free_bounds s g :
  blocks_inv s -> 0 <= g < s_groups_count (f_sbi s) ->
  0 <= group_free s g <= total_free s /\ total_free s < 2 ^ 32.
Proof.
  intros [_ _ Hcpg Hsize Hg _] Hr.
  assert (Hb : forall h, 0 <= h < Z.of_nat (Z.to_nat (s_groups_count (f_sbi s))) ->
            0 <= group_free s h <= s_clusters_per_group (f_sbi s)).
  { intros h Hh. destruct (Hg h ltac:(lia)) as [_ _ _ ->].
    pose proof (count_clear_range (bbm_of s h) (Z.to_nat (s_clusters_per_group (f_sbi s)))). lia. }
  unfold total_free. set (n := Z.to_nat (s_groups_count (f_sbi s))) in *.
  pose proof (sum_upto_ge (group_free s) n g ltac:(intros; apply Hb; lia) ltac:(lia)).
  pose proof (sum_upto_le (group_free s) n (s_clusters_per_group (f_sbi s))
                ltac:(intros; apply Hb; lia)).
  specialize (Hb g ltac:(lia)). nia.
Qed.

(** An update of one group that moves its counter, its bitmap and the super
    block counter by [delta] keeps the invariant. *)
Lemma blocks_inv_update s g gd bm delta :
  blocks_inv s -> 0 <= g < s_groups_count (f_sbi s) ->
  gd_wf (f_sbi s) gd -> gd_has_flag gd EXT4_BG_BLOCK_UNINIT = false ->
  ext4_free_group_clusters (f_sbi s) gd = group_free s g + delta ->
  count_clear bm (Z.to_nat (s_clusters_per_group (f_sbi s))) = group_free s g + delta ->
  -1 <= delta <= 1 -> 0 <= group_free s g + delta ->
  total_free s + delta < 2 ^ 32 ->
  blocks_inv (finish_state delta (set_gd g gd (set_bbm g bm s))).
Proof.
  intros Hinv Hr Hwf Hu Hc Hbm Hd Hpos Hmax.
  destruct (total_free_bounds s g Hinv Hr) as [Hb1 Hb2].
  pose proof Hinv as [Hes Hra Hcpg Hsize Hg Ht].
  set (s2 := set_gd g gd (set_bbm g bm s)).
  destruct (finish_state_spec delta s2 g gd Hes) as (He1 & _ & He3 & He4 & _).
  assert (Hgf : forall h, group_free (finish_state delta s2) h =
                  if decide (h = g) then group_free s g + delta else group_free s h).
  { intros h. unfold group_free. case_decide as Hh.
    - subst h. change (gd_of (finish_state delta s2) g) with (gd_of s2 g).
      unfold s2. by rewrite gd_of_set_gd.
    - change (gd_of (finish_state delta s2) h) with (gd_of s2 h).
      unfold s2. by rewrite gd_of_set_gd_ne by done. }
  split; try done.
  - intros h Hh. destruct (Hg h Hh) as [Gw Gu Gb Gc].
    destruct (decide (h = g)) as [->|Hne].
    + split.
      * change (gd_of _ g) with (gd_of s2 g). unfold s2. by rewrite gd_of_set_gd.
      * change (gd_of _ g) with (gd_of s2 g). unfold s2. by rewrite gd_of_set_gd.
      * cbn. by rewrite lookup_insert_eq.
      * rewrite Hgf, decide_True by done. unfold bbm_of. cbn. by rewrite lookup_insert_eq.
    + split.
      * change (gd_of _ h) with (gd_of s2 h). unfold s2. by rewrite gd_of_set_gd_ne by done.
      * change (gd_of _ h) with (gd_of s2 h). unfold s2. by rewrite gd_of_set_gd_ne by done.
      * cbn. by rewrite lookup_insert_ne by done.
      * rewrite Hgf, decide_False by done. unfold bbm_of. cbn. by rewrite lookup_insert_ne by done.
  - rewrite He3. change (f_es s2) with (f_es s). rewrite Ht.
    assert (Hsum : total_free (finish_state delta s2) = total_free s + delta).
    { unfold total_free. change (f_sbi (finish_state delta s2)) with (f_sbi s). apply (sum_upto_update _ _ _ g); [lia| |].
      - by rewrite Hgf, decide_True by done.
      - intros h Hh. by rewrite Hgf, decide_False by done. }
    rewrite Hsum. rewrite u64_small by lia. apply Z.mod_small.
    destruct (ext4_has_feature_64bit (f_es s)); lia.
Qed.

(** *** Sequences of operations *)

Inductive blk_op := BAlloc (b : Z) | BFree (b : Z).

Definition run_blk_op (o : blk_op) : K fs Z :=
  match o with BAlloc b => evfs_block_alloc b | BFree b => evfs_block_free b end.

(** The answers of a sequence of calls. *)
Fixpoint run_blk_ops (ops : list blk_op) : K fs (list Z) :=
  match ops with
  | [] => kret []
  | o :: ops => r <~ run_blk_op o;; rs <~ run_blk_ops ops;; kret (r :: rs)
  end.

(** The geometry the mounted super block gives: a block's offset lies in its
    group, and only existing groups have a descriptor. *)
Definition geometry (sbi : ext4_sb_info) : Prop :=
  (forall es b, (group_no_and_offset sbi es b).2 < s_clusters_per_group sbi) /\
  (forall g, has_desc g -> 0 <= g < s_groups_count sbi).

(** A set bit leaves room in the total. *)
Lemma free_room s g off :
  blocks_inv s -> 0 <= g < s_groups_count (f_sbi s) ->
  0 <= off < s_clusters_per_group (f_sbi s) -> Z.testbit (bbm_of s g) off = true ->
  total_free s < s_groups_count (f_sbi s) * s_clusters_per_group (f_sbi s).
Proof.
  intros Hinv Hg Hoff Hb. pose proof (bi_groups _ Hinv) as Hgs. pose proof (bi_cpg _ Hinv) as Hcpg.
  set (cpg := s_clusters_per_group (f_sbi s)) in *.
  assert (Hcount : forall h, 0 <= h < s_groups_count (f_sbi s) -> group_free s h <= cpg).
  { intros h Hh. rewrite (go_count _ _ (Hgs h Hh)).
    pose proof (count_clear_range (bbm_of s h) (Z.to_nat cpg)). fold cpg. lia. }
  assert (Hlt : group_free s g + 1 <= cpg).
  { rewrite (go_count _ _ (Hgs g Hg)). fold cpg.
    pose proof (count_clear_clear (bbm_of s g) off (Z.to_nat cpg) ltac:(lia) Hb).
    pose proof (count_clear_range (Z.clearbit (bbm_of s g) off) (Z.to_nat cpg)). lia. }
  set (f h := group_free s h + (if decide (h = g) then 1 else 0)).
  assert (Hsum : sum_upto f (Z.to_nat (s_groups_count (f_sbi s))) = total_free s + 1).
  { apply (sum_upto_update _ _ _ g); unfold f; [lia| |].
    - by rewrite decide_True by done.
    - intros h Hh. rewrite decide_False by done. lia. }
  pose proof (sum_upto_le f (Z.to_nat (s_groups_count (f_sbi s))) cpg) as Hle.
  rewrite Hsum in Hle. enough (total_free s + 1 <= Z.of_nat (Z.to_nat (s_groups_count (f_sbi s))) * cpg) by lia.
  apply Hle. intros h Hh. unfold f. case_decide; [subst; lia|].
  specialize (Hcount h ltac:(lia)). lia.
Qed.

Lemma alloc_inv s g off :
  blocks_inv s -> 0 <= g < s_groups_count (f_sbi s) ->
  0 <= off < s_clusters_per_group (f_sbi s) -> Z.testbit (bbm_of s g) off = false ->
  blocks_inv (alloc_state s g off).
Proof.
  intros Hinv Hg Hoff Hb. pose proof (bi_groups _ Hinv g Hg) as [Gw Gu Gb Gc].
  pose proof (total_free_bounds s g Hinv Hg) as [Hb1 Hb2].
  pose proof (bi_cpg _ Hinv) as Hcpg. destruct (bi_ratio _ Hinv) as [Hr1 Hr2].
  set (bm := Z.setbit (bbm_of s g) off).
  pose proof (count_clear_set (bbm_of s g) off (Z.to_nat (s_clusters_per_group (f_sbi s)))
                ltac:(lia) Hb) as Hcs. fold bm in Hcs. rewrite <- Gc in Hcs.
  pose proof (count_clear_range bm (Z.to_nat (s_clusters_per_group (f_sbi s)))) as Hcr.
  destruct (alloc_gd_spec (set_bbm g bm s) g bm Gw) as (A & _ & C & _).
  change (gd_of (set_bbm g bm s) g) with (gd_of s g) in A, C.
  change (f_sbi (set_bbm g bm s)) with (f_sbi s) in A, C.
  rewrite Gu, andb_false_r in C. destruct (C eq_refl) as [Cf Cc].
  fold (group_free s g) in Cc. rewrite num_b2c_pred in Cc by (try done; lia).
  assert (Hbits : 16 <= gd_bits (f_sbi s) FFreeClusters)
    by (unfold gd_bits; destruct (desc64 _); lia).
  pose proof (Z.pow_le_mono_r 2 16 (gd_bits (f_sbi s) FFreeClusters) ltac:(lia) Hbits).
  rewrite Z.mod_small in Cc by lia.
  apply blocks_inv_update; try done; try lia.
  fold bm. unfold gd_has_flag in *. by rewrite Cf.
Qed.

Lemma free_inv s g off :
  blocks_inv s -> 0 <= g < s_groups_count (f_sbi s) ->
  0 <= off < s_clusters_per_group (f_sbi s) -> Z.testbit (bbm_of s g) off = true ->
  total_free s < 2 ^ 32 - 1 ->
  blocks_inv (free_state s g off).
Proof.
  intros Hinv Hg Hoff Hb Hmax. pose proof (bi_groups _ Hinv g Hg) as [Gw Gu Gb Gc].
  pose proof (total_free_bounds s g Hinv Hg) as [Hb1 Hb2].
  pose proof (bi_cpg _ Hinv) as Hcpg. destruct (bi_ratio _ Hinv) as [Hr1 Hr2].
  set (bm := Z.clearbit (bbm_of s g) off).
  pose proof (count_clear_clear (bbm_of s g) off (Z.to_nat (s_clusters_per_group (f_sbi s)))
                ltac:(lia) Hb) as Hcs. fold bm in Hcs. rewrite <- Gc in Hcs.
  pose proof (count_clear_range bm (Z.to_nat (s_clusters_per_group (f_sbi s)))) as Hcr.
  destruct (free_gd_spec (set_bbm g bm s) g bm Gw) as (A & _ & B & D).
  change (gd_of (set_bbm g bm s) g) with (gd_of s g) in A, B, D.
  change (f_sbi (set_bbm g bm s)) with (f_sbi s) in A, D.
  fold (group_free s g) in D.
  rewrite num_b2c_succ in D by (try done; lia).
  assert (Hbits : 16 <= gd_bits (f_sbi s) FFreeClusters)
    by (unfold gd_bits; destruct (desc64 _); lia).
  pose proof (Z.pow_le_mono_r 2 16 (gd_bits (f_sbi s) FFreeClusters) ltac:(lia) Hbits).
  rewrite Z.mod_small in D by lia.
  apply blocks_inv_update; try done; try lia.
  fold bm. unfold gd_has_flag in *. by rewrite B.
Qed.

(** One operation of a sequence. *)
Lemma wp_run_blk_op o s held calls (Q : Z -> world fs -> Prop) :
  blocks_inv s -> geometry (f_sbi s) -> no_block_lock held ->
  (forall r s' calls, r <= 0 -> blocks_inv s' -> f_sbi s' = f_sbi s -> Q r (World s' held calls)) ->
  wp (run_blk_op o) Q (World s held calls).
Proof.
  intros Hinv [Hgeo Hdesc] Hl HQ.
  destruct o as [b|b]; cbn [run_blk_op].
  - pose proof (wp_block_alloc b s held calls Q) as Hwp.
    pose proof (offset_nonneg (f_sbi s) (f_es s) b) as Hoff.
    specialize (Hgeo (f_es s) b).
    destruct (group_no_and_offset (f_sbi s) (f_es s) b) as [g off]. simpl in Hoff, Hgeo.
    apply Hwp; [done| |].
    + intros err calls' He. apply HQ; [lia|done|done].
    + intros err calls' He Hd Hb. apply HQ; [done| |done]. apply alloc_inv; auto.
  - pose proof (wp_block_free b s held calls Q) as Hwp.
    pose proof (offset_nonneg (f_sbi s) (f_es s) b) as Hoff.
    specialize (Hgeo (f_es s) b).
    destruct (group_no_and_offset (f_sbi s) (f_es s) b) as [g off]. simpl in Hoff, Hgeo.
    apply Hwp; [done| | |].
    + intros Hd. apply (bi_groups _ Hinv g). auto.
    + intros err calls' He. apply HQ; [lia|done|done].
    + intros err calls' He Hd Hb. apply HQ; [done| |done]. apply free_inv; auto.
      pose proof (free_room s g off Hinv (Hdesc g Hd) ltac:(lia) Hb). pose proof (bi_size _ Hinv). lia.
Qed.

(** C1: on a file system with one block per cluster and initialised bitmaps, any
    sequence of block allocations and frees, whatever fails in between, returns, keeps the locks and buffers balanced, and keeps the invariant: in
    every group the descriptor counts exactly the clear bits of the bitmap, and the
    super block counts the sum over the groups. *)
Theorem block_ops_keep_counts ops s held calls :
  blocks_inv s -> geometry (f_sbi s) -> no_block_lock held ->
  exists rs s' calls', run_blk_ops ops (World s held calls) = Ret rs (World s' held calls') /\
    length rs = length ops /\ Forall (fun r => r <= 0) rs /\ blocks_inv s'.
Proof.
  intros Hinv Hgeo Hl.
  enough (Hwp : wp (run_blk_ops ops) (fun rs w' => w_held w' = held /\ length rs = length ops /\
    Forall (fun r => r <= 0) rs /\ blocks_inv (w_st w')) (World s held calls)).
  { apply wp_run in Hwp as (rs & [s' h' c'] & Hr & Hh & Hrest). cbn in *. subst h'. eauto 6. }
  revert s calls Hinv Hgeo. induction ops as [|o ops IH]; intros s calls Hinv Hgeo.
  - by apply wp_ret.
  - cbn [run_blk_ops]. wp_step. apply wp_run_blk_op; [done..|].
    intros r s' calls' Hr Hinv' Hsbi. wp_step.
    eapply wp_mono; [apply (IH s' calls'); [done|by rewrite Hsbi]|].
    intros rs w' (Hh & Hlen & Hall & Hi). wp_step. split_and!; auto. simpl. lia.
Qed.

(** *** Single operations *)

(** Nothing outside block group [g] and the block counters differs. *)
Definition other_unchanged (g : Z) (s s' : fs) : Prop :=
  f_sbi s' = f_sbi s /\ f_ibm s' = f_ibm s /\ f_freeinodes s' = f_freeinodes s /\
  f_tracker s' = f_tracker s /\ f_inodes s' = f_inodes s /\
  (forall h, h <> g -> gd_of s' h = gd_of s h /\ bbm_of s' h = bbm_of s h).

(** The counters and checksums after an operation that frees [delta] blocks. *)
Definition counters_moved (g delta : Z) (s s' : fs) : Prop :=
  f_freeclusters s' = f_freeclusters s + delta * EXT4_NUM_B2C (f_sbi s) 1 /\
  ext4_free_blocks_count (f_es s') = u64 (ext4_free_blocks_count (f_es s) + delta)
    mod 2 ^ (if ext4_has_feature_64bit (f_es s) then 64 else 32) /\
  ext4_superblock_csum_verify (f_sbi s') (f_es s') = true /\
  ext4_group_desc_csum_verify (f_sbi s') (f_es s') g (gd_of s' g) = true.

Lemma update_effects s g gd bm delta :
  es_wf (f_es s) -> ext4_group_desc_csum_verify (f_sbi s) (f_es s) g gd = true ->
  let s' := finish_state delta (set_gd g gd (set_bbm g bm s)) in
  gd_of s' g = gd /\ bbm_of s' g = bm /\ other_unchanged g s s' /\ counters_moved g delta s s'.
Proof.
  intros Hes Hv s'.
  assert (Hgd : gd_of s' g = gd) by apply (gd_of_set_gd (set_bbm g bm s)).
  assert (Hbm : bbm_of s' g = bm) by apply bbm_of_set_bbm.
  destruct (finish_state_spec delta (set_gd g gd (set_bbm g bm s)) g gd Hes)
    as (_ & He2 & He3 & _ & _ & He6).
  split_and!; [done|done| |].
  - unfold other_unchanged. split_and!; try done. intros h Hh. split.
    + by apply (gd_of_set_gd_ne (set_bbm g bm s)).
    + by apply bbm_of_set_bbm_ne.
  - unfold counters_moved. split_and!; try done. rewrite Hgd. by rewrite <- Hv.
Qed.

(** C2: [evfs_block_alloc] returns on every answer of the outside, with every lock,
    buffer and handle given back.  Either it fails and the file system is untouched
    (in particular when the block is already allocated), or the block was free and
    now exactly its bit is set, the per-cpu and super block counters are one lower,
    the checksums of the super block and of the descriptor verify, and no other
    group is touched. *)
Theorem block_alloc_correct bindex s held calls :
  let '(g, off) := group_no_and_offset (f_sbi s) (f_es s) bindex in
  no_block_lock held -> gd_wf (f_sbi s) (gd_of s g) -> es_wf (f_es s) ->
  exists ret s' calls',
    evfs_block_alloc bindex (World s held calls) = Ret ret (World s' held calls') /\
    (ret < 0 /\ s' = s \/
     ret <= 0 /\ Z.testbit (bbm_of s g) off = false /\
     bbm_of s' g = Z.setbit (bbm_of s g) off /\
     other_unchanged g s s' /\ counters_moved g (-1) s s').
Proof.
  pose proof (wp_block_alloc bindex s held calls) as Hwp.
  destruct (group_no_and_offset (f_sbi s) (f_es s) bindex) as [g off].
  intros Hl Hgd Hes.
  specialize (Hwp (fun ret w' => w_held w' = held /\ (ret < 0 /\ w_st w' = s \/
     ret <= 0 /\ Z.testbit (bbm_of s g) off = false /\
     bbm_of (w_st w') g = Z.setbit (bbm_of s g) off /\
     other_unchanged g s (w_st w') /\ counters_moved g (-1) s (w_st w'))) Hl).
  apply wp_run in Hwp as (ret & [s' h' c'] & Hr & Hh & Hrest).
  - cbn in *. subst h'. eauto 6.
  - intros err c Herr. cbn. auto.
  - intros err c Herr Hd Hb. cbn. split; [done|]. right. split; [done|]. split; [done|].
    set (bm := Z.setbit (bbm_of s g) off).
    destruct (alloc_gd_spec (set_bbm g bm s) g bm Hgd) as (_ & Hv & _).
    by destruct (update_effects s g (alloc_gd (set_bbm g bm s) g bm) bm (-1) Hes Hv)
      as (_ & Hbm & Ho & Hc).
Qed.

(** [evfs_block_free] is the mirror image: it fails without effect (with
    -EEXIST when the block is not allocated), or clears exactly the bit of an
    allocated block and raises the counters by one, checksums included. *)
Theorem block_free_correct bindex s held calls :
  let '(g, off) := group_no_and_offset (f_sbi s) (f_es s) bindex in
  no_block_lock held -> f_bbm s !! g <> None -> gd_wf (f_sbi s) (gd_of s g) -> es_wf (f_es s) ->
  exists ret s' calls',
    evfs_block_free bindex (World s held calls) = Ret ret (World s' held calls') /\
    (ret < 0 /\ s' = s \/
     ret <= 0 /\ Z.testbit (bbm_of s g) off = true /\
     bbm_of s' g = Z.clearbit (bbm_of s g) off /\
     other_unchanged g s s' /\ counters_moved g 1 s s').
Proof.
  pose proof (wp_block_free bindex s held calls) as Hwp.
  destruct (group_no_and_offset (f_sbi s) (f_es s) bindex) as [g off].
  intros Hl Hin Hgd Hes.
  specialize (Hwp (fun ret w' => w_held w' = held /\ (ret < 0 /\ w_st w' = s \/
     ret <= 0 /\ Z.testbit (bbm_of s g) off = true /\
     bbm_of (w_st w') g = Z.clearbit (bbm_of s g) off /\
     other_unchanged g s (w_st w') /\ counters_moved g 1 s (w_st w'))) Hl ltac:(auto)).
  apply wp_run in Hwp as (ret & [s' h' c'] & Hr & Hh & Hrest).
  - cbn in *. subst h'. eauto 6.
  - intros err c Herr. cbn. auto.
  - intros err c Herr Hd Hb. cbn. split; [done|]. right. split; [done|]. split; [done|].
    set (bm := Z.clearbit (bbm_of s g) off).
    destruct (free_gd_spec (set_bbm g bm s) g bm Hgd) as (_ & Hv & _).
    by destruct (update_effects s g (free_gd (set_bbm g bm s) g bm) bm 1 Hes Hv)
      as (_ & Hbm & Ho & Hc).
Qed.

(** The free count of a group whose bitmap was not initialised yet: the code
    first decrements the counter and then overwrites it with
    [ext4_free_clusters_after_init], so the allocated block is counted as free. *)
Theorem block_alloc_uninit_overcounts bindex s held calls ret s' calls' :
  let '(g, off) := group_no_and_offset (f_sbi s) (f_es s) bindex in
  no_block_lock held -> gd_wf (f_sbi s) (gd_of s g) ->
  ext4_has_group_desc_csum (f_sbi s) (f_es s) = true ->
  gd_has_flag (gd_of s g) EXT4_BG_BLOCK_UNINIT = true ->
  (forall gd, free_clusters_after_init (f_sbi s) (f_es s) g gd =
     count_clear (bbm_of s g) (Z.to_nat (s_clusters_per_group (f_sbi s)))) ->
  0 <= s_clusters_per_group (f_sbi s) < 2 ^ 16 -> off < s_clusters_per_group (f_sbi s) ->
  evfs_block_alloc bindex (World s held calls) = Ret ret (World s' held calls') -> ret = 0 ->
  ext4_free_group_clusters (f_sbi s') (gd_of s' g) =
    count_clear (bbm_of s' g) (Z.to_nat (s_clusters_per_group (f_sbi s'))) + 1.
Proof.
  pose proof (wp_block_alloc bindex s held calls) as Hwp.
  pose proof (offset_nonneg (f_sbi s) (f_es s) bindex) as Hoff.
  destruct (group_no_and_offset (f_sbi s) (f_es s) bindex) as [g off]. simpl in Hoff.
  intros Hl Hgd Hc Hu Hinit Hcpg Hlt Hrun ->.
  specialize (Hwp (fun ret w' => ret < 0 \/ Z.testbit (bbm_of s g) off = false /\
    w_st w' = alloc_state s g off) Hl).
  unfold wp in Hwp. rewrite Hrun in Hwp.
  destruct Hwp as [|[Hb Hs]]; [auto|auto|lia|]. cbn in Hs. subst s'.
  set (bm := Z.setbit (bbm_of s g) off).
  destruct (alloc_gd_spec (set_bbm g bm s) g bm Hgd) as (_ & _ & _ & Hn).
  change (gd_of (set_bbm g bm s) g) with (gd_of s g) in Hn.
  change (f_sbi (set_bbm g bm s)) with (f_sbi s) in Hn.
  change (f_es (set_bbm g bm s)) with (f_es s) in Hn.
  rewrite Hc, Hu in Hn. destruct (Hn eq_refl) as (gd0 & _ & Hcnt). clear Hn.
  rewrite Hinit in Hcnt.
  change (f_sbi (alloc_state s g off)) with (f_sbi s).
  replace (gd_of (alloc_state s g off) g) with (alloc_gd (set_bbm g bm s) g bm)
    by (symmetry; apply (gd_of_set_gd (set_bbm g bm s))).
  replace (bbm_of (alloc_state s g off) g) with bm by (symmetry; apply bbm_of_set_bbm).
  rewrite Hcnt. unfold bm. rewrite count_clear_set by (try done; lia).
  pose proof (count_clear_range (bbm_of s g) (Z.to_nat (s_clusters_per_group (f_sbi s)))).
  assert (Hbits : 16 <= gd_bits (f_sbi s) FFreeClusters)
    by (unfold gd_bits; destruct (desc64 _); lia).
  pose proof (Z.pow_le_mono_r 2 16 (gd_bits (f_sbi s) FFreeClusters) ltac:(lia) Hbits).
  rewrite Z.mod_small by lia. lia.
Qed.

(** With several blocks per cluster the rounding of [EXT4_NUM_B2C] undoes the
    decrement: a successful allocation leaves the group's free count as it was. *)
Theorem block_alloc_bigalloc_no_decrement bindex s held calls ret s' calls' k :
  let '(g, off) := group_no_and_offset (f_sbi s) (f_es s) bindex in
  no_block_lock held -> gd_wf (f_sbi s) (gd_of s g) ->
  gd_has_flag (gd_of s g) EXT4_BG_BLOCK_UNINIT = false ->
  0 < k -> s_cluster_bits (f_sbi s) = k -> s_cluster_ratio (f_sbi s) = 2 ^ k ->
  0 < group_free s g -> (group_free s g + 1) * 2 ^ k < 2 ^ 32 ->
  evfs_block_alloc bindex (World s held calls) = Ret ret (World s' held calls') -> ret = 0 ->
  group_free s' g = group_free s g /\ bbm_of s' g = Z.setbit (bbm_of s g) off.
Proof.
  pose proof (wp_block_alloc bindex s held calls) as Hwp.
  destruct (group_no_and_offset (f_sbi s) (f_es s) bindex) as [g off].
  intros Hl Hgd Hu Hk Hbits Hratio Hpos Hmax Hrun ->.
  specialize (Hwp (fun ret w' => ret < 0 \/ w_st w' = alloc_state s g off) Hl).
  unfold wp in Hwp. rewrite Hrun in Hwp. destruct Hwp as [|Hs]; [auto|auto|lia|].
  cbn in Hs. subst s'. split; [|apply bbm_of_set_bbm].
  set (bm := Z.setbit (bbm_of s g) off).
  destruct (alloc_gd_spec (set_bbm g bm s) g bm Hgd) as (_ & _ & Hn & _).
  change (gd_of (set_bbm g bm s) g) with (gd_of s g) in Hn.
  change (f_sbi (set_bbm g bm s)) with (f_sbi s) in Hn.
  rewrite Hu, andb_false_r in Hn. destruct (Hn eq_refl) as [_ Hcnt].
  fold (group_free s g) in Hcnt.
  rewrite (num_b2c_pred_bigalloc (f_sbi s) (group_free s g) k) in Hcnt by done.
  unfold group_free at 1. change (f_sbi (alloc_state s g off)) with (f_sbi s).
  replace (gd_of (alloc_state s g off) g) with (alloc_gd (set_bbm g bm s) g bm)
    by (symmetry; apply (gd_of_set_gd (set_bbm g bm s))).
  rewrite Hcnt. apply Z.mod_small. apply (gd_read_range (f_sbi s) FFreeClusters), Hgd.
Qed.

(** *** The free space scan *)

(** The bit of a block is clear. *)
Definition block_free (s : fs) (b : Z) : bool :=
  let '(g, off) := group_no_and_offset (f_sbi s) (f_es s) b in
  negb (Z.testbit (bbm_of s g) off).

(** Every block bitmap can be read. *)
Definition bitmaps_readable : Prop :=
  forall h g, env_ptr h "ext4_read_block_bitmap" [g] = PtrOk.

(** One iteration with a readable bitmap. *)
Lemma wp_fspace_step n b start len (infree : bool) s held calls (Q : Z * Z -> world fs -> Prop) :
  bitmaps_readable ->
  (forall calls, if block_free s b
     then wp (fspace_loop n (b + 1) (if infree then start else b) (len + 1) true) Q
            (World s held calls)
     else if infree then Q (start, len) (World s held calls)
     else wp (fspace_loop n (b + 1) start len false) Q (World s held calls)) ->
  wp (fspace_loop (S n) b start len infree) Q (World s held calls).
Proof.
  intros Hr HQ. cbn [fspace_loop]. wp_step. wp_step. unfold block_free in HQ.
  destruct (group_no_and_offset (f_sbi s) (f_es s) b) as [g off].
  wp_step. unfold ext4_read_block_bitmap. wp_step. wp_step. rewrite Hr in Hc. subst r.
  wp_step. wp_step. wp_step. unfold bbm_ref. wp_step. wp_step. wp_step. wp_step.
  specialize (HQ (("ext4_read_block_bitmap", [g]) :: calls)).
  destruct (negb (Z.testbit (bbm_of s g) off)), infree; exact HQ.
Qed.

(** The run being extended: blocks [start .. b - 1] are free. *)
Lemma wp_fspace_run n : forall b start s held calls (Q : Z * Z -> world fs -> Prop),
  bitmaps_readable -> start <= b -> (forall x, start <= x < b -> block_free s x = true) ->
  (forall e calls, b <= e <= b + Z.of_nat n ->
     (forall x, start <= x < e -> block_free s x = true) ->
     (e = b + Z.of_nat n \/ block_free s e = false) ->
     Q (start, e - start) (World s held calls)) ->
  wp (fspace_loop n b start (b - start) true) Q (World s held calls).
Proof.
  induction n as [|n IH]; intros b start s held calls Q Hr Hb Hrun HQ.
  - apply wp_ret, HQ; [lia|done|left; lia].
  - apply wp_fspace_step; [done|]. intros calls'. destruct (block_free s b) eqn:Hf.
    + replace (b - start + 1) with (b + 1 - start) by lia. apply IH; [done|lia| |].
      * intros x Hx. destruct (Z.eq_dec x b) as [->|]; [done|apply Hrun; lia].
      * intros e c He Hall Hend. apply HQ; [lia|done|]. destruct Hend; [left; lia|by right].
    + apply HQ; [lia|done|by right].
Qed.

Lemma wp_fspace_search n : forall b s held calls (Q : Z * Z -> world fs -> Prop),
  bitmaps_readable ->
  (forall calls, (forall x, b <= x < b + Z.of_nat n -> block_free s x = false) ->
     Q (0, 0) (World s held calls)) ->
  (forall st e calls, b <= st < e -> e <= b + Z.of_nat n ->
     (forall x, b <= x < st -> block_free s x = false) ->
     (forall x, st <= x < e -> block_free s x = true) ->
     (e = b + Z.of_nat n \/ block_free s e = false) -> Q (st, e - st) (World s held calls)) ->
  wp (fspace_loop n b 0 0 false) Q (World s held calls).
Proof.
  induction n as [|n IH]; intros b s held calls Q Hr Hnone Hsome.
  - apply wp_ret, Hnone. intros. lia.
  - apply wp_fspace_step; [done|]. intros calls'. destruct (block_free s b) eqn:Hf.
    + replace (0 + 1) with (b + 1 - b) by lia. apply wp_fspace_run; [done|lia| |].
      * intros x Hx. by replace x with b by lia.
      * intros e c He Hall Hend. apply Hsome; [lia|lia|intros; lia|done|].
        destruct Hend; [left; lia|by right].
    + assert (Hcons : forall m, (forall x, b + 1 <= x < m -> block_free s x = false) ->
                forall x, b <= x < m -> block_free s x = false).
      { intros m Hm x Hx. destruct (Z.eq_dec x b) as [->|]; [done|apply Hm; lia]. }
      apply IH; [done| |].
      * intros c Hall. apply Hnone. apply Hcons. intros. apply Hall. lia.
      * intros st e c Hst He Hno Hall Hend. apply Hsome; [lia|lia|by apply Hcons|done|].
        destruct Hend; [left; lia|by right].
Qed.

(** With readable bitmaps [evfs_fspace_iter] terminates and reports the first
    maximal run of free blocks at or after [start]: no earlier block is free, every
    block of the run is, and the run ends at an allocated block or at the end of the
    scan; the length is 0 exactly when no scanned block is free.  The scan covers
    [start .. total_blocks], one block more than the file system has. *)
Theorem fspace_iter_first_run start s held calls :
  bitmaps_readable -> 0 <= start < 2 ^ 64 ->
  let total := ext4_blocks_count (f_es s) in
  total < 2 ^ 64 - 1 ->
  exists b len calls',
    evfs_fspace_iter start (World s held calls) = Ret (b, len) (World s held calls') /\
    ((b = 0 /\ len = 0 /\ forall x, start <= x <= total -> block_free s x = false) \/
     (0 < len /\ start <= b /\ b + len <= total + 1 /\
      (forall x, start <= x < b -> block_free s x = false) /\
      (forall x, b <= x < b + len -> block_free s x = true) /\
      (b + len = total + 1 \/ block_free s (b + len) = false))).
Proof.
  intros Hr Hs total _. unfold evfs_fspace_iter.
  enough (Hwp : wp (s' <~ kget;; fspace_loop (Z.to_nat (ext4_blocks_count (f_es s') - start + 1))
      start 0 0 false) (fun r w' => w_held w' = held /\ w_st w' = s /\
    ((r = (0, 0) /\ forall x, start <= x <= total -> block_free s x = false) \/
     (0 < r.2 /\ start <= r.1 /\ r.1 + r.2 <= total + 1 /\
      (forall x, start <= x < r.1 -> block_free s x = false) /\
      (forall x, r.1 <= x < r.1 + r.2 -> block_free s x = true) /\
      (r.1 + r.2 = total + 1 \/ block_free s (r.1 + r.2) = false)))) (World s held calls)).
  { apply wp_run in Hwp as ([b len] & [s' h' c'] & Hrun & Hh & Hst & Hrest). cbn in *. subst.
    exists b, len, c'. split; [done|]. destruct Hrest as [[[= -> ->] ?]|?]; [left|right]; tauto. }
  wp_step. wp_step. fold total. set (n := Z.to_nat _).
  assert (Hn : start + Z.of_nat n = Z.max start (total + 1)) by lia.
  apply wp_fspace_search; [done| |].
  - intros c Hall. split_and!; [done|done|]. left. split; [done|].
    intros x Hx. apply Hall. lia.
  - intros st e c Hst He Hno Hall Hend. cbn [fst snd]. split_and!; [done|done|]. right.
    replace (st + (e - st)) with e by lia. rewrite Hn in *.
    split_and!; [lia|lia|lia|done|done|]. destruct Hend; [left; lia|by right].
Qed.
End BlockSpec.
