(* ===== verification/Inode.v ===== *)
(** * Inode operations of eVFS (fs/ext4/evfs.c)

    Reading, allocating, freeing and iterating over inodes, and the helpers that
    record in the tracker which inodes were allocated through eVFS.  The labels of
    [evfs_inode_alloc] ([fail_free_drop], [fail_drop], [stop_journal], [fail_init],
    [out]) are local continuations, in the order in which the code falls through
    them. *)

From stdpp Require Import prelude list gmap strings.
From Stdlib Require Import ZArith Lia.
From S2P Require Import Prelude Kernel Bytes Bmt Layout ExtentNode ExtentTree Fs Block.

Local Open Scope string_scope.
Local Open Scope Z_scope.

(** [struct evfs_ino_read_out]; [est_rdev] is [None] when the handler leaves the
    stack word uninitialised. *)
Record evfs_stat := Stat {
  est_dev : Z; est_ino : Z; est_mode : Z; est_nlink : Z; est_uid : Z; est_gid : Z;
  est_rdev : option Z;
  est_version : Z; est_size : Z; est_blksize : Z; est_blocks : Z;
  est_atime : Z; est_atime_nsec : Z;
  est_mtime : Z; est_mtime_nsec : Z;
  est_ctime : Z; est_ctime_nsec : Z
}.

Section Inode.
Context `{Env} `{Csum} `{Balloc}.

(** *** Link counts and the tracker *)

(** [drop_nlink] and [inc_nlink] on the 32-bit link count. *)
Definition drop_nlink (n : Z) : K fs unit :=
  kmodify (upd_inode n (fun i => set_nlink (u32 (i_nlink i - 1)) i)).
Definition inc_nlink (n : Z) : K fs unit :=
  kmodify (upd_inode n (fun i => set_nlink (u32 (i_nlink i + 1)) i)).

Definition evfs_inode_dec_nlink (n : Z) : K fs Z :=
  drop_nlink n;;; ext4_mark_inode_dirty n.
Definition evfs_inode_inc_nlink (n : Z) : K fs Z :=
  inc_nlink n;;; ext4_mark_inode_dirty n.

Definition tracker_op (op : evfs_bitop) (n : Z) : K fs Z :=
  zoom f_tracker set_tracker (evfs_bit_wrapper op n).

Definition evfs_inode_track (n : Z) : K fs Z :=
  ret <~ tracker_op (EBO_BOOL test_and_set_bit) n;;
  kret (if ret =? 1 then - EEXIST else ret).

Definition evfs_inode_untrack (n : Z) : K fs Z :=
  ret <~ tracker_op (EBO_BOOL test_and_clear_bit) n;;
  let ret := if ret =? 0 then - ENOENT else ret in
  kret (if ret =? 1 then 0 else ret).

Definition evfs_inode_untrack_nolock (n : Z) : K fs Z :=
  tracker_op (EBO_VOID clear_bit) n.

(** *** Reading *)

(** [evfs_hello]: a message to the log. *)
Definition evfs_hello : K fs Z := call_int "printk" [];;; kret 0.

(** [evfs_iver]: the value copied to [*ver]. *)
Definition evfs_iver (n : Z) : K fs (Z * Z) :=
  s <~ kget;; kret (0, i_version (inode_of s n)).

Definition stat_of (s : fs) (s_dev n : Z) : evfs_stat :=
  let i := inode_of s n in
  Stat s_dev n (i_mode i) (i_nlink i) (i_uid i) (i_gid i)
    (if S_ISBLK (i_mode i) || S_ISCHR (i_mode i) then Some (i_rdev i) else None)
    (i_version i) (i_size i) (s_blocksize (f_sbi s)) (i_blocks i)
    (tv_sec (i_atime i)) (tv_nsec (i_atime i))
    (tv_sec (i_mtime i)) (tv_nsec (i_mtime i))
    (tv_sec (i_ctime i)) (tv_nsec (i_ctime i)).

(** [evfs_inode_read]: the error and, on success, what is copied to [args->out]. *)
Definition evfs_inode_read (s_dev iindex : Z) : K fs (Z * option evfs_stat) :=
  ino <~ ext4_iget iindex;;
  match ino with
  | PtrErr e => kret (e, None)
  | PtrNull => koops
  | PtrOk =>
      acquire (Shared (LInode iindex));;;
      s <~ kget;;
      let stat := stat_of s s_dev iindex in
      release (Shared (LInode iindex));;;
      iput iindex;;;
      kret (0, Some stat)
  end.

(** *** Allocating *)

(** [S_IFREG | 0644] *)
Definition new_mode : Z := Z.lor S_IFREG 420.

(** The inode as the handler fills it in before inserting it. *)
Definition fresh_inode (group sec nsec : Z) : inode :=
  let now := Ts sec nsec in
  Inode new_mode 1 0 0 0 0 0 0 now now now 0 false now 0 0 0 0 group (2 ^ 32 - 1) 0 0 zero_tree [].

(** The checksum seed of an inode. *)
Definition inode_seed (sbi : ext4_sb_info) (n gen : Z) : Z :=
  ext4_chksum (ext4_chksum (s_csum_seed sbi) (le_bytes 4 n)) (le_bytes 4 gen).

(** The descriptor after inode [offset] of the group was allocated. *)
Definition inode_alloc_gd (s : fs) (group offset : Z) : list Z :=
  let sbi := f_sbi s in
  let es := f_es s in
  let ipg := s_inodes_per_group sbi in
  let gd := gd_of s group in
  let gd := ext4_free_inodes_set sbi gd (u32 (ext4_free_inodes_count sbi gd - 1)) in
  if ext4_has_group_desc_csum sbi es then
    let gd :=
      if gd_has_flag gd EXT4_BG_BLOCK_UNINIT then
        let gd := gd_clear_flag gd EXT4_BG_BLOCK_UNINIT in
        let gd := ext4_free_group_clusters_set sbi gd (free_clusters_after_init sbi es group gd) in
        block_bitmap_csum_set sbi es gd (bbm_of s group)
      else gd in
    let free := s32 (ipg - ext4_itable_unused_count sbi gd) in
    let '(gd, free) :=
      if gd_has_flag gd EXT4_BG_INODE_UNINIT
      then (gd_clear_flag gd EXT4_BG_INODE_UNINIT, 0) else (gd, free) in
    let gd := if u64 free <? offset
              then ext4_itable_unused_set sbi gd (u32 (ipg - offset - 1)) else gd in
    let gd := inode_bitmap_csum_set sbi es gd (ibm_of s group) in
    ext4_group_desc_csum_set sbi es group gd
  else gd.

(** [out] *)
Definition ialloc_out (group ret : Z) : K fs Z :=
  s <~ kget;;
  release (bbm_ref s group);;; release (ibm_ref s group);;; kret ret.

(** [fail_init]; the inode is in the cache when [hashed]. *)
Definition ialloc_fail_init (group iindex : Z) (hashed : bool) (ret : Z) : K fs Z :=
  call_int "dquot_drop" [iindex];;;
  (if hashed then kmodify (upd_inode iindex set_noquota)
   else kret tt);;;
  iput iindex;;;
  ialloc_out group ret.

(** [stop_journal] *)
Definition ialloc_stop (group iindex : Z) (hashed : bool) (ret : Z) : K fs Z :=
  err <~ ext4_journal_stop;;
  let ret := if err <? 0 then err else ret in
  if 0 <=? ret then iput iindex;;; ialloc_out group ret
  else ialloc_fail_init group iindex hashed ret.

(** [fail_drop] *)
Definition ialloc_fail_drop (group iindex ret : Z) : K fs Z :=
  kmodify (upd_inode iindex (set_nlink 0));;;
  release (Excl (LNew iindex));;;
  ialloc_stop group iindex true ret.

(** [fail_free_drop] *)
Definition ialloc_fail_free_drop (group iindex ret : Z) : K fs Z :=
  call_int "dquot_free_inode" [iindex];;;
  ialloc_fail_drop group iindex ret.

(** From [dquot_alloc_inode] on: the inode is hashed and locked. *)
Definition ialloc_commit (group offset iindex : Z) : K fs Z :=
  err <~ call_int "dquot_alloc_inode" [iindex];;
  if negb (err =? 0) then ialloc_fail_drop group iindex err else
  err <~ ext4_mark_inode_dirty iindex;;
  if negb (err =? 0) then ialloc_fail_free_drop group iindex err else
  acquire (Excl (LGroup group));;;
  kmodify (fun s => set_gd group (inode_alloc_gd s group offset) s);;;
  release (Excl (LGroup group));;;
  kmodify (fun s => set_freeinodes (f_freeinodes s - 1) s);;;
  err <~ call_int "ext4_handle_dirty_metadata" [0; group];;
  if err <? 0 then ialloc_fail_free_drop group iindex err else
  err <~ call_int "ext4_handle_dirty_metadata" [1; group];;
  if err <? 0 then ialloc_fail_free_drop group iindex err else
  err <~ call_int "ext4_handle_dirty_metadata" [2; group];;
  if err <? 0 then ialloc_fail_free_drop group iindex err else
  release (Excl (LNew iindex));;;
  ialloc_stop group iindex true 0.

(** The set-up of the new inode after its bit was taken. *)
Definition ialloc_setup (group offset iindex : Z) : K fs Z :=
  err <~ evfs_inode_track iindex;;
  if err <? 0 then ialloc_stop group iindex false err else
  sec <~ call_int "current_time_sec" [];;
  nsec <~ call_int "current_time_nsec" [];;
  call_int "ext4_set_inode_flags" [iindex];;;
  ins <~ call_int "insert_inode_locked" [iindex];;
  if ins <? 0 then ialloc_stop group iindex false (- EIO) else
  acquire (Excl (LNew iindex));;;
  gen <~ call_int "get_random_u32" [];;
  kmodify (fun s =>
    let i := fresh_inode group sec nsec in
    set_inode iindex
      (set_seed gen (if ext4_has_metadata_csum (f_sbi s) (f_es s)
                     then inode_seed (f_sbi s) iindex gen else i_csum_seed i) i) s);;;
  ialloc_commit group offset iindex.

(** [evfs_inode_alloc] *)
Definition evfs_inode_alloc (iindex : Z) : K fs Z :=
  s <~ kget;;
  let ipg := s_inodes_per_group (f_sbi s) in
  let group := u32 (u64 (iindex - 1) / ipg) in
  let offset := u64 (iindex - 1) mod ipg in
  ibh <~ ext4_read_inode_bitmap group;;
  match ibh with
  | PtrErr e => kret e
  | PtrNull => koops
  | PtrOk =>
      bbh <~ ext4_read_block_bitmap group;;
      match bbh with
      | PtrErr e => s <~ kget;; release (ibm_ref s group);;; kret e
      | PtrNull => koops
      | PtrOk =>
          gd <~ call_ptr "ext4_get_group_desc" [group];;
          match gd with
          | PtrOk =>
              ino <~ call_ptr "new_inode" [];;
              match ino with
              | PtrOk =>
                  acquire (Ref (RInode iindex));;;
                  err <~ call_int "dquot_initialize" [iindex];;
                  if negb (err =? 0) then ialloc_fail_init group iindex false err else
                  h <~ ext4_journal_start 5;;
                  match h with
                  | PtrErr e => ialloc_fail_init group iindex false e
                  | PtrNull => koops
                  | PtrOk =>
                      err <~ call_int "ext4_journal_get_write_access" [2; group];;
                      if err <? 0 then ialloc_stop group iindex false err else
                      err <~ call_int "ext4_journal_get_write_access" [1; group];;
                      if err <? 0 then ialloc_stop group iindex false err else
                      err <~ call_int "ext4_journal_get_write_access" [0; group];;
                      if err <? 0 then ialloc_stop group iindex false err else
                      acquire (Excl (LGroup group));;;
                      s <~ kget;;
                      let '(old, bm) := test_and_set_bit offset (ibm_of s group) in
                      kmodify (set_ibm group bm);;;
                      release (Excl (LGroup group));;;
                      if old : bool then ialloc_stop group iindex false (- EEXIST)
                      else ialloc_setup group offset iindex
                  end
              | _ => ialloc_out group (- ENOMEM)
              end
          | _ => ialloc_out group (- EINVAL)
          end
      end
  end.

(** *** Freeing *)

(** [evfs_inode_free] *)
Definition evfs_inode_free (iindex : Z) : K fs Z :=
  ino <~ ext4_iget iindex;;
  match ino with
  | PtrErr e => kret e
  | PtrNull => koops
  | PtrOk =>
      inode_lock iindex;;;
      let release_inode ret := inode_unlock iindex;;; iput iindex;;; kret ret in
      let stop_journal ret :=
        err <~ ext4_journal_stop;; release_inode (if err <? 0 then err else ret) in
      h <~ ext4_journal_start 3;;
      match h with
      | PtrErr e => release_inode e
      | PtrNull => koops
      | PtrOk =>
          s <~ kget;;
          if 1 <? i_nlink (inode_of s iindex) then stop_journal (- EBUSY) else
          err <~ evfs_inode_untrack iindex;;
          if err <? 0 then stop_journal err else
          evfs_inode_dec_nlink iindex;;;
          call_int "ext4_orphan_add" [iindex];;;
          stop_journal 0
      end
  end.

(** *** Iterating *)

(** The loop of [evfs_inode_iter] from inode [i], [n] inodes left.  The C index has 32
    bits: it cannot wrap when [s_inodes_count] is below 2^32 - 1, which the property of
    the iterator assumes. *)
Fixpoint inode_iter_loop (n : nat) (i : Z) : K fs Z :=
  match n with
  | O => kret 0
  | S n =>
      s <~ kget;;
      let ipg := s_inodes_per_group (f_sbi s) in
      let group := u32 (i - 1) / ipg in
      let offset := u32 (i - 1) mod ipg in
      bh <~ ext4_read_inode_bitmap group;;
      match bh with
      | PtrOk =>
          let in_use := Z.testbit (ibm_of s group) offset in
          release (ibm_ref s group);;;
          if in_use then kret i else inode_iter_loop n (i + 1)
      | _ => inode_iter_loop n (i + 1)
      end
  end.

(** [evfs_inode_iter]: the number stored in [args->out.ino_num]. *)
Definition evfs_inode_iter (start : Z) : K fs Z :=
  s <~ kget;;
  let total := s_inodes_count (f_es s) in
  let start := u32 start in
  inode_iter_loop (Z.to_nat (total - start + 1)) start.
End Inode.

(** ** Rules *)

(** Allocations of the tracker succeed. *)
Definition kzalloc_ok `{Env} : Prop := forall h a, env_ptr h "kzalloc" a = PtrOk.

(** The tracker, when the mount created it, is well formed. *)
Definition tracker_ok (s : fs) : Prop :=
  match f_tracker s with Some t => tracker_wf t | None => True end.

(** The abstract set of tracked inodes. *)
Definition is_tracked (s : fs) (n : Z) : bool :=
  match f_tracker s with Some t => tracked t n | None => false end.

(** The numbers the tracker can record. *)
Definition trackable (s : fs) (n : Z) : Prop :=
  exists t, f_tracker s = Some t /\ 0 <= n < capacity t.

(** [s'] is [s] with tracked bit [n] set to [v]. *)
Definition tracked_to (n : Z) (v : bool) (s s' : fs) : Prop :=
  exists t', s' = set_tracker (Some t') s /\ tracker_wf t' /\
    (forall k, 0 <= k -> is_tracked s' k = if k =? n then v else is_tracked s k).

Section InodeRules.
Context `{EnvFs} `{Csum} `{BallocOk}.

Lemma wp_tracker_op o n s held calls (Q : Z -> world fs -> Prop) :
  0 <= n -> tracker_ok s -> no_tracker_lock held -> kzalloc_ok ->
  (forall e calls, e < 0 -> ~ trackable s n -> Q e (World s held calls)) ->
  (forall s' calls, trackable s n -> tracked_to n (trk_bit o) s s' ->
     Q (trk_ret o (is_tracked s n)) (World s' held calls)) ->
  wp (tracker_op (bitop_of o) n) Q (World s held calls).
Proof.
  intros Hn Hok Hl Hk Herr HQ. unfold tracker_op. wp_step. unfold tracker_ok in Hok.
  destruct (f_tracker s) as [t|] eqn:Ht.
  - destruct (Z.lt_ge_cases n (capacity t)) as [Hlt|Hge].
    + eapply wp_mono; [apply bit_wrapper_set; auto|].
      intros r w' (-> & Hh & t' & Hst & Hwf & Hnum & Hup). rewrite Hh, Hst.
      replace (tracked t n) with (is_tracked s n) by (unfold is_tracked; by rewrite Ht).
      apply HQ; [by exists t|]. exists t'. split_and!; [done|done|].
      intros k Hk0. unfold is_tracked at 1. cbn [f_tracker set_tracker].
      rewrite Hup by done. unfold is_tracked. rewrite Ht. reflexivity.
    + unfold wp. rewrite evfs_bit_wrapper_range; [|done|destruct Hok; lia].
      replace (set_tracker (Some t) s) with s by (destruct s; cbn in *; by subst).
      cbn. replace (set_tracker (Some t) s) with s by (destruct s; cbn in *; by subst).
      apply Herr; [done|]. intros (t2 & Ht2 & ?). simplify_eq. lia.
  - unfold evfs_bit_wrapper. wp_auto.
    replace (set_tracker None s) with s by (destruct s; cbn in *; by subst).
    apply Herr; [done|]. intros (t2 & Ht2 & ?). simplify_eq.
Qed.

Lemma wp_inode_track n s held calls (Q : Z -> world fs -> Prop) :
  0 <= n -> tracker_ok s -> no_tracker_lock held -> kzalloc_ok ->
  (forall e s' calls, e < 0 -> (s' = s /\ ~ trackable s n \/
      is_tracked s n = true /\ tracked_to n true s s') -> Q e (World s' held calls)) ->
  (forall s' calls, trackable s n -> is_tracked s n = false -> tracked_to n true s s' ->
     Q 0 (World s' held calls)) ->
  wp (evfs_inode_track n) Q (World s held calls).
Proof.
  intros Hn Hok Hl Hk Herr HQ. unfold evfs_inode_track. wp_step.
  apply (wp_tracker_op TrkTestSet); auto.
  - intros e c He Hnt. wp_step. destruct (Z.eqb_spec e 1); [lia|]. auto.
  - intros s' c Htr Hto. cbn [trk_ret]. wp_step. destruct (is_tracked s n) eqn:Hb; cbn.
    + apply Herr; [done|]. by right.
    + by apply HQ.
Qed.

Lemma wp_inode_untrack n s held calls (Q : Z -> world fs -> Prop) :
  0 <= n -> tracker_ok s -> no_tracker_lock held -> kzalloc_ok ->
  (forall e s' calls, e < 0 -> is_tracked s n = false \/ ~ trackable s n ->
     s' = s \/ tracked_to n false s s' -> Q e (World s' held calls)) ->
  (forall s' calls, is_tracked s n = true -> tracked_to n false s s' ->
     Q 0 (World s' held calls)) ->
  wp (evfs_inode_untrack n) Q (World s held calls).
Proof.
  intros Hn Hok Hl Hk Herr HQ. unfold evfs_inode_untrack. wp_step.
  apply (wp_tracker_op TrkTestClear); auto.
  - intros e c He Hnt. wp_step. rewrite (proj2 (Z.eqb_neq e 0)) by lia.
    rewrite (proj2 (Z.eqb_neq e 1)) by lia. auto.
  - intros s' c Htr Hto. cbn [trk_ret]. wp_step. destruct (is_tracked s n) eqn:Hb; cbn.
    + by apply HQ.
    + apply Herr; auto. done.
Qed.

(** *** The descriptor of the group *)

Lemma free_inodes_set_eq sbi gd v : ext4_free_inodes_set sbi gd v = gd_write sbi FFreeInodes gd v.
Proof. done. Qed.
Lemma itable_unused_set_eq sbi gd v :
  ext4_itable_unused_set sbi gd v = gd_write sbi FItableUnused gd v.
Proof. done. Qed.

(** Fields the allocation of an inode does not write. *)
Lemma inode_alloc_gd_keeps s g off f :
  f <> FFreeInodes -> f <> FFreeClusters -> f <> FItableUnused ->
  gd_read (f_sbi s) f (inode_alloc_gd s g off) = gd_read (f_sbi s) f (gd_of s g).
Proof.
  intros H1' H2' H3'. unfold inode_alloc_gd. cbv zeta.
  rewrite ?free_inodes_set_eq, ?free_clusters_set_eq.
  repeat case_match; simplify_eq;
    repeat first [rewrite (proj1 (gd_csum_keeps _ _ _ _)) | rewrite ibm_csum_read
      | rewrite bbm_csum_read | rewrite itable_unused_set_eq | rewrite gd_read_clear_flag
      | rewrite gd_read_write_ne by done ]; done.
Qed.

(** The step that takes the block bitmap into use, if needed. *)
Definition init_blocks (s : fs) (g : Z) (gd : list Z) : list Z :=
  if gd_has_flag gd EXT4_BG_BLOCK_UNINIT then
    let gd := gd_clear_flag gd EXT4_BG_BLOCK_UNINIT in
    let gd := ext4_free_group_clusters_set (f_sbi s) gd
                (free_clusters_after_init (f_sbi s) (f_es s) g gd) in
    block_bitmap_csum_set (f_sbi s) (f_es s) gd (bbm_of s g)
  else gd.

Lemma init_blocks_keeps s g gd f :
  gd_wf (f_sbi s) gd -> f <> FFreeClusters ->
  gd_wf (f_sbi s) (init_blocks s g gd) /\
  gd_read (f_sbi s) f (init_blocks s g gd) = gd_read (f_sbi s) f gd.
Proof.
  intros Hwf Hf. unfold init_blocks. case_match; [|done]. cbv zeta. split.
  - apply bbm_csum_wf. rewrite free_clusters_set_eq. by apply gd_write_wf, gd_clear_flag_wf.
  - by rewrite bbm_csum_read, free_clusters_set_eq, gd_read_write_ne, gd_read_clear_flag by done.
Qed.

(** The free inode count, and the checksum. *)
Lemma inode_alloc_gd_count s g off :
  gd_wf (f_sbi s) (gd_of s g) ->
  let gd := inode_alloc_gd s g off in
  ext4_free_inodes_count (f_sbi s) gd =
    u32 (ext4_free_inodes_count (f_sbi s) (gd_of s g) - 1) mod 2 ^ gd_bits (f_sbi s) FFreeInodes /\
  ext4_group_desc_csum_verify (f_sbi s) (f_es s) g gd = true.
Proof.
  intros Hwf gd. change (ext4_free_inodes_count ?a gd) with (gd_read a FFreeInodes gd).
  subst gd. unfold inode_alloc_gd. cbv zeta.
  set (n := u32 (ext4_free_inodes_count (f_sbi s) (gd_of s g) - 1)).
  rewrite free_inodes_set_eq. set (gd1 := gd_write _ _ _ _).
  assert (Hwf1 : gd_wf (f_sbi s) gd1) by (by apply gd_write_wf).
  assert (Hr1 : gd_read (f_sbi s) FFreeInodes gd1 = n mod 2 ^ gd_bits (f_sbi s) FFreeInodes)
    by (by apply gd_read_write_eq).
  destruct (ext4_has_group_desc_csum (f_sbi s) (f_es s)) eqn:Hc.
  2:{ split; [done|]. unfold ext4_group_desc_csum_verify. by rewrite Hc. }
  fold (init_blocks s g gd1).
  destruct (init_blocks_keeps s g gd1 FFreeInodes Hwf1) as [Hwf2 Hr2]; [done|].
  set (gd2 := init_blocks s g gd1) in *.
  assert (Hcl : gd_wf (f_sbi s) (gd_clear_flag gd2 EXT4_BG_INODE_UNINIT) /\
    gd_read (f_sbi s) FFreeInodes (gd_clear_flag gd2 EXT4_BG_INODE_UNINIT) =
      gd_read (f_sbi s) FFreeInodes gd2)
    by (split; [by apply gd_clear_flag_wf|apply gd_read_clear_flag]).
  destruct Hcl as [Hwf3 Hr3].
  destruct (gd_has_flag gd2 EXT4_BG_INODE_UNINIT); rewrite itable_unused_set_eq;
    case_match; split;
    (rewrite (proj1 (gd_csum_keeps _ _ _ _)) || apply gd_csum_verify);
    (rewrite ibm_csum_read || apply ibm_csum_wf);
    try (by apply gd_write_wf); try rewrite gd_read_write_ne by done; congruence || done.
Qed.

(** *** The exits of the handler *)

Definition ialloc_refs (s : fs) (g n : Z) : list res :=
  [Ref (RInode n); bbm_ref s g; ibm_ref s g].

Lemma wp_ialloc_stop g n hashed ret s held calls (Q : Z -> world fs -> Prop) :
  (forall ret' s' calls, (ret' = ret \/ ret' < 0) ->
     (s' = s \/ hashed = true /\ ret' < 0 /\ s' = upd_inode n set_noquota s) ->
     Q ret' (World s' held calls)) ->
  wp (ialloc_stop g n hashed ret) Q (World s (Ref RHandle :: ialloc_refs s g n ++ held) calls).
Proof.
  intros HQ. unfold ialloc_stop. wp_step. apply wp_journal_stop. intros err c.
  set (r := if err <? 0 then err else ret).
  assert (Hr : r = ret \/ r < 0) by (subst r; destruct (Z.ltb_spec err 0); auto).
  unfold ialloc_fail_init, ialloc_out, ialloc_refs, iput. cbn [app].
  destruct (Z.leb_spec 0 r).
  - repeat wp_step. by apply HQ; [|left].
  - wp_step. wp_step. wp_step. destruct hashed; repeat wp_step.
    + apply HQ; auto.
    + apply HQ; auto.
Qed.

Lemma wp_ialloc_fail_init g n ret s held calls (Q : Z -> world fs -> Prop) :
  (forall calls, Q ret (World s held calls)) ->
  wp (ialloc_fail_init g n false ret) Q (World s (ialloc_refs s g n ++ held) calls).
Proof. intros HQ. unfold ialloc_fail_init, ialloc_out, iput. repeat wp_step. apply HQ. Qed.

(** What the second half of the allocation may change: group [g]'s descriptor,
    inode [n] and the per-cpu counter. *)
Record iframe (g n : Z) (s s' : fs) : Prop := {
  if_sbi : f_sbi s' = f_sbi s;
  if_es : f_es s' = f_es s;
  if_bbm : f_bbm s' = f_bbm s;
  if_ibm : f_ibm s' = f_ibm s;
  if_tracker : f_tracker s' = f_tracker s;
  if_gd : forall h, h <> g -> gd_of s' h = gd_of s h;
  if_inodes : forall m, m <> n -> f_inodes s' !! m = f_inodes s !! m
}.

Lemma iframe_refl g n s : iframe g n s s.
Proof. by split. Qed.

Lemma iframe_upd_inode g n f s s' : iframe g n s s' -> iframe g n s (upd_inode n f s').
Proof.
  intros []. split; try done. intros m Hm. cbn. rewrite lookup_insert_ne by done. auto.
Qed.

Lemma iframe_commit g n s gd x : iframe g n s (set_freeinodes x (set_gd g gd s)).
Proof. split; try done. intros h Hh. by apply (gd_of_set_gd_ne s g h gd). Qed.

(** The state after a successful allocation. *)
Definition ialloc_done (g off : Z) (s : fs) : fs :=
  set_freeinodes (f_freeinodes s - 1) (set_gd g (inode_alloc_gd s g off) s).

Lemma ialloc_refs_done g off n s : ialloc_refs (ialloc_done g off s) g n = ialloc_refs s g n.
Proof.
  unfold ialloc_refs, bbm_ref, ibm_ref. change (f_sbi (ialloc_done g off s)) with (f_sbi s).
  replace (gd_of (ialloc_done g off s) g) with (inode_alloc_gd s g off)
    by (symmetry; apply (gd_of_set_gd s)).
  change (ext4_block_bitmap ?a ?b) with (gd_read a FBlockBitmap b).
  change (ext4_inode_bitmap ?a ?b) with (gd_read a FInodeBitmap b).
  by rewrite !inode_alloc_gd_keeps by done.
Qed.

Lemma wp_ialloc_fail_drop g n ret s s0 held calls (Q : Z -> world fs -> Prop) :
  iframe g n s0 s -> ret <> 0 ->
  (forall ret s' calls, ret <> 0 -> iframe g n s0 s' -> Q ret (World s' held calls)) ->
  wp (ialloc_fail_drop g n ret) Q
     (World s (Excl (LNew n) :: Ref RHandle :: ialloc_refs s g n ++ held) calls).
Proof.
  intros Hf Hne HQ. unfold ialloc_fail_drop. do 4 wp_step.
  change (ialloc_refs s g n) with (ialloc_refs (upd_inode n (set_nlink 0) s) g n).
  apply wp_ialloc_stop. intros ret' s' c Hr Hs. apply HQ; [lia|].
  destruct Hs as [->|(_ & _ & ->)]; auto using iframe_upd_inode.
Qed.

Lemma wp_ialloc_commit g off n s held calls (Q : Z -> world fs -> Prop) :
  no_block_lock held ->
  (forall ret s' calls, ret <> 0 -> iframe g n s s' -> Q ret (World s' held calls)) ->
  (forall calls, Q 0 (World (ialloc_done g off s) held calls)) ->
  wp (ialloc_commit g off n) Q
     (World s (Excl (LNew n) :: Ref RHandle :: ialloc_refs s g n ++ held) calls).
Proof.
  intros Hl Herr Hok. unfold ialloc_commit, ext4_mark_inode_dirty. wp_step. wp_step.
  destruct (Z.eqb_spec z 0) as [_|Hz]; cbn [negb].
  2:{ by apply (wp_ialloc_fail_drop g n z s s); [apply iframe_refl|..]. }
  wp_step. wp_step. destruct (Z.eqb_spec z0 0) as [_|Hz0]; cbn [negb].
  2:{ unfold ialloc_fail_free_drop. wp_step. wp_step.
      by apply (wp_ialloc_fail_drop g n z0 s s); [apply iframe_refl|..]. }
  wp_step. wp_step. { unfold bbm_ref, ibm_ref. cbn. apply Hl. right. eauto. }
  do 6 wp_step. fold (ialloc_done g off s).
  change (Ref (RInode n) :: bbm_ref s g :: ibm_ref s g :: held)
    with (ialloc_refs s g n ++ held)%list.
  rewrite <- (ialloc_refs_done g off n s).
  assert (Hf : iframe g n s (ialloc_done g off s)) by apply iframe_commit.
  do 3 (wp_step; wp_step; match goal with |- wp (if ?z <? 0 then _ else _) _ _ =>
    destruct (Z.ltb_spec z 0);
      [unfold ialloc_fail_free_drop; wp_step; wp_step;
       apply (wp_ialloc_fail_drop g n z _ s); [done|lia|done]|] end).
  wp_step. wp_step. apply wp_ialloc_stop. intros ret' s' c Hr Hs.
  destruct (decide (ret' = 0)) as [->|Hne].
  - destruct Hs as [->|(_ & ? & _)]; [apply Hok|lia].
  - apply Herr; [done|]. destruct Hs as [->|(_ & _ & ->)]; auto using iframe_upd_inode.
Qed.

(** The locks the handler takes are free. *)
Record ialloc_unlocked (n : Z) (held : list res) : Prop := {
  iu_block : no_block_lock held;
  iu_tracker : no_tracker_lock held;
  iu_new : existsb (blocks_on (Excl (LNew n))) held = false
}.

Lemma no_tracker_refs s g n held :
  no_tracker_lock held -> no_tracker_lock (Ref RHandle :: ialloc_refs s g n ++ held).
Proof. intros Hl m. cbn. apply Hl. Qed.

(** [s'] differs from [s] in the inode bitmap by [bit], in the tracker, and as
    [iframe] says. *)
Definition ialloc_frame (g n : Z) (s s' : fs) : Prop :=
  f_sbi s' = f_sbi s /\ f_es s' = f_es s /\ f_bbm s' = f_bbm s /\
  (forall h, h <> g -> gd_of s' h = gd_of s h) /\
  (forall m, m <> n -> f_inodes s' !! m = f_inodes s !! m) /\
  (forall m, 0 <= m -> m <> n -> is_tracked s' m = is_tracked s m).

Lemma ialloc_frame_tracked g n s s1 v : tracked_to n v s s1 -> ialloc_frame g n s s1.
Proof.
  intros (t' & -> & _ & Ht). unfold ialloc_frame. split_and!; try done.
  intros m Hm Hne. rewrite Ht by done. by rewrite (proj2 (Z.eqb_neq m n)).
Qed.

Lemma ialloc_frame_iframe g n s s1 s' :
  ialloc_frame g n s s1 -> iframe g n s1 s' -> ialloc_frame g n s s'.
Proof.
  intros (A & B & C & D & E & F) [A' B' C' _ T' D' E']. unfold ialloc_frame.
  split_and!; try congruence.
  - intros h Hh. rewrite D' by done. auto.
  - intros m Hm. rewrite E' by done. auto.
  - intros m Hm Hne. unfold is_tracked in *. rewrite T'. by apply F.
Qed.

(** The inode a successful allocation leaves in the cache. *)
Definition new_inode_ok (sbi : ext4_sb_info) (es : list Z) (g n : Z) (i : inode) : Prop :=
  i_mode i = new_mode /\ i_nlink i = 1 /\ i_size i = 0 /\ i_block_group i = g /\
  i_tree i = zero_tree /\
  (ext4_has_metadata_csum sbi es = true -> i_csum_seed i = inode_seed sbi n (i_generation i)).

Lemma wp_ialloc_setup g off n s held calls (Q : Z -> world fs -> Prop) :
  0 <= n -> tracker_ok s -> ialloc_unlocked n held -> kzalloc_ok ->
  (forall ret s' calls, ret <> 0 -> ialloc_frame g n s s' -> f_ibm s' = f_ibm s ->
     Q ret (World s' held calls)) ->
  (forall s1 i calls, trackable s n -> is_tracked s n = false -> tracked_to n true s s1 ->
     new_inode_ok (f_sbi s) (f_es s) g n i ->
     Q 0 (World (ialloc_done g off (set_inode n i s1)) held calls)) ->
  wp (ialloc_setup g off n) Q (World s (Ref RHandle :: ialloc_refs s g n ++ held) calls).
Proof.
  intros Hn Htok [Hlb Hlt Hln] Hk Herr Hok. unfold ialloc_setup. wp_step.
  apply wp_inode_track; auto using no_tracker_refs.
  - intros e s1 c He Hs1. rewrite (proj2 (Z.ltb_lt e 0) He).
    assert (Hf : ialloc_frame g n s s1 /\ f_ibm s1 = f_ibm s /\
              ialloc_refs s g n = ialloc_refs s1 g n).
    { destruct Hs1 as [[-> _]|[_ Hto]]; [by split|].
      pose proof (ialloc_frame_tracked g n s s1 true Hto). by destruct Hto as (t' & -> & _). }
    destruct Hf as (Hf & Hi & ->). apply wp_ialloc_stop. intros ret' s' c' Hr Hs'.
    destruct Hs' as [->|(? & _)]; [|done]. apply Herr; [lia|done|done].
  - intros s1 c Htr Hnt Hto. cbn [Z.ltb Z.compare].
    pose proof (ialloc_frame_tracked g n s s1 true Hto) as Hf.
    assert (Hs1 : f_ibm s1 = f_ibm s /\ ialloc_refs s g n = ialloc_refs s1 g n /\
              f_sbi s1 = f_sbi s /\ f_es s1 = f_es s)
      by (by destruct Hto as (t' & -> & _)).
    destruct Hs1 as (Hi & -> & Hsbi & Hes).
    do 8 wp_step. match goal with |- wp (if ?z <? 0 then _ else _) _ _ =>
      destruct (Z.ltb_spec z 0) end.
    { apply wp_ialloc_stop. intros ret' s' c' Hr Hs'. unfold EIO in Hr.
      destruct Hs' as [->|(? & _)]; [|done]. apply Herr; [lia|done|done]. }
    do 6 wp_step. set (i := set_seed _ _ _).
    change (ialloc_refs s1 g n) with (ialloc_refs (set_inode n i s1) g n).
    apply wp_ialloc_commit; [done| |].
    + intros ret s' c' Hne Hfr. apply Herr; [done| |].
      * eapply ialloc_frame_iframe; [|exact Hfr].
        eapply ialloc_frame_iframe; [exact Hf|].
        split; try done. intros m Hm. cbn. by rewrite lookup_insert_ne.
      * rewrite (if_ibm _ _ _ _ Hfr). exact Hi.
    + intros c'. apply Hok; [done..|]. unfold new_inode_ok, i. cbn.
      split_and!; try done. rewrite <- Hsbi, <- Hes. by intros ->.
Qed.

Definition inode_group (s : fs) (n : Z) : Z :=
  u32 (u64 (n - 1) / s_inodes_per_group (f_sbi s)).
Definition inode_offset (s : fs) (n : Z) : Z :=
  u64 (n - 1) mod s_inodes_per_group (f_sbi s).

Lemma ibm_of_set_ibm s g x : ibm_of (set_ibm g x s) g = x.
Proof. unfold ibm_of, set_ibm. cbn. by rewrite lookup_insert_eq. Qed.

Lemma set_ibm_same s g x : ibm_of s g = x -> f_ibm s !! g <> None -> set_ibm g x s = s.
Proof.
  intros Hb Hs. destruct s as [sbi es gd bbm ibm fc fi tr ino]. unfold set_ibm, ibm_of in *.
  cbn in *. f_equal. apply insert_id. by destruct (ibm !! g) as [y|]; [subst|].
Qed.

Lemma wp_inode_alloc n s held calls (Q : Z -> world fs -> Prop) :
  let g := inode_group s n in
  let off := inode_offset s n in
  let s0 := set_ibm g (Z.setbit (ibm_of s g) off) s in
  0 <= n -> 0 < s_inodes_per_group (f_sbi s) -> tracker_ok s -> ialloc_unlocked n held ->
  kzalloc_ok ->
  (forall ret calls, ret <> 0 -> Q ret (World s held calls)) ->
  (forall ret s' calls, ret <> 0 -> Z.testbit (ibm_of s g) off = false ->
     ialloc_frame g n s0 s' -> f_ibm s' = f_ibm s0 -> Q ret (World s' held calls)) ->
  (forall s1 i calls, Z.testbit (ibm_of s g) off = false ->
     trackable s n -> is_tracked s n = false -> tracked_to n true s0 s1 ->
     new_inode_ok (f_sbi s) (f_es s) g n i ->
     Q 0 (World (ialloc_done g off (set_inode n i s1)) held calls)) ->
  wp (evfs_inode_alloc n) Q (World s held calls).
Proof.
  intros g off s0 Hn Hipg Htok Hul Hk Hno Herr Hok. pose proof Hul as [Hlb Hlt Hln].
  assert (Hoff : 0 <= off) by (apply Z.mod_pos_bound; lia).
  unfold evfs_inode_alloc. wp_step. wp_step. fold (inode_group s n) (inode_offset s n).
  fold g off. wp_step. apply wp_read_inode_bitmap; intros.
  2:{ wp_step. apply Hno. lia. }
  wp_step. apply wp_read_block_bitmap; intros.
  2:{ repeat wp_step. apply Hno. lia. }
  wp_step. wp_step. destruct r.
  2,3: unfold ialloc_out; repeat wp_step; apply Hno; done.
  wp_step. wp_step. destruct r.
  2,3: unfold ialloc_out; repeat wp_step; apply Hno; done.
  wp_step. wp_step. wp_step. wp_step.
  change (Ref (RInode n) :: bbm_ref s g :: ibm_ref s g :: held)
    with (ialloc_refs s g n ++ held)%list.
  destruct (Z.eqb_spec z 0) as [_|Hz]; cbn [negb].
  2:{ apply wp_ialloc_fail_init. intros. by apply Hno. }
  wp_step. apply wp_journal_start; intros.
  2:{ apply wp_ialloc_fail_init. intros. apply Hno. lia. }
  assert (Hstop : forall ret c, ret <> 0 -> wp (ialloc_stop g n false ret) Q
      (World s (Ref RHandle :: ialloc_refs s g n ++ held) c)).
  { intros ret c Hr. apply wp_ialloc_stop. intros ret' s' c' Hr' Hs'.
    destruct Hs' as [->|(? & _)]; [|done]. apply Hno. lia. }
  do 3 (wp_step; wp_step; match goal with |- wp (if ?z <? 0 then _ else _) _ _ =>
    destruct (Z.ltb_spec z 0); [apply Hstop; lia|] end).
  wp_step. wp_step. { apply Hlb. right. eauto. }
  wp_step. wp_step. unfold test_and_set_bit. do 4 wp_step.
  destruct (Z.testbit (ibm_of s g) off) eqn:Hb.
  - rewrite setbit_idem by done. rewrite set_ibm_same; [|done|].
    2:{ intros Hx. unfold ibm_of in Hb. rewrite Hx in Hb. by cbn in Hb; rewrite Z.bits_0 in Hb. }
    by apply Hstop.
  - fold s0. change (ialloc_refs s g n) with (ialloc_refs s0 g n).
    apply wp_ialloc_setup; [done|done|done|done| |].
    + intros ret s' c Hr Hf Hi. by apply (Herr ret).
    + intros s1 i c Htr Hnt Hto Hi. by apply Hok.
Qed.

(** C3: [evfs_inode_alloc] when the bitmaps of the tracker can be allocated (a failed kzalloc
    is the Oops of bit_wrapper_oom_oops), the tracker and the descriptor are well formed and
    the locks are free: on every other answer of the outside it returns with all locks,
    references and the handle given back.  It answers 0 only when the inode's bit
    was clear and the inode was not yet tracked; then exactly that bit is set, the
    inode is tracked, it is in the cache as an empty regular file with one link and
    the checksum seed of its number and generation, the group's free inode count and
    the per-cpu counter are one lower, and the descriptor's checksum verifies.  On an
    error no other inode, bitmap or group is touched. *)
Theorem inode_alloc_correct n s held calls :
  let g := inode_group s n in
  let off := inode_offset s n in
  0 <= n -> 0 < s_inodes_per_group (f_sbi s) -> tracker_ok s -> ialloc_unlocked n held ->
  kzalloc_ok -> gd_wf (f_sbi s) (gd_of s g) ->
  exists ret s' calls',
    evfs_inode_alloc n (World s held calls) = Ret ret (World s' held calls') /\
    ialloc_frame g n s s' /\
    (ibm_of s' g = ibm_of s g \/
     Z.testbit (ibm_of s g) off = false /\ ibm_of s' g = Z.setbit (ibm_of s g) off) /\
    (ret = 0 ->
     Z.testbit (ibm_of s g) off = false /\ ibm_of s' g = Z.setbit (ibm_of s g) off /\
     is_tracked s n = false /\ is_tracked s' n = true /\
     (exists i, f_inodes s' !! n = Some i /\ new_inode_ok (f_sbi s) (f_es s) g n i) /\
     ext4_free_inodes_count (f_sbi s) (gd_of s' g) =
       u32 (ext4_free_inodes_count (f_sbi s) (gd_of s g) - 1)
         mod 2 ^ gd_bits (f_sbi s) FFreeInodes /\
     f_freeinodes s' = f_freeinodes s - 1 /\
     ext4_group_desc_csum_verify (f_sbi s') (f_es s') g (gd_of s' g) = true).
Proof.
  intros g off Hn Hipg Htok Hul Hk Hgd.
  set (s0 := set_ibm g (Z.setbit (ibm_of s g) off) s).
  assert (Hs0 : forall s', ialloc_frame g n s0 s' -> ialloc_frame g n s s') by done.
  enough (Hwp : wp (evfs_inode_alloc n) (fun ret w' => w_held w' = held /\
    ialloc_frame g n s (w_st w') /\
    (ibm_of (w_st w') g = ibm_of s g \/
     Z.testbit (ibm_of s g) off = false /\ ibm_of (w_st w') g = Z.setbit (ibm_of s g) off) /\
    (ret = 0 ->
     Z.testbit (ibm_of s g) off = false /\ ibm_of (w_st w') g = Z.setbit (ibm_of s g) off /\
     is_tracked s n = false /\ is_tracked (w_st w') n = true /\
     (exists i, f_inodes (w_st w') !! n = Some i /\ new_inode_ok (f_sbi s) (f_es s) g n i) /\
     ext4_free_inodes_count (f_sbi s) (gd_of (w_st w') g) =
       u32 (ext4_free_inodes_count (f_sbi s) (gd_of s g) - 1)
         mod 2 ^ gd_bits (f_sbi s) FFreeInodes /\
     f_freeinodes (w_st w') = f_freeinodes s - 1 /\
     ext4_group_desc_csum_verify (f_sbi (w_st w')) (f_es (w_st w')) g (gd_of (w_st w') g) = true))
    (World s held calls)).
  { apply wp_run in Hwp as (ret & [s' h' c'] & Hr & Hh & Hrest). cbn in *. subst h'. eauto. }
  apply wp_inode_alloc; auto.
  - intros ret c Hr. cbn. split_and!; [done|by split_and!|by left|done].
  - intros ret s' c Hr Hb Hf Hi. cbn. split_and!; [done|by apply Hs0| |done].
    right. split; [done|]. unfold ibm_of at 1. rewrite Hi. apply (ibm_of_set_ibm s).
  - intros s1 i c Hb Htr Hnt Hto Hi. cbn [w_st w_held].
    assert (Hs1 : exists t', s1 = set_tracker (Some t') s0) by (destruct Hto as (t' & -> & _); eauto).
    fold g off. set (s2 := set_inode n i s1). set (s3 := ialloc_done g off s2).
    assert (Hibm : ibm_of s3 g = Z.setbit (ibm_of s g) off)
      by (destruct Hs1 as (t' & ->); apply (ibm_of_set_ibm s)).
    assert (Hgd2 : gd_of s2 g = gd_of s g /\ f_sbi s2 = f_sbi s /\ f_es s2 = f_es s)
      by (by destruct Hs1 as (t' & ->)).
    destruct Hgd2 as (Hg2 & Hsbi2 & Hes2).
    destruct (inode_alloc_gd_count s2 g off) as [Hcnt Hcs]; [by rewrite Hsbi2, Hg2|].
    assert (Hg3 : gd_of s3 g = inode_alloc_gd s2 g off) by apply (gd_of_set_gd s2).
    split_and!; [done| |by right|].
    + apply Hs0. eapply ialloc_frame_iframe; [exact (ialloc_frame_tracked g n s0 s1 true Hto)|].
      assert (Hfi : iframe g n s1 s2).
      { split; try done. intros m Hm. cbn. by rewrite lookup_insert_ne. }
      destruct Hfi, (iframe_commit g n s2 (inode_alloc_gd s2 g off) (f_freeinodes s2 - 1)).
      split; try (etrans; eassumption); intros; etrans; eauto.
    + intros _. rewrite Hg3, <- Hsbi2, <- Hg2. split_and!; try done.
      * destruct Hto as (t' & -> & _ & Ht). specialize (Ht n Hn). by rewrite Z.eqb_refl in Ht.
      * exists i. split; [cbn; by rewrite lookup_insert_eq|by rewrite Hsbi2].
      * by destruct Hs1 as (t' & ->).
Qed.

(** *** A failure after the bit was taken *)

(** The outside accepts everything, except that function [f] answers [v]. *)
Definition calm_except (f : string) (v : Z) : Prop :=
  (forall h g a, env_ptr h g a = PtrOk) /\
  (forall h g a, env_int h g a = if String.eqb g f then v else 0).

Ltac calm H :=
  match goal with
  | Hc : env_ptr _ _ _ = ?r |- _ => rewrite (proj1 H) in Hc; subst r
  | Hc : env_int _ _ _ = ?z |- _ => rewrite (proj2 H) in Hc; simpl String.eqb in Hc; cbv iota in Hc; subst z
  end.

Ltac calm_auto H :=
  repeat first [wp_step; try calm H | progress cbn [Z.ltb Z.compare Z.eqb negb Z.leb Z.opp EIO]].

(** When the inode is already in the cache ([insert_inode_locked] fails) the
    handler answers an error but leaves the inode's bit set in the bitmap and the
    inode tracked: the inode number is leaked, although the free inode count still
    counts it. *)
Theorem inode_alloc_leaks_on_error n s held calls e :
  let g := inode_group s n in
  let off := inode_offset s n in
  0 <= n -> 0 < s_inodes_per_group (f_sbi s) -> tracker_ok s -> ialloc_unlocked n held ->
  e < 0 -> calm_except "insert_inode_locked" e ->
  Z.testbit (ibm_of s g) off = false -> trackable s n -> is_tracked s n = false ->
  exists ret s' calls',
    evfs_inode_alloc n (World s held calls) = Ret ret (World s' held calls') /\
    ret = - EIO /\ ibm_of s' g = Z.setbit (ibm_of s g) off /\ is_tracked s' n = true /\
    gd_of s' g = gd_of s g /\ f_freeinodes s' = f_freeinodes s.
Proof.
  intros g off Hn Hipg Htok [Hlb Hlt Hln] He Hcalm Hb Htr Hnt.
  enough (Hwp : wp (evfs_inode_alloc n) (fun ret w' => w_held w' = held /\ ret = - EIO /\
    ibm_of (w_st w') g = Z.setbit (ibm_of s g) off /\ is_tracked (w_st w') n = true /\
    gd_of (w_st w') g = gd_of s g /\ f_freeinodes (w_st w') = f_freeinodes s) (World s held calls)).
  { apply wp_run in Hwp as (ret & [s' h' c'] & Hr & Hh & Hrest). cbn in *. subst h'. eauto. }
  assert (Hk : kzalloc_ok) by (intros h a; apply Hcalm).
  assert (HlG : existsb (blocks_on (Excl (LGroup g))) held = false)
    by (apply Hlb; right; eauto).
  unfold evfs_inode_alloc, ext4_read_inode_bitmap, ext4_read_block_bitmap, ext4_journal_start,
    bbm_ref, ibm_ref, test_and_set_bit.
  wp_step. wp_step. fold (inode_group s n) (inode_offset s n). fold g off.
  calm_auto Hcalm. rewrite Hb.
  set (s0 := set_ibm _ _ _). unfold ialloc_setup. wp_step.
  apply wp_inode_track; try done.
  { intros e' s1 c He' [[_ Hnt']|[Ht' _]]; [by destruct Hnt'|].
    exfalso. unfold is_tracked in *. cbn in Ht'. congruence. }
  intros s1 c _ _ Hto. cbn [Z.ltb Z.compare].
  calm_auto Hcalm. rewrite (proj2 (Z.ltb_lt e 0) He).
  unfold ialloc_stop, ext4_journal_stop, ialloc_fail_init, ialloc_out, iput, bbm_ref, ibm_ref.
  assert (Hs1 : exists t', s1 = set_tracker (Some t') s0 /\ is_tracked s1 n = true).
  { destruct Hto as (t' & -> & _ & Ht). exists t'. split; [done|].
    specialize (Ht n Hn). by rewrite Z.eqb_refl in Ht. }
  destruct Hs1 as (t' & -> & Ht). calm_auto Hcalm. change (0 <=? - EIO) with false. calm_auto Hcalm.
  split_and!; try done. apply (ibm_of_set_ibm s).
Qed.

(** C4: [evfs_inode_free] frees only what eVFS allocated.  When the bitmaps of the tracker
    can be allocated (a failed kzalloc is the Oops of bit_wrapper_oom_oops), the tracker is
    well formed and the locks are free, it returns with its lock, reference and handle given
    back; unless the inode is tracked and has at most one link it answers an error and the
    inode keeps its links; when it succeeds the inode was tracked, is not tracked any more,
    and has one link less.  No other inode is touched. *)
Theorem inode_free_only_tracked n s held calls :
  0 <= n -> tracker_ok s -> no_tracker_lock held ->
  existsb (blocks_on (Excl (LInode n))) held = false -> kzalloc_ok ->
  exists ret s' calls',
    evfs_inode_free n (World s held calls) = Ret ret (World s' held calls') /\
    (forall m, m <> n -> f_inodes s' !! m = f_inodes s !! m /\
       (0 <= m -> is_tracked s' m = is_tracked s m)) /\
    f_ibm s' = f_ibm s /\ f_bbm s' = f_bbm s /\ f_gd s' = f_gd s /\
    (is_tracked s n = false \/ 1 < i_nlink (inode_of s n) -> ret < 0 /\ f_inodes s' = f_inodes s) /\
    (ret = 0 -> is_tracked s n = true /\ is_tracked s' n = false /\
       i_nlink (inode_of s' n) = u32 (i_nlink (inode_of s n) - 1)).
Proof.
  intros Hn Htok Hlt Hlk Hk.
  enough (Hwp : wp (evfs_inode_free n) (fun ret w' => w_held w' = held /\
    (forall m, m <> n -> f_inodes (w_st w') !! m = f_inodes s !! m /\
       (0 <= m -> is_tracked (w_st w') m = is_tracked s m)) /\
    f_ibm (w_st w') = f_ibm s /\ f_bbm (w_st w') = f_bbm s /\ f_gd (w_st w') = f_gd s /\
    (is_tracked s n = false \/ 1 < i_nlink (inode_of s n) ->
       ret < 0 /\ f_inodes (w_st w') = f_inodes s) /\
    (ret = 0 -> is_tracked s n = true /\ is_tracked (w_st w') n = false /\
       i_nlink (inode_of (w_st w') n) = u32 (i_nlink (inode_of s n) - 1))) (World s held calls)).
  { apply wp_run in Hwp as (ret & [s' h' c'] & Hr & Hh & Hrest). cbn in *. subst h'. eauto. }
  assert (Hstop : forall ret s1 c (Q : Z -> world fs -> Prop),
    (forall ret' c, ret' = ret \/ ret' < 0 -> Q ret' (World s1 held c)) ->
    wp (err <~ ext4_journal_stop;; inode_unlock n;;; iput n;;; kret (if err <? 0 then err else ret))
      Q (World s1 (Ref RHandle :: Excl (LInode n) :: Ref (RInode n) :: held) c)).
  { intros ret s1 c Q HQ. wp_step. apply wp_journal_stop. intros err c'.
    unfold inode_unlock, iput. repeat wp_step. apply HQ. destruct (Z.ltb_spec err 0); auto. }
  unfold evfs_inode_free. wp_step. apply wp_iget; intros.
  2:{ wp_step. cbn. split_and!; auto; intros; auto with lia. }
  wp_step. unfold inode_lock. wp_step. wp_step. apply wp_journal_start; intros.
  2:{ unfold inode_unlock, iput. repeat wp_step. cbn. split_and!; auto; intros; auto with lia. }
  wp_step. wp_step. destruct (Z.ltb_spec 1 (i_nlink (inode_of s n))) as [Hnl|Hnl].
  { apply Hstop. intros ret' c Hr. cbn. unfold EBUSY in Hr.
    assert (ret' < 0) by lia. split_and!; auto; intros; auto with lia. }
  wp_step. apply wp_inode_untrack; auto.
  - intros e s1 c He Hnt Hs1. rewrite (proj2 (Z.ltb_lt e 0) He). apply Hstop. intros ret' c' Hr. cbn.
    assert (Hr0 : ret' < 0) by lia.
    destruct Hs1 as [->|(t' & -> & _ & Ht)]; cbn; split_and!; auto; intros; auto with lia.
    split; [done|]. intros Hm. etrans; [by apply Ht|]. by rewrite (proj2 (Z.eqb_neq m n)).
  - intros s1 c Htr (t' & -> & _ & Ht). cbn [Z.ltb Z.compare].
    unfold evfs_inode_dec_nlink, drop_nlink, ext4_mark_inode_dirty. repeat wp_step. apply Hstop.
    intros ret' c' Hr. cbn. split_and!; auto.
    + intros m Hm. rewrite lookup_insert_ne by done. split; [done|]. intros Hm0.
      etrans; [by apply Ht|]. by rewrite (proj2 (Z.eqb_neq m n)).
    + intros [?|?]; [congruence|lia].
    + intros ->. split_and!; [done| |].
      * etrans; [by apply Ht|]. by rewrite Z.eqb_refl.
      * unfold inode_of at 1. cbn. by rewrite lookup_total_insert_eq.
Qed.

(** The test [offset > free] of [evfs_inode_alloc] misses the first entry of the
    unused tail of the inode table: allocating exactly that inode leaves the unused
    count as it was, so the descriptor still declares the allocated inode unused. *)
Theorem inode_alloc_unused_off_by_one s g off :
  let sbi := f_sbi s in
  gd_wf sbi (gd_of s g) ->
  gd_has_flag (gd_of s g) EXT4_BG_BLOCK_UNINIT = false ->
  gd_has_flag (gd_of s g) EXT4_BG_INODE_UNINIT = false ->
  ext4_itable_unused_count sbi (gd_of s g) <= s_inodes_per_group sbi < 2 ^ 31 ->
  off = s_inodes_per_group sbi - ext4_itable_unused_count sbi (gd_of s g) ->
  ext4_itable_unused_count sbi (inode_alloc_gd s g off) =
    ext4_itable_unused_count sbi (gd_of s g).
Proof.
  intros sbi Hwf Hb Hi Hr Hoff.
  pose proof (gd_read_range sbi FItableUnused _ Hwf) as Hrange.
  change (gd_read sbi FItableUnused ?x) with (ext4_itable_unused_count sbi x) in Hrange.
  set (u := ext4_itable_unused_count sbi (gd_of s g)) in *.
  unfold inode_alloc_gd. cbv zeta. fold sbi. rewrite free_inodes_set_eq.
  set (gd1 := gd_write sbi FFreeInodes (gd_of s g) _).
  assert (Hf : gd_flags gd1 = gd_flags (gd_of s g)) by apply gd_flags_write.
  assert (Hu : gd_read sbi FItableUnused gd1 = u) by (by apply gd_read_write_ne).
  assert (Hfl : forall f, gd_has_flag gd1 f = gd_has_flag (gd_of s g) f)
    by (intros f; unfold gd_has_flag; by rewrite Hf).
  rewrite !Hfl, Hb. rewrite Hfl, Hi.
  change (ext4_itable_unused_count sbi gd1) with (gd_read sbi FItableUnused gd1). rewrite Hu.
  change (ext4_itable_unused_count sbi ?x) with (gd_read sbi FItableUnused x).
  assert (Hs : s32 (s_inodes_per_group sbi - u) = off) by (rewrite Hoff; apply s32_small; lia).
  rewrite Hs, (u64_small off) by lia. rewrite Z.ltb_irrefl.
  destruct (ext4_has_group_desc_csum sbi (f_es s)); [|done].
  by rewrite (proj1 (gd_csum_keeps _ _ _ _)), ibm_csum_read.
Qed.

(** The bit of inode [i] in the bitmaps, as the iterator computes it. *)
Definition inode_in_use (s : fs) (i : Z) : bool :=
  Z.testbit (ibm_of s (u32 (i - 1) / s_inodes_per_group (f_sbi s)))
    (u32 (i - 1) mod s_inodes_per_group (f_sbi s)).

(** With readable bitmaps [evfs_inode_iter] answers the first inode in use at or
    after [start], 0 when there is none, and changes nothing. *)
Theorem inode_iter_first start s held calls :
  (forall h g, env_ptr h "ext4_read_inode_bitmap" [g] = PtrOk) ->
  0 < start < 2 ^ 32 -> s_inodes_count (f_es s) < 2 ^ 32 - 1 ->
  exists r calls', evfs_inode_iter start (World s held calls) = Ret r (World s held calls') /\
    ((r = 0 /\ forall i, start <= i <= s_inodes_count (f_es s) -> inode_in_use s i = false) \/
     (start <= r <= s_inodes_count (f_es s) /\ inode_in_use s r = true /\
      forall i, start <= i < r -> inode_in_use s i = false)).
Proof.
  intros Hrd Hst _. unfold evfs_inode_iter, kbind, kget. cbn [w_st].
  rewrite (u32_small start) by lia. set (total := s_inodes_count (f_es s)).
  assert (Hloop : forall n i calls, wp (inode_iter_loop n i) (fun r w' =>
    w_held w' = held /\ w_st w' = s /\
    ((r = 0 /\ forall j, i <= j < i + Z.of_nat n -> inode_in_use s j = false) \/
     (i <= r < i + Z.of_nat n /\ inode_in_use s r = true /\
      forall j, i <= j < r -> inode_in_use s j = false))) (World s held calls)).
  { induction n as [|n IH]; intros i c.
    - apply wp_ret. split_and!; try done. left. split; [done|]. intros. lia.
    - cbn [inode_iter_loop]. unfold ext4_read_inode_bitmap. do 5 wp_step.
      rewrite Hrd in Hc. subst r. unfold ibm_ref. do 7 wp_step. fold (inode_in_use s i).
      destruct (inode_in_use s i) eqn:Hu.
      + apply wp_ret. split_and!; try done. right. split_and!; [lia|lia|done|]. intros. lia.
      + eapply wp_mono; [apply (IH (i + 1))|]. intros r w' (Hh & Hs & Hc).
        assert (Hcons : forall m, (forall j, i + 1 <= j < m -> inode_in_use s j = false) ->
                  forall j, i <= j < m -> inode_in_use s j = false).
        { intros m Hm j Hj. destruct (Z.eq_dec j i) as [->|]; [done|]. apply Hm. lia. }
        split_and!; [done|done|]. destruct Hc as [[-> Hall]|(Hr & Hin & Hall)].
        * left. split; [done|]. apply Hcons. intros. apply Hall. lia.
        * right. split_and!; [lia|lia|done|by apply Hcons]. }
  destruct (wp_run _ _ _ (Hloop (Z.to_nat (total - start + 1)) start calls))
    as (r & [s' h' c'] & Hr & Hh & Hs & Hcase). cbn in Hh, Hs. subst s' h'.
  exists r, c'. split; [done|]. destruct Hcase as [[-> Hall]|(Hb & Hin & Hall)].
  - left. split; [done|]. intros j Hj. apply Hall. lia.
  - right. split_and!; [lia|lia|done|done].
Qed.

(** [evfs_inode_read] either fails without effect or reports exactly the fields of
    the inode, leaving the file system and the locks as they were; for an inode that
    is not a device the answer's [est_rdev] word was never written. *)
Theorem inode_read_exact dev n s held calls :
  existsb (blocks_on (Shared (LInode n))) held = false ->
  exists ret o calls',
    evfs_inode_read dev n (World s held calls) = Ret (ret, o) (World s held calls') /\
    (ret < 0 /\ o = None \/ ret = 0 /\ o = Some (stat_of s dev n)) /\
    (forall st, o = Some st -> est_rdev st = None <->
       S_ISBLK (i_mode (inode_of s n)) = false /\ S_ISCHR (i_mode (inode_of s n)) = false).
Proof.
  intros Hl.
  enough (Hwp : wp (evfs_inode_read dev n) (fun r w' => w_held w' = held /\ w_st w' = s /\
    (r.1 < 0 /\ r.2 = None \/ r.1 = 0 /\ r.2 = Some (stat_of s dev n))) (World s held calls)).
  { apply wp_run in Hwp as ([ret o] & [s' h' c'] & Hr & Hh & Hs & Hc). cbn in *. subst.
    exists ret, o, c'. split_and!; [done|done|]. intros st ->.
    destruct Hc as [[_ ?]|[_ [= ->]]]; [done|]. cbn.
    destruct (S_ISBLK _), (S_ISCHR _); naive_solver. }
  unfold evfs_inode_read. wp_step. apply wp_iget; intros.
  - unfold iput. repeat wp_step. cbn. split_and!; auto.
  - wp_step. cbn. split_and!; auto with lia.
Qed.
End InodeRules.
