(* ===== verification/EvfsExtent.v ===== *)
(** * Extent operations of eVFS (fs/ext4/evfs.c)

    [evfs_extent_read] lists the extents of an inode, [evfs_extent_move] replaces the
    physical blocks behind a logical range and reports the blocks it replaced; its
    work is done extent by extent in [__evfs_extent_map].

    The extent tree belongs to one inode of the file system: [in_tree] runs a
    computation of ExtentTree.v on it. *)

From stdpp Require Import prelude list gmap strings.
From Stdlib Require Import ZArith Lia.
From S2P Require Import Prelude Kernel Bytes Bmt Layout ExtentNode ExtentTree ExtentTreeSpec Fs Inode.

Local Open Scope string_scope.
Local Open Scope Z_scope.

(** [struct ext4_evfs_ext] *)
Record evfs_ext := EExt { log_start : Z; phy_start : Z; e_length : Z }.
Definition zero_ext : evfs_ext := EExt 0 0 0.

(** Outside: [ext4_inode_block_valid] and the bytes a node checksum covers, by inode
    and checksum seed. *)
Class ExtOps := {
  inode_block_valid : Z -> Z -> Z -> bool;
  extent_node_csum : Z -> node -> Z
}.

Section EvfsExtent.
Context `{ExtFmt} `{Env} `{ExtOps}.

(** The parameters of inode [n]'s tree. *)
Definition tree_env (s : fs) (n : Z) : TreeEnv := {|
  ino := n;
  blocksize := s_blocksize (f_sbi s);
  first_data_block := get32 (f_es s) 0x14;
  has_csum := ext4_has_metadata_csum (f_sbi s) (f_es s);
  valid_block := inode_block_valid n;
  node_csum := extent_node_csum (i_csum_seed (inode_of s n))
|}.

Definition put_tree (n : Z) (t : xtree) (s : fs) : fs := upd_inode n (set_tree t) s.

Definition in_tree {A} (n : Z) (m : TreeEnv -> K xtree A) : K fs A :=
  s <~ kget;;
  zoom (fun s => i_tree (inode_of s n)) (put_tree n) (m (tree_env s n)).

(** *** Moving the blocks of one extent *)

(** The state of [__evfs_extent_map] when it leaves: [ret], [*curr], [*next]. *)
Definition map_result : Type := Z * evfs_ext * evfs_ext.

(** One step of the loop: leave, or go round again with [lblk] and [len]. *)
Inductive map_step := MDone (r : map_result) | MAgain (lblk len : Z).

Section Map.
Context `{TreeEnv}.

(** [finish]: [next] is cleared, [curr] stays.  [path] is [inl] for an error
    pointer, which [ext4_free_ext_path] dereferences. *)
Definition map_finish (ret : Z) (curr : evfs_ext) (path : Z + path) : K xtree map_step :=
  match path with
  | inl _ => koops
  | inr p => ext4_free_ext_path (Some p);;; kret (MDone (ret, curr, zero_ext))
  end.

(** [ret_jmp]: the hole is skipped. *)
Definition map_jump (jump : Z) (curr : evfs_ext) (p : path) : K xtree map_step :=
  let next := EExt (u32 (log_start curr + jump)) (u64 (phy_start curr + jump))
                   (u32 (e_length curr - jump)) in
  let curr := EExt (log_start curr) (phy_start curr) jump in
  ext4_free_ext_path (Some p);;; kret (MDone (0, curr, next)).

(** A split of the extent under the path at [at_], then round again. *)
Definition map_split (at_ lblk len : Z) (curr : evfs_ext) (p : path) : K xtree map_step :=
  r <~ ext4_force_split_extent_at p at_ false;;
  let '(err, pp) := r in
  let p' := ppath_of pp in
  if negb (err =? 0) then
    ext4_free_ext_path p';;; kret (MDone (err, curr, zero_ext))
  else ext4_free_ext_path p';;; kret (MAgain lblk len).

(** The extent at slot [x] matches the range: its physical start is replaced. *)
Definition map_swap (curr : evfs_ext) (p : path) (x lblk len e_blk e_len : Z)
    : K xtree map_step :=
  t <~ kget;;
  let e := pnth p (p_depth (pnth p 0)) in
  let tmp := ext4_ext_pblock (slot (node_at t (p_hdr e)) x) in
  mod_leaf e (fun nd => set_slot x
    (ext4_ext_store_pblock (slot nd x) (u64 (phy_start curr + lblk - log_start curr))) nd);;;
  p <~ ext4_ext_try_to_merge p x;;
  err <~ ext4_ext_dirty (pnth p (p_depth (pnth p 0)));;
  if negb (err =? 0) then map_finish err curr (inr p) else
  let next :=
    if u32 (e_blk + e_len) <? u32 (lblk + e_length curr) then
      let nlog := u32 (e_blk + e_len) in
      EExt nlog (u64 (phy_start curr + lblk - log_start curr + e_len))
        (u32 (log_start curr + e_length curr - nlog))
    else zero_ext in
  ext4_free_ext_path (Some p);;;
  kret (MDone (0, EExt lblk tmp len, next)).

(** The body of [while (!done)]. *)
Definition map_body (curr : evfs_ext) (lblk len : Z) : K xtree map_step :=
  let eof := 1 in
  r <~ ext4_find_extent lblk None EXT4_EX_NOCACHE;;
  match r with
  | inl err => map_finish err curr (inl err)
  | inr p =>
      t <~ kget;;
      let e := pnth p (p_depth (pnth p 0)) in
      match p_ext e with
      | None => map_finish eof curr (inr p)
      | Some x =>
          let ex := slot (node_at t (p_hdr e)) x in
          let e_blk := ee_block ex in
          let e_len := ext4_ext_get_actual_len ex in
          if lblk <? e_blk then map_jump (e_blk - lblk) curr p
          else if u32 (e_blk + e_len) <=? lblk then
            let lblk := ext4_ext_next_allocated_block t p in
            if EXT_MAX_BLOCKS <=? lblk then map_finish eof curr (inr p)
            else
              let jump := u32 (lblk - u32 (e_blk + e_len)) in
              if 0 <? jump then map_jump jump curr p
              else ext4_free_ext_path (Some p);;; kret (MAgain lblk len)
          else if u32 (log_start curr + len) <=? lblk then map_finish eof curr (inr p)
          else
          let len := u32 (u32 (log_start curr + len) - lblk) in
          if e_blk <? lblk then map_split lblk lblk len curr p
          else
          let len := if u32 (e_blk + e_len) <? u32 (lblk + len)
                     then u32 (u32 (e_blk + e_len) - lblk) else len in
          if u32 (lblk + len) <? u32 (e_blk + e_len)
          then map_split (u32 (lblk + len)) lblk len curr p
          else map_swap curr p x lblk len e_blk e_len
      end
  end.

(** The loop.  Each round that does not leave splits the extent at one of the two
    ends of the range or moves to the next extent. *)
Fixpoint map_loop (fuel : nat) (curr : evfs_ext) (lblk len : Z) : K xtree map_result :=
  match fuel with
  | O => koops
  | S fuel =>
      r <~ map_body curr lblk len;;
      match r with
      | MDone r => kret r
      | MAgain lblk len => map_loop fuel curr lblk len
      end
  end.

(** [__evfs_extent_map] *)
Definition evfs_extent_map (curr : evfs_ext) : K xtree map_result :=
  call_int "ext4_es_remove_extent" [ino; log_start curr; e_length curr];;;
  map_loop 8 curr (log_start curr) (e_length curr).
End Map.

(** The loop of [evfs_extent_move]: the error, the array written so far. *)
Fixpoint move_loop (fuel : nat) (n in_len : Z) (curr : evfs_ext) (exts : list evfs_ext)
    (num_exts : Z) : K fs (Z * list evfs_ext * Z) :=
  if negb (e_length curr =? 0) && (num_exts <? in_len) then
    match fuel with
    | O => koops
    | S fuel =>
        r <~ in_tree n (fun te => @evfs_extent_map te curr);;
        let '(err, curr, next) := r in
        if err <? 0 then kret (err, exts, num_exts)
        else move_loop fuel n in_len next (<[Z.to_nat num_exts := curr]> exts) (num_exts + 1)
    end
  else kret (0, exts, num_exts).

(** [evfs_extent_move]: the return value, the array and the count; the count is
    [None] when the handler left it as it was. *)
Definition evfs_extent_move (n exp_iver : Z) (ext : evfs_ext) (exts : list evfs_ext)
    : K fs (Z * list evfs_ext * option Z) :=
  i <~ ext4_iget n;;
  match i with
  | PtrErr e => kret (e, exts, None)
  | PtrNull => koops
  | PtrOk =>
      inode_lock n;;;
      acquire (Excl (LDataSem n));;;
      let release_inode ret :=
        release (Excl (LDataSem n));;; inode_unlock n;;; iput n;;; kret ret in
      v <~ evfs_iver n;;
      if negb (v.2 =? exp_iver) then release_inode (- EAGAIN, exts, None) else
      credits <~ call_int "ext4_writepage_trans_blocks" [n];;
      h <~ ext4_journal_start credits;;
      match h with
      | PtrErr e => release_inode (e, exts, None)
      | PtrNull => koops
      | PtrOk =>
          call_int "inode_dio_wait" [n];;;
          r <~ move_loop (Z.to_nat (e_length ext)) n (e_length ext) ext exts 0;;
          let '(ret, exts, num) := r in
          err <~ ext4_journal_stop;;
          release_inode (if negb (err =? 0) then err else ret, exts, Some num)
      end
  end.

(** *** Reading the extents *)

(** The loop of [evfs_extent_read]: [path] as it is before the call, the array
    [exts] of [max] entries with the content the allocator gave it. *)
Fixpoint read_loop (fuel : nat) (n max count block : Z) (p : option path)
    (exts : list evfs_ext) : K fs (Z * option path * list evfs_ext) :=
  match fuel with
  | O => kret (count, p, exts)
  | S fuel =>
      r <~ in_tree n (fun te => ext4_find_extent (H1 := te) block p 0);;
      match r with
      | inl _ => kret (count, None, exts)
      | inr p =>
          s <~ kget;;
          let t := i_tree (inode_of s n) in
          let e := pnth p (ext_depth t) in
          match p_ext e with
          | None => kret (count, Some p, exts)
          | Some x =>
              let ex := slot (node_at t (p_hdr e)) x in
              if u32 (ee_block ex + ext4_ext_get_actual_len ex) <=? block
              then kret (count, Some p, exts)
              else
                let exts := <[Z.to_nat count := EExt (ee_block ex) (ext4_ext_pblock ex)
                                (ext4_ext_get_actual_len ex)]> exts in
                let count := count + 1 in
                (* the next entry, not yet written *)
                match exts !! Z.to_nat count with
                | None => koops
                | Some y => read_loop fuel n max count (u32 (log_start y + e_length y)) (Some p) exts
                end
          end
      end
  end.

(** [evfs_extent_read]: the return value, the array and [num_exts]. *)
Definition evfs_extent_read (n max_num_exts : Z) (exts : list evfs_ext)
    : K fs (Z * list evfs_ext * option Z) :=
  i <~ ext4_iget n;;
  match i with
  | PtrErr e => kret (e, exts, None)
  | PtrNull => koops
  | PtrOk =>
      acquire (Shared (LDataSem n));;;
      r <~ read_loop (Z.to_nat max_num_exts) n max_num_exts 0 0 None exts;;
      let '(count, p, exts) := r in
      release (Shared (LDataSem n));;;
      in_tree n (fun te => ext4_free_ext_path p);;;
      iput n;;;
      kret (0, exts, Some count)
  end.
End EvfsExtent.

(** ** Trees of depth 0 *)

Section Flat.
Context `{ExtFmtOk} `{Env} `{TreeEnv}.

(** The whole map is in the inode's root node. *)
Record flat (t : xtree) : Prop := {
  fl_depth : ext_depth t = 0;
  fl_wf : node_wf (x_root t);
  fl_ok : leaf_ok 0 (entries (x_root t))
}.

Definition flat_path (p : path) (ex : option Z) : Prop :=
  (0 < length p)%nat /\ p_depth (pnth p 0) = 0 /\ p_hdr (pnth p 0) = InRoot /\
  p_bh (pnth p 0) = None /\ p_ext (pnth p 0) = ex.

(** Path arrays can be allocated. *)
Definition kcalloc_ok : Prop := forall h a, env_ptr h "kcalloc" a = PtrOk.

(** A path argument of a lookup in such a tree. *)
Definition flat_arg (orig : option path) : Prop :=
  match orig with
  | None => True
  | Some p => (exists ex, flat_path p ex) /\ 0 <= p_maxdepth (pnth p 0)
  end.

Lemma drop_refs_none p : drop_refs_loop p 0 = kret tt.
Proof. by destruct p. Qed.

Lemma wp_find_flat_arg lblk orig flags t held calls (Q : Z + path -> world xtree -> Prop) :
  ext_depth t = 0 -> kcalloc_ok -> flat_arg orig ->
  (forall p calls', flat_path p (ext4_ext_binsearch (x_root t) lblk) ->
     0 <= p_maxdepth (pnth p 0) -> quiet calls calls' -> Q (inr p) (World t held calls')) ->
  wp (ext4_find_extent lblk orig flags) Q (World t held calls).
Proof.
  intros Hd Hk Harg HQ. unfold ext4_find_extent. wp_step. wp_step. rewrite Hd.
  pose proof fmt_depth. rewrite (proj2 (Z.ltb_ge EXT4_MAX_EXTENT_DEPTH 0)) by lia.
  cbn [Z.ltb orb Z.compare]. wp_step.
  destruct orig as [p|].
  - destruct Harg as [(ex & Hl & Hpd & Hph & Hpb & Hpx) Hm].
    destruct p as [|e p]; [simpl in *; lia|]. change (p_bh e = None) in Hpb.
    change (p_depth e = 0) in Hpd. change (0 <= p_maxdepth e) in Hm.
    unfold ext4_ext_drop_refs, dropped. change (pnth (e :: p) 0) with e. rewrite Hpd.
    change (Z.to_nat (0 + 1)) with 1%nat. cbn [drop_refs_loop]. rewrite Hpb, drop_refs_none.
    rewrite (proj2 (Z.ltb_ge _ 0)) by lia. repeat wp_step.
    unfold find_from. wp_step. cbn [Z.to_nat find_loop].
    destruct (negb (has_flag flags EXT4_EX_NOCACHE) && (0 =? 0)); repeat wp_step; (apply HQ; [split_and!; try done; simpl; lia|exact Hm|quiet_done]).
  - wp_step. wp_step. unfold alloc_path. wp_step. wp_step. rewrite Hk in Hc. subst r.
    wp_step. unfold find_from. wp_step. cbn [Z.to_nat find_loop].
    destruct (negb (has_flag flags EXT4_EX_NOCACHE) && (0 =? 0)); repeat wp_step; (apply HQ; [split_and!; try done; simpl; lia|done|quiet_done]).
Qed.

Lemma wp_find_flat lblk flags t held calls (Q : Z + path -> world xtree -> Prop) :
  ext_depth t = 0 -> kcalloc_ok ->
  (forall p calls', flat_path p (ext4_ext_binsearch (x_root t) lblk) -> quiet calls calls' ->
     Q (inr p) (World t held calls')) ->
  wp (ext4_find_extent lblk None flags) Q (World t held calls).
Proof. intros Hd Hk HQ. apply wp_find_flat_arg; auto. done. Qed.

Lemma wp_free_flat p ex t held calls (Q : unit -> world xtree -> Prop) :
  flat_path p ex -> Q tt (World t held calls) ->
  wp (ext4_free_ext_path (Some p)) Q (World t held calls).
Proof.
  intros (Hl & Hd & _ & Hb & _) HQ. unfold ext4_free_ext_path, ext4_ext_drop_refs. rewrite Hd.
  destruct p as [|e p]; [simpl in *; lia|].
  change (p_bh e = None) in Hb. cbn. rewrite Hb. destruct p; by repeat wp_step.
Qed.

(** The search finds the extent that covers the block. *)
Lemma found_slot nd b e :
  node_wf nd -> leaf_ok 0 (entries nd) -> e ∈ entries nd -> covers e b = true ->
  exists x, ext4_ext_binsearch nd b = Some x /\ 0 <= x < eh_entries nd /\ slot nd x = e.
Proof.
  intros Hwf Hl [j Hj]%list_elem_of_lookup Hc%covers_spec.
  pose proof (lookup_lt_Some _ _ _ Hj) as Hlt. pose proof (length_entries nd Hwf) as Hlen.
  destruct (binsearch_position nd 0 b Hwf Hl) as (x & Hb & Hx & Hlo & Hhi); [lia|].
  exists x. split_and!; [done|lia|lia|].
  assert (He : slot nd (Z.of_nat j) = e).
  { replace j with (Z.to_nat (Z.of_nat j)) in Hj by lia.
    rewrite entries_slot in Hj by (auto; lia). congruence. }
  destruct (Z.lt_trichotomy (Z.of_nat j) x) as [Hjx|[<-|Hjx]]; [|done|].
  - pose proof (slot_sorted nd 0 (Z.of_nat j) x Hwf Hl ltac:(lia) Hjx ltac:(lia)) as Hs.
    specialize (Hlo x ltac:(lia)). simpl in Hlo. rewrite He in Hs. lia.
  - specialize (Hhi (Z.of_nat j) ltac:(lia)). simpl in Hhi. rewrite He in Hhi. lia.
Qed.

(** One split round. *)
Lemma wp_map_split at_ lblk len curr p x t held calls (Q : map_step -> world xtree -> Prop) :
  let ex := slot (x_root t) x in
  flat t -> flat_path p (Some x) -> journal_ok -> 0 <= x < eh_entries (x_root t) ->
  eh_entries (x_root t) < eh_max (x_root t) -> ee_block ex < at_ < ext_end ex ->
  ext4_ext_pblock ex + ext4_ext_get_actual_len ex <= 2 ^ 48 ->
  (forall t' calls, flat t' -> eh_entries (x_root t') = eh_entries (x_root t) + 1 ->
     eh_max (x_root t') = eh_max (x_root t) ->
     left_half ex at_ ∈ entries (x_root t') -> right_half ex at_ ∈ entries (x_root t') ->
     (forall b, mapping (entries (x_root t')) b = mapping (entries (x_root t)) b) ->
     Q (MAgain lblk len) (World t' held calls)) ->
  wp (map_split at_ lblk len curr p) Q (World t held calls).
Proof.
  intros ex [Hd Hwf Hl] Hfp Hj Hx Hroom Hat Hp HQ. unfold map_split. wp_step.
  destruct Hfp as (Hlen & Hpd & Hph & Hpb & Hpx).
  destruct (split_leaf (x_root t) x at_ Hwf Hl Hx Hroom Hat Hp) as (nd' & Hins & Hent & Hwf' & Hn' & Hm').
  destruct (leaf_split_map (x_root t) x at_ Hwf Hl Hx Hat Hp) as [Hlo Hmap].
  rewrite <- Hent in Hlo, Hmap.
  apply wp_force_split with (x := x) (nd' := nd'); cbn [w_st w_held]; rewrite ?Hd, ?Hph; auto;
    try lia; try (apply (slot_ok (x_root t) 0 x Hwf Hl Hx)).
  intros t' c Ht' _. cbn [Z.eqb negb ppath_of].
  assert (Hroot : x_root t' = nd') by (exact (Ht' InRoot)).
  wp_step. eapply wp_free_flat.
  { split_and!; [by rewrite length_pset|by rewrite pnth_pset_eq by lia..]. }
  wp_step. apply HQ; rewrite ?Hroot; auto.
  - split; [|by rewrite Hroot..]. unfold ext_depth. rewrite Hroot.
    rewrite (insert_slot_depth _ _ _ _ _ Hins). exact Hd.
  - rewrite Hent. apply elem_of_app. right. apply list_elem_of_here.
  - rewrite Hent. apply elem_of_app. right. apply list_elem_of_further, list_elem_of_here.
Qed.

(** *** Replacing the physical start of an extent *)

Lemma leaf_ok_replace cur l1 e e' l2 :
  ee_block e' = ee_block e -> ext_end e' = ext_end e -> ext_ok e' ->
  leaf_ok cur (l1 ++ e :: l2) -> leaf_ok cur (l1 ++ e' :: l2).
Proof.
  intros Hb He Hok. revert cur. induction l1 as [|x l1 IH]; intros cur.
  - intros (_ & Hc & Hl). cbn [app leaf_ok]. split_and!; [apply Hok..|lia|by rewrite He].
  - intros (Hx & Hc & Hl). cbn [app leaf_ok]. split_and!; [apply Hx..|done|by apply IH].
Qed.

Definition repoint (x pblk : Z) (nd : node) : node :=
  set_slot x (ext4_ext_store_pblock (slot nd x) pblk) nd.

Lemma repoint_spec x pblk nd :
  node_wf nd -> leaf_ok 0 (entries nd) -> 0 <= x < eh_entries nd -> 0 <= pblk < 2 ^ 48 ->
  node_wf (repoint x pblk nd) /\ leaf_ok 0 (entries (repoint x pblk nd)) /\
  (forall b, mapping (entries (repoint x pblk nd)) b =
     if covers (slot nd x) b
     then Some (pblk + (b - ee_block (slot nd x)), ext4_ext_is_unwritten (slot nd x))
     else mapping (entries nd) b).
Proof.
  intros Hwf Hl Hx Hp. set (e := slot nd x). set (e' := ext4_ext_store_pblock e pblk).
  destruct (slot_ok nd 0 x Hwf Hl Hx) as [Hok _]. fold e in Hok.
  pose proof (entries_split nd x Hwf Hx) as Hsp. fold e in Hsp.
  pose proof (length_entries nd Hwf) as Hlen.
  assert (He : entries (repoint x pblk nd) =
    (take (Z.to_nat x) (entries nd) ++ e' :: drop (S (Z.to_nat x)) (entries nd))%list).
  { unfold entries, repoint, set_slot, set_ext. cbn [n_ext eh_entries].
    rewrite take_insert_lt by lia. fold (entries nd). by rewrite insert_take_drop by lia. }
  assert (Hl' : leaf_ok 0 (entries (repoint x pblk nd))).
  { rewrite He. rewrite Hsp in Hl. by apply leaf_ok_replace with (e := e). }
  split_and!.
  - destruct Hwf as (A & B & C). unfold node_wf, repoint, set_slot, set_ext. cbn. by rewrite length_insert.
  - done.
  - intros b. rewrite He in *. rewrite (mapping_insert 0) by done.
    rewrite Hsp at 3. rewrite Hsp in Hl. rewrite (mapping_insert 0) by done.
    change (covers e' b) with (covers e b). destruct (covers e b) eqn:Hc; [|done].
    unfold phys, e', ext4_ext_pblock, ext4_ext_store_pblock. cbn. by rewrite fmt_pblock.
Qed.

Lemma merge_right_loop_depth fuel : forall nd ex dn,
  eh_depth (merge_right_loop fuel nd ex dn).2 = eh_depth nd.
Proof.
  induction fuel as [|fuel IH]; intros nd ex dn; cbn [merge_right_loop]; [done|].
  repeat case_match; try done. rewrite IH. unfold merge_step. by case_match.
Qed.

Lemma try_to_merge_leaf_depth nd ex : eh_depth (try_to_merge_leaf nd ex) = eh_depth nd.
Proof.
  unfold try_to_merge_leaf, ext4_ext_try_to_merge_right.
  destruct (0 <? ex).
  - destruct (merge_right_loop _ nd (ex - 1) false) as [dn nd1] eqn:Hm.
    assert (Hd : eh_depth nd1 = eh_depth nd)
      by (rewrite <- (merge_right_loop_depth (Z.to_nat (eh_entries nd)) nd (ex - 1) false); by rewrite Hm).
    destruct dn; [done|]. by rewrite merge_right_loop_depth.
  - apply merge_right_loop_depth.
Qed.

(** The last round: the extent is exactly the range. *)
Lemma wp_map_swap curr p x t held calls (Q : map_step -> world xtree -> Prop) :
  let ex := slot (x_root t) x in
  flat t -> flat_path p (Some x) -> journal_ok -> 0 <= x < eh_entries (x_root t) ->
  ee_block ex = log_start curr -> ext4_ext_get_actual_len ex = e_length curr ->
  0 <= phy_start curr < 2 ^ 48 ->
  (forall t' calls, flat t' ->
     (forall b, mapping (entries (x_root t')) b =
        if covers ex b then Some (phy_start curr + (b - log_start curr), ext4_ext_is_unwritten ex)
        else mapping (entries (x_root t)) b) ->
     Q (MDone (0, EExt (log_start curr) (ext4_ext_pblock ex) (e_length curr), zero_ext))
       (World t' held calls)) ->
  wp (map_swap curr p x (log_start curr) (e_length curr) (ee_block ex)
        (ext4_ext_get_actual_len ex)) Q (World t held calls).
Proof.
  intros ex [Hd Hwf Hl] Hfp Hj Hx Hb Hn Hp HQ. pose proof Hfp as (Hlen & Hpd & Hph & Hpb & Hpx).
  unfold map_swap. wp_step. wp_step. rewrite Hpd, Hph. cbn [node_at]. fold ex.
  wp_step. unfold mod_leaf. wp_step. rewrite Hph. cbn [node_at set_node].
  replace (phy_start curr + log_start curr - log_start curr) with (phy_start curr) by lia.
  rewrite (u64_small (phy_start curr)) by lia. fold (repoint x (phy_start curr) (x_root t)).
  destruct (repoint_spec x (phy_start curr) (x_root t) Hwf Hl Hx Hp) as (Hwf1 & Hl1 & Hm1).
  set (nd1 := repoint x (phy_start curr) (x_root t)) in *.
  destruct (try_to_merge_leaf_same nd1 x Hwf1 Hx) as (Hwf2 & _ & Hl2 & Hm2).
  wp_step. unfold ext4_ext_try_to_merge. wp_step. wp_step.
  change (ext_depth (XTree nd1 (x_blk t) (x_verified t))) with (ext_depth t). rewrite Hd, Hph.
  wp_step. wp_step. cbn [node_at set_node x_root x_blk x_verified].
  unfold ext4_ext_try_to_merge_up. wp_step. wp_step. rewrite Hpd. cbn [Z.eqb negb orb].
  wp_step. wp_step. rewrite Hpd. unfold ext4_ext_dirty. rewrite Hpb. wp_step.
  rewrite (proj2 (proj2 (Hj _ _))) in Hc. subst z. cbn [Z.eqb negb].
  rewrite Hb, Hn, Z.ltb_irrefl. wp_step. eapply wp_free_flat; [exact Hfp|]. wp_step.
  apply HQ.
  - split; cbn [x_root ext_depth]; [|done|by apply Hl2].
    unfold ext_depth. cbn [x_root]. by rewrite try_to_merge_leaf_depth.
  - intros b. cbn [x_root]. rewrite (Hm2 0) by done. rewrite Hm1. fold ex. by rewrite Hb.
Qed.

(** *** The rounds of the loop for a range inside one extent *)

(** The range of [curr] lies in extent [e] of the root. *)
Record in_extent (t : xtree) (curr : evfs_ext) (e : ext4_extent) : Prop := {
  ie_in : e ∈ entries (x_root t);
  ie_pos : 0 < e_length curr;
  ie_lo : ee_block e <= log_start curr;
  ie_hi : log_start curr + e_length curr <= ext_end e;
  ie_phys : ext4_ext_pblock e + ext4_ext_get_actual_len e <= 2 ^ 48
}.

Lemma wp_map_body curr t e held calls (Q : map_step -> world xtree -> Prop) :
  let L := log_start curr in
  let N := e_length curr in
  flat t -> in_extent t curr e -> kcalloc_ok ->
  (forall p x calls, flat_path p (Some x) -> 0 <= x < eh_entries (x_root t) ->
     slot (x_root t) x = e ->
     wp (if ee_block e <? L then map_split L L N curr p
         else if L + N <? ext_end e then map_split (L + N) L N curr p
         else map_swap curr p x L N (ee_block e) (ext4_ext_get_actual_len e))
        Q (World t held calls)) ->
  wp (map_body curr L N) Q (World t held calls).
Proof.
  intros L N [Hd Hwf Hl] [Hin Hpos Hlo Hhi Hph] Hk HQ. fold L N in Hpos, Hlo, Hhi.
  destruct (leaf_ok_elem 0 _ e Hl Hin) as [(Hb & Hn & He) _].
  destruct (found_slot (x_root t) L e Hwf Hl Hin) as (x & Hbs & Hx & Hsl).
  { apply covers_spec. lia. }
  unfold map_body. wp_step. apply wp_find_flat; [done|done|]. rewrite Hbs. intros p c Hfp _.
  specialize (HQ p x c Hfp Hx Hsl). destruct Hfp as (Hlen & Hpd & Hphdr & Hpb & Hpx).
  wp_step. wp_step. rewrite Hpd, Hpx, Hphdr. cbn [node_at]. rewrite Hsl. fold L.
  unfold ext_end in *. rewrite (u32_small (ee_block e + _)) by lia.
  rewrite (proj2 (Z.ltb_ge L _)), (proj2 (Z.leb_gt _ L)) by lia.
  rewrite (u32_small (L + N)) by lia. rewrite (proj2 (Z.leb_gt _ L)) by lia.
  replace (L + N - L) with N by lia. rewrite (u32_small N) by lia.
  destruct (ee_block e <? L); [done|].
  rewrite (u32_small (L + N)) by lia.
  rewrite (proj2 (Z.ltb_ge (ee_block e + _) (L + N))) by lia.
  rewrite (u32_small (L + N)) by lia. exact HQ.
Qed.

(** What the map is after the move. *)
Definition moved_to (curr : evfs_ext) (u : bool) (m m' : Z -> option (Z * bool)) : Prop :=
  forall b, m' b = if (log_start curr <=? b) && (b <? log_start curr + e_length curr)
                   then Some (phy_start curr + (b - log_start curr), u) else m b.

Definition map_post (t : xtree) (curr : evfs_ext) (e : ext4_extent) (held : list res)
    (Q : map_result -> world xtree -> Prop) : Prop :=
  forall t' calls, flat t' ->
    moved_to curr (ext4_ext_is_unwritten e) (mapping (entries (x_root t)))
      (mapping (entries (x_root t'))) ->
    Q (0, EExt (log_start curr) (ext4_ext_pblock e + (log_start curr - ee_block e))
            (e_length curr), zero_ext) (World t' held calls).

Lemma wp_round_exact fuel curr t e held calls Q :
  flat t -> in_extent t curr e -> kcalloc_ok -> journal_ok -> 0 <= phy_start curr < 2 ^ 48 ->
  ee_block e = log_start curr -> ext_end e = log_start curr + e_length curr ->
  map_post t curr e held Q ->
  wp (map_loop (S fuel) curr (log_start curr) (e_length curr)) Q (World t held calls).
Proof.
  intros Hf Hie Hk Hj Hp Hlo Hhi HQ. cbn [map_loop]. wp_step.
  apply (wp_map_body curr t e); auto. intros p x c Hfp Hx Hsl.
  rewrite Hlo, Z.ltb_irrefl, Hhi, Z.ltb_irrefl. rewrite <- Hlo, <- Hsl.
  assert (Hn : ext4_ext_get_actual_len (slot (x_root t) x) = e_length curr)
    by (rewrite Hsl; unfold ext_end in Hhi; lia).
  replace (ee_block (slot (x_root t) x)) with (log_start curr) at 1 by (rewrite Hsl; lia).
  apply wp_map_swap; auto; [by rewrite Hsl|].
  intros t' c' Hf' Hmap. wp_step.
  replace (ext4_ext_pblock (slot (x_root t) x))
    with (ext4_ext_pblock e + (log_start curr - ee_block e)) by (rewrite Hsl; lia).
  apply HQ; [done|]. intros b. rewrite Hmap, Hsl. unfold covers. by rewrite Hhi, Hlo.
Qed.

Lemma moved_to_same curr u m m0 m' :
  (forall b, m b = m0 b) -> moved_to curr u m m' -> moved_to curr u m0 m'.
Proof. intros Hm Hv b. rewrite Hv. by rewrite Hm. Qed.

Lemma wp_round_right fuel curr t e held calls Q :
  flat t -> in_extent t curr e -> kcalloc_ok -> journal_ok -> 0 <= phy_start curr < 2 ^ 48 ->
  ee_block e = log_start curr -> eh_entries (x_root t) < eh_max (x_root t) ->
  map_post t curr e held Q ->
  wp (map_loop (S (S fuel)) curr (log_start curr) (e_length curr)) Q (World t held calls).
Proof.
  intros Hf Hie Hk Hj Hp Hlo Hroom HQ.
  destruct (decide (ext_end e = log_start curr + e_length curr)) as [Hhi|Hhi].
  { by apply (wp_round_exact (S fuel) curr t e). }
  pose proof Hie as [Hin Hpos _ Hhi' Hph].
  destruct (leaf_ok_elem 0 _ e (fl_ok _ Hf) Hin) as [Hok _].
  cbn [map_loop]. wp_step. apply (wp_map_body curr t e); auto. intros p x c Hfp Hx Hsl.
  rewrite Hlo, Z.ltb_irrefl, (proj2 (Z.ltb_lt _ (ext_end e))) by lia.
  apply (wp_map_split _ _ _ _ _ x); rewrite ?Hsl; auto; [lia|].
  intros t' c' Hf' _ _ Hlh _ Hmap.
  destruct (halves_spec e (log_start curr + e_length curr) Hok ltac:(lia) Hph)
    as ((Ho1 & Hb1 & He1 & Hm1) & _).
  set (e1 := left_half e (log_start curr + e_length curr)) in *.
  pose proof (Hm1 (log_start curr)) as Hph1. unfold phys in Hph1. rewrite Hb1 in Hph1.
  apply (f_equal fst) in Hph1 as Hpb1. apply (f_equal snd) in Hph1 as Hu1. cbn in Hpb1, Hu1.
  apply (wp_round_exact fuel curr t' e1); auto; [|lia|].
  - split; auto; [lia|lia|]. unfold ext_end in *. lia.
  - intros t'' c'' Hf'' Hmv. rewrite Hu1 in Hmv.
    replace (ext4_ext_pblock e1 + (log_start curr - ee_block e1))
      with (ext4_ext_pblock e + (log_start curr - ee_block e)) by lia.
    apply HQ; [done|]. by eapply moved_to_same.
Qed.

Lemma wp_round_left fuel curr t e held calls Q :
  flat t -> in_extent t curr e -> kcalloc_ok -> journal_ok -> 0 <= phy_start curr < 2 ^ 48 ->
  eh_entries (x_root t) + 2 <= eh_max (x_root t) ->
  map_post t curr e held Q ->
  wp (map_loop (S (S (S fuel))) curr (log_start curr) (e_length curr)) Q (World t held calls).
Proof.
  intros Hf Hie Hk Hj Hp Hroom HQ.
  destruct (decide (ee_block e = log_start curr)) as [Hlo|Hlo].
  { apply (wp_round_right (S fuel) curr t e); auto. lia. }
  pose proof Hie as [Hin Hpos Hlo' Hhi Hph].
  destruct (leaf_ok_elem 0 _ e (fl_ok _ Hf) Hin) as [Hok _].
  cbn [map_loop]. wp_step. apply (wp_map_body curr t e); auto. intros p x c Hfp Hx Hsl.
  rewrite (proj2 (Z.ltb_lt (ee_block e) _)) by lia.
  apply (wp_map_split _ _ _ _ _ x); rewrite ?Hsl; auto; [lia|lia|].
  intros t' c' Hf' Hn' Hmax' _ Hrh Hmap.
  destruct (halves_spec e (log_start curr) Hok ltac:(lia) Hph)
    as (_ & (Ho2 & Hb2 & He2 & Hp2 & Hm2)).
  set (e2 := right_half e (log_start curr)) in *.
  pose proof (f_equal snd (Hm2 (log_start curr))) as Hu2. cbn in Hu2.
  apply (wp_round_right fuel curr t' e2); auto; [|lia|].
  - split; auto; [lia|lia|]. unfold ext_end in *. lia.
  - intros t'' c'' Hf'' Hmv. rewrite Hu2 in Hmv.
    replace (ext4_ext_pblock e2 + (log_start curr - ee_block e2))
      with (ext4_ext_pblock e + (log_start curr - ee_block e)) by lia.
    apply HQ; [done|]. by eapply moved_to_same.
Qed.

(** C6: [__evfs_extent_map] on a range inside one extent of a depth-0 tree with room
    for two splits and block numbers of 48 bits, when the allocations of paths succeed and the
    journal accepts every buffer, returns and succeeds: exactly the logical blocks of the
    range now point to the new physical blocks, in the same written or unwritten state, every
    other block keeps its mapping, the tree stays valid, the physical start that was replaced
    is reported in [curr], and nothing is left to do ([next] is empty). *)
Theorem extent_map_moves_range curr t e held calls :
  flat t -> in_extent t curr e -> kcalloc_ok -> journal_ok -> 0 <= phy_start curr < 2 ^ 48 ->
  eh_entries (x_root t) + 2 <= eh_max (x_root t) ->
  exists t' calls',
    evfs_extent_map curr (World t held calls) =
      Ret (0, EExt (log_start curr) (ext4_ext_pblock e + (log_start curr - ee_block e))
                (e_length curr), zero_ext) (World t' held calls') /\
    flat t' /\
    moved_to curr (ext4_ext_is_unwritten e) (mapping (entries (x_root t)))
      (mapping (entries (x_root t'))).
Proof.
  intros Hf Hie Hk Hj Hp Hroom.
  destruct (wp_run (evfs_extent_map curr) (fun r w' => w_held w' = held /\
    r = (0, EExt (log_start curr) (ext4_ext_pblock e + (log_start curr - ee_block e))
              (e_length curr), zero_ext) /\ flat (w_st w') /\
    moved_to curr (ext4_ext_is_unwritten e) (mapping (entries (x_root t)))
      (mapping (entries (x_root (w_st w'))))) (World t held calls))
    as (r & [t' h' c'] & Hr & Hh & -> & Hf' & Hmv).
  { unfold evfs_extent_map. wp_step. wp_step. by apply (wp_round_left 5 curr t e). }
  cbn in *. subst h'. eauto.
Qed.

(** A lookup failure inside [__evfs_extent_map] (the path array cannot be
    allocated) reaches [ext4_free_ext_path] with an error pointer: the kernel
    oopses instead of returning the error. *)
Theorem extent_map_lookup_error_oops curr t held calls :
  0 <= ext_depth t <= EXT4_MAX_EXTENT_DEPTH ->
  (forall h a, env_ptr h "kcalloc" a = PtrNull) ->
  evfs_extent_map curr (World t held calls) = Oops.
Proof.
  intros Hd Hk. unfold evfs_extent_map, kbind at 1, call_int. cbn [w_st w_held w_calls].
  cbn [map_loop]. unfold map_body, ext4_find_extent, alloc_path, kbind, kget, call_ptr.
  cbn [w_st w_held w_calls kret]. rewrite (proj2 (Z.ltb_ge _ 0)), (proj2 (Z.ltb_ge _ _)) by lia.
  cbn [orb]. rewrite Hk. reflexivity.
Qed.

(** A cursor inside a hole: the distance skipped is computed from the end of
    the extent before the hole, not from the cursor, so blocks of the next extent
    are skipped too, and the length left wraps around when the range ends before
    that. *)
Theorem extent_map_hole_overshoots curr t x held calls :
  let L := log_start curr in
  let r := x_root t in
  flat t -> kcalloc_ok -> 0 <= x -> x + 1 < eh_entries r ->
  ext_end (slot r x) < L < ee_block (slot r (x + 1)) ->
  let jump := ee_block (slot r (x + 1)) - ext_end (slot r x) in
  ee_block (slot r (x + 1)) - L < jump /\
  exists calls',
    evfs_extent_map curr (World t held calls) =
      Ret (0, EExt L (phy_start curr) jump,
           EExt (u32 (L + jump)) (u64 (phy_start curr + jump)) (u32 (e_length curr - jump)))
        (World t held calls').
Proof.
  intros L r [Hd Hwf Hl] Hk Hx Hx1 Hhole jump. fold r in Hwf, Hl. split; [unfold jump; lia|].
  destruct (slot_ok r 0 x Hwf Hl ltac:(lia)) as [(Hb & Hn & He) _].
  destruct (slot_ok r 0 (x + 1) Hwf Hl ltac:(lia)) as [(Hb1 & Hn1 & He1) _].
  assert (Hbs : ext4_ext_binsearch r L = Some x).
  { destruct (binsearch_position r 0 L Hwf Hl ltac:(lia)) as (y & -> & Hy & Hlo & Hhi).
    f_equal. destruct (Z.lt_trichotomy y x) as [Hlt|[->|Hgt]]; [|done|].
    - specialize (Hhi x ltac:(lia)). simpl in Hhi. unfold ext_end in Hhole. lia.
    - specialize (Hlo (x + 1) ltac:(lia)). simpl in Hlo. lia. }
  destruct (wp_run (evfs_extent_map curr) (fun res w' => w_held w' = held /\ w_st w' = t /\
    res = (0, EExt L (phy_start curr) jump,
           EExt (u32 (L + jump)) (u64 (phy_start curr + jump)) (u32 (e_length curr - jump))))
    (World t held calls)) as (res & [t' h' c'] & Hr & Hh & Ht & ->).
  2:{ cbn in *. subst. eauto. }
  unfold evfs_extent_map. wp_step. wp_step. cbn [map_loop]. wp_step. unfold map_body. wp_step.
  apply wp_find_flat; [done|done|]. fold r L. rewrite Hbs. intros p c Hfp _.
  pose proof Hfp as (Hlen & Hpd & Hph & Hpb & Hpx).
  wp_step. wp_step. rewrite Hpd, Hpx, Hph. cbn [node_at]. fold r.
  unfold ext_end in *. rewrite (u32_small (ee_block (slot r x) + _)) by lia.
  rewrite (proj2 (Z.ltb_ge L _)), (proj2 (Z.leb_le _ L)) by lia.
  assert (Hnext : ext4_ext_next_allocated_block t p = ee_block (slot r (x + 1))).
  { unfold ext4_ext_next_allocated_block. rewrite Hpd. cbn [Z.eqb andb]. rewrite Hpx.
    change (Z.to_nat (0 + 1)) with 1%nat. cbn [next_allocated_loop].
    change (Z.of_nat 0) with 0. rewrite Hpd, Hpx, Hph. cbn [Z.eqb node_at]. fold r.
    unfold EXT_LAST. by rewrite (proj2 (Z.eqb_neq x _)) by lia. }
  rewrite Hnext. rewrite fmt_max_blocks.
  rewrite (proj2 (Z.leb_gt _ _)) by lia.
  rewrite (u32_small (ee_block (slot r (x + 1)) - _)) by lia. fold jump.
  rewrite (proj2 (Z.ltb_lt 0 jump)) by (unfold jump; lia).
  unfold map_jump. wp_step. eapply wp_free_flat; [exact Hfp|]. wp_step. by wp_step.
Qed.
End Flat.

(** ** The handlers *)

Section Handlers.
Context `{ExtFmtOk} `{EnvFs} `{ExtOps}.

(** Running on the tree of an inode. *)
Lemma wp_in_tree {A} n (m : TreeEnv -> K xtree A) s held calls (Q : A -> world fs -> Prop) :
  wp (m (tree_env s n)) (fun a w' => Q a (World (put_tree n (w_st w') s) (w_held w') (w_calls w')))
     (World (i_tree (inode_of s n)) held calls) ->
  wp (in_tree n m) Q (World s held calls).
Proof. intros Hm. unfold in_tree. wp_step. wp_step. wp_step. exact Hm. Qed.

Lemma tree_of_put n t s : i_tree (inode_of (put_tree n t s) n) = t.
Proof. unfold inode_of, put_tree, upd_inode. cbn. by rewrite lookup_total_insert_eq. Qed.

(** C5: [evfs_extent_move] on a range inside one extent of a depth-0 inode whose root has
    two free slots, with block numbers of 48 bits, when the allocations of paths succeed and the
    journal accepts every buffer: it returns with the inode lock, the tree semaphore, the
    reference and the handle given back.  A stale version number, or a failure to get the inode
    or the transaction, leaves everything as it was; otherwise exactly the range is moved to
    the given blocks, one extent is reported, and its physical start is the one that was
    replaced.  Outside these conditions less holds: a lookup that fails is the Oops of
    extent_map_lookup_error_oops. *)
Theorem extent_move_correct n ver ext exts e s held calls :
  let t := i_tree (inode_of s n) in
  flat t -> in_extent t ext e -> kcalloc_ok -> journal_ok -> 0 <= phy_start ext < 2 ^ 48 ->
  eh_entries (x_root t) + 2 <= eh_max (x_root t) ->
  existsb (blocks_on (Excl (LInode n))) held = false ->
  existsb (blocks_on (Excl (LDataSem n))) held = false ->
  exists ret exts' num s' calls',
    evfs_extent_move n ver ext exts (World s held calls) =
      Ret (ret, exts', num) (World s' held calls') /\
    (i_version (inode_of s n) <> ver -> ret < 0 /\ s' = s) /\
    (s' = s /\ ret < 0 /\ num = None /\ exts' = exts \/
     num = Some 1 /\
     exts' = <[0%nat := EExt (log_start ext)
                 (ext4_ext_pblock e + (log_start ext - ee_block e)) (e_length ext)]> exts /\
     (exists t', s' = put_tree n t' s /\ flat t' /\
        moved_to ext (ext4_ext_is_unwritten e) (mapping (entries (x_root t)))
          (mapping (entries (x_root t'))))).
Proof.
  intros t Hf Hie Hk Hj Hp Hroom Hl1 Hl2.
  set (POST := fun (r : Z * list evfs_ext * option Z) (s' : fs) =>
    (i_version (inode_of s n) <> ver -> r.1.1 < 0 /\ s' = s) /\
    (s' = s /\ r.1.1 < 0 /\ r.2 = None /\ r.1.2 = exts \/
     r.2 = Some 1 /\
     r.1.2 = <[0%nat := EExt (log_start ext)
                 (ext4_ext_pblock e + (log_start ext - ee_block e)) (e_length ext)]> exts /\
     (exists t', s' = put_tree n t' s /\ flat t' /\
        moved_to ext (ext4_ext_is_unwritten e) (mapping (entries (x_root t)))
          (mapping (entries (x_root t')))))).
  enough (Hwp : wp (evfs_extent_move n ver ext exts)
    (fun r w' => w_held w' = held /\ POST r (w_st w')) (World s held calls)).
  { apply wp_run in Hwp as ([[ret exts'] num] & [s' h' c'] & Hr & Hh & Hrest).
    cbn in Hh. subst h'. exists ret, exts', num, s', c'. split; [done|]. exact Hrest. }
  assert (Hfail : forall ret, ret < 0 -> POST (ret, exts, None) s).
  { intros ret Hr. split; [by split|]. by left. }
  unfold evfs_extent_move. wp_step. apply wp_iget; intros.
  2:{ wp_step. split; [done|]. apply Hfail. lia. }
  unfold inode_lock, inode_unlock, iput, evfs_iver. repeat wp_step. cbn [snd].
  destruct (Z.eqb_spec (i_version (inode_of s n)) ver) as [Hv|Hv]; cbn [negb].
  2:{ repeat wp_step. split; [done|]. by apply Hfail. }
  wp_step. wp_step. wp_step. apply wp_journal_start; intros.
  2:{ repeat wp_step. split; [done|]. apply Hfail. lia. }
  repeat wp_step. pose proof (ie_pos _ _ _ Hie) as Hpos.
  destruct (Z.to_nat (e_length ext)) as [|fuel] eqn:Hfuel; [lia|]. cbn [move_loop].
  rewrite (proj2 (Z.eqb_neq (e_length ext) 0)), (proj2 (Z.ltb_lt 0 _)) by lia. cbn [negb andb].
  wp_step. apply wp_in_tree. unfold evfs_extent_map. wp_step. wp_step.
  apply (wp_round_left 5 ext t e); auto.
  intros t' c Hf' Hmv. cbn [w_st w_held w_calls Z.ltb Z.compare].
  assert (Hml : forall f l k (Q : _ -> world fs -> Prop) w, Q (0, l, k) w ->
    wp (move_loop f n (e_length ext) zero_ext l k) Q w) by (intros []; done).
  apply Hml. wp_step. apply wp_journal_stop. intros err c'. repeat wp_step.
  split; [done|]. split; [done|]. right. split_and!; [done|done|]. eauto.
Qed.

(** Every round finds the first extent again. *)
Lemma read_loop_overreads n max : forall f count p exts s held calls,
  let t := i_tree (inode_of s n) in
  flat t -> 0 < eh_entries (x_root t) -> ee_block (slot (x_root t) 0) = 0 -> kcalloc_ok ->
  flat_arg p -> Z.of_nat f + count = max -> 0 <= count -> (0 < f)%nat ->
  length exts = Z.to_nat max ->
  (forall j, count <= j < max -> exts !! Z.to_nat j = Some zero_ext) ->
  read_loop f n max count 0 p exts (World s held calls) = Oops.
Proof.
  induction f as [|f IH]; intros count p exts s held calls t Hf Hn Hz Hk Hp Hsum Hc Hpos Hlen Hrest; [lia|].
  pose proof Hf as [Hd Hwf Hl]. cbn [read_loop]. apply bind_oops, wp_in_tree.
  fold t. apply wp_find_flat_arg; auto. cbn [w_st w_held w_calls]. intros p' c Hfp Hm _.
  assert (Hcov : slot (x_root t) 0 ∈ entries (x_root t) /\ covers (slot (x_root t) 0) 0 = true).
  { split; [eapply list_elem_of_lookup_2, (entries_slot _ 0); auto; lia|].
    destruct (slot_ok (x_root t) 0 0 Hwf Hl ltac:(lia)) as [(? & ? & ?) _].
    apply covers_spec. unfold ext_end. lia. }
  destruct (slot_ok (x_root t) 0 0 Hwf Hl ltac:(lia)) as [(_ & Hlen0 & Hend) _].
  destruct Hcov as [Hin Hcov].
  assert (Hbs : ext4_ext_binsearch (x_root t) 0 = Some 0).
  { destruct (binsearch_position (x_root t) 0 0 Hwf Hl Hn) as (y & -> & Hy & Hlo & _).
    f_equal. destruct (Z.eq_dec y 0) as [|Hy0]; [done|].
    specialize (Hlo y ltac:(lia)). simpl in Hlo.
    pose proof (slot_sorted (x_root t) 0 0 y Hwf Hl ltac:(lia) ltac:(lia) ltac:(lia)).
    unfold ext_end in *. lia. }
  rewrite Hbs in Hfp. pose proof Hfp as (_ & Hpd & Hph & Hpb & Hpx).
  apply bind_oops. wp_step. rewrite tree_of_put, Hd, Hpx, Hph. cbn [node_at].
  unfold ext_end in Hend. rewrite u32_small by lia. rewrite (proj2 (Z.leb_gt _ 0)) by lia.
  destruct (decide (f = 0%nat)) as [->|Hf0].
  - by rewrite lookup_ge_None_2 by (rewrite length_insert; lia).
  - rewrite list_lookup_insert_ne by lia. rewrite Hrest by lia. cbn [log_start e_length zero_ext].
    apply IH; rewrite ?tree_of_put; auto; try lia.
    + split; [by eexists|done].
    + by rewrite length_insert.
    + intros j Hj. rewrite list_lookup_insert_ne by lia. apply Hrest. lia.
Qed.

(** The list of extents: with an array of zeroed entries [evfs_extent_read] never
    advances, because it reads the entry after the one it wrote, and once the array
    is full it reads past its end. *)
Theorem extent_read_overreads n max s held calls :
  let t := i_tree (inode_of s n) in
  flat t -> 0 < eh_entries (x_root t) -> ee_block (slot (x_root t) 0) = 0 ->
  kcalloc_ok -> (forall h a, env_ptr h "ext4_iget" a = PtrOk) -> 0 < max ->
  existsb (blocks_on (Shared (LDataSem n))) held = false ->
  evfs_extent_read n max (replicate (Z.to_nat max) zero_ext) (World s held calls) = Oops.
Proof.
  intros t Hf Hn H0' Hk Hi Hmax Hl.
  unfold evfs_extent_read. apply bind_oops. unfold ext4_iget. wp_step. wp_step.
  rewrite Hi in Hc. subst r. do 3 wp_step. apply bind_oops. wp_step. apply bind_oops_left.
  apply read_loop_overreads; auto; try lia; [done|apply length_replicate|].
  intros j Hj. apply lookup_replicate. split; [done|lia].
Qed.
End Handlers.
