(* ===== verification/Dirent.v ===== *)
(** * Directory blocks (fs/ext4/namei.c, fs/ext4/ext4.h)

    A directory block is a buffer of bytes holding a chain of
    [struct ext4_dir_entry_2] records, optionally closed by a checksum tail.  This
    file models the record layout, the record length encoding for both page sizes,
    name matching, the search in a block, the search for room, the insertion and
    the deletion of an entry, and the block checksum, all on the bytes.

    Outside the repository are fscrypt and the unicode tables (class [DirNames]),
    and [__ext4_check_dir_entry] of dir.c, a field of the same class.  Its laws,
    [DirNamesOk], are the conditions it reports errors for and the documented
    meaning of [fscrypt_match_name] without encryption.

    The refinement theorems relate the bytes to the list of live entries of the
    block: search, insertion and deletion are lookup, insertion and removal in that
    list. *)

From stdpp Require Import prelude list.
From Stdlib Require Import ZArith Lia.
From S2P Require Import Prelude Bytes Layout.

(** ** Context of a directory *)

(** What the routines read of the directory inode, its super block and the kernel
    configuration. *)
Record dirctx := DirCtx {
  d_pagesize : Z;        (* PAGE_SIZE *)
  d_blocksize : Z;       (* sb->s_blocksize *)
  d_unicode : bool;      (* IS_ENABLED(CONFIG_UNICODE) *)
  d_casefolded : bool;   (* IS_CASEFOLDED(dir) *)
  d_encrypted : bool;    (* IS_ENCRYPTED(dir) *)
  d_has_key : bool;      (* fscrypt_has_encryption_key(dir) *)
  d_strict : bool;       (* sb_has_strict_encoding(sb) *)
  d_csum : bool;         (* ext4_has_metadata_csum(sb) *)
  d_filetype : bool;     (* ext4_has_feature_filetype(sb) *)
  d_inodes : Z;          (* s_es->s_inodes_count *)
  d_seed : Z             (* EXT4_I(dir)->i_csum_seed *)
}.

(** [struct ext4_filename] *)
Record ext4_filename := Filename {
  usr_fname : list Z;
  disk_name : list Z;
  cf_name : option (list Z);
  hi_hash : Z;
  hi_minor_hash : Z
}.

Definition EXT4_NAME_LEN : Z := 255.
Definition EXT4_BASE_DIR_LEN : Z := 8.
Definition EXT4_DIR_ROUND : Z := 3.
Definition EXT4_MAX_REC_LEN : Z := 65535.
Definition EXT4_FT_UNKNOWN : Z := 0.
Definition EXT4_FT_REG_FILE : Z := 1.
Definition EXT4_FT_DIR : Z := 2.
Definition EXT4_FT_CHRDEV : Z := 3.
Definition EXT4_FT_BLKDEV : Z := 4.
Definition EXT4_FT_FIFO : Z := 5.
Definition EXT4_FT_SOCK : Z := 6.
Definition EXT4_FT_SYMLINK : Z := 7.
Definition EXT4_FT_DIR_CSUM : Z := 0xDE.

(** ** Records *)

(** [ext4_rec_len_from_disk] *)
Definition ext4_rec_len_from_disk (d : dirctx) (dlen blocksize : Z) : Z :=
  if 65536 <=? d_pagesize d then
    if (dlen =? EXT4_MAX_REC_LEN) || (dlen =? 0) then blocksize
    else Z.lor (Z.land dlen 65532) (Z.shiftl (Z.land dlen 3) 16)
  else dlen.

(** [ext4_rec_len_to_disk]; [None] is the BUG_ON. *)
Definition ext4_rec_len_to_disk (d : dirctx) (len blocksize : Z) : option Z :=
  if (blocksize <? len) || (Z.shiftl 1 18 <? blocksize) || negb (Z.land len 3 =? 0) then None
  else Some
    (if 65536 <=? d_pagesize d then
       if len <? 65536 then len
       else if len =? blocksize then
         (if blocksize =? 65536 then EXT4_MAX_REC_LEN else 0)
       else Z.lor (Z.land len 65532) (Z.land (Z.shiftr len 16) 3)
     else u16 len).

Definition ext4_hash_in_dirent (d : dirctx) : bool := d_casefolded d && d_encrypted d.

(** [ext4_dir_rec_len(name_len, dir)]; the name length is a byte. *)
Definition ext4_dir_rec_len (name_len : Z) (dir : option dirctx) : Z :=
  let rec_len := u8 name_len + 8 + EXT4_DIR_ROUND in
  let rec_len := match dir with
                 | Some d => if ext4_hash_in_dirent d then rec_len + 8 else rec_len
                 | None => rec_len
                 end in
  Z.land rec_len (Z.lnot EXT4_DIR_ROUND).

(** The fields of the record at offset [de] of a block. *)
Definition de_inode (b : list Z) (de : Z) : Z := get32 b de.
Definition de_rec_len (b : list Z) (de : Z) : Z := get16 b (de + 4).
Definition de_name_len (b : list Z) (de : Z) : Z := getb b (de + 6).
Definition de_file_type (b : list Z) (de : Z) : Z := getb b (de + 7).
Definition de_name (b : list Z) (de : Z) : list Z :=
  gets b (de + 8) (Z.to_nat (de_name_len b de)).

(** [EXT4_DIRENT_HASHES], and the two hashes stored there. *)
Definition EXT4_DIRENT_HASHES (b : list Z) (de : Z) : Z :=
  de + Z.land (8 + de_name_len b de + EXT4_DIR_ROUND) (Z.lnot EXT4_DIR_ROUND).
Definition EXT4_DIRENT_HASH (b : list Z) (de : Z) : Z := get32 b (EXT4_DIRENT_HASHES b de).
Definition EXT4_DIRENT_MINOR_HASH (b : list Z) (de : Z) : Z :=
  get32 b (EXT4_DIRENT_HASHES b de + 4).

(** The record length in bytes. *)
Definition rlen_at (d : dirctx) (b : list Z) (de : Z) : Z :=
  ext4_rec_len_from_disk d (de_rec_len b de) (d_blocksize d).

Definition ext4_next_entry (d : dirctx) (b : list Z) (de : Z) : Z := de + rlen_at d b de.

(** [ext4_type_by_mode], indexed by the four type bits of a mode. *)
Definition ext4_type_by_mode (t : Z) : Z :=
  match t with
  | 8 => EXT4_FT_REG_FILE | 4 => EXT4_FT_DIR | 2 => EXT4_FT_CHRDEV | 6 => EXT4_FT_BLKDEV
  | 1 => EXT4_FT_FIFO | 12 => EXT4_FT_SOCK | 10 => EXT4_FT_SYMLINK
  | _ => 0
  end.

Definition ext4_set_de_type (d : dirctx) (b : list Z) (de mode : Z) : list Z :=
  if d_filetype d then putb b (de + 7) (ext4_type_by_mode (Z.shiftr (Z.land mode 0xF000) 12))
  else b.

(** ** Code outside the repository *)

Class DirNames := {
  (* fscrypt_match_name(fname, de_name, de_name_len) *)
  fscrypt_match_name : dirctx -> ext4_filename -> list Z -> bool;
  (* kmalloc of the decryption buffer, then fscrypt_fname_disk_to_usr *)
  fname_disk_to_usr : dirctx -> list Z -> Z + list Z;
  (* utf8_strncasecmp, and utf8_strncasecmp_folded *)
  utf8_strncasecmp : list Z -> list Z -> Z;
  utf8_strncasecmp_folded : list Z -> list Z -> Z;
  (* ext4_check_dir_entry(dir, .., de, bh, buf, size, offset): true when it
     reports an error *)
  ext4_check_dir_entry : dirctx -> list Z -> Z -> Z -> bool
}.

(** A record without errors: long enough, aligned, inside the buffer, not too
    close to its end, and with an inode number of the file system. *)
Definition sane (d : dirctx) (b : list Z) (size de : Z) : Prop :=
  let rlen := rlen_at d b de in
  let next := de + rlen in
  12 <= rlen /\ rlen mod 4 = 0 /\ ext4_dir_rec_len (de_name_len b de) (Some d) <= rlen /\
  next <= size /\ (next = size \/ next + 12 <= size) /\ de_inode b de <= d_inodes d.

Class DirNamesOk `{DirNames} := {
  (* the errors [__ext4_check_dir_entry] reports, for directories without hashes *)
  check_dir_entry_iff d b size de :
    ext4_hash_in_dirent d = false ->
    ext4_check_dir_entry d b size de = false <-> sane d b size de;
  (* without encryption names are compared as they are *)
  fscrypt_match_plain d f nm :
    d_encrypted d = false -> fscrypt_match_name d f nm = bool_decide (disk_name f = nm)
}.

(** ** Operations *)

(** The answer of a search: -1, 0, or 1 with the record. *)
Inductive search_result := SBad | SNone | SFound (de : Z).

Section Dirent.
Context `{DirNames} `{Csum}.
Variable d : dirctx.

(** [ext4_ci_compare] *)
Definition ext4_ci_compare (name denm : list Z) (quick : bool) : Z :=
  match (if d_encrypted d then fname_disk_to_usr d denm else inr denm) with
  | inl err => err
  | inr entry =>
      let ret := if quick then utf8_strncasecmp_folded name entry
                 else utf8_strncasecmp name entry in
      if ret <? 0 then
        if d_strict d then - EINVAL
        else if negb (Nat.eqb (length name) (length entry)) then 1
        else if bool_decide (name = entry) then 0 else 1
      else ret
  end.

Definition ext4_match (fname : ext4_filename) (b : list Z) (de : Z) : bool :=
  if de_inode b de =? 0 then false
  else if d_unicode d && d_casefolded d && (negb (d_encrypted d) || d_has_key d) then
    match cf_name fname with
    | Some cf =>
        if d_encrypted d &&
           (negb (hi_hash fname =? EXT4_DIRENT_HASH b de) ||
            negb (hi_minor_hash fname =? EXT4_DIRENT_MINOR_HASH b de))
        then false
        else ext4_ci_compare cf (de_name b de) true =? 0
    | None => ext4_ci_compare (usr_fname fname) (de_name b de) false =? 0
    end
  else fscrypt_match_name d fname (de_name b de).

(** The loop of [ext4_search_dir]; [None] when the fuel is spent. *)
Fixpoint search_loop (fuel : nat) (b : list Z) (buf_size : Z) (fname : ext4_filename)
    (de : Z) : option search_result :=
  match fuel with
  | O => None
  | S fuel =>
      if de <? buf_size - EXT4_BASE_DIR_LEN then
        if (de + 8 + de_name_len b de <=? buf_size) && ext4_match fname b de then
          if ext4_check_dir_entry d b buf_size de then Some SBad else Some (SFound de)
        else
          let de_len := rlen_at d b de in
          if de_len <=? 0 then Some SBad
          else search_loop fuel b buf_size fname (de + de_len)
      else Some SNone
  end.

(** [ext4_search_dir]: every round advances by at least one byte. *)
Definition ext4_search_dir (b : list Z) (buf_size : Z) (fname : ext4_filename) : option search_result :=
  search_loop (S (Z.to_nat buf_size)) b buf_size fname 0.

Definition search_dirblock (b : list Z) (fname : ext4_filename) : option search_result :=
  ext4_search_dir b (d_blocksize d) fname.

(** The loop of [ext4_find_dest_de]. *)
Fixpoint dest_loop (fuel : nat) (b : list Z) (buf_size : Z) (fname : ext4_filename)
    (reclen de : Z) : option (Z + Z) :=
  match fuel with
  | O => None
  | S fuel =>
      if de <=? buf_size - reclen then
        if ext4_check_dir_entry d b buf_size de then Some (inl (- EFSCORRUPTED))
        else if ext4_match fname b de then Some (inl (- EEXIST))
        else
          let nlen := ext4_dir_rec_len (de_name_len b de) (Some d) in
          let rlen := ext4_rec_len_from_disk d (de_rec_len b de) buf_size in
          if reclen <=? (if de_inode b de =? 0 then rlen else rlen - nlen) then Some (inr de)
          else dest_loop fuel b buf_size fname reclen (de + rlen)
      else Some (inl (- ENOSPC))
  end.

(** [ext4_find_dest_de]: an error, or the record to use. *)
Definition ext4_find_dest_de (b : list Z) (buf_size : Z) (fname : ext4_filename) :
    option (Z + Z) :=
  let reclen := u16 (ext4_dir_rec_len (Z.of_nat (length (disk_name fname))) (Some d)) in
  dest_loop (S (Z.to_nat buf_size)) b buf_size fname reclen 0.

(** Filling in the record at [de]: the second half of [ext4_insert_dentry]. *)
Definition fill_dentry (ino mode : Z) (b : list Z) (de : Z) (fname : ext4_filename) : list Z :=
  let b := putb b (de + 7) EXT4_FT_UNKNOWN in
  let b := put32 b de ino in
  let b := ext4_set_de_type d b de mode in
  let b := putb b (de + 6) (Z.of_nat (length (disk_name fname))) in
  let b := puts b (de + 8) (disk_name fname) in
  if ext4_hash_in_dirent d then
    let b := put32 b (EXT4_DIRENT_HASHES b de) (hi_hash fname) in
    put32 b (EXT4_DIRENT_HASHES b de + 4) (hi_minor_hash fname)
  else b.

(** The end of the bytes this writes: of the name, or of the hashes behind it. *)
Definition dentry_end (de : Z) (fname : ext4_filename) : Z :=
  let stop := 8 + Z.of_nat (length (disk_name fname)) in
  if ext4_hash_in_dirent d then de + Z.land (stop + EXT4_DIR_ROUND) (Z.lnot EXT4_DIR_ROUND) + 8
  else de + stop.
Definition fill_inside (ino mode : Z) (b : list Z) (de : Z) (fname : ext4_filename) : option (list Z) :=
  if Z.of_nat (length b) <? dentry_end de fname then None else Some (fill_dentry ino mode b de fname).

(** [ext4_insert_dentry]; [None] when a BUG_ON fires or the record is written past the
    end of the buffer. *)
Definition ext4_insert_dentry (ino mode : Z) (b : list Z) (de buf_size : Z)
    (fname : ext4_filename) : option (list Z) :=
  let nlen := ext4_dir_rec_len (de_name_len b de) (Some d) in
  let rlen := ext4_rec_len_from_disk d (de_rec_len b de) buf_size in
  if de_inode b de =? 0 then fill_inside ino mode b de fname
  else
    let de1 := de + nlen in
    match ext4_rec_len_to_disk d (rlen - nlen) buf_size with
    | None => None
    | Some r1 =>
        let b := put16 b (de1 + 4) r1 in
        match ext4_rec_len_to_disk d nlen buf_size with
        | None => None
        | Some r => fill_inside ino mode (put16 b (de + 4) r) de1 fname
        end
    end.

(** Wiping the record at [de]; [None] is the BUG_ON. *)
Definition wipe_entry (b : list Z) (pde : option Z) (de : Z) : option (list Z) :=
  let blocksize := d_blocksize d in
  match pde with
  | Some p =>
      match ext4_rec_len_to_disk d (rlen_at d b p + rlen_at d b de) blocksize with
      | None => None
      | Some r =>
          let b := put16 b (p + 4) r in
          Some (memset b de 0 (rlen_at d b de))
      end
  | None =>
      let b := put32 b de 0 in
      Some (memset b (de + 6) 0 (rlen_at d b de - 6))
  end.

(** The loop of [ext4_generic_delete_entry]: an error or the new block; [None]
    when the fuel is spent or a BUG_ON fires. *)
Fixpoint delete_loop (fuel : nat) (b : list Z) (de_del buf_size csum_size : Z)
    (pde : option Z) (de : Z) : option (Z + list Z) :=
  match fuel with
  | O => None
  | S fuel =>
      if de <? buf_size - csum_size then
        if ext4_check_dir_entry d b buf_size de then Some (inl (- EFSCORRUPTED))
        else if de =? de_del then inr <$> wipe_entry b pde de
        else delete_loop fuel b de_del buf_size csum_size (Some de) (ext4_next_entry d b de)
      else Some (inl (- ENOENT))
  end.

Definition ext4_generic_delete_entry (b : list Z) (de_del buf_size csum_size : Z) :
    option (Z + list Z) :=
  delete_loop (S (Z.to_nat buf_size)) b de_del buf_size csum_size None 0.

(** ** Checksums *)

Definition sizeof_dir_entry_tail : Z := 12.
Definition EXT4_DIRENT_TAIL (blocksize : Z) : Z := blocksize - sizeof_dir_entry_tail.

(** [ext4_initialize_dirent_tail]; [None] is the BUG_ON. *)
Definition ext4_initialize_dirent_tail (b : list Z) (blocksize : Z) : option (list Z) :=
  let t := EXT4_DIRENT_TAIL blocksize in
  let b := memset b t 0 sizeof_dir_entry_tail in
  match ext4_rec_len_to_disk d sizeof_dir_entry_tail blocksize with
  | None => None
  | Some r => Some (putb (put16 b (t + 4) r) (t + 7) EXT4_FT_DIR_CSUM)
  end.

(** [get_dirent_tail], the branch compiled without PARANOID. *)
Definition get_dirent_tail (b : list Z) : option Z :=
  let t := EXT4_DIRENT_TAIL (d_blocksize d) in
  if negb (get32 b t =? 0) ||
     negb (ext4_rec_len_from_disk d (get16 b (t + 4)) (d_blocksize d) =? sizeof_dir_entry_tail) ||
     negb (getb b (t + 6) =? 0) ||
     negb (getb b (t + 7) =? EXT4_FT_DIR_CSUM)
  then None else Some t.

Definition ext4_dirblock_csum (b : list Z) (size : Z) : Z :=
  ext4_chksum (d_seed d) (gets b 0 (Z.to_nat size)).

Definition ext4_dirblock_csum_verify (b : list Z) : bool :=
  if negb (d_csum d) then true
  else match get_dirent_tail b with
       | None => false
       | Some t => get32 b (t + 8) =? ext4_dirblock_csum b t
       end.

Definition ext4_dirblock_csum_set (b : list Z) : list Z :=
  if negb (d_csum d) then b
  else match get_dirent_tail b with
       | None => b
       | Some t => put32 b (t + 8) (ext4_dirblock_csum b t)
       end.

(** ** Checksums of index blocks *)

(** [get_dx_countlimit]: the offset of the count and limit, in an index node (a
    record spanning the block) or in the root (after "." and ".."). *)
Definition get_dx_countlimit (b : list Z) : option Z :=
  let blocksize := d_blocksize d in
  let rlen := rlen_at d b 0 in
  if rlen =? blocksize then Some 8
  else if rlen =? 12 then
    if negb (rlen_at d b 12 =? blocksize - 12) then None
    else if negb (get32 b 24 =? 0) || negb (getb b 29 =? 8) then None
    else Some 32
  else None.

Definition sizeof_dx_entry : Z := 8.
Definition sizeof_dx_tail : Z := 8.

(** [ext4_dx_csum]: the entries in use, the reserved word and a zero checksum. *)
Definition ext4_dx_csum (b : list Z) (count_offset count t : Z) : Z :=
  let size := count_offset + count * sizeof_dx_entry in
  let csum := ext4_chksum (d_seed d) (gets b 0 (Z.to_nat size)) in
  let csum := ext4_chksum csum (gets b t 4) in
  ext4_chksum csum (le_bytes 4 0).

Definition ext4_dx_csum_verify (b : list Z) : bool :=
  if negb (d_csum d) then true
  else match get_dx_countlimit b with
       | None => false
       | Some count_offset =>
           let limit := get16 b count_offset in
           let count := get16 b (count_offset + 2) in
           if d_blocksize d - sizeof_dx_tail <? count_offset + limit * sizeof_dx_entry then false
           else
             let t := count_offset + limit * sizeof_dx_entry in
             get32 b (t + 4) =? ext4_dx_csum b count_offset count t
       end.

Definition ext4_dx_csum_set (b : list Z) : list Z :=
  if negb (d_csum d) then b
  else match get_dx_countlimit b with
       | None => b
       | Some count_offset =>
           let limit := get16 b count_offset in
           let count := get16 b (count_offset + 2) in
           if d_blocksize d - sizeof_dx_tail <? count_offset + limit * sizeof_dx_entry then b
           else
             let t := count_offset + limit * sizeof_dx_entry in
             put32 b (t + 4) (ext4_dx_csum b count_offset count t)
       end.
End Dirent.

(** ** The chain of records *)

(** What the file system maintains about one record. *)
Definition entry_ok (d : dirctx) (b : list Z) (o : Z) : Prop :=
  12 <= rlen_at d b o /\ rlen_at d b o mod 4 = 0 /\
  ext4_dir_rec_len (de_name_len b o) (Some d) <= rlen_at d b o /\
  de_inode b o <= d_inodes d /\ (de_inode b o <> 0 -> 1 <= de_name_len b o).

(** [chain d b o e os]: the records at [os] tile the bytes from [o] to [e]. *)
Inductive chain (d : dirctx) (b : list Z) : Z -> Z -> list Z -> Prop :=
  | chain_nil o : chain d b o o []
  | chain_cons o e os :
      entry_ok d b o -> chain d b (o + rlen_at d b o) e os -> chain d b o e (o :: os).

(** A live entry, as a user of the directory sees it. *)
Record dent := Dent { e_name : list Z; e_ino : Z; e_type : Z }.
Definition ent (b : list Z) (o : Z) : dent :=
  Dent (de_name b o) (de_inode b o) (de_file_type b o).
Definition is_live (b : list Z) (o : Z) : bool := negb (de_inode b o =? 0).
Definition live (b : list Z) (os : list Z) : list dent := ent b <$> filter (fun o => is_live b o) os.

(** Bytes available to records, and the geometry of supported blocks. *)
Definition csum_size (d : dirctx) : Z := if d_csum d then sizeof_dir_entry_tail else 0.
Definition dir_limit (d : dirctx) : Z := d_blocksize d - csum_size d.

Definition dir_geometry (d : dirctx) : Prop :=
  1024 <= d_blocksize d <= 65536 /\ d_blocksize d <= d_pagesize d /\ d_blocksize d mod 4 = 0.

(** A directory without the casefold and encryption features. *)
Definition plain (d : dirctx) : Prop := d_casefolded d = false /\ d_encrypted d = false.

(** The invariant of a leaf block with the records [os]. *)
Definition dirblock (d : dirctx) (b : list Z) (os : list Z) : Prop :=
  bytes_ok b /\ Z.of_nat (length b) = d_blocksize d /\ chain d b 0 (dir_limit d) os /\
  (d_csum d = true -> get_dirent_tail d b = Some (EXT4_DIRENT_TAIL (d_blocksize d))).

(** The room a record offers to a new entry. *)
Definition room (d : dirctx) (b : list Z) (o : Z) : Z :=
  if de_inode b o =? 0 then rlen_at d b o
  else rlen_at d b o - ext4_dir_rec_len (de_name_len b o) (Some d).

(** ** Record lengths *)

Lemma land_lnot3 x : Z.land x (Z.lnot 3) = x / 4 * 4.
Proof.
  rewrite <- Z.ldiff_land. change 3 with (Z.ones 2).
  rewrite Z.ldiff_ones_r by lia. rewrite Z.shiftr_div_pow2, Z.shiftl_mul_pow2 by lia. done.
Qed.

Lemma dir_rec_len_plain d nl :
  plain d -> 0 <= nl < 256 -> ext4_dir_rec_len nl (Some d) = (nl + 11) / 4 * 4.
Proof.
  intros [Hc _] Hnl. unfold ext4_dir_rec_len, ext4_hash_in_dirent, EXT4_DIR_ROUND.
  rewrite Hc, u8_small by lia. cbn [andb]. rewrite land_lnot3.
  by replace (nl + 8 + 3) with (nl + 11) by lia.
Qed.

(** The bounds used everywhere: header and name fit, in less than a word more. *)
Lemma dir_rec_len_bounds d nl :
  plain d -> 0 <= nl < 256 ->
  let r := ext4_dir_rec_len nl (Some d) in
  nl + 8 <= r <= nl + 11 /\ r mod 4 = 0 /\ (1 <= nl -> 12 <= r).
Proof.
  intros Hp Hnl r. subst r. rewrite dir_rec_len_plain by done.
  rewrite Z.mod_mul by lia. pose proof (Z.div_mod (nl + 11) 4).
  pose proof (Z.mod_pos_bound (nl + 11) 4). lia.
Qed.

Lemma rec_len_land len : len mod 4 = 0 -> Z.land len 3 = 0.
Proof. intros H. change 3 with (Z.ones 2). by rewrite Z.land_ones. Qed.

Lemma rec_len_high len : 0 <= len < 65536 -> len mod 4 = 0 -> Z.land len 65532 = len.
Proof.
  intros Hl Hm. replace 65532 with (Z.land (Z.ones 16) (Z.lnot 3)) by done.
  rewrite Z.land_assoc, Z.land_ones, Z.mod_small by (try done; lia).
  rewrite land_lnot3. pose proof (Z.div_mod len 4). lia.
Qed.

(** Encoding and decoding a record length are inverse, for either page size. *)
Lemma rec_len_roundtrip d len :
  dir_geometry d -> 0 < len <= d_blocksize d -> len mod 4 = 0 ->
  exists v, ext4_rec_len_to_disk d len (d_blocksize d) = Some v /\ 0 <= v < 65536 /\
    ext4_rec_len_from_disk d v (d_blocksize d) = len.
Proof.
  intros (Hb & Hp & Hm) Hlen Hl. unfold ext4_rec_len_to_disk, ext4_rec_len_from_disk.
  rewrite (rec_len_land len Hl). change (Z.shiftl 1 18) with 262144.
  destruct (Z.ltb_spec (d_blocksize d) len); [lia|].
  destruct (Z.ltb_spec 262144 (d_blocksize d)); [lia|].
  cbn [orb negb Z.eqb]. eexists. split; [reflexivity|]. unfold EXT4_MAX_REC_LEN.
  destruct (Z.leb_spec 65536 (d_pagesize d)).
  - destruct (Z.ltb_spec len 65536).
    + split; [lia|]. destruct (Z.eqb_spec len 65535); [subst; done|].
      destruct (Z.eqb_spec len 0); [lia|]. cbn [orb].
      rewrite rec_len_land, rec_len_high by (done || lia). apply Z.lor_0_r.
    + assert (len = d_blocksize d /\ d_blocksize d = 65536) as [-> ->] by lia. simpl. lia.
  - rewrite u16_small by lia. lia.
Qed.

(** A record that does not fill the block decodes alike for every buffer size. *)
Lemma rec_len_buf_size d v size :
  ext4_rec_len_from_disk d v (d_blocksize d) <= size ->
  size <= d_blocksize d ->
  ext4_rec_len_from_disk d v size = ext4_rec_len_from_disk d v (d_blocksize d).
Proof.
  unfold ext4_rec_len_from_disk. destruct (65536 <=? d_pagesize d); [|done].
  destruct ((v =? EXT4_MAX_REC_LEN) || (v =? 0)); [lia|done].
Qed.

(** ** Records are local to their bytes *)

(** [b'] agrees with [b] on the bytes of [lo .. hi - 1]. *)
Definition same_on (lo hi : Z) (b b' : list Z) : Prop :=
  forall i, lo <= i < hi -> getb b' i = getb b i.

Lemma same_on_sub lo hi lo' hi' b b' :
  same_on lo hi b b' -> lo <= lo' -> hi' <= hi -> same_on lo' hi' b b'.
Proof. intros Hs ? ? i Hi. apply Hs. lia. Qed.

Section Chains.
Context `{DirNamesOk} `{Csum}.
Variable d : dirctx.
Hypothesis Hplain : plain d.
Hypothesis Hgeo : dir_geometry d.

Lemma name_len_range b o : bytes_ok b -> 0 <= de_name_len b o < 256.
Proof. apply getb_range. Qed.

(** Two blocks that agree on the bytes of a record have the same record. *)
Lemma record_same b b' o :
  same_on o (o + 8) b b' ->
  de_inode b' o = de_inode b o /\ de_rec_len b' o = de_rec_len b o /\
  de_name_len b' o = de_name_len b o /\ de_file_type b' o = de_file_type b o.
Proof.
  intros Hs. unfold de_inode, de_rec_len, de_name_len, de_file_type.
  repeat split; try (apply le_get_ext; intros; apply Hs; lia); apply Hs; lia.
Qed.

Lemma name_same b b' o :
  same_on o (o + 8 + de_name_len b o) b b' -> 0 <= de_name_len b o ->
  de_name b' o = de_name b o.
Proof.
  intros Hs Hn. unfold de_name.
  destruct (record_same b b' o) as (_ & _ & -> & _); [by eapply same_on_sub; eauto; lia|].
  apply gets_ext. intros. apply Hs. lia.
Qed.

Lemma entry_same b b' o :
  bytes_ok b -> entry_ok d b o -> same_on o (o + rlen_at d b o) b b' ->
  entry_ok d b' o /\ rlen_at d b' o = rlen_at d b o /\ ent b' o = ent b o /\
  is_live b' o = is_live b o.
Proof.
  intros Hb (H12 & Hm & Hn & Hi & Hl) Hs. pose proof (name_len_range b o Hb) as Hr.
  pose proof (dir_rec_len_bounds d _ Hplain Hr) as (Hb1 & _).
  destruct (record_same b b' o) as (E1 & E2 & E3 & E4); [by eapply same_on_sub; eauto; lia|].
  assert (En : de_name b' o = de_name b o)
    by (apply name_same; [eapply same_on_sub; eauto; lia|lia]).
  unfold entry_ok, rlen_at, ent, is_live in *. rewrite E1, E2, E3, E4, En. done.
Qed.

Lemma live_cons b o os :
  live b (o :: os) = if is_live b o then ent b o :: live b os else live b os.
Proof. unfold live. rewrite filter_cons. by destruct (is_live b o). Qed.

Lemma live_app b os1 os2 : live b (os1 ++ os2) = live b os1 ++ live b os2.
Proof. unfold live. by rewrite filter_app, fmap_app. Qed.

Lemma chain_le b o e os : chain d b o e os -> o <= e.
Proof. induction 1 as [|o e os (H12 & _) _ IH]; lia. Qed.

Lemma chain_same b b' o e os :
  bytes_ok b -> chain d b o e os -> same_on o e b b' ->
  chain d b' o e os /\ live b' os = live b os.
Proof.
  intros Hb. induction 1 as [o|o e os Hok Hc IH]; intros Hs.
  - split; [constructor|done].
  - pose proof (chain_le _ _ _ _ Hc) as Hle. pose proof Hok as (H12 & _).
    destruct (entry_same b b' o Hb Hok) as (Hok' & Er & Ee & El);
      [eapply same_on_sub; eauto; lia|].
    destruct IH as [Hc' Hv]; [eapply same_on_sub; eauto; lia|].
    rewrite !live_cons, Ee, El, Hv. split; [|done].
    constructor; [done|]. by rewrite Er.
Qed.

Lemma chain_app b o e os1 os2 :
  chain d b o e (os1 ++ os2) <-> exists m, chain d b o m os1 /\ chain d b m e os2.
Proof.
  split.
  - revert o. induction os1 as [|x os1 IH]; simpl; intros o Hc.
    + exists o. split; [constructor|done].
    + inversion Hc; subst. destruct (IH _ ltac:(eassumption)) as (m & H1' & H2').
      exists m. split; [by constructor|done].
  - intros (m & H1' & H2'). induction H1'; [done|]. simpl. constructor; auto.
Qed.

(** A record and what surrounds it. *)
Lemma chain_focus b e os1 o os2 :
  chain d b 0 e (os1 ++ o :: os2) ->
  chain d b 0 o os1 /\ entry_ok d b o /\ chain d b (o + rlen_at d b o) e os2.
Proof.
  intros Hc. apply chain_app in Hc as (m & H1' & H2'). inversion H2'; subst. done.
Qed.

Lemma chain_unfocus b e os1 o os2 :
  chain d b 0 o os1 -> entry_ok d b o -> chain d b (o + rlen_at d b o) e os2 ->
  chain d b 0 e (os1 ++ o :: os2).
Proof. intros. apply chain_app. exists o. split; [done|]. by constructor. Qed.

(** A record of a chain passes the check, for the chain's end and for a buffer
    that goes on after it with at least one record. *)
Lemma chain_sane b o e os size :
  chain d b o e os -> (e = size \/ e + 12 <= size) ->
  Forall (fun x => ext4_check_dir_entry d b size x = false) os.
Proof.
  intros Hc He. induction Hc as [|o e os Hok Hc IH]; constructor; [|by apply IH].
  apply check_dir_entry_iff; [unfold ext4_hash_in_dirent; by rewrite (proj1 Hplain)|].
  pose proof Hok as (H12 & Hm & Hn & Hi & _). pose proof (chain_le _ _ _ _ Hc).
  unfold sane. repeat split; try done; [lia|].
  inversion Hc as [|? ? ? (H12' & _) Hc']; subst; [lia|].
  pose proof (chain_le _ _ _ _ Hc'). right. lia.
Qed.
End Chains.

(** ** Searching a block *)

Section Search.
Context `{DirNamesOk} `{Csum}.
Variable d : dirctx.
Hypothesis Hplain : plain d.
Hypothesis Hgeo : dir_geometry d.

Lemma match_plain fname b o :
  ext4_match d fname b o = is_live b o && bool_decide (disk_name fname = de_name b o).
Proof.
  destruct Hplain as [Hc He]. unfold ext4_match, is_live.
  destruct (de_inode b o =? 0); [done|].
  rewrite Hc, andb_false_r. cbn [andb negb]. by apply fscrypt_match_plain.
Qed.

(** The first live record with the name of [fname]. *)
Definition first_match (fname : ext4_filename) (b : list Z) (os : list Z) : search_result :=
  match list_find (fun o => ext4_match d fname b o) os with
  | Some (_, o) => SFound o
  | None => SNone
  end.

(** The record after the last one is the checksum tail, or the block ends. *)
Lemma search_end b fname fuel :
  (d_csum d = true -> get_dirent_tail d b = Some (EXT4_DIRENT_TAIL (d_blocksize d))) ->
  d_blocksize d - dir_limit d < Z.of_nat fuel ->
  search_loop d fuel b (d_blocksize d) fname (dir_limit d) = Some SNone.
Proof.
  intros Ht Hf. unfold dir_limit, csum_size in *. destruct fuel as [|fuel].
  { unfold sizeof_dir_entry_tail in Hf. destruct (d_csum d); lia. }
  cbn [search_loop]. unfold EXT4_BASE_DIR_LEN. destruct (d_csum d).
  - destruct fuel as [|fuel]; [unfold sizeof_dir_entry_tail in Hf; lia|]. cbn [search_loop].
    unfold EXT4_BASE_DIR_LEN. specialize (Ht eq_refl). unfold get_dirent_tail, EXT4_DIRENT_TAIL, sizeof_dir_entry_tail in *.
    match type of Ht with (if ?c then _ else _) = _ => destruct c eqn:Hc; [done|] end.
    reflect_bools. destruct (Z.ltb_spec (d_blocksize d - 12) (d_blocksize d - 8)); [|lia].
    unfold ext4_match, de_inode.
    replace (get32 b (d_blocksize d - 12)) with 0. cbn [Z.eqb]. rewrite andb_false_r.
    unfold rlen_at, de_rec_len.
    replace (ext4_rec_len_from_disk d (get16 b (d_blocksize d - 12 + 4)) (d_blocksize d)) with 12.
    cbn [Z.leb Z.compare]. destruct (Z.ltb_spec (d_blocksize d - 12 + 12) (d_blocksize d - 8)); [lia|done].
  - destruct (Z.ltb_spec (d_blocksize d - 0) (d_blocksize d - 8)); [lia|done].
Qed.

Lemma first_match_cons fname b o os :
  first_match fname b (o :: os) =
    if ext4_match d fname b o then SFound o else first_match fname b os.
Proof.
  unfold first_match. cbn [list_find]. destruct (ext4_match d fname b o); [done|].
  simpl. destruct (list_find _ os) as [[]|]; done.
Qed.

Lemma search_chain b fname os : forall o fuel,
  bytes_ok b -> chain d b o (dir_limit d) os ->
  (d_csum d = true -> get_dirent_tail d b = Some (EXT4_DIRENT_TAIL (d_blocksize d))) ->
  d_blocksize d - o < Z.of_nat fuel ->
  0 <= o ->
  search_loop d fuel b (d_blocksize d) fname o = Some (first_match fname b os).
Proof.
  assert (Hlim : dir_limit d = d_blocksize d \/ dir_limit d + 12 <= d_blocksize d)
    by (unfold dir_limit, csum_size, sizeof_dir_entry_tail; destruct (d_csum d); lia).
  induction os as [|x os IH]; intros o fuel Hb Hc Ht Hf Ho.
  - inversion Hc; subst. by apply search_end.
  - inversion Hc as [|? ? ? Hok Hc']; subst.
    pose proof (chain_le d _ _ _ _ Hc') as Hle. pose proof Hok as (H12 & Hm & Hn & _).
    destruct fuel as [|fuel]; [lia|].
    pose proof (name_len_range b x Hb) as Hr.
    pose proof (dir_rec_len_bounds d _ Hplain Hr) as (Hb1 & _).
    cbn [search_loop]. unfold EXT4_BASE_DIR_LEN.
    destruct (Z.ltb_spec x (d_blocksize d - 8)); [|lia].
    destruct (Z.leb_spec (x + 8 + de_name_len b x) (d_blocksize d)); [|lia].
    rewrite first_match_cons. cbn [andb]. destruct (ext4_match d fname b x).
    + pose proof (chain_sane d Hplain _ _ _ _ _ Hc Hlim) as Hs. inversion Hs as [|? ? Hx]; subst.
      by rewrite Hx.
    + destruct (Z.leb_spec (rlen_at d b x) 0); [lia|]. apply IH; try done; lia.
Qed.

Lemma first_match_spec fname b os :
  match first_match fname b os with
  | SFound o => o ∈ os /\ is_live b o = true /\ de_name b o = disk_name fname
  | SNone => forall e, e ∈ live b os -> e_name e <> disk_name fname
  | SBad => False
  end.
Proof.
  induction os as [|x os IH]; [intros e He; inversion He|].
  rewrite first_match_cons, match_plain, live_cons. destruct (is_live b x) eqn:Hl; cbn [andb].
  - case_bool_decide as Hn; [split; [left|done]|].
    destruct (first_match fname b os); [done| |].
    + intros e [->|He]%elem_of_cons; [simpl; congruence|by apply IH].
    + destruct IH as [? ?]. split; [by right|done].
  - destruct (first_match fname b os); [done|done|]. destruct IH as [? ?]. split; [by right|done].
Qed.

(** Searching a well-formed block terminates without an error and is the lookup
    in the list of its live entries: the record found is a live one with the name
    searched for, and nothing is found only when no live entry has that name. *)
Theorem dirblock_search_spec b os fname :
  dirblock d b os ->
  match search_dirblock d b fname with
  | Some (SFound o) => o ∈ os /\ is_live b o = true /\ de_name b o = disk_name fname
  | Some SNone => forall e, e ∈ live b os -> e_name e <> disk_name fname
  | Some SBad | None => False
  end.
Proof.
  intros (Hb & Hlen & Hc & Ht). unfold search_dirblock, ext4_search_dir.
  destruct Hgeo. rewrite (search_chain b fname os) by (done || lia). apply first_match_spec.
Qed.
End Search.

(** ** Inserting an entry *)

Section Insert.
Context `{DirNamesOk} `{Csum}.
Variable d : dirctx.
Hypothesis Hplain : plain d.
Hypothesis Hgeo : dir_geometry d.

(** Filling in a record writes its header, except the length, and the name. *)
Lemma fill_dentry_spec ino mode b o fname :
  let nl := Z.of_nat (length (disk_name fname)) in
  let b' := fill_dentry d ino mode b o fname in
  bytes_ok b -> bytes_ok (disk_name fname) -> nl < 256 ->
  0 <= o -> o + 8 + nl <= Z.of_nat (length b) -> 0 <= ino < 2 ^ 32 ->
  bytes_ok b' /\ length b' = length b /\
  ent b' o = Dent (disk_name fname) ino
    (if d_filetype d then ext4_type_by_mode (Z.shiftr (Z.land mode 0xF000) 12) else 0) /\
  de_rec_len b' o = de_rec_len b o /\ de_name_len b' o = nl /\
  (forall i, i < o \/ o + 8 + nl <= i -> getb b' i = getb b i).
Proof.
  intros nl b' Hb Hn Hnl Ho Hfit Hino. subst b'. unfold fill_dentry, ext4_hash_in_dirent.
  rewrite (proj1 Hplain). cbn [andb]. unfold ext4_set_de_type.
  set (t := ext4_type_by_mode _). fold nl.
  assert (Ht : 0 <= t < 256) by (subst t; unfold ext4_type_by_mode; repeat case_match; done).
  set (b1 := put32 (putb b (o + 7) EXT4_FT_UNKNOWN) o ino).
  set (b2 := if d_filetype d then putb b1 (o + 7) t else b1).
  assert (Hb2 : bytes_ok b2 /\ length b2 = length b /\ get32 b2 o = ino /\
                getb b2 (o + 7) = (if d_filetype d then t else 0) /\
                forall i, i < o \/ o + 4 <= i -> i <> o + 7 -> getb b2 i = getb b i).
  { assert (Hl1 : length b1 = length b) by (subst b1; by autorewrite with len).
    assert (Hi1 : get32 b1 o = ino)
      by (subst b1; rewrite get32_put32_eq; [by apply u32_small|lia|autorewrite with len; lia]).
    subst b2. destruct (d_filetype d); repeat split; autorewrite with len;
      eauto with evfs; subst b1; eauto with evfs.
    - by rewrite le_get_putb_out by lia.
    - rewrite getb_putb, Z.eqb_refl by lia. by apply u8_small.
    - intros i Hi Hne. rewrite getb_putb_ne, getb_put_out, getb_putb_ne by lia. done.
    - rewrite getb_put_out, getb_putb, Z.eqb_refl by lia. done.
    - intros i Hi Hne. rewrite getb_put_out, getb_putb_ne by lia. done. }
  clearbody b2. clear b1. destruct Hb2 as (Hok2 & Hl2 & Hi2 & Ht2 & Hout2).
  assert (Hnl6 : getb (puts (putb b2 (o + 6) nl) (o + 8) (disk_name fname)) (o + 6) = nl).
  { rewrite getb_puts_out, getb_putb, Z.eqb_refl by lia. apply u8_small. lia. }
  split_and!; eauto with evfs.
  - autorewrite with len. done.
  - unfold ent, de_name, de_inode, de_file_type, de_name_len. rewrite Hnl6. subst nl.
    rewrite Nat2Z.id, gets_puts_eq by (done || lia || (rewrite length_putb; lia)).
    rewrite le_get_puts_out, le_get_putb_out by lia.
    rewrite getb_puts_out, getb_putb_ne by lia. by rewrite Hi2, Ht2.
  - unfold de_rec_len. rewrite le_get_puts_out, le_get_putb_out by lia.
    apply le_get_ext. intros. apply Hout2; lia.
  - intros i Hi. rewrite getb_puts_out, getb_putb_ne by lia. apply Hout2; lia.
Qed.

Lemma dir_limit_bounds : d_blocksize d - 12 <= dir_limit d <= d_blocksize d /\ 12 <= dir_limit d /\
  (dir_limit d = d_blocksize d \/ dir_limit d + 12 <= d_blocksize d).
Proof.
  destruct Hgeo. unfold dir_limit, csum_size, sizeof_dir_entry_tail. destruct (d_csum d); lia.
Qed.

Lemma tail_same b b' :
  same_on (dir_limit d) (d_blocksize d) b b' -> d_csum d = true ->
  get_dirent_tail d b' = get_dirent_tail d b.
Proof.
  unfold dir_limit, csum_size. intros Hs Hc. rewrite Hc in Hs.
  unfold get_dirent_tail, EXT4_DIRENT_TAIL, sizeof_dir_entry_tail in *.
  rewrite (le_get_ext 4 b' b), (le_get_ext 2 b' b), !Hs by (lia || (intros; apply Hs; lia)).
  done.
Qed.

(** Replacing the records between [s] and [e] leaves the rest of the block as it
    was. *)
Lemma dirblock_replace b b' os1 old os2 mid s e :
  dirblock d b (os1 ++ old ++ os2) -> chain d b 0 s os1 -> chain d b s e old ->
  chain d b e (dir_limit d) os2 ->
  bytes_ok b' -> length b' = length b -> chain d b' s e mid ->
  (forall i, i < s \/ e <= i -> getb b' i = getb b i) ->
  dirblock d b' (os1 ++ mid ++ os2) /\
  live b' (os1 ++ mid ++ os2) = live b os1 ++ live b' mid ++ live b os2.
Proof.
  intros (Hb & Hl & _ & Ht) H1c Hold H2c Hb' Hl' Hmid Hout.
  pose proof (chain_le d _ _ _ _ H2c) as Hle. pose proof (chain_le d _ _ _ _ H1c).
  pose proof (chain_le d _ _ _ _ Hold).
  destruct (chain_same d Hplain b b' 0 s os1 Hb H1c) as [H1' L1]; [intros i Hi; apply Hout; lia|].
  destruct (chain_same d Hplain b b' e _ os2 Hb H2c) as [H2' L2]; [intros i Hi; apply Hout; lia|].
  rewrite !live_app, L1, L2. split; [|done]. split_and!; [done|congruence| |].
  - apply chain_app. exists s. split; [done|]. apply chain_app. by exists e.
  - intros Hc. rewrite (tail_same b b'); [by apply Ht| |done]. intros i Hi. apply Hout. lia.
Qed.

(** The search for room. *)
Lemma dest_chain b fname reclen os : forall o fuel,
  bytes_ok b -> chain d b o (dir_limit d) os -> dir_limit d - o < Z.of_nat fuel -> 0 <= o ->
  12 <= reclen ->
  exists r, dest_loop d fuel b (dir_limit d) fname reclen o = Some r /\
    match r with
    | inr x => x ∈ os /\ reclen <= room d b x
    | inl e => e = - EEXIST /\ (exists x, x ∈ os /\ ext4_match d fname b x = true) \/
               e = - ENOSPC /\ (forall x, x ∈ os -> room d b x < reclen)
    end.
Proof.
  induction os as [|x os IH]; intros o fuel Hb Hc Hf Ho Hr.
  - inversion Hc; subst. destruct fuel as [|fuel]; [lia|]. cbn [dest_loop].
    destruct (Z.leb_spec (dir_limit d) (dir_limit d - reclen)); [lia|].
    eexists. split; [done|]. right. split; [done|]. intros x Hx. inversion Hx.
  - inversion Hc as [|? ? ? Hok Hc']; subst. pose proof (chain_le d _ _ _ _ Hc') as Hle.
    pose proof Hok as (H12 & Hm & Hn & _). destruct fuel as [|fuel]; [lia|].
    pose proof dir_limit_bounds as (Hlim & _).
    assert (Hrl : ext4_rec_len_from_disk d (de_rec_len b x) (dir_limit d) = rlen_at d b x)
      by (apply rec_len_buf_size; fold (rlen_at d b x); lia).
    cbn [dest_loop]. rewrite Hrl. fold (room d b x).
    destruct (Z.leb_spec x (dir_limit d - reclen)).
    + pose proof (chain_sane d Hplain _ _ _ _ _ Hc (or_introl eq_refl)) as Hs.
      inversion Hs as [|? ? Hx _]; subst. rewrite Hx.
      destruct (ext4_match d fname b x) eqn:Hmt.
      { eexists. split; [done|]. left. split; [done|]. exists x. split; [by left|done]. }
      destruct (Z.leb_spec reclen (room d b x)).
      { eexists. split; [done|]. split; [by left|done]. }
      destruct (IH (x + rlen_at d b x) fuel) as (r & Hr' & Hres); try done; [lia..|].
      exists r. split; [done|]. destruct r as [e|y].
      * destruct Hres as [(-> & y & Hy & ?)|[-> Hall]]; [left|right].
        -- split; [done|]. exists y. split; [by right|done].
        -- split; [done|]. intros y [->|Hy]%elem_of_cons; [done|by apply Hall].
      * destruct Hres. split; [by right|done].
    + eexists. split; [done|]. right. split; [done|]. intros y Hy.
      assert (x <= y /\ y + rlen_at d b y <= dir_limit d /\ entry_ok d b y) as (? & ? & Hoky).
      { apply list_elem_of_split in Hy as (os1 & os2 & Heq). rewrite Heq in Hc.
        apply chain_app in Hc as (m & Hc1 & Hc2). inversion Hc2; subst.
        split_and!; [by eapply chain_le|by eapply chain_le|done]. }
      destruct Hoky as (_ & _ & Hny & _). pose proof (name_len_range b y Hb) as Hry.
      pose proof (dir_rec_len_bounds d _ Hplain Hry) as (Hby & _).
      unfold room. destruct (de_inode b y =? 0); lia.
Qed.

(** The entry a caller asks for. *)
Definition new_dent (ino mode : Z) (fname : ext4_filename) : dent :=
  Dent (disk_name fname) ino
    (if d_filetype d then ext4_type_by_mode (Z.shiftr (Z.land mode 0xF000) 12) else 0).

Definition name_ok (fname : ext4_filename) : Prop :=
  bytes_ok (disk_name fname) /\ 1 <= Z.of_nat (length (disk_name fname)) <= EXT4_NAME_LEN.

Definition reclen_of (fname : ext4_filename) : Z :=
  ext4_dir_rec_len (Z.of_nat (length (disk_name fname))) (Some d).

Lemma reclen_bounds fname :
  name_ok fname ->
  let nl := Z.of_nat (length (disk_name fname)) in
  12 <= reclen_of fname < 65536 /\ nl + 8 <= reclen_of fname /\ reclen_of fname mod 4 = 0.
Proof.
  intros [_ Hn] nl. unfold EXT4_NAME_LEN in Hn.
  pose proof (dir_rec_len_bounds d nl Hplain ltac:(lia)) as (? & ? & ?).
  unfold reclen_of. fold nl. lia.
Qed.

Lemma fill_inside_fits ino mode b de fname :
  name_ok fname -> de + reclen_of fname <= Z.of_nat (length b) ->
  fill_inside d ino mode b de fname = Some (fill_dentry d ino mode b de fname).
Proof.
  intros Hn Hfit. pose proof (reclen_bounds fname Hn) as (_ & Hnl & _).
  unfold fill_inside, dentry_end, ext4_hash_in_dirent. rewrite (proj1 Hplain). cbn [andb].
  by destruct (Z.ltb_spec (Z.of_nat (length b)) (de + (8 + Z.of_nat (length (disk_name fname))))); [lia|].
Qed.

(** A record filled in at [x], whose length [L] is already there. *)
Lemma fill_chain ino mode b x fname L :
  bytes_ok b -> name_ok fname -> 0 < ino < 2 ^ 32 -> ino <= d_inodes d ->
  0 <= x -> x + L <= Z.of_nat (length b) -> rlen_at d b x = L -> reclen_of fname <= L ->
  L mod 4 = 0 ->
  let b' := fill_dentry d ino mode b x fname in
  bytes_ok b' /\ length b' = length b /\
  (forall i, i < x \/ x + L <= i -> getb b' i = getb b i) /\
  chain d b' x (x + L) [x] /\ live b' [x] = [new_dent ino mode fname].
Proof.
  intros Hb Hn Hino Hmax Hx Hfit HL Hrl Hm b'. pose proof (reclen_bounds fname Hn) as (H12 & Hnl & _).
  destruct Hn as [Hnb Hn]. unfold EXT4_NAME_LEN in Hn.
  destruct (fill_dentry_spec ino mode b x fname) as (Hb' & Hl' & He & Er & En & Hout);
    try (done || lia).
  fold b' in Hb', Hl', He, Er, En, Hout.
  assert (Hrx : rlen_at d b' x = L) by (unfold rlen_at in *; congruence).
  assert (Hix : de_inode b' x = ino) by (unfold ent in He; congruence).
  split_and!; [done|done|intros; apply Hout; lia| |].
  - rewrite <- Hrx. constructor; [|constructor]. unfold entry_ok.
    rewrite Hrx, En, Hix. split_and!; try done; unfold reclen_of in *; lia.
  - rewrite live_cons. unfold is_live. rewrite Hix. destruct (Z.eqb_spec ino 0); [lia|].
    simpl. by rewrite He.
Qed.

(** Cutting the free end off a live record. *)
Lemma split_record b x L nlen r1 r :
  let x1 := x + nlen in
  let b1 := put16 (put16 b (x1 + 4) r1) (x + 4) r in
  bytes_ok b -> entry_ok d b x -> rlen_at d b x = L -> de_inode b x <> 0 ->
  nlen = ext4_dir_rec_len (de_name_len b x) (Some d) -> 12 <= L - nlen ->
  0 <= x -> x + L <= Z.of_nat (length b) ->
  0 <= r1 < 65536 -> ext4_rec_len_from_disk d r1 (d_blocksize d) = L - nlen ->
  0 <= r < 65536 -> ext4_rec_len_from_disk d r (d_blocksize d) = nlen ->
  bytes_ok b1 /\ length b1 = length b /\
  (forall i, i < x \/ x + L <= i -> getb b1 i = getb b i) /\
  rlen_at d b1 x1 = L - nlen /\ chain d b1 x x1 [x] /\ live b1 [x] = live b [x].
Proof.
  intros x1 b1 Hb (H12 & Hm & Hn & Hi & Hl) HL Hlive Hnl Hgap Hx Hfit Hr1 E1 Hr E.
  pose proof (name_len_range b x Hb) as Hr0.
  pose proof (dir_rec_len_bounds d _ Hplain Hr0) as (Hb1 & Hmod & H12'). rewrite <- Hnl in *.
  specialize (Hl Hlive). specialize (H12' Hl).
  assert (Hout : forall i, (i < x + 4 \/ x + 6 <= i) -> (i < x1 + 4 \/ x1 + 6 <= i) ->
                 getb b1 i = getb b i).
  { intros i ? ?. unfold b1. rewrite !getb_put_out by lia. done. }
  assert (Hlen : length b1 = length b) by (unfold b1; by autorewrite with len).
  assert (Hrx : rlen_at d b1 x = nlen).
  { unfold rlen_at, de_rec_len, b1. rewrite get16_put16_eq by (autorewrite with len; lia).
    by rewrite u16_small. }
  assert (Hrx1 : rlen_at d b1 x1 = L - nlen).
  { unfold rlen_at, de_rec_len, b1. rewrite le_get_put_out by lia.
    rewrite get16_put16_eq by lia. by rewrite u16_small. }
  assert (Hf : de_inode b1 x = de_inode b x /\ de_name_len b1 x = de_name_len b x /\
               ent b1 x = ent b x).
  { assert (Hi' : de_inode b1 x = de_inode b x)
      by (apply le_get_ext; intros; apply Hout; lia).
    assert (Hn' : de_name_len b1 x = de_name_len b x) by (apply Hout; lia).
    split_and!; [done|done|]. unfold ent, de_name, de_file_type. rewrite Hi', Hn'.
    f_equal; [apply gets_ext; intros; apply Hout; lia|apply Hout; lia]. }
  destruct Hf as (Ei & En & Ee).
  split_and!; [unfold b1; eauto with evfs|done|intros; apply Hout; lia|done| |].
  - subst x1. rewrite <- Hrx. constructor; [|constructor]. unfold entry_ok.
    rewrite Hrx, En, Ei, <- Hnl. split_and!; try done; lia.
  - rewrite !live_cons. unfold is_live. by rewrite Ei, Ee.
Qed.

Lemma insert_free_record ino mode b os1 x os2 fname :
  dirblock d b (os1 ++ x :: os2) -> name_ok fname -> 0 < ino < 2 ^ 32 -> ino <= d_inodes d ->
  de_inode b x = 0 -> reclen_of fname <= rlen_at d b x ->
  exists b' os',
    ext4_insert_dentry d ino mode b x (d_blocksize d) fname = Some b' /\ dirblock d b' os' /\
    live b' os' = live b os1 ++ new_dent ino mode fname :: live b os2.
Proof.
  intros Hd Hn Hino Hmax Hfree Hroom. pose proof Hd as (Hb & Hlen & Hc & _).
  destruct (chain_focus d _ _ _ _ _ Hc) as (H1c & Hok & H2c). pose proof Hok as (H12 & Hm & _).
  pose proof (chain_le d _ _ _ _ H1c). pose proof (chain_le d _ _ _ _ H2c).
  pose proof dir_limit_bounds as (Hlim & _).
  destruct (fill_chain ino mode b x fname (rlen_at d b x)) as (Hb' & Hl' & Hout & Hc' & Hv);
    try (done || lia).
  destruct (dirblock_replace b (fill_dentry d ino mode b x fname) os1 [x] os2 [x] x
              (x + rlen_at d b x) Hd H1c) as [Hd' Hv'];
    try done; [by constructor; [|constructor]|].
  rewrite Hv in Hv'. unfold ext4_insert_dentry. rewrite Hfree, fill_inside_fits by (done || lia). eexists _, _.
  split; [reflexivity|]. split; [exact Hd'|]. by rewrite Hv'.
Qed.

Lemma insert_live_record ino mode b os1 x os2 fname :
  dirblock d b (os1 ++ x :: os2) -> name_ok fname -> 0 < ino < 2 ^ 32 -> ino <= d_inodes d ->
  de_inode b x <> 0 ->
  reclen_of fname <= rlen_at d b x - ext4_dir_rec_len (de_name_len b x) (Some d) ->
  exists b' os',
    ext4_insert_dentry d ino mode b x (d_blocksize d) fname = Some b' /\ dirblock d b' os' /\
    live b' os' = (live b os1 ++ live b [x]) ++ new_dent ino mode fname :: live b os2.
Proof.
  intros Hd Hn Hino Hmax Hlive Hroom. pose proof Hd as (Hb & Hlen & Hc & _).
  destruct (chain_focus d _ _ _ _ _ Hc) as (H1c & Hok & H2c). pose proof Hok as (H12 & Hm & _).
  pose proof (chain_le d _ _ _ _ H1c). pose proof (chain_le d _ _ _ _ H2c).
  pose proof dir_limit_bounds as (Hlim & _). pose proof (reclen_bounds fname Hn) as (Hr12 & _).
  pose proof (name_len_range b x Hb) as Hr0.
  pose proof (dir_rec_len_bounds d _ Hplain Hr0) as (Hb1 & Hmod & _).
  set (nlen := ext4_dir_rec_len (de_name_len b x) (Some d)) in *.
  set (L := rlen_at d b x) in *.
  assert (HLm : (L - nlen) mod 4 = 0) by (rewrite Zminus_mod, Hm, Hmod; done).
  destruct (rec_len_roundtrip d (L - nlen) Hgeo) as (r1 & T1 & R1 & E1); [lia|done|].
  destruct (rec_len_roundtrip d nlen Hgeo) as (r & T & R & E); [lia|done|].
  destruct (split_record b x L nlen r1 r) as (Hbb & Hll & Hout1 & Hrx1 & Hcx & Hvx);
    try (done || lia).
  set (b1 := put16 (put16 b (x + nlen + 4) r1) (x + 4) r) in *.
  destruct (fill_chain ino mode b1 (x + nlen) fname (L - nlen)) as (Hb' & Hl' & Hout & Hc' & Hv);
    try (done || lia).
  set (b' := fill_dentry d ino mode b1 (x + nlen) fname) in *.
  destruct (chain_same d Hplain b1 b' x (x + nlen) [x] Hbb Hcx) as [Hcx' Hvx'].
  { intros i Hi. apply Hout. lia. }
  destruct (dirblock_replace b b' os1 [x] os2 [x; x + nlen] x (x + L) Hd H1c) as [Hd' Hv'];
    try done.
  - by constructor; [|constructor].
  - congruence.
  - apply (chain_app d b' x (x + L) [x] [x + nlen]). exists (x + nlen). split; [done|].
    by replace (x + L) with (x + nlen + (L - nlen)) by lia.
  - intros i Hi. rewrite Hout, Hout1 by lia. done.
  - exists b', (os1 ++ [x; x + nlen] ++ os2). split; [|split; [done|]].
    + unfold ext4_insert_dentry. destruct (Z.eqb_spec (de_inode b x) 0); [done|].
      fold nlen. change (ext4_rec_len_from_disk d (de_rec_len b x) (d_blocksize d)) with L.
      rewrite T1, T, fill_inside_fits by (done || (rewrite !length_le_put; lia)). done.
    + rewrite Hv'. change [x; x + nlen] with ([x] ++ [x + nlen]).
      rewrite live_app, Hvx', Hvx, Hv. by rewrite <- !app_assoc.
Qed.

(** A record with enough room receives the entry. *)
Lemma insert_room ino mode b os x fname :
  dirblock d b os -> name_ok fname -> 0 < ino < 2 ^ 32 -> ino <= d_inodes d ->
  x ∈ os -> reclen_of fname <= room d b x ->
  exists b' os' l1 l2,
    ext4_insert_dentry d ino mode b x (d_blocksize d) fname = Some b' /\
    dirblock d b' os' /\ live b os = l1 ++ l2 /\ live b' os' = l1 ++ new_dent ino mode fname :: l2.
Proof.
  intros Hd Hn Hino Hmax Hx Hroom. apply list_elem_of_split in Hx as (os1 & os2 & ->).
  rewrite live_app, live_cons. unfold room, is_live in *.
  destruct (Z.eqb_spec (de_inode b x) 0) as [Hz|Hz]; cbn [negb].
  - destruct (insert_free_record ino mode b os1 x os2 fname) as (b' & os' & ? & ? & ?); try done.
    exists b', os', (live b os1), (live b os2). done.
  - destruct (insert_live_record ino mode b os1 x os2 fname) as (b' & os' & ? & ? & Hv); try done.
    exists b', os', (live b os1 ++ live b [x]), (live b os2). split_and!; try done.
    rewrite live_cons. unfold is_live. destruct (Z.eqb_spec (de_inode b x) 0); [done|].
    by rewrite <- app_assoc.
Qed.

Lemma insert_refines ino mode b os fname :
  dirblock d b os -> name_ok fname -> 0 < ino < 2 ^ 32 -> ino <= d_inodes d ->
  match ext4_find_dest_de d b (dir_limit d) fname with
  | Some (inr x) =>
      exists b' os' l1 l2,
        ext4_insert_dentry d ino mode b x (d_blocksize d) fname = Some b' /\
        dirblock d b' os' /\ live b os = l1 ++ l2 /\
        live b' os' = l1 ++ new_dent ino mode fname :: l2
  | Some (inl e) =>
      e = - EEXIST /\ (exists de, de ∈ live b os /\ e_name de = disk_name fname) \/
      e = - ENOSPC /\ (forall x, x ∈ os -> room d b x < reclen_of fname)
  | None => False
  end.
Proof.
  intros Hd Hn Hino Hmax. pose proof Hd as (Hb & Hlen & Hc & _).
  pose proof (reclen_bounds fname Hn) as (Hr & _). pose proof dir_limit_bounds as (_ & Hl12 & _).
  unfold ext4_find_dest_de. fold (reclen_of fname). rewrite u16_small by lia.
  destruct (dest_chain b fname (reclen_of fname) os 0 (S (Z.to_nat (dir_limit d))))
    as (r & -> & Hres); try (done || lia).
  destruct r as [e|x].
  - destruct Hres as [(-> & x & Hx & Hmt)|[-> Hall]]; [left|by right]. split; [done|].
    rewrite match_plain in Hmt by done. apply andb_true_iff in Hmt as [Hlv Hnm].
    apply bool_decide_eq_true in Hnm. exists (ent b x). split; [|done].
    unfold live. apply list_elem_of_fmap. exists x. split; [done|].
    apply list_elem_of_filter. by rewrite Hlv.
  - destruct Hres as [Hx Hroom]. by apply (insert_room ino mode b os).
Qed.

(** Adding a name to a well-formed block: the search for room terminates, never
    reports corruption, and either answers -EEXIST because a live entry has the name,
    or -ENOSPC because no record offers enough room, or gives a record where the
    insertion does not hit a BUG_ON, keeps the block well-formed, and adds exactly the
    new entry to the list of live entries. *)
Theorem dirblock_insert_refines ino mode b os fname :
  dirblock d b os -> name_ok fname -> 0 < ino < 2 ^ 32 -> ino <= d_inodes d ->
  match ext4_find_dest_de d b (dir_limit d) fname with
  | Some (inr x) =>
      exists b' os' l1 l2,
        ext4_insert_dentry d ino mode b x (d_blocksize d) fname = Some b' /\
        dirblock d b' os' /\ live b os = l1 ++ l2 /\
        live b' os' = l1 ++ new_dent ino mode fname :: l2
  | Some (inl e) =>
      e = - EEXIST /\ (exists de, de ∈ live b os /\ e_name de = disk_name fname) \/
      e = - ENOSPC /\ (forall x, x ∈ os -> room d b x < reclen_of fname)
  | None => False
  end.
Proof. apply insert_refines. Qed.
End Insert.

(** ** Deleting an entry *)

Section Delete.
Context `{DirNamesOk} `{Csum}.
Variable d : dirctx.
Hypothesis Hplain : plain d.
Hypothesis Hgeo : dir_geometry d.

(** The record before the one found, as the loop tracks it. *)
Definition pred (pde : option Z) (os1 : list Z) : option Z :=
  match last os1 with Some p => Some p | None => pde end.

Lemma delete_walk b os1 : forall x os2 o fuel pde,
  chain d b o (dir_limit d) (os1 ++ x :: os2) ->
  dir_limit d - o < Z.of_nat fuel ->
  delete_loop d fuel b x (d_blocksize d) (csum_size d) pde o =
    inr <$> wipe_entry d b (pred pde os1) x.
Proof.
  pose proof (dir_limit_bounds d Hgeo) as (_ & _ & Hlim).
  induction os1 as [|y os1 IH]; simpl; intros x os2 o fuel pde Hc Hf;
    inversion Hc as [|? ? ? Hok Hc']; subst;
    pose proof (chain_le d _ _ _ _ Hc') as Hle; pose proof Hok as (H12 & _);
    (destruct fuel as [|fuel]; [lia|]);
    cbn [delete_loop]; fold (dir_limit d);
    pose proof (chain_sane d Hplain _ _ _ _ _ Hc Hlim) as Hs; inversion Hs as [|? ? Hx _]; subst;
    rewrite Hx.
  - destruct (Z.ltb_spec x (dir_limit d)); [|lia]. by rewrite Z.eqb_refl.
  - destruct (Z.ltb_spec y (dir_limit d)); [|lia].
    assert (y < x).
    { apply chain_app in Hc' as (m & Hc1 & Hc2). inversion Hc2; subst.
      pose proof (chain_le d _ _ _ _ Hc1). lia. }
    destruct (Z.eqb_spec y x); [lia|]. unfold ext4_next_entry.
    rewrite (IH x os2 _ fuel (Some y)) by (done || lia).
    unfold pred. rewrite last_cons. by destruct (last os1).
Qed.

(** A record that is not in the chain is not found. *)
Lemma delete_absent b x os : forall o fuel pde,
  chain d b o (dir_limit d) os -> x ∉ os -> dir_limit d - o < Z.of_nat fuel ->
  delete_loop d fuel b x (d_blocksize d) (csum_size d) pde o = Some (inl (- ENOENT)).
Proof.
  pose proof (dir_limit_bounds d Hgeo) as (_ & _ & Hlim).
  induction os as [|y os IH]; intros o fuel pde Hc Hx Hf; pose proof (chain_le d _ _ _ _ Hc);
    inversion Hc as [|? ? ? Hok Hc']; subst; (destruct fuel as [|fuel]; [lia|]);
    cbn [delete_loop]; fold (dir_limit d).
  - destruct (Z.ltb_spec (dir_limit d) (dir_limit d)); [lia|done].
  - pose proof (chain_le d _ _ _ _ Hc') as Hle; pose proof Hok as (H12 & _).
    destruct (Z.ltb_spec y (dir_limit d)); [|lia].
    pose proof (chain_sane d Hplain _ _ _ _ _ Hc Hlim) as Hs; inversion Hs as [|? ? Hy _]; subst.
    rewrite Hy. destruct (Z.eqb_spec y x) as [->|]; [destruct Hx; by left|].
    unfold ext4_next_entry. apply IH; [done|intros ?; destruct Hx; by right|lia].
Qed.

(** Wiping the first record of the block: it stays, without a name. *)
Lemma wipe_first b x os2 :
  dirblock d b (x :: os2) ->
  exists b', wipe_entry d b None x = Some b' /\ dirblock d b' (x :: os2) /\
    live b' (x :: os2) = live b os2.
Proof.
  intros Hd. pose proof Hd as (Hb & Hlen & Hc & _). inversion Hc as [|? ? ? Hok Hc']; subst.
  pose proof (chain_le d _ _ _ _ Hc') as Hle. pose proof Hok as (H12 & Hm & Hn & Hi & _).
  pose proof (dir_limit_bounds d Hgeo) as (Hlim & _).
  pose proof (get32_range b 0 Hb) as Hir. fold (de_inode b 0) in Hir.
  unfold wipe_entry. set (b1 := put32 b 0 0). set (L := rlen_at d b 0) in *.
  assert (Hr1 : rlen_at d b1 0 = L)
    by (unfold L, rlen_at, de_rec_len, b1; by rewrite le_get_put_out by lia).
  rewrite Hr1. set (b' := memset b1 (0 + 6) 0 (L - 6)).
  assert (Hl1 : length b1 = length b) by (unfold b1; by autorewrite with len).
  assert (Hlow : forall i, i < 6 \/ L <= i -> getb b' i = getb b1 i)
    by (intros; unfold b'; rewrite getb_memset_out by lia; done).
  assert (Hino : de_inode b' 0 = 0).
  { unfold de_inode. rewrite (le_get_ext 4 b' b1) by (intros; apply Hlow; lia).
    unfold b1. by rewrite get32_put32_eq by lia. }
  assert (Hrl : rlen_at d b' 0 = L).
  { rewrite <- Hr1. unfold rlen_at, de_rec_len.
    by rewrite (le_get_ext 2 b' b1) by (intros; apply Hlow; lia). }
  assert (Hnl : de_name_len b' 0 = 0)
    by (unfold de_name_len, b'; rewrite getb_memset_in by lia; done).
  eexists. split; [done|]. fold b'.
  destruct (dirblock_replace d Hplain b b' [] [0] os2 [0] 0 (0 + L)) as [Hd' Hv'];
    try done.
  - constructor.
  - by constructor; [|constructor].
  - unfold b', b1. eauto with evfs.
  - unfold b'. autorewrite with len. done.
  - rewrite <- Hrl. constructor; [|constructor]. unfold entry_ok. rewrite Hrl, Hnl, Hino.
    pose proof (dir_rec_len_bounds d 0 Hplain ltac:(lia)) as (Hb0 & _).
    split_and!; try (done || lia).
  - intros i Hi'. rewrite Hlow by lia. unfold b1. rewrite getb_put_out by lia. done.
  - split; [done|]. cbn [app] in Hv'. rewrite Hv', live_cons. unfold is_live. by rewrite Hino.
Qed.

(** Wiping a later record: its bytes go to the record before it. *)
Lemma wipe_merge b os1 p x os2 :
  dirblock d b (os1 ++ p :: x :: os2) ->
  exists b', wipe_entry d b (Some p) x = Some b' /\ dirblock d b' (os1 ++ p :: os2) /\
    live b' (os1 ++ p :: os2) = live b os1 ++ live b [p] ++ live b os2.
Proof.
  intros Hd. pose proof Hd as (Hb & Hlen & Hc & _).
  destruct (chain_focus d _ _ _ _ _ Hc) as (H1c & Hokp & H2c).
  inversion H2c as [|? ? ? Hokx H3c]; subst. set (x := p + rlen_at d b p) in *.
  pose proof Hokp as (P12 & Pm & Pn & Pi & Pl). pose proof Hokx as (X12 & Xm & _).
  pose proof (chain_le d _ _ _ _ H3c). pose proof (chain_le d _ _ _ _ H1c).
  pose proof (dir_limit_bounds d Hgeo) as (Hlim & _).
  pose proof (name_len_range b p Hb) as Hnr.
  pose proof (dir_rec_len_bounds d _ Hplain Hnr) as (Hnb & _).
  set (LP := rlen_at d b p) in *. set (LX := rlen_at d b x) in *.
  destruct (rec_len_roundtrip d (LP + LX) Hgeo) as (r & T & R & E);
    [lia|rewrite Zplus_mod, Pm, Xm; done|].
  unfold wipe_entry. fold LP LX. rewrite T. set (b1 := put16 b (p + 4) r).
  assert (Hout1 : forall i, i < p + 4 \/ p + 6 <= i -> getb b1 i = getb b i)
    by (intros; unfold b1; rewrite getb_put_out by lia; done).
  assert (Hrx : rlen_at d b1 x = LX).
  { unfold LX, rlen_at, de_rec_len. by rewrite (le_get_ext 2 b1 b) by (intros; apply Hout1; lia). }
  rewrite Hrx. set (b' := memset b1 x 0 LX).
  assert (Hout : forall i, i < x \/ x + LX <= i -> getb b' i = getb b1 i)
    by (intros; unfold b'; rewrite getb_memset_out by lia; done).
  assert (Hrp : rlen_at d b' p = LP + LX).
  { unfold rlen_at, de_rec_len. rewrite (le_get_ext 2 b' b1) by (intros; apply Hout; lia).
    unfold b1. rewrite get16_put16_eq by lia. by rewrite u16_small. }
  assert (Ei : de_inode b' p = de_inode b p)
    by (apply le_get_ext; intros; rewrite Hout, Hout1 by lia; done).
  assert (En : de_name_len b' p = de_name_len b p)
    by (unfold de_name_len; rewrite Hout, Hout1 by lia; done).
  assert (Ee : ent b' p = ent b p).
  { unfold ent, de_name, de_file_type. rewrite Ei, En.
    f_equal; [apply gets_ext; intros|]; rewrite Hout, Hout1 by lia; done. }
  eexists. split; [done|]. fold b'.
  destruct (dirblock_replace d Hplain b b' os1 [p; x] os2 [p] p (x + LX)) as [Hd' Hv'];
    try done.
  - constructor; [done|]. fold LP. constructor; [done|constructor].
  - unfold b', b1. eauto with evfs.
  - unfold b', b1. by autorewrite with len.
  - replace (x + LX) with (p + rlen_at d b' p) by lia. constructor; [|constructor].
    unfold entry_ok. rewrite Hrp, En, Ei. split_and!; try (done || lia).
    rewrite Zplus_mod, Pm, Xm. done.
  - intros i Hi'. rewrite Hout, Hout1 by lia. done.
  - split; [done|]. cbn [app] in Hv'. rewrite Hv'. rewrite !live_cons. unfold is_live.
    by rewrite Ei, Ee.
Qed.

Lemma delete_refines b os x :
  dirblock d b os ->
  (forall os1 os2, os = os1 ++ x :: os2 ->
     exists b' os', ext4_generic_delete_entry d b x (d_blocksize d) (csum_size d) = Some (inr b') /\
       dirblock d b' os' /\ live b' os' = live b os1 ++ live b os2) /\
  (x ∉ os -> ext4_generic_delete_entry d b x (d_blocksize d) (csum_size d) = Some (inl (- ENOENT))).
Proof.
  intros Hd. pose proof Hd as (Hb & Hlen & Hc & _).
  pose proof (dir_limit_bounds d Hgeo) as (Hlim & _). unfold ext4_generic_delete_entry.
  split; [intros os1 os2 ->|intros Hx; eapply delete_absent; eauto; lia].
  rewrite (delete_walk b os1 x os2) by (done || lia). unfold pred.
  destruct (last os1) as [p|] eqn:Hl.
  - apply last_Some in Hl as (os0 & ->). rewrite <- app_assoc in Hd. cbn [app] in Hd.
    destruct (wipe_merge b os0 p x os2 Hd) as (b' & -> & Hd' & Hv). exists b', (os0 ++ p :: os2).
    split; [done|]. split; [done|]. by rewrite Hv, live_app, <- app_assoc.
  - apply last_None in Hl as ->. destruct (wipe_first b x os2 Hd) as (b' & -> & Hd' & Hv).
    exists b', (x :: os2). done.
Qed.

(** Deleting a record of a well-formed block succeeds without hitting a BUG_ON,
    keeps the block well-formed and removes exactly that entry from the list of live
    entries, whether the record is the first of the block or merged into the one
    before it; a record that is not in the block is reported as -ENOENT. *)
Theorem dirblock_delete_refines b os x :
  dirblock d b os ->
  (forall os1 os2, os = os1 ++ x :: os2 ->
     exists b' os', ext4_generic_delete_entry d b x (d_blocksize d) (csum_size d) = Some (inr b') /\
       dirblock d b' os' /\ live b' os' = live b os1 ++ live b os2) /\
  (x ∉ os -> ext4_generic_delete_entry d b x (d_blocksize d) (csum_size d) = Some (inl (- ENOENT))).
Proof. apply delete_refines. Qed.
End Delete.

(** ** The checksum tail *)

Section Tail.
Context `{DirNamesOk} `{Csum}.
Variable d : dirctx.
Hypothesis Hplain : plain d.
Hypothesis Hgeo : dir_geometry d.

(** Writing the checksum makes the block verify and leaves every entry as it was. *)
Lemma csum_set_dirblock b os :
  dirblock d b os ->
  let b' := ext4_dirblock_csum_set d b in
  dirblock d b' os /\ live b' os = live b os /\ ext4_dirblock_csum_verify d b' = true /\
  same_on 0 (dir_limit d) b b'.
Proof.
  intros Hd b'. pose proof Hd as (Hb & Hlen & Hc & Ht). subst b'.
  pose proof (dir_limit_bounds d Hgeo) as (Hlim & _).
  unfold ext4_dirblock_csum_set, ext4_dirblock_csum_verify.
  destruct (d_csum d) eqn:Hcs; cbn [negb]; [|by split_and!].
  specialize (Ht eq_refl). rewrite Ht. set (t := EXT4_DIRENT_TAIL _) in *.
  assert (Ht' : t = d_blocksize d - 12) by done.
  assert (Hdl : dir_limit d = t) by (unfold dir_limit, csum_size; by rewrite Hcs).
  set (c := ext4_dirblock_csum d b t). set (b' := put32 b (t + 8) c).
  assert (Hout : forall i, i < t + 8 -> getb b' i = getb b i)
    by (intros; unfold b'; rewrite getb_put_out by lia; done).
  assert (Htl : get_dirent_tail d b' = Some t).
  { rewrite <- Ht. unfold get_dirent_tail. fold t.
    rewrite (le_get_ext 4 b' b), (le_get_ext 2 b' b), !Hout
      by (lia || (intros; apply Hout; lia)). done. }
  assert (Hc' : ext4_dirblock_csum d b' t = c).
  { unfold c, ext4_dirblock_csum. f_equal. apply gets_ext. intros. apply Hout. lia. }
  destruct (chain_same d Hplain b b' 0 (dir_limit d) os Hb Hc) as [Hch Hv];
    [intros i Hi; apply Hout; lia|].
  rewrite Htl, Hc'. split_and!; try done.
  - split_and!; [unfold b'; eauto with evfs| |exact Hch|by intros].
    unfold b'. by autorewrite with len.
  - apply Z.eqb_eq. unfold b'. rewrite get32_put32_eq by (destruct Hgeo; lia).
    unfold c, ext4_dirblock_csum, ext4_chksum. apply u32_small, u32_range.
  - intros i Hi. apply Hout. lia.
Qed.

(** The tail written by [ext4_initialize_dirent_tail] is one, and the records are not
    touched. *)
Lemma initialize_tail_spec b :
  bytes_ok b -> Z.of_nat (length b) = d_blocksize d ->
  exists b', ext4_initialize_dirent_tail d b (d_blocksize d) = Some b' /\
    bytes_ok b' /\ length b' = length b /\
    (forall i, i < EXT4_DIRENT_TAIL (d_blocksize d) -> getb b' i = getb b i) /\
    get_dirent_tail d b' = Some (EXT4_DIRENT_TAIL (d_blocksize d)).
Proof.
  intros Hb Hlen. pose proof Hgeo as (Hbs & _). unfold ext4_initialize_dirent_tail.
  destruct (rec_len_roundtrip d sizeof_dir_entry_tail Hgeo) as (rt & Tt & Rt & Et);
    [unfold sizeof_dir_entry_tail; lia|done|].
  rewrite Tt. unfold EXT4_DIRENT_TAIL, sizeof_dir_entry_tail in *.
  set (t := d_blocksize d - 12) in *. set (b1 := memset b t 0 12).
  set (b2 := putb (put16 b1 (t + 4) rt) (t + 7) EXT4_FT_DIR_CSUM). exists b2.
  assert (Hl1 : length b1 = length b) by (unfold b1; by autorewrite with len).
  assert (Htail : forall i, t <= i < t + 12 -> i <> t + 7 -> (i < t + 4 \/ t + 6 <= i) -> getb b2 i = 0).
  { intros i Hi H7 H46. unfold b2, b1. by rewrite getb_putb_ne, getb_put_out, getb_memset_in by lia. }
  split_and!; [reflexivity|unfold b2, b1; eauto with evfs|unfold b2; by autorewrite with len| |].
  - intros i Hi. unfold b2, b1. by rewrite getb_putb_ne, getb_put_out, getb_memset_out by lia.
  - unfold get_dirent_tail, EXT4_DIRENT_TAIL, sizeof_dir_entry_tail. cbv zeta. fold t.
    rewrite (le_get_zero 4 b2 t) by (intros; apply Htail; lia).
    assert (E16 : get16 b2 (t + 4) = rt).
    { unfold b2. rewrite le_get_putb_out by lia. rewrite get16_put16_eq by lia. by apply u16_small. }
    rewrite E16, Et, (Htail (t + 6)) by lia.
    assert (E7 : getb b2 (t + 7) = EXT4_FT_DIR_CSUM).
    { unfold b2. rewrite getb_putb, Z.eqb_refl by (rewrite length_le_put; lia). done. }
    by rewrite E7.
Qed.

Lemma dir_limit_mod : dir_limit d mod 4 = 0 /\ 1012 <= dir_limit d <= d_blocksize d.
Proof using Hgeo.
  destruct Hgeo as (? & _ & Hm). unfold dir_limit, csum_size, sizeof_dir_entry_tail.
  destruct (d_csum d); [split; [by rewrite Zminus_mod, Hm|lia]|rewrite Z.sub_0_r; lia].
Qed.

(** The tail is initialised when checksums are on; the records stay. *)
Definition finish_block (b : list Z) : option (list Z) :=
  if d_csum d then ext4_initialize_dirent_tail d b (d_blocksize d) else Some b.

Lemma finish_block_spec b os :
  bytes_ok b -> Z.of_nat (length b) = d_blocksize d -> chain d b 0 (dir_limit d) os ->
  exists b', finish_block b = Some b' /\ dirblock d b' os /\ live b' os = live b os /\
    same_on 0 (dir_limit d) b b'.
Proof.
  intros Hb Hlen Hc. unfold finish_block.
  destruct (d_csum d) eqn:Hcs.
  2:{ exists b. split_and!; [done| |done|done]. split_and!; try done. by rewrite Hcs. }
  destruct (initialize_tail_spec b Hb Hlen) as (b' & -> & Hb' & Hl' & Hlow & Ht).
  assert (Hs : same_on 0 (dir_limit d) b b').
  { intros i Hi. apply Hlow. unfold dir_limit, csum_size in Hi. rewrite Hcs in Hi.
    unfold EXT4_DIRENT_TAIL. lia. }
  destruct (chain_same d Hplain b b' 0 _ os Hb Hc Hs) as [Hc' Hv].
  exists b'. split_and!; try done. split_and!; try done. congruence.
Qed.

(** A new block: one free record, and the tail when checksums are on. *)
Lemma fresh_dirblock z :
  bytes_ok z -> Z.of_nat (length z) = d_blocksize d -> 0 <= d_inodes d ->
  exists r b, ext4_rec_len_to_disk d (d_blocksize d - csum_size d) (d_blocksize d) = Some r /\
    (let b := put16 (put32 z 0 0) 4 r in
     if d_csum d then ext4_initialize_dirent_tail d b (d_blocksize d) else Some b) = Some b /\
    dirblock d b [0] /\ live b [0] = [] /\ de_inode b 0 = 0 /\ rlen_at d b 0 = dir_limit d.
Proof.
  intros Hz Hlen Hin. pose proof Hgeo as (Hbs & Hpg & Hm).
  destruct dir_limit_mod as [Hlm Hlb]. fold (dir_limit d).
  destruct (rec_len_roundtrip d (dir_limit d) Hgeo) as (r & T & R & E); [lia|lia|].
  set (b0 := put16 (put32 z 0 0) 4 r).
  assert (Hl0 : length b0 = length z) by (unfold b0; by autorewrite with len).
  assert (Hb0 : bytes_ok b0) by (unfold b0; eauto with evfs).
  assert (Hi0 : de_inode b0 0 = 0).
  { unfold de_inode, b0. rewrite le_get_put_out by lia. by rewrite get32_put32_eq by lia. }
  assert (Hr0 : rlen_at d b0 0 = dir_limit d).
  { unfold rlen_at, de_rec_len, b0. rewrite get16_put16_eq by (autorewrite with len; lia).
    by rewrite u16_small. }
  pose proof (name_len_range b0 0 Hb0) as Hnr.
  pose proof (dir_rec_len_bounds d _ Hplain Hnr) as (Hnb & _).
  assert (Hc0 : chain d b0 0 (dir_limit d) [0]).
  { rewrite <- Hr0 at 1. replace (rlen_at d b0 0) with (0 + rlen_at d b0 0) by lia.
    constructor; [|constructor]. unfold entry_ok. rewrite Hr0, Hi0. split_and!; try done; lia. }
  destruct (finish_block_spec b0 [0] Hb0) as (b & Hf & Hd & Hv & Hs); [lia|done|].
  exists r, b. split_and!; [done|exact Hf|done| | |].
  - rewrite Hv, live_cons. unfold is_live. by rewrite Hi0.
  - transitivity (de_inode b0 0); [|done]. apply le_get_ext. intros. apply Hs. lia.
  - rewrite <- Hr0. unfold rlen_at, de_rec_len. f_equal. apply le_get_ext. intros. apply Hs. lia.
Qed.

(** Redirecting a live entry to another inode. *)
Lemma redirect_dirblock b os1 x os2 ino :
  dirblock d b (os1 ++ x :: os2) -> is_live b x = true -> 0 < ino < 2 ^ 32 -> ino <= d_inodes d ->
  let b' := put32 b x ino in
  dirblock d b' (os1 ++ x :: os2) /\
  live b' (os1 ++ x :: os2) =
    live b os1 ++ Dent (de_name b x) ino (de_file_type b x) :: live b os2.
Proof.
  intros Hd Hlive Hino Hmax b'. pose proof Hd as (Hb & Hlen & Hc & _).
  destruct (chain_focus d _ _ _ _ _ Hc) as (H1c & Hok & H2c).
  pose proof Hok as (H12 & Hm & Hn & Hi & Hl).
  pose proof (chain_le d _ _ _ _ H1c). pose proof (chain_le d _ _ _ _ H2c).
  pose proof (dir_limit_bounds d Hgeo) as (Hlim & _).
  assert (Hout : forall i, i < x \/ x + 4 <= i -> getb b' i = getb b i)
    by (intros; unfold b'; rewrite getb_put_out by lia; done).
  assert (Ei : de_inode b' x = ino)
    by (unfold de_inode, b'; rewrite get32_put32_eq by lia; apply u32_small; lia).
  assert (Er : rlen_at d b' x = rlen_at d b x).
  { unfold rlen_at, de_rec_len. by rewrite (le_get_ext 2 b' b) by (intros; apply Hout; lia). }
  assert (En : de_name_len b' x = de_name_len b x) by (apply Hout; lia).
  assert (Enm : de_name b' x = de_name b x).
  { unfold de_name. rewrite En. apply gets_ext. intros. apply Hout. lia. }
  assert (Eft : de_file_type b' x = de_file_type b x) by (apply Hout; lia).
  destruct (dirblock_replace d Hplain b b' os1 [x] os2 [x] x (x + rlen_at d b x)) as [Hd' Hv'];
    try done.
  - by constructor; [|constructor].
  - unfold b'. eauto with evfs.
  - unfold b'. by autorewrite with len.
  - rewrite <- Er. constructor; [|constructor]. unfold entry_ok. rewrite Er, En, Ei.
    split_and!; try done. intros _. apply Hl. unfold is_live in Hlive. by apply negb_true_iff, Z.eqb_neq in Hlive.
  - intros i Hi'. apply Hout. lia.
  - split; [done|]. cbn [app] in Hv'. rewrite Hv', live_cons. unfold is_live. rewrite Ei.
    destruct (Z.eqb_spec ino 0); [lia|]. cbn [negb]. unfold ent. by rewrite Ei, Enm, Eft.
Qed.
End Tail.

(** The [k]-th live record, with the entries before and after it. *)
Lemma live_split b os k x :
  filter (fun o => is_live b o) os !! k = Some x ->
  exists os1 os2, os = os1 ++ x :: os2 /\ is_live b x = true /\ length (live b os1) = k.
Proof.
  revert k. induction os as [|y os IH]; intros k; [done|]. rewrite filter_cons.
  destruct (decide (is_live b y)) as [Hy|Hy].
  - destruct k as [|k]; simpl.
    + intros [= ->]. exists [], os. by apply Is_true_true in Hy.
    + intros Hk. destruct (IH _ Hk) as (os1 & os2 & -> & Hx & <-).
      exists (y :: os1), os2. split; [done|]. split; [done|].
      rewrite live_cons. apply Is_true_true in Hy. by rewrite Hy.
  - intros Hk. destruct (IH _ Hk) as (os1 & os2 & -> & Hx & <-).
    exists (y :: os1), os2. split; [done|]. split; [done|].
    rewrite live_cons. destruct (is_live b y); [by destruct Hy|done].
Qed.
