(* ===== verification/DxBlock.v ===== *)
(** * Blocks of a hash-tree directory (fs/ext4/namei.c)

    The parts of the hash tree that work inside one or two blocks: the entries of an
    index block ([struct dx_entry], the first of which holds the count and the limit),
    the insertion of an index entry, and the split of a leaf block: the map of its
    entries, the sort of the map, the choice of the split point, the move of the upper
    half to a new block and the compaction of the lower half.

    The map lives at the end of the new block while entries are copied to its
    beginning; the move reads it from the bytes of that block.  Words of the map are
    stored in the byte order of the machine, here little-endian. *)

From stdpp Require Import prelude list sorting.
From Stdlib Require Import ZArith Lia.
From S2P Require Import Prelude Bytes Layout ExtentNode Dirent.

Local Open Scope Z_scope.

(** ** Index entries *)

(** The entry at offset [e]: a hash and a block whose upper four bits are reserved. *)
Definition dx_get_block (b : list Z) (e : Z) : Z := Z.land (get32 b (e + 4)) 0x0fffffff.
Definition dx_set_block (b : list Z) (e value : Z) : list Z := put32 b (e + 4) value.
Definition dx_get_hash (b : list Z) (e : Z) : Z := get32 b e.
Definition dx_set_hash (b : list Z) (e value : Z) : list Z := put32 b e value.

(** [struct dx_countlimit] overlays the hash of the first entry. *)
Definition dx_get_count (b : list Z) (entries : Z) : Z := get16 b (entries + 2).
Definition dx_get_limit (b : list Z) (entries : Z) : Z := get16 b entries.
Definition dx_set_count (b : list Z) (entries value : Z) : list Z := put16 b (entries + 2) value.
Definition dx_set_limit (b : list Z) (entries value : Z) : list Z := put16 b entries value.

(** [entries + i] *)
Definition dx_at (entries i : Z) : Z := entries + i * sizeof_dx_entry.

Definition dx_root_limit (d : dirctx) (infosize : Z) : Z :=
  let entry_space := u32 (d_blocksize d - ext4_dir_rec_len 1 None - ext4_dir_rec_len 2 None - infosize) in
  let entry_space := if d_csum d then u32 (entry_space - sizeof_dx_tail) else entry_space in
  entry_space / sizeof_dx_entry.

Definition dx_node_limit (d : dirctx) : Z :=
  let entry_space := u32 (d_blocksize d - ext4_dir_rec_len 0 (Some d)) in
  let entry_space := if d_csum d then u32 (entry_space - sizeof_dx_tail) else entry_space in
  entry_space / sizeof_dx_entry.

(** The binary search of [dx_probe] among [count] entries: the index of the last
    entry whose hash is not above [hash]; the first entry counts as hash 0. *)
Definition dx_search (b : list Z) (entries count hash : Z) : option Z :=
  binsearch_loop (Z.to_nat count) (fun m => dx_get_hash b (dx_at entries m)) hash 1 (count - 1).

(** The linear cross check of [htree_rep_invariant_check]: from index [at_], [n]
    entries left. *)
Fixpoint htree_linear (b : list Z) (entries hash : Z) (n : nat) (at_ : Z) : Z :=
  match n with
  | O => at_
  | S n => if hash <? dx_get_hash b (dx_at entries (at_ + 1)) then at_
           else htree_linear b entries hash n (at_ + 1)
  end.

(** [dx_insert_block(frame, hash, block)]: [None] when an ASSERT fails. *)
Definition dx_insert_block (b : list Z) (entries at_ hash block : Z) : option (list Z) :=
  let new := at_ + sizeof_dx_entry in
  let count := dx_get_count b entries in
  if negb (count <? dx_get_limit b entries) then None
  else if negb (at_ <? dx_at entries count) then None
  else
    let b := puts b (new + sizeof_dx_entry) (gets b new (Z.to_nat (dx_at entries count - new))) in
    let b := dx_set_hash b new hash in
    let b := dx_set_block b new block in
    Some (dx_set_count b entries (u32 (count + 1))).

(** ** The map of a leaf *)

(** [struct dx_map_entry]: the offset is in units of four bytes. *)
Record dx_map_entry := MapE { m_hash : Z; m_offs : Z; m_size : Z }.
#[export] Instance dx_map_entry_inhabited : Inhabited dx_map_entry := populate (MapE 0 0 0).

Section DxBlock.
Context `{DirNames}.
Variable d : dirctx.
(* ext4fs_dirhash with the version of the directory: error, hash, minor hash *)
Variable dirhash : list Z -> Z * (Z * Z).

(** [dx_make_map]: the error (0 for none) and the map; the code stores it downwards
    from the end of the new block, so the last record comes first.  [None] when the
    fuel is spent. *)
Fixpoint make_map_loop (fuel : nat) (b : list Z) (buflen de : Z) (map : list dx_map_entry)
    : option (Z * list dx_map_entry) :=
  match fuel with
  | O => None
  | S fuel =>
      if de <? buflen then
        if ext4_check_dir_entry d b buflen de then Some (- EFSCORRUPTED, map) else
        let next := make_map_loop fuel b buflen (ext4_next_entry d b de) in
        let entry hash := MapE hash (u16 (Z.shiftr de 2)) (u16 (rlen_at d b de)) in
        if negb (de_name_len b de =? 0) && negb (de_inode b de =? 0) then
          if ext4_hash_in_dirent d then next (entry (EXT4_DIRENT_HASH b de) :: map)
          else
            let '(err, (hash, _)) := dirhash (de_name b de) in
            if err <? 0 then Some (err, map) else next (entry hash :: map)
        else next map
      else Some (0, map)
  end.

Definition dx_make_map (b : list Z) : option (Z * list dx_map_entry) :=
  let buflen := d_blocksize d - csum_size d in
  make_map_loop (S (Z.to_nat buflen)) b buflen 0 [].

(** *** Sorting *)

Definition mhash (map : list dx_map_entry) (i : nat) : Z := m_hash (map !!! i).
Definition mswap (map : list dx_map_entry) (i j : nat) : list dx_map_entry :=
  <[i := map !!! j]> (<[j := map !!! i]> map).

(** One pass of the comb sort: [q] goes down from [k - 1], [p] is [gap] above. *)
Fixpoint comb_pass (k gap : nat) (map : list dx_map_entry) : list dx_map_entry :=
  match k with
  | O => map
  | S q =>
      comb_pass q gap
        (if mhash map (q + gap) <? mhash map q then mswap map (q + gap) q else map)
  end.

(** [while (count > 2)]: the gap shrinks by 13/10, 9 and 10 become 11. *)
Fixpoint comb_loop (fuel : nat) (count : Z) (map : list dx_map_entry) : option (list dx_map_entry) :=
  if 2 <? count then
    match fuel with
    | O => None
    | S fuel =>
        let count := u32 (count * 10) / 13 in
        let count := if u32 (count - 9) <? 2 then 11 else count in
        comb_loop fuel count
          (comb_pass (length map - Z.to_nat count) (Z.to_nat count) map)
    end
  else Some map.

(** One pass of the bubble sort, from the top down to index 0, and whether it
    swapped. *)
Fixpoint bubble_pass (k : nat) (map : list dx_map_entry) (more : bool) : list dx_map_entry * bool :=
  match k with
  | O => (map, more)
  | S q =>
      if mhash map q <=? mhash map (S q) then bubble_pass q map more
      else bubble_pass q (mswap map (S q) q) true
  end.

Fixpoint bubble_loop (fuel : nat) (map : list dx_map_entry) : option (list dx_map_entry) :=
  match fuel with
  | O => None
  | S fuel =>
      let '(map, more) := bubble_pass (length map - 1) map false in
      if more : bool then bubble_loop fuel map else Some map
  end.

(** [dx_sort_map]; a bubble pass fixes at least one more entry at the bottom. *)
Definition dx_sort_map (map : list dx_map_entry) : option (list dx_map_entry) :=
  match comb_loop (length map) (Z.of_nat (length map)) map with
  | None => None
  | Some map => bubble_loop (S (length map)) map
  end.

(** *** The split point *)

(** [for (i = count - 1; i >= 0; i--)]: the [i] at the end and the entries moved;
    [i] is passed plus one. *)
Fixpoint split_scan (i : nat) (map : list dx_map_entry) (size move : Z) : Z * Z :=
  match i with
  | O => (-1, move)
  | S j =>
      let sz := m_size (map !!! j) in
      if d_blocksize d / 2 <? u32 (size + sz / 2) then (Z.of_nat j, move)
      else split_scan j map (u32 (size + sz)) (move + 1)
  end.

Definition split_point (map : list dx_map_entry) : Z :=
  let count := Z.of_nat (length map) in
  let '(i, move) := split_scan (length map) map 0 0 in
  if 0 <? i then u32 (count - move) else count / 2.

(** *** Moving and packing *)

(** The bytes of a map entry, and the map at the end of the new block. *)
Definition map_bytes (m : dx_map_entry) : list Z :=
  le_bytes 4 (m_hash m) ++ le_bytes 2 (m_offs m) ++ le_bytes 2 (m_size m).
Definition put_map (data2 : list Z) (map : list dx_map_entry) : list Z :=
  puts data2 (d_blocksize d - 8 * Z.of_nat (length map)) (concat (map_bytes <$> map)).

(** [dx_move_dirents]: [map] is the offset of the next map entry in [data2], [to] the
    offset to copy to, [rec_len] the length of the last record copied.  [None] is a
    BUG_ON. *)
Fixpoint dx_move_dirents (count : nat) (data1 data2 : list Z) (map to rec_len : Z)
    : option (list Z * list Z * Z) :=
  match count with
  | O => Some (data1, data2, to - rec_len)
  | S count =>
      let de := Z.shiftl (get16 data2 (map + 4)) 2 in
      let rec_len := ext4_dir_rec_len (de_name_len data1 de) (Some d) in
      let data2 := puts data2 to (gets data1 de (Z.to_nat rec_len)) in
      match ext4_rec_len_to_disk d rec_len (d_blocksize d) with
      | None => None
      | Some r =>
          let data2 := put16 data2 (to + 4) r in
          let data1 := put32 data1 de 0 in
          let data1 := memset data1 (de + 6) 0 (rlen_at d data1 de - 6) in
          dx_move_dirents count data1 data2 (map + 8) (to + rec_len) rec_len
      end
  end.

(** [dx_pack_dirents]: the packed block and its last record. *)
Fixpoint pack_loop (fuel : nat) (b : list Z) (de to prev : Z) : option (list Z * Z) :=
  match fuel with
  | O => None
  | S fuel =>
      if de <? d_blocksize d then
        let next := ext4_next_entry d b de in
        if negb (de_inode b de =? 0) && negb (de_name_len b de =? 0) then
          let rec_len := ext4_dir_rec_len (de_name_len b de) (Some d) in
          let b := if to <? de then puts b to (gets b de (Z.to_nat rec_len)) else b in
          match ext4_rec_len_to_disk d rec_len (d_blocksize d) with
          | None => None
          | Some r => pack_loop fuel (put16 b (to + 4) r) next (to + rec_len) to
          end
        else pack_loop fuel b next to prev
      else Some (b, prev)
  end.

Definition dx_pack_dirents (b : list Z) : option (list Z * Z) :=
  pack_loop (S (Z.to_nat (d_blocksize d))) b 0 0 0.

(** The record at [de] is extended to the end of the records of its block. *)
Definition stretch (b : list Z) (de : Z) : option (list Z) :=
  match ext4_rec_len_to_disk d (d_blocksize d - csum_size d - de) (d_blocksize d) with
  | None => None
  | Some r =>
      let b := put16 b (de + 4) r in
      if d_csum d then ext4_initialize_dirent_tail d b (d_blocksize d) else Some b
  end.

(** The part of [do_split] between the journal calls: the two blocks, their last
    records, and the hash of the second block with its continuation bit. *)
Record split_result := Split {
  sp_data1 : list Z; sp_data2 : list Z; sp_de : Z; sp_de2 : Z; sp_hash2 : Z; sp_continued : Z
}.

Definition dx_split_blocks (data1 data2 : list Z) (map : list dx_map_entry) : option split_result :=
  match dx_sort_map map with
  | None => None
  | Some map =>
      let count := Z.of_nat (length map) in
      let split := split_point map in
      (* map[split - 1] and map[split] are read *)
      if (split <=? 0) || (count <=? split) then None else
      let hash2 := mhash map (Z.to_nat split) in
      let continued := if hash2 =? mhash map (Z.to_nat (split - 1)) then 1 else 0 in
      let data2 := put_map data2 map in
      match dx_move_dirents (Z.to_nat (count - split)) data1 data2
              (d_blocksize d - 8 * (count - split)) 0 0 with
      | None => None
      | Some (data1, data2, de2) =>
          match dx_pack_dirents data1 with
          | None => None
          | Some (data1, de) =>
              match stretch data1 de, stretch data2 de2 with
              | Some data1, Some data2 => Some (Split data1 data2 de de2 hash2 continued)
              | _, _ => None
              end
          end
      end
  end.
End DxBlock.
