(* ===== verification/DxBlockSpec.v ===== *)
(** * Hash-tree blocks: what the operations of DxBlock.v guarantee

    - [dx_sort_map] returns, and its result is the map in the order of the hashes;
    - the binary search of [dx_probe] is the linear scan of its cross check;
    - [dx_insert_block] adds one entry after the one the probe followed. *)

From stdpp Require Import prelude list sorting.
From Stdlib Require Import ZArith Lia.
From S2P Require Import Prelude Bytes Layout ExtentNode Dirent DxBlock.

Local Open Scope Z_scope.

(** ** Sorting *)

Abbreviation hash_le := (fun a b : dx_map_entry => m_hash a <= m_hash b).

Lemma mswap_adjacent pre x y suf :
  mswap (pre ++ x :: y :: suf) (S (length pre)) (length pre) = pre ++ y :: x :: suf.
Proof.
  unfold mswap. induction pre as [|z pre IH]; [done|]. simpl. f_equal. exact IH.
Qed.

Lemma mswap_permutation l i j : (i < length l)%nat -> (j < length l)%nat -> mswap l i j ≡ₚ l.
Proof.
  intros Hi Hj. unfold mswap.
  destruct (lookup_lt_is_Some_2 l i Hi) as [x Hx], (lookup_lt_is_Some_2 l j Hj) as [y Hy].
  rewrite (list_lookup_total_correct _ _ _ Hx), (list_lookup_total_correct _ _ _ Hy).
  destruct (decide (i = j)) as [->|Hne].
  - rewrite Hx in Hy. injection Hy as <-. rewrite !(list_insert_id l j x) by done. done.
  - apply Permutation_inj. split; [by rewrite !length_insert|].
    exists (fun k => if decide (k = i) then j else if decide (k = j) then i else k). split.
    + intros a b. repeat case_decide; congruence.
    + intros k. destruct (decide (k = i)) as [->|Hki].
      * rewrite list_lookup_insert_eq by (by rewrite length_insert). done.
      * rewrite list_lookup_insert_ne by done. destruct (decide (k = j)) as [->|].
        -- by rewrite list_lookup_insert_eq.
        -- by rewrite list_lookup_insert_ne.
Qed.

Lemma comb_pass_permutation gap k : forall l,
  (k + gap <= length l)%nat -> comb_pass k gap l ≡ₚ l.
Proof.
  induction k as [|k IH]; intros l Hk; simpl; [done|].
  destruct (_ <? _); [|apply IH; lia].
  assert (Hp : mswap l (k + gap) k ≡ₚ l) by (apply mswap_permutation; lia).
  rewrite IH; [done|]. rewrite Hp. lia.
Qed.

(** The gaps get smaller, so the comb sort ends. *)
Lemma comb_loop_permutation fuel : forall count l,
  0 <= count <= Z.of_nat fuel -> count < 2 ^ 28 ->
  exists l', comb_loop fuel count l = Some l' /\ l' ≡ₚ l.
Proof.
  induction fuel as [|fuel IH]; intros count l Hc Hb; simpl.
  - destruct (Z.ltb_spec 2 count); [lia|]. by exists l.
  - destruct (Z.ltb_spec 2 count); [|by exists l].
    rewrite (u32_small (count * 10)) by lia.
    pose proof (Z.div_mod (count * 10) 13 ltac:(lia)).
    pose proof (Z.mod_pos_bound (count * 10) 13 ltac:(lia)).
    set (c := count * 10 / 13) in *.
    set (g := if u32 (c - 9) <? 2 then 11 else c).
    assert (Hg : 1 <= g < count).
    { unfold g. destruct (Z.ltb_spec (u32 (c - 9)) 2) as [Hlt|_]; [|lia].
      assert (9 <= c).
      { destruct (Z.le_gt_cases 9 c); [done|]. unfold u32, wrap in Hlt.
        rewrite <- (Z.mod_add (c - 9) 1 (2 ^ 32)) in Hlt by lia.
        rewrite Z.mod_small in Hlt by lia. lia. }
      rewrite u32_small in Hlt by lia. lia. }
    destruct (IH g (comb_pass (length l - Z.to_nat g) (Z.to_nat g) l)) as (l' & Hl & Hp); [lia|lia|].
    exists l'. split; [exact Hl|]. rewrite Hp.
    destruct (Nat.le_gt_cases (Z.to_nat g) (length l)).
    + apply comb_pass_permutation. lia.
    + by replace (length l - Z.to_nat g)%nat with O by lia.
Qed.

(** A bubble pass as a function on lists: the smallest hash comes to the front. *)
Fixpoint bubble (l : list dx_map_entry) : list dx_map_entry * bool :=
  match l with
  | [] => ([], false)
  | x :: l =>
      match bubble l with
      | (y :: l', more) =>
          if m_hash x <=? m_hash y then (x :: y :: l', more) else (y :: x :: l', true)
      | ([], more) => ([x], more)
      end
  end.

Lemma bubble_permutation l : (bubble l).1 ≡ₚ l.
Proof.
  induction l as [|x l IH]; simpl; [done|].
  destruct (bubble l) as [[|y l'] more]; simpl in *; [by rewrite <- IH|].
  destruct (_ <=? _); simpl; [by rewrite <- IH|]. rewrite <- IH. apply Permutation_swap.
Qed.

Lemma bubble_length l : length (bubble l).1 = length l.
Proof. by rewrite bubble_permutation. Qed.

(** The code's pass over indices is [bubble]. *)
Lemma bubble_pass_bubble pre : forall suf,
  suf <> [] -> bubble_pass (length pre) (pre ++ (bubble suf).1) (bubble suf).2 = bubble (pre ++ suf).
Proof.
  induction pre as [|x pre IH] using rev_ind; intros suf Hne; simpl.
  - by destruct (bubble suf).
  - rewrite length_app, Nat.add_comm. cbn [length Nat.add bubble_pass].
    specialize (IH (x :: suf) ltac:(done)). simpl in IH.
    rewrite <- !(assoc_L (++)). simpl. rewrite <- IH. pose proof (bubble_length suf) as Hlen.
    destruct (bubble suf) as [[|y l'] more]; simpl in *; [by destruct suf|].
    assert (H0 : mhash (pre ++ x :: y :: l') (length pre) = m_hash x).
    { unfold mhash. by rewrite list_lookup_total_middle. }
    assert (H1 : mhash (pre ++ x :: y :: l') (S (length pre)) = m_hash y).
    { unfold mhash. rewrite (cons_middle x), (assoc_L (++)), list_lookup_total_middle; [done|].
      rewrite length_app. simpl. lia. }
    rewrite H0, H1. destruct (_ <=? _); [done|]. by rewrite mswap_adjacent.
Qed.

Lemma bubble_pass_eq l : bubble_pass (length l - 1) l false = bubble l.
Proof.
  destruct l as [|x l _] using rev_ind; [done|].
  rewrite length_app. simpl. replace (length l + 1 - 1)%nat with (length l) by lia.
  rewrite <- (bubble_pass_bubble l [x]) by done. done.
Qed.

(** The first [j] entries are in place. *)
Fixpoint settled (j : nat) (l : list dx_map_entry) : Prop :=
  match j, l with
  | S j, x :: l => Forall (hash_le x) l /\ settled j l
  | _, _ => True
  end.

Lemma bubble_head_min l y l' : (bubble l).1 = y :: l' -> Forall (hash_le y) l'.
Proof.
  revert y l'. induction l as [|x l IH]; simpl; intros y l'; [done|].
  pose proof (bubble_permutation l) as Hp.
  destruct (bubble l) as [[|z l1] more]; simpl in *.
  - intros [= <- <-]. constructor.
  - specialize (IH _ _ eq_refl). destruct (Z.leb_spec (m_hash x) (m_hash z)); intros [= <- <-].
    + constructor; [done|]. eapply Forall_impl; [exact IH|]. simpl. intros; lia.
    + constructor; [lia|done].
Qed.

Lemma bubble_settles j : forall l, settled j l -> settled (S j) (bubble l).1.
Proof.
  induction j as [|j IH]; intros l Hs.
  - destruct (bubble l).1 as [|y l'] eqn:E; [done|]. split; [|done]. by eapply bubble_head_min.
  - destruct l as [|x l]; [done|]. destruct Hs as [Hx Hs]. apply IH in Hs.
    pose proof (bubble_permutation l) as Hp. simpl.
    destruct (bubble l) as [[|y l'] more]; simpl in *; [by split|].
    assert (Hall : Forall (hash_le x) (y :: l')) by (by rewrite Hp).
    apply Forall_cons in Hall as Hall'. destruct Hall' as [Hxy _].
    destruct (Z.leb_spec (m_hash x) (m_hash y)); [|lia]. by split.
Qed.

Lemma settled_sorted l : settled (length l) l -> StronglySorted hash_le l.
Proof. induction l as [|x l IH]; simpl; [constructor|]. intros [? ?]. constructor; auto. Qed.

(** A pass swaps nothing exactly when the map is sorted. *)
Lemma bubble_done l : (bubble l).2 = false <-> StronglySorted hash_le l.
Proof.
  split.
  - induction l as [|x l IH]; simpl; [constructor|].
    pose proof (bubble_permutation l) as Hp. pose proof (bubble_head_min l) as Hm.
    destruct (bubble l) as [[|y l'] more]; simpl in *.
    + intros ->. apply Permutation_nil in Hp. subst l. repeat constructor.
    + destruct (Z.leb_spec (m_hash x) (m_hash y)); simpl; [|done]. intros ->.
      constructor; [auto|]. rewrite <- Hp. constructor; [done|].
      eapply Forall_impl; [by apply Hm|]. simpl. intros; lia.
  - intros Hs. assert (Hb : bubble l = (l, false)); [|by rewrite Hb].
    induction Hs as [|x l Hs IH Hx]; simpl; [done|]. rewrite IH.
    destruct l as [|y l]; [done|]. apply Forall_cons in Hx as [Hxy _].
    by rewrite (proj2 (Z.leb_le _ _) Hxy).
Qed.

Lemma bubble_sorted_id l : StronglySorted hash_le l -> (bubble l).1 = l.
Proof.
  induction 1 as [|x l Hs IH Hx]; simpl; [done|].
  destruct (bubble l) as [l1 more]; simpl in *. subst l1. destruct l as [|y l]; [done|].
  apply Forall_cons in Hx as [Hxy _]. by rewrite (proj2 (Z.leb_le _ _) Hxy).
Qed.

Lemma bubble_loop_sorts fuel : forall j l,
  settled j l -> (length l < fuel + j)%nat -> (j <= length l)%nat ->
  exists l', bubble_loop fuel l = Some l' /\ l' ≡ₚ l /\ StronglySorted hash_le l'.
Proof.
  induction fuel as [|fuel IH]; intros j l Hs Hf Hj; [lia|].
  cbn [bubble_loop]. rewrite bubble_pass_eq.
  pose proof (bubble_permutation l) as Hp. pose proof (bubble_done l) as Hd.
  pose proof (bubble_settles j l Hs) as Hs'. pose proof (bubble_sorted_id l) as Hid.
  destruct (bubble l) as [l1 []]; simpl in *.
  - destruct (decide (j = length l)) as [->|].
    { exfalso. apply settled_sorted in Hs. apply Hd in Hs. done. }
    destruct (IH (S j) l1 Hs') as (l' & Hl & Hp' & Hso); [rewrite Hp; lia|rewrite Hp; lia|].
    exists l'. split_and!; [done|by rewrite Hp'|done].
  - exists l1. split_and!; [done|done|]. rewrite Hid; by apply Hd.
Qed.

(** The comb sort followed by the bubble sort returns, and its result is the map in
    the order of the hashes. *)
Lemma dx_sort_map_sorts map :
  Z.of_nat (length map) < 2 ^ 28 ->
  exists map', dx_sort_map map = Some map' /\ map' ≡ₚ map /\ StronglySorted hash_le map'.
Proof.
  intros Hlen. unfold dx_sort_map.
  destruct (comb_loop_permutation (length map) (Z.of_nat (length map)) map)
    as (l1 & Hl1 & Hp1); [lia|done|]. rewrite Hl1.
  destruct (bubble_loop_sorts (S (length l1)) 0 l1) as (l' & Hl' & Hp' & Hs); [done|lia|lia|].
  exists l'. split_and!; [done|by rewrite Hp'|done].
Qed.

(** ** Copying records *)

Lemma getb_copy dst to src o n i :
  bytes_ok src -> 0 <= to -> to + Z.of_nat n <= Z.of_nat (length dst) -> to <= i < to + Z.of_nat n ->
  getb (puts dst to (gets src o n)) i = getb src (o + (i - to)).
Proof.
  intros Hs Hto Hfit Hi. replace i with (to + Z.of_nat (Z.to_nat (i - to))) at 1 by lia.
  rewrite getb_puts_in by (autorewrite with len; lia).
  rewrite nth_lookup. unfold gets. rewrite list_lookup_fmap, lookup_seq_lt by lia. simpl.
  replace (o + Z.of_nat (Z.to_nat (i - to))) with (o + (i - to)) by lia.
  apply u8_small. by apply getb_range.
Qed.

Lemma le_get_shift n : forall l off l' off',
  (forall k, 0 <= k < Z.of_nat n -> getb l (off + k) = getb l' (off' + k)) ->
  le_get n l off = le_get n l' off'.
Proof.
  induction n as [|n IH]; intros l off l' off' Hk; [done|]. cbn [le_get].
  pose proof (Hk 0 ltac:(lia)) as H0. rewrite !Z.add_0_r in H0. rewrite H0. do 2 f_equal.
  apply IH. intros k Hk'. specialize (Hk (1 + k) ltac:(lia)). by rewrite !Z.add_assoc in Hk.
Qed.

(** ** Searching an index *)

(** The hashes of an index, the first entry apart, do not decrease. *)
Definition index_sorted (b : list Z) (entries count : Z) : Prop :=
  forall i j, 0 < i -> i < j -> j < count ->
    dx_get_hash b (dx_at entries i) <= dx_get_hash b (dx_at entries j).

Lemma htree_linear_spec b entries count hash n : forall at_,
  index_sorted b entries count -> 0 <= at_ -> at_ + 1 + Z.of_nat n = count ->
  (forall i, 0 < i <= at_ -> dx_get_hash b (dx_at entries i) <= hash) ->
  is_position (fun m => dx_get_hash b (dx_at entries m)) count hash (htree_linear b entries hash n at_).
Proof.
  intros at_ Hs. revert at_. induction n as [|n IH]; intros at_ Hat Hn Hlo; simpl.
  - split_and!; intros; [lia|lia|by apply Hlo|lia].
  - destruct (Z.ltb_spec hash (dx_get_hash b (dx_at entries (at_ + 1)))).
    + split_and!; intros; [lia|lia|by apply Hlo|].
      destruct (Z.eq_dec i (at_ + 1)) as [->|]; [done|].
      specialize (Hs (at_ + 1) i ltac:(lia) ltac:(lia) ltac:(lia)). lia.
    + apply IH; [lia|lia|]. intros i Hi. destruct (Z.eq_dec i (at_ + 1)) as [->|]; [done|].
      apply Hlo. lia.
Qed.

(** The search always ends, in every block. *)
Lemma dx_search_total b entries count hash : is_Some (dx_search b entries count hash).
Proof. apply binsearch_loop_total. lia. Qed.

Lemma dx_search_range b entries count hash p :
  1 <= count -> dx_search b entries count hash = Some p -> 0 <= p < count.
Proof.
  intros Hc. unfold dx_search.
  assert (Hgen : forall key fuel l r q, 1 <= l -> l - 1 <= r < count ->
            binsearch_loop fuel key hash l r = Some q -> 0 <= q < count).
  { intros key fuel. induction fuel as [|fuel IH]; intros l r q Hl Hr; simpl;
      destruct (Z.leb_spec l r); try (intros [= <-]; lia).
    assert (Hm : l <= l + (r - l) / 2 <= r).
    { pose proof (Z.div_pos (r - l) 2). pose proof (Z.div_le_upper_bound (r - l) 2 (r - l)). lia. }
    case_match; apply IH; lia. }
  apply Hgen; lia.
Qed.

Lemma dx_search_position b entries count hash :
  index_sorted b entries count -> 1 <= count ->
  exists p, dx_search b entries count hash = Some p /\
    is_position (fun m => dx_get_hash b (dx_at entries m)) count hash p.
Proof. intros Hs Hc. apply binsearch_loop_spec; try lia. intros. by apply Hs. Qed.

(** In an index block whose hashes are in order, the binary search of [dx_probe]
    ends and follows the same entry as the linear search of
    [htree_rep_invariant_check], the last one whose hash is not above the hash looked
    for. *)
Theorem dx_search_is_linear b entries count hash :
  index_sorted b entries count -> 1 <= count ->
  let p := htree_linear b entries hash (Z.to_nat (count - 1)) 0 in
  dx_search b entries count hash = Some p /\
  0 <= p < count /\
  (forall i, 0 < i <= p -> dx_get_hash b (dx_at entries i) <= hash) /\
  (forall i, p < i < count -> hash < dx_get_hash b (dx_at entries i)).
Proof.
  intros Hs Hc p. destruct (dx_search_position b entries count hash Hs Hc) as (q & Hq & Hpos).
  assert (Hp : is_position (fun m => dx_get_hash b (dx_at entries m)) count hash p)
    by (apply htree_linear_spec; [done|lia|lia|lia]).
  rewrite (is_position_unique _ _ _ _ _ Hp Hpos). done.
Qed.

(** ** Inserting an index entry *)

(** The entries of an index: the hash of the first is taken as 0, its place is used
    for the count and the limit. *)
Definition dx_entry_at (b : list Z) (entries : Z) (i : nat) : Z * Z :=
  (if Nat.eqb i 0 then 0 else dx_get_hash b (dx_at entries (Z.of_nat i)),
   dx_get_block b (dx_at entries (Z.of_nat i))).
Definition dx_entries (b : list Z) (entries : Z) : list (Z * Z) :=
  dx_entry_at b entries <$> seq 0 (Z.to_nat (dx_get_count b entries)).

(** The entries up to the limit lie inside the block. *)
Definition index_fits (b : list Z) (entries : Z) : Prop :=
  bytes_ok b /\ 0 <= entries /\ dx_at entries (dx_get_limit b entries) <= Z.of_nat (length b).

Lemma dx_entries_lookup b entries i :
  dx_entries b entries !! i =
    if decide (Z.of_nat i < dx_get_count b entries) then Some (dx_entry_at b entries i) else None.
Proof.
  unfold dx_entries. rewrite list_lookup_fmap. case_decide.
  - by rewrite lookup_seq_lt by lia.
  - by rewrite lookup_seq_ge by lia.
Qed.

Lemma list_insert_at_lookup {A} (l : list A) p x i :
  (p < length l)%nat ->
  (take (S p) l ++ x :: drop (S p) l) !! i =
    if decide (i <= p)%nat then l !! i else if decide (i = S p) then Some x else l !! (i - 1)%nat.
Proof.
  intros Hp. case_decide.
  - rewrite lookup_app_l, lookup_take_lt by (rewrite ?length_take; lia). done.
  - rewrite lookup_app_r, length_take by (rewrite length_take; lia).
    replace (S p `min` length l)%nat with (S p) by lia. case_decide; subst.
    + by rewrite Nat.sub_diag.
    + replace (i - S p)%nat with (S (i - S (S p))) by lia. simpl. rewrite lookup_drop. f_equal. lia.
Qed.

Lemma dx_insert_fields b entries p hash block :
  index_fits b entries -> 0 <= p < dx_get_count b entries ->
  dx_get_count b entries < dx_get_limit b entries -> 0 <= hash < 2 ^ 32 -> 0 <= block < 2 ^ 28 ->
  exists b', dx_insert_block b entries (dx_at entries p) hash block = Some b' /\
    bytes_ok b' /\ length b' = length b /\
    dx_get_limit b' entries = dx_get_limit b entries /\
    dx_get_count b' entries = dx_get_count b entries + 1 /\
    (forall i, i < entries \/ dx_at entries (dx_get_limit b entries) <= i -> getb b' i = getb b i) /\
    (forall i, Z.of_nat i <= p -> dx_entry_at b' entries i = dx_entry_at b entries i) /\
    dx_entry_at b' entries (S (Z.to_nat p)) = (hash, block) /\
    (forall i, p < Z.of_nat i < dx_get_count b entries ->
       dx_entry_at b' entries (S i) = dx_entry_at b entries i).
Proof.
  intros (Hb & He & Hfit) Hp Hcl Hh Hbl.
  pose proof (get16_range b (entries + 2) Hb) as Hcr. fold (dx_get_count b entries) in Hcr.
  pose proof (get16_range b entries Hb) as Hlr. fold (dx_get_limit b entries) in Hlr.
  unfold dx_insert_block. destruct (Z.ltb_spec (dx_get_count b entries) (dx_get_limit b entries)); [|lia].
  unfold dx_at, sizeof_dx_entry in *. set (count := dx_get_count b entries) in *.
  set (limit := dx_get_limit b entries) in *.
  destruct (Z.ltb_spec (entries + p * 8) (entries + count * 8)); [|lia]. cbn [negb].
  eexists. split; [reflexivity|].
  set (new := entries + p * 8 + 8).
  set (b1 := puts b (new + 8) (gets b new (Z.to_nat (entries + count * 8 - new)))).
  rewrite (u32_small (count + 1)) by lia.
  set (b3 := dx_set_block (dx_set_hash b1 new hash) new block).
  set (b' := dx_set_count b3 entries (count + 1)).
  assert (Hl1 : length b1 = length b) by (unfold b1; by autorewrite with len).
  assert (Hl3 : length b3 = length b) by (unfold b3, dx_set_block, dx_set_hash; by autorewrite with len).
  assert (Hout : forall i, i < entries + 2 \/ entries + 4 <= i -> i < new \/ new + 8 <= i ->
            getb b' i = getb b1 i).
  { intros. unfold b', b3, dx_set_count, dx_set_block, dx_set_hash.
    by rewrite !getb_put_out by lia. }
  assert (Hlow : forall i, i < new + 8 \/ entries + count * 8 + 8 <= i -> getb b1 i = getb b i).
  { intros. unfold b1. apply getb_puts_out. autorewrite with len. lia. }
  assert (Hmove : forall i, new + 8 <= i < entries + count * 8 + 8 -> getb b1 i = getb b (i - 8)).
  { intros i Hi. unfold b1. rewrite getb_copy by (done || lia). f_equal. lia. }
  split_and!.
  - unfold b', b3, b1, dx_set_count, dx_set_block, dx_set_hash. eauto with evfs.
  - unfold b', dx_set_count. by autorewrite with len.
  - apply le_get_ext. intros. by rewrite Hout, Hlow by lia.
  - unfold dx_get_count, b', dx_set_count. rewrite get16_put16_eq by lia. apply u16_small. lia.
  - intros i Hi. by rewrite Hout, Hlow by lia.
  - intros i Hi. unfold dx_entry_at, dx_get_hash, dx_get_block, dx_at, sizeof_dx_entry. f_equal.
    + destruct (Nat.eqb_spec i 0); [done|]. apply le_get_ext. intros. by rewrite Hout, Hlow by lia.
    + f_equal. apply le_get_ext. intros. by rewrite Hout, Hlow by lia.
  - unfold dx_entry_at, dx_get_hash, dx_get_block, dx_at, sizeof_dx_entry. cbn [Nat.eqb].
    replace (entries + Z.of_nat (S (Z.to_nat p)) * 8) with new by lia.
    unfold b', b3, dx_set_count, dx_set_block, dx_set_hash. f_equal.
    + rewrite !le_get_put_out by lia. rewrite get32_put32_eq by lia. by apply u32_small.
    + rewrite le_get_put_out by lia. rewrite get32_put32_eq by (autorewrite with len; lia).
      rewrite u32_small by lia. change 0x0fffffff with (Z.ones 28). rewrite Z.land_ones by lia.
      by apply Z.mod_small.
  - intros i Hi. unfold dx_entry_at, dx_get_hash, dx_get_block, dx_at, sizeof_dx_entry.
    destruct (Nat.eqb_spec i 0); [lia|]. cbn [Nat.eqb]. f_equal; [|f_equal]; apply le_get_shift;
      intros k Hk; rewrite Hout, Hmove by lia; f_equal; lia.
Qed.

(** The entry as the list sees it. *)
Lemma dx_insert_entries b entries p hash block :
  index_fits b entries -> (p < length (dx_entries b entries))%nat ->
  dx_get_count b entries < dx_get_limit b entries -> 0 <= hash < 2 ^ 32 -> 0 <= block < 2 ^ 28 ->
  let l := dx_entries b entries in
  exists b', dx_insert_block b entries (dx_at entries (Z.of_nat p)) hash block = Some b' /\
    index_fits b' entries /\ length b' = length b /\
    dx_get_limit b' entries = dx_get_limit b entries /\ dx_get_count b' entries = dx_get_count b entries + 1 /\
    dx_entries b' entries = take (S p) l ++ (hash, block) :: drop (S p) l /\
    (forall i, i < entries \/ dx_at entries (dx_get_limit b entries) <= i -> getb b' i = getb b i).
Proof.
  intros Hf Hp Hcl Hh Hb l. pose proof Hf as (Hbb & He & Hfit).
  pose proof (get16_range b (entries + 2) Hbb) as Hcr. fold (dx_get_count b entries) in Hcr.
  assert (Hpc : 0 <= Z.of_nat p < dx_get_count b entries).
  { unfold dx_entries in Hp. rewrite length_fmap, length_seq in Hp. lia. }
  destruct (dx_insert_fields b entries (Z.of_nat p) hash block)
    as (b' & Hrun & Hb' & Hl' & Hlim & Hcnt & Hout & Hlo & Hnew & Hhi); try done.
  exists b'. split_and!; try done; [split_and!; try done; by rewrite Hlim, Hl'|].
  apply list_eq. intros i. rewrite list_insert_at_lookup by done. subst l.
  rewrite !dx_entries_lookup, Hcnt. rewrite Nat2Z.id in Hnew.
  destruct (decide (i <= p)%nat).
  - rewrite !decide_True by lia. by rewrite Hlo by lia.
  - destruct (decide (i = S p)) as [->|]; [by rewrite decide_True, Hnew by lia|].
    destruct (decide (Z.of_nat (i - 1) < dx_get_count b entries)).
    + rewrite decide_True by lia. replace i with (S (i - 1)) at 1 by lia. by rewrite Hhi by lia.
    + by rewrite decide_False by lia.
Qed.

(** [dx_insert_block] on an index with room: no ASSERT fails, exactly one entry is
    added, right after the one the probe followed, and the others and the rest
    of the block stay as they were. *)
Theorem dx_insert_adds_entry b entries p hash block :
  index_fits b entries -> (p < length (dx_entries b entries))%nat ->
  dx_get_count b entries < dx_get_limit b entries -> 0 <= hash < 2 ^ 32 -> 0 <= block < 2 ^ 28 ->
  let l := dx_entries b entries in
  exists b', dx_insert_block b entries (dx_at entries (Z.of_nat p)) hash block = Some b' /\
    index_fits b' entries /\ length b' = length b /\
    dx_entries b' entries = take (S p) l ++ (hash, block) :: drop (S p) l /\
    (forall i, i < entries \/ dx_at entries (dx_get_limit b entries) <= i -> getb b' i = getb b i).
Proof.
  intros Hf Hp Hcl Hh Hb l. destruct (dx_insert_entries b entries p hash block) as (b' & ? & ? & ? & _ & _ & ? & ?);
    try done. by exists b'.
Qed.
