(* ===== verification/DxSplit.v ===== *)
(** * Splitting a leaf of a hash tree

    The part of [do_split] between the journal calls, on the bytes of the two blocks:
    the map of the leaf, the sort, the split point, the move of the upper half (which
    reads the map from the end of the block it fills) and the compaction of the lower
    half.  Both halves are well-formed blocks, together they hold exactly the live
    entries of the leaf, and the hashes are divided at the hash that is put in the
    index. *)

From stdpp Require Import prelude list sorting.
From Stdlib Require Import ZArith Lia.
From S2P Require Import Prelude Bytes Layout Dirent DxBlock DxBlockSpec.

Local Open Scope Z_scope.

(** ** Copying records *)

Section Records.
Context `{DirNamesOk} `{Csum}.
Variable d : dirctx.
Hypothesis Hplain : plain d.
Hypothesis Hgeo : dir_geometry d.

(** A live record of [b], with the length its name needs. *)
Definition live_record (b : list Z) (o : Z) : Prop :=
  0 <= o /\ entry_ok d b o /\ is_live b o = true /\ o + rlen_at d b o <= dir_limit d.
Definition minrec (b : list Z) (o : Z) : Z := ext4_dir_rec_len (de_name_len b o) (Some d).

(** The bytes an entry needs. *)
Definition dent_size (e : dent) : Z := ext4_dir_rec_len (Z.of_nat (length (e_name e))) (Some d).

Lemma minrec_ent b o : bytes_ok b -> minrec b o = dent_size (ent b o).
Proof.
  intros Hb. pose proof (name_len_range b o Hb). unfold minrec, dent_size, ent, de_name. simpl.
  autorewrite with len. by rewrite Z2Nat.id by lia.
Qed.

Lemma minrec_bounds b o :
  bytes_ok b -> live_record b o ->
  12 <= minrec b o <= rlen_at d b o /\ minrec b o mod 4 = 0 /\
  de_name_len b o + 8 <= minrec b o /\ 1 <= de_name_len b o.
Proof.
  intros Hb (Ho & (H12 & Hm & Hn & Hi & Hl) & Hlive & _).
  apply negb_true_iff, Z.eqb_neq in Hlive. specialize (Hl Hlive).
  pose proof (name_len_range b o Hb) as Hr.
  pose proof (dir_rec_len_bounds d _ Hplain Hr) as (Hb1 & Hmod & H12'). unfold minrec. lia.
Qed.

(** The copy of a live record, cut to that length. *)
Lemma copy_record src o dst to r :
  bytes_ok src -> bytes_ok dst -> live_record src o ->
  0 <= to -> to + minrec src o <= Z.of_nat (length dst) ->
  0 <= r < 65536 -> ext4_rec_len_from_disk d r (d_blocksize d) = minrec src o ->
  let b' := put16 (puts dst to (gets src o (Z.to_nat (minrec src o)))) (to + 4) r in
  bytes_ok b' /\ length b' = length dst /\
  (forall i, i < to \/ to + minrec src o <= i -> getb b' i = getb dst i) /\
  chain d b' to (to + minrec src o) [to] /\ live b' [to] = [ent src o].
Proof.
  intros Hs Hd Hlr Hto Hfit Hr Er b'. pose proof Hlr as (Ho & Hok & Hlive & _).
  destruct (minrec_bounds src o Hs Hlr) as (Hm & Hmod & Hname & Hn1).
  set (L := minrec src o) in *. set (c := puts dst to (gets src o (Z.to_nat L))) in *.
  assert (Hc : forall i, to <= i < to + L -> (i < to + 4 \/ to + 6 <= i) ->
                 getb b' i = getb src (o + (i - to))).
  { intros i Hi Hi'. unfold b', c. rewrite getb_put_out by lia. apply getb_copy; (done || lia). }
  assert (Hlen : length b' = length dst) by (unfold b', c; by autorewrite with len).
  assert (Hrl : rlen_at d b' to = L).
  { unfold rlen_at, de_rec_len, b'. rewrite get16_put16_eq by (unfold c; autorewrite with len; lia).
    by rewrite u16_small. }
  assert (Ei : de_inode b' to = de_inode src o).
  { apply le_get_shift. intros k Hk. rewrite Hc by lia. f_equal. lia. }
  assert (En : de_name_len b' to = de_name_len src o)
    by (unfold de_name_len; rewrite Hc by lia; f_equal; lia).
  assert (Et : de_file_type b' to = de_file_type src o)
    by (unfold de_file_type; rewrite Hc by lia; f_equal; lia).
  assert (Enm : de_name b' to = de_name src o).
  { unfold de_name. rewrite En. unfold gets. apply list_fmap_ext. intros i k Hk.
    apply lookup_seq in Hk as [-> Hk]. rewrite Hc by lia. f_equal. lia. }
  split_and!; [unfold b', c; eauto with evfs|done| | |].
  - intros i Hi. unfold b', c. rewrite getb_put_out by lia. apply getb_puts_out.
    autorewrite with len. lia.
  - rewrite <- Hrl. constructor; [|constructor]. destruct Hok as (_ & _ & _ & Hi & _).
    unfold entry_ok. rewrite Hrl, En, Ei. split_and!; try (done || lia).
  - rewrite live_cons. unfold is_live in *. rewrite Ei, Hlive. unfold ent. by rewrite Enm, Ei, Et.
Qed.

Lemma chain_snoc b o m e os : chain d b o m os -> chain d b m e [m] -> chain d b o e (os ++ [m]).
Proof. intros H1' H2'. apply chain_app. by exists m. Qed.

(** Records appended to a chain of whole records. *)
Lemma copy_append src o dst to os r :
  bytes_ok src -> bytes_ok dst -> live_record src o ->
  chain d dst 0 to os -> to + minrec src o <= Z.of_nat (length dst) ->
  0 <= r < 65536 -> ext4_rec_len_from_disk d r (d_blocksize d) = minrec src o ->
  let b' := put16 (puts dst to (gets src o (Z.to_nat (minrec src o)))) (to + 4) r in
  bytes_ok b' /\ length b' = length dst /\
  (forall i, i < to \/ to + minrec src o <= i -> getb b' i = getb dst i) /\
  chain d b' 0 (to + minrec src o) (os ++ [to]) /\
  live b' (os ++ [to]) = live dst os ++ [ent src o].
Proof.
  intros Hs Hd Hlr Hc Hfit Hr Er b'. pose proof (chain_le d _ _ _ _ Hc) as Hto.
  destruct (copy_record src o dst to r) as (Hb' & Hl' & Hout & Hc' & Hv'); try done.
  fold b' in Hb', Hl', Hout, Hc', Hv'.
  destruct (chain_same d Hplain dst b' 0 to os Hd Hc) as [Hc0 Hv0].
  { intros i Hi. apply Hout. lia. }
  split_and!; try done; [by eapply chain_snoc|]. by rewrite live_app, Hv0, Hv'.
Qed.

(** The last record stretched over the rest of the block, and the tail. *)
Lemma chain_aligned b o e os : chain d b o e os -> o mod 4 = 0 -> e mod 4 = 0.
Proof.
  induction 1 as [|o e os (_ & Hm & _) Hc IH]; [done|]. intros Ho. apply IH.
  by rewrite Zplus_mod, Ho, Hm.
Qed.


(** A record made longer. *)
Lemma lengthen b x L r :
  bytes_ok b -> 0 <= x -> x + 6 <= Z.of_nat (length b) -> entry_ok d b x -> rlen_at d b x <= L ->
  L mod 4 = 0 -> 0 <= r < 65536 -> ext4_rec_len_from_disk d r (d_blocksize d) = L ->
  let b' := put16 b (x + 4) r in
  chain d b' x (x + L) [x] /\ live b' [x] = live b [x].
Proof.
  intros Hb Hx Hfit (H12 & Hm & Hn & Hi & Hl) HL HLm Hr Er b'.
  assert (Hout : forall i, i < x + 4 \/ x + 6 <= i -> getb b' i = getb b i)
    by (intros; unfold b'; by rewrite getb_put_out by lia).
  assert (Hrl : rlen_at d b' x = L).
  { unfold rlen_at, de_rec_len, b'. rewrite get16_put16_eq by lia. by rewrite u16_small. }
  assert (Ei : de_inode b' x = de_inode b x) by (apply le_get_ext; intros; apply Hout; lia).
  assert (En : de_name_len b' x = de_name_len b x) by (apply Hout; lia).
  assert (Ee : ent b' x = ent b x).
  { unfold ent, de_name, de_file_type. rewrite Ei, En.
    f_equal; [apply gets_ext; intros|]; apply Hout; lia. }
  split; [|rewrite !live_cons; unfold is_live; by rewrite Ei, Ee].
  rewrite <- Hrl. constructor; [|constructor]. unfold entry_ok. rewrite Hrl, En, Ei.
  split_and!; try (done || lia).
Qed.

(** The last record takes the rest of the block. *)
Lemma stretch_spec b os x to :
  bytes_ok b -> Z.of_nat (length b) = d_blocksize d ->
  chain d b 0 to (os ++ [x]) -> to <= dir_limit d ->
  exists b', stretch d b x = Some b' /\ dirblock d b' (os ++ [x]) /\
    live b' (os ++ [x]) = live b (os ++ [x]) /\ dir_limit d - to <= room d b' x.
Proof.
  intros Hb Hlen Hc Hto. apply chain_app in Hc as (m & H1c & H2c).
  inversion H2c as [|? ? ? Hok Hn]; subst. inversion Hn; subst. pose proof Hok as (H12 & Hm & _).
  pose proof (chain_le d _ _ _ _ H1c) as Hx. destruct (dir_limit_mod d Hgeo) as [Hlm Hlb].
  set (L := dir_limit d - x).
  assert (HLm : L mod 4 = 0).
  { unfold L. rewrite Zminus_mod, Hlm, (chain_aligned _ _ _ _ H1c); done. }
  destruct (rec_len_roundtrip d L Hgeo) as (r & T & R & E); [lia|done|].
  unfold stretch. fold (dir_limit d). fold L. rewrite T. fold (finish_block d (put16 b (x + 4) r)).
  destruct (lengthen b x L r) as [Hx' Hv']; try (done || lia).
  destruct (chain_same d Hplain b (put16 b (x + 4) r) 0 x os Hb H1c) as [H1' Hv1].
  { intros i Hi. by rewrite getb_put_out by lia. }
  destruct (finish_block_spec d Hplain Hgeo (put16 b (x + 4) r) (os ++ [x])) as (b' & Hf & Hd & Hv & Hs).
  - eauto with evfs.
  - by rewrite length_le_put.
  - replace (dir_limit d) with (x + L) by lia. by eapply chain_snoc.
  - exists b'. split_and!; [done|done|by rewrite Hv, !live_app, Hv1, Hv'|].
    destruct Hd as (_ & _ & Hc & _). apply chain_app in Hc as (m & _ & Hcx).
    inversion Hcx as [|? ? ? Hokx Hnx]; subst. inversion Hnx as [Hxe|]; subst.
    assert (En : de_name_len b' x = de_name_len b x).
    { unfold de_name_len. rewrite Hs by lia. apply getb_put_out. lia. }
    destruct Hok as (_ & _ & Hmin & _). pose proof (name_len_range b x Hb) as Hr.
    pose proof (dir_rec_len_bounds d _ Hplain Hr) as (Hb1 & _).
    unfold room. rewrite En. case_match; lia.
Qed.
End Records.

(** ** Moving records out of a block *)

Definition total {A} (f : A -> Z) (l : list A) : Z := foldr (fun x a => f x + a) 0 l.

Lemma total_cons {A} (f : A -> Z) x l : total f (x :: l) = f x + total f l.
Proof. done. Qed.

Lemma total_app {A} (f : A -> Z) l1 l2 : total f (l1 ++ l2) = total f l1 + total f l2.
Proof. induction l1 as [|x l1 IH]; simpl; [done|]. rewrite IH. lia. Qed.

Lemma total_permutation {A} (f : A -> Z) l1 l2 : l1 ≡ₚ l2 -> total f l1 = total f l2.
Proof. induction 1; simpl; lia. Qed.

Lemma total_ge {A} (f : A -> Z) k l : Forall (fun x => k <= f x) l -> k * Z.of_nat (length l) <= total f l.
Proof. induction 1; simpl; lia. Qed.

Lemma total_mono {A} (f g : A -> Z) l : (forall x, x ∈ l -> f x <= g x) -> total f l <= total g l.
Proof.
  induction l as [|x l IH]; intros Hl; [done|]. rewrite !total_cons.
  pose proof (Hl x (list_elem_of_here _ _)). specialize (IH ltac:(intros; apply Hl; by right)). lia.
Qed.

Lemma total_nonneg {A} (f : A -> Z) l : (forall x, x ∈ l -> 0 <= f x) -> 0 <= total f l.
Proof.
  induction l as [|x l IH]; intros Hl; [done|]. rewrite total_cons.
  pose proof (Hl x (list_elem_of_here _ _)). specialize (IH ltac:(intros; apply Hl; by right)). lia.
Qed.

Lemma total_fmap {A B} (f : B -> Z) (g : A -> B) l : total f (g <$> l) = total (fun x => f (g x)) l.
Proof. induction l as [|x l IH]; [done|]. rewrite fmap_cons, !total_cons. by rewrite IH. Qed.

Lemma chain_in d b o e os x :
  chain d b o e os -> x ∈ os -> o <= x /\ x + rlen_at d b x <= e /\ entry_ok d b x.
Proof.
  induction 1 as [|o e os Hok Hc IH]; intros Hx; [inversion Hx|].
  pose proof Hok as (H12 & _). pose proof (chain_le d _ _ _ _ Hc).
  apply elem_of_cons in Hx as [->|Hx]; [by split_and!; [lia..|]|].
  destruct (IH Hx) as (? & ? & ?). split_and!; [lia..|done].
Qed.

Lemma chain_in_aligned d b o e os x : chain d b o e os -> o mod 4 = 0 -> x ∈ os -> x mod 4 = 0.
Proof.
  induction 1 as [|o e os (_ & Hm & _) Hc IH]; intros Ho Hx; [inversion Hx|].
  apply elem_of_cons in Hx as [->|Hx]; [done|]. apply IH; [|done]. by rewrite Zplus_mod, Ho, Hm.
Qed.

Lemma chain_disjoint d b o e os x y :
  chain d b o e os -> x ∈ os -> y ∈ os -> x <> y ->
  x + rlen_at d b x <= y \/ y + rlen_at d b y <= x.
Proof.
  induction 1 as [|o e os Hok Hc IH]; intros Hx Hy Hne; [inversion Hx|].
  apply elem_of_cons in Hx as [->|Hx]; apply elem_of_cons in Hy as [->|Hy]; [done| | |auto].
  - left. by destruct (chain_in _ _ _ _ _ _ Hc Hy).
  - right. by destruct (chain_in _ _ _ _ _ _ Hc Hx).
Qed.

Lemma chain_nodup d b o e os : chain d b o e os -> NoDup os.
Proof.
  induction 1 as [|o e os (H12 & _) Hc IH]; constructor; [|done].
  intros Ho. destruct (chain_in _ _ _ _ _ _ Hc Ho). lia.
Qed.

Lemma chain_total d b o e os : chain d b o e os -> total (rlen_at d b) os = e - o.
Proof. induction 1; simpl; lia. Qed.

Lemma puts_app l off bs1 bs2 :
  puts l off (bs1 ++ bs2) = puts (puts l off bs1) (off + Z.of_nat (length bs1)) bs2.
Proof.
  revert l off. induction bs1 as [|x bs1 IH]; intros l off; simpl; [by rewrite Z.add_0_r|].
  rewrite IH. f_equal. lia.
Qed.

(** The offsets of the map, read back from the new block. *)
Lemma put_map_offs d data2 map i m :
  Z.of_nat (length data2) = d_blocksize d -> 8 * Z.of_nat (length map) <= d_blocksize d ->
  map !! i = Some m -> 0 <= m_offs m < 65536 ->
  get16 (put_map d data2 map) (d_blocksize d - 8 * Z.of_nat (length map - i) + 4) = m_offs m.
Proof.
  intros Hlen Hfit Hi Hm. unfold put_map. pose proof (lookup_lt_Some _ _ _ Hi) as Hlt.
  assert (Hgen : forall ms l off k, ms !! k = Some m -> 0 <= off ->
    off + 8 * Z.of_nat (length ms) <= Z.of_nat (length l) ->
    get16 (puts l off (concat (map_bytes <$> ms))) (off + 8 * Z.of_nat k + 4) = m_offs m).
  { induction ms as [|m' ms IH]; intros l off k Hk Hoff Hl; [done|]. cbn [fmap list_fmap concat].
    rewrite puts_app. change (length (map_bytes m')) with 8%nat. destruct k as [|k]; simpl in Hk.
    - injection Hk as ->. rewrite le_get_puts_out by lia. unfold map_bytes.
      rewrite !puts_app, !length_le_bytes, le_get_puts_out by lia.
      replace (off + 8 * Z.of_nat 0 + 4) with (off + Z.of_nat 4) by lia.
      fold (put16 (puts l off (le_bytes 4 (m_hash m))) (off + Z.of_nat 4) (m_offs m)).
      rewrite get16_put16_eq by (autorewrite with len; simpl length in Hl; lia). by apply u16_small.
    - replace (off + 8 * Z.of_nat (S k) + 4) with (off + Z.of_nat 8 + 8 * Z.of_nat k + 4) by lia.
      apply IH; [done|lia|]. autorewrite with len. simpl length in Hl. lia. }
  rewrite <- (Hgen map data2 (d_blocksize d - 8 * Z.of_nat (length map)) i); [|done|lia|lia].
  f_equal. lia.
Qed.

Section Move.
Context `{DirNamesOk} `{Csum}.
Variable d : dirctx.
Hypothesis Hplain : plain d.
Hypothesis Hgeo : dir_geometry d.
(* the leaf that is split *)
Variables (b : list Z) (os : list Z).
Hypothesis Hleaf : dirblock d b os.

(** [c] is the leaf after the records [M] were moved away. *)
Record wiped (M c : list Z) : Prop := {
  wiped_bytes : bytes_ok c;
  wiped_len : length c = length b;
  wiped_chain : chain d c 0 (dir_limit d) os;
  wiped_tail : same_on (dir_limit d) (d_blocksize d) b c;
  wiped_keep : forall y, y ∈ os -> y ∉ M -> same_on y (y + rlen_at d b y) b c;
  wiped_dead : forall y, y ∈ M -> y ∈ os /\ is_live c y = false
}.

Lemma wiped_nil : wiped [] b.
Proof. destruct Hleaf as (? & ? & ? & ?). split; try done. intros y Hy. inversion Hy. Qed.

Lemma wiped_ext M M' c : (forall y, y ∈ M <-> y ∈ M') -> wiped M c -> wiped M' c.
Proof.
  intros Hm []. split; try done; intros y ?; [|by apply wiped_dead0, Hm].
  intros Hn. apply wiped_keep0; [done|]. by rewrite Hm.
Qed.

Lemma wiped_dirblock M c : wiped M c -> dirblock d c os.
Proof.
  destruct Hleaf as (Hb & Hlen & Hc & Ht). intros []. split_and!; [done|congruence|done|].
  intros Hcs. rewrite (tail_same d b c) by done. by apply Ht.
Qed.

(** A record that was not moved is the one of the leaf. *)
Lemma wiped_same M c y :
  wiped M c -> y ∈ os -> y ∉ M ->
  entry_ok d c y /\ rlen_at d c y = rlen_at d b y /\ ent c y = ent b y /\ is_live c y = is_live b y /\
  minrec d c y = minrec d b y.
Proof.
  intros Hw Hy Hm. destruct Hleaf as (Hb & _ & Hc & _).
  destruct (chain_in _ _ _ _ _ _ Hc Hy) as (_ & _ & Hok). pose proof Hok as (H12 & _).
  pose proof (wiped_keep _ _ Hw y Hy Hm) as Hs.
  destruct (entry_same d Hplain b c y Hb Hok Hs) as (? & ? & ? & ?). split_and!; try done.
  unfold minrec. destruct (record_same b c y) as (_ & _ & -> & _); [|done].
  eapply same_on_sub; eauto; lia.
Qed.

Lemma wiped_live M c : wiped M c ->
  live c os = ent b <$> filter (fun y => is_live b y /\ y ∉ M) os.
Proof.
  intros Hw. unfold live.
  assert (Hsub : forall l : list Z, (forall y, y ∈ l -> y ∈ os) ->
    ent c <$> filter (fun o => is_live c o) l = ent b <$> filter (fun y => is_live b y /\ y ∉ M) l);
    [|by apply Hsub].
  induction l as [|x l IH]; intros Hl; [done|]. rewrite !filter_cons.
  specialize (IH ltac:(intros; apply Hl; by right)). specialize (Hl x ltac:(by left)).
  destruct (decide (x ∈ M)) as [Hx|Hx].
  - rewrite (proj2 (wiped_dead _ _ Hw x Hx)). rewrite decide_False by (intros []; done).
    rewrite decide_False by (intros [_ ?]; done). done.
  - destruct (wiped_same M c x Hw Hl Hx) as (_ & _ & He & -> & _).
    destruct (is_live b x).
    + rewrite !decide_True by done. by rewrite !fmap_cons, He, IH.
    + rewrite !decide_False by (intros ?; by destruct_and?). done.
Qed.

(** What [dx_move_dirents] leaves of a record it moved. *)
Definition wipe_record (c : list Z) (x : Z) : list Z :=
  memset (put32 c x 0) (x + 6) 0 (rlen_at d (put32 c x 0) x - 6).

Lemma wiped_step M c x : wiped M c -> x ∈ os -> x ∉ M -> wiped (x :: M) (wipe_record c x).
Proof.
  intros Hw Hx Hm. pose proof (wiped_dirblock _ _ Hw) as Hd. pose proof Hd as (Hbc & Hlen & Hc & _).
  destruct (chain_in _ _ _ _ _ _ Hc Hx) as (Hx0 & Hxe & Hok). pose proof Hok as (H12 & Hmod & _).
  pose proof (dir_limit_bounds d Hgeo) as (Hlim & _).
  pose proof Hleaf as (Hbb & Hlenb & Hcb & _).
  unfold wipe_record. set (c1 := put32 c x 0). set (L := rlen_at d c x) in *.
  assert (Hr1 : rlen_at d c1 x = L)
    by (unfold L, rlen_at, de_rec_len, c1; by rewrite le_get_put_out by lia).
  rewrite Hr1. set (c' := memset c1 (x + 6) 0 (L - 6)).
  assert (Hout : forall i, i < x \/ x + L <= i -> getb c' i = getb c i).
  { intros. unfold c', c1. by rewrite getb_memset_out, getb_put_out by lia. }
  assert (Hino : de_inode c' x = 0).
  { unfold de_inode, c'. rewrite (le_get_ext 4 _ c1) by (intros; apply getb_memset_out; lia).
    unfold c1. by rewrite get32_put32_eq by lia. }
  assert (Hrl : rlen_at d c' x = L).
  { rewrite <- Hr1. unfold rlen_at, de_rec_len, c'.
    by rewrite (le_get_ext 2 _ c1) by (intros; apply getb_memset_out; lia). }
  assert (Hnl : de_name_len c' x = 0).
  { unfold de_name_len, c'. rewrite getb_memset_in by (unfold c1; autorewrite with len; lia). done. }
  apply list_elem_of_split in Hx as Hsplit. destruct Hsplit as (os1 & os2 & Hos).
  assert (Hd' : dirblock d c' (os1 ++ [x] ++ os2)).
  { rewrite Hos in Hd. destruct (chain_focus d c (dir_limit d) os1 x os2) as (H1c & _ & H2c);
      [by rewrite <- Hos|].
    apply (dirblock_replace d Hplain c c' os1 [x] os2 [x] x (x + L)); try done.
    - by constructor; [|constructor].
    - unfold c', c1. eauto with evfs.
    - unfold c', c1. by autorewrite with len.
    - rewrite <- Hrl. constructor; [|constructor]. unfold entry_ok. rewrite Hrl, Hnl, Hino.
      pose proof (dir_rec_len_bounds d 0 Hplain ltac:(lia)) as (Hb0 & _).
      pose proof (get32_range c x Hbc). destruct Hok as (_ & _ & _ & Hi & _). unfold de_inode in Hi.
      split_and!; try (done || lia). }
  destruct Hd' as (Hb' & Hl' & Hc' & _). simpl in Hc'. rewrite <- Hos in Hc'. split; try done.
  - rewrite <- (wiped_len _ _ Hw). unfold c', c1. by autorewrite with len.
  - intros i Hi. rewrite Hout by lia. by apply (wiped_tail _ _ Hw).
  - intros y Hy Hym i Hi. rewrite not_elem_of_cons in Hym. destruct Hym as [Hne Hym].
    destruct (wiped_same M c y Hw Hy Hym) as (_ & Hry & _).
    rewrite Hout; [by apply (wiped_keep _ _ Hw y)|].
    destruct (chain_disjoint d c 0 _ os x y Hc Hx Hy ltac:(congruence)); lia.
  - intros y [->|Hy]%elem_of_cons; [split; [done|]; unfold is_live; by rewrite Hino|].
    destruct (wiped_dead _ _ Hw y Hy) as [Hyo Hdead]. split; [done|].
    assert (x <> y) by (intros ->; done). unfold is_live, de_inode in *.
    rewrite (le_get_ext 4 c' c); [done|]. intros i Hi. apply Hout.
    destruct (chain_in _ _ _ _ _ _ Hc Hyo) as (_ & _ & Hyk & _).
    destruct (chain_disjoint d c 0 _ os x y Hc Hx Hyo); [done|lia|lia].
Qed.

(** The map points at the records [U] from offset [d_blocksize d - 8 * length U]. *)
Definition map_at (dst U : list Z) : Prop :=
  forall i y, U !! i = Some y ->
    get16 dst (d_blocksize d - 8 * Z.of_nat (length U - i) + 4) = y / 4.

Lemma map_at_tail dst dst' y U :
  map_at dst (y :: U) ->
  (forall i, d_blocksize d - 8 * Z.of_nat (length U) <= i -> getb dst' i = getb dst i) ->
  map_at dst' U.
Proof.
  intros Hm Hs i z Hi. rewrite <- (Hm (S i) z Hi). simpl length. apply le_get_ext. intros k Hk.
  pose proof (lookup_lt_Some _ _ _ Hi). apply Hs. lia.
Qed.

Lemma unmoved_record M c y :
  wiped M c -> y ∈ os -> y ∉ M -> is_live b y = true -> live_record d c y.
Proof.
  intros Hw Hy Hm Hl. destruct (wiped_same M c y Hw Hy Hm) as (Hok & Hr & _ & Hlc & _).
  pose proof (wiped_chain _ _ Hw) as Hc. destruct (chain_in _ _ _ _ _ _ Hc Hy) as (? & ? & _).
  split_and!; try done. congruence.
Qed.

(** Moving the records [U]: they leave the first block and are appended, in that
    order, to the second; the map is read before it is overwritten. *)
Lemma move_spec U : forall c dst to rl M xs,
  wiped M c -> bytes_ok dst -> Z.of_nat (length dst) = d_blocksize d -> chain d dst 0 to xs ->
  Forall (fun y => y ∈ os /\ is_live b y = true /\ y ∉ M) U -> NoDup U -> map_at dst U ->
  to + total (minrec d b) U <= d_blocksize d -> (U = [] -> last xs = Some (to - rl)) ->
  exists c' dst' xs' x,
    dx_move_dirents d (length U) c dst (d_blocksize d - 8 * Z.of_nat (length U)) to rl =
      Some (c', dst', x) /\
    wiped (U ++ M) c' /\ bytes_ok dst' /\ Z.of_nat (length dst') = d_blocksize d /\
    chain d dst' 0 (to + total (minrec d b) U) xs' /\ last xs' = Some x /\
    live dst' xs' = live dst xs ++ (ent b <$> U).
Proof.
  induction U as [|y U IH]; intros c dst to rl M xs Hw Hbd Hld Hc HU Hnd Hmap Hfit Hlast.
  { exists c, dst, xs, (to - rl). rewrite Z.add_0_r, app_nil_r. auto 10. }
  apply Forall_cons in HU as [(Hy & Hly & HyM) HU]. apply NoDup_cons in Hnd as [HyU Hnd].
  pose proof (unmoved_record M c y Hw Hy HyM Hly) as Hrec.
  destruct (wiped_same M c y Hw Hy HyM) as (_ & _ & He & _ & Hmr).
  pose proof (wiped_bytes _ _ Hw) as Hbc.
  destruct (minrec_bounds d Hplain c y Hbc Hrec) as ((H12 & Hmax) & Hmod & _). rewrite Hmr in *.
  assert (Hge : 8 * Z.of_nat (length U) <= total (minrec d b) U).
  { apply total_ge. eapply Forall_impl; [exact HU|]. intros z (Hz & Hlz & _).
    pose proof (unmoved_record [] b z wiped_nil Hz ltac:(inversion 1) Hlz) as Hrz.
    destruct (minrec_bounds d Hplain b z (proj1 Hleaf) Hrz). lia. }
  cbn [length dx_move_dirents]. simpl total in Hfit.
  assert (Hde : Z.shiftl (get16 dst (d_blocksize d - 8 * Z.of_nat (S (length U)) + 4)) 2 = y).
  { pose proof (Hmap 0%nat y eq_refl) as Hm0. simpl length in Hm0. rewrite Nat.sub_0_r in Hm0.
    rewrite Hm0, Z.shiftl_mul_pow2 by lia.
    pose proof (chain_in_aligned _ _ _ _ _ _ (wiped_chain _ _ Hw) eq_refl Hy).
    pose proof (Z.div_mod y 4). lia. }
  rewrite Hde. fold (minrec d c y). rewrite Hmr.
  pose proof Hrec as (_ & _ & _ & Hend). pose proof (dir_limit_bounds d Hgeo) as (Hlim & _).
  destruct Hrec as (Hy0 & Hrec').
  destruct (rec_len_roundtrip d (minrec d b y) Hgeo) as (r & T & R & E); [lia|done|]. rewrite T.
  destruct (copy_append d Hplain c y dst to xs r) as (Hb' & Hl' & Hout & Hc' & Hv');
    rewrite ?Hmr; try (done || lia). rewrite Hmr in Hb', Hl', Hout, Hc', Hv'.
  set (dst1 := put16 (puts dst to (gets c y (Z.to_nat (minrec d b y)))) (to + 4) r) in *.
  fold (wipe_record c y).
  replace (d_blocksize d - 8 * Z.of_nat (S (length U)) + 8)
    with (d_blocksize d - 8 * Z.of_nat (length U)) by lia.
  destruct (IH (wipe_record c y) dst1 (to + minrec d b y) (minrec d b y) (y :: M) (xs ++ [to]))
    as (c2 & dst2 & xs2 & x2 & Hrun & Hw2 & Hb2 & Hl2 & Hc2 & Hx2 & Hv2); try done.
  - by apply wiped_step.
  - lia.
  - apply Forall_forall. intros z Hz. rewrite Forall_forall in HU. destruct (HU z Hz) as (? & ? & ?).
    split_and!; try done. apply not_elem_of_cons. split; [by intros ->|done].
  - eapply map_at_tail; [exact Hmap|]. intros i Hi. apply Hout. lia.
  - lia.
  - intros ->. rewrite last_snoc. f_equal. lia.
  - exists c2, dst2, xs2, x2. split_and!; try done.
    + eapply wiped_ext; [|exact Hw2]. intros z. rewrite !elem_of_app, !elem_of_cons. tauto.
    + simpl total. by rewrite Z.add_assoc.
    + by rewrite Hv2, Hv', He, <- app_assoc.
Qed.
End Move.

(** ** Packing the records that stay *)

Lemma puts_gets_same l o n :
  bytes_ok l -> 0 <= o -> o + Z.of_nat n <= Z.of_nat (length l) -> puts l o (gets l o n) = l.
Proof.
  intros Hl Ho Hn. apply list_eq. intros i.
  destruct (decide (i < length l)%nat) as [Hi|Hi].
  2:{ rewrite !lookup_ge_None_2; [done|lia|autorewrite with len; lia]. }
  assert (Hg : getb (puts l o (gets l o n)) (Z.of_nat i) = getb l (Z.of_nat i)).
  { destruct (decide (o <= Z.of_nat i < o + Z.of_nat n)).
    - rewrite getb_copy by done. f_equal. lia.
    - apply getb_puts_out. autorewrite with len. lia. }
  unfold getb in Hg. destruct (Z.ltb_spec (Z.of_nat i) 0); [lia|].
  rewrite Nat2Z.id, !nth_lookup in Hg.
  destruct (lookup_lt_is_Some_2 l i Hi) as [x Hx]. rewrite Hx in *.
  destruct (lookup_lt_is_Some_2 (puts l o (gets l o n)) i) as [y Hy]; [by autorewrite with len|].
  rewrite Hy in *. simpl in Hg. by subst.
Qed.

Section Pack.
Context `{DirNamesOk} `{Csum}.
Variable d : dirctx.
Hypothesis Hplain : plain d.
Hypothesis Hgeo : dir_geometry d.

(** The end of the walk: the block ends, or the checksum tail is skipped. *)
Lemma pack_end fuel c p to prev :
  (d_csum d = true -> get_dirent_tail d c = Some (EXT4_DIRENT_TAIL (d_blocksize d))) ->
  same_on (dir_limit d) (d_blocksize d) c p -> (2 <= fuel)%nat ->
  pack_loop d fuel p (dir_limit d) to prev = Some (p, prev).
Proof.
  intros Ht Hs Hf. destruct fuel as [|[|fuel]]; [lia..|]. cbn [pack_loop].
  pose proof (tail_same d c p Hs) as Hts. unfold dir_limit, csum_size in *.
  destruct (d_csum d).
  - specialize (Ht eq_refl). rewrite <- Hts in Ht by done. clear Hts.
    unfold get_dirent_tail, EXT4_DIRENT_TAIL, sizeof_dir_entry_tail in *.
    match type of Ht with (if ?c then _ else _) = _ => destruct c eqn:Hc; [done|] end.
    reflect_bools. destruct (Z.ltb_spec (d_blocksize d - 12) (d_blocksize d)); [|lia].
    unfold de_inode. replace (get32 p (d_blocksize d - 12)) with 0. cbn [Z.eqb negb andb].
    unfold ext4_next_entry, rlen_at, de_rec_len.
    replace (ext4_rec_len_from_disk d (get16 p (d_blocksize d - 12 + 4)) (d_blocksize d)) with 12.
    destruct (Z.ltb_spec (d_blocksize d - 12 + 12) (d_blocksize d)); [lia|done].
  - destruct (Z.ltb_spec (d_blocksize d - 0) (d_blocksize d)); [lia|done].
Qed.

(** The records of [c] from [de] on are packed behind the records [xs]. *)
Lemma pack_spec c os2 : forall fuel p de to xs,
  bytes_ok c -> 0 <= de -> chain d c de (dir_limit d) os2 ->
  (d_csum d = true -> get_dirent_tail d c = Some (EXT4_DIRENT_TAIL (d_blocksize d))) ->
  bytes_ok p -> Z.of_nat (length p) = d_blocksize d -> same_on de (d_blocksize d) c p ->
  chain d p 0 to xs -> to <= de -> (length os2 + 2 <= fuel)%nat ->
  exists p' to' xs',
    pack_loop d fuel p de to (default 0 (last xs)) = Some (p', default 0 (last xs')) /\
    bytes_ok p' /\ Z.of_nat (length p') = d_blocksize d /\ chain d p' 0 to' xs' /\
    to' <= dir_limit d /\ live p' xs' = live p xs ++ live c os2 /\
    to' = to + total (dent_size d) (live c os2).
Proof.
  pose proof (dir_limit_bounds d Hgeo) as (Hlim & _).
  induction os2 as [|x os2 IH]; intros fuel p de to xs Hbc Hde Hc Ht Hbp Hlp Hs Hcp Hto Hf.
  { inversion Hc; subst. exists p, to, xs. rewrite (pack_end fuel c) by (done || lia).
    rewrite app_nil_r. split_and!; try done. simpl. lia. }
  inversion Hc as [|? ? ? Hok Hc']; subst. pose proof Hok as (H12 & Hm & Hn & Hi & Hl).
  pose proof (chain_le d _ _ _ _ Hc') as Hle.
  destruct (entry_same d Hplain c p x Hbc Hok) as (Hokp & Er & Ee & El);
    [eapply same_on_sub; eauto; lia|].
  simpl in Hf. destruct fuel as [|fuel]; [lia|]. cbn [pack_loop].
  destruct (Z.ltb_spec x (d_blocksize d)); [|lia]. unfold ext4_next_entry. rewrite Er, live_cons.
  rewrite <- El, <- Ee. unfold is_live. destruct (Z.eqb_spec (de_inode p x) 0) as [Hz|Hz]; cbn [negb andb].
  { apply IH; try (done || lia). eapply same_on_sub; eauto; lia. }
  assert (Hrec : live_record d p x).
  { split_and!; try (done || lia). unfold is_live. by destruct (Z.eqb_spec (de_inode p x) 0). }
  destruct (minrec_bounds d Hplain p x Hbp Hrec) as ((Hm12 & Hmax) & Hmod & Hnm & Hn1).
  destruct (Z.eqb_spec (de_name_len p x) 0); [lia|]. cbn [negb]. fold (minrec d p x).
  destruct (rec_len_roundtrip d (minrec d p x) Hgeo) as (r & T & R & E); [lia|done|]. rewrite T.
  assert (Hcopy : (if to <? x then puts p to (gets p x (Z.to_nat (minrec d p x))) else p) =
                  puts p to (gets p x (Z.to_nat (minrec d p x)))).
  { destruct (Z.ltb_spec to x); [done|]. replace to with x by lia.
    by rewrite puts_gets_same by (done || lia). }
  rewrite Hcopy.
  destruct (copy_append d Hplain p x p to xs r) as (Hb' & Hl' & Hout & Hcx & Hv'); try (done || lia).
  set (p1 := put16 (puts p to (gets p x (Z.to_nat (minrec d p x)))) (to + 4) r) in *.
  destruct (IH fuel p1 (x + rlen_at d c x) (to + minrec d p x) (xs ++ [to]))
    as (p2 & to2 & xs2 & Hrun & Hrest); try (done || lia).
  { intros i Hi'. rewrite Hout by lia. apply Hs. lia. }
  rewrite last_snoc in Hrun. exists p2, to2, xs2. split; [exact Hrun|].
  destruct Hrest as (? & ? & ? & ? & Hv & Hto2). split_and!; try done; [by rewrite Hv, Hv', <- app_assoc|].
  rewrite Hto2, total_cons, <- minrec_ent by done. lia.
Qed.

Lemma chain_length b o e os : chain d b o e os -> 12 * Z.of_nat (length os) <= e - o.
Proof. induction 1 as [|o e os (H12 & _) _ IH]; simpl length; lia. Qed.

(** [dx_pack_dirents] keeps exactly the live records of the block, in their order. *)
Lemma pack_dirents_spec c os :
  dirblock d c os ->
  exists p to xs, dx_pack_dirents d c = Some (p, default 0 (last xs)) /\
    bytes_ok p /\ Z.of_nat (length p) = d_blocksize d /\ chain d p 0 to xs /\ to <= dir_limit d /\
    live p xs = live c os /\ to = total (dent_size d) (live c os).
Proof.
  intros (Hb & Hlen & Hc & Ht). pose proof (dir_limit_bounds d Hgeo) as (Hlim & H12 & _).
  pose proof (chain_length _ _ _ _ Hc).
  destruct (pack_spec c os (S (Z.to_nat (d_blocksize d))) c 0 0 []) as (p & to & xs & Hr & Hrest);
    try (done || lia); [constructor|]. by exists p, to, xs.
Qed.

(** The map of a leaf has one entry for each live record, the last record first. *)
Section Map.
Variable dirhash : list Z -> Z * (Z * Z).
Definition name_hash (nm : list Z) : Z := (dirhash nm).2.1.
Definition map_entry (b : list Z) (o : Z) : dx_map_entry :=
  MapE (name_hash (de_name b o)) (u16 (Z.shiftr o 2)) (u16 (rlen_at d b o)).

Lemma make_map_spec b os : forall fuel o map,
  bytes_ok b -> chain d b o (dir_limit d) os -> (length os < fuel)%nat ->
  (forall nm, 0 <= (dirhash nm).1) ->
  make_map_loop d dirhash fuel b (dir_limit d) o map =
    Some (0, rev (map_entry b <$> filter (fun x => is_live b x) os) ++ map).
Proof.
  induction os as [|x os IH]; intros fuel o map Hb Hc Hf Hh; (destruct fuel as [|fuel]; [simpl in Hf; lia|]);
    pose proof Hc as Hc0; inversion Hc as [|? ? ? Hok Hc']; subst; cbn [make_map_loop].
  - destruct (Z.ltb_spec (dir_limit d) (dir_limit d)); [lia|done].
  - pose proof Hok as (H12 & _ & _ & _ & Hl). pose proof (chain_le d _ _ _ _ Hc').
    pose proof (chain_sane d Hplain _ _ _ _ _ Hc (or_introl eq_refl)) as Hs.
    inversion Hs as [|? ? Hx _]; subst. rewrite Hx.
    destruct (Z.ltb_spec x (dir_limit d)); [|lia]. unfold ext4_next_entry, ext4_hash_in_dirent.
    rewrite (proj1 Hplain), filter_cons. cbn [andb]. simpl in Hf.
    destruct (Z.eqb_spec (de_inode b x) 0) as [Hz|Hz]; cbn [negb].
    + rewrite andb_false_r. destruct (decide (is_live b x)) as [Hlv|_].
      { unfold is_live in Hlv. by rewrite Hz in Hlv. }
      apply IH; (done || lia).
    + destruct (Z.eqb_spec (de_name_len b x) 0); [specialize (Hl Hz); lia|]. cbn [negb andb].
      destruct (decide (is_live b x)) as [_|Hlv].
      2:{ destruct Hlv. by apply Is_true_true, negb_true_iff, Z.eqb_neq. }
      pose proof (Hh (de_name b x)) as Hx0.
      assert (Hme : map_entry b x = MapE (dirhash (de_name b x)).2.1 (u16 (Z.shiftr x 2)) (u16 (rlen_at d b x))) by done.
      destruct (dirhash (de_name b x)) as [err [hash minor]]. simpl in Hx0, Hme.
      destruct (Z.ltb_spec err 0); [lia|]. rewrite IH by (done || lia).
      rewrite fmap_cons. simpl rev. by rewrite <- app_assoc, Hme.
Qed.

Lemma dx_make_map_spec b os :
  dirblock d b os -> (forall nm, 0 <= (dirhash nm).1) ->
  dx_make_map d dirhash b = Some (0, rev (map_entry b <$> filter (fun x => is_live b x) os)).
Proof.
  intros (Hb & Hlen & Hc & Ht) Hh. unfold dx_make_map. fold (dir_limit d).
  pose proof (chain_length _ _ _ _ Hc). pose proof (dir_limit_bounds d Hgeo) as (Hlim & H12 & _).
  rewrite (make_map_spec b os) by (done || lia). by rewrite app_nil_r.
Qed.
End Map.
End Pack.

(** ** Splitting a leaf *)

Lemma total_minrec d b xs :
  bytes_ok b -> total (minrec d b) xs = total (dent_size d) (ent b <$> xs).
Proof. intros Hb. induction xs as [|x xs IH]; [done|]. simpl. by rewrite IH, minrec_ent. Qed.

Lemma sorted_lookup l i j x y :
  StronglySorted hash_le l -> l !! i = Some x -> l !! j = Some y -> (i < j)%nat ->
  m_hash x <= m_hash y.
Proof.
  intros Hs. revert i j. induction Hs as [|z l Hs IH Hz]; intros i j Hi Hj Hlt; [done|].
  destruct j as [|j]; [lia|]. destruct i as [|i]; simpl in *.
  - injection Hi as ->. rewrite Forall_forall in Hz. apply Hz. by eapply list_elem_of_lookup_2.
  - eapply IH; eauto. lia.
Qed.

Lemma split_scan_spec d map i : forall size move,
  let '(j, mv) := split_scan d i map size move in
  -1 <= j < Z.of_nat i /\ mv = move + (Z.of_nat i - 1 - j) \/ i = O /\ j = -1 /\ mv = move.
Proof.
  induction i as [|i IH]; intros size move; simpl; [by right|].
  destruct (_ <? _); [left; lia|]. specialize (IH (u32 (size + m_size (map !!! i))) (move + 1)).
  destruct (split_scan _ _ _ _ _) as [j mv]. lia.
Qed.

(** Both halves get at least one record. *)
Lemma split_point_inside d map :
  1024 <= d_blocksize d <= 65536 ->
  (2 <= length map)%nat -> Z.of_nat (length map) < 2 ^ 31 ->
  Forall (fun m => 0 <= m_size m <= d_blocksize d) map ->
  1 <= split_point d map < Z.of_nat (length map).
Proof.
  intros Hbs H2 Hlen Hall. unfold split_point.
  destruct (length map) as [|n] eqn:Hn; [lia|]. cbn [split_scan].
  destruct (lookup_lt_is_Some_2 map n ltac:(lia)) as [m Hm].
  rewrite (list_lookup_total_correct _ _ _ Hm).
  eapply Forall_lookup_1 in Hall; [|exact Hm]. simpl in Hall.
  pose proof (Z.div_le_mono (m_size m) (d_blocksize d) 2 ltac:(lia) ltac:(lia)).
  pose proof (Z.div_pos (m_size m) 2 ltac:(lia) ltac:(lia)).
  pose proof (Z.div_le_upper_bound (m_size m) 2 (m_size m) ltac:(lia) ltac:(lia)).
  rewrite Z.add_0_l, u32_small by lia.
  destruct (Z.ltb_spec (d_blocksize d / 2) (m_size m / 2)); [lia|].
  pose proof (split_scan_spec d map n (u32 (0 + m_size m)) (0 + 1)) as Hs.
  destruct (split_scan _ _ _ _ _) as [j mv]. destruct (Z.ltb_spec 0 j).
  - rewrite u32_small by lia. lia.
  - pose proof (Z.div_le_lower_bound (Z.of_nat (S n)) 2 1 ltac:(lia) ltac:(lia)).
    pose proof (Z.div_lt (Z.of_nat (S n)) 2 ltac:(lia) ltac:(lia)). lia.
Qed.

Section Split.
Context `{DirNamesOk} `{Csum}.
Variable d : dirctx.
Hypothesis Hplain : plain d.
Hypothesis Hgeo : dir_geometry d.
Variable dirhash : list Z -> Z * (Z * Z).
Abbreviation hash_of := (fun e => name_hash dirhash (e_name e)).

(** The sorted map lists the live records in the order of their hashes. *)
Lemma sorted_records b os :
  dirblock d b os ->
  exists map los, dx_sort_map (rev (map_entry d dirhash b <$> filter (fun x => is_live b x) os)) = Some map /\
    map = map_entry d dirhash b <$> los /\ los ≡ₚ filter (fun x => is_live b x) os /\
    StronglySorted hash_le map.
Proof.
  intros (_ & _ & Hc & _). set (F := filter _ os).
  destruct (dx_sort_map_sorts (rev (map_entry d dirhash b <$> F))) as (map & Hrun & Hp & Hs).
  { rewrite length_rev, length_fmap. pose proof (chain_length d _ _ _ _ Hc).
    pose proof (length_filter (fun x => is_live b x) os) as Hlf. fold F in Hlf.
    pose proof (dir_limit_bounds d Hgeo). destruct Hgeo. lia. }
  rewrite <- Permutation_rev in Hp.
  apply Permutation_map_inv in Hp as (los & -> & Hp). by exists (map_entry d dirhash b <$> los), los.
Qed.

(** The records of the leaf that are in [U] and those that are not. *)
Lemma stay_permutation b os (los : list Z) k :
  NoDup os -> los ≡ₚ filter (fun x => is_live b x) os ->
  filter (fun y => is_live b y /\ y ∉ drop k los ++ []) os ≡ₚ take k los.
Proof.
  intros Hnd Hp. assert (Hndl : NoDup los) by (rewrite Hp; by apply NoDup_filter).
  rewrite <- (take_drop k los) in Hndl. apply NoDup_app in Hndl as (Hn1 & Hdis & Hn2).
  apply NoDup_Permutation; [by apply NoDup_filter|done|]. intros y.
  rewrite list_elem_of_filter, app_nil_r.
  assert (Hy : y ∈ los <-> is_live b y /\ y ∈ os) by (by rewrite Hp, list_elem_of_filter).
  rewrite <- (take_drop k los), elem_of_app in Hy. specialize (Hdis y). tauto.
Qed.

(** A live record is as long as its name needs, and the records fill the block. *)
Lemma record_sizes b os los y :
  dirblock d b os -> los ≡ₚ filter (fun x => is_live b x) os -> y ∈ los ->
  12 <= minrec d b y <= rlen_at d b y /\ minrec d b y <= 264 /\ rlen_at d b y mod 4 = 0.
Proof.
  intros (Hb & Hlen & Hc & Ht) Hp Hy. rewrite Hp in Hy. apply list_elem_of_filter in Hy as [Hl Hy].
  destruct (chain_in _ _ _ _ _ _ Hc Hy) as (_ & _ & (H12 & Hmod & Hm & _ & Hn)).
  pose proof (name_len_range b y Hb) as Hnr.
  pose proof (dir_rec_len_bounds d _ Hplain Hnr) as (Hb1 & Hm4 & Hb12). fold (minrec d b y) in *.
  assert (de_inode b y <> 0).
  { intros E. unfold is_live in Hl. by rewrite E in Hl. }
  split_and!; [auto|done| |done].
  apply Z.mod_divide in Hm4 as [q Hq]; lia.
Qed.

Lemma total_rlen_le b os los :
  dirblock d b os -> los ≡ₚ filter (fun x => is_live b x) os -> total (rlen_at d b) los <= dir_limit d.
Proof.
  intros (Hb & Hlen & Hc & Ht) Hp.
  assert (Hf : forall l, (forall y, y ∈ l -> y ∈ os) ->
            total (rlen_at d b) (filter (fun x => is_live b x) l) <= total (rlen_at d b) l).
  { induction l as [|x l IH]; intros Hin; [done|]. rewrite filter_cons.
    specialize (IH ltac:(intros; apply Hin; by right)).
    destruct (chain_in _ _ _ _ _ x Hc ltac:(apply Hin; by left)) as (_ & _ & (H12 & _)).
    destruct (decide _); rewrite ?total_cons; lia. }
  specialize (Hf os ltac:(done)). rewrite (chain_total d _ _ _ _ Hc) in Hf.
  rewrite (total_permutation (rlen_at d b) _ _ Hp). lia.
Qed.

Lemma total_minrec_le b os los k :
  dirblock d b os -> los ≡ₚ filter (fun x => is_live b x) os ->
  total (minrec d b) (drop k los) <= dir_limit d.
Proof.
  intros Hd Hp. pose proof (total_rlen_le b os los Hd Hp) as Ht.
  rewrite <- (take_drop k los), total_app in Ht.
  assert (0 <= total (rlen_at d b) (take k los)).
  { apply total_nonneg. intros y Hy%subseteq_take. pose proof (record_sizes b os los y Hd Hp Hy). lia. }
  assert (total (minrec d b) (drop k los) <= total (rlen_at d b) (drop k los)); [|lia].
  apply total_mono. intros y Hy%subseteq_drop. pose proof (record_sizes b os los y Hd Hp Hy). lia.
Qed.

Lemma records_ok b os los :
  dirblock d b os -> los ≡ₚ filter (fun x => is_live b x) os ->
  Forall (fun y => y ∈ os /\ is_live b y = true /\ y ∉ []) los /\ NoDup los.
Proof.
  intros (_ & _ & Hc & _) Hp. split.
  - apply Forall_forall. intros y Hy. rewrite Hp, list_elem_of_filter in Hy. destruct Hy as [Hl Hy].
    split_and!; [done|by apply Is_true_true|]. inversion 1.
  - rewrite Hp. apply NoDup_filter. by eapply chain_nodup.
Qed.

(** The map in the new block points at the records to move. *)
Lemma put_map_at b os los data2 k :
  dirblock d b os -> los ≡ₚ filter (fun x => is_live b x) os ->
  Z.of_nat (length data2) = d_blocksize d ->
  map_at d (put_map d data2 (map_entry d dirhash b <$> los)) (drop k los).
Proof.
  intros (_ & _ & Hc & _) Hp Hlen i y Hi. rewrite lookup_drop in Hi.
  pose proof (lookup_lt_Some _ _ _ Hi) as Hlt.
  assert (Hy : y ∈ los) by (by eapply list_elem_of_lookup_2).
  rewrite Hp, list_elem_of_filter in Hy. destruct Hy as [_ Hy].
  destruct (chain_in _ _ _ _ _ _ Hc Hy) as (Hy0 & Hye & (H12 & _)).
  pose proof (dir_limit_bounds d Hgeo) as (Hlim & _). destruct Hgeo as (Hbs & _).
  pose proof (chain_length d _ _ _ _ Hc). pose proof (length_filter (fun x => is_live b x) os).
  assert (Hll : length los = length (filter (fun x => is_live b x) os)) by (by rewrite Hp).
  assert (Ho : u16 (Z.shiftr y 2) = y / 4).
  { rewrite Z.shiftr_div_pow2 by lia. apply u16_small. change (2 ^ 2) with 4.
    pose proof (Z.div_le_upper_bound y 4 65535). pose proof (Z.div_pos y 4). lia. }
  rewrite length_drop.
  replace (length los - k - i)%nat with (length (map_entry d dirhash b <$> los) - (k + i))%nat
    by (rewrite length_fmap; lia).
  rewrite (put_map_offs d data2 _ (k + i) (map_entry d dirhash b y)); [exact Ho|done| | |].
  - rewrite length_fmap. lia.
  - by rewrite list_lookup_fmap, Hi.
  - simpl. rewrite Ho. pose proof (Z.div_le_upper_bound y 4 65535). pose proof (Z.div_pos y 4). lia.
Qed.

(** The hash of the second block divides the sorted records. *)
Lemma split_hashes b los k :
  StronglySorted hash_le (map_entry d dirhash b <$> los) -> (1 <= k < length los)%nat ->
  let hash2 := mhash (map_entry d dirhash b <$> los) k in
  let hash1 := mhash (map_entry d dirhash b <$> los) (k - 1) in
  Forall (fun e => hash_of e <= hash1) (ent b <$> take k los) /\
  Exists (fun e => hash_of e = hash1) (ent b <$> take k los) /\
  hash1 <= hash2 /\ Forall (fun e => hash2 <= hash_of e) (ent b <$> drop k los).
Proof.
  intros Hs Hk. unfold mhash.
  destruct (lookup_lt_is_Some_2 los k ltac:(lia)) as [y2 Hy2].
  destruct (lookup_lt_is_Some_2 los (k - 1) ltac:(lia)) as [y1 Hy1].
  set (f := map_entry d dirhash b) in *.
  assert (Hf : forall i y, los !! i = Some y -> (f <$> los) !! i = Some (f y))
    by (intros i y Hi; by rewrite list_lookup_fmap, Hi).
  assert (Hmono : forall i j x y, los !! i = Some x -> los !! j = Some y -> (i <= j)%nat ->
            m_hash (f x) <= m_hash (f y)).
  { intros i j x y Hi Hj Hij. destruct (decide (i = j)) as [->|]; [by simplify_eq|].
    eapply sorted_lookup; eauto. lia. }
  rewrite (list_lookup_total_correct _ _ _ (Hf _ _ Hy2)), (list_lookup_total_correct _ _ _ (Hf _ _ Hy1)).
  split_and!.
  - rewrite Forall_fmap. apply Forall_lookup. intros i x Hi. apply lookup_take_Some in Hi as [Hi Hik].
    apply (Hmono i (k - 1)%nat x y1); [done|done|lia].
  - rewrite Exists_fmap, Exists_exists. exists y1. split; [|done].
    apply elem_of_take. exists (k - 1)%nat. split; [done|lia].
  - apply (Hmono (k - 1)%nat k); [done|done|lia].
  - rewrite Forall_fmap. apply Forall_lookup. intros i x Hi. rewrite lookup_drop in Hi.
    apply (Hmono k (k + i)%nat y2 x); [done|done|lia].
Qed.

(** How a split divides the entries [l]: the hashes at or below [hash2] stay, and the
    continuation bit tells that [hash2] itself occurs on both sides. *)
Definition divided (l l1 l2 : list dent) (hash2 continued : Z) : Prop :=
  l1 ++ l2 ≡ₚ l /\ l1 <> [] /\ l2 <> [] /\
  Forall (fun e => hash_of e <= hash2) l1 /\ Forall (fun e => hash2 <= hash_of e) l2 /\
  (continued = 1 /\ Exists (fun e => hash_of e = hash2) l1 \/
   continued = 0 /\ Forall (fun e => hash_of e < hash2) l1).

(** What the two blocks of a split are, for the caller; the last record of each has the
    room that its entries leave. *)
Definition split_ok (l : list dent) (sp : split_result) (os1 os2 : list Z) : Prop :=
  dirblock d (sp_data1 sp) os1 /\ dirblock d (sp_data2 sp) os2 /\
  last os1 = Some (sp_de sp) /\ last os2 = Some (sp_de2 sp) /\
  dir_limit d - total (dent_size d) (live (sp_data1 sp) os1) <= room d (sp_data1 sp) (sp_de sp) /\
  dir_limit d - total (dent_size d) (live (sp_data2 sp) os2) <= room d (sp_data2 sp) (sp_de2 sp) /\
  divided l (live (sp_data1 sp) os1) (live (sp_data2 sp) os2) (sp_hash2 sp) (sp_continued sp).

(** Moving, packing and stretching once the split point is chosen. *)
Lemma split_halves b os los data2 k :
  dirblock d b os -> bytes_ok data2 -> Z.of_nat (length data2) = d_blocksize d ->
  los ≡ₚ filter (fun x => is_live b x) os -> (1 <= k < length los)%nat ->
  exists c dst x2 p x1 d1 d2 os1 os2,
    dx_move_dirents d (length los - k) b (put_map d data2 (map_entry d dirhash b <$> los))
      (d_blocksize d - 8 * Z.of_nat (length los - k)) 0 0 = Some (c, dst, x2) /\
    dx_pack_dirents d c = Some (p, x1) /\ stretch d p x1 = Some d1 /\ stretch d dst x2 = Some d2 /\
    dirblock d d1 os1 /\ dirblock d d2 os2 /\ last os1 = Some x1 /\ last os2 = Some x2 /\
    live d1 os1 ≡ₚ (ent b <$> take k los) /\ live d2 os2 = (ent b <$> drop k los) /\
    dir_limit d - total (dent_size d) (live d1 os1) <= room d d1 x1 /\
    dir_limit d - total (dent_size d) (live d2 os2) <= room d d2 x2.
Proof.
  intros Hd Hb2 Hl2 Hp Hk. pose proof Hd as (Hb & Hlen & Hc & _).
  destruct (records_ok b os los Hd Hp) as [Hrec Hnd].
  pose proof (total_minrec_le b os los k Hd Hp) as Htot.
  pose proof (dir_limit_bounds d Hgeo) as (Hlim & _).
  set (m := put_map d data2 _).
  destruct (move_spec d Hplain Hgeo b os Hd (drop k los) b m 0 0 [] [])
    as (c & dst & xs2 & x2 & Hrun & Hw & Hbd & Hld & Hcd & Hx2 & Hv2).
  - by apply wiped_nil.
  - unfold m, put_map. eauto with evfs.
  - unfold m, put_map. by autorewrite with len.
  - constructor.
  - by apply Forall_drop.
  - rewrite <- (take_drop k los) in Hnd. by apply NoDup_app in Hnd as (_ & _ & ?).
  - by eapply put_map_at.
  - lia.
  - intros Hnil. apply (f_equal length) in Hnil. rewrite length_drop in Hnil. simpl in Hnil. lia.
  - rewrite length_drop in Hrun. apply wiped_dirblock in Hw as Hdc; [|done].
    destruct (pack_dirents_spec d Hplain Hgeo c os Hdc) as (p & to & xs1 & Hpk & Hbp & Hlp & Hcp & Hto & Hvp & Hsz).
    rewrite (wiped_live d Hplain b os Hd _ _ Hw) in Hvp, Hsz.
    assert (Hst : live p xs1 ≡ₚ (ent b <$> take k los)).
    { rewrite Hvp. apply fmap_Permutation, stay_permutation; [by eapply chain_nodup|done]. }
    destruct xs1 as [|x1 xs1 _] using rev_ind.
    { apply Permutation_length in Hst. rewrite length_fmap, length_take in Hst. simpl in Hst. lia. }
    rewrite last_snoc in Hpk. apply last_Some in Hx2 as Hxs2. destruct Hxs2 as [xs2' ->].
    destruct (stretch_spec d Hplain Hgeo p xs1 x1 to) as (d1 & Hs1 & Hd1 & Hv1 & Hr1); try done.
    destruct (stretch_spec d Hplain Hgeo dst xs2' x2 _ Hbd Hld Hcd) as (d2 & Hs2 & Hd2 & Hv2' & Hr2); [lia|].
    exists c, dst, x2, p, x1, d1, d2, (xs1 ++ [x1]), (xs2' ++ [x2]).
    split_and!; try done; [by rewrite last_snoc|by rewrite Hv1|by rewrite Hv2'| |].
    + by rewrite Hv1, Hvp, <- Hsz.
    + rewrite Hv2', Hv2. change (live m [] ++ ?l) with l. by rewrite <- total_minrec.
Qed.

Lemma leaf_split b os data2 :
  dirblock d b os -> bytes_ok data2 -> Z.of_nat (length data2) = d_blocksize d ->
  (2 <= length (live b os))%nat ->
  exists los sp os1 os2,
    let F := filter (fun x => is_live b x) os in
    let map := map_entry d dirhash b <$> los in
    let k := Z.to_nat (split_point d map) in
    dx_sort_map (rev (map_entry d dirhash b <$> F)) = Some map /\ los ≡ₚ F /\
    dx_split_blocks d b data2 (rev (map_entry d dirhash b <$> F)) = Some sp /\
    split_ok (live b os) sp os1 os2 /\
    live (sp_data1 sp) os1 ≡ₚ (ent b <$> take k los) /\ live (sp_data2 sp) os2 = (ent b <$> drop k los).
Proof.
  intros Hd Hb2 Hl2 H2. pose proof Hd as (Hb & Hlen & Hc & _).
  destruct (sorted_records b os Hd) as (map & los & Hsort & -> & Hp & Hs).
  assert (Hlos : length los = length (live b os)) by (unfold live; by rewrite length_fmap, Hp).
  assert (Hsz : Forall (fun m => 0 <= m_size m <= d_blocksize d) (map_entry d dirhash b <$> los)).
  { rewrite Forall_fmap. apply Forall_forall. intros y Hy. rewrite Hp, list_elem_of_filter in Hy.
    destruct (chain_in _ _ _ _ _ _ Hc (proj2 Hy)) as (? & ? & (H12 & _)).
    pose proof (dir_limit_bounds d Hgeo) as (Hlim & _). simpl. unfold u16, wrap.
    pose proof (Z.mod_le (rlen_at d b y) (2 ^ 16)). pose proof (Z.mod_pos_bound (rlen_at d b y) (2 ^ 16)). lia. }
  assert (Hmax : Z.of_nat (length los) < 2 ^ 31).
  { rewrite (Permutation_length Hp). pose proof (chain_length d _ _ _ _ Hc).
    pose proof (length_filter (fun x => is_live b x) os). destruct Hgeo.
    pose proof (dir_limit_bounds d Hgeo). lia. }
  destruct (split_point_inside d (map_entry d dirhash b <$> los)) as [Hk1 Hk2];
    rewrite ?length_fmap; [apply Hgeo|lia|done|done|].
  rewrite length_fmap in Hk2. unfold dx_split_blocks. rewrite Hsort, length_fmap.
  set (split := split_point d _) in *. set (k := Z.to_nat split).
  destruct (Z.leb_spec split 0); [lia|]. destruct (Z.leb_spec (Z.of_nat (length los)) split); [lia|].
  cbn [orb]. replace (Z.to_nat (split - 1)) with (k - 1)%nat by lia. fold k.
  replace (Z.to_nat (Z.of_nat (length los) - split)) with (length los - k)%nat by lia.
  replace (Z.of_nat (length los) - split) with (Z.of_nat (length los - k)) by lia.
  destruct (split_halves b os los data2 k) as (c & dst & x2 & p & x1 & d1 & d2 & os1 & os2 &
    -> & -> & -> & -> & Hd1 & Hd2 & Hx1 & Hx2 & Hv1 & Hv2 & Hr1 & Hr2); try (done || lia).
  destruct (split_hashes b los k Hs ltac:(lia)) as (Hlo & Hex & Hle & Hhi).
  set (h2 := mhash _ k) in *. set (h1 := mhash _ (k - 1)) in *.
  eexists los, _, os1, os2. cbv zeta. split; [done|]. split; [done|]. split; [reflexivity|].
  fold split. fold k. unfold split_ok, divided. simpl. rewrite Hv2 in *. split_and!; try done.
  - rewrite Hv1, <- fmap_app, take_drop. unfold live. by rewrite Hp.
  - intros Hn. rewrite Hn in Hv1. apply Permutation_length in Hv1.
    rewrite length_fmap, length_take in Hv1. simpl in Hv1. lia.
  - intros Hn. apply (f_equal length) in Hn. rewrite length_fmap, length_drop in Hn. simpl in Hn. lia.
  - rewrite Hv1. eapply Forall_impl; [exact Hlo|]. simpl. intros; lia.
  - destruct (Z.eqb_spec h2 h1) as [->|Hne]; [left|right]; (split; [done|]).
    + rewrite Exists_exists in *. destruct Hex as (e & He & ?). exists e. by rewrite Hv1.
    + rewrite Hv1. eapply Forall_impl; [exact Hlo|]. simpl. intros; lia.
Qed.
End Split.
