(* ===== verification/DxRoom.v ===== *)
(** * Room after the split of a leaf

    After a split the new entry is put behind the last record of one of the halves
    without another look at the space.  The split point is chosen by size, so that each
    half keeps room for the longest name, except when the scan over the sizes stops at
    the entry with the smallest hash: then the entries are divided by their number, and
    the first half can be too full. *)

From stdpp Require Import prelude list sorting.
From Stdlib Require Import ZArith Lia.
From S2P Require Import Prelude Bytes Layout Dirent DxBlock DxBlockSpec DxSplit.

Local Open Scope Z_scope.

(** The longest record. *)
Definition max_rec_len : Z := 264.

Section Scan.
Variable d : dirctx.

(** Where the scan over the sizes stops: at the entry that would put more than half of
    itself into the second half of the block, or at -1. *)
Definition scan_stop (map : list dx_map_entry) : Z := (split_scan d (length map) map 0 0).1.

Lemma split_scan_sums map i : forall size move,
  (i <= length map)%nat -> Forall (fun m => 0 <= m_size m) map -> 0 <= size ->
  size + total m_size (take i map) < 2 ^ 32 ->
  let j := (split_scan d i map size move).1 in
  -1 <= j < Z.of_nat i /\
  (forall m, 0 <= j -> map !! Z.to_nat j = Some m ->
     d_blocksize d / 2 < size + total m_size (drop (S (Z.to_nat j)) (take i map)) + m_size m / 2) /\
  (forall m, j + 1 < Z.of_nat i -> map !! Z.to_nat (j + 1) = Some m ->
     size + total m_size (drop (S (Z.to_nat (j + 1))) (take i map)) + m_size m / 2 <= d_blocksize d / 2).
Proof.
  induction i as [|i IH]; intros size move Hi Hall Hs Hsum j; subst j; simpl split_scan.
  { simpl. split_and!; intros; lia. }
  destruct (lookup_lt_is_Some_2 map i ltac:(lia)) as [m Hm].
  rewrite (take_S_r _ _ _ Hm), total_app in Hsum. simpl in Hsum.
  rewrite (list_lookup_total_correct _ _ _ Hm).
  assert (Hm0 : 0 <= m_size m) by (by eapply Forall_lookup_1 in Hall).
  assert (Ht0 : 0 <= total m_size (take i map)) by (apply total_nonneg; intros x Hx%subseteq_take; rewrite Forall_forall in Hall; by apply Hall).
  pose proof (Z.div_pos (m_size m) 2 Hm0 ltac:(lia)).
  pose proof (Z.div_le_upper_bound (m_size m) 2 (m_size m) ltac:(lia) ltac:(lia)).
  rewrite !u32_small by lia. rewrite (take_S_r _ _ _ Hm).
  destruct (Z.ltb_spec (d_blocksize d / 2) (size + m_size m / 2)) as [Hlt|Hge]; simpl.
  - split_and!; [lia|lia| |intros; lia]. intros m' _ Hm'. rewrite Nat2Z.id in *. simplify_eq.
    rewrite drop_ge by (rewrite length_app, length_take; simpl; lia). simpl. lia.
  - destruct (IH (size + m_size m) (move + 1)) as (Hj & Hstop & Hacc); [lia|done|lia|lia|].
    set (j := (split_scan d i map (size + m_size m) (move + 1)).1) in *.
    assert (Hdrop : forall k, (k <= i)%nat -> total m_size (drop k (take i map ++ [m])) =
              total m_size (drop k (take i map)) + m_size m).
    { intros k Hk. rewrite drop_app_le by (rewrite length_take; lia). rewrite total_app. simpl. lia. }
    split_and!; [lia|lia| |].
    + intros m' Hj0 Hm'. rewrite Hdrop by lia. specialize (Hstop m' Hj0 Hm'). lia.
    + intros m' Hj1 Hm'. destruct (decide (j + 1 = Z.of_nat i)) as [E|].
      * rewrite E in *. rewrite Nat2Z.id in *. simplify_eq.
        rewrite drop_ge by (rewrite length_app, length_take; simpl; lia). simpl. lia.
      * rewrite Hdrop by lia. specialize (Hacc m' ltac:(lia) Hm'). lia.
Qed.
End Scan.

Section Room.
Context `{DirNamesOk} `{Csum}.
Variable d : dirctx.
Hypothesis Hplain : plain d.
Hypothesis Hgeo : dir_geometry d.
Variable dirhash : list Z -> Z * (Z * Z).

(** The sizes in the map are the lengths of the records. *)
Lemma map_sizes b os los :
  dirblock d b os -> los ≡ₚ filter (fun x => is_live b x) os -> (2 <= length los)%nat ->
  forall y, y ∈ los -> m_size (map_entry d dirhash b y) = rlen_at d b y.
Proof.
  intros Hd Hp H2 y Hin. simpl.
  pose proof (total_rlen_le d b os los Hd Hp) as Ht. pose proof (dir_limit_bounds d Hgeo) as (Hlim & _).
  destruct (record_sizes d Hplain b os los y Hd Hp Hin) as (H12 & _).
  apply elem_of_Permutation in Hin as (rest & Hr). rewrite (total_permutation _ _ _ Hr), total_cons in Ht.
  destruct rest as [|z rest]; [apply Permutation_length in Hr; simpl in Hr; lia|].
  assert (Hz : z ∈ los) by (rewrite Hr; right; by left).
  destruct (record_sizes d Hplain b os los z Hd Hp Hz) as (Hz12 & _).
  assert (0 <= total (rlen_at d b) rest).
  { apply total_nonneg. intros x Hx. assert (Hxl : x ∈ los) by (rewrite Hr; do 2 right; done).
    destruct (record_sizes d Hplain b os los x Hd Hp Hxl). lia. }
  rewrite total_cons in Ht. destruct Hgeo. apply u16_small. lia.
Qed.

(** *** The bytes the entries of the halves need *)

Section Used.
Variables b os los : list Z.
Hypothesis Hd : dirblock d b os.
Hypothesis Hp : los ≡ₚ filter (fun x => is_live b x) os.
Hypothesis H2los : (2 <= length los)%nat.
Abbreviation map := (map_entry d dirhash b <$> los).
Abbreviation half := (d_blocksize d / 2 + 132).

Lemma part_sizes l :
  (forall y, y ∈ l -> y ∈ los) ->
  total m_size (map_entry d dirhash b <$> l) = total (rlen_at d b) l /\
  0 <= total (minrec d b) l <= total (rlen_at d b) l.
Proof.
  intros Hl. pose proof (map_sizes b os los Hd Hp H2los) as Hsz.
  pose proof (fun y => record_sizes d Hplain b os los y Hd Hp) as Hrec.
  rewrite total_fmap. split_and!.
  - by apply Z.le_antisymm; apply total_mono; intros y Hy; rewrite Hsz by auto.
  - apply total_nonneg. intros y Hy. destruct (Hrec y); [auto|lia].
  - apply total_mono. intros y Hy. destruct (Hrec y); [auto|lia].
Qed.

(** Around the record where the scan stops, in the lengths of the records. *)
Lemma scan_sums :
  let j := scan_stop d map in
  -1 <= j < Z.of_nat (length los) - 1 /\
  (forall y, 0 <= j -> los !! Z.to_nat j = Some y ->
     d_blocksize d / 2 < total (rlen_at d b) (drop (S (Z.to_nat j)) los) + rlen_at d b y / 2) /\
  (forall y, los !! Z.to_nat (j + 1) = Some y ->
     total (rlen_at d b) (drop (S (Z.to_nat (j + 1))) los) + rlen_at d b y / 2 <= d_blocksize d / 2).
Proof.
  intros j. pose proof (total_rlen_le d b os los Hd Hp) as Ht.
  pose proof (dir_limit_bounds d Hgeo) as (Hlim & _). pose proof Hgeo as (Hbs & _).
  pose proof (map_sizes b os los Hd Hp H2los) as Hsz.
  pose proof (fun y => record_sizes d Hplain b os los y Hd Hp) as Hrec.
  destruct (split_scan_sums d map (length map) 0 0) as (Hj & Hstop & Hacc).
  - done.
  - apply Forall_fmap, Forall_forall. intros y Hy. change (0 <= m_size (map_entry d dirhash b y)).
    rewrite Hsz by done. destruct (Hrec y Hy). lia.
  - done.
  - rewrite firstn_all. destruct (part_sizes los) as [-> _]; [done|]. lia.
  - fold (scan_stop d map) in Hj, Hstop, Hacc. fold j in Hj, Hstop, Hacc. rewrite length_fmap in *.
    assert (Hpart : forall i, total m_size (drop i (take (length los) map)) = total (rlen_at d b) (drop i los)).
    { intros i. rewrite take_ge, <- fmap_drop by (by rewrite length_fmap). apply part_sizes.
      intros y. apply subseteq_drop. }
    assert (Hst : forall y, 0 <= j -> los !! Z.to_nat j = Some y ->
       d_blocksize d / 2 < total (rlen_at d b) (drop (S (Z.to_nat j)) los) + rlen_at d b y / 2).
    { intros y Hj0 Hy. specialize (Hstop (map_entry d dirhash b y) Hj0).
      rewrite list_lookup_fmap, Hy, Hpart, Hsz in Hstop by (by eapply list_elem_of_lookup_2).
      by apply Hstop. }
    assert (Hlast : j < Z.of_nat (length los) - 1).
    { destruct (decide (j = Z.of_nat (length los) - 1)) as [E|]; [|lia].
      destruct (lookup_lt_is_Some_2 los (Z.to_nat j) ltac:(lia)) as [y Hy].
      specialize (Hst y ltac:(lia) Hy). rewrite drop_ge in Hst by lia. simpl in Hst.
      assert (Hin : y ∈ los) by (by eapply list_elem_of_lookup_2).
      assert (rlen_at d b y <= total (rlen_at d b) los).
      { apply elem_of_Permutation in Hin as (rest & Hr). rewrite (total_permutation _ _ _ Hr), total_cons.
        destruct (part_sizes rest) as [_ ?]; [intros z Hz; rewrite Hr; by right|]. lia. }
      pose proof (Z.div_le_mono (rlen_at d b y) (d_blocksize d) 2). lia. }
    split_and!; [lia|done|done|]. intros y Hy. specialize (Hacc (map_entry d dirhash b y) ltac:(lia)).
    rewrite list_lookup_fmap, Hy, Hpart, Hsz in Hacc by (by eapply list_elem_of_lookup_2).
    by apply Hacc.
Qed.

Lemma upper_used : total (minrec d b) (drop (Z.to_nat (scan_stop d map + 1)) los) <= half.
Proof.
  destruct scan_sums as (Hj & _ & Hacc). set (j := scan_stop d map) in *.
  destruct (lookup_lt_is_Some_2 los (Z.to_nat (j + 1)) ltac:(lia)) as [y Hy]. specialize (Hacc y Hy).
  rewrite (drop_S _ _ _ Hy), total_cons.
  destruct (part_sizes (drop (S (Z.to_nat (j + 1))) los)) as [_ ?]; [intros z; apply subseteq_drop|].
  destruct (record_sizes d Hplain b os los y Hd Hp) as (Hm & H264 & Hmod); [by eapply list_elem_of_lookup_2|].
  apply Z.mod_divide in Hmod as [q Hq]; [|done]. rewrite Hq in *.
  replace (q * 4 / 2) with (q * 2) in Hacc by (rewrite <- (Z.div_mul (q * 2) 2) by done; f_equal; lia). lia.
Qed.

Lemma lower_used : 0 <= scan_stop d map -> total (minrec d b) (take (Z.to_nat (scan_stop d map + 1)) los) <= half.
Proof.
  destruct scan_sums as (Hj & Hstop & _). set (j := scan_stop d map) in *. intros Hj0.
  destruct (lookup_lt_is_Some_2 los (Z.to_nat j) ltac:(lia)) as [y Hy]. specialize (Hstop y Hj0 Hy).
  replace (Z.to_nat (j + 1)) with (S (Z.to_nat j)) by lia. rewrite (take_S_r _ _ _ Hy), total_app, total_cons.
  destruct (part_sizes (take (Z.to_nat j) los)) as [_ ?]; [intros z; apply subseteq_take|].
  destruct (record_sizes d Hplain b os los y Hd Hp) as (Hm & H264 & Hmod); [by eapply list_elem_of_lookup_2|].
  pose proof (total_rlen_le d b os los Hd Hp) as Ht. rewrite <- (take_drop (Z.to_nat j) los), total_app in Ht.
  rewrite (drop_S _ _ _ Hy), total_cons in Ht.
  pose proof (dir_limit_bounds d Hgeo) as (Hlim & _). destruct Hgeo as (_ & _ & Hb4).
  apply Z.mod_divide in Hmod as [q Hq]; [|done]. apply Z.mod_divide in Hb4 as [r Hr]; [|done]. rewrite Hq, Hr in *.
  assert (Hhalf : forall x, x * 4 / 2 = x * 2) by (intros x; rewrite <- (Z.div_mul (x * 2) 2) by done; f_equal; lia).
  rewrite !Hhalf in *. simpl. lia.
Qed.

Lemma split_point_scan :
  split_point d map = if 0 <? scan_stop d map then scan_stop d map + 1 else Z.of_nat (length los) / 2.
Proof.
  destruct scan_sums as (Hj & _). unfold split_point, scan_stop in *.
  pose proof (split_scan_spec d map (length map) 0 0) as Hs. rewrite length_fmap in *.
  destruct (split_scan _ _ _ _ _) as [j mv]. simpl in *. case_match; [|done].
  pose proof (chain_length d _ _ _ _ (proj1 (proj2 (proj2 Hd)))) as Hcl.
  pose proof (length_filter (fun x => is_live b x) os) as Hlf. rewrite <- (Permutation_length Hp) in Hlf.
  pose proof (dir_limit_bounds d Hgeo) as (Hlim & _). pose proof Hgeo as (Hbs & _).
  rewrite u32_small by lia. lia.
Qed.

Lemma split_used :
  let k := Z.to_nat (split_point d map) in
  total (minrec d b) (drop k los) <= half /\ (scan_stop d map <> 0 -> total (minrec d b) (take k los) <= half).
Proof.
  intros k. subst k. rewrite split_point_scan. destruct scan_sums as (Hj & _).
  pose proof upper_used as Hu. pose proof lower_used as Hl. set (j := scan_stop d map) in *.
  destruct (Z.ltb_spec 0 j) as [Hpos|Hneg]; [split; [done|intros _; apply Hl; lia]|]. clear Hl.
  set (k := Z.to_nat (Z.of_nat (length los) / 2)).
  assert (Hk : (1 <= k)%nat).
  { pose proof (Z.div_le_lower_bound (Z.of_nat (length los)) 2 1 ltac:(lia) ltac:(lia)). lia. }
  assert (Hsub : forall i, (i <= k)%nat -> total (minrec d b) (drop k los) <= total (minrec d b) (drop i los)).
  { intros i Hi. rewrite <- (take_drop (k - i) (drop i los)), drop_drop, total_app.
    replace (i + (k - i))%nat with k by lia.
    destruct (part_sizes (take (k - i) (drop i los))) as [_ ?]; [|lia].
    intros y Hy%subseteq_take. by apply subseteq_drop in Hy. }
  split.
  - etransitivity; [|exact Hu]. apply Hsub. lia.
  - intros Hne. replace (Z.to_nat (j + 1)) with O in Hu by lia. rewrite drop_0 in Hu.
    rewrite <- (take_drop k los), total_app in Hu.
    destruct (part_sizes (drop k los)) as [_ ?]; [intros y; apply subseteq_drop|]. lia.
Qed.
End Used.

(** Any name can be put behind record [x]. *)
Definition accepts (b os : list Z) (x : Z) : Prop :=
  forall ino mode fname, name_ok fname -> 0 < ino < 2 ^ 32 -> ino <= d_inodes d ->
  exists b' os' l1 l2,
    ext4_insert_dentry d ino mode b x (d_blocksize d) fname = Some b' /\
    dirblock d b' os' /\ live b os = l1 ++ l2 /\ live b' os' = l1 ++ new_dent d ino mode fname :: l2.

Lemma room_accepts b os x : dirblock d b os -> last os = Some x -> max_rec_len <= room d b x -> accepts b os x.
Proof.
  intros Hd Hx Hr ino mode fname Hn Hi Hm. apply last_Some in Hx as [os' ->].
  apply (insert_room d Hplain Hgeo ino mode b (os' ++ [x])); try done; [apply elem_of_app; right; by left|].
  etransitivity; [|exact Hr]. unfold max_rec_len, reclen_of. destruct Hn as [_ Hn]. unfold EXT4_NAME_LEN in Hn.
  destruct (dir_rec_len_bounds d (Z.of_nat (length (disk_name fname))) Hplain) as (Hb & Hm4 & _); [lia|].
  apply Z.mod_divide in Hm4 as [q Hq]; lia.
Qed.

Lemma half_room used : used <= d_blocksize d / 2 + 132 -> max_rec_len <= dir_limit d - used.
Proof.
  intros Hu. pose proof (dir_limit_bounds d Hgeo) as (Hlim & _). destruct Hgeo as (Hbs & _ & Hb4).
  apply Z.mod_divide in Hb4 as [r Hr]; [|done]. rewrite Hr in *.
  replace (r * 4 / 2) with (r * 2) in Hu by (rewrite <- (Z.div_mul (r * 2) 2) by done; f_equal; lia).
  unfold max_rec_len. lia.
Qed.

(** The scan over the sizes of the sorted map of leaf [b] stops at its first entry. *)
Definition stops_at_first (b : list Z) : Prop :=
  exists map sorted, dx_make_map d dirhash b = Some (0, map) /\ dx_sort_map map = Some sorted /\
    scan_stop d sorted = 0.

Lemma leaf_split_room b os data2 :
  dirblock d b os -> bytes_ok data2 -> Z.of_nat (length data2) = d_blocksize d ->
  (forall nm, 0 <= (dirhash nm).1) -> (2 <= length (live b os))%nat ->
  exists map sp os1 os2,
    dx_make_map d dirhash b = Some (0, map) /\ dx_split_blocks d b data2 map = Some sp /\
    split_ok d dirhash (live b os) sp os1 os2 /\
    accepts (sp_data2 sp) os2 (sp_de2 sp) /\ (~ stops_at_first b -> accepts (sp_data1 sp) os1 (sp_de sp)).
Proof.
  intros Hd Hb2 Hl2 Hh H2. pose proof Hd as (Hb & _).
  destruct (leaf_split d Hplain Hgeo dirhash b os data2) as (los & sp & os1 & os2 & Hsort & Hp & Hrun & Hok & Hv1 & Hv2);
    try done. set (k := Z.to_nat _) in *.
  assert (Hlos : (2 <= length los)%nat) by (unfold live in H2; by rewrite length_fmap, <- Hp in H2).
  destruct (split_used b os los Hd Hp Hlos) as [Hu2 Hu1]. fold k in Hu1, Hu2.
  pose proof Hok as (Hd1 & Hd2 & Hx1 & Hx2 & Hr1 & Hr2 & _).
  rewrite (total_permutation _ _ _ Hv1), <- total_minrec in Hr1 by done.
  rewrite Hv2, <- total_minrec in Hr2 by done.
  pose proof (dx_make_map_spec d Hplain Hgeo dirhash b os Hd Hh) as Hmap.
  eexists _, sp, os1, os2. split_and!; [exact Hmap|done|done| |].
  - apply room_accepts; [done|done|]. etransitivity; [|exact Hr2]. by apply half_room.
  - intros Hne. apply room_accepts; [done|done|]. etransitivity; [|exact Hr1]. apply half_room, Hu1.
    intros Hz. apply Hne. by eexists _, _.
Qed.

(** Splitting a full leaf of a hash tree.  The map made of a well-formed leaf with
    at least two live entries is sorted and the split returns without a BUG_ON and
    without reading outside the map; both blocks are well-formed; together they hold
    exactly the live entries of the leaf, neither is empty; every entry of the first
    has a hash of at most the hash put in the index for the second, every entry of the
    second at least that hash; and the continuation bit is set exactly when an entry
    with that hash stayed in the first block.  Afterwards the second block has room for
    any name behind its last record, and so has the first unless the scan over the
    sizes stopped at the entry with the smallest hash. *)
Theorem leaf_split_correct b os data2 :
  dirblock d b os -> bytes_ok data2 -> Z.of_nat (length data2) = d_blocksize d ->
  (forall nm, 0 <= (dirhash nm).1) -> (2 <= length (live b os))%nat ->
  exists map sp os1 os2,
    dx_make_map d dirhash b = Some (0, map) /\ dx_split_blocks d b data2 map = Some sp /\
    split_ok d dirhash (live b os) sp os1 os2 /\
    accepts (sp_data2 sp) os2 (sp_de2 sp) /\ (~ stops_at_first b -> accepts (sp_data1 sp) os1 (sp_de sp)).
Proof. apply leaf_split_room. Qed.
End Room.
