(* ===== verification/Namei.v ===== *)
(** * Directories: lookup, insertion and removal of names (fs/ext4/namei.c)

    The functions of namei.c that the eVFS handlers call, on directories stored as
    linear lists of blocks: reading a block, [__ext4_find_entry] with its read-ahead
    window, [ext4_add_entry], [ext4_append], [ext4_delete_entry], [__ext4_link] and
    [__ext4_unlink].

    The hash tree and the inline directory format are behind the class [DirHooks]:
    the operations this file calls on them, as computations on the same state. *)

From stdpp Require Import prelude list gmap strings.
From Stdlib Require Import ZArith Lia.
From S2P Require Import Prelude Kernel Bytes Bmt Layout ExtentNode ExtentTree Fs Block Inode Dirent.

Local Open Scope string_scope.
Local Open Scope Z_scope.

(** ** Parameters *)

(** Kernel configuration and tables outside the repository. *)
Class NameiEnv := {
  nm_pagesize : Z;                       (* PAGE_SIZE *)
  nm_unicode : bool;                     (* IS_ENABLED(CONFIG_UNICODE) *)
  nm_strict : bool;                      (* sb_has_strict_encoding(sb) *)
  nm_has_key : Z -> bool;                (* fscrypt_has_encryption_key(dir) *)
  nm_inline_off : Z -> Z;                (* EXT4_I(inode)->i_inline_off *)
  nm_max_dir_size_kb : Z;                (* s_max_dir_size_kb *)
  nm_data_trans_blocks : Z;              (* EXT4_DATA_TRANS_BLOCKS(sb) *)
  nm_index_extra_blocks : Z;             (* EXT4_INDEX_EXTRA_TRANS_BLOCKS *)
  utf8_casefold : list Z -> option (list Z);    (* None for a length <= 0 *)
  nm_hash_unsigned : Z;                  (* s_hash_unsigned, 0 or 3 *)
  nm_def_hash_version : Z;               (* s_def_hash_version *)
  ext4fs_dirhash : Z -> list Z -> Z * (Z * Z)   (* by version: error, hash and minor hash *)
}.

(** The result of a lookup: NULL, an error pointer, or the record at [de] of logical
    block [blk], whose buffer the caller holds. *)
Inductive lookup := LNull | LErr (e : Z) | LFound (blk de : Z).

(** The other two formats of a directory. *)
Class DirHooks := {
  ext4_find_inline_entry : Z -> ext4_filename -> K fs (lookup * bool);
  ext4_try_add_inline_entry : Z -> Z -> ext4_filename -> K fs Z;
  ext4_delete_inline_entry : Z -> Z -> Z -> K fs (Z * bool);
  ext4_dx_find_entry : Z -> ext4_filename -> K fs lookup;
  ext4_dx_add_entry : Z -> Z -> ext4_filename -> K fs Z;
  make_indexed_dir : Z -> Z -> ext4_filename -> K fs Z
}.

(** Inode flags, by bit number. *)
Definition EXT4_INODE_ENCRYPT : Z := 11.
Definition EXT4_INODE_INDEX : Z := 12.
Definition EXT4_INODE_INLINE_DATA : Z := 28.
Definition EXT4_INODE_CASEFOLD : Z := 30.
Definition EXT4_STATE_NEWENTRY : Z := 5.
Definition EXT4_LINK_MAX : Z := 65000.
Definition ERR_BAD_DX_DIR : Z := - (4095 - 1).
Definition DX_HASH_LEGACY : Z := 0.
Definition DX_HASH_HALF_MD4 : Z := 1.
Definition DX_HASH_TEA : Z := 2.
Definition DX_HASH_SIPHASH : Z := 6.
Definition NAMEI_RA_SIZE : Z := 2 * 4.

Definition ext4_test_inode_flag (i : inode) (bit : Z) : bool := Z.testbit (i_flags i) bit.
Definition ext4_set_inode_flag (i : inode) (bit : Z) : inode := set_iflags (Z.setbit (i_flags i) bit) i.
Definition ext4_clear_inode_flag (i : inode) (bit : Z) : inode :=
  set_iflags (Z.clearbit (i_flags i) bit) i.

(** State bits live in the upper half of [i_flags] on 64-bit machines. *)
Definition ext4_set_inode_state (i : inode) (bit : Z) : inode := ext4_set_inode_flag i (32 + bit).

Definition is_dx (s : fs) (n : Z) : bool :=
  ext4_has_feature_dir_index (f_es s) && ext4_test_inode_flag (inode_of s n) EXT4_INODE_INDEX.

(** [inode_inc_iversion]: the low bit is the "queried" flag. *)
Definition inode_inc_iversion (i : inode) : inode :=
  set_version (u64 (Z.land (i_version i) (Z.lnot 1) + 2)) i.

(** [ext4_update_dx_flag] *)
Definition ext4_update_dx_flag (s : fs) (i : inode) : inode :=
  if negb (ext4_has_feature_dir_index (f_es s)) && ext4_test_inode_flag i EXT4_INODE_INDEX
  then ext4_clear_inode_flag i EXT4_INODE_INDEX else i.

(** The bytes of logical block [blk] of directory [n], and their replacement; a block
    just past the end is appended. *)
Definition dir_block (s : fs) (n blk : Z) : list Z :=
  nth (Z.to_nat blk) (i_dir (inode_of s n)) [].
Definition put_block (blk : Z) (b : list Z) (l : list (list Z)) : list (list Z) :=
  if blk =? Z.of_nat (length l) then (l ++ [b])%list else <[Z.to_nat blk := b]> l.
Definition set_dir_block (n blk : Z) (b : list Z) (s : fs) : fs :=
  upd_inode n (fun i => set_dir (put_block blk b (i_dir i)) i) s.

Section Namei.
Context `{Env} `{Csum} `{NameiEnv} `{DirNames} `{DirHooks}.

Definition s_blocksize_bits (s : fs) : Z := Z.log2 (s_blocksize (f_sbi s)).

(** The context of directory [n] for the block routines. *)
Definition dctx (s : fs) (n : Z) : dirctx :=
  let i := inode_of s n in
  DirCtx nm_pagesize (s_blocksize (f_sbi s)) nm_unicode
    (ext4_test_inode_flag i EXT4_INODE_CASEFOLD) (ext4_test_inode_flag i EXT4_INODE_ENCRYPT)
    (nm_has_key n) nm_strict (ext4_has_metadata_csum (f_sbi s) (f_es s))
    (ext4_has_feature_filetype (f_es s)) (s_inodes_count (f_es s)) (i_csum_seed i).

Definition ext4_has_inline_data (s : fs) (n : Z) : bool :=
  ext4_test_inode_flag (inode_of s n) EXT4_INODE_INLINE_DATA && negb (nm_inline_off n =? 0).

(** The buffer of a directory block. *)
Definition dbh (n blk : Z) : res := Ref (RDirBh n blk).
Definition brelse (n blk : Z) : K fs unit := release (dbh n blk).

(** [current_time], and [inode_set_ctime_current] with the time it returns. *)
Definition current_time : K fs timespec :=
  sec <~ call_int "current_time_sec" [];;
  nsec <~ call_int "current_time_nsec" [];;
  kret (Ts sec nsec).
Definition inode_set_ctime_current (n : Z) : K fs timespec :=
  ts <~ current_time;;
  kmodify (upd_inode n (fun i => set_times (i_mtime i) ts i));;;
  kret ts.
Definition inode_set_mtime_to_ts (n : Z) (ts : timespec) : K fs unit :=
  kmodify (upd_inode n (fun i => set_times ts (i_ctime i) i)).

(** *** Reading and appending blocks *)

(** [ext4_bread(handle, dir, blk, flags)]: with the create flag a missing block is
    allocated and cleared. *)
Definition ext4_bread (n blk : Z) (create : bool) : K fs reply :=
  bh <~ call_ptr "ext4_bread" [n; blk; if create then 1 else 0];;
  match bh with
  | PtrOk =>
      acquire (dbh n blk);;;
      s <~ kget;;
      (if create
       then kmodify (set_dir_block n blk (replicate (Z.to_nat (s_blocksize (f_sbi s))) 0))
       else kret tt);;;
      kret bh
  | _ => kret bh
  end.

(** [ext4_append]: the block number and the buffer, or an error. *)
Definition ext4_append (n : Z) : K fs (Z * reply) :=
  s <~ kget;;
  let size := i_size (inode_of s n) in
  if negb (nm_max_dir_size_kb =? 0) && (nm_max_dir_size_kb <=? Z.shiftr size 10)
  then kret (0, PtrErr (- ENOSPC)) else
  let block := Z.shiftr size (s_blocksize_bits s) in
  err <~ call_int "ext4_map_blocks" [n; block; 1; 0];;
  if err <? 0 then kret (block, PtrErr err) else
  if negb (err =? 0) then kret (block, PtrErr (- EFSCORRUPTED)) else
  bh <~ ext4_bread n block true;;
  match bh with
  | PtrErr e => kret (block, PtrErr e)
  | PtrNull => koops
  | PtrOk =>
      kmodify (upd_inode n (set_size (size + s_blocksize (f_sbi s))));;;
      err <~ ext4_mark_inode_dirty n;;
      if negb (err =? 0) then brelse n block;;; kret (block, PtrErr err) else
      err <~ call_int "ext4_journal_get_write_access" [n; block];;
      if negb (err =? 0) then brelse n block;;; kret (block, PtrErr err) else
      kret (block, PtrOk)
  end.

(** What the caller of [ext4_read_dirblock] expects. *)
Inductive dirblock_type := EITHER | INDEX | DIRENT | DIRENT_HTREE.
Definition expects_htree (t : dirblock_type) : bool :=
  match t with INDEX | DIRENT_HTREE => true | _ => false end.
Definition is_INDEX (t : dirblock_type) : bool :=
  match t with INDEX => true | _ => false end.

(** [__ext4_read_dirblock], built without CONFIG_EXT4_DEBUG (no simulated
    failures). *)
Definition __ext4_read_dirblock (n block : Z) (type : dirblock_type) : K fs reply :=
  s <~ kget;;
  if Z.shiftr (i_size (inode_of s n)) (s_blocksize_bits s) <=? block
  then kret (PtrErr (- EFSCORRUPTED)) else
  bh <~ ext4_bread n block false;;
  match bh with
  | PtrErr e => kret (PtrErr e)
  | PtrNull => kret (if expects_htree type then PtrErr (- EFSCORRUPTED) else PtrNull)
  | PtrOk =>
      let d := dctx s n in
      let b := dir_block s n block in
      let is_dx_block := is_dx s n && ((block =? 0) || (rlen_at d b 0 =? d_blocksize d)) in
      if negb is_dx_block && is_INDEX type then
        brelse n block;;; kret (PtrErr (- EFSCORRUPTED)) else
      verified <~ call_int "buffer_verified" [n; block];;
      if negb (ext4_has_metadata_csum (f_sbi s) (f_es s)) || negb (verified =? 0)
      then kret PtrOk else
      if (is_dx_block && is_INDEX type && negb (ext4_dx_csum_verify d b)) ||
         (negb is_dx_block && negb (ext4_dirblock_csum_verify d b))
      then brelse n block;;; kret (PtrErr (- EFSBADCRC))
      else kret PtrOk
  end.

(** [ext4_handle_dirty_dirblock] *)
Definition ext4_handle_dirty_dirblock (n blk : Z) : K fs Z :=
  s <~ kget;;
  kmodify (set_dir_block n blk (ext4_dirblock_csum_set (dctx s n) (dir_block s n blk)));;;
  call_int "ext4_handle_dirty_metadata" [n; blk].

(** *** Names *)

(** [ext4_fname_setup_ci_filename]: the error, the folded name and the hashes. *)
Definition ext4_fname_setup_ci_filename (n : Z) (iname : list Z) :
    K fs (Z * option (list Z) * (Z * Z)) :=
  s <~ kget;;
  let d := dctx s n in
  if negb (d_casefolded d) || (d_encrypted d && negb (d_has_key d))
  then kret (0, None, (0, 0)) else
  m <~ call_ptr "kmalloc" [EXT4_NAME_LEN];;
  match m with
  | PtrOk =>
      let cf := utf8_casefold iname in
      if negb (d_encrypted d) then kret (0, cf, (0, 0))
      else let '(err, h) := ext4fs_dirhash DX_HASH_SIPHASH (default iname cf) in kret (err, cf, h)
  | _ => kret (- ENOMEM, None, (0, 0))
  end.

(** [ext4_fname_setup_filename], built without CONFIG_FS_ENCRYPTION. *)
Definition ext4_fname_setup_filename (n : Z) (iname : list Z) : K fs (Z * ext4_filename) :=
  if nm_unicode then
    r <~ ext4_fname_setup_ci_filename n iname;;
    let '(err, cf, (h, mh)) := r in
    kret (err, Filename iname iname cf h mh)
  else kret (0, Filename iname iname None 0 0).

(** *** Lookup *)

Definition is_dx_internal_node (s : fs) (n block : Z) (b : list Z) : bool :=
  is_dx s n &&
  ((block =? 0) ||
   ((de_inode b 0 =? 0) && (rlen_at (dctx s n) b 0 =? s_blocksize (f_sbi s)))).

(** [ext4_bread_batch(dir, block, cnt, false, bh_use)]: each slot a buffer or, for a
    hole, NULL. *)
Fixpoint bread_slots (cnt : nat) (n block : Z) : K fs (list bool) :=
  match cnt with
  | O => kret []
  | S cnt =>
      bh <~ call_ptr "ext4_getblk" [n; block];;
      match bh with
      | PtrOk => acquire (dbh n block);;; l <~ bread_slots cnt n (block + 1);; kret (true :: l)
      | _ => l <~ bread_slots cnt n (block + 1);; kret (false :: l)
      end
  end.
Definition ext4_bread_batch (n block cnt : Z) : K fs (Z * list bool) :=
  err <~ call_int "ext4_bread_batch" [n; block; cnt];;
  if negb (err =? 0) then kret (err, [])
  else l <~ bread_slots (Z.to_nat cnt) n block;; kret (0, l).

(** [cleanup_and_exit]: the read-ahead buffers from [block] on. *)
Fixpoint brelse_slots (n block : Z) (ra : list bool) : K fs unit :=
  match ra with
  | [] => kret tt
  | present :: ra =>
      (if present : bool then brelse n block else kret tt);;; brelse_slots n (block + 1) ra
  end.

(** One pass of the [do .. while (block != start)] loop; [ra] are the buffers of the
    window from [block] on.  [inl] leaves through [cleanup_and_exit]. *)
Fixpoint find_pass (fuel : nat) (n : Z) (fname : ext4_filename) (start nblocks block : Z)
    (ra : list bool) : K fs (lookup + list bool) :=
  match fuel with
  | O => koops
  | S fuel =>
      let exit r ra := brelse_slots n (block + 1) ra;;; kret (inl r) in
      let next ra :=
        let block := if nblocks <=? block + 1 then 0 else block + 1 in
        if block =? start then kret (inr ra) else find_pass fuel n fname start nblocks block ra in
      refill <~ (match ra with
                 | [] => ext4_bread_batch n block
                           (Z.min (if block <? start then start - block else nblocks - block)
                              NAMEI_RA_SIZE)
                 | _ => kret (0, ra)
                 end);;
      let '(err, ra) := refill in
      if negb (err =? 0) then kret (inl (LErr err)) else
      match ra with
      | [] => koops
      | false :: ra => next ra
      | true :: ra =>
          uptodate <~ call_int "buffer_uptodate" [n; block];;
          if uptodate =? 0 then brelse n block;;; exit (LErr (- EIO)) ra else
          verified <~ call_int "buffer_verified" [n; block];;
          s <~ kget;;
          let b := dir_block s n block in
          if (verified =? 0) && negb (is_dx_internal_node s n block b) &&
             negb (ext4_dirblock_csum_verify (dctx s n) b)
          then brelse n block;;; exit (LErr (- EFSBADCRC)) ra else
          match search_dirblock (dctx s n) b fname with
          | None => koops
          | Some (SFound de) =>
              kmodify (upd_inode n (set_start_lookup block));;; exit (LFound block de) ra
          | Some SNone => brelse n block;;; next ra
          | Some SBad => brelse n block;;; exit LNull ra
          end
      end
  end.

(** From [restart] on; a directory that grew during the search is searched again
    from its old end. *)
Fixpoint find_restart (passes : nat) (n : Z) (fname : ext4_filename)
    (start nblocks block : Z) (ra : list bool) : K fs lookup :=
  match passes with
  | O => koops
  | S passes =>
      r <~ find_pass (Z.to_nat nblocks) n fname start nblocks block ra;;
      match r with
      | inl l => kret l
      | inr ra =>
          s <~ kget;;
          let nblocks' := Z.shiftr (i_size (inode_of s n)) (s_blocksize_bits s) in
          if nblocks <? nblocks' then find_restart passes n fname 0 nblocks' nblocks ra
          else brelse_slots n nblocks ra;;; kret LNull
      end
  end.

(** The linear search: everything after the hash tree was ruled out. *)
Definition find_linear (n : Z) (fname : ext4_filename) : K fs lookup :=
  s <~ kget;;
  let nblocks := Z.shiftr (i_size (inode_of s n)) (s_blocksize_bits s) in
  if nblocks =? 0 then kret LNull else
  let start := u32 (i_dir_start_lookup (inode_of s n)) in
  let start := if nblocks <=? start then 0 else start in
  find_restart 2 n fname start nblocks start [].

(** ".." and ".", tested as the code does. *)
Definition is_dot_name (name : list Z) : bool :=
  (Z.of_nat (length name) <=? 2) && (nth 0 name 0 =? 46) &&
  ((nth 1 name 0 =? 46) || (nth 1 name 0 =? 0)).

(** [__ext4_find_entry] *)
Definition __ext4_find_entry (n : Z) (fname : ext4_filename) : K fs lookup :=
  let name := usr_fname fname in
  if EXT4_NAME_LEN <? Z.of_nat (length name) then kret LNull else
  s <~ kget;;
  inl_found <~ (if ext4_has_inline_data s n then ext4_find_inline_entry n fname
                else kret (LNull, false));;
  let '(ret, has_inline) := inl_found in
  if has_inline : bool then kret ret else
  if is_dot_name name then find_restart 2 n fname 0 1 0 [] else
  s <~ kget;;
  if is_dx s n then
    ret <~ ext4_dx_find_entry n fname;;
    match ret with
    | LErr e => if e =? ERR_BAD_DX_DIR then find_linear n fname else kret ret
    | _ => kret ret
    end
  else find_linear n fname.

(** [ext4_find_entry] *)
Definition ext4_find_entry (n : Z) (d_name : list Z) : K fs lookup :=
  r <~ ext4_fname_setup_filename n d_name;;
  let '(err, fname) := r in
  if err =? - ENOENT then kret LNull else
  if negb (err =? 0) then kret (LErr err) else
  __ext4_find_entry n fname.

(** *** Insertion *)

(** The block with the new entry is stored: the second half of [add_dirent_to_buf]. *)
Definition add_commit (n blk : Z) (b' : list Z) : K fs Z :=
  kmodify (set_dir_block n blk b');;;
  ts <~ inode_set_ctime_current n;;
  inode_set_mtime_to_ts n ts;;;
  s <~ kget;;
  kmodify (upd_inode n (fun i => inode_inc_iversion (ext4_update_dx_flag s i)));;;
  err2 <~ ext4_mark_inode_dirty n;;
  err <~ ext4_handle_dirty_dirblock n blk;;
  kret (if negb (err =? 0) then err else err2).

(** [add_dirent_to_buf]: [de] is the record to use, or NULL to search for one. *)
Definition add_dirent_to_buf (n child blk : Z) (fname : ext4_filename) (de : option Z) : K fs Z :=
  s <~ kget;;
  let d := dctx s n in
  let blocksize := d_blocksize d in
  let csum_size := if d_csum d then sizeof_dir_entry_tail else 0 in
  let b := dir_block s n blk in
  match (match de with
         | Some de => Some (inr de)
         | None => ext4_find_dest_de d b (blocksize - csum_size) fname
         end) with
  | None => koops
  | Some (inl err) => kret err
  | Some (inr de) =>
      err <~ call_int "ext4_journal_get_write_access" [n; blk];;
      if negb (err =? 0) then kret err else
      match ext4_insert_dentry d child (i_mode (inode_of s child)) b de blocksize fname with
      | None => koops
      | Some b' => add_commit n blk b'
      end
  end.

(** [out] of [ext4_add_entry]; [bh] is the buffer still held. *)
Definition add_out (n child : Z) (bh : option Z) (retval : Z) : K fs Z :=
  (match bh with Some blk => brelse n blk | None => kret tt end);;;
  (if retval =? 0
   then kmodify (upd_inode child (fun i => ext4_set_inode_state i EXT4_STATE_NEWENTRY))
   else kret tt);;;
  kret retval.

(** [add_to_new_block] *)
Definition add_to_new_block (n child block : Z) (fname : ext4_filename) (bh : reply) : K fs Z :=
  match bh with
  | PtrErr e => add_out n child None e
  | PtrNull => koops
  | PtrOk =>
      s <~ kget;;
      let d := dctx s n in
      let blocksize := d_blocksize d in
      let b := put32 (dir_block s n block) 0 0 in
      match ext4_rec_len_to_disk d (blocksize - csum_size d) blocksize with
      | None => koops
      | Some r =>
          let b := put16 b 4 r in
          match (if d_csum d then ext4_initialize_dirent_tail d b blocksize else Some b) with
          | None => koops
          | Some b =>
              kmodify (set_dir_block n block b);;;
              retval <~ add_dirent_to_buf n child block fname (Some 0);;
              add_out n child (Some block) retval
          end
      end
  end.

(** The loop over the blocks of the directory, [k] blocks left. *)
Fixpoint add_loop (k : nat) (n child block blocks : Z) (dx_fallback : bool)
    (fname : ext4_filename) : K fs Z :=
  match k with
  | O =>
      r <~ ext4_append n;;
      let '(block, bh) := r in add_to_new_block n child block fname bh
  | S k =>
      bh <~ __ext4_read_dirblock n block DIRENT;;
      match bh with
      | PtrNull =>
          bh <~ ext4_bread n block true;;
          add_to_new_block n child block fname bh
      | PtrErr e => add_out n child None e
      | PtrOk =>
          retval <~ add_dirent_to_buf n child block fname None;;
          if negb (retval =? - ENOSPC) then add_out n child (Some block) retval else
          s <~ kget;;
          if (blocks =? 1) && negb dx_fallback && ext4_has_feature_dir_index (f_es s) then
            retval <~ make_indexed_dir n child fname;; add_out n child None retval
          else brelse n block;;; add_loop k n child (block + 1) blocks dx_fallback fname
      end
  end.

Definition add_linear (n child : Z) (dx_fallback : bool) (fname : ext4_filename) : K fs Z :=
  s <~ kget;;
  let blocks := Z.shiftr (i_size (inode_of s n)) (s_blocksize_bits s) in
  add_loop (Z.to_nat blocks) n child 0 blocks dx_fallback fname.

(** [ext4_add_entry] once the name is set up. *)
Definition add_entry_fname (n child : Z) (fname : ext4_filename) : K fs Z :=
  s <~ kget;;
  inl_added <~ (if ext4_has_inline_data s n then ext4_try_add_inline_entry n child fname
                else kret 0);;
  if inl_added <? 0 then add_out n child None inl_added else
  if inl_added =? 1 then add_out n child None 0 else
  s <~ kget;;
  if is_dx s n then
    retval <~ ext4_dx_add_entry n child fname;;
    if (retval =? 0) || negb (retval =? ERR_BAD_DX_DIR) then add_out n child None retval else
    s <~ kget;;
    if ext4_has_metadata_csum (f_sbi s) (f_es s) then add_out n child None (- EFSCORRUPTED) else
    kmodify (upd_inode n (fun i => ext4_clear_inode_flag i EXT4_INODE_INDEX));;;
    retval <~ ext4_mark_inode_dirty n;;
    if negb (retval =? 0) then add_out n child None retval else
    add_linear n child true fname
  else add_linear n child false fname.

(** [ext4_add_entry] *)
Definition ext4_add_entry (n child : Z) (name : list Z) : K fs Z :=
  nokey <~ call_int "fscrypt_is_nokey_name" [n];;
  if negb (nokey =? 0) then kret (- ENOKEY) else
  s <~ kget;;
  invalid <~ (if nm_unicode && nm_strict && d_casefolded (dctx s n)
              then call_int "utf8_validate" [n] else kret 0);;
  if negb (invalid =? 0) then kret (- EINVAL) else
  r <~ ext4_fname_setup_filename n name;;
  let '(err, fname) := r in
  if negb (err =? 0) then kret err else
  add_entry_fname n child fname.

(** *** Removal *)

(** [ext4_delete_entry] *)
Definition ext4_delete_entry (n blk de_del : Z) : K fs Z :=
  s <~ kget;;
  inl_del <~ (if ext4_has_inline_data s n then ext4_delete_inline_entry n blk de_del
              else kret (0, false));;
  let '(err, has_inline) := inl_del in
  if has_inline : bool then kret err else
  s <~ kget;;
  let d := dctx s n in
  err <~ call_int "ext4_journal_get_write_access" [n; blk];;
  if negb (err =? 0) then kret err else
  match ext4_generic_delete_entry d (dir_block s n blk) de_del (d_blocksize d) (csum_size d) with
  | None => koops
  | Some (inl err) => kret err
  | Some (inr b') =>
      kmodify (set_dir_block n blk b');;;
      kmodify (upd_inode n inode_inc_iversion);;;
      ext4_handle_dirty_dirblock n blk
  end.

(** *** Links *)

Definition ext4_inc_count (n : Z) : K fs unit :=
  inc_nlink n;;;
  s <~ kget;;
  let nlink := i_nlink (inode_of s n) in
  if is_dx s n && ((EXT4_LINK_MAX <? nlink) || (nlink =? 2))
  then kmodify (upd_inode n (set_nlink 1)) else kret tt.

Definition ext4_dec_count (n : Z) : K fs unit :=
  s <~ kget;;
  let i := inode_of s n in
  if negb (S_ISDIR (i_mode i)) || (2 <? i_nlink i) then drop_nlink n else kret tt.

(** The [retry] loop of [__ext4_link]; the reference taken by [ihold] goes to the
    dentry ([d_instantiate]). *)
Fixpoint link_loop (fuel : nat) (retries n child : Z) (name : list Z) : K fs Z :=
  match fuel with
  | O => koops
  | S fuel =>
      h <~ ext4_journal_start (nm_data_trans_blocks + nm_index_extra_blocks + 1);;
      match h with
      | PtrErr e => kret e
      | PtrNull => koops
      | PtrOk =>
          inode_set_ctime_current child;;;
          ext4_inc_count child;;;
          acquire (Ref (RInode child));;;
          err <~ ext4_add_entry n child name;;
          err <~ (if err =? 0 then
                    err <~ ext4_mark_inode_dirty child;;
                    s <~ kget;;
                    (if i_nlink (inode_of s child) =? 1
                     then call_int "ext4_orphan_del" [child] else kret 0);;;
                    release (Ref (RInode child));;;
                    kret err
                  else drop_nlink child;;; iput child;;; kret err);;
          ext4_journal_stop;;;
          if err =? - ENOSPC then
            again <~ call_int "ext4_should_retry_alloc" [retries];;
            if negb (again =? 0) then link_loop fuel (retries + 1) n child name else kret err
          else kret err
      end
  end.

Definition __ext4_link (n child : Z) (name : list Z) : K fs Z := link_loop 5 0 n child name.

(** [__ext4_unlink] *)
Definition __ext4_unlink (n : Z) (d_name : list Z) (child : Z) : K fs Z :=
  r <~ ext4_find_entry n d_name;;
  match r with
  | LErr e => kret e
  | LNull => kret (- ENOENT)
  | LFound blk de =>
      let out_bh retval := brelse n blk;;; kret retval in
      let out_handle retval := ext4_journal_stop;;; out_bh retval in
      s <~ kget;;
      let mismatch := negb (de_inode (dir_block s n blk) de =? child) in
      let replay := negb (Z.land (s_mount_state (f_sbi s)) EXT4_FC_REPLAY =? 0) in
      if mismatch && negb replay then out_bh (- ENOENT) else
      h <~ ext4_journal_start nm_data_trans_blocks;;
      match h with
      | PtrErr e => out_bh e
      | PtrNull => koops
      | PtrOk =>
          retval <~ (if mismatch then kret 0 else
            retval <~ ext4_delete_entry n blk de;;
            if negb (retval =? 0) then kret retval else
            ts <~ inode_set_ctime_current n;;
            inode_set_mtime_to_ts n ts;;;
            s <~ kget;;
            kmodify (upd_inode n (ext4_update_dx_flag s));;;
            ext4_mark_inode_dirty n);;
          if negb (retval =? 0) then out_handle retval else
          s <~ kget;;
          (if i_nlink (inode_of s child) =? 0 then kret tt else drop_nlink child);;;
          s <~ kget;;
          (if i_nlink (inode_of s child) =? 0 then call_int "ext4_orphan_add" [child] else kret 0);;;
          inode_set_ctime_current child;;;
          retval <~ ext4_mark_inode_dirty child;;
          out_handle retval
      end
  end.
End Namei.

(** ** Linear directories *)

(** A directory as a user sees it: the live entries of each block. *)
Definition blk_ok (d : dirctx) (b : list Z) (es : list dent) : Prop :=
  exists os, dirblock d b os /\ live b os = es.

(** A directory stored as a list of blocks, on a file system without hash trees. *)
Record linear `{NameiEnv} (n : Z) (s : fs) (ess : list (list dent)) : Prop := {
  lin_plain : plain (dctx s n);
  lin_geo : dir_geometry (dctx s n);
  lin_inline : ext4_has_inline_data s n = false;
  lin_nodx : ext4_has_feature_dir_index (f_es s) = false;
  lin_size : i_size (inode_of s n) =
               Z.of_nat (length (i_dir (inode_of s n))) * s_blocksize (f_sbi s);
  lin_bits : s_blocksize (f_sbi s) = 2 ^ s_blocksize_bits s;
  lin_blocks : Forall2 (blk_ok (dctx s n)) (i_dir (inode_of s n)) ess
}.

(** States in which directory [n] is the same. *)
Definition dir_same `{NameiEnv} (n : Z) (s s' : fs) : Prop :=
  f_sbi s' = f_sbi s /\ f_es s' = f_es s /\ dctx s' n = dctx s n /\
  ext4_has_inline_data s' n = ext4_has_inline_data s n /\
  i_dir (inode_of s' n) = i_dir (inode_of s n) /\ i_size (inode_of s' n) = i_size (inode_of s n).

(** Inodes other than [n] are untouched. *)
Definition others (n : Z) (s s' : fs) : Prop := forall m, m <> n -> inode_of s' m = inode_of s m.

Lemma inode_of_upd n f s m :
  inode_of (upd_inode n f s) m = if decide (m = n) then f (inode_of s n) else inode_of s m.
Proof.
  unfold inode_of, upd_inode, set_inode. simpl. destruct (decide (m = n)) as [->|Hne].
  - by rewrite lookup_total_insert_eq.
  - by rewrite lookup_total_insert_ne.
Qed.
Lemma inode_of_upd_eq n f s : inode_of (upd_inode n f s) n = f (inode_of s n).
Proof. rewrite inode_of_upd. by destruct (decide _). Qed.
Lemma inode_of_upd_ne n f s m : m <> n -> inode_of (upd_inode n f s) m = inode_of s m.
Proof. intros. rewrite inode_of_upd. by destruct (decide _). Qed.

Lemma others_upd n f s : others n s (upd_inode n f s).
Proof. intros m Hm. by apply inode_of_upd_ne. Qed.
Lemma others_refl n s : others n s s.
Proof. done. Qed.
Lemma others_trans n s1 s2 s3 : others n s1 s2 -> others n s2 s3 -> others n s1 s3.
Proof. intros H1 H2 m Hm. rewrite H2, H1 by done. done. Qed.
#[export] Hint Resolve others_upd others_refl : evfs.

Section Linear.
Context `{NameiEnv}.

Lemma dir_same_refl n s : dir_same n s s.
Proof. by split_and!. Qed.
Lemma dir_same_trans n s1 s2 s3 : dir_same n s1 s2 -> dir_same n s2 s3 -> dir_same n s1 s3.
Proof. intros (?&?&?&?&?&?) (?&?&?&?&?&?). split_and!; congruence. Qed.

Lemma linear_same n s s' ess : dir_same n s s' -> linear n s ess -> linear n s' ess.
Proof.
  intros (E1 & E2 & E3 & E4 & E5 & E6) [? ? ? ? ? ? ?].
  split; unfold s_blocksize_bits in *; rewrite ?E1, ?E2, ?E3, ?E4, ?E5, ?E6; done.
Qed.

(** An update of the inode that leaves what the directory code reads alone. *)
Definition meta (f : inode -> inode) : Prop := forall i,
  i_dir (f i) = i_dir i /\ i_size (f i) = i_size i /\ i_csum_seed (f i) = i_csum_seed i /\
  forall b, b ∈ [EXT4_INODE_ENCRYPT; EXT4_INODE_CASEFOLD; EXT4_INODE_INLINE_DATA] ->
    Z.testbit (i_flags (f i)) b = Z.testbit (i_flags i) b.

Lemma meta_same n f s : meta f -> dir_same n s (upd_inode n f s).
Proof.
  intros Hf. destruct (Hf (inode_of s n)) as (Hd & Hs & Hc & Hb).
  unfold dir_same, dctx, ext4_has_inline_data, ext4_test_inode_flag.
  rewrite inode_of_upd_eq, Hd, Hs, Hc, !Hb by set_solver. done.
Qed.

Lemma dir_same_other n m f s : m <> n -> dir_same n s (upd_inode m f s).
Proof.
  intros Hne. unfold dir_same, dctx, ext4_has_inline_data.
  rewrite !inode_of_upd_ne by done. done.
Qed.

Lemma linear_nblocks n s ess :
  linear n s ess ->
  Z.shiftr (i_size (inode_of s n)) (s_blocksize_bits s) = Z.of_nat (length ess).
Proof.
  intros Hl. rewrite (lin_size _ _ _ Hl), (lin_bits _ _ _ Hl).
  rewrite <- (Forall2_length _ _ _ (lin_blocks _ _ _ Hl)).
  unfold s_blocksize_bits. pose proof (Z.log2_nonneg (s_blocksize (f_sbi s))).
  rewrite Z.shiftr_div_pow2 by done. apply Z.div_mul. lia.
Qed.

(** The size of the directory is that of its blocks. *)
Definition sized (n : Z) (s : fs) : Prop :=
  Z.shiftr (i_size (inode_of s n)) (s_blocksize_bits s) = Z.of_nat (length (i_dir (inode_of s n))).

Lemma linear_sized n s ess : linear n s ess -> sized n s.
Proof.
  intros Hl. unfold sized. rewrite (linear_nblocks n s ess Hl).
  by rewrite (Forall2_length _ _ _ (lin_blocks _ _ _ Hl)).
Qed.

(** Storing a block. *)
Lemma dctx_set_block n blk b s : dctx (set_dir_block n blk b s) n = dctx s n.
Proof. unfold dctx, set_dir_block. by rewrite inode_of_upd_eq. Qed.

Lemma dir_block_set n blk b s :
  0 <= blk < Z.of_nat (length (i_dir (inode_of s n))) ->
  dir_block (set_dir_block n blk b s) n blk = b /\
  length (i_dir (inode_of (set_dir_block n blk b s) n)) = length (i_dir (inode_of s n)).
Proof.
  intros Hb. unfold dir_block, set_dir_block, put_block. rewrite inode_of_upd_eq. simpl.
  destruct (Z.eqb_spec blk (Z.of_nat (length (i_dir (inode_of s n))))); [lia|].
  rewrite nth_lookup, list_lookup_insert_eq, length_insert by lia. done.
Qed.

Lemma dir_block_lookup n s ess blk es :
  linear n s ess -> 0 <= blk -> ess !! Z.to_nat blk = Some es ->
  blk_ok (dctx s n) (dir_block s n blk) es /\
  (Z.to_nat blk < length (i_dir (inode_of s n)))%nat.
Proof.
  intros Hl Hb He. pose proof (lin_blocks _ _ _ Hl) as HF.
  destruct (Forall2_lookup_r _ _ _ _ _ HF He) as (b & Hbk & Hok).
  unfold dir_block. rewrite nth_lookup, Hbk. split; [done|]. by apply lookup_lt_Some in Hbk.
Qed.

Lemma linear_set_block n blk b es s ess :
  linear n s ess -> 0 <= blk -> (Z.to_nat blk < length ess)%nat -> blk_ok (dctx s n) b es ->
  linear n (set_dir_block n blk b s) (<[Z.to_nat blk := es]> ess) /\
  dir_block (set_dir_block n blk b s) n blk = b.
Proof.
  intros Hl Hb Hlt Hok. pose proof (Forall2_length _ _ _ (lin_blocks _ _ _ Hl)) as Hlen.
  assert (Hput : put_block blk b (i_dir (inode_of s n)) = <[Z.to_nat blk := b]> (i_dir (inode_of s n)))
    by (unfold put_block; destruct (Z.eqb_spec blk (Z.of_nat (length (i_dir (inode_of s n))))); [lia|done]).
  split.
  - destruct Hl as [? ? Hi ? ? ? ?]. split; try rewrite dctx_set_block; try done.
    + unfold ext4_has_inline_data, set_dir_block in *. by rewrite inode_of_upd_eq.
    + unfold set_dir_block. rewrite inode_of_upd_eq. simpl. rewrite Hput, length_insert. done.
    + unfold set_dir_block. rewrite inode_of_upd_eq. simpl. rewrite Hput. by apply Forall2_insert.
  - unfold dir_block, set_dir_block. rewrite inode_of_upd_eq. simpl. rewrite Hput.
    rewrite nth_lookup, list_lookup_insert_eq by lia. done.
Qed.
End Linear.

(** ** Adding an entry *)

(** The journal accepts what it is given; other failures (no space, unreadable blocks,
    no memory) are possible. *)
Definition journal_call (f : string) : bool :=
  existsb (String.eqb f)
    ["ext4_journal_get_write_access"; "ext4_mark_inode_dirty"; "ext4_handle_dirty_metadata"].
Definition journal_calm `{Env} : Prop := forall h f a, journal_call f = true -> env_int h f a = 0.

(** Directories have no holes. *)
Definition no_holes `{Env} : Prop := forall h a, env_ptr h "ext4_bread" a <> PtrNull.

Lemma meta_times f g : meta (fun i => set_times (f i) (g i) i).
Proof. intros i. by split_and!. Qed.

Lemma meta_size_flags s : meta (fun i => inode_inc_iversion (ext4_update_dx_flag s i)).
Proof.
  intros i. unfold inode_inc_iversion, ext4_update_dx_flag.
  destruct (_ && _); simpl; split_and!; try done.
  intros b Hb. apply Z.clearbit_neq. unfold EXT4_INODE_INDEX.
  apply elem_of_cons in Hb as [->|Hb]; [done|].
  apply elem_of_cons in Hb as [->|Hb]; [done|]. apply list_elem_of_singleton in Hb as ->. done.
Qed.

Section AddSpec.
Context `{EnvFs} `{Csum} `{NameiEnv} `{DirNamesOk} `{DirHooks}.
Hypothesis Hcalm : journal_calm.

Ltac calm_call := match goal with
  | Hc : env_int _ _ _ = ?z |- _ => rewrite Hcalm in Hc by reflexivity; subst z
  end.

Lemma wp_add_commit n blk b' es' s held calls ess (Q : Z -> world fs -> Prop) :
  linear n s ess -> 0 <= blk -> (Z.to_nat blk < length ess)%nat -> blk_ok (dctx s n) b' es' ->
  (forall s' calls, linear n s' (<[Z.to_nat blk := es']> ess) -> others n s s' ->
     ext4_dirblock_csum_verify (dctx s' n) (dir_block s' n blk) = true ->
     Q 0 (World s' held calls)) ->
  wp (add_commit n blk b') Q (World s held calls).
Proof.
  intros Hl Hb Hlt Hok HQ. unfold add_commit, inode_set_ctime_current, inode_set_mtime_to_ts,
    current_time, ext4_handle_dirty_dirblock, ext4_mark_inode_dirty.
  destruct (linear_set_block n blk b' es' s ess) as [Hl1 Hd1]; try done.
  repeat wp_step. repeat calm_call. cbn [Z.eqb negb].
  set (s1 := set_dir_block n blk b' s) in *.
  match goal with |- context [World (set_dir_block n blk _ ?x) _ _] => set (s4 := x) end.
  assert (Hs : dir_same n s1 s4 /\ others n s s4).
  { split.
    - eapply dir_same_trans; [|eapply dir_same_trans]; apply meta_same;
        [apply meta_times..|apply meta_size_flags].
    - repeat (eapply others_trans; [|apply others_upd]). apply others_refl. }
  clearbody s4. destruct Hs as [Hs Ho].
  pose proof (linear_same _ _ _ _ Hs Hl1) as Hl4. pose proof Hs as (_ & _ & Ed & _ & Edir & _).
  assert (Eb : dir_block s4 n blk = b') by (unfold dir_block in *; congruence).
  destruct Hok as (os & Hdb & Hlv). rewrite Eb.
  assert (Ed' : dctx s4 n = dctx s n) by (rewrite Ed; apply dctx_set_block).
  destruct (csum_set_dirblock (dctx s n) (lin_plain _ _ _ Hl) (lin_geo _ _ _ Hl) b' os Hdb)
    as (Hdb' & Hlv' & Hv & _).
  rewrite Ed' in *. set (b2 := ext4_dirblock_csum_set (dctx s n) b') in *.
  destruct (linear_set_block n blk b2 es' s4 (<[Z.to_nat blk:=es']> ess)) as [Hl5 Hd5];
    try done; [by rewrite length_insert| |].
  { exists os. rewrite Ed', Hlv'. done. }
  rewrite list_insert_insert_eq in Hl5. apply HQ; [done| |].
  - eapply others_trans; [exact Ho|]. apply others_upd.
  - rewrite dctx_set_block, Hd5, Ed'. done.
Qed.

(** The search for room in a block, then the insertion. *)
Lemma wp_add_dirent n child blk fname s held calls ess es (Q : Z -> world fs -> Prop) :
  let new := new_dent (dctx s n) child (i_mode (inode_of s child)) fname in
  linear n s ess -> 0 <= blk -> ess !! Z.to_nat blk = Some es ->
  name_ok fname -> 0 < child < 2 ^ 32 -> child <= s_inodes_count (f_es s) ->
  (forall err calls, err < 0 -> Q err (World s held calls)) ->
  (forall s' l1 l2 calls, es = (l1 ++ l2)%list ->
     linear n s' (<[Z.to_nat blk := (l1 ++ new :: l2)%list]> ess) -> others n s s' ->
     Q 0 (World s' held calls)) ->
  wp (add_dirent_to_buf n child blk fname None) Q (World s held calls).
Proof.
  intros new Hl Hb He Hn Hch Hm Herr HQ. unfold add_dirent_to_buf. do 2 wp_step.
  fold (csum_size (dctx s n)). fold (dir_limit (dctx s n)).
  destruct (dir_block_lookup n s ess blk es Hl Hb He) as [(os & Hdb & <-) Hlt].
  pose proof (insert_refines (dctx s n) (lin_plain _ _ _ Hl) (lin_geo _ _ _ Hl) child
                (i_mode (inode_of s child)) (dir_block s n blk) os fname Hdb Hn Hch Hm) as Hins.
  destruct (ext4_find_dest_de _ _ _ fname) as [[err|x]|]; [| |done].
  - wp_step. apply Herr. destruct Hins as [[-> _]|[-> _]]; done.
  - destruct Hins as (b' & os' & l1 & l2 & Hi & Hdb' & Hl1 & Hl2).
    do 2 wp_step. calm_call. cbn [Z.eqb negb]. rewrite Hi.
    eapply (wp_add_commit n blk b' (l1 ++ new :: l2)%list); eauto.
    + by apply lookup_lt_Some in He.
    + by exists os'.
Qed.

(** *** A new block *)

Hypothesis Hholes : no_holes.

(** The state after [ext4_append]: a cleared block, and the size that includes it. *)
Definition appended (n : Z) (s : fs) : fs :=
  let len := Z.of_nat (length (i_dir (inode_of s n))) in
  upd_inode n (set_size (i_size (inode_of s n) + s_blocksize (f_sbi s)))
    (set_dir_block n len (replicate (Z.to_nat (s_blocksize (f_sbi s))) 0) s).

Lemma bread_cases h a (P : reply -> Prop) :
  P PtrOk -> (forall e, e < 0 -> P (PtrErr e)) -> P (env_ptr h "ext4_bread" a).
Proof.
  intros Hok Herr. destruct (env_ptr h "ext4_bread" a) as [|e|] eqn:E; [done| |].
  - apply Herr. apply fs_errno in E. lia.
  - by apply Hholes in E.
Qed.

Lemma wp_append n s held calls (Q : Z * reply -> world fs -> Prop) :
  let len := Z.of_nat (length (i_dir (inode_of s n))) in
  sized n s ->
  (forall blk err calls, err < 0 -> Q (blk, PtrErr err) (World s held calls)) ->
  (forall calls, Q (len, PtrOk) (World (appended n s) (dbh n len :: held) calls)) ->
  wp (ext4_append n) Q (World s held calls).
Proof.
  intros len Hl Herr HQ. unfold ext4_append, ext4_mark_inode_dirty, brelse, dbh in *. do 2 wp_step.
  destruct (_ && _); [wp_step; by apply Herr|].
  unfold sized in Hl. rewrite !Hl. fold len. do 2 wp_step.
  destruct (z <? 0) eqn:Hz; reflect_bools; [wp_step; by apply Herr|].
  destruct (negb (z =? 0)); [wp_step; by apply Herr|].
  wp_step. unfold ext4_bread, dbh. do 2 wp_step. subst r. apply bread_cases; [|by intros; repeat wp_step; apply Herr].
  cbv iota. repeat (wp_step; cbv iota). calm_call. cbn [Z.eqb negb]. repeat wp_step.
  calm_call. cbn [Z.eqb negb]. wp_step. apply HQ.
Qed.

Lemma appended_block n s ess b es :
  let len := Z.of_nat (length (i_dir (inode_of s n))) in
  linear n s ess -> blk_ok (dctx s n) b es ->
  linear n (set_dir_block n len b (appended n s)) (ess ++ [es]) /\
  dir_block (set_dir_block n len b (appended n s)) n len = b /\
  others n s (set_dir_block n len b (appended n s)).
Proof.
  intros len Hl Hok. unfold appended. fold len.
  set (z := replicate _ 0).
  set (s1 := set_dir_block n len b _).
  assert (Hi : inode_of s1 n =
            set_dir (i_dir (inode_of s n) ++ [b])
              (set_size (i_size (inode_of s n) + s_blocksize (f_sbi s)) (inode_of s n))).
  { assert (Hput : put_block len b (put_block len z (i_dir (inode_of s n))) =
              (i_dir (inode_of s n) ++ [b])%list).
    { unfold put_block. unfold len. rewrite Z.eqb_refl, length_app. simpl.
      destruct (Z.eqb_spec (Z.of_nat (length (i_dir (inode_of s n))))
                  (Z.of_nat (length (i_dir (inode_of s n)) + 1))); [lia|].
      rewrite Nat2Z.id, insert_app_r_alt, Nat.sub_diag by lia. done. }
    unfold s1, set_dir_block. rewrite !inode_of_upd_eq. cbn [i_dir set_size set_dir].
    by rewrite Hput. }
  split_and!.
  - destruct Hl as [Hp Hg Hin Hx Hsz Hbits Hbl].
    assert (Ed : dctx s1 n = dctx s n) by (unfold dctx; rewrite Hi; done).
    split; try rewrite Ed; try done.
    + unfold ext4_has_inline_data in *. rewrite Hi. done.
    + rewrite Hi. simpl. rewrite length_app. simpl. rewrite Hsz. change (f_sbi s1) with (f_sbi s). lia.
    + rewrite Hi. simpl. apply Forall2_app; [done|]. by constructor.
  - unfold dir_block. rewrite Hi. simpl. unfold len. rewrite Nat2Z.id, nth_lookup, list_lookup_middle by done.
    done.
  - unfold s1, set_dir_block. repeat (eapply others_trans; [|apply others_upd]). apply others_refl.
Qed.

(** The block is initialised and receives the entry. *)
Lemma wp_add_to_new_block n child fname s held calls ess (Q : Z -> world fs -> Prop) :
  let len := Z.of_nat (length (i_dir (inode_of s n))) in
  let new := new_dent (dctx s n) child (i_mode (inode_of s child)) fname in
  linear n s ess -> name_ok fname -> 0 < child < 2 ^ 32 -> child <= s_inodes_count (f_es s) ->
  child <> n ->
  (forall s' calls, linear n s' (ess ++ [[new]]) -> others n s s' ->
     Q 0 (World (upd_inode child (fun i => ext4_set_inode_state i EXT4_STATE_NEWENTRY) s') held calls)) ->
  wp (add_to_new_block n child len fname PtrOk) Q (World (appended n s) (dbh n len :: held) calls).
Proof.
  intros len new Hl Hn Hch Hm Hne HQ. unfold add_to_new_block. do 2 wp_step.
  assert (Ed : dctx (appended n s) n = dctx s n)
    by (unfold dctx, appended, set_dir_block; by rewrite !inode_of_upd_eq).
  set (z := replicate (Z.to_nat (s_blocksize (f_sbi s))) 0).
  assert (Eb : dir_block (appended n s) n len = z).
  { unfold dir_block, appended, set_dir_block. rewrite !inode_of_upd_eq. simpl. fold len z.
    unfold put_block, len. rewrite Z.eqb_refl, Nat2Z.id, nth_lookup, list_lookup_middle by done. done. }
  rewrite Ed, Eb. pose proof (lin_geo _ _ _ Hl) as Hg. pose proof (lin_plain _ _ _ Hl) as Hp.
  destruct (fresh_dirblock (dctx s n) Hp Hg z) as (r & b & Er & Ebb & Hdb & Hlv & Hi0 & Hr0).
  { apply Forall_replicate. lia. }
  { unfold z. rewrite length_replicate. destruct Hg as [Hg _]. simpl in *. lia. }
  { simpl. lia. }
  rewrite Er. cbv zeta in Ebb. rewrite Ebb.
  destruct (appended_block n s ess b []) as (Hl2 & Hb2 & Ho2); [done|by exists [0]|]. fold len in Hl2, Hb2, Ho2.
  set (s2 := set_dir_block n len b (appended n s)) in *.
  assert (Hlen : Z.to_nat len = length ess).
  { unfold len. rewrite Nat2Z.id. apply (Forall2_length _ _ _ (lin_blocks _ _ _ Hl)). }
  assert (Ed2 : dctx s2 n = dctx s n) by (unfold s2; by rewrite dctx_set_block).
  do 2 wp_step. change (World (set_dir_block n len b (appended n s))) with (World s2).
  unfold add_dirent_to_buf. do 3 wp_step. rewrite Hb2, Ed2. do 2 wp_step. calm_call. cbn [Z.eqb negb].
  destruct (insert_free_record (dctx s n) Hp Hg child (i_mode (inode_of s child)) b [] 0 [] fname)
    as (b' & os' & Hins & Hdb' & Hlv'); try done.
  { rewrite Hr0. pose proof (reclen_bounds (dctx s n) Hp fname Hn) as Hrb. destruct Hn as [_ Hn].
    pose proof (dir_limit_bounds (dctx s n) Hg). unfold EXT4_NAME_LEN in Hn. unfold reclen_of.
    pose proof (dir_rec_len_bounds (dctx s n) (Z.of_nat (length (disk_name fname))) Hp ltac:(lia)) as (? & _).
    destruct Hg. lia. }
  rewrite (Ho2 child Hne), Hins.
  eapply (wp_add_commit n len b' [new]).
  - exact Hl2.
  - lia.
  - rewrite length_app. simpl. lia.
  - rewrite Ed2. by exists os'.
  - intros s3 calls' Hl3 Ho3 _. rewrite Hlen, insert_app_r_alt, Nat.sub_diag in Hl3 by lia.
    unfold add_out, brelse. repeat wp_step. cbn [Z.eqb]. repeat wp_step.
    apply HQ; [done|]. by eapply others_trans.
Qed.

(** *** The loop over the blocks *)

(** The directory with one entry more, and at least as many blocks. *)
Definition added (new : dent) (ess ess' : list (list dent)) : Prop :=
  concat ess' ≡ₚ new :: concat ess /\ (length ess <= length ess')%nat.

Lemma added_insert new ess i l1 l2 :
  ess !! i = Some (l1 ++ l2)%list -> added new ess (<[i := (l1 ++ new :: l2)%list]> ess).
Proof.
  intros Hi. split; [|by rewrite length_insert]. rewrite <- (take_drop_middle ess i _ Hi) at 2.
  rewrite insert_take_drop by (by eapply lookup_lt_Some).
  rewrite !concat_app. simpl. rewrite <- !(assoc app). simpl.
  rewrite <- !Permutation_middle. done.
Qed.

Lemma added_append new ess : added new ess (ess ++ [[new]]).
Proof.
  split; [|rewrite length_app; lia]. rewrite concat_app. simpl. by rewrite <- Permutation_cons_append.
Qed.

Lemma wp_read_dirblock n blk s held calls ess (Q : reply -> world fs -> Prop) :
  linear n s ess -> 0 <= blk < Z.of_nat (length ess) ->
  (forall e calls, e < 0 -> Q (PtrErr e) (World s held calls)) ->
  (forall calls, Q PtrOk (World s (dbh n blk :: held) calls)) ->
  wp (__ext4_read_dirblock n blk DIRENT) Q (World s held calls).
Proof.
  intros Hl Hb Herr HQ. unfold __ext4_read_dirblock, ext4_bread, brelse, dbh in *. do 2 wp_step.
  rewrite (linear_nblocks n s ess Hl). destruct (Z.leb_spec (Z.of_nat (length ess)) blk); [lia|].
  do 3 wp_step. subst r. apply bread_cases; [|by intros; repeat wp_step; apply Herr].
  cbv iota. repeat (wp_step; cbv iota).
  unfold is_dx. rewrite (lin_nodx _ _ _ Hl). cbn [andb negb is_INDEX].
  repeat wp_step. destruct (_ || _); [wp_step; apply HQ|]. cbn [orb].
  destruct (negb _); repeat wp_step; [by apply Herr|apply HQ].
Qed.

(** What a computation that adds an entry establishes: an error and nothing changed,
    or success and exactly the new entry added. *)
Definition entry_set (s : fs) (child : Z) : fs :=
  upd_inode child (fun i => ext4_set_inode_state i EXT4_STATE_NEWENTRY) s.

Lemma wp_add_loop n child blocks fname s held ess (Q : Z -> world fs -> Prop) k : forall blk calls,
  let new := new_dent (dctx s n) child (i_mode (inode_of s child)) fname in
  linear n s ess -> name_ok fname -> 0 < child < 2 ^ 32 -> child <= s_inodes_count (f_es s) ->
  child <> n -> 0 <= blk -> blk + Z.of_nat k = Z.of_nat (length ess) ->
  (forall err calls, err <> 0 -> Q err (World s held calls)) ->
  (forall s' ess' calls, linear n s' ess' -> added new ess ess' -> others n s s' ->
     Q 0 (World (entry_set s' child) held calls)) ->
  wp (add_loop k n child blk blocks false fname) Q (World s held calls).
Proof.
  induction k as [|k IH]; intros blk calls new Hl Hn Hch Hm Hne Hb Hk Herr HQ; cbn [add_loop].
  - wp_step. eapply wp_append; [by eapply linear_sized|..].
    + intros b err calls' He. unfold add_to_new_block, add_out. repeat wp_step.
      destruct (Z.eqb_spec err 0); [lia|]. repeat wp_step. apply Herr. lia.
    + intros calls'. eapply wp_add_to_new_block; try done.
      intros s' calls'' Hl' Ho. eapply HQ; [done|apply added_append|done].
  - wp_step. eapply wp_read_dirblock; [done|lia|..].
    + intros e calls' He. unfold add_out. repeat wp_step.
      destruct (Z.eqb_spec e 0); [lia|]. repeat wp_step. apply Herr. lia.
    + intros calls'. wp_step.
      destruct (lookup_lt_is_Some_2 ess (Z.to_nat blk)) as [es He]; [lia|].
      eapply (wp_add_dirent n child blk fname s _ _ ess es); try done.
      * intros err calls'' Hneg. destruct (Z.eqb_spec err (- ENOSPC)) as [->|]; cbn [negb].
        -- do 2 wp_step. rewrite (lin_nodx _ _ _ Hl), andb_false_r. unfold brelse, dbh.
           do 2 wp_step. eapply IH; try done; lia.
        -- unfold add_out, brelse, dbh. repeat wp_step. destruct (Z.eqb_spec err 0); [lia|].
           repeat wp_step. apply Herr. lia.
      * intros s' l1 l2 calls'' -> Hl' Ho. change (negb (0 =? - ENOSPC)) with true. cbv iota.
        unfold add_out, brelse, dbh. repeat wp_step. cbn [Z.eqb]. repeat wp_step.
        eapply HQ; [done|by apply added_insert|done].
Qed.

(** [ext4_add_entry] on a linear directory. *)
Lemma wp_add_entry n child name s held calls ess (Q : Z -> world fs -> Prop) :
  let fname := Filename name name None 0 0 in
  let new := new_dent (dctx s n) child (i_mode (inode_of s child)) fname in
  linear n s ess -> name_ok fname -> 0 < child < 2 ^ 32 -> child <= s_inodes_count (f_es s) ->
  child <> n ->
  (forall err calls, err <> 0 -> Q err (World s held calls)) ->
  (forall s' ess' calls, linear n s' ess' -> added new ess ess' -> others n s s' ->
     Q 0 (World (entry_set s' child) held calls)) ->
  wp (ext4_add_entry n child name) Q (World s held calls).
Proof.
  intros fname new Hl Hn Hch Hm Hne Herr HQ. unfold ext4_add_entry.
  do 2 wp_step. destruct (z =? 0) eqn:Hz; cbn [negb]; [|wp_step; by apply Herr].
  do 2 wp_step. destruct (lin_plain _ _ _ Hl) as [Hcf Hen].
  rewrite Hcf, andb_false_r. do 2 wp_step. cbn [Z.eqb negb].
  unfold ext4_fname_setup_filename, ext4_fname_setup_ci_filename.
  assert (Hlin : forall calls, wp (add_entry_fname n child fname) Q (World s held calls)).
  { intros calls'. unfold add_entry_fname. do 2 wp_step. rewrite (lin_inline _ _ _ Hl). do 2 wp_step. cbn [Z.ltb Z.compare Z.eqb].
    do 2 wp_step. unfold is_dx. rewrite (lin_nodx _ _ _ Hl). cbn [andb].
    unfold add_linear. do 2 wp_step. rewrite (linear_nblocks n s ess Hl), Nat2Z.id.
    eapply wp_add_loop; try done; lia. }
  destruct nm_unicode; wp_step.
  - do 3 wp_step. rewrite Hcf. cbn [negb orb]. wp_step. apply Hlin.
  - wp_step. apply Hlin.
Qed.

(** *** Links *)

(** [ext4_should_retry_alloc] gives up after three retries. *)
Definition retry_bounded : Prop := forall h k,
  3 <= k -> env_int h "ext4_should_retry_alloc" [k] = 0.

(** Only the directory and the child were touched. *)
Definition only2 (n child : Z) (s s' : fs) : Prop :=
  forall m, m <> n -> m <> child -> inode_of s' m = inode_of s m.

(** The child with [k] more links, otherwise only its change time and state bits differ. *)
Definition child_links (child k : Z) (s s' : fs) : Prop :=
  i_nlink (inode_of s' child) = u32 (i_nlink (inode_of s child) + k) /\
  i_mode (inode_of s' child) = i_mode (inode_of s child).

Lemma u32_undo x k : 0 <= x < 2 ^ 32 -> u32 (u32 (x + k) - k) = x.
Proof.
  intros Hx. unfold u32, wrap. rewrite Zminus_mod_idemp_l. replace (x + k - k) with x by lia.
  by apply Z.mod_small.
Qed.

Lemma wp_link_loop n child name s0 held ess (Q : Z -> world fs -> Prop) fuel :
  let fname := Filename name name None 0 0 in
  let new := new_dent (dctx s0 n) child (i_mode (inode_of s0 child)) fname in
  name_ok fname -> 0 < child < 2 ^ 32 -> child <= s_inodes_count (f_es s0) ->
  child <> n -> retry_bounded -> 0 <= i_nlink (inode_of s0 child) < 2 ^ 32 ->
  (forall err s' calls, err <> 0 -> linear n s' ess -> child_links child 0 s0 s' ->
     only2 n child s0 s' -> Q err (World s' held calls)) ->
  (forall err s' ess' calls, linear n s' ess' -> added new ess ess' -> child_links child 1 s0 s' ->
     only2 n child s0 s' -> err = 0 -> Q err (World s' held calls)) ->
  forall retries s calls,
    0 <= retries <= 3 -> 3 - retries < Z.of_nat fuel ->
    linear n s ess -> dir_same n s0 s -> child_links child 0 s0 s -> only2 n child s0 s ->
    wp (link_loop fuel retries n child name) Q (World s held calls).
Proof.
  intros fname new Hn Hch Hm Hne Hretry Hlk Herr HQ.
  induction fuel as [|fuel IH]; intros retries s calls Hr Hf Hl Hsame Hcl Ho; [lia|].
  cbn [link_loop]. wp_step. apply wp_journal_start; [|by intros; wp_step; apply Herr; [lia|..]].
  clear calls. intros calls. unfold inode_set_ctime_current, current_time, ext4_inc_count, inc_nlink.
  repeat wp_step. unfold is_dx.
  set (s1 := upd_inode child (fun i => set_nlink (u32 (i_nlink i + 1)) i) _).
  change (f_es s1) with (f_es s). rewrite (lin_nodx _ _ _ Hl). cbn [andb].
  assert (Hs1 : dir_same n s s1 /\ only2 n child s0 s1 /\ child_links child 1 s0 s1).
  { split_and!.
    - eapply dir_same_trans; [|by apply dir_same_other]. by apply dir_same_other.
    - intros m ? ?. unfold s1. rewrite !inode_of_upd_ne by done. by apply Ho.
    - destruct Hcl as [Hc1 Hc2]. unfold child_links, s1. rewrite !inode_of_upd_eq. simpl.
      rewrite Hc1, Hc2. rewrite Z.add_0_r, (u32_small (i_nlink (inode_of s0 child))) by lia. done. }
  clearbody s1. destruct Hs1 as (Hsame1 & Ho1 & Hcl1).
  repeat wp_step.
  pose proof (dir_same_trans _ _ _ _ Hsame Hsame1) as Hsame01.
  assert (Enew : new_dent (dctx s1 n) child (i_mode (inode_of s1 child)) fname = new).
  { unfold new. destruct Hsame01 as (_ & _ & -> & _). by destruct Hcl1 as [_ ->]. }
  eapply wp_add_entry; [exact (linear_same _ _ _ _ Hsame1 Hl)|done|done| |done|..].
  { destruct Hsame01 as (_ & -> & _). done. }
  - intros err calls' Hne0. destruct (Z.eqb_spec err 0); [done|].
    unfold drop_nlink, iput. repeat wp_step.
    eapply wp_journal_stop. intros _ calls''.
    set (s2 := upd_inode child _ s1).
    assert (Hs2 : linear n s2 ess /\ dir_same n s0 s2 /\ child_links child 0 s0 s2 /\ only2 n child s0 s2).
    { assert (Hs12 : dir_same n s1 s2) by by apply dir_same_other. split_and!.
      - eapply linear_same; [|exact Hl]. by eapply dir_same_trans.
      - by eapply dir_same_trans.
      - destruct Hcl1 as [Hc1 Hc2]. unfold child_links, s2. rewrite inode_of_upd_eq. simpl.
        rewrite Hc1, Hc2, u32_undo, Z.add_0_r by done. split; [|done]. by rewrite u32_small by lia.
      - intros m ? ?. unfold s2. rewrite inode_of_upd_ne by done. by apply Ho1. }
    clearbody s2. destruct Hs2 as (? & ? & ? & ?).
    destruct (Z.eqb_spec err (- ENOSPC)); [|wp_step; by apply Herr].
    wp_step. apply wp_call_int. intros again Ha. cbn [w_calls] in Ha.
    destruct (Z.eqb_spec again 0); cbn [negb]; [wp_step; by apply Herr|].
    assert (~ 3 <= retries) by (intros Hge; rewrite Hretry in Ha by done; done).
    apply IH; try done; lia.
  - intros s2 ess' calls' Hl2 Hadd Ho2. cbn [Z.eqb].
    assert (Hadd' : added new ess ess') by (rewrite <- Enew; exact Hadd).
    assert (Hs3 : linear n (entry_set s2 child) ess' /\ child_links child 1 s0 (entry_set s2 child) /\
              only2 n child s0 (entry_set s2 child)).
    { split_and!.
      - eapply linear_same; [|exact Hl2]. by apply dir_same_other.
      - destruct Hcl1 as [Hc1 Hc2]. unfold child_links, entry_set. rewrite inode_of_upd_eq. simpl.
        rewrite (Ho2 child Hne). done.
      - intros m ? ?. unfold entry_set. rewrite inode_of_upd_ne, Ho2 by done. by apply Ho1. }
    set (s3 := entry_set s2 child) in *. clearbody s3. destruct Hs3 as (? & ? & ?).
    unfold ext4_mark_inode_dirty. repeat wp_step. calm_call.
    destruct (_ =? 1); repeat wp_step; eapply wp_journal_stop; intros _ calls'';
      change (0 =? - ENOSPC) with false; cbv iota; wp_step; by eapply HQ.
Qed.
End AddSpec.
