(* ===== verification/NameiSpec.v ===== *)
(** * Looking up and removing names in linear directories (fs/ext4/namei.c)

    The lookup [ext4_find_entry] with its read-ahead window and its start at the block of
    the last hit, the removal [ext4_delete_entry], and [__ext4_unlink] built from the two,
    on directories stored as a list of blocks.  The abstract directory is the list of the
    live entries of each block ([linear] of Namei.v): the lookup searches that list, the
    removal drops one entry of it. *)

From stdpp Require Import prelude list gmap strings.
From Stdlib Require Import ZArith Lia.
From S2P Require Import Prelude Kernel Bytes Layout Fs Inode Dirent Namei.

Local Open Scope Z_scope.

(** ** What the lookup promises *)

(** No live entry of the directory, or of one block, has the name. *)
Definition absent (name : list Z) (es : list dent) : Prop := forall e, e ∈ es -> e_name e <> name.

(** The record at [de] of block [blk] is a live one with the name. *)
Definition is_record `{NameiEnv} (n : Z) (s : fs) (blk de : Z) (name : list Z) : Prop :=
  exists os, dirblock (dctx s n) (dir_block s n blk) os /\ de ∈ os /\
    is_live (dir_block s n blk) de = true /\ de_name (dir_block s n blk) de = name.

(** Every block can be read and passes its checks. *)
Definition reads_fine `{Env} : Prop := forall h a,
  env_int h "ext4_bread_batch"%string a = 0 /\ env_int h "buffer_uptodate"%string a <> 0 /\
  env_int h "buffer_verified"%string a <> 0.

(** Every block of a directory is mapped, for the read-ahead too. *)
Definition mapped `{Env} : Prop := forall h a, env_ptr h "ext4_getblk"%string a = PtrOk.

(** Why a lookup that made the calls from [h] to [h'] may report the error [e]: a read failed,
    or a block that was not verified before has a checksum that does not fit. *)
Definition read_error `{Env} `{Csum} `{NameiEnv} (n : Z) (s : fs) (ess : list (list dent)) (h h' : list call) (e : Z) : Prop :=
  (e <> 0 /\ exists blk cnt, answered h h' "ext4_bread_batch" [n; blk; cnt] e) \/
  (e = - EIO /\ exists blk, answered h h' "buffer_uptodate" [n; blk] 0) \/
  (e = - EFSBADCRC /\ exists blk, 0 <= blk < Z.of_nat (length ess) /\ answered h h' "buffer_verified" [n; blk] 0 /\
     ext4_dirblock_csum_verify (dctx s n) (dir_block s n blk) = false).

Lemma read_error_reads `{Env} `{Csum} `{NameiEnv} n s ess h h' e :
  read_error n s ess h h' e -> e <> 0 /\ ~ reads_fine.
Proof.
  intros [(He & blk & cnt & hm & _ & _ & Ha)|[(-> & blk & hm & _ & _ & Ha)|(-> & blk & _ & (hm & _ & _ & Ha) & _)]];
    (split; [done|]); intros Hf.
  - rewrite (proj1 (Hf _ _)) in Ha. by subst.
  - by apply (proj1 (proj2 (Hf hm [n; blk]))).
  - by apply (proj2 (proj2 (Hf hm [n; blk]))).
Qed.

(** The answer of a lookup in the directory [ess]. *)
Definition find_result `{Env} `{Csum} `{NameiEnv} (n : Z) (s : fs) (ess : list (list dent))
    (name : list Z) (h h' : list call) (r : lookup) : Prop :=
  match r with
  | LNull => absent name (concat ess)
  | LErr e => read_error n s ess h h' e
  | LFound blk de => 0 <= blk < Z.of_nat (length ess) /\ is_record n s blk de name
  end.

(** The buffer the caller of a lookup holds. *)
Definition found_ref (n : Z) (r : lookup) : list res :=
  match r with LFound blk _ => [dbh n blk] | _ => [] end.

(** The buffers of [k] blocks from [block] on. *)
Fixpoint window (n block : Z) (k : nat) : list res :=
  match k with O => [] | S k => dbh n block :: window n (block + 1) k end.

Lemma meta_start_lookup b : meta (set_start_lookup b).
Proof. intros i. by split_and!. Qed.

Lemma absent_app name l1 l2 : absent name (l1 ++ l2)%list <-> absent name l1 /\ absent name l2.
Proof. unfold absent. set_solver. Qed.
Lemma absent_concat name ess :
  (forall k es, ess !! k = Some es -> absent name es) -> absent name (concat ess).
Proof.
  induction ess as [|es ess IH]; intros Hall; simpl; [intros ? []%not_elem_of_nil|].
  apply absent_app. split; [by apply (Hall 0%nat)|]. apply IH. intros k. by apply (Hall (S k)).
Qed.

(** A name longer than a record can hold is nowhere. *)
Lemma long_absent d b es name :
  blk_ok d b es -> EXT4_NAME_LEN < Z.of_nat (length name) -> absent name es.
Proof.
  intros (os & (Hb & _) & <-) Hlen e He <-. unfold live in He.
  apply list_elem_of_fmap in He as (o & -> & _). cbn [e_name ent] in Hlen.
  unfold de_name in Hlen. rewrite length_gets in Hlen. pose proof (name_len_range b o Hb).
  unfold EXT4_NAME_LEN in *. lia.
Qed.

(** ** The linear search *)

Section Find.
Context `{EnvFs} `{Csum} `{NameiEnv} `{DirNamesOk} `{DirHooks}.
Hypothesis Hmapped : mapped.

Lemma wp_bread_slots n s h0 (Q : list bool -> world fs -> Prop) cnt : forall block l held calls,
  on_top l h0 held ->
  (forall held' calls', calls `suffix_of` calls' -> on_top (window n block cnt ++ l) h0 held' ->
     Q (replicate cnt true) (World s held' calls')) ->
  wp (bread_slots cnt n block) Q (World s held calls).
Proof using Hmapped.
  revert Q. induction cnt as [|cnt IH]; intros Q block l held calls Hl HQ; cbn [bread_slots].
  - wp_step. by apply HQ.
  - do 2 wp_step. rewrite Hmapped in Hc. subst r. cbv iota. unfold dbh. do 3 wp_step.
    eapply (IH _ (block + 1) (dbh n block :: l)); [by apply on_top_cons|].
    intros held' calls' Hs' Hl'. wp_step. apply HQ; [etrans; [|exact Hs']; grown|].
    eapply on_top_permutation; [|exact Hl'].
    simpl. by rewrite <- Permutation_middle.
Qed.

Lemma wp_brelse_slots n s h0 calls (Q : unit -> world fs -> Prop) k : forall block l held,
  on_top (window n block k ++ l) h0 held ->
  (forall held', on_top l h0 held' -> Q tt (World s held' calls)) ->
  wp (brelse_slots n block (replicate k true)) Q (World s held calls).
Proof.
  induction k as [|k IH]; intros block l held Hl HQ; cbn [brelse_slots replicate].
  - wp_step. by apply HQ.
  - wp_step. unfold brelse. eapply wp_release_top; [exact Hl|]. intros h Hh. by apply (IH _ l).
Qed.

(** The blocks still to be visited before the search is back at [start]. *)
Definition pending (start nblocks block j : Z) : Prop :=
  if block <? start then block <= j < start else block <= j < nblocks \/ 0 <= j < start.
Definition visits (start nblocks block : Z) : Z :=
  if block <? start then start - block else nblocks - block + start.
Definition window_end (start nblocks block : Z) : Z := if block <? start then start else nblocks.

(** What is known of the blocks already visited. *)
Definition visited_absent (name : list Z) (ess : list (list dent)) (start nblocks block : Z) : Prop :=
  forall j es, 0 <= j < nblocks -> ~ pending start nblocks block j ->
    ess !! Z.to_nat j = Some es -> absent name es.

Section Pass.
Variables (n : Z) (s : fs) (ess : list (list dent)) (name : list Z) (h0 : list res) (nblocks : Z) (c0 : list call).
Variable Q : lookup + list bool -> world fs -> Prop.
Abbreviation fname := (Filename name name None 0 0).
Hypothesis Hl : linear n s ess.
Hypothesis Herr : forall e held calls, c0 `suffix_of` calls -> read_error n s ess c0 calls e -> held = h0 ->
  Q (inl (LErr e)) (World s held calls).
Hypothesis Hfound : forall blk de calls, c0 `suffix_of` calls -> 0 <= blk < Z.of_nat (length ess) ->
  is_record n s blk de name ->
  Q (inl (LFound blk de)) (World (upd_inode n (set_start_lookup blk) s) (dbh n blk :: h0) calls).

Hypothesis Hnone : forall calls, c0 `suffix_of` calls ->
  (forall j es, 0 <= j < nblocks -> ess !! Z.to_nat j = Some es -> absent name es) ->
  Q (inr []) (World s h0 calls).

(** [cleanup_and_exit]: the rest of the window is released. *)
Lemma wp_find_exit r block k l s' held calls :
  on_top (window n (block + 1) k ++ l) h0 held ->
  (forall held', on_top l h0 held' -> Q (inl r) (World s' held' calls)) ->
  wp (brelse_slots n (block + 1) (replicate k true);;; kret (inl r)) Q (World s' held calls).
Proof using.
  intros Ht HQ. wp_step. eapply wp_brelse_slots; [exact Ht|]. intros held' Hh. wp_step. by apply HQ.
Qed.

Lemma on_top_single r held : on_top [r] h0 held -> held = r :: h0.
Proof using. intros (l & -> & Hp). by apply Permutation_singleton_r in Hp as ->. Qed.

(** One block of the window: read, checked and searched. *)
Lemma wp_find_block block k held calls next :
  0 <= block < Z.of_nat (length ess) ->
  on_top (dbh n block :: window n (block + 1) k) h0 held -> c0 `suffix_of` calls ->
  (forall es held' calls, ess !! Z.to_nat block = Some es -> absent name es -> c0 `suffix_of` calls ->
     on_top (window n (block + 1) k) h0 held' -> wp next Q (World s held' calls)) ->
  wp (uptodate <~ call_int "buffer_uptodate"%string [n; block];;
      if uptodate =? 0
      then brelse n block;;; brelse_slots n (block + 1) (replicate k true);;; kret (inl (LErr (- EIO)))
      else
        verified <~ call_int "buffer_verified"%string [n; block];;
        s <~ kget;;
        if (verified =? 0) && negb (is_dx_internal_node s n block (dir_block s n block)) &&
           negb (ext4_dirblock_csum_verify (dctx s n) (dir_block s n block))
        then brelse n block;;; brelse_slots n (block + 1) (replicate k true);;; kret (inl (LErr (- EFSBADCRC)))
        else match search_dirblock (dctx s n) (dir_block s n block) fname with
             | None => koops
             | Some (SFound de) =>
                 kmodify (upd_inode n (set_start_lookup block));;;
                 brelse_slots n (block + 1) (replicate k true);;; kret (inl (LFound block de))
             | Some SNone => brelse n block;;; next
             | Some SBad =>
                 brelse n block;;; brelse_slots n (block + 1) (replicate k true);;; kret (inl LNull)
             end) Q (World s held calls).
Proof.
  intros Hb Ht Hc0 Hnext.
  assert (Hfail : forall e calls, c0 `suffix_of` calls -> read_error n s ess c0 calls e ->
    wp (brelse n block;;; brelse_slots n (block + 1) (replicate k true);;; kret (inl (LErr e)))
      Q (World s held calls)).
  { intros e calls' Hs' Hr. wp_step. unfold brelse. eapply wp_release_top; [exact Ht|]. intros h Hh.
    eapply (wp_find_exit _ _ _ []); [by rewrite app_nil_r|]. intros held' ->%on_top_nil. by apply Herr. }
  do 2 wp_step. destruct (Z.eqb_spec z 0) as [->|Hz].
  { apply Hfail; [grown|]. right; left. split; [done|]. exists block. by apply answered_last. }
  do 2 wp_step. do 2 wp_step. destruct (_ && _ && _) eqn:Hver.
  { apply Hfail; [grown|]. apply andb_true_iff in Hver as [Hver Hcs%negb_true_iff].
    apply andb_true_iff in Hver as [Hv%Z.eqb_eq _]. subst. right; right. split; [done|]. exists block.
    split_and!; [lia|lia|by apply answered_last; grown|done]. }
  destruct (lookup_lt_is_Some_2 ess (Z.to_nat block)) as [es He]; [lia|].
  destruct (dir_block_lookup n s ess block es Hl ltac:(lia) He) as [(os & Hdb & Hes) _].
  pose proof Hdb as (Hbo & Hlen & Hc' & Htl).
  unfold search_dirblock, ext4_search_dir. destruct (lin_geo _ _ _ Hl).
  rewrite (search_chain (dctx s n) (lin_plain _ _ _ Hl) _ fname os) by (done || lia).
  pose proof (first_match_spec (dctx s n) (lin_plain _ _ _ Hl) fname (dir_block s n block) os) as Hm.
  destruct (first_match _ _ _ _) as [| |de]; [done| |].
  - wp_step. unfold brelse. eapply wp_release_top; [exact Ht|]. intros h Hh.
    apply (Hnext es); [done| |grown|done]. by rewrite <- Hes.
  - do 2 wp_step. eapply (wp_find_exit _ _ _ [dbh n block]).
    + eapply on_top_permutation; [|exact Ht]. by rewrite <- Permutation_cons_append.
    + intros held' ->%on_top_single. apply Hfound; [grown|lia|]. exists os. destruct Hm as (? & ? & ?).
      by split_and!.
Qed.

(** After the block, the others pending stay pending. *)
Lemma visited_next start block es :
  0 <= start < nblocks -> 0 <= block < nblocks ->
  visited_absent name ess start nblocks block ->
  ess !! Z.to_nat block = Some es -> absent name es ->
  let block' := if nblocks <=? block + 1 then 0 else block + 1 in
  if block' =? start
  then (window_end start nblocks block = block + 1 /\
        forall j es, 0 <= j < nblocks -> ess !! Z.to_nat j = Some es -> absent name es)
  else (visited_absent name ess start nblocks block' /\ 0 <= block' < nblocks /\
        visits start nblocks block' = visits start nblocks block - 1 /\
        (block' = block + 1 /\ window_end start nblocks block' = window_end start nblocks block \/
         window_end start nblocks block = block + 1)).
Proof using.
  intros Hs Hb Hv He Ha block'.
  assert (Hj : forall j es, 0 <= j < nblocks -> (j = block \/ ~ pending start nblocks block j) ->
             ess !! Z.to_nat j = Some es -> absent name es).
  { intros j es' Hj [->|Hp] He'; [|by eapply Hv]. rewrite He in He'. by injection He' as <-. }
  unfold visited_absent, pending, visits, window_end in *. subst block'.
  destruct (Z.leb_spec nblocks (block + 1)), (Z.ltb_spec block start); try lia;
    (case_match eqn:E; reflect_bools);
    repeat match goal with |- context [?a <? ?b] => destruct (Z.ltb_spec a b) end; try lia.
  all: split_and?; try lia.
  all: intros j es' Hr; try (intros Hp He'); try intros He'; eapply Hj; eauto; lia.
Qed.

(** The search visits the pending blocks one by one. *)
Lemma wp_find_pass start fuel : forall block k held calls,
  0 <= start < nblocks -> 0 <= block < nblocks -> nblocks <= Z.of_nat (length ess) ->
  (block + Z.of_nat k <= window_end start nblocks block) ->
  visits start nblocks block <= Z.of_nat fuel ->
  visited_absent name ess start nblocks block ->
  on_top (window n block k) h0 held -> c0 `suffix_of` calls ->
  wp (find_pass fuel n fname start nblocks block (replicate k true)) Q (World s held calls).
Proof.
  induction fuel as [|fuel IH]; intros block k held calls Hs Hb Hn Hk Hf Hv Ht Hc0.
  { unfold visits in Hf. destruct (Z.ltb_spec block start); lia. }
  cbn [find_pass].
  match goal with |- wp (kbind ?m ?f) _ _ => set (cont := f) end.
  assert (Hcont : forall k held calls, block + Z.of_nat (S k) <= window_end start nblocks block ->
    on_top (window n block (S k)) h0 held -> c0 `suffix_of` calls -> wp (cont (0, replicate (S k) true)) Q (World s held calls)).
  { clear k held calls Hk Ht Hc0. intros k held calls Hk Ht Hc0. unfold cont. cbn [Z.eqb negb replicate].
    apply (wp_find_block block k); [lia|exact Ht|done|].
    intros es held' calls' He Ha Hc0' Ht'.
    pose proof (visited_next start block es Hs Hb Hv He Ha) as Hnext. cbv zeta in Hnext.
    destruct (_ =? start).
    - destruct Hnext as [Hend Hall]. assert (k = 0)%nat as -> by lia.
      apply on_top_nil in Ht' as ->. wp_step. by apply Hnone.
    - destruct Hnext as (Hv' & Hb' & Hvis & [[E Hend]|Hend]).
      + rewrite E in Hv', Hb', Hvis, Hend |- *. apply IH; try done; lia.
      + assert (k = 0)%nat as -> by lia.
        apply (IH _ 0%nat); try done; try lia. unfold window_end in *.
        set (block' := if nblocks <=? block + 1 then 0 else block + 1) in *.
        destruct (Z.ltb_spec block' start); lia. }
  destruct k as [|k]; cbn [replicate].
  - wp_step. unfold ext4_bread_batch. do 2 wp_step. destruct (Z.eqb_spec z 0) as [->|Hz]; cbn [negb].
    2:{ wp_step. unfold cont. destruct (Z.eqb_spec z 0); [done|]. cbn [negb]. wp_step.
        apply on_top_nil in Ht. apply Herr; [grown| |done]. left. split; [done|].
        eexists _, _. by apply answered_last. }
    wp_step. set (cnt := Z.min _ _).
    assert (Hcnt : 1 <= cnt /\ block + cnt <= window_end start nblocks block).
    { subst cnt. unfold NAMEI_RA_SIZE, window_end. destruct (Z.ltb_spec block start); lia. }
    eapply (wp_bread_slots _ _ h0 _ _ _ []); [exact Ht|]. intros held' calls' Hc0' Ht'. wp_step.
    rewrite app_nil_r in Ht'. destruct (Z.to_nat cnt) as [|k] eqn:Ek; [lia|].
    apply Hcont; [lia|done|etrans; [|exact Hc0']; grown].
  - wp_step. by apply Hcont.
Qed.
End Pass.

(** The state after a lookup: a hit is remembered as the place to start the next one. *)
Definition looked (n : Z) (r : lookup) (s : fs) : fs :=
  match r with LFound blk _ => upd_inode n (set_start_lookup blk) s | _ => s end.

Section Restart.
Variables (n : Z) (s : fs) (ess : list (list dent)) (name : list Z) (h0 : list res) (c0 : list call).
Variable Q : lookup -> world fs -> Prop.
Abbreviation fname := (Filename name name None 0 0).
Hypothesis Hl : linear n s ess.
Hypothesis HQ : forall r calls, c0 `suffix_of` calls -> find_result n s ess name c0 calls r ->
  Q r (World (looked n r s) (found_ref n r ++ h0) calls).

(** A directory longer than the range searched is searched again from its end. *)
Lemma wp_find_restart passes : forall start nblocks block calls,
  0 <= start < nblocks -> 0 <= block < nblocks -> nblocks <= Z.of_nat (length ess) ->
  (if nblocks =? Z.of_nat (length ess) then 1 else 2) <= Z.of_nat passes ->
  visited_absent name ess start nblocks block -> c0 `suffix_of` calls ->
  wp (find_restart passes n fname start nblocks block []) Q (World s h0 calls).
Proof.
  induction passes as [|passes IH]; intros start nblocks block calls Hs Hb Hn Hp Hv Hc0;
    [destruct (_ =? _); lia|].
  cbn [find_restart]. wp_step. apply (wp_find_pass n s ess name h0 nblocks c0 _ Hl) with (k := 0%nat);
    try done; try lia.
  - intros e held calls' Hs' Hr ->. wp_step. by apply (HQ (LErr e)).
  - intros blk de calls' Hs' Hblk Hrec. wp_step. by apply (HQ (LFound blk de)).
  - intros calls' Hc1 Hall. do 2 wp_step. rewrite (linear_nblocks n s ess Hl).
    destruct (Z.ltb_spec nblocks (Z.of_nat (length ess))).
    + apply IH; try lia.
      * rewrite Z.eqb_refl. destruct (Z.eqb_spec nblocks (Z.of_nat (length ess))); lia.
      * intros j es Hj Hpend He. unfold pending in Hpend.
        destruct (Z.ltb_spec nblocks 0); [lia|]. eapply Hall; [|done]. lia.
      * done.
    + cbn [brelse_slots]. do 2 wp_step. apply (HQ LNull); [done|]. apply absent_concat. intros k es Hk.
      apply (Hall (Z.of_nat k)); [|by rewrite Nat2Z.id]. apply lookup_lt_Some in Hk. lia.
  - unfold window_end. destruct (Z.ltb_spec block start); lia.
  - unfold visits. destruct (Z.ltb_spec block start); lia.
  - by apply on_top_nil.
Qed.

Lemma visited_start start nblocks : 0 <= start < nblocks -> visited_absent name ess start nblocks start.
Proof using.
  intros Hs j es Hj Hp. destruct Hp. unfold pending. rewrite Z.ltb_irrefl. lia.
Qed.

Lemma wp_find_linear calls :
  c0 `suffix_of` calls -> wp (find_linear n fname) Q (World s h0 calls).
Proof.
  intros Hc0. unfold find_linear. do 2 wp_step. rewrite (linear_nblocks n s ess Hl).
  destruct (Z.eqb_spec (Z.of_nat (length ess)) 0) as [E|Hne].
  { wp_step. destruct ess; [|done]. apply (HQ LNull); [done|]. intros ? []%not_elem_of_nil. }
  set (start := if _ <=? _ then _ else _).
  assert (0 <= start < Z.of_nat (length ess)) by (pose proof (u32_range (i_dir_start_lookup (inode_of s n))); subst start; case_match; lia).
  apply wp_find_restart; try done; [by rewrite Z.eqb_refl|by apply visited_start].
Qed.

(** [__ext4_find_entry] and [ext4_find_entry] on a linear directory. *)
Lemma wp_find_fname calls :
  (0 < length ess)%nat -> c0 `suffix_of` calls ->
  wp (__ext4_find_entry n fname) Q (World s h0 calls).
Proof.
  intros Hne Hc0. unfold __ext4_find_entry. cbn [usr_fname].
  destruct (Z.ltb_spec EXT4_NAME_LEN (Z.of_nat (length name))) as [Hlong|_].
  { wp_step. apply (HQ LNull); [done|]. apply absent_concat. intros k es Hk.
    destruct (Forall2_lookup_r _ _ _ _ _ (lin_blocks _ _ _ Hl) Hk) as (b & _ & Hok).
    by eapply long_absent. }
  do 2 wp_step. rewrite (lin_inline _ _ _ Hl). do 2 wp_step. destruct (is_dot_name name).
  - apply wp_find_restart; try lia.
    + destruct (_ =? _); lia.
    + apply visited_start. lia.
    + done.
  - do 2 wp_step. unfold is_dx. rewrite (lin_nodx _ _ _ Hl). cbn [andb]. by apply wp_find_linear.
Qed.

Lemma wp_setup_filename s' held calls (P : Z * ext4_filename -> world fs -> Prop) :
  plain (dctx s' n) -> P (0, fname) (World s' held calls) ->
  wp (ext4_fname_setup_filename n name) P (World s' held calls).
Proof using.
  intros [Hcf _] HP. unfold ext4_fname_setup_filename, ext4_fname_setup_ci_filename.
  destruct nm_unicode; [|by wp_step]. do 3 wp_step. rewrite Hcf. cbn [negb orb]. by do 2 wp_step.
Qed.

Lemma wp_find_entry calls :
  (0 < length ess)%nat -> c0 `suffix_of` calls ->
  wp (ext4_find_entry n name) Q (World s h0 calls).
Proof.
  intros Hne Hc0. unfold ext4_find_entry. wp_step.
  apply wp_setup_filename; [apply (lin_plain _ _ _ Hl)|]. change (0 =? - ENOENT) with false.
  cbn [Z.eqb negb]. by apply wp_find_fname.
Qed.
End Restart.

(** C25: looking up a name in a well-formed linear directory (the feature dir_index is off, no
    inline data, names neither encrypted nor casefolded) returns, whatever block the last hit was
    in: it answers the record of a live entry with that name and holds its buffer only, or
    nothing when no entry of any block has the name.  It reports an error only when, among the
    calls of this very lookup, the read of a batch of its blocks answered that error, a block
    was not up to date after the read (EIO), or a block that had not been verified has a
    checksum that does not fit (EFSBADCRC).  Every block of the directory is mapped. *)
Theorem find_entry_correct n name w ess :
  linear n (w_st w) ess -> (0 < length ess)%nat ->
  wp (ext4_find_entry n name) (fun r w' =>
    find_result n (w_st w) ess name (w_calls w) (w_calls w') r /\ w_held w' = found_ref n r ++ w_held w /\
    w_st w' = looked n r (w_st w)) w.
Proof.
  intros Hl Hne. destruct w as [s h0 calls]. simpl in *.
  eapply (wp_find_entry n s ess name h0 calls); done.
Qed.
End Find.

(** ** Removing a name *)

(** The directory with one entry less. *)
Definition removed (e : dent) (ess ess' : list (list dent)) : Prop :=
  concat ess ≡ₚ e :: concat ess'.

Lemma removed_insert e ess i l1 l2 :
  ess !! i = Some (l1 ++ e :: l2) -> removed e ess (<[i := l1 ++ l2]> ess).
Proof.
  intros Hi. unfold removed. rewrite <- (take_drop_middle ess i _ Hi) at 1.
  rewrite insert_take_drop by (by eapply lookup_lt_Some).
  rewrite !concat_app. simpl. rewrite <- !(assoc app). simpl.
  rewrite <- !Permutation_middle. done.
Qed.

(** The records of a block are determined by its bytes. *)
Lemma chain_fun d b o e os : chain d b o e os -> forall os', chain d b o e os' -> os = os'.
Proof.
  induction 1 as [o|o e os Hok Hc IH]; intros os' Hc'; inversion Hc' as [|? ? ? Hok' Hc2]; subst; try done.
  - apply chain_le in Hc2. destruct Hok' as (? & _). lia.
  - apply chain_le in Hc. destruct Hok as (? & _). lia.
  - f_equal. by apply IH.
Qed.

Lemma meta_dx_flag s : meta (ext4_update_dx_flag s).
Proof. intros i. destruct (meta_size_flags s i) as (? & ? & ? & ?). by split_and!. Qed.

Lemma meta_iversion : meta inode_inc_iversion.
Proof. intros i. by split_and!. Qed.

Section Remove.
Context `{EnvFs} `{Csum} `{NameiEnv} `{DirNamesOk} `{DirHooks}.
Hypothesis Hcalm : journal_calm.

Ltac calm_call := match goal with
  | Hc : env_int _ _ _ = ?z |- _ => rewrite Hcalm in Hc by reflexivity; subst z
  end.

(** The link count and the mode of inode [n], and the super blocks, stay. *)
Definition links (n : Z) (s s' : fs) : Prop :=
  i_nlink (inode_of s' n) = i_nlink (inode_of s n) /\ i_mode (inode_of s' n) = i_mode (inode_of s n) /\
  f_sbi s' = f_sbi s /\ f_es s' = f_es s.

Lemma links_set_block n blk b s : links n s (set_dir_block n blk b s).
Proof using. unfold links, set_dir_block. by rewrite inode_of_upd_eq. Qed.
Lemma links_trans n s1 s2 s3 : links n s1 s2 -> links n s2 s3 -> links n s1 s3.
Proof using. intros (? & ? & ? & ?) (? & ? & ? & ?). split_and!; congruence. Qed.

(** A block is handed to the journal with its checksum. *)
Lemma wp_dirty_linear n blk es s held calls ess (Q : Z -> world fs -> Prop) :
  linear n s ess -> 0 <= blk -> ess !! Z.to_nat blk = Some es ->
  (forall s' calls, linear n s' ess -> others n s s' -> links n s s' -> Q 0 (World s' held calls)) ->
  wp (ext4_handle_dirty_dirblock n blk) Q (World s held calls).
Proof.
  intros Hl Hb He HQ. unfold ext4_handle_dirty_dirblock. repeat wp_step. calm_call.
  destruct (dir_block_lookup n s ess blk es Hl Hb He) as [(os & Hdb & Hes) _].
  destruct (csum_set_dirblock (dctx s n) (lin_plain _ _ _ Hl) (lin_geo _ _ _ Hl) _ os Hdb)
    as (Hdb' & Hlv' & _).
  destruct (linear_set_block n blk (ext4_dirblock_csum_set (dctx s n) (dir_block s n blk)) es s ess Hl)
    as [Hl' _]; [done|by apply lookup_lt_Some in He|by exists os; rewrite Hlv'|].
  rewrite list_insert_id in Hl' by done. apply HQ; [done|apply others_upd|apply links_set_block].
Qed.

(** [ext4_delete_entry] of a live record. *)
Lemma wp_delete_entry n blk de name s held calls ess (Q : Z -> world fs -> Prop) :
  linear n s ess -> 0 <= blk < Z.of_nat (length ess) -> is_record n s blk de name ->
  (forall s' ess' calls, linear n s' ess' -> removed (ent (dir_block s n blk) de) ess ess' ->
     others n s s' -> links n s s' -> Q 0 (World s' held calls)) ->
  wp (ext4_delete_entry n blk de) Q (World s held calls).
Proof.
  intros Hl Hb (os & Hdb & Hin & Hlive & Hname) HQ. unfold ext4_delete_entry.
  do 2 wp_step. rewrite (lin_inline _ _ _ Hl). do 2 wp_step. do 2 wp_step. do 2 wp_step.
  calm_call. cbn [Z.eqb negb].
  destruct (lookup_lt_is_Some_2 ess (Z.to_nat blk)) as [es He]; [lia|].
  destruct (dir_block_lookup n s ess blk es Hl ltac:(lia) He) as [(os0 & Hdb0 & Hes) _].
  assert (os0 = os) as ->.
  { destruct Hdb0 as (_ & _ & Hc0 & _), Hdb as (_ & _ & Hc1 & _). by eapply chain_fun. }
  apply list_elem_of_split in Hin as (os1 & os2 & ->).
  destruct (delete_refines (dctx s n) (lin_plain _ _ _ Hl) (lin_geo _ _ _ Hl) _ _ de Hdb) as [Hdel _].
  destruct (Hdel os1 os2 eq_refl) as (b' & os' & -> & Hdb' & Hlv'). do 3 wp_step.
  destruct (linear_set_block n blk b' (live (dir_block s n blk) os1 ++ live (dir_block s n blk) os2) s ess Hl)
    as [Hl' _]; [lia|lia|by exists os'|].
  wp_step. set (s1 := set_dir_block n blk b' s) in *.
  eapply wp_dirty_linear.
  - eapply linear_same; [apply meta_same, meta_iversion|exact Hl'].
  - lia.
  - rewrite list_lookup_insert_eq by lia. reflexivity.
  - intros s' calls' Hl2 Ho Hk. eapply HQ; [exact Hl2| | |].
    + apply removed_insert. rewrite He, <- Hes, live_app, live_cons, Hlive. done.
    + eapply others_trans; [|exact Ho]. eapply others_trans; apply others_upd.
    + eapply links_trans; [|exact Hk]. unfold links, s1, set_dir_block. by rewrite !inode_of_upd_eq.
Qed.

(** [ext4_delete_entry] at a place that may not be a record any more. *)
Lemma wp_delete_any n blk x s held calls ess (Q : Z -> world fs -> Prop) :
  linear n s ess -> 0 <= blk < Z.of_nat (length ess) -> de_inode (dir_block s n blk) x <> 0 ->
  (forall calls, Q (- ENOENT) (World s held calls)) ->
  (forall s' ess' calls, linear n s' ess' -> removed (ent (dir_block s n blk) x) ess ess' ->
     others n s s' -> links n s s' -> Q 0 (World s' held calls)) ->
  wp (ext4_delete_entry n blk x) Q (World s held calls).
Proof.
  intros Hl Hb Hx Hno HQ.
  destruct (lookup_lt_is_Some_2 ess (Z.to_nat blk)) as [es He]; [lia|].
  destruct (dir_block_lookup n s ess blk es Hl ltac:(lia) He) as [(os & Hdb & Hes) _].
  destruct (decide (x ∈ os)) as [Hin|Hout].
  - eapply wp_delete_entry; [done|done| |done]. exists os. split_and!; try done.
    unfold is_live. by rewrite (proj2 (Z.eqb_neq _ _) Hx).
  - unfold ext4_delete_entry. do 2 wp_step. rewrite (lin_inline _ _ _ Hl). do 2 wp_step. do 2 wp_step.
    do 2 wp_step. calm_call. cbn [Z.eqb negb].
    destruct (delete_refines (dctx s n) (lin_plain _ _ _ Hl) (lin_geo _ _ _ Hl) _ _ x Hdb) as [_ Hdel].
    rewrite (Hdel Hout). wp_step. apply Hno.
Qed.

(** Why an unlink of the name, with the calls from [h] to [h'], may answer the error [err]. *)
Definition unlink_refused (n : Z) (s : fs) (child : Z) (name : list Z) (ess : list (list dent)) (h h' : list call) (err : Z) : Prop :=
  read_error n s ess h h' err \/
  (exists a, answered_ptr h h' "ext4_journal_start" a (PtrErr err)) \/
  err = - ENOENT /\
    (absent name (concat ess) \/
     exists e, e ∈ concat ess /\ e_name e = name /\ e_ino e <> child).

(** The record found is an entry of the directory. *)
Lemma record_entry n blk de name s ess :
  linear n s ess -> 0 <= blk < Z.of_nat (length ess) -> is_record n s blk de name ->
  ent (dir_block s n blk) de ∈ concat ess /\ e_name (ent (dir_block s n blk) de) = name.
Proof using.
  intros Hl Hb (os & Hdb & Hin & Hlive & Hname). split; [|done].
  destruct (lookup_lt_is_Some_2 ess (Z.to_nat blk)) as [es He]; [lia|].
  destruct (dir_block_lookup n s ess blk es Hl ltac:(lia) He) as [(os0 & Hdb0 & <-) _].
  assert (os0 = os) as ->.
  { destruct Hdb0 as (_ & _ & Hc0 & _), Hdb as (_ & _ & Hc1 & _). by eapply chain_fun. }
  apply list_elem_of_In, in_concat. exists (live (dir_block s n blk) os).
  split; [by apply list_elem_of_In, (list_elem_of_lookup_2 _ _ _ He)|].
  apply list_elem_of_In. unfold live. apply list_elem_of_fmap. exists de. split; [done|].
  apply list_elem_of_filter. by rewrite Hlive.
Qed.

Lemma looked_same n r s : dir_same n s (looked n r s) /\ others n s (looked n r s).
Proof using.
  destruct r; simpl; try (split; [apply dir_same_refl|apply others_refl]).
  split; [apply meta_same, meta_start_lookup|apply others_upd].
Qed.
(** The part of the inode that the removal of one of its names does not touch. *)
Definition unlinked (child : Z) (s s' : fs) : Prop :=
  let k := i_nlink (inode_of s child) in
  i_nlink (inode_of s' child) = (if k =? 0 then 0 else u32 (k - 1)) /\
  i_mode (inode_of s' child) = i_mode (inode_of s child) /\
  i_dir (inode_of s' child) = i_dir (inode_of s child) /\
  i_size (inode_of s' child) = i_size (inode_of s child).

(** The times and the index flag of the directory. *)
Lemma touch_dir n ts s :
  let s1 := upd_inode n (fun i => set_times ts (i_ctime i) i)
              (upd_inode n (fun i => set_times (i_mtime i) ts i) s) in
  let s' := upd_inode n (ext4_update_dx_flag s1) s1 in
  dir_same n s s' /\ others n s s'.
Proof using.
  intros s1 s'. split.
  - eapply dir_same_trans; [|apply meta_same, meta_dx_flag].
    eapply dir_same_trans; apply meta_same; apply meta_times.
  - repeat (eapply others_trans; [|apply others_upd]). apply others_refl.
Qed.

(** The link count is lowered, the inode put on the orphan list when none is left, and
    the handle and the buffer are given back. *)
Lemma wp_unlink_child n child blk s h0 calls (Q : Z -> world fs -> Prop) :
  child <> n ->
  (forall s' calls, unlinked child s s' -> others child s s' -> dir_same n s s' ->
     Q 0 (World s' h0 calls)) ->
  wp (s <~ kget;;
      (if i_nlink (inode_of s child) =? 0 then kret tt else drop_nlink child);;;
      s <~ kget;;
      (if i_nlink (inode_of s child) =? 0 then call_int "ext4_orphan_add"%string [child] else kret 0);;;
      inode_set_ctime_current child;;;
      retval <~ ext4_mark_inode_dirty child;;
      ext4_journal_stop;;; brelse n blk;;; kret retval) Q
    (World s (Ref RHandle :: dbh n blk :: h0) calls).
Proof.
  intros Hcn HQ. unfold inode_set_ctime_current, current_time, ext4_mark_inode_dirty, drop_nlink, brelse, dbh.
  do 3 wp_step. apply (wp_mono _ (fun _ w => exists s1, w = World s1 (Ref RHandle :: dbh n blk :: h0) calls /\
    unlinked child s s1 /\ others child s s1 /\ dir_same n s s1)).
  { destruct (Z.eqb_spec (i_nlink (inode_of s child)) 0) as [E|E]; wp_step; eexists; (split; [reflexivity|]);
      (split; [|split; [apply others_refl || apply others_upd|
                        apply dir_same_refl || by apply dir_same_other]]); unfold unlinked.
    - by rewrite E.
    - rewrite (proj2 (Z.eqb_neq _ _) E), inode_of_upd_eq. done. }
  intros _ w (s1 & -> & Hu & Ho & Hs). do 3 wp_step.
  apply (wp_mono _ (fun _ w => exists calls, w = World s1 (Ref RHandle :: dbh n blk :: h0) calls)).
  { destruct (_ =? 0); wp_step; eauto. }
  intros _ w (calls1 & ->). repeat wp_step. calm_call. eapply wp_journal_stop. intros _ calls2.
  unfold dbh. repeat wp_step. apply HQ.
  - unfold unlinked in *. rewrite inode_of_upd_eq. done.
  - eapply others_trans; [exact Ho|apply others_upd].
  - eapply dir_same_trans; [exact Hs|by apply dir_same_other].
Qed.

Lemma wp_unlink n child name s h0 calls ess (Q : Z -> world fs -> Prop) :
  mapped -> linear n s ess -> (0 < length ess)%nat ->
  child <> n -> Z.land (s_mount_state (f_sbi s)) EXT4_FC_REPLAY = 0 ->
  (forall err s' calls', err <> 0 -> unlink_refused n s child name ess calls calls' err -> linear n s' ess ->
     others n s s' -> Q err (World s' h0 calls')) ->
  (forall s' e ess' calls, linear n s' ess' -> removed e ess ess' -> e_name e = name ->
     e_ino e = child -> unlinked child s s' -> only2 n child s s' -> Q 0 (World s' h0 calls)) ->
  wp (__ext4_unlink n name child) Q (World s h0 calls).
Proof.
  intros Hmap Hl Hne Hcn Hrep Herr HQ. unfold __ext4_unlink. wp_step.
  eapply (wp_find_entry Hmap n s ess name h0 calls); try done.
  intros r calls1 Hc1 Hr. destruct r as [|err|blk de].
  { wp_step. apply Herr; try done. right; right. split; [done|by left]. }
  { wp_step. apply Herr; try done; [by eapply read_error_reads|by left]. }
  destruct Hr as [Hblk Hrec]. destruct (looked_same n (LFound blk de) s) as [Hsame Ho1].
  set (s1 := looked n (LFound blk de) s) in *. clearbody s1.
  assert (Eb : dir_block s1 n blk = dir_block s n blk).
  { destruct Hsame as (_ & _ & _ & _ & E & _). unfold dir_block. by rewrite E. }
  destruct (record_entry n blk de name s ess Hl Hblk Hrec) as [Hent Hname].
  do 2 wp_step. unfold found_ref. cbn [app]. pose proof (proj1 Hsame) as E1. rewrite E1, Hrep.
  change (negb (0 =? 0)) with false. rewrite andb_true_r, Eb.
  pose proof (linear_same _ _ _ _ Hsame Hl) as Hl1.
  destruct (Z.eqb_spec (de_inode (dir_block s n blk) de) child) as [Ech|Hmis]; cbn [negb].
  2:{ unfold brelse, dbh. repeat wp_step. apply Herr; try done. right; right. split; [done|]. right.
      exists (ent (dir_block s n blk) de). by split_and!. }
  wp_step. unfold ext4_journal_start. do 2 wp_step. destruct r as [|e|] eqn:Hj; [| |].
  3:{ by apply fs_nonnull in Hc; [|unfold err_or_valid; set_solver]. }
  2:{ unfold brelse, dbh. repeat wp_step. pose proof (fs_errno _ _ _ _ Hc). apply Herr; try done; [lia|].
      right; left. eexists. by apply answered_ptr_last. }
  do 3 wp_step. do 2 wp_step. eapply (wp_delete_entry n blk de name s1); try done.
  { destruct Hrec as (os & ? & ? & ? & ?). destruct Hsame as (_ & _ & Ed & _). exists os. rewrite Ed, Eb. by split_and!. }
  intros s2 ess' calls2 Hl2 Hrm Ho2 _. cbn [Z.eqb negb]. rewrite Eb in Hrm.
  unfold inode_set_ctime_current, inode_set_mtime_to_ts, current_time, ext4_mark_inode_dirty.
  repeat wp_step. calm_call. cbn [Z.eqb negb].
  destruct (touch_dir n (Ts z z0) s2) as [Hsame3 Ho3].
  match goal with |- wp _ _ (World ?x _ _) => set (s3 := x) in * end. clearbody s3.
  pose proof (linear_same _ _ _ _ Hsame3 Hl2) as Hl3.
  pose proof (others_trans _ _ _ _ (others_trans _ _ _ _ Ho1 Ho2) Ho3) as Ho.
  apply wp_unlink_child; [done|]. intros s4 calls4 Hu Ho4 Hsame4. eapply HQ; try done.
  - by eapply linear_same.
  - unfold unlinked in *. by rewrite <- (Ho child Hcn).
  - intros m Hm1 Hm2. by rewrite Ho4, Ho.
Qed.

(** C26: [__ext4_unlink] in a well-formed linear directory (the feature dir_index is off, no
    inline data, every block mapped, names neither encrypted nor casefolded), outside a fast
    commit replay, of an inode other than the directory, when the journal accepts every buffer
    and inode it is given: it removes exactly one entry of the directory, one with the name and
    the inode number asked for, and lowers the link count of that inode.  Every failure that is
    left leaves the directory's entries as they were, and has one of these reasons: the lookup
    of this run failed as [find_entry_correct] says, the handle this run asked for was refused
    with that error, no entry has the name, or the entry that was found has another inode.  No
    buffer or handle stays behind. *)
Theorem unlink_correct n child name w ess :
  mapped -> linear n (w_st w) ess -> (0 < length ess)%nat ->
  child <> n ->
  Z.land (s_mount_state (f_sbi (w_st w))) EXT4_FC_REPLAY = 0 ->
  wp (__ext4_unlink n name child) (fun err w' =>
    w_held w' = w_held w /\
    if err =? 0 then
      exists e ess', linear n (w_st w') ess' /\ removed e ess ess' /\ e_name e = name /\
        e_ino e = child /\ unlinked child (w_st w) (w_st w') /\ only2 n child (w_st w) (w_st w')
    else unlink_refused n (w_st w) child name ess (w_calls w) (w_calls w') err /\ linear n (w_st w') ess /\ others n (w_st w) (w_st w')) w.
Proof.
  intros Hmap Hl Hne Hcn Hrep. destruct w as [s h0 calls]. cbn [w_st w_held] in *.
  eapply wp_unlink; try done.
  - intros err s' calls' He Hr Hl' Ho. cbn. split; [done|]. by rewrite (proj2 (Z.eqb_neq err 0) He).
  - intros s' e ess' calls' Hl' Hrm Hn Hi Hu Ho. cbn. split; [done|]. by exists e, ess'.
Qed.
End Remove.
