(* ===== verification/Mkdir.v ===== *)
(** * Creating and removing files and directories (fs/ext4/namei.c)

    The entry points of the directory inode operations that create and remove names:
    [ext4_init_dot_dotdot], [ext4_init_new_dir], [ext4_mkdir], [ext4_empty_dir],
    [ext4_rmdir], [ext4_add_nondir], [ext4_create], [ext4_mknod] and [ext4_unlink].

    Outside the repository are the allocation of an inode (ialloc.c), the inline
    directories (inline.c) and [init_special_inode] of the VFS: the class [DirInode], with
    the law [NewInodeOk] for the first.  The state of a buffer that [set_buffer_verified]
    records is an answer of [Env], as in Namei.v. *)

From stdpp Require Import prelude list gmap strings.
From Stdlib Require Import ZArith Lia.
From S2P Require Import Prelude Kernel Bytes Layout Fs Inode Dirent Namei.

Local Open Scope string_scope.
Local Open Scope Z_scope.

Class DirInode := {
  (* ext4_new_inode_start_handle(idmap, dir, mode, qstr, ..): an error or the new inode *)
  ext4_new_inode_start_handle : Z -> Z -> list Z -> K fs (Z + Z);
  (* init_special_inode(inode, inode->i_mode, rdev) *)
  init_special_inode : Z -> Z -> K fs unit;
  (* ext4_try_create_inline_dir(handle, dir, inode) *)
  ext4_try_create_inline_dir : Z -> Z -> K fs Z;
  (* empty_inline_dir(inode, &has_inline_data) *)
  empty_inline_dir : Z -> K fs (bool * bool)
}.

Definition EMLINK : Z := 31.
Definition ENOTEMPTY : Z := 39.
Definition EXT4_STATE_MAY_INLINE_DATA : Z := 6.
Definition ext4_test_inode_state (i : inode) (bit : Z) : bool := ext4_test_inode_flag i (32 + bit).

(** [inode->i_size = n], without the size on disk. *)
Definition set_isize (n : Z) (i : inode) : inode :=
  Inode (i_mode i) (i_nlink i) (i_uid i) (i_gid i) (i_rdev i) (i_version i) n
    (i_blocks i) (i_atime i) (i_mtime i) (i_ctime i) (i_generation i) (i_noquota i) (i_crtime i)
    (i_disksize i) (i_flags i) (i_file_acl i) (i_dtime i) (i_block_group i)
    (i_last_alloc_group i) (i_dir_start_lookup i) (i_csum_seed i) (i_tree i) (i_dir i).

Definition EXT4_DIR_LINK_MAX (s : fs) (n : Z) : bool :=
  (EXT4_LINK_MAX <=? i_nlink (inode_of s n)) &&
  negb (ext4_has_feature_dir_nlink (f_es s) && is_dx s n).

(** [!strcmp(str, p)] for a string without NUL and a pointer into the block: the bytes
    of the string and the NUL after them. *)
Definition streq (str : list Z) (b : list Z) (p : Z) : bool :=
  bool_decide (gets b p (S (length str)) = (str ++ [0])%list).

(** ** A new directory block *)

(** [ext4_init_dot_dotdot]: the block and the offset behind ".."; [None] is the BUG_ON of
    the record length. *)
Definition ext4_init_dot_dotdot (d : dirctx) (b : list Z) (ino blocksize csum_size parent_ino : Z)
    (dotdot_real_len : bool) : option (list Z * Z) :=
  let b := putb (put32 b 0 ino) 6 1 in
  match ext4_rec_len_to_disk d (ext4_dir_rec_len (de_name_len b 0) None) blocksize with
  | None => None
  | Some r =>
      let b := ext4_set_de_type d (puts (put16 b 4 r) 8 [46; 0]) 0 S_IFDIR in
      let de := ext4_rec_len_from_disk d (de_rec_len b 0) blocksize in
      let b := putb (put32 b de parent_ino) (de + 6) 2 in
      match ext4_rec_len_to_disk d
              (if dotdot_real_len then ext4_dir_rec_len (de_name_len b de) None
               else blocksize - (csum_size + ext4_dir_rec_len 1 None)) blocksize with
      | None => None
      | Some r =>
          let b := ext4_set_de_type d (puts (put16 b (de + 4) r) (de + 8) [46; 46; 0]) de S_IFDIR in
          Some (b, de + ext4_rec_len_from_disk d (de_rec_len b de) blocksize)
      end
  end.

Section Mkdir.
Context `{Env} `{Csum} `{NameiEnv} `{DirNames} `{DirHooks} `{DirInode}.

(** What [ext4_init_new_dir] does once the block is there. *)
Definition fill_new_dir (n child block : Z) : K fs Z :=
  s <~ kget;;
  let d := dctx s child in
  let blocksize := d_blocksize d in
  match ext4_init_dot_dotdot d (dir_block s child block) child blocksize (csum_size d) n false with
  | None => koops
  | Some (b, _) =>
      kmodify (upd_inode child (set_nlink 2));;;
      match (if d_csum d then ext4_initialize_dirent_tail d b blocksize else Some b) with
      | None => koops
      | Some b =>
          kmodify (set_dir_block child block b);;;
          err <~ ext4_handle_dirty_dirblock child block;;
          brelse child block;;;
          kret err
      end
  end.

(** [ext4_init_new_dir] *)
Definition ext4_init_new_dir (n child : Z) : K fs Z :=
  s <~ kget;;
  inl_err <~ (if ext4_test_inode_state (inode_of s child) EXT4_STATE_MAY_INLINE_DATA then
                err <~ ext4_try_create_inline_dir n child;;
                kret (if (err <? 0) && negb (err =? - ENOSPC) then Some err
                      else if err =? 0 then Some 0 else None)
              else kret None);;
  match inl_err with
  | Some err => kret err
  | None =>
      kmodify (upd_inode child (set_isize 0));;;
      r <~ ext4_append child;;
      let '(block, bh) := r in
      match bh with
      | PtrErr e => kret e
      | PtrNull => koops
      | PtrOk => fill_new_dir n child block
      end
  end.

(** ** Creation *)

(** [ext4_journal_current_handle() != NULL] *)
Definition ext4_journal_current_handle : K fs bool := fun w =>
  Ret (existsb (res_eqb (Ref RHandle)) (w_held w)) w.
Definition stop_handle (handle : bool) : K fs unit :=
  if handle then ext4_journal_stop;;; kret tt else kret tt.

Definition clear_nlink (n : Z) : K fs unit := kmodify (upd_inode n (set_nlink 0)).
Definition unlock_new_inode (n : Z) : K fs unit := release (Excl (LNew n)).

(** [d_instantiate_new]: the inode is unlocked and its reference goes to the dentry. *)
Definition d_instantiate_new (n : Z) : K fs unit :=
  unlock_new_inode n;;; release (Ref (RInode n)).

(** The end of a creation: another try when space was short. *)
Definition should_retry (retries err : Z) : K fs bool :=
  if err =? - ENOSPC then
    again <~ call_int "ext4_should_retry_alloc" [retries];; kret (negb (again =? 0))
  else kret false.

(** [out_clear_inode] of [ext4_mkdir]; the error reported. *)
Definition mkdir_undo (child err : Z) : K fs Z :=
  clear_nlink child;;;
  call_int "ext4_orphan_add" [child];;;
  unlock_new_inode child;;;
  err2 <~ ext4_mark_inode_dirty child;;
  ext4_journal_stop;;;
  iput child;;;
  kret (if negb (err2 =? 0) then err2 else err).

(** One try of [ext4_mkdir], from [retry] to [out_retry]. *)
Definition mkdir_try (n mode : Z) (name : list Z) : K fs Z :=
  r <~ ext4_new_inode_start_handle n (Z.lor S_IFDIR mode) name;;
  handle <~ ext4_journal_current_handle;;
  match r with
  | inl e => stop_handle handle;;; kret e
  | inr child =>
      err <~ ext4_init_new_dir n child;;
      if negb (err =? 0) then mkdir_undo child err else
      err <~ ext4_mark_inode_dirty child;;
      err <~ (if err =? 0 then ext4_add_entry n child name else kret err);;
      if negb (err =? 0) then mkdir_undo child err else
      ext4_inc_count n;;;
      s <~ kget;;
      kmodify (upd_inode n (ext4_update_dx_flag s));;;
      err <~ ext4_mark_inode_dirty n;;
      if negb (err =? 0) then mkdir_undo child err else
      d_instantiate_new child;;;
      stop_handle handle;;;
      kret err
  end.

(** Tries until one does not ask for another; [ext4_should_retry_alloc] allows three. *)
Fixpoint retry_loop (fuel : nat) (retries : Z) (try : K fs Z) : K fs Z :=
  match fuel with
  | O => koops
  | S fuel =>
      err <~ try;;
      again <~ should_retry retries err;;
      if again : bool then retry_loop fuel (retries + 1) try else kret err
  end.

(** [ext4_mkdir] *)
Definition ext4_mkdir (n mode : Z) (name : list Z) : K fs Z :=
  s <~ kget;;
  if EXT4_DIR_LINK_MAX s n then kret (- EMLINK) else
  err <~ call_int "dquot_initialize" [n];;
  if negb (err =? 0) then kret err else
  retry_loop 5 0 (mkdir_try n mode name).

(** [ext4_add_nondir]: the error, and whether the caller still has the inode. *)
Definition ext4_add_nondir (n child : Z) (name : list Z) : K fs (Z * bool) :=
  err <~ ext4_add_entry n child name;;
  if err =? 0 then
    err <~ ext4_mark_inode_dirty child;;
    d_instantiate_new child;;;
    kret (err, false)
  else
    drop_nlink child;;;
    ext4_mark_inode_dirty child;;;
    call_int "ext4_orphan_add" [child];;;
    unlock_new_inode child;;;
    kret (err, true).

(** One try of [ext4_create] or [ext4_mknod]; [setup] is what they do to the inode
    (the operation tables are not part of the state). *)
Definition create_try (setup : Z -> K fs unit) (n mode : Z) (name : list Z) : K fs Z :=
  r <~ ext4_new_inode_start_handle n mode name;;
  handle <~ ext4_journal_current_handle;;
  match r with
  | inl e => stop_handle handle;;; kret e
  | inr child =>
      setup child;;;
      r <~ ext4_add_nondir n child name;;
      let '(err, mine) := r in
      stop_handle handle;;;
      (if mine : bool then iput child else kret tt);;;
      kret err
  end.

Definition ext4_create (n mode : Z) (name : list Z) : K fs Z :=
  err <~ call_int "dquot_initialize" [n];;
  if negb (err =? 0) then kret err else
  retry_loop 5 0 (create_try (fun _ => kret tt) n mode name).

Definition ext4_mknod (n mode rdev : Z) (name : list Z) : K fs Z :=
  err <~ call_int "dquot_initialize" [n];;
  if negb (err =? 0) then kret err else
  retry_loop 5 0 (create_try (fun child => init_special_inode child rdev) n mode name).

(** ** Removal *)

Definition brelse_opt (n : Z) (bh : option Z) : K fs unit :=
  match bh with Some blk => brelse n blk | None => kret tt end.

(** The record at [offset], in the block whose buffer is held. *)
Definition empty_record (n offset blk : Z) : K fs (Z * option Z + bool) :=
  s <~ kget;;
  let d := dctx s n in
  let b := dir_block s n blk in
  let de := Z.land offset (d_blocksize d - 1) in
  if ext4_check_dir_entry d b (d_blocksize d) de || negb (de_inode b de =? 0)
  then brelse n blk;;; kret (inr false)
  else kret (inl (u32 (offset + rlen_at d b de), Some blk)).

(** One round of the loop of [ext4_empty_dir]. *)
Definition empty_round (n : Z) (st : Z * option Z) : K fs (Z * option Z + bool) :=
  let '(offset, bh) := st in
  s <~ kget;;
  let blocksize := s_blocksize (f_sbi s) in
  if negb (offset <? i_size (inode_of s n)) then brelse_opt n bh;;; kret (inr true) else
  if Z.land offset (blocksize - 1) =? 0 then
    brelse_opt n bh;;;
    let lblock := Z.shiftr offset (s_blocksize_bits s) in
    r <~ __ext4_read_dirblock n lblock EITHER;;
    match r with
    | PtrNull => kret (inl (u32 (offset + blocksize), None))
    | PtrErr _ => kret (inr false)
    | PtrOk => empty_record n offset lblock
    end
  else match bh with
       | Some blk => empty_record n offset blk
       | None => koops
       end.

(** [ext4_empty_dir] once the first block was read; every round moves the 32-bit offset
    forward, at most once around, so [2 ^ 33] rounds are enough. *)
Definition empty_first (n : Z) : K fs bool :=
  s <~ kget;;
  let d := dctx s n in
  let b := dir_block s n 0 in
  if ext4_check_dir_entry d b (d_blocksize d) 0 || negb (de_inode b 0 =? n) ||
     negb (streq [46] b 8)
  then brelse n 0;;; kret false else
  let offset := rlen_at d b 0 in
  let de := ext4_next_entry d b 0 in
  if ext4_check_dir_entry d b (d_blocksize d) de || (de_inode b de =? 0) ||
     negb (streq [46; 46] b (de + 8))
  then brelse n 0;;; kret false else
  kloop 8589934592 (empty_round n) (u32 (offset + rlen_at d b de), Some 0).

(** [ext4_empty_dir] *)
Definition ext4_empty_dir (n : Z) : K fs bool :=
  s <~ kget;;
  inl_ret <~ (if ext4_has_inline_data s n then
                r <~ empty_inline_dir n;;
                let '(ret, has_inline) := r in kret (if has_inline : bool then Some ret else None)
              else kret None);;
  match inl_ret with
  | Some ret => kret ret
  | None =>
      s <~ kget;;
      if i_size (inode_of s n) <? ext4_dir_rec_len 1 None + ext4_dir_rec_len 2 None
      then kret false else
      bh <~ __ext4_read_dirblock n 0 DIRENT_HTREE;;
      match bh with
      | PtrErr _ => kret false
      | PtrNull => koops
      | PtrOk => empty_first n
      end
  end.

(** The transaction of [ext4_rmdir]: the name goes, then the inode. *)
Definition rmdir_commit (n child blk de : Z) : K fs Z :=
  retval <~ ext4_delete_entry n blk de;;
  if negb (retval =? 0) then kret retval else
  kmodify (upd_inode child inode_inc_iversion);;;
  clear_nlink child;;;
  kmodify (upd_inode child (set_isize 0));;;
  call_int "ext4_orphan_add" [child];;;
  ts <~ inode_set_ctime_current n;;
  inode_set_mtime_to_ts n ts;;;
  inode_set_ctime_current child;;;
  retval <~ ext4_mark_inode_dirty child;;
  if negb (retval =? 0) then kret retval else
  ext4_dec_count n;;;
  s <~ kget;;
  kmodify (upd_inode n (ext4_update_dx_flag s));;;
  ext4_mark_inode_dirty n.

(** [ext4_rmdir] *)
Definition ext4_rmdir (n : Z) (d_name : list Z) (child : Z) : K fs Z :=
  down <~ call_int "ext4_forced_shutdown" [];;
  if negb (down =? 0) then kret (- EIO) else
  retval <~ call_int "dquot_initialize" [n];;
  if negb (retval =? 0) then kret retval else
  retval <~ call_int "dquot_initialize" [child];;
  if negb (retval =? 0) then kret retval else
  r <~ ext4_find_entry n d_name;;
  match r with
  | LErr e => kret e
  | LNull => kret (- ENOENT)
  | LFound blk de =>
      let end_rmdir retval := brelse n blk;;; kret retval in
      s <~ kget;;
      if negb (de_inode (dir_block s n blk) de =? child) then end_rmdir (- EFSCORRUPTED) else
      empty <~ ext4_empty_dir child;;
      if negb empty then end_rmdir (- ENOTEMPTY) else
      h <~ ext4_journal_start nm_data_trans_blocks;;
      match h with
      | PtrErr e => end_rmdir e
      | PtrNull => koops
      | PtrOk =>
          retval <~ rmdir_commit n child blk de;;
          brelse n blk;;;
          ext4_journal_stop;;;
          kret retval
      end
  end.

(** [ext4_unlink] *)
Definition ext4_unlink (n : Z) (d_name : list Z) (child : Z) : K fs Z :=
  down <~ call_int "ext4_forced_shutdown" [];;
  if negb (down =? 0) then kret (- EIO) else
  retval <~ call_int "dquot_initialize" [n];;
  if negb (retval =? 0) then kret retval else
  retval <~ call_int "dquot_initialize" [child];;
  if negb (retval =? 0) then kret retval else
  __ext4_unlink n d_name child.
End Mkdir.
