(* ===== verification/MkdirSpec.v ===== *)
(** * Directories are created empty, and only empty ones are removed

    Theorems about Mkdir.v on directories stored as a list of blocks: the block
    [ext4_init_new_dir] writes holds "." and ".." and nothing else; [ext4_empty_dir] says
    yes exactly when those are the only entries; [ext4_mkdir] and [ext4_create] add one
    entry for a new inode, or leave the entries as they were; [ext4_rmdir] removes one
    entry, that of an empty directory. *)

From stdpp Require Import prelude list gmap strings.
From Stdlib Require Import ZArith Lia.
From S2P Require Import Prelude Kernel Bytes Layout Fs Inode Dirent Namei NameiSpec Mkdir.

Local Open Scope Z_scope.

(** ** The first block *)

(** The type recorded for a directory. *)
Definition dir_type (d : dirctx) : Z := if d_filetype d then EXT4_FT_DIR else 0.

(** A record as [ext4_init_dot_dotdot] writes it. *)
Definition dir_record (d : dirctx) (b : list Z) (o ino r : Z) (name : list Z) : list Z :=
  ext4_set_de_type d
    (puts (put16 (putb (put32 b o ino) (o + 6) (Z.of_nat (length name))) (o + 4) r) (o + 8) (name ++ [0]))
    o S_IFDIR.

Lemma gets_S l off k : gets l off (S k) = gets l off k ++ [getb l (off + Z.of_nat k)].
Proof. unfold gets. by rewrite seq_S, fmap_app. Qed.

Section Record.
Variables (d : dirctx) (b : list Z) (o ino r : Z) (name : list Z).
Hypothesis Ho : 0 <= o.
Hypothesis Hfit : o + 9 + Z.of_nat (length name) <= Z.of_nat (length b).
Hypothesis Hname : bytes_ok name.
Hypothesis Hlen : Z.of_nat (length name) <= EXT4_NAME_LEN.
Hypothesis Hino : 0 <= ino < 2 ^ 32.
Hypothesis Hr : 0 <= r < 65536.
Let b' := dir_record d b o ino r name.

Lemma dir_record_out i : i < o \/ o + 9 + Z.of_nat (length name) <= i -> getb b' i = getb b i.
Proof using.
  intros Hi. unfold b', dir_record, ext4_set_de_type.
  assert (E : getb (puts (put16 (putb (put32 b o ino) (o + 6) (Z.of_nat (length name))) (o + 4) r)
                  (o + 8) (name ++ [0])) i = getb b i).
  { rewrite getb_puts_out by (rewrite length_app; simpl; lia).
    rewrite getb_put_out, getb_putb_ne, getb_put_out by lia. done. }
  destruct (d_filetype d); [|done]. by rewrite getb_putb_ne by lia.
Qed.

Lemma dir_record_length : length b' = length b.
Proof using. unfold b', dir_record, ext4_set_de_type. destruct (d_filetype d); by autorewrite with len. Qed.

Lemma dir_record_bytes : bytes_ok b -> bytes_ok b'.
Proof using. intros. unfold b', dir_record, ext4_set_de_type. 
  destruct (d_filetype d); repeat (apply bytes_ok_putb || apply bytes_ok_puts); done.
Qed.

Lemma dir_record_fields :
  de_inode b' o = ino /\ de_rec_len b' o = r /\ de_name_len b' o = Z.of_nat (length name) /\
  de_file_type b' o = (if d_filetype d then EXT4_FT_DIR else getb b (o + 7)) /\
  de_name b' o = name /\ streq name b' (o + 8) = true.
Proof.
  set (b1 := puts (put16 (putb (put32 b o ino) (o + 6) (Z.of_nat (length name))) (o + 4) r)
               (o + 8) (name ++ [0])).
  assert (E : forall i, i <> o + 7 -> getb b' i = getb b1 i).
  { intros i Hi. unfold b', dir_record, ext4_set_de_type. fold b1.
    destruct (d_filetype d); [|done]. by apply getb_putb_ne. }
  assert (El : length b1 = length b) by (unfold b1; by autorewrite with len).
  assert (En : de_name_len b' o = Z.of_nat (length name)).
  { unfold de_name_len. rewrite E by lia. unfold b1. rewrite getb_puts_out, getb_put_out by lia.
    rewrite getb_putb, Z.eqb_refl by (autorewrite with len; lia). unfold EXT4_NAME_LEN in Hlen.
    apply u8_small. lia. }
  assert (Es : gets b' (o + 8) (S (length name)) = name ++ [0]).
  { replace (S (length name)) with (length (name ++ [0])) by (rewrite length_app; simpl; lia).
    rewrite (gets_ext b' b1) by (intros; apply E; lia). unfold b1. apply gets_puts_eq.
    - lia.
    - autorewrite with len. rewrite length_app. simpl. lia.
    - apply Forall_app. split; [done|]. by constructor. }
  split_and!; [| |done| | |].
  - unfold de_inode. rewrite (le_get_ext 4 b' b1) by (intros; apply E; lia). unfold b1.
    rewrite le_get_puts_out, le_get_put_out, le_get_putb_out by (simpl; lia).
    rewrite get32_put32_eq by lia. apply u32_small. lia.
  - unfold de_rec_len. rewrite (le_get_ext 2 b' b1) by (intros; apply E; lia). unfold b1.
    rewrite le_get_puts_out by (simpl; lia). rewrite get16_put16_eq by (autorewrite with len; lia).
    apply u16_small. lia.
  - unfold de_file_type, b', dir_record, ext4_set_de_type. fold b1. destruct (d_filetype d).
    + rewrite getb_putb, Z.eqb_refl by lia. done.
    + unfold b1. rewrite getb_puts_out, getb_put_out, getb_putb_ne, getb_put_out by lia. done.
  - unfold de_name. rewrite En, Nat2Z.id. rewrite gets_S in Es.
    by apply app_inj_tail in Es as [Es _].
  - unfold streq. by rewrite Es, bool_decide_eq_true_2.
Qed.
End Record.

(** The two entries of a directory without any other. *)
Definition dots (d : dirctx) (ino parent : Z) : list dent :=
  [Dent [46] ino (dir_type d); Dent [46; 46] parent (dir_type d)].

(** The records of the first block of a directory: "." and "..", then others. *)
Definition starts_with_dots (n : Z) (b : list Z) (os : list Z) : Prop :=
  exists o rest, os = 0 :: o :: rest /\ de_inode b 0 = n /\ streq [46] b 8 = true /\
    de_inode b o <> 0 /\ streq [46; 46] b (o + 8) = true.

(** The two records side by side, "." of 12 bytes and ".." up to [limit]. *)
Section TwoRecords.
Variables (d : dirctx) (z : list Z) (ino parent r1 r2 limit : Z).
Hypothesis Hp : plain d.
Hypothesis Hz : bytes_ok z.
Hypothesis Hz0 : getb z 7 = 0 /\ getb z 19 = 0.
Hypothesis Hlim : 24 <= limit <= Z.of_nat (length z) /\ limit mod 4 = 0.
Hypothesis Hi : 0 < ino < 2 ^ 32 /\ ino <= d_inodes d.
Hypothesis Hpa : 0 < parent < 2 ^ 32 /\ parent <= d_inodes d.
Hypothesis H1 : 0 <= r1 < 65536 /\ ext4_rec_len_from_disk d r1 (d_blocksize d) = 12.
Hypothesis H2 : 0 <= r2 < 65536 /\ ext4_rec_len_from_disk d r2 (d_blocksize d) = limit - 12.
Let b1 := dir_record d z 0 ino r1 [46].
Let b2 := dir_record d b1 12 parent r2 [46; 46].

Lemma two_records_first :
  entry_ok d b1 0 /\ rlen_at d b1 0 = 12 /\ ent b1 0 = Dent [46] ino (dir_type d) /\
  is_live b1 0 = true /\ streq [46] b1 8 = true.
Proof.
  destruct (dir_record_fields d z 0 ino r1 [46]) as (I1 & L1 & N1 & F1 & M1 & S1);
    try (done || lia || (simpl; lia)); [by constructor|].
  fold b1 in I1, L1, N1, F1, M1, S1. change (0 + 7) with 7 in F1. rewrite (proj1 Hz0) in F1.
  unfold entry_ok, ent, is_live, rlen_at, dir_type. rewrite I1, L1, N1, F1, M1, (proj2 H1).
  destruct (Z.eqb_spec ino 0); [lia|]. split_and!; try done; try lia.
  rewrite dir_rec_len_plain by (done || simpl; lia). done.
Qed.

Lemma two_records_second :
  entry_ok d b2 12 /\ rlen_at d b2 12 = limit - 12 /\
  ent b2 12 = Dent [46; 46] parent (dir_type d) /\ de_inode b2 12 = parent /\
  streq [46; 46] b2 20 = true.
Proof.
  assert (Hl1 : length b1 = length z) by apply dir_record_length.
  destruct (dir_record_fields d b1 12 parent r2 [46; 46]) as (I2 & L2 & N2 & F2 & M2 & S2);
    try (done || lia || (simpl; lia)); [by repeat constructor|].
  fold b2 in I2, L2, N2, F2, M2, S2. unfold b1 in F2. rewrite dir_record_out in F2 by (simpl; lia).
  change (12 + 7) with 19 in F2. rewrite (proj2 Hz0) in F2.
  unfold entry_ok, ent, rlen_at, dir_type. rewrite I2, L2, N2, F2, M2, (proj2 H2).
  split_and!; try done; try lia; [by rewrite Zminus_mod, (proj2 Hlim)|].
  rewrite dir_rec_len_plain by (done || simpl; lia).
  change ((Z.of_nat (length [46; 46]) + 11) / 4 * 4) with 12. lia.
Qed.

Lemma two_records :
  bytes_ok b2 /\ length b2 = length z /\ chain d b2 0 limit [0; 12] /\
  live b2 [0; 12] = dots d ino parent /\ starts_with_dots ino b2 [0; 12].
Proof.
  destruct two_records_first as (Hok1 & Hr1 & He1 & Hl1 & Hs1).
  destruct two_records_second as (Hok2 & Hr2 & He2 & Hi2 & Hs2).
  assert (Hs : same_on 0 12 b1 b2) by (intros i Hi'; apply dir_record_out; lia).
  assert (Hb1 : bytes_ok b1) by by apply dir_record_bytes.
  destruct (entry_same d Hp b1 b2 0 Hb1 Hok1) as (Hok1' & Er & Ee & El); [by rewrite Hr1|].
  split_and!.
  - by apply dir_record_bytes.
  - unfold b2. rewrite dir_record_length. apply dir_record_length.
  - constructor; [done|]. rewrite Er, Hr1. constructor; [done|]. change (0 + 12) with 12. rewrite Hr2.
    replace (12 + (limit - 12)) with limit by lia. constructor.
  - rewrite !live_cons, El, Hl1, Ee, He1. unfold is_live. rewrite Hi2, He2.
    destruct (Z.eqb_spec parent 0); [lia|done].
  - exists 12, []. rewrite Hi2. split_and!; try done; try lia.
    + pose proof (f_equal e_ino Ee) as E. rewrite He1 in E. done.
    + unfold streq in *. apply bool_decide_eq_true in Hs1. apply bool_decide_eq_true.
      rewrite <- Hs1. apply gets_ext. intros i Hi'. apply Hs. simpl in Hi'. lia.
Qed.
End TwoRecords.

Lemma getb_zero k i : getb (replicate k 0) i = 0.
Proof.
  unfold getb. case_match; [done|]. rewrite nth_lookup.
  destruct (_ !! _) eqn:E; [|done]. by apply lookup_replicate in E as [-> _].
Qed.

(** [ext4_init_dot_dotdot] on a cleared block. *)
Lemma init_dot_dotdot_spec d ino parent :
  plain d -> dir_geometry d -> 0 < ino < 2 ^ 32 /\ ino <= d_inodes d ->
  0 < parent < 2 ^ 32 /\ parent <= d_inodes d ->
  exists b, ext4_init_dot_dotdot d (replicate (Z.to_nat (d_blocksize d)) 0) ino (d_blocksize d)
              (csum_size d) parent false = Some (b, dir_limit d) /\
    bytes_ok b /\ Z.of_nat (length b) = d_blocksize d /\ chain d b 0 (dir_limit d) [0; 12] /\
    live b [0; 12] = dots d ino parent /\ starts_with_dots ino b [0; 12].
Proof.
  intros Hp Hg Hi Hpa. pose proof Hg as (Hbs & _). destruct (dir_limit_mod d Hg) as [Hlm Hlb].
  destruct (rec_len_roundtrip d 12 Hg) as (r1 & T1 & R1 & E1); [lia|done|].
  destruct (rec_len_roundtrip d (dir_limit d - 12) Hg) as (r2 & T2 & R2 & E2); [lia| |].
  { rewrite Zminus_mod, Hlm. done. }
  set (z := replicate (Z.to_nat (d_blocksize d)) 0).
  assert (Hz : Z.of_nat (length z) = d_blocksize d) by (unfold z; rewrite length_replicate; lia).
  destruct (two_records d z ino parent r1 r2 (dir_limit d) Hp) as (Hb & Hl & Hc & Hv & Hd); try done.
  { apply Forall_replicate. lia. }
  { split; apply getb_zero. }
  { lia. }
  exists (dir_record d (dir_record d z 0 ino r1 [46]) 12 parent r2 [46; 46]).
  split_and!; try done; [|lia]. unfold ext4_init_dot_dotdot.
  assert (E6 : de_name_len (putb (put32 z 0 ino) 6 1) 0 = 1).
  { unfold de_name_len. rewrite getb_putb by (autorewrite with len; lia). done. }
  rewrite E6. change (ext4_dir_rec_len 1 None) with 12. rewrite T1.
  change (ext4_set_de_type d (puts (put16 (putb (put32 z 0 ino) 6 1) 4 r1) 8 [46; 0]) 0 S_IFDIR)
    with (dir_record d z 0 ino r1 [46]).
  set (b1 := dir_record d z 0 ino r1 [46]) in *.
  assert (L1 : de_rec_len b1 0 = r1).
  { apply (dir_record_fields d z 0 ino r1 [46]); try (done || lia || (simpl; lia)). by constructor. }
  assert (L2 : de_rec_len (dir_record d b1 12 parent r2 [46; 46]) 12 = r2).
  { apply (dir_record_fields d b1 12 parent r2 [46; 46]); try (done || lia || (simpl; lia));
      [unfold b1; rewrite dir_record_length; simpl; lia|by repeat constructor]. }
  rewrite L1, E1. replace (d_blocksize d - (csum_size d + 12)) with (dir_limit d - 12) by (unfold dir_limit; lia).
  rewrite T2. change (12 + 4) with 16.
  change (ext4_set_de_type d (puts (put16 (putb (put32 b1 12 parent) (12 + 6) 2) 16 r2) (12 + 8) [46; 46; 0]) 12 S_IFDIR)
    with (dir_record d b1 12 parent r2 [46; 46]).
  rewrite L2, E2. by replace (12 + (dir_limit d - 12)) with (dir_limit d) by lia.
Qed.

(** ** A new directory *)

Lemma starts_same n b b' limit :
  same_on 0 limit b b' -> 24 <= limit ->
  starts_with_dots n b [0; 12] -> starts_with_dots n b' [0; 12].
Proof.
  intros Hs Hl (o & rest & [= <- <-] & Hi & Hd1 & Hi2 & Hd2). exists 12, []. unfold streq in *.
  rewrite (gets_ext b' b) by (intros i Hr; simpl in Hr; apply Hs; lia).
  rewrite (gets_ext b' b (12 + 8)) by (intros i Hr; simpl in Hr; apply Hs; lia).
  unfold de_inode in *. rewrite !(le_get_ext 4 b' b) by (intros i Hr; simpl in Hr; apply Hs; lia).
  by split_and!.
Qed.

(** Only the inode [n] differs. *)
Definition apart (n : Z) (s s' : fs) : Prop :=
  f_sbi s' = f_sbi s /\ f_es s' = f_es s /\ others n s s'.

Lemma apart_refl n s : apart n s s.
Proof. by split_and!. Qed.
Lemma apart_trans n s1 s2 s3 : apart n s1 s2 -> apart n s2 s3 -> apart n s1 s3.
Proof.
  intros (E1 & E2 & Ho1) (E3 & E4 & Ho2). split; [congruence|]. split; [congruence|].
  by eapply others_trans.
Qed.
Lemma apart_upd n f s : apart n s (upd_inode n f s).
Proof. split; [done|]. split; [done|]. apply others_upd. Qed.
Lemma apart_same `{NameiEnv} n m s s' : apart n s s' -> m <> n -> dir_same m s s'.
Proof.
  intros (E1 & E2 & Ho) Hm. unfold dir_same, dctx, ext4_has_inline_data. by rewrite E1, E2, (Ho m Hm).
Qed.

Section NewDir.
Context `{EnvFs} `{Csum} `{NameiEnv} `{DirNamesOk} `{DirHooks} `{DirInode}.
Hypothesis Hcalm : journal_calm.
Hypothesis Hholes : no_holes.

Ltac calm_call := match goal with
  | Hc : env_int _ _ _ = ?z |- _ => rewrite Hcalm in Hc by reflexivity; subst z
  end.

(** A directory as [ext4_empty_dir] expects it: its first records are "." and "..". *)
Record dotted (n : Z) (s : fs) (ess : list (list dent)) : Prop := {
  dot_linear : linear n s ess;
  dot_first : exists os, dirblock (dctx s n) (dir_block s n 0) os /\
                starts_with_dots n (dir_block s n 0) os;
  dot_size : i_size (inode_of s n) < 2 ^ 32;
  dot_ino : 0 < n
}.

(** An inode number of the file system. *)
Definition valid_ino (s : fs) (n : Z) : Prop := 0 < n < 2 ^ 32 /\ n <= s_inodes_count (f_es s).

(** A new inode: no block yet, and its data will not be stored in it. *)
Definition blank (n : Z) (s : fs) : Prop :=
  linear n s [] /\ ext4_test_inode_state (inode_of s n) EXT4_STATE_MAY_INLINE_DATA = false /\
  valid_ino s n.

(** What [ext4_init_new_dir] makes of it. *)
Definition new_dir (child parent : Z) (s : fs) : Prop :=
  dotted child s [dots (dctx s child) child parent] /\ i_nlink (inode_of s child) = 2.

(** The new inode up to the fields that change. *)
Lemma new_dir_intro child parent s s' b os :
  linear child s [] -> 0 < child -> f_sbi s' = f_sbi s -> f_es s' = f_es s ->
  inode_of s' child = set_dir [b] (set_nlink 2 (set_size (s_blocksize (f_sbi s)) (inode_of s child))) ->
  dirblock (dctx s child) b os -> live b os = dots (dctx s child) child parent ->
  starts_with_dots child b os -> new_dir child parent s'.
Proof.
  intros [Hp Hg Hin Hx Hsz Hbits Hbl] Hpos Es Ee Ei Hdb Hlv Hst.
  assert (Ed : dctx s' child = dctx s child) by (unfold dctx; rewrite Ei, Es, Ee; done).
  assert (Eb : dir_block s' child 0 = b) by (unfold dir_block; by rewrite Ei).
  split; [|by rewrite Ei]. rewrite Ed. split.
  - split; rewrite ?Ed, ?Ee; try done.
    + unfold ext4_has_inline_data in *. by rewrite Ei.
    + rewrite Ei, Es. simpl. lia.
    + unfold s_blocksize_bits in *. by rewrite Es.
    + rewrite Ei. simpl. constructor; [by exists os|constructor].
  - exists os. by rewrite Ed, Eb.
  - rewrite Ei. simpl. destruct Hg as [Hg _]. simpl in Hg. lia.
  - done.
Qed.

(** The state with the first block in place, and with its checksum. *)
Lemma filled_state child s b :
  i_dir (inode_of s child) = [] -> i_size (inode_of s child) = 0 ->
  let s0 := set_dir_block child 0 b (upd_inode child (set_nlink 2) (appended child s)) in
  dctx s0 child = dctx s child /\ dir_block s0 child 0 = b /\
  forall b', let s1 := set_dir_block child 0 b' s0 in
    inode_of s1 child =
      set_dir [b'] (set_nlink 2 (set_size (s_blocksize (f_sbi s)) (inode_of s child))) /\
    apart child s s1.
Proof using.
  intros Ei Esz s0. unfold s0, appended, set_dir_block. rewrite Ei, Esz. split; [|split].
  - unfold dctx. by rewrite !inode_of_upd_eq.
  - unfold dir_block. rewrite !inode_of_upd_eq. simpl. by rewrite Ei.
  - intros b'. rewrite !inode_of_upd_eq. split.
    + simpl. rewrite Ei. done.
    + repeat (eapply apart_trans; [|apply apart_upd]). apply apart_refl.
Qed.

(** The block is filled in and handed to the journal. *)
Lemma wp_fill_new_dir parent child s held calls (Q : Z -> world fs -> Prop) :
  blank child s -> valid_ino s parent ->
  (forall s' calls, new_dir child parent s' -> apart child s s' ->
     i_mode (inode_of s' child) = i_mode (inode_of s child) -> Q 0 (World s' held calls)) ->
  wp (fill_new_dir parent child 0) Q (World (appended child s) (dbh child 0 :: held) calls).
Proof.
  intros (Hl & _ & Hci) Hpi HQ. unfold fill_new_dir. do 2 wp_step.
  pose proof (lin_plain _ _ _ Hl) as Hp. pose proof (lin_geo _ _ _ Hl) as Hg.
  assert (Ei : i_dir (inode_of s child) = []).
  { apply (Forall2_nil_inv_r _ _ (lin_blocks _ _ _ Hl)). }
  assert (Esz : i_size (inode_of s child) = 0) by (rewrite (lin_size _ _ _ Hl), Ei; done).
  assert (Ed : dctx (appended child s) child = dctx s child)
    by (unfold dctx, appended, set_dir_block; by rewrite !inode_of_upd_eq).
  set (z := replicate (Z.to_nat (d_blocksize (dctx s child))) 0).
  assert (Ez : dir_block (appended child s) child 0 = z).
  { unfold dir_block, appended, set_dir_block. rewrite !inode_of_upd_eq. simpl. by rewrite Ei. }
  rewrite Ed, Ez.
  destruct (init_dot_dotdot_spec (dctx s child) child parent Hp Hg Hci Hpi)
    as (b & Hb & Hbo & Hlen & Hc & Hlv & Hst). unfold z. rewrite Hb.
  destruct (finish_block_spec (dctx s child) Hp Hg b [0; 12] Hbo Hlen Hc) as (b2 & Hf & Hdb2 & Hlv2 & Hs2).
  do 2 wp_step. unfold finish_block in Hf. rewrite Hf.
  do 2 wp_step. unfold ext4_handle_dirty_dirblock. repeat wp_step. calm_call. unfold brelse, dbh. repeat wp_step.
  destruct (filled_state child s b2 Ei Esz) as (Ed2 & Eb2 & Hfin). rewrite Ed2, Eb2.
  set (b3 := ext4_dirblock_csum_set (dctx s child) b2).
  destruct (csum_set_dirblock (dctx s child) Hp Hg b2 _ Hdb2) as (Hdb3 & Hlv3 & _ & Hs3).
  fold b3 in Hdb3, Hlv3, Hs3. destruct (Hfin b3) as (Ei3 & Ho3).
  destruct (dir_limit_mod (dctx s child) Hg) as [_ Hlim].
  apply HQ; [|done|by rewrite Ei3].
  eapply (new_dir_intro child parent s _ b3 [0; 12]); try done; [apply Hci|congruence|].
  eapply starts_same; [exact Hs3|lia|]. eapply starts_same; [exact Hs2|lia|done].
Qed.

Lemma wp_init_new_dir parent child s held calls (Q : Z -> world fs -> Prop) :
  blank child s -> valid_ino s parent ->
  (forall e s' calls, e < 0 -> apart child s s' -> Q e (World s' held calls)) ->
  (forall s' calls, new_dir child parent s' -> apart child s s' ->
     i_mode (inode_of s' child) = i_mode (inode_of s child) -> Q 0 (World s' held calls)) ->
  wp (ext4_init_new_dir parent child) Q (World s held calls).
Proof.
  intros (Hl & Hmay & Hci) Hpi Herr HQ. unfold ext4_init_new_dir. do 2 wp_step. rewrite Hmay.
  do 2 wp_step. do 3 wp_step. set (s0 := upd_inode child (set_isize 0) s).
  assert (Ei : i_dir (inode_of s child) = []) by apply (Forall2_nil_inv_r _ _ (lin_blocks _ _ _ Hl)).
  assert (Hsame : dir_same child s s0).
  { unfold dir_same, dctx, ext4_has_inline_data, s0. rewrite inode_of_upd_eq.
    rewrite (lin_size _ _ _ Hl), Ei. done. }
  assert (Hb0 : blank child s0).
  { split; [by eapply linear_same|]. split; [|done]. unfold s0. by rewrite inode_of_upd_eq. }
  assert (Ha : apart child s s0) by apply apart_upd.
  assert (Ei0 : i_dir (inode_of s0 child) = []) by (unfold s0; by rewrite inode_of_upd_eq).
  eapply (wp_append Hcalm Hholes); [eapply linear_sized, Hb0| |].
  - intros blk e calls' He. wp_step. by apply Herr.
  - intros calls'. rewrite Ei0. apply wp_fill_new_dir; [done|done|].
    intros s' calls'' Hn Ha' Hm. apply HQ; [done|by eapply apart_trans|].
    rewrite Hm. unfold s0. by rewrite inode_of_upd_eq.
Qed.

(** [ext4_init_new_dir] on a new inode either fails with a negative error and nothing
    else touched, or leaves a well-formed directory of one block whose live entries are
    exactly the entries for the inode itself and for its parent, stored as the two dot
    names, with link count 2; no buffer stays behind. *)
Theorem init_new_dir_correct parent child w :
  blank child (w_st w) -> valid_ino (w_st w) parent ->
  wp (ext4_init_new_dir parent child) (fun err w' =>
    w_held w' = w_held w /\ apart child (w_st w) (w_st w') /\
    (err < 0 \/ err = 0 /\ new_dir child parent (w_st w'))) w.
Proof.
  intros Hb Hp. destruct w as [s h c]. cbn [w_st w_held] in *.
  eapply wp_init_new_dir; try done; intros; cbn [w_st w_held]; auto.
Qed.
End NewDir.

(** ** The test for emptiness *)

(** Between the histories [h] and [h'] a block of the directory [ess] could not be read, or
    was not verified before and has a checksum that does not fit. *)
Definition block_error `{Env} `{Csum} `{NameiEnv} (n : Z) (s : fs) (ess : list (list dent)) (h h' : list call) : Prop :=
  exists blk, 0 <= blk < Z.of_nat (length ess) /\
    ((exists e, answered_ptr h h' "ext4_bread" [n; blk; 0] (PtrErr e)) \/
     answered h h' "buffer_verified" [n; blk] 0 /\
       ext4_dirblock_csum_verify (dctx s n) (dir_block s n blk) = false).

Section Walk.
Context `{DirNamesOk} `{Csum}.
Variables (d : dirctx) (b : list Z) (os : list Z).
Hypothesis Hplain : plain d.
Hypothesis Hgeo : dir_geometry d.
Hypothesis Hdb : dirblock d b os.
Hypothesis Hinodes : 0 <= d_inodes d.

(** The records from offset [o] to the end of the block, without the checksum tail. *)
Definition walk_at (o : Z) (os2 : list Z) : Prop :=
  chain d b o (dir_limit d) os2 \/ o = d_blocksize d /\ os2 = [].

Lemma walk_end os2 : walk_at (d_blocksize d) os2 -> os2 = [].
Proof using Hgeo.
  intros [Hc|[_ ?]]; [|done]. pose proof (dir_limit_bounds _ Hgeo) as (Hlb & _).
  inversion Hc as [|? ? ? (H12 & _) Hc']; [done|]. subst. apply chain_le in Hc'. lia.
Qed.

(** The tail is a record without errors, and not a live one. *)
Lemma tail_record :
  dir_limit d < d_blocksize d ->
  ext4_check_dir_entry d b (d_blocksize d) (dir_limit d) = false /\
  de_inode b (dir_limit d) = 0 /\ dir_limit d + rlen_at d b (dir_limit d) = d_blocksize d /\
  rlen_at d b (dir_limit d) = 12.
Proof.
  pose proof Hdb as (_ & _ & _ & Ht). unfold dir_limit, csum_size. destruct (d_csum d); [|lia].
  intros _. specialize (Ht eq_refl). fold (EXT4_DIRENT_TAIL (d_blocksize d)). unfold get_dirent_tail in Ht.
  set (t := EXT4_DIRENT_TAIL (d_blocksize d)) in *.
  match type of Ht with (if ?c then _ else _) = _ => destruct c eqn:Hc; [done|] end.
  reflect_bools. unfold rlen_at, de_inode, de_rec_len. unfold sizeof_dir_entry_tail in *.
  assert (Et : t = d_blocksize d - 12) by done. split_and!; [|done|lia|done].
  apply check_dir_entry_iff.
  - unfold ext4_hash_in_dirent. by rewrite (proj1 Hplain).
  - unfold sane, rlen_at, de_rec_len, de_inode, de_name_len.
    replace (ext4_rec_len_from_disk d (get16 b (t + 4)) (d_blocksize d)) with 12.
    replace (getb b (t + 6)) with 0. rewrite dir_rec_len_plain by (done || lia).
    change ((0 + 11) / 4 * 4) with 8. split_and!; try done; lia.
Qed.

(** One record of the walk. *)
Lemma walk_step o os2 :
  walk_at o os2 -> 0 <= o < d_blocksize d ->
  let o' := o + rlen_at d b o in
  ext4_check_dir_entry d b (d_blocksize d) o = false /\ o + 12 <= o' <= d_blocksize d /\
  if de_inode b o =? 0 then exists os2', walk_at o' os2' /\ live b os2' = live b os2
  else live b os2 <> [].
Proof.
  intros [Hc|[-> _]] Ho o'; [|lia]. pose proof (dir_limit_bounds d Hgeo) as (_ & _ & Hlim).
  inversion Hc as [|? ? os2' Hok Hc']; subst.
  - destruct tail_record as (Hck & -> & Hend & H12); [lia|]. split; [done|]. subst o'. split; [lia|].
    exists []. split; [right; split; [lia|done]|done].
  - pose proof (chain_sane d Hplain _ _ _ _ _ Hc Hlim) as Hs. inversion Hs as [|? ? Hx _]; subst.
    split; [done|]. subst o'. pose proof (chain_le d _ _ _ _ Hc'). pose proof Hok as (H12 & _).
    split; [lia|]. destruct (Z.eqb_spec (de_inode b o) 0) as [E|E].
    + exists os2'. split; [by left|]. rewrite live_cons. unfold is_live. by rewrite E.
    + rewrite live_cons. unfold is_live. by rewrite (proj2 (Z.eqb_neq _ _) E).
Qed.
End Walk.

(** A position as block and offset in the block. *)
Lemma block_offset bits blk o :
  0 <= bits -> 0 <= o < 2 ^ bits ->
  Z.land (blk * 2 ^ bits + o) (2 ^ bits - 1) = o /\ Z.shiftr (blk * 2 ^ bits + o) bits = blk.
Proof.
  intros Hb Ho. replace (2 ^ bits - 1) with (Z.ones bits) by (rewrite Z.ones_equiv; lia).
  rewrite Z.land_ones, Z.shiftr_div_pow2 by done. rewrite Z.add_comm, Z.mod_add, Z.div_add by lia.
  rewrite Z.mod_small, Z.div_small by lia. done.
Qed.

Section Empty.
Context `{EnvFs} `{Csum} `{NameiEnv} `{DirNamesOk} `{DirHooks} `{DirInode}.
Hypothesis Hholes : no_holes.
Variables (n : Z) (s : fs) (ess : list (list dent)) (h0 : list res) (c0 : list call).
Hypothesis Hd : dotted n s ess.

Abbreviation bs := (s_blocksize (f_sbi s)).
Abbreviation blocks := (Z.of_nat (length ess)).
Abbreviation bits := (s_blocksize_bits s).

Lemma wp_read_any blk type held calls (Q : reply -> world fs -> Prop) :
  is_INDEX type = false -> 0 <= blk < blocks -> c0 `suffix_of` calls ->
  (forall e calls, e < 0 -> block_error n s ess c0 calls -> Q (PtrErr e) (World s held calls)) ->
  (forall calls, c0 `suffix_of` calls -> Q PtrOk (World s (dbh n blk :: held) calls)) ->
  wp (__ext4_read_dirblock n blk type) Q (World s held calls).
Proof.
  intros Ht Hb Hc0 Herr HQ. pose proof (dot_linear _ _ _ Hd) as Hl.
  unfold __ext4_read_dirblock, ext4_bread, brelse, dbh in *. do 2 wp_step.
  rewrite (linear_nblocks n s ess Hl). destruct (Z.leb_spec blocks blk); [lia|].
  do 3 wp_step. destruct r as [|e|]; cbv iota.
  - repeat (wp_step; cbv iota). unfold is_dx. rewrite (lin_nodx _ _ _ Hl), Ht.
    rewrite andb_false_r. cbn [andb]. repeat wp_step. destruct (_ || _) eqn:Hv; [wp_step; apply HQ; grown|].
    cbn [orb andb negb]. destruct (ext4_dirblock_csum_verify _ _) eqn:Hcs; cbn [negb]; repeat wp_step; [apply HQ; grown|].
    apply orb_false_iff in Hv as [_ Hv]. apply negb_false_iff, Z.eqb_eq in Hv. subst.
    apply Herr; [done|]. exists blk. split; [lia|]. right. split; [|done]. apply answered_last; [grown|done].
  - repeat wp_step. apply Herr; [by apply fs_errno in Hc; lia|]. exists blk. split; [lia|]. left. exists e.
    by apply answered_ptr_last.
  - by apply Hholes in Hc.
Qed.

(** The number of entries from a position on. *)
Definition left_over (blk : Z) (os2 : list Z) : nat :=
  length (live (dir_block s n blk) os2) + length (concat (drop (S (Z.to_nat blk)) ess)).

(** Between two rounds: everything before the position is free, "." and ".." apart. *)
Definition walking (st : Z * option Z) (w : world fs) : Prop :=
  exists blk o os os2 calls, st = (blk * bs + o, Some blk) /\ w = World s (dbh n blk :: h0) calls /\
    c0 `suffix_of` calls /\ 0 <= blk < blocks /\ 0 < o <= bs /\
    dirblock (dctx s n) (dir_block s n blk) os /\ walk_at (dctx s n) (dir_block s n blk) o os2 /\
    length (concat ess) = (2 + left_over blk os2)%nat.
Definition to_go (st : Z * option Z) (w : world fs) : Z := blocks * bs - st.1.

(** The answer: yes only when "." and ".." are all, no only otherwise or when a block
    could not be read. *)
Definition empty_answer (r : bool) (w : world fs) : Prop :=
  w_st w = s /\ w_held w = h0 /\
  if r then length (concat ess) = 2%nat else length (concat ess) <> 2%nat \/ block_error n s ess c0 (w_calls w).

Lemma dotted_facts :
  bs = 2 ^ bits /\ 0 <= bits /\ 1024 <= bs /\ blocks * bs < 2 ^ 32 /\ 0 < blocks /\
  0 <= d_inodes (dctx s n).
Proof using Hd.
  destruct Hd as [Hl (os & Hdb & Hst) Hsz _]. destruct (lin_geo _ _ _ Hl) as [Hg _]. simpl in Hg.
  rewrite (lin_size _ _ _ Hl) in Hsz. pose proof (Forall2_length _ _ _ (lin_blocks _ _ _ Hl)) as Hlen.
  rewrite Hlen in Hsz. split_and!; [apply (lin_bits _ _ _ Hl)|apply Z.log2_nonneg|lia|lia| |].
  - destruct ess; [|simpl; lia]. pose proof Hdb as (_ & Hb & _). unfold dir_block in Hb.
    destruct (i_dir (inode_of s n)); [|done]. simpl in Hb. lia.
  - destruct Hst as (o & rest & -> & _). pose proof Hdb as (Hb & _ & Hc & _).
    inversion Hc as [|? ? ? (_ & _ & _ & Hi & _)]; subst. pose proof (get32_range (dir_block s n 0) 0 Hb).
    unfold de_inode in Hi. lia.
Qed.

(** The record at a position is looked at. *)
Lemma wp_empty_record blk o os os2 calls :
  c0 `suffix_of` calls -> 0 <= blk < blocks -> 0 <= o < bs ->
  dirblock (dctx s n) (dir_block s n blk) os -> walk_at (dctx s n) (dir_block s n blk) o os2 ->
  length (concat ess) = (2 + left_over blk os2)%nat ->
  wp (empty_record n (blk * bs + o) blk)
    (round_ok walking to_go empty_answer (blocks * bs - (blk * bs + o) - 1))
    (World s (dbh n blk :: h0) calls).
Proof.
  intros Hc0 Hb Ho Hdb Hw Hcnt. destruct dotted_facts as (Ebs & Hbits & Hbs & Hmax & _ & Hin).
  pose proof (dot_linear _ _ _ Hd) as Hl. unfold empty_record. do 2 wp_step.
  change (d_blocksize (dctx s n)) with bs.
  assert (Eland : Z.land (blk * bs + o) (bs - 1) = o).
  { rewrite Ebs. apply block_offset; [done|]. by rewrite <- Ebs. }
  rewrite Eland.
  destruct (walk_step (dctx s n) _ os (lin_plain _ _ _ Hl) (lin_geo _ _ _ Hl) Hdb Hin o os2 Hw Ho)
    as (Hck & Hnext & Hlive). change (d_blocksize (dctx s n)) with bs in Hck, Hnext. rewrite Hck.
  cbn [orb]. destruct (Z.eqb_spec (de_inode (dir_block s n blk) o) 0) as [E|E]; cbn [negb].
  - destruct Hlive as (os2' & Hw' & Elv). wp_step. cbn [round_ok]. unfold to_go. cbn [fst].
    rewrite u32_small by nia. split; [|nia].
    exists blk, (o + rlen_at (dctx s n) (dir_block s n blk) o), os, os2', calls.
    split_and!; try done; try lia; [f_equal; lia|]. unfold left_over in *. by rewrite Elv.
  - unfold brelse, dbh. repeat wp_step. cbn [round_ok]. unfold empty_answer. split_and!; try done.
    left. unfold left_over in Hcnt. destruct (live _ os2) as [|e es]; [done|]. simpl in Hcnt. lia.
Qed.

(** The entries of the blocks from [blk] on. *)
Lemma left_next blk es :
  0 <= blk -> ess !! Z.to_nat blk = Some es ->
  length (concat (drop (Z.to_nat blk) ess)) =
    (length es + length (concat (drop (S (Z.to_nat blk)) ess)))%nat.
Proof using. intros Hb He. rewrite (drop_S _ _ _ He). simpl. by rewrite length_app. Qed.

(** One round of the loop. *)
Lemma wp_empty_round st w :
  walking st w -> wp (empty_round n st) (round_ok walking to_go empty_answer (to_go st w - 1)) w.
Proof.
  intros (blk & o & os & os2 & calls & -> & -> & Hc0 & Hb & Ho & Hdb & Hw & Hcnt).
  destruct dotted_facts as (Ebs & Hbits & Hbs & Hmax & Hne & Hin).
  pose proof (dot_linear _ _ _ Hd) as Hl. unfold empty_round, to_go. cbn [fst]. do 2 wp_step.
  rewrite (lin_size _ _ _ Hl), (Forall2_length _ _ _ (lin_blocks _ _ _ Hl)).
  destruct (Z.ltb_spec (blk * bs + o) (blocks * bs)) as [Hlt|Hge]; cbn [negb].
  2:{ (* the last block was walked to its end *)
    assert (blk = blocks - 1 /\ o = bs) as [Eb ->] by nia.
    unfold brelse_opt, brelse, dbh. repeat wp_step. cbn [round_ok]. split_and!; try done.
    apply walk_end in Hw as ->; [|apply (lin_geo _ _ _ Hl)].
    rewrite Hcnt. unfold left_over. rewrite drop_ge by lia. done. }
  destruct (Z.eq_dec o bs) as [->|Hob].
  - (* the next block *)
    assert (Hb1 : 0 <= blk + 1 < blocks) by nia.
    replace (blk * bs + bs) with ((blk + 1) * bs + 0) in * by lia.
    destruct (block_offset bits (blk + 1) 0) as [El Er]; [done|rewrite <- Ebs; lia|]. rewrite <- Ebs in El, Er.
    rewrite El, Er. cbn [Z.eqb]. unfold brelse_opt, brelse. wp_step. wp_step.
    wp_step. eapply wp_read_any; [done|done|done|..].
    + intros e calls' He Hr. wp_step. cbn [round_ok]. split_and!; try done. by right.
    + intros calls' Hc1. destruct (lookup_lt_is_Some_2 ess (Z.to_nat (blk + 1))) as [es He]; [lia|].
      destruct (dir_block_lookup n s ess (blk + 1) es Hl ltac:(lia) He) as [(os' & Hdb' & Hes) _].
      apply (wp_empty_record (blk + 1) 0 os' os'); try done; try lia.
      * left. by destruct Hdb' as (_ & _ & ? & _).
      * apply walk_end in Hw as ->; [|apply (lin_geo _ _ _ Hl)].
        rewrite Hcnt. unfold left_over. rewrite Hes, <- (left_next (blk + 1) es) by (done || lia).
        by replace (Z.to_nat (blk + 1)) with (S (Z.to_nat blk)) by lia.
  - (* inside the block *)
    destruct (block_offset bits blk o) as [El _]; [done|rewrite <- Ebs; lia|]. rewrite <- Ebs in El. rewrite El.
    destruct (Z.eqb_spec o 0); [lia|]. by apply (wp_empty_record blk o os os2); try lia.
Qed.

Lemma wp_empty_first calls :
  c0 `suffix_of` calls -> wp (empty_first n) empty_answer (World s (dbh n 0 :: h0) calls).
Proof.
  intros Hc0. destruct dotted_facts as (Ebs & Hbits & Hbs & Hmax & Hne & Hin).
  destruct Hd as [Hl (os & Hdb & o & rest & -> & Hi & Hs1 & Hi2 & Hs2) Hsz Hpos].
  pose proof Hdb as (Hbo & _ & Hc & _). pose proof (dir_limit_bounds _ (lin_geo _ _ _ Hl)) as (Hlb & _ & Hlim).
  pose proof (chain_sane _ (lin_plain _ _ _ Hl) _ _ _ _ _ Hc Hlim) as Hsane.
  inversion Hsane as [|? ? Hck1 Hsane2]; subst. inversion Hsane2 as [|? ? Hck2 _]; subst.
  inversion Hc as [|? ? ? Hok1 Hc2]; subst. inversion Hc2 as [|? ? ? Hok2 Hc3]; subst.
  pose proof (chain_le _ _ _ _ _ Hc3) as Hle. pose proof Hok1 as (H12 & _). pose proof Hok2 as (H12' & _).
  change (d_blocksize (dctx s n)) with bs in *. change (0 + ?x) with x in *.
  unfold empty_first. do 2 wp_step. change (d_blocksize (dctx s n)) with bs.
  unfold ext4_next_entry. change (0 + ?x) with x.
  set (b := dir_block s n 0) in *. set (o := rlen_at (dctx s n) b 0) in *.
  rewrite Hck1, Hck2, Hs1, Hs2, Hi, Z.eqb_refl. destruct (Z.eqb_spec (de_inode b o) 0); [done|]. cbn [orb negb].
  assert (Hoff : 0 < o + rlen_at (dctx s n) b o <= bs) by lia.
  rewrite u32_small by nia.
  eapply (wp_kloop (empty_round n) walking to_go); [apply wp_empty_round| |].
  - exists 0, (o + rlen_at (dctx s n) b o), (0 :: o :: rest), rest, calls.
    split_and!; try done; try lia; [by left|].
    destruct (lookup_lt_is_Some_2 ess 0) as [es He]; [lia|].
    destruct (dir_block_lookup n s ess 0 es Hl ltac:(lia) He) as [(os' & Hdb' & <-) _].
    assert (os' = 0 :: o :: rest) as ->.
    { destruct Hdb' as (_ & _ & Hc' & _). by eapply chain_fun. }
    pose proof (left_next 0 _ ltac:(lia) He) as Hn. rewrite drop_0 in Hn. rewrite Hn. unfold left_over.
    fold b. rewrite !live_cons. unfold is_live.
    destruct (Z.eqb_spec (de_inode b 0) 0); [lia|]. destruct (Z.eqb_spec (de_inode b o) 0); [done|]. done.
  - unfold to_go. cbn [fst]. nia.
Qed.

Lemma wp_empty_dir calls : c0 `suffix_of` calls -> wp (ext4_empty_dir n) empty_answer (World s h0 calls).
Proof.
  intros Hc0. destruct dotted_facts as (Ebs & Hbits & Hbs & Hmax & Hne & Hin). pose proof (dot_linear _ _ _ Hd) as Hl.
  unfold ext4_empty_dir. do 2 wp_step. rewrite (lin_inline _ _ _ Hl). do 2 wp_step. do 2 wp_step.
  change (ext4_dir_rec_len 1 None + ext4_dir_rec_len 2 None) with 24.
  rewrite (lin_size _ _ _ Hl), (Forall2_length _ _ _ (lin_blocks _ _ _ Hl)).
  destruct (Z.ltb_spec (blocks * bs) 24); [nia|]. wp_step. eapply wp_read_any; [done|lia|grown|..].
  - intros e calls' He Hr. wp_step. split_and!; try done. by right.
  - intros calls' Hc1. by apply wp_empty_first.
Qed.
End Empty.

(** C27: [ext4_empty_dir] on a well-formed linear directory of less than 4 GiB without holes
    (the feature dir_index is off, no inline data) returns, touches nothing and gives its
    buffers back; it says yes only when the two dot entries are the only live ones in all blocks,
    and no only when there is another one, or when in this very run the read of a block failed
    or gave a block whose checksum does not fit. *)
Theorem empty_dir_correct `{EnvFs} `{Csum} `{NameiEnv} `{DirNamesOk} `{DirHooks} `{DirInode} n w ess :
  no_holes -> dotted n (w_st w) ess ->
  wp (ext4_empty_dir n) (fun r w' =>
    w_st w' = w_st w /\ w_held w' = w_held w /\
    if r then length (concat ess) = 2%nat
    else length (concat ess) <> 2%nat \/ block_error n (w_st w) ess (w_calls w) (w_calls w')) w.
Proof.
  intros Hh Hd. destruct w as [s h c]. cbn [w_st w_held] in *. by apply (wp_empty_dir Hh n s ess h c).
Qed.
