(* ===== verification/DirOps.v ===== *)
(** * Making and removing directories and files

    [ext4_mkdir], [ext4_rmdir] and [ext4_create] as operations on the abstract directory:
    the composition of the lookup, insertion and removal of names (Namei.v, NameiSpec.v)
    with the creation and the emptiness test of a directory (MkdirSpec.v). *)

From stdpp Require Import prelude list gmap strings.
From Stdlib Require Import ZArith Lia.
From S2P Require Import Prelude Kernel Bytes Layout Fs Inode Dirent Namei NameiSpec Mkdir MkdirSpec.

Local Open Scope Z_scope.

(** ** Removing a directory *)

Section Rmdir.
Context `{EnvFs} `{Csum} `{NameiEnv} `{DirNamesOk} `{DirHooks} `{DirInode}.
Hypothesis Hcalm : journal_calm.
Hypothesis Hholes : no_holes.
Hypothesis Hmapped : mapped.

Ltac calm_call := match goal with
  | Hc : env_int _ _ _ = ?z |- _ => rewrite Hcalm in Hc by reflexivity; subst z
  end.

Lemma dotted_same n s s' ess : dir_same n s s' -> dotted n s ess -> dotted n s' ess.
Proof using.
  intros Hs [Hl (os & Hdb & Hst) Hsz Hpos]. pose proof Hs as (_ & _ & Ed & _ & Edir & Esz).
  assert (Eb : dir_block s' n 0 = dir_block s n 0) by (unfold dir_block; by rewrite Edir).
  split; [by eapply linear_same| |by rewrite Esz|done]. exists os. by rewrite Ed, Eb.
Qed.

(** The link count of a directory that lost a subdirectory. *)
Definition dec_count (i : inode) : Z :=
  if negb (S_ISDIR (i_mode i)) || (2 <? i_nlink i) then u32 (i_nlink i - 1) else i_nlink i.

(** What the removal does to the two inodes, besides the entry. *)
Definition rmdir_done (n child : Z) (s s' : fs) : Prop :=
  i_nlink (inode_of s' child) = 0 /\ i_size (inode_of s' child) = 0 /\
  i_nlink (inode_of s' n) = dec_count (inode_of s n) /\ only2 n child s s'.

Lemma links_dec n s s' : links n s s' -> dec_count (inode_of s' n) = dec_count (inode_of s n).
Proof using. intros (E1 & E2 & _). unfold dec_count. by rewrite E1, E2. Qed.

Lemma meta_nlink g : meta (fun i => set_nlink (g i) i).
Proof using. intros i. by split_and!. Qed.

Lemma wp_dec_count n s held calls (Q : unit -> world fs -> Prop) :
  (forall s', dir_same n s s' -> others n s s' ->
     i_nlink (inode_of s' n) = dec_count (inode_of s n) -> Q tt (World s' held calls)) ->
  wp (ext4_dec_count n) Q (World s held calls).
Proof using.
  intros HQ. unfold ext4_dec_count, drop_nlink. do 2 wp_step.
  destruct (_ || _) eqn:E; wp_step; apply HQ.
  - apply meta_same. apply meta_nlink.
  - apply others_upd.
  - rewrite inode_of_upd_eq. unfold dec_count. by rewrite E.
  - apply dir_same_refl.
  - apply others_refl.
  - unfold dec_count. by rewrite E.
Qed.

Lemma only2_trans n m s1 s2 s3 : only2 n m s1 s2 -> only2 n m s2 s3 -> only2 n m s1 s3.
Proof using. intros Ha Hb k Hn Hm. rewrite Hb, Ha by done. done. Qed.
Lemma only2_left n m s s' : others n s s' -> only2 n m s s'.
Proof using. intros Ho k Hn _. by apply Ho. Qed.

(** The inode of the removed directory is cleared, the times are set. *)
Lemma rmdir_inodes n child s ts ts' :
  child <> n ->
  let s' := upd_inode child (fun i => set_times (i_mtime i) ts' i)
              (upd_inode n (fun i => set_times ts (i_ctime i) i)
                (upd_inode n (fun i => set_times (i_mtime i) ts i)
                  (upd_inode child (set_isize 0)
                    (upd_inode child (set_nlink 0)
                      (upd_inode child inode_inc_iversion s))))) in
  dir_same n s s' /\ links n s s' /\ i_nlink (inode_of s' child) = 0 /\
  i_size (inode_of s' child) = 0 /\ only2 n child s s'.
Proof using.
  intros Hcn s'. split_and!.
  - repeat (eapply dir_same_trans; [|first [by apply dir_same_other|apply meta_same, meta_times]]).
    apply dir_same_refl.
  - unfold links, s'. rewrite inode_of_upd_ne by done. rewrite !inode_of_upd_eq.
    by rewrite !inode_of_upd_ne by done.
  - unfold s'. rewrite inode_of_upd_eq. cbn. rewrite !(inode_of_upd_ne n) by done. by rewrite !inode_of_upd_eq.
  - unfold s'. rewrite inode_of_upd_eq. cbn. rewrite !(inode_of_upd_ne n) by done. by rewrite !inode_of_upd_eq.
  - intros m Hn Hm. unfold s'. by rewrite !inode_of_upd_ne by done.
Qed.

Lemma wp_rmdir_commit n child blk de name s held calls ess (Q : Z -> world fs -> Prop) :
  linear n s ess -> 0 <= blk < Z.of_nat (length ess) -> is_record n s blk de name -> child <> n ->
  (forall s' ess' calls, linear n s' ess' -> removed (ent (dir_block s n blk) de) ess ess' ->
     rmdir_done n child s s' -> Q 0 (World s' held calls)) ->
  wp (rmdir_commit n child blk de) Q (World s held calls).
Proof.
  intros Hl Hb Hrec Hcn HQ. unfold rmdir_commit. wp_step. eapply wp_delete_entry; try done.
  intros s1 ess' calls1 Hl1 Hrm Ho1 Hk1. cbn [Z.eqb negb].
  unfold clear_nlink, inode_set_ctime_current, inode_set_mtime_to_ts, current_time, ext4_mark_inode_dirty,
    brelse.
  repeat wp_step. calm_call. cbn [Z.eqb negb].
  match goal with |- context [World (upd_inode child _ (upd_inode n (fun i => set_times ?ts _ i) _)) _ _] =>
    destruct (rmdir_inodes n child s1 ts (Ts z2 z3) Hcn) as (Hs2 & Hk2 & Hn2 & Hz2 & Ho2) end.
  match goal with |- wp _ _ (World ?x _ _) => set (s2 := x) in * end. clearbody s2.
  wp_step. apply wp_dec_count. intros s3 Hs3 Ho3 En3. repeat wp_step. calm_call.
  pose proof (meta_same n _ s3 (meta_dx_flag s3)) as Hs4.
  apply (HQ _ ess').
  - eapply linear_same; [|exact Hl1]. eapply dir_same_trans; [|exact Hs4]. by eapply dir_same_trans.
  - done.
  - unfold rmdir_done. rewrite inode_of_upd_ne, inode_of_upd_eq by done. rewrite (Ho3 child Hcn).
    split_and!; [done|done| |].
    + rewrite <- (links_dec n s s2), <- En3 by (by eapply links_trans).
      unfold ext4_update_dx_flag. by destruct (_ && _).
    + eapply only2_trans; [by apply only2_left, Ho1|]. eapply only2_trans; [exact Ho2|].
      apply only2_left. eapply others_trans; [exact Ho3|apply others_upd].
Qed.

Lemma wp_rmdir n child name s h0 calls ess cess (Q : Z -> world fs -> Prop) :
  linear n s ess -> (0 < length ess)%nat ->
  dotted child s cess -> child <> n ->
  (forall err s' calls, err <> 0 -> linear n s' ess -> dotted child s' cess -> others n s s' ->
     links n s s' -> Q err (World s' h0 calls)) ->
  (forall s' e ess' calls, linear n s' ess' -> removed e ess ess' -> e_name e = name ->
     e_ino e = child -> length (concat cess) = 2%nat -> rmdir_done n child s s' ->
     Q 0 (World s' h0 calls)) ->
  wp (ext4_rmdir n name child) Q (World s h0 calls).
Proof.
  intros Hl Hne Hd Hcn Herr HQ.
  assert (Hsame : forall err calls, err <> 0 -> Q err (World s h0 calls)).
  { intros. by apply Herr. }
  unfold ext4_rmdir. do 2 wp_step. case_match; [wp_step; by apply Hsame|].
  do 2 wp_step. destruct (Z.eqb_spec z0 0) as [_|]; cbn [negb]; [|wp_step; by apply Hsame].
  do 2 wp_step. destruct (Z.eqb_spec z1 0) as [_|]; cbn [negb]; [|wp_step; by apply Hsame].
  wp_step. eapply (wp_find_entry Hmapped n s ess name h0); [done| |done|reflexivity].
  intros r calls1 _ Hr. destruct r as [|err|blk de].
  { wp_step. by apply Hsame. }
  { wp_step. apply read_error_reads in Hr as [Hr _]. by apply Hsame. }
  destruct Hr as [Hblk Hrec]. destruct (looked_same n (LFound blk de) s) as [Hsame1 Ho1].
  assert (Hk1 : links n s (looked n (LFound blk de) s)) by (unfold links; simpl; by rewrite inode_of_upd_eq).
  set (s1 := looked n (LFound blk de) s) in *. clearbody s1.
  pose proof (linear_same _ _ _ _ Hsame1 Hl) as Hl1.
  assert (Hd1 : dotted child s1 cess).
  { eapply dotted_same; [|exact Hd]. apply (apart_same n); [|done]. by destruct Hsame1 as (? & ? & _). }
  assert (Eb : dir_block s1 n blk = dir_block s n blk).
  { destruct Hsame1 as (_ & _ & _ & _ & E & _). unfold dir_block. by rewrite E. }
  assert (Hrec1 : is_record n s1 blk de name).
  { destruct Hrec as (os & ? & ? & ? & ?). destruct Hsame1 as (_ & _ & Ed & _). exists os. rewrite Ed, Eb. by split_and!. }
  assert (Hend : forall err calls, err <> 0 ->
    wp (brelse n blk;;; kret err) Q (World s1 (dbh n blk :: h0) calls)).
  { intros err calls' He. unfold brelse, dbh. repeat wp_step. by apply Herr. }
  do 2 wp_step. cbn [found_ref app]. rewrite Eb.
  destruct (Z.eqb_spec (de_inode (dir_block s n blk) de) child) as [Ech|]; cbn [negb]; [|by apply Hend].
  wp_step. eapply wp_mono; [by eapply (wp_empty_dir Hholes child s1 cess (dbh n blk :: h0))|].
  intros [] [s2 held2 calls2] (Es & Eh & Hans); cbn [w_st w_held negb] in *; subst s2 held2; [|by apply Hend].
  wp_step. apply wp_journal_start; [|intros e calls3 He; apply Hend; lia].
  intros calls3. wp_step. eapply wp_rmdir_commit; [done|done|exact Hrec1|done|].
  intros s3 ess' calls4 Hl3 Hrm Hdone. rewrite Eb in Hrm. unfold brelse. wp_step.
  eapply wp_release; [simpl; unfold dbh; by rewrite !Z.eqb_refl|]. cbn [w_st w_held w_calls].
  wp_step. apply wp_journal_stop. intros _ calls5. wp_step.
  destruct (record_entry n blk de name s ess Hl Hblk Hrec) as [_ Hname].
  eapply HQ; try done. destruct Hdone as (? & ? & En & Ho3). split_and!; try done.
  - rewrite En. by apply links_dec.
  - eapply only2_trans; [by apply only2_left|done].
Qed.

(** C28: [ext4_rmdir] in a well-formed linear directory, of another such directory (the feature
    dir_index is off, no inline data, no holes, every block mapped), when the journal accepts
    every buffer and inode it is given.  It removes the directory only when its two dot entries
    are all it holds: then exactly one entry of the parent goes, one with the name and the inode
    number asked for, the removed inode has no links and size 0, and the parent loses a link
    unless its count is not maintained.  The errors that are left (such as an
    unreadable block, no handle, another entry, no such name) leave in both directories the entries they held before.  In both
    cases no buffer or handle stays behind. *)
Theorem rmdir_correct n child name w ess cess :
  linear n (w_st w) ess -> (0 < length ess)%nat ->
  dotted child (w_st w) cess -> child <> n ->
  wp (ext4_rmdir n name child) (fun err w' =>
    w_held w' = w_held w /\
    if err =? 0 then
      length (concat cess) = 2%nat /\
      exists e ess', linear n (w_st w') ess' /\ removed e ess ess' /\ e_name e = name /\
        e_ino e = child /\ rmdir_done n child (w_st w) (w_st w')
    else linear n (w_st w') ess /\ dotted child (w_st w') cess /\ others n (w_st w) (w_st w') /\
      links n (w_st w) (w_st w')) w.
Proof.
  intros Hl Hne Hd Hcn. destruct w as [s h0 calls]. cbn [w_st w_held] in *.
  eapply wp_rmdir; try done.
  - intros err s' calls' He Hl' Hd' Ho Hk. cbn. split; [done|]. by rewrite (proj2 (Z.eqb_neq err 0) He).
  - intros s' e ess' calls' Hl' Hrm Hn Hi Hlen Hdone. cbn. split; [done|]. split; [done|]. by exists e, ess'.
Qed.
End Rmdir.

(** ** Link counts while a name is added *)

(** A computation that leaves the link count and the mode of inode [p] alone. *)
Definition still {A} (p : Z) (m : K fs A) : Prop :=
  forall w a w', m w = Ret a w' -> links p (w_st w) (w_st w').

(** An update of an inode that leaves them alone. *)
Definition linkless (f : inode -> inode) : Prop :=
  forall i, i_nlink (f i) = i_nlink i /\ i_mode (f i) = i_mode i.

Section Still.
Variable p : Z.

Lemma links_refl s : links p s s.
Proof. done. Qed.
Lemma still_ret {A} (a : A) : still p (kret a).
Proof. intros w a' w' [= <- <-]. done. Qed.
Lemma still_oops {A} : still p (@koops fs A).
Proof. intros w a' w' [=]. Qed.
Lemma still_get : still p kget.
Proof. intros w a' w' [= <- <-]. done. Qed.
Lemma still_bind {A B} (m : K fs A) (f : A -> K fs B) :
  still p m -> (forall a, still p (f a)) -> still p (kbind m f).
Proof.
  intros Hm Hf w b w' E. unfold kbind in E. destruct (m w) as [a w1| |] eqn:E1; try done.
  eapply links_trans; [by eapply Hm|by eapply Hf].
Qed.
Lemma still_modify n f : linkless f -> still p (kmodify (upd_inode n f)).
Proof.
  intros Hf w a w' [= <- <-]. unfold links. cbn [w_st]. rewrite inode_of_upd.
  destruct (decide (p = n)) as [->|]; [|done]. by destruct (Hf (inode_of (w_st w) n)).
Qed.
Lemma still_set_block n blk b : still p (kmodify (set_dir_block n blk b)).
Proof. by apply still_modify. Qed.
Lemma still_acquire r : still p (acquire r).
Proof. intros w a w'. unfold acquire. destruct (take_res _ _); [by intros [= <- <-]|done]. Qed.
Lemma still_release r : still p (release r).
Proof. intros w a w'. unfold release. destruct (drop_res _ _); [by intros [= <- <-]|done]. Qed.
Lemma still_call_int `{Env} f args : still p (call_int f args).
Proof. intros w a w' [= <- <-]. done. Qed.
Lemma still_call_ptr `{Env} f args : still p (call_ptr f args).
Proof. intros w a w' [= <- <-]. done. Qed.
Lemma still_kiter {A B} q (body : A -> K fs (A + B)) :
  (forall a, still p (body a)) -> forall a, still p (kiter q body a).
Proof.
  intros Hb. induction q as [q IH|q IH|]; intros a; cbn [kiter]; [| |done].
  - apply still_bind; [done|]. intros [?|?]; [|apply still_ret].
    apply still_bind; [done|]. intros [?|?]; [done|apply still_ret].
  - apply still_bind; [done|]. intros [?|?]; [done|apply still_ret].
Qed.
Lemma still_kloop {A B} q (body : A -> K fs (A + B)) a :
  (forall a, still p (body a)) -> still p (kloop q body a).
Proof.
  intros Hb. apply still_bind; [by apply still_kiter|]. intros [?|?]; [apply still_oops|apply still_ret].
Qed.
End Still.

Lemma linkless_times f g : linkless (fun i => set_times (f i) (g i) i).
Proof. done. Qed.
Lemma linkless_dx s : linkless (ext4_update_dx_flag s).
Proof. intros i. unfold ext4_update_dx_flag. by destruct (_ && _). Qed.
Lemma linkless_commit s : linkless (fun i => inode_inc_iversion (ext4_update_dx_flag s i)).
Proof. intros i. apply linkless_dx. Qed.

Create HintDb stilldb.
#[export] Hint Resolve still_set_block linkless_times linkless_dx linkless_commit : stilldb.
Ltac still_step :=
  lazymatch goal with
  | |- still _ (kret _) => apply still_ret
  | |- still _ koops => apply still_oops
  | |- still _ kget => apply still_get
  | |- still _ (kbind _ _) => apply still_bind; [|intros ?]
  | |- still _ (kmodify (upd_inode _ _)) => apply still_modify; first [done|solve [auto with stilldb]]
  | |- still _ (kmodify (set_dir_block _ _ _)) => apply still_set_block
  | |- still _ (acquire _) => apply still_acquire
  | |- still _ (release _) => apply still_release
  | |- still _ (call_int _ _) => apply still_call_int
  | |- still _ (call_ptr _ _) => apply still_call_ptr
  | |- still _ (kloop _ _ _) => apply still_kloop; intros ?
  | |- still _ (match ?x with _ => _ end) => destruct x
  end.
Ltac still_auto := repeat (still_step || (solve [eauto with stilldb]) || (progress cbv zeta)).

(** The other directory formats do not change link counts when a name is added. *)
Class HooksLinks `{DirHooks} := {
  links_try_add_inline p n c f : still p (ext4_try_add_inline_entry n c f);
  links_dx_add p n c f : still p (ext4_dx_add_entry n c f);
  links_make_indexed p n c f : still p (make_indexed_dir n c f)
}.
#[export] Hint Resolve links_try_add_inline links_dx_add links_make_indexed : stilldb.

Section AddStill.
Context `{Env} `{Csum} `{NameiEnv} `{DirNames} `{HooksLinks}.
Variable p : Z.

Lemma still_append n : still p (ext4_append n).
Proof. unfold ext4_append, ext4_bread, ext4_mark_inode_dirty, brelse, dbh. still_auto. Qed.
Lemma still_read_dirblock n blk t : still p (__ext4_read_dirblock n blk t).
Proof. unfold __ext4_read_dirblock, ext4_bread, brelse, dbh. still_auto. Qed.
Lemma still_add_dirent n child blk fname de : still p (add_dirent_to_buf n child blk fname de).
Proof.
  unfold add_dirent_to_buf, add_commit, inode_set_ctime_current, inode_set_mtime_to_ts, current_time,
    ext4_mark_inode_dirty, ext4_handle_dirty_dirblock. still_auto.
Qed.
Hint Resolve still_append still_read_dirblock still_add_dirent : stilldb.

Lemma still_add_out n child bh ret : still p (add_out n child bh ret).
Proof. unfold add_out, brelse, dbh. still_auto. Qed.
Hint Resolve still_add_out : stilldb.
Lemma still_add_to_new_block n child blk fname bh : still p (add_to_new_block n child blk fname bh).
Proof. unfold add_to_new_block. still_auto. Qed.
Hint Resolve still_add_to_new_block : stilldb.
Lemma still_add_loop n child blocks fb fname k : forall blk,
  still p (add_loop k n child blk blocks fb fname).
Proof.
  induction k as [|k IH]; intros; cbn [add_loop]; unfold ext4_bread, brelse, dbh; still_auto; auto.
Qed.
Hint Resolve still_add_loop : stilldb.

(** [ext4_add_entry] leaves every link count alone. *)
Lemma still_add_entry n child name : still p (ext4_add_entry n child name).
Proof.
  unfold ext4_add_entry, ext4_fname_setup_filename, ext4_fname_setup_ci_filename, add_entry_fname,
    add_linear, ext4_mark_inode_dirty. still_auto.
Qed.
End AddStill.

Lemma wp_still {A} p (m : K fs A) (Q : A -> world fs -> Prop) w :
  still p m -> wp m (fun a w' => links p (w_st w) (w_st w') -> Q a w') w -> wp m Q w.
Proof. intros Hs. unfold wp. destruct (m w) eqn:E; [|done..]. intros HQ. apply HQ. by eapply Hs. Qed.

(** ** Making a directory *)

(** A state that differs in no inode and in neither super block. *)
Definition same_inodes (s s' : fs) : Prop :=
  f_sbi s' = f_sbi s /\ f_es s' = f_es s /\ forall m, inode_of s' m = inode_of s m.

(** The inode [ext4_new_inode] sets up in directory [n]: a number of the file system
    other than the directory's, the type of the mode asked for, one link, no data.  The
    casefold and encryption flags are inherited, and data is kept in the inode only with
    the inline_data feature. *)
Record new_inode `{NameiEnv} (n mode : Z) (s : fs) (ino : Z) (s' : fs) : Prop := {
  ni_apart : apart ino s s';
  ni_ino : ino <> n /\ valid_ino s ino;
  ni_type : Z.land (i_mode (inode_of s' ino)) S_IFMT = Z.land mode S_IFMT;
  ni_links : i_nlink (inode_of s' ino) = 1;
  ni_empty : i_dir (inode_of s' ino) = [] /\ i_size (inode_of s' ino) = 0;
  ni_plain : plain (dctx s n) -> plain (dctx s' ino);
  ni_inline : ext4_has_inline_data s' ino = false;
  ni_may_inline : ext4_has_feature_inline_data (f_es s) = false ->
    ext4_test_inode_state (inode_of s' ino) EXT4_STATE_MAY_INLINE_DATA = false
}.

(** [ext4_new_inode_start_handle] starts a handle and answers a locked new inode, or
    answers an error, with or without the handle. *)
Class NewInodeOk `{NameiEnv} `{DirInode} := {
  new_inode_wp n mode name s held calls (Q : Z + Z -> world fs -> Prop) :
    (forall e s' handle calls, e < 0 -> same_inodes s s' ->
       Q (inl e) (World s' ((if handle : bool then [Ref RHandle] else []) ++ held) calls)) ->
    (forall ino s' calls, new_inode n mode s ino s' ->
       Q (inr ino) (World s' (Ref RHandle :: Excl (LNew ino) :: Ref (RInode ino) :: held) calls)) ->
    wp (ext4_new_inode_start_handle n mode name) Q (World s held calls)
}.

(** The type bits of a mode with permission bits only. *)
Lemma dir_mode_type mode : 0 <= mode < 4096 -> Z.land (Z.lor S_IFDIR mode) S_IFMT = S_IFDIR.
Proof.
  intros Hm. rewrite Z.land_lor_distr_l. replace (Z.land mode S_IFMT) with 0; [done|]. symmetry.
  apply Z.bits_inj'. intros i Hi. rewrite Z.land_spec, Z.bits_0. change S_IFMT with (Z.shiftl 15 12).
  rewrite Z.shiftl_spec by done. destruct (Z.ltb_spec i 12).
  - rewrite (Z.testbit_neg_r 15) by lia. apply andb_false_r.
  - rewrite (Z.testbit_eqb mode) by done. rewrite Z.div_small; [done|].
    split; [lia|]. eapply Z.lt_le_trans; [apply Hm|]. change 4096 with (2 ^ 12). apply Z.pow_le_mono_r; lia.
Qed.

Lemma meta_newentry : meta (fun i => ext4_set_inode_state i EXT4_STATE_NEWENTRY).
Proof.
  intros i. split_and!; try done. intros b Hb. unfold ext4_set_inode_state, ext4_set_inode_flag, EXT4_STATE_NEWENTRY.
  apply Z.setbit_neq; [lia|]. intros <-. unfold EXT4_INODE_ENCRYPT, EXT4_INODE_CASEFOLD, EXT4_INODE_INLINE_DATA in Hb.
  apply elem_of_cons in Hb as [?|Hb]; [done|].
  apply elem_of_cons in Hb as [?|Hb]; [done|]. by apply list_elem_of_singleton in Hb.
Qed.

Lemma wp_current_handle (Q : bool -> world fs -> Prop) w :
  Q (existsb (res_eqb (Ref RHandle)) (w_held w)) w -> wp ext4_journal_current_handle Q w.
Proof. done. Qed.

Section Mkdir.
Context `{EnvFs} `{Csum} `{NameiEnv} `{DirNamesOk} `{DirHooks} `{!HooksLinks} `{DirInode} `{!NewInodeOk}.
Hypothesis Hcalm : journal_calm.
Hypothesis Hholes : no_holes.
Hypothesis Hretry : retry_bounded.

Ltac calm_call := match goal with
  | Hc : env_int _ _ _ = ?z |- _ => rewrite Hcalm in Hc by reflexivity; subst z
  end.

Variables (n mode : Z) (name : list Z) (ess : list (list dent)) (h0 : list res).
Hypothesis Hname : name_ok (Filename name name None 0 0).
Hypothesis Hhandle : existsb (res_eqb (Ref RHandle)) h0 = false.

(** What the tries keep: the entries, link count and mode of the directory. *)
Definition try_inv (s0 s : fs) : Prop :=
  linear n s ess /\ dir_same n s0 s /\ links n s0 s /\ valid_ino s n.

(** A new inode in a linear directory. *)
Lemma new_inode_blank md s ino s' :
  linear n s ess -> ext4_has_feature_inline_data (f_es s) = false ->
  new_inode n md s ino s' -> blank ino s'.
Proof using.
  intros Hl Hf [(E1 & E2 & Ho) [_ Hv] _ _ [Hdir Hsz] Hpl Hin Hmay].
  split; [|split; [by apply Hmay|unfold valid_ino in *; by rewrite E2]].
  destruct Hl as [Hp Hg _ Hx _ Hbits _]. split; try done.
  - by apply Hpl.
  - destruct Hg as (? & ? & ?). unfold dir_geometry in *. simpl in *. rewrite E1. done.
  - by rewrite E2.
  - rewrite Hsz, Hdir. done.
  - unfold s_blocksize_bits in *. by rewrite E1.
  - by rewrite Hdir.
Qed.

Lemma apart_links c m s s' : apart c s s' -> m <> c -> links m s s'.
Proof using. intros (E1 & E2 & Ho) Hne. unfold links. by rewrite (Ho m Hne). Qed.

Lemma try_inv_apart c s0 s s' : apart c s s' -> n <> c -> try_inv s0 s -> try_inv s0 s'.
Proof using.
  intros Ha Hne (Hl & Hs & Hk & Hv). pose proof (apart_same c n s s' Ha Hne) as Hs'. split_and!.
  - by eapply linear_same.
  - by eapply dir_same_trans.
  - eapply links_trans; [exact Hk|by eapply apart_links].
  - destruct Ha as (_ & E & _). unfold valid_ino in *. by rewrite E.
Qed.

(** [out_clear_inode] gives back everything the new inode brought. *)
Lemma wp_mkdir_undo child err s calls (Q : Z -> world fs -> Prop) :
  (forall s' calls, apart child s s' -> Q err (World s' h0 calls)) ->
  wp (mkdir_undo child err) Q
    (World s (Ref RHandle :: Excl (LNew child) :: Ref (RInode child) :: h0) calls).
Proof.
  intros HQ. unfold mkdir_undo, clear_nlink, unlock_new_inode, ext4_mark_inode_dirty, iput.
  repeat wp_step. calm_call. apply wp_journal_stop. intros _ calls'. repeat wp_step. cbn [Z.eqb negb].
  apply HQ. apply apart_upd.
Qed.

Lemma wp_stop_handle (handle : bool) s held calls (Q : unit -> world fs -> Prop) :
  (forall calls, Q tt (World s held calls)) ->
  wp (stop_handle handle) Q (World s ((if handle then [Ref RHandle] else []) ++ held) calls).
Proof using.
  intros HQ. unfold stop_handle. destruct handle; cbn [app]; [|by wp_step].
  wp_step. apply wp_journal_stop. intros _ calls'. wp_step. apply HQ.
Qed.

Lemma new_dir_same child s s' :
  dir_same child s s' -> links child s s' -> new_dir child n s -> new_dir child n s'.
Proof using.
  intros Hs [Ek _] [Hd Hn]. pose proof Hs as (_ & _ & Ed & _). split; [|by rewrite Ek].
  rewrite Ed. by eapply dotted_same.
Qed.

(** The directory [child] was made in [n]. *)
Definition made (child : Z) (s0 s' : fs) (ess' : list (list dent)) : Prop :=
  child <> n /\ linear n s' ess' /\ added (Dent name child (dir_type (dctx s0 n))) ess ess' /\
  new_dir child n s' /\ i_nlink (inode_of s' n) = u32 (i_nlink (inode_of s0 n) + 1).

(** The end of a try that succeeded: the parent's link and the dentry. *)
Lemma wp_mkdir_finish child s0 s ess' calls (Q : Z -> world fs -> Prop) :
  child <> n -> linear n s ess' -> added (Dent name child (dir_type (dctx s0 n))) ess ess' ->
  new_dir child n s -> links n s0 s ->
  (forall s' calls, made child s0 s' ess' -> Q 0 (World s' h0 calls)) ->
  wp (ext4_inc_count n;;;
      s <~ kget;;
      kmodify (upd_inode n (ext4_update_dx_flag s));;;
      err <~ ext4_mark_inode_dirty n;;
      if negb (err =? 0) then mkdir_undo child err else
      d_instantiate_new child;;; stop_handle true;;; kret err) Q
    (World s (Ref RHandle :: Excl (LNew child) :: Ref (RInode child) :: h0) calls).
Proof.
  intros Hcn Hl Hadd Hnew (Ek & _) HQ. unfold ext4_inc_count, inc_nlink, ext4_mark_inode_dirty, d_instantiate_new,
    unlock_new_inode. repeat wp_step. unfold is_dx.
  set (s1 := upd_inode n (fun i => set_nlink (u32 (i_nlink i + 1)) i) s).
  change (f_es s1) with (f_es s). rewrite (lin_nodx _ _ _ Hl). cbn [andb]. repeat wp_step.
  calm_call. cbn [Z.eqb negb]. repeat wp_step. apply (wp_stop_handle true). intros calls'. wp_step.
  apply HQ. set (s2 := upd_inode n (ext4_update_dx_flag s1) s1).
  assert (Ho : others n s s2) by (eapply others_trans; apply others_upd).
  assert (Hs : dir_same n s s2).
  { eapply dir_same_trans; apply meta_same; [apply meta_nlink|apply meta_dx_flag]. }
  assert (Ha : apart n s s2) by done.
  split_and!; try done.
  - by eapply linear_same.
  - eapply new_dir_same; [by apply (apart_same n)| |done]. unfold links. by rewrite (Ho child Hcn).
  - unfold s2. rewrite inode_of_upd_eq. rewrite (proj1 (linkless_dx s1 (inode_of s1 n))).
    unfold s1. rewrite inode_of_upd_eq. cbn. by rewrite Ek.
Qed.

(** The name is added for the new directory. *)
Lemma wp_mkdir_add child s0 s2 calls held (Q : Z -> world fs -> Prop) :
  child <> n -> try_inv s0 s2 -> valid_ino s2 child -> new_dir child n s2 ->
  Z.land (i_mode (inode_of s2 child)) S_IFMT = S_IFDIR ->
  (forall err calls, err <> 0 -> Q err (World s2 held calls)) ->
  (forall s' ess' calls, linear n s' ess' -> added (Dent name child (dir_type (dctx s0 n))) ess ess' ->
     new_dir child n s' -> links n s0 s' -> Q 0 (World s' held calls)) ->
  wp (ext4_add_entry n child name) Q (World s2 held calls).
Proof.
  intros Hcn (Hl & Hs & Hk & _) [Hci Hcm] Hnew Hty Herr HQ.
  apply (wp_still n); [apply still_add_entry|].
  eapply wp_add_entry; try done; [by intros; apply Herr|].
  intros s' ess' calls' Hl' Hadd Ho Hk'.
  assert (Hs' : dir_same n s' (entry_set s' child)) by by apply dir_same_other.
  apply (HQ _ ess').
  - by eapply linear_same.
  - unfold new_dent in Hadd. change 0xF000 with S_IFMT in Hadd. rewrite Hty in Hadd. destruct Hs as (_ & _ & Ed & _). rewrite Ed in Hadd.
    unfold dir_type. exact Hadd.
  - eapply new_dir_same; [apply meta_same, meta_newentry| |].
    + unfold links, entry_set. by rewrite inode_of_upd_eq.
    + assert (Ha : apart n s2 s') by (destruct Hk' as (_ & _ & ? & ?); by split_and!).
      eapply new_dir_same; [by apply (apart_same n child s2 s')|by eapply apart_links|exact Hnew].
  - eapply links_trans; [exact Hk|done].
Qed.

(** One try: an error and the directory as it was, or a new directory in it. *)
Lemma wp_mkdir_try s0 s calls (Q : Z -> world fs -> Prop) :
  0 <= mode < 4096 -> ext4_has_feature_inline_data (f_es s0) = false -> try_inv s0 s ->
  (forall err s' calls, err <> 0 -> try_inv s0 s' -> Q err (World s' h0 calls)) ->
  (forall child s' ess' calls, made child s0 s' ess' -> Q 0 (World s' h0 calls)) ->
  wp (mkdir_try n mode name) Q (World s h0 calls).
Proof.
  intros Hmode Hfeat Hinv Herr HQ. unfold mkdir_try. wp_step. apply new_inode_wp.
  - intros e s' handle calls' He (E1 & E2 & E3). wp_step. apply wp_current_handle. cbn [w_held].
    assert (existsb (res_eqb (Ref RHandle)) ((if handle then [Ref RHandle] else []) ++ h0) = handle) as ->.
    { destruct handle; [done|exact Hhandle]. }
    wp_step. apply wp_stop_handle. intros calls''. wp_step. apply Herr; [lia|].
    eapply (try_inv_apart (n + 1)); [|lia|exact Hinv]. split; [done|]. split; [done|].
    intros m _. apply E3.
  - intros child s1 calls1 Hni. pose proof Hni as [Ha [Hcn Hcv] Hty _ _ _ _ _].
    pose proof (try_inv_apart _ s0 _ _ Ha (not_eq_sym Hcn) Hinv) as Hinv1.
    assert (Hb : blank child s1).
    { eapply new_inode_blank; [apply Hinv| |exact Hni]. destruct Hinv as (_ & (_ & -> & _) & _). done. }
    wp_step. apply wp_current_handle. cbn [w_held existsb res_eqb refid_eqb orb].
    assert (Hundo : forall err s2 calls2, err <> 0 -> apart child s1 s2 ->
      wp (mkdir_undo child err) Q
        (World s2 (Ref RHandle :: Excl (LNew child) :: Ref (RInode child) :: h0) calls2)).
    { intros err s2 calls2 He Ha2. apply wp_mkdir_undo. intros s3 calls3 Ha3. apply Herr; [done|].
      eapply (try_inv_apart child); [exact (apart_trans _ _ _ _ Ha2 Ha3)|congruence|exact Hinv1]. }
    wp_step. eapply (wp_init_new_dir Hcalm Hholes); [done|apply Hinv1|..].
    + intros e s2 calls2 He Ha2. destruct (Z.eqb_spec e 0); [lia|]. cbn [negb]. apply Hundo; [lia|done].
    + intros s2 calls2 Hnew Ha2 Hm2. cbn [Z.eqb negb]. unfold ext4_mark_inode_dirty at 1.
      do 2 wp_step. calm_call. cbn [Z.eqb]. wp_step.
      pose proof (try_inv_apart _ s0 _ _ Ha2 (not_eq_sym Hcn) Hinv1) as Hinv2.
      eapply (wp_mkdir_add child s0 s2); try done.
      * destruct Hb as (_ & _ & Hv). destruct Ha2 as (_ & E & _). unfold valid_ino in *. by rewrite E.
      * by rewrite Hm2, Hty, dir_mode_type.
      * intros err calls3 He. destruct (Z.eqb_spec err 0); [done|]. cbn [negb]. by apply Hundo.
      * intros s3 ess' calls3 Hl3 Hadd3 Hnew3 Hk3. cbn [Z.eqb negb].
        apply (wp_mkdir_finish child s0 s3 ess'); try done. intros s4 calls4 Hmade. by eapply HQ.
Qed.

(** The tries end: a failed one keeps [I], and the last one reports its error. *)
Lemma wp_retry_loop (try : K fs Z) (I : fs -> Prop) (Q : Z -> world fs -> Prop) :
  (forall s calls, I s -> wp try (fun err w =>
     if err =? 0 then Q 0 w
     else I (w_st w) /\ w_held w = h0 /\ forall calls, Q err (World (w_st w) h0 calls)) (World s h0 calls)) ->
  forall fuel retries s calls, 0 <= retries <= 3 -> 3 - retries < Z.of_nat fuel -> I s ->
    wp (retry_loop fuel retries try) Q (World s h0 calls).
Proof using Hretry.
  intros Htry. induction fuel as [|fuel IH]; intros retries s calls Hr Hf HI; [lia|].
  cbn [retry_loop]. wp_step. eapply wp_mono; [by apply Htry|].
  intros err [s' h' calls']. cbn [w_st w_held]. unfold should_retry.
  destruct (Z.eqb_spec err 0) as [->|He].
  - intros HQ. wp_step. change (0 =? - ENOSPC) with false. cbv iota. by repeat wp_step.
  - intros (HI' & -> & HQ). wp_step. destruct (err =? - ENOSPC); [|by repeat wp_step].
    do 3 wp_step. destruct (Z.eqb_spec z 0) as [|Hz]; cbn [negb]; [wp_step; apply HQ|].
    assert (~ 3 <= retries) by (intros Hge; rewrite Hretry in Hc by done; done).
    apply IH; [lia|lia|done].
Qed.

(** What a creation promises its caller; [P] is the case of success. *)
Definition creation (s0 : fs) (P : fs -> Prop) (err : Z) (w : world fs) : Prop :=
  w_held w = h0 /\ if err =? 0 then P (w_st w) else try_inv s0 (w_st w).

Lemma wp_creation s0 (P : fs -> Prop) (try : K fs Z) calls :
  try_inv s0 s0 ->
  (forall s calls (Q : Z -> world fs -> Prop), try_inv s0 s ->
     (forall err s' calls, err <> 0 -> try_inv s0 s' -> Q err (World s' h0 calls)) ->
     (forall s' calls, P s' -> Q 0 (World s' h0 calls)) -> wp try Q (World s h0 calls)) ->
  wp (retry_loop 5 0 try) (creation s0 P) (World s0 h0 calls).
Proof using Hretry.
  intros Hinv Htry. apply (wp_retry_loop try (try_inv s0)); [|lia|lia|done].
  intros s calls' HI. apply Htry; [done|..].
  - intros err s' calls'' He HI'. unfold creation. cbn [w_st w_held].
    rewrite (proj2 (Z.eqb_neq err 0) He). by split_and!.
  - intros s' calls'' HP. by split.
Qed.

Lemma try_inv_refl s : linear n s ess -> valid_ino s n -> try_inv s s.
Proof using. intros. split_and!; try done. Qed.

(** C29: [ext4_mkdir] in a well-formed linear directory (the features dir_index and inline_data
    are off, no holes), when the journal accepts every buffer and inode it is given, at most
    three retries are asked for, and ext4_new_inode answers a new inode or an error: it returns
    with everything it took given back.  On success the directory holds exactly one entry more,
    the name with a new inode of directory type; that inode is a well-formed directory with link
    count 2 whose only entries are the two dot entries, naming itself and its parent; and the
    parent's link count grew by one.  On the errors that are left (such as no inode, no space, no handle,
    an unreadable block, the name is there) the directory holds the entries it held, with the
    same link count; with the maximal number of links nothing at all is changed. *)
Theorem mkdir_correct s calls :
  linear n s ess -> valid_ino s n -> 0 <= mode < 4096 ->
  ext4_has_feature_inline_data (f_es s) = false ->
  wp (ext4_mkdir n mode name) (fun err w' =>
    if EXT4_DIR_LINK_MAX s n then err = - EMLINK /\ w' = World s h0 calls
    else creation s (fun s' => exists child ess', made child s s' ess') err w') (World s h0 calls).
Proof.
  intros Hl Hv Hmode Hfeat. unfold ext4_mkdir. do 2 wp_step.
  destruct (EXT4_DIR_LINK_MAX s n); [by wp_step|].
  do 2 wp_step. destruct (Z.eqb_spec z 0); cbn [negb].
  - apply wp_creation; [by apply try_inv_refl|]. intros s1 calls1 Q HI Herr HQ.
    eapply (wp_mkdir_try s); try done. intros child s' ess' calls' Hm. apply HQ. by exists child, ess'.
  - wp_step. unfold creation. cbn [w_st w_held]. rewrite (proj2 (Z.eqb_neq z 0)) by done.
    split; [done|by apply try_inv_refl].
Qed.

(** ** Making a file *)

(** The file [child] was made in [n]. *)
Definition created (md child : Z) (s0 s' : fs) (ess' : list (list dent)) : Prop :=
  child <> n /\ linear n s' ess' /\
  added (new_dent (dctx s0 n) child md (Filename name name None 0 0)) ess ess' /\
  i_nlink (inode_of s' child) = 1 /\ links n s0 s'.

(** What the set-up of the new inode may do: change that inode, but not its type and
    its link count. *)
Definition setup_ok (setup : Z -> K fs unit) : Prop := forall child s held calls (Q : unit -> world fs -> Prop),
  (forall s' calls, apart child s s' -> links child s s' -> Q tt (World s' held calls)) ->
  wp (setup child) Q (World s held calls).

Lemma type_dent d child md md' fname :
  Z.land md S_IFMT = Z.land md' S_IFMT -> new_dent d child md fname = new_dent d child md' fname.
Proof using. intros E. unfold new_dent. change 0xF000 with S_IFMT. by rewrite E. Qed.

Lemma wp_create_try setup s0 s calls (Q : Z -> world fs -> Prop) :
  setup_ok setup -> try_inv s0 s ->
  (forall err s' calls, err <> 0 -> try_inv s0 s' -> Q err (World s' h0 calls)) ->
  (forall child s' ess' calls, created mode child s0 s' ess' -> Q 0 (World s' h0 calls)) ->
  wp (create_try setup n mode name) Q (World s h0 calls).
Proof.
  intros Hsetup Hinv Herr HQ. unfold create_try. wp_step. apply new_inode_wp.
  - intros e s' handle calls' He (E1 & E2 & E3). wp_step. apply wp_current_handle. cbn [w_held].
    assert (existsb (res_eqb (Ref RHandle)) ((if handle then [Ref RHandle] else []) ++ h0) = handle) as ->.
    { destruct handle; [done|exact Hhandle]. }
    wp_step. apply wp_stop_handle. intros calls''. wp_step. apply Herr; [lia|].
    eapply (try_inv_apart (n + 1)); [|lia|exact Hinv]. split; [done|]. split; [done|].
    intros m _. apply E3.
  - intros child s1 calls1 [Ha1 [Hcn Hcv] Hty1 Hk1 _ _ _ _].
    wp_step. apply wp_current_handle. cbn [w_held existsb res_eqb refid_eqb orb].
    wp_step. apply Hsetup. intros s2 calls2 Ha2 Hk2.
    pose proof (apart_trans _ _ _ _ Ha1 Ha2) as Ha.
    pose proof (try_inv_apart _ s0 _ _ Ha (not_eq_sym Hcn) Hinv) as Hinv2.
    wp_step. unfold ext4_add_nondir. wp_step. apply (wp_still n); [apply still_add_entry|].
    destruct Hinv2 as (Hl2 & Hs2 & Hkn & Hv2). destruct Hcv as [Hc1 Hc2].
    eapply wp_add_entry; try done.
    { by destruct Ha as (_ & -> & _). }
    + intros err calls3 He _. rewrite (proj2 (Z.eqb_neq err 0) He).
      unfold drop_nlink, ext4_mark_inode_dirty, unlock_new_inode, iput. repeat wp_step.
      apply (wp_stop_handle true). intros calls4. repeat wp_step. apply Herr; [done|].
      eapply (try_inv_apart child); [apply apart_upd|congruence|by split_and!].
    + intros s3 ess' calls3 Hl3 Hadd Ho3 Hk3. cbn [Z.eqb].
      unfold ext4_mark_inode_dirty, d_instantiate_new, unlock_new_inode. repeat wp_step. calm_call.
      apply (wp_stop_handle true). intros calls4. repeat wp_step.
      apply (HQ child _ ess'). split_and!.
      * done.
      * eapply linear_same; [|exact Hl3]. by apply dir_same_other.
      * destruct Hs2 as (_ & _ & Ed & _). rewrite Ed in Hadd.
        erewrite type_dent; [exact Hadd|]. destruct Hk2 as (_ & -> & _). done.
      * unfold entry_set. rewrite inode_of_upd_eq. cbn. rewrite (Ho3 child Hcn).
        destruct Hk2 as (-> & _). done.
      * by eapply links_trans.
Qed.

Lemma wp_create setup s calls :
  setup_ok setup -> linear n s ess -> valid_ino s n ->
  wp (err <~ call_int "dquot_initialize"%string [n];;
      if negb (err =? 0) then kret err else retry_loop 5 0 (create_try setup n mode name))
    (creation s (fun s' => exists child ess', created mode child s s' ess')) (World s h0 calls).
Proof.
  intros Hsetup Hl Hv. do 2 wp_step. destruct (Z.eqb_spec z 0); cbn [negb].
  - apply wp_creation; [by apply try_inv_refl|]. intros s1 calls1 Q HI Herr HQ.
    eapply (wp_create_try setup s); try done. intros child s' ess' calls' Hm. apply HQ. by exists child, ess'.
  - wp_step. unfold creation. cbn [w_st w_held]. rewrite (proj2 (Z.eqb_neq z 0)) by done.
    split; [done|by apply try_inv_refl].
Qed.

(** C30: [ext4_create] in a well-formed linear directory (the feature dir_index is off, no inline
    data, no holes), when the journal accepts every buffer and inode it is given, at most three
    retries are asked for, and ext4_new_inode answers a new inode or an error: it adds exactly
    one entry, the name with a new inode of one link and the type of the mode asked for, and
    leaves the directory's own link count alone; on the errors that are left (such as no inode, no
    space, no handle, an unreadable block, the name is there) the directory holds the entries it
    held.  Handle, inode lock and inode reference are given back on every path. *)
Theorem create_correct s calls :
  linear n s ess -> valid_ino s n ->
  wp (ext4_create n mode name)
    (creation s (fun s' => exists child ess', created mode child s s' ess')) (World s h0 calls).
Proof.
  intros Hl Hv. apply wp_create; [|done|done]. intros child s' held calls' Q HQ. wp_step.
  apply HQ; [apply apart_refl|done].
Qed.

(** [ext4_mknod] likewise, for a set-up of special inodes that keeps their type. *)
Lemma mknod_correct rdev s calls :
  setup_ok (fun child => init_special_inode child rdev) -> linear n s ess -> valid_ino s n ->
  wp (ext4_mknod n mode rdev name)
    (creation s (fun s' => exists child ess', created mode child s s' ess')) (World s h0 calls).
Proof. apply wp_create. Qed.
End Mkdir.
