(* ===== verification/Dx.v ===== *)
(** * Hash-tree directories (fs/ext4/namei.c)

    The root of the tree is block 0, after "." and ".."; up to two (with the large
    directory feature three) levels of index blocks lead to the leaf blocks.  A probe
    fills one frame per level: the buffer, the array of entries and the entry followed.
    [frames] is the list of the frames in use, the root first; the code's pointer
    [frame] is the last of them.

    This file models the probe, the step to the next leaf, the lookup, the listing in
    hash order, the split of a leaf and of an index, and the conversion of a linear
    directory, and instantiates the hash-tree operations of [DirHooks] with them. *)

From stdpp Require Import prelude list gmap strings.
From Stdlib Require Import ZArith Lia.
From S2P Require Import Prelude Kernel Bytes Bmt Layout ExtentNode ExtentTree Fs Block Inode Dirent DxBlock Namei.

Local Open Scope string_scope.
Local Open Scope Z_scope.

Definition EXT4_HTREE_LEVEL_COMPAT : Z := 2.
Definition EXT4_HTREE_LEVEL : Z := 3.
Definition HASH_NB_ALWAYS : Z := 1.

Definition ext4_dir_htree_level (es : list Z) : Z :=
  if ext4_has_incompat es EXT4_FEATURE_INCOMPAT_LARGEDIR
  then EXT4_HTREE_LEVEL else EXT4_HTREE_LEVEL_COMPAT.

(** [struct dx_root] and [struct dx_node]: offsets in the block. *)
Definition dx_root_info : Z := 24.
Definition info_hash_version (b : list Z) : Z := getb b 28.
Definition info_length (b : list Z) : Z := getb b 29.
Definition info_indirect_levels (b : list Z) : Z := getb b 30.
Definition info_unused_flags (b : list Z) : Z := getb b 31.
Definition sizeof_dx_root_info : Z := 8.
Definition root_entries : Z := 32.
Definition node_entries : Z := 8.

(** [struct dx_frame]: the logical block of the buffer, and two offsets in it. *)
Record dx_frame := Frame { fr_bh : Z; fr_entries : Z; fr_at : Z }.
#[export] Instance dx_frame_inhabited : Inhabited dx_frame := populate (Frame 0 0 0).

(** [struct dx_hash_info] *)
Record dx_hash_info := HInfo { h_hash : Z; h_minor_hash : Z; h_version : Z }.

(** A name with the hashes of [hinfo]. *)
Definition with_hinfo (fname : ext4_filename) (h : dx_hash_info) : ext4_filename :=
  Filename (usr_fname fname) (disk_name fname) (cf_name fname) (h_hash h) (h_minor_hash h).

Section Dx.
Context `{Env} `{Csum} `{NameiEnv} `{DirNames}.

(** [dx_get_block(frame->at)] *)
Definition frame_block (s : fs) (n : Z) (f : dx_frame) : Z :=
  dx_get_block (dir_block s n (fr_bh f)) (fr_at f).

(** [ext4_handle_dirty_dx_node] *)
Definition ext4_handle_dirty_dx_node (n blk : Z) : K fs Z :=
  s <~ kget;;
  kmodify (set_dir_block n blk (ext4_dx_csum_set (dctx s n) (dir_block s n blk)));;;
  call_int "ext4_handle_dirty_metadata" [n; blk].

(** *** Probing *)

(** [fail]: the buffers of the frames, the last first. *)
Fixpoint release_frames (n : Z) (rframes : list dx_frame) : K fs unit :=
  match rframes with
  | [] => kret tt
  | f :: rframes => brelse n (fr_bh f);;; release_frames n rframes
  end.

(** The version of the hash and, for a name, its hash: an error or the hash
    information. *)
Definition probe_hash (s : fs) (n : Z) (root : list Z) (fname : option ext4_filename)
    (hinfo : dx_hash_info) : Z + dx_hash_info :=
  let d := dctx s n in
  let version := info_hash_version root in
  let version := if version <=? DX_HASH_TEA then version + nm_hash_unsigned else version in
  match fname with
  | Some fname =>
      if d_encrypted d && d_casefolded d
      then inr (HInfo (hi_hash fname) (hi_minor_hash fname) version)
      else
        let '(err, (hash, minor)) := ext4fs_dirhash version (disk_name fname) in
        if err <? 0 then inl err else inr (HInfo hash minor version)
  | None => inr (HInfo (h_hash hinfo) (h_minor_hash hinfo) version)
  end.

(** The checks of the root before its entries are used. *)
Definition hash_version_ok (d : dirctx) (version : Z) : bool :=
  ((version =? DX_HASH_TEA) || (version =? DX_HASH_HALF_MD4) || (version =? DX_HASH_LEGACY) ||
   (version =? DX_HASH_SIPHASH)) &&
  Bool.eqb (ext4_hash_in_dirent d) (version =? DX_HASH_SIPHASH).

(** [while (1)] of [dx_probe]: the frame of block [blk] is searched, [k] more levels
    may follow; [done] are the frames above, the last first, [blocks] their blocks. *)
Fixpoint probe_loop (k : nat) (n hash blk entries : Z) (done : list dx_frame) (blocks : list Z)
    : K fs (Z + list dx_frame) :=
  let fail err rframes := release_frames n rframes;;; kret (inl err) in
  s <~ kget;;
  let d := dctx s n in
  let b := dir_block s n blk in
  let count := dx_get_count b entries in
  let here at_ := Frame blk entries at_ :: done in
  if (count =? 0) || (dx_get_limit b entries <? count) then fail ERR_BAD_DX_DIR (here 0) else
  match dx_search b entries count hash with
  | None => koops
  | Some p =>
      let at_ := dx_at entries p in
      let block := dx_get_block b at_ in
      if existsb (Z.eqb block) blocks then fail ERR_BAD_DX_DIR (here at_) else
      match k with
      | O => kret (inr (rev (here at_)))
      | S k =>
          bh <~ __ext4_read_dirblock n block INDEX;;
          match bh with
          | PtrErr e => fail e (here at_)
          | PtrNull => koops
          | PtrOk =>
              s <~ kget;;
              if negb (dx_get_limit (dir_block s n block) node_entries =? dx_node_limit d)
              then fail ERR_BAD_DX_DIR (Frame block 0 0 :: here at_)
              else probe_loop k n hash block node_entries (here at_) (block :: blocks)
          end
      end
  end.

(** [dx_probe]: an error, or the frames and the hash information; [fname] is NULL
    when the directory is listed. *)
Definition dx_probe (n : Z) (fname : option ext4_filename) (hinfo : dx_hash_info)
    : K fs (Z + list dx_frame * dx_hash_info) :=
  bh <~ __ext4_read_dirblock n 0 INDEX;;
  match bh with
  | PtrErr e => kret (inl e)
  | PtrNull => koops
  | PtrOk =>
      s <~ kget;;
      let d := dctx s n in
      let root := dir_block s n 0 in
      let fail err := brelse n 0;;; kret (inl err) in
      if negb (hash_version_ok d (info_hash_version root)) then fail ERR_BAD_DX_DIR else
      match probe_hash s n root fname hinfo with
      | inl err => fail err
      | inr hinfo =>
          if negb (Z.land (info_unused_flags root) 1 =? 0) then fail ERR_BAD_DX_DIR else
          let indirect := info_indirect_levels root in
          if ext4_dir_htree_level (f_es s) <=? indirect then fail ERR_BAD_DX_DIR else
          let entries := dx_root_info + info_length root in
          if negb (dx_get_limit root entries =? dx_root_limit d (info_length root))
          then fail ERR_BAD_DX_DIR else
          r <~ probe_loop (Z.to_nat indirect) n (h_hash hinfo) 0 entries [] [0];;
          kret (match r with inl err => inl err | inr frames => inr (frames, hinfo) end)
      end
  end.

(** [dx_release]: the frames up to the depth the root has now. *)
Definition dx_release (n : Z) (frames : list dx_frame) : K fs unit :=
  match frames with
  | [] => kret tt
  | root :: _ =>
      s <~ kget;;
      let indirect_levels := info_indirect_levels (dir_block s n (fr_bh root)) in
      release_frames n (take (Z.to_nat (indirect_levels + 1)) frames)
  end.

(** *** The next leaf *)

(** The loop that advances the last frame with an entry left, from frame [i] up: the
    frame it stopped at, or [None] when the root is exhausted. *)
Fixpoint next_up (s : fs) (n : Z) (i : nat) (frames : list dx_frame)
    : option nat * list dx_frame :=
  let f := frames !!! i in
  let f := Frame (fr_bh f) (fr_entries f) (fr_at f + sizeof_dx_entry) in
  let frames := <[i := f]> frames in
  if fr_at f <? dx_at (fr_entries f) (dx_get_count (dir_block s n (fr_bh f)) (fr_entries f))
  then (Some i, frames)
  else match i with
       | O => (None, frames)
       | S i => next_up s n i frames
       end.

(** [while (num_frames--)]: the frames below [i] are read again, at their first
    entry. *)
Fixpoint next_down (k : nat) (n : Z) (i : nat) (frames : list dx_frame) : K fs (Z * list dx_frame) :=
  match k with
  | O => kret (1, frames)
  | S k =>
      s <~ kget;;
      let block := frame_block s n (frames !!! i) in
      bh <~ __ext4_read_dirblock n block INDEX;;
      match bh with
      | PtrErr e => kret (e, frames)
      | PtrNull => koops
      | PtrOk =>
          brelse n (fr_bh (frames !!! S i));;;
          next_down k n (S i) (<[S i := Frame block node_entries node_entries]> frames)
      end
  end.

(** [ext4_htree_next_block]: 1 to go on, 0 to stop or an error, the frames, and the
    hash the next leaf starts at (stored only when one was found). *)
Definition ext4_htree_next_block (n hash : Z) (frames : list dx_frame)
    : K fs (Z * list dx_frame * option Z) :=
  s <~ kget;;
  let last := (length frames - 1)%nat in
  match next_up s n last frames with
  | (None, frames) => kret (0, frames, None)
  | (Some i, frames) =>
      let f := frames !!! i in
      let bhash := dx_get_hash (dir_block s n (fr_bh f)) (fr_at f) in
      if (Z.land hash 1 =? 0) && negb (Z.land bhash (2 ^ 32 - 2) =? hash)
      then kret (0, frames, Some bhash)
      else
        r <~ next_down (last - i) n i frames;;
        let '(ret, frames) := r in
        kret (ret, frames, Some bhash)
  end.

(** *** Lookup *)

(** One round of the loop of [ext4_dx_find_entry]: the leaf under the last frame is
    searched.  The result carries the frames to release. *)
Definition dx_find_round (n : Z) (fname : ext4_filename) (frames : list dx_frame)
    : K fs (list dx_frame + list dx_frame * lookup) :=
  s <~ kget;;
  let block := frame_block s n (frames !!! (length frames - 1)%nat) in
  bh <~ __ext4_read_dirblock n block DIRENT_HTREE;;
  match bh with
  | PtrErr e => kret (inr (frames, LErr e))
  | PtrNull => koops
  | PtrOk =>
      s <~ kget;;
      match search_dirblock (dctx s n) (dir_block s n block) fname with
      | None => koops
      | Some (SFound de) => kret (inr (frames, LFound block de))
      | Some SBad => brelse n block;;; kret (inr (frames, LErr ERR_BAD_DX_DIR))
      | Some SNone =>
          brelse n block;;;
          r <~ ext4_htree_next_block n (hi_hash fname) frames;;
          let '(ret, frames, _) := r in
          if ret <? 0 then kret (inr (frames, LErr ret))
          else if ret =? 1 then kret (inl frames)
          else kret (inr (frames, LNull))
      end
  end.

(** The rounds advance the frames like a counter with three digits of 16 bits. *)
Definition dx_rounds : positive := 2 ^ 48.

(** [ext4_dx_find_entry] *)
Definition dx_find_entry (n : Z) (fname : ext4_filename) : K fs lookup :=
  p <~ dx_probe n (Some fname) (HInfo 0 0 0);;
  match p with
  | inl err => kret (LErr err)
  | inr (frames, hinfo) =>
      r <~ kloop dx_rounds (dx_find_round n (with_hinfo fname hinfo)) frames;;
      let '(frames, res) := r in
      dx_release n frames;;; kret res
  end.

(** *** Listing in hash order *)

(** The hashes of the record at [de]: stored in it, or computed. *)
Definition record_hash (d : dirctx) (version : Z) (b : list Z) (de : Z) : Z * (Z * Z) :=
  if ext4_hash_in_dirent d then
    if negb (de_name_len b de =? 0) && negb (de_inode b de =? 0)
    then (0, (EXT4_DIRENT_HASH b de, EXT4_DIRENT_MINOR_HASH b de)) else (0, (0, 0))
  else ext4fs_dirhash version (de_name b de).

(** Hand one entry to [ext4_htree_store_dirent] of dir.c, its name decrypted. *)
Definition store_dirent (d : dirctx) (b : list Z) (de hash minor : Z) : K fs Z :=
  match (if d_encrypted d then fname_disk_to_usr d (de_name b de) else inr (de_name b de)) with
  | inl err => kret err
  | inr name => call_int "ext4_htree_store_dirent" (hash :: minor :: de_inode b de :: name)
  end.

(** The loop of [htree_dirblock_to_tree]: the entries stored, or an error. *)
Fixpoint to_tree_loop (fuel : nat) (d : dirctx) (version : Z) (b : list Z)
    (top start_hash start_minor_hash de count : Z) : K fs Z :=
  match fuel with
  | O => koops
  | S fuel =>
      let next := to_tree_loop fuel d version b top start_hash start_minor_hash (ext4_next_entry d b de) in
      if de <? top then
        if ext4_check_dir_entry d b (d_blocksize d) de then kret count else
        let '(err, (hash, minor)) := record_hash d version b de in
        if err <? 0 then kret err else
        if (hash <? start_hash) || ((hash =? start_hash) && (minor <? start_minor_hash)) then next count else
        if de_inode b de =? 0 then next count else
        err <~ store_dirent d b de hash minor;;
        if negb (err =? 0) then kret err else next (count + 1)
      else kret count
  end.

(** [htree_dirblock_to_tree] *)
Definition htree_dirblock_to_tree (n block version start_hash start_minor_hash : Z) : K fs Z :=
  bh <~ __ext4_read_dirblock n block DIRENT_HTREE;;
  match bh with
  | PtrErr e => kret e
  | PtrNull => koops
  | PtrOk =>
      s <~ kget;;
      let d := dctx s n in
      let top := d_blocksize d - ext4_dir_rec_len 0 (if d_csum d then None else Some d) in
      prep <~ (if d_encrypted d then
                 err <~ call_int "fscrypt_prepare_readdir" [n];;
                 if err <? 0 then kret err
                 else call_int "fscrypt_fname_alloc_buffer" [EXT4_NAME_LEN]
               else kret 0);;
      if prep <? 0 then brelse n block;;; kret prep else
      count <~ to_tree_loop (S (Z.to_nat (d_blocksize d))) d version (dir_block s n block)
                 top start_hash start_minor_hash 0 0;;
      brelse n block;;; kret count
  end.

(** One leaf of [ext4_htree_fill_tree]; the result carries the frames, the count or
    the error, and [*next_hash]. *)
Definition fill_round (n version start_hash start_minor_hash : Z) (st : list dx_frame * Z)
    : K fs ((list dx_frame * Z) + (list dx_frame * Z * Z)) :=
  let '(frames, count) := st in
  killed <~ call_int "fatal_signal_pending" [];;
  if negb (killed =? 0) then kret (inr (frames, - ERESTARTSYS, 0)) else
  s <~ kget;;
  let block := frame_block s n (frames !!! (length frames - 1)%nat) in
  ret <~ htree_dirblock_to_tree n block version start_hash start_minor_hash;;
  if ret <? 0 then kret (inr (frames, ret, 0)) else
  let count := count + ret in
  r <~ ext4_htree_next_block n HASH_NB_ALWAYS frames;;
  let '(ret, frames, bhash) := r in
  let hashval := default (2 ^ 32 - 1) bhash in
  if ret <? 0 then kret (inr (frames, ret, hashval)) else
  if (ret =? 0) || (negb (count =? 0) && (Z.land hashval 1 =? 0))
  then kret (inr (frames, count, hashval)) else kret (inl (frames, count)).

(** The entries "." (hash 0) and ".." (hash 2) of the root. *)
Definition fill_dots (n start_hash start_minor_hash : Z) : K fs (Z + Z) :=
  s <~ kget;;
  let d := dctx s n in
  let b := dir_block s n 0 in
  let store de hash := call_int "ext4_htree_store_dirent" (hash :: 0 :: de_inode b de :: de_name b de) in
  dot <~ (if (start_hash =? 0) && (start_minor_hash =? 0) then
            err <~ store 0 0;; kret (if negb (err =? 0) then inl err else inr 1)
          else kret (inr 0));;
  match dot with
  | inl err => kret (inl err)
  | inr count =>
      if (start_hash <? 2) || ((start_hash =? 2) && (start_minor_hash =? 0)) then
        err <~ store (ext4_next_entry d b 0) 2;;
        kret (if negb (err =? 0) then inl err else inr (count + 1))
      else kret (inr count)
  end.

(** [ext4_htree_fill_tree] of an indexed directory: the count or an error, and
    [*next_hash], which means something only when there was no error. *)
Definition fill_indexed (n start_hash start_minor_hash : Z) : K fs (Z * Z) :=
  p <~ dx_probe n None (HInfo start_hash 0 0);;
  match p with
  | inl err => kret (err, 0)
  | inr (frames, hinfo) =>
      dots <~ fill_dots n start_hash start_minor_hash;;
      match dots with
      | inl err => dx_release n frames;;; kret (err, 0)
      | inr count =>
          r <~ kloop dx_rounds (fill_round n (h_version hinfo) start_hash start_minor_hash) (frames, count);;
          let '(frames, ret, next_hash) := r in
          dx_release n frames;;; kret (ret, next_hash)
      end
  end.

Definition ext4_htree_fill_tree (n start_hash start_minor_hash : Z) : K fs (Z * Z) :=
  s <~ kget;;
  if ext4_test_inode_flag (inode_of s n) EXT4_INODE_INDEX
  then fill_indexed n start_hash start_minor_hash else
  let version := if ext4_hash_in_dirent (dctx s n) then DX_HASH_SIPHASH else nm_def_hash_version in
  let version := if version <=? DX_HASH_TEA then version + nm_hash_unsigned else version in
  inl_fill <~ (if ext4_has_inline_data s n then
                 count <~ call_int "ext4_inlinedir_to_tree" [n];;
                 has <~ call_int "has_inline_data" [n];;
                 kret (if negb (has =? 0) then Some count else None)
               else kret None);;
  match inl_fill with
  | Some count => kret (count, 2 ^ 32 - 1)
  | None =>
      count <~ htree_dirblock_to_tree n 0 version start_hash start_minor_hash;;
      kret (count, 2 ^ 32 - 1)
  end.

(** *** Splitting a leaf *)

(** [dx_insert_block] in the block of a frame. *)
Definition frame_insert (n : Z) (f : dx_frame) (hash block : Z) : K fs unit :=
  s <~ kget;;
  match dx_insert_block (dir_block s n (fr_bh f)) (fr_entries f) (fr_at f) hash block with
  | None => koops
  | Some b => kmodify (set_dir_block n (fr_bh f) b)
  end.

(** [do_split] of leaf [bh] under frame [f]: an error (with [bh] released), or the
    block and the record for the new entry. *)
Definition do_split (n bh : Z) (f : dx_frame) (hinfo : dx_hash_info) : K fs (Z + Z * Z) :=
  a <~ ext4_append n;;
  let '(newblock, bh2) := a in
  match bh2 with
  | PtrErr e => brelse n bh;;; kret (inl e)
  | PtrNull => koops
  | PtrOk =>
      let journal_error bh bh2 err := brelse n bh;;; brelse n bh2;;; kret (inl err) in
      err <~ call_int "ext4_journal_get_write_access" [n; bh];;
      if negb (err =? 0) then journal_error bh newblock err else
      err <~ call_int "ext4_journal_get_write_access" [n; fr_bh f];;
      if negb (err =? 0) then journal_error bh newblock err else
      s <~ kget;;
      let d := dctx s n in
      match dx_make_map d (ext4fs_dirhash (h_version hinfo)) (dir_block s n bh) with
      | None => koops
      | Some (err, map) =>
          if err <? 0 then
            kmodify (set_dir_block n newblock (put_map d (dir_block s n newblock) map));;;
            journal_error bh newblock err
          else
          match dx_split_blocks d (dir_block s n bh) (dir_block s n newblock) map with
          | None => koops
          | Some sp =>
              kmodify (set_dir_block n bh (sp_data1 sp));;;
              kmodify (set_dir_block n newblock (sp_data2 sp));;;
              let '(target, other, de) :=
                if sp_hash2 sp <=? h_hash hinfo then (newblock, bh, sp_de2 sp)
                else (bh, newblock, sp_de sp) in
              frame_insert n f (u32 (sp_hash2 sp + sp_continued sp)) newblock;;;
              err <~ ext4_handle_dirty_dirblock n other;;
              if negb (err =? 0) then journal_error target other err else
              err <~ ext4_handle_dirty_dx_node n (fr_bh f);;
              if negb (err =? 0) then journal_error target other err else
              brelse n other;;; kret (inr (target, de))
          end
      end
  end.

(** *** Creating the index *)

(** [while ((de2 = ext4_next_entry(de)) < top)]: the last record of the [len] bytes
    moved, or corruption. *)
Fixpoint last_record (fuel : nat) (d : dirctx) (b : list Z) (len de : Z) : option (Z + Z) :=
  match fuel with
  | O => None
  | S fuel =>
      let de2 := ext4_next_entry d b de in
      if de2 <? len then
        if ext4_check_dir_entry d b len de then Some (inl (- EFSCORRUPTED))
        else last_record fuel d b len de2
      else Some (inr de)
  end.

(** The root block: ".." is stretched over the rest, the information is reset, and one
    entry leads to block 1.  [None] is a BUG_ON. *)
Definition make_root (d : dirctx) (root : list Z) : option (list Z) :=
  match ext4_rec_len_to_disk d (d_blocksize d - ext4_dir_rec_len 2 None) (d_blocksize d) with
  | None => None
  | Some r =>
      let b := put16 root (12 + 4) r in
      let b := memset b dx_root_info 0 sizeof_dx_root_info in
      let b := putb b 29 sizeof_dx_root_info in
      let b := putb b 28 (if ext4_hash_in_dirent d then DX_HASH_SIPHASH else nm_def_hash_version) in
      let b := dx_set_block b root_entries 1 in
      let b := dx_set_count b root_entries 1 in
      Some (dx_set_limit b root_entries (dx_root_limit d sizeof_dx_root_info))
  end.

(** [out_frames] of [make_indexed_dir]; [bh2] is NULL after a failed split. *)
Definition index_out (n : Z) (frames : list dx_frame) (bh2 : option Z) (retval : Z) : K fs Z :=
  (if negb (retval =? 0) then ext4_mark_inode_dirty n;;; kret tt else kret tt);;;
  dx_release n frames;;;
  (match bh2 with Some blk => brelse n blk | None => kret tt end);;;
  kret retval.

(** [make_indexed_dir] once the records of block 0 are in block [block]. *)
Definition index_entries (n child block : Z) (fname : ext4_filename) : K fs Z :=
  s <~ kget;;
  let d := dctx s n in
  match make_root d (dir_block s n 0) with
  | None => koops
  | Some root =>
      kmodify (set_dir_block n 0 root);;;
      let version := info_hash_version root in
      let version := if version <=? DX_HASH_TEA then version + nm_hash_unsigned else version in
      let hash :=
        if negb (ext4_hash_in_dirent d) then
          let '(err, (hash, minor)) := ext4fs_dirhash version (disk_name fname) in
          if err <? 0 then inl err else inr (HInfo hash minor version)
        else inr (HInfo (hi_hash fname) (hi_minor_hash fname) version) in
      match hash with
      | inl err => brelse n block;;; brelse n 0;;; kret err
      | inr hinfo =>
          let frame := Frame 0 root_entries root_entries in
          retval <~ ext4_handle_dirty_dx_node n 0;;
          if negb (retval =? 0) then index_out n [frame] (Some block) retval else
          retval <~ ext4_handle_dirty_dirblock n block;;
          if negb (retval =? 0) then index_out n [frame] (Some block) retval else
          r <~ do_split n block frame hinfo;;
          match r with
          | inl err => index_out n [frame] None err
          | inr (target, de) =>
              retval <~ add_dirent_to_buf n child target (with_hinfo fname hinfo) (Some de);;
              index_out n [frame] (Some target) retval
          end
      end
  end.

(** [make_indexed_dir]: the only block of the directory becomes the root. *)
Definition dx_make_indexed_dir (n child : Z) (fname : ext4_filename) : K fs Z :=
  retval <~ call_int "ext4_journal_get_write_access" [n; 0];;
  if negb (retval =? 0) then brelse n 0;;; kret retval else
  s <~ kget;;
  let d := dctx s n in
  let blocksize := d_blocksize d in
  let de := 12 + rlen_at d (dir_block s n 0) 12 in
  if blocksize <=? de then brelse n 0;;; kret (- EFSCORRUPTED) else
  let len := u32 (blocksize - csum_size d - de) in
  a <~ ext4_append n;;
  let '(block, bh2) := a in
  match bh2 with
  | PtrErr e => brelse n 0;;; kret e
  | PtrNull => koops
  | PtrOk =>
      kmodify (upd_inode n (fun i => ext4_set_inode_flag i EXT4_INODE_INDEX));;;
      s <~ kget;;
      let root := dir_block s n 0 in
      (* a record ".." that reaches into the checksum tail makes the length wrap *)
      if blocksize <? len then koops else
      let data2 := puts (dir_block s n block) 0 (gets root de (Z.to_nat len)) in
      kmodify (set_dir_block n block data2);;;
      kmodify (set_dir_block n 0 (memset root de 0 len));;;
      match last_record (S (Z.to_nat len)) d data2 len 0 with
      | None => koops
      | Some (inl err) => brelse n block;;; brelse n 0;;; kret err
      | Some (inr de) =>
          match stretch d data2 de with
          | None => koops
          | Some data2 =>
              kmodify (set_dir_block n block data2);;;
              index_entries n child block fname
          end
      end
  end.

(** *** Adding *)

(** The walk up to the index to split: its frame, and whether a level is added. *)
Fixpoint index_to_split (s : fs) (n : Z) (i : nat) (frames : list dx_frame) : nat * bool :=
  match i with
  | O => (O, true)
  | S j =>
      let up := frames !!! j in
      let b := dir_block s n (fr_bh up) in
      if dx_get_count b (fr_entries up) <? dx_get_limit b (fr_entries up) then (i, false)
      else index_to_split s n j frames
  end.

(** What happens after the index had to be split: the split goes on with these frames
    and leaf, or the handler leaves with an error (or 0) and the restart flag. *)
Inductive dx_step := DxSplit (frames : list dx_frame) | DxLeave (frames : list dx_frame) (err : Z) (restart : bool).

(** The upper half of the index of frame [i] moves to [newblock] (whose buffer is
    held), and the frame above gets an entry for it. *)
Definition split_index (n newblock : Z) (i : nat) (frames : list dx_frame) (restart : bool) : K fs dx_step :=
  s <~ kget;;
  let d := dctx s n in
  let f := frames !!! i in
  let up := frames !!! (i - 1)%nat in
  let b := dir_block s n (fr_bh f) in
  let icount := dx_get_count b (fr_entries f) in
  let icount1 := icount / 2 in
  let icount2 := icount - icount1 in
  let hash2 := dx_get_hash b (dx_at (fr_entries f) icount1) in
  err <~ call_int "ext4_journal_get_write_access" [n; fr_bh up];;
  if negb (err =? 0) then kret (DxLeave frames err restart) else
  let node2 := puts (dir_block s n newblock) node_entries
                 (gets b (dx_at (fr_entries f) icount1) (Z.to_nat (icount2 * sizeof_dx_entry))) in
  let node2 := dx_set_limit (dx_set_count node2 node_entries icount2) node_entries (dx_node_limit d) in
  kmodify (set_dir_block n (fr_bh f) (dx_set_count b (fr_entries f) icount1));;;
  kmodify (set_dir_block n newblock node2);;;
  let pos := (fr_at f - fr_entries f) / sizeof_dx_entry in
  let '(f, other) :=
    if icount1 <=? pos
    then (Frame newblock node_entries (dx_at node_entries (pos - icount1)), fr_bh f)
    else (f, newblock) in
  let frames := <[i := f]> frames in
  frame_insert n up hash2 newblock;;;
  err <~ ext4_handle_dirty_dx_node n other;;
  (* bh2 is released only on success *)
  if negb (err =? 0) then kret (DxLeave frames err restart) else
  brelse n other;;;
  err <~ ext4_handle_dirty_dx_node n (fr_bh up);;
  if negb (err =? 0) then kret (DxLeave frames err restart) else
  err <~ ext4_handle_dirty_dx_node n (fr_bh f);;
  if restart || negb (err =? 0) then kret (DxLeave frames err restart)
  else kret (DxSplit frames).

(** A level is added: the entries of the root move to [newblock]. *)
Definition grow_index (n newblock : Z) (frames : list dx_frame) (restart : bool) : K fs dx_step :=
  s <~ kget;;
  let d := dctx s n in
  let f := frames !!! O in
  let b := dir_block s n (fr_bh f) in
  let icount := dx_get_count b (fr_entries f) in
  let node2 := puts (dir_block s n newblock) node_entries
                 (gets b (fr_entries f) (Z.to_nat (icount * sizeof_dx_entry))) in
  let node2 := dx_set_limit node2 node_entries (dx_node_limit d) in
  let root := dx_set_count b (fr_entries f) 1 in
  let root := dx_set_block root (fr_entries f) newblock in
  let root := putb root 30 (info_indirect_levels root + 1) in
  kmodify (set_dir_block n newblock node2);;;
  kmodify (set_dir_block n (fr_bh f) root);;;
  err <~ ext4_handle_dirty_dx_node n (fr_bh f);;
  if negb (err =? 0) then kret (DxLeave frames err restart) else
  err <~ ext4_handle_dirty_dx_node n newblock;;
  brelse n newblock;;;
  kret (DxLeave frames err true).

(** Make room in the index for one more leaf, when there is none. *)
Definition make_index_room (n : Z) (frames : list dx_frame) : K fs dx_step :=
  s <~ kget;;
  let last := (length frames - 1)%nat in
  let f := frames !!! last in
  let b := dir_block s n (fr_bh f) in
  if negb (dx_get_count b (fr_entries f) =? dx_get_limit b (fr_entries f))
  then kret (DxSplit frames) else
  let '(i, add_level) := index_to_split s n last frames in
  let restart := negb (Nat.eqb i last) in
  if add_level && (Z.of_nat (length frames) =? ext4_dir_htree_level (f_es s))
  then kret (DxLeave frames (- ENOSPC) restart) else
  a <~ ext4_append n;;
  let '(newblock, bh2) := a in
  match bh2 with
  | PtrErr e => kret (DxLeave frames e restart)
  | PtrNull => koops
  | PtrOk =>
      s <~ kget;;
      let d := dctx s n in
      match ext4_rec_len_to_disk d (d_blocksize d) (d_blocksize d) with
      | None => koops
      | Some r =>
          kmodify (set_dir_block n newblock (put16 (memset (dir_block s n newblock) 0 0 8) 4 r));;;
          err <~ call_int "ext4_journal_get_write_access" [n; fr_bh (frames !!! i)];;
          if negb (err =? 0) then kret (DxLeave frames err restart) else
          if add_level : bool then grow_index n newblock frames restart
          else split_index n newblock i frames restart
      end
  end.

(** One round of [again] in [ext4_dx_add_entry]; [inl] goes round again. *)
Definition dx_add_round (n child : Z) (fname : ext4_filename) : K fs (ext4_filename + Z) :=
  p <~ dx_probe n (Some fname) (HInfo 0 0 0);;
  match p with
  | inl err => kret (inr err)
  | inr (frames, hinfo) =>
      let fname := with_hinfo fname hinfo in
      let cleanup bh frames err (restart : bool) :=
        (match bh with Some blk => brelse n blk | None => kret tt end);;;
        dx_release n frames;;;
        kret (if restart && (err =? 0) then inl fname else inr err) in
      s <~ kget;;
      let block := frame_block s n (frames !!! (length frames - 1)%nat) in
      bh <~ __ext4_read_dirblock n block DIRENT_HTREE;;
      match bh with
      | PtrErr e => cleanup None frames e false
      | PtrNull => koops
      | PtrOk =>
          err <~ call_int "ext4_journal_get_write_access" [n; block];;
          if negb (err =? 0) then cleanup (Some block) frames err false else
          err <~ add_dirent_to_buf n child block fname None;;
          if negb (err =? - ENOSPC) then cleanup (Some block) frames err false else
          st <~ make_index_room n frames;;
          match st with
          | DxLeave frames err restart => cleanup (Some block) frames err restart
          | DxSplit frames =>
              r <~ do_split n block (frames !!! (length frames - 1)%nat) hinfo;;
              match r with
              | inl err => cleanup None frames err false
              | inr (target, de) =>
                  err <~ add_dirent_to_buf n child target fname (Some de);;
                  cleanup (Some target) frames err false
              end
          end
      end
  end.

(** [ext4_dx_add_entry]; every round that is repeated appended a block, whose number
    has 32 bits. *)
Definition dx_add_entry (n child : Z) (fname : ext4_filename) : K fs Z :=
  kloop (2 ^ 32) (dx_add_round n child) fname.
End Dx.

(** ** The interface of the hash tree *)

(** Inline directories are outside the repository (inline.c). *)
Class InlineDir := {
  find_inline_entry : Z -> ext4_filename -> K fs (lookup * bool);
  try_add_inline_entry : Z -> Z -> ext4_filename -> K fs Z;
  delete_inline_entry : Z -> Z -> Z -> K fs (Z * bool)
}.

(** The operations Namei.v calls, with the hash tree of this file. *)
#[export] Instance htree_hooks `{Env} `{Csum} `{NameiEnv} `{DirNames} `{InlineDir} : DirHooks := {|
  ext4_find_inline_entry := find_inline_entry;
  ext4_try_add_inline_entry := try_add_inline_entry;
  ext4_delete_inline_entry := delete_inline_entry;
  ext4_dx_find_entry := dx_find_entry;
  ext4_dx_add_entry := dx_add_entry;
  make_indexed_dir := dx_make_indexed_dir
|}.
