(* ===== verification/DxLookup.v ===== *)
(** * Lookup in a hash-tree directory

    [dx_find_entry] on every directory, corrupted ones included: the lookup returns,
    leaves the file system as it was, gives back every buffer it took (except the
    leaf it found the entry in), and what it finds is a record with the name.

    The loop over the leaves ends because the frames advance like a counter: the
    entries left in a frame are one digit, at most three digits of 16 bits, and a step
    lowers one digit and resets only the digits below it. *)

From stdpp Require Import prelude list gmap strings.
From Stdlib Require Import ZArith Lia.
From S2P Require Import Prelude Kernel Bytes Layout ExtentNode Fs Inode Dirent DxBlock DxBlockSpec Namei Dx.

Local Open Scope Z_scope.

(** The blocks of directory [n] are bytes. *)
Definition dir_bytes (s : fs) (n : Z) : Prop := Forall bytes_ok (i_dir (inode_of s n)).

Lemma dir_block_bytes s n blk : dir_bytes s n -> bytes_ok (dir_block s n blk).
Proof.
  intros Hd. unfold dir_block. rewrite nth_lookup.
  destruct (i_dir (inode_of s n) !! Z.to_nat blk) eqn:E; simpl; [|constructor].
  by eapply Forall_lookup_1 in Hd.
Qed.

(** The buffers of the frames. *)
Definition refs (n : Z) (frames : list dx_frame) : list res := (fun f => dbh n (fr_bh f)) <$> frames.

Section Lookup.
Context `{Env} `{!EnvErrno} `{Csum} `{NameiEnv} `{DirNames}.
Variable n : Z.

(** The block layer reads every block, and its checksum was verified before. *)
Definition reads_ok : Prop :=
  (forall h a, env_ptr h "ext4_bread"%string a = PtrOk) /\ (forall h a, env_int h "buffer_verified"%string a <> 0).

(** Block [blk] lies in the directory, and an index block looks like one. *)
Definition readable (s : fs) (blk : Z) (type : dirblock_type) : Prop :=
  reads_ok /\ blk < Z.shiftr (i_size (inode_of s n)) (s_blocksize_bits s) /\
  (type = INDEX -> is_dx s n = true /\
     (blk = 0 \/ rlen_at (dctx s n) (dir_block s n blk) 0 = d_blocksize (dctx s n))).

(** Reading a block of the tree: an error, or a buffer; never NULL. *)
Lemma wp_read_htree_block blk type (Q : reply -> world fs -> Prop) w :
  expects_htree type = true ->
  (forall e calls, e < 0 -> ~ readable (w_st w) blk type -> Q (PtrErr e) (World (w_st w) (w_held w) calls)) ->
  (forall calls, Q PtrOk (World (w_st w) (dbh n blk :: w_held w) calls)) ->
  wp (__ext4_read_dirblock n blk type) Q w.
Proof.
  intros Ht He Hok. destruct w as [s h c]. cbn [w_st w_held] in *.
  unfold __ext4_read_dirblock, ext4_bread, brelse, dbh in *. do 2 wp_step.
  case_match eqn:Hsz; [apply wp_ret, He; [done|]; intros (_ & Hlt & _); apply Z.leb_le in Hsz; lia|].
  do 3 wp_step. destruct r; cbn [w_st w_held w_calls].
  - repeat wp_step. case_match eqn:Hidx; [repeat wp_step; apply He; [done|]|].
    { intros (_ & _ & Hty). apply andb_true_iff in Hidx as [Hdx Hty']. apply negb_true_iff in Hdx.
      destruct type; try done. destruct (Hty eq_refl) as [Hdx' Hblk]. rewrite Hdx' in Hdx.
      cbn [andb] in Hdx. apply orb_false_iff in Hdx as [?%Z.eqb_neq ?%Z.eqb_neq]. destruct Hblk; congruence. }
    repeat wp_step. case_match eqn:Hver; [by repeat wp_step|]. case_match; repeat wp_step; auto.
    apply He; [done|]. intros ((_ & Hv) & _). apply orb_false_iff in Hver as [_ Hver].
    apply negb_false_iff, Z.eqb_eq in Hver. subst. by eapply Hv.
  - repeat wp_step. apply He; [by eapply env_errno|]. intros ((Hr & _) & _). by rewrite Hr in Hc.
  - repeat wp_step. rewrite Ht. apply He; [done|]. intros ((Hr & _) & _). by rewrite Hr in Hc.
Qed.

Lemma wp_release_frames_top fl : forall l h0 (Q : unit -> world fs -> Prop) w,
  on_top (refs n fl ++ l) h0 (w_held w) ->
  (forall h, on_top l h0 h -> Q tt (World (w_st w) h (w_calls w))) -> wp (release_frames n fl) Q w.
Proof.
  induction fl as [|f fl IH]; intros l h0 Q [s h c] Hh HQ; simpl in *; [by apply wp_ret, HQ|].
  apply wp_bind. eapply wp_release_top; [exact Hh|]. intros h' Hh'. by apply (IH l h0).
Qed.

Lemma wp_release_frames fl h0 (Q : unit -> world fs -> Prop) w :
  on_top (refs n fl) h0 (w_held w) -> Q tt (World (w_st w) h0 (w_calls w)) ->
  wp (release_frames n fl) Q w.
Proof.
  intros Hh HQ. apply (wp_release_frames_top fl [] h0); [by rewrite app_nil_r|].
  by intros h ->%on_top_nil.
Qed.

(** The frames a probe for [hash] fills from block [blk] down. *)
Fixpoint probed (s : fs) (hash blk entries : Z) (frames : list dx_frame) : Prop :=
  match frames with
  | [] => False
  | f :: rest =>
      let b := dir_block s n blk in
      let count := dx_get_count b entries in
      fr_bh f = blk /\ fr_entries f = entries /\ 1 <= count <= dx_get_limit b entries /\
      (exists p, dx_search b entries count hash = Some p /\ fr_at f = dx_at entries p) /\
      (rest = [] \/ probed s hash (frame_block s n f) node_entries rest)
  end.

(** An index of [k + 1] levels that passes the checks of the descent below the blocks
    [above]. *)
Fixpoint index_ok (s : fs) (k : nat) (above : list Z) (blk entries : Z) : Prop :=
  let b := dir_block s n blk in
  let count := dx_get_count b entries in
  1 <= count <= dx_get_limit b entries /\ index_sorted b entries count /\
  forall i, 0 <= i < count ->
    let c := dx_get_block b (dx_at entries i) in
    (c ∉ above) /\
    match k with
    | O => readable s c DIRENT_HTREE
    | S k => readable s c INDEX /\
        dx_get_limit (dir_block s n c) node_entries = dx_node_limit (dctx s n) /\
        index_ok s k (c :: above) c node_entries
    end.

Lemma index_ok_node s k above blk entries :
  index_ok s k above blk entries ->
  let b := dir_block s n blk in
  let count := dx_get_count b entries in
  1 <= count <= dx_get_limit b entries /\ index_sorted b entries count /\
  forall i k', 0 <= i < count -> k = S k' ->
    let c := dx_get_block b (dx_at entries i) in index_ok s k' (c :: above) c node_entries.
Proof.
  destruct k; intros (Hc & Hs & Hch); (split; [done|]; split; [done|]);
    intros i k' Hi [=]. subst. by apply Hch.
Qed.

Lemma refs_snoc above f h0 h :
  on_top (dbh n (fr_bh f) :: refs n above) h0 h -> on_top (refs n (rev above ++ [f])) h0 h.
Proof.
  apply on_top_permutation. unfold refs. rewrite fmap_app, <- Permutation_app_comm. simpl.
  by rewrite <- Permutation_rev.
Qed.

(** The descent: it fails and gives everything back, or fills [k + 1] frames. *)
Lemma wp_probe_loop k : forall hash blk entries above blocks h0 (Q : Z + list dx_frame -> world fs -> Prop) w,
  dir_bytes (w_st w) n -> on_top (dbh n blk :: refs n above) h0 (w_held w) ->
  (forall err calls, err < 0 -> ~ index_ok (w_st w) k blocks blk entries ->
     Q (inl err) (World (w_st w) h0 calls)) ->
  (forall fl h calls, length fl = S k -> probed (w_st w) hash blk entries fl ->
     on_top (refs n (rev above ++ fl)) h0 h -> Q (inr (rev above ++ fl)%list) (World (w_st w) h calls)) ->
  wp (probe_loop k n hash blk entries above blocks) Q w.
Proof.
  induction k as [|k IH]; intros hash blk entries above blocks h0 Q [s h c] Hb Hh Hfail Hok;
    cbn [probe_loop w_st w_held] in *;
    assert (Hf : forall err rfs h c, err < 0 -> ~ index_ok s _ blocks blk entries -> on_top (refs n rfs) h0 h ->
              wp (release_frames n rfs;;; kret (inl err)) Q (World s h c))
      by (intros; apply wp_bind; eapply wp_release_frames; [eassumption|]; by apply wp_ret, Hfail);
    do 2 wp_step; set (b := dir_block s n blk) in *;
    pose proof (get16_range b (entries + 2) (dir_block_bytes s n blk Hb)) as Hcr;
    fold (dx_get_count b entries) in Hcr;
    (case_match eqn:Hc; [apply Hf; [done| |done]; intros (Hct & _); fold b in Hct;
      apply orb_true_iff in Hc as [?%Z.eqb_eq|?%Z.ltb_lt]; lia|]);
    apply orb_false_iff in Hc as [Hc1 Hc2];
    apply Z.eqb_neq in Hc1; apply Z.ltb_ge in Hc2;
    destruct (dx_search_total b entries (dx_get_count b entries) hash) as [p Hp]; rewrite Hp;
    pose proof (dx_search_range b entries (dx_get_count b entries) hash p ltac:(lia) Hp) as Hpr;
    (case_match eqn:Hcyc;
     [apply Hf; [done| |done]; intros (_ & _ & Hch); fold b in Hch; destruct (Hch p Hpr) as [Hnin _];
      apply existsb_exists in Hcyc as (x & Hx & Hex); apply Z.eqb_eq in Hex; subst x;
      apply Hnin; by apply list_elem_of_In|]).
  - apply wp_ret. cbn [rev]. apply Hok; [done|simpl; fold b; split_and!; try (done || lia); [by exists p|by left]|].
    by apply refs_snoc.
  - set (f := Frame blk entries (dx_at entries p)). change (dx_get_block b (dx_at entries p)) with (frame_block s n f) in *.
    apply wp_bind, wp_read_htree_block; [done| |].
    { intros e c' He Hnr. apply Hf; [done| |done]. intros (_ & _ & Hch). fold b in Hch.
      by destruct (Hch p Hpr) as (_ & Hr & _). }
    intros c'. cbn [w_st w_held]. do 2 wp_step. case_match eqn:Hlim.
    { apply Hf; [done| |by apply on_top_cons]. intros (_ & _ & Hch). fold b in Hch.
      destruct (Hch p Hpr) as (_ & _ & Hl & _). apply negb_true_iff, Z.eqb_neq in Hlim. done. }
    apply (IH hash _ _ _ _ h0); [done|by apply on_top_cons| |]; cbn [w_st].
    { intros err c'' He Hnok. apply Hfail; [done|]. intros (_ & _ & Hch). fold b in Hch.
      by destruct (Hch p Hpr) as (_ & _ & _ & Hi). }
    intros fl h' c'' Hlen Hprb Hh'. cbn [rev] in *. rewrite <- !app_assoc in *.
    apply Hok; [simpl in *; lia| |done]. simpl. fold b. split_and!; try (done || lia); [by exists p|by right].
Qed.

(** A root block that passes the checks of [dx_probe], with its index. *)
Definition root_ok (s : fs) (fname : option ext4_filename) (hinfo : dx_hash_info) : Prop :=
  let root := dir_block s n 0 in
  readable s 0 INDEX /\ hash_version_ok (dctx s n) (info_hash_version root) = true /\
  (exists hi, probe_hash s n root fname hinfo = inr hi) /\
  Z.land (info_unused_flags root) 1 = 0 /\
  info_indirect_levels root < ext4_dir_htree_level (f_es s) /\
  dx_get_limit root (dx_root_info + info_length root) = dx_root_limit (dctx s n) (info_length root) /\
  index_ok s (Z.to_nat (info_indirect_levels root)) [0] 0 (dx_root_info + info_length root).

(** [dx_probe] leaves the state alone; on success the frames are those of the tree,
    as many as the root has levels. *)
Lemma wp_dx_probe fname hinfo (Q : Z + list dx_frame * dx_hash_info -> world fs -> Prop) w :
  dir_bytes (w_st w) n ->
  (forall err calls, err < 0 -> ~ root_ok (w_st w) fname hinfo -> Q (inl err) (World (w_st w) (w_held w) calls)) ->
  (forall frames hi h calls,
     let root := dir_block (w_st w) n 0 in
     probe_hash (w_st w) n root fname hinfo = inr hi ->
     Z.of_nat (length frames) = info_indirect_levels root + 1 ->
     1 <= Z.of_nat (length frames) <= ext4_dir_htree_level (f_es (w_st w)) ->
     probed (w_st w) (h_hash hi) 0 (dx_root_info + info_length root) frames ->
     on_top (refs n frames) (w_held w) h -> Q (inr (frames, hi)) (World (w_st w) h calls)) ->
  wp (dx_probe n fname hinfo) Q w.
Proof.
  destruct w as [s h c]. cbn [w_st w_held]. intros Hb Hfail Hok. unfold dx_probe.
  apply wp_bind, wp_read_htree_block; [done| |].
  { intros e c1 He Hnr. apply wp_ret, Hfail; [done|]. by intros (Hr & _). }
  intros c1. cbn [w_st w_held]. do 2 wp_step.
  assert (Hf : forall err c, err < 0 -> ~ root_ok s fname hinfo ->
            wp (brelse n 0;;; kret (inl err)) Q (World s (dbh n 0 :: h) c)).
  { intros. unfold brelse. do 2 wp_step. by apply wp_ret, Hfail. }
  case_match eqn:Hv; [apply Hf; [done|]; intros (_ & Hv' & _); by rewrite Hv' in Hv|].
  destruct (probe_hash _ _ _ _ _) as [err|hi] eqn:Hph.
  { apply Hf; [|intros (_ & _ & (hi & Hhi) & _); congruence]. revert Hph. unfold probe_hash.
    destruct fname; [|done]. case_match; [done|].
    destruct (ext4fs_dirhash _ _) as [err' [? ?]]. case_match eqn:E; [|done]. intros [= <-]. lia. }
  case_match eqn:Hfl; [apply Hf; [done|]; intros (_ & _ & _ & Hz & _); by rewrite Hz in Hfl|].
  case_match eqn:Hlev; [apply Hf; [done|]; intros (_ & _ & _ & _ & Hl & _); apply Z.leb_le in Hlev; lia|].
  case_match eqn:Hlim; [apply Hf; [done|]; intros (_ & _ & _ & _ & _ & Hl & _);
                        apply negb_true_iff, Z.eqb_neq in Hlim; done|].
  set (root := dir_block s n 0) in *. apply Z.leb_gt in Hlev.
  pose proof (getb_range root 30 (dir_block_bytes s n 0 Hb)) as Hr. fold (info_indirect_levels root) in Hr.
  apply wp_bind. apply (wp_probe_loop _ _ _ _ [] _ h); cbn [w_st w_held].
  - done.
  - apply on_top_cons. by apply on_top_nil.
  - intros. apply wp_ret, Hfail; [done|]. by intros (_ & _ & _ & _ & _ & _ & Hi).
  - intros fl h' c' Hlen Hpr Hh. simpl in *. apply wp_ret, Hok; try done; lia.
Qed.

(** *** The next leaf *)

(** A frame moved to its next entry, and whether there is one. *)
Definition adv (f : dx_frame) : dx_frame := Frame (fr_bh f) (fr_entries f) (fr_at f + sizeof_dx_entry).
Definition frame_end (s : fs) (f : dx_frame) : Z :=
  dx_at (fr_entries f) (dx_get_count (dir_block s n (fr_bh f)) (fr_entries f)).
Definition has_entry (s : fs) (f : dx_frame) : Prop := fr_at f < frame_end s f.

Lemma refs_adv fl : refs n (adv <$> fl) = refs n fl.
Proof. unfold refs. by rewrite <- list_fmap_compose. Qed.

Lemma frame_middle (pre : list dx_frame) f low g :
  (pre ++ f :: low) !!! length pre = f /\ <[length pre := g]> (pre ++ f :: low) = pre ++ g :: low.
Proof.
  split; [by apply list_lookup_total_middle|].
  rewrite insert_app_r_alt by done. by rewrite Nat.sub_diag.
Qed.

Lemma next_up_step s pre f low :
  next_up s n (length pre) (pre ++ f :: low) =
    if fr_at (adv f) <? frame_end s (adv f) then (Some (length pre), pre ++ adv f :: low)
    else match length pre with
         | O => (None, pre ++ adv f :: low)
         | S i => next_up s n i (pre ++ adv f :: low)
         end.
Proof.
  destruct (frame_middle pre f low (adv f)) as [Hm Hi].
  destruct (length pre) eqn:Hl; cbn [next_up]; rewrite Hm; fold (adv f); by rewrite Hi.
Qed.

Lemma next_up_split s pre : forall f low,
  match next_up s n (length pre) (pre ++ f :: low) with
  | (Some j, frames) => exists pre1 g mid, pre ++ [f] = pre1 ++ g :: mid /\ j = length pre1 /\
      frames = pre1 ++ adv g :: (adv <$> mid) ++ low /\ has_entry s (adv g) /\
      Forall (fun x => ~ has_entry s (adv x)) mid
  | (None, frames) => frames = (adv <$> pre ++ [f]) ++ low /\
      Forall (fun x => ~ has_entry s (adv x)) (pre ++ [f])
  end.
Proof.
  induction pre as [|g pre IH] using rev_ind; intros f low; rewrite next_up_step;
    (destruct (Z.ltb_spec (fr_at (adv f)) (frame_end s (adv f))) as [Hlt|Hge];
     [eexists _, f, []; by split_and!|]);
    (assert (Hno : ~ has_entry s (adv f)) by (unfold has_entry; lia)).
  - split; [done|]. by constructor.
  - rewrite length_app, Nat.add_1_r, <- app_assoc. cbn [app]. specialize (IH g (adv f :: low)).
    destruct (next_up s n (length pre) _) as [[j|] frames].
    + destruct IH as (pre1 & g1 & mid & Heq & -> & -> & Hg & Hmid).
      exists pre1, g1, (mid ++ [f]). rewrite Heq, <- !app_assoc, fmap_app, <- app_assoc.
      split_and!; try done. apply Forall_app. split; [done|by apply Forall_singleton].
    + destruct IH as [-> Hall]. split; [by rewrite !fmap_app, <- !app_assoc|].
      apply Forall_app. split; [done|by apply Forall_singleton].
Qed.

(** The frames read again below [f]: each at the first entry of its block. *)
Fixpoint fresh (s : fs) (f : dx_frame) (low : list dx_frame) : list dx_frame :=
  match low with
  | [] => []
  | _ :: low => let g := Frame (frame_block s n f) node_entries node_entries in g :: fresh s g low
  end.

Lemma length_fresh s low : forall f, length (fresh s f low) = length low.
Proof. induction low; simpl; auto. Qed.

Lemma fresh_adv s low : forall f, fresh s f (adv <$> low) = fresh s f low.
Proof. induction low; simpl; intros; [done|by f_equal]. Qed.

Lemma wp_next_down low : forall pre f h0 (Q : Z * list dx_frame -> world fs -> Prop) w,
  on_top (refs n (pre ++ f :: low)) h0 (w_held w) ->
  (forall e low' h c, e < 0 -> ~ Forall (fun g => readable (w_st w) (fr_bh g) INDEX) (fresh (w_st w) f low) ->
     length low' = length low -> on_top (refs n (pre ++ f :: low')) h0 h ->
     Q (e, pre ++ f :: low') (World (w_st w) h c)) ->
  (forall h c, on_top (refs n (pre ++ f :: fresh (w_st w) f low)) h0 h ->
     Q (1, pre ++ f :: fresh (w_st w) f low) (World (w_st w) h c)) ->
  wp (next_down (length low) n (length pre) (pre ++ f :: low)) Q w.
Proof.
  induction low as [|x low IH]; intros pre f h0 Q [s h c] Hh Herr Hok; cbn [length next_down w_st w_held] in *.
  { apply wp_ret. by apply Hok. }
  do 2 wp_step. destruct (frame_middle pre f (x :: low) f) as [-> _].
  apply wp_bind, wp_read_htree_block; [done| |].
  { intros. apply wp_ret. apply Herr; try done. simpl. rewrite Forall_cons. by intros [? _]. }
  intros c1. cbn [w_st w_held]. set (g := Frame (frame_block s n f) node_entries node_entries).
  assert (Hs : S (length pre) = length (pre ++ [f])) by (rewrite length_app; simpl; lia).
  assert (Hl : pre ++ f :: x :: low = (pre ++ [f]) ++ x :: low) by (by rewrite <- app_assoc).
  rewrite Hs, Hl. destruct (frame_middle (pre ++ [f]) x low g) as [-> ->].
  apply wp_bind, (wp_release_top _ (refs n ((pre ++ [f]) ++ g :: low)) h0).
  { rewrite Hl in Hh. apply (on_top_cons (dbh n (fr_bh g))) in Hh. revert Hh. apply on_top_permutation.
    unfold refs. rewrite !fmap_app, !fmap_cons. by rewrite <- !Permutation_middle, Permutation_swap. }
  intros h' Hh'. cbn [w_st w_calls]. apply (IH _ _ h0); cbn [w_st w_held]; [done| |].
  - intros e low' h2 c2 He Hnr Hlen Hh2. rewrite <- app_assoc in *. simpl in *.
    apply (Herr e (g :: low')); [done| |simpl; lia|done]. rewrite Forall_cons. by intros [_ ?].
  - intros h2 c2 Hh2. rewrite <- app_assoc in *. simpl in *. by apply Hok.
Qed.

(** What [ext4_htree_next_block] makes of the frames [frames]. *)
Definition next_post (s : fs) (hash : Z) (frames : list dx_frame) (ret : Z) (frames' : list dx_frame)
    (bhash : option Z) : Prop :=
  (ret = 0 /\ bhash = None /\ frames' = adv <$> frames /\ Forall (fun x => ~ has_entry s (adv x)) frames) \/
  exists pre g mid v, frames = pre ++ g :: mid /\ has_entry s (adv g) /\
    Forall (fun x => ~ has_entry s (adv x)) mid /\
    v = dx_get_hash (dir_block s n (fr_bh g)) (fr_at (adv g)) /\ bhash = Some v /\
    (ret = 0 /\ frames' = pre ++ adv g :: (adv <$> mid) /\ Z.land hash 1 = 0 /\ Z.land v (2 ^ 32 - 2) <> hash \/
     (Z.land hash 1 = 0 -> Z.land v (2 ^ 32 - 2) = hash) /\
     (ret < 0 /\ ~ Forall (fun x => readable s (fr_bh x) INDEX) (fresh s (adv g) mid) /\ (exists low, length low = length mid /\ frames' = pre ++ adv g :: low) \/
      ret = 1 /\ frames' = pre ++ adv g :: fresh s (adv g) mid)).

Lemma wp_next_block hash frames h0 (Q : Z * list dx_frame * option Z -> world fs -> Prop) w :
  frames <> [] -> on_top (refs n frames) h0 (w_held w) ->
  (forall ret frames' bhash h c, next_post (w_st w) hash frames ret frames' bhash ->
     on_top (refs n frames') h0 h -> Q (ret, frames', bhash) (World (w_st w) h c)) ->
  wp (ext4_htree_next_block n hash frames) Q w.
Proof.
  destruct w as [s h c]. cbn [w_st w_held]. intros Hne Hh HQ. unfold ext4_htree_next_block.
  do 2 wp_step. destruct frames as [|f pre _] using rev_ind; [done|].
  rewrite length_app, Nat.add_sub. pose proof (next_up_split s pre f []) as Hup.
  destruct (next_up s n (length pre) (pre ++ [f])) as [[j|] frames].
  - destruct Hup as (pre1 & g & mid & Heq & -> & -> & Hg & Hmid). rewrite app_nil_r in *.
    destruct (frame_middle pre1 (adv g) (adv <$> mid) g) as [-> _]. rewrite Heq in *.
    set (v := dx_get_hash _ _).
    assert (Hr : refs n (pre1 ++ adv g :: (adv <$> mid)) = refs n (pre1 ++ g :: mid)).
    { unfold refs. rewrite !fmap_app, !fmap_cons. f_equal. f_equal. apply refs_adv. }
    case_match eqn:Hstop.
    + apply wp_ret, HQ; [|by rewrite Hr]. right. exists pre1, g, mid, v. split_and!; try done. left.
      apply andb_true_iff in Hstop as [?%Z.eqb_eq Hv]. apply negb_true_iff, Z.eqb_neq in Hv. done.
    + assert (Hv : Z.land hash 1 = 0 -> Z.land v (2 ^ 32 - 2) = hash).
      { intros Hz. rewrite Hz in Hstop. cbn [Z.eqb andb] in Hstop. by apply negb_false_iff, Z.eqb_eq in Hstop. }
      assert (Hlen : (length pre - length pre1)%nat = length (adv <$> mid)).
      { rewrite length_fmap. apply (f_equal length) in Heq. rewrite !length_app in Heq. simpl in Heq. lia. }
      rewrite Hlen. apply wp_bind. apply (wp_next_down _ _ _ h0); cbn [w_st w_held]; [by rewrite Hr| |].
      * intros e low h' c' He Hnr Hl Hh'. rewrite fresh_adv in Hnr. apply wp_ret, HQ; [|done].
        right. exists pre1, g, mid, v.
        split_and!; try done. right. split; [done|]. left. split_and!; [done|done|]. exists low.
        by rewrite Hl, length_fmap.
      * intros h' c' Hh'. rewrite fresh_adv in *. apply wp_ret, HQ; [|done]. right. exists pre1, g, mid, v.
        split_and!; try done. right. split; [done|]. by right.
  - destruct Hup as [-> Hall]. rewrite app_nil_r in *. apply wp_ret, HQ; [|by rewrite refs_adv].
    left. by split_and!.
Qed.

(** *** The counter *)

Definition digit (s : fs) (f : dx_frame) : Z := Z.max 0 ((frame_end s f - fr_at f) / sizeof_dx_entry).
Definition counter (s : fs) (frames : list dx_frame) : Z :=
  foldl (fun acc f => acc * 65536 + digit s f) 0 frames.

Lemma counter_app s l1 l2 :
  counter s (l1 ++ l2) = counter s l1 * 65536 ^ Z.of_nat (length l2) + counter s l2.
Proof.
  unfold counter. rewrite foldl_app. generalize (foldl (fun acc f => acc * 65536 + digit s f) 0 l1) as a.
  induction l2 as [|f l2 IH] using rev_ind; intros a; [simpl; lia|].
  rewrite !foldl_app. simpl. rewrite IH, length_app, Nat2Z.inj_add, Z.pow_add_r by lia. simpl Z.of_nat.
  rewrite Z.pow_1_r. lia.
Qed.

Lemma counter_bound s frames :
  Forall (fun f => digit s f < 65536) frames ->
  0 <= counter s frames < 65536 ^ Z.of_nat (length frames).
Proof.
  induction frames as [|f frames IH]; intros Hall; [by compute|].
  apply Forall_cons in Hall as [Hf Hall]. specialize (IH Hall). change (f :: frames) with ([f] ++ frames).
  rewrite counter_app. simpl length. rewrite Nat2Z.inj_succ, Z.pow_succ_r by lia.
  assert (0 <= counter s [f] < 65536) by (unfold counter, digit in *; simpl; lia). nia.
Qed.

Lemma counter_nonneg s frames : 0 <= counter s frames.
Proof.
  induction frames as [|f frames IH] using rev_ind; [done|]. rewrite counter_app.
  unfold counter at 2. simpl. unfold digit. nia.
Qed.

Lemma digit_small s f : dir_bytes s n -> fr_entries f <= fr_at f -> digit s f < 65536.
Proof.
  intros Hb Hat. unfold digit, frame_end, dx_at, sizeof_dx_entry.
  pose proof (get16_range _ (fr_entries f + 2) (dir_block_bytes s n (fr_bh f) Hb)) as Hc.
  fold (dx_get_count (dir_block s n (fr_bh f)) (fr_entries f)) in Hc.
  set (k := dx_get_count _ _) in *.
  pose proof (Z.div_le_upper_bound (fr_entries f + k * 8 - fr_at f) 8 k). lia.
Qed.

Lemma fresh_digits s low : forall f, dir_bytes s n -> Forall (fun f => digit s f < 65536) (fresh s f low).
Proof. induction low; simpl; intros; constructor; [by apply digit_small|auto]. Qed.

(** A step lowers the counter. *)
Lemma counter_step s pre g mid :
  dir_bytes s n -> has_entry s (adv g) ->
  0 <= counter s (pre ++ adv g :: fresh s (adv g) mid) <= counter s (pre ++ g :: mid) - 1.
Proof.
  intros Hb Hg. split; [apply counter_nonneg|]. rewrite !counter_app. simpl length.
  rewrite length_fresh. change (?x :: ?l) with ([x] ++ l). rewrite !counter_app, length_fresh.
  pose proof (counter_bound s (fresh s (adv g) mid) (fresh_digits s mid (adv g) Hb)) as Hf.
  rewrite length_fresh in Hf. pose proof (counter_nonneg s mid).
  assert (Hd : counter s [adv g] = counter s [g] - 1).
  { unfold counter. simpl. unfold digit, has_entry in *. change (frame_end s (adv g)) with (frame_end s g) in *.
    unfold adv in *. cbn [fr_at] in *. unfold sizeof_dx_entry in *.
    replace (frame_end s g - (fr_at g + 8)) with (frame_end s g - fr_at g + (-1) * 8) by lia.
    rewrite Z.div_add by lia. pose proof (Z.div_le_lower_bound (frame_end s g - fr_at g) 8 1). lia. }
  rewrite Hd. nia.
Qed.

(** *** Searching a leaf *)

(** The search ends in every block, and a record it finds matches the name. *)
Lemma search_loop_result d b buf_size fname fuel : forall de,
  Z.max 0 (buf_size - de) < Z.of_nat fuel ->
  exists r, search_loop d fuel b buf_size fname de = Some r /\
    forall x, r = SFound x -> ext4_match d fname b x = true /\ ext4_check_dir_entry d b buf_size x = false.
Proof.
  induction fuel as [|fuel IH]; intros de Hf; [lia|]. cbn [search_loop]. unfold EXT4_BASE_DIR_LEN.
  destruct (Z.ltb_spec de (buf_size - 8)); [|by eexists].
  destruct (_ && _) eqn:Hm.
  - apply andb_true_iff in Hm as [_ Hm]. destruct (ext4_check_dir_entry _ _ _ _) eqn:Hc; [by eexists|].
    eexists. split; [done|]. by intros x [= <-].
  - destruct (Z.leb_spec (rlen_at d b de) 0); [by eexists|]. apply IH. lia.
Qed.

Lemma search_dirblock_result d b fname :
  exists r, search_dirblock d b fname = Some r /\
    forall x, r = SFound x -> ext4_match d fname b x = true /\ ext4_check_dir_entry d b (d_blocksize d) x = false.
Proof. apply search_loop_result. lia. Qed.

(** *** The lookup *)

(** The frames during the lookup: as many as the root has levels, the root first;
    [extra] is held besides their buffers. *)
Definition dx_inv (s : fs) (extra h0 : list res) (frames : list dx_frame) (w : world fs) : Prop :=
  w_st w = s /\ Z.of_nat (length frames) = info_indirect_levels (dir_block s n 0) + 1 /\
  fr_bh <$> head frames = Some 0 /\ on_top (refs n frames ++ extra) h0 (w_held w).

(** [dx_release] gives back the buffers of all the frames. *)
Lemma wp_dx_release s extra h0 frames (Q : unit -> world fs -> Prop) w :
  dx_inv s extra h0 frames w ->
  (forall h c, on_top extra h0 h -> Q tt (World s h c)) -> wp (dx_release n frames) Q w.
Proof.
  intros (Hst & Hlen & Hhd & Hh) HQ. destruct frames as [|f frames]; [done|].
  destruct w as [s0 h c]. simpl in Hst, Hhd, Hh. subst s0. injection Hhd as Hf.
  unfold dx_release. do 2 wp_step. rewrite Hf, <- Hlen, Nat2Z.id, firstn_all.
  apply (wp_release_frames_top _ extra h0); [done|]. intros h' Hh'. by apply HQ.
Qed.

Lemma probed_head s hash blk entries frames : probed s hash blk entries frames -> fr_bh <$> head frames = Some blk.
Proof. destruct frames as [|f l]; [done|]. intros (<- & _). done. Qed.

Lemma probed_digits s hash frames : forall blk entries,
  dir_bytes s n -> probed s hash blk entries frames -> Forall (fun f => digit s f < 65536) frames.
Proof.
  induction frames as [|f frames IH]; intros blk entries Hb; [done|]. intros (_ & He & Hc & (p & Hp & Hat) & Hrest).
  constructor; [|destruct Hrest as [->|Hrest]; [constructor|by eapply IH]].
  apply digit_small; [done|]. apply dx_search_range in Hp; [|lia].
  rewrite He, Hat. unfold dx_at, sizeof_dx_entry. lia.
Qed.

(** The frames after a step have the same root and the same number. *)
Lemma next_post_shape s hash frames ret frames' bhash :
  next_post s hash frames ret frames' bhash ->
  length frames' = length frames /\ fr_bh <$> head frames' = fr_bh <$> head frames.
Proof.
  intros [(_ & _ & -> & _)|(pre & g & mid & v & -> & _ & _ & _ & _ & Hcase)].
  - rewrite length_fmap. split; [done|]. by destruct frames.
  - assert (Hgen : forall low, length low = length mid ->
      length (pre ++ adv g :: low) = length (pre ++ g :: mid) /\
      fr_bh <$> head (pre ++ adv g :: low) = fr_bh <$> head (pre ++ g :: mid)).
    { intros low Hl. rewrite !length_app. simpl. rewrite Hl. by destruct pre. }
    destruct Hcase as [(_ & -> & _)|[_ [(_ & _ & low & Hl & ->)|(_ & ->)]]]; apply Hgen;
      [apply length_fmap|done|apply length_fresh].
Qed.

(** What the lookup hands back, for a name with the hashes in [fname]. *)
Definition found_ok (s : fs) (fname : ext4_filename) (r : lookup) : Prop :=
  match r with
  | LFound blk de =>
      ext4_match (dctx s n) fname (dir_block s n blk) de = true /\
      ext4_check_dir_entry (dctx s n) (dir_block s n blk) (d_blocksize (dctx s n)) de = false
  | LErr e => e < 0
  | LNull => True
  end.
Definition found_bh (r : lookup) : list res := match r with LFound blk _ => [dbh n blk] | _ => [] end.

Definition lookup_post (s : fs) (h0 : list res) (fname : ext4_filename) (r : list dx_frame * lookup)
    (w : world fs) : Prop :=
  dx_inv s (found_bh r.2) h0 r.1 w /\ found_ok s fname r.2.

Lemma dx_find_round_ok s h0 fname frames w :
  dir_bytes s n -> dx_inv s [] h0 frames w ->
  wp (dx_find_round n fname frames)
    (round_ok (dx_inv s [] h0) (fun frames _ => counter s frames) (lookup_post s h0 fname)
       (counter s frames - 1)) w.
Proof.
  intros Hb (Hst & Hlen & Hhd & Hh). destruct w as [s0 h c]. simpl in Hst, Hh. subst s0.
  unfold dx_find_round. do 2 wp_step. set (block := frame_block s n _).
  apply wp_bind, wp_read_htree_block; [done| |]; cbn [w_st w_held].
  { intros e c1 He _. apply wp_ret. by split_and!. }
  intros c1. do 2 wp_step.
  destruct (search_dirblock_result (dctx s n) (dir_block s n block) fname) as (r & -> & Hr).
  destruct r as [| |de].
  - unfold brelse. do 2 wp_step. apply wp_ret. by split_and!.
  - unfold brelse. do 2 wp_step. assert (Hne : frames <> []) by (by intros ->).
    rewrite app_nil_r in Hh. apply wp_bind, (wp_next_block _ _ h0); cbn [w_st w_held]; [done|done|].
    intros ret frames' bhash h' c' Hnp Hh'. destruct (next_post_shape _ _ _ _ _ _ Hnp) as [Hl Hd].
    assert (Hinv : dx_inv s [] h0 frames' (World s h' c'))
      by (split_and!; [done|congruence|congruence|by rewrite app_nil_r]).
    case_match eqn:Hneg; [apply wp_ret; split; [done|simpl; lia]|].
    case_match eqn:Hone; apply wp_ret; [|by split].
    apply Z.eqb_eq in Hone as ->. split; [done|].
    destruct Hnp as [(? & _)|(pre & g & mid & v & -> & Hg & _ & _ & _ & [(? & _)|[_ [(? & _)|(_ & ->)]]])];
      [done|done|lia|]. by apply counter_step.
  - apply wp_ret. destruct (Hr de eq_refl) as [Hm Hck]. split; [|done]. split_and!; try done. simpl.
    rewrite app_nil_r in Hh. apply (on_top_cons (dbh n block)) in Hh. revert Hh.
    apply on_top_permutation. by rewrite <- Permutation_app_comm.
Qed.

(** The hash of a directory with the large directory feature has at most 3 levels. *)
Lemma htree_level_max es : ext4_dir_htree_level es <= 3.
Proof. unfold ext4_dir_htree_level. by case_match. Qed.

Lemma counter_start s frames :
  Forall (fun f => digit s f < 65536) frames -> Z.of_nat (length frames) <= 3 ->
  counter s frames < Z.pos dx_rounds.
Proof.
  intros Hd Hl. destruct (counter_bound s frames Hd) as [_ Hlt].
  assert (65536 ^ Z.of_nat (length frames) <= 65536 ^ 3) by (apply Z.pow_le_mono_r; lia).
  change (Z.pos dx_rounds) with (65536 ^ 3). lia.
Qed.

(** Looking a name up in a hash-tree directory returns, whatever the bytes of the
    directory and whatever the block layer answers: no NULL dereference, no BUG, no
    endless loop between corrupted index blocks.  The file system is unchanged, every
    buffer taken is given back except the leaf of an entry that is found, a record
    that is found passes the directory entry check and matches the name (with the
    hashes of the probe), and an error is negative. *)
Theorem dx_find_entry_returns fname w :
  dir_bytes (w_st w) n ->
  wp (dx_find_entry n fname) (fun r w' =>
    w_st w' = w_st w /\ w_held w' = found_bh r ++ w_held w /\
    exists hinfo, found_ok (w_st w) (with_hinfo fname hinfo) r) w.
Proof.
  intros Hb. set (s := w_st w) in *. set (h0 := w_held w). unfold dx_find_entry.
  apply wp_bind, wp_dx_probe; [done|intros; apply wp_ret; split_and!; [done..|by exists (HInfo 0 0 0)]|].
  intros frames hi h c root _ Hlen Hlev Hpr Hh.
  apply wp_bind. eapply wp_mono;
    [apply (wp_kloop _ (dx_inv s [] h0) (fun frames _ => counter s frames) (lookup_post s h0 (with_hinfo fname hi)))|].
  - intros a w' Ha. by apply dx_find_round_ok.
  - split_and!; [done|done|by eapply probed_head|by rewrite app_nil_r].
  - pose proof (htree_level_max (f_es s)). apply counter_start; [by eapply probed_digits|unfold s in *; lia].
  - intros [frames' r] w' [Hinv Hok]. simpl in Hinv, Hok. apply wp_bind.
    eapply wp_dx_release; [exact Hinv|]. intros h' c' Hh'. apply wp_ret.
    split_and!; [done| |by exists hi]. destruct r; simpl in *.
    + by apply on_top_nil.
    + by apply on_top_nil.
    + destruct Hh' as (l & -> & ->%Permutation_singleton_r). done.
Qed.
End Lookup.
