(* ===== verification/DxTree.v ===== *)
(** * The hash tree as an ordered list of leaves

    The index of a hash-tree directory, flattened: each leaf with the hash its index
    entry has, in the order of the index.  A probe stops at the last leaf whose hash is
    not above the hash looked for, and [ext4_htree_next_block] walks the list; on a
    well-formed tree the lookup is therefore the lookup among the live entries of all
    the leaves, collisions that continue in the next leaf included. *)

From stdpp Require Import prelude list gmap strings sorting.
From Stdlib Require Import ZArith Lia.
From S2P Require Import Prelude Kernel Bytes Layout ExtentNode Fs Inode Dirent DxBlock DxBlockSpec Namei Dx DxLookup.

Local Open Scope Z_scope.

(** Leaves are ordered by the hashes they start at. *)
Abbreviation low_le := (fun x y : Z * Z => x.1 <= y.1).

Section Tree.
Context `{Env} `{!EnvErrno} `{Csum} `{NameiEnv} `{DirNames}.
Variables (n : Z) (s : fs).

(** Entry [i] of an index: its block, and the hash it starts at ([lo] for the first). *)
Definition child (b : list Z) (entries : Z) (i : nat) : Z := dx_get_block b (dx_at entries (Z.of_nat i)).
Definition entry_low (b : list Z) (entries lo : Z) (i : nat) : Z :=
  if Nat.eqb i 0 then lo else dx_get_hash b (dx_at entries (Z.of_nat i)).
Definition node_count (blk entries : Z) : nat := Z.to_nat (dx_get_count (dir_block s n blk) entries).

(** The leaves below [blk], [k] levels of index away. *)
Fixpoint leaves_under (k : nat) (lo blk : Z) : list (Z * Z) :=
  match k with
  | O => [(lo, blk)]
  | S k =>
      let b := dir_block s n blk in
      seq 0 (node_count blk node_entries) ≫= fun i =>
        leaves_under k (entry_low b node_entries lo i) (child b node_entries i)
  end.
Definition node_leaves (k : nat) (lo blk entries : Z) (ixs : list nat) : list (Z * Z) :=
  let b := dir_block s n blk in
  ixs ≫= fun i => leaves_under k (entry_low b entries lo i) (child b entries i).

(** The entry a frame is at, and the leaves after it in the index of the frame. *)
Definition frame_pos (f : dx_frame) : nat := Z.to_nat ((fr_at f - fr_entries f) / sizeof_dx_entry).
Definition after (k : nat) (f : dx_frame) : list (Z * Z) :=
  node_leaves k 0 (fr_bh f) (fr_entries f)
    (seq (S (frame_pos f)) (node_count (fr_bh f) (fr_entries f) - S (frame_pos f))).

(** The leaves after the one the frames lead to. *)
Fixpoint remaining (frames : list dx_frame) : list (Z * Z) :=
  match frames with
  | [] => []
  | f :: rest => remaining rest ++ after (length rest) f
  end.
Definition leaf_of (frames : list dx_frame) : Z := frame_block s n (frames !!! (length frames - 1)%nat).

(** Frames that lead from block [blk] down to a leaf. *)
Fixpoint linked (blk entries : Z) (frames : list dx_frame) : Prop :=
  match frames with
  | [] => False
  | f :: rest =>
      fr_bh f = blk /\ fr_entries f = entries /\
      (exists p, fr_at f = dx_at entries (Z.of_nat p) /\ (p < node_count blk entries)%nat) /\
      (rest = [] \/ linked (frame_block s n f) node_entries rest)
  end.

(** ** Walking the list *)

Lemma frame_pos_at bh e p : frame_pos (Frame bh e (dx_at e (Z.of_nat p))) = p.
Proof.
  unfold frame_pos, dx_at, sizeof_dx_entry. cbn [fr_at fr_entries].
  replace (e + Z.of_nat p * 8 - e) with (Z.of_nat p * 8) by lia. rewrite Z.div_mul by lia. lia.
Qed.

Lemma node_leaves_app k lo blk e l1 l2 :
  node_leaves k lo blk e (l1 ++ l2) = node_leaves k lo blk e l1 ++ node_leaves k lo blk e l2.
Proof. apply bind_app. Qed.

(** After the first entry the hash the node starts at does not matter. *)
Lemma node_leaves_low k lo lo' blk e l :
  Forall (fun i => i <> O) l -> node_leaves k lo blk e l = node_leaves k lo' blk e l.
Proof.
  induction 1 as [|i l Hi _ IH]; [done|]. unfold node_leaves in *. cbn [mbind list_bind].
  f_equal; [|done]. unfold entry_low. by destruct i.
Qed.

Lemma seq_positive a k : Forall (fun i => i <> O) (seq (S a) k).
Proof. apply Forall_forall. intros i Hi. apply elem_of_seq in Hi. lia. Qed.

(** The leaves of a node around entry [p]. *)
Lemma node_leaves_split k lo blk e p c :
  (p < c)%nat ->
  node_leaves k lo blk e (seq 0 c) =
    node_leaves k lo blk e (seq 0 p) ++
    leaves_under k (entry_low (dir_block s n blk) e lo p) (child (dir_block s n blk) e p) ++
    node_leaves k 0 blk e (seq (S p) (c - S p)).
Proof.
  intros Hp. replace c with (p + S (c - S p))%nat at 1 by lia. rewrite seq_app. simpl seq.
  rewrite node_leaves_app. change (p :: ?l) with ([p] ++ l). rewrite node_leaves_app. f_equal. f_equal.
  - apply app_nil_r.
  - apply node_leaves_low, seq_positive.
Qed.

Lemma leaf_of_cons f g rest : leaf_of (f :: g :: rest) = leaf_of (g :: rest).
Proof. unfold leaf_of. simpl. by rewrite Nat.sub_0_r. Qed.

Lemma leaf_of_app pre g rest : leaf_of (pre ++ g :: rest) = leaf_of (g :: rest).
Proof.
  induction pre as [|f pre IH]; [done|]. simpl. destruct pre as [|f' pre]; apply leaf_of_cons || idtac.
  simpl in *. by rewrite leaf_of_cons.
Qed.

(** The first leaf below an entry, and the frames that lead to it. *)
Lemma fresh_leaves mid : forall k above blk e f lo p,
  index_ok n s k above blk e -> k = length mid -> fr_bh f = blk -> fr_entries f = e ->
  fr_at f = dx_at e (Z.of_nat p) -> (p < node_count blk e)%nat ->
  leaves_under k lo (frame_block s n f) = (lo, leaf_of (f :: fresh n s f mid)) :: remaining (fresh n s f mid) /\
  (mid = [] \/ linked (frame_block s n f) node_entries (fresh n s f mid)) /\
  Forall (fun g => readable n s (fr_bh g) INDEX) (fresh n s f mid).
Proof.
  induction mid as [|x mid IH]; intros k above blk e f lo p Hok -> Hbh He Hat Hp.
  { simpl. split_and!; [done|by left|constructor]. }
  destruct Hok as (Hcnt & _ & Hch).
  assert (Hc : frame_block s n f = dx_get_block (dir_block s n blk) (dx_at e (Z.of_nat p)))
    by (unfold frame_block; by rewrite Hbh, Hat).
  destruct (Hch (Z.of_nat p)) as (_ & Hrd & _ & Hsub); [unfold node_count in Hp; lia|].
  rewrite <- Hc in Hrd, Hsub. set (c := frame_block s n f) in *. cbn [fresh].
  fold c. set (f0 := Frame c node_entries node_entries).
  assert (Hc0 : (0 < node_count c node_entries)%nat).
  { simpl in Hsub. destruct mid; destruct Hsub as (Hs & _); unfold node_count; lia. }
  assert (Hat0 : fr_at f0 = dx_at node_entries (Z.of_nat 0)) by done.
  destruct (IH (length mid) _ c node_entries f0 lo O Hsub eq_refl eq_refl eq_refl Hat0 Hc0)
    as (Hl & Hlk & Hr).
  split_and!.
  - cbn [length]. change (leaves_under (S (length mid)) lo c)
      with (node_leaves (length mid) lo c node_entries (seq 0 (node_count c node_entries))).
    rewrite (node_leaves_split _ _ _ _ 0) by done. change (entry_low _ node_entries lo 0) with lo.
    change (child (dir_block s n c) node_entries 0) with (frame_block s n f0). rewrite Hl.
    cbn [remaining]. rewrite length_fresh, leaf_of_cons. done.
  - right. cbn [linked]. split_and!; [done|done|by exists O|]. destruct Hlk as [->|?]; [by left|by right].
  - by constructor.
Qed.

Lemma adv_pos f e p : fr_entries f = e -> fr_at f = dx_at e (Z.of_nat p) ->
  fr_at (adv f) = dx_at e (Z.of_nat (S p)) /\ frame_pos (adv f) = S p /\ frame_pos f = p.
Proof.
  intros He Hat. destruct f as [bh e' at_]. simpl in *. subst e' at_.
  assert (Ha : dx_at e (Z.of_nat p) + sizeof_dx_entry = dx_at e (Z.of_nat (S p)))
    by (unfold dx_at, sizeof_dx_entry; lia).
  unfold adv. simpl. rewrite Ha. split_and!; [done|apply frame_pos_at|apply frame_pos_at].
Qed.

Lemma has_entry_adv f blk e p : fr_bh f = blk -> fr_entries f = e -> fr_at f = dx_at e (Z.of_nat p) ->
  has_entry n s (adv f) <-> (S p < node_count blk e)%nat.
Proof.
  intros Hbh He Hat. unfold has_entry. destruct (adv_pos f e p He Hat) as (-> & _).
  unfold frame_end, node_count, adv. cbn [fr_entries fr_bh]. rewrite He, Hbh.
  unfold dx_at, sizeof_dx_entry. lia.
Qed.

(** Frames at the last entry of their index have nothing after them. *)
Lemma remaining_exhausted frames : forall blk e,
  linked blk e frames -> Forall (fun x => ~ has_entry n s (adv x)) frames -> remaining frames = [].
Proof.
  induction frames as [|f frames IH]; intros blk e Hl Hall; [done|].
  destruct Hl as (Hbh & He & (p & Hat & Hp) & Hrest). apply Forall_cons in Hall as [Hf Hall]. simpl.
  rewrite (has_entry_adv f blk e p) in Hf by done.
  assert (Hr : remaining frames = []) by (destruct Hrest as [->|Hrest]; [done|by eapply IH]).
  rewrite Hr. unfold after. destruct (adv_pos f e p He Hat) as (_ & _ & ->). rewrite Hbh, He.
  by replace (node_count blk e - S p)%nat with O by lia.
Qed.

(** One step of the walk. *)
Lemma next_leaf pre : forall k above blk e g mid,
  index_ok n s k above blk e -> linked blk e (pre ++ g :: mid) -> length (pre ++ mid) = k ->
  has_entry n s (adv g) -> Forall (fun x => ~ has_entry n s (adv x)) mid ->
  let new := pre ++ adv g :: fresh n s (adv g) mid in
  remaining (pre ++ g :: mid) =
    (dx_get_hash (dir_block s n (fr_bh g)) (fr_at (adv g)), leaf_of new) :: remaining new /\
  linked blk e new /\ Forall (fun x => readable n s (fr_bh x) INDEX) (fresh n s (adv g) mid).
Proof.
  induction pre as [|f pre IH]; intros k above blk e g mid Hok Hl Hk Hg Hmid new; subst new; simpl app in *.
  - destruct Hl as (Hbh & He & (p & Hat & Hp) & Hrest).
    rewrite (has_entry_adv g blk e p) in Hg by done.
    destruct (adv_pos g e p He Hat) as (Hat' & Hpos' & Hpos).
    assert (Hm : remaining mid = []) by (destruct Hrest as [->|Hrest]; [done|by eapply remaining_exhausted]).
    destruct (fresh_leaves mid k above blk e (adv g) (dx_get_hash (dir_block s n (fr_bh g)) (fr_at (adv g))) (S p))
      as (Hu & Hlk & Hr); try done.
    split_and!; [|cbn [linked]; split_and!; try done; [by exists (S p)|]|done].
    + cbn [remaining]. rewrite Hm, length_fresh. cbn [app]. unfold after. rewrite Hpos, Hpos'.
      change (fr_bh (adv g)) with (fr_bh g) at 2. change (fr_entries (adv g)) with (fr_entries g).
      rewrite Hbh, He in *. replace (node_count blk e - S p)%nat with (S (node_count blk e - S (S p))) by lia.
      cbn [seq]. change (S p :: ?l) with ([S p] ++ l). rewrite node_leaves_app.
      unfold node_leaves at 1. cbn [mbind list_bind]. rewrite app_nil_r, Hk.
      assert (Hfb : frame_block s n (adv g) = child (dir_block s n blk) e (S p))
        by (unfold frame_block, child; by rewrite Hat', <- Hbh).
      rewrite <- Hfb. unfold entry_low. cbn [Nat.eqb]. rewrite <- Hat', Hu.
      change (fr_bh (adv g)) with (fr_bh g). by rewrite Hbh.
    + destruct Hlk as [->|Hlk]; [by left|by right].
  - destruct Hl as (Hbh & He & (p & Hat & Hp) & [Hrest|Hrest]); [by destruct pre|].
    simpl in Hk. destruct k as [|k]; [done|]. injection Hk as Hk.
    assert (Hfb : frame_block s n f = dx_get_block (dir_block s n blk) (dx_at e (Z.of_nat p)))
      by (unfold frame_block; by rewrite Hbh, Hat).
    destruct Hok as (Hcnt & _ & Hch). destruct (Hch (Z.of_nat p)) as (_ & _ & _ & Hsub);
      [unfold node_count in Hp; lia|]. rewrite <- Hfb in Hsub.
    destruct (IH k _ _ _ g mid Hsub Hrest Hk Hg Hmid) as (Hr & Hlk & Hrd).
    split_and!; [|cbn [linked]; split_and!; try done; [by exists p|by right]|done].
    cbn [remaining]. rewrite Hr. cbn [app]. f_equal.
    + f_equal. rewrite leaf_of_app. symmetry. apply (leaf_of_app (f :: pre)).
    + f_equal. f_equal. rewrite !length_app. simpl. by rewrite length_fresh.
Qed.

(** ** Where the probe stops *)

Lemma after_above k above blk e h p :
  index_ok n s k above blk e ->
  (forall i, Z.of_nat p < i < dx_get_count (dir_block s n blk) e -> h < dx_get_hash (dir_block s n blk) (dx_at e i)) ->
  let l := node_leaves k 0 blk e (seq (S p) (node_count blk e - S p)) in
  StronglySorted low_le l -> Forall (fun x => h < x.1) l.
Proof.
  intros Hok Hhi l Hs. subst l. destruct (node_count blk e - S p)%nat as [|m] eqn:Hm; [constructor|].
  assert (Hp : (S p < node_count blk e)%nat) by lia.
  set (f := Frame blk e (dx_at e (Z.of_nat (S p)))).
  destruct (fresh_leaves (replicate k f) k above blk e f (dx_get_hash (dir_block s n blk) (dx_at e (Z.of_nat (S p)))) (S p))
    as (Hu & _); try done; [by rewrite length_replicate|].
  specialize (Hhi (Z.of_nat (S p)) ltac:(unfold node_count in Hp; lia)).
  revert Hs. cbn [seq]. change (S p :: ?l) with ([S p] ++ l). rewrite node_leaves_app.
  unfold node_leaves at 1 3. cbn [mbind list_bind]. rewrite app_nil_r.
  change (child (dir_block s n blk) e (S p)) with (frame_block s n f).
  change (entry_low (dir_block s n blk) e 0 (S p)) with (dx_get_hash (dir_block s n blk) (dx_at e (Z.of_nat (S p)))).
  rewrite Hu. simpl. rewrite StronglySorted_cons. intros [Hall _]. constructor; [done|].
  eapply Forall_impl; [exact Hall|]. simpl. intros; lia.
Qed.

(** The probe stops at the last leaf whose hash is not above [h]. *)
Lemma probe_split frames : forall k above blk e lo h,
  probed n s h blk e frames -> index_ok n s k above blk e -> length frames = S k -> lo <= h ->
  let L := node_leaves k lo blk e (seq 0 (node_count blk e)) in
  StronglySorted low_le L ->
  linked blk e frames /\
  exists before l, L = before ++ (l, leaf_of frames) :: remaining frames /\ l <= h /\
    Forall (fun x => h < x.1) (remaining frames).
Proof.
  induction frames as [|f frames IH]; intros k above blk e lo h Hpr Hok Hlen Hlo L HsL; [done|]. subst L.
  destruct Hpr as (Hbh & He & Hcnt & (p & Hp & Hat) & Hrest). pose proof (index_ok_node n _ _ _ _ _ Hok) as (_ & Hsort & Hch).
  pose proof (dx_search_range _ _ _ _ _ (proj1 Hcnt) Hp) as Hpr.
  destruct (dx_search_position _ _ _ h Hsort (proj1 Hcnt)) as (p' & Hp' & _ & Hle & Hgt).
  rewrite Hp in Hp'. injection Hp' as <-. set (q := Z.to_nat p).
  assert (Hq : p = Z.of_nat q) by lia. rewrite Hq in *.
  assert (Hqc : (q < node_count blk e)%nat) by (unfold node_count; lia).
  assert (Hpos : frame_pos f = q).
  { unfold frame_pos. rewrite He, Hat. exact (frame_pos_at blk e q). }
  assert (Hlow : entry_low (dir_block s n blk) e lo q <= h).
  { unfold entry_low. destruct (Nat.eqb_spec q 0); [done|]. apply Hle. lia. }
  assert (Hfb : frame_block s n f = child (dir_block s n blk) e q)
    by (unfold frame_block, child; by rewrite Hbh, Hat).
  rewrite (node_leaves_split k lo blk e q) in HsL |- * by done. rewrite <- Hfb in *.
  apply StronglySorted_app in HsL as (_ & _ & Hs2). apply StronglySorted_app in Hs2 as (_ & Hs1 & Hs2).
  pose proof (after_above k above blk e h q Hok Hgt Hs2) as Haft.
  assert (Hafter : node_leaves k 0 blk e (seq (S q) (node_count blk e - S q)) = after k f)
    by (unfold after; by rewrite Hpos, Hbh, He). rewrite Hafter in *.
  injection Hlen as Hlen. destruct k as [|k].
  - destruct frames; [|done]. split; [cbn [linked]; split_and!; [done|done|by exists q|by left]|].
    eexists (node_leaves 0 lo blk e (seq 0 q)), _. split_and!; [reflexivity|done|done].
  - destruct Hrest as [->|Hrest]; [done|].
    pose proof (Hch (Z.of_nat q) k ltac:(lia) eq_refl) as Hsub.
    change (dx_get_block _ _) with (child (dir_block s n blk) e q) in Hsub. rewrite <- Hfb in Hsub.
    destruct (IH k _ _ _ _ h Hrest Hsub Hlen Hlow) as (Hlk & before & l & HL & Hl & Hall); [exact Hs1|].
    split; [cbn [linked]; split_and!; [done|done|by exists q|by right]|].
    exists (node_leaves (S k) lo blk e (seq 0 q) ++ before), l. cbn [remaining]. rewrite Hlen.
    change (leaves_under (S k) (entry_low (dir_block s n blk) e lo q) (frame_block s n f)) with
      (node_leaves k (entry_low (dir_block s n blk) e lo q) (frame_block s n f) node_entries
         (seq 0 (node_count (frame_block s n f) node_entries))).
    rewrite HL. destruct frames as [|g frames]; [done|]. rewrite leaf_of_cons, <- !app_assoc.
    split_and!; [done|done|]. by apply Forall_app.
Qed.

Lemma linked_leaf_readable frames : forall k above blk e,
  linked blk e frames -> index_ok n s k above blk e -> length frames = S k ->
  readable n s (leaf_of frames) DIRENT_HTREE.
Proof.
  induction frames as [|f frames IH]; intros k above blk e Hl Hok Hlen; [done|].
  destruct Hl as (Hbh & He & (p & Hat & Hp) & Hrest). injection Hlen as Hlen.
  assert (Hfb : frame_block s n f = dx_get_block (dir_block s n blk) (dx_at e (Z.of_nat p)))
    by (unfold frame_block; by rewrite Hbh, Hat).
  assert (Hpc : 0 <= Z.of_nat p < dx_get_count (dir_block s n blk) e) by (unfold node_count in Hp; lia).
  destruct k as [|k].
  - destruct frames; [|done]. unfold leaf_of. simpl. rewrite Hfb. destruct Hok as (_ & _ & Hch).
    by destruct (Hch _ Hpc) as [_ Hr].
  - destruct Hrest as [->|Hrest]; [done|]. destruct frames as [|g frames]; [done|]. rewrite leaf_of_cons.
    destruct (index_ok_node n _ _ _ _ _ Hok) as (_ & _ & Hch).
    pose proof (Hch _ k Hpc eq_refl) as Hsub. rewrite <- Hfb in Hsub. by apply (IH k _ _ _ Hrest Hsub).
Qed.

(** Every hash of the list has 32 bits. *)
Lemma leaves_low_range k : forall lo blk,
  dir_bytes s n -> 0 <= lo < 2 ^ 32 -> Forall (fun x => 0 <= x.1 < 2 ^ 32) (leaves_under k lo blk).
Proof.
  induction k as [|k IH]; intros lo blk Hb Hlo; simpl; [by apply Forall_singleton|].
  apply Forall_bind, Forall_forall. intros i _. apply IH; [done|]. unfold entry_low. case_match; [done|].
  apply get32_range. by apply dir_block_bytes.
Qed.
End Tree.

(** ** Bounds on hashes *)

Lemma clear_low_bit x : 0 <= x < 2 ^ 32 -> Z.land x (2 ^ 32 - 2) = x / 2 * 2.
Proof.
  intros Hx. replace (2 ^ 32 - 2) with (Z.land (Z.ones 32) (Z.lnot 1)) by done.
  rewrite Z.land_assoc, Z.land_ones, Z.mod_small by lia. change 1 with (Z.ones 1).
  rewrite <- Z.ldiff_land, Z.ldiff_ones_r by lia. by rewrite Z.shiftr_div_pow2, Z.shiftl_mul_pow2 by lia.
Qed.

Lemma low_bit x : 0 <= x < 2 ^ 32 -> Z.land x (2 ^ 32 - 2) <= x <= Z.land x (2 ^ 32 - 2) + 1.
Proof. intros Hx. rewrite clear_low_bit by done. pose proof (Z.div_mod x 2). pose proof (Z.mod_pos_bound x 2). lia. Qed.

Lemma clear_low_bit_le x y : 0 <= x -> x <= y -> y < 2 ^ 32 ->
  Z.land x (2 ^ 32 - 2) <= Z.land y (2 ^ 32 - 2).
Proof. intros. rewrite !clear_low_bit by lia. pose proof (Z.div_le_mono x y 2). lia. Qed.

(** A hash above an even one, and not its continuation. *)
Lemma clear_low_bit_above h v :
  0 <= h -> h < v -> v < 2 ^ 32 -> Z.land h 1 = 0 -> Z.land v (2 ^ 32 - 2) <> h -> h < Z.land v (2 ^ 32 - 2).
Proof.
  intros H0 Hlt Hv Heven Hne. rewrite clear_low_bit in * by lia. change 1 with (Z.ones 1) in Heven.
  rewrite Z.land_ones in Heven by lia. pose proof (Z.div_mod h 2). pose proof (Z.div_mod v 2).
  pose proof (Z.mod_pos_bound v 2). change (2 ^ 1) with 2 in Heven. lia.
Qed.

Lemma chain_unique d b o e os : chain d b o e os -> forall os', chain d b o e os' -> os' = os.
Proof.
  induction 1 as [o|o e os Hok Hc IH]; intros os' Hc'.
  - inversion Hc' as [|? ? ? (H12 & _) Hc2]; subst; [done|]. pose proof (chain_le _ _ _ _ _ Hc2). lia.
  - inversion Hc' as [|? ? ? _ Hc2]; subst.
    + pose proof (chain_le _ _ _ _ _ Hc). destruct Hok. lia.
    + f_equal. by apply IH.
Qed.

(** [ext4fs_dirhash] gives 32 bits and keeps the low bit free for the continuation
    flag of the index. *)
Class DirHashOk `{NameiEnv} := {
  dirhash_range v nm : 0 <= (ext4fs_dirhash v nm).2.1 < 2 ^ 32;
  dirhash_even v nm : Z.land (ext4fs_dirhash v nm).2.1 1 = 0
}.

Section Find.
Context `{Env} `{!EnvErrno} `{Csum} `{NameiEnv} `{!DirHashOk} `{DirNamesOk}.
Variables (n : Z) (s : fs).

Abbreviation root := (dir_block s n 0).
Definition root_entries_at : Z := dx_root_info + info_length root.
Definition root_levels : nat := Z.to_nat (info_indirect_levels root).

(** All the leaves, in the order of the index. *)
Definition all_leaves : list (Z * Z) :=
  node_leaves n s root_levels 0 0 root_entries_at (seq 0 (node_count n s 0 root_entries_at)).

(** The hash of a name in this directory. *)
Definition tree_hash (nm : list Z) : Z :=
  let version := info_hash_version root in
  (ext4fs_dirhash (if version <=? DX_HASH_TEA then version + nm_hash_unsigned else version) nm).2.1.

(** A well-formed hash tree: its blocks can be read and pass the checks of the probe, the
    leaves are in hash order, and each is a well-formed block whose hashes lie between the
    one it starts at, its continuation bit cleared, and the one the next leaf starts
    at. *)
Record htree_ok : Prop := {
  ht_bytes : dir_bytes s n;
  ht_plain : plain (dctx s n);
  ht_geo : dir_geometry (dctx s n);
  ht_root : forall fname hinfo, root_ok n s (Some fname) hinfo;
  ht_sorted : StronglySorted low_le all_leaves;
  ht_leaf : forall l1 lo blk l2, all_leaves = l1 ++ (lo, blk) :: l2 ->
    exists os, dirblock (dctx s n) (dir_block s n blk) os /\
      forall e, e ∈ live (dir_block s n blk) os ->
        Z.land lo (2 ^ 32 - 2) <= tree_hash (e_name e) /\
        forall hi blk' l3, l2 = (hi, blk') :: l3 -> tree_hash (e_name e) < hi
}.

(** The entries of a leaf, and of the directory. *)
Definition leaf_entry (blk : Z) (e : dent) : Prop :=
  exists os, dirblock (dctx s n) (dir_block s n blk) os /\ e ∈ live (dir_block s n blk) os.
Definition tree_entry (e : dent) : Prop := exists lo blk, (lo, blk) ∈ all_leaves /\ leaf_entry blk e.

Hypothesis Htree : htree_ok.

Lemma leaf_entry_bounds l1 lo blk l2 e :
  all_leaves = l1 ++ (lo, blk) :: l2 -> leaf_entry blk e ->
  Z.land lo (2 ^ 32 - 2) <= tree_hash (e_name e) /\
  forall hi blk' l3, l2 = (hi, blk') :: l3 -> tree_hash (e_name e) < hi.
Proof.
  intros HL (os & Hd & He). destruct (ht_leaf Htree _ _ _ _ HL) as (os' & Hd' & Hall). apply Hall.
  destruct Hd as (_ & _ & Hc & _), Hd' as (_ & _ & Hc' & _). by rewrite (chain_unique _ _ _ _ _ Hc _ Hc').
Qed.

Lemma low_range lo blk : (lo, blk) ∈ all_leaves -> 0 <= lo < 2 ^ 32.
Proof.
  assert (Hall : Forall (fun x => 0 <= x.1 < 2 ^ 32) all_leaves).
  { apply Forall_bind, Forall_forall. intros i _. apply leaves_low_range; [apply Htree|].
    unfold entry_low. case_match; [lia|]. apply get32_range, dir_block_bytes, Htree. }
  intros Hin. rewrite Forall_forall in Hall. by apply (Hall (lo, blk)).
Qed.

(** Leaves before the one the probe stops at do not hold a name with hash [h]. *)
Lemma before_absent l1 lo blk l2 h e x :
  all_leaves = l1 ++ (lo, blk) :: l2 -> lo <= h -> x ∈ l1 -> leaf_entry x.2 e -> tree_hash (e_name e) <> h.
Proof.
  intros HL Hlo Hx He. destruct x as [lx bx]. apply list_elem_of_split in Hx as (a & b & ->).
  rewrite <- app_assoc in HL. simpl in HL.
  destruct (leaf_entry_bounds _ _ _ _ e HL He) as [_ Hhi].
  pose proof (ht_sorted Htree) as Hs. rewrite HL in Hs. apply StronglySorted_app in Hs as (_ & _ & Hs).
  apply StronglySorted_cons in Hs as [_ Hs]. destruct b as [|[hi bhi] b]; simpl in *.
  - specialize (Hhi _ _ _ eq_refl). lia.
  - specialize (Hhi _ _ _ eq_refl). apply StronglySorted_cons in Hs as [Hall _].
    assert (hi <= lo); [|lia]. rewrite Forall_forall in Hall.
    apply (Hall (lo, blk)). rewrite elem_of_app. right. by left.
Qed.

(** Leaves from one that starts above [h] on do not hold one either. *)
Lemma beyond_absent l1 v blk l2 h e x :
  all_leaves = l1 ++ (v, blk) :: l2 -> h < Z.land v (2 ^ 32 - 2) -> x ∈ (v, blk) :: l2 ->
  leaf_entry x.2 e -> tree_hash (e_name e) <> h.
Proof.
  intros HL Hv Hx He. destruct x as [lx bx].
  assert (Hin : (lx, bx) ∈ all_leaves) by (rewrite HL, elem_of_app; by right).
  assert (Hvin : (v, blk) ∈ all_leaves) by (rewrite HL, elem_of_app; right; by left).
  assert (Hle : v <= lx).
  { apply elem_of_cons in Hx as [[= -> ->]|Hx]; [done|]. pose proof (ht_sorted Htree) as Hs.
    rewrite HL in Hs. apply StronglySorted_app in Hs as (_ & _ & Hs).
    apply StronglySorted_cons in Hs as [Hall _]. rewrite Forall_forall in Hall. by apply (Hall (lx, bx)). }
  pose proof (low_range _ _ Hin). pose proof (low_range _ _ Hvin).
  pose proof (clear_low_bit_le v lx ltac:(lia) Hle ltac:(lia)).
  apply list_elem_of_split in Hin as (a & b & Hab).
  destruct (leaf_entry_bounds _ _ _ _ e Hab He) as [Hlo _]. lia.
Qed.

(** *** The lookup *)

Variable fname : ext4_filename.
Abbreviation h := (tree_hash (disk_name fname)).

Definition absent (blk : Z) : Prop := forall e, leaf_entry blk e -> e_name e <> disk_name fname.

Lemma hash_absent blk : (forall e, leaf_entry blk e -> tree_hash (e_name e) <> h) -> absent blk.
Proof. intros Hall e He Hn. apply (Hall e He). by rewrite Hn. Qed.

(** During the lookup: the leaves seen so far do not hold the name, those to come start
    above its hash. *)
Definition tree_inv (h0 : list res) (frames : list dx_frame) (w : world fs) : Prop :=
  dx_inv n s [] h0 frames w /\ linked n s 0 root_entries_at frames /\
  exists seen lo, all_leaves = seen ++ (lo, leaf_of n s frames) :: remaining n s frames /\
    Forall (fun x => h < x.1) (remaining n s frames) /\ Forall (fun x => absent x.2) seen.

Definition tree_result (r : lookup) : Prop :=
  match r with
  | LFound blk de => exists lo os, (lo, blk) ∈ all_leaves /\ dirblock (dctx s n) (dir_block s n blk) os /\
      de ∈ os /\ is_live (dir_block s n blk) de = true /\ de_name (dir_block s n blk) de = disk_name fname
  | LNull => forall e, tree_entry e -> e_name e <> disk_name fname
  | LErr _ => False
  end.
Definition tree_post (h0 : list res) (r : list dx_frame * lookup) (w : world fs) : Prop :=
  dx_inv n s (found_bh n r.2) h0 r.1 w /\ tree_result r.2.

Lemma all_absent : Forall (fun x => absent x.2) all_leaves -> tree_result LNull.
Proof. intros Hall e (lo & blk & Hin & He). rewrite Forall_forall in Hall. by apply (Hall (lo, blk)). Qed.

Lemma hash_range : 0 <= h < 2 ^ 32.
Proof. apply dirhash_range. Qed.

(** What the answer of [ext4_htree_next_block] means when the leaf it left does not hold
    the name. *)
Lemma next_post_tree h0 frames ret frames' bhash seen lo :
  linked n s 0 root_entries_at frames -> length frames = S root_levels ->
  all_leaves = seen ++ (lo, leaf_of n s frames) :: remaining n s frames ->
  Forall (fun x => h < x.1) (remaining n s frames) ->
  Forall (fun x => absent x.2) (seen ++ [(lo, leaf_of n s frames)]) ->
  next_post n s h frames ret frames' bhash ->
  (ret = 0 /\ tree_result LNull) \/
  (ret = 1 /\ counter n s frames' <= counter n s frames - 1 /\
   forall w, dx_inv n s [] h0 frames' w -> tree_inv h0 frames' w).
Proof.
  intros Hl Hlen HL Hgt Habs Hnp. destruct (ht_root Htree fname (HInfo 0 0 0)) as (_ & _ & _ & _ & _ & _ & Hok).
  fold root_levels root_entries_at in Hok.
  destruct Hnp as [(-> & _ & _ & Hall)|(pre & g & mid & v & -> & Hg & Hmid & Hv & _ & Hcase)].
  { left. split; [done|]. apply all_absent. rewrite HL.
    rewrite (remaining_exhausted n s _ _ _ Hl Hall) in *. done. }
  destruct (next_leaf n s pre _ _ _ _ g mid Hok Hl) as (Hrem & Hlk & Hrd); [|done|done|].
  { rewrite !length_app in *. simpl in Hlen. lia. }
  rewrite <- Hv in Hrem. set (new := pre ++ adv g :: fresh n s (adv g) mid) in *. rewrite Hrem in *.
  apply Forall_cons in Hgt as [Hvh Hgt].
  assert (HL2 : all_leaves = (seen ++ [(lo, leaf_of n s (pre ++ g :: mid))]) ++
                  (v, leaf_of n s new) :: remaining n s new) by (by rewrite HL, <- app_assoc).
  destruct Hcase as [(-> & _ & Hev & Hne)|[_ [(_ & Hnr & _)|(-> & ->)]]]; [|done|].
  - left. split; [done|]. apply all_absent. rewrite HL2. apply Forall_app. split; [done|].
    apply Forall_forall. intros x Hx. apply hash_absent. intros e He.
    assert (Hvr : 0 <= v < 2 ^ 32).
    { apply (low_range _ (leaf_of n s new)). rewrite HL2, elem_of_app. right. by left. }
    pose proof hash_range. eapply beyond_absent; [exact HL2| |exact Hx|done].
    apply clear_low_bit_above; (done || lia).
  - right. split; [done|]. split.
    { apply (counter_step n s pre g mid); [apply Htree|done]. }
    intros w Hinv. split; [done|]. split; [done|]. by eexists _, v.
Qed.

Lemma frames_levels (frames : list dx_frame) :
  Z.of_nat (length frames) = info_indirect_levels root + 1 -> length frames = S root_levels.
Proof.
  pose proof (getb_range root 30 (dir_block_bytes s n 0 (ht_bytes Htree))) as Hr.
  fold (info_indirect_levels root) in Hr. unfold root_levels. lia.
Qed.

Lemma dx_find_round_tree hinfo h0 frames w :
  h_hash hinfo = h -> tree_inv h0 frames w ->
  wp (dx_find_round n (with_hinfo fname hinfo) frames)
    (round_ok (tree_inv h0) (fun frames _ => counter n s frames) (tree_post h0)
       (counter n s frames - 1)) w.
Proof.
  intros Hhi (Hinv & Hl & seen & lo & HL & Hgt & Habs). pose proof Hinv as (Hst & Hlen & Hhd & Hh).
  destruct w as [s0 held c]. simpl in Hst, Hh. subst s0.
  assert (Hlen' : length frames = S root_levels).
  { by apply frames_levels. }
  destruct (ht_root Htree fname (HInfo 0 0 0)) as (_ & _ & _ & _ & _ & _ & Hok).
  pose proof (linked_leaf_readable n s frames _ _ _ _ Hl Hok Hlen') as Hread.
  unfold dx_find_round. do 2 wp_step. fold (leaf_of n s frames).
  apply wp_bind, wp_read_htree_block; [done|by intros ? ? ? []|]. cbn [w_st w_held]. intros c1. do 2 wp_step.
  destruct (ht_leaf Htree _ _ _ _ HL) as (os & Hd & _).
  assert (Hleaf : (lo, leaf_of n s frames) ∈ all_leaves) by (rewrite HL, elem_of_app; right; by left).
  pose proof (dirblock_search_spec (dctx s n) (ht_plain Htree) (ht_geo Htree) _ os (with_hinfo fname hinfo) Hd)
    as Hspec.
  destruct (search_dirblock _ _ _) as [[| |de]|]; [done| | |done].
  - assert (Habs' : Forall (fun x => absent x.2) (seen ++ [(lo, leaf_of n s frames)])).
    { apply Forall_app. split; [done|]. apply Forall_singleton. intros e (os' & Hd' & He).
      apply Hspec. destruct Hd as (_ & _ & Hc & _), Hd' as (_ & _ & Hc' & _).
      by rewrite (chain_unique _ _ _ _ _ Hc' _ Hc). }
    unfold brelse. do 2 wp_step. assert (Hne : frames <> []) by (by intros ->).
    rewrite app_nil_r in Hh. apply wp_bind, (wp_next_block n _ _ h0); cbn [w_st w_held]; [done|done|].
    intros ret frames' bhash h' c' Hnp Hh'. destruct (next_post_shape _ _ _ _ _ _ _ Hnp) as [Hl' Hd'].
    assert (Hinv' : dx_inv n s [] h0 frames' (World s h' c'))
      by (split_and!; [done|congruence|congruence|by rewrite app_nil_r]).
    change (hi_hash (with_hinfo fname hinfo)) with (h_hash hinfo) in Hnp. rewrite Hhi in Hnp.
    destruct (next_post_tree h0 frames ret frames' bhash seen lo) as [[-> Hres]|(-> & Hcnt & Hti)];
      try done. apply wp_ret. split; [by apply Hti|]. split; [apply counter_nonneg|done].
  - apply wp_ret. split.
    + split_and!; try done. simpl. rewrite app_nil_r in Hh.
      apply (on_top_cons (dbh n (leaf_of n s frames))) in Hh. revert Hh. apply on_top_permutation.
      by rewrite <- Permutation_app_comm.
    + destruct Hspec as (Hde & Hlv & Hnm). exists lo, os. done.
Qed.

Lemma probe_hash_plain hinfo hi :
  probe_hash s n root (Some fname) hinfo = inr hi -> h_hash hi = h.
Proof.
  unfold probe_hash, tree_hash. destruct (ht_plain Htree) as [Hc He]. rewrite He. cbn [andb]. destruct (ext4fs_dirhash _ _) as [err [hash minor]].
  case_match; [done|]. by intros [= <-].
Qed.

(** The probe of a well-formed tree establishes the invariant. *)
Lemma probe_tree_inv h0 hi frames w :
  h_hash hi = h -> probed n s (h_hash hi) 0 root_entries_at frames -> dx_inv n s [] h0 frames w ->
  tree_inv h0 frames w.
Proof.
  intros Hhi Hpr Hinv. rewrite Hhi in Hpr. pose proof Hinv as (_ & Hlen & _).
  destruct (ht_root Htree fname (HInfo 0 0 0)) as (_ & _ & _ & _ & _ & _ & Hok).
  destruct (probe_split n s frames root_levels [0] 0 root_entries_at 0 h) as (Hlk & before & l & HL & Hle & Hall);
    try done; [by apply frames_levels|apply hash_range|apply Htree|].
  split; [done|]. split; [done|]. exists before, l. split_and!; [exact HL|done|].
  apply Forall_forall. intros x Hx. apply hash_absent. intros e He. eapply before_absent; [exact HL|done|done|done].
Qed.
End Find.

Section Correct.
Context `{Env} `{!EnvErrno} `{Csum} `{NameiEnv} `{!DirHashOk} `{DirNamesOk}.

Lemma dx_find_entry_tree n fname w :
  htree_ok n (w_st w) ->
  wp (dx_find_entry n fname) (fun r w' =>
    w_st w' = w_st w /\ w_held w' = found_bh n r ++ w_held w /\ tree_result n (w_st w) fname r) w.
Proof.
  intros Htree. set (s := w_st w) in *. set (h0 := w_held w). unfold dx_find_entry.
  apply wp_bind, wp_dx_probe; [apply Htree|intros err c _ Hno; destruct Hno; apply Htree|].
  intros frames hi held c root Hph Hlen Hlev Hpr Hh.
  pose proof (probe_hash_plain n s Htree fname _ _ Hph) as Hhi.
  apply wp_bind. eapply wp_mono;
    [apply (wp_kloop _ (tree_inv n s fname h0) (fun frames _ => counter n s frames) (tree_post n s fname h0))|].
  - intros a w' Ha. by apply dx_find_round_tree.
  - eapply probe_tree_inv; [done|done|exact Hpr|].
    split_and!; [done|done|by eapply probed_head|by rewrite app_nil_r].
  - pose proof (htree_level_max (f_es s)).
    apply counter_start; [eapply probed_digits; [apply Htree|exact Hpr]|unfold s in *; lia].
  - intros [frames' r] w' [Hinv Hok]. simpl in Hinv, Hok. apply wp_bind.
    eapply wp_dx_release; [exact Hinv|]. intros h' c' Hh'. apply wp_ret.
    split_and!; [done| |done]. destruct r; simpl in *; [by apply on_top_nil|done|].
    by destruct Hh' as (l & -> & ->%Permutation_singleton_r).
Qed.

(** C32: looking a name up in a well-formed hash tree whose blocks can be read: the
    lookup returns without an error and is the lookup among the live entries of all
    the leaves.  A record that is found is a live one with the name, in a leaf of the
    tree (whose buffer is handed over); nothing is found only when no leaf has a live
    entry with the name, entries whose hash collides and continues in the next leaf
    included.  The file system is unchanged and all other buffers are given back. *)
Theorem dx_find_entry_correct n fname w :
  htree_ok n (w_st w) ->
  wp (dx_find_entry n fname) (fun r w' =>
    w_st w' = w_st w /\ w_held w' = found_bh n r ++ w_held w /\ tree_result n (w_st w) fname r) w.
Proof. apply dx_find_entry_tree. Qed.
End Correct.
