(* ===== verification/DxAdd.v ===== *)
(** * Splitting a leaf in the file system

    [do_split] of a hash-tree directory, with the appended block, the journal and the
    buffers: the two halves of the leaf are stored, the index gets the entry of the new
    block, the checksums of the blocks written are set, and every other block of the
    directory and every other inode stay as they were. *)

From stdpp Require Import functions prelude list gmap strings.
From Stdlib Require Import ZArith Lia.
From S2P Require Import Prelude Kernel Bytes Layout ExtentNode Fs Inode Dirent DxBlock DxBlockSpec DxSplit DxRoom Namei Dx DxLookup DxTree.

Local Open Scope Z_scope.

(** ** Index blocks and their checksum *)

Section IndexBlock.
Context `{Csum}.
Variable d : dirctx.
Hypothesis Hgeo : dir_geometry d.

(** An index block: its entries fit, and with checksums the count is where the
    checksum code looks for it and the tail lies behind the last entry. *)
Record index_block (b : list Z) (entries : Z) : Prop := {
  ib_fits : index_fits b entries;
  ib_len : Z.of_nat (length b) = d_blocksize d;
  ib_tail : d_csum d = true -> get_dx_countlimit d b = Some entries /\
    dx_at entries (dx_get_limit b entries) + sizeof_dx_tail <= d_blocksize d
}.

Lemma countlimit_same b b' entries :
  (forall i, i < entries -> getb b' i = getb b i) ->
  get_dx_countlimit d b = Some entries -> get_dx_countlimit d b' = Some entries.
Proof.
  intros Hs. unfold get_dx_countlimit, rlen_at, de_rec_len.
  assert (H16 : forall o, o + 2 <= entries -> get16 b' o = get16 b o)
    by (intros; apply le_get_ext; intros; apply Hs; lia).
  case_match; [intros [= <-]; rewrite H16 by lia; by case_match|].
  case_match; [|done]. do 2 (case_match; [done|]). intros [= <-].
  rewrite !H16, (le_get_ext 4 b' b), Hs by (lia || (intros; apply Hs; lia)). by repeat case_match.
Qed.

(** A block that agrees up to the last entry has the same entries. *)
Lemma dx_entries_same b b' entries :
  index_fits b entries -> 1 <= dx_get_count b entries <= dx_get_limit b entries ->
  (forall i, 0 <= i < dx_at entries (dx_get_limit b entries) -> getb b' i = getb b i) ->
  dx_get_limit b' entries = dx_get_limit b entries /\ dx_entries b' entries = dx_entries b entries.
Proof.
  intros (_ & He & _) Hc Hs. unfold dx_at, sizeof_dx_entry in Hs.
  assert (Hlim : dx_get_limit b' entries = dx_get_limit b entries)
    by (apply le_get_ext; intros; apply Hs; lia).
  assert (Hcnt : dx_get_count b' entries = dx_get_count b entries)
    by (apply le_get_ext; intros; apply Hs; lia).
  split; [done|]. unfold dx_entries. rewrite Hcnt. apply list_fmap_ext.
  intros i x [-> Hi]%lookup_seq. simpl. unfold dx_entry_at, dx_get_hash, dx_get_block, dx_at, sizeof_dx_entry.
  f_equal; [case_match; [done|]|f_equal]; apply le_get_ext; intros; apply Hs; lia.
Qed.

Lemma dx_csum_set_spec b entries :
  index_block b entries -> 1 <= dx_get_count b entries <= dx_get_limit b entries ->
  let b' := ext4_dx_csum_set d b in
  index_block b' entries /\ dx_get_limit b' entries = dx_get_limit b entries /\
  dx_entries b' entries = dx_entries b entries /\ ext4_dx_csum_verify d b' = true /\
  (forall i, i < dx_at entries (dx_get_limit b entries) -> getb b' i = getb b i).
Proof.
  intros Hib Hc. pose proof Hib as [Hf Hlen Ht]. unfold ext4_dx_csum_set, ext4_dx_csum_verify.
  destruct (d_csum d) eqn:Hcs; cbn [negb]; [|done].
  destruct (Ht eq_refl) as [Hcl Hroom]. pose proof Hf as (Hb & He & _). rewrite Hcl.
  fold (dx_get_limit b entries) (dx_get_count b entries).
  fold (dx_at entries (dx_get_limit b entries)). set (t := dx_at entries (dx_get_limit b entries)) in *.
  unfold sizeof_dx_tail in *. destruct (Z.ltb_spec (d_blocksize d - 8) t) as [|_]; [lia|].
  set (c := ext4_dx_csum d b entries (dx_get_count b entries) t). set (b' := put32 b (t + 4) c).
  assert (Hs : forall i, i < t + 4 -> getb b' i = getb b i) by (intros; apply getb_put_out; lia).
  assert (Ht0 : entries + dx_get_count b entries * 8 <= t)
    by (unfold t, dx_at, sizeof_dx_entry; lia).
  destruct (dx_entries_same b b' entries Hf Hc) as [Hlim Hes]; [intros; apply Hs; unfold t; lia|].
  assert (Hcnt : dx_get_count b' entries = dx_get_count b entries)
    by (apply le_get_ext; intros; apply Hs; lia).
  assert (Hcl' : get_dx_countlimit d b' = Some entries)
    by (apply (countlimit_same b); [intros; apply Hs; lia|done]).
  assert (Hlb : length b' = length b) by (unfold b'; by autorewrite with len).
  cbv zeta. rewrite Hcl'. fold (dx_get_limit b' entries) (dx_get_count b' entries). rewrite Hlim, Hcnt.
  fold (dx_at entries (dx_get_limit b entries)). fold t.
  destruct (Z.ltb_spec (d_blocksize d - 8) t) as [|_]; [lia|].
  assert (Hc' : ext4_dx_csum d b' entries (dx_get_count b entries) t = c).
  { unfold c, ext4_dx_csum, sizeof_dx_entry. do 2 f_equal; [f_equal|]; apply gets_ext; intros; apply Hs; lia. }
  rewrite Hc'. split_and!; try done.
  - split; [|by rewrite Hlb|]. 
    + split_and!; [unfold b'; eauto with evfs|done|]. rewrite Hlim, Hlb. apply Hf.
    + intros _. by rewrite Hlim.
  - apply Z.eqb_eq. unfold b'. rewrite get32_put32_eq by lia.
    unfold c, ext4_dx_csum, ext4_chksum. apply u32_small, u32_range.
  - intros i Hi. apply Hs. lia.
Qed.
End IndexBlock.

Section Insert.
Context `{Csum}.
Variable d : dirctx.

Lemma index_block_insert b entries p hash block :
  index_block d b entries -> (p < length (dx_entries b entries))%nat ->
  dx_get_count b entries < dx_get_limit b entries -> 0 <= hash < 2 ^ 32 -> 0 <= block < 2 ^ 28 ->
  let l := dx_entries b entries in
  exists b', dx_insert_block b entries (dx_at entries (Z.of_nat p)) hash block = Some b' /\
    index_block d b' entries /\ dx_get_limit b' entries = dx_get_limit b entries /\
    dx_get_count b' entries = dx_get_count b entries + 1 /\
    dx_entries b' entries = take (S p) l ++ (hash, block) :: drop (S p) l /\
    (forall i, i < entries -> getb b' i = getb b i).
Proof.
  intros [Hf Hlen Ht] Hp Hcl Hh Hb l.
  destruct (dx_insert_entries b entries p hash block) as (b' & Hrun & Hf' & Hl & Hlim & Hcnt & Hes & Hout); try done.
  exists b'. split_and!; try done; [|intros; apply Hout; by left].
  split; [done|by rewrite Hl|]. intros Hcs. destruct (Ht Hcs) as [Hc Hr]. rewrite Hlim. split; [|done].
  eapply countlimit_same; [|exact Hc]. intros. apply Hout. by left.
Qed.
End Insert.

(** ** Updates of the blocks of one directory *)

(** Functions with updated arguments, compared argument by argument. *)
Ltac fn_cases := let k := fresh "k" in intros k ?; unfold insert, fn_insert; repeat case_decide; congruence.

Section Update.
Context `{NameiEnv}.
Variable n : Z.

(** [s'] is [s] with directory [n] having [len] blocks, block [k] being [f k], and the
    size that goes with them; nothing else of the inode or of the file system differs. *)
Record dir_update (s s' : fs) (len : Z) (f : Z -> list Z) : Prop := {
  du_len : Z.of_nat (length (i_dir (inode_of s' n))) = len;
  du_blk : forall k, 0 <= k < len -> dir_block s' n k = f k;
  du_inode : inode_of s' n =
    set_dir (i_dir (inode_of s' n))
      (set_size (i_size (inode_of s n) +
                 (len - Z.of_nat (length (i_dir (inode_of s n)))) * s_blocksize (f_sbi s)) (inode_of s n));
  du_sbi : f_sbi s' = f_sbi s;
  du_es : f_es s' = f_es s;
  du_others : others n s s'
}.

Lemma du_ctx s s' len f : dir_update s s' len f -> dctx s' n = dctx s n.
Proof. intros [_ _ Hi Hs He _]. unfold dctx. by rewrite Hi, Hs, He. Qed.

Lemma du_set s s' len f blk b :
  dir_update s s' len f -> 0 <= blk < len ->
  dir_update s (set_dir_block n blk b s') len (<[blk := b]> f).
Proof.
  intros [Hl Hf Hi Hs He Ho] Hb. rewrite <- Hl in Hb. destruct (dir_block_set n blk b s' Hb) as [Hbk Hlen].
  split; try done; [by rewrite Hlen| | |].
  - intros k Hk. destruct (decide (k = blk)) as [->|Hne]; [by rewrite fn_lookup_insert|].
    rewrite fn_lookup_insert_ne, <- Hf by done. unfold dir_block, set_dir_block, put_block.
    rewrite inode_of_upd_eq. simpl. destruct (Z.eqb_spec blk (Z.of_nat (length (i_dir (inode_of s' n))))); [lia|].
    rewrite !nth_lookup, list_lookup_insert_ne by lia. done.
  - unfold set_dir_block at 1 2. rewrite !inode_of_upd_eq. rewrite Hi at 2. done.
  - eapply others_trans; [exact Ho|]. apply others_upd.
Qed.

Lemma du_ext s s' len f g :
  dir_update s s' len f -> (forall k, 0 <= k < len -> f k = g k) -> dir_update s s' len g.
Proof. intros [] Hfg. split; try done. intros k Hk. rewrite <- Hfg by done. auto. Qed.

Lemma du_append s :
  let len := Z.of_nat (length (i_dir (inode_of s n))) in
  dir_update s (appended n s) (len + 1)
    (<[len := replicate (Z.to_nat (s_blocksize (f_sbi s))) 0]> (dir_block s n)).
Proof.
  intros len. assert (Hd : i_dir (inode_of (appended n s) n) =
    (i_dir (inode_of s n) ++ [replicate (Z.to_nat (s_blocksize (f_sbi s))) 0])%list).
  { unfold appended, set_dir_block, put_block. rewrite !inode_of_upd_eq. simpl. fold len.
    by rewrite Z.eqb_refl. }
  split; try done.
  - rewrite Hd, length_app. simpl. lia.
  - intros k Hk. unfold dir_block at 1. rewrite Hd, nth_lookup.
    destruct (decide (k = len)) as [->|Hne].
    + unfold len. by rewrite fn_lookup_insert, Nat2Z.id, list_lookup_middle.
    + rewrite fn_lookup_insert_ne, lookup_app_l by lia. unfold dir_block. by rewrite nth_lookup.
  - rewrite Hd. unfold appended, set_dir_block. rewrite !inode_of_upd_eq. unfold put_block. simpl.
    fold len. rewrite Z.eqb_refl. replace (len + 1 - len) with 1 by lia. by rewrite Z.mul_1_l.
  - unfold appended, set_dir_block. eapply others_trans; apply others_upd.
Qed.
End Update.

(** ** Splitting a leaf *)

Section DoSplit.
Context `{EnvFs} `{Csum} `{NameiEnv} `{!DirHashOk} `{DirNamesOk}.
Hypothesis Hcalm : journal_calm.
Hypothesis Hholes : no_holes.
Variable n : Z.

Abbreviation nblocks s := (Z.of_nat (length (i_dir (inode_of s n)))).

(** Leaf [bh], with the records [os], is to be split, under entry [p] of frame [f]
    whose index has room. *)
Record can_split (s : fs) (bh : Z) (f : dx_frame) (p : nat) (os : list Z) : Prop := {
  cs_plain : plain (dctx s n);
  cs_geo : dir_geometry (dctx s n);
  cs_sized : sized n s;
  cs_bh : 0 <= bh < nblocks s;
  cs_idx : 0 <= fr_bh f < nblocks s;
  cs_ne : bh <> fr_bh f;
  cs_max : nblocks s < 2 ^ 28;
  cs_leaf : dirblock (dctx s n) (dir_block s n bh) os;
  cs_two : (2 <= length (live (dir_block s n bh) os))%nat;
  cs_index : index_block (dctx s n) (dir_block s n (fr_bh f)) (fr_entries f);
  cs_at : fr_at f = dx_at (fr_entries f) (Z.of_nat p);
  cs_pos : (p < length (dx_entries (dir_block s n (fr_bh f)) (fr_entries f)))%nat;
  cs_room : dx_get_count (dir_block s n (fr_bh f)) (fr_entries f) <
            dx_get_limit (dir_block s n (fr_bh f)) (fr_entries f)
}.

(** The directory after the split: a name with hash [hash] belongs into [target], behind
    its last record [de], where there is room for it. *)
Definition split_done (s : fs) (bh : Z) (f : dx_frame) (p : nat) (os : list Z) (version hash : Z)
    (s' : fs) (target de : Z) : Prop :=
  let d := dctx s n in
  let l := dx_entries (dir_block s n (fr_bh f)) (fr_entries f) in
  exists b1 b2 bx os1 os2 hash2 continued,
    dir_update n s s' (nblocks s + 1)
      (<[fr_bh f := bx]> (<[nblocks s := b2]> (<[bh := b1]> (dir_block s n)))) /\
    dirblock d b1 os1 /\ dirblock d b2 os2 /\
    divided (ext4fs_dirhash version) (live (dir_block s n bh) os) (live b1 os1) (live b2 os2) hash2 continued /\
    index_block d bx (fr_entries f) /\ ext4_dx_csum_verify d bx = true /\
    dx_get_limit bx (fr_entries f) = dx_get_limit (dir_block s n (fr_bh f)) (fr_entries f) /\
    dx_entries bx (fr_entries f) = take (S p) l ++ (hash2 + continued, nblocks s) :: drop (S p) l /\
    (forall i, i < fr_entries f -> getb bx i = getb (dir_block s n (fr_bh f)) i) /\
    if hash2 <=? hash
    then target = nblocks s /\ last os2 = Some de /\ ext4_dirblock_csum_verify d b1 = true /\ accepts d b2 os2 de
    else target = bh /\ last os1 = Some de /\ ext4_dirblock_csum_verify d b2 = true /\
         (~ stops_at_first d (ext4fs_dirhash version) (dir_block s n bh) -> accepts d b1 os1 de).

Lemma divided_hash version l l1 l2 hash2 continued :
  divided (ext4fs_dirhash version) l l1 l2 hash2 continued ->
  0 <= hash2 + continued < 2 ^ 32 /\ 0 <= continued <= 1.
Proof.
  intros (_ & Hl1 & Hl2 & Hle & Hge & Hc). destruct l1 as [|e1 l1]; [done|]. destruct l2 as [|e2 l2]; [done|].
  apply Forall_cons in Hle as [Hle _]. apply Forall_cons in Hge as [Hge _]. unfold name_hash in *.
  pose proof (dirhash_range version (e_name e1)). pose proof (dirhash_range version (e_name e2)).
  pose proof (dirhash_even version (e_name e2)) as He.
  rewrite (Z.land_ones _ 1), Z.pow_1_r in He by lia. 
  assert ((ext4fs_dirhash version (e_name e2)).2.1 <> 2 ^ 32 - 1) by (intros E; by rewrite E in He).
  destruct Hc as [[-> _]|[-> _]]; lia.
Qed.

Ltac calm_call := match goal with
  | Hc : env_int _ _ _ = ?z |- _ => rewrite Hcalm in Hc by reflexivity; subst z
  end.

(** Storing a block with its checksum. *)
Lemma wp_dirty_dirblock blk s h calls (Q : Z -> world fs -> Prop) :
  (forall calls, Q 0 (World (set_dir_block n blk (ext4_dirblock_csum_set (dctx s n) (dir_block s n blk)) s) h calls)) ->
  wp (ext4_handle_dirty_dirblock n blk) Q (World s h calls).
Proof. intros HQ. unfold ext4_handle_dirty_dirblock. repeat wp_step. calm_call. apply HQ. Qed.

Lemma wp_dirty_dx_node blk s h calls (Q : Z -> world fs -> Prop) :
  (forall calls, Q 0 (World (set_dir_block n blk (ext4_dx_csum_set (dctx s n) (dir_block s n blk)) s) h calls)) ->
  wp (ext4_handle_dirty_dx_node n blk) Q (World s h calls).
Proof. intros HQ. unfold ext4_handle_dirty_dx_node. repeat wp_step. calm_call. apply HQ. Qed.

(** The end of [do_split]: the index gets its entry, the block that does not receive
    the name and the index are written, and the former is released. *)
Definition publish (f : dx_frame) (hash newblock target other de : Z) : K fs (Z + Z * Z) :=
  frame_insert n f hash newblock;;;
  err <~ ext4_handle_dirty_dirblock n other;;
  if negb (err =? 0) then brelse n target;;; brelse n other;;; kret (inl err) else
  err <~ ext4_handle_dirty_dx_node n (fr_bh f);;
  if negb (err =? 0) then brelse n target;;; brelse n other;;; kret (inl err) else
  brelse n other;;; kret (inr (target, de)).

Lemma wp_publish f hash newblock target other de p s s1 len g h calls h0 (Q : Z + Z * Z -> world fs -> Prop) :
  let idx := g (fr_bh f) in
  let l := dx_entries idx (fr_entries f) in
  dir_update n s s1 len g -> 0 <= other < len -> 0 <= fr_bh f < len -> other <> fr_bh f ->
  index_block (dctx s n) idx (fr_entries f) -> fr_at f = dx_at (fr_entries f) (Z.of_nat p) ->
  (p < length l)%nat -> dx_get_count idx (fr_entries f) < dx_get_limit idx (fr_entries f) ->
  0 <= hash < 2 ^ 32 -> 0 <= newblock < 2 ^ 28 -> on_top [dbh n other; dbh n target] h0 h ->
  (forall bx s' h calls,
     dir_update n s s' len (<[fr_bh f := bx]> (<[other := ext4_dirblock_csum_set (dctx s n) (g other)]> g)) ->
     index_block (dctx s n) bx (fr_entries f) -> ext4_dx_csum_verify (dctx s n) bx = true ->
     dx_get_limit bx (fr_entries f) = dx_get_limit idx (fr_entries f) ->
     dx_entries bx (fr_entries f) = take (S p) l ++ (hash, newblock) :: drop (S p) l ->
     (forall i, i < fr_entries f -> getb bx i = getb idx i) ->
     on_top [dbh n target] h0 h -> Q (inr (target, de)) (World s' h calls)) ->
  wp (publish f hash newblock target other de) Q (World s1 h calls).
Proof.
  intros idx l Hu Ho Hf Hne Hib Hat Hp Hroom Hhash Hnb Htop HQ. unfold publish, frame_insert. do 3 wp_step.
  rewrite (du_blk _ _ _ _ _ Hu), Hat by done. fold idx.
  destruct (index_block_insert (dctx s n) idx (fr_entries f) p hash newblock) as (b' & -> & Hib' & Hlim & Hcnt & Hes & Hs);
    try done.
  assert (Hcr : 1 <= dx_get_count b' (fr_entries f) <= dx_get_limit b' (fr_entries f)).
  { rewrite Hlim, Hcnt. pose proof (ib_fits _ _ _ Hib) as (Hb & _).
    pose proof (get16_range idx (fr_entries f + 2) Hb) as Hr. fold (dx_get_count idx (fr_entries f)) in Hr. lia. }
  destruct (dx_csum_set_spec (dctx s n) b' (fr_entries f) Hib' Hcr) as (Hix & Hlim' & Hes' & Hv & Hs').
  wp_step. apply wp_bind, wp_dirty_dirblock. intros c1. cbn [Z.eqb negb].
  pose proof (du_set n s s1 len g (fr_bh f) b' Hu Hf) as Hu2. set (s2 := set_dir_block n (fr_bh f) b' s1) in *.
  clearbody s2. rewrite (du_ctx _ _ _ _ _ Hu2), (du_blk _ _ _ _ _ Hu2), fn_lookup_insert_ne by done.
  apply wp_bind, wp_dirty_dx_node. intros c2. cbn [Z.eqb negb].
  pose proof (du_set n s s2 len _ other (ext4_dirblock_csum_set (dctx s n) (g other)) Hu2 Ho) as Hu3.
  set (s3 := set_dir_block n other _ s2) in *. clearbody s3.
  rewrite (du_ctx _ _ _ _ _ Hu3), (du_blk _ _ _ _ _ Hu3), fn_lookup_insert_ne, fn_lookup_insert by done.
  apply wp_bind. eapply wp_release_top; [exact Htop|]. intros h' Hh'. apply wp_ret.
  eapply HQ; [|exact Hix|done|congruence|by rewrite Hes'|by intros; rewrite Hs', Hs by (unfold dx_at, sizeof_dx_entry; lia)|done].
  eapply du_ext; [exact (du_set n s s3 len _ (fr_bh f) (ext4_dx_csum_set (dctx s n) b') Hu3 Hf)|].
  fn_cases.
Qed.

Lemma wp_do_split bh f hinfo p os s h calls h0 (Q : Z + Z * Z -> world fs -> Prop) :
  can_split s bh f p os -> (forall nm, 0 <= (ext4fs_dirhash (h_version hinfo) nm).1) ->
  on_top [dbh n bh] h0 h ->
  (forall err calls, err < 0 -> Q (inl err) (World s h0 calls)) ->
  (forall target de s' h calls, split_done s bh f p os (h_version hinfo) (h_hash hinfo) s' target de ->
     on_top [dbh n target] h0 h -> Q (inr (target, de)) (World s' h calls)) ->
  wp (do_split n bh f hinfo) Q (World s h calls).
Proof.
  intros Hcs Hh Htop Herr HQ. destruct Hcs as [Hpl Hgeo Hsz Hbh Hidx Hne Hmax Hleaf Htwo Hib Hat Hp Hroom].
  unfold do_split. apply wp_bind, wp_append; [done|done|done|..].
  { intros blk err c He. apply wp_bind. eapply wp_release_top; [exact Htop|].
    intros h' ->%on_top_nil. apply wp_ret. by apply Herr. }
  intros c. set (nb := nblocks s) in *. pose proof (du_append n s) as Hu. fold nb in Hu. cbv zeta in Hu.
  set (z := replicate _ 0) in *. set (s1 := appended n s) in *. clearbody s1.
  do 2 (repeat wp_step; calm_call; cbn [Z.eqb negb]). do 2 wp_step.
  rewrite !(du_ctx _ _ _ _ _ Hu), !(du_blk _ _ _ _ _ Hu), fn_lookup_insert, fn_lookup_insert_ne by lia.
  set (d := dctx s n) in *. set (leaf := dir_block s n bh) in *.
  destruct (leaf_split_room d Hpl Hgeo (ext4fs_dirhash (h_version hinfo)) leaf os z)
    as (map & sp & os1 & os2 & -> & Hrun & Hok & Ha2 & Ha1); try done.
  { unfold z. apply Forall_replicate. lia. }
  { unfold z. rewrite length_replicate. destruct Hgeo. unfold d in *. simpl in *. lia. }
  cbn [Z.ltb Z.compare]. rewrite Hrun.
  destruct Hok as (Hd1 & Hd2 & Hl1 & Hl2 & Hr1 & Hr2 & Hdiv). destruct (divided_hash _ _ _ _ _ _ Hdiv) as [Hhr Hcont].
  do 4 wp_step. rewrite u32_small by lia.
  pose proof (du_set n s s1 _ _ bh (sp_data1 sp) Hu ltac:(lia)) as Hu2. set (s2 := set_dir_block n bh _ s1) in *.
  clearbody s2. pose proof (du_set n s s2 _ _ nb (sp_data2 sp) Hu2 ltac:(lia)) as Hu3.
  set (s3 := set_dir_block n nb _ s2) in *. clearbody s3.
  eapply du_ext with (g := <[nb := sp_data2 sp]> (<[bh := sp_data1 sp]> (dir_block s n))) in Hu3.
  2:{ fn_cases. }
  destruct (csum_set_dirblock d Hpl Hgeo (sp_data1 sp) os1 Hd1) as (Hd1' & Hv1 & Hc1 & _).
  destruct (csum_set_dirblock d Hpl Hgeo (sp_data2 sp) os2 Hd2) as (Hd2' & Hv2 & Hc2 & _).
  assert (Hnew : bh <> nb /\ fr_bh f <> nb) by lia. destruct Hnew.
  set (g := <[nb := _]> _) in Hu3.
  assert (Hgf : g (fr_bh f) = dir_block s n (fr_bh f)) by (unfold g; by rewrite !fn_lookup_insert_ne by done).
  assert (Htop2 : on_top [dbh n bh; dbh n nb] h0 (dbh n nb :: h))
    by (eapply on_top_permutation; [apply Permutation_swap|]; by apply on_top_cons).
  destruct (Z.leb_spec (sp_hash2 sp) (h_hash hinfo)) as [Hle|Hlt].
  - apply (wp_publish f _ nb nb bh (sp_de2 sp) p s s3 (nb + 1) _ _ _ h0 Q Hu3);
      rewrite ?Hgf; try (done || lia).
    intros bx s' h' c' Hu4 Hix Hvx Hlim Hes Hhd Hh'. fold d in Hu4. apply HQ; [|done].
    exists (ext4_dirblock_csum_set d (sp_data1 sp)), (sp_data2 sp), bx, os1, os2, (sp_hash2 sp), (sp_continued sp).
    fold d leaf nb. rewrite Hv1. destruct (Z.leb_spec (sp_hash2 sp) (h_hash hinfo)); [|lia].
    split_and!; try done. eapply du_ext; [exact Hu4|]. unfold g. fn_cases.
  - apply (wp_publish f _ nb bh nb (sp_de sp) p s s3 (nb + 1) _ _ _ h0 Q Hu3);
      rewrite ?Hgf; try (done || lia).
    { eapply on_top_permutation; [apply Permutation_swap|done]. }
    intros bx s' h' c' Hu4 Hix Hvx Hlim Hes Hhd Hh'. fold d in Hu4. apply HQ; [|done].
    exists (sp_data1 sp), (ext4_dirblock_csum_set d (sp_data2 sp)), bx, os1, os2, (sp_hash2 sp), (sp_continued sp).
    fold d leaf nb. rewrite Hv2. destruct (Z.leb_spec (sp_hash2 sp) (h_hash hinfo)); [lia|].
    split_and!; try done. eapply du_ext; [exact Hu4|]. unfold g. fn_cases.
Qed.

(** C34: [do_split] of a well-formed leaf with at least two entries, under an index block
    with room, with a journal that accepts its calls: it never hits a BUG_ON.  When no
    block can be appended the error is returned, nothing has changed and the leaf is
    released.  Otherwise the directory has one block more; the leaf and the new block
    divide the entries at a hash, the index has exactly one entry more, for the new
    block with that hash and the continuation bit, right after the entry of the leaf;
    all other blocks, the rest of the inode and all other inodes are unchanged; the
    checksums of the index and of the half that is finished verify; only the buffer of
    the half that the hash of the new name belongs to is kept, and it has room for the
    name behind the record returned (unless it is the first half and the scan stopped
    at the first entry). *)
Theorem do_split_correct bh f hinfo p os h0 w :
  can_split (w_st w) bh f p os -> (forall nm, 0 <= (ext4fs_dirhash (h_version hinfo) nm).1) ->
  on_top [dbh n bh] h0 (w_held w) ->
  wp (do_split n bh f hinfo) (fun r w' =>
    match r with
    | inl err => err < 0 /\ w_st w' = w_st w /\ w_held w' = h0
    | inr (target, de) =>
        split_done (w_st w) bh f p os (h_version hinfo) (h_hash hinfo) (w_st w') target de /\
        on_top [dbh n target] h0 (w_held w')
    end) w.
Proof.
  destruct w as [s h c]. intros Hcs Hh Htop. by apply (wp_do_split bh f hinfo p os s h c h0).
Qed.
End DoSplit.
