(* ===== verification/DxKeep.v ===== *)
(** * The hash tree after the split of a leaf

    A split changes one leaf, one index block and the block it appends.  When no block is
    used twice in the tree, all other subtrees stay as they were: the list of the leaves
    gets exactly the new leaf, right after the one that was split, and the tree is
    well-formed again with the same entries. *)

From stdpp Require Import functions prelude list gmap strings sorting.
From Stdlib Require Import ZArith Lia.
From S2P Require Import Prelude Kernel Bytes Layout ExtentNode Fs Inode Dirent DxBlock DxBlockSpec DxSplit DxRoom Namei Dx DxLookup DxTree DxAdd.

Local Open Scope Z_scope.

(** ** Lists *)

Lemma bind_ext_in {A B} (f g : A -> list B) l : (forall x, x ∈ l -> f x = g x) -> l ≫= f = l ≫= g.
Proof.
  induction l as [|x l IH]; intros Hl; [done|]. cbn [mbind list_bind].
  rewrite Hl by (by left). f_equal. apply IH. intros y Hy. apply Hl. by right.
Qed.

Lemma bind_nodup_inv {A B} (g : A -> list B) l :
  NoDup (l ≫= g) ->
  (forall x, x ∈ l -> NoDup (g x)) /\
  (forall l1 x l2 y b, l = l1 ++ x :: l2 -> y ∈ l1 ++ l2 -> b ∈ g x -> b ∉ g y).
Proof.
  intros Hnd. split.
  - intros x (l1 & l2 & ->)%list_elem_of_split. rewrite bind_app in Hnd. apply NoDup_app in Hnd as (_ & _ & Hnd).
    cbn [mbind list_bind] in Hnd. by apply NoDup_app in Hnd as (? & _).
  - intros l1 x l2 y b -> Hy Hb Hby. rewrite bind_app in Hnd. cbn [mbind list_bind] in Hnd.
    apply NoDup_app in Hnd as (_ & Hd1 & Hnd). apply NoDup_app in Hnd as (_ & Hd2 & _).
    apply elem_of_app in Hy as [Hy|Hy].
    + apply (Hd1 b); [apply list_elem_of_bind; by exists y|]. apply elem_of_app. by left.
    + apply (Hd2 b Hb). apply list_elem_of_bind. by exists y.
Qed.

(** ** One more entry in an index *)

(** [b'] is the index [b] with the entry [(h, c)] after entry [p]. *)
Definition gets_entry (b b' : list Z) (e : Z) (p : nat) (h c : Z) : Prop :=
  let l := dx_entries b e in
  dx_get_limit b' e = dx_get_limit b e /\ (p < length l)%nat /\
  dx_entries b' e = take (S p) l ++ (h, c) :: drop (S p) l.

(** An entry as a leaf of the list of leaves. *)
Definition leaf_at (b : list Z) (e lo : Z) (i : nat) : Z * Z := (entry_low b e lo i, child b e i).

Lemma leaf_at_entry b e lo i :
  leaf_at b e lo i = (if Nat.eqb i 0 then lo else (dx_entry_at b e i).1, (dx_entry_at b e i).2).
Proof. unfold leaf_at, entry_low, child, dx_entry_at. by destruct i. Qed.

Lemma dx_entries_at b e i x : dx_entries b e !! i = Some x -> dx_entry_at b e i = x.
Proof. rewrite dx_entries_lookup. case_decide; [by intros [=]|done]. Qed.

Section GetsEntry.
Variables (b b' : list Z) (e : Z) (p : nat) (h c : Z).
Hypothesis Hins : gets_entry b b' e p h c.
Hypothesis Hcount : 1 <= dx_get_count b e.

Lemma gets_count :
  dx_get_count b' e = dx_get_count b e + 1 /\ Z.of_nat p < dx_get_count b e.
Proof.
  destruct Hins as (_ & Hp & Hes). apply (f_equal length) in Hes.
  rewrite length_app, length_take in Hes. cbn [length] in Hes. rewrite length_drop in Hes.
  unfold dx_entries in *. rewrite !length_fmap, !length_seq in *. lia.
Qed.

Lemma gets_entry_at i :
  Z.of_nat i < dx_get_count b e + 1 ->
  dx_entry_at b' e i =
    if decide (i <= p)%nat then dx_entry_at b e i
    else if decide (i = S p) then (h, c) else dx_entry_at b e (i - 1).
Proof.
  intros Hi. destruct gets_count as [Hc Hpc]. destruct Hins as (_ & Hp & Hes).
  apply dx_entries_at. rewrite Hes, list_insert_at_lookup by done.
  case_decide; [rewrite dx_entries_lookup, decide_True by lia; done|].
  case_decide; [done|]. rewrite dx_entries_lookup, decide_True by lia. done.
Qed.

Lemma gets_leaves lo :
  let cnt := Z.to_nat (dx_get_count b e) in
  (p < cnt)%nat /\
  leaf_at b e lo <$> seq 0 cnt =
    (leaf_at b e lo <$> seq 0 p) ++ leaf_at b e lo p :: (leaf_at b e lo <$> seq (S p) (cnt - S p)) /\
  leaf_at b' e lo <$> seq 0 (S cnt) =
    (leaf_at b e lo <$> seq 0 p) ++ leaf_at b e lo p :: (h, c) :: (leaf_at b e lo <$> seq (S p) (cnt - S p)).
Proof.
  intros cnt. destruct gets_count as [Hc Hpc]. assert (Hp : (p < cnt)%nat) by (unfold cnt; lia).
  split; [done|]. split.
  - replace cnt with (p + S (cnt - S p))%nat at 1 by lia. by rewrite seq_app, fmap_app.
  - replace (S cnt) with (p + S (S (cnt - S p)))%nat by lia. rewrite seq_app, fmap_app. simpl seq.
    rewrite !fmap_cons. f_equal; [|f_equal; [|f_equal]].
    + apply list_fmap_ext. intros i x Hx%lookup_seq. rewrite !leaf_at_entry, gets_entry_at, decide_True by lia. done.
    + rewrite !leaf_at_entry, gets_entry_at, decide_True by lia. done.
    + rewrite leaf_at_entry, gets_entry_at, decide_False, decide_True by lia. done.
    + rewrite <- (fmap_S_seq (S p)), <- list_fmap_compose. apply list_fmap_ext. intros i x Hx%lookup_seq. simpl.
      rewrite !leaf_at_entry, gets_entry_at, decide_False, decide_False by lia.
      destruct x as [|x]; [lia|]. done.
Qed.

Lemma gets_sorted :
  index_sorted b e (dx_get_count b e) ->
  (p <> O -> dx_get_hash b (dx_at e (Z.of_nat p)) <= h) ->
  (Z.of_nat (S p) < dx_get_count b e -> h <= dx_get_hash b (dx_at e (Z.of_nat (S p)))) ->
  index_sorted b' e (dx_get_count b' e).
Proof.
  intros Hs Hlo Hhi. destruct gets_count as [Hc Hpc]. rewrite Hc.
  assert (Hh : forall i, 0 < i < dx_get_count b e + 1 -> dx_get_hash b' (dx_at e i) =
            if decide (i <= Z.of_nat p) then dx_get_hash b (dx_at e i)
            else if decide (i = Z.of_nat (S p)) then h else dx_get_hash b (dx_at e (i - 1))).
  { intros i Hi. pose proof (gets_entry_at (Z.to_nat i) ltac:(lia)) as Hat.
    apply (f_equal fst) in Hat. unfold dx_entry_at in Hat at 1. simpl in Hat.
    destruct (Nat.eqb_spec (Z.to_nat i) 0); [lia|]. rewrite Z2Nat.id in Hat by lia. rewrite Hat.
    unfold dx_entry_at. repeat case_decide; try lia; cbn [fst]; [| |];
      repeat match goal with |- context [Nat.eqb ?x 0] => destruct (Nat.eqb_spec x 0); [lia|] end;
      first [done | do 2 f_equal; lia]. }
  intros i j Hi Hij Hj. rewrite !Hh by lia.
  repeat case_decide; subst; try lia.
  - apply Hs; lia.
  - transitivity (dx_get_hash b (dx_at e (Z.of_nat p))); [|apply Hlo; lia].
    destruct (decide (i = Z.of_nat p)) as [->|]; [done|apply Hs; lia].
  - destruct (decide (i = j - 1)) as [->|]; [done|apply Hs; lia].
  - transitivity (dx_get_hash b (dx_at e (Z.of_nat (S p)))); [apply Hhi; lia|].
    destruct (decide (j - 1 = Z.of_nat (S p))) as [->|]; [done|apply Hs; lia].
  - apply Hs; lia.
Qed.
End GetsEntry.

Section Keep.
Context `{Env} `{!EnvErrno} `{Csum} `{NameiEnv} `{DirNames}.
Variable n : Z.

(** The index blocks of the tree below [blk], which has [k] levels of index below it. *)
Fixpoint idx_blocks (s : fs) (k : nat) (blk entries : Z) : list Z :=
  blk ::
  match k with
  | O => []
  | S k => seq 0 (node_count n s blk entries) ≫= fun i =>
             idx_blocks s k (child (dir_block s n blk) entries i) node_entries
  end.

(** [s'] has the blocks [bs] of [s]. *)
Definition same_blocks (s s' : fs) (bs : list Z) : Prop :=
  forall b, b ∈ bs -> dir_block s' n b = dir_block s n b.

Lemma same_blocks_sub s s' bs bs' :
  (forall b, b ∈ bs' -> b ∈ bs) -> same_blocks s s' bs -> same_blocks s s' bs'.
Proof. intros Hsub Hs b Hb. auto. Qed.

Lemma idx_blocks_head s k blk e : blk ∈ idx_blocks s k blk e.
Proof. destruct k; by left. Qed.

Lemma idx_blocks_child s k blk e i :
  (i < node_count n s blk e)%nat ->
  forall b, b ∈ idx_blocks s k (child (dir_block s n blk) e i) node_entries -> b ∈ idx_blocks s (S k) blk e.
Proof.
  intros Hi b Hb. cbn [idx_blocks]. right. apply list_elem_of_bind. exists i. split; [done|].
  apply elem_of_seq. lia.
Qed.

Lemma node_count_same s s' blk e :
  dir_block s' n blk = dir_block s n blk -> node_count n s' blk e = node_count n s blk e.
Proof. intros E. unfold node_count. by rewrite E. Qed.

(** The leaves and the index depend only on the index blocks. *)
Lemma leaves_same s s' k : forall lo blk e ixs,
  same_blocks s s' (idx_blocks s k blk e) -> Forall (fun i => (i < node_count n s blk e)%nat) ixs ->
  node_leaves n s' k lo blk e ixs = node_leaves n s k lo blk e ixs.
Proof.
  induction k as [|k IH]; intros lo blk e ixs Hs Hix;
    pose proof (Hs blk (idx_blocks_head _ _ _ _)) as Eb; unfold node_leaves; rewrite Eb; [done|].
  induction Hix as [|i ixs Hi _ IHix]; [done|]. cbn [mbind list_bind]. f_equal; [|done].
  cbn [leaves_under].
  set (c := child (dir_block s n blk) e i). set (low := entry_low _ _ _ _).
  assert (Hsub : same_blocks s s' (idx_blocks s k c node_entries))
    by (eapply same_blocks_sub; [apply (idx_blocks_child s k blk e i Hi)|done]).
  pose proof (Hsub c (idx_blocks_head _ _ _ _)) as Ec. rewrite (node_count_same s s' c node_entries Ec).
  apply (IH low c node_entries (seq 0 (node_count n s c node_entries)) Hsub).
  apply Forall_seq. intros; lia.
Qed.

(** The directory may have got longer; its settings are the same. *)
Record grows (s s' : fs) : Prop := {
  gr_ctx : dctx s' n = dctx s n;
  gr_dx : is_dx s' n = is_dx s n;
  gr_bits : s_blocksize_bits s' = s_blocksize_bits s;
  gr_size : Z.shiftr (i_size (inode_of s n)) (s_blocksize_bits s) <=
            Z.shiftr (i_size (inode_of s' n)) (s_blocksize_bits s')
}.

Lemma readable_grows s s' blk t :
  grows s s' -> (t = INDEX -> dir_block s' n blk = dir_block s n blk) ->
  readable n s blk t -> readable n s' blk t.
Proof.
  intros [Ec Ed Eb Hsz] Hblk (Hr & Hlt & Hi). split_and!; [done|lia|].
  intros Ht. rewrite Ed, Ec, Hblk by done. auto.
Qed.

Lemma index_ok_same s s' k : forall above blk e,
  grows s s' -> same_blocks s s' (idx_blocks s k blk e) ->
  index_ok n s k above blk e -> index_ok n s' k above blk e.
Proof.
  induction k as [|k IH]; intros above blk e Hg Hs Hok;
    pose proof (Hs blk (idx_blocks_head _ _ _ _)) as Eb; destruct Hok as (Hc & Hsort & Hch);
    cbn [index_ok]; rewrite Eb; (split; [done|]; split; [done|]); intros i Hi;
    destruct (Hch i Hi) as (Hab & Hrest); (split; [done|]).
  - by eapply readable_grows.
  - destruct Hrest as (Hrd & Hlim & Hsub). set (c := dx_get_block _ _) in *.
    assert (Hsc : same_blocks s s' (idx_blocks s k c node_entries)).
    { eapply same_blocks_sub; [|exact Hs]. intros b. replace c with (child (dir_block s n blk) e (Z.to_nat i));
        [|unfold child, c; by rewrite Z2Nat.id by lia].
      apply idx_blocks_child. unfold node_count. lia. }
    pose proof (Hsc c (idx_blocks_head _ _ _ _)) as Ec. rewrite Ec, (gr_ctx _ _ Hg).
    split_and!; [by eapply readable_grows|done|by apply IH].
Qed.

(** *** The frames of a path *)

(** The index block of the last frame. *)
Definition last_frame (frames : list dx_frame) : dx_frame := frames !!! (length frames - 1)%nat.

Lemma last_frame_cons f g rest : last_frame (f :: g :: rest) = last_frame (g :: rest).
Proof. unfold last_frame. simpl. by rewrite Nat.sub_0_r. Qed.

Lemma linked_last_in s frames : forall k blk e,
  linked n s blk e frames -> length frames = S k -> fr_bh (last_frame frames) ∈ idx_blocks s k blk e.
Proof.
  induction frames as [|f frames IH]; intros k blk e Hl Hlen; [done|].
  destruct Hl as (Hbh & He & (p & Hat & Hp) & Hrest). injection Hlen as Hlen.
  destruct frames as [|g frames]; [simpl in Hlen; subst k; unfold last_frame; simpl; rewrite Hbh; by left|].
  destruct k as [|k]; [done|]. destruct Hrest as [?|Hrest]; [done|]. rewrite last_frame_cons.
  apply (idx_blocks_child s k blk e p Hp). replace (child (dir_block s n blk) e p) with (frame_block s n f).
  - by apply IH.
  - unfold frame_block, child. by rewrite Hbh, Hat.
Qed.

Lemma idx_blocks_same s s' k : forall blk e,
  same_blocks s s' (idx_blocks s k blk e) -> idx_blocks s' k blk e = idx_blocks s k blk e.
Proof.
  induction k as [|k IH]; intros blk e Hs; [done|]. pose proof (Hs blk (idx_blocks_head _ _ _ _)) as Eb.
  cbn [idx_blocks]. rewrite Eb, (node_count_same s s' blk e Eb). f_equal. apply bind_ext_in.
  intros i [_ Hi]%elem_of_seq. apply IH. eapply same_blocks_sub; [|exact Hs]. by apply idx_blocks_child.
Qed.

(** The subtrees beside the path are not touched. *)
Lemma beside_path s s' k blk e p x :
  NoDup (idx_blocks s (S k) blk e) -> (p < node_count n s blk e)%nat ->
  x ∈ idx_blocks s k (child (dir_block s n blk) e p) node_entries ->
  (forall b, b ∈ idx_blocks s (S k) blk e -> b <> x -> dir_block s' n b = dir_block s n b) ->
  blk <> x /\
  NoDup (idx_blocks s k (child (dir_block s n blk) e p) node_entries) /\
  forall i, (i < node_count n s blk e)%nat -> i <> p ->
    same_blocks s s' (idx_blocks s k (child (dir_block s n blk) e i) node_entries).
Proof.
  intros Hnd Hp Hx Hs. pose proof Hnd as Hnd'. cbn [idx_blocks] in Hnd. apply NoDup_cons in Hnd as [Hblk Hnd].
  destruct (bind_nodup_inv _ _ Hnd) as [Hsub Hdis]. set (cnt := node_count n s blk e) in *.
  assert (Hseq : forall i, (i < cnt)%nat -> i ∈ seq 0 cnt) by (intros; apply elem_of_seq; lia).
  split_and!.
  - intros ->. apply Hblk. apply list_elem_of_bind. exists p. auto.
  - by apply Hsub, Hseq.
  - intros i Hi Hne b Hb. apply Hs; [by eapply idx_blocks_child|]. intros ->.
    assert (Hsplit : seq 0 cnt = seq 0 p ++ p :: seq (S p) (cnt - S p)).
    { replace cnt with (p + S (cnt - S p))%nat at 1 by lia. by rewrite seq_app. }
    apply (Hdis _ _ _ i x Hsplit); [|done|done]. rewrite elem_of_app, !elem_of_seq. lia.
Qed.

(** ** An entry for a new leaf at the end of a path *)

Section Path.
Variables (s s' : fs) (x ex : Z) (p : nat) (h c : Z).
Hypothesis Hgr : grows s s'.
Hypothesis Hget : gets_entry (dir_block s n x) (dir_block s' n x) ex p h c.
Hypothesis Hhead : forall i, i < ex -> getb (dir_block s' n x) i = getb (dir_block s n x) i.
Hypothesis Hroom : dx_get_count (dir_block s n x) ex < dx_get_limit (dir_block s n x) ex.
Hypothesis Hread : readable n s' c DIRENT_HTREE.

Definition same_but_x (bs : list Z) : Prop := forall b, b ∈ bs -> b <> x -> dir_block s' n b = dir_block s n b.

(** Below [blk] the leaf [lf] is followed by the new leaf, and the index is still
    one, if the hash of the new leaf is in order. *)
Definition leaf_added (k : nat) (above : list Z) (blk e lo lf : Z) : Prop :=
  idx_blocks s' k blk e = idx_blocks s k blk e /\
  exists A B l,
    node_leaves n s k lo blk e (seq 0 (node_count n s blk e)) = A ++ (l, lf) :: B /\
    node_leaves n s' k lo blk e (seq 0 (node_count n s' blk e)) = A ++ (l, lf) :: (h, c) :: B /\
    (l <= h -> (forall hi b B', B = (hi, b) :: B' -> h <= hi) -> c ∉ above -> c ∉ idx_blocks s k blk e ->
     index_ok n s' k above blk e).

Lemma node_leaves_at s0 lo blk e ixs : node_leaves n s0 0 lo blk e ixs = leaf_at (dir_block s0 n blk) e lo <$> ixs.
Proof. unfold node_leaves. induction ixs as [|i ixs IH]; [done|]. cbn [mbind list_bind]. by rewrite IH. Qed.

Lemma leaf_added_here above lo :
  index_ok n s 0 above x ex -> leaf_added 0 above x ex lo (child (dir_block s n x) ex p).
Proof.
  intros (Hc & Hsort & Hch). destruct (gets_count _ _ _ _ _ _ Hget (proj1 Hc)) as [Hcnt Hpc].
  destruct (gets_leaves _ _ _ _ _ _ Hget (proj1 Hc) lo) as (Hp & HL & HL').
  unfold leaf_added. rewrite !node_leaves_at. unfold node_count. rewrite Hcnt.
  replace (Z.to_nat (dx_get_count (dir_block s n x) ex + 1)) with (S (Z.to_nat (dx_get_count (dir_block s n x) ex))) by lia.
  split; [done|]. eexists _, _, _. split; [exact HL|]. split; [exact HL'|]. clear HL HL'. intros Hlo Hhi Hca _.
  destruct Hget as (Hlim & Hpl & _). cbn [index_ok]. rewrite Hlim, Hcnt. split; [lia|]. split.
  - rewrite <- Hcnt. eapply (gets_sorted _ _ _ _ _ _ Hget (proj1 Hc)); [done| |].
    + intros Hp0. unfold entry_low in Hlo. by destruct p.
    + intros Hsp. eapply Hhi. replace (Z.to_nat (dx_get_count (dir_block s n x) ex) - S p)%nat
        with (S (Z.to_nat (dx_get_count (dir_block s n x) ex) - S (S p))) by lia. simpl. reflexivity.
  - intros i Hi. pose proof (gets_entry_at _ _ _ _ _ _ Hget (proj1 Hc) (Z.to_nat i) ltac:(lia)) as Hat.
    apply (f_equal snd) in Hat. cbn [dx_entry_at snd] in Hat. rewrite Z2Nat.id in Hat by lia. rewrite Hat.
    repeat case_decide; cbn [snd]; [|done|].
    + cbn [dx_entry_at snd]. rewrite Z2Nat.id by lia. destruct (Hch i ltac:(lia)) as [? Hr].
      split; [done|]. by eapply readable_grows.
    + destruct (Hch (Z.of_nat (Z.to_nat i - 1)) ltac:(lia)) as [? Hr]. split; [done|]. by eapply readable_grows.
Qed.

(** One level up: the new leaf is below entry [q]. *)
Lemma leaf_added_up k above blk e lo q lf :
  let cq := child (dir_block s n blk) e q in
  index_ok n s (S k) above blk e -> NoDup (idx_blocks s (S k) blk e) -> (q < node_count n s blk e)%nat ->
  x ∈ idx_blocks s k cq node_entries -> (x = cq -> ex = node_entries) ->
  same_but_x (idx_blocks s (S k) blk e) ->
  leaf_added k (cq :: above) cq node_entries (entry_low (dir_block s n blk) e lo q) lf ->
  leaf_added (S k) above blk e lo lf.
Proof.
  intros cq Hok Hnd Hq Hx Hex Hs (Hib & A & B & l & HL & HL' & Hidx).
  destruct (beside_path s s' k blk e q x Hnd Hq Hx Hs) as (Hne & _ & Hbes).
  pose proof (Hs blk (idx_blocks_head _ _ _ _) Hne) as Eb.
  assert (Hbeside : forall lo' ixs, Forall (fun i => (i < node_count n s blk e)%nat /\ i <> q) ixs ->
            node_leaves n s' (S k) lo' blk e ixs = node_leaves n s (S k) lo' blk e ixs).
  { intros lo' ixs Hix. unfold node_leaves. rewrite Eb. apply bind_ext_in. intros i Hi.
    rewrite Forall_forall in Hix. destruct (Hix i Hi) as [Hic Hiq]. pose proof (Hbes i Hic Hiq) as Hsi.
    set (ci := child _ _ i) in *. cbn [leaves_under].
    rewrite (node_count_same s s' ci node_entries (Hsi ci (idx_blocks_head _ _ _ _))).
    apply leaves_same; [done|]. apply Forall_seq. intros; lia. }
  split.
  { cbn [idx_blocks]. rewrite Eb, (node_count_same s s' blk e Eb). f_equal. apply bind_ext_in.
    intros i [_ Hi]%elem_of_seq. destruct (decide (i = q)) as [->|Hiq]; [done|]. by apply idx_blocks_same, Hbes. }
  exists (node_leaves n s (S k) lo blk e (seq 0 q) ++ A),
    (B ++ node_leaves n s (S k) 0 blk e (seq (S q) (node_count n s blk e - S q))), l.
  rewrite (node_count_same s s' blk e Eb).
  rewrite (node_leaves_split n s (S k) lo blk e q), (node_leaves_split n s' (S k) lo blk e q) by done.
  rewrite Eb, !Hbeside by (apply Forall_seq; intros; lia).
  change (leaves_under n ?s0 (S k) ?l0 (child (dir_block s n blk) e q)) with
    (node_leaves n s0 k l0 cq node_entries (seq 0 (node_count n s0 cq node_entries))).
  rewrite HL, HL', <- !app_assoc. split_and!; [done|done|].
  intros Hlo Hhi Hca Hci. destruct Hok as (Hc & Hsort & Hch). cbn [index_ok]. rewrite Eb.
  split; [done|]. split; [done|]. intros i Hi.
  destruct (Hch i Hi) as (Hab & Hrd & Hlim & Hsub). split; [done|].
  assert (Hcn : dx_get_block (dir_block s n blk) (dx_at e i) = child (dir_block s n blk) e (Z.to_nat i))
    by (unfold child; by rewrite Z2Nat.id by lia).
  rewrite Hcn in *. assert (Hil : (Z.to_nat i < node_count n s blk e)%nat) by (unfold node_count; lia).
  destruct (decide (Z.to_nat i = q)) as [Eq|Hiq].
  - rewrite Eq in *. fold cq in Hrd, Hlim, Hsub |- *.
    assert (Hin : forall b, b ∈ idx_blocks s k cq node_entries -> b ∈ idx_blocks s (S k) blk e)
      by (apply idx_blocks_child; done).
    assert (Hcq : dx_get_limit (dir_block s' n cq) node_entries = dx_get_limit (dir_block s n cq) node_entries /\
                  forall j, j < node_entries -> getb (dir_block s' n cq) j = getb (dir_block s n cq) j).
    { destruct (decide (cq = x)) as [Ex|Hnx].
      - rewrite <- (Hex (eq_sym Ex)), Ex. split; [apply Hget|done].
      - rewrite Hs by (try done; apply Hin, idx_blocks_head). done. }
    destruct Hcq as [Elim Ehd]. rewrite Elim, (gr_ctx _ _ Hgr). split_and!; [|done|].
    + destruct Hrd as (Hr & Hlt & Hi'). destruct (Hi' eq_refl) as [Hdx Hr0]. pose proof (gr_size _ _ Hgr).
      split_and!; [done|lia|]. intros _. rewrite (gr_dx _ _ Hgr), (gr_ctx _ _ Hgr). split; [done|].
      destruct Hr0 as [?|Hr0]; [by left|right]. rewrite <- Hr0. unfold rlen_at, de_rec_len. f_equal.
      apply le_get_ext. intros j Hj. apply Ehd. unfold node_entries. lia.
    + apply Hidx; [done| | |].
      * intros hi b B' ->. by eapply Hhi.
      * apply not_elem_of_cons. split; [|done]. intros ->. apply Hci, Hin, idx_blocks_head.
      * intros Hc'. by apply Hci, Hin.
  - pose proof (Hbes _ Hil Hiq) as Hsi. rewrite (Hsi _ (idx_blocks_head _ _ _ _)), (gr_ctx _ _ Hgr).
    split_and!; [|done|by eapply index_ok_same]. eapply readable_grows; [done| |done].
    intros _. apply Hsi, idx_blocks_head.
Qed.

(** The whole path. *)
Lemma leaf_added_path frames : forall k above blk e lo,
  linked n s blk e frames -> length frames = S k -> last_frame frames = Frame x ex (dx_at ex (Z.of_nat p)) ->
  index_ok n s k above blk e -> NoDup (idx_blocks s k blk e) -> same_but_x (idx_blocks s k blk e) ->
  leaf_added k above blk e lo (leaf_of n s frames).
Proof.
  induction frames as [|f frames IH]; intros k above blk e lo Hl Hlen Hlast Hok Hnd Hs; [done|].
  pose proof (linked_last_in s (f :: frames) k blk e Hl Hlen) as Hin. rewrite Hlast in Hin. cbn [fr_bh] in Hin.
  destruct Hl as (Hbh & He & (q & Hat & Hq) & Hrest). injection Hlen as Hlen.
  destruct frames as [|g frames].
  - simpl in Hlen. subst k. unfold last_frame in Hlast. simpl in Hlast. subst f. simpl in *. subst blk e.
    by apply leaf_added_here.
  - destruct k as [|k]; [done|]. destruct Hrest as [?|Hrest]; [done|].
    assert (Hfb : frame_block s n f = child (dir_block s n blk) e q)
      by (unfold frame_block, child; by rewrite Hbh, Hat).
    rewrite last_frame_cons in Hlast. rewrite leaf_of_cons, Hfb in *.
    pose proof (linked_last_in s (g :: frames) k _ _ Hrest Hlen) as Hx. rewrite Hlast in Hx. cbn [fr_bh] in Hx.
    destruct (beside_path s s' k blk e q x Hnd Hq Hx Hs) as (_ & Hnd' & _).
    assert (Hsub : same_but_x (idx_blocks s k (child (dir_block s n blk) e q) node_entries))
      by (intros b Hb; apply Hs; by eapply idx_blocks_child).
    destruct (index_ok_node n _ _ _ _ _ Hok) as (_ & _ & Hch).
    pose proof (Hch (Z.of_nat q) k ltac:(unfold node_count in Hq; lia) eq_refl) as Hokq.
    change (dx_get_block _ _) with (child (dir_block s n blk) e q) in Hokq.
    apply (leaf_added_up k above blk e lo q); try done; [|by apply IH].
    intros Ex. destruct Hrest as (Hgb & Hge & (q2 & Hat2 & Hq2) & [->|Hr2]).
    + unfold last_frame in Hlast. simpl in Hlast. by subst g.
    + destruct frames as [|g2 frames]; [done|]. destruct k as [|k]; [done|]. injection Hlen as Hlen.
      rewrite last_frame_cons in Hlast. pose proof (linked_last_in s (g2 :: frames) k _ _ Hr2 ltac:(simpl; lia)) as Hx2.
      rewrite Hlast in Hx2. cbn [fr_bh] in Hx2.
      destruct (beside_path s s' k (child (dir_block s n blk) e q) node_entries q2 x) as (Hne & _); try done.
      by replace (child (dir_block s n (child (dir_block s n blk) e q)) node_entries q2) with (frame_block s n g)
        by (unfold frame_block, child at 1; by rewrite Hgb, Hat2).
Qed.
End Path.

(** *** The blocks of a tree lie in the directory *)

Lemma child_nonneg b e i : 0 <= child b e i.
Proof. unfold child, dx_get_block. apply Z.land_nonneg. right. done. Qed.

Lemma idx_blocks_range s k : forall above blk e b,
  index_ok n s k above blk e -> b ∈ idx_blocks s k blk e ->
  b = blk \/ 0 <= b < Z.shiftr (i_size (inode_of s n)) (s_blocksize_bits s).
Proof.
  induction k as [|k IH]; intros above blk e b Hok Hb; cbn [idx_blocks] in Hb;
    apply elem_of_cons in Hb as [->|Hb]; auto; [by apply elem_of_nil in Hb|right].
  apply list_elem_of_bind in Hb as (i & Hb & Hi%elem_of_seq). destruct Hok as (_ & _ & Hch).
  destruct (Hch (Z.of_nat i)) as (_ & (_ & Hlt & _) & _ & Hsub); [unfold node_count in Hi; lia|].
  destruct (IH _ _ _ _ Hsub Hb) as [->|?]; [|done]. split; [apply child_nonneg|exact Hlt].
Qed.

Lemma leaves_range s k : forall above blk e lo ixs x,
  index_ok n s k above blk e -> Forall (fun i => (i < node_count n s blk e)%nat) ixs ->
  x ∈ node_leaves n s k lo blk e ixs -> 0 <= x.2 < Z.shiftr (i_size (inode_of s n)) (s_blocksize_bits s).
Proof.
  induction k as [|k IH]; intros above blk e lo ixs x Hok Hix Hx;
    apply list_elem_of_bind in Hx as (i & Hx & Hi); rewrite Forall_forall in Hix; specialize (Hix i Hi);
    destruct Hok as (_ & _ & Hch); destruct (Hch (Z.of_nat i)) as (_ & Hrest); try (unfold node_count in Hix; lia).
  - cbn [leaves_under] in Hx. apply list_elem_of_singleton in Hx as ->. cbn [snd].
    split; [apply child_nonneg|apply Hrest].
  - destruct Hrest as (_ & _ & Hsub). cbn [leaves_under] in Hx.
    change (dx_get_block _ _) with (child (dir_block s n blk) e i) in Hsub.
    eapply (IH _ _ _ _ (seq 0 (node_count n s (child (dir_block s n blk) e i) node_entries)) _ Hsub); [|exact Hx].
    apply Forall_seq. intros; lia.
Qed.
End Keep.

(** ** The tree after a split *)

(** A property of every leaf and the one that follows. *)
Lemma each_leaf {A} (L : list A) (P : A -> option A -> Prop) :
  (forall l1 x l2, L = l1 ++ x :: l2 -> P x (head l2)) <-> (forall i x, L !! i = Some x -> P x (L !! S i)).
Proof.
  split.
  - intros Hs i x Hi. pose proof (take_drop_middle _ _ _ Hi) as Hm. specialize (Hs _ _ _ (eq_sym Hm)).
    replace (L !! S i) with (head (drop (S i) L)); [done|].
    pose proof (lookup_drop L (S i) 0) as Hd. rewrite Nat.add_0_r in Hd. rewrite <- Hd. by destruct (drop _ _).
  - intros Hl l1 x l2 ->. specialize (Hl (length l1) x (list_lookup_middle _ _ _ _ eq_refl)).
    replace ((l1 ++ x :: l2) !! S (length l1)) with (head l2) in Hl; [done|].
    rewrite lookup_app_r by lia. replace (S (length l1) - length l1)%nat with 1%nat by lia. by destruct l2.
Qed.
