(* ===== verification/DxInsert.v ===== *)
(** * Adding to a hash tree

    The split of a leaf keeps a hash tree well-formed, with the same entries, and says
    where in the list of leaves the new name belongs. *)

From stdpp Require Import functions prelude list gmap strings sorting.
From Stdlib Require Import ZArith Lia.
From S2P Require Import Prelude Kernel Bytes Layout ExtentNode Fs Inode Dirent DxBlock DxBlockSpec DxSplit DxRoom Namei Dx DxLookup DxTree DxAdd DxKeep.

Local Open Scope Z_scope.

Section Insert.
Context `{Env} `{!EnvErrno} `{Csum} `{NameiEnv} `{!DirHashOk} `{DirNamesOk}.
Variable n : Z.

(** No block of the tree is used twice. *)
Definition tree_blocks (s : fs) : list Z :=
  idx_blocks n s (root_levels n s) 0 (root_entries_at n s) ++ (all_leaves n s).*2.

(** Where the entries of an index block begin. *)
Definition idx_entries (b : Z) : Z := if b =? 0 then root_entries else node_entries.

(** A directory that can be added to: the tree, its blocks used once, the index blocks
    with their checksum tails, and the sizes the directory code relies on. *)
Record tree_dir (s : fs) : Prop := {
  td_tree : htree_ok n s;
  td_blocks : NoDup (tree_blocks s);
  td_idx : forall b, b ∈ idx_blocks n s (root_levels n s) 0 (root_entries_at n s) ->
             index_block (dctx s n) (dir_block s n b) (idx_entries b);
  td_info : info_length (dir_block s n 0) = sizeof_dx_root_info;
  td_sized : sized n s;
  td_pow : s_blocksize (f_sbi s) = 2 ^ s_blocksize_bits s
}.

Definition tree_version (s : fs) : Z :=
  let version := info_hash_version (dir_block s n 0) in
  if version <=? DX_HASH_TEA then version + nm_hash_unsigned else version.

(** The leaf for hash [h]. *)
Definition placed (s : fs) (h blk : Z) : Prop :=
  exists i lo, all_leaves n s !! i = Some (lo, blk) /\ Z.land lo (2 ^ 32 - 2) <= h /\
    forall hi b, all_leaves n s !! S i = Some (hi, b) -> h < hi.

Lemma placed_in s h blk : placed s h blk -> exists lo, (lo, blk) ∈ all_leaves n s.
Proof. intros (i & lo & Hi & _). exists lo. by eapply list_elem_of_lookup_2. Qed.

(** A leaf of the list whose next one is [next]. *)
Definition leaf_ok (s : fs) (x : Z * Z) (next : option (Z * Z)) : Prop :=
  exists os, dirblock (dctx s n) (dir_block s n x.2) os /\
    forall e, e ∈ live (dir_block s n x.2) os ->
      Z.land x.1 (2 ^ 32 - 2) <= tree_hash n s (e_name e) /\
      forall hi b, next = Some (hi, b) -> tree_hash n s (e_name e) < hi.

Lemma htree_leaf s i x : htree_ok n s -> all_leaves n s !! i = Some x -> leaf_ok s x (all_leaves n s !! S i).
Proof.
  intros Ht. revert i x. apply (each_leaf (all_leaves n s) (leaf_ok s)). intros l1 [lo blk] l2 HL.
  destruct (ht_leaf n s Ht _ _ _ _ HL) as (os & Hd & He). exists os. split; [done|]. intros e Hin.
  destruct (He e Hin) as [Hlo Hhi]. split; [done|]. intros hi b Hn. destruct l2 as [|[hi' b'] l2]; [done|].
  simpl in Hn. injection Hn as -> ->. by eapply Hhi.
Qed.

Lemma leaves_of_lookup s :
  (forall i x, all_leaves n s !! i = Some x -> leaf_ok s x (all_leaves n s !! S i)) ->
  forall l1 lo blk l2, all_leaves n s = l1 ++ (lo, blk) :: l2 ->
    exists os, dirblock (dctx s n) (dir_block s n blk) os /\
      forall e, e ∈ live (dir_block s n blk) os ->
        Z.land lo (2 ^ 32 - 2) <= tree_hash n s (e_name e) /\
        forall hi blk' l3, l2 = (hi, blk') :: l3 -> tree_hash n s (e_name e) < hi.
Proof.
  intros Hl l1 lo blk l2 HL. destruct (proj2 (each_leaf (all_leaves n s) (leaf_ok s)) Hl _ _ _ HL) as (os & Hd & He).
  exists os. split; [done|]. intros e Hin. destruct (He e Hin) as [Hlo Hhi]. split; [done|].
  intros hi blk' l3 ->. by eapply Hhi.
Qed.

(** *** Where the blocks of the tree are *)

Section Facts.
Variable s : fs.
Hypothesis Htd : tree_dir s.
Abbreviation nb := (Z.of_nat (length (i_dir (inode_of s n)))).

Lemma td_index : index_ok n s (root_levels n s) [0] 0 (root_entries_at n s).
Proof. apply (ht_root n s (td_tree _ Htd) (Filename [] [] None 0 0) (HInfo 0 0 0)). Qed.

Lemma td_entries : root_entries_at n s = root_entries.
Proof. unfold root_entries_at. by rewrite (td_info _ Htd). Qed.

Lemma td_idx_range b : b ∈ idx_blocks n s (root_levels n s) 0 (root_entries_at n s) -> 0 <= b < nb.
Proof.
  intros Hb. pose proof (td_sized _ Htd) as Hs. unfold sized in Hs. rewrite <- Hs.
  destruct (idx_blocks_range n s _ _ _ _ _ td_index Hb) as [->|?]; [|done].
  destruct (ht_root n s (td_tree _ Htd) (Filename [] [] None 0 0) (HInfo 0 0 0)) as ((_ & ? & _) & _). done.
Qed.

Lemma td_leaf_range x : x ∈ all_leaves n s -> 0 <= x.2 < nb.
Proof.
  intros Hx. pose proof (td_sized _ Htd) as Hs. unfold sized in Hs. rewrite <- Hs.
  eapply leaves_range; [exact td_index| |exact Hx]. apply Forall_seq. intros; lia.
Qed.

Lemma td_disjoint b x : b ∈ idx_blocks n s (root_levels n s) 0 (root_entries_at n s) -> x ∈ all_leaves n s -> b <> x.2.
Proof.
  intros Hb Hx ->. pose proof (td_blocks _ Htd) as Hnd. apply NoDup_app in Hnd as (_ & Hdis & _).
  apply (Hdis _ Hb). apply list_elem_of_fmap. by exists x.
Qed.
End Facts.

(** *** States with the same root *)

(** The root keeps what stands before its entries. *)
Definition same_root (s s' : fs) : Prop :=
  (forall i, i < root_entries -> getb (dir_block s' n 0) i = getb (dir_block s n 0) i) /\
  dx_get_limit (dir_block s' n 0) root_entries = dx_get_limit (dir_block s n 0) root_entries.

Lemma same_root_info s s' :
  same_root s s' ->
  info_length (dir_block s' n 0) = info_length (dir_block s n 0) /\
  root_entries_at n s' = root_entries_at n s /\ root_levels n s' = root_levels n s /\
  tree_version s' = tree_version s /\ (forall nm, tree_hash n s' nm = tree_hash n s nm).
Proof.
  intros [Hr _]. unfold root_entries_at, root_levels, tree_version, tree_hash, info_length, info_indirect_levels,
    info_hash_version, root_entries in *. rewrite !Hr by lia. done.
Qed.

Lemma root_ok_same s s' fname hinfo :
  tree_dir s -> grows n s s' -> f_es s' = f_es s -> same_root s s' ->
  index_ok n s' (root_levels n s') [0] 0 (root_entries_at n s') -> root_ok n s' (Some fname) hinfo.
Proof.
  intros Htd Hg Hes Hr Hok. pose proof (same_root_info s s' Hr) as (Hlen & He & Hlev & _).
  destruct (ht_root n s (td_tree _ Htd) fname hinfo) as (Hread & Hver & Hph & Hfl & Hind & Hlim & _).
  pose proof (td_entries s Htd) as E32. unfold root_entries_at in E32, He. destruct Hr as [Hr Hl].
  unfold root_ok. unfold info_hash_version, info_unused_flags, info_indirect_levels in *.
  rewrite !(Hr 28), !(Hr 31), !(Hr 30), (gr_ctx _ _ _ Hg), Hes, Hlen by (unfold root_entries; lia).
  split_and!; try done.
  - destruct Hread as (Hrd & Hlt & Hi). pose proof (gr_size _ _ _ Hg). split_and!; [done|lia|].
    intros _. rewrite (gr_dx _ _ _ Hg). split; [by apply Hi|by left].
  - destruct Hph as [hi Hph]. exists hi. rewrite <- Hph. unfold probe_hash, info_hash_version.
    by rewrite (gr_ctx _ _ _ Hg), (Hr 28) by (unfold root_entries; lia).
  - rewrite E32 in *. by rewrite Hl.
  - unfold root_levels, info_indirect_levels in Hok. rewrite (Hr 30) in Hok by (unfold root_entries; lia).
    unfold root_entries_at in Hok. by rewrite Hlen in Hok.
Qed.

(** *** The last frame of a path *)

Section Frames.
Variables (s : fs) (frames : list dx_frame).
Hypothesis Htd : tree_dir s.
Hypothesis Hlinked : linked n s 0 (root_entries_at n s) frames.
Hypothesis Hlen : length frames = S (root_levels n s).
Abbreviation f := (last_frame frames).

Lemma frame_in_tree : fr_bh f ∈ idx_blocks n s (root_levels n s) 0 (root_entries_at n s).
Proof. by apply linked_last_in. Qed.

Lemma root_frame : fr_bh f = 0 -> fr_entries f = root_entries_at n s.
Proof.
  intros Hz. destruct frames as [|g [|g2 rest]]; [done|by destruct Hlinked as (_ & ? & _)|].
  destruct Hlinked as (Hb & He & (q & Hq & Hqc) & [?|Hr]); [done|].
  pose proof (td_blocks _ Htd) as Hnd. apply NoDup_app in Hnd as (Hnd & _).
  destruct (root_levels n s) as [|k] eqn:Ek; [done|]. injection Hlen as Hl.
  rewrite last_frame_cons in Hz. pose proof (linked_last_in n s (g2 :: rest) k _ _ Hr ltac:(simpl; lia)) as Hin.
  rewrite Hz in Hin. destruct (beside_path n s s k 0 (root_entries_at n s) q 0 Hnd Hqc) as (Hne & _); try done.
  by replace (child (dir_block s n 0) (root_entries_at n s) q) with (frame_block s n g)
    by (unfold frame_block, child; by rewrite Hb, Hq).
Qed.

Lemma linked_last_entries g rest : forall blk e,
  linked n s blk e (g :: rest) ->
  fr_entries (last_frame (g :: rest)) = e \/ fr_entries (last_frame (g :: rest)) = node_entries /\ rest <> [].
Proof.
  revert g. induction rest as [|g2 rest IH]; intros g blk e (Hb & He & _ & Hr); [by left|right].
  rewrite last_frame_cons. destruct Hr as [?|Hr]; [done|]. by destruct (IH _ _ _ Hr) as [->|[-> _]].
Qed.

Lemma frame_entries : fr_entries f = idx_entries (fr_bh f).
Proof.
  unfold idx_entries. destruct (Z.eqb_spec (fr_bh f) 0) as [E|Hn0]; [by rewrite (root_frame E), (td_entries _ Htd)|].
  destruct frames as [|g rest]; [done|]. destruct rest as [|g2 rest]; [by destruct Hlinked as (? & _)|].
  destruct Hlinked as (_ & _ & _ & [?|Hr]); [done|]. rewrite last_frame_cons.
  by destruct (linked_last_entries g2 rest _ _ Hr) as [->|[-> _]].
Qed.
End Frames.

(** *** The split *)

Section Split.
Variables (s s' : fs) (frames : list dx_frame) (p : nat) (os : list Z) (h target de : Z).
Hypothesis Htd : tree_dir s.
Hypothesis Hlinked : linked n s 0 (root_entries_at n s) frames.
Hypothesis Hlen : length frames = S (root_levels n s).
Abbreviation f := (last_frame frames).
Abbreviation bh := (leaf_of n s frames).
Abbreviation nb := (Z.of_nat (length (i_dir (inode_of s n)))).
Hypothesis Hat : fr_at f = dx_at (fr_entries f) (Z.of_nat p).
Hypothesis Hplaced : placed s h bh.
Hypothesis Hcan : can_split n s bh f p os.
Hypothesis Hdone : split_done n s bh f p os (tree_version s) h s' target de.

Lemma split_grows len g : dir_update n s s' len g -> nb <= len -> grows n s s' /\ (len = nb + 1 -> sized n s').
Proof.
  intros Hu Hlen'. pose proof (td_pow _ Htd) as Hpow. pose proof (td_sized _ Htd) as Hsz.
  destruct Hu as [Hl Hblk Hi Hsbi Hes Ho]. unfold sized in *. unfold s_blocksize_bits in *. rewrite Hsbi.
  assert (Ei : i_size (inode_of s' n) = i_size (inode_of s n) + (len - nb) * s_blocksize (f_sbi s))
    by (rewrite Hi; done).
  assert (Esh : Z.shiftr (i_size (inode_of s' n)) (Z.log2 (s_blocksize (f_sbi s))) = len).
  { pose proof (Z.log2_nonneg (s_blocksize (f_sbi s))). rewrite Ei, Z.shiftr_div_pow2 in * by done.
    rewrite <- Hpow in *. rewrite Z.div_add by (rewrite Hpow; apply Z.pow_nonzero; lia). lia. }
  split; [|intros _; lia]. split.
  - unfold dctx. by rewrite Hi, Hsbi, Hes.
  - unfold is_dx. by rewrite Hi, Hes.
  - unfold s_blocksize_bits. by rewrite Hsbi.
  - unfold s_blocksize_bits. rewrite Hsbi, Esh. lia.
Qed.

(** What the split left: the halves [b1] and [b2], and the leaves around them. *)
Record after_split (b1 b2 os1 os2 : list Z) (hash2 continued : Z) (A B : list (Z * Z)) (l : Z) : Prop := {
  as_grows : grows n s s';
  as_sized : sized n s';
  as_len : Z.of_nat (length (i_dir (inode_of s' n))) = nb + 1;
  as_es : f_es s' = f_es s;
  as_sbi : f_sbi s' = f_sbi s;
  as_same : forall b, 0 <= b < nb -> b <> fr_bh f -> b <> bh -> dir_block s' n b = dir_block s n b;
  as_index : index_block (dctx s n) (dir_block s' n (fr_bh f)) (fr_entries f);
  as_b1 : dir_block s' n bh = b1;
  as_b2 : dir_block s' n nb = b2;
  as_d1 : dirblock (dctx s n) b1 os1;
  as_d2 : dirblock (dctx s n) b2 os2;
  as_div : divided (ext4fs_dirhash (tree_version s)) (live (dir_block s n bh) os) (live b1 os1) (live b2 os2) hash2 continued;
  as_root : same_root s s';
  as_leaves : all_leaves n s = A ++ (l, bh) :: B;
  as_leaves' : all_leaves n s' = A ++ (l, bh) :: (hash2 + continued, nb) :: B;
  as_idx : idx_blocks n s' (root_levels n s') 0 (root_entries_at n s') =
           idx_blocks n s (root_levels n s) 0 (root_entries_at n s);
  as_ok : l <= hash2 + continued -> (forall hi b B', B = (hi, b) :: B' -> hash2 + continued <= hi) ->
          index_ok n s' (root_levels n s') [0] 0 (root_entries_at n s');
  as_target : if hash2 <=? h then target = nb else target = bh
}.

Lemma split_shape : exists b1 b2 os1 os2 hash2 continued A B l, after_split b1 b2 os1 os2 hash2 continued A B l.
Proof.
  destruct Hdone as (b1 & b2 & bx & os1 & os2 & hash2 & cont & Hu & Hd1 & Hd2 & Hdiv & Hix & _ & Hlim & Hes & Hhd & Htgt).
  destruct Hcan as [_ _ _ Hbr Hxr Hne _ _ _ _ _ Hp Hroom]. destruct (placed_in _ _ _ Hplaced) as [lo0 Hleaf].
  destruct (split_grows _ _ Hu ltac:(lia)) as [Hg Hsz]. specialize (Hsz eq_refl).
  pose proof (td_index _ Htd) as Hidx. pose proof (td_blocks _ Htd) as Hnd. apply NoDup_app in Hnd as (Hnd & _).
  assert (Hx : dir_block s' n (fr_bh f) = bx) by (rewrite (du_blk _ _ _ _ _ Hu), fn_lookup_insert by lia; done).
  assert (Hb1 : dir_block s' n bh = b1)
    by (rewrite (du_blk _ _ _ _ _ Hu), fn_lookup_insert_ne, fn_lookup_insert_ne, fn_lookup_insert by lia; done).
  assert (Hb2 : dir_block s' n nb = b2)
    by (rewrite (du_blk _ _ _ _ _ Hu), fn_lookup_insert_ne, fn_lookup_insert by lia; done).
  assert (Hsame : forall b, 0 <= b < nb -> b <> fr_bh f -> b <> bh -> dir_block s' n b = dir_block s n b)
    by (intros; rewrite (du_blk _ _ _ _ _ Hu), !fn_lookup_insert_ne by lia; done).
  assert (Hsb : same_but_x n s s' (fr_bh f) (idx_blocks n s (root_levels n s) 0 (root_entries_at n s))).
  { intros b Hb Hbx. apply Hsame; [by apply td_idx_range|done|]. by apply (td_disjoint _ Htd b _ Hb Hleaf). }
  assert (Hroot : same_root s s').
  { destruct (decide (fr_bh f = 0)) as [E|Hn0].
    - pose proof (root_frame s frames Htd Hlinked Hlen E) as Ee. rewrite (td_entries _ Htd) in Ee.
      unfold same_root. rewrite <- E, <- Ee, Hx. done.
    - pose proof (Hsb 0 (idx_blocks_head _ _ _ _ _) ltac:(done)) as E0. unfold same_root. by rewrite E0. }
  pose proof (same_root_info s s' Hroot) as (_ & Hre & Hrl & _).
  assert (Hget : gets_entry (dir_block s n (fr_bh f)) (dir_block s' n (fr_bh f)) (fr_entries f) p (hash2 + cont) nb)
    by (rewrite Hx; done).
  assert (Hread : readable n s' nb DIRENT_HTREE).
  { destruct (ht_root n s (td_tree _ Htd) (Filename [] [] None 0 0) (HInfo 0 0 0)) as ((Hr & _) & _).
    split_and!; [done| |done]. unfold sized in Hsz. rewrite Hsz, (du_len _ _ _ _ _ Hu). lia. }
  destruct (leaf_added_path n s s' (fr_bh f) (fr_entries f) p (hash2 + cont) nb Hg Hget
    ltac:(by rewrite Hx) Hroom Hread frames (root_levels n s) [0] 0 (root_entries_at n s) 0)
    as (Hib & A & B & l & HL & HL' & Hok); try done.
  { rewrite <- Hat. by destruct f. }
  exists b1, b2, os1, os2, hash2, cont, A, B, l. unfold all_leaves.
  split; rewrite ?Hre, ?Hrl; try done.
  - by rewrite (du_len _ _ _ _ _ Hu).
  - apply (du_es _ _ _ _ _ Hu).
  - apply (du_sbi _ _ _ _ _ Hu).
  - by rewrite Hx.
  - unfold all_leaves. by rewrite Hre, Hrl.
  - intros Hlo Hhi. apply Hok; [done|done| |].
    + apply not_elem_of_cons. split; [lia|apply not_elem_of_nil].
    + intros Hin. pose proof (td_idx_range _ Htd _ Hin). lia.
  - destruct (hash2 <=? h); apply Htgt.
Qed.

(** *** The order of the leaves after the split *)

Section After.
Variables (b1 b2 os1 os2 : list Z) (hash2 continued : Z) (A B : list (Z * Z)) (l : Z).
Hypothesis Has : after_split b1 b2 os1 os2 hash2 continued A B l.
Abbreviation th := (tree_hash n s).

(** The bounds of the leaf that was split. *)
Lemma old_leaf e :
  e ∈ live (dir_block s n bh) os ->
  Z.land l (2 ^ 32 - 2) <= th (e_name e) /\ forall hi b B', B = (hi, b) :: B' -> th (e_name e) < hi.
Proof.
  intros He. destruct (ht_leaf n s (td_tree _ Htd) A l bh B (as_leaves _ _ _ _ _ _ _ _ _ Has)) as (os' & Hd & Hall).
  apply Hall. pose proof (cs_leaf _ _ _ _ _ _ Hcan) as (_ & _ & Hc & _). destruct Hd as (_ & _ & Hc' & _).
  by rewrite (chain_unique _ _ _ _ _ Hc _ Hc').
Qed.

Lemma half_entries e : e ∈ live b1 os1 ++ live b2 os2 <-> e ∈ live (dir_block s n bh) os.
Proof. destruct (as_div _ _ _ _ _ _ _ _ _ Has) as (Hp & _). by rewrite Hp. Qed.

Lemma first_half_below e : e ∈ live b1 os1 -> th (e_name e) < hash2 + continued.
Proof.
  intros He. destruct (as_div _ _ _ _ _ _ _ _ _ Has) as (_ & _ & _ & Hle & _ & Hc). rewrite Forall_forall in Hle.
  specialize (Hle e He). change (name_hash _ (e_name e)) with (th (e_name e)) in Hle.
  destruct Hc as [[-> _]|[-> Hlt]]; [lia|]. rewrite Forall_forall in Hlt. specialize (Hlt e He).
  change (name_hash _ (e_name e)) with (th (e_name e)) in Hlt. lia.
Qed.

Lemma new_low : Z.land (hash2 + continued) (2 ^ 32 - 2) <= hash2.
Proof.
  pose proof (as_div _ _ _ _ _ _ _ _ _ Has) as Hdiv. destruct (divided_hash _ _ _ _ _ _ Hdiv) as [Hr Hc01].
  destruct Hdiv as (_ & _ & _ & _ & _ & Hc). pose proof (low_bit (hash2 + continued) Hr).
  destruct Hc as [[-> Hex]|[-> _]]; [|lia]. apply Exists_exists in Hex as (e1 & _ & He1).
  pose proof (dirhash_even (tree_version s) (e_name e1)) as Hev. unfold name_hash in He1. rewrite He1 in Hev.
  change 1 with (Z.ones 1) in Hev. rewrite Z.land_ones in Hev by lia. rewrite clear_low_bit in * by done.
  pose proof (Z.div_mod (hash2 + 1) 2). pose proof (Z.mod_pos_bound (hash2 + 1) 2).
  change (2 ^ 1) with 2 in Hev. pose proof (Z.div_mod hash2 2). lia.
Qed.

Lemma second_half_above e : e ∈ live b2 os2 -> Z.land (hash2 + continued) (2 ^ 32 - 2) <= th (e_name e).
Proof.
  intros He. destruct (as_div _ _ _ _ _ _ _ _ _ Has) as (_ & _ & _ & _ & Hge & _). rewrite Forall_forall in Hge.
  specialize (Hge e He). change (name_hash _ (e_name e)) with (th (e_name e)) in Hge. pose proof new_low. lia.
Qed.

Lemma new_hash_order :
  l <= hash2 + continued /\ (forall hi b B', B = (hi, b) :: B' -> hash2 + continued <= hi).
Proof.
  pose proof (as_div _ _ _ _ _ _ _ _ _ Has) as Hdiv. destruct (divided_hash _ _ _ _ _ _ Hdiv) as [_ Hc01].
  pose proof Hdiv as (_ & Hn1 & Hn2 & _ & Hge & _).
  assert (Hl : 0 <= l < 2 ^ 32).
  { apply (low_range n s (td_tree _ Htd) l bh). rewrite (as_leaves _ _ _ _ _ _ _ _ _ Has), elem_of_app.
    right. by left. }
  split.
  - destruct (live b1 os1) as [|e1 l1] eqn:E1; [done|].
    destruct (old_leaf e1) as [Hlo _]; [apply half_entries; rewrite E1; by left|].
    pose proof (first_half_below e1 ltac:(rewrite E1; by left)). pose proof (low_bit l Hl). lia.
  - intros hi b B' HB. destruct (live b2 os2) as [|e2 l2] eqn:E2; [done|].
    destruct (old_leaf e2) as [_ Hhi]; [apply half_entries; rewrite E2, elem_of_app; right; by left|].
    specialize (Hhi _ _ _ HB). apply Forall_cons in Hge as [Hge _].
    change (name_hash _ (e_name e2)) with (th (e_name e2)) in Hge. lia.
Qed.

Lemma new_sorted : StronglySorted low_le (all_leaves n s').
Proof.
  destruct new_hash_order as [Hlo Hhi]. rewrite (as_leaves' _ _ _ _ _ _ _ _ _ Has).
  pose proof (ht_sorted n s (td_tree _ Htd)) as Hs. rewrite (as_leaves _ _ _ _ _ _ _ _ _ Has) in Hs.
  apply StronglySorted_app in Hs as (HA & HsA & Hs). apply StronglySorted_cons in Hs as [HlB HsB].
  assert (HnB : Forall (fun y => hash2 + continued <= y.1) B).
  { destruct B as [|[hi b] B']; [constructor|]. apply StronglySorted_cons in HsB as [HhB _].
    specialize (Hhi hi b B' eq_refl). constructor; [done|]. eapply Forall_impl; [exact HhB|]. simpl. intros; lia. }
  apply StronglySorted_app. split_and!; [|done|].
  - intros x y Hx Hy. pose proof (HA x (l, bh) Hx ltac:(by left)) as Hxl. simpl in Hxl.
    apply elem_of_cons in Hy as [->|Hy]; [done|]. apply elem_of_cons in Hy as [->|Hy]; [simpl; lia|].
    apply HA; [done|by right].
  - apply StronglySorted_cons. split; [constructor; [done|done]|]. by apply StronglySorted_cons.
Qed.

(** A leaf other than the one that was split. *)
Lemma other_leaf i x :
  all_leaves n s !! i = Some x -> i <> length A -> x.2 <> bh /\ dir_block s' n x.2 = dir_block s n x.2.
Proof.
  intros Hi Hne. pose proof (td_blocks _ Htd) as Hnd. apply NoDup_app in Hnd as (_ & _ & Hnd).
  assert (Hin : x ∈ all_leaves n s) by (by eapply list_elem_of_lookup_2).
  assert (Hxb : x.2 <> bh).
  { intros Hx. apply Hne. eapply (NoDup_lookup _ _ _ bh Hnd); rewrite list_lookup_fmap.
    - by rewrite Hi, <- Hx.
    - rewrite (as_leaves _ _ _ _ _ _ _ _ _ Has), list_lookup_middle by done. done. }
  split; [done|]. apply (as_same _ _ _ _ _ _ _ _ _ Has); [by apply td_leaf_range| |done].
  intros E. by apply (td_disjoint _ Htd _ _ (frame_in_tree s frames Hlinked Hlen) Hin).
Qed.

Lemma split_list :
  all_leaves n s' = take (S (length A)) (all_leaves n s) ++ (hash2 + continued, nb) :: drop (S (length A)) (all_leaves n s) /\
  (length A < length (all_leaves n s))%nat /\ all_leaves n s !! length A = Some (l, bh).
Proof.
  rewrite (as_leaves' _ _ _ _ _ _ _ _ _ Has), (as_leaves _ _ _ _ _ _ _ _ _ Has).
  rewrite take_app_ge, drop_app_ge, length_app by lia. cbn [length].
  replace (S (length A) - length A)%nat with 1%nat by lia. cbn [take drop].
  rewrite <- app_assoc. split_and!; [done|lia|by rewrite list_lookup_middle].
Qed.

Lemma new_leaf_ok i x : all_leaves n s' !! i = Some x -> leaf_ok s' x (all_leaves n s' !! S i).
Proof.
  pose proof (same_root_info s s' (as_root _ _ _ _ _ _ _ _ _ Has)) as (_ & _ & _ & _ & Hth).
  pose proof (gr_ctx _ _ _ (as_grows _ _ _ _ _ _ _ _ _ Has)) as Ec.
  destruct split_list as (-> & Hlt & Hbh). rewrite !list_insert_at_lookup by done.
  assert (Hold : forall j y next, all_leaves n s !! j = Some y -> j <> length A -> next = all_leaves n s !! S j ->
            leaf_ok s' y next).
  { intros j y next Hj Hne ->. destruct (other_leaf j y Hj Hne) as [_ Eb].
    destruct (htree_leaf s j y (td_tree _ Htd) Hj) as (os0 & Hd & He). exists os0. rewrite Ec, Eb. split; [done|].
    intros e Hin. rewrite Hth. by apply He. }
  destruct (decide (i <= length A)%nat) as [Hi|Hi].
  - destruct (decide (i = length A)) as [->|Hne].
    + rewrite Hbh. intros [= <-]. rewrite decide_False, decide_True by lia.
      exists os1. simpl. rewrite Ec, (as_b1 _ _ _ _ _ _ _ _ _ Has). split; [apply (as_d1 _ _ _ _ _ _ _ _ _ Has)|].
      intros e He. rewrite Hth. split; [apply old_leaf, half_entries, elem_of_app; by left|].
      intros hi b [= <- <-]. by apply first_half_below.
    + rewrite decide_True by lia. intros Hi'. by apply (Hold i).
  - destruct (decide (i = S (length A))) as [->|Hne].
    + intros [= <-]. rewrite !decide_False by lia. rewrite Nat.sub_1_r. cbn [Nat.pred].
      exists os2. simpl. rewrite Ec, (as_b2 _ _ _ _ _ _ _ _ _ Has). split; [apply (as_d2 _ _ _ _ _ _ _ _ _ Has)|].
      intros e He. rewrite Hth. split; [by apply second_half_above|]. intros hi b Hn.
      rewrite (as_leaves _ _ _ _ _ _ _ _ _ Has), lookup_app_r in Hn by lia.
      replace (S (length A) - length A)%nat with 1%nat in Hn by lia.
      assert (HB : exists B', B = (hi, b) :: B') by (clear -Hn; destruct B; [done|injection Hn as ->; eauto]).
      destruct HB as [B' HB]. eapply old_leaf; [apply half_entries, elem_of_app; by right|done].
    + rewrite !decide_False by lia. intros Hi'. apply (Hold (i - 1)%nat); [done|lia|f_equal; lia].
Qed.

Lemma new_placed : placed s' h target.
Proof.
  destruct split_list as (HL & Hlt & Hbh). destruct Hplaced as (i & lo & Hi & Hlo & Hhi).
  assert (i = length A) as ->.
  { destruct (decide (i = length A)) as [|Hne]; [done|]. by destruct (other_leaf i _ Hi Hne). }
  rewrite Hbh in Hi. injection Hi as <-. pose proof (as_target _ _ _ _ _ _ _ _ _ Has) as Ht.
  assert (H0' : all_leaves n s' !! length A = Some (l, bh))
    by (rewrite HL, list_insert_at_lookup, decide_True by (done || lia); done).
  assert (H1' : all_leaves n s' !! S (length A) = Some (hash2 + continued, nb))
    by (rewrite HL, list_insert_at_lookup, decide_False, decide_True by (done || lia); done).
  assert (H2' : all_leaves n s' !! S (S (length A)) = all_leaves n s !! S (length A)).
  { rewrite HL, list_insert_at_lookup, decide_False, decide_False by (done || lia). f_equal. }
  destruct (Z.leb_spec hash2 h) as [Hle|Hgt]; rewrite Ht.
  - exists (S (length A)), (hash2 + continued). rewrite H2'.
    split_and!; [done|pose proof new_low; lia|done].
  - exists (length A), l. rewrite H1'. split_and!; [done|done|]. intros hi b [= <- <-].
    destruct (divided_hash _ _ _ _ _ _ (as_div _ _ _ _ _ _ _ _ _ Has)). lia.
Qed.

Lemma new_bytes : dir_bytes s' n.
Proof.
  apply Forall_lookup. intros k b Hk. pose proof (lookup_lt_Some _ _ _ Hk) as Hlt.
  pose proof (as_len _ _ _ _ _ _ _ _ _ Has) as Hl.
  assert (Hb : dir_block s' n (Z.of_nat k) = b) by (unfold dir_block; by rewrite Nat2Z.id, nth_lookup, Hk).
  rewrite <- Hb. destruct (decide (Z.of_nat k = fr_bh f)) as [->|].
  { apply (ib_fits _ _ _ (as_index _ _ _ _ _ _ _ _ _ Has)). }
  destruct (decide (Z.of_nat k = bh)) as [->|].
  { rewrite (as_b1 _ _ _ _ _ _ _ _ _ Has). apply (as_d1 _ _ _ _ _ _ _ _ _ Has). }
  destruct (decide (Z.of_nat k = nb)) as [->|].
  { rewrite (as_b2 _ _ _ _ _ _ _ _ _ Has). apply (as_d2 _ _ _ _ _ _ _ _ _ Has). }
  rewrite (as_same _ _ _ _ _ _ _ _ _ Has) by lia. apply dir_block_bytes, (ht_bytes n s (td_tree _ Htd)).
Qed.

Lemma new_blocks : NoDup (tree_blocks s').
Proof.
  pose proof (td_blocks _ Htd) as Hnd. unfold tree_blocks in *. rewrite (as_idx _ _ _ _ _ _ _ _ _ Has).
  set (I := idx_blocks n s _ _ _) in *.
  assert (Hp : I ++ (all_leaves n s').*2 ≡ₚ nb :: I ++ (all_leaves n s).*2).
  { rewrite (as_leaves' _ _ _ _ _ _ _ _ _ Has), (as_leaves _ _ _ _ _ _ _ _ _ Has), !fmap_app, !fmap_cons. simpl. solve_Permutation. }
  rewrite Hp. apply NoDup_cons. split; [|done]. rewrite elem_of_app. intros [Hin|Hin].
  - pose proof (td_idx_range _ Htd _ Hin). lia.
  - apply list_elem_of_fmap in Hin as (x & Hx & Hin). pose proof (td_leaf_range _ Htd _ Hin). lia.
Qed.

Lemma new_tree_dir : tree_dir s'.
Proof.
  pose proof (as_root _ _ _ _ _ _ _ _ _ Has) as Hroot. destruct (same_root_info s s' Hroot) as (Hinfo & _).
  pose proof (as_grows _ _ _ _ _ _ _ _ _ Has) as Hg. destruct new_hash_order as [Hlo Hhi].
  split; [split| | | | |].
  - exact new_bytes.
  - rewrite (gr_ctx _ _ _ Hg). apply (td_tree _ Htd).
  - rewrite (gr_ctx _ _ _ Hg). apply (td_tree _ Htd).
  - intros fname hinfo. apply (root_ok_same s s' fname hinfo Htd Hg (as_es _ _ _ _ _ _ _ _ _ Has) Hroot).
    by apply (as_ok _ _ _ _ _ _ _ _ _ Has).
  - exact new_sorted.
  - apply leaves_of_lookup, new_leaf_ok.
  - exact new_blocks.
  - rewrite (as_idx _ _ _ _ _ _ _ _ _ Has), (gr_ctx _ _ _ Hg). intros b Hb. destruct (placed_in _ _ _ Hplaced) as [lo Hleaf].
    destruct (decide (b = fr_bh f)) as [->|Hne]; [rewrite <- (frame_entries s frames Htd Hlinked Hlen); apply (as_index _ _ _ _ _ _ _ _ _ Has)|].
    rewrite (as_same _ _ _ _ _ _ _ _ _ Has); [by apply (td_idx _ Htd)|by apply td_idx_range|done|].
    by apply (td_disjoint _ Htd b _ Hb Hleaf).
  - rewrite Hinfo. apply Htd.
  - apply (as_sized _ _ _ _ _ _ _ _ _ Has).
  - unfold s_blocksize_bits. rewrite (as_sbi _ _ _ _ _ _ _ _ _ Has). apply (td_pow _ Htd).
Qed.

Lemma block_entry s0 blk os0 e :
  dirblock (dctx s0 n) (dir_block s0 n blk) os0 -> leaf_entry n s0 blk e <-> e ∈ live (dir_block s0 n blk) os0.
Proof.
  intros Hd. split; [|intros He; by exists os0]. intros (os' & Hd' & He).
  destruct Hd as (_ & _ & Hc & _), Hd' as (_ & _ & Hc' & _). by rewrite <- (chain_unique _ _ _ _ _ Hc _ Hc').
Qed.

Lemma new_entries e : tree_entry n s' e <-> tree_entry n s e.
Proof.
  pose proof (gr_ctx _ _ _ (as_grows _ _ _ _ _ _ _ _ _ Has)) as Ec.
  assert (Hother : forall x, x ∈ A ++ B -> leaf_entry n s' x.2 e <-> leaf_entry n s x.2 e).
  { intros x Hx. assert (Hi : exists i, all_leaves n s !! i = Some x /\ i <> length A).
    { rewrite (as_leaves _ _ _ _ _ _ _ _ _ Has). apply elem_of_app in Hx as [Hx|Hx];
        apply list_elem_of_lookup_1 in Hx as [j Hj].
      - exists j. pose proof (lookup_lt_Some _ _ _ Hj). rewrite lookup_app_l by done. split; [done|lia].
      - exists (length A + S j)%nat. rewrite lookup_app_r by lia.
        replace (length A + S j - length A)%nat with (S j) by lia. split; [done|lia]. }
    destruct Hi as (i & Hi & Hne). destruct (other_leaf i x Hi Hne) as [_ Eb].
    unfold leaf_entry. by rewrite Ec, Eb. }
  assert (Hb1 : leaf_entry n s' bh e <-> e ∈ live b1 os1).
  { rewrite (block_entry s' bh os1), (as_b1 _ _ _ _ _ _ _ _ _ Has); [done|].
    rewrite Ec, (as_b1 _ _ _ _ _ _ _ _ _ Has). apply (as_d1 _ _ _ _ _ _ _ _ _ Has). }
  assert (Hb2 : leaf_entry n s' nb e <-> e ∈ live b2 os2).
  { rewrite (block_entry s' nb os2), (as_b2 _ _ _ _ _ _ _ _ _ Has); [done|].
    rewrite Ec, (as_b2 _ _ _ _ _ _ _ _ _ Has). apply (as_d2 _ _ _ _ _ _ _ _ _ Has). }
  assert (Hold : leaf_entry n s bh e <-> leaf_entry n s' bh e \/ leaf_entry n s' nb e).
  { rewrite (block_entry s bh os) by apply (cs_leaf _ _ _ _ _ _ Hcan). by rewrite Hb1, Hb2, <- elem_of_app, half_entries. }
  unfold tree_entry. rewrite (as_leaves' _ _ _ _ _ _ _ _ _ Has), (as_leaves _ _ _ _ _ _ _ _ _ Has).
  split.
  - intros (lo & blk & Hin & He). apply elem_of_app in Hin as [Hin|Hin].
    { exists lo, blk. split; [apply elem_of_app; by left|]. apply (Hother (lo, blk)); [apply elem_of_app; by left|done]. }
    rewrite !elem_of_cons in Hin. destruct Hin as [[= -> ->]|[[= -> ->]|Hin]].
    + exists l, bh. split; [apply elem_of_app; right; by left|]. apply Hold. by left.
    + exists l, bh. split; [apply elem_of_app; right; by left|]. apply Hold. by right.
    + exists lo, blk. split; [apply elem_of_app; right; by right|].
      apply (Hother (lo, blk)); [apply elem_of_app; by right|done].
  - intros (lo & blk & Hin & He). apply elem_of_app in Hin as [Hin|Hin].
    { exists lo, blk. split; [apply elem_of_app; by left|]. apply (Hother (lo, blk)); [apply elem_of_app; by left|done]. }
    apply elem_of_cons in Hin as [[= -> ->]|Hin].
    + apply Hold in He as [He|He]; [exists l, bh|exists (hash2 + continued), nb];
        (split; [apply elem_of_app; right|done]); [by left|right; by left].
    + exists lo, blk. split; [apply elem_of_app; right; by do 2 right|].
      apply (Hother (lo, blk)); [apply elem_of_app; by right|done].
Qed.
End After.

(** The split keeps the tree, its entries, and finds the leaf for the new name. *)
Lemma split_keeps_tree :
  tree_dir s' /\ placed s' h target /\ (forall e, tree_entry n s' e <-> tree_entry n s e) /\
  same_root s s' /\ (forall nm, tree_hash n s' nm = tree_hash n s nm).
Proof.
  destruct split_shape as (b1 & b2 & os1 & os2 & hash2 & cont & A & B & l & Has). split_and!.
  - by eapply new_tree_dir.
  - by eapply new_placed.
  - intros e. by eapply new_entries.
  - apply (as_root _ _ _ _ _ _ _ _ _ Has).
  - apply (same_root_info s s' (as_root _ _ _ _ _ _ _ _ _ Has)).
Qed.
End Split.
End Insert.
