(* ===== verification/DxAddEntry.v ===== *)
(** * [ext4_dx_add_entry] on a hash tree

    An entry put into the leaf its hash belongs to keeps the tree and adds exactly that
    entry to the directory; with the split this is the insertion, as long as the index
    has room for the leaf that a split adds. *)

From stdpp Require Import functions prelude list gmap strings sorting.
From Stdlib Require Import ZArith Lia.
From S2P Require Import Prelude Kernel Bytes Layout ExtentNode Fs Inode Dirent DxBlock DxBlockSpec DxSplit DxRoom Namei Dx DxLookup DxTree DxAdd DxKeep DxInsert.

Local Open Scope Z_scope.

Section Rewrite.
Context `{NameiEnv}.
Variable n : Z.

(** [s'] is [s] with block [blk] of the directory replaced; the times, the version and a
    stale index flag may differ too. *)
Record rewritten (s s' : fs) (blk : Z) (b' : list Z) : Prop := {
  rw_ctx : dctx s' n = dctx s n;
  rw_dx : is_dx s' n = is_dx s n;
  rw_sbi : f_sbi s' = f_sbi s;
  rw_es : f_es s' = f_es s;
  rw_size : i_size (inode_of s' n) = i_size (inode_of s n);
  rw_len : length (i_dir (inode_of s' n)) = length (i_dir (inode_of s n));
  rw_blk : dir_block s' n blk = b';
  rw_same : forall b, 0 <= b < Z.of_nat (length (i_dir (inode_of s n))) -> b <> blk ->
              dir_block s' n b = dir_block s n b;
  rw_others : others n s s'
}.

Lemma rewritten_set s blk b' :
  0 <= blk < Z.of_nat (length (i_dir (inode_of s n))) -> rewritten s (set_dir_block n blk b' s) blk b'.
Proof.
  intros Hb. destruct (dir_block_set n blk b' s Hb) as [Hbk Hl]. split; try done.
  - apply dctx_set_block.
  - unfold is_dx, set_dir_block. by rewrite inode_of_upd_eq.
  - unfold set_dir_block. by rewrite inode_of_upd_eq.
  - intros b Hbr Hne. unfold dir_block, set_dir_block, put_block. rewrite inode_of_upd_eq. simpl.
    destruct (Z.eqb_spec blk (Z.of_nat (length (i_dir (inode_of s n))))); [lia|].
    by rewrite !nth_lookup, list_lookup_insert_ne by lia.
  - apply others_upd.
Qed.

Lemma rewritten_upd s s' blk b' g :
  rewritten s s' blk b' -> meta g -> is_dx (upd_inode n g s') n = is_dx s' n ->
  rewritten s (upd_inode n g s') blk b'.
Proof.
  intros [] Hm Hdx. destruct (meta_same n g s' Hm) as (Es & Ee & Ec & _ & Ed & Esz).
  split; try congruence.
  - unfold dir_block. rewrite Ed. done.
  - unfold dir_block. rewrite Ed. done.
  - eapply others_trans; [done|]. apply others_upd.
Qed.

Lemma rewritten_again s s' blk b1 b2 :
  rewritten s s' blk b1 -> 0 <= blk < Z.of_nat (length (i_dir (inode_of s n))) ->
  rewritten s (set_dir_block n blk b2 s') blk b2.
Proof.
  intros [] Hb. rewrite <- rw_len0 in Hb. destruct (rewritten_set s' blk b2 Hb). split; try congruence.
  - intros b Hbr Hne. rewrite rw_same1 by (done || lia). by apply rw_same0.
  - by eapply others_trans.
Qed.
End Rewrite.

Section Commit.
Context `{EnvFs} `{Csum} `{NameiEnv} `{DirNamesOk}.
Hypothesis Hcalm : journal_calm.
Variable n : Z.

Ltac calm_call := match goal with
  | Hc : env_int _ _ _ = ?z |- _ => rewrite Hcalm in Hc by reflexivity; subst z
  end.

Lemma is_dx_times s f g : is_dx (upd_inode n (fun i => set_times (f i) (g i) i) s) n = is_dx s n.
Proof. unfold is_dx. by rewrite inode_of_upd_eq. Qed.

Lemma is_dx_flag s s0 :
  f_es s0 = f_es s -> is_dx (upd_inode n (fun i => inode_inc_iversion (ext4_update_dx_flag s0 i)) s) n = is_dx s n.
Proof.
  intros Ee. unfold is_dx. rewrite inode_of_upd_eq. unfold ext4_update_dx_flag. rewrite Ee.
  change (f_es (upd_inode _ _ s)) with (f_es s).
  destruct (ext4_has_feature_dir_index (f_es s)); [|done]. done.
Qed.

Lemma wp_commit_leaf blk b' s held calls (Q : Z -> world fs -> Prop) :
  0 <= blk < Z.of_nat (length (i_dir (inode_of s n))) ->
  (forall s' calls, rewritten n s s' blk (ext4_dirblock_csum_set (dctx s n) b') -> Q 0 (World s' held calls)) ->
  wp (add_commit n blk b') Q (World s held calls).
Proof.
  intros Hb HQ. unfold add_commit, inode_set_ctime_current, inode_set_mtime_to_ts, current_time,
    ext4_handle_dirty_dirblock, ext4_mark_inode_dirty.
  pose proof (rewritten_set n s blk b' Hb) as Hrw. do 2 wp_step.
  set (s1 := set_dir_block n blk b' s) in *. clearbody s1.
  repeat wp_step. repeat calm_call. cbn [Z.eqb negb].
  match goal with |- context [World (set_dir_block n blk _ ?x) _ _] => set (s4 := x) end.
  assert (Hrw4 : rewritten n s s4 blk b').
  { subst s4. repeat (apply rewritten_upd; [|apply meta_times || apply meta_size_flags|apply is_dx_times || by apply is_dx_flag]).
    done. }
  clearbody s4. rewrite (rw_ctx _ _ _ _ _ Hrw4), (rw_blk _ _ _ _ _ Hrw4). apply HQ.
  by eapply rewritten_again.
Qed.

(** [add_dirent_to_buf]: the record is searched for, or given and known to be good. *)
Lemma wp_add_leaf child blk fname de s held calls os (Q : Z -> world fs -> Prop) :
  let d := dctx s n in
  let new := new_dent d child (i_mode (inode_of s child)) fname in
  plain d -> dir_geometry d -> 0 <= blk < Z.of_nat (length (i_dir (inode_of s n))) ->
  dirblock d (dir_block s n blk) os -> name_ok fname -> 0 < child < 2 ^ 32 -> child <= s_inodes_count (f_es s) ->
  (forall x, de = Some x -> accepts d (dir_block s n blk) os x) ->
  (forall err calls, err < 0 -> de = None -> (err = - ENOSPC -> forall x, x ∈ os -> room d (dir_block s n blk) x < reclen_of d fname) ->
     Q err (World s held calls)) ->
  (forall s' b' os' l1 l2 calls, rewritten n s s' blk b' -> dirblock d b' os' ->
     live (dir_block s n blk) os = l1 ++ l2 -> live b' os' = l1 ++ new :: l2 -> Q 0 (World s' held calls)) ->
  wp (add_dirent_to_buf n child blk fname de) Q (World s held calls).
Proof.
  intros d new Hpl Hgeo Hb Hd Hn Hch Hm Hde Herr HQ. unfold add_dirent_to_buf. do 2 wp_step. fold d.
  fold (csum_size d). fold (dir_limit d). set (b := dir_block s n blk) in *.
  assert (Hgo : forall x b' os' l1 l2,
    ext4_insert_dentry d child (i_mode (inode_of s child)) b x (d_blocksize d) fname = Some b' ->
    dirblock d b' os' -> live b os = l1 ++ l2 -> live b' os' = l1 ++ new :: l2 -> forall calls,
    wp (err <~ call_int "ext4_journal_get_write_access"%string [n; blk];;
        if negb (err =? 0) then kret err else
        match ext4_insert_dentry d child (i_mode (inode_of s child)) b x (d_blocksize d) fname with
        | None => koops
        | Some b' => add_commit n blk b'
        end) Q (World s held calls)).
  { intros x b' os' l1 l2 Hi Hd' Hl1 Hl2 c. do 2 wp_step. calm_call. cbn [Z.eqb negb]. rewrite Hi.
    apply wp_commit_leaf; [done|]. intros s' c' Hrw.
    destruct (csum_set_dirblock d Hpl Hgeo b' os' Hd') as (Hd2 & Hv & _).
    apply (HQ s' (ext4_dirblock_csum_set d b') os' l1 l2); [exact Hrw|done|done|by rewrite Hv]. }
  destruct de as [x|].
  - destruct (Hde x eq_refl child (i_mode (inode_of s child)) fname) as (b' & os' & l1 & l2 & Hi & Hd' & Hl1 & Hl2);
      try done. by eapply Hgo.
  - pose proof (insert_refines d Hpl Hgeo child (i_mode (inode_of s child)) b os fname Hd Hn Hch Hm) as Hins.
    destruct (ext4_find_dest_de _ _ _ fname) as [[err|x]|]; [| |done].
    + wp_step. destruct Hins as [[-> _]|[-> Hall]]; apply Herr; try done.
    + destruct Hins as (b' & os' & l1 & l2 & Hi & Hd' & Hl1 & Hl2). by eapply Hgo.
Qed.
End Commit.

(** ** An entry in its leaf *)

Section Leaf.
Context `{Env} `{!EnvErrno} `{Csum} `{NameiEnv} `{!DirHashOk} `{DirNamesOk}.
Variable n : Z.
Variables (s s' : fs) (blk : Z) (b' os os' : list Z) (l1 l2 : list dent) (new : dent).
Hypothesis Htd : tree_dir n s.
Hypothesis Hplaced : placed n s (tree_hash n s (e_name new)) blk.
Hypothesis Hrw : rewritten n s s' blk b'.
Hypothesis Hd : dirblock (dctx s n) (dir_block s n blk) os.
Hypothesis Hd' : dirblock (dctx s n) b' os'.
Hypothesis Hl : live (dir_block s n blk) os = l1 ++ l2.
Hypothesis Hl' : live b' os' = l1 ++ new :: l2.

Lemma rewritten_grows : grows n s s' /\ sized n s'.
Proof.
  pose proof (td_sized _ _ Htd) as Hs. unfold sized in *.
  split; [split|]; unfold s_blocksize_bits in *; rewrite ?(rw_sbi _ _ _ _ _ Hrw), ?(rw_size _ _ _ _ _ Hrw); try done.
  - apply (rw_ctx _ _ _ _ _ Hrw).
  - apply (rw_dx _ _ _ _ _ Hrw).
  - by rewrite (rw_len _ _ _ _ _ Hrw).
Qed.

Lemma index_untouched : same_blocks n s s' (idx_blocks n s (root_levels n s) 0 (root_entries_at n s)).
Proof.
  destruct (placed_in _ _ _ _ Hplaced) as [lo Hin]. intros b Hb. apply (rw_same _ _ _ _ _ Hrw); [by apply td_idx_range|].
  by apply (td_disjoint n s Htd b _ Hb Hin).
Qed.

Lemma tree_untouched :
  same_root n s s' /\ root_levels n s' = root_levels n s /\ root_entries_at n s' = root_entries_at n s /\
  all_leaves n s' = all_leaves n s /\
  idx_blocks n s' (root_levels n s') 0 (root_entries_at n s') = idx_blocks n s (root_levels n s) 0 (root_entries_at n s) /\
  (forall nm, tree_hash n s' nm = tree_hash n s nm).
Proof.
  pose proof (index_untouched 0 (idx_blocks_head _ _ _ _ _)) as E0.
  assert (Hr : same_root n s s') by (unfold same_root; by rewrite E0).
  destruct (same_root_info n s s' Hr) as (_ & He & Hlev & _ & Hth). split_and!; try done.
  - unfold all_leaves. rewrite Hlev, He, (node_count_same n s s' 0 _ E0). apply leaves_same; [apply index_untouched|].
    apply Forall_seq. intros; lia.
  - rewrite Hlev, He. apply idx_blocks_same, index_untouched.
Qed.

Lemma other_block i x :
  all_leaves n s !! i = Some x -> x.2 <> blk -> dir_block s' n x.2 = dir_block s n x.2.
Proof.
  intros Hi Hne. apply (rw_same _ _ _ _ _ Hrw); [|done]. apply (td_leaf_range n s Htd).
  by eapply list_elem_of_lookup_2.
Qed.

Lemma add_leaf_ok i x : all_leaves n s' !! i = Some x -> leaf_ok n s' x (all_leaves n s' !! S i).
Proof.
  destruct tree_untouched as (_ & _ & _ & -> & _ & Hth). intros Hi.
  destruct (htree_leaf n s i x (td_tree _ _ Htd) Hi) as (os0 & Hd0 & He0).
  destruct (decide (x.2 = blk)) as [E|Hne].
  - exists os'. rewrite E, (rw_ctx _ _ _ _ _ Hrw), (rw_blk _ _ _ _ _ Hrw). split; [done|]. intros e He. rewrite Hth.
    rewrite E in Hd0, He0. assert (os0 = os) as ->.
    { destruct Hd as (_ & _ & Hc & _), Hd0 as (_ & _ & Hc' & _). by apply (chain_unique _ _ _ _ _ Hc). }
    rewrite Hl in He0. rewrite Hl' in He. apply elem_of_app in He as [He|He].
    { apply He0, elem_of_app. by left. }
    apply elem_of_cons in He as [->|He]; [|apply He0, elem_of_app; by right].
    destruct Hplaced as (j & lo & Hj & Hlo & Hhi). assert (j = i) as ->.
    { pose proof (td_blocks _ _ Htd) as Hnd. apply NoDup_app in Hnd as (_ & _ & Hnd).
      eapply (NoDup_lookup _ _ _ blk Hnd); rewrite list_lookup_fmap; [by rewrite Hj|by rewrite Hi, <- E]. }
    rewrite Hj in Hi. injection Hi as <-. done.
  - exists os0. rewrite (rw_ctx _ _ _ _ _ Hrw), (other_block i x Hi Hne). split; [done|]. intros e He. rewrite Hth.
    by apply He0.
Qed.

Lemma add_tree_dir : tree_dir n s'.
Proof.
  destruct rewritten_grows as [Hg Hsz]. destruct tree_untouched as (Hr & Hlev & He & HL & HI & _).
  destruct (same_root_info n s s' Hr) as (Hinfo & _). pose proof (td_tree _ _ Htd) as Ht.
  split; [split| | | | |].
  - apply Forall_lookup. intros k b Hk. assert (Hb : dir_block s' n (Z.of_nat k) = b)
      by (unfold dir_block; by rewrite Nat2Z.id, nth_lookup, Hk).
    rewrite <- Hb. pose proof (lookup_lt_Some _ _ _ Hk) as Hlt. rewrite (rw_len _ _ _ _ _ Hrw) in Hlt.
    destruct (decide (Z.of_nat k = blk)) as [->|]; [rewrite (rw_blk _ _ _ _ _ Hrw); apply Hd'|].
    rewrite (rw_same _ _ _ _ _ Hrw) by lia. apply dir_block_bytes, Ht.
  - rewrite (gr_ctx _ _ _ Hg). apply Ht.
  - rewrite (gr_ctx _ _ _ Hg). apply Ht.
  - intros fname hinfo. apply (root_ok_same n s s' fname hinfo Htd Hg (rw_es _ _ _ _ _ Hrw) Hr).
    rewrite Hlev, He. apply (index_ok_same n s s' _ _ _ _ Hg index_untouched), (td_index n s Htd).
  - rewrite HL. apply Ht.
  - apply leaves_of_lookup, add_leaf_ok.
  - unfold tree_blocks. rewrite HI, HL. apply Htd.
  - rewrite HI, (gr_ctx _ _ _ Hg). intros b Hb. rewrite (index_untouched b Hb). by apply (td_idx _ _ Htd).
  - rewrite Hinfo. apply Htd.
  - done.
  - unfold s_blocksize_bits. rewrite (rw_sbi _ _ _ _ _ Hrw). apply (td_pow _ _ Htd).
Qed.

Lemma add_entries e : tree_entry n s' e <-> e = new \/ tree_entry n s e.
Proof.
  destruct tree_untouched as (_ & _ & _ & HL & _). unfold tree_entry. rewrite HL.
  assert (Hblk : leaf_entry n s' blk e <-> e = new \/ leaf_entry n s blk e).
  { rewrite (block_entry n s' blk os'), (block_entry n s blk os), (rw_blk _ _ _ _ _ Hrw), Hl, Hl'
      by (rewrite ?(rw_ctx _ _ _ _ _ Hrw), ?(rw_blk _ _ _ _ _ Hrw); done).
    rewrite !elem_of_app, elem_of_cons. tauto. }
  assert (Hoth : forall lo b, (lo, b) ∈ all_leaves n s -> b <> blk -> leaf_entry n s' b e <-> leaf_entry n s b e).
  { intros lo b Hin Hne. apply list_elem_of_lookup_1 in Hin as [i Hi].
    pose proof (other_block i (lo, b) Hi Hne) as Eb. simpl in Eb.
    unfold leaf_entry. by rewrite (rw_ctx _ _ _ _ _ Hrw), Eb. }
  destruct (placed_in _ _ _ _ Hplaced) as [lo0 Hin0]. split.
  - intros (lo & b & Hin & He). destruct (decide (b = blk)) as [->|Hne].
    + apply Hblk in He as [->|He]; [by left|right; eauto].
    + right. exists lo, b. split; [done|]. by apply (Hoth lo).
  - intros [->|(lo & b & Hin & He)]; [exists lo0, blk; split; [done|]; apply Hblk; by left|].
    exists lo, b. split; [done|]. destruct (decide (b = blk)) as [->|Hne]; [apply Hblk; by right|by apply (Hoth lo)].
Qed.
End Leaf.

(** ** The insertion *)

Section AddEntry.
Context `{EnvFs} `{!EnvErrno} `{Csum} `{NameiEnv} `{!DirHashOk} `{DirNamesOk}.
Hypothesis Hcalm : journal_calm.
Hypothesis Hholes : no_holes.
Variables (n child : Z) (fname : ext4_filename).

(** The index has room for one more leaf, and a leaf without room for the name can be
    split so that there is room. *)
Record can_add (s : fs) : Prop := {
  ca_name : name_ok fname;
  ca_child : 0 < child < 2 ^ 32;
  ca_inodes : child <= s_inodes_count (f_es s);
  ca_max : Z.of_nat (length (i_dir (inode_of s n))) < 2 ^ 28;
  ca_room : forall b, b ∈ idx_blocks n s (root_levels n s) 0 (root_entries_at n s) ->
    dx_get_count (dir_block s n b) (idx_entries b) < dx_get_limit (dir_block s n b) (idx_entries b);
  ca_split : forall blk os, placed n s (tree_hash n s (disk_name fname)) blk ->
    dirblock (dctx s n) (dir_block s n blk) os ->
    (forall x, x ∈ os -> room (dctx s n) (dir_block s n blk) x < reclen_of (dctx s n) fname) ->
    (2 <= length (live (dir_block s n blk) os))%nat /\
    ~ stops_at_first (dctx s n) (ext4fs_dirhash (tree_version n s)) (dir_block s n blk)
}.

Abbreviation h s := (tree_hash n s (disk_name fname)).

(** What the probe of a tree gives. *)
Lemma probe_placed s frames :
  tree_dir n s -> probed n s (h s) 0 (root_entries_at n s) frames -> length frames = S (root_levels n s) ->
  linked n s 0 (root_entries_at n s) frames /\ placed n s (h s) (leaf_of n s frames) /\
  readable n s (leaf_of n s frames) DIRENT_HTREE.
Proof.
  intros Htd Hpr Hlen. pose proof (td_index n s Htd) as Hok.
  destruct (probe_split n s frames (root_levels n s) [0] 0 (root_entries_at n s) 0 (h s)) as (Hlk & before & l & HL & Hle & Hall);
    try done; [apply dirhash_range|apply (td_tree _ _ Htd)|].
  split_and!; [done| |by eapply linked_leaf_readable].
  assert (Hin : (l, leaf_of n s frames) ∈ all_leaves n s)
    by (unfold all_leaves; rewrite HL, elem_of_app; right; by left).
  pose proof (low_range n s (td_tree _ _ Htd) _ _ Hin) as Hlr. pose proof (low_bit l Hlr).
  exists (length before), l. unfold all_leaves. rewrite HL. split_and!; [by rewrite list_lookup_middle|lia|].
  intros hi b Hn. rewrite lookup_app_r in Hn by lia.
  replace (S (length before) - length before)%nat with 1%nat in Hn by lia. simpl in Hn.
  destruct (remaining n s frames) as [|x rest]; [done|]. simpl in Hn. injection Hn as ->.
  by apply Forall_cons in Hall as [? _].
Qed.

Lemma probe_version s hinfo hi :
  tree_dir n s -> probe_hash s n (dir_block s n 0) (Some fname) hinfo = inr hi -> h_version hi = tree_version n s.
Proof.
  intros Htd. unfold probe_hash, tree_version. destruct (ht_plain n s (td_tree _ _ Htd)) as [_ ->]. cbn [andb].
  destruct (ext4fs_dirhash _ _) as [err [hash minor]]. case_match; [done|]. by intros [= <-].
Qed.

(** No name of the directory has a hash that fails. *)
Lemma dirhash_works s nm : tree_dir n s -> 0 <= (ext4fs_dirhash (tree_version n s) nm).1.
Proof.
  intros Htd. destruct (ht_root n s (td_tree _ _ Htd) (Filename nm nm None 0 0) (HInfo 0 0 0)) as (_ & _ & (hi & Hph) & _).
  revert Hph. unfold probe_hash. destruct (ht_plain n s (td_tree _ _ Htd)) as [_ ->]. cbn [andb disk_name].
  fold (tree_version n s). destruct (ext4fs_dirhash _ nm) as [err [hash minor]]. simpl. case_match eqn:E; [done|]. lia.
Qed.

(** The block that receives the name after a split. *)
Lemma split_target s bh f p os version hash s' target de :
  can_split n s bh f p os ->
  split_done n s bh f p os version hash s' target de ->
  ~ stops_at_first (dctx s n) (ext4fs_dirhash version) (dir_block s n bh) ->
  (0 <= target < Z.of_nat (length (i_dir (inode_of s' n)))) /\ dctx s' n = dctx s n /\ f_es s' = f_es s /\
  others n s s' /\ (forall m, i_mode (inode_of s' m) = i_mode (inode_of s m)) /\
  exists os', dirblock (dctx s n) (dir_block s' n target) os' /\ accepts (dctx s n) (dir_block s' n target) os' de.
Proof.
  intros [_ _ _ Hbr Hxr Hne _ _ _ _ _ _ _]
    (b1 & b2 & bx & os1 & os2 & hash2 & cont & Hu & Hd1 & Hd2 & _ & _ & _ & _ & _ & _ & Ht) Hst.
  rewrite (du_len _ _ _ _ _ Hu).
  assert (Hmode : forall m, i_mode (inode_of s' m) = i_mode (inode_of s m)).
  { intros m. destruct (decide (m = n)) as [->|Hmn]; [by rewrite (du_inode _ _ _ _ _ Hu)|].
    by rewrite (du_others _ _ _ _ _ Hu). }
  destruct (hash2 <=? hash); destruct Ht as (-> & _ & _ & Ha).
  - split_and!; try lia; try done; [by eapply du_ctx|by eapply du_es|by eapply du_others|].
    exists os2. rewrite (du_blk _ _ _ _ _ Hu), fn_lookup_insert_ne, fn_lookup_insert by lia. done.
  - split_and!; try lia; try done; [by eapply du_ctx|by eapply du_es|by eapply du_others|].
    exists os1. rewrite (du_blk _ _ _ _ _ Hu), !fn_lookup_insert_ne, fn_lookup_insert by lia. auto.
Qed.

Ltac calm_call := match goal with
  | Hc : env_int _ _ _ = ?z |- _ => rewrite Hcalm in Hc by reflexivity; subst z
  end.

(** The answer: an error and nothing done, or the entry added. *)
Definition add_post (s : fs) (r : Z) (s' : fs) : Prop :=
  r < 0 /\ s' = s \/
  r = 0 /\ tree_dir n s' /\ others n s s' /\
  forall e, tree_entry n s' e <->
    e = new_dent (dctx s n) child (i_mode (inode_of s child)) fname \/ tree_entry n s e.

(** [cleanup] with a buffer and all the frames. *)
Lemma wp_add_cleanup {A} (a : A) frames blk s held calls h0 (Q : A -> world fs -> Prop) :
  Z.of_nat (length frames) = info_indirect_levels (dir_block s n 0) + 1 -> fr_bh <$> head frames = Some 0 ->
  on_top (dbh n blk :: refs n frames) h0 held -> (forall calls, Q a (World s h0 calls)) ->
  wp (brelse n blk;;; dx_release n frames;;; kret a) Q (World s held calls).
Proof.
  intros Hlen Hhd Htop HQ. apply wp_bind. eapply wp_release_top; [exact Htop|]. intros h1 Hh1.
  apply wp_bind. apply (wp_dx_release n s [] h0); [split_and!; try done; by rewrite app_nil_r|].
  intros h2 c ->%on_top_nil. by apply wp_ret.
Qed.

(** The entry goes into the leaf without a split. *)
Lemma add_to_placed s s' blk b' os os' l1 l2 :
  let new := new_dent (dctx s n) child (i_mode (inode_of s child)) fname in
  tree_dir n s -> placed n s (h s) blk -> rewritten n s s' blk b' ->
  dirblock (dctx s n) (dir_block s n blk) os -> dirblock (dctx s n) b' os' ->
  live (dir_block s n blk) os = l1 ++ l2 -> live b' os' = l1 ++ new :: l2 -> add_post s 0 s'.
Proof.
  intros new Htd Hpl Hrw Hd Hd' Hl Hl'. right. split_and!; [done| |apply (rw_others _ _ _ _ _ Hrw)|].
  - by apply (add_tree_dir n s s' blk b' os os' l1 l2 new).
  - by apply (add_entries n s s' blk b' os os' l1 l2 new).
Qed.

(** The leaf is split first. *)
Lemma wp_split_add s blk frames f p os hi h1 calls h0 (Q : ext4_filename + Z -> world fs -> Prop) :
  let fname' := with_hinfo fname hi in
  tree_dir n s -> can_add s -> h_hash hi = h s -> h_version hi = tree_version n s ->
  linked n s 0 (root_entries_at n s) frames -> length frames = S (root_levels n s) ->
  fr_bh <$> head frames = Some 0 -> last_frame frames = f -> leaf_of n s frames = blk ->
  fr_at f = dx_at (fr_entries f) (Z.of_nat p) ->
  placed n s (h s) blk -> can_split n s blk f p os ->
  ~ stops_at_first (dctx s n) (ext4fs_dirhash (tree_version n s)) (dir_block s n blk) ->
  on_top (refs n frames) h0 h1 ->
  (forall r s' calls, add_post s r s' -> Q (inr r) (World s' h0 calls)) ->
  wp (r <~ do_split n blk f hi;;
      match r with
      | inl err => kret tt;;; dx_release n frames;;; kret (if false && (err =? 0) then inl fname' else inr err)
      | inr (target, de) =>
          err <~ add_dirent_to_buf n child target fname' (Some de);;
          brelse n target;;; dx_release n frames;;; kret (if false && (err =? 0) then inl fname' else inr err)
      end) Q (World s (dbh n blk :: h1) calls).
Proof.
  intros fname' Htd Hca Hhh Hhv Hlk Hlen Hhd Hf Hleaf Hat Hpl Hcs Hst Ht2 HQ.
  assert (Hlev : Z.of_nat (length frames) = info_indirect_levels (dir_block s n 0) + 1).
  { rewrite Hlen. unfold root_levels.
    pose proof (getb_range (dir_block s n 0) 30 (dir_block_bytes s n 0 (ht_bytes n s (td_tree _ _ Htd)))) as Hr.
    fold (info_indirect_levels (dir_block s n 0)) in Hr. lia. }
  apply wp_bind. eapply (wp_do_split Hcalm Hholes n blk f hi p os s _ calls h1); [done| |by exists [dbh n blk]| |].
  { rewrite Hhv. intros nm. by apply dirhash_works. }
  - intros err c Herr. cbn [andb]. apply wp_bind, wp_ret, wp_bind.
    apply (wp_dx_release n s [] h0); [split_and!; try done; by rewrite app_nil_r|].
    intros h2 c2 ->%on_top_nil. apply wp_ret, HQ. by left.
  - intros target de s1 h2 c Hdone Hh2. rewrite Hhh, Hhv in Hdone. subst f blk.
    destruct (split_keeps_tree n s s1 frames p os (h s) target de Htd Hlk Hlen Hat Hpl Hcs Hdone)
      as (Htd1 & Hpl1 & Hent & Hroot & Hth).
    destruct (split_target s _ _ _ _ _ _ s1 target de Hcs Hdone Hst) as (Htr & Ec & Ee & Ho & Hm & os1 & Hd1 & Ha).
    apply wp_bind. eapply (wp_add_leaf Hcalm n child target fname' (Some de) s1 h2 c os1); rewrite ?Ec, ?Ee;
      try apply Hcs; try apply Hca; try done.
    + by intros x [= <-].
    + intros s2 b2 os2 l1 l2 c2 Hrw Hd2 Hl Hl2. cbn [andb].
      destruct Hh2 as (l & -> & ->%Permutation_singleton_r).
      assert (Hpost : add_post s1 0 s2).
      { rewrite <- Ec in Hd1, Hd2, Hl2. apply (add_to_placed s1 s2 target b2 os1 os2 l1 l2); try done.
        by rewrite Hth. }
      destruct Hpost as [[? _]|(_ & Htd2 & Ho2 & Hent2)]; [done|].
      assert (Hl30 : info_indirect_levels (dir_block s2 n 0) = info_indirect_levels (dir_block s n 0)).
      { unfold info_indirect_levels. rewrite <- (proj1 Hroot 30) by done.
        destruct (placed_in _ _ _ _ Hpl1) as [lo Hin].
        rewrite (rw_same _ _ _ _ _ Hrw 0); [done|lia|].
        apply (td_disjoint n s1 Htd1 0 (lo, target)); [apply idx_blocks_head|done]. }
      apply (wp_add_cleanup _ frames target s2 _ c2 h0); [by rewrite Hl30|done|by apply on_top_cons|].
      intros c3. apply HQ. right. split_and!; [done|done|by eapply others_trans|].
      intros e. rewrite Hent2, Hent, Ec, Hm. done.
Qed.

(** The last frame of a path, with its position in the index. *)
Lemma linked_position s frames : forall blk e,
  linked n s blk e frames -> exists p,
    fr_at (last_frame frames) = dx_at (fr_entries (last_frame frames)) (Z.of_nat p) /\
    (p < node_count n s (fr_bh (last_frame frames)) (fr_entries (last_frame frames)))%nat.
Proof.
  induction frames as [|g frames IH]; intros blk e Hl; [done|]. destruct Hl as (Hb & He & (p & Hp & Hc) & Hr).
  destruct frames as [|g2 frames].
  - exists p. unfold last_frame. simpl. by rewrite He, Hb.
  - destruct Hr as [?|Hr]; [done|]. rewrite last_frame_cons. by eapply IH.
Qed.

Lemma full_leaf_can_split s frames os :
  let blk := leaf_of n s frames in
  tree_dir n s -> can_add s -> linked n s 0 (root_entries_at n s) frames -> length frames = S (root_levels n s) ->
  placed n s (h s) blk -> dirblock (dctx s n) (dir_block s n blk) os ->
  (2 <= length (live (dir_block s n blk) os))%nat ->
  exists p, fr_at (last_frame frames) = dx_at (fr_entries (last_frame frames)) (Z.of_nat p) /\
    can_split n s blk (last_frame frames) p os.
Proof.
  intros blk Htd Hca Hlk Hlen Hpl Hd Htwo. destruct (linked_position s frames _ _ Hlk) as (p & Hat & Hp).
  exists p. split; [done|]. pose proof (td_tree _ _ Htd) as Ht.
  pose proof (frame_in_tree n s frames Hlk Hlen) as Hin.
  pose proof (frame_entries n s frames Htd Hlk Hlen) as He.
  destruct (placed_in _ _ _ _ Hpl) as [lo Hleaf].
  split; try done; try apply Ht; try apply Htd; try apply Hca.
  - by apply (td_leaf_range n s Htd (lo, blk)).
  - by apply (td_idx_range n s Htd).
  - intros E. by apply (td_disjoint n s Htd _ _ Hin Hleaf).
  - rewrite He. by apply (td_idx _ _ Htd).
  - unfold dx_entries. by rewrite length_fmap, length_seq.
  - rewrite He. by apply (ca_room _ Hca).
Qed.

(** The leaf is read and tried; when it is full it is split. *)
Lemma wp_dx_add_round s held calls (Q : ext4_filename + Z -> world fs -> Prop) :
  tree_dir n s -> can_add s ->
  (forall r s' calls, add_post s r s' -> Q (inr r) (World s' held calls)) ->
  wp (dx_add_round n child fname) Q (World s held calls).
Proof.
  intros Htd Hca HQ. pose proof (td_tree _ _ Htd) as Ht. unfold dx_add_round.
  apply wp_bind, wp_dx_probe; [apply Ht|intros err c _ Hno; destruct Hno; apply Ht|].
  intros frames hi h1 c1 root Hph Hflen Hlev Hpr Hh1. cbn [w_st w_held] in *.
  pose proof (probe_hash_plain n s Ht fname _ _ Hph) as Hhh. pose proof (probe_version s _ _ Htd Hph) as Hhv.
  rewrite Hhh in Hpr. pose proof (frames_levels n s Ht frames Hflen) as Hlen.
  destruct (probe_placed s frames Htd Hpr Hlen) as (Hlk & Hpl & Hread).
  pose proof (probed_head n _ _ _ _ _ Hpr) as Hhd.
  do 2 wp_step. fold (leaf_of n s frames). set (blk := leaf_of n s frames) in *.
  apply wp_bind, wp_read_htree_block; [done|by intros ? ? ? []|]. cbn [w_st w_held]. intros c2.
  do 2 wp_step. calm_call. cbn [Z.eqb negb].
  destruct (placed_in _ _ _ _ Hpl) as [lo Hleaf]. apply list_elem_of_lookup_1 in Hleaf as [i Hi].
  destruct (htree_leaf n s i _ Ht Hi) as (os & Hd & _). cbn [snd] in Hd.
  assert (Hnel : - ENOSPC < 0) by done.
  apply wp_bind, (wp_add_leaf Hcalm n child blk (with_hinfo fname hi) None s _ _ os);
    try apply Ht; try apply Hca; try done; [by apply (td_leaf_range n s Htd (lo, blk)); eapply list_elem_of_lookup_2| |].
  - intros err c3 Herr _ Hfull. destruct (Z.eqb_spec err (- ENOSPC)) as [->|Hne]; cbn [negb andb].
    + destruct (ca_split _ Hca blk os Hpl Hd (Hfull eq_refl)) as [Htwo Hst].
      destruct (full_leaf_can_split s frames os) as (p & Hat & Hcs); try done.
      unfold make_index_room. do 3 wp_step. fold (last_frame frames). rewrite (frame_entries n s frames) by done.
      pose proof (ca_room _ Hca _ (frame_in_tree n s frames Hlk Hlen)) as Hroom.
      destruct (Z.eqb_spec (dx_get_count (dir_block s n (fr_bh (last_frame frames))) (idx_entries (fr_bh (last_frame frames))))
                  (dx_get_limit (dir_block s n (fr_bh (last_frame frames))) (idx_entries (fr_bh (last_frame frames)))));
        [lia|]. cbn [negb]. wp_step. fold (last_frame frames).
      by apply (wp_split_add s blk frames (last_frame frames) p os hi h1 _ held).
    + apply (wp_add_cleanup _ frames blk s _ _ held); [done|done|by apply on_top_cons|].
      intros c4. apply HQ. by left.
  - intros s' b' os' l1 l2 c3 Hrw Hd' Hl Hl'. cbn [negb Z.eqb andb].
    apply (wp_add_cleanup _ frames blk s' _ _ held); [|done|by apply on_top_cons|].
    + rewrite (rw_same _ _ _ _ _ Hrw 0); [done|..].
      * apply (td_idx_range n s Htd), idx_blocks_head.
      * apply (td_disjoint n s Htd 0 (lo, blk)); [apply idx_blocks_head|by eapply list_elem_of_lookup_2].
    + intros c4. apply HQ. by apply (add_to_placed s s' blk b' os os' l1 l2).
Qed.

Lemma wp_dx_add_entry s held calls (Q : Z -> world fs -> Prop) :
  tree_dir n s -> can_add s ->
  (forall r s' calls, add_post s r s' -> Q r (World s' held calls)) ->
  wp (dx_add_entry n child fname) Q (World s held calls).
Proof.
  intros Htd Hca HQ. unfold dx_add_entry.
  apply (wp_kloop _ (fun fn w => fn = fname /\ w_st w = s /\ w_held w = held) (fun _ _ => 0) Q); [|done|done].
  intros fn [s0 h0 c0] (-> & Hs & Hh). simpl in Hs, Hh. subst s0 h0.
  apply wp_dx_add_round; [done|done|]. intros r s' c Hp. by apply HQ.
Qed.
End AddEntry.

Section Theorems.
Context `{EnvFs} `{!EnvErrno} `{Csum} `{NameiEnv} `{!DirHashOk} `{DirNamesOk}.

(** C33: adding a name to a well-formed hash tree whose index has room for one more leaf,
    with a journal that accepts its calls, and where a full leaf has at least two
    entries and is split by size: [ext4_dx_add_entry] returns without a BUG_ON; either it
    reports an error (the name exists, or no block can be appended) and the file system
    is unchanged, or the directory is a well-formed hash tree again that has exactly one
    more entry, the new one, whether the leaf had room or had to be split; other inodes
    are unchanged, and every buffer is given back. *)
Theorem dx_add_entry_correct n child fname w :
  journal_calm -> no_holes -> tree_dir n (w_st w) -> can_add n child fname (w_st w) ->
  wp (dx_add_entry n child fname) (fun r w' =>
    w_held w' = w_held w /\ add_post n child fname (w_st w) r (w_st w')) w.
Proof.
  destruct w as [s h c]. intros Hcalm Hholes Htd Hca.
  by apply (wp_dx_add_entry Hcalm Hholes n child fname s h c).
Qed.
End Theorems.
