(* ===== verification/Dentry.v ===== *)
(** * Directory operations of eVFS (fs/ext4/evfs.c)

    Adding, reading, deleting and updating directory entries by inode number.  The
    labels of the handlers are local continuations.  A dentry is identified by the
    inode it belongs to; [d_add] and [d_instantiate] hand an inode reference to it. *)

From stdpp Require Import prelude list gmap strings.
From Stdlib Require Import ZArith Lia.
From S2P Require Import Prelude Kernel Bytes Bmt Layout ExtentNode ExtentTree Fs Block Inode Dirent Namei.

Local Open Scope string_scope.
Local Open Scope Z_scope.

(** [out] of [struct ext4_evfs_de_read_args]; the name is an array of 255 bytes. *)
Record de_read_out := DeOut {
  o_ino_num : Z;
  o_file_type : Z;
  o_name_len : Z;
  o_name : list Z
}.

(** Where the walk over the first block stops: at the record asked for, or at the
    offset where the loop ended without finding it. *)
Inductive walk := WFound (off : Z) | WEnd (off : Z).

(** The loop shared by [evfs_dentry_read] and [evfs_dentry_update]: the
    [target]-th record in use; [None] when the fuel is spent. *)
Fixpoint dentry_walk (fuel : nat) (b : list Z) (limit target offset entry_count : Z) : option walk :=
  match fuel with
  | O => None
  | S fuel =>
      if offset <? limit then
        let rec_len := de_rec_len b offset in
        if rec_len =? 0 then Some (WEnd offset)
        else if negb (de_inode b offset =? 0) then
          if entry_count =? target then Some (WFound offset)
          else dentry_walk fuel b limit target (offset + rec_len) (entry_count + 1)
        else dentry_walk fuel b limit target (offset + rec_len) entry_count
      else Some (WEnd offset)
  end.

(** Every round advances by at least one byte. *)
Definition find_nth (b : list Z) (limit target : Z) : option walk :=
  dentry_walk (S (Z.to_nat limit)) b limit target 0 0.

(** What is stored in [args->out] for the record at [off]. *)
Definition read_entry (b : list Z) (off : Z) (out : de_read_out) : de_read_out :=
  DeOut (de_inode b off) (de_file_type b off) (de_name_len b off)
    (putb (puts (o_name out) 0 (de_name b off)) (EXT4_NAME_LEN - 1) 0).

Definition read_nothing (out : de_read_out) : de_read_out :=
  DeOut 0 0 0 (putb (o_name out) 0 0).

Section Dentry.
Context `{Env} `{Csum} `{NameiEnv} `{DirNames} `{DirHooks}.

(** [d_find_any_alias], [d_alloc] and [dput]. *)
Definition d_find_any_alias (n : Z) : K fs reply :=
  p <~ call_ptr "d_find_any_alias" [n];;
  (match p with PtrOk => acquire (Ref (RDentry n)) | _ => kret tt end);;;
  kret p.
Definition d_alloc (parent n : Z) : K fs reply :=
  p <~ call_ptr "d_alloc" [parent; n];;
  (match p with PtrOk => acquire (Ref (RDentry n)) | _ => kret tt end);;;
  kret p.
Definition dput (n : Z) : K fs unit := release (Ref (RDentry n)).

(** The hash of the name; a casefolded directory has its own hash function. *)
Definition hash_name (n : Z) : K fs unit :=
  call_int "full_name_hash" [n];;;
  s <~ kget;;
  (if d_casefolded (dctx s n) then call_int "d_hash" [n] else kret 0);;;
  kret tt.

(** [evfs_dentry_add] *)
Definition evfs_dentry_add (parent child : Z) (name : list Z) : K fs Z :=
  let name_len := Z.of_nat (length name) in
  if (name_len =? 0) || (EXT4_NAME_LEN <? name_len) then kret (- EINVAL) else
  dir <~ ext4_iget parent;;
  match dir with
  | PtrErr e => kret e
  | PtrNull => koops
  | PtrOk =>
      inode_lock parent;;;
      let release_pino ret := inode_unlock parent;;; iput parent;;; kret ret in
      let release_pde ret := dput parent;;; release_pino ret in
      let release_cino ret := inode_unlock child;;; iput child;;; release_pde ret in
      let release_cde ret := dput child;;; release_cino ret in
      s <~ kget;;
      if negb (S_ISDIR (i_mode (inode_of s parent))) then release_pino (- ENOTDIR) else
      pd <~ d_find_any_alias parent;;
      match pd with
      | PtrOk =>
          c <~ ext4_iget child;;
          match c with
          | PtrErr e => release_pde e
          | PtrNull => koops
          | PtrOk =>
              inode_lock child;;;
              hash_name parent;;;
              cd <~ d_alloc parent child;;
              match cd with
              | PtrOk =>
                  err <~ call_int "dquot_initialize" [parent];;
                  if negb (err =? 0) then release_cde err else
                  err <~ __ext4_link parent child name;;
                  release_cde err
              | _ => release_cino (- ENOMEM)
              end
          end
      | _ => release_pino (- ENOENT)
      end
  end.

(** [evfs_dentry_read]: the error and the new contents of [args->out]. *)
Definition evfs_dentry_read (n target : Z) (out : de_read_out) : K fs (Z * de_read_out) :=
  dir <~ ext4_iget n;;
  match dir with
  | PtrErr e => kret (e, out)
  | PtrNull => koops
  | PtrOk =>
      acquire (Shared (LInode n));;;
      let dir_check_fail err out := release (Shared (LInode n));;; iput n;;; kret (err, out) in
      s <~ kget;;
      if negb (S_ISDIR (i_mode (inode_of s n))) then dir_check_fail (- ENOTDIR) out else
      bh <~ ext4_bread n 0 false;;
      match bh with
      | PtrErr e => dir_check_fail e out
      | PtrNull => dir_check_fail (- EIO) out
      | PtrOk =>
          let b := dir_block s n 0 in
          let trailing := if ext4_has_metadata_csum (f_sbi s) (f_es s)
                          then sizeof_dir_entry_tail else 0 in
          match find_nth b (s_blocksize (f_sbi s) - trailing) target with
          | None => koops
          | Some (WFound off) => brelse n 0;;; dir_check_fail 0 (read_entry b off out)
          | Some (WEnd _) => brelse n 0;;; dir_check_fail 0 (read_nothing out)
          end
      end
  end.

(** The labels of [evfs_dentry_delete], from the last one up. *)
Definition del_release_pino (n : Z) (parent_dput_called : bool) (ret : Z) : K fs Z :=
  (if parent_dput_called then kret tt else inode_unlock n);;; iput n;;; kret ret.
Definition del_release_pde (n ret : Z) : K fs Z := dput n;;; del_release_pino n true ret.
Definition del_release_cino (n child : Z) (child_dput_called : bool) (ret : Z) : K fs Z :=
  inode_unlock child;;;
  (if child_dput_called then kret tt else iput child);;;
  del_release_pde n ret.
Definition del_release_cde (n child ret : Z) : K fs Z :=
  dput child;;; del_release_cino n child true ret.

(** [evfs_dentry_delete] once the directory is locked and its dentry found. *)
Definition delete_child (n : Z) (name : list Z) : K fs Z :=
  hash_name n;;;
  r <~ ext4_find_entry n name;;
  match r with
  | LErr e => del_release_pde n e
  | LNull => del_release_pde n (- ENOENT)
  | LFound blk de =>
      s <~ kget;;
      let child := de_inode (dir_block s n blk) de in
      brelse n blk;;;
      c <~ ext4_iget child;;
      match c with
      | PtrErr e => del_release_pde n e
      | PtrNull => koops
      | PtrOk =>
          inode_lock child;;;
          err <~ evfs_inode_untrack_nolock child;;
          if err <? 0 then del_release_cino n child false err else
          td <~ d_alloc n child;;
          match td with
          | PtrOk =>
              (* d_add: the dentry takes over the inode reference *)
              release (Ref (RInode child));;;
              err <~ call_int "dquot_initialize" [n];;
              if negb (err =? 0) then del_release_cde n child err else
              err <~ call_int "dquot_initialize" [child];;
              if negb (err =? 0) then del_release_cde n child err else
              err <~ __ext4_unlink n name child;;
              del_release_cde n child err
          | _ => del_release_cino n child false (- ENOMEM)
          end
      end
  end.

(** [evfs_dentry_delete] *)
Definition evfs_dentry_delete (n : Z) (name : list Z) : K fs Z :=
  dir <~ ext4_iget n;;
  match dir with
  | PtrErr e => kret e
  | PtrNull => koops
  | PtrOk =>
      inode_lock n;;;
      s <~ kget;;
      if negb (S_ISDIR (i_mode (inode_of s n))) then del_release_pino n false (- ENOTDIR) else
      pd <~ d_find_any_alias n;;
      match pd with
      | PtrOk => delete_child n name
      | _ => del_release_pino n false (- ENOENT)
      end
  end.

(** [evfs_dentry_update]: the variable it returns is [err], not [ret]; [None] when
    [err] was never assigned. *)
Definition evfs_dentry_update (n target new_ino : Z) : K fs (option Z) :=
  dir <~ ext4_iget n;;
  match dir with
  | PtrErr e => kret (Some e)
  | PtrNull => koops
  | PtrOk =>
      inode_lock n;;;
      let release_pino (err : option Z) := inode_unlock n;;; iput n;;; kret err in
      let stop_journal (ncino ocino : option Z) :=
        err <~ ext4_journal_stop;;
        (match ncino with Some i => iput i | None => kret tt end);;;
        (match ocino with Some i => iput i | None => kret tt end);;;
        release_pino (Some err) in
      let release_bh ncino ocino := brelse n 0;;; stop_journal ncino ocino in
      s <~ kget;;
      if negb (S_ISDIR (i_mode (inode_of s n))) then release_pino None else
      h <~ ext4_journal_start 4;;
      match h with
      | PtrErr e => release_pino None
      | PtrNull => koops
      | PtrOk =>
          bh <~ ext4_bread n 0 false;;
          match bh with
          | PtrOk =>
              err <~ call_int "ext4_journal_get_write_access" [n; 0];;
              if negb (err =? 0) then release_bh None None else
              let b := dir_block s n 0 in
              let trailing := if ext4_has_metadata_csum (f_sbi s) (f_es s)
                              then sizeof_dir_entry_tail else 0 in
              match find_nth b (s_blocksize (f_sbi s) - trailing) target with
              | None => koops
              | Some w =>
                  (* old_ino_num is unsigned: the test for -1 never fails *)
                  let '(old_ino, off) :=
                    match w with
                    | WFound off => (de_inode b off, off)
                    | WEnd off => (u64 (-1), off)
                    end in
                  c <~ ext4_iget new_ino;;
                  match c with
                  | PtrErr e => release_bh None None
                  | PtrNull => koops
                  | PtrOk =>
                      inode_lock new_ino;;;
                      err <~ evfs_inode_inc_nlink new_ino;;
                      if err <? 0 then release_bh (Some new_ino) None else
                      inode_unlock new_ino;;;
                      c <~ ext4_iget old_ino;;
                      match c with
                      | PtrErr e => release_bh (Some new_ino) None
                      | PtrNull => koops
                      | PtrOk =>
                          let release_bh := release_bh (Some new_ino) (Some old_ino) in
                          inode_lock old_ino;;;
                          err <~ evfs_inode_dec_nlink old_ino;;
                          if err <? 0 then release_bh else
                          s <~ kget;;
                          err <~ (if i_nlink (inode_of s old_ino) =? 0 then
                                    err <~ evfs_inode_untrack_nolock old_ino;;
                                    if err <? 0 then kret err
                                    else call_int "ext4_orphan_add" [old_ino];;; kret 0
                                  else kret 0);;
                          if err <? 0 then release_bh else
                          inode_unlock old_ino;;;
                          s <~ kget;;
                          kmodify (set_dir_block n 0 (put32 (dir_block s n 0) off new_ino));;;
                          err <~ ext4_handle_dirty_dirblock n 0;;
                          if negb (err =? 0) then release_bh else
                          ts <~ inode_set_ctime_current n;;
                          inode_set_mtime_to_ts n ts;;;
                          ext4_mark_inode_dirty n;;;
                          release_bh
                      end
                  end
              end
          | _ => stop_journal None None
          end
      end
  end.
End Dentry.

(** ** The walk over the first block *)

Section Walk.
Variable d : dirctx.
Hypothesis Hplain : plain d.
Hypothesis Hpage : d_pagesize d < 65536.

(** With pages below 64k a record length is stored as it is. *)
Lemma rlen_raw b o : de_rec_len b o = rlen_at d b o.
Proof.
  unfold rlen_at, ext4_rec_len_from_disk. destruct (Z.leb_spec 65536 (d_pagesize d)); [lia|done].
Qed.

Lemma walk_chain b lim target os : forall o fuel cnt,
  chain d b o lim os -> lim - o < Z.of_nat fuel -> cnt <= target ->
  dentry_walk fuel b lim target o cnt =
    Some (match filter (fun x => is_live b x) os !! Z.to_nat (target - cnt) with
          | Some x => WFound x | None => WEnd lim
          end).
Proof.
  induction os as [|x os IH]; intros o fuel cnt Hc Hf Hcnt;
    pose proof (chain_le d _ _ _ _ Hc) as Hle; inversion Hc as [|? ? ? Hok Hc']; subst;
    (destruct fuel as [|fuel]; [lia|]); cbn [dentry_walk].
  - destruct (Z.ltb_spec lim lim); [lia|done].
  - pose proof (chain_le d _ _ _ _ Hc') as Hle'. pose proof Hok as (H12 & _).
    destruct (Z.ltb_spec x lim); [|lia]. rewrite rlen_raw.
    destruct (Z.eqb_spec (rlen_at d b x) 0); [lia|].
    rewrite filter_cons. change (is_live b x) with (negb (de_inode b x =? 0)).
    destruct (de_inode b x =? 0); cbn [negb].
    + destruct (decide _) as [[]|]. apply IH; [done|lia|lia].
    + destruct (decide _) as [_|[]]; [|done]. destruct (Z.eqb_spec cnt target) as [->|].
      * by rewrite Z.sub_diag.
      * rewrite IH by (done || lia).
        by replace (Z.to_nat (target - cnt)) with (S (Z.to_nat (target - (cnt + 1)))) by lia.
Qed.

(** The record the walk finds is the [target]-th live entry. *)
Lemma find_nth_live b os target :
  chain d b 0 (dir_limit d) os -> 0 <= dir_limit d -> 0 <= target ->
  find_nth b (dir_limit d) target =
    Some (match filter (fun x => is_live b x) os !! Z.to_nat target with
          | Some x => WFound x | None => WEnd (dir_limit d)
          end).
Proof.
  intros Hc Hl Ht. unfold find_nth. rewrite (walk_chain b (dir_limit d) target os) by (done || lia).
  by rewrite Z.sub_0_r.
Qed.
End Walk.


(** ** Deleting never unlocks the directory *)

(** The other directory formats do not unlock the directory either. *)
Class HooksKeep `{DirHooks} := {
  keep_find_inline l n f : keeps (Excl (LInode l)) (ext4_find_inline_entry n f);
  keep_delete_inline l n b x : keeps (Excl (LInode l)) (ext4_delete_inline_entry n b x);
  keep_dx_find l n f : keeps (Excl (LInode l)) (ext4_dx_find_entry n f)
}.
#[export] Hint Resolve keep_find_inline keep_delete_inline keep_dx_find : keepsdb.

Section DeleteLock.
Context `{Env} `{Csum} `{NameiEnv} `{DirNames} `{HooksKeep}.
Variable l : Z.
Abbreviation r := (Excl (LInode l)).

Lemma keeps_bit_wrapper op nr : keeps r (evfs_bit_wrapper op nr).
Proof. unfold evfs_bit_wrapper, evfs_bm_alloc, apply_bitop. keeps_auto. Qed.

Lemma keeps_brelse_slots n ra : forall block, keeps r (brelse_slots n block ra).
Proof. induction ra as [|[] ra IH]; simpl; intros; unfold brelse, dbh; keeps_auto; auto. Qed.

Lemma keeps_bread_slots cnt : forall n block, keeps r (bread_slots cnt n block).
Proof. induction cnt as [|cnt IH]; simpl; intros; keeps_auto; auto. Qed.
Hint Resolve keeps_bit_wrapper keeps_brelse_slots keeps_bread_slots : keepsdb.

Lemma keeps_find_pass fuel : forall n fname start nblocks block ra,
  keeps r (find_pass fuel n fname start nblocks block ra).
Proof.
  induction fuel as [|fuel IH]; intros; cbn [find_pass]; [apply keeps_oops|].
  unfold ext4_bread_batch, brelse, dbh. keeps_auto; auto.
Qed.
Hint Resolve keeps_find_pass : keepsdb.

Lemma keeps_find_restart p : forall n fname start nblocks block ra,
  keeps r (find_restart p n fname start nblocks block ra).
Proof. induction p as [|p IH]; intros; cbn [find_restart]; keeps_auto; auto. Qed.
Hint Resolve keeps_find_restart : keepsdb.

Lemma keeps_find_entry n name : keeps r (ext4_find_entry n name).
Proof.
  unfold ext4_find_entry, __ext4_find_entry, find_linear, ext4_fname_setup_filename,
    ext4_fname_setup_ci_filename. keeps_auto.
Qed.
Hint Resolve keeps_find_entry : keepsdb.

Lemma keeps_unlink n name child : keeps r (__ext4_unlink n name child).
Proof.
  unfold __ext4_unlink, ext4_delete_entry, ext4_handle_dirty_dirblock, inode_set_ctime_current,
    inode_set_mtime_to_ts, current_time, drop_nlink, ext4_mark_inode_dirty, ext4_journal_start,
    ext4_journal_stop, brelse, dbh. keeps_auto.
Qed.
Hint Resolve keeps_unlink : keepsdb.

Lemma keeps_delete_child name : keeps r (delete_child l name).
Proof.
  unfold delete_child, del_release_cde, del_release_cino, del_release_pde, del_release_pino,
    hash_name, evfs_inode_untrack_nolock, tracker_op, d_alloc, dput, iput, brelse, dbh, ext4_iget,
    inode_lock, inode_unlock.
  repeat first
    [ match goal with
      | |- keeps _ (kbind (acquire (Excl (LInode _))) _) =>
          eapply keeps_lock; [reflexivity|intros ? ?]
      | |- keeps _ (release (Excl (LInode _))) => apply keeps_release; congruence
      end
    | keeps_step | solve [eauto with keepsdb] | progress cbv zeta ].
Qed.

(** C39: once [evfs_dentry_delete] has found the directory and its dentry, no path
    through the handler unlocks the directory: whatever it answers, the directory's
    lock is still held when it returns, so the next operation on the directory by
    anyone waits forever. *)
Theorem dentry_delete_leaves_locked name w ret w' :
  env_ptr (w_calls w) "ext4_iget" [l] = PtrOk ->
  env_ptr (("ext4_iget", [l]) :: w_calls w) "d_find_any_alias" [l] = PtrOk ->
  S_ISDIR (i_mode (inode_of (w_st w) l)) = true ->
  evfs_dentry_delete l name w = Ret ret w' -> r ∈ w_held w'.
Proof.
  intros Hi Hd Hdir. unfold evfs_dentry_delete, ext4_iget, d_find_any_alias, inode_lock, kbind,
    call_ptr, kret, kget, acquire, take_res.
  rewrite Hi. cbn [w_held w_st w_calls existsb]. rewrite existsb_ref. cbn [w_held w_st w_calls].
  destruct (existsb _ _); [done|]. cbn [w_held w_st w_calls]. rewrite Hdir.
  cbn [negb w_held w_st w_calls]. rewrite Hd, existsb_ref. intros Hr. eapply keeps_delete_child; [exact Hr|]. simpl. set_solver.
Qed.
End DeleteLock.

(** ** Adding *)

(** A failure that left the state as it was. *)
Ltac fail_same :=
  eexists _, _; split; [reflexivity|]; split; [by intros ? ? ?|]; right; split; [done || lia|done].

Section AddTheorems.
Context `{EnvFs} `{Csum} `{NameiEnv} `{DirNamesOk} `{DirHooks}.

(** C22: [evfs_dentry_add] of a child other than the directory (which would wait for its own
    lock) on a well-formed linear directory: no index (the feature dir_index is off), no inline
    data, no holes, names that are neither encrypted nor casefolded.  The journal accepts every
    buffer and inode, no more than three retries are asked for, the locks are free and the
    child's number is one of the file system.  Then on every other answer, an allocation that
    fails among them, it returns with every lock, dentry, inode reference and handle given back.
    On success the directory holds exactly one more entry, with the given name, inode and
    file type, and the child has one more link; on an error the entries and the link
    count are as before.  No other inode is touched. *)
Theorem dentry_add_correct parent child name s held calls ess :
  let fname := Filename name name None 0 0 in
  linear parent s ess -> bytes_ok name -> child <> parent ->
  0 < child < 2 ^ 32 -> child <= s_inodes_count (f_es s) ->
  0 <= i_nlink (inode_of s child) < 2 ^ 32 ->
  journal_calm -> no_holes -> retry_bounded ->
  existsb (blocks_on (Excl (LInode parent))) held = false ->
  existsb (blocks_on (Excl (LInode child))) held = false ->
  exists ret s' calls',
    evfs_dentry_add parent child name (World s held calls) = Ret ret (World s' held calls') /\
    only2 parent child s s' /\
    (ret = 0 /\ (exists ess', linear parent s' ess' /\
       added (new_dent (dctx s parent) child (i_mode (inode_of s child)) fname) ess ess') /\
       i_nlink (inode_of s' child) = u32 (i_nlink (inode_of s child) + 1) \/
     ret <> 0 /\ linear parent s' ess /\
       i_nlink (inode_of s' child) = i_nlink (inode_of s child)).
Proof.
  intros fname Hl Hbn Hne Hch Hm Hlk Hcalm Hholes Hretry Hp Hc.
  eassert (Hwp : wp (evfs_dentry_add parent child name) (fun ret w' => exists s' calls',
    w' = World s' held calls' /\ only2 parent child s s' /\
    (ret = 0 /\ (exists ess', linear parent s' ess' /\
       added (new_dent (dctx s parent) child (i_mode (inode_of s child)) fname) ess ess') /\
       i_nlink (inode_of s' child) = u32 (i_nlink (inode_of s child) + 1) \/
     ret <> 0 /\ linear parent s' ess /\
       i_nlink (inode_of s' child) = i_nlink (inode_of s child))) (World s held calls)).
  2: { apply wp_run in Hwp as (ret & w' & Hr & s' & calls' & -> & Hpost). by exists ret, s', calls'. }
  unfold evfs_dentry_add, inode_lock, inode_unlock, d_find_any_alias, d_alloc, dput, hash_name.
  destruct (_ || _) eqn:Hlen; [wp_step; fail_same|]. reflect_bools.
  wp_step. apply wp_iget; [intros calls1|intros e calls1 He; wp_step; fail_same].
  unfold iput. do 4 wp_step.
  destruct (negb _); [repeat wp_step; fail_same|].
  do 2 wp_step. apply wp_call_ptr; intros pd _. cbn [w_held w_st w_calls].
  destruct pd; [|repeat wp_step; fail_same..].
  repeat wp_step. apply wp_iget; [intros calls2|intros e calls2 He; repeat wp_step; fail_same].
  wp_step. apply wp_acquire.
  { held_simpl. destruct (Z.eqb_spec child parent); [done|exact Hc]. }
  repeat wp_step.
  assert (Hplain := lin_plain _ _ _ Hl). rewrite (proj1 Hplain).
  do 4 wp_step. apply wp_call_ptr; intros cd _. cbn [w_held w_st w_calls].
  destruct cd; [|repeat wp_step; fail_same..].
  do 4 wp_step. apply wp_call_int; intros err _. cbn [w_held w_st w_calls].
  destruct (Z.eqb_spec err 0) as [_|]; cbn [negb]; [|repeat wp_step; fail_same].
  wp_step. unfold __ext4_link.
  eapply (wp_link_loop Hcalm Hholes parent child name s _ ess); try done.
  - split; [done|]. unfold EXT4_NAME_LEN in *. cbn [disk_name]. lia.
  - intros err' s' calls' Hne0 Hl' [Hk _] Ho. repeat wp_step. eexists _, _. split; [reflexivity|].
    split; [done|]. right. rewrite Hk, Z.add_0_r, u32_small by lia. done.
  - intros err' s' ess' calls' Hl' Hadd [Hk _] Ho ->. repeat wp_step. eexists _, _. split; [reflexivity|].
    split; [done|]. left. rewrite Hk. split; [done|]. split; [by exists ess'|done].
  - split; [|done]. rewrite Z.add_0_r, u32_small by lia. done.
Qed.
End AddTheorems.

(** ** Adding a directory to itself *)

Section SelfAdd.
Context `{Env} `{Csum} `{NameiEnv} `{DirNames} `{DirHooks}.

(** Adding an entry for a directory inside itself: the handler locks the parent,
    then the child, which is the same inode, and waits for itself forever with the
    directory locked. *)
Theorem dentry_add_self_deadlocks n name s held calls :
  1 <= Z.of_nat (length name) <= EXT4_NAME_LEN ->
  S_ISDIR (i_mode (inode_of s n)) = true ->
  (forall h a, env_ptr h "ext4_iget" a = PtrOk) ->
  (forall h a, env_ptr h "d_find_any_alias" a = PtrOk) ->
  evfs_dentry_add n n name (World s held calls) = Deadlock.
Proof.
  intros Hlen Hdir Hi Hd. unfold evfs_dentry_add.
  destruct (Z.eqb_spec (Z.of_nat (length name)) 0); [lia|].
  destruct (Z.ltb_spec EXT4_NAME_LEN (Z.of_nat (length name))); [lia|]. cbn [orb].
  unfold ext4_iget, d_find_any_alias, inode_lock, kbind, call_ptr, kret, kget, acquire, take_res.
  rewrite Hi. cbn [w_held w_st w_calls]. rewrite existsb_ref. cbn [w_held w_st w_calls].
  destruct (existsb _ _); [done|]. cbn [w_held w_st w_calls]. rewrite Hdir. cbn [negb].
  rewrite Hd, existsb_ref. cbn [w_held w_st w_calls]. rewrite Hi, existsb_ref.
  held_simpl. done.
Qed.
End SelfAdd.

(** ** Reading *)

Section ReadTheorems.
Context `{EnvFs} `{Csum} `{NameiEnv} `{DirNames} `{DirHooks}.

(** What the caller sees of entry [e]: the name is cut after 254 bytes. *)
Definition reported (e : dent) (out : de_read_out) : Prop :=
  o_ino_num out = e_ino e /\ o_file_type out = e_type e /\
  o_name_len out = Z.of_nat (length (e_name e)) /\
  gets (o_name out) 0 (Nat.min (length (e_name e)) 254) = take 254 (e_name e) /\
  getb (o_name out) 254 = 0.

Lemma getb_nth l k : (k < length l)%nat -> getb l (Z.of_nat k) = nth k l 0.
Proof. intros. unfold getb. destruct (Z.ltb_spec (Z.of_nat k) 0); [lia|]. by rewrite Nat2Z.id. Qed.

(** The name as it is stored in the answer. *)
Lemma stored_name nm buf :
  bytes_ok nm -> (length nm <= 255)%nat -> length buf = 255%nat ->
  let buf' := putb (puts buf 0 nm) (EXT4_NAME_LEN - 1) 0 in
  gets buf' 0 (Nat.min (length nm) 254) = take 254 nm /\ getb buf' 254 = 0.
Proof.
  intros Hnm Hl Hbuf buf'. unfold EXT4_NAME_LEN in buf'. split.
  - assert (Hg : gets buf' 0 (Nat.min (length nm) 254) =
                 gets (puts buf 0 nm) 0 (Nat.min (length nm) 254)).
    { apply gets_ext. intros i Hi. unfold buf'. apply getb_putb_ne. lia. }
    rewrite Hg. apply list_eq. intros k. unfold gets. rewrite list_lookup_fmap, lookup_take.
    destruct (decide (k < Nat.min (length nm) 254)%nat) as [Hk|Hk].
    + rewrite lookup_seq_lt by done. simpl. destruct (decide (k < 254)%nat); [|lia].
      destruct (lookup_lt_is_Some_2 nm k) as [x Hx]; [lia|]. rewrite Hx.
      rewrite (getb_puts_in nm buf 0 k) by lia. f_equal.
      rewrite nth_lookup, Hx. apply u8_small.
      unfold bytes_ok in Hnm. by eapply Forall_lookup in Hnm.
    + rewrite lookup_seq_ge by lia. simpl. destruct (decide _); [|done].
      symmetry. apply lookup_ge_None. lia.
  - unfold buf'. rewrite getb_putb, Z.eqb_refl by (autorewrite with len; lia). done.
Qed.

Lemma bytes_ok_gets b off n : bytes_ok b -> bytes_ok (gets b off n).
Proof.
  intros Hb. unfold gets. apply Forall_fmap, Forall_true. intros k. simpl. by apply getb_range.
Qed.

Lemma reported_entry b x out :
  bytes_ok b -> length (o_name out) = 255%nat -> reported (ent b x) (read_entry b x out).
Proof.
  intros Hb Hlen. pose proof (name_len_range b x Hb) as Hn.
  assert (Hln : length (de_name b x) = Z.to_nat (de_name_len b x)) by apply length_gets.
  unfold reported, ent, read_entry. cbn [o_ino_num o_file_type o_name_len o_name e_ino e_type e_name].
  destruct (stored_name (de_name b x) (o_name out)) as [Hg H0'];
    [by apply bytes_ok_gets|lia|done|].
  split_and!; [done|done|lia|done|done].
Qed.

(** C24: [evfs_dentry_read] of index [target] either fails without touching the answer,
    or reports the [target]-th live entry of the directory's first block, and zeroes
    when there are not that many; the file system is not changed and the lock, the
    buffer and the inode reference are given back.  A name of 255 bytes loses its
    last byte, and entries of other blocks are never reported. *)
Theorem dentry_read_nth n target out s held calls os :
  let d := dctx s n in
  let b := dir_block s n 0 in
  plain d -> dir_geometry d -> d_pagesize d < 65536 -> dirblock d b os ->
  0 <= target -> length (o_name out) = 255%nat ->
  existsb (blocks_on (Shared (LInode n))) held = false ->
  exists err out' calls',
    evfs_dentry_read n target out (World s held calls) = Ret (err, out') (World s held calls') /\
    (err < 0 /\ out' = out \/
     err = 0 /\ match live b os !! Z.to_nat target with
                | Some e => reported e out'
                | None => o_ino_num out' = 0 /\ o_file_type out' = 0 /\ o_name_len out' = 0
                end).
Proof.
  intros d b Hp Hg Hpage Hdb Ht Hlen Hlock.
  assert (Hwp : wp (evfs_dentry_read n target out) (fun r w' => exists calls',
    w' = World s held calls' /\
    (r.1 < 0 /\ r.2 = out \/
     r.1 = 0 /\ match live b os !! Z.to_nat target with
                | Some e => reported e r.2
                | None => o_ino_num r.2 = 0 /\ o_file_type r.2 = 0 /\ o_name_len r.2 = 0
                end)) (World s held calls)).
  2: { apply wp_run in Hwp as ([err out'] & w' & Hr & calls' & -> & Hpost). by exists err, out', calls'. }
  unfold evfs_dentry_read, ext4_bread, brelse, dbh, iput. wp_step.
  apply wp_iget; [intros calls1|intros e calls1 He; wp_step; eexists; split; [done|]; left; by split; [simpl; lia|]].
  do 4 wp_step.
  destruct (negb _); [repeat wp_step; eexists; split; [done|]; by left|].
  do 3 wp_step. destruct (env_ptr _ _ _) as [|e|] eqn:He in Hc; subst r.
  - repeat (wp_step; cbv iota). pose proof Hdb as (Hbb & Hl & Hch & _).
    pose proof (dir_limit_bounds d Hg) as (_ & Hl12 & _).
    change (find_nth (dir_block s n 0) _ target) with (find_nth b (dir_limit d) target).
    rewrite (find_nth_live d Hpage b os) by (done || lia).
    unfold live. rewrite list_lookup_fmap.
    destruct (filter _ os !! Z.to_nat target) as [x|]; repeat wp_step; eexists; (split; [done|]);
      right; (split; [done|]); simpl; [by apply reported_entry|done].
  - repeat wp_step. apply fs_errno in He. eexists; split; [done|]. left. by split; [simpl; lia|].
  - repeat wp_step. eexists; split; [done|]. by left.
Qed.
End ReadTheorems.

(** ** Updating *)

Section UpdateTheorems.
Context `{Env} `{Csum} `{NameiEnv} `{DirNames} `{DirHooks}.

(** A directory whose first block is well formed, on a machine with small pages. *)
Record update_ready (n : Z) (s : fs) (held : list res) (os : list Z) : Prop := {
  up_plain : plain (dctx s n);
  up_geo : dir_geometry (dctx s n);
  up_page : d_pagesize (dctx s n) < 65536;
  up_block : dirblock (dctx s n) (dir_block s n 0) os;
  up_nonempty : (0 < length (i_dir (inode_of s n)))%nat;
  up_dir : S_ISDIR (i_mode (inode_of s n)) = true;
  up_unlocked : forall m, existsb (blocks_on (Excl (LInode m))) held = false
}.

(** Symbolic execution when nothing fails and the locks are free. *)
Hypothesis Hint : forall h f a, env_int h f a = 0.
Ltac answer Hc :=
  match goal with
  | Hp : forall h f a, env_ptr h f a = PtrOk |- _ => rewrite Hp in Hc
  | Hp : forall h, env_ptr h _ _ = PtrErr _ |- _ => rewrite Hp in Hc
  | Hp : forall k, _ -> forall h f, env_ptr h f [k] = PtrOk |- _ => rewrite Hp in Hc by lia
  | Hp : forall h f a, a <> _ -> env_ptr h f a = PtrOk |- _ => rewrite Hp in Hc by done
  end.
Ltac quiet_step :=
  first
    [ lazymatch goal with Hl : forall m, existsb _ _ = false |- wp (acquire (Excl _)) _ _ =>
        apply wp_acquire; [held_simpl; rewrite ?Hl; repeat case_cmp; (done || congruence)|] end;
      cbn [w_held w_st w_calls]
    | wp_step
    | eapply wp_release; [held_simpl; repeat (case_cmp; [congruence|]); reflexivity|];
      cbn [w_held w_st w_calls] ];
  repeat match goal with
  | Hc : env_int _ _ _ = ?z |- _ => rewrite Hint in Hc; subst z
  | Hc : env_ptr _ _ _ = ?z |- _ => is_var z; answer Hc; subst z
  end;
  cbv iota; cbn [Z.eqb Z.ltb Z.compare negb].

(** The last link of the old inode: it leaves the tracker and goes to the orphans. *)
Record left_tracker (old : Z) (s s' : fs) (calls : list call) : Prop := {
  lt_only : s' = set_tracker (f_tracker s') s;
  lt_tracked : forall k, 0 <= k -> is_tracked s' k =
    if (i_nlink (inode_of s old) =? 0) && (k =? old) then false else is_tracked s k;
  lt_orphan : i_nlink (inode_of s old) = 0 -> ("ext4_orphan_add"%string, [old]) ∈ calls
}.

Lemma wp_last_link old s held calls (Q : Z -> world fs -> Prop) :
  (forall h f a, env_ptr h f a = PtrOk) -> 0 <= old ->
  (i_nlink (inode_of s old) = 0 -> tracker_ok s /\ trackable s old /\ no_tracker_lock held) ->
  (forall s' calls', left_tracker old s s' calls' -> Q 0 (World s' held calls')) ->
  wp (if i_nlink (inode_of s old) =? 0 then
        err <~ evfs_inode_untrack_nolock old;;
        if err <? 0 then kret err else call_int "ext4_orphan_add" [old];;; kret 0
      else kret 0) Q (World s held calls).
Proof.
  intros Hptr Hold Hlast HQ. assert (Henv : EnvFs).
  { split; intros; [congruence|by rewrite Hptr]. }
  destruct (Z.eqb_spec (i_nlink (inode_of s old)) 0) as [E|E].
  2: { wp_step. apply HQ. split; [by destruct s|by rewrite (proj2 (Z.eqb_neq _ _) E)|done]. }
  destruct (Hlast E) as (Htok & Htr & Hul). wp_step. unfold evfs_inode_untrack_nolock.
  apply (wp_tracker_op TrkClear); [done..|by intros h a| |].
  - intros e c He Hnt. done.
  - intros s' c _ (t' & -> & _ & Ht). cbn [trk_ret Z.ltb Z.compare]. do 3 wp_step. apply HQ. split; [done| |].
    + intros k Hk. rewrite Ht by done. by rewrite E.
    + intros _. by left.
Qed.

(** The block after the inode number of the record at [x] was changed and its checksum set. *)
Lemma redirected_block n target new_ino s s2 s5 os x :
  let d := dctx s n in
  let b := dir_block s n 0 in
  plain d -> dir_geometry d -> dirblock d b os -> (0 < length (i_dir (inode_of s n)))%nat ->
  filter (fun o => is_live b o) os !! Z.to_nat target = Some x -> 0 < new_ino < 2 ^ 32 ->
  new_ino <= s_inodes_count (f_es s) ->
  dir_same n s s2 ->
  let s3 := set_dir_block n 0 (put32 b x new_ino) s2 in
  dir_same n (set_dir_block n 0 (ext4_dirblock_csum_set d (put32 b x new_ino)) s3) s5 ->
  let b' := dir_block s5 n 0 in
  dirblock (dctx s5 n) b' os /\
  live b' os = <[Z.to_nat target := Dent (de_name b x) new_ino (de_file_type b x)]> (live b os) /\
  ext4_dirblock_csum_verify (dctx s5 n) b' = true.
Proof.
  intros d b Hp Hg Hdb Hne Hx Hnew Hmax (_ & _ & Ed2 & _ & Edir & _) s3 (_ & _ & Ed5 & _ & Edir5 & _).
  destruct (dir_block_set n 0 (put32 b x new_ino) s2) as [_ El3]; [rewrite Edir; lia|]. fold s3 in El3.
  pose proof (dctx_set_block n 0 (put32 b x new_ino) s2) as Ed3. fold s3 in Ed3.
  set (b4 := ext4_dirblock_csum_set d (put32 b x new_ino)) in *.
  destruct (dir_block_set n 0 b4 s3) as [Eb4 _]; [rewrite El3, Edir; lia|].
  pose proof (dctx_set_block n 0 b4 s3) as Ed4. set (s4 := set_dir_block n 0 b4 s3) in *.
  assert (Eb5 : dir_block s5 n 0 = b4) by (rewrite <- Eb4; unfold dir_block; by rewrite Edir5).
  destruct (live_split b os (Z.to_nat target) x Hx) as (os1 & os2 & -> & Hlive & Hk).
  destruct (redirect_dirblock d Hp Hg b os1 x os2 new_ino) as [Hdb' Hlv']; try done.
  destruct (csum_set_dirblock d Hp Hg _ _ Hdb') as (Hdb'' & Hlv'' & Hver & _). fold b4 in Hdb'', Hlv'', Hver.
  cbv zeta. rewrite Ed5, Ed4, Ed3, Ed2, Eb5, Hlv'', Hlv'. split_and!; [done| |done].
  rewrite live_app, live_cons, Hlive, <- Hk. rewrite insert_app_r_alt, Nat.sub_diag by lia. done.
Qed.

(** C23: [evfs_dentry_update] when every call outside succeeds, on a well-formed first block:
    it redirects exactly the [target]-th live entry of that block to the new inode: name and
    file type of the entry and all other entries stay, the block's checksum verifies, the new
    inode gains the link the old one loses, and everything taken is given back.  An old inode
    that loses its last link is not tracked any more and is put on the list of orphans; no
    other number leaves or enters the tracker.  The directory, the old and the new inode are
    three different ones (the handler would lock one of them twice), the locks are free, the
    new number is one of the file system, the old inode has a link, and if it is its last the
    tracker is well formed and covers its number. *)
Theorem dentry_update_redirects n target new_ino s held calls os x :
  let b := dir_block s n 0 in
  let old := de_inode b x in
  update_ready n s held os ->
  (forall h f a, env_ptr h f a = PtrOk) ->
  0 <= target -> filter (fun o => is_live b o) os !! Z.to_nat target = Some x ->
  0 < new_ino < 2 ^ 32 -> new_ino <= s_inodes_count (f_es s) ->
  new_ino <> n -> old <> n -> old <> new_ino -> 1 <= i_nlink (inode_of s old) < 2 ^ 32 ->
  (i_nlink (inode_of s old) = 1 -> tracker_ok s /\ trackable s old /\ no_tracker_lock held) ->
  exists s' calls',
    evfs_dentry_update n target new_ino (World s held calls) = Ret (Some 0) (World s' held calls') /\
    (let b' := dir_block s' n 0 in
     dirblock (dctx s' n) b' os /\
     live b' os = <[Z.to_nat target := Dent (de_name b x) new_ino (de_file_type b x)]> (live b os) /\
     ext4_dirblock_csum_verify (dctx s' n) b' = true) /\
    i_nlink (inode_of s' new_ino) = u32 (i_nlink (inode_of s new_ino) + 1) /\
    i_nlink (inode_of s' old) = i_nlink (inode_of s old) - 1 /\
    (forall k, 0 <= k -> is_tracked s' k =
       if (i_nlink (inode_of s old) =? 1) && (k =? old) then false else is_tracked s k) /\
    (i_nlink (inode_of s old) = 1 -> ("ext4_orphan_add"%string, [old]) ∈ calls').
Proof.
  intros b old [Hp Hg Hpage Hdb Hne Hdir Hlock] Hptr Ht Hx Hnew Hmax Hnn Hon Hoo Hlk Hlast.
  match goal with |- exists s' calls', _ = _ /\ @?P s' calls' =>
    assert (Hwp : wp (evfs_dentry_update n target new_ino) (fun r w' => exists s' calls',
      r = Some 0 /\ w' = World s' held calls' /\ P s' calls') (World s held calls)) end.
  2: { apply wp_run in Hwp as (r & w' & Hr & s' & calls' & -> & -> & Hpost). by exists s', calls'. }
  unfold evfs_dentry_update, ext4_iget, ext4_bread, ext4_journal_start, ext4_journal_stop,
    evfs_inode_inc_nlink, evfs_inode_dec_nlink, inc_nlink, drop_nlink, ext4_mark_inode_dirty,
    ext4_handle_dirty_dirblock, inode_set_ctime_current, inode_set_mtime_to_ts, current_time,
    inode_lock, inode_unlock, iput, brelse, dbh.
  repeat quiet_step.
  rewrite Hdir. cbn [negb]. repeat quiet_step.
  change (find_nth (dir_block s n 0) _ target) with (find_nth b (dir_limit (dctx s n)) target).
  pose proof (dir_limit_bounds _ Hg) as (_ & Hl12 & _). pose proof Hdb as (_ & _ & Hch & _).
  rewrite (find_nth_live _ Hpage b os) by (done || lia). rewrite Hx. fold b old.
  repeat quiet_step.
  set (s2 := upd_inode old _ _).
  assert (Hs2 : dir_same n s s2).
  { eapply dir_same_trans; [|by apply dir_same_other]. by apply dir_same_other. }
  assert (Hlk2 : i_nlink (inode_of s2 old) = i_nlink (inode_of s old) - 1).
  { unfold s2. rewrite inode_of_upd_eq, inode_of_upd_ne by done. apply u32_small. lia. }
  assert (Hnew2 : i_nlink (inode_of s2 new_ino) = u32 (i_nlink (inode_of s new_ino) + 1)).
  { unfold s2. by rewrite inode_of_upd_ne, inode_of_upd_eq by done. }
  assert (Htr2 : f_tracker s2 = f_tracker s) by done. clearbody s2.
  assert (Hold : 0 <= old) by (apply get32_range; by destruct Hdb).
  apply wp_last_link; [done|done| |].
  { rewrite Hlk2. intros E. destruct Hlast as (Htok & Htr & Hul); [lia|]. unfold tracker_ok, trackable. by rewrite Htr2. }
  intros s3 calls3 [Es3 Htr3 Horph].
  assert (Hs3 : dir_same n s s3 /\ others n s2 s3) by (by rewrite Es3). clear Es3. destruct Hs3 as [Hs3 Ho3].
  pose proof Hs3 as (_ & _ & Ed3 & _ & Edir3 & _).
  assert (Eb3 : dir_block s3 n 0 = b) by (unfold b, dir_block; by rewrite Edir3).
  cbn [Z.ltb Z.compare]. repeat quiet_step. rewrite Eb3. set (s4 := set_dir_block n 0 (put32 b x new_ino) s3).
  destruct (dir_block_set n 0 (put32 b x new_ino) s3) as [Eb4 _]; [rewrite Edir3; lia|]. fold s4 in Eb4.
  pose proof (dctx_set_block n 0 (put32 b x new_ino) s3) as Ed4. fold s4 in Ed4. rewrite Eb4, Ed4, Ed3.
  set (s5 := set_dir_block n 0 _ s4).
  match goal with |- context [World ?y held _] => set (s6 := y) end.
  assert (Hs6 : dir_same n s5 s6 /\ others n s3 s6 /\ forall k, is_tracked s6 k = is_tracked s3 k).
  { split_and!; [eapply dir_same_trans; [|apply meta_same, meta_times]; apply meta_same, meta_times| |done].
    do 3 (eapply others_trans; [|apply others_upd]). apply others_upd. }
  clearbody s6. destruct Hs6 as (Hs6 & Ho6 & Htr6). eexists _, _. split; [done|]. split; [done|]. split.
  { by apply (redirected_block n target new_ino s s3 s6 os x). }
  split_and!.
  - by rewrite Ho6, Ho3, Hnew2.
  - by rewrite Ho6, Ho3, Hlk2.
  - intros k Hk. rewrite Htr6, Htr3, Hlk2 by done.
    replace (i_nlink (inode_of s old) - 1 =? 0) with (i_nlink (inode_of s old) =? 1); [|repeat case_cmp; lia].
    unfold is_tracked. by rewrite Htr2.
  - intros E. rewrite Hlk2 in Horph. repeat first [exact (Horph ltac:(lia)) | apply list_elem_of_further].
Qed.

(** The inode number the handler looks up when it did not find the entry. *)
Definition NO_INO : Z := u64 (-1).

(** An index beyond the last entry of the block is not rejected, because the number
    kept for "not found" is unsigned and the test for it never fails.  The new inode
    gains a link no entry accounts for, the lookup of inode 2^64 - 1 fails, and the
    failure is lost: the handler answers 0 without having changed the directory. *)
Theorem dentry_update_missing_succeeds n target new_ino s held calls os e :
  update_ready n s held os -> Z.of_nat (length (live (dir_block s n 0) os)) <= target ->
  0 <= n < 2 ^ 32 -> 0 < new_ino < 2 ^ 32 -> new_ino <> n ->
  (forall h, env_ptr h "ext4_iget" [NO_INO] = PtrErr e) ->
  (forall h f a, a <> [NO_INO] -> env_ptr h f a = PtrOk) ->
  exists calls',
    evfs_dentry_update n target new_ino (World s held calls) =
      Ret (Some 0) (World (upd_inode new_ino
        (fun i => set_nlink (u32 (i_nlink i + 1)) i) s) held calls').
Proof.
  intros [Hp Hg Hpage Hdb Hne Hdir Hlock] Ht Hn Hnew Hnn Hbad Hptr.
  assert (Hwp : wp (evfs_dentry_update n target new_ino) (fun r w' => exists calls',
    r = Some 0 /\ w' = World (upd_inode new_ino (fun i => set_nlink (u32 (i_nlink i + 1)) i) s)
      held calls') (World s held calls)).
  2: { apply wp_run in Hwp as (r & w' & Hr & calls' & -> & ->). by exists calls'. }
  assert (Hsmall : forall k, 0 <= k < 2 ^ 32 -> forall h f, env_ptr h f [k] = PtrOk).
  { intros k Hk h f. apply Hptr. unfold NO_INO. change (u64 (-1)) with 18446744073709551615.
    intros [= ->]. lia. }
  unfold evfs_dentry_update, ext4_iget, ext4_bread, ext4_journal_start, ext4_journal_stop,
    evfs_inode_inc_nlink, inc_nlink, ext4_mark_inode_dirty,
    inode_lock, inode_unlock, iput, brelse, dbh.
  repeat quiet_step. rewrite Hdir. cbn [negb]. repeat quiet_step.
  change (find_nth (dir_block s n 0) _ target)
    with (find_nth (dir_block s n 0) (dir_limit (dctx s n)) target).
  pose proof (dir_limit_bounds _ Hg) as (_ & Hl12 & _). pose proof Hdb as (_ & _ & Hch & _).
  rewrite (find_nth_live _ Hpage _ os) by (done || lia).
  rewrite lookup_ge_None_2 by (unfold live in Ht; rewrite length_fmap in Ht; lia).
  fold NO_INO. repeat quiet_step. by eexists.
Qed.
End UpdateTheorems.
