(* ===== verification/DxHooks.v ===== *)
(** * The hash tree behind the directory code

    The interfaces the directory code states about the other two directory formats,
    discharged for the hash tree of Dx.v: its lookup never gives up an inode lock of the
    caller ([HooksKeep], which the theorem on [evfs_dentry_delete] asks for), adding a name
    to it changes no link count ([HooksLinks], for the creations of DirOps.v), and
    [__ext4_find_entry] of a hash-tree directory is the lookup in the tree. *)

From stdpp Require Import prelude list gmap strings.
From Stdlib Require Import ZArith Lia.
From S2P Require Import Prelude Kernel Bytes Layout Fs Inode Dirent DxBlock Namei Dx DxLookup DxTree Dentry NameiSpec Mkdir MkdirSpec DirOps.

Local Open Scope Z_scope.

(** What the inline directories of inline.c promise. *)
Class InlineKeep `{InlineDir} := {
  keep_inline_find l n f : keeps (Excl (LInode l)) (find_inline_entry n f);
  keep_inline_delete l n b x : keeps (Excl (LInode l)) (delete_inline_entry n b x)
}.

Section Keep.
Context `{Env} `{Csum} `{NameiEnv} `{DirNames}.
Variable l : Z.
Abbreviation r := (Excl (LInode l)).

Lemma keeps_release_frames n fl : keeps r (release_frames n fl).
Proof. induction fl; simpl; unfold brelse, dbh; keeps_auto. Qed.
Lemma keeps_read_dirblock n blk t : keeps r (__ext4_read_dirblock n blk t).
Proof. unfold __ext4_read_dirblock, ext4_bread, brelse, dbh. keeps_auto. Qed.
Hint Resolve keeps_release_frames keeps_read_dirblock : keepsdb.

Lemma keeps_probe_loop n hash k : forall blk entries above blocks,
  keeps r (probe_loop k n hash blk entries above blocks).
Proof. induction k as [|k IH]; intros; cbn [probe_loop]; keeps_auto; auto. Qed.
Hint Resolve keeps_probe_loop : keepsdb.

Lemma keeps_dx_probe n fname hinfo : keeps r (dx_probe n fname hinfo).
Proof. unfold dx_probe, brelse, dbh. keeps_auto. Qed.

Lemma keeps_next_down n k : forall i frames, keeps r (next_down k n i frames).
Proof. induction k as [|k IH]; intros; cbn [next_down]; unfold brelse, dbh; keeps_auto; auto. Qed.
Hint Resolve keeps_dx_probe keeps_next_down : keepsdb.

Lemma keeps_next_block n hash frames : keeps r (ext4_htree_next_block n hash frames).
Proof. unfold ext4_htree_next_block. keeps_auto. Qed.
Hint Resolve keeps_next_block : keepsdb.

Lemma keeps_dx_find_entry n fname : keeps r (dx_find_entry n fname).
Proof. unfold dx_find_entry, dx_find_round, dx_release, brelse, dbh. keeps_auto. Qed.
End Keep.

#[export] Instance htree_keep `{Env} `{Csum} `{NameiEnv} `{DirNames} `{InlineKeep} : HooksKeep.
Proof. split; intros; simpl; [apply keep_inline_find|apply keep_inline_delete|apply keeps_dx_find_entry]. Qed.

(** Adding a name to a hash tree changes no link count; inline directories promise the
    same. *)
Class InlineLinks `{InlineDir} := {
  links_inline_add p n c f : still p (try_add_inline_entry n c f)
}.

Section DxStill.
Context `{Env} `{Csum} `{NameiEnv} `{DirNames}.
Variable p : Z.

Lemma still_release_frames n fl : still p (release_frames n fl).
Proof. induction fl; simpl; unfold brelse, dbh; still_auto. Qed.
Hint Resolve still_release_frames still_read_dirblock still_append still_add_dirent : stilldb.

Lemma still_probe_loop n hash k : forall blk entries above blocks,
  still p (probe_loop k n hash blk entries above blocks).
Proof. induction k as [|k IH]; intros; cbn [probe_loop]; still_auto; auto. Qed.
Hint Resolve still_probe_loop : stilldb.
Lemma still_dx_probe n fname hinfo : still p (dx_probe n fname hinfo).
Proof. unfold dx_probe, brelse, dbh. still_auto. Qed.
Lemma still_dirty_node n blk : still p (ext4_handle_dirty_dx_node n blk).
Proof. unfold ext4_handle_dirty_dx_node. still_auto. Qed.
Lemma still_dx_release n frames : still p (dx_release n frames).
Proof. unfold dx_release. still_auto. Qed.
Hint Resolve still_dx_probe still_dirty_node still_dx_release : stilldb.
Lemma still_frame_insert n f hash block : still p (frame_insert n f hash block).
Proof. unfold frame_insert. still_auto. Qed.
Hint Resolve still_frame_insert : stilldb.
Lemma still_do_split n bh f hinfo : still p (do_split n bh f hinfo).
Proof. unfold do_split, ext4_handle_dirty_dirblock, brelse, dbh. still_auto. Qed.
Hint Resolve still_do_split : stilldb.
Lemma still_index_out n frames bh2 r : still p (index_out n frames bh2 r).
Proof. unfold index_out, ext4_mark_inode_dirty, brelse, dbh. still_auto. Qed.
Hint Resolve still_index_out : stilldb.
Lemma still_make_indexed n child fname : still p (dx_make_indexed_dir n child fname).
Proof.
  unfold dx_make_indexed_dir, index_entries, ext4_handle_dirty_dirblock, ext4_mark_inode_dirty, brelse, dbh.
  still_auto.
Qed.
Lemma still_index_room n frames : still p (make_index_room n frames).
Proof. unfold make_index_room, split_index, grow_index, ext4_mark_inode_dirty, brelse, dbh. still_auto. Qed.
Hint Resolve still_index_room : stilldb.
Lemma still_dx_add_entry n child fname : still p (dx_add_entry n child fname).
Proof. unfold dx_add_entry, dx_add_round, brelse, dbh. still_auto. Qed.
End DxStill.

#[export] Instance htree_links `{Env} `{Csum} `{NameiEnv} `{DirNames} `{InlineLinks} : HooksLinks.
Proof.
  split; intros; simpl; [apply links_inline_add|apply still_dx_add_entry|apply still_make_indexed].
Qed.

(** ** Lookup through the directory code *)

Section Compose.
Context `{Env} `{!EnvErrno} `{Csum} `{NameiEnv} `{!DirHashOk} `{DirNamesOk} `{InlineDir}.

(** [__ext4_find_entry] of a name in a directory with a well-formed hash tree goes
    through the tree and answers what the leaves hold: the record of a live entry with
    the name, or nothing when there is no such entry; never an error, and without
    falling back to the linear search. *)
Theorem find_entry_htree n fname w :
  htree_ok n (w_st w) -> ext4_has_inline_data (w_st w) n = false ->
  Z.of_nat (length (usr_fname fname)) <= EXT4_NAME_LEN -> is_dot_name (usr_fname fname) = false ->
  wp (__ext4_find_entry n fname) (fun r w' =>
    w_st w' = w_st w /\ w_held w' = found_bh n r ++ w_held w /\ tree_result n (w_st w) fname r) w.
Proof.
  intros Htree Hin Hlen Hdot. unfold __ext4_find_entry.
  destruct (Z.ltb_spec EXT4_NAME_LEN (Z.of_nat (length (usr_fname fname)))); [lia|].
  do 2 wp_step. rewrite Hin. do 2 wp_step. rewrite Hdot. do 2 wp_step.
  destruct (ht_root _ _ Htree fname (HInfo 0 0 0)) as ((_ & _ & Hdx) & _).
  destruct (Hdx eq_refl) as [-> _]. apply wp_bind. eapply wp_mono; [by apply dx_find_entry_tree|].
  intros r w' Hpost. destruct r as [|e|blk de]; [by apply wp_ret| |by apply wp_ret].
  by destruct Hpost as (_ & _ & []).
Qed.
End Compose.
