(* ===== verification/Rename.v ===== *)
(** * Renaming (fs/ext4/namei.c)

    [ext4_rename], [ext4_cross_rename] and [ext4_rename2] with their helpers, on the
    directories of Namei.v.  [struct ext4_renament] is a record that the steps thread; a
    buffer pointer of it is the logical block (and the record) whose reference is held.

    Outside the repository are the inline directories (class [RenameHooks]) and, as in
    Mkdir.v, the allocation of an inode, here for the whiteout.  The project numbers that
    [projid_eq] compares, the mount option and [ext4_alloc_da_blocks] are answers of
    [Env]. *)

From stdpp Require Import prelude list gmap strings.
From Stdlib Require Import ZArith Lia.
From S2P Require Import Prelude Kernel Bytes Layout Fs Inode Dirent Namei Mkdir DxBlock Dx.

Local Open Scope string_scope.
Local Open Scope Z_scope.

Class RenameHooks := {
  (* ext4_get_first_inline_block: an error, or the buffer (as block 0) and the record of ".." *)
  ext4_get_first_inline_block : Z -> K fs (Z + Z);
  (* the store to that record *)
  set_inline_parent : Z -> Z -> Z -> K fs unit
}.

Definition EXDEV : Z := 18.
Definition EXT4_INODE_PROJINHERIT : Z := 29.
Definition WHITEOUT_MODE : Z := 0.
Definition WHITEOUT_DEV : Z := 0.
Definition RENAME_NOREPLACE : Z := 1.
Definition RENAME_EXCHANGE : Z := 2.
Definition RENAME_WHITEOUT : Z := 4.

(** [struct ext4_renament]; [r_bh] is block and record of the entry, [r_dir_bh] the record
    of ".." in the first block of the inode. *)
Record ext4_renament := Renament {
  r_dir : Z;
  r_name : list Z;
  r_is_dir : bool;
  r_dir_nlink_delta : Z;
  r_bh : option (Z * Z);
  r_inlined : bool;
  r_dir_bh : option Z;
  r_dir_inlined : bool
}.

(** [{ .dir = dir, .dentry = dentry, .inode = d_inode(dentry) }] *)
Definition renament (dir : Z) (name : list Z) : ext4_renament :=
  Renament dir name false 0 None false None false.
Definition set_r_bh (bh : option (Z * Z)) (inlined : bool) (e : ext4_renament) : ext4_renament :=
  Renament (r_dir e) (r_name e) (r_is_dir e) (r_dir_nlink_delta e) bh inlined (r_dir_bh e) (r_dir_inlined e).
Definition set_r_dir (dir_bh : option Z) (inlined : bool) (e : ext4_renament) : ext4_renament :=
  Renament (r_dir e) (r_name e) true (r_dir_nlink_delta e) (r_bh e) (r_inlined e) dir_bh inlined.
Definition set_r_delta (delta : Z) (e : ext4_renament) : ext4_renament :=
  Renament (r_dir e) (r_name e) (r_is_dir e) delta (r_bh e) (r_inlined e) (r_dir_bh e) (r_dir_inlined e).

Section Rename.
Context `{Env} `{Csum} `{NameiEnv} `{DirNames} `{DirHooks} `{DirInode} `{RenameHooks}.

(** [ext4_find_entry(dir, d_name, &de, &inlined)] *)
Definition find_entry_inlined (n : Z) (name : list Z) : K fs (lookup * bool) :=
  r <~ ext4_find_entry n name;;
  s <~ kget;;
  kret (r, ext4_has_inline_data s n).

(** The first block of a directory without inline data: the record of "..". *)
Definition first_dir_block (n : Z) : K fs (Z + Z) :=
  bh <~ __ext4_read_dirblock n 0 DIRENT_HTREE;;
  match bh with
  | PtrErr e => kret (inl e)
  | PtrNull => koops
  | PtrOk =>
      s <~ kget;;
      let d := dctx s n in
      let b := dir_block s n 0 in
      if ext4_check_dir_entry d b (d_blocksize d) 0 || negb (de_inode b 0 =? n) ||
         negb (streq [46] b 8)
      then brelse n 0;;; kret (inl (- EFSCORRUPTED)) else
      let de := ext4_next_entry d b 0 in
      if ext4_check_dir_entry d b (d_blocksize d) de || (de_inode b de =? 0) ||
         negb (streq [46; 46] b (de + 8))
      then brelse n 0;;; kret (inl (- EFSCORRUPTED)) else
      kret (inr de)
  end.

(** [ext4_get_first_dir_block]: an error, or the record of ".." and whether it is inline. *)
Definition ext4_get_first_dir_block (n : Z) : K fs (Z + Z * bool) :=
  s <~ kget;;
  if negb (ext4_has_inline_data s n) then
    r <~ first_dir_block n;;
    kret (match r with inl e => inl e | inr de => inr (de, false) end)
  else
    r <~ ext4_get_first_inline_block n;;
    kret (match r with inl e => inl e | inr de => inr (de, true) end).

(** [ext4_rename_dir_prepare(handle, ent, is_cross)] for the inode [ino] of the entry. *)
Definition ext4_rename_dir_prepare (ent : ext4_renament) (ino : Z) (is_cross : bool) :
    K fs (Z * ext4_renament) :=
  let ent := set_r_dir (r_dir_bh ent) (r_dir_inlined ent) ent in
  if negb is_cross then kret (0, ent) else
  r <~ ext4_get_first_dir_block ino;;
  match r with
  | inl e => kret (e, ent)
  | inr (de, inlined) =>
      let ent := set_r_dir (Some de) inlined ent in
      s <~ kget;;
      if negb (de_inode (dir_block s ino 0) de =? r_dir ent) then kret (- EFSCORRUPTED, ent) else
      retval <~ call_int "ext4_journal_get_write_access" [ino; 0];;
      kret (retval, ent)
  end.

(** [ext4_rename_dir_finish(handle, ent, dir_ino)] *)
Definition ext4_rename_dir_finish (ent : ext4_renament) (ino dir_ino : Z) : K fs Z :=
  match r_dir_bh ent with
  | None => kret 0
  | Some de =>
      if r_dir_inlined ent then
        set_inline_parent ino de dir_ino;;;
        ext4_mark_inode_dirty ino
      else
        s <~ kget;;
        kmodify (set_dir_block ino 0 (put32 (dir_block s ino 0) de dir_ino));;;
        if is_dx s ino then ext4_handle_dirty_dx_node ino 0 else ext4_handle_dirty_dirblock ino 0
  end.

(** [ext4_setent(handle, ent, ino, file_type)] *)
Definition ext4_setent (ent : ext4_renament) (ino file_type : Z) : K fs Z :=
  match r_bh ent with
  | None => koops
  | Some (blk, de) =>
      let dir := r_dir ent in
      retval <~ call_int "ext4_journal_get_write_access" [dir; blk];;
      if negb (retval =? 0) then kret retval else
      s <~ kget;;
      let b := put32 (dir_block s dir blk) de ino in
      let b := if ext4_has_feature_filetype (f_es s) then putb b (de + 7) file_type else b in
      kmodify (set_dir_block dir blk b);;;
      kmodify (upd_inode dir inode_inc_iversion);;;
      ts <~ inode_set_ctime_current dir;;
      inode_set_mtime_to_ts dir ts;;;
      retval <~ ext4_mark_inode_dirty dir;;
      if r_inlined ent then kret retval else
      retval2 <~ ext4_handle_dirty_dirblock dir blk;;
      kret (if negb (retval2 =? 0) then retval2 else retval)
  end.

(** [ext4_resetent] *)
Definition ext4_resetent (ent : ext4_renament) (ino file_type : Z) : K fs unit :=
  r <~ find_entry_inlined (r_dir ent) (r_name ent);;
  match r with
  | (LFound blk de, inlined) =>
      ext4_setent (set_r_bh (Some (blk, de)) inlined ent) ino file_type;;;
      brelse (r_dir ent) blk
  | _ => kret tt
  end.

(** [ext4_find_delete_entry] *)
Definition ext4_find_delete_entry (n : Z) (name : list Z) : K fs Z :=
  r <~ ext4_find_entry n name;;
  match r with
  | LErr e => kret e
  | LNull => kret (- ENOENT)
  | LFound blk de =>
      retval <~ ext4_delete_entry n blk de;;
      brelse n blk;;;
      kret retval
  end.

(** [ext4_rename_delete]; a failure is only reported in the log. *)
Definition ext4_rename_delete (ent : ext4_renament) (ino : Z) (force_reread : bool) : K fs unit :=
  match r_bh ent with
  | None => koops
  | Some (blk, de) =>
      s <~ kget;;
      let b := dir_block s (r_dir ent) blk in
      (if negb (de_inode b de =? ino) || negb (bool_decide (de_name b de = r_name ent)) || force_reread
       then ext4_find_delete_entry (r_dir ent) (r_name ent)
       else
         retval <~ ext4_delete_entry (r_dir ent) blk de;;
         if retval =? - ENOENT then ext4_find_delete_entry (r_dir ent) (r_name ent)
         else kret retval);;;
      kret tt
  end.

(** [ext4_update_dir_count] *)
Definition ext4_update_dir_count (ent : ext4_renament) : K fs unit :=
  if r_dir_nlink_delta ent =? 0 then kret tt else
  (if r_dir_nlink_delta ent =? -1 then ext4_dec_count (r_dir ent) else ext4_inc_count (r_dir ent));;;
  ext4_mark_inode_dirty (r_dir ent);;;
  kret tt.

(** [ext4_whiteout_for_rename]: an error or the whiteout inode. *)
Fixpoint ext4_whiteout_for_rename (fuel : nat) (retries : Z) (ent : ext4_renament) : K fs (Z + Z) :=
  match fuel with
  | O => koops
  | S fuel =>
      r <~ ext4_new_inode_start_handle (r_dir ent) (Z.lor S_IFCHR WHITEOUT_MODE) (r_name ent);;
      handle <~ ext4_journal_current_handle;;
      match r with
      | inl e =>
          stop_handle handle;;;
          again <~ should_retry retries e;;
          if again : bool then ext4_whiteout_for_rename fuel (retries + 1) ent else kret (inl e)
      | inr wh => init_special_inode wh WHITEOUT_DEV;;; kret (inr wh)
      end
  end.

(** [new_dir] carries a project number that [ino] does not have. *)
Definition other_project (dir ino : Z) : K fs bool :=
  s <~ kget;;
  if ext4_test_inode_flag (inode_of s dir) EXT4_INODE_PROJINHERIT then
    eq <~ call_int "projid_eq" [dir; ino];; kret (eq =? 0)
  else kret false.

(** The checks of [ext4_rename] on directories: [retval] and the entry. *)
Definition rename_dir_checks (old : ext4_renament) (ino new_dir : Z) (target : option Z) :
    K fs (Z * ext4_renament) :=
  s <~ kget;;
  if negb (S_ISDIR (i_mode (inode_of s ino))) then kret (0, old) else
  retval <~ (match target with
             | Some t =>
                 empty <~ ext4_empty_dir t;; kret (if empty : bool then 0 else - ENOTEMPTY)
             | None =>
                 kret (if negb (new_dir =? r_dir old) && EXT4_DIR_LINK_MAX s new_dir then - EMLINK else 0)
             end);;
  if negb (retval =? 0) then kret (retval, old)
  else ext4_rename_dir_prepare old ino (negb (new_dir =? r_dir old)).

(** The new name is stored: added, or put in the place of the target. *)
Definition rename_install (new : ext4_renament) (ino old_file_type : Z) : K fs Z :=
  match r_bh new with
  | None => ext4_add_entry (r_dir new) ino (r_name new)
  | Some _ => ext4_setent new ino old_file_type
  end.

(** The link counts of the directories after a directory was renamed. *)
Definition rename_dir_links (old : ext4_renament) (ino new_dir : Z) (target : option Z) : K fs Z :=
  if negb (r_is_dir old) then kret 0 else
  retval <~ ext4_rename_dir_finish old ino new_dir;;
  if negb (retval =? 0) then kret retval else
  ext4_dec_count (r_dir old);;;
  match target with
  | Some t => clear_nlink t;;; kret 0
  | None =>
      ext4_inc_count new_dir;;;
      s <~ kget;;
      kmodify (upd_inode new_dir (ext4_update_dx_flag s));;;
      ext4_mark_inode_dirty new_dir
  end.

(** [ext4_rename] after the new name was stored. *)
Definition rename_finish (old : ext4_renament) (ino new_dir : Z) (target whiteout : option Z)
    (force_reread : bool) : K fs Z :=
  inode_set_ctime_current ino;;;
  retval <~ ext4_mark_inode_dirty ino;;
  if negb (retval =? 0) then kret retval else
  (match whiteout with
   | None => ext4_rename_delete old ino force_reread
   | Some _ => kret tt
   end);;;
  (match target with
   | Some t => ext4_dec_count t;;; inode_set_ctime_current t;;; kret tt
   | None => kret tt
   end);;;
  ts <~ inode_set_ctime_current (r_dir old);;
  inode_set_mtime_to_ts (r_dir old) ts;;;
  s <~ kget;;
  kmodify (upd_inode (r_dir old) (ext4_update_dx_flag s));;;
  retval <~ rename_dir_links old ino new_dir target;;
  if negb (retval =? 0) then kret retval else
  retval <~ ext4_mark_inode_dirty (r_dir old);;
  if negb (retval =? 0) then kret retval else
  match target with
  | None => kret 0
  | Some t =>
      retval <~ ext4_mark_inode_dirty t;;
      if negb (retval =? 0) then kret retval else
      s <~ kget;;
      (if i_nlink (inode_of s t) =? 0 then call_int "ext4_orphan_add" [t] else kret 0);;;
      kret 0
  end.

(** [ext4_rename] inside the transaction: [retval] and the old entry, with the buffer of
    its first block if there is one. *)
Definition rename_body (old new : ext4_renament) (ino old_file_type : Z) (target whiteout : option Z) :
    K fs (Z * ext4_renament) :=
  r <~ rename_dir_checks old ino (r_dir new) target;;
  let '(retval, old) := r in
  if negb (retval =? 0) then kret (retval, old) else
  s <~ kget;;
  let inline_flag s := ext4_test_inode_flag (inode_of s (r_dir new)) EXT4_INODE_INLINE_DATA in
  let force_reread := (r_dir new =? r_dir old) && inline_flag s in
  retval <~ (match whiteout with
             | Some wh =>
                 retval <~ ext4_setent old wh EXT4_FT_CHRDEV;;
                 if negb (retval =? 0) then kret retval else ext4_mark_inode_dirty wh
             | None => kret 0
             end);;
  if negb (retval =? 0) then kret (retval, old) else
  retval <~ rename_install new ino old_file_type;;
  if negb (retval =? 0) then kret (retval, old) else
  s <~ kget;;
  let force_reread := force_reread && negb (inline_flag s) in
  retval <~ rename_finish old ino (r_dir new) target whiteout force_reread;;
  kret (retval, old).

(** [end_rename]: the whiteout is kept or dropped, and the transaction ends. *)
Definition rename_end (old : ext4_renament) (ino old_file_type retval : Z) (whiteout : option Z) : K fs unit :=
  match whiteout with
  | Some wh =>
      (if negb (retval =? 0) then
         ext4_resetent old ino old_file_type;;;
         drop_nlink wh;;;
         ext4_mark_inode_dirty wh;;;
         call_int "ext4_orphan_add" [wh];;;
         kret tt
       else kret tt);;;
      unlock_new_inode wh;;;
      ext4_journal_stop;;;
      iput wh
  | None => ext4_journal_stop;;; kret tt
  end.

(** The buffers of an entry. *)
Definition release_entry (ent : ext4_renament) : K fs unit :=
  match r_bh ent with Some (blk, _) => brelse (r_dir ent) blk | None => kret tt end.
Definition release_first (ent : ext4_renament) (ino : Z) : K fs unit :=
  match r_dir_bh ent with Some _ => brelse ino 0 | None => kret tt end.

(** [release_bh] of [ext4_rename] *)
Definition rename_release (old new : ext4_renament) (ino retval : Z) : K fs Z :=
  release_first old ino;;; release_entry old;;; release_entry new;;; kret retval.

(** [ext4_rename] once the entries were looked up. *)
Definition rename_transaction (old new : ext4_renament) (ino : Z) (target : option Z) (flags : Z) : K fs Z :=
  started <~ (if Z.land flags RENAME_WHITEOUT =? 0 then
                h <~ ext4_journal_start (2 * nm_data_trans_blocks + nm_index_extra_blocks + 2);;
                match h with
                | PtrErr e => kret (inl e)
                | PtrNull => koops
                | PtrOk => kret (inr None)
                end
              else
                w <~ ext4_whiteout_for_rename 5 0 old;;
                kret (match w with inl e => inl e | inr wh => inr (Some wh) end));;
  match started with
  | inl e => rename_release old new ino e
  | inr whiteout =>
      s <~ kget;;
      let old_file_type :=
        match r_bh old with Some (blk, de) => de_file_type (dir_block s (r_dir old) blk) de | None => 0 end in
      r <~ rename_body old new ino old_file_type target whiteout;;
      let '(retval, old) := r in
      rename_end old ino old_file_type retval whiteout;;;
      rename_release old new ino retval
  end.

(** Quotas of the inodes, in order. *)
Fixpoint dquot_initialize_all (inodes : list Z) : K fs Z :=
  match inodes with
  | [] => kret 0
  | i :: inodes =>
      retval <~ call_int "dquot_initialize" [i];;
      if negb (retval =? 0) then kret retval else dquot_initialize_all inodes
  end.

(** [ext4_rename]: [ino] in [old_dir] under [old_name] gets the name [new_name] in
    [new_dir], in the place of [target] if there is one. *)
Definition ext4_rename (old_dir : Z) (old_name : list Z) (ino new_dir : Z) (new_name : list Z)
    (target : option Z) (flags : Z) : K fs Z :=
  s <~ kget;;
  if match target with Some t => i_nlink (inode_of s t) =? 0 | None => false end
  then kret (- EFSCORRUPTED) else
  xdev <~ other_project new_dir ino;;
  if xdev : bool then kret (- EXDEV) else
  retval <~ dquot_initialize_all ([old_dir; ino; new_dir] ++ match target with Some t => [t] | None => [] end)%list;;
  if negb (retval =? 0) then kret retval else
  let old := renament old_dir old_name in
  let new := renament new_dir new_name in
  f <~ find_entry_inlined old_dir old_name;;
  match f with
  | (LErr e, _) => kret e
  | (LNull, _) => kret (- ENOENT)
  | (LFound blk de, inlined) =>
      let old := set_r_bh (Some (blk, de)) inlined old in
      s <~ kget;;
      if negb (de_inode (dir_block s old_dir blk) de =? ino) then rename_release old new ino (- ENOENT) else
      f <~ find_entry_inlined new_dir new_name;;
      match f with
      | (LErr e, _) => rename_release old new ino e
      | (f, inlined) =>
          bh <~ (match f, target with
                 | LFound blk _, None => brelse new_dir blk;;; kret None
                 | LFound blk de, Some _ => kret (Some (blk, de))
                 | _, _ => kret None
                 end);;
          let new := set_r_bh bh inlined new in
          (match target with
           | Some _ =>
               opt <~ call_int "test_opt_NO_AUTO_DA_ALLOC" [];;
               (if opt =? 0 then call_int "ext4_alloc_da_blocks" [ino] else kret 0);;; kret tt
           | None => kret tt
           end);;;
          rename_transaction old new ino target flags
      end
  end.

(** ** Exchange *)

(** [end_rename] of [ext4_cross_rename] *)
Definition cross_end (old new : ext4_renament) (old_ino new_ino : Z) (handle : bool) (retval : Z) : K fs Z :=
  release_first old old_ino;;; release_first new new_ino;;;
  release_entry old;;; release_entry new;;; stop_handle handle;;; kret retval.

(** The link counts the two directories will gain or lose; an error when one is full. *)
Definition cross_deltas (s : fs) (old new : ext4_renament) : Z * ext4_renament * ext4_renament :=
  if negb (r_dir old =? r_dir new) && negb (Bool.eqb (r_is_dir old) (r_is_dir new)) then
    let delta := if r_is_dir old then -1 else 1 in
    let old := set_r_delta delta old in
    let new := set_r_delta (- delta) new in
    (if (0 <? r_dir_nlink_delta old) && EXT4_DIR_LINK_MAX s (r_dir old) ||
        (0 <? r_dir_nlink_delta new) && EXT4_DIR_LINK_MAX s (r_dir new)
     then - EMLINK else 0, old, new)
  else (0, old, new).

(** The entries are exchanged. *)
Definition cross_exchange (old new : ext4_renament) (old_ino new_ino : Z) : K fs Z :=
  s <~ kget;;
  match r_bh old, r_bh new with
  | Some (oblk, ode), Some (nblk, nde) =>
      let new_file_type := de_file_type (dir_block s (r_dir new) nblk) nde in
      retval <~ ext4_setent new old_ino (de_file_type (dir_block s (r_dir old) oblk) ode);;
      if negb (retval =? 0) then kret retval else
      retval <~ ext4_setent old new_ino new_file_type;;
      if negb (retval =? 0) then kret retval else
      inode_set_ctime_current old_ino;;;
      inode_set_ctime_current new_ino;;;
      retval <~ ext4_mark_inode_dirty old_ino;;
      if negb (retval =? 0) then kret retval else
      retval <~ ext4_mark_inode_dirty new_ino;;
      if negb (retval =? 0) then kret retval else
      retval <~ ext4_rename_dir_finish old old_ino (r_dir new);;
      if negb (retval =? 0) then kret retval else
      retval <~ ext4_rename_dir_finish new new_ino (r_dir old);;
      if negb (retval =? 0) then kret retval else
      ext4_update_dir_count old;;;
      ext4_update_dir_count new;;;
      kret 0
  | _, _ => koops
  end.

(** [ext4_cross_rename] inside the transaction. *)
Definition cross_body (old new : ext4_renament) (old_ino new_ino : Z) : K fs Z :=
  s <~ kget;;
  let is_cross := negb (r_dir new =? r_dir old) in
  r <~ (if S_ISDIR (i_mode (inode_of s old_ino)) then ext4_rename_dir_prepare old old_ino is_cross
        else kret (0, old));;
  let '(retval, old) := r in
  if negb (retval =? 0) then cross_end old new old_ino new_ino true retval else
  r <~ (if S_ISDIR (i_mode (inode_of s new_ino)) then ext4_rename_dir_prepare new new_ino is_cross
        else kret (0, new));;
  let '(retval, new) := r in
  if negb (retval =? 0) then cross_end old new old_ino new_ino true retval else
  s <~ kget;;
  let '(retval, old, new) := cross_deltas s old new in
  if negb (retval =? 0) then cross_end old new old_ino new_ino true retval else
  retval <~ cross_exchange old new old_ino new_ino;;
  cross_end old new old_ino new_ino true retval.

(** [ext4_cross_rename] *)
Definition ext4_cross_rename (old_dir : Z) (old_name : list Z) (old_ino new_dir : Z) (new_name : list Z)
    (new_ino : Z) : K fs Z :=
  x1 <~ other_project new_dir old_ino;;
  x2 <~ (if x1 : bool then kret true else other_project old_dir new_ino);;
  if x2 : bool then kret (- EXDEV) else
  retval <~ dquot_initialize_all [old_dir; new_dir];;
  if negb (retval =? 0) then kret retval else
  let old := renament old_dir old_name in
  let new := renament new_dir new_name in
  f <~ find_entry_inlined old_dir old_name;;
  match f with
  | (LErr e, _) => kret e
  | (LNull, _) => kret (- ENOENT)
  | (LFound blk de, inlined) =>
      let old := set_r_bh (Some (blk, de)) inlined old in
      s <~ kget;;
      if negb (de_inode (dir_block s old_dir blk) de =? old_ino)
      then cross_end old new old_ino new_ino false (- ENOENT) else
      f <~ find_entry_inlined new_dir new_name;;
      match f with
      | (LErr e, _) => cross_end old new old_ino new_ino false e
      | (LNull, _) => cross_end old new old_ino new_ino false (- ENOENT)
      | (LFound blk de, inlined) =>
          let new := set_r_bh (Some (blk, de)) inlined new in
          s <~ kget;;
          if negb (de_inode (dir_block s new_dir blk) de =? new_ino)
          then cross_end old new old_ino new_ino false (- ENOENT) else
          h <~ ext4_journal_start (2 * nm_data_trans_blocks + 2 * nm_index_extra_blocks + 2);;
          match h with
          | PtrErr e => cross_end old new old_ino new_ino false e
          | PtrNull => koops
          | PtrOk => cross_body old new old_ino new_ino
          end
      end
  end.

(** [ext4_rename2]; [fscrypt_prepare_rename] is outside.  The VFS exchanges with a name that
    has an inode. *)
Definition ext4_rename2 (old_dir : Z) (old_name : list Z) (ino new_dir : Z) (new_name : list Z)
    (target : option Z) (flags : Z) : K fs Z :=
  down <~ call_int "ext4_forced_shutdown" [];;
  if negb (down =? 0) then kret (- EIO) else
  if negb (Z.land flags (Z.lnot (Z.lor (Z.lor RENAME_NOREPLACE RENAME_EXCHANGE) RENAME_WHITEOUT)) =? 0)
  then kret (- EINVAL) else
  err <~ call_int "fscrypt_prepare_rename" [flags];;
  if negb (err =? 0) then kret err else
  if negb (Z.land flags RENAME_EXCHANGE =? 0) then
    match target with
    | Some t => ext4_cross_rename old_dir old_name ino new_dir new_name t
    | None => koops
    end
  else ext4_rename old_dir old_name ino new_dir new_name target flags.
End Rename.
