(* ===== verification/RenameSpec.v ===== *)
(** * A renamed file has its new name only

    Theorems about Rename.v on linear directories: a file renamed within a directory or to
    another one loses one entry and gains one, with the same inode, and no link count
    changes. *)

From stdpp Require Import prelude list gmap strings.
From Stdlib Require Import ZArith Lia.
From S2P Require Import Prelude Kernel Bytes Layout Fs Inode Dirent Namei NameiSpec Mkdir MkdirSpec DirOps DxBlock Dx Rename.

Local Open Scope Z_scope.

Section Steps.
Context `{EnvFs} `{Csum} `{NameiEnv} `{DirNamesOk} `{DirHooks} `{DirInode} `{RenameHooks}.
Hypothesis Hcalm : journal_calm.
Hypothesis Hmapped : mapped.

Lemma wp_find_inlined n name s ess h0 calls (Q : lookup * bool -> world fs -> Prop) :
  linear n s ess -> (0 < length ess)%nat ->
  (forall r calls', find_result n s ess name calls calls' r ->
     Q (r, false) (World (looked n r s) (found_ref n r ++ h0) calls')) ->
  wp (find_entry_inlined n name) Q (World s h0 calls).
Proof.
  intros Hl Hne HQ. unfold find_entry_inlined. wp_step. eapply (wp_find_entry Hmapped n s ess _ _ calls); try done.
  intros r calls' _ Hr. do 2 wp_step.
  assert (ext4_has_inline_data (looked n r s) n = false) as ->.
  { destruct (looked_same n r s) as [(_ & _ & _ & -> & _) _]. apply (lin_inline _ _ _ Hl). }
  wp_step. by apply HQ.
Qed.

Lemma links_looked n r s m : links m s (looked n r s).
Proof using.
  destruct r; try done. unfold links. cbn [looked]. rewrite inode_of_upd. by case_decide; subst.
Qed.

(** The name is looked up again and removed. *)
Lemma wp_find_delete n name s ess e h0 calls (Q : Z -> world fs -> Prop) :
  reads_fine -> linear n s ess -> (0 < length ess)%nat ->
  e ∈ concat ess -> e_name e = name ->
  (forall s' e' ess' calls, linear n s' ess' -> removed e' ess ess' -> e_name e' = name ->
     others n s s' -> links n s s' -> Q 0 (World s' h0 calls)) ->
  wp (ext4_find_delete_entry n name) Q (World s h0 calls).
Proof.
  intros Hreads Hl Hne Hin Hname HQ. unfold ext4_find_delete_entry. wp_step.
  eapply (wp_find_entry Hmapped n s ess _ _ calls); try done. intros r calls' _ Hr.
  destruct r as [|err|blk de]; [by apply Hr in Hin|by apply read_error_reads in Hr as []|].
  destruct Hr as [Hblk Hrec]. destruct (looked_same n (LFound blk de) s) as [Hsame Ho].
  pose proof (links_looked n (LFound blk de) s n) as Hk.
  set (s1 := looked n (LFound blk de) s) in *. clearbody s1. pose proof Hsame as (_ & _ & Ed & _ & Edir & _).
  assert (Eb : dir_block s1 n blk = dir_block s n blk) by (unfold dir_block; by rewrite Edir).
  wp_step. eapply (wp_delete_entry Hcalm n blk de name s1); [by eapply linear_same|done| |].
  { destruct Hrec as (os & ? & ? & ? & ?). exists os. rewrite Ed, Eb. by split_and!. }
  intros s2 ess' calls2 Hl2 Hrm Ho2 Hk2. unfold brelse, found_ref, dbh. cbn [app]. repeat wp_step.
  destruct (record_entry n blk de name s ess Hl Hblk Hrec) as [_ Hn]. rewrite Eb in Hrm.
  eapply HQ; [exact Hl2|exact Hrm|exact Hn| |].
  - by eapply others_trans.
  - by eapply links_trans.
Qed.

(** The old name is removed, at the place it was found or wherever it is now. *)
Lemma wp_rename_delete old blk de ino reread s ess e h0 calls (Q : unit -> world fs -> Prop) :
  reads_fine -> r_bh old = Some (blk, de) -> 0 < ino ->
  linear (r_dir old) s ess -> 0 <= blk < Z.of_nat (length ess) ->
  e ∈ concat ess -> e_name e = r_name old ->
  (forall e', e' ∈ concat ess -> e_name e' = r_name old -> e_ino e' = ino) ->
  (forall s' e' ess' calls, linear (r_dir old) s' ess' -> removed e' ess ess' -> e_name e' = r_name old ->
     e_ino e' = ino -> others (r_dir old) s s' -> links (r_dir old) s s' -> Q tt (World s' h0 calls)) ->
  wp (ext4_rename_delete old ino reread) Q (World s h0 calls).
Proof.
  intros Hreads Hbh Hpos Hl Hblk Hin Hname Huniq HQ. unfold ext4_rename_delete. rewrite Hbh. do 2 wp_step.
  assert (Hrm_ino : forall e' ess', removed e' ess ess' -> e_name e' = r_name old -> e_ino e' = ino).
  { intros e' ess' Hrm Hn. apply Huniq; [|done]. unfold removed in Hrm. rewrite Hrm. by left. }
  assert (Hagain : forall calls, wp (ext4_find_delete_entry (r_dir old) (r_name old))
    (fun _ => wp (kret tt) Q) (World s h0 calls)).
  { intros calls'. eapply (wp_find_delete _ _ s ess e); try done; [lia|].
    intros s' e' ess' calls'' Hl' Hrm Hn Ho Hk. wp_step. eapply HQ; try done. by eapply Hrm_ino. }
  wp_step. destruct (Z.eqb_spec (de_inode (dir_block s (r_dir old) blk) de) ino) as [Ei|]; cbn [negb orb]; [|apply Hagain].
  case_bool_decide as En; cbn [negb orb]; [|apply Hagain]. destruct reread; [apply Hagain|].
  wp_step. eapply (wp_delete_any Hcalm); [exact Hl|done|lia|..].
  - intros calls'. rewrite Z.eqb_refl. apply Hagain.
  - intros s' ess' calls' Hl' Hrm Ho Hk. change (0 =? - ENOENT) with false. cbv iota. do 2 wp_step.
    by eapply HQ.
Qed.
End Steps.

(** ** Renaming a file *)

Lemma wp_still_all {A} (m : K fs A) (Q : A -> world fs -> Prop) w :
  (forall p, still p m) ->
  wp m (fun a w' => (forall p, links p (w_st w) (w_st w')) -> Q a w') w -> wp m Q w.
Proof. intros Hs. unfold wp. destruct (m w) eqn:E; [|done..]. intros HQ. apply HQ. intros p. by eapply Hs. Qed.

Lemma links_others n s s' : links n s s' -> others n s s' -> forall p, links p s s'.
Proof.
  intros Hk Ho p. destruct (decide (p = n)) as [->|Hp]; [done|]. destruct Hk as (_ & _ & E1 & E2).
  unfold links. by rewrite (Ho p Hp).
Qed.
Lemma links_apart n s s' : links n s s' -> others n s s' -> apart n s s'.
Proof. by intros (_ & _ & ? & ?). Qed.
Lemma links_upd n f s : linkless f -> forall p, links p s (upd_inode n f s).
Proof.
  intros Hf p. unfold links. rewrite inode_of_upd. case_decide; [subst|done].
  by destruct (Hf (inode_of s n)).
Qed.

Section File.
Context `{EnvFs} `{Csum} `{NameiEnv} `{DirNamesOk} `{DirHooks} `{!HooksLinks} `{DirInode} `{RenameHooks}.
Hypothesis Hcalm : journal_calm.
Hypothesis Hmapped : mapped.
Hypothesis Hreads : reads_fine.
Hypothesis Hholes : no_holes.

Ltac calm_call := match goal with
  | Hc : env_int _ _ _ = ?z |- _ => rewrite Hcalm in Hc by reflexivity; subst z
  end.

Variables (n1 n2 ino : Z) (name1 name2 : list Z) (ess1 ess2 : list (list dent)) (h0 : list res).
Hypothesis Hname : name_ok (Filename name2 name2 None 0 0).
Hypothesis Hne1 : (0 < length ess1)%nat.
Hypothesis Hne2 : (0 < length ess2)%nat.
Hypothesis Hess : n1 = n2 -> ess1 = ess2.
Hypothesis Hnodup : NoDup (e_name <$> concat ess1).
Hypothesis Hino : ino <> n1 /\ ino <> n2.

(** Inodes other than the two directories and the file are untouched, and every inode has
    the links it had. *)
Definition only_renamed (s0 s : fs) : Prop :=
  (forall p, links p s0 s) /\
  forall m, m <> n1 -> m <> n2 -> m <> ino -> inode_of s m = inode_of s0 m.

(** Both directories hold what they held. *)
Definition kept (s0 s : fs) : Prop :=
  linear n1 s ess1 /\ linear n2 s ess2 /\ dctx s n2 = dctx s0 n2 /\ only_renamed s0 s.

(** The file has left one directory and entered the other. *)
Definition renamed (s0 s : fs) : Prop :=
  exists mid e ess1',
    added (new_dent (dctx s0 n2) ino (i_mode (inode_of s0 ino)) (Filename name2 name2 None 0 0)) ess2 mid /\
    removed e (if n1 =? n2 then mid else ess1) ess1' /\ e_name e = name1 /\ e_ino e = ino /\
    linear n1 s ess1' /\ (n1 <> n2 -> linear n2 s mid) /\ only_renamed s0 s.

Lemma only_renamed_trans s1 s2 s3 : only_renamed s1 s2 -> only_renamed s2 s3 -> only_renamed s1 s3.
Proof using.
  intros [Hk1 Ho1] [Hk2 Ho2]. split; [intros p; by eapply links_trans|].
  intros m ? ? ?. by rewrite Ho2, Ho1.
Qed.
Lemma only_renamed_at n s s' : n = n1 \/ n = n2 \/ n = ino -> links n s s' -> others n s s' -> only_renamed s s'.
Proof using.
  intros Hn Hk Ho. split; [by apply (links_others n)|]. intros m ? ? ?. apply Ho.
  destruct Hn as [->|[->| ->]]; done.
Qed.

Lemma apart_or_same n m s s' : dir_same n s s' -> others n s s' -> dir_same m s s'.
Proof using.
  intros Hs Ho. destruct (decide (m = n)) as [->|Hm]; [done|]. apply (apart_same n); [|done].
  destruct Hs as (? & ? & _). done.
Qed.

Lemma kept_same s0 s s' n : n = n1 \/ n = n2 \/ n = ino ->
  dir_same n s s' -> others n s s' -> links n s s' -> kept s0 s -> kept s0 s'.
Proof using.
  intros Hn Hs Ho Hk (Hl1 & Hl2 & Ed & Hor). split_and!.
  - eapply linear_same; [by eapply apart_or_same|done].
  - eapply linear_same; [by eapply apart_or_same|done].
  - destruct (apart_or_same n n2 s s' Hs Ho) as (_ & _ & -> & _). done.
  - eapply only_renamed_trans; [exact Hor|by apply (only_renamed_at n)].
Qed.

Lemma kept_looked s0 s n r : n = n1 \/ n = n2 -> kept s0 s -> kept s0 (looked n r s).
Proof using.
  intros Hn. destruct (looked_same n r s) as [Hs Ho]. apply (kept_same _ _ _ n); try done.
  - destruct Hn as [->| ->]; auto.
  - apply links_looked.
Qed.

(** The rest of the rename once the new name is there. *)
Lemma wp_rename_finish old blk de reread s ess mid e held calls (Q : Z -> world fs -> Prop) :
  r_dir old = n1 -> r_name old = name1 -> r_bh old = Some (blk, de) -> r_is_dir old = false -> 0 < ino ->
  linear n1 s ess -> (n1 <> n2 -> linear n2 s mid) -> 0 <= blk < Z.of_nat (length ess) ->
  e ∈ concat ess -> e_name e = name1 ->
  (forall e', e' ∈ concat ess -> e_name e' = name1 -> e_ino e' = ino) ->
  (forall s' e' ess' calls, linear n1 s' ess' -> removed e' ess ess' -> e_name e' = name1 -> e_ino e' = ino ->
     (n1 <> n2 -> linear n2 s' mid) -> only_renamed s s' -> Q 0 (World s' held calls)) ->
  wp (rename_finish old ino n2 None None reread) Q (World s held calls).
Proof.
  intros Ed En Eb Ei Hpos Hl Hl2 Hblk Hin Hn Huniq HQ.
  unfold rename_finish, inode_set_ctime_current, inode_set_mtime_to_ts, current_time, ext4_mark_inode_dirty.
  repeat wp_step. calm_call. cbn [Z.eqb negb]. wp_step. set (s1 := upd_inode ino _ s).
  assert (Ha1 : apart ino s s1) by apply apart_upd.
  assert (Hor1 : only_renamed s s1).
  { apply (only_renamed_at ino); [by auto|by apply links_upd|apply others_upd]. }
  assert (Hl1 : linear n1 s1 ess) by (eapply linear_same; [apply (apart_same ino); [done|by destruct Hino]|done]).
  eapply (wp_rename_delete Hcalm Hmapped old blk de ino reread s1 ess e); rewrite ?Ed, ?En; try done.
  intros s2 e2 ess2' calls2 Hls2 Hrm Hn2 Hi2 Ho2 Hk2. repeat wp_step. unfold rename_dir_links. rewrite Ei.
  cbn [negb]. repeat wp_step. cbn [Z.eqb negb]. repeat wp_step. calm_call. cbn [Z.eqb negb]. wp_step. rewrite ?Ed.
  match goal with |- Q 0 (World (upd_inode _ _ (upd_inode _ (fun i => set_times ?ts _ i) _)) _ _) =>
    destruct (touch_dir n1 ts s2) as [Hs3 Ho3] end.
  match goal with |- Q 0 (World ?x _ _) => assert (Hk3 : links n1 s2 x); [|set (s3 := x) in *] end.
  { eapply links_trans; [|apply links_upd, linkless_dx]. eapply links_trans; by apply links_upd. }
  clearbody s3.
  assert (Ho13 : others n1 s1 s3) by (by eapply others_trans).
  assert (Hk13 : links n1 s1 s3) by (by eapply links_trans).
  apply (HQ s3 e2 ess2'); try done.
  - by eapply linear_same.
  - intros Hne. eapply linear_same; [|by apply Hl2]. eapply dir_same_trans.
    + apply (apart_same ino); [exact Ha1|by destruct Hino].
    + apply (apart_same n1); [by apply links_apart|done].
  - eapply only_renamed_trans; [exact Hor1|]. by apply (only_renamed_at n1); auto.
Qed.

(** Two entries with one name are one. *)
Lemma nodup_name e e' : e ∈ concat ess1 -> e' ∈ concat ess1 -> e_name e = e_name e' -> e = e'.
Proof using Hnodup.
  intros [i Hi]%list_elem_of_lookup [j Hj]%list_elem_of_lookup E.
  assert (i = j) as ->; [|congruence].
  eapply NoDup_lookup; [exact Hnodup|..]; rewrite list_lookup_fmap, ?Hi, ?Hj; [done|]. by rewrite E.
Qed.

(** [rename_body] for a file, with the handle held. *)
Lemma wp_rename_body old new blk de ft s0 s held calls (Q : Z * ext4_renament -> world fs -> Prop) :
  r_dir old = n1 -> r_name old = name1 -> r_bh old = Some (blk, de) -> r_is_dir old = false ->
  r_dir new = n2 -> r_name new = name2 -> r_bh new = None ->
  kept s0 s -> valid_ino s0 ino -> S_ISDIR (i_mode (inode_of s0 ino)) = false ->
  0 <= blk < Z.of_nat (length ess1) ->
  (exists e, e ∈ concat ess1 /\ e_name e = name1 /\ e_ino e = ino) ->
  (forall err calls, err <> 0 -> Q (err, old) (World s held calls)) ->
  (forall s' calls, renamed s0 s' -> Q (0, old) (World s' held calls)) ->
  wp (rename_body old new ino ft None None) Q (World s held calls).
Proof.
  intros Ed En Eb Ei Ed2 En2 Eb2 Hk Hv Hmode Hblk (e & Hin & Hen & Hei) Herr HQ.
  destruct Hk as (Hl1 & Hl2 & Edc & Hor). destruct (proj1 Hor ino) as (_ & Em & _ & Ees).
  unfold rename_body, rename_dir_checks. do 3 wp_step. rewrite Em, Hmode. cbn [negb]. wp_step.
  cbn [Z.eqb negb]. do 4 wp_step. cbn [Z.eqb negb]. unfold rename_install. rewrite Eb2, Ed2, En2.
  wp_step. apply wp_still_all; [intros p; apply still_add_entry|].
  destruct Hv as [Hv1 Hv2]. eapply wp_add_entry;
    [exact Hcalm|exact Hholes|exact Hl2|done|exact Hv1|by rewrite Ees|by destruct Hino| |].
  { intros err calls' He _. rewrite (proj2 (Z.eqb_neq err 0) He). cbn [negb]. wp_step. by apply Herr. }
  intros s2 mid calls2 Hl2' Hadd Ho2 Hk2. cbn [w_st] in Hk2. cbn [Z.eqb negb].
  set (s3 := entry_set s2 ino) in *.
  assert (Ho3 : others ino s2 s3) by apply others_upd.
  assert (Hs3 : forall m, m <> ino -> dir_same m s2 s3) by (intros m Hm; by apply dir_same_other).
  assert (Hk3 : links ino s2 s3) by (unfold s3, entry_set; by apply links_upd).
  assert (Hor3 : only_renamed s s3).
  { split; [done|]. intros m ? Hm ?. by rewrite (Ho3 m), (Ho2 m Hm). }
  clearbody s3. rewrite Edc, Em in Hadd.
  set (ess := if n1 =? n2 then mid else ess1).
  assert (Hle : linear n1 s3 ess /\ concat ess1 ⊆ concat ess /\ (length ess1 <= length ess)%nat /\
    forall e', e' ∈ concat ess -> e_name e' = name1 -> e_ino e' = ino).
  { assert (Hu : forall e', e' ∈ concat ess1 -> e_name e' = name1 -> e_ino e' = ino).
    { intros e' He' Hn'. by rewrite (nodup_name e' e He' Hin) by congruence. }
    unfold ess. destruct (Z.eqb_spec n1 n2) as [E|E].
    - rewrite (Hess E). destruct Hadd as [Hp Hlen]. split_and!; try done.
      + eapply linear_same; [by apply Hs3; destruct Hino|]. by rewrite E.
      + intros x Hx. rewrite Hp. by right.
      + intros e'. rewrite Hp. intros [->|He']%elem_of_cons Hn'; [done|]. apply Hu; [|done]. by rewrite (Hess E).
    - split_and!; try done. eapply linear_same; [by apply Hs3; destruct Hino|].
      eapply linear_same; [|exact Hl1]. apply (apart_same n2); [|done].
      destruct (Hk3) as (_ & _ & E3 & E4), (Hk2 n2) as (_ & _ & E5 & E6). split_and!; [congruence|congruence|done]. }
  destruct Hle as (Hl & Hsub & Hlen & Hu). do 2 wp_step. wp_step.
  eapply (wp_rename_finish old blk de _ s3 ess mid e);
    [done|done|done|done|lia|done| |lia|by apply Hsub|done|done|].
  { intros _. eapply linear_same; [by apply Hs3; destruct Hino|done]. }
  intros s4 e4 ess' calls4 Hl4 Hrm Hn4 Hi4 Hl42 Hor4. wp_step. apply HQ.
  exists mid, e4, ess'. split_and!; try done. eapply only_renamed_trans; [exact Hor|].
  by eapply only_renamed_trans.
Qed.

(** What the rename promises its caller. *)
Definition rename_post (s0 : fs) (err : Z) (w : world fs) : Prop :=
  w_held w = h0 /\ if err =? 0 then renamed s0 (w_st w) else kept s0 (w_st w).

Lemma rename_failed s0 s err calls : err <> 0 -> kept s0 s -> rename_post s0 err (World s h0 calls).
Proof using. intros He Hk. split; [done|]. by rewrite (proj2 (Z.eqb_neq err 0) He). Qed.

(** The buffer of the old entry goes back. *)
Lemma wp_rename_release old new blk de s0 s err calls :
  r_dir old = n1 -> r_bh old = Some (blk, de) -> r_dir_bh old = None -> r_bh new = None ->
  (forall calls, rename_post s0 err (World s h0 calls)) ->
  wp (rename_release old new ino err) (rename_post s0) (World s (dbh n1 blk :: h0) calls).
Proof using.
  intros Ed Eb Ef En HQ. unfold rename_release, release_first, release_entry. rewrite Eb, Ef, En, Ed.
  unfold brelse, dbh. repeat wp_step. apply HQ.
Qed.

Lemma wp_rename_transaction old new blk de flags s0 s calls :
  r_dir old = n1 -> r_name old = name1 -> r_bh old = Some (blk, de) -> r_is_dir old = false ->
  r_dir_bh old = None -> r_dir new = n2 -> r_name new = name2 -> r_bh new = None ->
  kept s0 s -> valid_ino s0 ino -> S_ISDIR (i_mode (inode_of s0 ino)) = false ->
  0 <= blk < Z.of_nat (length ess1) ->
  (exists e, e ∈ concat ess1 /\ e_name e = name1 /\ e_ino e = ino) ->
  Z.land flags RENAME_WHITEOUT = 0 ->
  wp (rename_transaction old new ino None flags) (rename_post s0) (World s (dbh n1 blk :: h0) calls).
Proof.
  intros Ed En Eb Ei Ef Ed2 En2 Eb2 Hk Hv Hmode Hblk Hex Hfl. unfold rename_transaction. rewrite Hfl.
  cbn [Z.eqb]. do 2 wp_step. apply wp_journal_start.
  2:{ intros e calls1 He. wp_step. eapply wp_rename_release; try done. intros calls2.
      apply rename_failed; [lia|done]. }
  intros calls1. wp_step. do 3 wp_step. eapply (wp_rename_body old new blk de); try done.
  - intros err calls2 He. unfold rename_end. do 2 wp_step. apply wp_journal_stop. intros _ calls3. wp_step.
    eapply wp_rename_release; try done. intros calls4. by apply rename_failed.
  - intros s' calls2 Hr. unfold rename_end. do 2 wp_step. apply wp_journal_stop. intros _ calls3. wp_step.
    eapply wp_rename_release; try done.
Qed.

(** The state before is one where both directories hold what they hold. *)
Lemma kept_refl s : linear n1 s ess1 -> linear n2 s ess2 -> kept s s.
Proof using. intros. split_and!; try done. Qed.

Lemma wp_rename flags s calls :
  linear n1 s ess1 -> linear n2 s ess2 -> valid_ino s ino -> S_ISDIR (i_mode (inode_of s ino)) = false ->
  Z.land flags RENAME_WHITEOUT = 0 ->
  wp (ext4_rename n1 name1 ino n2 name2 None flags) (rename_post s) (World s h0 calls).
Proof.
  intros Hl1 Hl2 Hv Hmode Hfl. pose proof (kept_refl s Hl1 Hl2) as Hk0.
  assert (Hfail : forall err calls, err <> 0 -> rename_post s err (World s h0 calls)).
  { intros. by apply rename_failed. }
  unfold ext4_rename. do 3 wp_step. unfold other_project.
  apply (wp_mono _ (fun _ w => exists calls, w = World s h0 calls)).
  { do 2 wp_step. case_match; repeat wp_step; eauto. }
  intros xdev w (calls1 & ->). destruct xdev; [wp_step; by apply Hfail|]. wp_step.
  cbn [app dquot_initialize_all].
  apply (wp_mono _ (fun _ w => exists calls, w = World s h0 calls)).
  { repeat (repeat wp_step; case_match); repeat wp_step; eauto. }
  intros retval w (calls2 & ->). destruct (Z.eqb_spec retval 0); cbn [negb]; [|wp_step; by apply Hfail].
  wp_step. eapply (wp_find_inlined Hmapped n1 name1 s ess1); try done. intros r calls3 Hr.
  destruct r as [|err|blk de]; [wp_step; by apply Hfail|wp_step; apply read_error_reads in Hr as [Hr _]; by apply Hfail|].
  destruct Hr as [Hblk Hrec]. destruct (record_entry n1 blk de name1 s ess1 Hl1 Hblk Hrec) as [Hent Hentn].
  pose proof (kept_looked s s n1 (LFound blk de) (or_introl eq_refl) Hk0) as Hk1.
  assert (Eb : dir_block (looked n1 (LFound blk de) s) n1 blk = dir_block s n1 blk).
  { destruct (looked_same n1 (LFound blk de) s) as [(_ & _ & _ & _ & E & _) _]. unfold dir_block. by rewrite E. }
  set (s1 := looked n1 (LFound blk de) s) in *. clearbody s1. cbn [found_ref app]. do 2 wp_step. rewrite Eb.
  destruct (Z.eqb_spec (de_inode (dir_block s n1 blk) de) ino) as [Ei|]; cbn [negb].
  2:{ eapply wp_rename_release; try done; intros; by apply rename_failed. }
  wp_step. eapply (wp_find_inlined Hmapped n2 name2 s1 ess2); try done; [by destruct Hk1 as (_ & ? & _)|].
  intros r2 calls4 Hr2. pose proof (kept_looked s s1 n2 r2 (or_intror eq_refl) Hk1) as Hk2.
  assert (Hgo : forall inlined calls, wp (rename_transaction
    (set_r_bh (Some (blk, de)) false (renament n1 name1)) (set_r_bh None inlined (renament n2 name2)) ino None flags)
    (rename_post s) (World (looked n2 r2 s1) (dbh n1 blk :: h0) calls)).
  { intros inlined calls5. eapply wp_rename_transaction; try done. by exists (ent (dir_block s n1 blk) de). }
  destruct r2 as [|err|blk2 de2].
  - repeat wp_step. apply Hgo.
  - eapply wp_rename_release; try done. intros. apply read_error_reads in Hr2 as [Hr2 _]. by apply rename_failed.
  - cbn [found_ref app]. unfold brelse, dbh. repeat wp_step. apply Hgo.
Qed.

(** C31: [ext4_rename2] of a file to a name that does not exist yet, in the same directory or
    in another one, without RENAME_EXCHANGE and RENAME_WHITEOUT.  Both directories are well
    formed and linear (the feature dir_index is off, no inline data, no holes, every block
    mapped), their blocks can be read and are verified, the names of the old one are unique, and
    the journal accepts every buffer and inode it is given.  On success exactly
    one entry was added to the new directory, the new name with the file's inode and type,
    and exactly one removed from the old one, the old name with that inode, even when the
    insertion moved it to another place; every link count is what it was.  On the errors that
    are left (such as no such name, no space, no handle) both directories hold the entries they held.
    No buffer or handle stays behind. *)
Theorem rename_file_correct flags s calls :
  linear n1 s ess1 -> linear n2 s ess2 -> valid_ino s ino -> S_ISDIR (i_mode (inode_of s ino)) = false ->
  Z.land flags RENAME_EXCHANGE = 0 -> Z.land flags RENAME_WHITEOUT = 0 ->
  wp (ext4_rename2 n1 name1 ino n2 name2 None flags) (rename_post s) (World s h0 calls).
Proof.
  intros Hl1 Hl2 Hv Hmode Hex Hfl. pose proof (kept_refl s Hl1 Hl2) as Hk0. unfold ext4_rename2.
  do 2 wp_step. case_match; [wp_step; by apply rename_failed|].
  case_match; [wp_step; by apply rename_failed|]. do 2 wp_step.
  destruct (Z.eqb_spec z0 0); cbn [negb]; [|wp_step; by apply rename_failed].
  rewrite Hex. cbn [Z.eqb negb]. by apply wp_rename.
Qed.
End File.
