(* ===== verification/ExtentRemove.v ===== *)
(** * Removing a range from an extent tree (fs/ext4/extents.c)

    [ext4_ext_remove_space]: the walk over the tree from the right, the removal of extents
    from a leaf with the release of their blocks, the removal of empty leaves from their
    parents; with the search for the next extent to the right, which hole punching needs.

    A cluster of a bigalloc file system may be shared by several extents: it is freed when
    the last of them goes.  The record [acct] holds that partial cluster and the counters
    that [ext4_rereserve_cluster] moves; it is passed along.  Outside the repository are
    the journal (with the credits it computes), the quota, the extent status tree and the
    block allocator: their answers are those of [Env], and the calls of [ext4_free_blocks]
    in the history say which blocks were freed.  The restart of a transaction drops
    [i_data_sem] when the journal calls its function. *)

From stdpp Require Import prelude list gmap strings.
From Stdlib Require Import ZArith Lia.
From S2P Require Import Prelude Kernel ExtentNode ExtentTree Layout Fs Namei EvfsExtent.

Local Open Scope string_scope.
Local Open Scope Z_scope.

Definition EXT4_FREE_BLOCKS_NOFREE_FIRST_CLUSTER : Z := 0x0010.
Definition EXT4_FREE_BLOCKS_NOFREE_LAST_CLUSTER : Z := 0x0020.
Definition EXT4_FREE_BLOCKS_RERESERVE_CLUSTER : Z := 0x0040.
Definition EXT4_INODE_EA_INODE : Z := 21.
Definition S_ISLNK (m : Z) : bool := Z.land m S_IFMT =? 0xA000.

(** [EXT4_C2B] of a 64-bit cluster number. *)
Definition C2B64 (sbi : ext4_sb_info) (cluster : Z) : Z := u64 (Z.shiftl cluster (s_cluster_bits sbi)).

(** ** The partial cluster *)

Inductive partial_state := initial | tofree | nofree.
#[export] Instance partial_state_eq_dec : EqDecision partial_state.
Proof. solve_decision. Defined.

Record partial_cluster := Partial { pc_pclu : Z; pc_lblk : Z; pc_state : partial_state }.

(** With the counters of reserved blocks of the inode and the file system. *)
Record acct := Acct {
  a_partial : partial_cluster;
  i_reserved_data_blocks : Z;
  s_dirtyclusters_counter : Z;
  s_freeclusters_counter : Z
}.
Definition set_partial (p : partial_cluster) (a : acct) : acct :=
  Acct p (i_reserved_data_blocks a) (s_dirtyclusters_counter a) (s_freeclusters_counter a).
Definition set_state (st : partial_state) (a : acct) : acct :=
  set_partial (Partial (pc_pclu (a_partial a)) (pc_lblk (a_partial a)) st) a.
Definition is_state (a : acct) (st : partial_state) : bool := bool_decide (pc_state (a_partial a) = st).

(** What the removal reads of the inode and the super block, and the quota credits of the
    journal code. *)
Class RemoveEnv := {
  rm_sbi : ext4_sb_info;
  rm_inode : inode;
  EXT4_MAXQUOTAS_TRANS_BLOCKS : Z
}.

Section Remove.
Context `{ExtFmt} `{Env} `{TreeEnv} `{RemoveEnv}.
Abbreviation X := (K xtree).

(** ** Blocks *)

Definition get_default_free_blocks_flags : X Z :=
  if S_ISDIR (i_mode rm_inode) || S_ISLNK (i_mode rm_inode) ||
     ext4_test_inode_flag rm_inode EXT4_INODE_EA_INODE
  then kret (Z.lor EXT4_FREE_BLOCKS_METADATA EXT4_FREE_BLOCKS_FORGET) else
  j <~ call_int "ext4_should_journal_data" [ino];;
  kret (if negb (j =? 0) then EXT4_FREE_BLOCKS_FORGET else 0).

Definition ext4_free_blocks (pblk count flags : Z) : X unit :=
  call_int "ext4_free_blocks" [pblk; count; flags];;; kret tt.

Definition ext4_rereserve_cluster (lblk : Z) (a : acct) : X acct :=
  call_int "dquot_reclaim_block" [ino; EXT4_C2B rm_sbi 1];;;
  acquire (Excl (LReservation ino));;;
  let a := Acct (a_partial a) (u32 (i_reserved_data_blocks a + 1)) (s_dirtyclusters_counter a + 1)
             (s_freeclusters_counter a) in
  release (Excl (LReservation ino));;;
  let a := Acct (a_partial a) (i_reserved_data_blocks a) (s_dirtyclusters_counter a)
             (s_freeclusters_counter a + 1) in
  call_int "ext4_remove_pending" [ino; lblk];;;
  kret a.

(** Blocks from [pblk] are freed, with the reservation of the cluster of [lblk] kept when
    it is pending. *)
Definition free_pending (pblk lblk flags : Z) (a : acct) : X acct :=
  pending <~ call_int "ext4_is_pending" [ino; lblk];;
  let flags := if negb (pending =? 0) then Z.lor flags EXT4_FREE_BLOCKS_RERESERVE_CLUSTER else flags in
  ext4_free_blocks pblk (s_cluster_ratio rm_sbi) flags;;;
  if has_flag flags EXT4_FREE_BLOCKS_RERESERVE_CLUSTER then ext4_rereserve_cluster lblk a else kret a.

(** The partial cluster is freed. *)
Definition free_partial (a : acct) : X acct :=
  flags <~ get_default_free_blocks_flags;;
  free_pending (C2B64 rm_sbi (pc_pclu (a_partial a))) (pc_lblk (a_partial a)) flags a.

(** [ext4_remove_blocks] for the tail [from .. to] of an extent; the answer is always 0. *)
Definition ext4_remove_blocks (ex : ext4_extent) (from to : Z) (a : acct) : X acct :=
  let ee_len := ext4_ext_get_actual_len ex in
  if (from <? ee_block ex) || negb (to =? u32 (u32 (ee_block ex + ee_len) - 1)) then kret a else
  let last_pblk := u64 (u64 (ext4_ext_pblock ex + ee_len) - 1) in
  a <~ (if negb (is_state a initial) && negb (pc_pclu (a_partial a) =? EXT4_B2C rm_sbi last_pblk) then
          a <~ (if is_state a tofree then free_partial a else kret a);;
          kret (set_state initial a)
        else kret a);;
  let num := u32 (u32 (ee_block ex + ee_len) - from) in
  let pblk := u64 (u64 (ext4_ext_pblock ex + ee_len) - num) in
  flags <~ get_default_free_blocks_flags;;
  r <~ (if negb (EXT4_LBLK_COFF rm_sbi to =? s_cluster_ratio rm_sbi - 1) &&
           (from <=? EXT4_LBLK_CMASK rm_sbi to) && negb (is_state a nofree) then
          a <~ free_pending (EXT4_PBLK_CMASK rm_sbi last_pblk) to flags a;;
          flags <~ get_default_free_blocks_flags;;
          kret (set_state initial a, flags)
        else kret (a, flags));;
  let '(a, flags) := r in
  let flags := Z.lor (Z.lor flags EXT4_FREE_BLOCKS_NOFREE_LAST_CLUSTER) EXT4_FREE_BLOCKS_NOFREE_FIRST_CLUSTER in
  ext4_free_blocks pblk num flags;;;
  let a := if negb (is_state a initial) && negb (pc_pclu (a_partial a) =? EXT4_B2C rm_sbi pblk)
           then set_state initial a else a in
  kret (if negb (EXT4_LBLK_COFF rm_sbi from =? 0) && (num =? ee_len) then
          if is_state a initial then set_partial (Partial (EXT4_B2C rm_sbi pblk) from tofree) a else a
        else set_state initial a).

(** ** Credits *)

(** Called by the journal before a restart. *)
Definition ext4_ext_trunc_restart_fn : X unit :=
  call_int "ext4_discard_preallocations" [ino];;; release (Excl (LDataSem ino)).

(** [ext4_datasem_ensure_credits]; the first answer says whether the journal called the
    function, the second is the result of [ext4_journal_ensure_credits_fn]. *)
Definition ext4_datasem_ensure_credits (check_cred restart_cred revoke_cred : Z) : X Z :=
  dropped <~ call_int "ext4_journal_ensure_credits_fn:fn" [check_cred; restart_cred; revoke_cred];;
  (if dropped =? 0 then kret tt else ext4_ext_trunc_restart_fn);;;
  ret <~ call_int "ext4_journal_ensure_credits_fn" [check_cred; restart_cred; revoke_cred];;
  (if dropped =? 0 then kret tt else acquire (Excl (LDataSem ino)));;;
  kret ret.

(** ** Empty leaves *)

(** [while (--depth >= 0)] of [ext4_ext_rm_idx]: the entry at level [k] was its node's first
    one, so its parent gets the new start. *)
Fixpoint rm_idx_loop (k : nat) (p : path) (err : Z) : X Z :=
  match k with
  | O => kret err
  | S k =>
      let c := pnth p (Z.of_nat (S k)) in
      match p_idx c with
      | Some 0 =>
          t <~ kget;;
          err <~ correct_level (pnth p (Z.of_nat k)) (ei_block (islot (node_at t (p_hdr c)) 0));;
          if negb (err =? 0) then kret err else rm_idx_loop k p err
      | _ => kret err
      end
  end.

(** [ext4_ext_rm_idx] *)
Definition ext4_ext_rm_idx (p : path) (depth : Z) : X Z :=
  let e := pnth p (depth - 1) in
  t <~ kget;;
  let nd := node_at t (p_hdr e) in
  match p_idx e with
  | None => koops
  | Some x =>
      let leaf := ext4_idx_pblock (islot nd x) in
      if eh_entries nd =? 0 then kret (- EFSCORRUPTED) else
      err <~ ext4_ext_get_access e;;
      if negb (err =? 0) then kret err else
      kmodify (fun t =>
        let nd := node_at t (p_hdr e) in
        let nd := if negb (x =? EXT_LAST nd)
                  then set_idx (memmove (n_idx nd) (Z.to_nat x) (Z.to_nat (x + 1)) (Z.to_nat (EXT_LAST nd - x))) nd
                  else nd in
        set_node (p_hdr e) (set_entries (u16 (eh_entries nd - 1)) nd) t);;;
      err <~ ext4_ext_dirty e;;
      if negb (err =? 0) then kret err else
      ext4_free_blocks leaf 1 (Z.lor EXT4_FREE_BLOCKS_METADATA EXT4_FREE_BLOCKS_FORGET);;;
      rm_idx_loop (Z.to_nat (depth - 1)) p err
  end.

(** ** A leaf *)

(** Extent [x] of the leaf at [l] keeps its first [num] blocks; without any it goes. *)
Definition cut_extent (l : nloc) (x num end_ : Z) (t : xtree) : xtree :=
  let nd := node_at t l in
  let e := slot nd x in
  let unwritten := ext4_ext_is_unwritten e in
  let e := if num =? 0 then ext4_ext_store_pblock e 0 else e in
  let e := set_ee_len e num in
  let e := if unwritten && negb (num =? 0) then ext4_ext_mark_unwritten e else e in
  let nd := set_slot x e nd in
  let nd :=
    if num =? 0 then
      let nd := if negb (end_ =? EXT_MAX_BLOCKS - 1) then
                  set_slot (EXT_LAST nd) (Ext 0 0 0)
                    (set_ext (memmove (n_ext nd) (Z.to_nat x) (Z.to_nat (x + 1)) (Z.to_nat (EXT_LAST nd - x))) nd)
                else nd in
      set_entries (u16 (eh_entries nd - 1)) nd
    else nd in
  set_node l nd t.

(** The credits for the removal of [a .. b] from extent [x]. *)
Definition ensure_rm_credits (depth x ex_len a b : Z) : X Z :=
  let credits := 7 + 2 * (ex_len / s_blocks_per_group rm_sbi) in
  let credits := if x =? 0 then credits + (depth + 1) else credits in
  let credits := credits + EXT4_MAXQUOTAS_TRANS_BLOCKS in
  meta <~ call_int "ext4_free_metadata_revoke_credits" [depth];;
  data <~ call_int "ext4_free_data_revoke_credits" [ino; u32 (u32 (b - a) + 1)];;
  ext4_datasem_ensure_credits credits credits (meta + data).

(** The loop of [ext4_ext_rm_leaf] from extent [n - 1] down: an error, or the extent it
    stopped before; whether the indexes above have to be corrected; the path. *)
Fixpoint rm_leaf_loop (n : nat) (p : path) (depth start end_ : Z) (correct_index : bool) (a : acct) :
    X ((Z + Z) * bool * acct * path) :=
  match n with
  | O => kret (inr (-1), correct_index, a, p)
  | S n =>
      let x := Z.of_nat n in
      t <~ kget;;
      let l := p_hdr (pnth p depth) in
      let ex := slot (node_at t l) x in
      let ex_len := ext4_ext_get_actual_len ex in
      if negb (start <? u32 (ee_block ex + ex_len)) then kret (inr x, correct_index, a, p) else
      let p := pset p depth (set_p_ext (Some x) (pnth p depth)) in
      let from := Z.max (ee_block ex) start in
      let last := u32 (u32 (ee_block ex + ex_len) - 1) in
      let to := Z.min last end_ in
      if end_ <? ee_block ex then
        let a := if 1 <? s_cluster_ratio rm_sbi
                 then set_partial (Partial (EXT4_B2C rm_sbi (ext4_ext_pblock ex)) (pc_lblk (a_partial a)) nofree) a
                 else a in
        rm_leaf_loop n p depth start end_ correct_index a
      else if negb (to =? last) then kret (inl (- EFSCORRUPTED), correct_index, a, p) else
      let num := if negb (from =? ee_block ex) then u32 (from - ee_block ex) else 0 in
      let correct_index := correct_index || (x =? 0) in
      err <~ ensure_rm_credits (ext_depth t) x ex_len from to;;
      if negb (err =? 0) then kret (inl (if 0 <? err then - EAGAIN else err), correct_index, a, p) else
      err <~ ext4_ext_get_access (pnth p depth);;
      if negb (err =? 0) then kret (inl err, correct_index, a, p) else
      a <~ ext4_remove_blocks ex from to a;;
      kmodify (cut_extent l x num end_);;;
      err <~ ext4_ext_dirty (pnth p depth);;
      if negb (err =? 0) then kret (inl err, correct_index, a, p) else
      rm_leaf_loop n p depth start end_ correct_index a
  end.

(** [ext4_ext_rm_leaf]: the error, the partial cluster and the path. *)
Definition ext4_ext_rm_leaf (p : path) (start end_ : Z) (a : acct) : X (Z * acct * path) :=
  t <~ kget;;
  let depth := ext_depth t in
  let l := p_hdr (pnth p depth) in
  let n := match p_ext (pnth p depth) with Some x => x + 1 | None => eh_entries (node_at t l) end in
  r <~ rm_leaf_loop (Z.to_nat n) p depth start end_ false a;;
  let '(stop, correct_index, a, p) := r in
  match stop with
  | inl err => kret (err, a, p)
  | inr x =>
      t <~ kget;;
      let nd := node_at t l in
      err <~ (if correct_index && negb (eh_entries nd =? 0) then ext4_ext_correct_indexes p else kret 0);;
      t <~ kget;;
      let ex := slot (node_at t l) x in
      a <~ (if is_state a tofree && (0 <=? x) then
              let pblk := u64 (u64 (ext4_ext_pblock ex + ext4_ext_get_actual_len ex) - 1) in
              a <~ (if negb (pc_pclu (a_partial a) =? EXT4_B2C rm_sbi pblk) then free_partial a else kret a);;
              kret (set_state initial a)
            else kret a);;
      err <~ (if (err =? 0) && (eh_entries (node_at t l) =? 0) &&
                 (match p_bh (pnth p depth) with Some _ => true | None => false end)
              then ext4_ext_rm_idx p depth else kret err);;
      kret (err, a, p)
  end.

(** ** The next extent to the right *)

(** From the index [ix] down its leftmost path; [n] levels of indexes lie between it and
    the leaf. *)
Fixpoint right_down (n : nat) (ix : ext4_extent_idx) : X (Z + ext4_extent) :=
  bh <~ read_extent_tree_block ix (Z.of_nat n) 0;;
  match bh with
  | inl err => kret (inl err)
  | inr b =>
      t <~ kget;;
      let nd := node_at t (InBlk b) in
      release (Ref (RBh b));;;
      match n with
      | O => kret (inr (slot nd 0))
      | S n => right_down n (islot nd 0)
      end
  end.

(** The lowest level above [n] whose index is not its node's last one. *)
Fixpoint index_to_right (p : path) (n : nat) : X (option (Z * ext4_extent_idx)) :=
  match n with
  | O => kret None
  | S d =>
      t <~ kget;;
      let e := pnth p (Z.of_nat d) in
      let nd := node_at t (p_hdr e) in
      match p_idx e with
      | Some k => if negb (k =? EXT_LAST nd) then kret (Some (Z.of_nat d, islot nd (k + 1))) else index_to_right p d
      | None => koops
      end
  end.

(** Every index of the path is its node's first one. *)
Fixpoint first_indexes (p : path) (n : nat) : bool :=
  match n with
  | O => true
  | S d => bool_decide (p_idx (pnth p (Z.of_nat d)) = Some 0) && first_indexes p d
  end.

(** [ext4_ext_search_right]: an error, or the extent found. *)
Definition ext4_ext_search_right (p : path) (logical : Z) : X (Z + option ext4_extent) :=
  t <~ kget;;
  let depth := p_depth (pnth p 0) in
  let e := pnth p depth in
  let nd := node_at t (p_hdr e) in
  match p_ext e with
  | None => if depth =? 0 then kret (inr None) else koops
  | Some x =>
      let ex := slot nd x in
      if logical <? ee_block ex then
        if negb (x =? 0) || negb (first_indexes p (Z.to_nat depth)) then kret (inl (- EFSCORRUPTED))
        else kret (inr (Some ex))
      else if logical <? u32 (ee_block ex + ext4_ext_get_actual_len ex) then kret (inl (- EFSCORRUPTED))
      else if negb (x =? EXT_LAST nd) then kret (inr (Some (slot nd (x + 1))))
      else
        right <~ index_to_right p (Z.to_nat depth);;
        match right with
        | None => kret (inr None)
        | Some (d, ix) =>
            r <~ right_down (Z.to_nat (depth - d - 1)) ix;;
            kret (match r with inl err => inl err | inr ex => inr (Some ex) end)
        end
  end.

(** ** The walk *)

(** [ext4_ext_more_to_rm] of a level with an index; [None] is its BUG_ON. *)
Definition ext4_ext_more_to_rm (nd : node) (e : ext4_ext_path) : option bool :=
  match p_idx e with
  | None => None
  | Some x => Some (if x <? 0 then false else negb (eh_entries nd =? p_block e))
  end.

(** [brelse(path[i].p_bh); path[i].p_bh = NULL] *)
Definition drop_level (i : Z) (p : path) : X path :=
  (match p_bh (pnth p i) with Some b => release (Ref (RBh b)) | None => kret tt end);;;
  kret (pset p i (clear_bh (pnth p i))).

(** A level whose index is to be visited next: the last one, or the one before. *)
Definition next_index (nd : node) (e : ext4_ext_path) : ext4_ext_path :=
  match p_idx e with
  | None => Path (eh_entries nd + 1) (p_depth e) (p_maxdepth e) (p_ext e) (Some (EXT_LAST nd)) (p_hdr e) (p_bh e)
  | Some x => set_p_idx (Some (x - 1)) e
  end.

Definition set_p_block (b : Z) (e : ext4_ext_path) : ext4_ext_path :=
  Path b (p_depth e) (p_maxdepth e) (p_ext e) (p_idx e) (p_hdr e) (p_bh e).

(** One round of the walk at level [i]; it ends with the path, the error and the account.
    The header of a level is set when its block is read, not at the next visit. *)
Definition remove_round (depth start end_ : Z) (st : path * Z * acct) :
    X (path * Z * acct + path * Z * acct) :=
  let '(p, i, a) := st in
  if i <? 0 then kret (inr (p, 0, a)) else
  if i =? depth then
    r <~ ext4_ext_rm_leaf p start end_ a;;
    let '(err, a, p) := r in
    p <~ drop_level i p;;
    if negb (err =? 0) then kret (inr (p, err, a)) else kret (inl (p, i - 1, a))
  else
    t <~ kget;;
    let nd := node_at t (p_hdr (pnth p i)) in
    let p := pset p i (next_index nd (pnth p i)) in
    let e := pnth p i in
    match ext4_ext_more_to_rm nd e, p_idx e with
    | Some true, Some x =>
        bh <~ read_extent_tree_block (islot nd x) (depth - i - 1) EXT4_EX_NOCACHE;;
        match bh with
        | inl err => kret (inr (pset p (i + 1) (Path 0 0 0 None None InRoot None), err, a))
        | inr b =>
            if depth <? i + 1 then kret (inr (p, - EFSCORRUPTED, a)) else
            t <~ kget;;
            let p := pset p (i + 1) (Path 0 0 0 None None (InBlk b) (Some b)) in
            let p := pset p i (set_p_block (eh_entries (node_at t (p_hdr e))) e) in
            kret (inl (p, i + 1, a))
        end
    | Some false, _ =>
        err <~ (if (eh_entries nd =? 0) && (0 <? i) then ext4_ext_rm_idx p i else kret 0);;
        p <~ drop_level i p;;
        if negb (err =? 0) then kret (inr (p, err, a)) else kret (inl (p, i - 1, a))
    | _, _ => koops
    end.

(** Every index of a tree of at most 33 levels is visited at most once going down and
    once going up. *)
Definition remove_rounds : positive := Pos.pow 2 600.

(** The extent that covers the last block of the hole is split, and the cluster right of
    the hole noted: the error ([Some]: the removal ends with it), path and account.  [err]
    is the value of [err] before; a flat tree without extents does not change it. *)
Definition punch_split (p : path) (end_ err : Z) (a : acct) : X (option Z * option path * acct) :=
  t <~ kget;;
  let depth := ext_depth t in
  let e := pnth p depth in
  match p_ext e with
  | None => kret (Some (if negb (depth =? 0) then - EFSCORRUPTED else err), Some p, a)
  | Some x =>
      let ex := slot (node_at t (p_hdr e)) x in
      let ee_block := ee_block ex in
      let ex_end := u32 (u32 (ee_block + ext4_ext_get_actual_len ex) - 1) in
      if (ee_block <=? end_) && (end_ <? ex_end) then
        let a := if 1 <? s_cluster_ratio rm_sbi then
                   set_partial (Partial (EXT4_B2C rm_sbi (u64 (u64 (ext4_ext_pblock ex + end_ - ee_block) + 1)))
                                  (pc_lblk (a_partial a)) nofree) a
                 else a in
        r <~ ext4_force_split_extent_at p (u32 (end_ + 1)) true;;
        let '(err, p') := r in
        kret (if err <? 0 then Some err else None, ppath_of p', a)
      else if (1 <? s_cluster_ratio rm_sbi) && (ex_end <=? end_) && is_state a initial then
        r <~ ext4_ext_search_right p (u32 (ex_end + 1));;
        match r with
        | inl err => kret (Some err, Some p, a)
        | inr found =>
            let pblk := match found with Some ex => ext4_ext_pblock ex | None => 0 end in
            kret (None, Some p,
                  if negb (pblk =? 0)
                  then set_partial (Partial (EXT4_B2C rm_sbi pblk) (pc_lblk (a_partial a)) nofree) a else a)
        end
      else kret (None, Some p, a)
  end.

(** [path[k].p_block] of the levels [k = n .. 1]: none of their indexes was visited. *)
Fixpoint touch_levels (t : xtree) (n : nat) (p : path) : path :=
  match n with
  | O => p
  | S n' => touch_levels t n' (pset p (Z.of_nat n)
             (set_p_block (eh_entries (node_at t (p_hdr (pnth p (Z.of_nat n)))) + 1) (pnth p (Z.of_nat n))))
  end.

(** Where the walk starts: at the leaf of the path, or at the root with a new path; an
    error with the path to be freed, [None] for [-ENOMEM]. *)
Definition start_walk (p : option path) : X (option (Z * path) + path * Z) :=
  t <~ kget;;
  let depth := ext_depth t in
  match p with
  | Some p => kret (inr (touch_levels t (Z.to_nat (depth - 1)) p, depth))
  | None =>
      mem <~ call_ptr "kcalloc" [depth + 1];;
      match mem with
      | PtrOk =>
          let p := pset (replicate (Z.to_nat (depth + 1)) (Path 0 0 0 None None InRoot None))
                     0 (Path 0 depth depth None None InRoot None) in
          if negb (ext4_ext_check t (x_root t) true depth 0 =? 0)
          then kret (inl (Some (- EFSCORRUPTED, p))) else kret (inr (p, 0))
      | _ => kret (inl None)
      end
  end.

(** What follows the walk: the last partial cluster, and an empty tree becomes flat. *)
Definition finish_walk (p : path) (err : Z) (a : acct) : X (Z * acct) :=
  a <~ (if is_state a tofree && (err =? 0) then a <~ free_partial a;; kret (set_state initial a) else kret a);;
  t <~ kget;;
  if negb (eh_entries (x_root t) =? 0) then kret (err, a) else
  err <~ ext4_ext_get_access (pnth p 0);;
  if negb (err =? 0) then kret (err, a) else
  kmodify (fun t => let nd := x_root t in
    set_node InRoot (Node (eh_magic nd) (eh_entries nd) (u16 ext4_ext_space_root) 0 (eh_generation nd)
                       (n_ext nd) (n_idx nd)) t);;;
  err <~ ext4_ext_dirty (pnth p 0);;
  kret (err, a).

(** [ext4_journal_stop(handle)] *)
Definition stop_journal : X unit := call_int "ext4_journal_stop" [];;; release (Ref RHandle).

(** From [again] on, at most [tries] times. *)
Fixpoint remove_again (tries : nat) (start end_ err : Z) (a : acct) : X Z :=
  match tries with
  | O => koops
  | S tries =>
      let out err p a :=
        ext4_free_ext_path p;;;
        if err =? - EAGAIN then remove_again tries start end_ err a else stop_journal;;; kret err in
      r <~ (if end_ <? EXT_MAX_BLOCKS - 1 then
              f <~ ext4_find_extent end_ None (Z.lor EXT4_EX_NOCACHE EXT4_EX_NOFAIL);;
              match f with
              | inl err => kret (inl err)
              | inr p => s <~ punch_split p end_ err a;; kret (inr s)
              end
            else kret (inr (None, None, a)));;
      match r with
      | inl err => stop_journal;;; kret err
      | inr (Some err, p, a) => out err p a
      | inr (None, p, a) =>
          w <~ start_walk p;;
          match w with
          | inl None => stop_journal;;; kret (- ENOMEM)
          | inl (Some (err, p)) => out err (Some p) a
          | inr (p, i) =>
              t <~ kget;;
              r <~ kloop remove_rounds (remove_round (ext_depth t) start end_) (p, i, a);;
              let '(p, err, a) := r in
              r <~ finish_walk p err a;;
              let '(err, a) := r in
              out err (Some p) a
          end
      end
  end.

(** [ext4_ext_remove_space]; the journal restarts the transaction at most [tries - 1]
    times.  The counters of reserved blocks start from [a]. *)
Definition ext4_ext_remove_space (tries : nat) (start end_ : Z) (a : acct) : X Z :=
  t <~ kget;;
  revoke <~ call_int "ext4_free_metadata_revoke_credits" [ext_depth t];;
  h <~ call_ptr "ext4_journal_start_with_revoke" [ino; ext_depth t + 1; revoke];;
  match h with
  | PtrErr e => kret e
  | PtrNull => koops
  | PtrOk =>
      acquire (Ref RHandle);;;
      remove_again tries start end_ 0 (set_partial (Partial 0 0 initial) a)
  end.
End Remove.
