(* ===== verification/ExtentRemoveSpec.v ===== *)
(** * Removing a range removes that range

    Theorems about ExtentRemove.v.  A leaf maps exactly what it mapped outside the range
    removed so far, and the blocks freed are exactly the physical blocks of what was
    removed: nothing is lost and nothing is freed that is still in use.  The removal goes
    from the right to the left, so its progress is one block number, and an error or a
    restart of the transaction leaves a tree where the range right of it is gone. *)

From stdpp Require Import prelude list gmap strings.
From Stdlib Require Import ZArith Lia.
From S2P Require Import Prelude Kernel ExtentNode ExtentTree ExtentTreeSpec Layout Fs Namei EvfsExtent ExtentRemove.

Local Open Scope Z_scope.

(** ** Maps and their physical blocks *)

Abbreviation emap := (Z -> option (Z * bool)).

(** The map without [s .. e]. *)
Definition cut_map (m : emap) (s e : Z) : emap := fun b => if (s <=? b) && (b <=? e) then None else m b.

(** The physical blocks of [s .. e]. *)
Definition phys_at (m : emap) (b : Z) : list Z := match m b with Some (p, _) => [p] | None => [] end.
Definition phys_range (m : emap) (s e : Z) : list Z := seqZ s (e - s + 1) ≫= phys_at m.

Lemma phys_range_ext m m' s e : (forall b, s <= b <= e -> m b = m' b) -> phys_range m s e = phys_range m' s e.
Proof.
  intros Hm. unfold phys_range. assert (Hall : Forall (fun b => m b = m' b) (seqZ s (e - s + 1))).
  { apply Forall_forall. intros b [H1 H2]%elem_of_seqZ. apply Hm. lia. }
  induction Hall as [|b l Hb _ IH]; [done|]. cbn [mbind list_bind] in *. unfold phys_at at 1 3. by rewrite Hb, IH.
Qed.
Lemma phys_range_split m s k e :
  s <= k -> k <= e + 1 -> phys_range m s e = phys_range m s (k - 1) ++ phys_range m k e.
Proof.
  intros Hs He. unfold phys_range. rewrite <- bind_app. f_equal.
  replace (e - s + 1) with ((k - 1 - s + 1) + (e - k + 1)) by lia.
  rewrite seqZ_app by lia. by replace (s + (k - 1 - s + 1)) with k by lia.
Qed.
Lemma phys_range_none m s e : (forall b, s <= b <= e -> m b = None) -> phys_range m s e = [].
Proof.
  intros Hm. rewrite (phys_range_ext m (fun _ => None)) by done.
  unfold phys_range. by induction (seqZ _ _).
Qed.
Lemma phys_range_linear m p s e :
  (forall b, s <= b <= e -> fst <$> m b = Some (p + (b - s))) -> phys_range m s e = seqZ p (e - s + 1).
Proof.
  intros Hm. unfold phys_range.
  assert (Hgen : forall k i, (forall b, i <= b < i + Z.of_nat k -> fst <$> m b = Some (p + (b - s))) ->
    seqZ i (Z.of_nat k) ≫= phys_at m = seqZ (p + (i - s)) (Z.of_nat k)).
  { induction k as [|k IH]; intros i Hi; [done|].
    rewrite !(seqZ_cons _ (Z.of_nat (S k))) by lia. cbn [mbind list_bind].
    assert (phys_at m i = [p + (i - s)]) as ->.
    { unfold phys_at. specialize (Hi i ltac:(lia)). destruct (m i) as [[q u]|]; [|done]. by injection Hi as ->. }
    cbn [app]. f_equal. replace (Z.pred (Z.of_nat (S k))) with (Z.of_nat k) by lia.
    replace (Z.succ (p + (i - s))) with (p + (Z.succ i - s)) by lia. apply IH. intros b Hb. apply Hi. lia. }
  destruct (Z.leb_spec 0 (e - s + 1)) as [Hle|Hgt].
  - replace (e - s + 1) with (Z.of_nat (Z.to_nat (e - s + 1))) by lia. rewrite Hgen.
    + f_equal. lia.
    + intros b Hb. apply Hm. lia.
  - by rewrite !seqZ_nil by lia.
Qed.

(** ** One extent of a leaf *)

Section Leaf.
Context `{ExtFmtOk}.

(** Extent [e] without its blocks from [from] on. *)
Definition kept_part (e : ext4_extent) (from : Z) : list ext4_extent :=
  if from =? ee_block e then [] else [left_half e from].

Lemma left_half_spec e from :
  ext_ok e -> ee_block e < from < ext_end e ->
  ext_ok (left_half e from) /\ ee_block (left_half e from) = ee_block e /\
  ext_end (left_half e from) = from /\ forall b, phys (left_half e from) b = phys e b.
Proof.
  intros (Hb & Hl & He) Hs. unfold ext_end, ext4_ext_get_actual_len in *.
  assert (Hn : 0 < from - ee_block e <= len_actual (ee_len e)) by lia.
  apply len_halved in Hn.
  unfold left_half, ext_ok, ext_end, phys, ext4_ext_is_unwritten, ext4_ext_get_actual_len, ext4_ext_pblock,
    set_ee_len, ext4_ext_mark_unwritten in *.
  destruct (len_is_unwritten (ee_len e)) eqn:Hu; cbn [ee_block ee_len ee_start] in *; destruct Hn as [Hu1 Hl1];
    split_and!; try lia; intros b; f_equal; congruence.
Qed.

Lemma kept_part_map cur l1 e l2 from :
  leaf_ok cur (l1 ++ e :: l2) -> ee_block e <= from < ext_end e ->
  leaf_ok cur (l1 ++ kept_part e from ++ l2) /\
  forall b, mapping (l1 ++ kept_part e from ++ l2) b = cut_map (mapping (l1 ++ e :: l2)) from (ext_end e - 1) b.
Proof.
  intros Hl Hf. assert (He : ext_ok e) by (apply (leaf_ok_elem _ _ e Hl), elem_of_app; right; apply list_elem_of_here).
  assert (Hnone : forall b, from <= b < ext_end e -> mapping (l1 ++ kept_part e from ++ l2) b = None).
  { intros b Hb. apply leaf_ok_app in Hl as [Hl1 Hl2]. apply mapping_none. intros x Hx. apply covers_false.
    rewrite !elem_of_app in Hx. destruct Hx as [Hx|[Hx|Hx]].
    - right. pose proof Hl1 as Hl1'. clear -Hx Hl1' Hf Hb. revert cur Hl1'. induction l1 as [|y l1 IH]; [by apply not_elem_of_nil in Hx|].
      intros cur (Hy & Hc & Hl1). apply elem_of_cons in Hx as [->|Hx]; [|by eapply IH].
      destruct (leaf_ok_elem _ _ e Hl1) as [_ ?]; [apply elem_of_app; right; apply list_elem_of_here|]. lia.
    - unfold kept_part in Hx. destruct (Z.eqb_spec from (ee_block e)); [by apply not_elem_of_nil in Hx|].
      apply list_elem_of_singleton in Hx as ->. destruct (left_half_spec e from He) as (_ & _ & -> & _); lia.
    - left. destruct (leaf_ok_elem _ _ x Hl2 Hx) as [_ ?]. lia. }
  assert (Hok : leaf_ok cur (l1 ++ kept_part e from ++ l2)).
  { apply leaf_ok_app in Hl as [Hl1 Hl2]. clear Hnone. revert cur Hl1. induction l1 as [|y l1 IH]; intros cur Hl1.
    - destruct Hl1 as (_ & Hc & _). simpl. unfold kept_part. destruct (Z.eqb_spec from (ee_block e)).
      + eapply leaf_ok_mono; [|exact Hl2]. destruct He as (? & ? & ?). unfold ext_end. lia.
      + destruct (left_half_spec e from He) as (Ho & Eb & Ee & _); [lia|]. simpl.
        split_and!; [done|lia|]. eapply leaf_ok_mono; [|exact Hl2]. lia.
    - destruct Hl1 as (Hy & Hc & Hl1). simpl. split_and!; [done|done|by apply IH]. }
  split; [done|]. intros b. unfold cut_map. destruct ((from <=? b) && (b <=? ext_end e - 1)) eqn:Hb.
  - reflect_bools. apply Hnone. lia.
  - rewrite !mapping_app. destruct (mapping l1 b); [done|]. cbn [mapping].
    unfold kept_part. destruct (Z.eqb_spec from (ee_block e)) as [->|Hne]; cbn [app mapping].
    + destruct (covers e b) eqn:Hc; [|done]. unfold covers in Hc. reflect_bools; lia.
    + destruct (left_half_spec e from He) as (_ & Eb & Ee & Em); [lia|].
      unfold covers. rewrite Eb, Ee, Em. repeat case_match; reflect_bools; try done; lia.
Qed.
End Leaf.

Section Cut.
Context `{ExtFmtOk} `{Env} `{TreeEnv}.

(** The code's length of what is kept. *)
Definition kept_len (e : ext4_extent) (from : Z) : Z :=
  if negb (from =? ee_block e) then u32 (from - ee_block e) else 0.

Lemma entries_take nd n :
  node_wf nd -> 0 <= n <= eh_entries nd -> take (Z.to_nat n) (n_ext nd) = take (Z.to_nat n) (entries nd).
Proof. intros (? & ? & ?) Hn. unfold entries. rewrite take_take. f_equal. lia. Qed.

(** An extent that keeps some of its blocks. *)
Lemma cut_tail l x from end_ t :
  let nd := node_at t l in
  let e := slot nd x in
  node_wf nd -> ext_ok e -> 0 <= x < eh_entries nd -> ee_block e < from < ext_end e ->
  exists nd', cut_extent l x (kept_len e from) end_ t = set_node l nd' t /\
    entries nd' = take (Z.to_nat x) (entries nd) ++ [left_half e from] ++ drop (S (Z.to_nat x)) (entries nd) /\
    node_wf nd' /\ eh_max nd' = eh_max nd /\ eh_depth nd' = eh_depth nd.
Proof.
  intros nd e Hwf (Hb & Hlen & He) Hx Hf. unfold cut_extent, kept_len. fold nd e.
  rewrite (proj2 (Z.eqb_neq from _)) by lia. cbn [negb]. unfold ext_end in *.
  rewrite u32_small by lia. rewrite (proj2 (Z.eqb_neq (from - _) 0)) by lia. cbn [negb]. rewrite andb_true_r.
  eexists. split; [reflexivity|]. fold (left_half e from).
  destruct Hwf as (Hn & Hm & Hu). unfold node_wf, set_slot, set_ext. cbn [eh_entries eh_max eh_depth n_ext].
  split_and!; rewrite ?length_insert; try done; try lia.
  unfold entries. cbn [eh_entries n_ext]. rewrite take_insert_lt by lia. rewrite insert_take_drop.
  - done.
  - rewrite length_take. lia.
Qed.

Lemma take_memmove {A} (a : list A) x k :
  (x + 1 + k <= length a)%nat -> take (x + k) (memmove a x (x + 1) k) = take x a ++ take k (drop (x + 1) a).
Proof.
  intros Hk. unfold memmove. rewrite (assoc app). apply take_app_length'.
  rewrite length_app, !length_take, length_drop. lia.
Qed.

(** An extent that goes. *)
Lemma cut_whole l x end_ t :
  let nd := node_at t l in
  let e := slot nd x in
  node_wf nd -> 0 <= x < eh_entries nd -> (end_ = EXT_MAX_BLOCKS - 1 -> x = EXT_LAST nd) ->
  exists nd', cut_extent l x 0 end_ t = set_node l nd' t /\
    entries nd' = take (Z.to_nat x) (entries nd) ++ drop (S (Z.to_nat x)) (entries nd) /\
    node_wf nd' /\ eh_max nd' = eh_max nd /\ eh_depth nd' = eh_depth nd.
Proof.
  intros nd e Hwf Hx Hlast. pose proof Hwf as (Hn & Hm & Hu). unfold cut_extent. fold nd e. cbn [Z.eqb].
  rewrite andb_false_r. set (e' := set_ee_len _ 0). eexists. split; [reflexivity|].
  assert (Hlen : (Z.to_nat x < length (n_ext nd))%nat) by lia. unfold EXT_LAST in *.
  destruct (Z.eqb_spec end_ (EXT_MAX_BLOCKS - 1)) as [Hend|_]; cbn [negb].
  - specialize (Hlast Hend). unfold node_wf, entries, set_slot, set_ext, set_entries. cbn [eh_entries eh_max eh_depth n_ext].
    rewrite length_insert, u16_small by lia. split_and!; try done; try lia.
    rewrite take_insert_ge by lia. rewrite take_take, drop_ge by (rewrite length_take; lia).
    rewrite app_nil_r. f_equal. lia.
  - unfold node_wf, entries, set_slot, set_ext, set_entries. cbn [eh_entries eh_max eh_depth n_ext].
    assert (Hml : length (memmove (<[Z.to_nat x := e']> (n_ext nd)) (Z.to_nat x) (Z.to_nat (x + 1))
                   (Z.to_nat (eh_entries nd - 1 - x))) = length (n_ext nd)).
    { unfold memmove. rewrite !length_app, length_take, length_take, !length_drop, length_insert. lia. }
    rewrite length_insert, Hml, u16_small by lia. split_and!; try done; try lia.
    rewrite take_insert_ge by lia.
    replace (Z.to_nat (eh_entries nd - 1)) with (Z.to_nat x + Z.to_nat (eh_entries nd - 1 - x))%nat by lia.
    replace (Z.to_nat (x + 1)) with (Z.to_nat x + 1)%nat by lia.
    rewrite take_memmove by (rewrite length_insert; lia).
    rewrite take_insert_ge, drop_insert_lt, take_take, skipn_firstn_comm by lia.
    f_equal; [f_equal; lia|]. f_equal; [lia|]. f_equal. lia.
Qed.
End Cut.

(** ** Progress *)

Section Progress.
Context `{ExtFmtOk} `{Env} `{TreeEnv}.

(** Of the map [m0] the blocks [s .. end_] are gone from the leaf [nd], and what they
    mapped to was freed since the history [h0]. *)
Record progress (m0 : emap) (h0 : list call) (start end_ s : Z) (nd0 nd : node) (h : list call) : Prop := {
  pr_range : start <= s <= end_ + 1;
  pr_wf : node_wf nd;
  pr_ok : leaf_ok 0 (entries nd);
  pr_max : eh_max nd = eh_max nd0;
  pr_depth : eh_depth nd = eh_depth nd0;
  pr_map : forall b, mapping (entries nd) b = cut_map m0 s end_ b;
  pr_edge : forall e, e ∈ entries nd -> ee_block e <= end_ -> ext_end e <= end_ + 1;
  pr_freed : freed h ≡ₚ phys_range m0 s end_ ++ freed h0
}.

(** Nothing is mapped from [s] on within the range. *)
Lemma progress_done m0 h0 start end_ s nd0 nd h :
  progress m0 h0 start end_ s nd0 nd h -> (forall b, start <= b < s -> mapping (entries nd) b = None) ->
  progress m0 h0 start end_ start nd0 nd h.
Proof.
  intros [Hr Hwf Hok Hm Hd Hmap Hedge Hf] Hnone.
  assert (Hn0 : forall b, start <= b < s -> m0 b = None).
  { intros b Hb. specialize (Hmap b). rewrite Hnone in Hmap by done. unfold cut_map in Hmap.
    destruct (Z.leb_spec s b); [lia|done]. }
  split; try done; [lia| |].
  - intros b. rewrite Hmap. unfold cut_map.
    destruct (Z.leb_spec s b), (Z.leb_spec start b), (Z.leb_spec b end_); cbn [andb]; try done; try lia.
    apply Hn0. lia.
  - rewrite (phys_range_split m0 start s end_) by lia.
    rewrite (phys_range_none m0 start (s - 1)); [done|]. intros b Hb. apply Hn0. lia.
Qed.

(** The tail of one extent of the leaf goes. *)
Lemma progress_cut m0 h0 start end_ s nd0 nd nd' h h' l1 e l2 from :
  progress m0 h0 start end_ s nd0 nd h ->
  entries nd = l1 ++ e :: l2 -> entries nd' = l1 ++ kept_part e from ++ l2 ->
  node_wf nd' -> eh_max nd' = eh_max nd -> eh_depth nd' = eh_depth nd ->
  ee_block e <= from < ext_end e -> start <= from -> ext_end e - 1 <= end_ ->
  (forall b, ext_end e <= b <= end_ -> mapping (entries nd) b = None) ->
  freed h' = seqZ (ext4_ext_pblock e + (from - ee_block e)) (ext_end e - from) ++ freed h ->
  progress m0 h0 start end_ from nd0 nd' h'.
Proof.
  intros [Hr Hwf Hok Hm Hd Hmap Hedge Hf] He He' Hwf' Hm' Hd' Hfrom Hst Hend Hnone Hfreed.
  rewrite He in Hok, Hedge. destruct (kept_part_map 0 l1 e l2 from Hok Hfrom) as [Hok' Hmap'].
  assert (Hin : forall b, ee_block e <= b < ext_end e -> mapping (entries nd) b = Some (phys e b)).
  { intros b Hb. rewrite He. eapply mapping_covered; [exact Hok| |by apply covers_spec].
    apply elem_of_app. right. apply list_elem_of_here. }
  assert (Hs : ext_end e - 1 < s).
  { destruct (Z.lt_ge_cases (ext_end e - 1) s) as [|Hge]; [done|]. specialize (Hmap (ext_end e - 1)).
    rewrite Hin in Hmap by lia. unfold cut_map in Hmap.
    rewrite (proj2 (Z.leb_le s _)), (proj2 (Z.leb_le _ end_)) in Hmap by lia. done. }
  assert (Hm0 : forall b, b < s -> m0 b = mapping (entries nd) b).
  { intros b Hb. rewrite Hmap. unfold cut_map. by rewrite (proj2 (Z.leb_gt s b)) by lia. }
  split; try done; [lia|by rewrite He'|congruence|congruence| | |].
  - intros b. rewrite He', Hmap', <- He. unfold cut_map.
    destruct ((from <=? b) && (b <=? end_)) eqn:E1.
    + reflect_bools. destruct (Z.leb_spec b (ext_end e - 1)); [by rewrite (proj2 (Z.leb_le from b)) by lia|].
      rewrite andb_false_r. apply Hnone. lia.
    + assert ((from <=? b) && (b <=? ext_end e - 1) = false) as ->.
      { apply andb_false_iff in E1 as [E1|E1]; [by rewrite E1|]. apply Z.leb_gt in E1.
        rewrite (proj2 (Z.leb_gt b (ext_end e - 1))) by lia. apply andb_false_r. }
      apply andb_false_iff in E1 as [E1%Z.leb_gt|E1%Z.leb_gt]; [by rewrite Hm0 by lia|].
      rewrite Hmap. unfold cut_map. by rewrite (proj2 (Z.leb_gt b end_)), andb_false_r by lia.
  - intros y Hy Hyb. rewrite He', !elem_of_app in Hy. destruct Hy as [Hy|[Hy|Hy]];
      [apply Hedge; [set_solver|done]| |apply Hedge; [set_solver|done]].
    destruct (leaf_ok_elem _ _ e Hok) as [Heok _]; [set_solver|].
    unfold kept_part in Hy. destruct (Z.eqb_spec from (ee_block e)); [by apply not_elem_of_nil in Hy|].
    apply list_elem_of_singleton in Hy as ->. destruct (left_half_spec e from Heok) as (_ & _ & -> & _); lia.
  - rewrite Hfreed, Hf. rewrite (phys_range_split m0 from s end_) by lia. rewrite (assoc app). f_equiv.
    rewrite (phys_range_split m0 from (ext_end e) (s - 1)) by lia.
    rewrite (phys_range_none m0 (ext_end e) (s - 1)), app_nil_r.
    + f_equiv. rewrite (phys_range_linear m0 (ext4_ext_pblock e + (from - ee_block e)));
        [by replace (ext_end e - 1 - from + 1) with (ext_end e - from) by lia|].
      intros b Hb. rewrite Hm0, Hin by lia. unfold phys. simpl. f_equal. lia.
    + intros b Hb. rewrite Hm0 by lia. apply Hnone. lia.
Qed.
End Progress.

(** ** The calls of the removal *)

Section Effects.
Context `{ExtFmtOk} `{Env} `{TreeEnv} `{RemoveEnv}.

(** The file system has no clusters. *)
Definition no_clusters : Prop := s_cluster_ratio rm_sbi = 1 /\ s_cluster_bits rm_sbi = 0.

(** The lock [i_data_sem] is held, once. *)
Definition data_sem : res := Excl (LDataSem ino).
Definition holds_sem (rest held : list res) : Prop :=
  held ≡ₚ data_sem :: rest /\ existsb (blocks_on data_sem) rest = false.

Lemma set_initial a : is_state a initial = true -> set_state initial a = a.
Proof. destruct a as [[p l []] i d f]; done. Qed.

Lemma wp_free_flags t held calls (Q : Z -> world xtree -> Prop) :
  (forall flags calls', quiet calls calls' -> Q flags (World t held calls')) ->
  wp get_default_free_blocks_flags Q (World t held calls).
Proof.
  intros HQ. unfold get_default_free_blocks_flags. case_match; repeat wp_step; apply HQ; quiet_done.
Qed.

(** Without clusters, exactly the blocks of the tail are freed. *)
Lemma wp_remove_blocks ex from a t held calls (Q : acct -> world xtree -> Prop) :
  no_clusters -> ext_ok ex -> ee_block ex <= from < ext_end ex -> is_state a initial = true ->
  (forall calls', freed calls' =
       seqZ (ext4_ext_pblock ex + (from - ee_block ex)) (ext_end ex - from) ++ freed calls ->
     (credit_calls calls <= credit_calls calls')%nat -> Q a (World t held calls')) ->
  wp (ext4_remove_blocks ex from (ext_end ex - 1) a) Q (World t held calls).
Proof.
  intros [Hr Hb] (Hb0 & Hl0 & He0) Hf Ha HQ. unfold ext4_remove_blocks, EXT4_LBLK_COFF.
  pose proof (fmt_pblock_range (ee_start ex)) as Hp. fold (ext4_ext_pblock ex) in Hp.
  assert (Hl1 : ext4_ext_get_actual_len ex < 65536).
  { destruct (fmt_range (ee_len ex)) as [_ Hle]. destruct fmt_limits. unfold ext4_ext_get_actual_len in *.
    destruct (len_is_unwritten (ee_len ex)); lia. }
  unfold ext_end in *. rewrite !(u32_small (ee_block ex + _)) by lia. rewrite !u32_small by lia.
  rewrite (proj2 (Z.ltb_ge from _)), Z.eqb_refl by lia. cbn [orb negb]. rewrite Ha, Hr. cbn [negb andb].
  do 2 wp_step. wp_step. apply wp_free_flags. intros flags calls1 (Hf1 & Hc1 & _).
  change (1 - 1) with 0. rewrite !Z.land_0_r. cbn [Z.eqb negb andb]. do 2 wp_step.
  unfold ext4_free_blocks. repeat wp_step. rewrite Ha. cbn [negb andb]. rewrite (set_initial a Ha).
  rewrite !(u64_small (ext4_ext_pblock ex + _)) by lia. rewrite !u64_small by lia. apply HQ.
  - unfold freed. cbn [mbind list_bind]. fold (freed calls1). rewrite Hf1.
    unfold free_call. cbn [fst snd]. rewrite String.eqb_refl. do 2 f_equal; lia.
  - etrans; [exact Hc1|]. unfold credit_calls. rewrite filter_cons. case_decide; simpl; lia.
Qed.

(** After [k] requests for credits the journal neither restarts the transaction nor asks
    for another try. *)
Definition restart_bound (k : nat) : Prop := forall h a, (k <= credit_calls h)%nat ->
  env_int h "ext4_journal_ensure_credits_fn"%string a <= 0 /\
  env_int h "ext4_journal_ensure_credits_fn"%string a <> - EAGAIN.

(** The journal refused credits, or restarted the transaction. *)
Definition refused : Prop := exists h a, env_int h "ext4_journal_ensure_credits_fn"%string a <> 0.

Lemma credit_calls_cons c h :
  credit_calls (c :: h) = ((if credit_call c then 1 else 0) + credit_calls h)%nat.
Proof. unfold credit_calls. rewrite filter_cons. case_decide as E; rewrite ?E; [done|]. by destruct (credit_call c). Qed.

Lemma holds_drop rest held : holds_sem rest held ->
  exists held', drop_res data_sem held = Some held' /\ existsb (blocks_on data_sem) held' = false /\
    holds_sem rest (data_sem :: held').
Proof.
  intros [Hp Hb]. destruct (drop_res_app data_sem held []) as (held' & Hd & Hp').
  { rewrite Hp. apply list_elem_of_here. }
  rewrite !app_nil_r in Hd. exists held'. rewrite Hp in Hp'. apply Permutation_cons_inv in Hp'. split_and!; [done| |].
  - destruct (existsb _ held') eqn:E; [|done]. apply existsb_exists in E as (x & Hx%list_elem_of_In & Ex).
    rewrite <- Hp' in Hx. rewrite <- Hb. symmetry. apply existsb_exists. exists x. split; [by apply list_elem_of_In|done].
  - split; [by rewrite Hp'|done].
Qed.

(** A request for credits keeps the semaphore, whatever the journal does to it meanwhile. *)
Lemma wp_datasem_credits k rest check restart revoke t held calls (Q : Z -> world xtree -> Prop) :
  restart_bound k -> holds_sem rest held ->
  (forall ret held' calls', holds_sem rest held' -> quiet calls calls' -> (ret <> 0 -> refused) ->
     (0 < ret \/ ret = - EAGAIN -> (credit_calls calls < k /\ credit_calls calls < credit_calls calls')%nat) ->
     Q ret (World t held' calls')) ->
  wp (ext4_datasem_ensure_credits check restart revoke) Q (World t held calls).
Proof.
  intros Hk Hh HQ. unfold ext4_datasem_ensure_credits, ext4_ext_trunc_restart_fn. do 2 wp_step.
  assert (Hret : forall held' h c1 c2 c3 rv, holds_sem rest held' -> quiet calls h ->
    rv = env_int h "ext4_journal_ensure_credits_fn"%string [c1; c2; c3] ->
    Q rv (World t held' (("ext4_journal_ensure_credits_fn"%string, [c1; c2; c3]) :: h))).
  { intros held' h c1 c2 c3 rv Hheld Hq Hrv. apply HQ; [done|etrans; [exact Hq|by apply quiet_cons]|intros Hne; do 2 eexists; by rewrite <- Hrv|].
    intros Hpos. rewrite credit_calls_cons. cbn [credit_call fst String.eqb]. destruct Hq as [_ Hle].
    split; [|simpl; lia]. destruct (Nat.lt_ge_cases (credit_calls calls) k) as [|Hge]; [done|].
    destruct (Hk h [c1; c2; c3]) as [? ?]; [lia|]. lia. }
  destruct (Z.eqb_spec z 0) as [_|_].
  - repeat wp_step. eapply Hret; [done| |symmetry; eassumption]; quiet_done.
  - destruct (holds_drop rest held Hh) as (held' & Hd & Hb & Hh'). repeat wp_step.
    eapply wp_release; [exact Hd|]. cbn [w_st w_held w_calls]. repeat wp_step.
    eapply Hret; [done| |symmetry; eassumption]; quiet_done.
Qed.

Lemma wp_ensure_rm_credits k rest depth x len from to t held calls (Q : Z -> world xtree -> Prop) :
  restart_bound k -> holds_sem rest held ->
  (forall ret held' calls', holds_sem rest held' -> quiet calls calls' -> (ret <> 0 -> refused) ->
     (0 < ret \/ ret = - EAGAIN -> (credit_calls calls < k /\ credit_calls calls < credit_calls calls')%nat) ->
     Q ret (World t held' calls')) ->
  wp (ensure_rm_credits depth x len from to) Q (World t held calls).
Proof.
  intros Hk Hh HQ. unfold ensure_rm_credits. do 4 wp_step. apply (wp_datasem_credits k rest); [done..|].
  intros ret held' calls' Hs Hq Hrf Hag. apply HQ; [done| |done|].
  - etrans; [|exact Hq]. quiet_done.
  - intros Hr. destruct (Hag Hr) as [Ha Hb]. rewrite !credit_calls_cons in Ha, Hb. cbn in Ha, Hb. lia.
Qed.
End Effects.

(** ** The leaf *)

(** Nodes other than the one at [l] are the same. *)
Definition same_off (l : nloc) (t t' : xtree) : Prop := forall l', l' <> l -> node_at t' l' = node_at t l'.

(** Paths that differ in the extent of one level only. *)
Definition same_path (depth : Z) (p p' : path) : Prop :=
  length p' = length p /\ (exists x, pnth p' depth = set_p_ext x (pnth p depth)) /\
  forall i, 0 <= i -> i <> depth -> pnth p' i = pnth p i.

Lemma same_path_refl depth p : same_path depth p p.
Proof. split; [done|]. split; [|done]. exists (p_ext (pnth p depth)). by destruct (pnth p depth). Qed.
Lemma same_path_set depth p x :
  0 <= depth < Z.of_nat (length p) -> same_path depth p (pset p depth (set_p_ext x (pnth p depth))).
Proof.
  intros Hd. split; [apply length_pset|]. split; [exists x; by apply pnth_pset_eq|].
  intros i Hi Hne. apply pnth_pset_ne; [lia|done|congruence].
Qed.
Lemma same_path_trans depth p1 p2 p3 : same_path depth p1 p2 -> same_path depth p2 p3 -> same_path depth p1 p3.
Proof.
  intros (L1 & [x E1] & O1) (L2 & [y E2] & O2). split; [congruence|]. split; [exists y; by rewrite E2, E1|].
  intros i Hi Hne. by rewrite O2, O1.
Qed.

Section Leaf.
Context `{ExtFmtOk} `{Env} `{TreeEnv} `{RemoveEnv}.

(** A cut of the leaf, for what is kept of extent [x]. *)
Lemma cut_spec l x from end_ t :
  let nd := node_at t l in
  let e := slot nd x in
  node_wf nd -> leaf_ok 0 (entries nd) -> 0 <= x < eh_entries nd -> ee_block e <= from < ext_end e ->
  (end_ = EXT_MAX_BLOCKS - 1 -> x = EXT_LAST nd) ->
  exists nd', cut_extent l x (kept_len e from) end_ t = set_node l nd' t /\
    entries nd' = take (Z.to_nat x) (entries nd) ++ kept_part e from ++ drop (S (Z.to_nat x)) (entries nd) /\
    node_wf nd' /\ eh_max nd' = eh_max nd /\ eh_depth nd' = eh_depth nd.
Proof.
  intros nd e Hwf Hok Hx Hf Hlast. destruct (slot_ok nd 0 x Hwf Hok Hx) as [He _]. unfold kept_part.
  destruct (Z.eqb_spec from (ee_block e)) as [->|Hne].
  - unfold kept_len. rewrite Z.eqb_refl. by apply cut_whole.
  - apply cut_tail; try done. subst e nd; lia.
Qed.

(** What is fixed during the removal from one leaf. *)
Variables (k : nat) (rest : list res) (m0 : emap) (h0 : list call) (start end_ depth : Z) (l : nloc)
  (t0 : xtree) (nd0 : node).
Hypothesis Hj : journal_ok.
Hypothesis Hclu : no_clusters.
Hypothesis Hk : restart_bound k.
Hypothesis Hrange : 0 <= start /\ end_ < 2 ^ 32 - 1.

(** The leaf between two rounds: the progress [s], and the extents from [n] on lie outside
    the range. *)
Record leaf_inv (n : nat) (s : Z) (p : path) (t : xtree) (held : list res) (h : list call) : Prop := {
  li_loc : p_hdr (pnth p depth) = l;
  li_len : 0 <= depth < Z.of_nat (length p);
  li_progress : progress m0 h0 start end_ s nd0 (node_at t l) h;
  li_n : Z.of_nat n <= eh_entries (node_at t l);
  li_done : forall i e, (n <= i)%nat -> entries (node_at t l) !! i = Some e ->
    end_ < ee_block e \/ ext_end e <= start;
  li_off : same_off l t0 t;
  li_sem : holds_sem rest held
}.

(** What the loop leaves. *)
Definition loop_post (h : list call) (p : path) (r : (Z + Z) * bool * acct * path) (a : acct)
    (w : world xtree) : Prop :=
  let '(stop, ci, a', p') := r in
  a' = a /\ same_path depth p p' /\ same_off l t0 (w_st w) /\ holds_sem rest (w_held w) /\
  (credit_calls h <= credit_calls (w_calls w))%nat /\
  exists s, progress m0 h0 start end_ s nd0 (node_at (w_st w) l) (w_calls w) /\
    match stop with
    | inl err => err <> 0 /\ refused /\
        (err = - EAGAIN -> credit_calls h < k /\ credit_calls h < credit_calls (w_calls w))%nat
    | inr x => s = start /\ (ci = true -> p_ext (pnth p' depth) <> None)
    end.

(** Nothing of the range is mapped when the extents that are left lie before it. *)
Lemma leaf_inv_done n s p t held h :
  leaf_inv n s p t held h ->
  (forall i e, (i < n)%nat -> entries (node_at t l) !! i = Some e -> ext_end e <= start) ->
  progress m0 h0 start end_ start nd0 (node_at t l) h.
Proof using.
  intros [Hl Hlen Hp Hn Hd Ho Hs] Hbefore. eapply progress_done; [exact Hp|].
  pose proof (pr_range _ _ _ _ _ _ _ _ Hp) as Hr.
  intros b Hb. apply mapping_none. intros e [i Hi]%list_elem_of_lookup. apply covers_false.
  destruct (Nat.lt_ge_cases i n) as [Hin|Hin]; [specialize (Hbefore i e Hin Hi); lia|].
  destruct (Hd i e Hin Hi); lia.
Qed.

(** Sorted extents at two places. *)
Lemma sorted_at cur es i j x y :
  leaf_ok cur es -> es !! i = Some x -> es !! j = Some y -> (i < j)%nat -> ext_end x <= ee_block y.
Proof using. intros Hok Hi Hj' Hij. by eapply leaf_ok_lookup_lt. Qed.

(** Extent [n] overlaps the range: its part in the range is cut off. *)
Lemma leaf_inv_cut n s p t held h t1 p' held' h' :
  let e := slot (node_at t l) (Z.of_nat n) in
  let from := Z.max (ee_block e) start in
  leaf_inv (S n) s p t held h -> ee_block e <= end_ -> start < ext_end e ->
  same_nodes t t1 -> same_path depth p p' -> holds_sem rest held' ->
  freed h' = seqZ (ext4_ext_pblock e + (from - ee_block e)) (ext_end e - from) ++ freed h ->
  exists nd', cut_extent l (Z.of_nat n) (kept_len e from) end_ t1 = set_node l nd' t1 /\
    forall t2, same_nodes (set_node l nd' t1) t2 -> leaf_inv n from p' t2 held' h'.
Proof using H0 Hrange.
  intros e from [Hl Hlen Hp Hn Hd Ho Hs] Hend Hst Ht1 (Hpl & [x Hpx] & _) Hs' Hf.
  pose proof (pr_edge _ _ _ _ _ _ _ _ Hp) as Hedge.
  set (nd := node_at t l) in *.
  pose proof (pr_wf _ _ _ _ _ _ _ _ Hp) as Hwf. pose proof (pr_ok _ _ _ _ _ _ _ _ Hp) as Hok.
  pose proof (length_entries _ Hwf) as Hle.
  assert (He : entries nd !! n = Some e).
  { rewrite <- (Nat2Z.id n). apply entries_slot; [done|lia]. }
  destruct (leaf_ok_elem _ _ e Hok (list_elem_of_lookup_2 _ _ _ He)) as [(Hb & Hpos & Hmax) _].
  pose proof (Hedge e (list_elem_of_lookup_2 _ _ _ He) Hend) as Hee.
  assert (Hfr : ee_block e <= from < ext_end e) by (unfold from, ext_end in *; lia).
  assert (Hafter : forall i y, (n < i)%nat -> entries nd !! i = Some y -> end_ < ee_block y).
  { intros i y Hi Hy. pose proof (sorted_at _ _ _ _ _ _ Hok He Hy Hi).
    destruct (leaf_ok_elem _ _ y Hok (list_elem_of_lookup_2 _ _ _ Hy)) as [(? & ? & ?) _].
    destruct (Hd i y ltac:(lia) Hy); unfold ext_end in *; lia. }
  assert (End : node_at t1 l = nd) by apply Ht1.
  destruct (cut_spec l (Z.of_nat n) from end_ t1) as (nd' & Hcut & Hent & Hwf' & Hm' & Hd');
    rewrite ?End; try done; try lia.
  { rewrite fmt_max_blocks. intros Hm. destruct (decide (Z.of_nat n = EXT_LAST nd)) as [|Hne]; [done|].
    unfold EXT_LAST in Hne. destruct (lookup_lt_is_Some_2 (entries nd) (S n)) as [y Hy]; [lia|].
    pose proof (Hafter (S n) y ltac:(lia) Hy).
    destruct (leaf_ok_elem _ _ y Hok (list_elem_of_lookup_2 _ _ _ Hy)) as [(? & ? & ?) _]. unfold ext_end in *; lia. }
  rewrite End in Hcut, Hent, Hm', Hd'. fold e in Hcut, Hent. rewrite Nat2Z.id in Hent.
  exists nd'. split; [done|]. intros t2 Ht2.
  assert (E2 : node_at t2 l = nd') by (rewrite (Ht2 l); apply node_at_set_node).
  assert (Hent2 : forall i y, (n <= i)%nat -> entries nd' !! i = Some y ->
    (exists j, (n < j)%nat /\ entries nd !! j = Some y) \/ from <> ee_block e /\ y = left_half e from).
  { intros i y Hi Hy. rewrite Hent in Hy. rewrite lookup_app_r in Hy by (rewrite length_take; lia).
    rewrite length_take in Hy. unfold kept_part in Hy. destruct (Z.eqb_spec from (ee_block e)).
    - left. cbn [app] in Hy. rewrite lookup_drop in Hy. eexists. split; [|exact Hy]. lia.
    - destruct (i - _)%nat as [|d] eqn:Ei in Hy; [right; split; [done|by injection Hy]|left].
      change (drop (S n) (entries nd) !! d = Some y) in Hy. rewrite lookup_drop in Hy.
      eexists. split; [|exact Hy]. lia. }
  split; rewrite ?E2; try done.
  - by rewrite Hpx.
  - by rewrite Hpl.
  - eapply (progress_cut _ _ _ _ _ _ nd nd' _ _ (take n (entries nd)) e (drop (S n) (entries nd)));
      [exact Hp|by rewrite take_drop_middle|done|done|done|done|done|unfold from; lia|lia| |done].
    intros b Hb'. apply mapping_none. intros y [i Hi]%list_elem_of_lookup. apply covers_false.
    destruct (Nat.lt_trichotomy i n) as [Hin|[->|Hin]].
    + pose proof (sorted_at _ _ _ _ _ _ Hok Hi He Hin). lia.
    + rewrite He in Hi. injection Hi as <-. lia.
    + pose proof (Hafter i y Hin Hi). lia.
  - pose proof (length_entries _ Hwf') as Hle'. rewrite <- Hle', Hent, !length_app, length_take. lia.
  - intros i y Hi Hy. destruct (Hent2 i y Hi Hy) as [(j & Hj1 & Hj2)|[Hne ->]]; [left; by eapply Hafter|right].
    destruct (left_half_spec e from) as (_ & _ & -> & _); [done|lia|unfold from in *; lia].
  - intros l' Hl'. rewrite (Ht2 l'), node_at_set_node_ne, (Ht1 l') by done. by apply Ho.
Qed.

(** An extent right of the range stays. *)
Lemma leaf_inv_skip n s p t held h :
  leaf_inv (S n) s p t held h -> end_ < ee_block (slot (node_at t l) (Z.of_nat n)) ->
  leaf_inv n s (pset p depth (set_p_ext (Some (Z.of_nat n)) (pnth p depth))) t held h.
Proof using.
  intros [Hl Hlen Hp Hn Hd Ho Hs] Hsk. pose proof (pr_wf _ _ _ _ _ _ _ _ Hp) as Hwf.
  split; rewrite ?length_pset, ?pnth_pset_eq by done; try done; [lia|].
  intros i e Hi He. destruct (decide (i = n)) as [->|]; [left|apply (Hd i e); [lia|done]].
  rewrite <- (Nat2Z.id n), entries_slot in He by (done || lia). by injection He as <-.
Qed.

Lemma wp_rm_leaf_loop n : forall p ci a t held calls s (Q : (Z + Z) * bool * acct * path -> world xtree -> Prop),
  is_state a initial = true -> leaf_inv n s p t held calls -> (ci = true -> p_ext (pnth p depth) <> None) ->
  (forall r w, loop_post calls p r a w -> Q r w) ->
  wp (rm_leaf_loop n p depth start end_ ci a) Q (World t held calls).
Proof using H0 Hj Hclu Hk Hrange.
  induction n as [|n IH]; intros p ci a t held calls s Q Ha Hinv Hci HQ; cbn [rm_leaf_loop].
  { wp_step. apply HQ. unfold loop_post. cbn [w_st w_held w_calls]. pose proof Hinv as [Hl Hlen Hp Hn Hd Ho Hs].
    split_and!; try done; [apply same_path_refl|]. exists start. split; [|done].
    eapply leaf_inv_done; [exact Hinv|]. intros i e Hi. lia. }
  do 2 wp_step. pose proof Hinv as [Hl Hlen Hp Hn Hd Ho Hs]. rewrite Hl.
  pose proof (pr_edge _ _ _ _ _ _ _ _ Hp) as Hedge.
  set (nd := node_at t l) in *. set (e := slot nd (Z.of_nat n)).
  pose proof (pr_wf _ _ _ _ _ _ _ _ Hp) as Hwf. pose proof (pr_ok _ _ _ _ _ _ _ _ Hp) as Hok.
  destruct (slot_ok nd 0 (Z.of_nat n) Hwf Hok ltac:(lia)) as [(Hb & Hpos & Hmax) _]. fold e in Hb, Hpos, Hmax.
  assert (Hen : entries nd !! n = Some e) by (rewrite <- (Nat2Z.id n); apply entries_slot; [done|lia]).
  fold (ext_end e). rewrite (u32_small (ext_end e)) by (unfold ext_end in *; lia).
  destruct (Z.ltb_spec start (ext_end e)) as [Hst|Hst]; cbn [negb].
  2:{ wp_step. apply HQ. unfold loop_post. cbn [w_st w_held w_calls]. split_and!; try done; [apply same_path_refl|].
      exists start. split; [|done]. eapply leaf_inv_done; [exact Hinv|]. intros i y Hi Hy. fold nd in Hy.
      destruct (decide (i = n)) as [->|]; [rewrite Hen in Hy; by injection Hy as <-|].
      pose proof (sorted_at _ _ _ _ _ _ Hok Hy Hen ltac:(lia)). unfold ext_end in *. lia. }
  set (p' := pset p depth _). assert (Hpp : same_path depth p p') by by apply same_path_set.
  assert (Hp' : p_ext (pnth p' depth) <> None) by (unfold p'; rewrite pnth_pset_eq by done; done).
  assert (Hl' : p_hdr (pnth p' depth) = l) by (unfold p'; by rewrite pnth_pset_eq by done).
  destruct (Z.ltb_spec end_ (ee_block e)) as [Hsk|Hov].
  { destruct Hclu as [-> _]. cbn [Z.ltb Z.compare Pos.compare Pos.compare_cont].
    eapply (IH p' ci a); [done|by apply leaf_inv_skip|done|]. intros [[[stop ci'] a'] p2] w (-> & Hp2 & Hrest). apply HQ.
    split; [done|]. split; [by eapply same_path_trans|exact Hrest]. }
  pose proof (Hedge e (list_elem_of_lookup_2 _ _ _ Hen) Hov) as Hee.
  rewrite u32_small by (unfold ext_end in *; lia). rewrite Z.min_l, Z.eqb_refl by lia. cbn [negb].
  set (from := Z.max (ee_block e) start). fold (kept_len e from).
  assert (Hstop : forall err ci t' held' calls', err <> 0 -> refused ->
    (err = - EAGAIN -> credit_calls calls < k /\ credit_calls calls < credit_calls calls')%nat ->
    same_nodes t t' -> holds_sem rest held' -> quiet calls calls' ->
    Q (inl err, ci, a, p') (World t' held' calls')).
  { intros err ci1 t' held' calls' He Hrf Hag Hn' Hs' (Hq1 & Hq2 & _). apply HQ. unfold loop_post. cbn [w_st w_held w_calls].
    split_and!; try done; [by intros l' Hne; rewrite (Hn' l'); apply Ho|]. exists s. split; [|done].
    rewrite (Hn' l). destruct Hp. split; try done. by rewrite Hq1. }
  wp_step. apply (wp_ensure_rm_credits k rest); [done|done|]. intros ret held1 calls1 Hs1 Hq1 Hrf Hret.
  destruct (Z.eqb_spec ret 0) as [->|Hne]; cbn [negb].
  2:{ wp_step. apply Hstop; try done; [|by apply Hrf|].
      - destruct (Z.ltb_spec 0 ret); [done|lia].
      - destruct (Z.ltb_spec 0 ret); intros; apply Hret; auto. }
  wp_step. apply wp_get_access; [done|]. cbn [w_st w_held w_calls]. intros t1 calls2 Ht1 Hq2. cbn [Z.eqb negb].
  assert (Hfr : ee_block e <= from < ext_end e) by (unfold from, ext_end in *; lia).
  wp_step. apply wp_remove_blocks; [done|done|done|done|]. intros calls3 Hf3 Hc3.
  destruct (leaf_inv_cut n s p t held calls t1 p' held1 calls3) as (nd' & Hcut & Hinv'); try done.
  { fold nd e from. rewrite Hf3. f_equal. destruct Hq1 as [E1 _], Hq2 as [E2 _]. congruence. }
  fold nd e from in Hcut. do 2 wp_step. rewrite Hcut.
  wp_step. apply wp_dirty; [done|]. cbn [w_st w_held w_calls]. intros t2 calls4 Ht2 [Hq4 Hc4]. cbn [Z.eqb negb].
  eapply (IH p' _ a); [done| |done|].
  - specialize (Hinv' t2 Ht2). destruct Hinv' as [Hl2 Hlen2 Hp2 Hn2 Hd2 Ho2 Hs2]. split; try done.
    fold nd e from in Hp2. destruct Hp2. split; try done. by rewrite Hq4.
  - assert (Hcc : (credit_calls calls <= credit_calls calls4)%nat).
    { destruct Hq1 as [_ ?], Hq2 as [_ ?]. lia. }
    intros [[[stop ci'] a'] p2] w (-> & Hp2 & Hof & Hse & Hcr & s' & Hpr & Hst'). apply HQ.
    split; [done|]. split; [by eapply same_path_trans|]. split_and!; try done; [lia|]. exists s'. split; [done|].
    destruct stop; [|done]. destruct Hst' as (? & ? & Hag). split_and!; [done..|]. intros E. specialize (Hag E). lia.
Qed.
End Leaf.
