(* ===== verification/ExtentRemoveFlat.v ===== *)
(** * Removing a range from a tree of depth 0

    [ext4_ext_remove_space] on an inode whose extents are in the inode itself: the search
    and the split at the end of the range, the walk, the tries the journal asks for.  On
    top of ExtentRemoveSpec.v. *)

From stdpp Require Import prelude list gmap strings.
From Stdlib Require Import ZArith Lia.
From S2P Require Import Prelude Kernel ExtentNode ExtentTree ExtentTreeSpec Layout Fs Namei EvfsExtent ExtentRemove.
From S2P Require Import ExtentRemoveSpec.

Local Open Scope Z_scope.

(** ** A tree whose leaf is in the inode *)

Section Flat.
Context `{ExtFmtOk} `{Env} `{TreeEnv} `{RemoveEnv}.
Variables (k : nat) (rest : list res) (m0 : emap) (h0 : list call) (start end_ : Z) (nd0 : node) (t0 : xtree).
Hypothesis Hj : journal_ok.
Hypothesis Hclu : no_clusters.
Hypothesis Hk : restart_bound k.
Hypothesis Hrange : 0 <= start /\ end_ < 2 ^ 32 - 1.
Hypothesis Hnd0 : eh_depth nd0 = 0.

(** What makes the removal fail: the journal, or a root that truncation finds corrupt. *)
Definition failed : Prop :=
  refused \/ end_ = EXT_MAX_BLOCKS - 1 /\ ext4_ext_check t0 (x_root t0) true 0 0 <> 0.

(** The root leaf after some progress; an error may ask for another try. *)
Definition flat_post (h : list call) (err : Z) (w : world xtree) : Prop :=
  same_off InRoot t0 (w_st w) /\ holds_sem rest (w_held w) /\
  (credit_calls h <= credit_calls (w_calls w))%nat /\
  exists s, progress m0 h0 start end_ s nd0 (x_root (w_st w)) (w_calls w) /\
    (err = 0 -> s = start) /\ (err <> 0 -> failed) /\
    (err = - EAGAIN -> refused /\ credit_calls h < k /\ credit_calls h < credit_calls (w_calls w))%nat.

(** How many extents the loop visits. *)
Definition to_visit (p : path) (nd : node) : Z :=
  match p_ext (pnth p 0) with Some x => x + 1 | None => eh_entries nd end.

Lemma flat_path_same p p' ex : flat_path p ex -> same_path 0 p p' -> flat_path p' (p_ext (pnth p' 0)).
Proof using.
  intros (Hl & Hd & Hh & Hb & _) (Hl' & [x Hx] & _). unfold flat_path. rewrite Hx, Hl'. by split_and!.
Qed.

Lemma wp_rm_leaf_flat p a t held calls s (Q : Z * acct * path -> world xtree -> Prop) :
  flat_path p (p_ext (pnth p 0)) -> is_state a initial = true ->
  leaf_inv rest m0 h0 start end_ 0 InRoot t0 nd0 (Z.to_nat (to_visit p (x_root t))) s p t held calls ->
  (forall err p' w, flat_path p' (p_ext (pnth p' 0)) -> flat_post calls err w -> Q (err, a, p') w) ->
  wp (ext4_ext_rm_leaf p start end_ a) Q (World t held calls).
Proof.
  intros Hfp Ha Hinv HQ. unfold ext4_ext_rm_leaf. do 2 wp_step.
  assert (Hdep : ext_depth t = 0).
  { unfold ext_depth. destruct Hinv as [_ _ Hp _ _ _ _]. rewrite <- Hnd0. exact (pr_depth _ _ _ _ _ _ _ _ Hp). }
  rewrite Hdep. pose proof Hfp as (Hlen & _ & Hh & Hb & _). rewrite Hh. cbn [node_at]. fold (to_visit p (x_root t)).
  wp_step. eapply (wp_rm_leaf_loop k rest m0 h0); [done..|exact Hinv|done|].
  intros [[[stop ci] a'] p'] [t' held' calls'] (-> & Hpp & Hoff & Hsem & Hcc & s' & Hpr & Hstop).
  cbn [w_st w_held w_calls node_at] in *. pose proof (flat_path_same p p' _ Hfp Hpp) as Hfp'.
  assert (Hdep' : ext_depth t' = 0) by (unfold ext_depth; rewrite <- Hnd0; exact (pr_depth _ _ _ _ _ _ _ _ Hpr)).
  destruct stop as [err|x].
  { wp_step. apply HQ; [done|]. split_and!; try done. exists s'. destruct Hstop as (? & ? & Hag). split_and!; try done; [by left|].
    intros E. destruct (Hag E). by split_and!. }
  destruct Hstop as [-> Hci].
  assert (Hend : forall err calls'', err = 0 -> calls'' = calls' -> Q (err, a, p') (World t' held' calls'')).
  { intros err ? -> ->. apply HQ; [done|]. split_and!; try done. by exists start. }
  do 2 wp_step. wp_step.
  apply (wp_mono _ (fun err w => err = 0 /\ w = World t' held' calls')).
  { destruct (ci && _) eqn:E; [|by wp_step]. apply andb_true_iff in E as [-> _].
    unfold ext4_ext_correct_indexes. do 2 wp_step. rewrite Hdep'.
    specialize (Hci eq_refl). destruct (p_ext (pnth p' 0)); [|done]. cbn [Z.eqb]. by wp_step. }
  intros err ? [-> ->]. do 2 wp_step.
  assert (is_state a tofree = false) as -> by (unfold is_state in *; by destruct (pc_state (a_partial a))).
  cbn [andb]. do 2 wp_step. pose proof Hfp' as (_ & _ & _ & -> & _). rewrite andb_false_r. do 2 wp_step. by apply Hend.
Qed.

(** The walk: the leaf, then the end. *)
Lemma wp_walk_flat p a t held calls s (Q : path * Z * acct -> world xtree -> Prop) :
  flat_path p (p_ext (pnth p 0)) -> is_state a initial = true ->
  leaf_inv rest m0 h0 start end_ 0 InRoot t0 nd0 (Z.to_nat (to_visit p (x_root t))) s p t held calls ->
  (forall err p' w, flat_path p' (p_ext (pnth p' 0)) -> flat_post calls err w -> Q (p', err, a) w) ->
  wp (kloop remove_rounds (remove_round 0 start end_) (p, 0, a)) Q (World t held calls).
Proof.
  intros Hfp Ha Hinv HQ.
  apply (wp_kloop _ (fun st w => st = (p, 0, a) /\ w = World t held calls \/
      exists p', st = (p', -1, a) /\ flat_path p' (p_ext (pnth p' 0)) /\ flat_post calls 0 w)
    (fun st _ => st.1.2 + 1)); [|by left|done].
  intros [[p1 i] a1] w [[[= -> -> ->] ->]|(p' & [= -> -> ->] & Hp' & Hpost)]; unfold remove_round.
  - cbn [Z.ltb Z.compare Z.eqb]. wp_step. eapply (wp_rm_leaf_flat p a t); [done..|].
    intros err p' w Hp' Hpost. wp_step. unfold drop_level. pose proof Hp' as (Hl & Hd & Hh & Hb & _). rewrite Hb.
    do 3 wp_step.
    assert (Hclr : pset p' 0 (clear_bh (pnth p' 0)) = p').
    { destruct p' as [|e p'']; [simpl in *; lia|]. change (p_bh e = None) in Hb. unfold pset, pnth. cbn.
      destruct e as [? ? ? ? ? ? bh]. simpl in *. by subst bh. }
    rewrite Hclr. destruct (Z.eqb_spec err 0) as [->|]; cbn [negb]; wp_step.
    + split; [right; by exists p'|]. simpl. lia.
    + by apply HQ.
  - cbn [Z.ltb Z.compare]. wp_step. by apply HQ.
Qed.

(** *** The end of a try *)

Lemma progress_quiet s nd h h' :
  progress m0 h0 start end_ s nd0 nd h -> quiet h h' -> progress m0 h0 start end_ s nd0 nd h'.
Proof using. intros [] [Hf _]. split; try done. by rewrite Hf. Qed.

(** An empty root is made a leaf again, which it is. *)
Lemma root_again t t' :
  eh_depth (x_root t) = 0 -> u16 ext4_ext_space_root = eh_max (x_root t) -> same_nodes t t' ->
  let nd := x_root t' in
  same_nodes t (set_node InRoot (Node (eh_magic nd) (eh_entries nd) (u16 ext4_ext_space_root) 0
    (eh_generation nd) (n_ext nd) (n_idx nd)) t').
Proof using.
  intros Hd Hm Hn nd [|b]; [|exact (Hn (InBlk b))]. pose proof (Hn InRoot) as Hr. cbn [node_at] in *.
  subst nd. rewrite Hr, Hm. cbn [set_node x_root]. rewrite <- Hd. by destruct (x_root t).
Qed.

Lemma wp_finish_flat p err a calls w (Q : Z * acct -> world xtree -> Prop) :
  eh_max nd0 = ext4_ext_space_root -> is_state a initial = true -> flat_post calls err w ->
  (forall err' w', flat_post calls err' w' -> (err' = - EAGAIN -> eh_entries (x_root (w_st w')) <> 0) ->
     Q (err', a) w') ->
  wp (finish_walk p err a) Q w.
Proof using Hj Hnd0.
  intros Hmax Ha Hpost HQ. unfold finish_walk.
  assert (is_state a tofree = false) as -> by (unfold is_state in *; by destruct (pc_state (a_partial a))).
  destruct w as [t held h]. cbn [andb]. do 4 wp_step.
  destruct (Z.eqb_spec (eh_entries (x_root t)) 0) as [He|]; cbn [negb]; [|wp_step; by apply HQ].
  destruct Hpost as (Hoff & Hsem & Hcr & s & Hp & _). cbn [w_st w_held w_calls] in *.
  wp_step. apply wp_get_access; [done|]. cbn [w_st w_held w_calls]. intros t1 h1 Ht1 Hq1. cbn [Z.eqb negb].
  do 3 wp_step. apply wp_dirty; [done|]. cbn [w_st w_held w_calls]. intros t2 h2 Ht2 Hq2. wp_step.
  assert (Hn : same_nodes t t2).
  { etrans; [|exact Ht2]. apply root_again; [..|done].
    - rewrite <- Hnd0. exact (pr_depth _ _ _ _ _ _ _ _ Hp).
    - rewrite (pr_max _ _ _ _ _ _ _ _ Hp), Hmax, u16_small; [done|]. rewrite <- Hmax, <- (pr_max _ _ _ _ _ _ _ _ Hp).
      destruct (pr_wf _ _ _ _ _ _ _ _ Hp) as (? & ? & ?). lia. }
  assert (Hq : quiet h h2) by (by etrans).
  apply HQ; [|done].
  split_and!; cbn [w_st w_held w_calls]; [intros l Hl; rewrite (Hn l); by apply Hoff|done|destruct Hq; lia|].
  exists start. split_and!; [|done..]. rewrite (Hn InRoot : x_root t2 = x_root t).
  apply (progress_quiet start _ h); [|done]. eapply progress_done; [exact Hp|].
  intros b _. unfold entries. by rewrite He.
Qed.

(** *** The start of a try *)

(** The tree before the split at the end of the range. *)
Record unsplit (nd : node) (h : list call) : Prop := {
  us_wf : node_wf nd;
  us_ok : leaf_ok 0 (entries nd);
  us_max : eh_max nd = eh_max nd0;
  us_depth : eh_depth nd = eh_depth nd0;
  us_map : forall b, mapping (entries nd) b = m0 b;
  us_freed : freed h = freed h0
}.

(** There is room for the split. *)
Definition room (nd : node) : Prop := eh_entries nd < eh_max nd /\
  forall e, e ∈ entries nd -> ext4_ext_pblock e + ext4_ext_get_actual_len e <= 2 ^ 48.

Definition ready (nd : node) (h : list call) : Prop :=
  (exists s, progress m0 h0 start end_ s nd0 nd h) \/ unsplit nd h /\ room nd.

(** Nothing is gone yet. *)
Lemma progress_start nd h :
  start <= end_ + 1 -> unsplit nd h ->
  (forall e, e ∈ entries nd -> ee_block e <= end_ -> ext_end e <= end_ + 1) ->
  progress m0 h0 start end_ (end_ + 1) nd0 nd h.
Proof using.
  intros Hse [Hwf Hok Hm Hd Hmap Hf] Hedge. split; try done; [|].
  - intros b. rewrite Hmap. unfold cut_map. destruct (Z.leb_spec (end_ + 1) b), (Z.leb_spec b end_); try done. lia.
  - rewrite phys_range_none; [by rewrite Hf|]. lia.
Qed.

(** The extent found at the end of the range, when it does not reach over it. *)
Lemma found_edge nd x :
  node_wf nd -> leaf_ok 0 (entries nd) -> is_position (fun i => ee_block (slot nd i)) (eh_entries nd) end_ x ->
  (ee_block (slot nd x) <= end_ -> ext_end (slot nd x) <= end_ + 1) ->
  (forall e, e ∈ entries nd -> ee_block e <= end_ -> ext_end e <= end_ + 1) /\
  (forall i e, (Z.to_nat (x + 1) <= i)%nat -> entries nd !! i = Some e -> end_ < ee_block e).
Proof using.
  intros Hwf Hok (Hx & Hlo & Hhi) Hend. pose proof (length_entries _ Hwf) as Hlen.
  assert (Hslot : forall i e, entries nd !! i = Some e -> Z.of_nat i < eh_entries nd /\ e = slot nd (Z.of_nat i)).
  { intros i e Hi. pose proof (lookup_lt_Some _ _ _ Hi). split; [lia|].
    rewrite <- (Nat2Z.id i), entries_slot in Hi by (done || lia). congruence. }
  split.
  - intros e [i Hi]%list_elem_of_lookup Hb. destruct (Hslot i e Hi) as [Hlt ->].
    destruct (Z.lt_trichotomy (Z.of_nat i) x) as [Hix|[<-|Hix]]; [|by apply Hend|].
    + pose proof (slot_sorted nd 0 (Z.of_nat i) x Hwf Hok ltac:(lia) Hix ltac:(lia)).
      specialize (Hlo x ltac:(lia)). cbn beta in Hlo. lia.
    + specialize (Hhi (Z.of_nat i) ltac:(lia)). cbn beta in Hhi. lia.
  - intros i e Hge Hi. destruct (Hslot i e Hi) as [Hlt ->]. apply (Hhi (Z.of_nat i)). lia.
Qed.

Lemma flat_path_ext p ex : flat_path p ex -> flat_path p (p_ext (pnth p 0)).
Proof using. intros (Hl & Hd & Hh & Hb & _). by split_and!. Qed.

(** The walk may start at the extent found or split off. *)
Lemma leaf_inv_start p x s t held h :
  flat_path p (Some x) -> 0 <= x < eh_entries (x_root t) -> progress m0 h0 start end_ s nd0 (x_root t) h ->
  (forall i e, (Z.to_nat (x + 1) <= i)%nat -> entries (x_root t) !! i = Some e -> end_ < ee_block e) ->
  same_off InRoot t0 t -> holds_sem rest held ->
  leaf_inv rest m0 h0 start end_ 0 InRoot t0 nd0 (Z.to_nat (to_visit p (x_root t))) s p t held h.
Proof using.
  intros (Hl & Hd & Hh & Hb & Hx) Hr Hp Hn Ho Hs. unfold to_visit. rewrite Hx.
  split; try done; [lia|cbn [node_at]; lia|]. intros i e Hi He. left. by eapply Hn.
Qed.

(** The halves of the extent at the end of the range. *)
Lemma split_edge nd x nd' :
  node_wf nd -> leaf_ok 0 (entries nd) -> 0 <= x < eh_entries nd ->
  ee_block (slot nd x) < end_ + 1 < ext_end (slot nd x) ->
  ext4_ext_pblock (slot nd x) + ext4_ext_get_actual_len (slot nd x) <= 2 ^ 48 ->
  entries nd' = take (Z.to_nat x) (entries nd) ++ left_half (slot nd x) (end_ + 1) ::
    right_half (slot nd x) (end_ + 1) :: drop (Z.to_nat (x + 1)) (entries nd) ->
  (forall e, e ∈ entries nd' -> ee_block e <= end_ -> ext_end e <= end_ + 1) /\
  (forall i e, (Z.to_nat (x + 1) <= i)%nat -> entries nd' !! i = Some e -> end_ < ee_block e).
Proof using H0.
  intros Hwf Hok Hx Hat Hp He'. destruct (slot_ok nd 0 x Hwf Hok Hx) as [Hex _].
  destruct (halves_spec _ (end_ + 1) Hex Hat Hp) as ((_ & Hb1 & He1 & _) & (_ & Hb2 & He2 & _)).
  pose proof (length_entries _ Hwf) as Hlen. pose proof (entries_slot nd x Hwf Hx) as Hsx.
  assert (Hright : forall i e, (Z.to_nat (x + 1) <= i)%nat -> entries nd' !! i = Some e -> end_ < ee_block e).
  { intros i e Hi Hlk. rewrite He', lookup_app_r in Hlk by (rewrite length_take; lia).
    rewrite length_take in Hlk. destruct (i - _)%nat as [|[|d]] eqn:Ei in Hlk; [lia| |].
    - injection Hlk as <-. lia.
    - change (drop (Z.to_nat (x + 1)) (entries nd) !! d = Some e) in Hlk. rewrite lookup_drop in Hlk.
      pose proof (sorted_at _ _ _ _ _ _ Hok Hsx Hlk ltac:(lia)). lia. }
  split; [|done]. intros e [i Hi]%list_elem_of_lookup Hb.
  destruct (Nat.lt_ge_cases i (Z.to_nat (x + 1))) as [Hlt|Hge]; [|specialize (Hright i e Hge Hi); lia].
  rewrite He' in Hi. destruct (decide (i = Z.to_nat x)) as [->|Hne].
  - rewrite lookup_app_r, length_take in Hi by (rewrite length_take; lia).
    rewrite Nat.min_l, Nat.sub_diag in Hi by lia. injection Hi as <-. lia.
  - rewrite lookup_app_l in Hi by (rewrite length_take; lia). rewrite lookup_take_lt in Hi by lia.
    pose proof (sorted_at _ _ _ _ _ _ Hok Hi Hsx ltac:(lia)). lia.
Qed.

(** The split at the end of the range. *)
Lemma wp_split_end p x t held calls (Q : Z * ppath -> world xtree -> Prop) :
  start <= end_ + 1 -> flat_path p (Some x) -> unsplit (x_root t) calls -> room (x_root t) ->
  same_off InRoot t0 t -> holds_sem rest held -> 0 <= x < eh_entries (x_root t) ->
  ee_block (slot (x_root t) x) < end_ + 1 < ext_end (slot (x_root t) x) ->
  (forall p' s t' calls', flat_path p' (p_ext (pnth p' 0)) -> quiet calls calls' ->
     leaf_inv rest m0 h0 start end_ 0 InRoot t0 nd0 (Z.to_nat (to_visit p' (x_root t'))) s p' t' held calls' ->
     Q (0, PSame p') (World t' held calls')) ->
  wp (ext4_force_split_extent_at p (end_ + 1) true) Q (World t held calls).
Proof using H0 Hj Hnd0.
  intros Hse Hfp [Hwf Hok Hmax Hdp Hm Hfr] [Hroom Hph] Hoff Hsem Hxr Hat HQ.
  pose proof Hfp as (Hl & Hpd & Hh & Hb & Hx). assert (Hdep : ext_depth t = 0) by (unfold ext_depth; congruence).
  destruct (slot_ok (x_root t) 0 x Hwf Hok Hxr) as [Hex _].
  specialize (Hph _ (list_elem_of_lookup_2 _ _ _ (entries_slot _ _ Hwf Hxr))).
  destruct (split_leaf (x_root t) x (end_ + 1)) as (nd' & Hins & Hent & Hwf' & Hn' & Hm'); try done.
  destruct (leaf_split_map (x_root t) x (end_ + 1)) as [Hlo Hmap]; try done.
  rewrite <- Hent in Hlo, Hmap. destruct (split_edge (x_root t) x nd') as [Hedge Hright]; try done.
  apply wp_force_split with (x := x) (nd' := nd'); cbn [w_st w_held w_calls]; rewrite ?Hdep, ?Hh; auto; try lia.
  intros t' c Ht' Hq. assert (Hroot : x_root t' = nd') by exact (Ht' InRoot).
  assert (Hfp' : flat_path (pset p 0 (set_p_ext (Some (x + 1)) (pnth p 0))) (Some (x + 1))).
  { split_and!; rewrite ?length_pset, ?pnth_pset_eq by lia; done. }
  apply (HQ _ (end_ + 1)); [by eapply flat_path_ext|done|].
  apply leaf_inv_start with (x := x + 1); rewrite ?Hroot; [done|lia| | | |done].
  - apply progress_quiet with (h := calls); [|done]. apply progress_start; [done| |done].
    split; try done; [congruence| |].
    + rewrite (insert_slot_depth _ _ _ _ _ Hins). done.
    + intros b. by rewrite Hmap.
  - intros i y Hi. apply Hright. lia.
  - intros l' Hl'. rewrite (Ht' l'), node_at_set_node_ne by done. by apply Hoff.
Qed.

Lemma wp_punch p err a t held calls (Q : option Z * option path * acct -> world xtree -> Prop) :
  start <= end_ + 1 -> 0 <= end_ -> flat_path p (ext4_ext_binsearch (x_root t) end_) ->
  ready (x_root t) calls -> same_off InRoot t0 t -> holds_sem rest held ->
  (forall s, progress m0 h0 start end_ s nd0 (x_root t) calls -> s = start -> eh_entries (x_root t) = 0 ->
     Q (Some err, Some p, a) (World t held calls)) ->
  (forall p' s t' calls', flat_path p' (p_ext (pnth p' 0)) -> quiet calls calls' ->
     leaf_inv rest m0 h0 start end_ 0 InRoot t0 nd0 (Z.to_nat (to_visit p' (x_root t'))) s p' t' held calls' ->
     Q (None, Some p', a) (World t' held calls')) ->
  wp (punch_split p end_ err a) Q (World t held calls).
Proof.
  intros Hse He0 Hfp Hready Hoff Hsem Hempty HQ. unfold punch_split. do 2 wp_step.
  assert (Hwf : node_wf (x_root t) /\ leaf_ok 0 (entries (x_root t)) /\ ext_depth t = 0).
  { destruct Hready as [[s []]|[[] _]]; split_and!; try done; unfold ext_depth; congruence. }
  destruct Hwf as (Hwf & Hok & Hdep). rewrite Hdep.
  pose proof Hfp as (Hl & Hpd & Hh & Hb & Hx). rewrite Hh. cbn [node_at]. rewrite Hx.
  destruct (Z.eq_dec (eh_entries (x_root t)) 0) as [Hz|Hz].
  { replace (ext4_ext_binsearch (x_root t) end_) with (@None Z)
      by (unfold ext4_ext_binsearch; by rewrite Hz).
    cbn [Z.eqb negb]. wp_step. assert (Hnil : entries (x_root t) = []) by (unfold entries; by rewrite Hz).
    apply (Hempty start); [|done..]. assert (exists s, progress m0 h0 start end_ s nd0 (x_root t) calls) as [s Hs].
    { destruct Hready as [|[Hus _]]; [done|]. eexists. apply progress_start; [done..|]. rewrite Hnil. set_solver. }
    eapply progress_done; [exact Hs|]. intros b _. by rewrite Hnil. }
  destruct (binsearch_position (x_root t) 0 end_ Hwf Hok) as (x & Ebs & Hpos); [destruct Hwf; lia|].
  rewrite Ebs in *. set (e := slot (x_root t) x). pose proof Hpos as (Hxr & _ & _).
  destruct (slot_ok (x_root t) 0 x Hwf Hok Hxr) as [(Hb0 & Hlen & Hmax) _]. fold e in Hb0, Hlen, Hmax.
  unfold ext_end in Hmax. fold (ext_end e). rewrite (u32_small (ext_end e)), u32_small by (unfold ext_end; lia).
  destruct Hclu as [Hratio _]. rewrite Hratio. cbn [Z.ltb Z.compare Pos.compare Pos.compare_cont andb].
  destruct ((ee_block e <=? end_) && (end_ <? ext_end e - 1)) eqn:Esp.
  - reflect_bools. destruct Hready as [[s Hp]|[Hus Hroom]].
    { pose proof (pr_edge _ _ _ _ _ _ _ _ Hp e) as Hedge. exfalso.
      assert (e ∈ entries (x_root t)) by (eapply list_elem_of_lookup_2; by apply entries_slot).
      specialize (Hedge ltac:(done)). lia. }
    rewrite u32_small by lia.
    wp_step. apply wp_split_end with (x := x); [done..|fold e; lia|].
    intros p' s t' calls' Hp' Hq Hinv. cbn [ppath_of Z.ltb Z.compare]. wp_step. by apply (HQ p' s).
  - wp_step. assert (Hend : ee_block e <= end_ -> ext_end e <= end_ + 1).
    { intros Hle. apply andb_false_iff in Esp as [?%Z.leb_gt|?%Z.ltb_ge]; lia. }
    destruct (found_edge (x_root t) x Hwf Hok Hpos Hend) as [Hedge Hright].
    assert (exists s, progress m0 h0 start end_ s nd0 (x_root t) calls) as [s Hs].
    { destruct Hready as [|[Hus _]]; [done|]. eexists. by apply progress_start. }
    apply (HQ p s); [by eapply flat_path_ext|done|]. by apply leaf_inv_start with (x := x).
Qed.

(** *** The tries *)

(** What [ext4_ext_remove_space] leaves, before the handle goes. *)
Definition removed (err : Z) (w : world xtree) : Prop :=
  same_off InRoot t0 (w_st w) /\ holds_sem rest (w_held w) /\
  exists s, progress m0 h0 start end_ s nd0 (x_root (w_st w)) (w_calls w) /\
    (err = 0 -> s = start) /\ (err <> 0 -> failed).

(** The journal's handle can be released. *)
Lemma wp_stop_journal t held calls (Q : unit -> world xtree -> Prop) :
  Ref RHandle ∈ rest -> holds_sem rest held ->
  (forall held' calls', drop_res (Ref RHandle) held = Some held' -> quiet calls calls' ->
     Q tt (World t held' calls')) ->
  wp stop_journal Q (World t held calls).
Proof using.
  intros Hin [Hp _] HQ. unfold stop_journal. repeat wp_step.
  destruct (drop_res_app (Ref RHandle) held []) as (held' & Hd & _).
  { rewrite Hp. by right. }
  rewrite app_nil_r in Hd. eapply wp_release; [exact Hd|]. cbn [w_st w_held w_calls]. apply HQ; [done|quiet_done].
Qed.

(** Truncation needs no split. *)
Lemma ready_truncate nd h : start <= end_ + 1 -> end_ = EXT_MAX_BLOCKS - 1 -> ready nd h ->
  exists s, progress m0 h0 start end_ s nd0 nd h.
Proof using H0.
  intros Hse He [|[Hus _]]; [done|]. eexists. apply progress_start; [done..|]. intros e Hin _.
  destruct (leaf_ok_elem _ _ e (us_ok _ _ Hus) Hin) as [(_ & _ & ?) _]. rewrite fmt_max_blocks in He. lia.
Qed.

Lemma leaf_inv_all p s t held h :
  flat_path p None -> progress m0 h0 start end_ s nd0 (x_root t) h -> same_off InRoot t0 t -> holds_sem rest held ->
  leaf_inv rest m0 h0 start end_ 0 InRoot t0 nd0 (Z.to_nat (to_visit p (x_root t))) s p t held h.
Proof using.
  intros (Hl & Hd & Hh & Hb & Hx) Hp Ho Hs. unfold to_visit. rewrite Hx. destruct (pr_wf _ _ _ _ _ _ _ _ Hp) as (? & ? & ?).
  split; try done; [lia|cbn [node_at]; lia|]. cbn [node_at]. intros i e Hi He.
  pose proof (lookup_lt_Some _ _ _ He). pose proof (length_entries _ (pr_wf _ _ _ _ _ _ _ _ Hp)). lia.
Qed.

(** The start of the walk without a path. *)
Lemma wp_start_walk t held calls s (Q : option (Z * path) + path * Z -> world xtree -> Prop) :
  kcalloc_ok -> ext_depth t = 0 -> progress m0 h0 start end_ s nd0 (x_root t) calls ->
  same_off InRoot t0 t -> holds_sem rest held ->
  (forall p calls', flat_path p (p_ext (pnth p 0)) -> quiet calls calls' ->
     ext4_ext_check t (x_root t) true 0 0 <> 0 -> Q (inl (Some (- EFSCORRUPTED, p))) (World t held calls')) ->
  (forall p calls', flat_path p (p_ext (pnth p 0)) -> quiet calls calls' ->
     leaf_inv rest m0 h0 start end_ 0 InRoot t0 nd0 (Z.to_nat (to_visit p (x_root t))) s p t held calls' ->
     Q (inr (p, 0)) (World t held calls')) ->
  wp (start_walk None) Q (World t held calls).
Proof using.
  intros Hk' Hdep Hp Ho Hs Hbad HQ. unfold start_walk. do 4 wp_step. rewrite Hk' in Hc. subst r. rewrite Hdep.
  set (p := pset _ _ _). assert (Hfp : flat_path p None) by (split_and!; try done; subst p; rewrite length_pset, length_replicate; lia).
  destruct (Z.eqb_spec (ext4_ext_check t (x_root t) true 0 0) 0); cbn [negb]; wp_step.
  - apply HQ; [by eapply flat_path_ext|quiet_done|]. apply leaf_inv_all; try done.
    eapply progress_quiet; [exact Hp|quiet_done].
  - apply Hbad; [by eapply flat_path_ext|quiet_done|done].
Qed.

Lemma leaf_inv_depth n s p t held h :
  leaf_inv rest m0 h0 start end_ 0 InRoot t0 nd0 n s p t held h -> ext_depth t = 0.
Proof using Hnd0.
  intros [_ _ Hp _ _ _ _]. unfold ext_depth. rewrite <- Hnd0. exact (pr_depth _ _ _ _ _ _ _ _ Hp).
Qed.

Lemma wp_remove_again :
  start <= end_ + 1 -> 0 <= end_ -> kcalloc_ok -> eh_max nd0 = ext4_ext_space_root -> Ref RHandle ∈ rest ->
  forall n err a t held calls (Q : Z -> world xtree -> Prop),
  (0 < n)%nat -> (k < credit_calls calls + n)%nat -> is_state a initial = true ->
  ready (x_root t) calls -> (refused \/ t = t0) -> same_off InRoot t0 t -> holds_sem rest held ->
  (forall err w held' h', removed err w -> drop_res (Ref RHandle) (w_held w) = Some held' ->
     quiet (w_calls w) h' -> (credit_calls calls <= credit_calls h')%nat -> Q err (World (w_st w) held' h')) ->
  (err = 0 \/ eh_entries (x_root t) <> 0) ->
  wp (remove_again n start end_ err a) Q (World t held calls).
Proof.
  intros Hse He0 Hkc Hmax Hrh n. induction n as [|n IH]; intros err0 a t held calls Q Hn Hcr Ha Hready Ht0 Hoff Hsem HQ Herr0; [lia|].
  assert (Hdep : ext_depth t = 0) by (destruct Hready as [[s []]|[[] _]]; unfold ext_depth; congruence).
  assert (Hout : forall err p calls1 w, flat_path p (p_ext (pnth p 0)) -> quiet calls calls1 -> flat_post calls1 err w ->
    (err = - EAGAIN -> eh_entries (x_root (w_st w)) <> 0) ->
    wp (ext4_free_ext_path (Some p);;;
        if err =? - EAGAIN then remove_again n start end_ err a else stop_journal;;; kret err) Q w).
  { intros err p calls1 [t1 held1 h1] Hfp [_ Hq] (Ho1 & Hs1 & Hc1 & s & Hp1 & Hz & Hf & Hag) Hne0. cbn [w_st w_held w_calls] in *.
    wp_step. eapply wp_free_flat; [exact Hfp|]. destruct (Z.eqb_spec err (- EAGAIN)) as [He|Hne].
    - destruct (Hag He) as (Hrf & Hlt & Hgt).
      apply IH; try done; [lia|lia|left; by eexists|by left| |right; by apply Hne0].
      intros err' w' held' h' Hr Hd Hq' Hle. apply HQ; [done..|]. lia.
    - wp_step. apply wp_stop_journal; [done..|]. intros held2 h2 Hd Hfr. wp_step.
      apply (HQ err (World t1 held1 h1)); [|done|done|destruct Hq as [? _], Hfr as (_ & ? & _); simpl in *; lia].
      split; [done|]. split; [done|]. by exists s. }
  assert (Hwalk : forall p s t1 calls1, flat_path p (p_ext (pnth p 0)) -> quiet calls calls1 ->
    leaf_inv rest m0 h0 start end_ 0 InRoot t0 nd0 (Z.to_nat (to_visit p (x_root t1))) s p t1 held calls1 ->
    wp (t <~ kget;; r <~ kloop remove_rounds (remove_round (ext_depth t) start end_) (p, 0, a);;
        let '(p, err, a) := r in r <~ finish_walk p err a;; let '(err, a) := r in
        ext4_free_ext_path (Some p);;;
        if err =? - EAGAIN then remove_again n start end_ err a else stop_journal;;; kret err) Q (World t1 held calls1)).
  { intros p s t1 calls1 Hfp Hq Hinv. do 2 wp_step.
    assert (ext_depth t1 = 0) as -> by by eapply leaf_inv_depth.
    wp_step. eapply wp_walk_flat; [done..|exact Hinv|]. intros err p' w Hfp' Hpost.
    wp_step. eapply wp_finish_flat; [done..|exact Hpost|]. intros err' w' Hpost' Hne. by eapply Hout. }
  cbn [remove_again]. wp_step. destruct (Z.ltb_spec end_ (EXT_MAX_BLOCKS - 1)) as [Hlt|Hge].
  - wp_step. apply wp_find_flat; [done..|]. intros p calls1 Hfp Hq1. wp_step.
    assert (Hready1 : ready (x_root t) calls1).
    { destruct Hready as [[s Hp]|[Hus Hroom]]; [left; exists s; by eapply progress_quiet|right; split; [|done]].
      destruct Hus. split; try done. by rewrite (proj1 Hq1). }
    apply wp_punch; try done.
    + intros s Hp -> Hz. wp_step. destruct Herr0 as [->|]; [|done].
      eapply (Hout 0 p calls1); [by eapply flat_path_ext|done| |done]. split_and!; try done. by exists start.
    + intros p' s t' calls2 Hfp' Hq2 Hinv. wp_step. wp_step. unfold start_walk. do 2 wp_step.
      assert (ext_depth t' = 0) as -> by by eapply leaf_inv_depth.
      wp_step. eapply Hwalk; [done| |exact Hinv]. by etrans.
  - rewrite fmt_max_blocks in Hge. destruct (ready_truncate (x_root t) calls) as [s Hp]; [done|rewrite fmt_max_blocks; lia|done|].
    do 2 wp_step. eapply wp_start_walk; [done..|exact Hp|done|done| |].
    + intros p calls1 Hfp Hq Hck. eapply (Hout _ p calls1);
        [done..| |done]. split_and!; try done. exists s. split_and!; try done.
      * by eapply progress_quiet.
      * intros _. destruct Ht0 as [Hr| ->]; [left; exact Hr|right]. rewrite fmt_max_blocks. split; [lia|done].
    + intros p calls1 Hfp Hq Hinv. by eapply Hwalk.
Qed.
End Flat.

Section RemoveSpace.
Context `{ExtFmtOk} `{Env} `{TreeEnv} `{RemoveEnv}.

(** No extent reaches over block [end_]. *)
Definition edge_at (nd : node) (end_ : Z) : Prop :=
  forall e, e ∈ entries nd -> ee_block e <= end_ -> ext_end e <= end_ + 1.

(** What is left when [ext4_ext_remove_space] answers [err]. *)
Definition space_removed (t : xtree) (rest : list res) (calls : list call) (start end_ err : Z) (w' : world xtree) : Prop :=
  w_held w' ≡ₚ data_sem :: rest /\ same_off InRoot t (w_st w') /\
  (credit_calls calls <= credit_calls (w_calls w'))%nat /\
  exists s, progress (mapping (entries (x_root t))) calls start end_ s (x_root t) (x_root (w_st w')) (w_calls w') /\
    (err = 0 -> s = start) /\ (err <> 0 -> failed end_ t).

Lemma wp_remove_space k tries start end_ a t rest held calls :
  flat t -> eh_max (x_root t) = ext4_ext_space_root -> 0 <= start <= end_ + 1 -> 0 <= end_ < EXT_MAX_BLOCKS ->
  edge_at (x_root t) end_ \/ room (x_root t) ->
  journal_ok -> kcalloc_ok -> no_clusters ->
  (forall h a, env_ptr h "ext4_journal_start_with_revoke"%string a = PtrOk) ->
  restart_bound k -> (0 < tries)%nat -> (k < credit_calls calls + tries)%nat -> holds_sem rest held ->
  wp (ext4_ext_remove_space tries start end_ a) (space_removed t rest calls start end_) (World t held calls).
Proof.
  intros [Hd Hwf Hok] Hmax Hse He Hroom Hj Hkc Hclu Hjs Hk Hn Hkn [Hheld Hrest]. rewrite fmt_max_blocks in He.
  set (m0 := mapping (entries (x_root t))). set (rest' := Ref RHandle :: rest).
  unfold ext4_ext_remove_space. do 6 wp_step. rewrite Hjs in Hc0. subst r. do 2 wp_step.
  eapply (wp_remove_again k rest' m0 calls start end_ (x_root t) t); try done; try lia.
  - by left.
  - assert (Hus : unsplit m0 calls (x_root t) (x_root t)
      (("ext4_journal_start_with_revoke"%string, [ino; ext_depth t + 1; z])
       :: ("ext4_free_metadata_revoke_credits"%string, [ext_depth t]) :: calls)) by by split.
    destruct Hroom; [left; eexists; apply progress_start; [lia|done..]|by right].
  - by right.
  - split; [|done]. rewrite Hheld. constructor.
  - intros err [t' held1 h1] held' h' (Ho & [Hp _] & s & Hpr & Hz & Hf) Hdr [Hfr _] Hcr. cbn [w_st w_held w_calls] in *.
    destruct (drop_res_app (Ref RHandle) held1 []) as (l & Hd1 & Hp1).
    { rewrite Hp. right. by left. }
    rewrite !app_nil_r, Hdr in Hd1. injection Hd1 as ->. split_and!; [|done| |].
    + apply (Permutation_cons_inv (a := Ref RHandle)). cbn [w_held]. rewrite <- Hp1, Hp. constructor.
    + exact Hcr.
    + exists s. split_and!; [|done..]. destruct Hpr. split; try done. cbn [w_calls]. by rewrite Hfr.
Qed.

(** C7: [ext4_ext_remove_space] on an inode with all its extents in the root, on a file
    system without clusters, when the range ends at the edge of an extent or the root has a free
    slot and 48-bit blocks for a split, the journal starts a handle and accepts every buffer,
    paths can be allocated, and the journal restarts the transaction at most [k] times, less
    than the tries modelled: the blocks [start .. end_] are unmapped and every other block keeps
    its mapping; the physical blocks freed are exactly those the removed range was mapped to,
    each once; the tree stays well formed and the semaphore and the handle are as before.  Two
    errors are left under these conditions, credits that the journal refuses and, for a
    truncation, a root that fails ext4_ext_check; then what is gone is the part [s .. end_] of
    the range, with the blocks of that part freed. *)
Theorem remove_space_correct k tries start end_ a t rest calls :
  flat t -> eh_max (x_root t) = ext4_ext_space_root -> 0 <= start <= end_ -> end_ < EXT_MAX_BLOCKS ->
  edge_at (x_root t) end_ \/ room (x_root t) ->
  journal_ok -> kcalloc_ok -> no_clusters ->
  (forall h a, env_ptr h "ext4_journal_start_with_revoke"%string a = PtrOk) ->
  restart_bound k -> (0 < tries)%nat -> (k < credit_calls calls + tries)%nat ->
  existsb (blocks_on data_sem) rest = false ->
  exists err s w', ext4_ext_remove_space tries start end_ a (World t (data_sem :: rest) calls) = Ret err w' /\
    w_held w' ≡ₚ data_sem :: rest /\ flat (w_st w') /\ start <= s <= end_ + 1 /\
    (forall b, mapping (entries (x_root (w_st w'))) b = cut_map (mapping (entries (x_root t))) s end_ b) /\
    freed (w_calls w') ≡ₚ phys_range (mapping (entries (x_root t))) s end_ ++ freed calls /\
    (err = 0 -> s = start) /\ (err <> 0 -> failed end_ t).
Proof.
  intros Hfl Hmax Hse He Hroom Hj Hkc Hclu Hjs Hk Hn Hkn Hrest.
  edestruct (wp_run _ _ _ (wp_remove_space k tries start end_ a t rest (data_sem :: rest) calls Hfl Hmax
    ltac:(lia) ltac:(lia) Hroom Hj Hkc Hclu Hjs Hk Hn Hkn (conj (Permutation_refl _) Hrest)))
    as (err & w' & Hr & Hh & _ & _ & s & Hp & Hz & Hf).
  exists err, s, w'. destruct Hfl as [Hd _ _]. destruct Hp as [Hr' Hwf' Hok' Hm' Hd' Hmap' _ Hf'].
  split_and!; try done; [|lia..]. split; [|done..]. unfold ext_depth. by rewrite Hd'.
Qed.
End RemoveSpace.
