(* ===== verification/ExtentMap.v ===== *)
(** * Mapping logical blocks (fs/ext4/extents.c)

    [ext4_ext_map_blocks]: the lookup of a block, the allocation of new blocks and their
    insertion into the tree, the conversion of unwritten extents to written ones and back,
    and the hole around a block that is not mapped.

    The structure [ext4_map_blocks] is passed to a function and returned by it, as the code
    changes it in place.  Outside the repository are the block allocator, the extent status
    tree, the zeroing of blocks and the quota: their answers are those of [Env].  An
    answer with several parts is several questions. *)

From stdpp Require Import prelude list gmap strings.
From Stdlib Require Import ZArith Lia.
From S2P Require Import Prelude Kernel ExtentNode ExtentTree Layout Fs Namei EvfsExtent ExtentRemove.

Local Open Scope string_scope.
Local Open Scope Z_scope.

Definition EXT4_GET_BLOCKS_CREATE : Z := 0x0001.
Definition EXT4_GET_BLOCKS_UNWRIT_EXT : Z := 0x0002.
Definition EXT4_GET_BLOCKS_CONVERT : Z := 0x0010.
Definition EXT4_GET_BLOCKS_NO_NORMALIZE : Z := 0x0040.
Definition EXT4_GET_BLOCKS_CONVERT_UNWRITTEN : Z := 0x0100.
Definition EXT4_GET_BLOCKS_IO_CONVERT_EXT : Z :=
  Z.lor EXT4_GET_BLOCKS_CONVERT (Z.lor EXT4_GET_BLOCKS_CREATE EXT4_GET_BLOCKS_UNWRIT_EXT).
Definition EXT4_MB_HINT_DATA : Z := 0x0020.
Definition EXT4_MB_HINT_NOPREALLOC : Z := 0x0040.
Definition EXT4_FREE_BLOCKS_NO_QUOT_UPDATE : Z := 0x0008.

Record ext4_map_blocks := Map { m_pblk : Z; m_lblk : Z; m_len : Z; m_flags : Z }.
Definition set_m_len (n : Z) (m : ext4_map_blocks) : ext4_map_blocks := Map (m_pblk m) (m_lblk m) n (m_flags m).
Definition set_m_pblk (b : Z) (m : ext4_map_blocks) : ext4_map_blocks := Map b (m_lblk m) (m_len m) (m_flags m).
Definition add_m_flags (f : Z) (m : ext4_map_blocks) : ext4_map_blocks :=
  Map (m_pblk m) (m_lblk m) (m_len m) (Z.lor (m_flags m) f).

(** What the mapping reads of the super block, besides [RemoveEnv]: [s_blocksize_bits], the
    limit for zeroing instead of splitting, the delalloc option; and the bits of buffer
    heads. *)
Class MapEnv := {
  s_blocksize_bits : Z;
  s_extent_max_zeroout_kb : Z;
  opt_delalloc : bool;
  BH_Mapped : Z;
  BH_New : Z;
  BH_Unwritten : Z
}.

Section Map.
Context `{ExtFmt} `{Env} `{TreeEnv} `{RemoveEnv} `{MapEnv}.
Abbreviation X := (K xtree).

Definition EXT4_MAP_NEW : Z := Z.shiftl 1 BH_New.
Definition EXT4_MAP_MAPPED : Z := Z.shiftl 1 BH_Mapped.
Definition EXT4_MAP_UNWRITTEN : Z := Z.shiftl 1 BH_Unwritten.

(** [in_range] of 32-bit arguments. *)
Definition in_range (val start len : Z) : bool := u32 (val - start) <? len.

(** ** Neighbours and holes *)

(** [ext4_ext_search_left]: an error, or the block and its physical block (0 for none). *)
Definition ext4_ext_search_left (t : xtree) (p : path) (logical : Z) : option (Z + Z * Z) :=
  let depth := p_depth (pnth p 0) in
  let e := pnth p depth in
  let nd := node_at t (p_hdr e) in
  match p_ext e with
  | None => if depth =? 0 then Some (inr (logical, 0)) else None
  | Some x =>
      let ex := slot nd x in
      let ee_len := ext4_ext_get_actual_len ex in
      Some (
        if logical <? ee_block ex then
          if negb (x =? 0) || negb (first_indexes p (Z.to_nat depth)) then inl (- EFSCORRUPTED)
          else inr (logical, 0)
        else if logical <? u32 (ee_block ex + ee_len) then inl (- EFSCORRUPTED)
        else inr (u32 (u32 (ee_block ex + ee_len) - 1), u64 (u64 (ext4_ext_pblock ex + ee_len) - 1)))
  end.

(** [ext4_ext_find_hole]: the start and the length; [None] is a BUG. *)
Definition ext4_ext_find_hole (t : xtree) (p : path) (lblk : Z) : option (Z * Z) :=
  let e := pnth p (ext_depth t) in
  match p_ext e with
  | None => Some (0, EXT_MAX_BLOCKS)
  | Some x =>
      let ex := slot (node_at t (p_hdr e)) x in
      let ex_end := u32 (ee_block ex + ext4_ext_get_actual_len ex) in
      if lblk <? ee_block ex then Some (lblk, u32 (ee_block ex - lblk))
      else if ex_end <=? lblk then
        let next := ext4_ext_next_allocated_block t p in
        if next =? ex_end then None else Some (ex_end, u32 (next - ex_end))
      else None
  end.

(** The loop of [ext4_ext_determine_insert_hole]: the delayed extent the status tree has in
    the hole.  One that ends before [lblk] starts the search again from [lblk]; then the
    next answer does not. *)
Fixpoint delayed_loop (tries : nat) (lblk hole_start len : Z) : X Z :=
  match tries with
  | O => koops
  | S tries =>
      let args := [ino; hole_start; u32 (u32 (hole_start + len) - 1)] in
      let insert_hole len :=
        call_int "ext4_es_insert_extent" [hole_start; len; 2 ^ 64 - 1];;;
        kret (if negb (hole_start =? lblk) then u32 (len - u32 (lblk - hole_start)) else len) in
      es_len <~ call_int "ext4_es_find_extent_range:len" args;;
      if es_len =? 0 then insert_hole len else
      es_lblk <~ call_int "ext4_es_find_extent_range:lblk" args;;
      if u32 (es_lblk + es_len) <=? lblk then
        delayed_loop tries lblk lblk (u32 (len - u32 (lblk - hole_start)))
      else if in_range lblk es_lblk es_len then kret (u32 (u32 (es_lblk + es_len) - lblk))
      else insert_hole (Z.min (u32 (es_lblk - hole_start)) len)
  end.

Definition ext4_ext_determine_insert_hole (p : path) (lblk : Z) : X Z :=
  t <~ kget;;
  match ext4_ext_find_hole t p lblk with
  | None => koops
  | Some (hole_start, len) => delayed_loop 2 lblk hole_start len
  end.

(** ** Conversions *)

(** [path = ext4_find_extent(inode, block, ppath, flags)] for a path that may be NULL. *)
Definition refresh (pp : ppath) (block flags : Z) : X (Z * ppath) :=
  r <~ (match ppath_of pp with
        | Some p => refill p block flags
        | None => r <~ ext4_find_extent block None flags;;
                  kret (match r with inl e => (e, PNull) | inr p => (0, PMoved p) end)
        end);;
  kret (r.1, ppath_then pp r.2).

(** The last block of the file or of the request, whichever is later, plus one. *)
Definition eof_block (m : ext4_map_blocks) : Z :=
  let eof := u32 (Z.shiftr (u64 (i_disksize rm_inode + blocksize - 1)) s_blocksize_bits) in
  if eof <? u32 (m_lblk m + m_len m) then u32 (m_lblk m + m_len m) else eof.

Definition ext4_split_convert_extents (p : path) (m : ext4_map_blocks) (flags : Z) : X (Z * ppath) :=
  t <~ kget;;
  let e := pnth p (ext_depth t) in
  match p_ext e with
  | None => koops
  | Some x =>
      let ex := slot (node_at t (p_hdr e)) x in
      let split_flag :=
        if has_flag flags EXT4_GET_BLOCKS_CONVERT_UNWRITTEN then EXT4_EXT_DATA_VALID1
        else if has_flag flags EXT4_GET_BLOCKS_CONVERT then
          Z.lor (if u32 (ee_block ex + ext4_ext_get_actual_len ex) <=? eof_block m
                 then EXT4_EXT_MAY_ZEROOUT else 0)
            (Z.lor EXT4_EXT_MARK_UNWRIT2 EXT4_EXT_DATA_VALID2)
        else 0 in
      ext4_split_extent p (m_lblk m) (m_len m) split_flag (Z.lor flags EXT4_GET_BLOCKS_PRE_IO)
  end.

(** The extent of the path is marked and merged: what both conversions end with. *)
Definition mark_and_merge (mark : ext4_extent -> ext4_extent) (p : path) (x : Z) : X (Z * path) :=
  t <~ kget;;
  let e := pnth p (ext_depth t) in
  err <~ ext4_ext_get_access e;;
  if negb (err =? 0) then kret (err, p) else
  mod_leaf e (fun nd => set_slot x (mark (slot nd x)) nd);;;
  p <~ ext4_ext_try_to_merge p x;;
  err <~ ext4_ext_dirty (pnth p (p_depth (pnth p 0)));;
  kret (err, p).

(** Both conversions start with a split when the extent is not the range of the map; then
    the path and the extent are looked up again.  [None] is a NULL extent. *)
Definition split_for (p : path) (m : ext4_map_blocks) (flags : Z) : X (Z * ppath * option Z) :=
  t <~ kget;;
  let e := pnth p (ext_depth t) in
  match p_ext e with
  | None => koops
  | Some x =>
      let ex := slot (node_at t (p_hdr e)) x in
      if negb (ee_block ex =? m_lblk m) || (m_len m <? ext4_ext_get_actual_len ex) then
        r <~ ext4_split_convert_extents p m flags;;
        let '(err, pp) := r in
        if err <? 0 then kret (err, pp, None) else
        r <~ refresh pp (m_lblk m) 0;;
        let '(err, pp) := r in
        if negb (err =? 0) then kret (err, pp, None) else
        t <~ kget;;
        kret (0, pp, match ppath_of pp with Some p => p_ext (pnth p (ext_depth t)) | None => None end)
      else kret (0, PSame p, Some x)
  end.

Definition mark_split (mark : ext4_extent -> ext4_extent) (pp : ppath) (x : Z) : X (Z * ppath) :=
  match ppath_of pp with
  | None => koops
  | Some p => r <~ mark_and_merge mark p x;; kret (r.1, ppath_then pp (PSame r.2))
  end.

Definition ext4_convert_unwritten_extents_endio (p : path) (m : ext4_map_blocks) : X (Z * ppath) :=
  r <~ split_for p m EXT4_GET_BLOCKS_CONVERT;;
  let '(err, pp, ex) := r in
  if negb (err =? 0) then kret (err, pp) else
  match ex, ppath_of pp with
  | Some x, _ => mark_split ext4_ext_mark_initialized pp x
  | None, Some p =>
      t <~ kget;;
      err <~ ext4_ext_get_access (pnth p (ext_depth t));;
      if negb (err =? 0) then kret (err, pp) else koops
  | None, None => koops
  end.

Definition convert_initialized_extent (p : path) (m : ext4_map_blocks) (allocated : Z) :
    X (Z * ppath * ext4_map_blocks * Z) :=
  let m := if EXT_UNWRITTEN_MAX_LEN <? m_len m then set_m_len (EXT_UNWRITTEN_MAX_LEN / 2) m else m in
  r <~ split_for p m EXT4_GET_BLOCKS_CONVERT_UNWRITTEN;;
  let '(err, pp, ex) := r in
  if negb (err =? 0) then kret (err, pp, m, allocated) else
  match ex with
  | None => kret (- EFSCORRUPTED, pp, m, allocated)
  | Some x =>
      r <~ mark_split ext4_ext_mark_unwritten pp x;;
      let '(err, pp) := r in
      if negb (err =? 0) then kret (err, pp, m, allocated) else
      call_int "ext4_update_inode_fsync_trans" [ino; 1];;;
      let allocated := if m_len m <? allocated then m_len m else allocated in
      kret (0, pp, set_m_len allocated (add_m_flags EXT4_MAP_UNWRITTEN m), allocated)
  end.

(** *** Writing to an unwritten extent *)

(** The first [map_len] blocks of extent [x] go to the written extent left of it. *)
Definition transfer_left (nd : node) (x map_len : Z) : option node :=
  let ex := slot nd x in
  let ee_len := ext4_ext_get_actual_len ex in
  let abut_ex := slot nd (x - 1) in
  let prev_len := ext4_ext_get_actual_len abut_ex in
  if negb (ext4_ext_is_unwritten abut_ex) && (u32 (ee_block abut_ex + prev_len) =? ee_block ex) &&
     (u64 (ext4_ext_pblock abut_ex + prev_len) =? ext4_ext_pblock ex) &&
     (prev_len <? u64 (EXT_INIT_MAX_LEN - map_len))
  then
    let ex' := ext4_ext_mark_unwritten
      (set_ee_len (ext4_ext_store_pblock (Ext (u32 (ee_block ex + map_len)) 0 (ee_start ex))
                     (u64 (ext4_ext_pblock ex + map_len))) (u32 (ee_len - map_len))) in
    Some (set_slot (x - 1) (set_ee_len abut_ex (u32 (prev_len + map_len))) (set_slot x ex' nd))
  else None.

(** The last [map_len] blocks of extent [x] go to the written extent right of it. *)
Definition transfer_right (nd : node) (x map_len : Z) : option node :=
  let ex := slot nd x in
  let ee_len := ext4_ext_get_actual_len ex in
  let abut_ex := slot nd (x + 1) in
  let next_len := ext4_ext_get_actual_len abut_ex in
  if negb (ext4_ext_is_unwritten abut_ex) && (u32 (ee_block ex + ee_len) =? ee_block abut_ex) &&
     (u64 (ext4_ext_pblock ex + ee_len) =? ext4_ext_pblock abut_ex) &&
     (next_len <? u64 (EXT_INIT_MAX_LEN - map_len))
  then
    let abut' := set_ee_len
      (ext4_ext_store_pblock (Ext (u32 (ee_block abut_ex - map_len)) 0 (ee_start abut_ex))
         (u64 (ext4_ext_pblock abut_ex - map_len))) (u32 (next_len + map_len)) in
    let ex' := ext4_ext_mark_unwritten (set_ee_len ex (u32 (ee_len - map_len))) in
    Some (set_slot (x + 1) abut' (set_slot x ex' nd))
  else None.

(** The leaf after a transfer and the extent that received the blocks. *)
Definition transfer (nd : node) (x : Z) (m : ext4_map_blocks) : option (node * Z) :=
  let ex := slot nd x in
  let ee_len := ext4_ext_get_actual_len ex in
  if (m_lblk m =? ee_block ex) && (m_len m <? ee_len) && (0 <? x)
  then (fun nd => (nd, x - 1)) <$> transfer_left nd x (m_len m)
  else if (u32 (m_lblk m + m_len m) =? u32 (ee_block ex + ee_len)) && (m_len m <? ee_len) && (x <? EXT_LAST nd)
  then (fun nd => (nd, x + 1)) <$> transfer_right nd x (m_len m)
  else None.

(** The extents to be zeroed instead of split off: the range to be split, [allocated] and
    the two extents recorded in the status tree.  A failed zeroing keeps its extent
    recorded. *)
Definition zero_around (ex : ext4_extent) (m : ext4_map_blocks) (allocated max_zeroout : Z) :
    X (Z * Z * Z * ext4_extent * ext4_extent) :=
  let none := Ext 0 0 0 in
  let lblk := m_lblk m in
  let len := m_len m in
  if negb (max_zeroout =? 0) && (len <? allocated) then
    r <~ (if allocated <=? max_zeroout then
            let zero1 := ext4_ext_store_pblock (Ext (u32 (lblk + len)) (u16 (allocated - len)) 0)
                           (u64 (u64 (u64 (ext4_ext_pblock ex + lblk) + len) - ee_block ex)) in
            err <~ ext4_ext_zeroout zero1;;
            kret (err, if err =? 0 then allocated else len, zero1)
          else kret (0, len, none));;
    let '(err, len, zero1) := r in
    if negb (err =? 0) then kret (lblk, len, allocated, zero1, none) else
    if u32 (u32 (lblk - ee_block ex) + len) <? max_zeroout then
      r <~ (if negb (lblk =? ee_block ex) then
              let zero2 := ext4_ext_store_pblock (Ext (ee_block ex) (u16 (lblk - ee_block ex)) 0)
                             (ext4_ext_pblock ex) in
              err <~ ext4_ext_zeroout zero2;;
              kret (err, zero2)
            else kret (0, none));;
      let '(err, zero2) := r in
      if negb (err =? 0) then kret (lblk, len, allocated, zero1, zero2)
      else kret (ee_block ex, u32 (len + u32 (lblk - ee_block ex)), m_len m, zero1, zero2)
    else kret (lblk, len, allocated, zero1, none)
  else kret (lblk, len, allocated, none, none).

(** The end of [ext4_ext_convert_to_initialized]. *)
Definition convert_out (err allocated : Z) (zero1 zero2 : ext4_extent) (pp : ppath) : X (Z * ppath) :=
  (if err =? 0 then ext4_zeroout_es zero1;;; ext4_zeroout_es zero2 else kret tt);;;
  kret (if negb (err =? 0) then err else allocated, pp).

Definition ext4_ext_convert_to_initialized (p : path) (m : ext4_map_blocks) (flags : Z) : X (Z * ppath) :=
  t <~ kget;;
  let depth := ext_depth t in
  let e := pnth p depth in
  let nd := node_at t (p_hdr e) in
  let none := Ext 0 0 0 in
  match p_ext e with
  | None => koops
  | Some x =>
      let ex := slot nd x in
      let ee_len := ext4_ext_get_actual_len ex in
      if negb (ext4_ext_is_unwritten ex) || negb (in_range (m_lblk m) (ee_block ex) ee_len) then koops else
      let split :=
        let allocated := s32 (ee_len - u32 (m_lblk m - ee_block ex)) in
        let may_zeroout := u32 (ee_block ex + ee_len) <=? eof_block m in
        let split_flag := Z.lor EXT4_EXT_DATA_VALID2 (if may_zeroout then EXT4_EXT_MAY_ZEROOUT else 0) in
        let max_zeroout := if may_zeroout then Z.shiftr s_extent_max_zeroout_kb (s_blocksize_bits - 10) else 0 in
        r <~ zero_around ex m allocated max_zeroout;;
        let '(lblk, len, allocated, zero1, zero2) := r in
        r <~ ext4_split_extent p lblk len split_flag flags;;
        let '(err, pp) := r in
        convert_out (if 0 <? err then 0 else err) allocated zero1 zero2 pp in
      match transfer nd x m with
      | Some (nd', abut) =>
          err <~ ext4_ext_get_access e;;
          if negb (err =? 0) then convert_out err 0 none none (PSame p) else
          mod_leaf e (fun _ => nd');;;
          if m_len m =? 0 then split else
          err <~ ext4_ext_dirty e;;
          convert_out err (m_len m) none none (PSame (pset p depth (set_p_ext (Some abut) e)))
      | None => split
      end
  end.

(** The labels [out], [map_out] and [out1] of [ext4_ext_handle_unwritten_extents]. *)
Definition unwritten_out1 (allocated newblock : Z) (m : ext4_map_blocks) (pp : ppath) :
    X (Z * ppath * ext4_map_blocks) :=
  let m := set_m_pblk newblock m in
  let allocated := if m_len m <? allocated then m_len m else allocated in
  kret (allocated, pp, set_m_len allocated m).
Definition unwritten_map_out (allocated newblock : Z) (m : ext4_map_blocks) (pp : ppath) :=
  unwritten_out1 allocated newblock (add_m_flags EXT4_MAP_MAPPED m) pp.
Definition unwritten_out (ret newblock : Z) (m : ext4_map_blocks) (pp : ppath) :=
  unwritten_map_out (u32 ret) newblock (add_m_flags EXT4_MAP_NEW m) pp.

Definition ext4_ext_handle_unwritten_extents (p : path) (m : ext4_map_blocks) (flags allocated newblock : Z) :
    X (Z * ppath * ext4_map_blocks) :=
  let flags := Z.lor flags EXT4_GET_BLOCKS_METADATA_NOFAIL in
  if has_flag flags EXT4_GET_BLOCKS_PRE_IO then
    r <~ ext4_split_convert_extents p m (Z.lor flags EXT4_GET_BLOCKS_CONVERT);;
    let '(ret, pp) := r in
    if ret <? 0 then kret (ret, pp, m) else
    if ret =? 0 then kret (- EFSCORRUPTED, pp, m) else
    unwritten_out ret newblock (add_m_flags EXT4_MAP_UNWRITTEN m) pp
  else if has_flag flags EXT4_GET_BLOCKS_CONVERT then
    r <~ ext4_convert_unwritten_extents_endio p m;;
    let '(err, pp) := r in
    if err <? 0 then kret (err, pp, m) else
    call_int "ext4_update_inode_fsync_trans" [ino; 1];;;
    r <~ unwritten_map_out allocated newblock m pp;;
    kret (if negb (err =? 0) then err else r.1.1, r.1.2, r.2)
  else if has_flag flags EXT4_GET_BLOCKS_UNWRIT_EXT then
    unwritten_map_out allocated newblock (add_m_flags EXT4_MAP_UNWRITTEN m) (PSame p)
  else if negb (has_flag flags EXT4_GET_BLOCKS_CREATE) then
    unwritten_out1 allocated newblock (add_m_flags EXT4_MAP_UNWRITTEN m) (PSame p)
  else
    r <~ ext4_ext_convert_to_initialized p m flags;;
    let '(ret, pp) := r in
    if ret <? 0 then kret (ret, pp, m) else
    call_int "ext4_update_inode_fsync_trans" [ino; 1];;;
    if ret =? 0 then kret (- EFSCORRUPTED, pp, m) else
    unwritten_out ret newblock m pp.

(** ** Allocation *)

(** [get_implied_cluster_alloc] for the extent [ex]: the map with the blocks of a cluster
    that the extent already uses. *)
Definition get_implied_cluster_alloc (t : xtree) (m : ext4_map_blocks) (ex : ext4_extent) (p : path) :
    option ext4_map_blocks :=
  let sbi := rm_sbi in
  let c_offset := EXT4_LBLK_COFF sbi (m_lblk m) in
  let ee_len := ext4_ext_get_actual_len ex in
  let ex_cluster_start := EXT4_B2C sbi (ee_block ex) in
  let ex_cluster_end := EXT4_B2C sbi (u32 (u32 (ee_block ex + ee_len) - 1)) in
  let rr_cluster_start := EXT4_B2C sbi (m_lblk m) in
  if (rr_cluster_start =? ex_cluster_end) || (rr_cluster_start =? ex_cluster_start) then
    let ee_start := if rr_cluster_start =? ex_cluster_end
                    then u64 (ext4_ext_pblock ex + (ee_len - 1)) else ext4_ext_pblock ex in
    let len := Z.min (m_len m) (u32 (s_cluster_ratio sbi - c_offset)) in
    let len := if m_lblk m <? ee_block ex then Z.min len (u32 (ee_block ex - m_lblk m)) else len in
    let len := if ee_block ex <? m_lblk m
               then Z.min len (u32 (ext4_ext_next_allocated_block t p - m_lblk m)) else len in
    Some (set_m_len len (set_m_pblk (u64 (EXT4_PBLK_CMASK sbi ee_start + c_offset)) m))
  else None.

(** The blocks to be inserted: the first one, the offset in its cluster, the number of
    blocks and of clusters allocated. *)
Record got_blocks := Got { g_newblock : Z; g_offset : Z; g_len : Z; g_clusters : Z }.

(** A request to the allocator, for the map and the neighbours found. *)
Definition new_blocks (p : path) (m : ext4_map_blocks) (flags allocated lleft pleft lright pright : Z) :
    X (Z + got_blocks) :=
  let sbi := rm_sbi in
  goal <~ ext4_ext_find_goal p (m_lblk m);;
  let offset := EXT4_LBLK_COFF sbi (m_lblk m) in
  let ar_len := EXT4_NUM_B2C sbi (u32 (offset + allocated)) in
  let ar_goal := u64 (goal - offset) in
  let ar_logical := u32 (m_lblk m - offset) in
  let ar_flags := if Z.land (i_mode rm_inode) S_IFMT =? S_IFREG then EXT4_MB_HINT_DATA else 0 in
  let ar_flags := if has_flag flags EXT4_GET_BLOCKS_NO_NORMALIZE then Z.lor ar_flags EXT4_MB_HINT_NOPREALLOC else ar_flags in
  let ar_flags := if has_flag flags EXT4_GET_BLOCKS_DELALLOC_RESERVE then Z.lor ar_flags EXT4_MB_DELALLOC_RESERVED else ar_flags in
  let ar_flags := if has_flag flags EXT4_GET_BLOCKS_METADATA_NOFAIL then Z.lor ar_flags EXT4_MB_USE_RESERVED else ar_flags in
  let args := [ar_logical; ar_goal; ar_len; ar_flags; lleft; pleft; lright; pright] in
  newblock <~ call_int "ext4_mb_new_blocks" args;;
  if newblock =? 0 then err <~ call_int "ext4_mb_new_blocks:err" args;; kret (inl err) else
  clusters <~ call_int "ext4_mb_new_blocks:len" args;;
  let len := u32 (EXT4_C2B sbi clusters - offset) in
  kret (inr (Got newblock offset (if allocated <? len then allocated else len) clusters)).

(** The blocks for an unmapped request: an error with the value returned instead when it is
    0, or the blocks; and the map. *)
Definition find_blocks (p : path) (m : ext4_map_blocks) (flags : Z) :
    X ((Z * Z + ext4_map_blocks * got_blocks) * ext4_map_blocks) :=
  let sbi := rm_sbi in
  t <~ kget;;
  let e := pnth p (ext_depth t) in
  let implied ex := get_implied_cluster_alloc t m ex p in
  let first := match p_ext e with
               | Some x => if negb (EXT4_LBLK_COFF sbi (m_lblk m) =? 0)
                           then implied (slot (node_at t (p_hdr e)) x) else None
               | None => None
               end in
  match first with
  | Some m => kret (inr (m, Got (m_pblk m) 0 (m_len m) 0), m)
  | None =>
      match ext4_ext_search_left t p (m_lblk m) with
      | None => koops
      | Some (inl err) => kret (inl (err, 0), m)
      | Some (inr (lleft, pleft)) =>
          r <~ ext4_ext_search_right p (m_lblk m);;
          match r with
          | inl err => kret (inl (err, 0), m)
          | inr next =>
              let second := match next with
                            | Some ex2 => if 1 <? s_cluster_ratio sbi then implied ex2 else None
                            | None => None
                            end in
              match second with
              | Some m => kret (inr (m, Got (m_pblk m) 0 (m_len m) 0), m)
              | None =>
                  let unwrit := has_flag flags EXT4_GET_BLOCKS_UNWRIT_EXT in
                  let m := if (EXT_INIT_MAX_LEN <? m_len m) && negb unwrit then set_m_len EXT_INIT_MAX_LEN m
                           else if (EXT_UNWRITTEN_MAX_LEN <? m_len m) && unwrit
                           then set_m_len EXT_UNWRITTEN_MAX_LEN m else m in
                  t <~ kget;;
                  let '(newex, overlap) := ext4_ext_check_overlap (EXT4_LBLK_CMASK sbi) t p
                                             (Ext (m_lblk m) (u16 (m_len m)) 0) in
                  let allocated := if overlap : bool then ext4_ext_get_actual_len newex else m_len m in
                  let '(lright, pright) := match next with
                                           | Some ex2 => (ee_block ex2, ext4_ext_pblock ex2)
                                           | None => (m_lblk m, 0)
                                           end in
                  r <~ new_blocks p m flags allocated lleft pleft lright pright;;
                  kret (match r with inl err => inl (err, allocated) | inr g => inr (m, g) end, m)
              end
          end
      end
  end.

(** The insertion failed: the blocks are given back. *)
Definition give_back (g : got_blocks) (flags : Z) : X unit :=
  if g_clusters g =? 0 then kret tt else
  call_int "ext4_discard_preallocations" [ino];;;
  ext4_free_blocks (g_newblock g) (EXT4_C2B rm_sbi (g_clusters g))
    (if has_flag flags EXT4_GET_BLOCKS_DELALLOC_RESERVE then EXT4_FREE_BLOCKS_NO_QUOT_UPDATE else 0).

(** The reservations of delayed allocation that the new clusters use up. *)
Definition claim_reserved (m : ext4_map_blocks) (g : got_blocks) (flags : Z) : X unit :=
  if opt_delalloc && negb (g_clusters g =? 0) then
    if has_flag flags EXT4_GET_BLOCKS_DELALLOC_RESERVE then
      call_int "ext4_da_update_reserve_space" [ino; g_clusters g; 1];;; kret tt
    else
      let len := u32 (Z.shiftl (g_clusters g) (s_cluster_bits rm_sbi)) in
      n <~ call_int "ext4_es_delayed_clu" [ino; EXT4_LBLK_CMASK rm_sbi (m_lblk m); len];;
      if negb (u32 n =? 0) then call_int "ext4_da_update_reserve_space" [ino; u32 n; 0];;; kret tt else kret tt
  else kret tt.

(** From the label [got_allocated_blocks] on: the value returned, the path and the map. *)
Definition insert_blocks (p : path) (m : ext4_map_blocks) (g : got_blocks) (flags : Z) :
    X (Z * ppath * ext4_map_blocks) :=
  let pblk := u64 (g_newblock g + g_offset g) in
  let unwrit := has_flag flags EXT4_GET_BLOCKS_UNWRIT_EXT in
  let newex := ext4_ext_store_pblock (Ext (m_lblk m) (u16 (g_len g)) 0) pblk in
  let newex := if unwrit then ext4_ext_mark_unwritten newex else newex in
  let m := if unwrit then add_m_flags EXT4_MAP_UNWRITTEN m else m in
  r <~ ext4_ext_insert_extent p newex flags;;
  let '(err, pp) := r in
  if negb (err =? 0) then give_back g flags;;; kret (err, pp, m) else
  claim_reserved m g flags;;;
  call_int "ext4_update_inode_fsync_trans" [ino; if unwrit then 0 else 1];;;
  let m := set_m_len (g_len g) (set_m_pblk pblk (add_m_flags (Z.lor EXT4_MAP_NEW EXT4_MAP_MAPPED) m)) in
  kret (g_len g, pp, m).

(** The request is not mapped. *)
Definition map_hole (p : path) (m : ext4_map_blocks) (flags : Z) : X (Z * ppath * ext4_map_blocks) :=
  if negb (has_flag flags EXT4_GET_BLOCKS_CREATE) then
    len <~ ext4_ext_determine_insert_hole p (m_lblk m);;
    kret (0, PSame p, set_m_len (Z.min (m_len m) len) (set_m_pblk 0 m))
  else
    r <~ find_blocks p m flags;;
    match r with
    | (inl (err, allocated), m) => kret (if negb (err =? 0) then err else allocated, PSame p, m)
    | (inr (m, g), _) => insert_blocks p m g flags
    end.

(** The request starts inside extent [ex]. *)
Definition map_found (p : path) (ex : ext4_extent) (m : ext4_map_blocks) (flags : Z) :
    X (Z * ppath * ext4_map_blocks) :=
  let newblock := u64 (u32 (m_lblk m - ee_block ex) + ext4_ext_pblock ex) in
  let allocated := u32 (ext4_ext_get_actual_len ex - u32 (m_lblk m - ee_block ex)) in
  if negb (ext4_ext_is_unwritten ex) && has_flag flags EXT4_GET_BLOCKS_CONVERT_UNWRITTEN then
    r <~ convert_initialized_extent p m allocated;;
    let '(err, pp, m, allocated) := r in
    kret (if negb (err =? 0) then err else allocated, pp, m)
  else if negb (ext4_ext_is_unwritten ex) then
    let m := set_m_pblk newblock (add_m_flags EXT4_MAP_MAPPED m) in
    let allocated := if m_len m <? allocated then m_len m else allocated in
    kret (allocated, PSame p, set_m_len allocated m)
  else ext4_ext_handle_unwritten_extents p m flags allocated newblock.

(** [ext4_ext_map_blocks] *)
Definition ext4_ext_map_blocks (m : ext4_map_blocks) (flags : Z) : X (Z * ext4_map_blocks) :=
  f <~ ext4_find_extent (m_lblk m) None 0;;
  match f with
  | inl err => kret (err, m)
  | inr p =>
      t <~ kget;;
      let depth := ext_depth t in
      let e := pnth p depth in
      r <~ (match p_ext e with
            | None =>
                if negb (depth =? 0) then kret (- EFSCORRUPTED, PSame p, m) else map_hole p m flags
            | Some x =>
                let ex := slot (node_at t (p_hdr e)) x in
                if in_range (m_lblk m) (ee_block ex) (ext4_ext_get_actual_len ex)
                then map_found p ex m flags else map_hole p m flags
            end);;
      let '(ret, pp, m) := r in
      ext4_free_ext_path (ppath_of pp);;;
      kret (ret, m)
  end.
End Map.
