(* ===== verification/ExtentMapSpec.v ===== *)
(** * Inserting an extent adds exactly its blocks

    Theorems about ExtentMap.v on trees whose extents are in the inode: the insertion of
    an extent, which may extend a neighbour on either side, the lookup and the allocation
    of blocks. *)

From stdpp Require Import prelude list gmap strings.
From Stdlib Require Import ZArith Lia.
From S2P Require Import Prelude Kernel ExtentNode ExtentTree ExtentTreeSpec Layout Fs Namei EvfsExtent ExtentRemove.
From S2P Require Import ExtentRemoveSpec ExtentMap.

Local Open Scope Z_scope.

(** ** A new extent in a leaf *)

Section Leaf.
Context `{ExtFmtOk}.

(** None of the blocks of [e] is mapped. *)
Definition unmapped (l : list ext4_extent) (e : ext4_extent) : Prop :=
  forall b, ee_block e <= b < ext_end e -> mapping l b = None.

(** The map with the blocks of [e]. *)
Definition add_map (m : emap) (e : ext4_extent) : emap := fun b => if covers e b then Some (phys e b) else m b.

Lemma unmapped_disjoint cur l e x :
  leaf_ok cur l -> ext_ok e -> unmapped l e -> x ∈ l -> ext_end x <= ee_block e \/ ext_end e <= ee_block x.
Proof.
  intros Hl (Hb & Hn & He) Hu Hx. destruct (leaf_ok_elem _ _ _ Hl Hx) as [(Hbx & Hnx & Hex) _].
  unfold ext_end in *. set (m := Z.max (ee_block e) (ee_block x)).
  destruct (Z.lt_ge_cases m (ee_block e + ext4_ext_get_actual_len e)) as [H1|]; [|right; lia].
  destruct (Z.lt_ge_cases m (ee_block x + ext4_ext_get_actual_len x)) as [H2|]; [|left; lia].
  exfalso. specialize (Hu m ltac:(unfold ext_end; lia)).
  rewrite (mapping_covered _ _ x m Hl Hx) in Hu; [done|]. apply covers_spec. unfold ext_end. lia.
Qed.

(** At its place in the list. *)
Record fits (l1 l2 : list ext4_extent) (e : ext4_extent) : Prop := {
  ft_ok : leaf_ok 0 (l1 ++ l2);
  ft_ext : ext_ok e;
  ft_left : forall x, x ∈ l1 -> ext_end x <= ee_block e;
  ft_right : forall x, x ∈ l2 -> ext_end e <= ee_block x
}.

Lemma fits_insert l1 l2 e : fits l1 l2 e ->
  leaf_ok 0 (l1 ++ e :: l2) /\ forall b, mapping (l1 ++ e :: l2) b = add_map (mapping (l1 ++ l2)) e b.
Proof.
  intros [Hok He Hle Hri]. assert (Hl : leaf_ok 0 (l1 ++ e :: l2)) by (apply leaf_ok_insert; try done; apply He).
  split; [done|]. intros b. by rewrite (mapping_insert 0).
Qed.

(** Two neighbours become one. *)
Lemma merge_pair l1 a b l2 :
  leaf_ok 0 (l1 ++ a :: b :: l2) -> ext4_can_extents_be_merged a b = true ->
  leaf_ok 0 (l1 ++ merged a b :: l2) /\
  forall k, mapping (l1 ++ merged a b :: l2) k = mapping (l1 ++ a :: b :: l2) k.
Proof.
  intros Hok Hm. split; [by apply leaf_ok_merged|]. intros k.
  destruct (leaf_ok_drop _ _ _ Hok) as (c & _ & (Ha & _ & Hb & _)). by rewrite !mapping_app, mapping_merged.
Qed.

Lemma fits_append l1 x l2 e : fits (l1 ++ [x]) l2 e -> ext4_can_extents_be_merged x e = true ->
  leaf_ok 0 (l1 ++ merged x e :: l2) /\
  forall b, mapping (l1 ++ merged x e :: l2) b = add_map (mapping (l1 ++ x :: l2)) e b.
Proof.
  intros Hf Hm. destruct (fits_insert _ _ _ Hf) as [Hok Hmap]. rewrite <- app_assoc in Hok, Hmap. simpl in Hok, Hmap.
  destruct (merge_pair l1 x e l2 Hok Hm) as [Hok' Hmap']. split; [done|]. intros b.
  rewrite Hmap', Hmap. by rewrite <- app_assoc.
Qed.

Lemma fits_prepend l1 x l2 e : fits l1 (x :: l2) e -> ext4_can_extents_be_merged e x = true ->
  leaf_ok 0 (l1 ++ merged e x :: l2) /\
  forall b, mapping (l1 ++ merged e x :: l2) b = add_map (mapping (l1 ++ x :: l2)) e b.
Proof.
  intros Hf Hm. destruct (fits_insert _ _ _ Hf) as [Hok Hmap].
  destruct (merge_pair l1 e x l2 Hok Hm) as [Hok' Hmap']. split; [done|]. intros b. by rewrite Hmap', Hmap.
Qed.

(** The start block is stored the way [ext4_ext_store_pblock] stores it. *)
Definition stored (e : ext4_extent) : Prop := ee_start e = pblock_store (ext4_ext_pblock e).

Lemma prepended_merged x e : stored e -> ext4_can_extents_be_merged e x = true -> prepended x e = merged e x.
Proof.
  unfold stored, prepended, merged, set_ee_len. intros <- Hm.
  assert (ext4_ext_is_unwritten x = ext4_ext_is_unwritten e) as ->.
  { unfold ext4_can_extents_be_merged in Hm. destruct (Bool.eqb _ _) eqn:Hu in Hm; [|done].
    by apply Bool.eqb_prop in Hu. }
  by rewrite Z.add_comm.
Qed.

(** ** Where the extent goes *)

(** The place of a new extent from the position the search found. *)
Definition place (nd : node) (e : ext4_extent) (p : option Z) : Z :=
  match p with
  | None => 0
  | Some p => if ee_block (slot nd p) <? ee_block e then p + 1 else p
  end.

Lemma place_fits nd e :
  node_wf nd -> leaf_ok 0 (entries nd) -> ext_ok e -> unmapped (entries nd) e ->
  let p := ext4_ext_binsearch nd (ee_block e) in
  let i := place nd e p in
  0 <= i <= eh_entries nd /\ fits (take (Z.to_nat i) (entries nd)) (drop (Z.to_nat i) (entries nd)) e /\
  (p = None /\ eh_entries nd = 0 /\ i = 0 \/
   exists j, p = Some j /\ 0 <= j < eh_entries nd /\
     (i = j + 1 /\ ee_block (slot nd j) < ee_block e \/ i = j /\ j = 0 /\ ee_block e < ee_block (slot nd j))).
Proof.
  intros Hwf Hok He Hu p i. pose proof (length_entries _ Hwf) as Hlen.
  destruct (Z.eq_dec (eh_entries nd) 0) as [Hz|Hz].
  { assert (Hp : p = None) by (unfold p, ext4_ext_binsearch; by rewrite Hz).
    assert (Hn : entries nd = []) by (unfold entries; by rewrite Hz).
    unfold i. rewrite Hp. cbn [place]. rewrite Hn. split_and!; [lia|lia| |by left].
    split; try done; set_solver. }
  destruct (binsearch_position nd 0 (ee_block e) Hwf Hok) as (j & Hj & Hjr & Hlo & Hhi); [destruct Hwf; lia|].
  fold p in Hj. assert (Hdis : forall k, 0 <= k < eh_entries nd ->
    ext_ok (slot nd k) /\ (ext_end (slot nd k) <= ee_block e \/ ext_end e <= ee_block (slot nd k))).
  { intros k Hk. split; [by eapply slot_ok|]. eapply unmapped_disjoint; [done..|].
    eapply list_elem_of_lookup_2. by apply entries_slot. }
  assert (Hcase : (i = j + 1 /\ ee_block (slot nd j) < ee_block e \/
                   i = j /\ j = 0 /\ ee_block e < ee_block (slot nd j))).
  { unfold i. rewrite Hj. cbn [place]. destruct (Z.ltb_spec (ee_block (slot nd j)) (ee_block e)); [by left|right].
    destruct (Hdis j Hjr) as [(? & ? & ?) Hd]. destruct He as (? & ? & ?). unfold ext_end in *.
    destruct (Z.eq_dec j 0) as [->|]; [lia|]. specialize (Hlo j ltac:(lia)). cbn beta in Hlo. lia. }
  assert (Hir : 0 <= i <= eh_entries nd) by lia.
  split; [done|]. split; [|right; exists j; split_and!; [done|lia|lia|done]].
  split; [by rewrite take_drop|done| |].
  - intros x [k Hk]%list_elem_of_lookup. pose proof (lookup_lt_Some _ _ _ Hk) as Hlt. rewrite length_take in Hlt.
    rewrite lookup_take_lt in Hk by lia. rewrite <- (Nat2Z.id k), entries_slot in Hk by (done || lia). injection Hk as <-.
    destruct (Hdis (Z.of_nat k)) as [(? & ? & ?) [|Hd]]; [lia|done|]. destruct He as (? & ? & ?). unfold ext_end in *.
    assert (ee_block (slot nd (Z.of_nat k)) <= ee_block (slot nd j)).
    { destruct (Z.eq_dec (Z.of_nat k) j) as [->|]; [lia|].
      pose proof (slot_sorted nd 0 (Z.of_nat k) j Hwf Hok ltac:(lia) ltac:(lia) ltac:(lia)). unfold ext_end in *. lia. }
    lia.
  - intros x [k Hk]%list_elem_of_lookup. rewrite lookup_drop in Hk. pose proof (lookup_lt_Some _ _ _ Hk) as Hlt.
    rewrite <- (Nat2Z.id (_ + k)), entries_slot in Hk by (done || lia). injection Hk as <-.
    assert (Hn : i <= Z.of_nat (Z.to_nat i + k) < eh_entries nd) by lia.
    set (n := Z.of_nat (Z.to_nat i + k)) in *. clearbody n. destruct (Hdis n) as [(? & ? & ?) [Hd|]]; [lia| |done].
    destruct He as (? & ? & ?). unfold ext_end in *.
    destruct (Z.eq_dec n j) as [->|]; [lia|]. specialize (Hhi n ltac:(lia)). cbn beta in Hhi. lia.
Qed.

(** ** The leaf after the insertion *)

(** A leaf with the blocks of [e] added. *)
Definition added (nd : node) (e : ext4_extent) (nd' : node) : Prop :=
  node_wf nd' /\ leaf_ok 0 (entries nd') /\ eh_max nd' = eh_max nd /\ eh_depth nd' = eh_depth nd /\
  forall b, mapping (entries nd') b = add_map (mapping (entries nd)) e b.

Lemma set_slot_entries nd x e :
  node_wf nd -> 0 <= x < eh_entries nd ->
  entries (set_slot x e nd) = take (Z.to_nat x) (entries nd) ++ e :: drop (S (Z.to_nat x)) (entries nd) /\
  node_wf (set_slot x e nd).
Proof.
  intros Hwf Hx. pose proof (length_entries _ Hwf) as Hlen. destruct Hwf as (A & B & C). split.
  - unfold entries, set_slot, set_ext. cbn [n_ext eh_entries]. rewrite take_insert_lt by lia.
    fold (entries nd). by rewrite insert_take_drop by lia.
  - unfold node_wf, set_slot, set_ext. cbn. by rewrite length_insert.
Qed.

Lemma added_slot nd e x y :
  node_wf nd -> 0 <= x < eh_entries nd ->
  leaf_ok 0 (take (Z.to_nat x) (entries nd) ++ y :: drop (S (Z.to_nat x)) (entries nd)) /\
  (forall b, mapping (take (Z.to_nat x) (entries nd) ++ y :: drop (S (Z.to_nat x)) (entries nd)) b =
     add_map (mapping (entries nd)) e b) ->
  added nd e (set_slot x y nd).
Proof.
  intros Hwf Hx [Hok Hmap]. destruct (set_slot_entries nd x y Hwf Hx) as [He Hwf'].
  split_and!; try done; rewrite He; done.
Qed.

Lemma drop_slot nd x :
  node_wf nd -> 0 <= x < eh_entries nd ->
  drop (Z.to_nat x) (entries nd) = slot nd x :: drop (S (Z.to_nat x)) (entries nd).
Proof. intros Hwf Hx. apply drop_S. by apply entries_slot. Qed.
Lemma take_slot nd x :
  node_wf nd -> 0 <= x < eh_entries nd ->
  take (Z.to_nat (x + 1)) (entries nd) = take (Z.to_nat x) (entries nd) ++ [slot nd x].
Proof.
  intros Hwf Hx. replace (Z.to_nat (x + 1)) with (S (Z.to_nat x)) by lia. apply take_S_r. by apply entries_slot.
Qed.

Lemma absorb_leaf nd e j ex po y :
  node_wf nd -> leaf_ok 0 (entries nd) -> ext_ok e -> stored e -> unmapped (entries nd) e ->
  ext4_ext_binsearch nd (ee_block e) = Some j -> merge_candidate nd j e = (ex, po) ->
  absorb (slot nd ex) e po = Some y ->
  0 <= ex < eh_entries nd /\ added nd e (set_slot ex y nd).
Proof.
  intros Hwf Hok He Hst Hu Hp Hc Ha. destruct (place_fits nd e Hwf Hok He Hu) as (Hi & Hf & [(Hn & _)|(k & Hk & Hjr & Hpos)]).
  { by rewrite Hn in Hp. }
  rewrite Hp in *. injection Hk as <-. set (i := place nd e (Some j)) in *. clearbody i.
  assert (Hoks : forall n, 0 <= n < eh_entries nd -> ext_ok (slot nd n)) by (intros n Hn; by eapply slot_ok).
  unfold merge_candidate, EXT_LAST in Hc. pose proof (Hoks j Hjr) as (Hjb & Hjn & Hje). pose proof He as (Heb & Hen & Hee).
  fold (ext_end (slot nd j)) (ext_end e) in Hc. rewrite !u32_small in Hc by (unfold ext_end in *; lia).
  destruct ((j <? _) && (ext_end (slot nd j) <? _)) eqn:E1; [|destruct ((0 <? j) && _) eqn:E2]; injection Hc as <- <-;
    unfold absorb in Ha; cbn [negb andb] in Ha.
  - apply andb_true_iff in E1 as [E1%Z.ltb_lt E1'%Z.ltb_lt]. destruct (ext4_can_extents_be_merged e _) eqn:Hm; [|done].
    injection Ha as <-. split; [lia|]. rewrite prepended_merged by done.
    destruct Hpos as [[-> _]|(_ & _ & ?)]; [|unfold ext_end in *; lia]. apply added_slot; [done|lia|].
    rewrite (drop_slot nd (j + 1)) in Hf by (done || lia).
    assert (Hl : entries nd = take (Z.to_nat (j + 1)) (entries nd) ++ slot nd (j + 1) :: drop (S (Z.to_nat (j + 1))) (entries nd))
      by (apply entries_split; [done|lia]).
    destruct (fits_prepend _ _ _ _ Hf Hm) as [H1 H2]. rewrite <- Hl in H2. by split.
  - apply andb_true_iff in E2 as [E2%Z.ltb_lt E2'%Z.ltb_lt]. unfold ext_end in *. lia.
  - assert (Hl : entries nd = take (Z.to_nat j) (entries nd) ++ slot nd j :: drop (S (Z.to_nat j)) (entries nd))
      by (by apply entries_split).
    split; [done|]. apply added_slot; [done..|]. destruct (ext4_can_extents_be_merged (slot nd j) e) eqn:Hm.
    + injection Ha as <-. destruct (merged_spec _ _ (Hoks j Hjr) He Hm) as (Hend & _).
      destruct Hpos as [[-> _]|(_ & _ & ?)]; [|unfold ext_end in *; lia].
      rewrite take_slot in Hf by done. replace (Z.to_nat (j + 1)) with (S (Z.to_nat j)) in Hf by lia.
      destruct (fits_append _ _ _ _ Hf Hm) as [H1 H2]. rewrite <- Hl in H2. by split.
    + destruct (ext4_can_extents_be_merged e (slot nd j)) eqn:Hm'; [|done]. injection Ha as <-.
      rewrite prepended_merged by done. destruct (merged_spec _ _ He (Hoks j Hjr) Hm') as (Hend & _).
      destruct Hpos as [[_ ?]|(-> & _ & _)]; [unfold ext_end in *; lia|]. rewrite (drop_slot nd j) in Hf by done.
      destruct (fits_prepend _ _ _ _ Hf Hm') as [H1 H2]. rewrite <- Hl in H2. by split.
Qed.

Lemma insert_leaf nd e :
  node_wf nd -> leaf_ok 0 (entries nd) -> ext_ok e -> stored e -> unmapped (entries nd) e -> eh_entries nd < eh_max nd ->
  exists i nd', insert_slot nd (ext4_ext_binsearch nd (ee_block e)) e = Some (i, nd') /\ 0 <= i < eh_entries nd' /\
    added nd e nd'.
Proof.
  intros Hwf Hok He Hst Hu Hroom. destruct (place_fits nd e Hwf Hok He Hu) as (Hi & Hf & Hpos).
  destruct (insert_slot_entries nd (place nd e (ext4_ext_binsearch nd (ee_block e))) (ext4_ext_binsearch nd (ee_block e)) e)
    as (nd' & Hins & Hent & Hwf' & Hn' & Hm'); try done.
  { destruct Hpos as [?|(j & ? & ? & [?|(? & ? & ?)])]; [by left|right; exists j; split; [done|by left]|right; exists j; split; [done|by right]]. }
  rewrite <- Hst in Hent. replace (Ext (ee_block e) (ee_len e) (ee_start e)) with e in Hent by (by destruct e).
  eexists _, nd'. split; [exact Hins|]. split; [lia|]. destruct (fits_insert _ _ _ Hf) as [H1 H2].
  rewrite take_drop in H2. split_and!; [done|by rewrite Hent|done|by eapply insert_slot_depth|intros b; by rewrite Hent].
Qed.
End Leaf.

(** ** The insertion in a tree of depth 0 *)

Section Insert.
Context `{ExtFmtOk} `{Env} `{TreeEnv}.
Hypothesis Hj : journal_ok.

(** The tree with a new root leaf and the same blocks. *)
Definition new_root (t : xtree) (nd : node) (t' : xtree) : Prop :=
  x_root t' = nd /\ same_off InRoot t t'.

Lemma new_root_nodes t nd t' : same_nodes (set_node InRoot nd t) t' -> new_root t nd t'.
Proof using.
  intros Hs. split; [exact (Hs InRoot)|]. intros l Hl. rewrite (Hs l). by apply node_at_set_node_ne.
Qed.

Lemma new_root_trans t nd t' nd' t'' : new_root t nd t' -> new_root t' nd' t'' -> new_root t nd' t''.
Proof using. intros [_ Ha] [E Hb]. split; [done|]. intros l Hl. by rewrite Hb, Ha. Qed.

(** The tree with the blocks of [e] added. *)
Definition grown (t : xtree) (e : ext4_extent) (t' : xtree) : Prop :=
  added (x_root t) e (x_root t') /\ same_off InRoot t t'.

Lemma grown_flat t e t' : flat t -> grown t e t' -> flat t'.
Proof using.
  intros [Hd Hwf Hok] [(Hwf' & Hok' & _ & Hd' & _) _]. split; try done. unfold ext_depth in *. congruence.
Qed.

(** Merging in the root. *)
Lemma wp_merge_flat p ex x t held calls (Q : path -> world xtree -> Prop) :
  flat_path p ex -> ext_depth t = 0 ->
  Q p (World (set_node InRoot (try_to_merge_leaf (x_root t) x) t) held calls) ->
  wp (ext4_ext_try_to_merge p x) Q (World t held calls).
Proof using.
  intros (Hl & Hpd & Hph & Hb & _) Hd HQ. unfold ext4_ext_try_to_merge. do 2 wp_step. rewrite Hd, Hph.
  do 2 wp_step. cbn [node_at]. unfold ext4_ext_try_to_merge_up. do 2 wp_step. rewrite Hpd. cbn [Z.eqb negb orb].
  by wp_step.
Qed.

(** From the label [merge] on. *)
Lemma wp_insert_merge_flat p y i flags e t t0 held calls (Q : Z * path -> world xtree -> Prop) :
  flat_path p (Some y) -> has_flag flags EXT4_GET_BLOCKS_PRE_IO = false -> flat t0 -> grown t0 e t ->
  0 <= i < eh_entries (x_root t) ->
  (forall t' calls', grown t0 e t' -> quiet calls calls' -> Q (0, p) (World t' held calls')) ->
  wp (insert_merge p i flags) Q (World t held calls).
Proof.
  intros Hfp Hpre Hf0 Hg Hi HQ. pose proof (grown_flat _ _ _ Hf0 Hg) as [Hd Hwf Hok].
  destruct Hg as [(_ & _ & Hmax & Hdep & Hmap) Hoff].
  unfold insert_merge. rewrite Hpre. wp_step. eapply wp_merge_flat; [done..|].
  set (nd' := try_to_merge_leaf (x_root t) i).
  destruct (try_to_merge_leaf_same (x_root t) i Hwf Hi) as (Hwf' & Hm' & Hok' & Hmap').
  pose proof Hfp as (Hl & Hpd & Hph & Hb & Hx).
  wp_step. unfold ext4_ext_correct_indexes. do 2 wp_step.
  change (ext_depth (set_node InRoot nd' t)) with (eh_depth nd'). unfold nd' at 1 2. rewrite try_to_merge_leaf_depth.
  fold (ext_depth t). rewrite Hd, Hx. cbn [Z.eqb negb]. wp_step. cbn [Z.eqb negb]. rewrite Hpd. cbn [Z.eqb negb].
  wp_step. apply wp_dirty; [done|]. cbn [w_st w_held w_calls]. intros t' calls' Ht' Hq. wp_step.
  apply HQ; [|done]. destruct (new_root_nodes t nd' t' Ht') as [Hr Ho]. split; [|intros l Hl'; by rewrite Ho, Hoff].
  rewrite Hr. split_and!; [done|by apply Hok'|unfold nd'; by rewrite Hm'| |intros b; by rewrite (Hmap' 0)].
  unfold nd'. by rewrite try_to_merge_leaf_depth.
Qed.

Lemma wp_insert_flat p e flags t held calls (Q : Z * ppath -> world xtree -> Prop) :
  flat t -> flat_path p (ext4_ext_binsearch (x_root t) (ee_block e)) -> ext_ok e -> stored e ->
  unmapped (entries (x_root t)) e -> eh_entries (x_root t) < eh_max (x_root t) ->
  has_flag flags EXT4_GET_BLOCKS_PRE_IO = false ->
  (forall p' x t' calls', flat_path p' x -> grown t e t' -> quiet calls calls' ->
     Q (0, PSame p') (World t' held calls')) ->
  wp (ext4_ext_insert_extent p e flags) Q (World t held calls).
Proof.
  intros [Hd Hwf Hok] Hfp He Hst Hu Hroom Hpre HQ. pose proof Hfp as (Hl & Hpd & Hph & Hb & Hx).
  unfold ext4_ext_insert_extent. rewrite (proj2 (Z.eqb_neq (ext4_ext_get_actual_len e) 0)) by (destruct He; lia).
  do 2 wp_step. rewrite Hd, Hph. cbn [node_at]. rewrite Hpre, Hx.
  set (near := match ext4_ext_binsearch (x_root t) (ee_block e) with Some _ => _ | None => _ end).
  destruct near as [[ex y]|] eqn:Hnear; unfold near in Hnear.
  - destruct (ext4_ext_binsearch (x_root t) (ee_block e)) as [j|] eqn:Hbs; [|done].
    destruct (merge_candidate (x_root t) j e) as [k po] eqn:Hc.
    destruct (absorb (slot (x_root t) k) e po) as [z|] eqn:Ha; [|done]. injection Hnear as <- <-.
    destruct (absorb_leaf (x_root t) e j k po z Hwf Hok He Hst Hu Hbs Hc Ha) as [Hk Hadd].
    wp_step. apply wp_get_access; [done|]. cbn [w_st w_held w_calls]. intros t1 c1 Ht1 Hq1. cbn [Z.eqb negb].
    wp_step. unfold mod_leaf. rewrite Hph. do 2 wp_step.
    eapply (wp_insert_merge_flat p j k flags e); [done|done|by split| | |].
    + assert (Hn : new_root t (set_slot k z (x_root t)) (set_node InRoot (set_slot k z (node_at t1 InRoot)) t1)).
      { apply new_root_nodes. rewrite (Ht1 InRoot). by apply same_nodes_set_node. }
      destruct Hn as [Hr Ho]. split; [by rewrite Hr|done].
    + cbn [set_node x_root node_at]. exact (eq_ind_r (fun nd => 0 <= k < eh_entries nd) Hk (Ht1 InRoot)).
    + intros t' c' Hg Hq. wp_step. eapply HQ; [exact Hfp|done|by etrans].
  - rewrite (proj2 (Z.ltb_lt _ _) Hroom). wp_step. unfold insert_has_space. do 2 wp_step. rewrite Hd, Hph.
    wp_step. apply wp_get_access; [done|]. cbn [w_st w_held w_calls]. intros t1 c1 Ht1 Hq1. cbn [Z.eqb negb node_at].
    destruct (insert_leaf (x_root t) e Hwf Hok He Hst Hu Hroom) as (i & nd' & Hins & Hi & Hadd).
    rewrite Hx, Hins. do 2 wp_step.
    eapply (wp_insert_merge_flat _ i i flags e); [|done|by split| |done|].
    + split_and!; rewrite ?length_pset, ?pnth_pset_eq by lia; done.
    + destruct (new_root_nodes t nd' (set_node InRoot nd' t1)) as [Hr Ho]; [by apply same_nodes_set_node|].
      split; [by rewrite Hr|done].
    + intros t' c' Hg Hq. wp_step. eapply (HQ _ (Some i)); [|done|by etrans].
      cbn [snd]. split_and!; rewrite ?length_pset, ?pnth_pset_eq by lia; done.
Qed.
End Insert.
