(* ===== verification/ExtentMapFlat.v ===== *)
(** * Mapping blocks in a tree of depth 0

    [ext4_ext_map_blocks] on an inode whose extents are in the inode itself: a lookup
    answers what the extents map and how far, an allocation adds exactly the blocks it
    reports. *)

From stdpp Require Import prelude list gmap strings.
From Stdlib Require Import ZArith Lia.
From S2P Require Import Prelude Kernel ExtentNode ExtentTree ExtentTreeSpec Layout Fs Namei EvfsExtent ExtentRemove.
From S2P Require Import ExtentRemoveSpec ExtentMap ExtentMapSpec.

Local Open Scope Z_scope.

Section MapFlat.
Context `{ExtFmtOk} `{Env} `{TreeEnv} `{RemoveEnv} `{MapEnv}.

(** *** The position of a block that is not mapped *)

(** The first block mapped after position [x], or [EXT_MAX_BLOCKS]. *)
Definition next_start (nd : node) (x : option Z) (b : Z) : Z :=
  match x with
  | None => EXT_MAX_BLOCKS
  | Some x => if b <? ee_block (slot nd x) then ee_block (slot nd x)
              else if x =? EXT_LAST nd then EXT_MAX_BLOCKS else ee_block (slot nd (x + 1))
  end.

(** The block lies after extent [x], or before the first one. *)
Definition beside (nd : node) (x : option Z) (b : Z) : Prop :=
  match x with
  | None => eh_entries nd = 0
  | Some x => 0 <= x < eh_entries nd /\
      (b < ee_block (slot nd x) /\ x = 0 \/ ext_end (slot nd x) <= b)
  end.

Lemma beside_unmapped nd b :
  node_wf nd -> leaf_ok 0 (entries nd) -> mapping (entries nd) b = None ->
  let x := ext4_ext_binsearch nd b in
  beside nd x b /\ (b < EXT_MAX_BLOCKS -> b < next_start nd x b) /\
  forall k, b <= k < next_start nd x b -> mapping (entries nd) k = None.
Proof.
  intros Hwf Hok Hnone x. destruct (Z.eq_dec (eh_entries nd) 0) as [Hz|Hz].
  { assert (Hx : x = None) by (unfold x, ext4_ext_binsearch; by rewrite Hz).
    rewrite Hx. split_and!; [done|done|]. intros k _. unfold entries. by rewrite Hz. }
  destruct (binsearch_position nd 0 b Hwf Hok) as (j & Hj & Hpos); [destruct Hwf; lia|].
  unfold x. rewrite Hj. pose proof Hpos as (Hjr & Hlo & Hhi). rewrite (position_covers _ 0 _ _ Hwf Hok Hpos) in Hnone.
  destruct (covers (slot nd j) b) eqn:Hc; [done|]. apply covers_false in Hc.
  destruct (slot_ok nd 0 j Hwf Hok Hjr) as [(? & ? & ?) _]. cbn [beside next_start].
  assert (Hb : b < ee_block (slot nd j) /\ j = 0 \/ ext_end (slot nd j) <= b).
  { destruct Hc as [Hc|]; [left|by right]. split; [done|]. destruct (Z.eq_dec j 0) as [|]; [done|].
    specialize (Hlo j ltac:(lia)). cbn beta in Hlo. lia. }
  split; [done|]. unfold EXT_LAST. split.
  - intros Hmax. destruct (Z.ltb_spec b (ee_block (slot nd j))); [done|]. destruct (Z.eqb_spec j (eh_entries nd - 1)); [done|].
    apply (Hhi (j + 1)). lia.
  - intros k Hk. apply mapping_none. intros y [n Hn]%list_elem_of_lookup. apply covers_false.
    pose proof (lookup_lt_Some _ _ _ Hn). pose proof (length_entries _ Hwf).
    rewrite <- (Nat2Z.id n), entries_slot in Hn by (done || lia). injection Hn as <-. set (i := Z.of_nat n) in *.
    destruct (Z.lt_trichotomy i j) as [Hij|[->|Hij]].
    + right. pose proof (slot_sorted nd 0 i j Hwf Hok ltac:(lia) Hij ltac:(lia)).
      destruct Hb as [[_ ->]|]; [lia|]. unfold ext_end in *. lia.
    + destruct (Z.ltb_spec b (ee_block (slot nd j))); [left; lia|right; lia].
    + left. destruct (Z.ltb_spec b (ee_block (slot nd j))).
      * pose proof (slot_sorted nd 0 j i Hwf Hok ltac:(lia) Hij ltac:(lia)). unfold ext_end in *. lia.
      * destruct (Z.eqb_spec j (eh_entries nd - 1)); [lia|].
        destruct (Z.eq_dec i (j + 1)) as [->|]; [lia|].
        pose proof (slot_sorted nd 0 (j + 1) i Hwf Hok ltac:(lia) ltac:(lia) ltac:(lia)).
        destruct (slot_ok nd 0 (j + 1) Hwf Hok ltac:(lia)) as [(? & ? & ?) _]. unfold ext_end in *. lia.
Qed.

(** [ext4_ext_next_allocated_block] of a path to such a block. *)
Lemma next_allocated_flat t p x b :
  flat_path p x -> beside (x_root t) x b ->
  match x with Some x => ee_block (slot (x_root t) x) <= b | None => True end ->
  ext4_ext_next_allocated_block t p = next_start (x_root t) x b.
Proof.
  intros (Hl & Hd & Hh & Hb & Hx) Hbe Hle. unfold ext4_ext_next_allocated_block. rewrite Hd, Hx. cbn [Z.eqb].
  destruct x as [x|]; [|done]. cbn [andb]. change (Z.to_nat (0 + 1)) with 1%nat. cbn [next_allocated_loop].
  change (Z.of_nat 0) with 0. rewrite Hd, Hx, Hh. cbn [Z.eqb node_at next_start].
  rewrite (proj2 (Z.ltb_ge _ _)) by done. by destruct (x =? EXT_LAST (x_root t)).
Qed.
(** *** Lookup *)

(** The answers of the extent status tree in a hole: none, or a delayed extent that
    overlaps the range asked for and ends with it or before. *)
Definition es_ok : Prop := forall h s e,
  let a := [ino; s; e] in
  let n := env_int h "ext4_es_find_extent_range:len"%string a in
  let l := env_int (("ext4_es_find_extent_range:len"%string, a) :: h) "ext4_es_find_extent_range:lblk"%string a in
  n = 0 \/ 0 < n /\ 0 <= l <= e /\ s < l + n <= e + 1.

(** The hole around a block that is not mapped. *)
Lemma find_hole_flat t p b :
  flat t -> flat_path p (ext4_ext_binsearch (x_root t) b) -> 0 <= b < EXT_MAX_BLOCKS ->
  mapping (entries (x_root t)) b = None ->
  exists hs len, ext4_ext_find_hole t p b = Some (hs, len) /\ 0 <= hs <= b /\ b < hs + len < 2 ^ 32 /\
    forall k, b <= k < hs + len -> mapping (entries (x_root t)) k = None.
Proof.
  intros [Hd Hwf Hok] Hfp Hb Hnone. pose proof Hfp as (Hl & Hpd & Hph & Hbh & Hx).
  destruct (beside_unmapped _ _ Hwf Hok Hnone) as (Hbe & Hnx & Hun). unfold ext4_ext_find_hole. rewrite Hd, Hx, Hph.
  rewrite fmt_max_blocks in *. destruct (ext4_ext_binsearch (x_root t) b) as [x|] eqn:Hbs.
  2:{ exists 0, (2 ^ 32 - 1). cbn [next_start] in *. rewrite fmt_max_blocks in *. split_and!; try lia; [done|].
      intros k Hk. apply Hun. lia. }
  cbn [node_at]. destruct Hbe as [Hxr Hbx]. destruct (slot_ok (x_root t) 0 x Hwf Hok Hxr) as [(Hb0 & Hn0 & He0) _].
  fold (ext_end (slot (x_root t) x)). rewrite (u32_small (ext_end _)) by (unfold ext_end in *; lia).
  specialize (Hnx ltac:(lia)).
  assert (Hmax : next_start (x_root t) (Some x) b < 2 ^ 32).
  { cbn [next_start]. rewrite fmt_max_blocks. unfold EXT_LAST.
    destruct (b <? _); [unfold ext_end in *; lia|]. destruct (Z.eqb_spec x (eh_entries (x_root t) - 1)); [lia|].
    destruct (slot_ok (x_root t) 0 (x + 1) Hwf Hok ltac:(lia)) as [(? & ? & ?) _]. unfold ext_end in *. lia. }
  destruct (Z.ltb_spec b (ee_block (slot (x_root t) x))) as [Hlt|Hge].
  - assert (Hns : next_start (x_root t) (Some x) b = ee_block (slot (x_root t) x)).
    { cbn [next_start]. by rewrite (proj2 (Z.ltb_lt _ _)). }
    rewrite Hns in *. eexists b, _. split; [reflexivity|]. rewrite u32_small by (unfold ext_end in *; lia).
    split_and!; try lia. intros k Hk. apply Hun. lia.
  - assert (Hend : ext_end (slot (x_root t) x) <= b) by lia. rewrite (proj2 (Z.leb_le _ _)) by done.
    rewrite (next_allocated_flat t p (Some x) b) by done. rewrite (proj2 (Z.eqb_neq _ _)) by lia.
    eexists _, _. split; [reflexivity|]. rewrite u32_small by (unfold ext_end in *; lia).
    split_and!; try (unfold ext_end in *; lia). intros k Hk. apply Hun. lia.
Qed.

Lemma wp_delayed_loop n t held calls b hs len (Q : Z -> world xtree -> Prop) :
  es_ok -> 0 <= hs <= b -> b < hs + len < 2 ^ 32 -> (hs = b /\ n = 1 \/ n = 2)%nat ->
  (forall r calls', 0 < r <= hs + len - b -> Q r (World t held calls')) ->
  wp (delayed_loop n b hs len) Q (World t held calls).
Proof.
  intros Hes. revert hs len calls. induction n as [|n IH]; intros hs len calls Hhs Hlen Hn HQ; [lia|].
  cbn [delayed_loop]. rewrite (u32_small (hs + len)), (u32_small (hs + len - 1)) by lia. do 2 wp_step.
  pose proof (Hes calls hs (hs + len - 1)) as Ha. cbn zeta in Ha. rewrite Hc in Ha.
  assert (Hins : forall len' c, b < hs + len' -> len' <= len -> Q (if negb (hs =? b) then u32 (len' - u32 (b - hs)) else len')
    (World t held c)).
  { intros len' c Hl' Hle. apply HQ. rewrite (u32_small (b - hs)) by lia. rewrite u32_small by lia.
    destruct (Z.eqb_spec hs b); cbn [negb]; lia. }
  destruct (Z.eqb_spec z 0) as [->|Hz].
  { repeat wp_step. apply Hins; lia. }
  destruct Ha as [|(Hz0 & Hl & Ho)]; [done|]. do 2 wp_step. rewrite Hc0 in Hl, Ho.
  rewrite (u32_small (z0 + z)) by lia. destruct (Z.leb_spec (z0 + z) b) as [Hbe|Hgt].
  - rewrite (u32_small (b - hs)), u32_small by lia. apply IH; [lia|lia| |].
    + destruct Hn as [[-> ?]| ?]; [lia|left; split; lia].
    + intros r c Hr. apply HQ. lia.
  - unfold in_range. destruct (Z.lt_ge_cases b z0) as [Hlt|Hge].
    + assert ((u32 (b - z0) <? z) = false) as ->.
      { apply Z.ltb_ge. unfold u32, wrap. rewrite <- (Z.mod_unique_pos _ (2 ^ 32) (-1) (2 ^ 32 + (b - z0))); lia. }
      rewrite (u32_small (z0 - hs)) by lia. repeat wp_step. apply Hins; lia.
    + rewrite (u32_small (b - z0)) by lia. rewrite (proj2 (Z.ltb_lt _ _)) by lia. wp_step.
      rewrite u32_small by lia. apply HQ. lia.
Qed.
Lemma in_range_covers e b : ext_ok e -> 0 <= b < 2 ^ 32 -> in_range b (ee_block e) (ext4_ext_get_actual_len e) = covers e b.
Proof.
  intros (Hb & Hn & He) Hr. unfold in_range, covers, ext_end in *. destruct (Z.lt_ge_cases b (ee_block e)) as [Hlt|Hge].
  - rewrite (proj2 (Z.leb_gt _ _)) by done. cbn [andb]. apply Z.ltb_ge. unfold u32, wrap.
    rewrite <- (Z.mod_unique_pos _ (2 ^ 32) (-1) (2 ^ 32 + (b - ee_block e))); lia.
  - rewrite u32_small by lia. rewrite (proj2 (Z.leb_le _ _)) by done. cbn [andb].
    destruct (Z.ltb_spec (b - ee_block e) (ext4_ext_get_actual_len e)), (Z.ltb_spec b (ee_block e + ext4_ext_get_actual_len e)); lia.
Qed.

(** What a lookup answers: how many blocks from [m_lblk] on are mapped one after the
    other, and where; or a part of the hole. *)
Definition lookup_answer (mp : emap) (m : ext4_map_blocks) (ret : Z) (m' : ext4_map_blocks) : Prop :=
  m_lblk m' = m_lblk m /\ 0 < m_len m' <= m_len m /\
  match mp (m_lblk m) with
  | Some (b, unwritten) =>
      ret = m_len m' /\ m_pblk m' = b /\
      m_flags m' = Z.lor (m_flags m) (if unwritten : bool then EXT4_MAP_UNWRITTEN else EXT4_MAP_MAPPED) /\
      forall i, 0 <= i < ret -> mp (m_lblk m + i) = Some (b + i, unwritten)
  | None => ret = 0 /\ m_pblk m' = 0 /\ m_flags m' = m_flags m /\
      forall i, 0 <= i < m_len m' -> mp (m_lblk m + i) = None
  end.

(** The extent of the path covers the request. *)
Lemma wp_map_found_read p x m t held calls (Q : Z * ppath * ext4_map_blocks -> world xtree -> Prop) :
  let e := slot (x_root t) x in
  flat t -> 0 <= x < eh_entries (x_root t) -> covers e (m_lblk m) = true -> 0 < m_len m ->
  (forall ret m', lookup_answer (mapping (entries (x_root t))) m ret m' -> Q (ret, PSame p, m') (World t held calls)) ->
  wp (map_found p e m 0) Q (World t held calls).
Proof.
  intros e [Hd Hwf Hok] Hx Hc Hlen HQ. destruct (slot_ok (x_root t) 0 x Hwf Hok Hx) as [(Hb & Hn & He) _].
  fold e in Hb, Hn, He. apply covers_spec in Hc as Hcs. pose proof (fmt_pblock_range (ee_start e)) as Hp.
  assert (Hin : e ∈ entries (x_root t)) by (eapply list_elem_of_lookup_2; by apply entries_slot).
  assert (Hans : forall fl n, fl = (if ext4_ext_is_unwritten e then EXT4_MAP_UNWRITTEN else EXT4_MAP_MAPPED) ->
    n = Z.min (m_len m) (ext_end e - m_lblk m) ->
    lookup_answer (mapping (entries (x_root t))) m n
      (Map (ext4_ext_pblock e + (m_lblk m - ee_block e)) (m_lblk m) n (Z.lor (m_flags m) fl))).
  { intros fl n -> ->. unfold lookup_answer. cbn [m_lblk m_len m_pblk m_flags].
    assert (Hm : forall b, ee_block e <= b < ext_end e -> mapping (entries (x_root t)) b = Some (phys e b)).
    { intros b Hbr. eapply mapping_covered; [done..|by apply covers_spec]. }
    rewrite Hm by done. unfold phys. split_and!; try done; try lia. intros i Hi. rewrite Hm by lia. unfold phys.
    do 2 f_equal. lia. }
  unfold map_found. unfold ext_end in *. rewrite (u32_small (m_lblk m - _)) by lia.
  rewrite u32_small by lia. rewrite u64_small by (unfold ext4_ext_pblock in *; lia).
  change (has_flag 0 EXT4_GET_BLOCKS_CONVERT_UNWRITTEN) with false. rewrite andb_false_r.
  set (n := ext4_ext_get_actual_len e - (m_lblk m - ee_block e)) in *.
  assert (Hmin : forall A (f : Z -> A), f (if m_len m <? n then m_len m else n) =
    f (Z.min (m_len m) (ee_block e + ext4_ext_get_actual_len e - m_lblk m))).
  { intros A f. f_equal. subst n. destruct (Z.ltb_spec (m_len m) (ext4_ext_get_actual_len e - (m_lblk m - ee_block e))); lia. }
  destruct (ext4_ext_is_unwritten e) eqn:Hu; cbn [negb].
  - unfold ext4_ext_handle_unwritten_extents, unwritten_out1. cbn [m_len set_m_pblk add_m_flags].
    change (has_flag (Z.lor 0 EXT4_GET_BLOCKS_METADATA_NOFAIL) EXT4_GET_BLOCKS_PRE_IO) with false.
    change (has_flag (Z.lor 0 EXT4_GET_BLOCKS_METADATA_NOFAIL) EXT4_GET_BLOCKS_CONVERT) with false.
    change (has_flag (Z.lor 0 EXT4_GET_BLOCKS_METADATA_NOFAIL) EXT4_GET_BLOCKS_UNWRIT_EXT) with false.
    change (has_flag (Z.lor 0 EXT4_GET_BLOCKS_METADATA_NOFAIL) EXT4_GET_BLOCKS_CREATE) with false. cbn [negb].
    wp_step. apply HQ. rewrite Z.add_comm. apply Hans; [done|]. apply (Hmin Z (fun z => z)).
  - wp_step. apply HQ. rewrite Z.add_comm. apply Hans; [done|]. apply (Hmin Z (fun z => z)).
Qed.

(** [ext4_ext_map_blocks] without flags, on an inode with all its extents in the root, is
    the map of the inode: a mapped block is answered with its physical block, its state and
    the number of blocks that follow it in the same extent, as far as asked; an unmapped
    one with 0 and a length of the hole.  The tree stays as it was. *)
Theorem map_blocks_lookup m t held calls :
  flat t -> kcalloc_ok -> es_ok -> 0 <= m_lblk m < EXT_MAX_BLOCKS -> 0 < m_len m ->
  exists ret m' calls', ext4_ext_map_blocks m 0 (World t held calls) = Ret (ret, m') (World t held calls') /\
    lookup_answer (mapping (entries (x_root t))) m ret m'.
Proof.
  intros Hf Hk Hes Hb Hlen. pose proof Hf as [Hd Hwf Hok].
  cut (wp (ext4_ext_map_blocks m 0) (fun r w => w_st w = t /\ w_held w = held /\
    lookup_answer (mapping (entries (x_root t))) m r.1 r.2) (World t held calls)).
  { intros ([ret m'] & [t' held' calls'] & Hr & <- & <- & Ha)%wp_run. by exists ret, m', calls'. }
  unfold ext4_ext_map_blocks. wp_step. apply wp_find_flat; [done..|]. intros p calls1 Hfp _. do 2 wp_step.
  pose proof Hfp as (Hl & Hpd & Hph & Hbh & Hx). rewrite Hd, Hx, Hph. cbn [node_at Z.eqb negb].
  assert (Hfree : forall ret m' calls', lookup_answer (mapping (entries (x_root t))) m ret m' ->
    wp (ext4_free_ext_path (ppath_of (PSame p));;; kret (ret, m')) (fun r w => w_st w = t /\ w_held w = held /\
      lookup_answer (mapping (entries (x_root t))) m r.1 r.2) (World t held calls')).
  { intros ret m' calls' Ha. wp_step. eapply wp_free_flat; [exact Hfp|]. by wp_step. }
  assert (Hhole : mapping (entries (x_root t)) (m_lblk m) = None -> forall Q : Z * ppath * ext4_map_blocks -> world xtree -> Prop,
    (forall ret m' calls', lookup_answer (mapping (entries (x_root t))) m ret m' -> Q (ret, PSame p, m') (World t held calls')) ->
    wp (map_hole p m 0) Q (World t held calls1)).
  { intros Hnone Q HQ. unfold map_hole. change (has_flag 0 EXT4_GET_BLOCKS_CREATE) with false. cbn [negb]. wp_step.
    unfold ext4_ext_determine_insert_hole. do 2 wp_step.
    destruct (find_hole_flat t p (m_lblk m) Hf Hfp Hb Hnone) as (hs & len & -> & Hhs & Hhl & Hun).
    apply wp_delayed_loop; [done|lia|lia|by right|]. intros r calls2 Hr. wp_step. apply HQ.
    unfold lookup_answer. rewrite Hnone. cbn [set_m_len set_m_pblk m_lblk m_len m_pblk m_flags]. split_and!; try done; try lia.
    intros i Hi. apply Hun. lia. }
  wp_step. destruct (ext4_ext_binsearch (x_root t) (m_lblk m)) as [x|] eqn:Hbs.
  - destruct (Z.eq_dec (eh_entries (x_root t)) 0) as [Hz|Hz]; [unfold ext4_ext_binsearch in Hbs; by rewrite Hz in Hbs|].
    destruct (binsearch_position (x_root t) 0 (m_lblk m) Hwf Hok) as (y & Hy & Hpos); [destruct Hwf; lia|].
    rewrite Hbs in Hy. injection Hy as <-. destruct Hpos as [Hxr Hpos'].
    pose proof (position_covers _ 0 _ _ Hwf Hok (conj Hxr Hpos')) as Hmp.
    rewrite in_range_covers; [|by eapply slot_ok|rewrite fmt_max_blocks in Hb; lia].
    destruct (covers (slot (x_root t) x) (m_lblk m)) eqn:Hc.
    + eapply wp_map_found_read; [done..|]. intros ret m' Ha. by apply Hfree.
    + apply Hhole; [done|]. intros ret m' calls' Ha. by apply Hfree.
  - apply Hhole.
    + apply mapping_none. intros e He. destruct (Z.eq_dec (eh_entries (x_root t)) 0) as [Hz|Hz].
      * unfold entries in He. rewrite Hz in He. by apply not_elem_of_nil in He.
      * destruct (binsearch_position (x_root t) 0 (m_lblk m) Hwf Hok) as (y & Hy & _); [destruct Hwf; lia|].
        by rewrite Hbs in Hy.
    + intros ret m' calls' Ha. by apply Hfree.
Qed.
(** *** Allocation *)

(** The answers of [ext4_mb_new_blocks]: an error, or some of the blocks asked for. *)
Definition mb_ok : Prop := forall h a,
  let b := env_int h "ext4_mb_new_blocks"%string a in
  let h' := ("ext4_mb_new_blocks"%string, a) :: h in
  let c := env_int h' "ext4_mb_new_blocks:len"%string a in
  b = 0 /\ env_int h' "ext4_mb_new_blocks:err"%string a < 0 \/
  0 < b /\ 0 < c <= a !!! 2%nat /\ b + c <= 2 ^ 48.

Lemma search_left_flat t p x b :
  flat t -> flat_path p x -> beside (x_root t) x b -> 0 <= b ->
  exists l pl, ext4_ext_search_left t p b = Some (inr (l, pl)).
Proof.
  intros [Hd Hwf Hok] (Hl & Hpd & Hph & Hbh & Hx) Hbe Hb. unfold ext4_ext_search_left. rewrite Hpd, Hx, Hph.
  destruct x as [x|]; [|by do 2 eexists]. destruct Hbe as [Hxr Hbe]. cbn [node_at].
  destruct (slot_ok (x_root t) 0 x Hwf Hok Hxr) as [(? & ? & ?) _]. fold (ext_end (slot (x_root t) x)).
  rewrite (u32_small (ext_end _)) by (unfold ext_end in *; lia). change (Z.to_nat 0) with 0%nat. cbn [first_indexes negb orb].
  destruct Hbe as [[Hlt ->]|Hge].
  - rewrite (proj2 (Z.ltb_lt _ _)) by done. by do 2 eexists.
  - rewrite (proj2 (Z.ltb_ge _ _)) by (unfold ext_end in *; lia). rewrite (proj2 (Z.ltb_ge _ _)) by done. by do 2 eexists.
Qed.

Lemma wp_search_right_flat t p x b held calls (Q : Z + option ext4_extent -> world xtree -> Prop) :
  flat t -> flat_path p x -> beside (x_root t) x b -> 0 <= b ->
  (forall r, Q (inr r) (World t held calls)) -> wp (ext4_ext_search_right p b) Q (World t held calls).
Proof.
  intros [Hd Hwf Hok] (Hl & Hpd & Hph & Hbh & Hx) Hbe Hb HQ. unfold ext4_ext_search_right. do 2 wp_step. rewrite Hpd, Hx, Hph.
  destruct x as [x|]; [|cbn [Z.eqb]; by wp_step]. destruct Hbe as [Hxr Hbe]. cbn [node_at].
  destruct (slot_ok (x_root t) 0 x Hwf Hok Hxr) as [(? & ? & ?) _]. fold (ext_end (slot (x_root t) x)).
  rewrite (u32_small (ext_end _)) by (unfold ext_end in *; lia). change (Z.to_nat 0) with 0%nat. cbn [first_indexes negb orb].
  destruct Hbe as [[Hlt ->]|Hge].
  - rewrite (proj2 (Z.ltb_lt _ _)) by done. cbn [Z.eqb negb orb]. by wp_step.
  - rewrite (proj2 (Z.ltb_ge _ _)) by (unfold ext_end in *; lia). rewrite (proj2 (Z.ltb_ge _ _)) by done.
    destruct (x =? EXT_LAST (x_root t)); cbn [negb index_to_right]; by repeat wp_step.
Qed.

Lemma actual_len_init n : 0 < n <= EXT_INIT_MAX_LEN -> len_actual (u16 n) = n.
Proof. intros Hn. destruct fmt_limits. rewrite u16_small by lia. by apply fmt_init. Qed.

(** The request is cut at the next extent. *)
Lemma check_overlap_flat t p x b n :
  no_clusters -> flat t -> flat_path p x -> beside (x_root t) x b -> 0 <= b ->
  b < next_start (x_root t) x b -> 0 < n <= EXT_INIT_MAX_LEN -> b + n < 2 ^ 32 ->
  let r := ext4_ext_check_overlap (EXT4_LBLK_CMASK rm_sbi) t p (Ext b (u16 n) 0) in
  (if r.2 then ext4_ext_get_actual_len r.1 else n) = Z.min n (next_start (x_root t) x b - b).
Proof.
  intros [Hr _] [Hd Hwf Hok] Hfp Hbe Hb Hnx Hn Hbn. pose proof Hfp as (Hl & Hpd & Hph & Hbh & Hx).
  assert (Hcm : forall k, EXT4_LBLK_CMASK rm_sbi k = k).
  { intros k. unfold EXT4_LBLK_CMASK. rewrite Hr. apply Z.ldiff_0_r. }
  unfold ext4_ext_check_overlap. rewrite Hd, Hx, Hph. cbn [node_at ee_block].
  assert (Hal : ext4_ext_get_actual_len (Ext b (u16 n) 0) = n) by by apply actual_len_init.
  rewrite !Hal.
  assert (Hcut : forall m, b < m -> (if (let '(ne, l, r) := if u32 (b + n) <? b
        then (set_ee_len (Ext b (u16 n) 0) (EXT_MAX_BLOCKS - b), EXT_MAX_BLOCKS - b, true) else (Ext b (u16 n) 0, n, false) in
        if m <? u32 (b + l) then (set_ee_len ne (m - b), true) else (ne, r)).2
      then ext4_ext_get_actual_len (let '(ne, l, r) := if u32 (b + n) <? b
        then (set_ee_len (Ext b (u16 n) 0) (EXT_MAX_BLOCKS - b), EXT_MAX_BLOCKS - b, true) else (Ext b (u16 n) 0, n, false) in
        if m <? u32 (b + l) then (set_ee_len ne (m - b), true) else (ne, r)).1 else n) = Z.min n (m - b)).
  { intros m Hm. rewrite (u32_small (b + n)) by lia. rewrite (proj2 (Z.ltb_ge (b + n) b)) by lia.
    rewrite (u32_small (b + n)) by lia. destruct (Z.ltb_spec m (b + n)); cbn [fst snd]; [|lia].
    unfold ext4_ext_get_actual_len, set_ee_len. cbn [ee_len]. rewrite actual_len_init; lia. }
  destruct x as [x|]; cbn [fst snd].
  2:{ cbn [next_start] in *. rewrite fmt_max_blocks in *. lia. }
  rewrite !Hcm. destruct (Z.ltb_spec (ee_block (slot (x_root t) x)) b) as [Hlt|Hge].
  - rewrite (next_allocated_flat t p (Some x) b) by (done || lia). cbn [andb].
    destruct (Z.eqb_spec (next_start (x_root t) (Some x) b) EXT_MAX_BLOCKS) as [->|_]; [cbn [fst snd]; rewrite fmt_max_blocks; lia|].
    by apply Hcut.
  - cbn [andb]. assert (Hns : next_start (x_root t) (Some x) b = ee_block (slot (x_root t) x)).
    { cbn [next_start]. destruct Hbe as [Hxr [[? _]|Hend]]; [by rewrite (proj2 (Z.ltb_lt _ _))|].
      destruct (slot_ok (x_root t) 0 x Hwf Hok Hxr) as [(? & ? & ?) _]. unfold ext_end in *. lia. }
    rewrite Hns in *. by apply Hcut.
Qed.
Lemma wp_find_goal_flat p x b t held calls (Q : Z -> world xtree -> Prop) :
  flat_path p x -> (forall g calls', Q g (World t held calls')) -> wp (ext4_ext_find_goal p b) Q (World t held calls).
Proof.
  intros (Hl & Hpd & Hph & Hbh & Hx) HQ. unfold ext4_ext_find_goal. do 2 wp_step. rewrite Hpd, Hx, Hbh.
  destruct x; by repeat wp_step.
Qed.

Lemma no_clusters_off b : no_clusters -> EXT4_LBLK_COFF rm_sbi b = 0.
Proof. intros [Hr _]. unfold EXT4_LBLK_COFF. rewrite Hr. apply Z.land_0_r. Qed.

(** What the allocator gives for a request of [n] blocks. *)
Definition given (n : Z) (g : got_blocks) : Prop :=
  g_offset g = 0 /\ 0 < g_newblock g /\ 0 < g_len g <= n /\ g_newblock g + g_len g <= 2 ^ 48 /\
  exists h a, env_int h "ext4_mb_new_blocks"%string a = g_newblock g.

(** The allocator found none. *)
Definition no_blocks : Prop := exists h a, env_int h "ext4_mb_new_blocks"%string a = 0.

Lemma wp_new_blocks p x m flags n ll pl lr pr t held calls (Q : Z + got_blocks -> world xtree -> Prop) :
  no_clusters -> mb_ok -> flat_path p x -> 0 < n < 2 ^ 32 - 1 ->
  (forall err calls', err < 0 -> no_blocks -> Q (inl err) (World t held calls')) ->
  (forall g calls', given n g -> Q (inr g) (World t held calls')) ->
  wp (new_blocks p m flags n ll pl lr pr) Q (World t held calls).
Proof.
  intros Hnc Hmb Hfp Hn Herr HQ. pose proof Hnc as [Hr Hbits]. unfold new_blocks. rewrite (no_clusters_off _ Hnc).
  wp_step. eapply wp_find_goal_flat; [exact Hfp|]. intros goal calls1. do 2 wp_step.
  set (args := _ :: _) in Hc |- *. assert (Ha : args !!! 2%nat = n).
  { unfold args. cbn. unfold EXT4_NUM_B2C. rewrite Hr, Hbits, Z.shiftr_0_r. rewrite (u32_small (0 + n)) by lia.
    rewrite (u32_small (0 + n + 1)), u32_small by lia. lia. }
  clearbody args. pose proof (Hmb calls1 args) as Hans. cbn zeta in Hans. rewrite Hc, Ha in Hans.
  destruct (Z.eqb_spec z 0) as [->|Hz].
  - do 3 wp_step. apply Herr; [|by exists calls1, args]. rewrite <- Hc0. destruct Hans as [[_ ?]|[? _]]; [done|lia].
  - destruct Hans as [[? _]|(Hz0 & Hc1 & Hfit)]; [done|]. do 3 wp_step. rewrite Hc0 in Hc1, Hfit.
    unfold EXT4_C2B. rewrite Hbits, Z.shiftl_0_r. rewrite (u32_small z0), u32_small by lia. apply HQ.
    unfold given. cbn [g_offset g_newblock g_len]. split_and!; try done; [destruct (Z.ltb_spec n (z0 - 0)); lia..|].
    by exists calls1, args.
Qed.

(** The longest extent a request may become. *)
Definition max_len (flags : Z) : Z :=
  if has_flag flags EXT4_GET_BLOCKS_UNWRIT_EXT then EXT_UNWRITTEN_MAX_LEN else EXT_INIT_MAX_LEN.

Lemma wp_find_blocks p x m flags t held calls
    (Q : (Z * Z + ext4_map_blocks * got_blocks) * ext4_map_blocks -> world xtree -> Prop) :
  no_clusters -> mb_ok -> flat t -> flat_path p x -> beside (x_root t) x (m_lblk m) -> 0 <= m_lblk m ->
  m_lblk m < next_start (x_root t) x (m_lblk m) -> 0 < m_len m -> m_lblk m + m_len m < 2 ^ 32 ->
  (forall err n m' calls', err < 0 -> no_blocks -> Q (inl (err, n), m') (World t held calls')) ->
  (forall g m' calls', m_lblk m' = m_lblk m -> m_flags m' = m_flags m ->
     given (Z.min (Z.min (m_len m) (max_len flags)) (next_start (x_root t) x (m_lblk m) - m_lblk m)) g ->
     Q (inr (m', g), m') (World t held calls')) ->
  wp (find_blocks p m flags) Q (World t held calls).
Proof.
  intros Hnc Hmb Hf Hfp Hbe Hb Hnx Hlen Hend Herr HQ. pose proof Hf as [Hd Hwf Hok]. pose proof Hnc as [Hr _].
  pose proof Hfp as (Hl & Hpd & Hph & Hbh & Hx). unfold find_blocks. do 2 wp_step. rewrite Hd, Hx, Hph, (no_clusters_off _ Hnc).
  cbn [Z.eqb negb]. replace (match x with Some _ => None | None => None end) with (@None ext4_map_blocks) by (by destruct x).
  destruct (search_left_flat t p x (m_lblk m) Hf Hfp Hbe Hb) as (ll & pl & ->).
  wp_step. eapply wp_search_right_flat; [done..|]. intros next. rewrite Hr. cbn [Z.ltb Z.compare Pos.compare Pos.compare_cont].
  replace (match next with Some _ => None | None => None end) with (@None ext4_map_blocks) by (by destruct next).
  set (m1 := if _ && _ then _ else if _ && _ then _ else m).
  assert (Hm1 : m_lblk m1 = m_lblk m /\ m_flags m1 = m_flags m /\ m_len m1 = Z.min (m_len m) (max_len flags)).
  { unfold m1, max_len. destruct fmt_limits as [Hlim _].
    destruct (has_flag flags EXT4_GET_BLOCKS_UNWRIT_EXT); rewrite ?andb_false_r, ?andb_true_r; cbn [negb];
      case_cmp; cbn [set_m_len m_lblk m_flags m_len]; split_and!; try done; lia. }
  destruct Hm1 as (Hl1 & Hf1 & Hn1). clearbody m1. do 2 wp_step. rewrite Hl1, Hn1.
  set (n := Z.min (m_len m) (max_len flags)) in *.
  assert (Hnr : 0 < n <= EXT_INIT_MAX_LEN).
  { unfold n, max_len. destruct fmt_limits as [Hlim _]. case_match; lia. }
  pose proof (check_overlap_flat t p x (m_lblk m) n Hnc Hf Hfp Hbe Hb Hnx Hnr ltac:(lia)) as Hco. cbn zeta in Hco.
  destruct (ext4_ext_check_overlap _ t p _) as [newex ov]. cbn [fst snd] in Hco.
  destruct (match next with Some ex2 => (ee_block ex2, ext4_ext_pblock ex2) | None => (m_lblk m, 0) end) as [lr pr].
  rewrite Hco. wp_step. destruct fmt_limits as [_ Hlim2].
  eapply wp_new_blocks; [done..|lia| |].
  - intros err calls' He Hno. wp_step. by apply Herr.
  - intros g calls' Hg. wp_step. by apply HQ.
Qed.

(** The extent the code builds from its answer. *)
Lemma new_extent_ok b n pblk flags :
  0 <= b -> 0 < n <= max_len flags -> b + n < 2 ^ 32 -> 0 < pblk -> pblk + n <= 2 ^ 48 ->
  let unwrit := has_flag flags EXT4_GET_BLOCKS_UNWRIT_EXT in
  let e := ext4_ext_store_pblock (Ext b (u16 n) 0) pblk in
  let e := if unwrit then ext4_ext_mark_unwritten e else e in
  ext_ok e /\ stored e /\ ee_block e = b /\ ext_end e = b + n /\ forall k, phys e k = (pblk + (k - b), unwrit).
Proof.
  intros Hb Hn He Hp Hpn unwrit e0 e. pose proof (fmt_pblock pblk ltac:(lia)) as Hst. destruct fmt_limits as [Hlim Hlim2].
  assert (Hlen : ext4_ext_get_actual_len e = n /\ ext4_ext_is_unwritten e = unwrit).
  { unfold max_len in Hn. fold unwrit in Hn. unfold e, e0. destruct unwrit.
    - unfold ext4_ext_get_actual_len, ext4_ext_is_unwritten, ext4_ext_mark_unwritten, ext4_ext_store_pblock.
      cbn [ee_len]. rewrite u16_small by lia. destruct (fmt_unwritten n); [lia|done].
    - unfold ext4_ext_get_actual_len, ext4_ext_is_unwritten, ext4_ext_store_pblock. cbn [ee_len].
      rewrite u16_small by lia. destruct (fmt_init n); [lia|done]. }
  assert (Hpb : ext4_ext_pblock e = pblk /\ ee_start e = pblock_store pblk /\ ee_block e = b).
  { unfold e, e0. destruct unwrit; by split_and!. }
  destruct Hlen as [Hlen Hu], Hpb as (Hpb & Hs & Hbl). unfold ext_ok, ext_end, stored, phys. rewrite Hlen, Hu, Hpb, Hs, Hbl.
  split_and!; try done; lia.
Qed.

(** What an allocation leaves: an error and the same tree, or the blocks of the answer
    added to the map. *)
Definition alloc_answer (t : xtree) (m : ext4_map_blocks) (flags ret : Z) (m' : ext4_map_blocks) (t' : xtree) : Prop :=
  ret < 0 /\ no_blocks /\ t' = t \/
  0 < ret <= m_len m /\ m_lblk m' = m_lblk m /\ m_len m' = ret /\
  (exists h a, env_int h "ext4_mb_new_blocks"%string a = m_pblk m') /\
  m_flags m' = (let new := Z.lor EXT4_MAP_NEW EXT4_MAP_MAPPED in
    if has_flag flags EXT4_GET_BLOCKS_UNWRIT_EXT then Z.lor (Z.lor (m_flags m) EXT4_MAP_UNWRITTEN) new
    else Z.lor (m_flags m) new) /\
  flat t' /\ same_off InRoot t t' /\
  forall b, mapping (entries (x_root t')) b =
    if (m_lblk m <=? b) && (b <? m_lblk m + ret)
    then Some (m_pblk m' + (b - m_lblk m), has_flag flags EXT4_GET_BLOCKS_UNWRIT_EXT)
    else mapping (entries (x_root t)) b.

Lemma wp_claim m g flags t held calls (Q : unit -> world xtree -> Prop) :
  (forall calls', Q tt (World t held calls')) -> wp (claim_reserved m g flags) Q (World t held calls).
Proof. intros HQ. unfold claim_reserved. repeat case_match; repeat wp_step; try done. case_match; by repeat wp_step. Qed.

Lemma wp_insert_blocks p m m0 g flags t held calls (Q : Z * ppath * ext4_map_blocks -> world xtree -> Prop) :
  let x := ext4_ext_binsearch (x_root t) (m_lblk m) in
  journal_ok -> flat t -> flat_path p x -> eh_entries (x_root t) < eh_max (x_root t) ->
  has_flag flags EXT4_GET_BLOCKS_PRE_IO = false -> 0 <= m_lblk m -> m_lblk m + m_len m < 2 ^ 32 ->
  m_lblk m0 = m_lblk m -> m_flags m0 = m_flags m ->
  given (Z.min (Z.min (m_len m) (max_len flags)) (next_start (x_root t) x (m_lblk m) - m_lblk m)) g ->
  (forall k, m_lblk m <= k < next_start (x_root t) x (m_lblk m) -> mapping (entries (x_root t)) k = None) ->
  (forall ret p' y m' t' calls', flat_path p' y -> alloc_answer t m flags ret m' t' ->
     Q (ret, PSame p', m') (World t' held calls')) ->
  wp (insert_blocks p m0 g flags) Q (World t held calls).
Proof.
  intros x Hj Hf Hfp Hroom Hpre Hb Hend Hl0 Hf0 (Hoff & Hnb & Hlen & Hfit & Hans) Hun HQ.
  destruct (new_extent_ok (m_lblk m) (g_len g) (g_newblock g) flags) as (Hok & Hst & Hbl & Hee & Hph); try lia.
  unfold insert_blocks. rewrite Hoff, Z.add_0_r, Hl0. rewrite u64_small by lia.
  set (e := if has_flag flags EXT4_GET_BLOCKS_UNWRIT_EXT then ext4_ext_mark_unwritten _ else _) in *.
  wp_step. apply wp_insert_flat; try done.
  - by rewrite Hbl.
  - intros k Hk. apply Hun. lia.
  - intros p' y t' calls' Hfp' Hg Hq. cbn [Z.eqb negb]. wp_step. apply wp_claim. intros calls2. do 3 wp_step.
    eapply HQ; [exact Hfp'|]. right. cbn [set_m_len set_m_pblk add_m_flags m_lblk m_len m_pblk m_flags].
    pose proof (grown_flat _ _ _ Hf Hg) as Hf'. destruct Hg as [(_ & _ & _ & _ & Hmap) Ho].
    split_and!; try done; try lia.
    + by destruct (has_flag flags EXT4_GET_BLOCKS_UNWRIT_EXT).
    + destruct (has_flag flags EXT4_GET_BLOCKS_UNWRIT_EXT); cbn [add_m_flags m_flags]; by rewrite Hf0.
    + intros k. rewrite Hmap. unfold add_map, covers. by rewrite Hbl, Hee, Hph.
Qed.
(** C8: [ext4_ext_map_blocks] with EXT4_GET_BLOCKS_CREATE for a block that is not mapped, on an
    inode with all its extents in the root and a free slot there, without clusters, when the
    journal accepts every buffer, paths can be allocated, and the block allocator answers as
    documented: it answers an error when there are no free blocks, and leaves the tree alone; or
    it answers how many blocks it mapped and where.  Then exactly these blocks are added to the
    map of the inode, to the blocks the allocator gave, one after the other and written or
    unwritten as asked; every other block keeps its mapping, whichever neighbour the new extent
    was merged with. *)
Theorem map_blocks_allocates m flags t held calls :
  flat t -> eh_entries (x_root t) < eh_max (x_root t) -> journal_ok -> kcalloc_ok -> no_clusters -> mb_ok ->
  has_flag flags EXT4_GET_BLOCKS_CREATE = true -> has_flag flags EXT4_GET_BLOCKS_PRE_IO = false ->
  0 <= m_lblk m -> 0 < m_len m -> m_lblk m + m_len m < 2 ^ 32 ->
  mapping (entries (x_root t)) (m_lblk m) = None ->
  exists ret m' t' calls', ext4_ext_map_blocks m flags (World t held calls) = Ret (ret, m') (World t' held calls') /\
    alloc_answer t m flags ret m' t'.
Proof.
  intros Hf Hroom Hj Hk Hnc Hmb Hcr Hpre Hb Hlen Hend Hnone. pose proof Hf as [Hd Hwf Hok].
  cut (wp (ext4_ext_map_blocks m flags) (fun r w => w_held w = held /\ alloc_answer t m flags r.1 r.2 (w_st w))
    (World t held calls)).
  { intros ([ret m'] & [t' held' calls'] & Hr & <- & Ha)%wp_run. by exists ret, m', t', calls'. }
  destruct (beside_unmapped _ _ Hwf Hok Hnone) as (Hbe & Hnx & Hun). specialize (Hnx ltac:(rewrite fmt_max_blocks; lia)).
  set (x := ext4_ext_binsearch (x_root t) (m_lblk m)) in *.
  unfold ext4_ext_map_blocks. wp_step. apply wp_find_flat; [done..|]. intros p calls1 Hfp _. fold x in Hfp. do 2 wp_step.
  pose proof Hfp as (Hl & Hpd & Hph & Hbh & Hx). rewrite Hd, Hx, Hph. cbn [node_at Z.eqb negb].
  wp_step. apply (wp_mono _ (fun r w => exists p' y, r.1.2 = PSame p' /\ flat_path p' y /\ w_held w = held /\
    alloc_answer t m flags r.1.1 r.2 (w_st w))).
  - assert (Hm : wp (map_hole p m flags) (fun r w => exists p' y, r.1.2 = PSame p' /\ flat_path p' y /\ w_held w = held /\
      alloc_answer t m flags r.1.1 r.2 (w_st w)) (World t held calls1)).
    { unfold map_hole. rewrite Hcr. cbn [negb]. wp_step. eapply wp_find_blocks; [done..| |].
      - intros err n m' c He Hno. rewrite (proj2 (Z.eqb_neq err 0)) by lia. wp_step. exists p, x. split_and!; try done. by left.
      - intros g m' c Hl' Hf' Hg. eapply wp_insert_blocks; [done..|exact Hg|exact Hun|].
        intros ret p' y m2 t' c' Hfp' Ha. by exists p', y. }
    destruct x as [k|] eqn:Hbs; [|exact Hm]. destruct Hbe as [Hkr Hbk].
    rewrite in_range_covers; [|by eapply slot_ok|lia].
    rewrite (proj2 (covers_false _ _)) by (destruct Hbk as [[? _]|?]; [by left|by right]). exact Hm.
  - intros [[ret pp] m'] [t' held' c] (p' & y & Hpp & Hfp' & Hh & Ha). cbn [fst snd w_held w_st] in *. subst pp held'.
    wp_step. eapply wp_free_flat; [exact Hfp'|]. by wp_step.
Qed.
End MapFlat.
