(* ===== verification/ExtentConvert.v ===== *)
(** * Converting unwritten extents

    [ext4_ext_map_blocks] after the data of a range reached the disk: the part of an
    unwritten extent that was written becomes an extent of its own, which is marked and
    merged with its neighbours.  For trees whose extents are in the inode. *)

From stdpp Require Import prelude list gmap strings.
From Stdlib Require Import ZArith Lia.
From S2P Require Import Prelude Kernel ExtentNode ExtentTree ExtentTreeSpec Layout Fs Namei EvfsExtent ExtentRemove.
From S2P Require Import ExtentRemoveSpec ExtentMap ExtentMapSpec ExtentMapFlat.

Local Open Scope Z_scope.

(** ** An extent in another state *)

Section Replace.
Context `{ExtFmtOk}.

(** The same range as another extent. *)
Definition same_range (e e' : ext4_extent) : Prop :=
  ee_block e' = ee_block e /\ ext_end e' = ext_end e /\ ext_ok e'.

Lemma set_slot_same_range nd x e' :
  node_wf nd -> leaf_ok 0 (entries nd) -> 0 <= x < eh_entries nd -> same_range (slot nd x) e' ->
  let nd' := set_slot x e' nd in
  node_wf nd' /\ leaf_ok 0 (entries nd') /\ e' ∈ entries nd' /\
  forall b, mapping (entries nd') b = if covers (slot nd x) b then Some (phys e' b) else mapping (entries nd) b.
Proof.
  intros Hwf Hok Hx (Hb & He & Ho) nd'. destruct (set_slot_entries nd x e' Hwf Hx) as [Hent Hwf'].
  pose proof (entries_split nd x Hwf Hx) as Hsp.
  assert (Hok' : leaf_ok 0 (entries nd')).
  { unfold nd'. rewrite Hent. rewrite Hsp in Hok. by eapply leaf_ok_replace. }
  split; [done|]. split; [done|]. unfold nd' in *. rewrite Hent in Hok' |- *. split; [set_solver|]. intros b.
  rewrite (mapping_insert 0) by done. rewrite Hsp at 3. rewrite Hsp in Hok. rewrite (mapping_insert 0) by done.
  unfold covers. rewrite Hb, He. by destruct (_ && _).
Qed.

(** The marks keep the range. *)
Lemma mark_again_range e :
  ext_ok e -> ext4_ext_is_unwritten e = true ->
  same_range e (ext4_ext_mark_unwritten e) /\ forall b, phys (ext4_ext_mark_unwritten e) b = phys e b.
Proof.
  intros (Hb & Hn & He) Hu. destruct (fmt_unwritten_again (ee_len e) Hu Hn) as [Hu' Hl'].
  unfold same_range, ext_ok, ext_end, phys, ext4_ext_get_actual_len, ext4_ext_is_unwritten, ext4_ext_mark_unwritten,
    ext4_ext_pblock in *. cbn [ee_block ee_len ee_start]. rewrite Hl', Hu'. split_and!; try done. intros b. by rewrite Hu.
Qed.

Lemma mark_initialized_range e :
  ext_ok e -> same_range e (ext4_ext_mark_initialized e) /\
  forall b, phys (ext4_ext_mark_initialized e) b = (ext4_ext_pblock e + (b - ee_block e), false).
Proof.
  intros (Hb & Hn & He). destruct (fmt_mark_initialized (ee_len e) Hn) as [Hu' Hl'].
  unfold same_range, ext_ok, ext_end, phys, ext4_ext_get_actual_len, ext4_ext_is_unwritten, ext4_ext_mark_initialized,
    ext4_ext_pblock in *. cbn [ee_block ee_len ee_start]. rewrite Hl', Hu'. split_and!; try done.
Qed.
End Replace.

(** ** Splits *)

Section Convert.
Context `{ExtFmtOk} `{Env} `{TreeEnv} `{RemoveEnv} `{MapEnv}.
Hypothesis Hj : journal_ok.

(** A path to an extent of the root that can be used for another search. *)
Definition good_path (p : path) (x : option Z) : Prop := flat_path p x /\ 0 <= p_maxdepth (pnth p 0).

Lemma good_path_set p x y : good_path p x -> good_path (pset p 0 (set_p_ext (Some y) (pnth p 0))) (Some y).
Proof using.
  intros [(Hl & Hd & Hh & Hb & _) Hm]. split; [split_and!|]; rewrite ?length_pset, ?pnth_pset_eq by lia; done.
Qed.

(** The same map in other extents, with [n] more of them. *)
Record resplit (t : xtree) (n : Z) (t' : xtree) : Prop := {
  rs_flat : flat t';
  rs_off : same_off InRoot t t';
  rs_n : eh_entries (x_root t') = eh_entries (x_root t) + n;
  rs_max : eh_max (x_root t') = eh_max (x_root t);
  rs_map : forall b, mapping (entries (x_root t')) b = mapping (entries (x_root t)) b
}.

Lemma resplit_refl t : flat t -> resplit t 0 t.
Proof using. intros Hf. split; try done. lia. Qed.
Lemma resplit_trans t n t' n' t'' : resplit t n t' -> resplit t' n' t'' -> resplit t (n + n') t''.
Proof using.
  intros [? Ho ? ? Hm] [? Ho' ? ? Hm']. split; [done| |lia|congruence|intros b; by rewrite Hm', Hm].
  intros l Hl. by rewrite Ho', Ho.
Qed.

(** The physical blocks of an extent fit in 48 bits. *)
Definition fits48 (e : ext4_extent) : Prop := ext4_ext_pblock e + ext4_ext_get_actual_len e <= 2 ^ 48.

Lemma wp_split_at_flat p x s sf flags t held calls (Q : Z * ppath -> world xtree -> Prop) :
  let ex := slot (x_root t) x in
  flat t -> good_path p (Some x) -> has_flag flags EXT4_GET_BLOCKS_PRE_IO = true ->
  keeps_state sf (ext4_ext_is_unwritten ex) -> 0 <= x < eh_entries (x_root t) ->
  eh_entries (x_root t) < eh_max (x_root t) -> ee_block ex < s < ext_end ex -> fits48 ex ->
  (forall t' p' calls', good_path p' (Some (x + 1)) -> resplit t 1 t' -> quiet calls calls' ->
     left_half ex s ∈ entries (x_root t') -> right_half ex s ∈ entries (x_root t') ->
     Q (0, PSame p') (World t' held calls')) ->
  wp (ext4_split_extent_at p s sf flags) Q (World t held calls).
Proof.
  intros ex [Hd Hwf Hok] Hgp Hpre Hsf Hx Hroom Hs Hp HQ. pose proof Hgp as [(Hl & Hpd & Hph & Hb & Hpx) Hm].
  destruct (split_leaf (x_root t) x s Hwf Hok Hx Hroom Hs Hp) as (nd' & Hins & Hent & Hwf' & Hn' & Hm').
  destruct (leaf_split_map (x_root t) x s Hwf Hok Hx Hs Hp) as [Hlo Hmap]. rewrite <- Hent in Hlo, Hmap.
  apply wp_split_room with (x := x) (nd' := nd'); cbn [w_st w_held w_calls]; rewrite ?Hd, ?Hph; auto; try lia.
  { apply (slot_ok (x_root t) 0 x Hwf Hok Hx). }
  intros t' c Ht' Hq. assert (Hroot : x_root t' = nd') by exact (Ht' InRoot).
  apply HQ; [by eapply good_path_set| |done|..]; rewrite ?Hroot, ?Hent; try set_solver.
  split; rewrite ?Hroot; try done.
  - split; rewrite ?Hroot; try done. unfold ext_depth in *. rewrite Hroot, (insert_slot_depth _ _ _ _ _ Hins). exact Hd.
  - intros l Hl'. rewrite (Ht' l). by apply node_at_set_node_ne.
Qed.

Lemma wp_refill_flat p x b flags t held calls (Q : Z * ppath -> world xtree -> Prop) :
  kcalloc_ok -> ext_depth t = 0 -> good_path p x ->
  (forall p' calls', good_path p' (ext4_ext_binsearch (x_root t) b) -> quiet calls calls' ->
     Q (0, PSame p') (World t held calls')) ->
  wp (refill p b flags) Q (World t held calls).
Proof using H0.
  intros Hk Hd [Hfp Hm] HQ. unfold refill. do 2 wp_step. rewrite Hd, (proj2 (Z.ltb_ge _ _)) by done.
  wp_step. apply wp_find_flat_arg; [done..| |].
  { split; [by exists x|done]. }
  intros p' c Hfp' Hm' Hq. wp_step. by apply HQ.
Qed.

(** A split at the start of an extent only marks it. *)
Lemma wp_split_at_start p x sf flags t held calls (Q : Z * ppath -> world xtree -> Prop) :
  let ex := slot (x_root t) x in
  flat t -> good_path p (Some x) -> has_flag flags EXT4_GET_BLOCKS_PRE_IO = true ->
  keeps_state sf (ext4_ext_is_unwritten ex) -> ext4_ext_is_unwritten ex = true -> 0 <= x < eh_entries (x_root t) ->
  (forall t' calls', resplit t 0 t' -> quiet calls calls' -> ext4_ext_mark_unwritten ex ∈ entries (x_root t') ->
     Q (0, PSame p) (World t' held calls')) ->
  wp (ext4_split_extent_at p (ee_block ex) sf flags) Q (World t held calls).
Proof.
  intros ex [Hd Hwf Hok] Hgp Hpre (Hf1 & Hf2 & Hf3 & Hf4) Hu Hx HQ. pose proof Hgp as [(Hl & Hpd & Hph & Hb & Hpx) Hm].
  destruct (slot_ok (x_root t) 0 x Hwf Hok Hx) as [Hex _]. fold ex in Hex. pose proof Hex as (Hb0 & Hn0 & He0).
  unfold ext4_split_extent_at. rewrite Hf1. do 2 wp_step. rewrite Hd, Hpx, Hph. cbn [node_at]. fold ex.
  unfold ext_end in He0. rewrite Z.ltb_irrefl, u32_small by lia. rewrite (proj2 (Z.leb_gt _ _)) by lia. cbn [orb].
  rewrite Hf2. wp_step. apply wp_get_access; [done|]. cbn [w_st w_held w_calls]. intros t1 c1 Ht1 Hq1. cbn [Z.eqb negb].
  rewrite Z.eqb_refl, Hf4, Hu. wp_step. unfold mod_leaf. rewrite Hph. wp_step. rewrite (Ht1 InRoot). cbn [node_at]. fold ex.
  rewrite Hpre. do 2 wp_step. rewrite Hpd. wp_step. apply wp_dirty; [done|]. cbn [w_st w_held w_calls]. intros t2 c2 Ht2 Hq2.
  wp_step. destruct (mark_again_range ex Hex Hu) as [Hsr Hph'].
  destruct (set_slot_same_range (x_root t) x _ Hwf Hok Hx Hsr) as (Hwf' & Hok' & Hin & Hmap).
  set (nd' := set_slot x (ext4_ext_mark_unwritten ex) (x_root t)) in *.
  assert (Hroot : x_root t2 = nd') by exact (Ht2 InRoot).
  apply HQ; [|by etrans|by rewrite Hroot]. split; rewrite ?Hroot; try done.
  - split; rewrite ?Hroot; try done. unfold ext_depth in *. by rewrite Hroot.
  - intros l Hl'. rewrite (Ht2 l), node_at_set_node_ne by done. exact (Ht1 l).
  - cbn. lia.
  - intros b. rewrite Hmap, Hph'. fold ex. destruct (covers ex b) eqn:Hc; [|done].
    symmetry. eapply mapping_covered; [exact Hok| |exact Hc]. eapply list_elem_of_lookup_2. by apply entries_slot.
Qed.

(** An unwritten extent for the range from [s] to [e], exactly. *)
Definition unwritten_piece (x : ext4_extent) (s e : Z) : Prop :=
  ee_block x = s /\ ext_end x = e /\ ext4_ext_is_unwritten x = true /\ fits48 x.

Lemma unwritten_halves ex s :
  ext_ok ex -> ee_block ex < s < ext_end ex -> ext4_ext_is_unwritten ex = true -> fits48 ex ->
  unwritten_piece (left_half ex s) (ee_block ex) s /\ unwritten_piece (right_half ex s) s (ext_end ex).
Proof using H0.
  intros Hex Hs Hu Hp. destruct (halves_spec ex s Hex Hs Hp) as [(Hl1 & Hl2 & Hl3 & Hl4) (Hr1 & Hr2 & Hr3 & Hr4 & Hr5)].
  pose proof (Hl4 0) as Hl. pose proof (Hr5 0) as Hr. unfold phys in Hl, Hr. injection Hl as Hl Hlu. injection Hr as Hr Hru.
  unfold unwritten_piece, fits48, ext_end in *. split_and!; try congruence; lia.
Qed.

(** The split of an unwritten extent at a block of it leaves an extent that starts there. *)
Lemma wp_split_from p x s sf flags t held calls (Q : Z * ppath -> world xtree -> Prop) :
  let ex := slot (x_root t) x in
  flat t -> good_path p (Some x) -> has_flag flags EXT4_GET_BLOCKS_PRE_IO = true ->
  keeps_state sf true -> 0 <= x < eh_entries (x_root t) -> eh_entries (x_root t) < eh_max (x_root t) ->
  ee_block ex <= s < ext_end ex -> ext4_ext_is_unwritten ex = true -> fits48 ex ->
  (forall t' p' calls' y n e, good_path p' y -> resplit t n t' -> 0 <= n <= 1 -> e ∈ entries (x_root t') ->
     unwritten_piece e s (ext_end ex) -> Q (0, PSame p') (World t' held calls')) ->
  wp (ext4_split_extent_at p s sf flags) Q (World t held calls).
Proof.
  intros ex Hf Hgp Hpre Hsf Hx Hroom Hs Hu Hp HQ. pose proof Hf as [Hd Hwf Hok].
  destruct (slot_ok (x_root t) 0 x Hwf Hok Hx) as [Hex _]. fold ex in Hex.
  destruct (Z.eq_dec s (ee_block ex)) as [->|Hne].
  - apply wp_split_at_start with (x := x); fold ex; rewrite ?Hu; try done. intros t' calls' Hr _ Hin.
    destruct (mark_again_range ex Hex Hu) as [(Hb & He & Hok') Hph]. pose proof (Hph 0) as Hph0.
    unfold phys in Hph0. injection Hph0 as Huw. assert (Hpb : ext4_ext_pblock (ext4_ext_mark_unwritten ex) = ext4_ext_pblock ex) by done. eapply HQ; [exact Hgp|exact Hr|lia|exact Hin|].
    unfold unwritten_piece, fits48, ext_end in *. split_and!; try congruence; lia.
  - apply wp_split_at_flat with (x := x); fold ex; rewrite ?Hu; try done; [lia|]. intros t' p' calls' Hgp' Hr _ _ Hin.
    eapply HQ; [exact Hgp'|exact Hr|lia|exact Hin|]. apply unwritten_halves; try done. lia.
Qed.

Lemma pre_io_lor flags : has_flag (Z.lor flags EXT4_GET_BLOCKS_PRE_IO) EXT4_GET_BLOCKS_PRE_IO = true.
Proof using.
  unfold has_flag. replace (Z.land (Z.lor flags EXT4_GET_BLOCKS_PRE_IO) EXT4_GET_BLOCKS_PRE_IO) with EXT4_GET_BLOCKS_PRE_IO; [done|].
  apply Z.bits_inj'. intros n Hn. rewrite Z.land_spec, Z.lor_spec. by destruct (Z.testbit flags n), (Z.testbit _ n).
Qed.

(** [ext4_split_extent] up to its second split: an unwritten extent that ends where the range
    does, or before. *)
Lemma wp_split_extent_first p x b len sf flags t held calls (Q : Z * ppath -> world xtree -> Prop) :
  let ex := slot (x_root t) x in
  keeps_state (Z.lor (Z.lor (Z.land sf EXT4_EXT_MAY_ZEROOUT) (Z.lor EXT4_EXT_MARK_UNWRIT1 EXT4_EXT_MARK_UNWRIT2))
    EXT4_EXT_DATA_VALID1) true -> has_flag sf EXT4_EXT_DATA_VALID2 = true ->
  kcalloc_ok -> flat t -> good_path p (Some x) ->
  0 <= x < eh_entries (x_root t) -> eh_entries (x_root t) + 1 < eh_max (x_root t) ->
  covers ex b = true -> 0 < len -> b + len < 2 ^ 32 -> ext4_ext_is_unwritten ex = true -> fits48 ex ->
  (forall r t' p' calls' y n, 0 < r -> good_path p' (Some y) -> resplit t n t' -> 0 <= n <= 1 ->
     0 <= y < eh_entries (x_root t') -> quiet calls calls' ->
     let e := slot (x_root t') y in
     unwritten_piece e (ee_block ex) (Z.min (b + len) (ext_end ex)) ->
     wp (ext4_split_extent_at p' b (Z.lor (Z.lor (Z.land sf EXT4_EXT_DATA_VALID2) EXT4_EXT_MARK_UNWRIT1)
             (Z.land sf (Z.lor EXT4_EXT_MAY_ZEROOUT EXT4_EXT_MARK_UNWRIT2))) flags)
       (fun q w => exists p'', q = (0, PSame p'') /\ Q (r, PSame p'') w) (World t' held calls')) ->
  wp (ext4_split_extent p b len sf flags) Q (World t held calls).
Proof.
  intros ex Hk1 Hdv Hk Hf Hgp Hx Hroom Hc Hlen Hend Hu Hp HQ. pose proof Hf as [Hd Hwf Hok].
  pose proof Hgp as [(Hl & Hpd & Hph & Hb & Hpx) Hm]. apply covers_spec in Hc as Hcs.
  destruct (slot_ok (x_root t) 0 x Hwf Hok Hx) as [Hex _]. fold ex in Hex. pose proof Hex as (Hb0 & Hn0 & He0).
  unfold ext4_split_extent. do 2 wp_step. rewrite Hd, Hpx, Hph. cbn [node_at]. fold ex.
  fold (ext_end ex). rewrite (u32_small (b + len)), (u32_small (ext_end ex)) by (unfold ext_end in *; lia). rewrite Hu, Hdv.
  wp_step. apply (wp_mono _ (fun r w => exists p' y t' n e r' c, r = (0, PSame p', r') /\ w = World t' held c /\
    quiet calls c /\ 0 < r' /\ good_path p' y /\ resplit t n t' /\ 0 <= n <= 1 /\ e ∈ entries (x_root t') /\
    unwritten_piece e (ee_block ex) (Z.min (b + len) (ext_end ex)))).
  { destruct (Z.ltb_spec (b + len) (ext_end ex)) as [Hlt|Hge].
    - wp_step. apply wp_split_at_flat with (x := x); fold ex; rewrite ?Hu; try done; try lia.
      { apply pre_io_lor. }
      intros t' p' c Hgp' Hr Hq Hin _. wp_step.
      destruct (unwritten_halves ex (b + len) Hex) as [Hpc _]; [lia|done..|].
      exists p', (Some (x + 1)), t', 1, (left_half ex (b + len)), len, c. split_and!; try done; try lia.
      by rewrite Z.min_l by lia.
    - wp_step. exists p, (Some x), t, 0, ex, (s32 (ext4_ext_get_actual_len ex - (b - ee_block ex))), calls.
      split_and!; try done; try lia.
      + destruct (fmt_range (ee_len ex)) as [_ Hr], fmt_limits as [Hl1 Hl2]. unfold ext_end, ext4_ext_get_actual_len in *.
        destruct (len_is_unwritten (ee_len ex)); rewrite s32_small; lia.
      + by apply resplit_refl.
      + eapply list_elem_of_lookup_2. by apply entries_slot.
      + by rewrite Z.min_r by lia. }
  intros r w (p1 & y1 & t1 & n1 & e1 & r1 & c1 & -> & -> & Hq1 & Hr1 & Hgp1 & Hrs1 & Hn1 & Hin1 & Hpc1).
  pose proof Hpc1 as (He1b & He1e & He1u & He1f). cbn [Z.eqb negb ppath_of]. pose proof Hrs1 as [Hf1 _ Hnn Hmm _].
  pose proof Hf1 as [Hd1 Hwf1 Hok1].
  destruct (found_slot (x_root t1) b e1 Hwf1 Hok1 Hin1) as (x1 & Hbs1 & Hx1 & Hsl1); [apply covers_spec; lia|].
  wp_step. eapply wp_refill_flat; [done|done|exact Hgp1|]. intros p2 c2 Hgp2 Hq2. cbn [ppath_then ppath_of].
  rewrite Hbs1 in Hgp2. pose proof Hgp2 as [(Hl2 & Hpd2 & Hph2 & Hb2 & Hpx2) Hm2].
  do 2 wp_step. rewrite Hd1, Hpx2, Hph2. cbn [node_at]. rewrite Hsl1, He1u, (proj2 (Z.leb_le (ee_block ex) b)) by lia.
  wp_step. eapply wp_mono; [eapply HQ; rewrite ?Hsl1; [exact Hr1|done..|by etrans|done]|].
  intros q w (p3 & -> & Hq3). cbn [ppath_then Z.eqb negb]. by wp_step.
Qed.

(** The flags of the split before a conversion. *)
Definition convert_flags (zeroout : Z) : Z := Z.lor zeroout (Z.lor EXT4_EXT_MARK_UNWRIT2 EXT4_EXT_DATA_VALID2).

(** [ext4_split_extent] of an unwritten extent: the range asked for becomes an extent of its
    own. *)
Lemma wp_split_extent_flat p x b len z flags t held calls (Q : Z * ppath -> world xtree -> Prop) :
  let ex := slot (x_root t) x in
  z = 0 \/ z = EXT4_EXT_MAY_ZEROOUT ->
  kcalloc_ok -> flat t -> good_path p (Some x) -> has_flag flags EXT4_GET_BLOCKS_PRE_IO = true ->
  0 <= x < eh_entries (x_root t) -> eh_entries (x_root t) + 1 < eh_max (x_root t) ->
  covers ex b = true -> 0 < len -> b + len < 2 ^ 32 -> ext4_ext_is_unwritten ex = true -> fits48 ex ->
  (forall r t' p' calls' y n e, 0 < r -> good_path p' y -> resplit t n t' -> e ∈ entries (x_root t') ->
     unwritten_piece e b (Z.min (b + len) (ext_end ex)) -> Q (r, PSame p') (World t' held calls')) ->
  wp (ext4_split_extent p b len (convert_flags z) flags) Q (World t held calls).
Proof.
  intros ex Hz Hk Hf Hgp Hpre Hx Hroom Hc Hlen Hend Hu Hp HQ. apply covers_spec in Hc as Hcs.
  apply wp_split_extent_first with (x := x); try done; [by destruct Hz as [-> | ->]|by destruct Hz as [-> | ->]|].
  intros r t1 p1 c1 x1 n1 Hr1 Hgp1 Hrs1 Hn1 Hx1 _ e1 (He1b & He1e & He1u & He1f). pose proof Hrs1 as [Hf1 _ Hnn Hmm _].
  fold ex in He1b, He1e. apply wp_split_from with (x := x1); fold e1; try done; try lia.
  { by destruct Hz as [-> | ->]. }
  intros t3 p3 c3 y3 n3 e3 Hgp3 Hrs3 Hn3 Hin3 Hpc. exists p3. split; [done|].
  eapply HQ; [done|exact Hgp3|by eapply resplit_trans|exact Hin3|]. by rewrite He1e in Hpc.
Qed.

(** *** Marking the piece *)

Lemma wp_mark_and_merge_flat mark p x t held calls (Q : Z * path -> world xtree -> Prop) :
  let e := slot (x_root t) x in
  flat t -> flat_path p (Some x) -> 0 <= x < eh_entries (x_root t) -> same_range e (mark e) ->
  (forall t' calls', flat t' -> same_off InRoot t t' ->
     (forall b, mapping (entries (x_root t')) b =
        if covers e b then Some (phys (mark e) b) else mapping (entries (x_root t)) b) ->
     Q (0, p) (World t' held calls')) ->
  wp (mark_and_merge mark p x) Q (World t held calls).
Proof.
  intros e [Hd Hwf Hok] Hfp Hx Hsr HQ. pose proof Hfp as (Hl & Hpd & Hph & Hb & Hpx).
  destruct (set_slot_same_range (x_root t) x _ Hwf Hok Hx Hsr) as (Hwf' & Hok' & _ & Hmap).
  unfold mark_and_merge. do 2 wp_step. rewrite Hd. wp_step. apply wp_get_access; [done|]. cbn [w_st w_held w_calls].
  intros t1 c1 Ht1 _. cbn [Z.eqb negb]. wp_step. unfold mod_leaf. rewrite Hph. wp_step. rewrite (Ht1 InRoot). cbn [node_at].
  fold e. set (nd' := set_slot x (mark e) (x_root t)) in *. wp_step. eapply wp_merge_flat; [exact Hfp|exact Hd|].
  cbn [set_node x_root]. destruct (try_to_merge_leaf_same nd' x Hwf' Hx) as (Hwf2 & _ & Hok2 & Hmap2).
  rewrite Hpd. wp_step. apply wp_dirty; [done|]. cbn [w_st w_held w_calls]. intros t2 c2 Ht2 _. wp_step.
  assert (Hroot : x_root t2 = try_to_merge_leaf nd' x) by exact (Ht2 InRoot).
  apply HQ.
  - split; rewrite ?Hroot; [|done|by apply Hok2]. unfold ext_depth in *. by rewrite Hroot, try_to_merge_leaf_depth.
  - intros l Hl'. rewrite (Ht2 l). destruct l as [|b]; [done|exact (Ht1 (InBlk b))].
  - intros b. by rewrite Hroot, (Hmap2 0), Hmap.
Qed.

(** The map with the range written. *)
Definition written (m : emap) (s e : Z) : emap := fun b =>
  if (s <=? b) && (b <? e) then (fun p => (p.1, false)) <$> m b else m b.

Lemma wp_endio_flat p x m t held calls (Q : Z * ppath -> world xtree -> Prop) :
  let ex := slot (x_root t) x in
  kcalloc_ok -> flat t -> good_path p (Some x) -> 0 <= x < eh_entries (x_root t) ->
  eh_entries (x_root t) + 1 < eh_max (x_root t) -> covers ex (m_lblk m) = true -> 0 < m_len m ->
  m_lblk m + m_len m < 2 ^ 32 -> ext4_ext_is_unwritten ex = true -> fits48 ex ->
  (forall p' y t' calls', flat_path p' y -> flat t' -> same_off InRoot t t' ->
     (forall b, mapping (entries (x_root t')) b =
        written (mapping (entries (x_root t))) (m_lblk m) (Z.min (m_lblk m + m_len m) (ext_end ex)) b) ->
     Q (0, PSame p') (World t' held calls')) ->
  wp (ext4_convert_unwritten_extents_endio p m) Q (World t held calls).
Proof.
  intros ex Hk Hf Hgp Hx Hroom Hc Hlen Hend Hu Hp HQ. pose proof Hf as [Hd Hwf Hok].
  pose proof Hgp as [(Hl & Hpd & Hph & Hb & Hpx) Hm]. apply covers_spec in Hc as Hcs.
  unfold ext4_convert_unwritten_extents_endio. wp_step.
  apply (wp_mono _ (fun r w => exists p' y t' n e c, r = (0, PSame p', Some y) /\ flat_path p' (Some y) /\
    resplit t n t' /\ 0 <= y < eh_entries (x_root t') /\ slot (x_root t') y = e /\
    unwritten_piece e (m_lblk m) (Z.min (m_lblk m + m_len m) (ext_end ex)) /\ w = World t' held c)).
  - unfold split_for. do 2 wp_step. rewrite Hd, Hpx, Hph. cbn [node_at]. fold ex.
    destruct (negb (ee_block ex =? m_lblk m) || (m_len m <? ext4_ext_get_actual_len ex)) eqn:Hsplit.
    + wp_step. unfold ext4_split_convert_extents. do 2 wp_step. rewrite Hd, Hpx, Hph. cbn [node_at]. fold ex.
      change (has_flag EXT4_GET_BLOCKS_CONVERT EXT4_GET_BLOCKS_CONVERT_UNWRITTEN) with false.
      change (has_flag EXT4_GET_BLOCKS_CONVERT EXT4_GET_BLOCKS_CONVERT) with true. cbn beta iota zeta.
      eapply wp_split_extent_flat; [|done|done|exact Hgp|apply pre_io_lor|done..|].
      { case_match; [by right|by left]. }
      intros r t1 p1 c1 y1 n1 e1 Hr Hgp1 Hrs1 Hin1 Hpc1. rewrite (proj2 (Z.ltb_ge r 0)) by lia.
      pose proof Hrs1 as [[Hd1 Hwf1 Hok1] _ _ _ _]. pose proof Hpc1 as (Hs1 & He1 & Hu1 & _).
      destruct (found_slot (x_root t1) (m_lblk m) e1 Hwf1 Hok1 Hin1) as (x1 & Hbs1 & Hx1 & Hsl1).
      { fold ex in He1. apply covers_spec. lia. }
      wp_step. unfold refresh. cbn [ppath_of]. wp_step. eapply wp_refill_flat; [done|done|exact Hgp1|].
      intros p2 c2 Hgp2 _. rewrite Hbs1 in Hgp2. pose proof Hgp2 as [(Hl2 & Hpd2 & Hph2 & Hb2 & Hpx2) Hm2].
      cbn [fst snd ppath_then]. wp_step. cbn [Z.eqb negb]. do 3 wp_step. cbn [ppath_of]. rewrite Hd1, Hpx2.
      by exists p2, x1, t1, n1, e1, c2.
    + wp_step. apply orb_false_iff in Hsplit as [Hs1%negb_false_iff%Z.eqb_eq Hs2%Z.ltb_ge].
      exists p, x, t, 0, ex, calls. split_and!; try done; try lia; [by apply resplit_refl|].
      unfold unwritten_piece. fold ex. split_and!; try done. unfold ext_end in *. lia.
  - intros r w (p1 & y1 & t1 & n1 & e1 & c1 & -> & Hfp1 & Hrs & Hy & Hsl & (Hs1 & He1 & Hu1 & Hp1) & ->).
    cbn [Z.eqb negb]. unfold mark_split. cbn [ppath_of]. wp_step. pose proof Hrs as [Hf1 Hoff1 _ _ Hmap1].
    pose proof Hf1 as [Hd1 Hwf1 Hok1]. destruct (slot_ok (x_root t1) 0 y1 Hwf1 Hok1 Hy) as [Hex1 _]. rewrite Hsl in Hex1.
    destruct (mark_initialized_range e1 Hex1) as [Hsr Hph1].
    apply wp_mark_and_merge_flat; [done|exact Hfp1|done|by rewrite Hsl|].
    intros t2 c2 Hf2 Hoff2 Hmap2. wp_step. cbn [fst snd ppath_then]. eapply HQ; [exact Hfp1|done| |].
    + intros l Hl'. by rewrite Hoff2, Hoff1.
    + intros b. rewrite Hmap2, Hsl. unfold written. rewrite <- Hmap1, <- He1, <- Hs1. fold (covers e1 b).
      destruct (covers e1 b) eqn:Hcb; [|done].
      assert (Hin1 : e1 ∈ entries (x_root t1)) by (rewrite <- Hsl; eapply list_elem_of_lookup_2; by apply entries_slot).
      rewrite (mapping_covered 0 _ e1 b Hok1 Hin1 Hcb), Hph1. done.
Qed.

(** C14: [ext4_ext_map_blocks] for a range that was written, on an inode with all its extents in
    the root and two free slots there, when paths can be allocated and the journal accepts
    every buffer: the extent [e] around its first block is unwritten and its blocks have
    numbers of 48 bits.  It answers the blocks of the range in this extent, and where they are;
    exactly these blocks become written.  Their physical blocks and every other block stay as
    they were, whatever was split off and merged with a neighbour. *)
Theorem convert_unwritten_correct m e t held calls :
  flat t -> eh_entries (x_root t) + 1 < eh_max (x_root t) -> kcalloc_ok ->
  e ∈ entries (x_root t) -> covers e (m_lblk m) = true -> ext4_ext_is_unwritten e = true -> fits48 e ->
  0 <= m_lblk m -> 0 < m_len m -> m_lblk m + m_len m < 2 ^ 32 ->
  let ret := Z.min (m_len m) (ext_end e - m_lblk m) in
  exists t' calls', ext4_ext_map_blocks m EXT4_GET_BLOCKS_IO_CONVERT_EXT (World t held calls) =
      Ret (ret, Map (ext4_ext_pblock e + (m_lblk m - ee_block e)) (m_lblk m) ret (Z.lor (m_flags m) EXT4_MAP_MAPPED))
        (World t' held calls') /\
    flat t' /\ same_off InRoot t t' /\
    forall b, mapping (entries (x_root t')) b = written (mapping (entries (x_root t))) (m_lblk m) (m_lblk m + ret) b.
Proof.
  intros Hf Hroom Hk Hin Hc Hu Hp Hb Hlen Hend ret. pose proof Hf as [Hd Hwf Hok].
  destruct (found_slot (x_root t) (m_lblk m) e Hwf Hok Hin Hc) as (x & Hbs & Hx & Hsl).
  destruct (slot_ok (x_root t) 0 x Hwf Hok Hx) as [Hex _]. rewrite Hsl in Hex. apply covers_spec in Hc as Hcs.
  cut (wp (ext4_ext_map_blocks m EXT4_GET_BLOCKS_IO_CONVERT_EXT) (fun r w => exists t' c, w = World t' held c /\
    r = (ret, Map (ext4_ext_pblock e + (m_lblk m - ee_block e)) (m_lblk m) ret (Z.lor (m_flags m) EXT4_MAP_MAPPED)) /\
    flat t' /\ same_off InRoot t t' /\
    forall b, mapping (entries (x_root t')) b = written (mapping (entries (x_root t))) (m_lblk m) (m_lblk m + ret) b)
    (World t held calls)).
  { intros (r & w & Hr & t' & c & -> & -> & Hrest)%wp_run. by exists t', c. }
  unfold ext4_ext_map_blocks. wp_step. apply wp_find_flat_arg; [done..|]. intros p calls1 Hfp Hm _. rewrite Hbs in Hfp.
  pose proof Hfp as (Hl & Hpd & Hph & Hbh & Hpx). do 2 wp_step. rewrite Hd, Hpx, Hph. cbn [node_at]. rewrite Hsl.
  rewrite in_range_covers by (done || lia). rewrite Hc. unfold map_found. rewrite Hu.
  destruct Hex as (Hb0 & Hn0 & He0). unfold ext_end in *. pose proof (fmt_pblock_range (ee_start e)) as Hpr.
  rewrite (u32_small (m_lblk m - _)) by lia. rewrite u32_small by lia. rewrite u64_small by (unfold ext4_ext_pblock in *; lia).
  cbn [negb andb]. unfold ext4_ext_handle_unwritten_extents.
  change (has_flag (Z.lor EXT4_GET_BLOCKS_IO_CONVERT_EXT EXT4_GET_BLOCKS_METADATA_NOFAIL) EXT4_GET_BLOCKS_PRE_IO) with false.
  change (has_flag (Z.lor EXT4_GET_BLOCKS_IO_CONVERT_EXT EXT4_GET_BLOCKS_METADATA_NOFAIL) EXT4_GET_BLOCKS_CONVERT) with true.
  do 2 wp_step. eapply wp_endio_flat; rewrite ?Hsl; [done|done|by split|done..|].
  intros p2 y2 t2 c2 Hfp2 Hf2 Hoff2 Hmap2. cbn [Z.ltb Z.compare]. do 2 wp_step.
  unfold unwritten_map_out, unwritten_out1. do 2 wp_step. cbn [Z.eqb negb fst snd]. do 2 wp_step.
  eapply wp_free_flat; [exact Hfp2|]. wp_step. exists t2; eexists. cbn [add_m_flags set_m_pblk set_m_len m_len m_lblk m_flags m_pblk].
  assert (Hmin : (if m_len m <? ext4_ext_get_actual_len e - (m_lblk m - ee_block e) then m_len m
    else ext4_ext_get_actual_len e - (m_lblk m - ee_block e)) = ret) by (unfold ret, ext_end; case_cmp; lia).
  split_and!; [reflexivity| |done|done|].
  - unfold set_m_len, set_m_pblk, add_m_flags. cbn [m_len m_lblk m_flags m_pblk]. by rewrite Hmin, Z.add_comm.
  - intros b. rewrite Hmap2. unfold ext_end. by replace (m_lblk m + ret) with
      (Z.min (m_lblk m + m_len m) (ee_block e + ext4_ext_get_actual_len e)) by (unfold ret; lia).
Qed.
End Convert.
