(* ===== verification/ExtentWrite.v ===== *)
(** * Writing to unwritten extents

    [ext4_ext_map_blocks] for a write into an unwritten extent: the blocks move to a written
    neighbour, or the extent is split, after the blocks around the write were zeroed when
    there are few of them.  For trees whose extents are in the inode. *)

From stdpp Require Import prelude list gmap strings.
From Stdlib Require Import ZArith Lia.
From S2P Require Import Prelude Kernel ExtentNode ExtentTree ExtentTreeSpec Layout Fs Namei EvfsExtent ExtentRemove.
From S2P Require Import ExtentRemoveSpec ExtentMap ExtentMapSpec ExtentMapFlat ExtentConvert.

Local Open Scope Z_scope.

(** ** Blocks that move to a neighbour *)

Section Transfer.
Context `{ExtFmtOk}.

Lemma write_piece l1 e l2 :
  leaf_ok 0 (l1 ++ e :: l2) ->
  let l := l1 ++ ext4_ext_mark_initialized e :: l2 in
  leaf_ok 0 l /\ forall b, mapping l b = written (mapping (l1 ++ e :: l2)) (ee_block e) (ext_end e) b.
Proof.
  intros Hok l. assert (He : ext_ok e) by (apply (leaf_ok_elem _ _ e Hok); set_solver).
  destruct (mark_initialized_range e He) as [(Hb & Hend & Ho) Hph].
  assert (Hok' : leaf_ok 0 l) by (by eapply leaf_ok_replace). split; [done|]. intros b. unfold l, written.
  rewrite !(mapping_insert 0) by done. fold (covers e b). unfold covers at 1. rewrite Hb, Hend. fold (covers e b).
  destruct (covers e b); [|done]. by rewrite Hph.
Qed.

(** The head of an unwritten extent becomes the tail of the written one before it. *)
Lemma write_left l1 a ex l2 s :
  leaf_ok 0 (l1 ++ a :: ex :: l2) -> ee_block ex < s < ext_end ex -> fits48 ex ->
  ext4_can_extents_be_merged a (ext4_ext_mark_initialized (left_half ex s)) = true ->
  let l := l1 ++ merged a (ext4_ext_mark_initialized (left_half ex s)) :: right_half ex s :: l2 in
  leaf_ok 0 l /\ forall b, mapping l b = written (mapping (l1 ++ a :: ex :: l2)) (ee_block ex) s b.
Proof.
  intros Hok Hs Hp Hm l. assert (Ha : l1 ++ a :: ex :: l2 = (l1 ++ [a]) ++ ex :: l2) by by rewrite <- app_assoc.
  rewrite Ha in Hok. assert (He : ext_ok ex) by (apply (leaf_ok_elem _ _ ex Hok); set_solver).
  destruct (halves_spec ex s He Hs Hp) as [(_ & Hb & Hend & _) _].
  destruct (leaf_ok_halves _ _ _ _ _ Hok Hs Hp) as [Hok1 Hm1]. destruct (write_piece _ _ _ Hok1) as [Hok2 Hm2].
  rewrite Hb, Hend in Hm2. rewrite <- app_assoc in Hok2. destruct (merge_pair _ _ _ _ Hok2 Hm) as [Hok3 Hm3].
  split; [exact Hok3|]. intros b. unfold l. rewrite Hm3. specialize (Hm2 b). rewrite <- app_assoc in Hm2 at 1.
  cbn [app] in *. rewrite Hm2. unfold written. by rewrite Hm1, Ha.
Qed.

(** The tail of an unwritten extent becomes the head of the written one after it. *)
Lemma write_right l1 ex a l2 s :
  leaf_ok 0 (l1 ++ ex :: a :: l2) -> ee_block ex < s < ext_end ex -> fits48 ex ->
  ext4_can_extents_be_merged (ext4_ext_mark_initialized (right_half ex s)) a = true ->
  let l := l1 ++ left_half ex s :: merged (ext4_ext_mark_initialized (right_half ex s)) a :: l2 in
  leaf_ok 0 l /\ forall b, mapping l b = written (mapping (l1 ++ ex :: a :: l2)) s (ext_end ex) b.
Proof.
  intros Hok Hs Hp Hm l. assert (He : ext_ok ex) by (apply (leaf_ok_elem _ _ ex Hok); set_solver).
  destruct (halves_spec ex s He Hs Hp) as [_ (_ & Hb & Hend & _)].
  destruct (leaf_ok_halves _ _ _ _ _ Hok Hs Hp) as [Hok1 Hm1].
  assert (Hc : forall y z : ext4_extent, l1 ++ y :: z :: a :: l2 = (l1 ++ [y]) ++ z :: a :: l2) by (intros; by rewrite <- app_assoc).
  rewrite Hc in Hok1. destruct (write_piece _ _ _ Hok1) as [Hok2 Hm2]. rewrite Hb, Hend in Hm2.
  destruct (merge_pair _ _ _ _ Hok2 Hm) as [Hok3 Hm3]. rewrite <- app_assoc in Hok3, Hm3. cbn [app] in Hok3, Hm3.
  split; [exact Hok3|]. intros b. unfold l. rewrite Hm3, Hm2. unfold written. by rewrite <- Hc, Hm1.
Qed.

(** Two neighbouring slots change. *)
Lemma set_two_entries nd x a b :
  node_wf nd -> 0 <= x -> x + 1 < eh_entries nd ->
  let nd' := set_slot x a (set_slot (x + 1) b nd) in
  entries nd' = take (Z.to_nat x) (entries nd) ++ a :: b :: drop (S (S (Z.to_nat x))) (entries nd) /\ node_wf nd'.
Proof.
  intros Hwf Hx Hx1 nd'. destruct (set_slot_entries nd (x + 1) b Hwf ltac:(lia)) as [E1 W1].
  destruct (set_slot_entries (set_slot (x + 1) b nd) x a W1) as [E2 W2]; [cbn; lia|]. split; [|exact W2].
  unfold nd'. rewrite E2, E1. pose proof (length_entries _ Hwf) as Hlen.
  replace (Z.to_nat (x + 1)) with (S (Z.to_nat x)) by lia.
  rewrite take_app_le by (rewrite length_take; lia). rewrite take_take, Nat.min_l by lia.
  rewrite drop_app_ge by (rewrite length_take; lia). rewrite length_take.
  replace (S (Z.to_nat x) - S (Z.to_nat x) `min` length (entries nd))%nat with 0%nat by lia. done.
Qed.

Lemma set_slot_comm nd x y a b : 0 <= x -> 0 <= y -> x <> y -> set_slot x a (set_slot y b nd) = set_slot y b (set_slot x a nd).
Proof. intros Hx Hy Hne. unfold set_slot, set_ext. cbn. f_equal. apply list_insert_insert_ne. lia. Qed.

Lemma two_slots nd x :
  node_wf nd -> 0 <= x -> x + 1 < eh_entries nd ->
  entries nd = take (Z.to_nat x) (entries nd) ++ slot nd x :: slot nd (x + 1) :: drop (S (S (Z.to_nat x))) (entries nd).
Proof.
  intros Hwf Hx Hx1. rewrite (entries_split nd x) at 1 by (done || lia). do 2 f_equal.
  replace (S (Z.to_nat x)) with (Z.to_nat (x + 1)) by lia. apply drop_slot; [done|lia].
Qed.

(** A leaf with the blocks of a range written. *)
Definition leaf_written (nd : node) (s e : Z) (nd' : node) : Prop :=
  node_wf nd' /\ leaf_ok 0 (entries nd') /\ eh_max nd' = eh_max nd /\ eh_depth nd' = eh_depth nd /\
  forall b, mapping (entries nd') b = written (mapping (entries nd)) s e b.

(** The piece that moves. *)
Lemma moved_piece h n :
  ext_ok h -> ext4_ext_get_actual_len h = n ->
  let h' := ext4_ext_mark_initialized h in
  ext4_ext_is_unwritten h' = false /\ ext4_ext_get_actual_len h' = n /\ ee_block h' = ee_block h /\
  ext4_ext_pblock h' = ext4_ext_pblock h.
Proof.
  intros (_ & Hn & _) <- h'. destruct (fmt_mark_initialized (ee_len h) Hn) as [Hu Hl]. by split_and!.
Qed.

Lemma transfer_left_written nd x n nd' :
  let ex := slot nd x in
  node_wf nd -> leaf_ok 0 (entries nd) -> 0 < x < eh_entries nd -> ext4_ext_is_unwritten ex = true -> fits48 ex ->
  0 < n < ext4_ext_get_actual_len ex -> transfer_left nd x n = Some nd' ->
  leaf_written nd (ee_block ex) (ee_block ex + n) nd'.
Proof.
  intros ex Hwf Hok Hx Hu Hp Hn Ht. unfold transfer_left in Ht. fold ex in Ht.
  set (a := slot nd (x - 1)) in *. destruct (slot_ok nd 0 x Hwf Hok ltac:(lia)) as [He _]. fold ex in He.
  destruct (slot_ok nd 0 (x - 1) Hwf Hok ltac:(lia)) as [(Hab & Han & Hae) _]. fold a in Hab, Han, Hae.
  pose proof He as (Heb & Hen & Hee). pose proof fmt_limits as [Hlim1 Hlim2].
  pose proof (fmt_pblock_range (ee_start ex)) as Hpr. pose proof (fmt_pblock_range (ee_start a)) as Hpa.
  fold (ext4_ext_pblock ex) in Hpr. fold (ext4_ext_pblock a) in Hpa.
  assert (Hlen : forall y, ext4_ext_get_actual_len y <= EXT_INIT_MAX_LEN).
  { intros y. destruct (fmt_range (ee_len y)) as [_ Hr]. unfold ext4_ext_get_actual_len. destruct (len_is_unwritten _); lia. }
  pose proof (Hlen ex). pose proof (Hlen a). unfold fits48, ext_end in *.
  rewrite (u32_small (ee_block a + _)), (u64_small (ext4_ext_pblock a + _)), (u64_small (EXT_INIT_MAX_LEN - _)) in Ht by lia.
  destruct (_ && _ && _ && _) eqn:Hc; [|done]. injection Ht as <-.
  apply andb_true_iff in Hc as [[[Hau%negb_true_iff Hab1%Z.eqb_eq]%andb_true_iff Hap%Z.eqb_eq]%andb_true_iff Hal%Z.ltb_lt].
  assert (Hs : ee_block ex < ee_block ex + n < ext_end ex) by (unfold ext_end; lia).
  destruct (halves_spec ex (ee_block ex + n) He Hs Hp) as [(Ho & Hb & Hend & Hph) _].
  assert (Hl : ext4_ext_get_actual_len (left_half ex (ee_block ex + n)) = n) by (unfold ext_end in Hend; lia).
  destruct (moved_piece _ n Ho Hl) as (Hhu & Hhl & Hhb & Hhp). specialize (Hph (ee_block ex)). unfold phys in Hph. rewrite Hb in Hph.
  injection Hph as Hph _. set (h := ext4_ext_mark_initialized (left_half ex (ee_block ex + n))) in *.
  assert (Hm : ext4_can_extents_be_merged a h = true).
  { unfold ext4_can_extents_be_merged. rewrite Hau, Hhu, Hhl, Hhb, Hhp, Hb, (u32_small (ee_block a + _)) by lia.
    rewrite (proj2 (Z.eqb_eq (ee_block a + _) _)) by lia. rewrite (proj2 (Z.ltb_ge EXT_INIT_MAX_LEN _)) by lia. cbn. lia. }
  assert (Ha' : set_ee_len a (u32 (ext4_ext_get_actual_len a + n)) = merged a h).
  { unfold merged. by rewrite Hau, Hhl, u32_small by lia. }
  assert (Hr' : ext4_ext_mark_unwritten (set_ee_len (ext4_ext_store_pblock (Ext (u32 (ee_block ex + n)) 0 (ee_start ex))
      (u64 (ext4_ext_pblock ex + n))) (u32 (ext4_ext_get_actual_len ex - n))) = right_half ex (ee_block ex + n)).
  { unfold right_half, set_ee_len, ext4_ext_store_pblock. cbn [ee_block ee_start].
    rewrite Hu, !u32_small, u64_small by lia. by replace (ee_block ex + n - ee_block ex) with n by lia. }
  rewrite Ha', Hr'. replace (set_slot x) with (set_slot (x - 1 + 1)) by (f_equal; lia).
  destruct (set_two_entries nd (x - 1) (merged a h) (right_half ex (ee_block ex + n)) Hwf) as [Hent Hwf']; [lia..|].
  pose proof (two_slots nd (x - 1) Hwf ltac:(lia) ltac:(lia)) as Hsp. replace (x - 1 + 1) with x in Hsp, Hent, Hwf' |- * by lia.
  fold ex a in Hsp. rewrite Hsp in Hok. destruct (write_left _ _ _ _ _ Hok Hs Hp Hm) as [Hok' Hmap].
  split_and!; [done|by rewrite Hent|done|done|]. intros b. rewrite Hent. specialize (Hmap b). by rewrite <- Hsp in Hmap.
Qed.

Lemma transfer_right_written nd x n nd' :
  let ex := slot nd x in
  node_wf nd -> leaf_ok 0 (entries nd) -> 0 <= x -> x + 1 < eh_entries nd -> ext4_ext_is_unwritten ex = true -> fits48 ex ->
  0 < n < ext4_ext_get_actual_len ex -> transfer_right nd x n = Some nd' ->
  leaf_written nd (ext_end ex - n) (ext_end ex) nd'.
Proof.
  intros ex Hwf Hok Hx Hx1 Hu Hp Hn Ht. unfold transfer_right in Ht. fold ex in Ht.
  set (a := slot nd (x + 1)) in *. destruct (slot_ok nd 0 x Hwf Hok ltac:(lia)) as [He _]. fold ex in He.
  destruct (slot_ok nd 0 (x + 1) Hwf Hok ltac:(lia)) as [(Hab & Han & Hae) _]. fold a in Hab, Han, Hae.
  pose proof He as (Heb & Hen & Hee). pose proof fmt_limits as [Hlim1 Hlim2].
  pose proof (fmt_pblock_range (ee_start ex)) as Hpr. pose proof (fmt_pblock_range (ee_start a)) as Hpa.
  fold (ext4_ext_pblock ex) in Hpr. fold (ext4_ext_pblock a) in Hpa.
  assert (Hlen : forall y, ext4_ext_get_actual_len y <= EXT_INIT_MAX_LEN).
  { intros y. destruct (fmt_range (ee_len y)) as [_ Hr]. unfold ext4_ext_get_actual_len. destruct (len_is_unwritten _); lia. }
  pose proof (Hlen ex). pose proof (Hlen a). set (s := ext_end ex - n). unfold fits48, ext_end in *.
  rewrite (u32_small (ee_block ex + _)), (u64_small (ext4_ext_pblock ex + _)), (u64_small (EXT_INIT_MAX_LEN - _)) in Ht by lia.
  destruct (_ && _ && _ && _) eqn:Hc; [|done]. injection Ht as <-.
  apply andb_true_iff in Hc as [[[Hau%negb_true_iff Hab1%Z.eqb_eq]%andb_true_iff Hap%Z.eqb_eq]%andb_true_iff Hal%Z.ltb_lt].
  assert (Hs : ee_block ex < s < ext_end ex) by (unfold s, ext_end; lia).
  destruct (halves_spec ex s He Hs Hp) as [_ (Ho & Hb & Hend & Hph & _)].
  assert (Hl : ext4_ext_get_actual_len (right_half ex s) = n) by (unfold ext_end, s in *; lia).
  destruct (moved_piece _ n Ho Hl) as (Hhu & Hhl & Hhb & Hhp). set (h := ext4_ext_mark_initialized (right_half ex s)) in *.
  assert (Hm : ext4_can_extents_be_merged h a = true).
  { unfold ext4_can_extents_be_merged. rewrite Hau, Hhu, Hhl, Hhb, Hhp, Hb, Hph, (u32_small (s + _)) by (unfold s, ext_end in *; lia).
    rewrite (proj2 (Z.eqb_eq (s + _) _)) by (unfold s, ext_end in *; lia).
    rewrite (proj2 (Z.ltb_ge EXT_INIT_MAX_LEN _)) by lia. cbn. unfold s, ext_end in *. lia. }
  assert (Ha' : set_ee_len (ext4_ext_store_pblock (Ext (u32 (ee_block a - n)) 0 (ee_start a)) (u64 (ext4_ext_pblock a - n)))
    (u32 (ext4_ext_get_actual_len a + n)) = merged h a).
  { unfold merged. rewrite Hhu, Hhl, !u32_small, u64_small by lia.
    unfold h, right_half, set_ee_len, ext4_ext_mark_initialized, ext4_ext_store_pblock. rewrite Hu. cbn [ee_block ee_start ext4_ext_mark_unwritten].
    f_equal; [unfold s, ext_end in *; lia|f_equal; lia|f_equal; unfold s, ext_end in *; lia]. }
  assert (Hl' : ext4_ext_mark_unwritten (set_ee_len ex (u32 (ext4_ext_get_actual_len ex - n))) = left_half ex s).
  { unfold left_half. rewrite Hu, u32_small by lia. do 2 f_equal. unfold s, ext_end. lia. }
  rewrite Ha', Hl'. rewrite set_slot_comm by lia.
  destruct (set_two_entries nd x (left_half ex s) (merged h a) Hwf) as [Hent Hwf']; [lia..|].
  pose proof (two_slots nd x Hwf ltac:(lia) ltac:(lia)) as Hsp. fold ex a in Hsp. rewrite Hsp in Hok.
  destruct (write_right _ _ _ _ _ Hok Hs Hp Hm) as [Hok' Hmap].
  split_and!; [done|by rewrite Hent|done|done|]. intros b. rewrite Hent. specialize (Hmap b). by rewrite <- Hsp in Hmap.
Qed.

(** Either way exactly the request is written. *)
Lemma transfer_written nd x m nd' y :
  let ex := slot nd x in
  node_wf nd -> leaf_ok 0 (entries nd) -> 0 <= x < eh_entries nd -> ext4_ext_is_unwritten ex = true -> fits48 ex ->
  0 < m_len m -> 0 <= m_lblk m -> m_lblk m + m_len m < 2 ^ 32 -> transfer nd x m = Some (nd', y) ->
  leaf_written nd (m_lblk m) (m_lblk m + m_len m) nd' /\ covers ex (m_lblk m) = true /\
  m_lblk m + m_len m <= ext_end ex.
Proof.
  intros ex Hwf Hok Hx Hu Hp Hn Hb Hend Ht. unfold transfer in Ht. fold ex in Ht.
  destruct (slot_ok nd 0 x Hwf Hok Hx) as [(Heb & Hen & Hee) _]. fold ex in Heb, Hen, Hee.
  rewrite (u32_small (m_lblk m + _)), (u32_small (ee_block ex + _)) in Ht by (unfold ext_end in *; lia).
  destruct (_ && _ && _) eqn:Hc in Ht; [|destruct (_ && _ && _) eqn:Hc2 in Ht; [|done]].
  - apply andb_true_iff in Hc as [[Hlb%Z.eqb_eq Hl%Z.ltb_lt]%andb_true_iff Hx0%Z.ltb_lt].
    destruct (transfer_left nd x (m_len m)) as [n1|] eqn:Ht1; [|done]. injection Ht as <- <-.
    rewrite Hlb. split; [|rewrite covers_spec; unfold ext_end; fold ex; lia]. apply transfer_left_written; try done; fold ex; lia.
  - apply andb_true_iff in Hc2 as [[Hlb%Z.eqb_eq Hl%Z.ltb_lt]%andb_true_iff Hx0%Z.ltb_lt]. unfold EXT_LAST in Hx0.
    destruct (transfer_right nd x (m_len m)) as [n1|] eqn:Ht1; [|done]. injection Ht as <- <-.
    pose proof (transfer_right_written nd x (m_len m) n1 Hwf Hok ltac:(lia) ltac:(lia) Hu Hp ltac:(fold ex; lia) Ht1) as Hw.
    fold ex in Hw. unfold ext_end in *. replace (ee_block ex + ext4_ext_get_actual_len ex - m_len m) with (m_lblk m) in Hw by lia.
    rewrite <- Hlb in Hw. split; [exact Hw|]. rewrite covers_spec. unfold ext_end. lia.
Qed.
End Transfer.

(** ** The split of a write *)

Section Write.
Context `{ExtFmtOk} `{Env} `{TreeEnv} `{RemoveEnv} `{MapEnv}.
Hypothesis Hj : journal_ok.

(** A leaf written in one extent and merged there. *)
Lemma write_slot nd x :
  node_wf nd -> leaf_ok 0 (entries nd) -> 0 <= x < eh_entries nd ->
  leaf_written nd (ee_block (slot nd x)) (ext_end (slot nd x))
    (try_to_merge_leaf (set_slot x (ext4_ext_mark_initialized (slot nd x)) nd) x).
Proof using H0.
  intros Hwf Hok Hx. destruct (slot_ok nd 0 x Hwf Hok Hx) as [He _].
  destruct (mark_initialized_range _ He) as [Hsr Hph].
  destruct (set_slot_same_range nd x _ Hwf Hok Hx Hsr) as (Hwf1 & Hok1 & _ & Hmap1).
  destruct (try_to_merge_leaf_same _ x Hwf1 Hx) as (Hwf2 & Hmax2 & Hok2 & Hmap2).
  split_and!; [done|by apply Hok2|by rewrite Hmax2|by rewrite try_to_merge_leaf_depth|].
  intros b. rewrite (Hmap2 0), Hmap1 by done. unfold written. fold (covers (slot nd x) b).
  destruct (covers (slot nd x) b) eqn:Hc; [|done].
  rewrite (mapping_covered 0 _ (slot nd x) b Hok); [by rewrite Hph| |done].
  eapply list_elem_of_lookup_2. by apply entries_slot.
Qed.

(** A tree with the blocks of a range written. *)
Definition tree_written (t : xtree) (s e : Z) (t' : xtree) : Prop :=
  flat t' /\ same_off InRoot t t' /\
  forall b, mapping (entries (x_root t')) b = written (mapping (entries (x_root t))) s e b.

Lemma tree_written_root t s e nd t' :
  flat t -> leaf_written (x_root t) s e nd -> new_root t nd t' -> tree_written t s e t'.
Proof using.
  intros [Hd Hwf Hok] (Hwf' & Hok' & _ & Hd' & Hmap) [Hr Ho]. split_and!; [|done|intros b; by rewrite Hr, Hmap].
  split; rewrite ?Hr; try done. unfold ext_depth in *. rewrite Hr. congruence.
Qed.

(** The tree with the first half of an extent only. *)
Lemma trimmed_leaf nd x s :
  node_wf nd -> leaf_ok 0 (entries nd) -> 0 <= x < eh_entries nd -> ee_block (slot nd x) < s < ext_end (slot nd x) ->
  let nd1 := set_slot x (left_half (slot nd x) s) nd in
  node_wf nd1 /\ leaf_ok 0 (entries nd1) /\ ext4_ext_binsearch nd1 s = Some x /\
  forall b, mapping (entries nd1) b = cut_map (mapping (entries nd)) s (ext_end (slot nd x) - 1) b.
Proof using H0.
  intros Hwf Hok Hx Hs nd1. destruct (set_slot_entries nd x (left_half (slot nd x) s) Hwf Hx) as [Hent Hwf1].
  fold nd1 in Hent, Hwf1. pose proof (entries_split nd x Hwf Hx) as Hsp. pose proof Hok as Hok0. rewrite Hsp in Hok0.
  destruct (kept_part_map _ _ _ _ s Hok0 ltac:(lia)) as [Hok1 Hmap1]. unfold kept_part in Hok1, Hmap1.
  rewrite (proj2 (Z.eqb_neq s _)) in Hok1, Hmap1 by lia. cbn [app] in Hok1, Hmap1. rewrite <- Hent in Hok1, Hmap1.
  rewrite <- Hsp in Hmap1. split_and!; [done|done| |done].
  destruct (binsearch_position nd1 0 s Hwf1 Hok1) as (j & Hb & Hjr & Hlo & Hhi); [cbn; lia|]. rewrite Hb. f_equal.
  cbn beta in Hlo, Hhi. assert (Hn1 : eh_entries nd1 = eh_entries nd) by done. rewrite Hn1 in *.
  pose proof Hwf as (Hwa & Hwb & Hwc).
  assert (Hblk : forall k, 0 <= k < eh_entries nd -> ee_block (slot nd1 k) = ee_block (slot nd k)).
  { intros k Hk. unfold nd1, slot, set_slot, set_ext. cbn [n_ext]. destruct (Z.eq_dec k x) as [->|Hne].
    - rewrite list_lookup_total_insert_eq by lia. unfold left_half. by case_match.
    - by rewrite list_lookup_total_insert_ne by lia. }
  destruct (Z.lt_trichotomy j x) as [Hjx|[->|Hjx]]; [|done|].
  - specialize (Hhi x ltac:(lia)). rewrite Hblk in Hhi by lia. lia.
  - specialize (Hlo j ltac:(lia)). rewrite Hblk in Hlo by lia.
    pose proof (slot_sorted nd 0 x j Hwf Hok ltac:(lia) Hjx ltac:(lia)). lia.
Qed.

(** The flags of the second split of a write: the second half is written. *)
Definition write_flags (sf : Z) : Prop :=
  (Z.land sf (Z.lor EXT4_EXT_DATA_VALID1 EXT4_EXT_DATA_VALID2) =? Z.lor EXT4_EXT_DATA_VALID1 EXT4_EXT_DATA_VALID2) = false /\
  has_flag sf EXT4_EXT_MARK_UNWRIT1 = true /\ has_flag sf EXT4_EXT_MARK_UNWRIT2 = false.

Lemma wp_split_written p x s sf flags t held calls (Q : Z * ppath -> world xtree -> Prop) :
  let ex := slot (x_root t) x in
  flat t -> flat_path p (Some x) -> write_flags sf -> has_flag flags EXT4_GET_BLOCKS_PRE_IO = false ->
  0 <= x < eh_entries (x_root t) -> eh_entries (x_root t) < eh_max (x_root t) ->
  ee_block ex <= s < ext_end ex -> ext4_ext_is_unwritten ex = true -> fits48 ex ->
  (forall t' p' y calls', flat_path p' y -> tree_written t s (ext_end ex) t' -> quiet calls calls' ->
     Q (0, PSame p') (World t' held calls')) ->
  wp (ext4_split_extent_at p s sf flags) Q (World t held calls).
Proof.
  intros ex Hf Hfp (Hf1 & Hf2 & Hf3) Hpre Hx Hroom Hs Hu Hp HQ. pose proof Hf as [Hd Hwf Hok].
  pose proof Hfp as (Hl & Hpd & Hph & Hb & Hpx). destruct (slot_ok (x_root t) 0 x Hwf Hok Hx) as [He _]. fold ex in He.
  pose proof He as (Heb & Hen & Hee). pose proof (fmt_pblock_range (ee_start ex)) as Hpr. fold (ext4_ext_pblock ex) in Hpr.
  unfold ext4_split_extent_at. rewrite Hf1. do 2 wp_step. rewrite Hd, Hpx, Hph. cbn [node_at]. fold ex.
  fold (ext_end ex). rewrite (u32_small (ext_end ex)) by (unfold ext_end in *; lia).
  rewrite (proj2 (Z.ltb_ge s _)), (proj2 (Z.leb_gt _ s)), Hu by lia. cbn [orb negb andb].
  wp_step. apply wp_get_access; [done|]. cbn [w_st w_held w_calls]. intros t1 c1 Ht1 Hq1. cbn [Z.eqb negb].
  pose proof (Ht1 InRoot : x_root t1 = x_root t) as Hr1.
  destruct (Z.eqb_spec s (ee_block ex)) as [->|Hne].
  - rewrite Hf3. wp_step. unfold mod_leaf. rewrite Hph. do 2 wp_step. cbn [node_at]. rewrite Hr1. fold ex. rewrite Hpre.
    eapply wp_merge_flat; [exact Hfp|exact Hd|]. cbn [set_node x_root]. rewrite Hpd. wp_step. apply wp_dirty; [done|].
    cbn [w_st w_held w_calls]. intros t2 c2 Ht2 Hq2. wp_step. eapply HQ; [exact Hfp| |by etrans].
    eapply tree_written_root; [done|exact (write_slot (x_root t) x Hwf Hok Hx)|].
    split; [exact (Ht2 InRoot)|]. intros l Hl'. rewrite (Ht2 l). destruct l as [|b]; [done|exact (Ht1 (InBlk b))].
  - rewrite Hf2, Hf3. wp_step. unfold mod_leaf at 1. rewrite Hph. wp_step. cbn [node_at]. rewrite Hr1. fold ex.
    assert (Hlh : ext4_ext_mark_unwritten (set_ee_len ex (s - ee_block ex)) = left_half ex s) by (unfold left_half; by rewrite Hu).
    rewrite Hlh. wp_step. apply wp_dirty; [done|]. cbn [w_st w_held w_calls]. intros t2 c2 Ht2 Hq2. cbn [Z.eqb negb].
    destruct (trimmed_leaf (x_root t) x s Hwf Hok Hx ltac:(fold ex; lia)) as (Hwf2 & Hok2 & Hbs & Hmap2). fold ex in Hwf2, Hok2, Hbs, Hmap2.
    assert (Hr2 : x_root t2 = set_slot x (left_half ex s) (x_root t)) by exact (Ht2 InRoot). rewrite <- Hr2 in Hwf2, Hok2, Hbs, Hmap2.
    assert (Hlen : 0 < ext4_ext_get_actual_len ex - (s - ee_block ex) <= EXT_INIT_MAX_LEN).
    { destruct (fmt_range (ee_len ex)) as [_ Hr], fmt_limits as [? ?]. unfold ext_end, ext4_ext_get_actual_len in *.
      destruct (len_is_unwritten (ee_len ex)); lia. }
    rewrite (u32_small (s - _)) by (unfold ext_end in *; lia). rewrite u64_small by (unfold fits48, ext_end in *; lia).
    set (e2 := Ext s _ _). destruct (new_extent_ok s (ext4_ext_get_actual_len ex - (s - ee_block ex))
      (s - ee_block ex + ext4_ext_pblock ex) 0) as (He2ok & He2st & _ & He2 & Hph2);
      [lia|change (max_len 0) with EXT_INIT_MAX_LEN; lia|unfold fits48, ext_end in *; lia..|].
    cbn beta zeta in *. change (has_flag 0 EXT4_GET_BLOCKS_UNWRIT_EXT) with false in *. cbn iota in *.
    change (ext4_ext_store_pblock _ _) with e2 in He2ok, He2st, He2, Hph2.
    replace (s + _) with (ext_end ex) in He2 by (unfold ext_end; lia).
    assert (Hcut : forall b, s <= b < ext_end ex -> mapping (entries (x_root t2)) b = None).
    { intros b Hbr. rewrite Hmap2. unfold cut_map. by rewrite (proj2 (Z.leb_le _ _)), (proj2 (Z.leb_le _ _)) by lia. }
    assert (Hf2' : flat t2) by (split; [unfold ext_depth in *; by rewrite Hr2|done|done]).
    wp_step. apply wp_insert_flat; try done.
    + change (ee_block e2) with s. by rewrite Hbs.
    + intros b Hbr. rewrite He2 in Hbr. by apply Hcut.
    + by rewrite Hr2.
    + intros p' y t3 c3 Hfp3 Hg Hq3. change (negb (0 =? - ENOSPC) && negb (0 =? - EDQUOT) && negb (0 =? - ENOMEM)) with true. cbn iota. wp_step. eapply HQ; [exact Hfp3| |etrans; [exact Hq1|by etrans]].
      pose proof (grown_flat _ _ _ Hf2' Hg) as Hf3'. destruct Hg as [(_ & _ & _ & _ & Hmap3) Ho3].
      split_and!; [done| |].
      * intros l Hl'. rewrite (Ho3 l Hl'), (Ht2 l). destruct l as [|b]; [done|exact (Ht1 (InBlk b))].
      * intros b. rewrite Hmap3. unfold add_map, covers. rewrite He2, Hmap2. cbn [e2 ee_block]. unfold written, cut_map.
        destruct (Z.leb_spec s b) as [Hsb|]; [|done]. destruct (Z.ltb_spec b (ext_end ex)) as [Hbe|].
        -- rewrite (mapping_covered 0 _ ex b Hok); [|eapply list_elem_of_lookup_2; by apply entries_slot|apply covers_spec; lia].
           rewrite Hph2. cbn. do 2 f_equal. lia.
        -- rewrite (proj2 (Z.leb_gt _ _)) by lia. done.
Qed.

(** *** Zeroing around a write *)

(** The history has a zeroing of physical block [p], the block [b] of the file, that
    succeeded. *)
Definition zeroed (calls : list call) (b p : Z) : Prop := exists s q n h,
  (("ext4_issue_zeroout"%string, [s; q; n]) :: h) `suffix_of` calls /\
  env_int h "ext4_issue_zeroout"%string [s; q; n] = 0 /\ s <= b < s + n /\ p = q + (b - s).

Lemma zeroed_later calls calls' b p : zeroed calls b p -> quiet calls calls' -> zeroed calls' b p.
Proof using. intros (s & q & n & h & Hs & Hrest) (_ & _ & Hs'). exists s, q, n, h. split; [by etrans|done]. Qed.

Lemma wp_zeroout s n q p0 t held calls (Q : Z -> world xtree -> Prop) :
  0 < n <= EXT_INIT_MAX_LEN -> 0 <= q < 2 ^ 48 ->
  (forall err calls', quiet calls calls' -> (err = 0 -> forall b, s <= b < s + n -> zeroed calls' b (q + (b - s))) ->
     Q err (World t held calls')) ->
  wp (ext4_ext_zeroout (ext4_ext_store_pblock (Ext s (u16 n) p0) q)) Q (World t held calls).
Proof using H0.
  intros Hn Hq HQ. unfold ext4_ext_zeroout, ext4_ext_store_pblock. cbn [ee_block ee_len].
  unfold ext4_ext_pblock, ext4_ext_get_actual_len. cbn [ee_start ee_len]. rewrite actual_len_init, fmt_pblock by done.
  wp_step. apply HQ; [by apply quiet_cons|]. intros -> b Hb. by exists s, q, n, calls.
Qed.

(** What [zero_around] answers: a range around the write inside the extent; its other blocks
    were zeroed. *)
Definition zero_answer (ex : ext4_extent) (m : ext4_map_blocks) (lblk len allocated : Z) (calls : list call) : Prop :=
  let n := Z.min (m_len m) (ext_end ex - m_lblk m) in
  ee_block ex <= lblk <= m_lblk m /\ 0 < len /\ lblk + len < 2 ^ 32 /\ m_lblk m + n <= lblk + len /\
  0 < allocated < 2 ^ 32 /\ Z.min (m_len m) allocated = n /\
  forall b, lblk <= b < Z.min (lblk + len) (ext_end ex) -> b < m_lblk m \/ m_lblk m + n <= b ->
    zeroed calls b (ext4_ext_pblock ex + (b - ee_block ex)).

Lemma wp_zero_around ex m max t held calls (Q : Z * Z * Z * ext4_extent * ext4_extent -> world xtree -> Prop) :
  ext_ok ex -> fits48 ex -> covers ex (m_lblk m) = true -> 0 < m_len m -> m_lblk m + m_len m < 2 ^ 32 ->
  (forall lblk len allocated z1 z2 calls', quiet calls calls' -> zero_answer ex m lblk len allocated calls' ->
     Q (lblk, len, allocated, z1, z2) (World t held calls')) ->
  wp (zero_around ex m (ext_end ex - m_lblk m) max) Q (World t held calls).
Proof using H0.
  intros (Hb & Hn & He) Hp Hc%covers_spec Hlen Hend HQ. unfold zero_around, fits48, ext_end in *.
  pose proof (fmt_pblock_range (ee_start ex)) as Hpr. fold (ext4_ext_pblock ex) in Hpr.
  assert (Hmx : ext4_ext_get_actual_len ex <= EXT_INIT_MAX_LEN).
  { destruct (fmt_range (ee_len ex)) as [_ Hr], fmt_limits as [? ?]. unfold ext4_ext_get_actual_len in *.
    destruct (len_is_unwritten (ee_len ex)); lia. }
  set (rest := ee_block ex + ext4_ext_get_actual_len ex - m_lblk m) in *.
  destruct (negb (max =? 0) && (m_len m <? rest)) eqn:Hz.
  2:{ wp_step. apply HQ; [done|]. unfold zero_answer, ext_end. fold rest. split_and!; lia. }
  apply andb_true_iff in Hz as [_ Hz%Z.ltb_lt]. rewrite (u32_small (m_lblk m + _)) by lia.
  rewrite (u64_small (ext4_ext_pblock ex + m_lblk m)), (u64_small (_ + m_lblk m + _)), (u64_small (_ - ee_block ex)) by lia.
  wp_step. apply (wp_mono _ (fun r w => exists err len1 z1 c, r = (err, len1, z1) /\ w = World t held c /\ quiet calls c /\
    (len1 = m_len m \/ len1 = rest /\ forall b, m_lblk m + m_len m <= b < m_lblk m + rest ->
       zeroed c b (ext4_ext_pblock ex + (b - ee_block ex))))).
  { destruct (rest <=? max).
    - wp_step. apply wp_zeroout; [lia|lia|]. intros err c Hq Hzd. wp_step. exists err. do 3 eexists. split; [done|].
      split; [done|]. split; [done|]. destruct (Z.eqb_spec err 0) as [->|]; [right|by left]. split; [done|].
      intros b Hbr. specialize (Hzd eq_refl b ltac:(lia)).
      replace (ext4_ext_pblock ex + (b - ee_block ex)) with
        (ext4_ext_pblock ex + m_lblk m + m_len m - ee_block ex + (b - (m_lblk m + m_len m))) by lia. done.
    - wp_step. exists 0, (m_len m), (Ext 0 0 0), calls. split_and!; try done. by left. }
  intros r w (err & len1 & z1 & c1 & -> & -> & Hq1 & Hl1). assert (Hlr : m_len m <= len1 <= rest) by lia.
  assert (Hans : zero_answer ex m (m_lblk m) len1 rest c1).
  { unfold zero_answer, ext_end. fold rest. split_and!; try lia. intros b Hbr Hout.
    destruct Hl1 as [->|[-> Hzd]]; [lia|]. apply Hzd. lia. }
  destruct (err =? 0); cbn [negb]; [|wp_step; by apply HQ].
  rewrite (u32_small (m_lblk m - _)), (u32_small (m_lblk m - _ + len1)) by lia.
  destruct (_ <? max); [|wp_step; by apply HQ].
  wp_step. apply (wp_mono _ (fun r w => exists err z2 c, r = (err, z2) /\ w = World t held c /\ quiet c1 c /\
    (err = 0 -> forall b, ee_block ex <= b < m_lblk m -> zeroed c b (ext4_ext_pblock ex + (b - ee_block ex))))).
  { destruct (Z.eqb_spec (m_lblk m) (ee_block ex)) as [Heq|Hne]; cbn [negb].
    - wp_step. exists 0, (Ext 0 0 0), c1. split_and!; try done. intros _ b Hbr. lia.
    - wp_step. apply wp_zeroout; [lia|lia|]. intros err2 c Hq Hzd. wp_step. do 3 eexists. split; [done|]. split; [done|].
      split; [done|]. intros E b Hbr. apply Hzd; [done|lia]. }
  intros r w (err2 & z2 & c2 & -> & -> & Hq2 & Hz2). destruct (Z.eqb_spec err2 0) as [->|]; cbn [negb]; wp_step; apply HQ; try by etrans.
  - specialize (Hz2 eq_refl). rewrite u32_small by lia. unfold zero_answer, ext_end. fold rest. split_and!; try lia.
    intros b Hbr Hout. destruct (Z.lt_ge_cases b (m_lblk m)); [by apply Hz2; lia|].
    destruct Hl1 as [->|[-> Hzd]]; [lia|]. eapply zeroed_later; [apply Hzd; lia|done].
  - destruct Hans as (A1 & A2 & A3 & A4 & A5 & A6 & A7). unfold zero_answer. split_and!; try done; try lia.
    intros b Hbr Hout. eapply zeroed_later; [by apply A7|done].
Qed.

Lemma wp_convert_out al z1 z2 pp t held calls (Q : Z * ppath -> world xtree -> Prop) :
  (forall calls', quiet calls calls' -> Q (al, pp) (World t held calls')) ->
  wp (convert_out 0 al z1 z2 pp) Q (World t held calls).
Proof using.
  intros HQ. unfold convert_out, ext4_zeroout_es. cbn [Z.eqb negb]. repeat case_match; repeat wp_step; apply HQ; quiet_done.
Qed.

(** *** The conversion *)

(** What a write leaves: the range [s .. e) of the extent is written; the request is a part
    of it and the rest was zeroed. *)
Definition write_answer (ex : ext4_extent) (m : ext4_map_blocks) (s e : Z) (t t' : xtree) (calls : list call) : Prop :=
  let n := Z.min (m_len m) (ext_end ex - m_lblk m) in
  tree_written t s e t' /\ ee_block ex <= s <= m_lblk m /\ m_lblk m + n <= e <= ext_end ex /\
  forall b, s <= b < e -> b < m_lblk m \/ m_lblk m + n <= b -> zeroed calls b (ext4_ext_pblock ex + (b - ee_block ex)).

Lemma wp_convert_split p x m sf max flags t held calls (Q : Z * ppath -> world xtree -> Prop) :
  let ex := slot (x_root t) x in
  sf = EXT4_EXT_DATA_VALID2 \/ sf = Z.lor EXT4_EXT_DATA_VALID2 EXT4_EXT_MAY_ZEROOUT ->
  kcalloc_ok -> flat t -> good_path p (Some x) -> has_flag flags EXT4_GET_BLOCKS_PRE_IO = false ->
  0 <= x < eh_entries (x_root t) -> eh_entries (x_root t) + 1 < eh_max (x_root t) ->
  covers ex (m_lblk m) = true -> 0 < m_len m -> m_lblk m + m_len m < 2 ^ 32 ->
  ext4_ext_is_unwritten ex = true -> fits48 ex ->
  (forall r p' y t' c s e, 0 < r < 2 ^ 32 -> Z.min (m_len m) r = Z.min (m_len m) (ext_end ex - m_lblk m) ->
     flat_path p' y -> write_answer ex m s e t t' c -> Q (r, PSame p') (World t' held c)) ->
  wp (r <~ zero_around ex m (ext_end ex - m_lblk m) max;;
      let '(lblk, len, allocated, zero1, zero2) := r in
      r <~ ext4_split_extent p lblk len sf flags;;
      let '(err, pp) := r in convert_out (if 0 <? err then 0 else err) allocated zero1 zero2 pp)
    Q (World t held calls).
Proof.
  intros ex Hsf Hk Hf Hgp Hpre Hx Hroom Hc Hlen Hend Hu Hp HQ. pose proof Hf as [Hd Hwf Hok].
  destruct (slot_ok (x_root t) 0 x Hwf Hok Hx) as [He _]. fold ex in He. apply covers_spec in Hc as Hcs.
  wp_step. apply wp_zero_around; [done..|]. intros lblk len al z1 z2 c1 Hq1 (A1 & A2 & A3 & A4 & A5 & A6 & A7).
  wp_step. apply wp_split_extent_first with (x := x); fold ex; try done; try (by destruct Hsf as [-> | ->]).
  { apply covers_spec. lia. }
  intros r t1 p1 c2 x1 n1 Hr1 Hgp1 Hrs1 Hn1 Hx1 Hq2 e1 (He1b & He1e & He1u & He1f).
  pose proof Hrs1 as [Hf1 Ho1 Hnn Hmm Hmap1]. apply wp_split_written with (x := x1); fold e1; try done; try lia.
  { apply Hgp1. } { by destruct Hsf as [-> | ->]. }
  intros t2 p2 y2 c3 Hfp2 (Hf2 & Ho2 & Hmap2) Hq3. exists p2. split; [done|].
  rewrite (proj2 (Z.ltb_lt 0 r)) by done. apply wp_convert_out. intros c4 Hq4.
  apply (HQ al p2 y2 t2 c4 lblk (Z.min (lblk + len) (ext_end ex))); try done.
  split_and!; try lia.
  - split_and!; [done|intros l Hl'; by rewrite Ho2, Ho1|]. intros b. rewrite Hmap2, He1e. unfold written. by rewrite Hmap1.
  - intros b Hbr Hout. eapply zeroed_later; [apply A7; [lia|done]|]. etrans; [exact Hq2|by etrans].
Qed.

Lemma wp_convert_to_initialized p x m flags t held calls (Q : Z * ppath -> world xtree -> Prop) :
  let ex := slot (x_root t) x in
  kcalloc_ok -> flat t -> good_path p (Some x) -> has_flag flags EXT4_GET_BLOCKS_PRE_IO = false ->
  0 <= x < eh_entries (x_root t) -> eh_entries (x_root t) + 1 < eh_max (x_root t) ->
  covers ex (m_lblk m) = true -> 0 < m_len m -> m_lblk m + m_len m < 2 ^ 32 ->
  ext4_ext_is_unwritten ex = true -> fits48 ex ->
  (forall r p' y t' c s e, 0 < r < 2 ^ 32 -> Z.min (m_len m) r = Z.min (m_len m) (ext_end ex - m_lblk m) ->
     flat_path p' y -> write_answer ex m s e t t' c -> Q (r, PSame p') (World t' held c)) ->
  wp (ext4_ext_convert_to_initialized p m flags) Q (World t held calls).
Proof.
  intros ex Hk Hf Hgp Hpre Hx Hroom Hc Hlen Hend Hu Hp HQ. pose proof Hf as [Hd Hwf Hok].
  pose proof Hgp as [Hfp Hm]. pose proof Hfp as (Hl & Hpd & Hph & Hb & Hpx).
  destruct (slot_ok (x_root t) 0 x Hwf Hok Hx) as [He _]. fold ex in He. pose proof He as (Heb & Hen & Hee).
  apply covers_spec in Hc as Hcs. unfold ext4_ext_convert_to_initialized. do 2 wp_step. rewrite Hd, Hpx, Hph. cbn [node_at].
  fold ex. rewrite in_range_covers, Hc, Hu by (done || lia). cbn [negb orb].
  destruct (transfer (x_root t) x m) as [[nd' y]|] eqn:Ht.
  - destruct (transfer_written _ _ _ _ _ Hwf Hok Hx Hu Hp Hlen ltac:(lia) Hend Ht) as (Hw & _ & Hle). fold ex in Hle.
    wp_step. apply wp_get_access; [done|]. cbn [w_st w_held w_calls]. intros t1 c1 Ht1 Hq1. cbn [Z.eqb negb].
    wp_step. unfold mod_leaf. rewrite Hph. wp_step. rewrite (proj2 (Z.eqb_neq (m_len m) 0)) by lia.
    wp_step. apply wp_dirty; [done|]. cbn [w_st w_held w_calls]. intros t2 c2 Ht2 Hq2. apply wp_convert_out. intros c3 Hq3.
    eapply (HQ _ _ (Some y) t2 c3 (m_lblk m) (m_lblk m + m_len m)); [lia|lia| |].
    + split_and!; rewrite ?length_pset, ?pnth_pset_eq by lia; done.
    + unfold write_answer. split_and!; try lia. eapply tree_written_root; [done|exact Hw|].
      split; [exact (Ht2 InRoot)|]. intros l Hl'. rewrite (Ht2 l). destruct l as [|b]; [done|exact (Ht1 (InBlk b))].
  - assert (Hal : s32 (ext4_ext_get_actual_len ex - u32 (m_lblk m - ee_block ex)) = ext_end ex - m_lblk m).
    { assert (ext4_ext_get_actual_len ex < 65536).
      { destruct (fmt_range (ee_len ex)) as [_ Hr], fmt_limits as [? ?]. unfold ext4_ext_get_actual_len in *.
        destruct (len_is_unwritten (ee_len ex)); lia. }
      unfold ext_end in *. rewrite u32_small, s32_small; lia. }
    rewrite Hal. eapply wp_convert_split; try done. destruct (_ <=? eof_block m); [by right|by left].
Qed.

(** C13: what the extent tree says after [ext4_ext_map_blocks] for a buffered write into an
    unwritten extent, on an inode with all its extents in the root and two free slots there,
    with block numbers of 48 bits, when paths can be allocated and the journal accepts every
    buffer: it answers the blocks of the request in the extent and where they are, and they
    are written afterwards.  A range around them may be written as well, but only inside the
    extent, and every block of it that was not asked for was zeroed first, successfully; all
    other blocks keep their state, and all blocks their place: no block of the tree that was
    neither asked for nor zeroed becomes written, even when zeroing fails.  This is about the
    tree only; the extent status tree, which caches it, is not modelled, and after a failed
    zeroing the code leaves it with blocks as written that the tree has unwritten. *)
Theorem write_unwritten_safe m e t held calls :
  flat t -> eh_entries (x_root t) + 1 < eh_max (x_root t) -> kcalloc_ok ->
  e ∈ entries (x_root t) -> covers e (m_lblk m) = true -> ext4_ext_is_unwritten e = true -> fits48 e ->
  0 <= m_lblk m -> 0 < m_len m -> m_lblk m + m_len m < 2 ^ 32 ->
  let ret := Z.min (m_len m) (ext_end e - m_lblk m) in
  exists s e2 t' calls', ext4_ext_map_blocks m EXT4_GET_BLOCKS_CREATE (World t held calls) =
      Ret (ret, Map (ext4_ext_pblock e + (m_lblk m - ee_block e)) (m_lblk m) ret
                  (Z.lor (Z.lor (m_flags m) EXT4_MAP_NEW) EXT4_MAP_MAPPED)) (World t' held calls') /\
    write_answer e m s e2 t t' calls'.
Proof.
  intros Hf Hroom Hk Hin Hc Hu Hp Hb Hlen Hend ret. pose proof Hf as [Hd Hwf Hok].
  destruct (found_slot (x_root t) (m_lblk m) e Hwf Hok Hin Hc) as (x & Hbs & Hx & Hsl).
  destruct (slot_ok (x_root t) 0 x Hwf Hok Hx) as [Hex _]. rewrite Hsl in Hex. apply covers_spec in Hc as Hcs.
  cut (wp (ext4_ext_map_blocks m EXT4_GET_BLOCKS_CREATE) (fun r w => exists s e2 t' c, w = World t' held c /\
    r = (ret, Map (ext4_ext_pblock e + (m_lblk m - ee_block e)) (m_lblk m) ret
                (Z.lor (Z.lor (m_flags m) EXT4_MAP_NEW) EXT4_MAP_MAPPED)) /\
    write_answer e m s e2 t t' c) (World t held calls)).
  { intros (r & w & Hr & s & e2 & t' & c & -> & -> & Hrest)%wp_run. by exists s, e2, t', c. }
  unfold ext4_ext_map_blocks. wp_step. apply wp_find_flat_arg; [done..|]. intros p calls1 Hfp Hm _. rewrite Hbs in Hfp.
  pose proof Hfp as (Hl & Hpd & Hph & Hbh & Hpx). do 2 wp_step. rewrite Hd, Hpx, Hph. cbn [node_at]. rewrite Hsl.
  rewrite in_range_covers by (done || lia). rewrite Hc. unfold map_found. rewrite Hu.
  destruct Hex as (Hb0 & Hn0 & He0). unfold ext_end in He0, Hcs. pose proof (fmt_pblock_range (ee_start e)) as Hpr.
  rewrite (u32_small (m_lblk m - _)) by lia. rewrite u32_small by lia. rewrite u64_small by (unfold ext4_ext_pblock in *; lia).
  cbn [negb andb]. unfold ext4_ext_handle_unwritten_extents.
  set (flags := Z.lor EXT4_GET_BLOCKS_CREATE EXT4_GET_BLOCKS_METADATA_NOFAIL).
  change (has_flag flags EXT4_GET_BLOCKS_PRE_IO) with false. change (has_flag flags EXT4_GET_BLOCKS_CONVERT) with false.
  change (has_flag flags EXT4_GET_BLOCKS_UNWRIT_EXT) with false. change (has_flag flags EXT4_GET_BLOCKS_CREATE) with true.
  cbn [negb]. do 2 wp_step. eapply wp_convert_to_initialized; rewrite ?Hsl; [done|done|by split|done..|].
  intros r p2 y2 t2 c2 s e2 Hr Hmin Hfp2 Hw. rewrite (proj2 (Z.ltb_ge r 0)), (proj2 (Z.eqb_neq r 0)) by lia. wp_step.
  wp_step. unfold unwritten_out, unwritten_map_out, unwritten_out1. rewrite u32_small by lia. do 2 wp_step.
  eapply wp_free_flat; [exact Hfp2|]. wp_step. exists s, e2, t2. eexists. split; [reflexivity|]. split.
  - cbn [add_m_flags m_len set_m_pblk]. assert (Hret : (if m_len m <? r then m_len m else r) = ret)
      by (unfold ret; rewrite <- Hmin; case_cmp; lia).
    unfold set_m_len, set_m_pblk, add_m_flags. cbn [m_len m_lblk m_flags m_pblk]. by rewrite Hret, (Z.add_comm (m_lblk m - _)).
  - destruct Hw as (W1 & W2 & W3 & W4). unfold write_answer. split_and!; try done; try lia. intros b Hbr Hout.
    eapply zeroed_later; [by apply W4|by apply quiet_cons].
Qed.
End Write.
