(* ===== verification/ExtentShift.v ===== *)
(** * Shifting extents (fs/ext4/extents.c)

    [ext4_ext_shift_extents]: the extents from a block on move by a number of blocks to the
    left or to the right, leaf by leaf; collapsing and inserting a range of a file are built
    on it.

    The variables of the loop that survive a restart of the transaction are in the record
    [shifting]; its [iterator] is a pointer to one of them, or NULL when no leaf is left.
    A path that the code forgets keeps its buffer references in the world. *)

From stdpp Require Import prelude list gmap strings.
From Stdlib Require Import ZArith Lia.
From S2P Require Import Prelude Kernel ExtentNode ExtentTree Layout Fs Namei EvfsExtent ExtentRemove.

Local Open Scope string_scope.
Local Open Scope Z_scope.

Inductive SHIFT_DIRECTION := SHIFT_LEFT | SHIFT_RIGHT.
#[export] Instance shift_direction_eq_dec : EqDecision SHIFT_DIRECTION.
Proof. solve_decision. Defined.

(** [le32_add_cpu(&ex->ee_block, n)] *)
Definition add_ee_block (n : Z) (e : ext4_extent) : ext4_extent := Ext (u32 (ee_block e + n)) (ee_len e) (ee_start e).

(** What is added to a block number. *)
Definition shift_by (SHIFT : SHIFT_DIRECTION) (shift : Z) : Z :=
  match SHIFT with SHIFT_LEFT => - shift | SHIFT_RIGHT => shift end.

(** The variables of [ext4_ext_shift_extents] in its loop; [sh_live]: the iterator is not
    NULL. *)
Record shifting := Shifting { sh_path : path; sh_start : Z; sh_stop : Z; sh_tmp : Z; sh_live : bool }.

(** [*iterator], and the assignment to it. *)
Definition iterator (SHIFT : SHIFT_DIRECTION) (s : shifting) : Z :=
  match SHIFT with SHIFT_LEFT => sh_start s | SHIFT_RIGHT => sh_stop s end.
Definition set_iterator (SHIFT : SHIFT_DIRECTION) (v : Z) (s : shifting) : shifting :=
  match SHIFT with
  | SHIFT_LEFT => Shifting (sh_path s) v (sh_stop s) (sh_tmp s) (sh_live s)
  | SHIFT_RIGHT => Shifting (sh_path s) (sh_start s) v (sh_tmp s) (sh_live s)
  end.
Definition set_sh_path (p : path) (s : shifting) : shifting :=
  Shifting p (sh_start s) (sh_stop s) (sh_tmp s) (sh_live s).
Definition set_sh_tmp (v : Z) (s : shifting) : shifting :=
  Shifting (sh_path s) (sh_start s) (sh_stop s) v (sh_live s).
Definition set_sh_live (b : bool) (s : shifting) : shifting :=
  Shifting (sh_path s) (sh_start s) (sh_stop s) (sh_tmp s) b.

Section Shift.
Context `{ExtFmt} `{Env} `{TreeEnv} `{RemoveEnv}.
Abbreviation X := (K xtree).

(** ** One leaf *)

(** [while (ex_start <= ex_last)] to the left: an extent that merges with its left
    neighbour makes the next one move to its slot.  Every round lowers
    [ex_last - ex_start]. *)
Fixpoint shift_left_loop (fuel : nat) (shift ex_start ex_last : Z) (nd : node) : node :=
  match fuel with
  | O => nd
  | S fuel =>
      if ex_start <=? ex_last then
        let nd := set_slot ex_start (add_ee_block (- shift) (slot nd ex_start)) nd in
        let '(done, nd) := if 0 <? ex_start then ext4_ext_try_to_merge_right nd (ex_start - 1) else (false, nd) in
        if done : bool then shift_left_loop fuel shift ex_start (ex_last - 1) nd
        else shift_left_loop fuel shift (ex_start + 1) ex_last nd
      else nd
  end.

(** The same to the right, from the last extent down. *)
Fixpoint shift_right_loop (fuel : nat) (shift ex_start ex_last : Z) (nd : node) : node :=
  match fuel with
  | O => nd
  | S fuel =>
      if ex_start <=? ex_last then
        let nd := set_slot ex_last (add_ee_block shift (slot nd ex_last)) nd in
        shift_right_loop fuel shift ex_start (ex_last - 1) (ext4_ext_try_to_merge_right nd ex_last).2
      else nd
  end.

Definition shift_leaf (SHIFT : SHIFT_DIRECTION) (shift ex_start : Z) (nd : node) : node :=
  let ex_last := EXT_LAST nd in
  let fuel := Z.to_nat (ex_last - ex_start + 1) in
  match SHIFT with
  | SHIFT_LEFT => shift_left_loop fuel shift ex_start ex_last nd
  | SHIFT_RIGHT => shift_right_loop fuel shift ex_start ex_last nd
  end.

(** "Update index too": levels [k - 1 .. 0], up to one whose index is not its node's first
    one. *)
Fixpoint shift_index_loop (k : nat) (SHIFT : SHIFT_DIRECTION) (shift : Z) (p : path) : X Z :=
  match k with
  | O => kret 0
  | S k =>
      let e := pnth p (Z.of_nat k) in
      err <~ ext4_ext_get_access e;;
      if negb (err =? 0) then kret err else
      t <~ kget;;
      match p_idx e with
      | None => koops
      | Some x =>
          kmodify (set_ei_block (p_hdr e) x (u32 (ei_block (islot (node_at t (p_hdr e)) x) + shift_by SHIFT shift)));;;
          err <~ ext4_ext_dirty e;;
          if negb (err =? 0) then kret err else
          if negb (x =? 0) then kret 0 else shift_index_loop k SHIFT shift p
      end
  end.

(** [ext4_ext_shift_path_extents]; [ext4_writepage_trans_blocks] is outside. *)
Definition ext4_ext_shift_path_extents (p : path) (shift : Z) (SHIFT : SHIFT_DIRECTION) : X Z :=
  let depth := p_depth (pnth p 0) in
  let e := pnth p depth in
  match p_ext e with
  | None => kret (- EFSCORRUPTED)
  | Some ex_start =>
      let update := ex_start =? 0 in
      let credits := if update then depth + 2 else 3 in
      restart_credits <~ call_int "ext4_writepage_trans_blocks" [ino];;
      err <~ ext4_datasem_ensure_credits credits restart_credits 0;;
      if negb (err =? 0) then kret (if 0 <? err then - EAGAIN else err) else
      err <~ ext4_ext_get_access e;;
      if negb (err =? 0) then kret err else
      mod_leaf e (shift_leaf SHIFT shift ex_start);;;
      err <~ ext4_ext_dirty e;;
      if negb (err =? 0) then kret err else
      if (depth - 1 <? 0) || negb update then kret 0
      else shift_index_loop (Z.to_nat depth) SHIFT shift p
  end.

(** ** All leaves *)

(** [while (ee_block >= start) extent--] from slot [n]; the first extent starts before. *)
Fixpoint back_to (nd : node) (start : Z) (n : nat) : nat :=
  match n with
  | O => O
  | S n' => if start <=? ee_block (slot nd (Z.of_nat n)) then back_to nd start n' else n
  end.

(** Which extents of the leaf are shifted, and where the iterator goes: [None] when the
    loop is left; the path has the first extent to be shifted. *)
Definition next_leaf (SHIFT : SHIFT_DIRECTION) (nd : node) (x : Z) (s : shifting) : option (Z * shifting) :=
  match SHIFT with
  | SHIFT_LEFT =>
      let last := slot nd (EXT_LAST nd) in
      Some (x, set_iterator SHIFT (u32 (ee_block last + ext4_ext_get_actual_len last)) s)
  | SHIFT_RIGHT =>
      let first := ee_block (slot nd 0) in
      if sh_start s <? first then Some (0, set_iterator SHIFT (u32 (first - 1)) s)
      else if first =? sh_start s then Some (0, set_sh_live false s)
      else
        let k := Z.of_nat (back_to nd (sh_start s) (Z.to_nat (EXT_LAST nd))) in
        if k =? EXT_LAST nd then None else Some (k + 1, set_sh_live false s)
  end.

(** How the loop is left: with an answer and no path to free, or with an answer and the
    variables as they are. *)
Definition shift_exit : Type := Z + Z * shifting.

(** One round of [while (iterator && start <= stop)]. *)
Definition shift_round (shift : Z) (SHIFT : SHIFT_DIRECTION) (s : shifting) : X (shifting + shift_exit) :=
  if negb (sh_live s && (sh_start s <=? sh_stop s)) then kret (inr (inr (0, s))) else
  let it := iterator SHIFT s in
  r <~ ext4_find_extent it (Some (sh_path s)) EXT4_EX_NOCACHE;;
  match r with
  | inl err => kret (inr (inl err))
  | inr p =>
      t <~ kget;;
      let depth := p_depth (pnth p 0) in
      let e := pnth p depth in
      let nd := node_at t (p_hdr e) in
      match p_ext e with
      | None => call_int "ext4_error_inode" [ino; it];;; kret (inr (inl (- EFSCORRUPTED)))
      | Some x =>
          let hole := bool_decide (SHIFT = SHIFT_LEFT) && (ee_block (slot nd x) <? it) in
          if hole && (EXT_LAST nd <=? x) then
            kret (inl (set_iterator SHIFT (ext4_ext_next_allocated_block t p) (set_sh_path p s)))
          else
          let x := if hole then x + 1 else x in
          let s := set_sh_tmp it (set_sh_path p s) in
          match next_leaf SHIFT nd x s with
          | None => kret (inr (inr (0, s)))
          | Some (x, s) =>
              let p := pset p depth (set_p_ext (Some x) e) in
              let s := set_sh_path p s in
              ret <~ ext4_ext_shift_path_extents p shift SHIFT;;
              kret (if negb (ret =? 0) then inr (inr (ret, s)) else inl s)
          end
      end
  end.

(** A leaf is visited at most twice. *)
Definition shift_rounds : positive := Pos.pow 2 600.

(** From [again] on, at most [tries] times. *)
Fixpoint shift_again (tries : nat) (shift : Z) (SHIFT : SHIFT_DIRECTION) (s : shifting) : X Z :=
  match tries with
  | O => koops
  | S tries =>
      let s := set_sh_live true s in
      let s := if negb (sh_tmp s =? EXT_MAX_BLOCKS) then set_iterator SHIFT (sh_tmp s) s else s in
      r <~ kloop shift_rounds (shift_round shift SHIFT) s;;
      match r with
      | inl err => kret err
      | inr (ret, s) =>
          if ret =? - EAGAIN then shift_again tries shift SHIFT s
          else ext4_free_ext_path (Some (sh_path s));;; kret ret
      end
  end.

(** The extent a path ends at. *)
Definition path_extent (t : xtree) (p : path) : option ext4_extent :=
  let e := pnth p (p_depth (pnth p 0)) in slot (node_at t (p_hdr e)) <$> p_ext e.

(** Whether the shift fits: the hole on the left is large enough, or the last extent stays
    below [EXT_MAX_BLOCKS].  The path is looked up again for a shift to the left. *)
Definition shift_fits (start shift : Z) (SHIFT : SHIFT_DIRECTION) (last : ext4_extent) (p : path) :
    X (Z + bool * path) :=
  match SHIFT with
  | SHIFT_LEFT =>
      r <~ ext4_find_extent (u32 (start - 1)) (Some p) EXT4_EX_NOCACHE;;
      match r with
      | inl err => kret (inl err)
      | inr p =>
          t <~ kget;;
          let '(ex_start, ex_end) := match path_extent t p with
                                     | Some ex => (ee_block ex, u32 (ee_block ex + ext4_ext_get_actual_len ex))
                                     | None => (0, 0)
                                     end in
          kret (inr (negb ((start =? ex_start) && (ex_start <? shift) || (u32 (start - ex_end) <? shift)), p))
      end
  | SHIFT_RIGHT =>
      kret (inr (negb (u32 (EXT_MAX_BLOCKS - u32 (ee_block last + ext4_ext_get_actual_len last)) <? shift), p))
  end.

(** [ext4_ext_shift_extents]; the journal restarts the transaction at most [tries - 1]
    times. *)
Definition ext4_ext_shift_extents (tries : nat) (start shift : Z) (SHIFT : SHIFT_DIRECTION) : X Z :=
  r <~ ext4_find_extent (EXT_MAX_BLOCKS - 1) None EXT4_EX_NOCACHE;;
  match r with
  | inl err => kret err
  | inr p =>
      t <~ kget;;
      match path_extent t p with
      | None => ext4_free_ext_path (Some p);;; kret 0
      | Some last =>
          r <~ shift_fits start shift SHIFT last p;;
          match r with
          | inl err => kret err
          | inr (false, p) => ext4_free_ext_path (Some p);;; kret (- EINVAL)
          | inr (true, p) => shift_again tries shift SHIFT (Shifting p start (ee_block last) EXT_MAX_BLOCKS true)
          end
      end
  end.
End Shift.
