(* ===== verification/ExtentShiftSpec.v ===== *)
(** * Shifting the extents of a leaf

    What [shift_leaf] does to the extents of a valid leaf: those from a slot on move by the
    shift and merge with their neighbours, the map of the leaf moves with them; and the map
    a file has after a shift to the left or to the right. *)

From stdpp Require Import prelude list.
From Stdlib Require Import ZArith Lia.
From S2P Require Import Prelude Kernel ExtentNode ExtentTree Layout Fs Namei EvfsExtent ExtentRemove ExtentMapSpec ExtentShift.

Local Open Scope Z_scope.

(** The map of a file whose blocks from [start] on moved by [shift] over a hole. *)
Definition shifted_left {A} (m : Z -> option A) (start shift b : Z) : option A :=
  if b <? start - shift then m b else m (b + shift).
Definition shifted_right {A} (m : Z -> option A) (start shift b : Z) : option A :=
  if b <? start then m b else if b <? start + shift then None else m (b - shift).

Section ShiftLists.
Context `{ExtFmtOk}.
Implicit Types (e : ext4_extent) (l : list ext4_extent).

(** An extent that can be moved by [d] blocks. *)
Definition movable (d : Z) e : Prop := ext_ok e /\ 0 <= ee_block e + d /\ ext_end e + d < 2 ^ 32.

Lemma add_ee_block_spec d e : movable d e ->
  ee_block (add_ee_block d e) = ee_block e + d /\ ext_end (add_ee_block d e) = ext_end e + d /\
  ext_ok (add_ee_block d e) /\ (forall b, covers (add_ee_block d e) b = covers e (b - d)) /\
  (forall b, phys (add_ee_block d e) b = phys e (b - d)).
Proof.
  intros ((Hb & Hl & He) & Hlo & Hhi).
  assert (Eb : ee_block (add_ee_block d e) = ee_block e + d).
  { unfold ext_end in *. cbn [add_ee_block ee_block]. rewrite u32_small; [done|lia]. }
  assert (El : ext4_ext_get_actual_len (add_ee_block d e) = ext4_ext_get_actual_len e) by done.
  assert (Ee : ext_end (add_ee_block d e) = ext_end e + d) by (unfold ext_end; rewrite Eb, El; lia).
  split_and!; [done|done|unfold ext_ok; rewrite Eb, El, Ee; lia| |].
  - intros b. unfold covers. rewrite Eb, Ee. apply eq_true_iff_eq. rewrite !andb_true_iff, !Z.leb_le, !Z.ltb_lt. lia.
  - intros b. unfold phys. rewrite Eb. unfold ext4_ext_pblock, ext4_ext_is_unwritten. cbn [add_ee_block ee_start ee_len].
    f_equal. lia.
Qed.

Lemma mapping_moved d l b : Forall (movable d) l -> mapping (add_ee_block d <$> l) b = mapping l (b - d).
Proof.
  induction 1 as [|e l He _ IH]; [done|]. cbn [fmap list_fmap mapping].
  destruct (add_ee_block_spec d e He) as (_ & _ & _ & -> & ->). by rewrite IH.
Qed.

Lemma leaf_ok_moved d l : forall cur, Forall (movable d) l -> leaf_ok cur l -> leaf_ok (cur + d) (add_ee_block d <$> l).
Proof.
  induction l as [|e l IH]; intros cur Hm Hl; [done|]. apply Forall_cons in Hm as [He Hm].
  destruct Hl as (Hok & Hc & Hl). destruct (add_ee_block_spec d e He) as (Eb & Ee & Hok' & _).
  cbn [fmap list_fmap leaf_ok]. rewrite Eb, Ee. split_and!; [done|lia|]. replace (ext_end e + d) with (ext_end e + d) by done. by apply IH.
Qed.

(** A valid list from which on another starts. *)
Lemma leaf_ok_join cur cut l1 l2 : cur <= cut ->
  leaf_ok cur l1 -> (forall e, e ∈ l1 -> ext_end e <= cut) -> leaf_ok cut l2 -> leaf_ok cur (l1 ++ l2).
Proof.
  revert cur. induction l1 as [|e l1 IH]; intros cur Hc H1 He H2; [by eapply leaf_ok_mono|].
  destruct H1 as (Ho & Hcu & H1). cbn [app leaf_ok]. split_and!; [done|done|].
  apply IH; [apply He; set_solver|done| |done]. intros x Hx. apply He. set_solver.
Qed.

(** The parts of a valid list are valid. *)
Lemma leaf_ok_parts cur l1 l2 : leaf_ok cur (l1 ++ l2) ->
  leaf_ok cur l1 /\ exists c, cur <= c /\ leaf_ok c l2 /\ forall e, e ∈ l1 -> ext_end e <= c.
Proof.
  intros Hl. split; [by eapply leaf_ok_take|]. revert cur Hl. induction l1 as [|e l1 IH]; intros cur Hl.
  - exists cur. split_and!; [lia|done|set_solver].
  - destruct Hl as ((? & ? & ?) & Hc & Hl). destruct (IH _ Hl) as (c & Hle & Hl2 & Hends).
    assert (ext_end e = ee_block e + ext4_ext_get_actual_len e) by done.
    exists c. split_and!; [lia|done|]. intros x [->|Hx]%elem_of_cons; [done|by apply Hends].
Qed.

Lemma mapping_at_end cur l c b :
  leaf_ok cur l -> (forall e, e ∈ l -> ext_end e <= c) -> c <= b -> mapping l b = None.
Proof. intros Hl He Hb. apply mapping_none. intros e Hin. apply covers_false. right. specialize (He e Hin). lia. Qed.

(** *** The map after a shift *)

Lemma shift_left_target l r start shift :
  0 <= shift -> leaf_ok 0 l -> leaf_ok start r -> Forall (movable (- shift)) r ->
  0 <= start - shift -> (forall e, e ∈ l -> ext_end e <= start - shift) ->
  leaf_ok 0 (l ++ (add_ee_block (- shift) <$> r)) /\
  forall b, mapping (l ++ (add_ee_block (- shift) <$> r)) b = shifted_left (mapping (l ++ r)) start shift b.
Proof.
  intros Hs Hl Hr Hm Hp He. pose proof (leaf_ok_moved _ r start Hm Hr) as Hr'. split.
  - apply (leaf_ok_join _ (start - shift)); [lia|done|done|]. by replace (start - shift) with (start + - shift) by lia.
  - intros b. unfold shifted_left. rewrite !mapping_app, mapping_moved by done.
    replace (b - - shift) with (b + shift) by lia. destruct (Z.ltb_spec b (start - shift)) as [Hlt|Hge].
    + by rewrite (mapping_before start r (b + shift)), (mapping_before start r b) by (done || lia).
    + by rewrite !(mapping_at_end 0 l (start - shift)) by (done || lia).
Qed.

Lemma shift_right_target l r start shift :
  0 <= shift -> 0 <= start -> leaf_ok 0 l -> leaf_ok start r -> Forall (movable shift) r ->
  (forall e, e ∈ l -> ext_end e <= start) ->
  leaf_ok 0 (l ++ (add_ee_block shift <$> r)) /\
  forall b, mapping (l ++ (add_ee_block shift <$> r)) b = shifted_right (mapping (l ++ r)) start shift b.
Proof.
  intros Hs Hst Hl Hr Hm He. pose proof (leaf_ok_moved _ r start Hm Hr) as Hr'. split.
  - apply (leaf_ok_join _ (start + shift)); [lia|done| |done]. intros e Hin. specialize (He e Hin). lia.
  - intros b. unfold shifted_right. rewrite !mapping_app, mapping_moved by done.
    destruct (Z.ltb_spec b start) as [Hlt|Hge].
    + by rewrite (mapping_before start r (b - shift)), (mapping_before start r b) by (done || lia).
    + rewrite (mapping_at_end 0 l start b) by (done || lia). destruct (Z.ltb_spec b (start + shift)).
      * by rewrite (mapping_before start r (b - shift)) by (done || lia).
      * by rewrite (mapping_at_end 0 l start (b - shift)) by (done || lia).
Qed.
End ShiftLists.

(** ** Merging in the middle of a leaf *)

Section ShiftMerge.
Context `{ExtFmtOk}.
Implicit Types (e : ext4_extent) (l : list ext4_extent).

(** The list [l'] of extents stands for what [l] does. *)
Definition same_extents l l' : Prop :=
  (forall c, leaf_ok c l -> leaf_ok c l') /\ (forall c, leaf_ok c l -> forall b, mapping l' b = mapping l b).

Lemma same_extents_refl l : same_extents l l.
Proof. by split. Qed.
Lemma same_extents_trans l1 l2 l3 : same_extents l1 l2 -> same_extents l2 l3 -> same_extents l1 l3.
Proof.
  intros [O1 M1] [O2 M2]. split; [by eauto|]. intros c Hc b. rewrite (M2 c) by eauto. by apply (M1 c).
Qed.
Lemma same_extents_merged e1 e2 l :
  ext4_can_extents_be_merged e1 e2 = true -> same_extents (e1 :: e2 :: l) (merged e1 e2 :: l).
Proof.
  intros Hm. split; intros c Hc; [by apply (leaf_ok_merged c [])|].
  destruct Hc as (? & _ & ? & _). intros b. by apply mapping_merged.
Qed.

Lemma entries_at nd i pre e suf :
  node_wf nd -> entries nd = pre ++ e :: suf -> length pre = Z.to_nat i -> 0 <= i ->
  slot nd i = e /\ i < eh_entries nd.
Proof.
  intros Hwf He Hp Hi. pose proof (length_entries nd Hwf) as Hl. rewrite He, length_app in Hl. cbn [length] in Hl.
  assert (Hlt : i < eh_entries nd) by lia. split; [|done].
  pose proof (entries_slot nd i Hwf ltac:(lia)) as Hs. rewrite He, lookup_app_r, Hp, Nat.sub_diag in Hs by lia.
  by injection Hs as ->.
Qed.

(** A merge keeps what is left of it and the meaning of what is right of it. *)
Lemma merge_right_suffix fuel : forall nd ex dn pre suf,
  node_wf nd -> 0 <= ex -> entries nd = pre ++ suf -> length pre = Z.to_nat ex ->
  let nd' := (merge_right_loop fuel nd ex dn).2 in
  node_wf nd' /\ eh_max nd' = eh_max nd /\ exists suf', entries nd' = pre ++ suf' /\ same_extents suf suf'.
Proof.
  induction fuel as [|fuel IH]; intros nd ex dn pre suf Hwf Hex He Hp; cbn [merge_right_loop].
  { split_and!; [done..|]. exists suf. split; [done|apply same_extents_refl]. }
  unfold EXT_LAST. destruct (Z.ltb_spec ex (eh_entries nd - 1)) as [Hlt|Hge];
    [|split_and!; [done..|]; exists suf; split; [done|apply same_extents_refl]].
  pose proof (length_entries nd Hwf) as Hlen. rewrite He, length_app in Hlen.
  destruct suf as [|e1 [|e2 suf]]; cbn [length] in Hlen; [lia..|].
  destruct (entries_at nd ex pre e1 (e2 :: suf)) as [S1 _]; [done..|].
  destruct (entries_at nd (ex + 1) (pre ++ [e1]) e2 suf) as [S2 _];
    [done|by rewrite <- app_assoc|rewrite length_app; simpl; lia|lia|].
  rewrite S1, S2. destruct (ext4_can_extents_be_merged e1 e2) eqn:Hm; cbn [negb];
    [|split_and!; [done..|]; eexists; split; [done|apply same_extents_refl]].
  destruct (merge_step_entries nd ex Hwf Hex ltac:(lia)) as (Es & Hwf' & _ & Hmax).
  rewrite He, S1, S2 in Es. rewrite take_app_length' in Es by done.
  replace (drop (S (S (Z.to_nat ex))) (pre ++ e1 :: e2 :: suf)) with suf in Es.
  2:{ rewrite drop_app_ge by lia. replace (S (S (Z.to_nat ex)) - length pre)%nat with 2%nat by lia. done. }
  destruct (IH _ ex true pre (merged e1 e2 :: suf) Hwf' Hex Es Hp) as (Hwf2 & Hmax2 & suf' & Es' & Hs').
  split_and!; [done|congruence|]. exists suf'. split; [done|].
  eapply same_extents_trans; [by apply same_extents_merged|done].
Qed.

Lemma not_merged_apart e1 e2 : ext_ok e1 -> ext_end e1 < ee_block e2 -> ext4_can_extents_be_merged e1 e2 = false.
Proof.
  intros (? & ? & ?) Hlt. unfold ext4_can_extents_be_merged. destruct (negb (Bool.eqb _ _)); [done|].
  fold (ext_end e1). rewrite u32_small by (unfold ext_end in *; lia). by rewrite (proj2 (Z.eqb_neq _ _)) by lia.
Qed.

(** A merge that cannot go on: the extents after the second one lie apart from it. *)
Lemma merge_right_once nd ex pre e1 e2 suf :
  node_wf nd -> 0 <= ex -> entries nd = pre ++ e1 :: e2 :: suf -> length pre = Z.to_nat ex ->
  ext_ok e1 -> ext_ok e2 -> (forall x, x ∈ suf -> ext_end e2 < ee_block x) ->
  let '(dn, nd') := ext4_ext_try_to_merge_right nd ex in
  node_wf nd' /\ eh_max nd' = eh_max nd /\ dn = ext4_can_extents_be_merged e1 e2 /\
  entries nd' = pre ++ (if dn then [merged e1 e2] else [e1; e2]) ++ suf.
Proof.
  intros Hwf Hex He Hp Hok1 Hok2 Hap. unfold ext4_ext_try_to_merge_right.
  destruct (entries_at nd ex pre e1 (e2 :: suf)) as [S1 L1]; [done..|].
  destruct (entries_at nd (ex + 1) (pre ++ [e1]) e2 suf) as [S2 L2];
    [done|by rewrite <- app_assoc|rewrite length_app; simpl; lia|lia|].
  destruct (Z.to_nat (eh_entries nd)) as [|[|fuel]] eqn:Ef; [lia..|].
  cbn [merge_right_loop]. unfold EXT_LAST at 1. rewrite (proj2 (Z.ltb_lt _ _)) by lia. rewrite S1, S2.
  destruct (ext4_can_extents_be_merged e1 e2) eqn:Hm; cbn [negb]; [|done].
  destruct (merge_step_entries nd ex Hwf Hex ltac:(lia)) as (Es & Hwf' & Hn & Hmax).
  rewrite He, S1, S2 in Es. rewrite take_app_length' in Es by done.
  replace (drop (S (S (Z.to_nat ex))) (pre ++ e1 :: e2 :: suf)) with suf in Es.
  2:{ rewrite drop_app_ge by lia. replace (S (S (Z.to_nat ex)) - length pre)%nat with 2%nat by lia. done. }
  set (nd1 := merge_step nd ex) in *. clearbody nd1.
  destruct (merged_spec e1 e2 Hok1 Hok2 Hm) as (_ & _ & _ & _ & Hend & _).
  unfold EXT_LAST. destruct (Z.ltb_spec ex (eh_entries nd1 - 1)) as [Hlt|Hge]; [|done].
  destruct suf as [|x suf].
  { pose proof (length_entries nd1 Hwf') as Hl. rewrite Es, length_app in Hl. cbn [length] in Hl. lia. }
  destruct (entries_at nd1 ex pre (merged e1 e2) (x :: suf)) as [T1 _]; [done..|].
  destruct (entries_at nd1 (ex + 1) (pre ++ [merged e1 e2]) x suf) as [T2 _];
    [done|by rewrite <- app_assoc|rewrite length_app; simpl; lia|lia|].
  rewrite T1, T2, not_merged_apart; [done|by apply merged_ok|]. rewrite Hend. apply Hap. set_solver.
Qed.
End ShiftMerge.

(** ** The loops over a leaf *)

Section ShiftLeaf.
Context `{ExtFmtOk}.
Implicit Types (e : ext4_extent) (l : list ext4_extent).

(** The extent at the middle of the entries is replaced. *)
Lemma entries_replace nd i e e' pre suf :
  node_wf nd -> entries nd = pre ++ e :: suf -> length pre = Z.to_nat i -> 0 <= i ->
  slot nd i = e /\ i < eh_entries nd /\ node_wf (set_slot i e' nd) /\ entries (set_slot i e' nd) = pre ++ e' :: suf.
Proof.
  intros Hwf He Hp Hi. destruct (entries_at nd i pre e suf Hwf He Hp Hi) as [Hs Hlt].
  destruct (set_slot_entries nd i e' Hwf ltac:(lia)) as [E W]. split_and!; [done..|].
  rewrite E, He, take_app_length' by done. do 2 f_equal.
  rewrite drop_app_ge by lia. by replace (S (Z.to_nat i) - length pre)%nat with 1%nat by lia.
Qed.

(** What a leaf is after a shift: the list [target] of extents, merged somewhere. *)
Definition stands_for (nd nd' : node) (target : list ext4_extent) : Prop :=
  node_wf nd' /\ eh_max nd' = eh_max nd /\ eh_depth nd' = eh_depth nd /\ same_extents target (entries nd').

Lemma stands_for_same nd l : node_wf nd -> entries nd = l -> stands_for nd nd l.
Proof. intros Hwf <-. split_and!; try done; apply same_extents_refl. Qed.

Lemma shift_left_loop_spec shift fuel : forall nd pre suf,
  0 < shift -> node_wf nd -> entries nd = pre ++ suf ->
  leaf_ok 0 (pre ++ (add_ee_block (- shift) <$> suf)) -> (exists c, leaf_ok c suf) ->
  Forall (movable (- shift)) suf -> (length suf <= fuel)%nat ->
  stands_for nd (shift_left_loop fuel shift (Z.of_nat (length pre)) (eh_entries nd - 1) nd)
    (pre ++ (add_ee_block (- shift) <$> suf)).
Proof.
  induction fuel as [|fuel IH]; intros nd pre suf Hs Hwf He Hok [c Hc] Hmv Hf.
  { destruct suf; [|simpl in Hf; lia]. by apply stands_for_same. }
  cbn [shift_left_loop]. pose proof (length_entries nd Hwf) as Hlen. rewrite He, length_app in Hlen.
  destruct suf as [|e suf].
  { cbn [length] in Hlen. rewrite (proj2 (Z.leb_gt _ _)) by lia. by apply stands_for_same. }
  cbn [length] in Hlen, Hf. rewrite (proj2 (Z.leb_le _ _)) by lia. remember (Z.of_nat (length pre)) as j eqn:Hj0.
  set (e' := add_ee_block (- shift) e).
  destruct (entries_replace nd j e e' pre suf Hwf He ltac:(lia) ltac:(lia)) as (Hsl & Hj & Hwf1 & He1). rewrite Hsl.
  fold e'. set (nd1 := set_slot j e' nd) in *.
  apply Forall_cons in Hmv as [Hme Hmv]. destruct (add_ee_block_spec _ e Hme) as (Eb & Ee & Hoe & _). fold e' in Eb, Ee, Hoe.
  destruct Hc as (Hoke & _ & Hc). cbn [fmap list_fmap] in Hok |- *. fold e' in Hok |- *.
  assert (Hstep : forall nd2 pre2, node_wf nd2 -> eh_max nd2 = eh_max nd -> eh_depth nd2 = eh_depth nd ->
    entries nd2 = pre2 ++ suf -> leaf_ok 0 (pre2 ++ (add_ee_block (- shift) <$> suf)) ->
    same_extents (pre ++ e' :: (add_ee_block (- shift) <$> suf)) (pre2 ++ (add_ee_block (- shift) <$> suf)) ->
    stands_for nd (shift_left_loop fuel shift (Z.of_nat (length pre2)) (eh_entries nd2 - 1) nd2)
      (pre ++ e' :: (add_ee_block (- shift) <$> suf))).
  { intros nd2 pre2 W2 M2 D2 E2 O2 S2. destruct (IH nd2 pre2 suf) as (W3 & M3 & D3 & S3); try done; [by eexists|lia|].
    split_and!; [done|congruence|congruence|by eapply same_extents_trans]. }
  assert (Hmove : stands_for nd (shift_left_loop fuel shift (j + 1) (eh_entries nd - 1) nd1) (pre ++ e' :: (add_ee_block (- shift) <$> suf))).
  { replace (j + 1) with (Z.of_nat (length (pre ++ [e']))) by (rewrite length_app; simpl; lia).
    change (eh_entries nd) with (eh_entries nd1). apply Hstep; try done; rewrite <- ?app_assoc; try done. }
  destruct (Z.ltb_spec 0 j) as [Hpos|Hz]; [|exact Hmove].
  destruct pre as [|x pre _] using rev_ind; [simpl in Hj0; lia|]. rewrite length_app in Hj0, Hlen. cbn [length] in Hj0, Hlen.
  rewrite <- app_assoc in He1, Hok. cbn [app] in He1, Hok.
  destruct (leaf_ok_drop 0 pre _ Hok) as (cx & _ & Hokx & _).
  pose proof (merge_right_once nd1 (j - 1) pre x e' suf Hwf1 ltac:(lia) He1 ltac:(lia) Hokx Hoe) as Hm.
  assert (Hap : forall y, y ∈ suf -> ext_end e' < ee_block y).
  { intros y Hy. destruct (leaf_ok_elem _ _ y Hc Hy). lia. }
  specialize (Hm Hap). destruct (ext4_ext_try_to_merge_right nd1 (j - 1)) as [dn nd2] eqn:Em.
  assert (Hd2 : eh_depth nd2 = eh_depth nd).
  { change nd2 with (dn, nd2).2. rewrite <- Em. unfold ext4_ext_try_to_merge_right. by rewrite merge_right_loop_depth. }
  destruct Hm as (W2 & M2 & -> & E2). destruct (ext4_can_extents_be_merged x e') eqn:Hcm.
  - pose proof (length_entries nd2 W2) as Hl2. rewrite E2, !length_app in Hl2. cbn [length] in Hl2.
    replace j with (Z.of_nat (length (pre ++ [merged x e']))) by (rewrite length_app; simpl; lia).
    replace (eh_entries nd - 1 - 1) with (eh_entries nd2 - 1) by lia.
    apply Hstep; try done; rewrite <- ?app_assoc; try done; cbn [app].
    + by apply leaf_ok_merged.
    + split; intros c' Hc'; [by apply leaf_ok_merged|]. intros b. rewrite !mapping_app. by rewrite mapping_merged.
  - pose proof (length_entries nd2 W2) as Hl2. rewrite E2, !length_app in Hl2. cbn [length] in Hl2.
    replace (j + 1) with (Z.of_nat (length (pre ++ [x; e']))) by (rewrite length_app; simpl; lia).
    replace (eh_entries nd - 1) with (eh_entries nd2 - 1) by lia.
    apply Hstep; try done; by rewrite <- ?app_assoc.
Qed.

Lemma same_extents_app l k k' : same_extents k k' -> same_extents (l ++ k) (l ++ k').
Proof.
  intros Hk. induction l as [|e l [O1 M1]]; [done|]. split.
  - intros c (Ho & Hc & Hl). cbn [app leaf_ok]. split_and!; [done|done|by apply O1].
  - intros c (Ho & Hc & Hl) b. cbn [app mapping]. by rewrite (M1 _ Hl b).
Qed.

Lemma shift_right_loop_spec shift fuel : forall nd pre mid suf,
  0 < shift -> node_wf nd -> entries nd = pre ++ mid ++ suf ->
  leaf_ok 0 (pre ++ (add_ee_block shift <$> mid) ++ suf) -> (length mid <= fuel)%nat ->
  stands_for nd (shift_right_loop fuel shift (Z.of_nat (length pre)) (Z.of_nat (length pre + length mid) - 1) nd)
    (pre ++ (add_ee_block shift <$> mid) ++ suf).
Proof.
  induction fuel as [|fuel IH]; intros nd pre mid suf Hs Hwf He Hok Hf.
  { destruct mid; [|simpl in Hf; lia]. by apply stands_for_same. }
  cbn [shift_right_loop]. destruct mid as [|e mid _] using rev_ind.
  { rewrite (proj2 (Z.leb_gt _ _)) by (simpl; lia). by apply stands_for_same. }
  rewrite length_app in *. cbn [length] in *. rewrite (proj2 (Z.leb_le _ _)) by lia.
  set (last := Z.of_nat (length pre + (length mid + 1)) - 1). set (e' := add_ee_block shift e).
  rewrite <- app_assoc in He. rewrite app_assoc in He. cbn [app] in He.
  destruct (entries_replace nd last e e' (pre ++ mid) suf Hwf He) as (Hsl & Hj & Hwf1 & He1);
    [rewrite length_app; lia|lia|]. rewrite Hsl. fold e'. set (nd1 := set_slot last e' nd) in *.
  destruct (merge_right_suffix (Z.to_nat (eh_entries nd1)) nd1 last false (pre ++ mid) (e' :: suf))
    as (W2 & M2 & suf2 & E2 & S2); [done|lia|done|rewrite length_app; lia|].
  fold (ext4_ext_try_to_merge_right nd1 last) in W2, M2, E2.
  set (nd2 := (ext4_ext_try_to_merge_right nd1 last).2) in *.
  assert (Hd2 : eh_depth nd2 = eh_depth nd) by (unfold nd2, ext4_ext_try_to_merge_right; by rewrite merge_right_loop_depth).
  rewrite <- app_assoc in E2.
  rewrite fmap_app, <- app_assoc in Hok |- *. cbn [fmap list_fmap app] in Hok |- *. fold e' in Hok |- *.
  assert (S2' : same_extents (pre ++ (add_ee_block shift <$> mid) ++ e' :: suf) (pre ++ (add_ee_block shift <$> mid) ++ suf2))
    by by do 2 apply same_extents_app.
  destruct (IH nd2 pre mid suf2) as (W3 & M3 & D3 & S3); [done|done|done|by apply S2'|lia|].
  replace (last - 1) with (Z.of_nat (length pre + length mid) - 1) by lia.
  change (eh_max nd1) with (eh_max nd) in M2. split_and!; [done|congruence|congruence|by eapply same_extents_trans].
Qed.

(** The extents from slot [x] on start at block [start] or later, the others before. *)
Definition split_at (nd : node) (x start : Z) : Prop :=
  0 <= x <= eh_entries nd /\ (forall i, 0 <= i < x -> ee_block (slot nd i) < start) /\
  (forall i, x <= i < eh_entries nd -> start <= ee_block (slot nd i)).

(** What the extents of the leaf are to become. *)
Definition moved (d x : Z) (nd : node) : list ext4_extent :=
  take (Z.to_nat x) (entries nd) ++ (add_ee_block d <$> drop (Z.to_nat x) (entries nd)).

Lemma shift_leaf_spec SHIFT shift x nd :
  0 < shift -> node_wf nd -> leaf_ok 0 (entries nd) -> 0 <= x < eh_entries nd ->
  Forall (movable (shift_by SHIFT shift)) (drop (Z.to_nat x) (entries nd)) ->
  leaf_ok 0 (moved (shift_by SHIFT shift) x nd) ->
  stands_for nd (shift_leaf SHIFT shift x nd) (moved (shift_by SHIFT shift) x nd).
Proof.
  intros Hs Hwf Hok Hx Hmv Ht. pose proof (length_entries nd Hwf) as Hlen.
  assert (Hp : Z.of_nat (length (take (Z.to_nat x) (entries nd))) = x) by (rewrite length_take; lia).
  assert (Hd : Z.of_nat (length (drop (Z.to_nat x) (entries nd))) = eh_entries nd - x) by (rewrite length_drop; lia).
  unfold shift_leaf, EXT_LAST, moved. destruct SHIFT; cbn [shift_by] in *.
  - rewrite <- Hp at 2. apply shift_left_loop_spec; try done; [by rewrite take_drop| |lia].
    rewrite <- (take_drop (Z.to_nat x) (entries nd)) in Hok. destruct (leaf_ok_drop _ _ _ Hok) as (c & _ & ?). by exists c.
  - rewrite <- (app_nil_r (_ <$> _)). rewrite <- Hp at 2.
    replace (eh_entries nd - 1) with
      (Z.of_nat (length (take (Z.to_nat x) (entries nd)) + length (drop (Z.to_nat x) (entries nd))) - 1) at 2 by lia.
    apply shift_right_loop_spec; [done|done|by rewrite app_nil_r, take_drop|by rewrite app_nil_r|lia].
Qed.

(** The parts of a leaf at a split. *)
Lemma split_parts nd x start :
  node_wf nd -> leaf_ok 0 (entries nd) -> split_at nd x start ->
  let l := take (Z.to_nat x) (entries nd) in let r := drop (Z.to_nat x) (entries nd) in
  entries nd = l ++ r /\ leaf_ok 0 l /\ (forall e, e ∈ l -> ee_block e < start) /\ leaf_ok start r.
Proof.
  intros Hwf Hok (Hx & Hlo & Hhi) l r. pose proof (length_entries nd Hwf) as Hlen.
  assert (He : entries nd = l ++ r) by (unfold l, r; by rewrite take_drop). rewrite He in Hok.
  split_and!; [done|by eapply leaf_ok_take| |].
  - intros e [i Hi]%list_elem_of_lookup. pose proof (lookup_lt_Some _ _ _ Hi) as Hlt. unfold l in *.
    rewrite length_take in Hlt. rewrite lookup_take_lt in Hi by lia.
    replace i with (Z.to_nat (Z.of_nat i)) in Hi by lia. rewrite entries_slot in Hi by (done || lia).
    injection Hi as <-. apply Hlo. lia.
  - destruct (leaf_ok_drop _ _ _ Hok) as (c & _ & Hr). destruct r as [|e r'] eqn:Er; [done|].
    assert (Hxl : x < eh_entries nd) by (apply (f_equal length) in Er; unfold r in Er; rewrite length_drop in Er; simpl in Er; lia).
    pose proof (drop_slot nd x Hwf ltac:(lia)) as Hd. fold r in Hd. rewrite Er in Hd. injection Hd as -> _.
    destruct Hr as (Ho & _ & Hr). split_and!; [done|apply Hhi; lia|done].
Qed.

Lemma movable_left shift start l :
  0 <= shift <= start -> leaf_ok start l -> Forall (movable (shift_by SHIFT_LEFT shift)) l.
Proof.
  intros Hs Hl. apply Forall_forall. intros e He. destruct (leaf_ok_elem _ _ e Hl He) as [Ho Hb].
  pose proof Ho as (? & ? & ?). cbn [shift_by]. split; [done|lia].
Qed.
Lemma movable_right shift start l :
  0 <= start -> 0 <= shift -> leaf_ok start l -> (forall e, e ∈ l -> ext_end e + shift < 2 ^ 32) ->
  Forall (movable (shift_by SHIFT_RIGHT shift)) l.
Proof.
  intros Hst Hs Hl Hf. apply Forall_forall. intros e He. destruct (leaf_ok_elem _ _ e Hl He) as [Ho Hb].
  specialize (Hf e He). cbn [shift_by]. split; [done|lia].
Qed.

(** ** Where the search and the walk split a leaf *)

(** The search for [start], moved on over a hole. *)
Lemma search_splits nd start :
  node_wf nd -> leaf_ok 0 (entries nd) -> 0 < eh_entries nd ->
  exists y, ext4_ext_binsearch nd start = Some y /\ 0 <= y < eh_entries nd /\
    split_at nd (if ee_block (slot nd y) <? start then y + 1 else y) start.
Proof.
  intros Hwf Hok Hn. destruct (binsearch_position nd 0 start Hwf Hok Hn) as (y & Hb & Hy & Hlo & Hhi).
  exists y. split_and!; [done|lia..|].
  assert (Hlt : forall i j, 0 <= i -> i < j -> j < eh_entries nd -> ee_block (slot nd i) < ee_block (slot nd j)).
  { intros i j Hi Hij Hj. pose proof (slot_sorted nd 0 i j Hwf Hok Hi Hij Hj).
    destruct (slot_ok nd 0 i Hwf Hok ltac:(lia)) as [(? & ? & ?) _]. unfold ext_end in *. lia. }
  destruct (Z.ltb_spec (ee_block (slot nd y)) start) as [Hy'|Hy'].
  - split_and!; [lia..| |].
    + intros i Hi. destruct (Z.eq_dec i y) as [->|]; [done|]. specialize (Hlt i y). lia.
    + intros i Hi. specialize (Hhi i ltac:(lia)). cbn beta in Hhi. lia.
  - split_and!; [lia..| |].
    + intros i Hi. specialize (Hlo y ltac:(lia)). cbn beta in Hlo. specialize (Hlt i y). lia.
    + intros i Hi. destruct (Z.eq_dec i y) as [->|]; [done|]. specialize (Hlt y i). lia.
Qed.

(** A leaf is split in one way. *)
Lemma split_unique nd x y start : split_at nd x start -> split_at nd y start -> x = y.
Proof.
  intros (Hx & Hx1 & Hx2) (Hy & Hy1 & Hy2). destruct (Z.lt_trichotomy x y) as [Hlt|[->|Hlt]]; [|done|].
  - specialize (Hy1 x ltac:(lia)). specialize (Hx2 x ltac:(lia)). lia.
  - specialize (Hx1 y ltac:(lia)). specialize (Hy2 y ltac:(lia)). lia.
Qed.

Lemma back_to_spec nd x start n :
  split_at nd x start -> 0 < x -> (x <= Z.of_nat n + 1) -> Z.of_nat n < eh_entries nd ->
  Z.of_nat (back_to nd start n) = x - 1.
Proof.
  intros (Hx & Hlo & Hhi) H0x. induction n as [|n IH]; intros Hn Hl; cbn [back_to]; [lia|].
  destruct (Z.leb_spec start (ee_block (slot nd (Z.of_nat (S n))))) as [Hle|Hlt].
  - apply IH; [|lia]. destruct (Z.lt_ge_cases (Z.of_nat (S n)) x) as [Hc|Hc]; [|lia].
    specialize (Hlo (Z.of_nat (S n)) ltac:(lia)). lia.
  - destruct (Z.lt_ge_cases (Z.of_nat (S n)) x) as [Hc|Hc]; [lia|].
    specialize (Hhi (Z.of_nat (S n)) ltac:(lia)). lia.
Qed.
End ShiftLeaf.
