(* ===== verification/ExtentShiftFlat.v ===== *)
(** * Shifting the extents of a tree of depth 0

    [ext4_ext_shift_extents] on an inode whose extents are in the inode itself: the check,
    the search for the leaf, the shift and the tries the journal asks for.  On top of
    ExtentShiftSpec.v. *)

From stdpp Require Import prelude list gmap strings.
From Stdlib Require Import ZArith Lia.
From S2P Require Import Prelude Kernel ExtentNode ExtentTree ExtentTreeSpec Layout Fs Namei EvfsExtent ExtentRemove.
From S2P Require Import ExtentRemoveSpec ExtentMapSpec ExtentShift ExtentShiftSpec.

Local Open Scope Z_scope.

Section ShiftFlat.
Context `{ExtFmtOk} `{Env} `{TreeEnv} `{RemoveEnv}.
Variables (k : nat) (rest : list res).
Hypothesis Hj : journal_ok.
Hypothesis Hk : restart_bound k.

(** Whether an error leads to another try. *)
Definition may_retry (h : list call) (err : Z) (h' : list call) : Prop :=
  err = - EAGAIN -> (credit_calls h < k /\ credit_calls h < credit_calls h')%nat.

(** One leaf, which is the root. *)
Lemma wp_shift_path p x shift SHIFT t held calls (Q : Z -> world xtree -> Prop) :
  ext_depth t = 0 -> eh_depth (shift_leaf SHIFT shift x (x_root t)) = eh_depth (x_root t) ->
  flat_path p (Some x) -> holds_sem rest held ->
  (forall err held' calls', holds_sem rest held' -> quiet calls calls' -> err <> 0 -> refused ->
     may_retry calls err calls' -> Q err (World t held' calls')) ->
  (forall t' held' calls', holds_sem rest held' -> quiet calls calls' ->
     same_nodes (set_node InRoot (shift_leaf SHIFT shift x (x_root t)) t) t' -> Q 0 (World t' held' calls')) ->
  wp (ext4_ext_shift_path_extents p shift SHIFT) Q (World t held calls).
Proof.
  intros Hd Hdl (Hl & Hpd & Hh & Hb & Hx) Hs Herr Hok. unfold ext4_ext_shift_path_extents. cbv zeta. rewrite Hpd, Hx.
  do 3 wp_step. apply (wp_datasem_credits k rest); [done..|]. intros ret held1 calls1 Hs1 Hq1 Hrf Hag.
  assert (Hq0 : quiet calls calls1) by (etrans; [|exact Hq1]; quiet_done).
  destruct (Z.eqb_spec ret 0) as [->|Hne]; cbn [negb].
  2:{ wp_step. apply Herr; [done|done| |by apply Hrf|].
      - destruct (Z.ltb_spec 0 ret); [done|lia].
      - intros He. assert (Hr : 0 < ret \/ ret = - EAGAIN) by (destruct (Z.ltb_spec 0 ret); lia).
        destruct (Hag Hr) as [Ha Hb']. rewrite !credit_calls_cons in Ha, Hb'. cbn in Ha, Hb'. lia. }
  wp_step. apply wp_get_access; [done|]. cbn [w_st w_held w_calls]. intros t1 calls2 Ht1 Hq2. cbn [Z.eqb negb].
  wp_step. unfold mod_leaf. do 2 wp_step. rewrite Hh. cbn [node_at]. rewrite (Ht1 InRoot : x_root t1 = x_root t).
  apply wp_dirty; [done|]. cbn [w_st w_held w_calls]. intros t2 calls3 Ht2 Hq3.
  change (0 - 1 <? 0) with true. cbn [Z.eqb negb orb]. wp_step. apply Hok; [done|by do 2 (etrans; [eassumption|])|].
  etrans; [|exact Ht2]. by apply same_nodes_set_node.
Qed.

(** *** The walk *)

Variables (start shift x : Z) (SHIFT : SHIFT_DIRECTION) (t0 : xtree).
Let nd0 : node := x_root t0.
Hypothesis Hkc : kcalloc_ok.
Hypothesis Hflat : flat t0.
Hypothesis Hshift : 0 < shift.
Hypothesis Hstart : 0 <= start.
Hypothesis Hsplit : split_at nd0 x start.
Hypothesis Hmv : Forall (movable (shift_by SHIFT shift)) (drop (Z.to_nat x) (entries nd0)).
Hypothesis Htarget : leaf_ok 0 (moved (shift_by SHIFT shift) x nd0).
(** A shift to the right starts at the first extent or behind it. *)
Hypothesis Hfirst : SHIFT = SHIFT_RIGHT -> ee_block (slot nd0 0) <= start.
Hypothesis Hn : 0 < eh_entries nd0.

Let stop : Z := ee_block (slot nd0 (EXT_LAST nd0)).

(** The tree after the shift. *)
Definition shifted (t : xtree) : Prop :=
  same_off InRoot t0 t /\ stands_for nd0 (x_root t) (moved (shift_by SHIFT shift) x nd0).

(** The variables at the start of a try. *)
Definition fresh (s : shifting) : Prop :=
  flat_arg (Some (sh_path s)) /\ sh_start s = start /\ sh_stop s = stop /\ sh_live s = true /\
  (sh_tmp s = EXT_MAX_BLOCKS \/ sh_tmp s = iterator SHIFT s).

(** No leaf is left. *)
Definition finished (s : shifting) : Prop :=
  (exists ex, flat_path (sh_path s) ex) /\ sh_live s && (sh_start s <=? sh_stop s) = false.

(** After a failed leaf the variables can be set back. *)
Definition failed_leaf (s : shifting) : Prop :=
  (exists ex, flat_path (sh_path s) ex) /\ 0 <= p_maxdepth (pnth (sh_path s) 0) /\
  sh_tmp s <> EXT_MAX_BLOCKS /\ fresh (set_iterator SHIFT (sh_tmp s) (set_sh_live true s)).

Lemma shifted_moved t : same_nodes (set_node InRoot (shift_leaf SHIFT shift x nd0) t0) t -> x < eh_entries nd0 -> shifted t.
Proof.
  intros Ht Hx. destruct Hflat as [_ Hwf Hok]. destruct Hsplit as [Hxr _]. split.
  - intros l Hl. by rewrite (Ht l), node_at_set_node_ne by done.
  - rewrite (Ht InRoot : x_root t = _). apply shift_leaf_spec; try done. lia.
Qed.

(** Nothing is to be moved. *)
Lemma shifted_none : x = eh_entries nd0 -> shifted t0.
Proof.
  intros ->. destruct Hflat as [_ Hwf Hok]. pose proof (length_entries nd0 Hwf) as Hlen. split; [done|].
  unfold moved. rewrite drop_ge, take_ge by lia. cbn [fmap list_fmap]. rewrite app_nil_r. by apply stands_for_same.
Qed.

Lemma stop_spec : 0 <= stop < EXT_MAX_BLOCKS /\ (start <= stop <-> x < eh_entries nd0).
Proof.
  destruct Hflat as [_ Hwf Hok]. destruct Hsplit as (Hx & Hlo & Hhi). subst stop. unfold EXT_LAST.
  destruct (slot_ok nd0 0 (eh_entries nd0 - 1) Hwf Hok ltac:(lia)) as [(? & ? & ?) _]. unfold ext_end in *.
  rewrite fmt_max_blocks. split; [lia|]. split; intros Hc.
  - destruct (Z.lt_ge_cases x (eh_entries nd0)) as [|Hge]; [done|]. specialize (Hlo (eh_entries nd0 - 1) ltac:(lia)). lia.
  - apply Hhi. lia.
Qed.

Lemma flat_path_at p ex y : flat_path p ex -> flat_path (pset p 0 (set_p_ext (Some y) (pnth p 0))) (Some y).
Proof. intros (Hl & Hd & Hh & Hb & _). split_and!; rewrite ?length_pset, ?pnth_pset_eq by lia; done. Qed.

(** The leaf found is the one to be shifted, from slot [x] on. *)
Lemma next_leaf_at p s :
  x < eh_entries nd0 -> sh_start s = start ->
  exists y, ext4_ext_binsearch nd0 (iterator SHIFT s) = Some y /\
    (SHIFT = SHIFT_LEFT -> (ee_block (slot nd0 y) <? start) && (EXT_LAST nd0 <=? y) = false) /\
    let y' := if bool_decide (SHIFT = SHIFT_LEFT) && (ee_block (slot nd0 y) <? start) then y + 1 else y in
    exists s', next_leaf SHIFT nd0 y' (set_sh_tmp (iterator SHIFT s) (set_sh_path p s)) = Some (x, s') /\
      sh_tmp s' = iterator SHIFT s /\
      set_iterator SHIFT (iterator SHIFT s) (set_sh_live (sh_live s) s') = set_sh_tmp (iterator SHIFT s) (set_sh_path p s) /\
      (sh_stop s = stop -> sh_live s' && (sh_start s' <=? sh_stop s') = false).
Proof.
  intros Hx Hst. destruct Hflat as [_ Hwf Hok]. fold nd0 in Hwf, Hok. pose proof Hsplit as (Hxr & Hlo & Hhi).
  destruct (slot_ok nd0 0 (EXT_LAST nd0) Hwf Hok) as [(? & ? & ?) _]; [unfold EXT_LAST; lia|].
  destruct SHIFT eqn:ESH; cbn [iterator bool_decide].
  - rewrite Hst. destruct (search_splits nd0 start Hwf Hok Hn) as (y & Hb & Hy & Hsp).
    pose proof (split_unique _ _ _ _ Hsplit Hsp) as Ex. exists y. split; [done|].
    change (bool_decide (SHIFT_LEFT = SHIFT_LEFT)) with true. cbn [andb]. rewrite <- Ex.
    split; [intros _; destruct (ee_block (slot nd0 y) <? start); [|done]; apply Z.leb_gt; unfold EXT_LAST; lia|].
    eexists. split; [reflexivity|]. split_and!; [done|by destruct s; simpl in *; subst|].
    cbn [set_iterator set_sh_tmp set_sh_path sh_start sh_stop sh_live]. intros ->. unfold ext_end in *.
    rewrite u32_small by lia. subst stop. rewrite (proj2 (Z.leb_gt _ _)) by lia. apply andb_false_r.
  - destruct (binsearch_position nd0 0 (sh_stop s) Hwf Hok Hn) as (y & Hb & _). exists y. split; [done|]. split; [done|].
    change (bool_decide (SHIFT_RIGHT = SHIFT_LEFT)) with false. cbn [andb next_leaf set_sh_tmp set_sh_path sh_start].
    specialize (Hfirst eq_refl). rewrite Hst, (proj2 (Z.ltb_ge _ _)) by lia.
    exists (set_sh_live false (set_sh_tmp (sh_stop s) (set_sh_path p s))).
    assert (Hres : next_leaf SHIFT_RIGHT nd0 y (set_sh_tmp (sh_stop s) (set_sh_path p s)) =
      Some (x, set_sh_live false (set_sh_tmp (sh_stop s) (set_sh_path p s)))); [|].
    { cbn [next_leaf set_sh_tmp set_sh_path sh_start]. rewrite Hst, (proj2 (Z.ltb_ge _ _)) by lia.
      destruct (Z.eqb_spec (ee_block (slot nd0 0)) start) as [He|He].
      - destruct (Z.eq_dec x 0) as [->|]; [done|]. specialize (Hlo 0 ltac:(lia)). lia.
      - destruct (Z.eq_dec x 0) as [->|Hx0]; [specialize (Hhi 0 ltac:(lia)); lia|].
        rewrite (back_to_spec nd0 x start) by (done || unfold EXT_LAST; lia).
        unfold EXT_LAST. rewrite (proj2 (Z.eqb_neq _ _)) by lia. by replace (x - 1 + 1) with x by lia. }
    cbn [next_leaf set_sh_tmp set_sh_path sh_start] in Hres. rewrite Hst, (proj2 (Z.ltb_ge _ _)) in Hres by lia.
    split; [exact Hres|]. split_and!; [done|by destruct s|done].
Qed.

Lemma live_iff s : fresh s -> sh_live s && (sh_start s <=? sh_stop s) = true <-> x < eh_entries nd0.
Proof.
  intros (_ & -> & -> & -> & _). cbn [andb]. rewrite Z.leb_le. by destruct stop_spec as [_ ->].
Qed.

(** What a try leaves. *)
Definition try_post (calls : list call) (r : shift_exit) (w : world xtree) : Prop :=
  holds_sem rest (w_held w) /\ quiet calls (w_calls w) /\
  match r with
  | inl _ => False
  | inr (err, s) =>
      (exists ex, flat_path (sh_path s) ex) /\
      (err = 0 /\ shifted (w_st w) \/
       err <> 0 /\ w_st w = t0 /\ refused /\ failed_leaf s /\ may_retry calls err (w_calls w))
  end.

Definition try_inv (calls : list call) (s : shifting) (w : world xtree) : Prop :=
  holds_sem rest (w_held w) /\ quiet calls (w_calls w) /\
  (fresh s /\ w = World t0 (w_held w) calls \/ finished s /\ shifted (w_st w)).

Lemma fresh_flat s : fresh s -> exists ex, flat_path (sh_path s) ex.
Proof. by intros [[Hp _] _]. Qed.

Lemma failed_leaf_at p y s s' :
  fresh s -> flat_path p y -> 0 <= p_maxdepth (pnth p 0) -> sh_tmp s' = iterator SHIFT s -> x < eh_entries nd0 ->
  set_iterator SHIFT (iterator SHIFT s) (set_sh_live (sh_live s) s') = set_sh_tmp (iterator SHIFT s) (set_sh_path p s) ->
  failed_leaf (set_sh_path (pset p 0 (set_p_ext (Some x) (pnth p 0))) s').
Proof.
  intros (_ & Hst & Hsp & Hlv & _) Hfp Hmd Ht Hx Heq. pose proof stop_spec as [Hstop Hle]. pose proof Hfp as (Hlen & _).
  rewrite Hlv in Heq. split_and!.
  - eexists. cbn [sh_path set_sh_path]. by apply (flat_path_at p y).
  - cbn [sh_path set_sh_path]. by rewrite pnth_pset_eq by lia.
  - cbn [sh_tmp set_sh_path]. rewrite Ht. destruct SHIFT; cbn [iterator]; lia.
  - cbn [sh_tmp set_sh_path]. rewrite Ht. pose proof (f_equal sh_start Heq) as E1. pose proof (f_equal sh_stop Heq) as E2.
    pose proof (f_equal sh_live Heq) as E3. pose proof (f_equal sh_tmp Heq) as E4.
    assert (Hpath : flat_arg (Some (pset p 0 (set_p_ext (Some x) (pnth p 0))))).
    { split; [eexists; by apply (flat_path_at p y)|by rewrite pnth_pset_eq by lia]. }
    unfold fresh. destruct SHIFT; split_and!; cbn in *; try congruence; try apply Hpath; right; congruence.
Qed.

Lemma wp_shift_round calls s w : try_inv calls s w ->
  wp (shift_round shift SHIFT s)
    (round_ok (try_inv calls) (fun s _ => if sh_live s && (sh_start s <=? sh_stop s) then 1 else 0) (try_post calls)
       ((if sh_live s && (sh_start s <=? sh_stop s) then 1 else 0) - 1)) w.
Proof.
  intros (Hs & Hq & [[Hf Hw]|[[Hp Hdone] Hsh]]); unfold shift_round.
  2:{ rewrite Hdone. cbn [negb]. wp_step. split_and!; [done|done|done|by left]. }
  pose proof (live_iff s Hf) as Hlive. pose proof Hf as (Harg & Hst & Hsp & Hlv & _).
  destruct (sh_live s && (sh_start s <=? sh_stop s)) eqn:El; cbn [negb].
  2:{ wp_step. split_and!; [done|done|by apply fresh_flat|left]. split; [done|]. rewrite Hw. cbn [w_st].
      apply shifted_none. pose proof Hsplit as (? & _). destruct (Z.lt_ge_cases x (eh_entries nd0)) as [Hlt|]; [|lia].
      by apply Hlive in Hlt. }
  destruct w as [t held h]. injection Hw as -> ->. cbn [w_held] in Hs. clear Hq.
  destruct (proj1 Hlive eq_refl) as []. assert (Hx : x < eh_entries nd0) by by apply Hlive.
  pose proof Hflat as [Hd Hwf Hok]. wp_step. apply wp_find_flat_arg; [done..|]. intros p calls1 Hfp Hmd Hq1.
  destruct (next_leaf_at p s Hx Hst) as (y & Hb & Hnh & Hnl). fold nd0 in Hfp. rewrite Hb in Hfp.
  do 2 wp_step. pose proof Hfp as (Hlen & Hpd & Hh & _ & Hpx). rewrite Hpd, Hpx, Hh. cbn [node_at]. fold nd0.
  assert (Hhole : bool_decide (SHIFT = SHIFT_LEFT) && (ee_block (slot nd0 y) <? iterator SHIFT s) && (EXT_LAST nd0 <=? y) = false).
  { destruct (bool_decide_reflect (SHIFT = SHIFT_LEFT)) as [E|]; [|done]. specialize (Hnh E). rewrite E. cbn [iterator andb]. by rewrite Hst. }
  rewrite Hhole.
  assert (Hy : (if bool_decide (SHIFT = SHIFT_LEFT) && (ee_block (slot nd0 y) <? iterator SHIFT s) then y + 1 else y) =
    (if bool_decide (SHIFT = SHIFT_LEFT) && (ee_block (slot nd0 y) <? start) then y + 1 else y)).
  { destruct (bool_decide_reflect (SHIFT = SHIFT_LEFT)) as [E|]; [|done]. rewrite E. cbn [iterator]. by rewrite Hst. }
  rewrite Hy. destruct Hnl as (s' & Hnl & Htmp & Hback & Hfin). rewrite Hnl. clear Hnl Hy Hhole Hnh.
  wp_step. apply (wp_shift_path _ x); [done| |by apply (flat_path_at p (Some y))|done| |].
  { pose proof Hsplit as (? & _). destruct (shift_leaf_spec SHIFT shift x nd0) as (_ & _ & Hdl & _); [done|done|done|lia|done|done|exact Hdl]. }
  - intros err held' calls' Hs' Hq' He Hrf Hag. wp_step. rewrite (proj2 (Z.eqb_neq err 0)) by done. cbn [negb round_ok].
    split_and!; [done|cbn [w_calls]; by etrans| |].
    + eexists. cbn [sh_path set_sh_path]. by apply (flat_path_at p (Some y)).
    + right. split_and!; [done|done|done| |].
      * eapply failed_leaf_at; done.
      * intros E. destruct (Hag E) as [Ha Hb']. destruct Hq1 as (_ & ? & _). cbn [w_calls]. lia.
  - intros t' held' calls' Hs' Hq' Ht'. wp_step. cbn [negb Z.eqb round_ok sh_live sh_start sh_stop set_sh_path].
    rewrite (Hfin Hsp). split; [|lia]. split_and!; [done|cbn [w_calls]; by etrans|right].
    split; [|by apply shifted_moved]. split; [eexists; cbn [sh_path set_sh_path]; by apply (flat_path_at p (Some y))|].
    by apply Hfin.
Qed.

(** The variables after [again]. *)
Definition reset (s : shifting) : shifting :=
  let s := set_sh_live true s in
  if negb (sh_tmp s =? EXT_MAX_BLOCKS) then set_iterator SHIFT (sh_tmp s) s else s.

(** What the shift leaves in the end. *)
Definition tried (calls : list call) (err : Z) (w : world xtree) : Prop :=
  holds_sem rest (w_held w) /\ quiet calls (w_calls w) /\
  (err = 0 /\ shifted (w_st w) \/ err <> 0 /\ w_st w = t0 /\ refused).

Lemma wp_shift_again n : forall s held calls,
  (0 < n)%nat -> (k < credit_calls calls + n)%nat -> fresh (reset s) -> holds_sem rest held ->
  wp (shift_again n shift SHIFT s) (tried calls) (World t0 held calls).
Proof.
  induction n as [|n IH]; intros s held calls Hpos Hcr Hf Hs; [lia|]. cbn [shift_again]. fold (reset s).
  wp_step. apply (wp_mono _ (try_post calls)).
  { eapply wp_kloop; [apply wp_shift_round|split_and!; [done|done|by left]|].
    cbn beta. match goal with |- (if ?b then _ else _) < _ => destruct b end; reflexivity. }
  intros [|[err s']] [t held' calls']; [by intros (_ & _ & [])|]. intros (Hs' & Hq & [ex Hfp] & Hres). cbn [w_st w_held w_calls] in *.
  destruct Hres as [[-> Hsh]|(He & -> & Hrf & (_ & _ & Htmp & Hfl) & Hag)].
  - change (0 =? - EAGAIN) with false. cbn match. wp_step. eapply wp_free_flat; [exact Hfp|]. wp_step. split_and!; [done|done|by left].
  - destruct (Z.eqb_spec err (- EAGAIN)) as [E|].
    + destruct (Hag E) as [Ha Hb]. eapply wp_mono; [apply IH; [lia|lia| |done]|].
      * unfold reset. cbn [sh_tmp set_sh_live]. by rewrite (proj2 (Z.eqb_neq _ _)) by done.
      * intros err' w' (? & ? & ?). split_and!; [done|by etrans|done].
    + wp_step. eapply wp_free_flat; [exact Hfp|]. wp_step. split_and!; [done|done|right; done].
Qed.

Lemma wp_shift_from p n held calls :
  flat_arg (Some p) -> (0 < n)%nat -> (k < credit_calls calls + n)%nat -> holds_sem rest held ->
  wp (shift_again n shift SHIFT (Shifting p start stop EXT_MAX_BLOCKS true)) (tried calls) (World t0 held calls).
Proof.
  intros Hp Hpos Hcr Hs. apply wp_shift_again; [done..| |done]. unfold reset. cbn [sh_tmp set_sh_live].
  rewrite Z.eqb_refl. cbn [negb]. split; [exact Hp|]. split_and!; [done|done|done|by left].
Qed.
End ShiftFlat.

(** ** The whole shift *)

Section ShiftExtents.
Context `{ExtFmtOk} `{Env} `{TreeEnv} `{RemoveEnv}.

(** A flat tree with another map. *)
Definition remapped (t : xtree) (m : Z -> option (Z * bool)) (t' : xtree) : Prop :=
  flat t' /\ same_off InRoot t t' /\ eh_max (x_root t') = eh_max (x_root t) /\
  forall b, mapping (entries (x_root t')) b = m b.

Lemma shifted_remapped shift x SHIFT t m t' :
  flat t -> shifted shift x SHIFT t t' -> leaf_ok 0 (moved (shift_by SHIFT shift) x (x_root t)) ->
  (forall b, mapping (moved (shift_by SHIFT shift) x (x_root t)) b = m b) -> remapped t m t'.
Proof.
  intros [Hd _ _] [Ho (Hwf & Hmax & Hdp & Hok & Hmap)] Ht Hm. split_and!; [|done|done|].
  - split; [unfold ext_depth in *; congruence|done|by apply Hok].
  - intros b. by rewrite (Hmap 0).
Qed.

Lemma remapped_same t m : flat t -> (forall b, mapping (entries (x_root t)) b = m b) -> remapped t m t.
Proof. intros Hf Hm. by split_and!. Qed.

(** The extent a lookup in the root ends at. *)
Lemma path_extent_flat t p y : flat_path p y -> path_extent t p = slot (x_root t) <$> y.
Proof. intros (_ & Hd & Hh & _ & Hx). unfold path_extent. by rewrite Hd, Hh, Hx. Qed.

Lemma flat_arg_found p y : flat_path p y -> 0 <= p_maxdepth (pnth p 0) -> flat_arg (Some p).
Proof. intros Hp Hm. split; [by eexists|done]. Qed.

(** What a shift leaves: the new map, or the old tree after an error of the journal. *)
Definition extents_shifted (rest : list res) (t : xtree) (calls : list call) (m : Z -> option (Z * bool))
    (err : Z) (w : world xtree) : Prop :=
  holds_sem rest (w_held w) /\ quiet calls (w_calls w) /\
  (err = 0 /\ remapped t m (w_st w) \/ err <> 0 /\ w_st w = t /\ refused).

(** The lookup of the last extent. *)
Lemma last_found nd : node_wf nd -> leaf_ok 0 (entries nd) -> 0 < eh_entries nd ->
  ext4_ext_binsearch nd (EXT_MAX_BLOCKS - 1) = Some (EXT_LAST nd).
Proof.
  intros Hwf Hok Hn. destruct (binsearch_position nd 0 (EXT_MAX_BLOCKS - 1) Hwf Hok Hn) as (y & -> & Hy & _ & Hhi).
  f_equal. unfold EXT_LAST. destruct (Z.eq_dec y (eh_entries nd - 1)) as [|Hne]; [done|].
  specialize (Hhi (eh_entries nd - 1) ltac:(lia)). cbn beta in Hhi. rewrite fmt_max_blocks in Hhi.
  destruct (slot_ok nd 0 (eh_entries nd - 1) Hwf Hok ltac:(lia)) as [(? & ? & ?) _]. unfold ext_end in *. lia.
Qed.

Lemma slot_last nd e : node_wf nd -> leaf_ok 0 (entries nd) -> e ∈ entries nd ->
  ext_end e <= ext_end (slot nd (EXT_LAST nd)).
Proof.
  intros Hwf Hok [i Hi]%list_elem_of_lookup. pose proof (lookup_lt_Some _ _ _ Hi) as Hlt.
  pose proof (length_entries nd Hwf) as Hlen. replace i with (Z.to_nat (Z.of_nat i)) in Hi by lia.
  rewrite entries_slot in Hi by (done || lia). injection Hi as <-. unfold EXT_LAST.
  destruct (Z.eq_dec (Z.of_nat i) (eh_entries nd - 1)) as [->|Hne]; [done|].
  pose proof (slot_sorted nd 0 (Z.of_nat i) (eh_entries nd - 1) Hwf Hok ltac:(lia) ltac:(lia) ltac:(lia)).
  destruct (slot_ok nd 0 (eh_entries nd - 1) Hwf Hok ltac:(lia)) as [(? & ? & ?) _]. unfold ext_end in *. lia.
Qed.

(** No block of the hole is mapped: the extents before it end there. *)
Lemma hole_ends nd start shift e :
  leaf_ok 0 (entries nd) -> 0 < shift <= start -> (forall b, start - shift <= b < start -> mapping (entries nd) b = None) ->
  e ∈ entries nd -> ee_block e < start -> ext_end e <= start - shift.
Proof.
  intros Hok Hs Hh Hin Hb. destruct (Z.le_gt_cases (ext_end e) (start - shift)) as [|Hgt]; [done|exfalso].
  pose proof (leaf_ok_elem 0 _ e Hok Hin) as [(? & ? & ?) _]. unfold ext_end in *.
  specialize (Hh (Z.max (ee_block e) (start - shift)) ltac:(lia)). rewrite (mapping_covered 0 _ e _ Hok Hin) in Hh; [done|].
  apply covers_spec. unfold ext_end. lia.
Qed.

Section Both.
Variables (k n : nat) (rest : list res) (t : xtree) (held : list res) (calls : list call) (start shift : Z).
Hypothesis Hfl : flat t.
Hypothesis Hshift : 0 < shift.
Hypothesis Hj : journal_ok.
Hypothesis Hkc : kcalloc_ok.
Hypothesis Hk : restart_bound k.
Hypothesis Hpos : (0 < n)%nat.
Hypothesis Hcr : (k < credit_calls calls + n)%nat.
Hypothesis Hsem : holds_sem rest held.

(** An empty tree, and the last extent of another. *)
Lemma wp_shift_start SHIFT (Q : Z -> world xtree -> Prop) :
  (forall calls', quiet calls calls' -> eh_entries (x_root t) = 0 -> Q 0 (World t held calls')) ->
  (forall p calls', quiet calls calls' -> 0 < eh_entries (x_root t) -> flat_arg (Some p) ->
     let last := slot (x_root t) (EXT_LAST (x_root t)) in
     wp (r <~ shift_fits start shift SHIFT last p;;
         match r with
         | inl err => kret err
         | inr (false, p) => ext4_free_ext_path (Some p);;; kret (- EINVAL)
         | inr (true, p) => shift_again n shift SHIFT (Shifting p start (ee_block last) EXT_MAX_BLOCKS true)
         end) Q (World t held calls')) ->
  wp (ext4_ext_shift_extents n start shift SHIFT) Q (World t held calls).
Proof.
  intros Hnone Hsome. unfold ext4_ext_shift_extents. wp_step. destruct Hfl as [Hd Hwf Hok].
  apply wp_find_flat_arg; [done..|]. intros p calls1 Hfp Hmd Hq. do 2 wp_step.
  rewrite (path_extent_flat _ _ _ Hfp). destruct (Z.eq_dec (eh_entries (x_root t)) 0) as [Hz|Hz].
  - replace (ext4_ext_binsearch (x_root t) (EXT_MAX_BLOCKS - 1)) with (@None Z) by (unfold ext4_ext_binsearch; by rewrite Hz).
    cbn [fmap option_fmap option_map]. wp_step. eapply wp_free_flat; [exact Hfp|]. wp_step. by apply Hnone.
  - assert (0 < eh_entries (x_root t)) by (destruct Hwf as (? & ? & ?); lia).
    rewrite last_found by done. cbn [fmap option_fmap option_map]. apply Hsome; [done..|by eapply flat_arg_found].
Qed.

(** A shift to the left over a hole of at least [shift] blocks. *)
Lemma wp_shift_left :
  shift <= start -> start < 2 ^ 32 -> (forall b, start - shift <= b < start -> mapping (entries (x_root t)) b = None) ->
  wp (ext4_ext_shift_extents n start shift SHIFT_LEFT)
    (extents_shifted rest t calls (shifted_left (mapping (entries (x_root t))) start shift)) (World t held calls).
Proof.
  intros Hss Hs32 Hhole. pose proof Hfl as [Hd Hwf Hok]. set (nd := x_root t) in *. apply wp_shift_start.
  { intros calls' Hq Hz. split_and!; [done|done|left]. split; [done|]. apply remapped_same; [done|]. intros b. cbn [w_st]. fold nd in Hz |- *.
    assert (Hnil : entries nd = []) by (unfold entries; by rewrite Hz). unfold shifted_left. rewrite Hnil. by destruct (_ <? _). }
  intros p calls1 Hq1 Hn Hp last. fold nd in Hn, last. wp_step. unfold shift_fits. wp_step.
  apply wp_find_flat_arg; [done..|]. intros p2 calls2 Hfp Hmd Hq2. do 2 wp_step. rewrite (path_extent_flat _ _ _ Hfp). fold nd.
  destruct (search_splits nd start Hwf Hok Hn) as (y0 & _ & _ & Hsp).
  set (x := if ee_block (slot nd y0) <? start then y0 + 1 else y0) in *. clearbody x. clear y0.
  destruct (split_parts nd x start Hwf Hok Hsp) as (He & Hl & Hlo & Hr).
  set (l := take (Z.to_nat x) (entries nd)) in *. set (r := drop (Z.to_nat x) (entries nd)) in *.
  assert (Hends : forall e, e ∈ entries nd -> ee_block e < start -> ext_end e <= start - shift).
  { intros e Hin Hb. by eapply hole_ends. }
  assert (Hends' : forall e, e ∈ l -> ext_end e <= start - shift).
  { intros e Hin. apply Hends; [rewrite He; set_solver|by apply Hlo]. }
  pose proof (movable_left shift start r ltac:(lia) Hr) as Hmv.
  destruct (shift_left_target l r start shift ltac:(lia) Hl Hr Hmv ltac:(lia) Hends') as [Ht Hm].
  destruct (binsearch_position nd 0 (u32 (start - 1)) Hwf Hok Hn) as (y & -> & Hy & _ & Hhi). rewrite u32_small in Hhi by lia.
  cbn [fmap option_fmap option_map]. destruct (slot_ok nd 0 y Hwf Hok Hy) as [(Hy0 & Hyl & Hye) _].
  pose proof (Hends (slot nd y) (list_elem_of_lookup_2 _ _ _ (entries_slot nd y Hwf Hy))) as Hend.
  unfold ext_end in Hye, Hend. rewrite (u32_small (ee_block (slot nd y) + _)) by lia. wp_step.
  assert ((start =? ee_block (slot nd y)) && (ee_block (slot nd y) <? shift) ||
    (u32 (start - (ee_block (slot nd y) + ext4_ext_get_actual_len (slot nd y))) <? shift) = false) as ->.
  { apply orb_false_iff. split; [apply andb_false_iff; rewrite Z.eqb_neq, Z.ltb_ge; lia|]. apply Z.ltb_ge.
    set (ye := ee_block (slot nd y) + ext4_ext_get_actual_len (slot nd y)) in *.
    destruct (Z.lt_ge_cases (ee_block (slot nd y)) start) as [Hlt|Hge]; [rewrite u32_small; lia|].
    replace (u32 (start - ye)) with (start - ye + 2 ^ 32); [lia|]. unfold u32, wrap. symmetry. rewrite <- (Z_mod_plus_full _ 1). apply Z.mod_small. lia. }
  cbn [negb]. eapply wp_mono.
  { apply (wp_shift_from k rest Hj Hk start shift x SHIFT_LEFT t); try done; [by eapply flat_arg_found|].
    destruct Hq1 as (_ & ? & _), Hq2 as (_ & ? & _). lia. }
  intros err w (Hs' & Hq' & Hres). split_and!; [done|by do 2 (etrans; [eassumption|])|].
  destruct Hres as [[-> Hsh]|Hres]; [left|by right]. split; [done|]. eapply shifted_remapped; [done|exact Hsh|exact Ht|].
  intros b. unfold moved. cbn [shift_by]. fold nd l r. by rewrite Hm, <- He.
Qed.

(** The last block after a shift to the right. *)
Definition overflows (nd : node) : Prop := EXT_MAX_BLOCKS < ext_end (slot nd (EXT_LAST nd)) + shift.

(** A shift to the right at a block where no extent is cut, not before the first one. *)
Lemma wp_shift_right :
  0 <= start -> (forall e, e ∈ entries (x_root t) -> ee_block e < start -> ext_end e <= start) ->
  (0 < eh_entries (x_root t) -> ee_block (slot (x_root t) 0) <= start) ->
  wp (ext4_ext_shift_extents n start shift SHIFT_RIGHT)
    (fun err w => extents_shifted rest t calls (shifted_right (mapping (entries (x_root t))) start shift) err w \/
       err = - EINVAL /\ w_st w = t /\ holds_sem rest (w_held w) /\ quiet calls (w_calls w) /\
       0 < eh_entries (x_root t) /\ overflows (x_root t))
    (World t held calls).
Proof.
  intros Hst Hcut Hfst. pose proof Hfl as [Hd Hwf Hok]. set (nd := x_root t) in *. apply wp_shift_start.
  { intros calls' Hq Hz. left. split_and!; [done|done|left]. split; [done|]. apply remapped_same; [done|]. intros b.
    cbn [w_st]. fold nd in Hz |- *.
    assert (Hnil : entries nd = []) by (unfold entries; by rewrite Hz). unfold shifted_right. rewrite Hnil.
    by destruct (b <? start), (b <? start + shift). }
  intros p calls1 Hq1 Hn Hp last. fold nd in Hn, last. wp_step. unfold shift_fits. wp_step.
  destruct (slot_ok nd 0 (EXT_LAST nd) Hwf Hok) as [(Hb0 & Hl0 & He0) _]; [unfold EXT_LAST; lia|].
  assert (Hend : u32 (EXT_MAX_BLOCKS - u32 (ee_block last + ext4_ext_get_actual_len last)) = EXT_MAX_BLOCKS - ext_end last).
  { unfold ext_end, last in *. rewrite fmt_max_blocks. rewrite (u32_small (ee_block _ + _)), u32_small by lia. done. }
  rewrite Hend. destruct (Z.ltb_spec (EXT_MAX_BLOCKS - ext_end last) shift) as [Hov|Hfit]; cbn [negb].
  { wp_step. pose proof Hp as [[ex Hfp] _]. eapply wp_free_flat; [exact Hfp|]. wp_step. right.
    split_and!; try done. unfold overflows. fold last. lia. }
  destruct (search_splits nd start Hwf Hok Hn) as (y0 & _ & _ & Hsp).
  set (x := if ee_block (slot nd y0) <? start then y0 + 1 else y0) in *. clearbody x. clear y0.
  destruct (split_parts nd x start Hwf Hok Hsp) as (He & Hl & Hlo & Hr).
  set (l := take (Z.to_nat x) (entries nd)) in *. set (r := drop (Z.to_nat x) (entries nd)) in *.
  assert (Hmv : Forall (movable (shift_by SHIFT_RIGHT shift)) r).
  { apply (movable_right _ start); [done|lia|done|]. intros e Hin. rewrite fmt_max_blocks in Hfit.
    pose proof (slot_last nd e Hwf Hok ltac:(rewrite He; set_solver)) as Hle. fold last in Hle. lia. }
  destruct (shift_right_target l r start shift) as [Ht Hm]; [lia|done..| |].
  { intros e Hin. apply Hcut; [rewrite He; set_solver|by apply Hlo]. }
  eapply wp_mono.
  { apply (wp_shift_from k rest Hj Hk start shift x SHIFT_RIGHT t); try done; [intros _; by apply Hfst|].
    destruct Hq1 as (_ & ? & _). lia. }
  intros err w (Hs' & Hq' & Hres). left. split_and!; [done|by etrans|].
  destruct Hres as [[-> Hsh]|Hres]; [left|by right]. split; [done|]. eapply shifted_remapped; [done|exact Hsh|exact Ht|].
  intros b. unfold moved. cbn [shift_by]. fold nd l r. by rewrite Hm, <- He.
Qed.
End Both.
End ShiftExtents.
