(* ===== verification/Falloc.v ===== *)
(** * Collapsing, inserting, preallocating and truncating (fs/ext4/extents.c)

    The handlers behind fallocate: [ext4_collapse_range], [ext4_insert_range],
    [ext4_zero_range], [ext4_alloc_file_blocks] and [ext4_fallocate], and
    [ext4_ext_truncate].  They run on the state of the file system: the inode with its size
    and its extent tree ([in_file] runs a computation of the extent tree on it).

    Functions of inode.c and inline.c that change the inode are the class [FallocOps];
    answers of the page cache and the journal are those of [Env].  An offset is a [loff_t]:
    a sum wraps at 64 bits with a sign. *)

From stdpp Require Import prelude list gmap strings.
From Stdlib Require Import ZArith Lia.
From S2P Require Import Prelude Kernel Layout ExtentNode ExtentTree ExtentMap Fs Namei Mkdir EvfsExtent ExtentRemove ExtentShift.

Local Open Scope string_scope.
Local Open Scope Z_scope.

Definition EOPNOTSUPP : Z := 95.
Definition EFBIG : Z := 27.
Definition EXT4_INODE_EXTENTS : Z := 19.
Definition EXT4_GET_BLOCKS_CREATE_UNWRIT_EXT : Z := Z.lor EXT4_GET_BLOCKS_UNWRIT_EXT EXT4_GET_BLOCKS_CREATE.
Definition FALLOC_FL_KEEP_SIZE : Z := 0x01.
Definition FALLOC_FL_PUNCH_HOLE : Z := 0x02.
Definition FALLOC_FL_COLLAPSE_RANGE : Z := 0x08.
Definition FALLOC_FL_ZERO_RANGE : Z := 0x10.
Definition FALLOC_FL_INSERT_RANGE : Z := 0x20.

(** Alignments to a power of two. *)
Definition IS_ALIGNED (x a : Z) : bool := Z.land x (a - 1) =? 0.
Definition round_down (x a : Z) : Z := Z.land x (Z.lnot (a - 1)).
Definition round_up (x a : Z) : Z := s64 (Z.lor (x - 1) (a - 1) + 1).

(** [EXT4_MAX_BLOCKS], of loff_t arguments: the blocks a range touches. *)
Definition EXT4_BLOCK_ALIGN (size blkbits : Z) : Z :=
  Z.land (s64 (size + (2 ^ blkbits - 1))) (Z.lnot (2 ^ blkbits - 1)).
Definition EXT4_MAX_BLOCKS (size offset blkbits : Z) : Z :=
  Z.shiftr (EXT4_BLOCK_ALIGN (s64 (size + offset)) blkbits) blkbits - Z.shiftr offset blkbits.

Definition set_disksize (n : Z) (i : inode) : inode :=
  Inode (i_mode i) (i_nlink i) (i_uid i) (i_gid i) (i_rdev i) (i_version i) (i_size i)
    (i_blocks i) (i_atime i) (i_mtime i) (i_ctime i) (i_generation i) (i_noquota i) (i_crtime i)
    n (i_flags i) (i_file_acl i) (i_dtime i) (i_block_group i)
    (i_last_alloc_group i) (i_dir_start_lookup i) (i_csum_seed i) (i_tree i) (i_dir i).

(** Constants and flags outside the state: the page size, [sb->s_maxbytes], the quota
    credits, encrypted inodes, whether there is a journal. *)
Class FallocEnv := {
  PAGE_SIZE : Z;
  sb_maxbytes : Z;
  fa_quota_credits : Z;
  IS_ENCRYPTED : Z -> bool;
  has_journal : bool
}.

(** inode.c and inline.c, on the inode of the given number: [ext4_map_blocks] answers the
    number of blocks mapped or an error, with the length of the map after the call. *)
Class FallocOps := {
  ext4_map_blocks : Z -> Z -> Z -> Z -> K fs (Z * Z);
  ext4_punch_hole : Z -> Z -> Z -> K fs Z;
  ext4_update_disksize_before_punch : Z -> Z -> Z -> K fs Z;
  ext4_zero_partial_blocks : Z -> Z -> Z -> K fs Z;
  ext4_convert_inline_data : Z -> K fs Z
}.

Section Falloc.
Context `{ExtFmt} `{Env} `{ExtOps} `{FallocEnv}.

Definition EXT4_CLUSTER_SIZE (s : fs) : Z := Z.shiftl (s_blocksize (f_sbi s)) (s_cluster_bits (f_sbi s)).

(** What the extent code reads of inode [n] and the super block. *)
Definition file_env (s : fs) (n : Z) : RemoveEnv := {|
  rm_sbi := f_sbi s;
  rm_inode := inode_of s n;
  EXT4_MAXQUOTAS_TRANS_BLOCKS := fa_quota_credits
|}.

Definition in_file {A} (n : Z) (m : TreeEnv -> RemoveEnv -> K xtree A) : K fs A :=
  s <~ kget;;
  zoom (fun s => i_tree (inode_of s n)) (put_tree n) (m (tree_env s n) (file_env s n)).

Definition is_extents (s : fs) (n : Z) : bool := ext4_test_inode_flag (inode_of s n) EXT4_INODE_EXTENTS.

Definition down_write (n : Z) : K fs unit := acquire (Excl (LDataSem n)).
Definition up_write (n : Z) : K fs unit := release (Excl (LDataSem n)).

(** [inode_set_mtime_to_ts(inode, inode_set_ctime_current(inode))] *)
Definition touch (n : Z) : K fs unit := ts <~ inode_set_ctime_current n;; inode_set_mtime_to_ts n ts.

(** [if (IS_SYNC(inode)) ext4_handle_sync(handle)] *)
Definition handle_sync_if (sync : bool) : K fs unit :=
  if sync then call_int "ext4_handle_sync" [];;; kret tt else kret tt.

Definition end_handle : K fs unit := ext4_journal_stop;;; kret tt.

(** ** Collapse and insert *)

(** Waiting for direct I/O, then the locks and the layouts: an error, or the lock of the
    page cache is held.  Both handlers start like this. *)
Definition lock_mapping (n : Z) : K fs (option Z) :=
  call_int "inode_dio_wait" [n];;;
  ret <~ call_int "file_modified" [n];;
  if negb (ret =? 0) then kret (Some ret) else
  acquire (Excl (LInvalidate n));;;
  ret <~ call_int "ext4_break_layouts" [n];;
  if negb (ret =? 0) then release (Excl (LInvalidate n));;; kret (Some ret) else kret None.

(** The part of [ext4_collapse_range] that holds [i_data_sem]. *)
Definition collapse_blocks (tries : nat) (a : acct) (n punch_start punch_stop len : Z) : K fs Z :=
  down_write n;;;
  call_int "ext4_discard_preallocations" [n];;;
  call_int "ext4_es_remove_extent" [n; punch_start; u32 (EXT_MAX_BLOCKS - punch_start)];;;
  ret <~ in_file n (fun te re => ext4_ext_remove_space tries punch_start (u32 (punch_stop - 1)) a);;
  if negb (ret =? 0) then up_write n;;; kret ret else
  call_int "ext4_discard_preallocations" [n];;;
  ret <~ in_file n (fun te re => ext4_ext_shift_extents tries punch_stop (u32 (punch_stop - punch_start)) SHIFT_LEFT);;
  if negb (ret =? 0) then up_write n;;; kret ret else
  s <~ kget;;
  kmodify (upd_inode n (set_size (s64 (i_size (inode_of s n) - len))));;;
  up_write n;;;
  kret 0.

Definition ext4_collapse_range (tries : nat) (a : acct) (n offset len : Z) : K fs Z :=
  s <~ kget;;
  if negb (is_extents s n) then kret (- EOPNOTSUPP) else
  if negb (IS_ALIGNED (Z.lor offset len) (EXT4_CLUSTER_SIZE s)) then kret (- EINVAL) else
  let bits := s_blocksize_bits s in
  let punch_start := u32 (Z.shiftr offset bits) in
  let punch_stop := u32 (Z.shiftr (s64 (offset + len)) bits) in
  inode_lock n;;;
  let out_mutex ret := inode_unlock n;;; kret ret in
  s <~ kget;;
  if i_size (inode_of s n) <=? s64 (offset + len) then out_mutex (- EINVAL) else
  if negb (is_extents s n) then out_mutex (- EOPNOTSUPP) else
  r <~ lock_mapping n;;
  match r with
  | Some ret => out_mutex ret
  | None =>
      let out_mmap ret := release (Excl (LInvalidate n));;; out_mutex ret in
      let ioffset := round_down offset PAGE_SIZE in
      ret <~ call_int "filemap_write_and_wait_range" [n; ioffset; offset];;
      if negb (ret =? 0) then out_mmap ret else
      ret <~ call_int "filemap_write_and_wait_range" [n; s64 (offset + len); 2 ^ 63 - 1];;
      if negb (ret =? 0) then out_mmap ret else
      call_int "truncate_pagecache" [n; ioffset];;;
      credits <~ call_int "ext4_writepage_trans_blocks" [n];;
      h <~ ext4_journal_start credits;;
      match h with
      | PtrErr e => out_mmap e
      | PtrNull => koops
      | PtrOk =>
          call_int "ext4_fc_mark_ineligible" [];;;
          let out_stop ret := end_handle;;; out_mmap ret in
          ret <~ collapse_blocks tries a n punch_start punch_stop len;;
          if negb (ret =? 0) then out_stop ret else
          sync <~ call_int "IS_SYNC" [n];;
          handle_sync_if (negb (sync =? 0));;;
          touch n;;;
          ret <~ ext4_mark_inode_dirty n;;
          call_int "ext4_update_inode_fsync_trans" [n; 1];;;
          out_stop ret
      end
  end.

(** The extent at [offset_lblk] is cut there, when it does not start there: the error, the
    path and the start of that extent (0 without one). *)
Definition insert_split `{TreeEnv} (offset_lblk : Z) (p : path) : K xtree (Z * option path * Z) :=
  t <~ kget;;
  let e := pnth p (ext_depth t) in
  match p_ext e with
  | None => kret (0, Some p, 0)
  | Some x =>
      let extent := slot (node_at t (p_hdr e)) x in
      let ee_start_lblk := ee_block extent in
      if (ee_start_lblk <? offset_lblk) && (offset_lblk <? u32 (ee_start_lblk + ext4_ext_get_actual_len extent)) then
        let split_flag := if ext4_ext_is_unwritten extent
                          then Z.lor EXT4_EXT_MARK_UNWRIT1 EXT4_EXT_MARK_UNWRIT2 else 0 in
        r <~ ext4_split_extent_at p offset_lblk split_flag
               (Z.lor EXT4_EX_NOCACHE (Z.lor EXT4_GET_BLOCKS_PRE_IO EXT4_GET_BLOCKS_METADATA_NOFAIL));;
        kret (r.1, ppath_of r.2, ee_start_lblk)
      else kret (0, Some p, ee_start_lblk)
  end.

(** From the lookup on, with [i_data_sem] held: [inl] goes to [out_stop].  [ret] is the value
    before, which a failed lookup leaves. *)
Definition insert_shift `{TreeEnv} `{RemoveEnv} (tries : nat) (offset_lblk len_lblk ret : Z) : K xtree (Z + Z) :=
  r <~ ext4_find_extent offset_lblk None 0;;
  match r with
  | inl _ => kret (inl ret)
  | inr p =>
      r <~ insert_split offset_lblk p;;
      let '(ret, p, ee_start_lblk) := r in
      ext4_free_ext_path p;;;
      if ret <? 0 then kret (inl ret) else
      call_int "ext4_es_remove_extent" [ino; offset_lblk; u32 (EXT_MAX_BLOCKS - offset_lblk)];;;
      ret <~ ext4_ext_shift_extents tries (Z.max ee_start_lblk offset_lblk) len_lblk SHIFT_RIGHT;;
      kret (inr ret)
  end.

(** The part of [ext4_insert_range] inside the transaction. *)
Definition insert_blocks_at (tries : nat) (n offset_lblk len_lblk len : Z) : K fs Z :=
  s <~ kget;;
  kmodify (upd_inode n (set_isize (s64 (i_size (inode_of s n) + len))));;;
  s <~ kget;;
  kmodify (upd_inode n (set_disksize (s64 (i_disksize (inode_of s n) + len))));;;
  touch n;;;
  ret <~ ext4_mark_inode_dirty n;;
  if negb (ret =? 0) then kret ret else
  down_write n;;;
  call_int "ext4_discard_preallocations" [n];;;
  r <~ in_file n (fun te re => insert_shift tries offset_lblk len_lblk ret);;
  up_write n;;;
  match r with
  | inl ret => kret ret
  | inr ret =>
      sync <~ call_int "IS_SYNC" [n];;
      handle_sync_if (negb (sync =? 0));;;
      (if 0 <=? ret then call_int "ext4_update_inode_fsync_trans" [n; 1];;; kret tt else kret tt);;;
      kret ret
  end.

Definition ext4_insert_range (tries : nat) (n offset len : Z) : K fs Z :=
  s <~ kget;;
  if negb (is_extents s n) then kret (- EOPNOTSUPP) else
  if negb (IS_ALIGNED (Z.lor offset len) (EXT4_CLUSTER_SIZE s)) then kret (- EINVAL) else
  let bits := s_blocksize_bits s in
  let offset_lblk := u32 (Z.shiftr offset bits) in
  let len_lblk := u32 (Z.shiftr len bits) in
  inode_lock n;;;
  let out_mutex ret := inode_unlock n;;; kret ret in
  s <~ kget;;
  if negb (is_extents s n) then out_mutex (- EOPNOTSUPP) else
  if s64 (sb_maxbytes - i_size (inode_of s n)) <? len then out_mutex (- EFBIG) else
  if i_size (inode_of s n) <=? offset then out_mutex (- EINVAL) else
  r <~ lock_mapping n;;
  match r with
  | Some ret => out_mutex ret
  | None =>
      let out_mmap ret := release (Excl (LInvalidate n));;; out_mutex ret in
      let ioffset := round_down offset PAGE_SIZE in
      ret <~ call_int "filemap_write_and_wait_range" [n; ioffset; 2 ^ 63 - 1];;
      if negb (ret =? 0) then out_mmap ret else
      call_int "truncate_pagecache" [n; ioffset];;;
      credits <~ call_int "ext4_writepage_trans_blocks" [n];;
      h <~ ext4_journal_start credits;;
      match h with
      | PtrErr e => out_mmap e
      | PtrNull => koops
      | PtrOk =>
          call_int "ext4_fc_mark_ineligible" [];;;
          ret <~ insert_blocks_at tries n offset_lblk len_lblk len;;
          end_handle;;; out_mmap ret
      end
  end.
End Falloc.

Section Preallocate.
Context `{ExtFmt} `{Env} `{FallocEnv} `{FallocOps}.

(** ** Sizes *)

(** [ext4_update_i_disksize] and [ext4_update_inode_size]. *)
Definition ext4_update_i_disksize (n newsize : Z) : K fs unit :=
  down_write n;;;
  kmodify (upd_inode n (fun i => if i_disksize i <? newsize then set_disksize newsize i else i));;;
  up_write n.

Definition ext4_update_inode_size (n newsize : Z) : K fs Z :=
  s <~ kget;;
  changed <~ (if i_size (inode_of s n) <? newsize
              then kmodify (upd_inode n (set_isize newsize));;; kret 1 else kret 0);;
  s <~ kget;;
  if i_disksize (inode_of s n) <? newsize
  then ext4_update_i_disksize n newsize;;; kret (Z.lor changed 2) else kret changed.

(** ** Allocation *)

(** The variables of the loop of [ext4_alloc_file_blocks]; [al_mlen] is [map.m_len]. *)
Record allocation := Alloc {
  al_lblk : Z; al_mlen : Z; al_len : Z; al_credits : Z; al_depth : Z; al_retries : Z; al_ret : Z; al_ret2 : Z
}.

(** After the loop: [goto retry], or the value returned. *)
Definition alloc_end (st : allocation) : K fs (allocation + Z) :=
  retry <~ (if al_ret st =? - ENOSPC then call_int "ext4_should_retry_alloc" [al_retries st] else kret 0);;
  if negb (retry =? 0) then
    retries <~ call_int "ext4_should_retry_alloc:retries" [al_retries st];;
    kret (inl (Alloc (al_lblk st) (al_mlen st) (al_len st) (al_credits st) (al_depth st) retries (al_ret st) (al_ret2 st)))
  else kret (inr (if 0 <? al_ret st then al_ret2 st else al_ret st)).

(** The round from [ext4_map_blocks] on, with the handle; [s] is the state of the inode at
    the start of the round. *)
Definition alloc_mapped (n new_size flags : Z) (s : fs) (credits : Z) (st : allocation) : K fs (allocation + Z) :=
  let depth := ext_depth (i_tree (inode_of s n)) in
  r <~ ext4_map_blocks n (al_lblk st) (al_mlen st) flags;;
  let '(ret, mlen) := r in
  if ret <=? 0 then
    ext4_mark_inode_dirty n;;;
    end_handle;;;
    alloc_end (Alloc (al_lblk st) mlen (al_len st) credits depth (al_retries st) ret (al_ret2 st))
  else
    let lblk := u32 (al_lblk st + ret) in
    let len := u32 (al_len st - ret) in
    let epos := s64 (Z.shiftl lblk (s_blocksize_bits s)) in
    inode_set_ctime_current n;;;
    (if negb (new_size =? 0) then
       let epos := if new_size <? epos then new_size else epos in
       changed <~ ext4_update_inode_size n epos;;
       if negb (Z.land changed 1 =? 0) then
         s <~ kget;; inode_set_mtime_to_ts n (i_ctime (inode_of s n))
       else kret tt
     else kret tt);;;
    ret2 <~ ext4_mark_inode_dirty n;;
    call_int "ext4_update_inode_fsync_trans" [n; 1];;;
    ret3 <~ ext4_journal_stop;;
    let ret2 := if negb (ret3 =? 0) then ret3 else ret2 in
    let st := Alloc lblk len len credits depth 0 ret ret2 in
    if negb (ret2 =? 0) then alloc_end st else kret (inl st).

(** One round of [while (len)]. *)
Definition alloc_round (n new_size flags : Z) (st : allocation) : K fs (allocation + Z) :=
  if al_len st =? 0 then alloc_end st else
  s <~ kget;;
  let depth := ext_depth (i_tree (inode_of s n)) in
  credits <~ (if negb (al_depth st =? depth) then call_int "ext4_chunk_trans_blocks" [n; al_len st]
              else kret (al_credits st));;
  h <~ ext4_journal_start credits;;
  match h with
  | PtrErr e =>
      alloc_end (Alloc (al_lblk st) (al_mlen st) (al_len st) credits depth (al_retries st) e (al_ret2 st))
  | PtrNull => koops
  | PtrOk => alloc_mapped n new_size flags s credits st
  end.

(** A round maps a block or counts as a retry. *)
Definition alloc_rounds : positive := Pos.pow 2 600.

Definition ext4_alloc_file_blocks (n offset len new_size flags : Z) : K fs Z :=
  s <~ kget;;
  if negb (is_extents s n) then koops else
  let flags := if len <=? EXT_UNWRITTEN_MAX_LEN then Z.lor flags EXT4_GET_BLOCKS_NO_NORMALIZE else flags in
  credits <~ call_int "ext4_chunk_trans_blocks" [n; len];;
  s <~ kget;;
  kloop alloc_rounds (alloc_round n new_size flags)
    (Alloc offset len len credits (ext_depth (i_tree (inode_of s n))) 0 0 0).

(** [new_size] of a request that may grow the file: an error of [inode_newsize_ok], or the
    size (0 when it does not grow). *)
Definition newsize_of (n mode offset len : Z) : K fs (Z + Z) :=
  s <~ kget;;
  let end_ := s64 (offset + len) in
  if negb (has_flag mode FALLOC_FL_KEEP_SIZE) &&
     ((i_size (inode_of s n) <? end_) || (i_disksize (inode_of s n) <? end_)) then
    ret <~ call_int "inode_newsize_ok" [n; end_];;
    kret (if negb (ret =? 0) then inl ret else inr end_)
  else kret (inr 0).

(** The whole blocks of [ext4_zero_range] become unwritten: the result, with the lock of
    the page cache given back. *)
Definition zero_whole_blocks (n offset len start end_ lblk max_blocks new_size flags : Z) : K fs Z :=
  acquire (Excl (LInvalidate n));;;
  let unlock ret := release (Excl (LInvalidate n));;; kret ret in
  ret <~ call_int "ext4_break_layouts" [n];;
  if negb (ret =? 0) then unlock ret else
  ret <~ ext4_update_disksize_before_punch n offset len;;
  if negb (ret =? 0) then unlock ret else
  journal_data <~ call_int "ext4_should_journal_data" [n];;
  ret <~ (if negb (journal_data =? 0)
          then call_int "filemap_write_and_wait_range" [n; start; s64 (end_ - 1)] else kret 0);;
  if negb (ret =? 0) then unlock ret else
  call_int "truncate_pagecache_range" [n; start; s64 (end_ - 1)];;;
  touch n;;;
  ret <~ ext4_alloc_file_blocks n lblk max_blocks new_size flags;;
  unlock ret.

(** The partial blocks at the edges of [ext4_zero_range]. *)
Definition zero_edges (o_sync : bool) (n offset len new_size : Z) : K fs Z :=
  idx <~ call_int "ext4_ext_index_trans_blocks" [n; 2];;
  journal_data <~ call_int "ext4_should_journal_data" [n];;
  let credits := 2 * idx + 1 + (if negb (journal_data =? 0) then 2 else 0) in
  h <~ ext4_journal_start credits;;
  match h with
  | PtrErr e => call_int "ext4_std_error" [e];;; kret e
  | PtrNull => koops
  | PtrOk =>
      touch n;;;
      (if negb (new_size =? 0) then ext4_update_inode_size n new_size;;; kret tt else kret tt);;;
      ret <~ ext4_mark_inode_dirty n;;
      if negb (ret =? 0) then end_handle;;; kret ret else
      ret <~ ext4_zero_partial_blocks n offset len;;
      (if 0 <=? ret then call_int "ext4_update_inode_fsync_trans" [n; 1];;; kret tt else kret tt);;;
      handle_sync_if o_sync;;;
      end_handle;;;
      kret ret
  end.

(** [o_sync]: the file was opened with [O_SYNC]. *)
Definition ext4_zero_range (o_sync : bool) (n offset len mode : Z) : K fs Z :=
  s <~ kget;;
  let blkbits := s_blocksize_bits s in
  let size := 2 ^ blkbits in
  let sum := s64 (offset + len) in
  let start := round_up offset size in
  let end_ := round_down sum size in
  if (start <? offset) || (sum <? end_) then kret (- EINVAL) else
  let partial_begin := Z.land offset (size - 1) in
  let partial_end := Z.land sum (size - 1) in
  let lblk := u32 (Z.shiftr start blkbits) in
  let max_blocks := u32 (Z.shiftr end_ blkbits) in
  let max_blocks := if max_blocks <? lblk then 0 else max_blocks - lblk in
  inode_lock n;;;
  let out_mutex ret := inode_unlock n;;; kret ret in
  s <~ kget;;
  if negb (is_extents s n) then out_mutex (- EOPNOTSUPP) else
  r <~ newsize_of n mode offset len;;
  match r with
  | inl ret => out_mutex ret
  | inr new_size =>
      let flags := EXT4_GET_BLOCKS_CREATE_UNWRIT_EXT in
      call_int "inode_dio_wait" [n];;;
      ret <~ call_int "file_modified" [n];;
      if negb (ret =? 0) then out_mutex ret else
      let partial := negb (partial_begin =? 0) || negb (partial_end =? 0) in
      ret <~ (if partial then
                ext4_alloc_file_blocks n (u32 (Z.shiftr (round_down offset size) blkbits))
                  (u32 (Z.shiftr (s64 (round_up sum size - round_down offset size)) blkbits)) new_size flags
              else kret 0);;
      if negb (ret =? 0) then out_mutex ret else
      ret <~ (if 0 <? max_blocks then
                zero_whole_blocks n offset len start end_ lblk max_blocks new_size
                  (Z.lor flags (Z.lor EXT4_GET_BLOCKS_CONVERT_UNWRITTEN EXT4_EX_NOCACHE))
              else kret 0);;
      if negb (ret =? 0) then out_mutex ret else
      if negb partial then out_mutex ret else
      ret <~ zero_edges o_sync n offset len new_size;;
      out_mutex ret
  end.
End Preallocate.

(** ** The entry points *)

Section Entry.
Context `{ExtFmt} `{Env} `{ExtOps} `{FallocEnv} `{FallocOps}.

(** Plain preallocation, the last part of [ext4_fallocate]. *)
Definition preallocate (o_sync : bool) (n offset len mode : Z) : K fs Z :=
  s <~ kget;;
  let blkbits := s_blocksize_bits s in
  let lblk := u32 (Z.shiftr offset blkbits) in
  let max_blocks := u32 (EXT4_MAX_BLOCKS len offset blkbits) in
  inode_lock n;;;
  let out ret := inode_unlock n;;; kret ret in
  s <~ kget;;
  if negb (is_extents s n) then out (- EOPNOTSUPP) else
  r <~ newsize_of n mode offset len;;
  match r with
  | inl ret => out ret
  | inr new_size =>
      call_int "inode_dio_wait" [n];;;
      ret <~ call_int "file_modified" [n];;
      if negb (ret =? 0) then out ret else
      ret <~ ext4_alloc_file_blocks n lblk max_blocks new_size EXT4_GET_BLOCKS_CREATE_UNWRIT_EXT;;
      if negb (ret =? 0) then out ret else
      ret <~ (if o_sync && has_journal then call_int "ext4_fc_commit" [n] else kret ret);;
      out ret
  end.

(** [ext4_fallocate] *)
Definition ext4_fallocate (tries : nat) (a : acct) (o_sync : bool) (n mode offset len : Z) : K fs Z :=
  if IS_ENCRYPTED n && has_flag mode (Z.lor FALLOC_FL_COLLAPSE_RANGE FALLOC_FL_INSERT_RANGE)
  then kret (- EOPNOTSUPP) else
  let known := Z.lor FALLOC_FL_KEEP_SIZE (Z.lor FALLOC_FL_PUNCH_HOLE (Z.lor FALLOC_FL_COLLAPSE_RANGE
                 (Z.lor FALLOC_FL_ZERO_RANGE FALLOC_FL_INSERT_RANGE))) in
  if has_flag mode (Z.lnot known) then kret (- EOPNOTSUPP) else
  inode_lock n;;;
  ret <~ ext4_convert_inline_data n;;
  inode_unlock n;;;
  if negb (ret =? 0) then kret ret else
  if has_flag mode FALLOC_FL_PUNCH_HOLE then ext4_punch_hole n offset len else
  if has_flag mode FALLOC_FL_COLLAPSE_RANGE then ext4_collapse_range tries a n offset len else
  if has_flag mode FALLOC_FL_INSERT_RANGE then ext4_insert_range tries n offset len else
  if has_flag mode FALLOC_FL_ZERO_RANGE then ext4_zero_range o_sync n offset len mode else
  preallocate o_sync n offset len mode.

(** [retry_remove_space] of [ext4_ext_truncate]: an attempt that runs out of memory is
    repeated, here at most [rounds] times. *)
Fixpoint remove_retrying (rounds tries : nat) (a : acct) (n last_block : Z) : K fs Z :=
  match rounds with
  | O => koops
  | S rounds =>
      err <~ in_file n (fun te re => ext4_ext_remove_space tries last_block (EXT_MAX_BLOCKS - 1) a);;
      if err =? - ENOMEM then call_int "memalloc_retry_wait" [];;; remove_retrying rounds tries a n last_block
      else kret err
  end.

(** [ext4_ext_truncate], with [i_data_sem] held. *)
Definition ext4_ext_truncate (rounds tries : nat) (a : acct) (n : Z) : K fs Z :=
  kmodify (upd_inode n (fun i => set_disksize (i_size i) i));;;
  err <~ ext4_mark_inode_dirty n;;
  if negb (err =? 0) then kret err else
  s <~ kget;;
  let last_block := u32 (Z.shiftr (u64 (i_size (inode_of s n) + s_blocksize (f_sbi s) - 1)) (s_blocksize_bits s)) in
  call_int "ext4_es_remove_extent" [n; last_block; u32 (EXT_MAX_BLOCKS - last_block)];;;
  remove_retrying rounds tries a n last_block.
End Entry.
