(* ===== verification/FallocSpec.v ===== *)
(** * Collapsing and inserting a range, preallocating, truncating

    What the handlers of Falloc.v do to a file whose extents are in the inode: the map of
    the file, its size, the blocks that are freed, and that the locks and the handle are
    given back on every path. *)

From stdpp Require Import prelude list gmap strings.
From Stdlib Require Import ZArith Lia.
From S2P Require Import Prelude Kernel Layout ExtentNode ExtentTree ExtentTreeSpec ExtentMap Fs Namei Mkdir EvfsExtent.
From S2P Require Import ExtentRemove ExtentRemoveSpec ExtentRemoveFlat ExtentShift ExtentShiftSpec ExtentShiftFlat Falloc.

Local Open Scope Z_scope.

(** ** What stays *)

(** An inode without its sizes, times and tree; a file system without its inodes. *)
Definition blank (i : inode) : inode := set_tree zero_tree (set_times zero_ts zero_ts (set_size 0 i)).
Definition no_inodes (s : fs) : fs :=
  Fs (f_sbi s) (f_es s) (f_gd s) (f_bbm s) (f_ibm s) (f_freeclusters s) (f_freeinodes s) (f_tracker s) ∅.

(** Only sizes, times and the tree of inode [n] change. *)
Definition file_frame (n : Z) (s s' : fs) : Prop :=
  no_inodes s' = no_inodes s /\ others n s s' /\ blank (inode_of s' n) = blank (inode_of s n).

#[export] Instance file_frame_preorder n : PreOrder (file_frame n).
Proof.
  split; [intros s; by split_and!|]. intros s1 s2 s3 (C1 & O1 & B1) (C2 & O2 & B2).
  split_and!; [congruence|by eapply others_trans|congruence].
Qed.

Lemma file_frame_upd n f s : (forall i, blank (f i) = blank i) -> file_frame n s (upd_inode n f s).
Proof. intros Hf. split_and!; [done|apply others_upd|by rewrite inode_of_upd_eq]. Qed.

Lemma file_frame_sbi n s s' : file_frame n s s' -> f_sbi s' = f_sbi s.
Proof. intros (C & _). exact (f_equal f_sbi C). Qed.
Lemma file_frame_flags n s s' : file_frame n s s' -> i_flags (inode_of s' n) = i_flags (inode_of s n).
Proof. intros (_ & _ & B). exact (f_equal i_flags B). Qed.

(** A resource given back when only the collection held is known. *)
Lemma wp_release_perm {S} r rest (Q : unit -> world S -> Prop) w :
  w_held w ≡ₚ r :: rest -> (forall h, h ≡ₚ rest -> Q tt (World (w_st w) h (w_calls w))) -> wp (release r) Q w.
Proof.
  intros Hp HQ. apply (wp_release_top r rest []).
  - exists (w_held w). by rewrite app_nil_r.
  - intros h (l & -> & Hl). apply HQ. by rewrite app_nil_r.
Qed.

Section Steps.
Context `{ExtFmt} `{Env} `{ExtOps} `{FallocEnv}.

Lemma wp_in_file {A} n (m : TreeEnv -> RemoveEnv -> K xtree A) s held calls (Q : A -> world fs -> Prop) :
  wp (m (tree_env s n) (file_env s n))
    (fun a w' => Q a (World (put_tree n (w_st w') s) (w_held w') (w_calls w')))
    (World (i_tree (inode_of s n)) held calls) ->
  wp (in_file n m) Q (World s held calls).
Proof. intros Hm. unfold in_file. wp_step. wp_step. wp_step. exact Hm. Qed.

Lemma frame_put_tree n t s : file_frame n s (put_tree n t s).
Proof. by apply file_frame_upd. Qed.

(** A step that changes neither the sizes nor the tree of inode [n]. *)
Definition touched (n : Z) (s s' : fs) : Prop :=
  file_frame n s s' /\ i_tree (inode_of s' n) = i_tree (inode_of s n) /\
  i_size (inode_of s' n) = i_size (inode_of s n) /\ i_disksize (inode_of s' n) = i_disksize (inode_of s n).

Lemma wp_touch n s held calls (Q : unit -> world fs -> Prop) :
  (forall s' calls', touched n s s' -> quiet calls calls' -> Q tt (World s' held calls')) ->
  wp (touch n) Q (World s held calls).
Proof.
  intros HQ. unfold touch, inode_set_ctime_current, current_time, inode_set_mtime_to_ts. repeat wp_step.
  apply HQ; [|quiet_done]. unfold touched. rewrite !inode_of_upd_eq. split; [|done].
  etrans; by apply file_frame_upd.
Qed.

Lemma wp_handle_sync b s held calls (Q : unit -> world fs -> Prop) :
  (forall calls', quiet calls calls' -> Q tt (World s held calls')) ->
  wp (handle_sync_if b) Q (World s held calls).
Proof. intros HQ. unfold handle_sync_if. destruct b; repeat wp_step; apply HQ; quiet_done. Qed.

(** The handle is given back. *)
Lemma wp_end_handle rest s held calls (Q : unit -> world fs -> Prop) :
  held ≡ₚ Ref RHandle :: rest ->
  (forall held' calls', held' ≡ₚ rest -> quiet calls calls' -> Q tt (World s held' calls')) ->
  wp end_handle Q (World s held calls).
Proof.
  intros Hp HQ. unfold end_handle, ext4_journal_stop. do 2 wp_step. eapply wp_release_perm; [exact Hp|].
  intros h Hh. repeat wp_step. apply HQ; [done|quiet_done].
Qed.
End Steps.

(** ** Collapsing a range *)

(** The map of a file without the blocks [start .. stop - 1]. *)
Definition collapsed (m : emap) (start stop b : Z) : option (Z * bool) :=
  if b <? start then m b else m (b + (stop - start)).

Section Collapse.
Context `{ExtFmtOk} `{EnvFs} `{ExtOps} `{FallocEnv}.

(** Inode [n] has its extents in its root, and the clusters of the file system are blocks. *)
Record plain_file (s : fs) (n : Z) : Prop := {
  pf_flat : flat (i_tree (inode_of s n));
  pf_max : eh_max (x_root (i_tree (inode_of s n))) = ext4_ext_space_root;
  pf_ratio : s_cluster_ratio (f_sbi s) = 1;
  pf_bits : s_cluster_bits (f_sbi s) = 0
}.

Definition file_map (s : fs) (n : Z) : emap := mapping (entries (x_root (i_tree (inode_of s n)))).

(** The answers the theorems assume: the journal accepts buffers, memory is there, and the
    transaction is restarted at most [k] times. *)
Record answers_ok (k : nat) : Prop := {
  ao_journal : journal_ok;
  ao_kcalloc : kcalloc_ok;
  ao_start : forall h a, env_ptr h "ext4_journal_start_with_revoke"%string a = PtrOk;
  ao_bound : restart_bound k
}.

(** None of the locks of inode [n] is held. *)
Record unlocked (n : Z) (held : list res) : Prop := {
  ul_inode : existsb (blocks_on (Excl (LInode n))) held = false;
  ul_mapping : existsb (blocks_on (Excl (LInvalidate n))) held = false;
  ul_sem : existsb (blocks_on (Excl (LDataSem n))) held = false
}.

(** The outcome of [collapse_blocks] and of the handler: the range is gone and the file
    shorter, or an error left the size and has removed at most a part of the range. *)
Definition collapse_result (n : Z) (s : fs) (calls : list call) (start stop len err : Z) (w : world fs) : Prop :=
  let i := inode_of s n in
  let i' := inode_of (w_st w) n in
  file_frame n s (w_st w) /\ flat (i_tree i') /\
  ((err = 0 /\ i_size i' = i_size i - len /\ i_disksize i' = i_size i - len /\
    (forall b, file_map (w_st w) n b = collapsed (file_map s n) start stop b) /\
    freed (w_calls w) ≡ₚ phys_range (file_map s n) start (stop - 1) ++ freed calls) \/
   (err <> 0 /\ i_size i' = i_size i /\ i_disksize i' = i_disksize i /\
    exists b0, start <= b0 <= stop /\
      (forall b, file_map (w_st w) n b = cut_map (file_map s n) b0 (stop - 1) b) /\
      freed (w_calls w) ≡ₚ phys_range (file_map s n) b0 (stop - 1) ++ freed calls)).

Lemma collapsed_shifted m start stop b :
  start <= stop -> shifted_left (cut_map m start (stop - 1)) stop (stop - start) b = collapsed m start stop b.
Proof.
  intros Hs. unfold shifted_left, collapsed, cut_map. replace (stop - (stop - start)) with start by lia.
  destruct (Z.ltb_spec b start) as [Hb|Hb].
  - by rewrite (proj2 (Z.leb_gt start b)) by lia.
  - rewrite (proj2 (Z.leb_gt (b + (stop - start)) (stop - 1))) by lia. by rewrite andb_false_r.
Qed.

(** Nothing is done but some calls. *)
Lemma collapse_result_none n s calls start stop len err s' h' calls' :
  plain_file s n -> start <= stop -> err <> 0 -> touched n s s' -> quiet calls calls' ->
  collapse_result n s calls start stop len err (World s' h' calls').
Proof.
  intros Hfile Hss He (Hf' & Ht & Hs & Hd) [Hq _]. unfold collapse_result, file_map. cbn [w_st w_calls].
  rewrite Ht, Hs, Hd, Hq. split; [done|]. split; [apply Hfile|]. right. split_and!; [done..|].
  exists stop. split_and!; [lia|lia| |].
  - intros b. unfold cut_map. destruct (Z.leb_spec stop b), (Z.leb_spec b (stop - 1)); try done. lia.
  - rewrite phys_range_none; [done|]. intros b ?. lia.
Qed.

Lemma collapse_result_keep n s calls start stop len err w s' h' calls' :
  collapse_result n s calls start stop len err w -> touched n (w_st w) s' -> quiet (w_calls w) calls' ->
  collapse_result n s calls start stop len err (World s' h' calls').
Proof.
  intros (Hf & Hfl & Hres) (Hf' & Ht & Hs & Hd) [Hq _]. unfold collapse_result, file_map in *. cbn [w_st w_calls].
  rewrite Ht, Hs, Hd, Hq. split; [by etrans|done].
Qed.

Variables (k tries : nat) (n : Z) (s : fs) (start stop len : Z) (a : acct).
Hypothesis Hans : answers_ok k.
Hypothesis Hfile : plain_file s n.
Hypothesis Hrange : 0 <= start < stop /\ stop < 2 ^ 32.
Hypothesis Hlen : - 2 ^ 63 <= i_size (inode_of s n) - len < 2 ^ 63.
Hypothesis Hroom : edge_at (x_root (i_tree (inode_of s n))) (stop - 1) \/ room (x_root (i_tree (inode_of s n))).
Hypothesis Htries : (0 < tries)%nat.

Lemma wp_collapse_blocks held calls :
  (k < credit_calls calls + tries)%nat -> existsb (blocks_on (Excl (LDataSem n))) held = false ->
  wp (collapse_blocks tries a n start stop len)
    (fun err w => w_held w ≡ₚ held /\ collapse_result n s calls start stop len err w) (World s held calls).
Proof.
  intros Hcr Hsem. destruct Hans as [Hj Hkc Hjs Hk]. destruct Hfile as [Hfl Hmax Hratio Hbits].
  unfold collapse_blocks, down_write. do 6 wp_step. wp_step. apply wp_in_file.
  rewrite u32_small by lia. eapply wp_mono.
  { apply (wp_remove_space (H2 := tree_env s n) (H3 := file_env s n) k _ _ _ _ _ held); try done; rewrite ?fmt_max_blocks; lia. }
  cbn beta. intros err [t1 held1 calls1] (Hh1 & Hoff & Hc1 & b0 & Hpr & Hz & Hf). cbn [w_st w_held w_calls] in *.
  unfold data_sem in Hh1. cbn [ino tree_env] in Hh1. change (credit_calls calls <= credit_calls calls1)%nat in Hc1.
  set (s1 := put_tree n t1 s).
  assert (Ht1 : i_tree (inode_of s1 n) = t1) by apply tree_of_put.
  assert (Hfl1 : flat t1).
  { destruct Hpr as [_ Hwf Hok _ Hdp _ _ _]. destruct Hfl as [Hd _ _]. split; [unfold ext_depth in *; congruence|done..]. }
  assert (Hfr1 : freed calls1 ≡ₚ phys_range (file_map s n) b0 (stop - 1) ++ freed calls) by exact (pr_freed _ _ _ _ _ _ _ _ Hpr).
  assert (Hm1 : forall b, file_map s1 n b = cut_map (file_map s n) b0 (stop - 1) b).
  { intros b. unfold file_map at 1. rewrite Ht1. exact (pr_map _ _ _ _ _ _ _ _ Hpr b). }
  pose proof (pr_range _ _ _ _ _ _ _ _ Hpr) as Hb0.
  assert (Hsz1 : i_size (inode_of s1 n) = i_size (inode_of s n) /\ i_disksize (inode_of s1 n) = i_disksize (inode_of s n))
    by (unfold s1, put_tree; by rewrite inode_of_upd_eq).
  destruct (Z.eqb_spec err 0) as [->|Hne]; cbn [negb].
  2:{ wp_step. unfold up_write. eapply wp_release_perm; [exact Hh1|]. cbn [w_st w_calls]. intros h Hh. wp_step.
      split; [done|]. split; [apply frame_put_tree|]. cbn [w_st w_calls]. rewrite Ht1. split; [done|]. right.
      split_and!; [done|apply Hsz1..|]. exists b0. split_and!; [lia|lia|done|done]. }
  specialize (Hz eq_refl). subst b0. do 3 wp_step. apply wp_in_file. rewrite Ht1. rewrite u32_small by lia.
  eapply wp_mono.
  { apply (wp_shift_left (H2 := tree_env s1 n) k tries held); try done; try lia.
    - assert (Hcr1 : (k < credit_calls calls1 + tries)%nat) by lia. exact Hcr1.
    - intros b Hb. rewrite <- Ht1. fold (file_map s1 n). rewrite Hm1. unfold cut_map.
      by rewrite (proj2 (Z.leb_le start b)), (proj2 (Z.leb_le b (stop - 1))) by lia. }
  intros err [t2 held2 calls2] ([Hh2 _] & [Hq2 _] & Hres). cbn [w_st w_held w_calls] in *.
  unfold data_sem in Hh2. cbn [ino tree_env] in Hh2.
  assert (Hfr2 : freed calls2 ≡ₚ phys_range (file_map s n) start (stop - 1) ++ freed calls) by (rewrite Hq2; exact Hfr1).
  set (s2 := put_tree n t2 s1). assert (Ht2 : i_tree (inode_of s2 n) = t2) by apply tree_of_put.
  assert (Hframe2 : file_frame n s s2) by (etrans; apply frame_put_tree).
  assert (Hsz2 : i_size (inode_of s2 n) = i_size (inode_of s n) /\ i_disksize (inode_of s2 n) = i_disksize (inode_of s n))
    by (unfold s2, put_tree; by rewrite inode_of_upd_eq).
  destruct Hres as [(-> & Hfl2 & _ & _ & Hm2)|(He & -> & _)].
  - cbn [negb Z.eqb]. do 4 wp_step. wp_step. unfold up_write. eapply wp_release_perm; [exact Hh2|].
    cbn [w_st w_calls]. intros h Hh. wp_step. split; [done|].
    rewrite (proj1 Hsz2), s64_small by lia. split; [etrans; [exact Hframe2|by apply file_frame_upd]|].
    cbn [w_st w_calls]. unfold file_map. rewrite inode_of_upd_eq. cbn [set_size i_tree i_size i_disksize]. rewrite Ht2.
    split; [done|]. left. split_and!; [done..| |done]. intros b. rewrite Hm2, <- Ht1. fold (file_map s1 n) (file_map s n).
    rewrite <- collapsed_shifted by lia. unfold shifted_left. by rewrite !Hm1.
  - rewrite (proj2 (Z.eqb_neq err 0)) by done. cbn [negb]. wp_step. unfold up_write.
    eapply wp_release_perm; [exact Hh2|]. cbn [w_st w_calls]. intros h Hh. wp_step. split; [done|]. split; [done|].
    cbn [w_st w_calls]. rewrite Ht2. split; [done|]. right. split_and!; [done|apply Hsz2..|]. exists start.
    split_and!; [lia|lia| |done]. intros b. rewrite <- Hm1. unfold file_map. by rewrite Ht2, Ht1.
Qed.

End Collapse.

Section Aligned.
(** Aligned numbers. *)
Lemma aligned_both x y b : 0 <= b -> IS_ALIGNED (Z.lor x y) (2 ^ b) = true -> x mod 2 ^ b = 0 /\ y mod 2 ^ b = 0.
Proof.
  intros Hb Ha%Z.eqb_eq. replace (2 ^ b - 1) with (Z.ones b) in Ha by (rewrite Z.ones_equiv; lia).
  rewrite Z.land_lor_distr_l, !Z.land_ones in Ha by done. by apply Z.lor_eq_0_iff in Ha.
Qed.

Lemma aligned_shift x b : 0 <= b -> x mod 2 ^ b = 0 -> x = Z.shiftr x b * 2 ^ b.
Proof. intros Hb Hx. rewrite Z.shiftr_div_pow2 by done. pose proof (Z.div_mod x (2 ^ b)). lia. Qed.
End Aligned.

Section Handlers.
Context `{ExtFmtOk} `{EnvFs} `{ExtOps} `{FallocEnv}.

Lemma touched_refl n s : touched n s s.
Proof. by split_and!. Qed.

(** The locks of [lock_mapping]. *)
Lemma wp_lock_mapping n s held calls (Q : option Z -> world fs -> Prop) :
  existsb (blocks_on (Excl (LInvalidate n))) held = false ->
  (forall ret calls', ret <> 0 -> quiet calls calls' -> Q (Some ret) (World s held calls')) ->
  (forall calls', quiet calls calls' -> Q None (World s (Excl (LInvalidate n) :: held) calls')) ->
  wp (lock_mapping n) Q (World s held calls).
Proof.
  intros Hl Herr Hok. unfold lock_mapping. do 4 wp_step.
  destruct (Z.eqb_spec z0 0) as [->|Hne]; cbn [negb]; [|wp_step; apply Herr; [done|quiet_done]].
  do 4 wp_step. match goal with |- context [negb (?z =? 0)] => destruct (Z.eqb_spec z 0) as [->|Hne] end; cbn [negb].
  - wp_step. apply Hok. quiet_done.
  - do 2 wp_step. wp_step. apply Herr; [done|quiet_done].
Qed.

Lemma wp_journal_start_quiet c s held calls (Q : reply -> world fs -> Prop) :
  (forall calls', quiet calls calls' -> Q PtrOk (World s (Ref RHandle :: held) calls')) ->
  (forall e calls', e <> 0 -> quiet calls calls' -> Q (PtrErr e) (World s held calls')) ->
  wp (ext4_journal_start c) Q (World s held calls).
Proof.
  intros Hok Herr. unfold ext4_journal_start. wp_step. wp_step. subst r.
  apply err_or_valid_cases; [unfold err_or_valid; set_solver|..]; intros; wp_auto; [apply Hok|apply Herr; [lia|]]; quiet_done.
Qed.

(** [out_mmap] and [out_stop] of the handlers. *)
Lemma wp_out_mmap n ret s held0 held calls (Q : Z -> world fs -> Prop) :
  held ≡ₚ Excl (LInvalidate n) :: Excl (LInode n) :: held0 ->
  (forall h, h ≡ₚ held0 -> Q ret (World s h calls)) ->
  wp (release (Excl (LInvalidate n));;; inode_unlock n;;; kret ret) Q (World s held calls).
Proof.
  intros Hp HQ. wp_step. eapply wp_release_perm; [exact Hp|]. cbn [w_st w_calls]. intros h1 H1'. wp_step.
  unfold inode_unlock. eapply wp_release_perm; [exact H1'|]. cbn [w_st w_calls]. intros h2 H2'. wp_step. by apply HQ.
Qed.
Lemma wp_out_stop n ret s held0 held calls (Q : Z -> world fs -> Prop) :
  held ≡ₚ Ref RHandle :: Excl (LInvalidate n) :: Excl (LInode n) :: held0 ->
  (forall h calls', h ≡ₚ held0 -> quiet calls calls' -> Q ret (World s h calls')) ->
  wp (end_handle;;; release (Excl (LInvalidate n));;; inode_unlock n;;; kret ret) Q (World s held calls).
Proof.
  intros Hp HQ. wp_step. eapply wp_end_handle; [exact Hp|]. intros h1 c1 H1' Hq.
  eapply wp_out_mmap; [exact H1'|]. intros h2 H2'. by apply HQ.
Qed.

(** Calls before the part with the semaphore. *)
Lemma collapse_result_from n s calls calls1 start stop len err w :
  quiet calls calls1 -> collapse_result n s calls1 start stop len err w -> collapse_result n s calls start stop len err w.
Proof. intros [Hq _]. unfold collapse_result. by rewrite Hq. Qed.

(** The end of [ext4_collapse_range]. *)
Lemma wp_collapse_end n s calls start stop len err s1 held0 held calls1 (Q : Z -> world fs -> Prop) :
  held ≡ₚ Ref RHandle :: Excl (LInvalidate n) :: Excl (LInode n) :: held0 ->
  collapse_result n s calls start stop len err (World s1 held calls1) -> journal_ok ->
  (forall w, w_held w ≡ₚ held0 -> collapse_result n s calls start stop len err w -> Q err w) ->
  let out_stop ret := end_handle;;; release (Excl (LInvalidate n));;; inode_unlock n;;; kret ret in
  wp (if negb (err =? 0) then out_stop err else
      sync <~ call_int "IS_SYNC" [n];;
      handle_sync_if (negb (sync =? 0));;;
      touch n;;;
      ret <~ ext4_mark_inode_dirty n;;
      call_int "ext4_update_inode_fsync_trans" [n; 1];;;
      out_stop ret) Q (World s1 held calls1).
Proof.
  intros Hh Hres Hj HQ out_stop. unfold out_stop. destruct (Z.eqb_spec err 0) as [->|Hne]; cbn [negb].
  2:{ eapply wp_out_stop; [exact Hh|]. intros h c' Hh' Hq. apply HQ; [done|].
      eapply collapse_result_keep; [exact Hres|apply touched_refl|exact Hq]. }
  do 3 wp_step. apply wp_handle_sync. intros c4 Hq4. wp_step. apply wp_touch. intros s5 c5 Ht5 Hq5.
  wp_step. unfold ext4_mark_inode_dirty. do 3 wp_step. rewrite (proj2 (proj2 (Hj _ _))) in Hc0. subst z0.
  eapply wp_out_stop; [exact Hh|]. intros h c' Hh' Hq. apply HQ; [done|].
  eapply collapse_result_keep; [exact Hres|exact Ht5|]. cbn [w_calls]. etrans; [|exact Hq]. quiet_done.
  etrans; [|exact Hq5]. etrans; [|exact Hq4]. quiet_done.
Qed.

Variables (k tries : nat) (n : Z) (s : fs) (offset len : Z) (a : acct) (held : list res) (calls : list call).
Hypothesis Hans : answers_ok k.
Hypothesis Hfile : plain_file s n.
Hypothesis Hblock : 0 <= s_blocksize_bits s /\ s_blocksize (f_sbi s) = 2 ^ s_blocksize_bits s.
Hypothesis Hunl : unlocked n held.
Hypothesis Htries : (0 < tries)%nat.
Hypothesis Hcr : (k < credit_calls calls + tries)%nat.
Hypothesis Hsize : 0 <= i_size (inode_of s n) < 2 ^ 63.
Let bits := s_blocksize_bits s.

Lemma cluster_size : EXT4_CLUSTER_SIZE s = 2 ^ bits.
Proof using Hfile Hblock. unfold EXT4_CLUSTER_SIZE. rewrite (pf_bits _ _ Hfile), Z.shiftl_0_r. apply Hblock. Qed.

(** C9: [ext4_collapse_range] of a file whose extents are all in the inode, on a file system
    without clusters, when the journal starts a handle and accepts every buffer, memory is
    there, the transaction is restarted at most [k] times, less than the tries modelled, the
    range ends at the edge of an extent or there is room to split one, and the locks of the
    file are free: it gives back its locks and its handle on every answer that these conditions
    leave open.  When it answers 0 the blocks of the range are freed, every later block is [len]
    bytes further ahead and both sizes are [len] less; the range was aligned and ended before
    the end of the file.  An error leaves the sizes, and has removed at most blocks of the
    range, from its end.  Nothing but the sizes, times and extents of the file changes. *)
Theorem collapse_range_correct :
  0 <= offset -> 0 < len -> offset + len < 2 ^ 63 -> Z.shiftr (offset + len) bits < 2 ^ 32 ->
  let start := Z.shiftr offset bits in
  let stop := Z.shiftr (offset + len) bits in
  edge_at (x_root (i_tree (inode_of s n))) (stop - 1) \/ room (x_root (i_tree (inode_of s n))) ->
  exists err w', ext4_collapse_range tries a n offset len (World s held calls) = Ret err w' /\
    w_held w' ≡ₚ held /\ collapse_result n s calls start stop len err w' /\
    (err = 0 -> is_extents s n = true /\ start * 2 ^ bits = offset /\ stop * 2 ^ bits = offset + len /\
       offset + len < i_size (inode_of s n)).
Proof.
  intros Ho Hl Hol Hstop start stop Hroom. apply (wp_run _ (fun err w' => w_held w' ≡ₚ held /\
    collapse_result n s calls start stop len err w' /\ (err = 0 -> is_extents s n = true /\ start * 2 ^ bits = offset /\
    stop * 2 ^ bits = offset + len /\ offset + len < i_size (inode_of s n)))).
  unfold ext4_collapse_range. do 2 wp_step.
  assert (Hss : start <= stop) by (unfold start, stop; rewrite !Z.shiftr_div_pow2 by apply Hblock; apply Z.div_le_mono; lia).
  assert (Hnone : forall err h calls', err <> 0 -> quiet calls calls' -> h ≡ₚ held ->
    (fun err w' => w_held w' ≡ₚ held /\
    collapse_result n s calls start stop len err w' /\ (err = 0 -> is_extents s n = true /\ start * 2 ^ bits = offset /\
    stop * 2 ^ bits = offset + len /\ offset + len < i_size (inode_of s n))) err (World s h calls')).
  { intros err h calls' He Hq Hh. split; [done|]. split; [|done]. by apply collapse_result_none; [..|apply touched_refl|]. }
  destruct (is_extents s n) eqn:Hext; cbn [negb]; [|wp_step; by apply Hnone].
  rewrite cluster_size. destruct (IS_ALIGNED _ _) eqn:Hal; cbn [negb]; [|wp_step; by apply Hnone].
  destruct (aligned_both offset len bits) as [Ha1 Ha2]; [apply Hblock|done|].
  rewrite s64_small by lia. fold bits start stop. set (POST := fun (_ : Z) _ => _) in *.
  assert (Hb : 0 < 2 ^ bits) by (apply Z.pow_pos_nonneg; [lia|apply Hblock]).
  pose proof (aligned_shift offset bits ltac:(apply Hblock) Ha1) as Eo. fold start in Eo.
  assert (Es : offset + len = stop * 2 ^ bits).
  { apply aligned_shift; [apply Hblock|]. rewrite Z.add_mod, Ha1, Ha2 by lia. by rewrite Z.mod_0_l by lia. }
  assert (Hrange : 0 <= start < stop) by nia.
  destruct Hunl as [U1 U2 U3]. unfold inode_lock. do 2 wp_step. do 2 wp_step.
  destruct (Z.leb_spec (i_size (inode_of s n)) (offset + len)) as [Hsz|Hsz].
  { unfold inode_unlock. do 2 wp_step. wp_step. by apply Hnone. }
  rewrite Hext. cbn [negb]. wp_step. apply wp_lock_mapping; [done| |].
  { intros ret calls1 Hr Hq1. unfold inode_unlock. do 2 wp_step. wp_step. by apply Hnone. }
  intros calls1 Hq1. do 2 wp_step.
  destruct (Z.eqb_spec z 0) as [->|Hne]; cbn [negb]; [|eapply wp_out_mmap; [reflexivity|]; intros; apply Hnone; [done|quiet_done; exact Hq1|done]].
  do 2 wp_step.
  destruct (Z.eqb_spec z 0) as [->|Hne]; cbn [negb]; [|eapply wp_out_mmap; [reflexivity|]; intros; apply Hnone; [done|quiet_done; exact Hq1|done]].
  do 5 wp_step. apply wp_journal_start_quiet.
  2:{ intros e calls2 He Hq2. eapply wp_out_mmap; [reflexivity|]. intros. apply Hnone; [done| |done].
      etrans; [|exact Hq2]. quiet_done. exact Hq1. }
  intros calls2 Hq2. assert (Hq2' : quiet calls calls2) by (etrans; [|exact Hq2]; quiet_done; exact Hq1).
  do 3 wp_step. rewrite !u32_small by lia. eapply wp_mono.
  { apply (wp_collapse_blocks k tries n s start stop len a); try done; try lia.
    destruct Hq2' as (_ & Hle & _). assert (Hcr' : (k < credit_calls calls2 + tries)%nat) by lia. exact Hcr'. }
  intros err [s3 h3 c3] [Hh3 Hres]. cbn [w_st w_held w_calls] in *.
  apply (collapse_result_from _ _ _ _ _ _ _ _ _ Hq2') in Hres.
  eapply wp_collapse_end; [exact Hh3|exact Hres|apply Hans|]. intros w Hh Hres'. split; [done|]. split; [done|].
  intros _. split_and!; [done|lia|lia|lia].
Qed.
End Handlers.

(** ** Inserting a range *)

(** The map of a file with a hole of [len] blocks inserted at block [off]. *)
Definition inserted (m : emap) (off len b : Z) : option (Z * bool) :=
  if b <? off then m b else if b <? off + len then None else m (b - len).

Section InsertTree.
Context `{ExtFmtOk} `{Env} `{TreeEnv} `{RemoveEnv}.

Lemma shifted_inserted m st off len b :
  0 < len -> off <= st -> (off < st -> forall b, b < st -> m b = None) ->
  shifted_right m st len b = inserted m off len b.
Proof.
  intros Hl Hle Hn. unfold shifted_right, inserted. destruct (Z.eq_dec off st) as [->|Hne]; [done|].
  assert (Hn' : forall b, b < st -> m b = None) by (apply Hn; lia).
  destruct (Z.ltb_spec b st), (Z.ltb_spec b off), (Z.ltb_spec b (off + len)), (Z.ltb_spec b (st + len));
    try lia; try done; rewrite ?Hn' by lia; done.
Qed.

Lemma first_le nd e : node_wf nd -> leaf_ok 0 (entries nd) -> e ∈ entries nd -> ee_block (slot nd 0) <= ee_block e.
Proof.
  intros Hwf Hok [i Hi]%list_elem_of_lookup. pose proof (lookup_lt_Some _ _ _ Hi) as Hlt.
  pose proof (length_entries nd Hwf) as Hlen. replace i with (Z.to_nat (Z.of_nat i)) in Hi by lia.
  rewrite entries_slot in Hi by (done || lia). injection Hi as <-.
  destruct (Z.eq_dec (Z.of_nat i) 0) as [->|]; [done|]. apply (slot_mono nd 0); [done|done|lia..].
Qed.

(** What [insert_split] promises: the map is as before, and the tree is ready. *)
Definition split_done (t : xtree) (off len : Z) (st : Z) (t' : xtree) : Prop :=
  flat t' /\ eh_max (x_root t') = eh_max (x_root t) /\
  (forall b, mapping (entries (x_root t')) b = mapping (entries (x_root t)) b) /\
  (forall e, e ∈ entries (x_root t') -> ee_block e < st -> ext_end e <= st) /\
  (0 < eh_entries (x_root t') -> ee_block (slot (x_root t') 0) <= st) /\
  (forall b, shifted_right (mapping (entries (x_root t))) st len b = inserted (mapping (entries (x_root t))) off len b).

(** The extent found does not reach over [off]. *)
Lemma found_uncut t x off len :
  flat t -> 0 < len -> 0 <= off -> let nd := x_root t in
  is_position (fun i => ee_block (slot nd i)) (eh_entries nd) off x ->
  ee_block (slot nd x) >= off \/ ext_end (slot nd x) <= off ->
  split_done t off len (Z.max (ee_block (slot nd x)) off) t.
Proof.
  intros Hfl Hl Ho nd (Hx & Hlo & Hhi) Hcase. pose proof Hfl as [_ Hwf Hok]. fold nd in Hwf, Hok.
  destruct (slot_ok nd 0 x Hwf Hok Hx) as [(Hx0 & Hxl & Hxe) _].
  assert (Hxin : slot nd x ∈ entries nd) by (eapply list_elem_of_lookup_2; by apply entries_slot).
  pose proof (first_le nd _ Hwf Hok Hxin) as Hf.
  assert (Hat : forall e, e ∈ entries nd -> exists i, 0 <= i < eh_entries nd /\ e = slot nd i).
  { intros e [i Hi]%list_elem_of_lookup. pose proof (lookup_lt_Some _ _ _ Hi). pose proof (length_entries nd Hwf).
    exists (Z.of_nat i). split; [lia|]. rewrite <- (Nat2Z.id i), entries_slot in Hi by (done || lia). congruence. }
  split_and!; [done|done|done| |intros _; fold nd; lia|].
  - intros e (i & Hi & ->)%Hat Hb. fold nd in Hb |- *. destruct (Z.lt_trichotomy i x) as [Hlt|[->|Hgt]].
    + pose proof (slot_sorted nd 0 i x Hwf Hok ltac:(lia) Hlt ltac:(lia)). lia.
    + lia.
    + specialize (Hhi i ltac:(lia)). cbn beta in Hhi. pose proof (slot_sorted nd 0 x i Hwf Hok ltac:(lia) Hgt ltac:(lia)). unfold ext_end in *. lia.
  - intros b. apply shifted_inserted; [done|lia|]. intros Hgt b' Hb'.
    assert (x = 0) as ->. { destruct (Z.eq_dec x 0); [done|]. specialize (Hlo x ltac:(lia)). cbn beta in Hlo. lia. }
    apply mapping_none. intros e He. apply covers_false. left. pose proof (first_le nd e Hwf Hok He). lia.
Qed.

Lemma wp_insert_split p off len t held calls (Q : Z * option path * Z -> world xtree -> Prop) :
  flat t -> journal_ok -> 0 < len -> 0 <= off < 2 ^ 32 -> flat_path p (ext4_ext_binsearch (x_root t) off) ->
  edge_at (x_root t) (off - 1) \/ room (x_root t) ->
  (forall p' st t' calls', (exists ex, flat_path p' ex) -> quiet calls calls' -> split_done t off len (Z.max st off) t' ->
     Q (0, Some p', st) (World t' held calls')) ->
  wp (insert_split off p) Q (World t held calls).
Proof.
  intros Hfl Hj Hl Ho Hfp Hroom HQ. pose proof Hfl as [Hd Hwf Hok]. pose proof Hfp as (Hlen & Hpd & Hh & Hb & Hx).
  unfold insert_split. do 2 wp_step. rewrite Hd, Hh, Hx. cbn [node_at]. set (nd := x_root t) in *.
  destruct (Z.eq_dec (eh_entries nd) 0) as [Hz|Hz].
  { replace (ext4_ext_binsearch nd off) with (@None Z) by (unfold ext4_ext_binsearch; by rewrite Hz). wp_step.
    apply HQ; [by eexists|done|]. assert (Hnil : entries nd = []) by (unfold entries; by rewrite Hz).
    unfold split_done. fold nd. rewrite Hnil, Hz. split_and!; try done; [set_solver|].
    intros b. unfold shifted_right, inserted. cbn [mapping]. by repeat case_match. }
  assert (Hn : 0 < eh_entries nd) by (destruct Hwf as (? & ? & ?); lia).
  destruct (binsearch_position nd 0 off Hwf Hok Hn) as (x & Hbs & Hpos). rewrite Hbs in *. pose proof Hpos as (Hxr & _).
  destruct (slot_ok nd 0 x Hwf Hok Hxr) as [Hex _]. pose proof Hex as (Hx0 & Hxl & Hxe).
  unfold ext_end in Hxe. rewrite (u32_small (ee_block (slot nd x) + _)) by lia. fold (ext_end (slot nd x)) in Hxe |- *.
  destruct ((ee_block (slot nd x) <? off) && (off <? ext_end (slot nd x))) eqn:Esp.
  2:{ wp_step. apply HQ; [by eexists|done|]. apply found_uncut; [done|done|lia|done|]. fold nd.
      apply andb_false_iff in Esp as [?%Z.ltb_ge|?%Z.ltb_ge]; lia. }
  apply andb_true_iff in Esp as [E1%Z.ltb_lt E2%Z.ltb_lt].
  assert (Hin : slot nd x ∈ entries nd) by (eapply list_elem_of_lookup_2; by apply entries_slot).
  destruct Hroom as [Hedge|[Hfree Hph]]; [specialize (Hedge _ Hin ltac:(lia)); lia|]. specialize (Hph _ Hin).
  destruct (split_leaf nd x off) as (nd' & Hins & Hent & Hwf' & Hn' & Hm'); [done..|].
  destruct (leaf_split_map nd x off) as [Hlo Hmap]; [done..|]. rewrite <- Hent in Hlo, Hmap.
  wp_step. apply wp_split_room with (x := x) (nd' := nd'); cbn [w_st w_held w_calls]; rewrite ?Hd, ?Hh; auto using split_flags; try lia.
  intros t' c Ht' Hq. wp_step. cbn [fst snd ppath_of].
  assert (Hroot : x_root t' = nd') by exact (Ht' InRoot).
  apply HQ; [|done|].
  { eexists. split_and!; rewrite ?length_pset, ?pnth_pset_eq by lia; done. }
  rewrite Z.max_r by lia. unfold split_done. rewrite Hroot. fold nd.
  assert (Hleft : left_half (slot nd x) off ∈ entries nd') by (rewrite Hent; set_solver).
  destruct (halves_spec (slot nd x) off Hex ltac:(lia) Hph) as ((_ & Hb1 & _) & _).
  split_and!; [|done|done| | |by intros; apply shifted_inserted; [done|lia|lia]].
  - split; [|by rewrite Hroot..]. unfold ext_depth in *. rewrite Hroot.
    rewrite (insert_slot_depth _ _ _ _ _ Hins). exact Hd.
  - assert (E : off - 1 + 1 = off) by lia.
    destruct (split_edge (off - 1) nd x nd' Hwf Hok Hxr) as [Hedge _]; rewrite ?E; [lia|done|done|].
    intros e He Hb'. specialize (Hedge e He ltac:(lia)). lia.
  - intros _. pose proof (first_le nd' _ Hwf' Hlo Hleft). lia.
Qed.
(** The tree after [insert_shift]: the map with the hole, or the old map after an error of
    the journal or of a last block that has no room to move. *)
Definition tree_inserted (t : xtree) (off len err : Z) (t' : xtree) : Prop :=
  let m := mapping (entries (x_root t)) in
  flat t' /\
  ((err = 0 /\ forall b, mapping (entries (x_root t')) b = inserted m off len b) \/
   (err <> 0 /\ (forall b, mapping (entries (x_root t')) b = m b) /\
    (refused \/ err = - EINVAL /\ exists b, m b <> None /\ EXT_MAX_BLOCKS <= b + len))).

Lemma shifted_right_ext {A} (m m' : Z -> option A) st len b :
  (forall b, m b = m' b) -> shifted_right m st len b = shifted_right m' st len b.
Proof. intros E. unfold shifted_right. by rewrite !E. Qed.

Lemma overflows_mapped nd len : node_wf nd -> leaf_ok 0 (entries nd) -> 0 < eh_entries nd -> overflows len nd ->
  exists b, mapping (entries nd) b <> None /\ EXT_MAX_BLOCKS <= b + len.
Proof.
  intros Hwf Hok Hn Hov. assert (Hr : 0 <= EXT_LAST nd < eh_entries nd) by (unfold EXT_LAST; lia).
  destruct (slot_ok nd 0 _ Hwf Hok Hr) as [(H0' & Hl' & He') _]. unfold overflows in Hov.
  exists (ext_end (slot nd (EXT_LAST nd)) - 1). split; [|lia].
  rewrite (mapping_covered 0 (entries nd) (slot nd (EXT_LAST nd))); [done|done| |].
  - eapply list_elem_of_lookup_2. by apply entries_slot.
  - apply covers_spec. unfold ext_end in *. lia.
Qed.

Lemma wp_insert_shift k tries off len ret0 t rest held calls :
  flat t -> journal_ok -> kcalloc_ok -> restart_bound k -> 0 < len -> 0 <= off < 2 ^ 32 ->
  edge_at (x_root t) (off - 1) \/ room (x_root t) -> (0 < tries)%nat -> (k < credit_calls calls + tries)%nat ->
  holds_sem rest held ->
  wp (insert_shift tries off len ret0)
    (fun r w => exists err, r = inr err /\ holds_sem rest (w_held w) /\ quiet calls (w_calls w) /\
       tree_inserted t off len err (w_st w)) (World t held calls).
Proof.
  intros Hfl Hj Hkc Hk Hl Ho Hroom Htries Hcr Hsem. pose proof Hfl as [Hd Hwf Hok].
  unfold insert_shift. wp_step. apply wp_find_flat_arg; [done..|]. intros p calls1 Hfp Hmd Hq1. wp_step.
  eapply wp_insert_split; [done..|]. intros p' st t1 calls2 [ex Hp'] Hq2 (Hfl1 & _ & Hm1 & Hcut & Hfst & Hins).
  cbn beta iota. wp_step. eapply wp_free_flat; [exact Hp'|]. cbn [Z.ltb Z.compare]. do 3 wp_step. pose proof Hfl1 as [_ Hwf1 Hok1].
  assert (Hq : quiet calls calls2) by (by etrans).
  eapply wp_mono.
  { apply (wp_shift_right k tries rest t1 held); try done; [|lia].
    destruct Hq as (_ & ? & _). change (k < credit_calls calls2 + tries)%nat. lia. }
  intros err w Hres. wp_step. exists err. split; [done|].
  destruct Hres as [(Hs' & Hq' & [(-> & Hfl' & _ & _ & Hm')|(He & -> & Hr)])|(-> & -> & Hs' & Hq' & Hn & Hov)].
  - split_and!; [done|etrans; [|exact Hq']; quiet_done; exact Hq|]. split; [done|]. left. split; [done|]. intros b.
    rewrite Hm', <- Hins. by apply shifted_right_ext.
  - split_and!; [done|etrans; [|exact Hq']; quiet_done; exact Hq|]. split; [done|]. right. split_and!; [done..|by left].
  - split_and!; [done|etrans; [|exact Hq']; quiet_done; exact Hq|]. split; [done|]. right. split_and!; [done..|right].
    split; [done|]. destruct (overflows_mapped _ len Hwf1 Hok1 Hn Hov) as (b & Hb & ?). exists b. by rewrite <- Hm1.
Qed.
End InsertTree.

Section InsertHandler.
Context `{ExtFmtOk} `{EnvFs} `{ExtOps} `{FallocEnv}.

(** The outcome of the handler: the file is as it was, after an error, or it has grown by
    [len] bytes and its tree is the one [tree_inserted] describes. *)
Definition insert_result (n : Z) (s : fs) (calls : list call) (off blocks len err : Z) (w : world fs) : Prop :=
  let i := inode_of s n in
  let i' := inode_of (w_st w) n in
  file_frame n s (w_st w) /\ freed (w_calls w) = freed calls /\
  ((err <> 0 /\ i_size i' = i_size i /\ i_disksize i' = i_disksize i /\ i_tree i' = i_tree i) \/
   (i_size i' = i_size i + len /\ i_disksize i' = i_disksize i + len /\
    tree_inserted (i_tree i) off blocks err (i_tree i'))).

Lemma insert_result_keep n s calls off blocks len err w s' h' calls' :
  insert_result n s calls off blocks len err w -> touched n (w_st w) s' -> quiet (w_calls w) calls' ->
  insert_result n s calls off blocks len err (World s' h' calls').
Proof.
  intros (Hf & Hfr & Hres) (Hf' & Ht & Hs & Hd) [Hq _]. unfold insert_result in *. cbn [w_st w_calls].
  rewrite Ht, Hs, Hd, Hq. split; [by etrans|done].
Qed.

Lemma insert_result_none n s calls off blocks len err h' calls' :
  err <> 0 -> quiet calls calls' -> insert_result n s calls off blocks len err (World s h' calls').
Proof. intros He [Hq _]. split; [done|]. split; [done|]. by left. Qed.

Variables (k tries : nat) (n : Z) (s : fs) (offset len : Z) (held : list res) (calls : list call).
Hypothesis Hans : answers_ok k.
Hypothesis Hfile : plain_file s n.
Hypothesis Hblock : 0 <= s_blocksize_bits s /\ s_blocksize (f_sbi s) = 2 ^ s_blocksize_bits s.
Hypothesis Hunl : unlocked n held.
Hypothesis Htries : (0 < tries)%nat.
Hypothesis Hcr : (k < credit_calls calls + tries)%nat.
Hypothesis Hsize : 0 <= i_size (inode_of s n) < 2 ^ 63.
Hypothesis Hdisk : 0 <= i_disksize (inode_of s n) <= i_size (inode_of s n).
Hypothesis Hbytes : 0 <= sb_maxbytes < 2 ^ 63 /\ sb_maxbytes < 2 ^ 32 * 2 ^ s_blocksize_bits s.
Let bits := s_blocksize_bits s.

Lemma wp_insert_blocks_at off blocks held1 calls1 :
  0 < len -> i_size (inode_of s n) + len < 2 ^ 63 -> 0 < blocks -> 0 <= off < 2 ^ 32 -> quiet calls calls1 ->
  edge_at (x_root (i_tree (inode_of s n))) (off - 1) \/ room (x_root (i_tree (inode_of s n))) ->
  existsb (blocks_on (Excl (LDataSem n))) held1 = false ->
  wp (insert_blocks_at tries n off blocks len)
    (fun err w => w_held w ≡ₚ held1 /\ insert_result n s calls off blocks len err w) (World s held1 calls1).
Proof.
  intros Hl Hsum Hb Ho Hq1 Hroom Hsem. destruct Hans as [Hj Hkc Hjs Hk]. unfold insert_blocks_at, down_write.
  do 9 wp_step. match goal with |- wp _ _ (World ?x _ _) => set (s1 := x) end.
  apply wp_touch. intros s2 c2 (Hf2 & Ht2 & Hs2 & Hd2) Hq2.
  assert (E1 : i_tree (inode_of s1 n) = i_tree (inode_of s n) /\ i_size (inode_of s1 n) = i_size (inode_of s n) + len /\
    i_disksize (inode_of s1 n) = i_disksize (inode_of s n) + len).
  { unfold s1. rewrite !inode_of_upd_eq. cbn [set_disksize set_isize i_size i_disksize i_tree]. rewrite !s64_small by lia. done. }
  assert (Hf : file_frame n s s2) by (etrans; [|exact Hf2]; unfold s1; etrans; by apply file_frame_upd).
  clearbody s1. destruct E1 as (Et1 & Es1 & Ed1). rewrite Et1 in Ht2. rewrite Es1 in Hs2. rewrite Ed1 in Hd2.
  wp_step. unfold ext4_mark_inode_dirty. wp_step.
  rewrite (proj2 (proj2 (Hj _ _))) in Hc. subst z. cbn [negb Z.eqb]. do 5 wp_step. apply wp_in_file. rewrite Ht2.
  assert (Hq3 : quiet calls c2) by (by etrans).
  eapply wp_mono.
  { apply (wp_insert_shift (H2 := tree_env s2 n) (H3 := file_env s2 n) k tries off blocks 0 _ held1); try done; try lia; [apply Hfile|].
    destruct Hq3 as (_ & ? & _).
    change (k < credit_calls c2 + tries)%nat. lia. }
  intros r [t3 h3 c3] (err & -> & [Hh3 _] & Hq4 & Hti). unfold data_sem in Hh3. cbn [ino tree_env w_st w_held w_calls] in *.
  wp_step. unfold up_write. eapply wp_release_perm; [exact Hh3|]. cbn [w_st w_calls]. intros h Hh.
  assert (Hres : insert_result n s calls off blocks len err (World (put_tree n t3 s2) h c3)).
  { split; [etrans; [exact Hf|apply frame_put_tree]|]. cbn [w_st w_calls]. rewrite tree_of_put.
    assert (Hq5 : quiet calls c3) by (etrans; [|exact Hq4]; quiet_done; exact Hq3). split; [apply Hq5|]. right.
    unfold put_tree. rewrite inode_of_upd_eq. by split_and!. }
  do 3 wp_step. apply wp_handle_sync. intros c5 Hq5. wp_step.
  assert (Hend : forall c6, quiet c5 c6 ->
    h ≡ₚ held1 /\ insert_result n s calls off blocks len err (World (put_tree n t3 s2) h c6)).
  { intros c6 Hq6. split; [done|]. eapply insert_result_keep; [exact Hres|apply touched_refl|]. cbn [w_calls].
    etrans; [|exact Hq6]. etrans; [|exact Hq5]. quiet_done. }
  destruct (0 <=? err); repeat wp_step; apply Hend; quiet_done.
Qed.
(** C10: [ext4_insert_range] of a file whose extents are all in the inode, on a file system
    without clusters, when the journal starts a handle and accepts every buffer, memory is
    there, the transaction is restarted at most [k] times, less than the tries modelled, the
    offset is the edge of an extent or there is room to split one, the locks of the file are
    free, and s_maxbytes is at most 2^32 blocks: it gives back its locks and its handle on
    every answer that these conditions leave open.  When it answers 0 the file is [len] bytes
    longer, has a hole of [len] bytes at [offset] and every later block [len] bytes further on.
    An error leaves the map of the file: it comes before the file has grown, or from the journal
    during the shift, or is EINVAL because the last extent has no room to move; in the last two
    the file has grown.  Without memory for the path of the lookup the answer is 0 and
    nothing is shifted: that is the example run_insert_lost, which these conditions exclude. *)
Theorem insert_range_correct :
  0 <= offset -> 0 < len < 2 ^ 63 ->
  let off := Z.shiftr offset bits in
  let blocks := Z.shiftr len bits in
  edge_at (x_root (i_tree (inode_of s n))) (off - 1) \/ room (x_root (i_tree (inode_of s n))) ->
  exists err w', ext4_insert_range tries n offset len (World s held calls) = Ret err w' /\
    w_held w' ≡ₚ held /\ insert_result n s calls off blocks len err w' /\
    (err = 0 -> is_extents s n = true /\ off * 2 ^ bits = offset /\ blocks * 2 ^ bits = len /\
       offset < i_size (inode_of s n) /\ i_size (inode_of s n) + len <= sb_maxbytes).
Proof.
  intros Ho Hl off blocks Hroom. apply (wp_run _ (fun err w' => w_held w' ≡ₚ held /\
    insert_result n s calls off blocks len err w' /\ (err = 0 -> is_extents s n = true /\ off * 2 ^ bits = offset /\
    blocks * 2 ^ bits = len /\ offset < i_size (inode_of s n) /\ i_size (inode_of s n) + len <= sb_maxbytes))).
  set (POST := fun (_ : Z) _ => _).
  assert (Hnone : forall err h calls', err <> 0 -> quiet calls calls' -> h ≡ₚ held -> POST err (World s h calls')).
  { intros err h calls' He Hq Hh. split; [done|]. split; [|done]. by apply insert_result_none. }
  unfold ext4_insert_range. do 2 wp_step.
  destruct (is_extents s n) eqn:Hext; cbn [negb]; [|wp_step; by apply Hnone].
  rewrite (cluster_size n s Hfile Hblock). destruct (IS_ALIGNED _ _) eqn:Hal; cbn [negb]; [|wp_step; by apply Hnone].
  destruct (aligned_both offset len bits) as [Ha1 Ha2]; [apply Hblock|done|].
  assert (Hb : 0 < 2 ^ bits) by (apply Z.pow_pos_nonneg; [lia|apply Hblock]).
  pose proof (aligned_shift offset bits ltac:(apply Hblock) Ha1) as Eo. fold off in Eo.
  pose proof (aligned_shift len bits ltac:(apply Hblock) Ha2) as El. fold blocks in El.
  destruct Hunl as [U1 U2 U3]. unfold inode_lock. do 2 wp_step. do 2 wp_step. rewrite Hext. cbn [negb].
  rewrite s64_small by lia. destruct (Z.ltb_spec (sb_maxbytes - i_size (inode_of s n)) len) as [Hbig|Hfits].
  { unfold inode_unlock. do 2 wp_step. wp_step. by apply Hnone. }
  destruct (Z.leb_spec (i_size (inode_of s n)) offset) as [Hpast|Hin].
  { unfold inode_unlock. do 2 wp_step. wp_step. by apply Hnone. }
  fold bits in Hbytes |- *. fold off blocks. assert (Hoff : 0 <= off < 2 ^ 32) by nia. assert (Hblk : 0 < blocks < 2 ^ 32) by nia.
  rewrite !u32_small by lia. wp_step. apply wp_lock_mapping; [done| |].
  { intros ret calls1 Hr Hq1. unfold inode_unlock. do 2 wp_step. wp_step. by apply Hnone. }
  intros calls1 Hq1. do 2 wp_step.
  destruct (Z.eqb_spec z 0) as [->|Hne]; cbn [negb];
    [|eapply wp_out_mmap; [reflexivity|]; intros; apply Hnone; [done|quiet_done; exact Hq1|done]].
  do 4 wp_step. wp_step. apply wp_journal_start_quiet.
  2:{ intros e calls2 He Hq2. eapply wp_out_mmap; [reflexivity|]. intros. apply Hnone; [done| |done].
      etrans; [|exact Hq2]. quiet_done. exact Hq1. }
  intros calls2 Hq2. assert (Hq2' : quiet calls calls2) by (etrans; [|exact Hq2]; quiet_done; exact Hq1).
  do 3 wp_step. eapply wp_mono.
  { apply (wp_insert_blocks_at off blocks); try done; try lia. quiet_done. exact Hq2'. }
  intros err [s3 h3 c3] [Hh3 Hres]. cbn [w_st w_held w_calls] in *.
  eapply wp_out_stop; [exact Hh3|]. intros h c' Hh Hq. split; [done|]. split; [|by intros _; split_and!; lia || done].
  eapply insert_result_keep; [exact Hres|apply touched_refl|exact Hq].
Qed.
End InsertHandler.

(** ** Truncating *)

Section Truncate.
Context `{ExtFmtOk} `{EnvFs} `{ExtOps} `{FallocEnv}.

(** The block after the last one of [size] bytes. *)
Definition blocks_end (s : fs) (n : Z) : Z :=
  Z.shiftr (i_size (inode_of s n) + s_blocksize (f_sbi s) - 1) (s_blocksize_bits s).

Lemma ends_in_range nd : leaf_ok 0 (entries nd) -> edge_at nd (EXT_MAX_BLOCKS - 1).
Proof.
  intros Hok e Hin _. pose proof (leaf_ok_elem 0 _ e Hok Hin) as [(? & ? & ?) _]. rewrite fmt_max_blocks. lia.
Qed.

(** C12: [ext4_ext_truncate] of a file of [i_size] bytes whose extents are all in the inode
    with a root that passes ext4_ext_check, on a file system without clusters, when memory is
    there, the journal starts a handle, accepts every buffer and grants the credits at once, and
    [i_data_sem] is held once, for sizes of less than 2^32 blocks: it answers 0, the size on disk is the size, no block from
    [blocks_end] on is mapped, the blocks before it are mapped as they were, exactly the blocks
    behind them are freed, and nothing else of the file system changes. *)
Theorem truncate_correct k rounds tries a n s rest calls :
  answers_ok k -> plain_file s n -> ~ refused -> (0 < rounds)%nat -> (0 < tries)%nat ->
  (k < credit_calls calls + tries)%nat -> existsb (blocks_on (Excl (LDataSem n))) rest = false ->
  0 <= blocks_end s n < 2 ^ 32 -> 0 <= i_size (inode_of s n) + s_blocksize (f_sbi s) - 1 < 2 ^ 64 ->
  ext4_ext_check (H1 := tree_env s n) (i_tree (inode_of s n)) (x_root (i_tree (inode_of s n))) true 0 0 = 0 ->
  exists w', ext4_ext_truncate rounds tries a n (World s (Excl (LDataSem n) :: rest) calls) = Ret 0 w' /\
    w_held w' ≡ₚ Excl (LDataSem n) :: rest /\ file_frame n s (w_st w') /\
    i_size (inode_of (w_st w') n) = i_size (inode_of s n) /\
    i_disksize (inode_of (w_st w') n) = i_size (inode_of s n) /\
    (forall b, file_map (w_st w') n b = cut_map (file_map s n) (blocks_end s n) (EXT_MAX_BLOCKS - 1) b) /\
    freed (w_calls w') ≡ₚ phys_range (file_map s n) (blocks_end s n) (EXT_MAX_BLOCKS - 1) ++ freed calls.
Proof.
  intros [Hj Hkc Hjs Hk] [Hfl Hmax Hratio Hbits] Href Hrounds Htries Hcr Hsem Hb Hs Hchk.
  assert (Hw : wp (ext4_ext_truncate rounds tries a n) (fun err w' => err = 0 /\
    w_held w' ≡ₚ Excl (LDataSem n) :: rest /\ file_frame n s (w_st w') /\
    i_size (inode_of (w_st w') n) = i_size (inode_of s n) /\
    i_disksize (inode_of (w_st w') n) = i_size (inode_of s n) /\
    (forall b, file_map (w_st w') n b = cut_map (file_map s n) (blocks_end s n) (EXT_MAX_BLOCKS - 1) b) /\
    freed (w_calls w') ≡ₚ phys_range (file_map s n) (blocks_end s n) (EXT_MAX_BLOCKS - 1) ++ freed calls)
    (World s (Excl (LDataSem n) :: rest) calls)).
  2:{ apply wp_run in Hw as (err & w' & Hr & -> & Hw). by exists w'. }
  unfold ext4_ext_truncate, ext4_mark_inode_dirty. do 2 wp_step. set (s1 := upd_inode n _ s).
  assert (E1 : i_tree (inode_of s1 n) = i_tree (inode_of s n) /\ i_size (inode_of s1 n) = i_size (inode_of s n) /\
    i_disksize (inode_of s1 n) = i_size (inode_of s n)) by (unfold s1; by rewrite inode_of_upd_eq).
  assert (Hf : file_frame n s s1) by by apply file_frame_upd.
  assert (Hend : u32 (Z.shiftr (u64 (i_size (inode_of s1 n) + s_blocksize (f_sbi s1) - 1)) (s_blocksize_bits s1)) = blocks_end s n).
  { destruct E1 as (_ & -> & _). change (f_sbi s1) with (f_sbi s). rewrite u64_small by lia. apply u32_small. exact Hb. }
  destruct E1 as (Et1 & Es1 & Ed1). do 2 wp_step. rewrite (proj2 (proj2 (Hj _ _))) in Hc. subst z. cbn [negb Z.eqb].
  do 4 wp_step. rewrite !Hend. destruct rounds as [|rounds]; [lia|]. cbn [remove_retrying]. wp_step. apply wp_in_file. rewrite Et1.
  pose proof Hfl as [Hd Hwf Hok]. assert (Emax : EXT_MAX_BLOCKS = 2 ^ 32 - 1) by apply fmt_max_blocks.
  eapply wp_mono.
  { apply (wp_remove_space (H2 := tree_env s1 n) (H3 := file_env s1 n) k _ _ _ _ _ rest); try done; try lia.
    left. by apply ends_in_range. }
  intros err [t1 h1 c1] (Hh1 & _ & _ & b0 & Hpr & Hz & Hfail). unfold data_sem in Hh1. cbn [ino tree_env w_st w_held w_calls] in *.
  assert (err = 0) as ->.
  { destruct (Z.eq_dec err 0) as [|Hne]; [done|]. destruct (Hfail Hne) as [?|[_ Hbad]]; [done|]. by contradict Hbad. }
  rewrite (Hz eq_refl) in Hpr. change (0 =? - ENOMEM) with false. cbn iota. wp_step. split_and!; [done|done|etrans; [exact Hf|apply frame_put_tree]| | | |].
  - unfold put_tree. by rewrite inode_of_upd_eq.
  - unfold put_tree. by rewrite inode_of_upd_eq.
  - intros b. unfold file_map at 1. rewrite tree_of_put. exact (pr_map _ _ _ _ _ _ _ _ Hpr b).
  - exact (pr_freed _ _ _ _ _ _ _ _ Hpr).
Qed.
End Truncate.
