(* ===== verification/FallocAlloc.v ===== *)
(** * Preallocating

    What [ext4_alloc_file_blocks] and the plain branch of [ext4_fallocate] promise, against
    an interface for the block mapping of inode.c: the loop ends, the whole range has blocks
    when the answer is 0, and the sizes grow as far as they have to and no further. *)

From stdpp Require Import prelude list gmap strings.
From Stdlib Require Import ZArith Lia.
From S2P Require Import Prelude Kernel Layout ExtentNode ExtentTree ExtentTreeSpec ExtentMap Fs Namei Mkdir EvfsExtent.
From S2P Require Import Falloc FallocSpec.

Local Open Scope string_scope.
Local Open Scope Z_scope.

(** ** The interface *)

(** What [ext4_map_blocks] promises when it may create blocks: it maps at least one block
    from [lblk] on or answers an error, and never more than asked; blocks mapped before stay
    mapped, and the sizes of the inode stay.  [allocated s n b]: block [b] of inode [n] has
    an extent, which sizes and times have no part in. *)
Class FallocOpsOk `{Env} `{FallocOps} := {
  allocated : fs -> Z -> Z -> Prop;
  allocated_frame n s s' b : file_frame n s s' -> i_tree (inode_of s' n) = i_tree (inode_of s n) ->
    allocated s n b -> allocated s' n b;
  wp_map_blocks n lblk mlen flags s held calls (Q : Z * Z -> world fs -> Prop) :
    0 <= lblk -> 0 < mlen -> has_flag flags EXT4_GET_BLOCKS_CREATE = true ->
    existsb (blocks_on (Excl (LDataSem n))) held = false ->
    (forall ret mlen' s' calls', ret <> 0 -> ret <= mlen -> 0 < mlen' <= mlen ->
       s_blocksize_bits s' = s_blocksize_bits s -> i_flags (inode_of s' n) = i_flags (inode_of s n) ->
       i_size (inode_of s' n) = i_size (inode_of s n) -> i_disksize (inode_of s' n) = i_disksize (inode_of s n) ->
       (forall b, allocated s n b -> allocated s' n b) ->
       (forall b, lblk <= b < lblk + ret -> allocated s' n b) -> Q (ret, mlen') (World s' held calls')) ->
    wp (ext4_map_blocks n lblk mlen flags) Q (World s held calls)
}.

(** [ext4_should_retry_alloc] counts the tries and stops after the fourth. *)
Record retries_ok `{Env} : Prop := {
  rt_stop : forall h r, 3 < r -> env_int h "ext4_should_retry_alloc" [r] = 0;
  rt_next : forall h r, r < env_int h "ext4_should_retry_alloc:retries" [r]
}.

Section Alloc.
Context `{ExtFmtOk} `{EnvFs} `{FallocEnv} `{!FallocOps} `{!FallocOpsOk}.
Variables (n : Z).

(** Blocks stay; the size of a block and the flags of the inode as well. *)
Record kept (s s' : fs) : Prop := {
  kp_bits : s_blocksize_bits s' = s_blocksize_bits s;
  kp_flags : i_flags (inode_of s' n) = i_flags (inode_of s n);
  kp_blocks : forall b, allocated s n b -> allocated s' n b
}.

#[export] Instance kept_preorder : PreOrder kept.
Proof. split; [by split|]. intros s1 s2 s3 [B1 F1 A1] [B2 F2 A2]. split; [congruence|congruence|auto]. Qed.

Lemma kept_frame s s' : file_frame n s s' -> i_tree (inode_of s' n) = i_tree (inode_of s n) -> kept s s'.
Proof.
  intros Hf Ht. split; [|by eapply file_frame_flags|by intros; eapply allocated_frame].
  unfold s_blocksize_bits. by rewrite (file_frame_sbi n s s').
Qed.

(** A step that keeps the blocks and the sizes; one that stretches the sizes to [e]. *)
Definition still (s s' : fs) : Prop :=
  kept s s' /\ i_size (inode_of s' n) = i_size (inode_of s n) /\ i_disksize (inode_of s' n) = i_disksize (inode_of s n).
Definition stretched (e : Z) (s s' : fs) : Prop :=
  kept s s' /\ i_size (inode_of s' n) = Z.max (i_size (inode_of s n)) e /\
  i_disksize (inode_of s' n) = Z.max (i_disksize (inode_of s n)) e.

#[export] Instance still_preorder : PreOrder still.
Proof.
  split; [intros s; split; [reflexivity|done]|]. intros s1 s2 s3 (K1 & S1 & D1) (K2 & S2 & D2). split; [by etrans|split; congruence].
Qed.

Lemma touched_still s s' : touched n s s' -> still s s'.
Proof. intros (Hf & Ht & Hs & Hd). split_and!; [by apply kept_frame|done|done]. Qed.

Lemma stretched_still e s1 s2 s3 : stretched e s1 s2 -> still s2 s3 -> stretched e s1 s3.
Proof. intros (K1 & S1 & D1) (K2 & S2 & D2). split; [by etrans|split; congruence]. Qed.
Lemma still_stretched e s1 s2 s3 : still s1 s2 -> stretched e s2 s3 -> stretched e s1 s3.
Proof. intros (K1 & S1 & D1) (K2 & S2 & D2). split; [by etrans|]. by rewrite S2, D2, S1, D1. Qed.

Lemma wp_ctime s held calls (Q : timespec -> world fs -> Prop) :
  (forall ts s' calls', touched n s s' -> quiet calls calls' -> Q ts (World s' held calls')) ->
  wp (inode_set_ctime_current n) Q (World s held calls).
Proof.
  intros HQ. unfold inode_set_ctime_current, current_time. repeat wp_step. apply HQ; [|quiet_done].
  unfold touched. rewrite inode_of_upd_eq. split; [by apply file_frame_upd|done].
Qed.

Lemma wp_mtime ts s held calls (Q : unit -> world fs -> Prop) :
  (forall s', touched n s s' -> Q tt (World s' held calls)) ->
  wp (inode_set_mtime_to_ts n ts) Q (World s held calls).
Proof.
  intros HQ. unfold inode_set_mtime_to_ts. wp_step. apply HQ.
  unfold touched. rewrite inode_of_upd_eq. split; [by apply file_frame_upd|done].
Qed.

(** [ext4_update_inode_size] stretches both sizes. *)
Lemma wp_update_inode_size e s held calls (Q : Z -> world fs -> Prop) :
  existsb (blocks_on (Excl (LDataSem n))) held = false ->
  (forall c s', stretched e s s' -> Q c (World s' held calls)) ->
  wp (ext4_update_inode_size n e) Q (World s held calls).
Proof.
  intros Hl HQ. unfold ext4_update_inode_size. do 2 wp_step.
  assert (Hbody : forall c s1, file_frame n s s1 -> i_tree (inode_of s1 n) = i_tree (inode_of s n) ->
    i_size (inode_of s1 n) = Z.max (i_size (inode_of s n)) e -> i_disksize (inode_of s1 n) = i_disksize (inode_of s n) ->
    wp (s0 <~ kget;; if i_disksize (inode_of s0 n) <? e then ext4_update_i_disksize n e;;; kret (Z.lor c 2) else kret c)
      Q (World s1 held calls)).
  { intros c s1 Hf Ht Hs Hd. do 2 wp_step. rewrite Hd. destruct (Z.ltb_spec (i_disksize (inode_of s n)) e).
    - unfold ext4_update_i_disksize, down_write, up_write. do 2 wp_step. do 3 wp_step. wp_step. apply HQ.
      unfold stretched. rewrite !inode_of_upd_eq, !Hd, (proj2 (Z.ltb_lt _ _)) by done.
      cbn [set_disksize i_size i_disksize]. split; [|split; [done|lia]].
      apply kept_frame; [etrans; [exact Hf|]; apply file_frame_upd; intros; by case_match|].
      by rewrite inode_of_upd_eq, Hd, (proj2 (Z.ltb_lt _ _)).
    - wp_step. apply HQ. unfold stretched. split; [by apply kept_frame|split; [done|lia]]. }
  destruct (Z.ltb_spec (i_size (inode_of s n)) e).
  - do 4 wp_step. apply Hbody; rewrite ?inode_of_upd_eq; cbn [set_isize i_tree i_size i_disksize]; try done; [by apply file_frame_upd|lia].
  - wp_step. wp_step. apply Hbody; [done|done|lia|done].
Qed.

(** ** The loop *)

Section Loop.
Variables (new_size flags start stop : Z) (s0 : fs) (held : list res).
Let bits := s_blocksize_bits s0.
Hypothesis Hrange : 0 <= start /\ stop < 2 ^ 32.
Hypothesis Hbytes : stop * 2 ^ bits < 2 ^ 63.
Hypothesis Hcreate : has_flag flags EXT4_GET_BLOCKS_CREATE = true.
Hypothesis Hsem : existsb (blocks_on (Excl (LDataSem n))) held = false.
Hypothesis Hretry : retries_ok.

(** The sizes when the blocks before [reached] are there. *)
Definition sizes_at (reached : Z) (s : fs) : Prop :=
  if (new_size =? 0) || (reached <=? start) then still s0 s
  else stretched (Z.min new_size (reached * 2 ^ bits)) s0 s.

(** The blocks before [reached] are there, and the sizes as far. *)
Definition reached_by (reached : Z) (s : fs) : Prop :=
  start <= reached <= stop /\ sizes_at reached s /\ forall b, start <= b < reached -> allocated s n b.

Definition alloc_inv (st : allocation) (w : world fs) : Prop :=
  w_held w = held /\ reached_by (al_lblk st) (w_st w) /\ al_lblk st + al_len st = stop /\
  (0 < al_len st -> 0 < al_mlen st <= al_len st) /\
  (al_len st = 0 -> al_ret st = 0 \/ 0 < al_ret st /\ al_ret2 st = 0).

Definition alloc_post (ret : Z) (w : world fs) : Prop :=
  w_held w = held /\ exists reached, reached_by reached (w_st w) /\ (ret = 0 -> reached = stop).

Definition alloc_mu (st : allocation) (_ : world fs) : Z := al_len st * 5 + Z.max 0 (4 - al_retries st).

Lemma sizes_at_kept r s : sizes_at r s -> kept s0 s.
Proof. unfold sizes_at. destruct (_ || _); by intros (? & _). Qed.

Lemma sizes_at_still r s s' : sizes_at r s -> still s s' -> sizes_at r s'.
Proof.
  unfold sizes_at. destruct (_ || _); intros Hs Hst; [by etrans|by eapply stretched_still].
Qed.

Lemma reached_by_still r s s' : reached_by r s -> still s s' -> reached_by r s'.
Proof.
  intros (Hr & Hs & Hb) Hst. split_and!; [lia|lia|by eapply sizes_at_still|].
  intros b Hin. destruct Hst as [Hk _]. by apply (kp_blocks _ _ Hk), Hb.
Qed.

(** The end of the loop: another try, or the answer. *)
Lemma wp_alloc_end m st w :
  w_held w = held -> reached_by (al_lblk st) (w_st w) -> al_lblk st + al_len st = stop -> 0 <= al_len st ->
  (0 < al_len st -> 0 < al_mlen st <= al_len st) ->
  (al_ret st = 0 \/ 0 < al_ret st /\ al_ret2 st = 0 -> al_len st = 0) ->
  (al_ret st = - ENOSPC -> 0 < al_len st /\ alloc_mu st w - 1 <= m) ->
  wp (alloc_end st) (round_ok alloc_inv alloc_mu alloc_post m) w.
Proof.
  destruct w as [s h c]. cbn [w_held w_st]. intros -> Hr Hsum Hlen Hml Hdone Hno. unfold alloc_end.
  assert (Hret : forall c', alloc_post (if 0 <? al_ret st then al_ret2 st else al_ret st) (World s held c')).
  { intros c'. split; [done|]. exists (al_lblk st). split; [done|].
    destruct (Z.ltb_spec 0 (al_ret st)); intros; lia. }
  wp_step. destruct (Z.eqb_spec (al_ret st) (- ENOSPC)) as [Hns|Hne].
  2:{ wp_step. cbn [negb Z.eqb]. wp_step. by apply Hret. }
  wp_step. destruct (Z.eqb_spec z 0) as [->|Hz]; cbn [negb]; [wp_step; by apply Hret|].
  assert (al_retries st <= 3).
  { destruct (Z.le_gt_cases (al_retries st) 3); [done|]. rewrite (rt_stop Hretry) in Hc by lia. congruence. }
  do 2 wp_step. wp_step. cbn [round_ok]. destruct (Hno Hns) as [Hpos Hm].
  pose proof (rt_next Hretry (("ext4_should_retry_alloc", [al_retries st]) :: c) (al_retries st)) as Hnext.
  rewrite Hc0 in Hnext. unfold alloc_mu in *. cbn [al_len al_retries]. split; [|lia].
  unfold alloc_inv. cbn [w_held w_st al_lblk al_len al_mlen al_ret al_ret2]. split_and!; try done; try lia.
Qed.

(** The blocks that a call maps. *)
Lemma reached_more r ret s s1 s2 :
  reached_by r s -> kept s s1 -> (forall b, r <= b < r + ret -> allocated s1 n b) -> 0 < ret -> r + ret <= stop ->
  sizes_at (r + ret) s2 -> kept s1 s2 -> reached_by (r + ret) s2.
Proof.
  intros (Hr & _ & Hb) Hk Hnew Hpos Hle Hs Hk2. split_and!; [lia|lia|done|].
  intros b Hin. apply (kp_blocks _ _ Hk2). destruct (Z.lt_ge_cases b r).
  - apply (kp_blocks _ _ Hk), Hb. lia.
  - apply Hnew. lia.
Qed.

Lemma sizes_stretch r r' s s1 : start <= r < r' -> new_size <> 0 -> sizes_at r s ->
  stretched (Z.min new_size (r' * 2 ^ bits)) s s1 -> sizes_at r' s1.
Proof.
  unfold sizes_at. intros Hr Hn%Z.eqb_neq Hs (K1 & S1 & D1). rewrite Hn in *. cbn [orb] in *.
  assert (r * 2 ^ bits <= r' * 2 ^ bits) by (apply Z.mul_le_mono_nonneg_r; lia).
  destruct (Z.leb_spec r' start), (Z.leb_spec r start); try lia; destruct Hs as (K & S & D).
  - split; [by etrans|lia].
  - split; [by etrans|lia].
Qed.

(** The sizes and times after a call. *)
Lemma wp_stretch_sizes epos s h calls (Q : unit -> world fs -> Prop) :
  existsb (blocks_on (Excl (LDataSem n))) h = false ->
  (forall s' calls', (if new_size =? 0 then still s s' else stretched (Z.min new_size epos) s s') -> Q tt (World s' h calls')) ->
  wp (if negb (new_size =? 0) then
        changed <~ ext4_update_inode_size n (if new_size <? epos then new_size else epos);;
        if negb (Z.land changed 1 =? 0) then s <~ kget;; inode_set_mtime_to_ts n (i_ctime (inode_of s n)) else kret tt
      else kret tt) Q (World s h calls).
Proof.
  intros Hh HQ. destruct (Z.eqb_spec new_size 0) as [Hz|Hz]; cbn [negb]; [wp_step; by apply HQ|].
  replace (if new_size <? epos then new_size else epos) with (Z.min new_size epos)
    by (destruct (Z.ltb_spec new_size epos); lia).
  wp_step. apply wp_update_inode_size; [done|]. intros c s2 Hs2.
  destruct (negb _).
  - do 2 wp_step. apply wp_mtime. intros s3 Ht3%touched_still. apply HQ. by eapply stretched_still.
  - wp_step. by apply HQ.
Qed.

(** The sizes reach as far as the blocks. *)
Lemma sizes_advance r r' s s' :
  start <= r < r' -> sizes_at r s ->
  (if new_size =? 0 then still s s' else stretched (Z.min new_size (r' * 2 ^ bits)) s s') -> sizes_at r' s'.
Proof.
  intros Hr Hs. destruct (Z.eqb_spec new_size 0) as [Hz|Hz]; [|by apply (sizes_stretch r)].
  unfold sizes_at in *. rewrite Hz in *. cbn [Z.eqb orb] in *. intros. by etrans.
Qed.

Lemma wp_alloc_mapped a st s calls :
  reached_by (al_lblk st) s -> al_lblk st + al_len st = stop -> 0 < al_mlen st <= al_len st ->
  wp (alloc_mapped n new_size flags s a st)
    (round_ok alloc_inv alloc_mu alloc_post (al_len st * 5 + Z.max 0 (4 - al_retries st) - 1))
    (World s (Ref RHandle :: held) calls).
Proof.
  intros Hr Hsum Hml. pose proof Hr as (Hr1 & Hsz & _). unfold alloc_mapped, ext4_mark_inode_dirty. wp_step.
  apply wp_map_blocks; [lia|lia|done|done|]. intros ret mlen' s1 c1 Hret Hle Hml' Kb Kf Ks Kd Ka Hnew. cbn iota.
  assert (Hst : still s s1) by (split; [by split|done]). pose proof (reached_by_still _ _ _ Hr Hst) as Hr'.
  destruct (Z.leb_spec ret 0) as [Hneg|Hpos].
  { do 3 wp_step. unfold end_handle. wp_step. apply wp_journal_stop. intros _ c2. wp_step.
    apply wp_alloc_end; cbn [w_held w_st al_lblk al_len al_mlen al_ret al_ret2]; try done; try lia.
    intros _. unfold alloc_mu. cbn [al_len al_retries]. lia. }
  assert (Hnext : al_lblk st + ret <= stop) by lia.
  rewrite (u32_small (al_lblk st + ret)), (u32_small (al_len st - ret)) by lia.
  assert (Hb0 : s_blocksize_bits s = bits) by apply (kp_bits _ _ (sizes_at_kept _ _ Hsz)).
  assert (Hbits : 0 <= bits) by apply Z.log2_nonneg. pose proof (Z.pow_pos_nonneg 2 bits ltac:(lia) Hbits) as Hpow.
  assert (Hepos : s64 (Z.shiftl (al_lblk st + ret) (s_blocksize_bits s)) = (al_lblk st + ret) * 2 ^ bits).
  { rewrite Hb0, Z.shiftl_mul_pow2 by done. apply s64_small. nia. }
  rewrite Hepos. wp_step. apply wp_ctime. intros ts s2 c2 Ht%touched_still _. wp_step.
  apply wp_stretch_sizes; [done|]. intros s3 c3 Hs3. do 4 wp_step. wp_step. apply wp_journal_stop. intros ret3 c4.
  set (ret2 := if negb (ret3 =? 0) then ret3 else _).
  assert (Hst2 : still s s2) by (by etrans).
  assert (Hk3 : kept s2 s3) by (destruct (new_size =? 0); apply Hs3).
  assert (Hr3 : reached_by (al_lblk st + ret) s3).
  { apply (reached_more (al_lblk st) ret s s2); try done; try lia; [apply Hst2|intros b Hin; apply Ht, Hnew, Hin|].
    eapply (sizes_advance (al_lblk st)); [lia|by eapply sizes_at_still|done]. }
  destruct (Z.eqb_spec ret2 0) as [Hz2|Hz2]; cbn [negb].
  - wp_step. cbn [round_ok]. unfold alloc_inv, alloc_mu. cbn [w_held w_st al_lblk al_len al_mlen al_ret al_ret2 al_retries].
    split_and!; try done; lia.
  - apply wp_alloc_end; cbn [w_held w_st al_lblk al_len al_mlen al_ret al_ret2]; try done; try lia.
    intros E. assert (- ENOSPC < 0) by done. lia.
Qed.

Lemma wp_alloc_round st w : alloc_inv st w ->
  wp (alloc_round n new_size flags st) (round_ok alloc_inv alloc_mu alloc_post (alloc_mu st w - 1)) w.
Proof.
  destruct w as [s h calls]. intros (Hh & Hr & Hsum & Hml & Hdone). cbn [w_held w_st] in *. subst h.
  pose proof Hr as (Hr1 & Hsz & _). unfold alloc_round. destruct (Z.eqb_spec (al_len st) 0) as [Hz|Hz].
  { apply wp_alloc_end; cbn [w_held w_st]; try done; try lia. intros E. assert (- ENOSPC < 0) by done. lia. }
  specialize (Hml ltac:(lia)). do 2 wp_step. wp_step.
  set (depth := ext_depth (i_tree (inode_of s n))). set (m := alloc_mu st _ - 1).
  assert (Hgo : forall a c, wp (h <~ ext4_journal_start a;;
      match h with
      | PtrErr e => alloc_end (Alloc (al_lblk st) (al_mlen st) (al_len st) a depth (al_retries st) e (al_ret2 st))
      | PtrNull => koops
      | PtrOk => alloc_mapped n new_size flags s a st
      end) (round_ok alloc_inv alloc_mu alloc_post m) (World s held c)).
  { intros a c. wp_step. apply wp_journal_start; [intros c'; by apply wp_alloc_mapped|]. intros e c' He.
    apply wp_alloc_end; cbn [w_held w_st al_lblk al_len al_mlen al_ret al_ret2]; try done; try lia.
    intros _. unfold m, alloc_mu. cbn [al_len al_retries]. lia. }
  destruct (negb _); wp_step; apply Hgo.
Qed.
End Loop.

(** ** The range *)

Lemma has_flag_lor a b f : has_flag a f = true -> has_flag (Z.lor a b) f = true.
Proof.
  unfold has_flag. rewrite !negb_true_iff, !Z.eqb_neq, Z.land_lor_distr_l. intros Ha [? _]%Z.lor_eq_0_iff. done.
Qed.

(** [ext4_alloc_file_blocks] ends. *)
Lemma wp_alloc_file_blocks offset len new_size flags s held calls :
  0 <= offset -> 0 <= len -> offset + len < 2 ^ 32 -> (offset + len) * 2 ^ s_blocksize_bits s < 2 ^ 63 ->
  is_extents s n = true -> has_flag flags EXT4_GET_BLOCKS_CREATE = true ->
  existsb (blocks_on (Excl (LDataSem n))) held = false -> retries_ok ->
  wp (ext4_alloc_file_blocks n offset len new_size flags)
    (alloc_post new_size offset (offset + len) s held) (World s held calls).
Proof.
  intros Ho Hl Hol Hbytes Hext Hfl Hsem Hretry. unfold ext4_alloc_file_blocks. do 2 wp_step. rewrite Hext. cbn [negb].
  set (fl := if len <=? EXT_UNWRITTEN_MAX_LEN then _ else _). do 4 wp_step.
  apply (wp_kloop _ (alloc_inv new_size offset (offset + len) s held) alloc_mu).
  - intros st w Hst. apply wp_alloc_round; try done.
    unfold fl. destruct (_ <=? _); [by apply has_flag_lor|done].
  - split; [done|]. cbn [w_st al_lblk al_len al_mlen al_ret al_ret2]. split; [|lia].
    split; [lia|]. split; [|lia]. unfold sizes_at. rewrite Z.leb_refl, orb_true_r. reflexivity.
  - unfold alloc_mu. cbn [al_len al_retries]. apply Z.le_lt_trans with (2 ^ 40); [lia|by vm_compute].
Qed.
(** ** Plain preallocation *)

(** What the answer [ret] of a request for the bytes [offset .. offset + len - 1] leaves. *)
Definition preallocated (keep : bool) (offset len ret : Z) (s s' : fs) : Prop :=
  (if keep then still s s' else exists e, e <= offset + len /\ stretched e s s') /\
  (ret = 0 ->
    (forall b, 0 <= b -> offset < (b + 1) * 2 ^ s_blocksize_bits s -> b * 2 ^ s_blocksize_bits s < offset + len ->
       allocated s' n b) /\
    (keep = false -> stretched (offset + len) s s')).

(** Sizes that stay are stretched to any smaller one. *)
Lemma still_stretch bound s s' : still s s' -> exists e, e <= bound /\ stretched e s s'.
Proof.
  intros (K & S & D). exists (Z.min bound (Z.min (i_size (inode_of s n)) (i_disksize (inode_of s n)))).
  split; [lia|]. split; [done|lia].
Qed.

Lemma still_preallocated keep offset len ret s : ret <> 0 -> preallocated keep offset len ret s s.
Proof. intros Hr. split; [|done]. destruct keep; [reflexivity|by apply still_stretch]. Qed.

(** The blocks of a range of bytes. *)
Lemma max_blocks_range offset len bits :
  0 <= bits -> 0 <= offset -> 0 < len -> offset + len + 2 ^ bits <= 2 ^ 63 ->
  let start := Z.shiftr offset bits in
  let stop := start + EXT4_MAX_BLOCKS len offset bits in
  start * 2 ^ bits <= offset < (start + 1) * 2 ^ bits /\
  offset + len <= stop * 2 ^ bits < offset + len + 2 ^ bits.
Proof.
  intros Hb Ho Hl Hmax start stop. pose proof (Z.pow_pos_nonneg 2 bits ltac:(lia) Hb) as Hp.
  assert (Hstop : stop = (offset + len + (2 ^ bits - 1)) / 2 ^ bits).
  { unfold stop, EXT4_MAX_BLOCKS, EXT4_BLOCK_ALIGN. fold start.
    rewrite (s64_small (len + offset)), s64_small by lia.
    replace (Z.lnot (2 ^ bits - 1)) with (Z.lnot (Z.ones bits)) by (rewrite Z.ones_equiv; f_equal; lia).
    rewrite <- Z.ldiff_land, Z.ldiff_ones_r, Z.shiftr_shiftl_l, Z.sub_diag, Z.shiftl_0_r, Z.shiftr_div_pow2 by lia.
    replace (len + offset + (2 ^ bits - 1)) with (offset + len + (2 ^ bits - 1)) by lia. lia. }
  rewrite Hstop. unfold start. rewrite Z.shiftr_div_pow2 by done.
  pose proof (Z.div_mod offset (2 ^ bits) ltac:(lia)). pose proof (Z.mod_pos_bound offset (2 ^ bits) Hp).
  pose proof (Z.div_mod (offset + len + (2 ^ bits - 1)) (2 ^ bits) ltac:(lia)).
  pose proof (Z.mod_pos_bound (offset + len + (2 ^ bits - 1)) (2 ^ bits) Hp). lia.
Qed.

Lemma alloc_preallocated keep new_size offset len stop held s ret w :
  let bits := s_blocksize_bits s in
  0 <= offset -> 0 < len -> offset + len <= stop * 2 ^ bits -> Z.shiftr offset bits * 2 ^ bits <= offset ->
  Z.shiftr offset bits < stop ->
  new_size = (if negb keep && ((i_size (inode_of s n) <? offset + len) || (i_disksize (inode_of s n) <? offset + len))
              then offset + len else 0) ->
  alloc_post new_size (Z.shiftr offset bits) stop s held ret w ->
  w_held w = held /\ preallocated keep offset len ret s (w_st w).
Proof.
  intros bits Ho Hl Hstop Hstart Hlt Hnew (Hh & r & (Hr & Hs & Hb) & Hret). split; [done|]. split.
  - unfold sizes_at in Hs. subst new_size. destruct keep; cbn [negb andb] in *; [exact Hs|].
    case_match; [by apply still_stretch|]. eexists. split; [|exact Hs]. case_match; lia.
  - intros ->. specialize (Hret eq_refl) as ->. pose proof (Z.pow_pos_nonneg 2 bits ltac:(lia) ltac:(apply Z.log2_nonneg)) as Hp.
    split.
    + intros b Hb0 Hb1 Hb2. apply Hb. fold bits in Hb1, Hb2. split.
      * apply Z.lt_succ_r, (Z.mul_lt_mono_pos_r (2 ^ bits)); [done|lia].
      * apply (Z.mul_lt_mono_pos_r (2 ^ bits)); [done|lia].
    + intros ->. unfold sizes_at in Hs. rewrite (proj2 (Z.leb_gt stop _)), orb_false_r in Hs by lia. cbn [negb andb] in Hnew.
      subst new_size. fold bits in Hs. destruct ((_ <? _) || (_ <? _)) eqn:E.
      * rewrite (proj2 (Z.eqb_neq (offset + len) 0)), Z.min_l in Hs by lia. exact Hs.
      * apply orb_false_iff in E as [?%Z.ltb_ge ?%Z.ltb_ge]. destruct Hs as (K & S & D). split; [done|lia].
Qed.
(** C11: plain preallocation ends and gives back its locks and handles whatever happens.  When it
    answers 0 every block of the range has an extent, and without KEEP_SIZE both sizes reach
    the end of the range and go no further than that or the old size.  An error leaves sizes
    in between; with KEEP_SIZE they never change.  No block is lost. *)
Theorem preallocate_correct o_sync mode offset len s held calls :
  let keep := has_flag mode FALLOC_FL_KEEP_SIZE in
  let bits := s_blocksize_bits s in
  0 <= offset -> 0 < len -> offset + len + 2 ^ bits <= 2 ^ 63 -> offset + len + 2 ^ bits <= 2 ^ 32 * 2 ^ bits ->
  unlocked n held -> retries_ok ->
  exists ret w', preallocate o_sync n offset len mode (World s held calls) = Ret ret w' /\
    w_held w' = held /\ preallocated keep offset len ret s (w_st w').
Proof.
  intros keep bits Ho Hl Hmax Hblk [U1 U2 U3] Hretry.
  apply (wp_run _ (fun ret w' => w_held w' = held /\ preallocated keep offset len ret s (w_st w'))).
  set (POST := fun (_ : Z) _ => _).
  assert (Hnone : forall ret calls', ret <> 0 -> wp (inode_unlock n;;; kret ret) POST (World s (Excl (LInode n) :: held) calls')).
  { intros ret calls' Hr. unfold inode_unlock. do 2 wp_step. wp_step. split; [done|by apply still_preallocated]. }
  unfold preallocate, inode_lock. do 2 wp_step. do 4 wp_step.
  destruct (is_extents s n) eqn:Hext; cbn [negb]; [|by apply Hnone].
  assert (Hb : 0 <= bits) by apply Z.log2_nonneg. pose proof (Z.pow_pos_nonneg 2 bits ltac:(lia) Hb) as Hp.
  destruct (max_blocks_range offset len bits Hb Ho Hl Hmax) as [[Hs1 Hs2] [Hs3 Hs4]].
  set (start := Z.shiftr offset bits) in *. set (blocks := EXT4_MAX_BLOCKS len offset bits) in *.
  assert (Hstart : 0 <= start) by (apply Z.shiftr_nonneg; lia).
  assert (Hblocks : 0 < blocks /\ start + blocks < 2 ^ 32) by nia.
  fold bits start blocks. rewrite !u32_small by lia. wp_step. unfold newsize_of. do 2 wp_step.
  fold keep. rewrite s64_small by lia.
  set (grow := negb keep && _).
  assert (Hgo : forall new_size c, new_size = (if grow then offset + len else 0) ->
    wp (call_int "inode_dio_wait" [n];;;
        ret <~ call_int "file_modified" [n];;
        if negb (ret =? 0) then inode_unlock n;;; kret ret else
        ret <~ ext4_alloc_file_blocks n start blocks new_size EXT4_GET_BLOCKS_CREATE_UNWRIT_EXT;;
        if negb (ret =? 0) then inode_unlock n;;; kret ret else
        ret <~ (if o_sync && has_journal then call_int "ext4_fc_commit" [n] else kret ret);;
        inode_unlock n;;; kret ret) POST (World s (Excl (LInode n) :: held) c)).
  { intros new_size c Hnew. do 4 wp_step.
    match goal with |- context [negb (?z =? 0)] => destruct (Z.eqb_spec z 0) as [->|Hne]; cbn [negb]; [|by apply Hnone] end.
    wp_step. eapply wp_mono.
    { apply wp_alloc_file_blocks; try done; try lia. fold bits. nia. }
    intros ret w Hpost. apply (alloc_preallocated keep new_size offset len) in Hpost; try done; try lia; [|fold bits start; lia].
    destruct w as [s' h c']. destruct Hpost as [Hh Hpre]. cbn [w_held w_st] in *. subst h.
    assert (Hend : forall r c1, (r = 0 -> ret = 0) -> wp (inode_unlock n;;; kret r) POST (World s' (Excl (LInode n) :: held) c1)).
    { intros r c1 Hr. unfold inode_unlock. do 2 wp_step. wp_step. split; [done|]. destruct Hpre as [Hs' Hdone].
      split; [done|]. cbn [w_st]. intros E. by apply Hdone, Hr. }
    destruct (Z.eqb_spec ret 0) as [->|Hne]; cbn [negb]; [|by apply Hend]. wp_step.
    destruct (o_sync && has_journal); wp_step; by apply Hend. }
  destruct grow eqn:Hgrow; [|wp_step; by apply Hgo].
  do 2 wp_step. wp_step. destruct (Z.eqb_spec z 0) as [->|Hne]; cbn [negb]; [by apply Hgo|by apply Hnone].
Qed.
End Alloc.
