(* ===== verification/Mount.v ===== *)
(** * Mounting: the checks of the super block (fs/ext4/super.c)

    What [__ext4_fill_super] does up to the group descriptors: it reads the super block,
    verifies its checksum, checks the features and derives the geometry of the file system
    (sizes of inodes, descriptors, clusters and groups) that every other part relies on.

    This file holds the state of a mount and the functions that only compute on it; the
    fields of the super block in memory are grouped by the function that sets them.  A
    function returns its value and the new state.  Outside the repository are the
    configuration of the kernel and the functions of balloc.c about groups, the fields of
    [MountEnv]; the calls to the block device are in MountSuper.v, the options in
    MountOpts.v. *)

From stdpp Require Import prelude list gmap strings.
From Stdlib Require Import ZArith Lia.
From S2P Require Import Prelude Kernel Bytes Layout.

Local Open Scope string_scope.
Local Open Scope Z_scope.

(** ** More fields of struct ext4_super_block *)

Definition s_free_inodes_count (es : list Z) : Z := get32 es 0x10.
Definition s_first_data_block (es : list Z) : Z := get32 es 0x14.
Definition s_log_block_size (es : list Z) : Z := get32 es 0x18.
Definition s_log_cluster_size (es : list Z) : Z := get32 es 0x1C.
Definition es_blocks_per_group (es : list Z) : Z := get32 es 0x20.
Definition es_clusters_per_group (es : list Z) : Z := get32 es 0x24.
Definition es_inodes_per_group (es : list Z) : Z := get32 es 0x28.
Definition s_magic (es : list Z) : Z := get16 es 0x38.
Definition s_state (es : list Z) : Z := get16 es 0x3A.
Definition s_errors (es : list Z) : Z := get16 es 0x3C.
Definition s_creator_os (es : list Z) : Z := get32 es 0x48.
Definition s_rev_level (es : list Z) : Z := get32 es 0x4C.
Definition es_first_ino (es : list Z) : Z := get32 es 0x54.
Definition es_inode_size (es : list Z) : Z := get16 es 0x58.
Definition s_reserved_gdt_blocks (es : list Z) : Z := get16 es 0xCE.
Definition es_hash_seed (es : list Z) : list Z := [get32 es 0xEC; get32 es 0xF0; get32 es 0xF4; get32 es 0xF8].
Definition es_def_hash_version (es : list Z) : Z := getb es 0xFC.
Definition es_desc_size (es : list Z) : Z := get16 es 0xFE.
Definition s_default_mount_opts (es : list Z) : Z := get32 es 0x100.
Definition s_first_meta_bg (es : list Z) : Z := get32 es 0x104.
Definition s_min_extra_isize (es : list Z) : Z := get16 es 0x15C.
Definition es_want_extra_isize (es : list Z) : Z := get16 es 0x15E.
Definition s_flags (es : list Z) : Z := get32 es 0x160.
Definition s_raid_stride (es : list Z) : Z := get16 es 0x164.
Definition s_raid_stripe_width (es : list Z) : Z := get32 es 0x170.
Definition s_encryption_level (es : list Z) : Z := getb es 0x176.
Definition s_checksum_seed (es : list Z) : Z := get32 es 0x270.
Definition s_encoding (es : list Z) : Z := get16 es 0x27C.

Definition EXT4_SUPER_MAGIC : Z := 0xEF53.
Definition EXT4_MIN_BLOCK_SIZE : Z := 1024.
Definition EXT4_MIN_BLOCK_LOG_SIZE : Z := 10.
Definition EXT4_MAX_BLOCK_LOG_SIZE : Z := 16.
Definition EXT4_MAX_CLUSTER_LOG_SIZE : Z := 30.
Definition EXT4_MAX_DESC_SIZE : Z := EXT4_MIN_BLOCK_SIZE.
Definition EXT4_NDIR_BLOCKS : Z := 12.
Definition EXT4_MAX_BLOCK_FILE_PHYS : Z := 0xFFFFFFFF.
Definition EXT4_OS_HURD : Z := 1.
Definition EXT4_ENC_UTF8_12_1 : Z := 1.
Definition EXT2_FLAGS_SIGNED_HASH : Z := 0x0001.
Definition EXT2_FLAGS_UNSIGNED_HASH : Z := 0x0002.

(** ** Features *)

Definition EXT4_FEATURE_COMPAT_HAS_JOURNAL : Z := 0x0004.
Definition EXT4_FEATURE_COMPAT_FAST_COMMIT : Z := 0x0400.
Definition EXT4_FEATURE_RO_COMPAT_SPARSE_SUPER : Z := 0x0001.
Definition EXT4_FEATURE_RO_COMPAT_LARGE_FILE : Z := 0x0002.
Definition EXT4_FEATURE_RO_COMPAT_BTREE_DIR : Z := 0x0004.
Definition EXT4_FEATURE_RO_COMPAT_HUGE_FILE : Z := 0x0008.
Definition EXT4_FEATURE_RO_COMPAT_EXTRA_ISIZE : Z := 0x0040.
Definition EXT4_FEATURE_RO_COMPAT_QUOTA : Z := 0x0100.
Definition EXT4_FEATURE_RO_COMPAT_READONLY : Z := 0x1000.
Definition EXT4_FEATURE_RO_COMPAT_PROJECT : Z := 0x2000.
Definition EXT4_FEATURE_RO_COMPAT_VERITY : Z := 0x8000.
Definition EXT4_FEATURE_RO_COMPAT_ORPHAN_PRESENT : Z := 0x10000.
Definition EXT4_FEATURE_INCOMPAT_RECOVER : Z := 0x0004.
Definition EXT4_FEATURE_INCOMPAT_META_BG : Z := 0x0010.
Definition EXT4_FEATURE_INCOMPAT_EXTENTS : Z := 0x0040.
Definition EXT4_FEATURE_INCOMPAT_MMP : Z := 0x0100.
Definition EXT4_FEATURE_INCOMPAT_FLEX_BG : Z := 0x0200.
Definition EXT4_FEATURE_INCOMPAT_EA_INODE : Z := 0x0400.
Definition EXT4_FEATURE_INCOMPAT_CSUM_SEED : Z := 0x2000.
Definition EXT4_FEATURE_INCOMPAT_ENCRYPT : Z := 0x10000.
Definition EXT4_FEATURE_INCOMPAT_CASEFOLD : Z := 0x20000.

Definition ext4_has_feature_journal es := ext4_has_compat es EXT4_FEATURE_COMPAT_HAS_JOURNAL.
Definition ext4_has_feature_fast_commit es := ext4_has_compat es EXT4_FEATURE_COMPAT_FAST_COMMIT.
Definition ext4_has_feature_huge_file es := ext4_has_ro_compat es EXT4_FEATURE_RO_COMPAT_HUGE_FILE.
Definition ext4_has_feature_extra_isize es := ext4_has_ro_compat es EXT4_FEATURE_RO_COMPAT_EXTRA_ISIZE.
Definition ext4_has_feature_quota es := ext4_has_ro_compat es EXT4_FEATURE_RO_COMPAT_QUOTA.
Definition ext4_has_feature_bigalloc es := ext4_has_ro_compat es EXT4_FEATURE_RO_COMPAT_BIGALLOC.
Definition ext4_has_feature_readonly es := ext4_has_ro_compat es EXT4_FEATURE_RO_COMPAT_READONLY.
Definition ext4_has_feature_project es := ext4_has_ro_compat es EXT4_FEATURE_RO_COMPAT_PROJECT.
Definition ext4_has_feature_meta_bg es := ext4_has_incompat es EXT4_FEATURE_INCOMPAT_META_BG.
Definition ext4_has_feature_extents es := ext4_has_incompat es EXT4_FEATURE_INCOMPAT_EXTENTS.
Definition ext4_has_feature_flex_bg es := ext4_has_incompat es EXT4_FEATURE_INCOMPAT_FLEX_BG.
Definition ext4_has_feature_ea_inode es := ext4_has_incompat es EXT4_FEATURE_INCOMPAT_EA_INODE.
Definition ext4_has_feature_csum_seed es := ext4_has_incompat es EXT4_FEATURE_INCOMPAT_CSUM_SEED.
Definition ext4_has_feature_encrypt es := ext4_has_incompat es EXT4_FEATURE_INCOMPAT_ENCRYPT.
Definition ext4_has_feature_casefold es := ext4_has_incompat es EXT4_FEATURE_INCOMPAT_CASEFOLD.

Definition lors (l : list Z) : Z := foldr Z.lor 0 l.
Definition EXT2_FEATURE_INCOMPAT_SUPP : Z := lors [EXT4_FEATURE_INCOMPAT_FILETYPE; EXT4_FEATURE_INCOMPAT_META_BG].
Definition EXT2_FEATURE_RO_COMPAT_SUPP : Z :=
  lors [EXT4_FEATURE_RO_COMPAT_SPARSE_SUPER; EXT4_FEATURE_RO_COMPAT_LARGE_FILE; EXT4_FEATURE_RO_COMPAT_BTREE_DIR].
Definition EXT3_FEATURE_INCOMPAT_SUPP : Z :=
  lors [EXT4_FEATURE_INCOMPAT_FILETYPE; EXT4_FEATURE_INCOMPAT_RECOVER; EXT4_FEATURE_INCOMPAT_META_BG].
Definition EXT3_FEATURE_RO_COMPAT_SUPP : Z :=
  lors [EXT4_FEATURE_RO_COMPAT_SPARSE_SUPER; EXT4_FEATURE_RO_COMPAT_LARGE_FILE; EXT4_FEATURE_RO_COMPAT_BTREE_DIR].
Definition EXT4_FEATURE_INCOMPAT_SUPP : Z :=
  lors [EXT4_FEATURE_INCOMPAT_FILETYPE; EXT4_FEATURE_INCOMPAT_RECOVER; EXT4_FEATURE_INCOMPAT_META_BG;
        EXT4_FEATURE_INCOMPAT_EXTENTS; EXT4_FEATURE_INCOMPAT_64BIT; EXT4_FEATURE_INCOMPAT_FLEX_BG;
        EXT4_FEATURE_INCOMPAT_EA_INODE; EXT4_FEATURE_INCOMPAT_MMP; EXT4_FEATURE_INCOMPAT_INLINE_DATA;
        EXT4_FEATURE_INCOMPAT_ENCRYPT; EXT4_FEATURE_INCOMPAT_CASEFOLD; EXT4_FEATURE_INCOMPAT_CSUM_SEED;
        EXT4_FEATURE_INCOMPAT_LARGEDIR].
Definition EXT4_FEATURE_RO_COMPAT_SUPP : Z :=
  lors [EXT4_FEATURE_RO_COMPAT_SPARSE_SUPER; EXT4_FEATURE_RO_COMPAT_LARGE_FILE; EXT4_FEATURE_RO_COMPAT_GDT_CSUM;
        EXT4_FEATURE_RO_COMPAT_DIR_NLINK; EXT4_FEATURE_RO_COMPAT_EXTRA_ISIZE; EXT4_FEATURE_RO_COMPAT_BTREE_DIR;
        EXT4_FEATURE_RO_COMPAT_HUGE_FILE; EXT4_FEATURE_RO_COMPAT_BIGALLOC; EXT4_FEATURE_RO_COMPAT_METADATA_CSUM;
        EXT4_FEATURE_RO_COMPAT_QUOTA; EXT4_FEATURE_RO_COMPAT_PROJECT; EXT4_FEATURE_RO_COMPAT_VERITY;
        EXT4_FEATURE_RO_COMPAT_ORPHAN_PRESENT].

Definition unknown_incompat (supp : Z) (es : list Z) : bool :=
  negb (Z.land (s_feature_incompat es) (Z.lnot supp) =? 0).
Definition unknown_ro_compat (supp : Z) (es : list Z) : bool :=
  negb (Z.land (s_feature_ro_compat es) (Z.lnot supp) =? 0).
Definition ext4_has_compat_features (es : list Z) : bool := negb (s_feature_compat es =? 0).
Definition ext4_has_ro_compat_features (es : list Z) : bool := negb (s_feature_ro_compat es =? 0).
Definition ext4_has_incompat_features (es : list Z) : bool := negb (s_feature_incompat es =? 0).

(** ** Mount options *)

Definition EXT4_MOUNT_GRPID : Z := 0x00004.
Definition EXT4_MOUNT_DEBUG : Z := 0x00008.
Definition EXT4_MOUNT_ERRORS_CONT : Z := 0x00010.
Definition EXT4_MOUNT_ERRORS_RO : Z := 0x00020.
Definition EXT4_MOUNT_ERRORS_PANIC : Z := 0x00040.
Definition EXT4_MOUNT_DATA_FLAGS : Z := 0x00C00.
Definition EXT4_MOUNT_JOURNAL_DATA : Z := 0x00400.
Definition EXT4_MOUNT_ORDERED_DATA : Z := 0x00800.
Definition EXT4_MOUNT_WRITEBACK_DATA : Z := 0x00C00.
Definition EXT4_MOUNT_NO_UID32 : Z := 0x02000.
Definition EXT4_MOUNT_XATTR_USER : Z := 0x04000.
Definition EXT4_MOUNT_POSIX_ACL : Z := 0x08000.
Definition EXT4_MOUNT_BARRIER : Z := 0x20000.
Definition EXT4_MOUNT_DIOREAD_NOLOCK : Z := 0x400000.
Definition EXT4_MOUNT_JOURNAL_CHECKSUM : Z := 0x800000.
Definition EXT4_MOUNT_DELALLOC : Z := 0x8000000.
Definition EXT4_MOUNT_BLOCK_VALIDITY : Z := 0x20000000.
Definition EXT4_MOUNT_DISCARD : Z := 0x40000000.
Definition EXT4_MOUNT_INIT_INODE_TABLE : Z := 0x80000000.
Definition EXT4_MOUNT2_EXPLICIT_DELALLOC : Z := 0x00000001.
Definition EXT4_MOUNT2_STD_GROUP_SIZE : Z := 0x00000002.
Definition EXT4_MOUNT2_HURD_COMPAT : Z := 0x00000004.
Definition EXT4_MOUNT2_JOURNAL_FAST_COMMIT : Z := 0x00000010.
Definition EXT4_DEFM_DEBUG : Z := 0x0001.
Definition EXT4_DEFM_BSDGROUPS : Z := 0x0002.
Definition EXT4_DEFM_UID16 : Z := 0x0010.
Definition EXT4_DEFM_JMODE : Z := 0x0060.
Definition EXT4_DEFM_JMODE_DATA : Z := 0x0020.
Definition EXT4_DEFM_JMODE_ORDERED : Z := 0x0040.
Definition EXT4_DEFM_JMODE_WBACK : Z := 0x0060.
Definition EXT4_DEFM_NOBARRIER : Z := 0x0100.
Definition EXT4_DEFM_DISCARD : Z := 0x0400.
Definition EXT4_DEFM_NODELALLOC : Z := 0x0800.
Definition EXT4_ERRORS_CONTINUE : Z := 1.
Definition EXT4_ERRORS_PANIC : Z := 3.

(** ** The configuration and the code outside the repository *)

Class MountEnv := {
  PAGE_SIZE : Z;
  HZ : Z;
  JBD2_DEFAULT_MAX_COMMIT_AGE : Z;
  CONFIG_UNICODE : bool;
  CONFIG_QUOTA : bool;
  CONFIG_QFMT_V2 : bool;
  CONFIG_EXT4_FS_POSIX_ACL : bool;
  CONFIG_FS_DAX : bool;
  CHAR_UNSIGNED : bool;               (* __CHAR_UNSIGNED__ *)
  EXT2_SUPPORT : bool;                (* ext4 also serves ext2 *)
  (* balloc.c: ext4_bg_has_super, ext4_bg_num_gdb, and ext4_get_group_desc on the
     buffers of the group descriptor blocks *)
  ext4_bg_has_super : ext4_sb_info -> list Z -> Z -> bool;
  ext4_bg_num_gdb : ext4_sb_info -> list Z -> Z -> Z;
  ext4_get_group_desc : ext4_sb_info -> list (list Z) -> Z -> option (list Z)
}.

(** loff_t on a 64-bit machine. *)
Definition MAX_LFS_FILESIZE : Z := 2 ^ 63 - 1.

(** sb->s_flags and sb->s_iflags *)
Definition SB_RDONLY : Z := 2 ^ 0.
Definition SB_POSIXACL : Z := 2 ^ 16.
Definition SB_INLINECRYPT : Z := 2 ^ 17.
Definition SB_I_VERSION : Z := 2 ^ 23.
Definition SB_I_CGROUPWB : Z := 1.

(** ** The state of a mount *)

Inductive fs_type := Ext2Fs | Ext3Fs | Ext4Fs.

(** Set by [ext4_inode_info_init]. *)
Record inode_info := InodeInfo {
  s_inode_size : Z;
  s_first_ino : Z;
  s_want_extra_isize : Z;
  s_time : Z * Z * Z               (* granularity, maximum, minimum *)
}.

(** Set by [ext4_block_group_meta_init]. *)
Record block_group_meta := BgMeta {
  s_bitmap_maxbytes : Z;
  s_maxbytes : Z;
  s_inodes_per_block : Z;
  s_itb_per_group : Z;
  s_desc_per_block : Z;
  s_addr_per_block_bits : Z;
  s_desc_per_block_bits : Z
}.

(** Set by [ext4_hash_info_init]. *)
Record hash_info := HashInfo {
  s_hash_seed : list Z;
  s_def_hash_version : Z;
  s_hash_unsigned : Z
}.

(** What the mount options set, besides the bits of [s_mount_opt]. *)
Record opt_params := OptParams {
  s_commit_interval : Z;
  s_stripe : Z;
  s_min_batch_time : Z;
  s_max_batch_time : Z;
  s_inode_readahead_blks : Z;
  s_max_dir_size_kb : Z;
  s_li_wait_mult : Z;
  s_resuid : Z;
  s_resgid : Z
}.

(** Quota files by type (user, group, project) and the policy of test_dummy_encryption. *)
Record quota_opts := QuotaOpts {
  s_qf_names : list (option string);
  s_jquota_fmt : Z;
  s_dummy_enc_policy : option Z
}.

Record mount := Mount {
  m_type : fs_type;                (* sb->s_type *)
  m_sb_block : Z;                  (* sbi->s_sb_block *)
  m_daxdev : bool;                 (* sbi->s_daxdev is not NULL *)
  m_flags : Z;                     (* sb->s_flags *)
  m_iflags : Z;                    (* sb->s_iflags *)
  m_bits : Z;                      (* sb->s_blocksize_bits; sb->s_blocksize is in m_sbi *)
  m_sbh : option Z;                (* the block sbi->s_sbh holds *)
  m_es : list Z;                   (* the bytes sbi->s_es points to *)
  m_sbi : ext4_sb_info;
  m_opt : Z;                       (* sbi->s_mount_opt *)
  m_opt2 : Z;
  m_def_opt : Z;                   (* sbi->s_def_mount_opt *)
  m_def_opt2 : Z;
  m_bdev_is_dax : bool;            (* EXT4_FLAGS_BDEV_IS_DAX *)
  m_par : opt_params;
  m_encoding : option Z;           (* sb->s_encoding, with its flags *)
  m_ino : inode_info;
  m_meta : block_group_meta;
  m_hash : hash_info;
  m_blockfile_groups : Z;
  m_gdb : list (Z * list Z);       (* sbi->s_group_desc: the blocks and their bytes *)
  m_journal : bool;                (* sbi->s_journal is not NULL *)
  m_quota : quota_opts
}.

Definition set_m_flags (x : Z) (s : mount) : mount :=
  Mount (m_type s) (m_sb_block s) (m_daxdev s) x (m_iflags s) (m_bits s) (m_sbh s) (m_es s)
    (m_sbi s) (m_opt s) (m_opt2 s) (m_def_opt s) (m_def_opt2 s) (m_bdev_is_dax s) (m_par s)
    (m_encoding s) (m_ino s) (m_meta s) (m_hash s) (m_blockfile_groups s) (m_gdb s) (m_journal s)
    (m_quota s).
Definition set_m_iflags (x : Z) (s : mount) : mount :=
  Mount (m_type s) (m_sb_block s) (m_daxdev s) (m_flags s) x (m_bits s) (m_sbh s) (m_es s)
    (m_sbi s) (m_opt s) (m_opt2 s) (m_def_opt s) (m_def_opt2 s) (m_bdev_is_dax s) (m_par s)
    (m_encoding s) (m_ino s) (m_meta s) (m_hash s) (m_blockfile_groups s) (m_gdb s) (m_journal s)
    (m_quota s).
Definition set_m_bits (x : Z) (s : mount) : mount :=
  Mount (m_type s) (m_sb_block s) (m_daxdev s) (m_flags s) (m_iflags s) x (m_sbh s) (m_es s)
    (m_sbi s) (m_opt s) (m_opt2 s) (m_def_opt s) (m_def_opt2 s) (m_bdev_is_dax s) (m_par s)
    (m_encoding s) (m_ino s) (m_meta s) (m_hash s) (m_blockfile_groups s) (m_gdb s) (m_journal s)
    (m_quota s).
Definition set_m_sbh (x : option Z) (s : mount) : mount :=
  Mount (m_type s) (m_sb_block s) (m_daxdev s) (m_flags s) (m_iflags s) (m_bits s) x (m_es s)
    (m_sbi s) (m_opt s) (m_opt2 s) (m_def_opt s) (m_def_opt2 s) (m_bdev_is_dax s) (m_par s)
    (m_encoding s) (m_ino s) (m_meta s) (m_hash s) (m_blockfile_groups s) (m_gdb s) (m_journal s)
    (m_quota s).
Definition set_m_es (x : list Z) (s : mount) : mount :=
  Mount (m_type s) (m_sb_block s) (m_daxdev s) (m_flags s) (m_iflags s) (m_bits s) (m_sbh s) x
    (m_sbi s) (m_opt s) (m_opt2 s) (m_def_opt s) (m_def_opt2 s) (m_bdev_is_dax s) (m_par s)
    (m_encoding s) (m_ino s) (m_meta s) (m_hash s) (m_blockfile_groups s) (m_gdb s) (m_journal s)
    (m_quota s).
Definition set_m_sbi (x : ext4_sb_info) (s : mount) : mount :=
  Mount (m_type s) (m_sb_block s) (m_daxdev s) (m_flags s) (m_iflags s) (m_bits s) (m_sbh s)
    (m_es s) x (m_opt s) (m_opt2 s) (m_def_opt s) (m_def_opt2 s) (m_bdev_is_dax s) (m_par s)
    (m_encoding s) (m_ino s) (m_meta s) (m_hash s) (m_blockfile_groups s) (m_gdb s) (m_journal s)
    (m_quota s).
Definition set_m_opt (x : Z) (s : mount) : mount :=
  Mount (m_type s) (m_sb_block s) (m_daxdev s) (m_flags s) (m_iflags s) (m_bits s) (m_sbh s)
    (m_es s) (m_sbi s) x (m_opt2 s) (m_def_opt s) (m_def_opt2 s) (m_bdev_is_dax s) (m_par s)
    (m_encoding s) (m_ino s) (m_meta s) (m_hash s) (m_blockfile_groups s) (m_gdb s) (m_journal s)
    (m_quota s).
Definition set_m_opt2 (x : Z) (s : mount) : mount :=
  Mount (m_type s) (m_sb_block s) (m_daxdev s) (m_flags s) (m_iflags s) (m_bits s) (m_sbh s)
    (m_es s) (m_sbi s) (m_opt s) x (m_def_opt s) (m_def_opt2 s) (m_bdev_is_dax s) (m_par s)
    (m_encoding s) (m_ino s) (m_meta s) (m_hash s) (m_blockfile_groups s) (m_gdb s) (m_journal s)
    (m_quota s).
Definition set_m_def_opt (x : Z) (s : mount) : mount :=
  Mount (m_type s) (m_sb_block s) (m_daxdev s) (m_flags s) (m_iflags s) (m_bits s) (m_sbh s)
    (m_es s) (m_sbi s) (m_opt s) (m_opt2 s) x (m_def_opt2 s) (m_bdev_is_dax s) (m_par s)
    (m_encoding s) (m_ino s) (m_meta s) (m_hash s) (m_blockfile_groups s) (m_gdb s) (m_journal s)
    (m_quota s).
Definition set_m_def_opt2 (x : Z) (s : mount) : mount :=
  Mount (m_type s) (m_sb_block s) (m_daxdev s) (m_flags s) (m_iflags s) (m_bits s) (m_sbh s)
    (m_es s) (m_sbi s) (m_opt s) (m_opt2 s) (m_def_opt s) x (m_bdev_is_dax s) (m_par s)
    (m_encoding s) (m_ino s) (m_meta s) (m_hash s) (m_blockfile_groups s) (m_gdb s) (m_journal s)
    (m_quota s).
Definition set_m_bdev_is_dax (x : bool) (s : mount) : mount :=
  Mount (m_type s) (m_sb_block s) (m_daxdev s) (m_flags s) (m_iflags s) (m_bits s) (m_sbh s)
    (m_es s) (m_sbi s) (m_opt s) (m_opt2 s) (m_def_opt s) (m_def_opt2 s) x (m_par s)
    (m_encoding s) (m_ino s) (m_meta s) (m_hash s) (m_blockfile_groups s) (m_gdb s) (m_journal s)
    (m_quota s).
Definition set_m_par (x : opt_params) (s : mount) : mount :=
  Mount (m_type s) (m_sb_block s) (m_daxdev s) (m_flags s) (m_iflags s) (m_bits s) (m_sbh s)
    (m_es s) (m_sbi s) (m_opt s) (m_opt2 s) (m_def_opt s) (m_def_opt2 s) (m_bdev_is_dax s) x
    (m_encoding s) (m_ino s) (m_meta s) (m_hash s) (m_blockfile_groups s) (m_gdb s) (m_journal s)
    (m_quota s).
Definition set_m_encoding (x : option Z) (s : mount) : mount :=
  Mount (m_type s) (m_sb_block s) (m_daxdev s) (m_flags s) (m_iflags s) (m_bits s) (m_sbh s)
    (m_es s) (m_sbi s) (m_opt s) (m_opt2 s) (m_def_opt s) (m_def_opt2 s) (m_bdev_is_dax s)
    (m_par s) x (m_ino s) (m_meta s) (m_hash s) (m_blockfile_groups s) (m_gdb s) (m_journal s)
    (m_quota s).
Definition set_m_ino (x : inode_info) (s : mount) : mount :=
  Mount (m_type s) (m_sb_block s) (m_daxdev s) (m_flags s) (m_iflags s) (m_bits s) (m_sbh s)
    (m_es s) (m_sbi s) (m_opt s) (m_opt2 s) (m_def_opt s) (m_def_opt2 s) (m_bdev_is_dax s)
    (m_par s) (m_encoding s) x (m_meta s) (m_hash s) (m_blockfile_groups s) (m_gdb s)
    (m_journal s) (m_quota s).
Definition set_m_meta (x : block_group_meta) (s : mount) : mount :=
  Mount (m_type s) (m_sb_block s) (m_daxdev s) (m_flags s) (m_iflags s) (m_bits s) (m_sbh s)
    (m_es s) (m_sbi s) (m_opt s) (m_opt2 s) (m_def_opt s) (m_def_opt2 s) (m_bdev_is_dax s)
    (m_par s) (m_encoding s) (m_ino s) x (m_hash s) (m_blockfile_groups s) (m_gdb s) (m_journal s)
    (m_quota s).
Definition set_m_hash (x : hash_info) (s : mount) : mount :=
  Mount (m_type s) (m_sb_block s) (m_daxdev s) (m_flags s) (m_iflags s) (m_bits s) (m_sbh s)
    (m_es s) (m_sbi s) (m_opt s) (m_opt2 s) (m_def_opt s) (m_def_opt2 s) (m_bdev_is_dax s)
    (m_par s) (m_encoding s) (m_ino s) (m_meta s) x (m_blockfile_groups s) (m_gdb s) (m_journal s)
    (m_quota s).
Definition set_m_blockfile_groups (x : Z) (s : mount) : mount :=
  Mount (m_type s) (m_sb_block s) (m_daxdev s) (m_flags s) (m_iflags s) (m_bits s) (m_sbh s)
    (m_es s) (m_sbi s) (m_opt s) (m_opt2 s) (m_def_opt s) (m_def_opt2 s) (m_bdev_is_dax s)
    (m_par s) (m_encoding s) (m_ino s) (m_meta s) (m_hash s) x (m_gdb s) (m_journal s) (m_quota s).
Definition set_m_gdb (x : list (Z * list Z)) (s : mount) : mount :=
  Mount (m_type s) (m_sb_block s) (m_daxdev s) (m_flags s) (m_iflags s) (m_bits s) (m_sbh s)
    (m_es s) (m_sbi s) (m_opt s) (m_opt2 s) (m_def_opt s) (m_def_opt2 s) (m_bdev_is_dax s)
    (m_par s) (m_encoding s) (m_ino s) (m_meta s) (m_hash s) (m_blockfile_groups s) x
    (m_journal s) (m_quota s).
Definition set_m_quota (x : quota_opts) (s : mount) : mount :=
  Mount (m_type s) (m_sb_block s) (m_daxdev s) (m_flags s) (m_iflags s) (m_bits s) (m_sbh s)
    (m_es s) (m_sbi s) (m_opt s) (m_opt2 s) (m_def_opt s) (m_def_opt2 s) (m_bdev_is_dax s)
    (m_par s) (m_encoding s) (m_ino s) (m_meta s) (m_hash s) (m_blockfile_groups s) (m_gdb s)
    (m_journal s) x.

(** The fields of [ext4_sb_info] other parts use are set in four places. *)
Definition sbi_set_csum (drv : bool) (seed : Z) (i : ext4_sb_info) : ext4_sb_info :=
  SbInfo (s_desc_size i) (s_blocks_per_group i) (s_clusters_per_group i) (s_inodes_per_group i)
    (s_cluster_ratio i) (s_cluster_bits i) (s_groups_count i) (s_blocksize i) seed drv (s_mount_state i).
Definition sbi_set_blocksize (bs : Z) (i : ext4_sb_info) : ext4_sb_info :=
  SbInfo (s_desc_size i) (s_blocks_per_group i) (s_clusters_per_group i) (s_inodes_per_group i)
    (s_cluster_ratio i) (s_cluster_bits i) (s_groups_count i) bs (s_csum_seed i) (s_chksum_driver i)
    (s_mount_state i).
Definition sbi_set_desc_size (ds : Z) (i : ext4_sb_info) : ext4_sb_info :=
  SbInfo ds (s_blocks_per_group i) (s_clusters_per_group i) (s_inodes_per_group i)
    (s_cluster_ratio i) (s_cluster_bits i) (s_groups_count i) (s_blocksize i) (s_csum_seed i)
    (s_chksum_driver i) (s_mount_state i).
Definition sbi_set_groups (bpg ipg : Z) (i : ext4_sb_info) : ext4_sb_info :=
  SbInfo (s_desc_size i) bpg (s_clusters_per_group i) ipg
    (s_cluster_ratio i) (s_cluster_bits i) (s_groups_count i) (s_blocksize i) (s_csum_seed i)
    (s_chksum_driver i) (s_mount_state i).
Definition sbi_set_mount_state (x : Z) (i : ext4_sb_info) : ext4_sb_info :=
  SbInfo (s_desc_size i) (s_blocks_per_group i) (s_clusters_per_group i) (s_inodes_per_group i)
    (s_cluster_ratio i) (s_cluster_bits i) (s_groups_count i) (s_blocksize i) (s_csum_seed i)
    (s_chksum_driver i) x.
Definition sbi_set_cluster (cpg bits : Z) (i : ext4_sb_info) : ext4_sb_info :=
  SbInfo (s_desc_size i) (s_blocks_per_group i) cpg (s_inodes_per_group i)
    (s_cluster_ratio i) bits (s_groups_count i) (s_blocksize i) (s_csum_seed i)
    (s_chksum_driver i) (s_mount_state i).
Definition sbi_set_ratio (r : Z) (i : ext4_sb_info) : ext4_sb_info :=
  SbInfo (s_desc_size i) (s_blocks_per_group i) (s_clusters_per_group i) (s_inodes_per_group i)
    r (s_cluster_bits i) (s_groups_count i) (s_blocksize i) (s_csum_seed i)
    (s_chksum_driver i) (s_mount_state i).
Definition sbi_set_groups_count (n : Z) (i : ext4_sb_info) : ext4_sb_info :=
  SbInfo (s_desc_size i) (s_blocks_per_group i) (s_clusters_per_group i) (s_inodes_per_group i)
    (s_cluster_ratio i) (s_cluster_bits i) n (s_blocksize i) (s_csum_seed i)
    (s_chksum_driver i) (s_mount_state i).
Definition upd_sbi (f : ext4_sb_info -> ext4_sb_info) (s : mount) : mount := set_m_sbi (f (m_sbi s)) s.

(** sb->s_blocksize *)
Definition m_blocksize (s : mount) : Z := s_blocksize (m_sbi s).
Definition sb_rdonly (s : mount) : bool := negb (Z.land (m_flags s) SB_RDONLY =? 0).

Definition is_power_of_2 (n : Z) : bool := negb (n =? 0) && (Z.land n (n - 1) =? 0).

(** [set_opt], [clear_opt], [test_opt] and the same for the second word. *)
Definition set_opt (flag : Z) (s : mount) : mount := set_m_opt (Z.lor (m_opt s) flag) s.
Definition clear_opt (flag : Z) (s : mount) : mount := set_m_opt (Z.land (m_opt s) (Z.lnot flag)) s.
Definition test_opt (s : mount) (flag : Z) : Z := Z.land (m_opt s) flag.
Definition set_opt2 (flag : Z) (s : mount) : mount := set_m_opt2 (Z.lor (m_opt2 s) flag) s.
Definition clear_opt2 (flag : Z) (s : mount) : mount := set_m_opt2 (Z.land (m_opt2 s) (Z.lnot flag)) s.
Definition test_opt2 (s : mount) (flag : Z) : Z := Z.land (m_opt2 s) flag.

Definition when (b : bool) (f : mount -> mount) (s : mount) : mount := if b then f s else s.
Definition is_ext2 (s : mount) : bool := match m_type s with Ext2Fs => true | _ => false end.
Definition is_ext3 (s : mount) : bool := match m_type s with Ext3Fs => true | _ => false end.

Section Checks.
Context `{MountEnv}.

(** [EXT4_MOUNT_DAX_ALWAYS]: no bit without DAX. *)
Definition EXT4_MOUNT_DAX_ALWAYS : Z := if CONFIG_FS_DAX then 0x200 else 0.

(** ** Default options *)

Definition ext4_set_def_opts (s : mount) : mount :=
  let es := m_es s in
  let def_mount_opts := s_default_mount_opts es in
  let has f := negb (Z.land def_mount_opts f =? 0) in
  let jmode := Z.land def_mount_opts EXT4_DEFM_JMODE in
  let s := set_opt EXT4_MOUNT_INIT_INODE_TABLE s in
  let s := when (has EXT4_DEFM_DEBUG) (set_opt EXT4_MOUNT_DEBUG) s in
  let s := when (has EXT4_DEFM_BSDGROUPS) (set_opt EXT4_MOUNT_GRPID) s in
  let s := when (has EXT4_DEFM_UID16) (set_opt EXT4_MOUNT_NO_UID32) s in
  let s := set_opt EXT4_MOUNT_XATTR_USER s in
  let s := when CONFIG_EXT4_FS_POSIX_ACL (set_opt EXT4_MOUNT_POSIX_ACL) s in
  let s := when (ext4_has_feature_fast_commit es) (set_opt2 EXT4_MOUNT2_JOURNAL_FAST_COMMIT) s in
  let s := when (ext4_has_metadata_csum (m_sbi s) es) (set_opt EXT4_MOUNT_JOURNAL_CHECKSUM) s in
  let s := if jmode =? EXT4_DEFM_JMODE_DATA then set_opt EXT4_MOUNT_JOURNAL_DATA s
           else if jmode =? EXT4_DEFM_JMODE_ORDERED then set_opt EXT4_MOUNT_ORDERED_DATA s
           else when (jmode =? EXT4_DEFM_JMODE_WBACK) (set_opt EXT4_MOUNT_WRITEBACK_DATA) s in
  let s := if s_errors es =? EXT4_ERRORS_PANIC then set_opt EXT4_MOUNT_ERRORS_PANIC s
           else if s_errors es =? EXT4_ERRORS_CONTINUE then set_opt EXT4_MOUNT_ERRORS_CONT s
           else set_opt EXT4_MOUNT_ERRORS_RO s in
  let s := set_opt EXT4_MOUNT_BLOCK_VALIDITY s in
  let s := when (has EXT4_DEFM_DISCARD) (set_opt EXT4_MOUNT_DISCARD) s in
  let s := when (negb (has EXT4_DEFM_NOBARRIER)) (set_opt EXT4_MOUNT_BARRIER) s in
  let s := when (negb (is_ext3 s) && negb (is_ext2 s) && negb (has EXT4_DEFM_NODELALLOC))
             (set_opt EXT4_MOUNT_DELALLOC) s in
  when (m_blocksize s <=? PAGE_SIZE) (set_opt EXT4_MOUNT_DIOREAD_NOLOCK) s.

(** ** Inodes *)

(** The struct of ext4.h: its size, and the end of [i_atime_extra]. *)
Definition sizeof_ext4_inode : Z := 160.
Definition end_of_i_atime_extra : Z := 144.
Definition NSEC_PER_SEC : Z := 1000000000.
Definition EXT4_TIMESTAMP_MIN : Z := - 2 ^ 31.
Definition EXT4_NON_EXTRA_TIMESTAMP_MAX : Z := 2 ^ 31 - 1.
Definition EXT4_EXTRA_TIMESTAMP_MAX : Z := 2 ^ 34 - 1 + - 2 ^ 31.

Definition set_ino_size (size first : Z) (i : inode_info) : inode_info :=
  InodeInfo size first (s_want_extra_isize i) (s_time i).
Definition set_want (w : Z) (i : inode_info) : inode_info :=
  InodeInfo (s_inode_size i) (s_first_ino i) w (s_time i).
Definition set_time (t : Z * Z * Z) (i : inode_info) : inode_info :=
  InodeInfo (s_inode_size i) (s_first_ino i) (s_want_extra_isize i) t.
Definition upd_ino (f : inode_info -> inode_info) (s : mount) : mount := set_m_ino (f (m_ino s)) s.

(** The last part of [ext4_inode_info_init]: the room for extra fields. *)
Definition inode_extra_init (s : mount) : Z * mount :=
  let es := m_es s in
  let size := s_inode_size (m_ino s) in
  if size <=? EXT4_GOOD_OLD_INODE_SIZE then (0, s) else
  let s := upd_ino (set_want (sizeof_ext4_inode - EXT4_GOOD_OLD_INODE_SIZE)) s in
  if negb (ext4_has_feature_extra_isize es) then (0, s) else
  let max := size - EXT4_GOOD_OLD_INODE_SIZE in
  let raise v s := when (s_want_extra_isize (m_ino s) <? v) (upd_ino (set_want v)) s in
  let v := es_want_extra_isize es in
  if max <? v then (- EINVAL, s) else
  let s := raise v s in
  let v := s_min_extra_isize es in
  if max <? v then (- EINVAL, s) else
  (0, raise v s).

Definition ext4_inode_info_init (s : mount) : Z * mount :=
  let es := m_es s in
  if s_rev_level es =? EXT4_GOOD_OLD_REV
  then inode_extra_init (upd_ino (set_ino_size EXT4_GOOD_OLD_INODE_SIZE EXT4_GOOD_OLD_FIRST_INO) s)
  else
    let size := es_inode_size es in
    let s := upd_ino (set_ino_size size (s32 (es_first_ino es))) s in
    if s_first_ino (m_ino s) <? EXT4_GOOD_OLD_FIRST_INO then (- EINVAL, s)
    else if (size <? EXT4_GOOD_OLD_INODE_SIZE) || negb (is_power_of_2 size) ||
            (m_blocksize s <? size) then (- EINVAL, s)
    else
      let time := if end_of_i_atime_extra <=? size
                  then (1, EXT4_EXTRA_TIMESTAMP_MAX, EXT4_TIMESTAMP_MIN)
                  else (NSEC_PER_SEC, EXT4_NON_EXTRA_TIMESTAMP_MAX, EXT4_TIMESTAMP_MIN) in
      inode_extra_init (upd_ino (set_time time) s).

(** ** Journalled data *)

Definition ext4_check_journal_data_mode (s : mount) : Z * mount :=
  if test_opt s EXT4_MOUNT_DATA_FLAGS =? EXT4_MOUNT_JOURNAL_DATA then
    let s := clear_opt EXT4_MOUNT_DIOREAD_NOLOCK s in
    let s := clear_opt2 EXT4_MOUNT2_JOURNAL_FAST_COMMIT s in
    if negb (test_opt2 s EXT4_MOUNT2_EXPLICIT_DELALLOC =? 0) then (- EINVAL, s)
    else if negb (test_opt s EXT4_MOUNT_DAX_ALWAYS =? 0) then (- EINVAL, s)
    else (0, when (negb (test_opt s EXT4_MOUNT_DELALLOC =? 0)) (clear_opt EXT4_MOUNT_DELALLOC) s)
  else (0, set_m_iflags (Z.lor (m_iflags s) SB_I_CGROUPWB) s).

(** ** Features *)

(** 1 if the file system can be mounted as requested; the feature [readonly] makes the
    mount read-only. *)
Definition ext4_feature_set_ok (readonly : bool) (s : mount) : bool * mount :=
  let es := m_es s in
  if unknown_incompat EXT4_FEATURE_INCOMPAT_SUPP es then (false, s)
  else if negb CONFIG_UNICODE && ext4_has_feature_casefold es then (false, s)
  else if readonly then (true, s)
  else if ext4_has_feature_readonly es
  then (true, set_m_flags (Z.lor (m_flags s) SB_RDONLY) s)
  else if unknown_ro_compat EXT4_FEATURE_RO_COMPAT_SUPP es then (false, s)
  else if ext4_has_feature_bigalloc es && negb (ext4_has_feature_extents es) then (false, s)
  else if (negb CONFIG_QUOTA || negb CONFIG_QFMT_V2) &&
          (ext4_has_feature_quota es || ext4_has_feature_project es) then (false, s)
  else (true, s).

Definition ext2_feature_set_ok (s : mount) : bool :=
  if negb EXT2_SUPPORT then false
  else if unknown_incompat EXT2_FEATURE_INCOMPAT_SUPP (m_es s) then false
  else if sb_rdonly s then true
  else negb (unknown_ro_compat EXT2_FEATURE_RO_COMPAT_SUPP (m_es s)).

Definition ext3_feature_set_ok (s : mount) : bool :=
  if unknown_incompat EXT3_FEATURE_INCOMPAT_SUPP (m_es s) then false
  else if negb (ext4_has_feature_journal (m_es s)) then false
  else if sb_rdonly s then true
  else negb (unknown_ro_compat EXT3_FEATURE_RO_COMPAT_SUPP (m_es s)).

(** The refusal of an older type; while probing, [ext4_feature_set_ok] only decides about
    a message, but may set the read-only flag. *)
Definition wrong_type (silent : bool) (s : mount) : Z * mount :=
  (- EINVAL, if silent then (ext4_feature_set_ok (sb_rdonly s) s).2 else s).

(** The rest of [ext4_check_feature_compatibility]: DAX and encryption. *)
Definition dax_encrypt_ok (s : mount) : Z * mount :=
  let es := m_es s in
  let s := when (m_daxdev s && (m_blocksize s =? PAGE_SIZE)) (set_m_bdev_is_dax true) s in
  if negb (Z.land (m_opt s) EXT4_MOUNT_DAX_ALWAYS =? 0) &&
     (ext4_has_feature_inline_data es || negb (m_bdev_is_dax s)) then (- EINVAL, s)
  else if ext4_has_feature_encrypt es && negb (s_encryption_level es =? 0) then (- EINVAL, s)
  else (0, s).

Definition ext4_check_feature_compatibility (silent : bool) (s : mount) : Z * mount :=
  let es := m_es s in
  let hurd := s_creator_os es =? EXT4_OS_HURD in
  let s := when hurd (set_opt2 EXT4_MOUNT2_HURD_COMPAT) s in
  if hurd && (ext4_has_feature_64bit es || ext4_has_feature_ea_inode es) then (- EINVAL, s)
  else if is_ext2 s && negb (ext2_feature_set_ok s) then wrong_type silent s
  else if is_ext3 s && negb (ext3_feature_set_ok s) then wrong_type silent s
  else
    let '(ok, s) := ext4_feature_set_ok (sb_rdonly s) s in
    if negb ok then (- EINVAL, s) else dax_encrypt_ok s.

(** ** File size limits *)

(** [ext4_max_size(blkbits, has_huge_files)] *)
Definition ext4_max_size (blkbits : Z) (has_huge_files : bool) : Z :=
  let upper_limit :=
    if has_huge_files then MAX_LFS_FILESIZE
    else Z.shiftl (Z.shiftr (2 ^ 32 - 1) (blkbits - 9)) blkbits in
  let res := Z.shiftl (2 ^ 32 - 1) blkbits in
  if upper_limit <? res then upper_limit else res.

Definition DIV_ROUND_UP_ULL (ll d : Z) : Z := (ll + d - 1) / d.

(** [ext4_max_bitmap_size(bits, has_huge_files)]: the 32-bit products are unsigned. *)
Definition ext4_max_bitmap_size (bits : Z) (has_huge_files : bool) : Z :=
  let ppb := Z.shiftl 1 (bits - 2) in
  let upper_limit := if has_huge_files then 2 ^ 48 - 1 else Z.shiftr (2 ^ 32 - 1) (bits - 9) in
  let res := EXT4_NDIR_BLOCKS + ppb + u32 (ppb * ppb) + ppb * ppb * ppb in
  let meta_blocks := s32 (1 + (1 + ppb) + (1 + ppb + u32 (ppb * ppb))) in
  let check_lfs res :=
    let res := Z.shiftl res bits in
    if MAX_LFS_FILESIZE <? res then MAX_LFS_FILESIZE else res in
  if res + meta_blocks <=? upper_limit then check_lfs res else
  let res := upper_limit in
  let upper_limit := upper_limit - EXT4_NDIR_BLOCKS in
  let meta_blocks := 1 in
  let upper_limit := upper_limit - ppb in
  if upper_limit <? u32 (ppb * ppb) then
    let meta_blocks := s32 (meta_blocks + (1 + DIV_ROUND_UP_ULL upper_limit ppb)) in
    check_lfs (res - meta_blocks)
  else
    let meta_blocks := meta_blocks + (1 + ppb) in
    let upper_limit := upper_limit - u32 (ppb * ppb) in
    let meta_blocks :=
      s32 (meta_blocks + (1 + DIV_ROUND_UP_ULL upper_limit ppb + DIV_ROUND_UP_ULL upper_limit (u32 (ppb * ppb)))) in
    check_lfs (res - meta_blocks).

(** ** Groups *)

Definition set_limits (bitmap_maxbytes maxbytes : Z) (g : block_group_meta) : block_group_meta :=
  BgMeta bitmap_maxbytes maxbytes (s_inodes_per_block g) (s_itb_per_group g) (s_desc_per_block g)
    (s_addr_per_block_bits g) (s_desc_per_block_bits g).
Definition set_ipb (ipb : Z) (g : block_group_meta) : block_group_meta :=
  BgMeta (s_bitmap_maxbytes g) (s_maxbytes g) ipb (s_itb_per_group g) (s_desc_per_block g)
    (s_addr_per_block_bits g) (s_desc_per_block_bits g).
Definition set_tables (itb dpb addr_bits desc_bits : Z) (g : block_group_meta) : block_group_meta :=
  BgMeta (s_bitmap_maxbytes g) (s_maxbytes g) (s_inodes_per_block g) itb dpb addr_bits desc_bits.
Definition upd_meta (f : block_group_meta -> block_group_meta) (s : mount) : mount :=
  set_m_meta (f (m_meta s)) s.

Definition ext4_block_group_meta_init (s : mount) : Z * mount :=
  let es := m_es s in
  let has_huge_files := ext4_has_feature_huge_file es in
  let bs := m_blocksize s in
  let s := upd_meta (set_limits (ext4_max_bitmap_size (m_bits s) has_huge_files)
                       (ext4_max_size (m_bits s) has_huge_files)) s in
  let desc := es_desc_size es in
  let s := upd_sbi (sbi_set_desc_size desc) s in
  if ext4_has_feature_64bit es &&
     ((desc <? EXT4_MIN_DESC_SIZE_64BIT) || (EXT4_MAX_DESC_SIZE <? desc) || negb (is_power_of_2 desc))
  then (- EINVAL, s) else
  let desc := if ext4_has_feature_64bit es then desc else EXT4_MIN_DESC_SIZE in
  let s := upd_sbi (sbi_set_desc_size desc) s in
  let bpg := es_blocks_per_group es in
  let ipg := es_inodes_per_group es in
  let s := upd_sbi (sbi_set_groups bpg ipg) s in
  let ipb := bs / s_inode_size (m_ino s) in
  let s := upd_meta (set_ipb ipb) s in
  if (ipb =? 0) || (bpg =? 0) then (- EINVAL, s)
  else if (ipg <? ipb) || (bs * 8 <? ipg) then (- EINVAL, s)
  else
    let dpb := bs / desc in
    let s := upd_sbi (sbi_set_mount_state (Z.land (s_state es) (Z.lnot EXT4_FC_REPLAY))) s in
    (0, upd_meta (set_tables (ipg / ipb) dpb (Z.log2 (bs / 4)) (Z.log2 dpb)) s).

(** A missing signedness is written to the super block unless the mount is read-only. *)
Definition ext4_hash_info_init (s : mount) : mount :=
  let es := m_es s in
  let seed := es_hash_seed es in
  let ver := es_def_hash_version es in
  let keep := s_hash_unsigned (m_hash s) in
  let mark flag s := when (negb (sb_rdonly s)) (set_m_es (put32 es 0x160 (Z.lor (s_flags es) flag))) s in
  if negb (ext4_has_feature_dir_index es) then set_m_hash (HashInfo seed ver keep) s
  else if negb (Z.land (s_flags es) EXT2_FLAGS_UNSIGNED_HASH =? 0)
  then set_m_hash (HashInfo seed ver 3) s
  else if negb (Z.land (s_flags es) EXT2_FLAGS_SIGNED_HASH =? 0)
  then set_m_hash (HashInfo seed ver keep) s
  else if CHAR_UNSIGNED
  then set_m_hash (HashInfo seed ver 3) (mark EXT2_FLAGS_UNSIGNED_HASH s)
  else set_m_hash (HashInfo seed ver keep) (mark EXT2_FLAGS_SIGNED_HASH s).

(** The size of a cluster is an [int]; so is its eightfold. *)
Definition ext4_handle_clustersize (s : mount) : Z * mount :=
  let es := m_es s in
  let bs := m_blocksize s in
  let bpg := s_blocks_per_group (m_sbi s) in
  let clustersize := s32 (Z.shiftl 1024 (s_log_cluster_size es)) in
  let done s :=
    let s := upd_sbi (sbi_set_ratio (u32 (clustersize / bs))) s in
    (0, when (bpg =? u64 (s32 (Z.shiftl clustersize 3))) (set_opt2 EXT4_MOUNT2_STD_GROUP_SIZE) s) in
  if ext4_has_feature_bigalloc es then
    if clustersize <? bs then (- EINVAL, s) else
    let bits := u32 (s_log_cluster_size es - s_log_block_size es) in
    let cpg := es_clusters_per_group es in
    let s := upd_sbi (sbi_set_cluster cpg bits) s in
    if bs * 8 <? cpg then (- EINVAL, s)
    else if negb (bpg =? u64 (cpg * (clustersize / bs))) then (- EINVAL, s)
    else done s
  else
    if negb (clustersize =? bs) then (- EINVAL, s)
    else if bs * 8 <? bpg then (- EINVAL, s)
    else done (upd_sbi (sbi_set_cluster bpg 0) s).

(** [ext4_check_geometry] between its two questions to the outside: the answers of
    [generic_check_addressable] and [sb_bdev_nr_blocks] are arguments. *)
Definition ext4_check_geometry (addressable : Z) (nr_blocks : Z) (s : mount) : Z * mount :=
  let es := m_es s in
  let sbi := m_sbi s in
  let bpg := s_blocks_per_group sbi in
  if m_blocksize s / 4 <? s_reserved_gdt_blocks es then (- EINVAL, s)
  else if negb (addressable =? 0) then (addressable, s)
  else if negb (nr_blocks =? 0) && (nr_blocks <? ext4_blocks_count es) then (- EINVAL, s)
  else if ext4_blocks_count es <=? s_first_data_block es then (- EINVAL, s)
  else if (s_first_data_block es =? 0) && (s_log_block_size es =? 0) && (s_cluster_ratio sbi =? 1)
  then (- EINVAL, s)
  else
    let blocks_count := u64 (ext4_blocks_count es - s_first_data_block es + bpg - 1) / bpg in
    if u64 (2 ^ 32 - s_desc_per_block (m_meta s)) <? blocks_count then (- EINVAL, s)
    else
      let groups := u32 blocks_count in
      let s := upd_sbi (sbi_set_groups_count groups) s in
      let s := set_m_blockfile_groups (Z.min groups (u32 (EXT4_MAX_BLOCK_FILE_PHYS / bpg))) s in
      if negb (u64 (groups * s_inodes_per_group sbi) =? s_inodes_count es) then (- EINVAL, s)
      else (0, s).

(** ** Group descriptors *)

Definition ext4_group_first_block_no (s : mount) (group_no : Z) : Z :=
  u64 (u64 (group_no * s_blocks_per_group (m_sbi s)) + s_first_data_block (m_es s)).

(** The block of the [nr]th block of group descriptors. *)
Definition descriptor_loc (s : mount) (logical_sb_block nr : Z) : Z :=
  let es := m_es s in
  if negb (ext4_has_feature_meta_bg es) || (nr <? s_first_meta_bg es)
  then u64 (logical_sb_block + nr + 1)
  else
    let bg := u32 (s_desc_per_block (m_meta s) * nr) in
    let has_super := if ext4_bg_has_super (m_sbi s) es bg then 1 else 0 in
    let has_super :=
      if (m_blocksize s =? 1024) && (nr =? 0) && (s_first_data_block es =? 0)
      then has_super + 1 else has_super in
    u64 (has_super + ext4_group_first_block_no s bg).

(** The bounds of the metadata of a group: [first] and [last] block it may use. *)
Record group_bounds := GroupBounds {
  gb_sb : Z;              (* sb_block *)
  gb_last_bg : Z;         (* last block of the descriptors after it *)
  gb_first : Z;
  gb_last : Z
}.

(** One of the three checks of a group: [blk] must not be the super block nor a
    descriptor block, unless the mount is read-only, and [blk..last] is in the bounds. *)
Definition meta_block_ok (rdonly : bool) (b : group_bounds) (blk last : Z) : bool :=
  if (blk =? gb_sb b) && negb rdonly then false
  else if (u64 (gb_sb b + 1) <=? blk) && (blk <=? gb_last_bg b) && negb rdonly then false
  else negb ((blk <? gb_first b) || (gb_last b <? last)).

Definition group_blocks_ok (s : mount) (b : group_bounds) (gdp : list Z) : bool :=
  let ro := sb_rdonly s in
  let bitmap := ext4_block_bitmap (m_sbi s) gdp in
  let ibitmap := ext4_inode_bitmap (m_sbi s) gdp in
  let table := ext4_inode_table (m_sbi s) gdp in
  meta_block_ok ro b bitmap bitmap && meta_block_ok ro b ibitmap ibitmap &&
  meta_block_ok ro b table (u64 (table + s_itb_per_group (m_meta s) - 1)).

(** ** Stripes *)

Definition ext4_get_stripe_size (s : mount) : Z :=
  let es := m_es s in
  let bpg := s_blocks_per_group (m_sbi s) in
  let fits x := negb (x =? 0) && (x <=? bpg) in
  let ret :=
    if fits (s_stripe (m_par s)) then s32 (s_stripe (m_par s))
    else if fits (s_raid_stripe_width es) then s32 (s_raid_stripe_width es)
    else if fits (s_raid_stride es) then s32 (s_raid_stride es)
    else 0 in
  if ret <=? 1 then 0 else ret.
End Checks.
