(* ===== verification/MountOpts.v ===== *)
(** * Mount options (fs/ext4/super.c)

    The options a user gives, and those in the super block, are collected in a
    [ext4_fs_context]: bits to change with their values, and parameters with a
    specification word.  [ext4_parse_param] adds one option, [ext4_check_opt_consistency]
    checks them against the file system and [ext4_apply_options] applies them at once.
    The theorem says that this is the same as applying one option after the other.

    [fs_parse] (the lookup of a key in the table of the parameters and the conversion of its
    value) is not part of the repository; its answer, and those of the memory allocator,
    the user name space, the path lookup and fscrypt come with every parameter. *)

From stdpp Require Import prelude list strings.
From Stdlib Require Import ZArith Lia.
From S2P Require Import Prelude Layout Mount.

Local Open Scope Z_scope.

(** ** Tokens and flags *)

Inductive opt_token :=
  | Opt_bsd_df | Opt_minix_df | Opt_grpid | Opt_nogrpid
  | Opt_resgid | Opt_resuid | Opt_sb
  | Opt_nouid32 | Opt_debug | Opt_removed
  | Opt_user_xattr | Opt_acl
  | Opt_auto_da_alloc | Opt_noauto_da_alloc | Opt_noload
  | Opt_commit | Opt_min_batch_time | Opt_max_batch_time | Opt_journal_dev
  | Opt_journal_path | Opt_journal_checksum | Opt_journal_async_commit
  | Opt_abort | Opt_data_journal | Opt_data_ordered | Opt_data_writeback
  | Opt_data_err_abort | Opt_data_err_ignore | Opt_test_dummy_encryption
  | Opt_inlinecrypt
  | Opt_usrjquota | Opt_grpjquota | Opt_quota
  | Opt_noquota | Opt_barrier | Opt_nobarrier | Opt_err
  | Opt_usrquota | Opt_grpquota | Opt_prjquota
  | Opt_dax | Opt_dax_always | Opt_dax_inode | Opt_dax_never
  | Opt_stripe | Opt_delalloc | Opt_nodelalloc | Opt_warn_on_error
  | Opt_nowarn_on_error | Opt_mblk_io_submit | Opt_debug_want_extra_isize
  | Opt_nomblk_io_submit | Opt_block_validity | Opt_noblock_validity
  | Opt_inode_readahead_blks | Opt_journal_ioprio
  | Opt_dioread_nolock | Opt_dioread_lock
  | Opt_discard | Opt_nodiscard | Opt_init_itable | Opt_noinit_itable
  | Opt_max_dir_size_kb | Opt_nojournal_checksum | Opt_nombcache
  | Opt_no_prefetch_block_bitmaps | Opt_mb_optimize_scan
  | Opt_errors | Opt_data | Opt_data_err | Opt_jqfmt | Opt_dax_type.

#[export] Instance opt_token_eq_dec : EqDecision opt_token.
Proof. solve_decision. Defined.

(** Values that are tokens are their numbers in the enumeration. *)
Definition Opt_dax_always_val : Z := 41.
Definition Opt_dax_inode_val : Z := 42.
Definition Opt_dax_never_val : Z := 43.
Definition Opt_data_err_abort_val : Z := 26.
Definition Opt_data_err_ignore_val : Z := 27.

Definition MOPT_SET : Z := 0x0001.
Definition MOPT_CLEAR : Z := 0x0002.
Definition MOPT_NOSUPPORT : Z := 0x0004.
Definition MOPT_EXPLICIT : Z := 0x0008.
Definition MOPT_NO_EXT2 : Z := 0x0020.
Definition MOPT_NO_EXT3 : Z := 0x0040.
Definition MOPT_EXT4_ONLY : Z := Z.lor MOPT_NO_EXT2 MOPT_NO_EXT3.
Definition MOPT_2 : Z := 0x0100.

Definition EXT4_MOUNT_NO_MBCACHE : Z := 0x00001.
Definition EXT4_MOUNT_ERRORS_MASK : Z := 0x00070.
Definition EXT4_MOUNT_MINIX_DF : Z := 0x00080.
Definition EXT4_MOUNT_NOLOAD : Z := 0x00100.
Definition EXT4_MOUNT_NO_AUTO_DA_ALLOC : Z := 0x10000.
Definition EXT4_MOUNT_QUOTA : Z := 0x40000.
Definition EXT4_MOUNT_USRQUOTA : Z := 0x80000.
Definition EXT4_MOUNT_GRPQUOTA : Z := 0x100000.
Definition EXT4_MOUNT_PRJQUOTA : Z := 0x200000.
Definition EXT4_MOUNT_JOURNAL_ASYNC_COMMIT : Z := 0x1000000.
Definition EXT4_MOUNT_WARN_ON_ERROR : Z := 0x2000000.
Definition EXT4_MOUNT_NO_PREFETCH_BLOCK_BITMAPS : Z := 0x4000000.
Definition EXT4_MOUNT_DATA_ERR_ABORT : Z := 0x10000000.
Definition EXT4_MOUNT2_EXPLICIT_JOURNAL_CHECKSUM : Z := 0x00000008.
Definition EXT4_MOUNT2_DAX_NEVER : Z := 0x00000020.
Definition EXT4_MOUNT2_DAX_INODE : Z := 0x00000040.
Definition EXT4_MOUNT2_MB_OPTIMIZE_SCAN : Z := 0x00000080.
Definition EXT4_MOUNT2_ABORT : Z := 0x00000100.

Definition EXT4_SPEC_JQUOTA : Z := 2 ^ 0.
Definition EXT4_SPEC_JQFMT : Z := 2 ^ 1.
Definition EXT4_SPEC_DATAJ : Z := 2 ^ 2.
Definition EXT4_SPEC_JOURNAL_DEV : Z := 2 ^ 4.
Definition EXT4_SPEC_JOURNAL_IOPRIO : Z := 2 ^ 5.
Definition EXT4_SPEC_s_want_extra_isize : Z := 2 ^ 7.
Definition EXT4_SPEC_s_max_batch_time : Z := 2 ^ 8.
Definition EXT4_SPEC_s_min_batch_time : Z := 2 ^ 9.
Definition EXT4_SPEC_s_inode_readahead_blks : Z := 2 ^ 10.
Definition EXT4_SPEC_s_li_wait_mult : Z := 2 ^ 11.
Definition EXT4_SPEC_s_max_dir_size_kb : Z := 2 ^ 12.
Definition EXT4_SPEC_s_stripe : Z := 2 ^ 13.
Definition EXT4_SPEC_s_resuid : Z := 2 ^ 14.
Definition EXT4_SPEC_s_resgid : Z := 2 ^ 15.
Definition EXT4_SPEC_s_commit_interval : Z := 2 ^ 16.
Definition EXT4_SPEC_s_sb_block : Z := 2 ^ 18.
Definition EXT4_SPEC_mb_optimize_scan : Z := 2 ^ 19.

(** EXT4_DEF_LI_WAIT_MULT *)
Definition EXT4_DEF_LI_WAIT_MULT : Z := 10.

(** ** Parameters and contexts *)

(** What the code outside answers about a parameter: [fs_parse] (an error, or a token with
    result.uint_32), kmemdup_nul, make_kuid or make_kgid (a valid id), fs_lookup_param (an
    error or the device of the path), fscrypt_parse_test_dummy_encryption (with the policy). *)
Record param_answers := ParamAnswers {
  a_parse : Z + opt_token * Z;
  a_kmemdup : bool;
  a_kid : option Z;
  a_lookup : Z + Z;
  a_fscrypt : Z * option Z
}.

Record fs_parameter := FsParameter {
  p_key : string;
  p_is_flag : bool;              (* type is fs_value_is_flag, else fs_value_is_string *)
  p_string : string;             (* the empty string for NULL *)
  p_ans : param_answers
}.
Definition p_parse (p : fs_parameter) := a_parse (p_ans p).
Definition p_kmemdup (p : fs_parameter) := a_kmemdup (p_ans p).
Definition p_kid (p : fs_parameter) := a_kid (p_ans p).
Definition p_lookup (p : fs_parameter) := a_lookup (p_ans p).
Definition p_fscrypt (p : fs_parameter) := a_fscrypt (p_ans p).

Record ext4_fs_context := FsContext {
  c_qf_names : list (option string);
  c_dummy_enc_policy : option Z;
  c_jquota_fmt : Z;
  c_qname_spec : Z;
  c_vals_s_flags : Z;
  c_mask_s_flags : Z;
  c_journal_devnum : Z;
  c_journal_ioprio : Z;
  c_want_extra_isize : Z;
  c_par : opt_params;            (* s_commit_interval .. s_resgid, where spec says so *)
  c_vals_s_mount_opt : Z;
  c_mask_s_mount_opt : Z;
  c_vals_s_mount_opt2 : Z;
  c_mask_s_mount_opt2 : Z;
  c_opt_flags : Z;
  c_spec : Z;
  c_sb_block : Z
}.

Definition set_c_qf_names (x : list (option string)) (c : ext4_fs_context) : ext4_fs_context :=
  FsContext x (c_dummy_enc_policy c) (c_jquota_fmt c) (c_qname_spec c) (c_vals_s_flags c)
    (c_mask_s_flags c) (c_journal_devnum c) (c_journal_ioprio c) (c_want_extra_isize c) (c_par c)
    (c_vals_s_mount_opt c) (c_mask_s_mount_opt c) (c_vals_s_mount_opt2 c) (c_mask_s_mount_opt2 c)
    (c_opt_flags c) (c_spec c) (c_sb_block c).
Definition set_c_dummy_enc_policy (x : option Z) (c : ext4_fs_context) : ext4_fs_context :=
  FsContext (c_qf_names c) x (c_jquota_fmt c) (c_qname_spec c) (c_vals_s_flags c)
    (c_mask_s_flags c) (c_journal_devnum c) (c_journal_ioprio c) (c_want_extra_isize c) (c_par c)
    (c_vals_s_mount_opt c) (c_mask_s_mount_opt c) (c_vals_s_mount_opt2 c) (c_mask_s_mount_opt2 c)
    (c_opt_flags c) (c_spec c) (c_sb_block c).
Definition set_c_jquota_fmt (x : Z) (c : ext4_fs_context) : ext4_fs_context :=
  FsContext (c_qf_names c) (c_dummy_enc_policy c) x (c_qname_spec c) (c_vals_s_flags c)
    (c_mask_s_flags c) (c_journal_devnum c) (c_journal_ioprio c) (c_want_extra_isize c) (c_par c)
    (c_vals_s_mount_opt c) (c_mask_s_mount_opt c) (c_vals_s_mount_opt2 c) (c_mask_s_mount_opt2 c)
    (c_opt_flags c) (c_spec c) (c_sb_block c).
Definition set_c_qname_spec (x : Z) (c : ext4_fs_context) : ext4_fs_context :=
  FsContext (c_qf_names c) (c_dummy_enc_policy c) (c_jquota_fmt c) x (c_vals_s_flags c)
    (c_mask_s_flags c) (c_journal_devnum c) (c_journal_ioprio c) (c_want_extra_isize c) (c_par c)
    (c_vals_s_mount_opt c) (c_mask_s_mount_opt c) (c_vals_s_mount_opt2 c) (c_mask_s_mount_opt2 c)
    (c_opt_flags c) (c_spec c) (c_sb_block c).
Definition set_c_journal_devnum (x : Z) (c : ext4_fs_context) : ext4_fs_context :=
  FsContext (c_qf_names c) (c_dummy_enc_policy c) (c_jquota_fmt c) (c_qname_spec c)
    (c_vals_s_flags c) (c_mask_s_flags c) x (c_journal_ioprio c) (c_want_extra_isize c) (c_par c)
    (c_vals_s_mount_opt c) (c_mask_s_mount_opt c) (c_vals_s_mount_opt2 c) (c_mask_s_mount_opt2 c)
    (c_opt_flags c) (c_spec c) (c_sb_block c).
Definition set_c_journal_ioprio (x : Z) (c : ext4_fs_context) : ext4_fs_context :=
  FsContext (c_qf_names c) (c_dummy_enc_policy c) (c_jquota_fmt c) (c_qname_spec c)
    (c_vals_s_flags c) (c_mask_s_flags c) (c_journal_devnum c) x (c_want_extra_isize c) (c_par c)
    (c_vals_s_mount_opt c) (c_mask_s_mount_opt c) (c_vals_s_mount_opt2 c) (c_mask_s_mount_opt2 c)
    (c_opt_flags c) (c_spec c) (c_sb_block c).
Definition set_c_want_extra_isize (x : Z) (c : ext4_fs_context) : ext4_fs_context :=
  FsContext (c_qf_names c) (c_dummy_enc_policy c) (c_jquota_fmt c) (c_qname_spec c)
    (c_vals_s_flags c) (c_mask_s_flags c) (c_journal_devnum c) (c_journal_ioprio c) x (c_par c)
    (c_vals_s_mount_opt c) (c_mask_s_mount_opt c) (c_vals_s_mount_opt2 c) (c_mask_s_mount_opt2 c)
    (c_opt_flags c) (c_spec c) (c_sb_block c).
Definition set_c_par (x : opt_params) (c : ext4_fs_context) : ext4_fs_context :=
  FsContext (c_qf_names c) (c_dummy_enc_policy c) (c_jquota_fmt c) (c_qname_spec c)
    (c_vals_s_flags c) (c_mask_s_flags c) (c_journal_devnum c) (c_journal_ioprio c)
    (c_want_extra_isize c) x (c_vals_s_mount_opt c) (c_mask_s_mount_opt c) (c_vals_s_mount_opt2 c)
    (c_mask_s_mount_opt2 c) (c_opt_flags c) (c_spec c) (c_sb_block c).
Definition set_c_opt_flags (x : Z) (c : ext4_fs_context) : ext4_fs_context :=
  FsContext (c_qf_names c) (c_dummy_enc_policy c) (c_jquota_fmt c) (c_qname_spec c)
    (c_vals_s_flags c) (c_mask_s_flags c) (c_journal_devnum c) (c_journal_ioprio c)
    (c_want_extra_isize c) (c_par c) (c_vals_s_mount_opt c) (c_mask_s_mount_opt c)
    (c_vals_s_mount_opt2 c) (c_mask_s_mount_opt2 c) x (c_spec c) (c_sb_block c).
Definition set_c_spec (x : Z) (c : ext4_fs_context) : ext4_fs_context :=
  FsContext (c_qf_names c) (c_dummy_enc_policy c) (c_jquota_fmt c) (c_qname_spec c)
    (c_vals_s_flags c) (c_mask_s_flags c) (c_journal_devnum c) (c_journal_ioprio c)
    (c_want_extra_isize c) (c_par c) (c_vals_s_mount_opt c) (c_mask_s_mount_opt c)
    (c_vals_s_mount_opt2 c) (c_mask_s_mount_opt2 c) (c_opt_flags c) x (c_sb_block c).
Definition set_c_sb_block (x : Z) (c : ext4_fs_context) : ext4_fs_context :=
  FsContext (c_qf_names c) (c_dummy_enc_policy c) (c_jquota_fmt c) (c_qname_spec c)
    (c_vals_s_flags c) (c_mask_s_flags c) (c_journal_devnum c) (c_journal_ioprio c)
    (c_want_extra_isize c) (c_par c) (c_vals_s_mount_opt c) (c_mask_s_mount_opt c)
    (c_vals_s_mount_opt2 c) (c_mask_s_mount_opt2 c) (c_opt_flags c) (c_spec c) x.
Definition set_flags (vals mask : Z) (c : ext4_fs_context) : ext4_fs_context :=
  FsContext (c_qf_names c) (c_dummy_enc_policy c) (c_jquota_fmt c) (c_qname_spec c) vals mask
    (c_journal_devnum c) (c_journal_ioprio c) (c_want_extra_isize c) (c_par c)
    (c_vals_s_mount_opt c) (c_mask_s_mount_opt c) (c_vals_s_mount_opt2 c) (c_mask_s_mount_opt2 c)
    (c_opt_flags c) (c_spec c) (c_sb_block c).
Definition set_mount_opt (vals mask : Z) (c : ext4_fs_context) : ext4_fs_context :=
  FsContext (c_qf_names c) (c_dummy_enc_policy c) (c_jquota_fmt c) (c_qname_spec c)
    (c_vals_s_flags c) (c_mask_s_flags c) (c_journal_devnum c) (c_journal_ioprio c)
    (c_want_extra_isize c) (c_par c) vals mask (c_vals_s_mount_opt2 c) (c_mask_s_mount_opt2 c)
    (c_opt_flags c) (c_spec c) (c_sb_block c).
Definition set_mount_opt2 (vals mask : Z) (c : ext4_fs_context) : ext4_fs_context :=
  FsContext (c_qf_names c) (c_dummy_enc_policy c) (c_jquota_fmt c) (c_qname_spec c)
    (c_vals_s_flags c) (c_mask_s_flags c) (c_journal_devnum c) (c_journal_ioprio c)
    (c_want_extra_isize c) (c_par c) (c_vals_s_mount_opt c) (c_mask_s_mount_opt c) vals mask
    (c_opt_flags c) (c_spec c) (c_sb_block c).

(** [EXT4_SET_CTX], [EXT4_CLEAR_CTX], [EXT4_TEST_CTX] *)
Definition ctx_set_flags (flag : Z) (c : ext4_fs_context) : ext4_fs_context :=
  set_flags (Z.lor (c_vals_s_flags c) flag) (Z.lor (c_mask_s_flags c) flag) c.
Definition ctx_set_mount_opt (flag : Z) (c : ext4_fs_context) : ext4_fs_context :=
  set_mount_opt (Z.lor (c_vals_s_mount_opt c) flag) (Z.lor (c_mask_s_mount_opt c) flag) c.
Definition ctx_clear_mount_opt (flag : Z) (c : ext4_fs_context) : ext4_fs_context :=
  set_mount_opt (Z.land (c_vals_s_mount_opt c) (Z.lnot flag)) (Z.lor (c_mask_s_mount_opt c) flag) c.
Definition ctx_test_mount_opt (c : ext4_fs_context) (flag : Z) : Z := Z.land (c_vals_s_mount_opt c) flag.
Definition ctx_set_mount_opt2 (flag : Z) (c : ext4_fs_context) : ext4_fs_context :=
  set_mount_opt2 (Z.lor (c_vals_s_mount_opt2 c) flag) (Z.lor (c_mask_s_mount_opt2 c) flag) c.
Definition ctx_clear_mount_opt2 (flag : Z) (c : ext4_fs_context) : ext4_fs_context :=
  set_mount_opt2 (Z.land (c_vals_s_mount_opt2 c) (Z.lnot flag)) (Z.lor (c_mask_s_mount_opt2 c) flag) c.
Definition ctx_test_mount_opt2 (c : ext4_fs_context) (flag : Z) : Z := Z.land (c_vals_s_mount_opt2 c) flag.

(** ctx->spec |= EXT4_SPEC_x *)
Definition add_spec (bit : Z) (c : ext4_fs_context) : ext4_fs_context := set_c_spec (Z.lor (c_spec c) bit) c.
Definition has_spec (c : ext4_fs_context) (bit : Z) : bool := negb (Z.land (c_spec c) bit =? 0).

Definition put_par (f : opt_params -> opt_params) (c : ext4_fs_context) : ext4_fs_context :=
  set_c_par (f (c_par c)) c.
Definition par_s_commit_interval (x : Z) (p : opt_params) : opt_params :=
  OptParams x (s_stripe p) (s_min_batch_time p) (s_max_batch_time p) (s_inode_readahead_blks p)
    (s_max_dir_size_kb p) (s_li_wait_mult p) (s_resuid p) (s_resgid p).
Definition par_s_stripe (x : Z) (p : opt_params) : opt_params :=
  OptParams (s_commit_interval p) x (s_min_batch_time p) (s_max_batch_time p)
    (s_inode_readahead_blks p) (s_max_dir_size_kb p) (s_li_wait_mult p) (s_resuid p) (s_resgid p).
Definition par_s_min_batch_time (x : Z) (p : opt_params) : opt_params :=
  OptParams (s_commit_interval p) (s_stripe p) x (s_max_batch_time p) (s_inode_readahead_blks p)
    (s_max_dir_size_kb p) (s_li_wait_mult p) (s_resuid p) (s_resgid p).
Definition par_s_max_batch_time (x : Z) (p : opt_params) : opt_params :=
  OptParams (s_commit_interval p) (s_stripe p) (s_min_batch_time p) x (s_inode_readahead_blks p)
    (s_max_dir_size_kb p) (s_li_wait_mult p) (s_resuid p) (s_resgid p).
Definition par_s_inode_readahead_blks (x : Z) (p : opt_params) : opt_params :=
  OptParams (s_commit_interval p) (s_stripe p) (s_min_batch_time p) (s_max_batch_time p) x
    (s_max_dir_size_kb p) (s_li_wait_mult p) (s_resuid p) (s_resgid p).
Definition par_s_max_dir_size_kb (x : Z) (p : opt_params) : opt_params :=
  OptParams (s_commit_interval p) (s_stripe p) (s_min_batch_time p) (s_max_batch_time p)
    (s_inode_readahead_blks p) x (s_li_wait_mult p) (s_resuid p) (s_resgid p).
Definition par_s_li_wait_mult (x : Z) (p : opt_params) : opt_params :=
  OptParams (s_commit_interval p) (s_stripe p) (s_min_batch_time p) (s_max_batch_time p)
    (s_inode_readahead_blks p) (s_max_dir_size_kb p) x (s_resuid p) (s_resgid p).
Definition par_s_resuid (x : Z) (p : opt_params) : opt_params :=
  OptParams (s_commit_interval p) (s_stripe p) (s_min_batch_time p) (s_max_batch_time p)
    (s_inode_readahead_blks p) (s_max_dir_size_kb p) (s_li_wait_mult p) x (s_resgid p).
Definition par_s_resgid (x : Z) (p : opt_params) : opt_params :=
  OptParams (s_commit_interval p) (s_stripe p) (s_min_batch_time p) (s_max_batch_time p)
    (s_inode_readahead_blks p) (s_max_dir_size_kb p) (s_li_wait_mult p) (s_resuid p) x.

Definition USRQUOTA : Z := 0.
Definition GRPQUOTA : Z := 1.
Definition PRJQUOTA : Z := 2.
Definition qf_name (l : list (option string)) (qtype : Z) : option string := l !!! Z.to_nat qtype.
Definition set_qf_name (qtype : Z) (x : option string) (c : ext4_fs_context) : ext4_fs_context :=
  set_c_qf_names (<[Z.to_nat qtype := x]> (c_qf_names c)) c.
Definition note_qtype (qtype : Z) (c : ext4_fs_context) : ext4_fs_context :=
  add_spec EXT4_SPEC_JQUOTA (set_c_qname_spec (u16 (Z.lor (c_qname_spec c) (Z.shiftl 1 qtype))) c).

(** [strchr(s, '/')] *)
Fixpoint has_slash (s : string) : bool :=
  match s with
  | EmptyString => false
  | String c s => Ascii.eqb c (Ascii.ascii_of_nat 47) || has_slash s
  end.

(** [note_qf_name], [unnote_qf_name] *)
Definition note_qf_name (qtype : Z) (param : fs_parameter) (c : ext4_fs_context) : Z * ext4_fs_context :=
  if Z.of_nat (String.length (p_string param)) <? 1 then (- EINVAL, c)
  else if has_slash (p_string param) then (- EINVAL, c)
  else match qf_name (c_qf_names c) qtype with
  | Some old => (if String.eqb old (p_string param) then 0 else - EINVAL, c)
  | None =>
      if negb (p_kmemdup param) then (- ENOMEM, c)
      else (0, note_qtype qtype (set_qf_name qtype (Some (p_string param)) c))
  end.
Definition unnote_qf_name (qtype : Z) (c : ext4_fs_context) : Z * ext4_fs_context :=
  (0, note_qtype qtype (set_qf_name qtype None c)).

Section Options.
Context `{MountEnv}.
Context (CONFIG_FS_ENCRYPTION CONFIG_FS_ENCRYPTION_INLINE_CRYPT : bool).
Context (IOPRIO_PRIO_VALUE_BE : Z -> Z).      (* IOPRIO_PRIO_VALUE(IOPRIO_CLASS_BE, x) *)

Definition MOPT_Q : Z := if CONFIG_QUOTA then 0 else MOPT_NOSUPPORT.
Definition MOPT_QFMT : Z := if CONFIG_QUOTA then 0x0010 else MOPT_NOSUPPORT.

(** [ext4_mount_opts]: the bits and flags of an option; [None] is the end of the table. *)
Definition ext4_mount_opts : list (opt_token * Z * Z) :=
  let set_clear_quota := Z.lor EXT4_MOUNT_QUOTA (Z.lor EXT4_MOUNT_USRQUOTA
                           (Z.lor EXT4_MOUNT_GRPQUOTA EXT4_MOUNT_PRJQUOTA)) in
  [(Opt_minix_df, EXT4_MOUNT_MINIX_DF, MOPT_SET);
   (Opt_bsd_df, EXT4_MOUNT_MINIX_DF, MOPT_CLEAR);
   (Opt_grpid, EXT4_MOUNT_GRPID, MOPT_SET);
   (Opt_nogrpid, EXT4_MOUNT_GRPID, MOPT_CLEAR);
   (Opt_block_validity, EXT4_MOUNT_BLOCK_VALIDITY, MOPT_SET);
   (Opt_noblock_validity, EXT4_MOUNT_BLOCK_VALIDITY, MOPT_CLEAR);
   (Opt_dioread_nolock, EXT4_MOUNT_DIOREAD_NOLOCK, Z.lor MOPT_EXT4_ONLY MOPT_SET);
   (Opt_dioread_lock, EXT4_MOUNT_DIOREAD_NOLOCK, Z.lor MOPT_EXT4_ONLY MOPT_CLEAR);
   (Opt_discard, EXT4_MOUNT_DISCARD, MOPT_SET);
   (Opt_nodiscard, EXT4_MOUNT_DISCARD, MOPT_CLEAR);
   (Opt_delalloc, EXT4_MOUNT_DELALLOC, lors [MOPT_EXT4_ONLY; MOPT_SET; MOPT_EXPLICIT]);
   (Opt_nodelalloc, EXT4_MOUNT_DELALLOC, Z.lor MOPT_EXT4_ONLY MOPT_CLEAR);
   (Opt_warn_on_error, EXT4_MOUNT_WARN_ON_ERROR, MOPT_SET);
   (Opt_nowarn_on_error, EXT4_MOUNT_WARN_ON_ERROR, MOPT_CLEAR);
   (Opt_commit, 0, MOPT_NO_EXT2);
   (Opt_nojournal_checksum, EXT4_MOUNT_JOURNAL_CHECKSUM, Z.lor MOPT_EXT4_ONLY MOPT_CLEAR);
   (Opt_journal_checksum, EXT4_MOUNT_JOURNAL_CHECKSUM, lors [MOPT_EXT4_ONLY; MOPT_SET; MOPT_EXPLICIT]);
   (Opt_journal_async_commit, Z.lor EXT4_MOUNT_JOURNAL_ASYNC_COMMIT EXT4_MOUNT_JOURNAL_CHECKSUM,
    lors [MOPT_EXT4_ONLY; MOPT_SET; MOPT_EXPLICIT]);
   (Opt_noload, EXT4_MOUNT_NOLOAD, Z.lor MOPT_NO_EXT2 MOPT_SET);
   (Opt_data_err, EXT4_MOUNT_DATA_ERR_ABORT, MOPT_NO_EXT2);
   (Opt_barrier, EXT4_MOUNT_BARRIER, MOPT_SET);
   (Opt_nobarrier, EXT4_MOUNT_BARRIER, MOPT_CLEAR);
   (Opt_noauto_da_alloc, EXT4_MOUNT_NO_AUTO_DA_ALLOC, MOPT_SET);
   (Opt_auto_da_alloc, EXT4_MOUNT_NO_AUTO_DA_ALLOC, MOPT_CLEAR);
   (Opt_noinit_itable, EXT4_MOUNT_INIT_INODE_TABLE, MOPT_CLEAR);
   (Opt_dax_type, 0, MOPT_EXT4_ONLY);
   (Opt_journal_dev, 0, MOPT_NO_EXT2);
   (Opt_journal_path, 0, MOPT_NO_EXT2);
   (Opt_journal_ioprio, 0, MOPT_NO_EXT2);
   (Opt_data, 0, MOPT_NO_EXT2);
   (Opt_user_xattr, EXT4_MOUNT_XATTR_USER, MOPT_SET);
   (Opt_acl, if CONFIG_EXT4_FS_POSIX_ACL then EXT4_MOUNT_POSIX_ACL else 0,
    if CONFIG_EXT4_FS_POSIX_ACL then MOPT_SET else MOPT_NOSUPPORT);
   (Opt_nouid32, EXT4_MOUNT_NO_UID32, MOPT_SET);
   (Opt_debug, EXT4_MOUNT_DEBUG, MOPT_SET);
   (Opt_quota, Z.lor EXT4_MOUNT_QUOTA EXT4_MOUNT_USRQUOTA, Z.lor MOPT_SET MOPT_Q);
   (Opt_usrquota, Z.lor EXT4_MOUNT_QUOTA EXT4_MOUNT_USRQUOTA, Z.lor MOPT_SET MOPT_Q);
   (Opt_grpquota, Z.lor EXT4_MOUNT_QUOTA EXT4_MOUNT_GRPQUOTA, Z.lor MOPT_SET MOPT_Q);
   (Opt_prjquota, Z.lor EXT4_MOUNT_QUOTA EXT4_MOUNT_PRJQUOTA, Z.lor MOPT_SET MOPT_Q);
   (Opt_noquota, set_clear_quota, Z.lor MOPT_CLEAR MOPT_Q);
   (Opt_usrjquota, 0, MOPT_Q);
   (Opt_grpjquota, 0, MOPT_Q);
   (Opt_jqfmt, 0, MOPT_QFMT);
   (Opt_nombcache, EXT4_MOUNT_NO_MBCACHE, MOPT_SET);
   (Opt_no_prefetch_block_bitmaps, EXT4_MOUNT_NO_PREFETCH_BLOCK_BITMAPS, MOPT_SET);
   (Opt_abort, EXT4_MOUNT2_ABORT, Z.lor MOPT_SET MOPT_2)].

(** The search of the table: the bits and flags of an option; [None] at its end. *)
Definition find_opt (token : opt_token) : option (Z * Z) :=
  match filter (fun m => m.1.1 = token) ext4_mount_opts with
  | (_, bits, flags) :: _ => Some (bits, flags)
  | [] => None
  end.

Definition INT_MAX : Z := 2 ^ 31 - 1.

(** The options with a value or a rule of their own; the other options return [None] and
    are handled by the table. *)
Definition parse_special (is_remount : bool) (param : fs_parameter) (token : opt_token) (v : Z)
    (bits : Z) (c : ext4_fs_context) : option (Z * ext4_fs_context) :=
  let param_to f spec := Some (0, add_spec spec (put_par f c)) in
  match token with
  | Opt_usrjquota =>
      if negb CONFIG_QUOTA then None
      else Some (if String.eqb (p_string param) "" then unnote_qf_name USRQUOTA c
                 else note_qf_name USRQUOTA param c)
  | Opt_grpjquota =>
      if negb CONFIG_QUOTA then None
      else Some (if String.eqb (p_string param) "" then unnote_qf_name GRPQUOTA c
                 else note_qf_name GRPQUOTA param c)
  | Opt_sb =>
      Some (0, if is_remount then c else add_spec EXT4_SPEC_s_sb_block (set_c_sb_block v c))
  | Opt_removed => Some (0, c)
  | Opt_inlinecrypt =>
      Some (0, if CONFIG_FS_ENCRYPTION_INLINE_CRYPT then ctx_set_flags SB_INLINECRYPT c else c)
  | Opt_errors =>
      Some (0, ctx_set_mount_opt v (ctx_clear_mount_opt EXT4_MOUNT_ERRORS_MASK c))
  | Opt_jqfmt =>
      if negb CONFIG_QUOTA then None
      else Some (0, add_spec EXT4_SPEC_JQFMT (set_c_jquota_fmt (s32 v) c))
  | Opt_data =>
      Some (0, add_spec EXT4_SPEC_DATAJ
                 (ctx_set_mount_opt v (ctx_clear_mount_opt EXT4_MOUNT_DATA_FLAGS c)))
  | Opt_commit =>
      let interval v := param_to (par_s_commit_interval (u32 (HZ * v))) EXT4_SPEC_s_commit_interval in
      if v =? 0 then interval JBD2_DEFAULT_MAX_COMMIT_AGE
      else if INT_MAX / HZ <? v then Some (- EINVAL, c)
      else interval v
  | Opt_debug_want_extra_isize =>
      if negb (Z.land v 1 =? 0) || (v <? 4) then Some (- EINVAL, c)
      else Some (0, add_spec EXT4_SPEC_s_want_extra_isize (set_c_want_extra_isize v c))
  | Opt_max_batch_time => param_to (par_s_max_batch_time v) EXT4_SPEC_s_max_batch_time
  | Opt_min_batch_time => param_to (par_s_min_batch_time v) EXT4_SPEC_s_min_batch_time
  | Opt_inode_readahead_blks =>
      if negb (v =? 0) && ((2 ^ 30 <? v) || negb (is_power_of_2 v)) then Some (- EINVAL, c)
      else param_to (par_s_inode_readahead_blks v) EXT4_SPEC_s_inode_readahead_blks
  | Opt_init_itable =>
      let c := ctx_set_mount_opt EXT4_MOUNT_INIT_INODE_TABLE c in
      let mult := if p_is_flag param then EXT4_DEF_LI_WAIT_MULT else v in
      Some (0, add_spec EXT4_SPEC_s_li_wait_mult (put_par (par_s_li_wait_mult mult) c))
  | Opt_max_dir_size_kb => param_to (par_s_max_dir_size_kb v) EXT4_SPEC_s_max_dir_size_kb
  | Opt_stripe => param_to (par_s_stripe v) EXT4_SPEC_s_stripe
  | Opt_resuid =>
      match p_kid param with
      | None => Some (- EINVAL, c)
      | Some uid => param_to (par_s_resuid uid) EXT4_SPEC_s_resuid
      end
  | Opt_resgid =>
      match p_kid param with
      | None => Some (- EINVAL, c)
      | Some gid => param_to (par_s_resgid gid) EXT4_SPEC_s_resgid
      end
  | Opt_journal_dev =>
      if is_remount then Some (- EINVAL, c)
      else Some (0, add_spec EXT4_SPEC_JOURNAL_DEV (set_c_journal_devnum v c))
  | Opt_journal_path =>
      if is_remount then Some (- EINVAL, c)
      else match p_lookup param with
      | inl _ => Some (- EINVAL, c)
      | inr dev => Some (0, add_spec EXT4_SPEC_JOURNAL_DEV (set_c_journal_devnum dev c))
      end
  | Opt_journal_ioprio =>
      if 7 <? v then Some (- EINVAL, c)
      else Some (0, add_spec EXT4_SPEC_JOURNAL_IOPRIO (set_c_journal_ioprio (IOPRIO_PRIO_VALUE_BE v) c))
  | Opt_test_dummy_encryption =>
      (* ext4_parse_test_dummy_encryption *)
      if negb CONFIG_FS_ENCRYPTION then Some (- EINVAL, c)
      else
        let '(err, policy) := p_fscrypt param in
        Some (if err =? - EEXIST then - EINVAL else err, set_c_dummy_enc_policy policy c)
  | Opt_dax | Opt_dax_type =>
      if negb CONFIG_FS_DAX then Some (- EINVAL, c)
      else
        let always := ctx_clear_mount_opt2 EXT4_MOUNT2_DAX_NEVER (ctx_set_mount_opt EXT4_MOUNT_DAX_ALWAYS c) in
        Some (0,
          if decide (token = Opt_dax) then always
          else if v =? Opt_dax_always_val then always
          else if v =? Opt_dax_never_val
          then ctx_clear_mount_opt EXT4_MOUNT_DAX_ALWAYS (ctx_set_mount_opt2 EXT4_MOUNT2_DAX_NEVER c)
          else if v =? Opt_dax_inode_val
          then ctx_set_mount_opt2 EXT4_MOUNT2_DAX_INODE
                 (ctx_clear_mount_opt2 EXT4_MOUNT2_DAX_NEVER (ctx_clear_mount_opt EXT4_MOUNT_DAX_ALWAYS c))
          else c)
  | Opt_data_err =>
      Some (0, if v =? Opt_data_err_abort_val then ctx_set_mount_opt bits c
               else if v =? Opt_data_err_ignore_val then ctx_clear_mount_opt bits c else c)
  | Opt_mb_optimize_scan =>
      if s32 v =? 1
      then Some (0, add_spec EXT4_SPEC_mb_optimize_scan (ctx_set_mount_opt2 EXT4_MOUNT2_MB_OPTIMIZE_SCAN c))
      else if s32 v =? 0
      then Some (0, add_spec EXT4_SPEC_mb_optimize_scan (ctx_clear_mount_opt2 EXT4_MOUNT2_MB_OPTIMIZE_SCAN c))
      else Some (- EINVAL, c)
  | _ => None
  end.

(** The end of [ext4_parse_param]: an option of the table sets or clears its bits. *)
Definition parse_flag (param : fs_parameter) (v bits flags : Z) (c : ext4_fs_context) : Z * ext4_fs_context :=
  let set := p_is_flag param || (0 <? v) in
  let has f := negb (Z.land flags f =? 0) in
  if negb (has MOPT_CLEAR) && negb (has MOPT_SET) then (- EINVAL, c)
  else
    let set := if has MOPT_CLEAR then negb set else set in
    (0, if has MOPT_2
        then if set then ctx_set_mount_opt2 bits c else ctx_clear_mount_opt2 bits c
        else if set then ctx_set_mount_opt bits c else ctx_clear_mount_opt bits c).

Definition ext4_parse_param (is_remount : bool) (param : fs_parameter) (c : ext4_fs_context)
    : Z * ext4_fs_context :=
  match p_parse param with
  | inl err => (err, c)
  | inr (token, v) =>
      let m := find_opt token in
      let '(bits, flags) := default (0, 0) m in
      let has f := negb (Z.land flags f =? 0) in
      let c := set_c_opt_flags (Z.lor (c_opt_flags c) flags) c in
      let explicit :=
        if negb (has MOPT_EXPLICIT) then Some c
        else if negb (Z.land bits EXT4_MOUNT_DELALLOC =? 0)
        then Some (ctx_set_mount_opt2 EXT4_MOUNT2_EXPLICIT_DELALLOC c)
        else if negb (Z.land bits EXT4_MOUNT_JOURNAL_CHECKSUM =? 0)
        then Some (ctx_set_mount_opt2 EXT4_MOUNT2_EXPLICIT_JOURNAL_CHECKSUM c)
        else None in
      match explicit with
      | None => (- EINVAL, c)
      | Some c =>
          if has MOPT_NOSUPPORT then (0, c)
          else match parse_special is_remount param token v bits c with
          | Some r => r
          | None =>
              match m with
              | None => (- EINVAL, c)
              | Some _ => parse_flag param v bits flags c
              end
          end
      end
  end.

(** ** The options in the super block *)

(** [strsep] with a comma: the words of a string. *)
Fixpoint words (cur s : string) : list string :=
  match s with
  | EmptyString => [cur]
  | String c s => if Ascii.eqb c (Ascii.ascii_of_nat 44) then cur :: words "" s
                  else words (String.append cur (String c "")) s
  end.

(** [strchr(key, '=')]: the key and the value behind it. *)
Fixpoint key_value (s : string) : string * option string :=
  match s with
  | EmptyString => ("", None)%string
  | String c s =>
      if Ascii.eqb c (Ascii.ascii_of_nat 61) then (""%string, Some s)
      else let '(k, v) := key_value s in (String c k, v)
  end.

Definition qf_spec (c : ext4_fs_context) (qtype : Z) : bool :=
  negb (Z.land (c_qname_spec c) (Z.shiftl 1 qtype) =? 0).
Definition is_some_name (l : list (option string)) (qtype : Z) : bool :=
  match qf_name l qtype with Some _ => true | None => false end.

(** [ext4_validate_options]: no mix of old and new quota options. *)
Definition ext4_validate_options (c : ext4_fs_context) : Z * ext4_fs_context :=
  if negb CONFIG_QUOTA then (1, c) else
  let usr := is_some_name (c_qf_names c) USRQUOTA in
  let grp := is_some_name (c_qf_names c) GRPQUOTA in
  if negb (usr || grp) then (1, c) else
  let test c f := negb (ctx_test_mount_opt c f =? 0) in
  let c := if test c EXT4_MOUNT_USRQUOTA && usr then ctx_clear_mount_opt EXT4_MOUNT_USRQUOTA c else c in
  let c := if test c EXT4_MOUNT_GRPQUOTA && grp then ctx_clear_mount_opt EXT4_MOUNT_GRPQUOTA c else c in
  if test c EXT4_MOUNT_USRQUOTA || test c EXT4_MOUNT_GRPQUOTA then (- EINVAL, c) else (1, c).

Section SbOptions.
(** The answers about the [n]th word of the options, with its key and value. *)
Context (answers : nat -> string -> option string -> param_answers).
(** kmemdup_nul of the value of the [n]th word *)
Context (kmemdup_value : nat -> bool).

(** [parse_options]: [fc->purpose] is that of a mount. *)
Fixpoint parse_words (n : nat) (ws : list string) (c : ext4_fs_context) : Z * ext4_fs_context :=
  match ws with
  | [] => ext4_validate_options c
  | w :: ws =>
      if String.eqb w "" then parse_words (S n) ws c else
      let '(key, value) := key_value w in
      let parse flag str :=
        let '(ret, c) := ext4_parse_param false (FsParameter key flag str (answers n key value)) c in
        if ret <? 0 then (ret, c) else parse_words (S n) ws c in
      match value with
      | None => parse true ""%string
      | Some str =>
          if String.eqb key "" then parse_words (S n) ws c
          else if negb (kmemdup_value n) then (- ENOMEM, c)
          else parse false str
      end
  end.
Definition parse_options (options : string) (c : ext4_fs_context) : Z * ext4_fs_context :=
  let '(ret, c) := parse_words 0 (words "" options) c in
  (if ret <? 0 then ret else 0, c).
End SbOptions.

(** ** Consistency with the file system *)

Section Consistency.
Context (quota_loaded : bool).                                  (* sb_any_quota_loaded(sb) *)
Context (dummy_policies_equal : option Z -> option Z -> bool).  (* fscrypt_dummy_policies_equal *)

(** One quota file of [ext4_check_quota_consistency]: a change while quota is on, and a
    second name. *)
Definition jquota_conflict (c : ext4_fs_context) (s : mount) (i : Z) : bool :=
  let have := is_some_name (s_qf_names (m_quota s)) i in
  let want := is_some_name (c_qf_names c) i in
  qf_spec c i &&
  ((quota_loaded && negb (Bool.eqb have want)) ||
   match qf_name (s_qf_names (m_quota s)) i, qf_name (c_qf_names c) i with
   | Some old, Some new => negb (String.eqb old new)
   | _, _ => false
   end).

(** The end of [ext4_check_quota_consistency]: old and new format are not mixed. *)
Definition quota_not_mixed (c : ext4_fs_context) (s : mount) : Z * ext4_fs_context :=
  let test f := negb (ctx_test_mount_opt c f =? 0) || negb (test_opt s f =? 0) in
  let usr_qf_name := is_some_name (s_qf_names (m_quota s)) USRQUOTA || is_some_name (c_qf_names c) USRQUOTA in
  let grp_qf_name := is_some_name (s_qf_names (m_quota s)) GRPQUOTA || is_some_name (c_qf_names c) GRPQUOTA in
  let usrquota := test EXT4_MOUNT_USRQUOTA && negb usr_qf_name in
  let grpquota := test EXT4_MOUNT_GRPQUOTA && negb grp_qf_name in
  let c := if usr_qf_name then ctx_clear_mount_opt EXT4_MOUNT_USRQUOTA c else c in
  let c := if grp_qf_name then ctx_clear_mount_opt EXT4_MOUNT_GRPQUOTA c else c in
  if usr_qf_name || grp_qf_name then
    if usrquota || grpquota then (- EINVAL, c)
    else if negb (has_spec c EXT4_SPEC_JQFMT || negb (s_jquota_fmt (m_quota s) =? 0)) then (- EINVAL, c)
    else (0, c)
  else (0, c).

Definition ext4_check_quota_consistency (c : ext4_fs_context) (s : mount) : Z * ext4_fs_context :=
  if negb CONFIG_QUOTA then (0, c) else
  let quota_feature := ext4_has_feature_quota (m_es s) in
  if negb (ctx_test_mount_opt c EXT4_MOUNT_PRJQUOTA =? 0) && negb (ext4_has_feature_project (m_es s))
  then (- EINVAL, c) else
  let quota_flags := lors [EXT4_MOUNT_QUOTA; EXT4_MOUNT_USRQUOTA; EXT4_MOUNT_GRPQUOTA; EXT4_MOUNT_PRJQUOTA] in
  if quota_loaded && negb (Z.land (c_mask_s_mount_opt c) quota_flags =? 0) &&
     (ctx_test_mount_opt c quota_flags =? 0) then (- EINVAL, c) else
  let jquota := has_spec c EXT4_SPEC_JQUOTA in
  if jquota && existsb (jquota_conflict c s) [USRQUOTA; GRPQUOTA; PRJQUOTA] then (- EINVAL, c)
  else if jquota && quota_feature then (0, c)
  else
    let jqfmt := has_spec c EXT4_SPEC_JQFMT in
    if jqfmt && negb (s_jquota_fmt (m_quota s) =? c_jquota_fmt c) && quota_loaded then (- EINVAL, c)
    else if jqfmt && quota_feature then (0, c)
    else quota_not_mixed c s.

Definition is_set (p : option Z) : bool := match p with Some _ => true | None => false end.

Definition ext4_check_test_dummy_encryption (is_remount : bool) (c : ext4_fs_context) (s : mount) : Z :=
  let old := s_dummy_enc_policy (m_quota s) in
  let new := c_dummy_enc_policy c in
  if negb (is_set new) then 0
  else if negb (ext4_has_feature_encrypt (m_es s)) then - EINVAL
  else if is_remount then if dummy_policies_equal old new then 0 else - EINVAL
  else if is_set old then if dummy_policies_equal old new then 0 else - EINVAL
  else 0.

(** The DAX options cannot change on a remount. *)
Definition dax_change (c : ext4_fs_context) (s : mount) : bool :=
  let has o f := negb (Z.land o f =? 0) in
  let always := has (m_opt s) EXT4_MOUNT_DAX_ALWAYS in
  let never := has (m_opt2 s) EXT4_MOUNT2_DAX_NEVER in
  let inode := has (m_opt2 s) EXT4_MOUNT2_DAX_INODE in
  if negb (ctx_test_mount_opt c EXT4_MOUNT_DAX_ALWAYS =? 0) && (negb always || never) then true
  else if negb (ctx_test_mount_opt2 c EXT4_MOUNT2_DAX_NEVER =? 0) && (negb never || always) then true
  else negb (ctx_test_mount_opt2 c EXT4_MOUNT2_DAX_INODE =? 0) && (always || never || negb inode).

Definition ext4_check_opt_consistency (is_remount : bool) (c : ext4_fs_context) (s : mount)
    : Z * ext4_fs_context :=
  let has f := negb (Z.land (c_opt_flags c) f =? 0) in
  if has MOPT_NO_EXT2 && is_ext2 s then (- EINVAL, c)
  else if has MOPT_NO_EXT3 && is_ext3 s then (- EINVAL, c)
  else if u32 (s_inode_size (m_ino s) - EXT4_GOOD_OLD_INODE_SIZE) <? c_want_extra_isize c
  then (- EINVAL, c)
  else
    let err := ext4_check_test_dummy_encryption is_remount c s in
    if negb (err =? 0) then (err, c) else
    let dataj := has_spec c EXT4_SPEC_DATAJ && is_remount in
    if dataj && m_journal s &&
       negb (ctx_test_mount_opt c EXT4_MOUNT_DATA_FLAGS =? test_opt s EXT4_MOUNT_DATA_FLAGS)
    then (- EINVAL, c) else
    let c := if dataj && negb (m_journal s) then ctx_clear_mount_opt EXT4_MOUNT_DATA_FLAGS c else c in
    if is_remount && negb (ctx_test_mount_opt c EXT4_MOUNT_DAX_ALWAYS =? 0) &&
       (test_opt s EXT4_MOUNT_DATA_FLAGS =? EXT4_MOUNT_JOURNAL_DATA) then (- EINVAL, c)
    else if is_remount && dax_change c s then (- EINVAL, c)
    else ext4_check_quota_consistency c s.
End Consistency.

(** ** Applying the options *)

(** [ext4_apply_quota_options] for one type: the name moves to the super block. *)
Definition apply_qf_name (i : Z) (cs : ext4_fs_context * mount) : ext4_fs_context * mount :=
  let '(c, s) := cs in
  if negb (qf_spec c i) then (c, s) else
  let qname := qf_name (c_qf_names c) i in
  let s := when (is_some_name (c_qf_names c) i) (set_opt EXT4_MOUNT_QUOTA) s in
  let q := m_quota s in
  (set_qf_name i None c,
   set_m_quota (QuotaOpts (<[Z.to_nat i := qname]> (s_qf_names q)) (s_jquota_fmt q) (s_dummy_enc_policy q)) s).

Definition ext4_apply_quota_options (c : ext4_fs_context) (s : mount) : ext4_fs_context * mount :=
  if negb CONFIG_QUOTA || ext4_has_feature_quota (m_es s) then (c, s) else
  let '(c, s) :=
    if has_spec c EXT4_SPEC_JQUOTA
    then apply_qf_name PRJQUOTA (apply_qf_name GRPQUOTA (apply_qf_name USRQUOTA (c, s)))
    else (c, s) in
  let q := m_quota s in
  (c, when (has_spec c EXT4_SPEC_JQFMT)
        (set_m_quota (QuotaOpts (s_qf_names q) (c_jquota_fmt c) (s_dummy_enc_policy q))) s).

Definition ext4_apply_test_dummy_encryption (c : ext4_fs_context) (s : mount) : ext4_fs_context * mount :=
  let q := m_quota s in
  if negb (is_set (c_dummy_enc_policy c)) || is_set (s_dummy_enc_policy q) then (c, s)
  else (set_c_dummy_enc_policy None c,
        set_m_quota (QuotaOpts (s_qf_names q) (s_jquota_fmt q) (c_dummy_enc_policy c)) s).

(** The parameters the specification word names. *)
Definition apply_params (c : ext4_fs_context) (p : opt_params) : opt_params :=
  let pick spec (f : opt_params -> Z) := if has_spec c spec then f (c_par c) else f p in
  OptParams (pick EXT4_SPEC_s_commit_interval s_commit_interval) (pick EXT4_SPEC_s_stripe s_stripe)
    (pick EXT4_SPEC_s_min_batch_time s_min_batch_time) (pick EXT4_SPEC_s_max_batch_time s_max_batch_time)
    (pick EXT4_SPEC_s_inode_readahead_blks s_inode_readahead_blks)
    (pick EXT4_SPEC_s_max_dir_size_kb s_max_dir_size_kb) (pick EXT4_SPEC_s_li_wait_mult s_li_wait_mult)
    (pick EXT4_SPEC_s_resuid s_resuid) (pick EXT4_SPEC_s_resgid s_resgid).

Definition ext4_apply_options (c : ext4_fs_context) (s : mount) : ext4_fs_context * mount :=
  let s := set_m_opt (Z.lor (Z.land (m_opt s) (Z.lnot (c_mask_s_mount_opt c))) (c_vals_s_mount_opt c)) s in
  let s := set_m_opt2 (Z.lor (Z.land (m_opt2 s) (Z.lnot (c_mask_s_mount_opt2 c))) (c_vals_s_mount_opt2 c)) s in
  let s := set_m_flags (Z.lor (Z.land (m_flags s) (Z.lnot (c_mask_s_flags c))) (c_vals_s_flags c)) s in
  let s := set_m_par (apply_params c (m_par s)) s in
  let s := when (has_spec c EXT4_SPEC_s_want_extra_isize) (upd_ino (set_want (c_want_extra_isize c))) s in
  let '(c, s) := ext4_apply_quota_options c s in
  ext4_apply_test_dummy_encryption c s.
End Options.
