(* ===== verification/MountOptsSpec.v ===== *)
(** * Mount options: the order of the options

    The options are collected as bits to change with their values and applied at once; the
    theorem is that this gives the words an option-by-option application gives, so of two
    options about the same bit the last one wins.  The bits of the quota options are left
    out: they also depend on the names of the quota files. *)

From stdpp Require Import prelude list strings.
From Stdlib Require Import ZArith Lia.
From S2P Require Import Prelude Layout Mount MountOpts.

Local Open Scope Z_scope.

(** ** The two words of a context *)

Definition apply_word (vals mask o : Z) : Z := Z.lor (Z.land o (Z.lnot mask)) vals.
Definition words_after (c : ext4_fs_context) (w : Z * Z) : Z * Z :=
  (apply_word (c_vals_s_mount_opt c) (c_mask_s_mount_opt c) w.1,
   apply_word (c_vals_s_mount_opt2 c) (c_mask_s_mount_opt2 c) w.2).

Definition set_bits (f o : Z) : Z := Z.lor o f.
Definition clear_bits (f o : Z) : Z := Z.land o (Z.lnot f).
Definition switch (on : bool) (f o : Z) : Z := if on then set_bits f o else clear_bits f o.

(** Equality of words, bit by bit. *)
Ltac bitwise :=
  apply Z.bits_inj'; intros ? ?;
  rewrite ?Z.lor_spec, ?Z.land_spec, ?Z.ldiff_spec, ?Z.lnot_spec, ?Z.lor_spec, ?Z.land_spec, ?Z.lnot_spec by lia;
  rewrite ?Z.lor_spec, ?Z.land_spec, ?Z.lnot_spec by lia;
  repeat match goal with |- context [Z.testbit ?x ?i] => destruct (Z.testbit x i) end; reflexivity.

Lemma apply_word_set vals mask f o :
  apply_word (Z.lor vals f) (Z.lor mask f) o = set_bits f (apply_word vals mask o).
Proof. unfold apply_word, set_bits. bitwise. Qed.
Lemma apply_word_clear vals mask f o :
  apply_word (Z.land vals (Z.lnot f)) (Z.lor mask f) o = clear_bits f (apply_word vals mask o).
Proof. unfold apply_word, clear_bits. bitwise. Qed.

(** The words of a context by its updates. *)
Lemma words_set f c w : words_after (ctx_set_mount_opt f c) w = (set_bits f (words_after c w).1, (words_after c w).2).
Proof. unfold words_after. cbn [fst snd]. by rewrite <- apply_word_set. Qed.
Lemma words_clear f c w :
  words_after (ctx_clear_mount_opt f c) w = (clear_bits f (words_after c w).1, (words_after c w).2).
Proof. unfold words_after. cbn [fst snd]. by rewrite <- apply_word_clear. Qed.
Lemma words_set2 f c w : words_after (ctx_set_mount_opt2 f c) w = ((words_after c w).1, set_bits f (words_after c w).2).
Proof. unfold words_after. cbn [fst snd]. by rewrite <- apply_word_set. Qed.
Lemma words_clear2 f c w :
  words_after (ctx_clear_mount_opt2 f c) w = ((words_after c w).1, clear_bits f (words_after c w).2).
Proof. unfold words_after. cbn [fst snd]. by rewrite <- apply_word_clear. Qed.

(** The words do not depend on the other fields of a context. *)
Lemma words_same c c' w :
  c_vals_s_mount_opt c' = c_vals_s_mount_opt c -> c_mask_s_mount_opt c' = c_mask_s_mount_opt c ->
  c_vals_s_mount_opt2 c' = c_vals_s_mount_opt2 c -> c_mask_s_mount_opt2 c' = c_mask_s_mount_opt2 c ->
  words_after c' w = words_after c w.
Proof. unfold words_after. by intros -> -> -> ->. Qed.
Lemma words_spec b c w : words_after (add_spec b c) w = words_after c w.
Proof. done. Qed.
Lemma words_par f c w : words_after (put_par f c) w = words_after c w.
Proof. done. Qed.

Create Rewrite HintDb words.
#[export] Hint Rewrite words_set words_clear words_set2 words_clear2 words_spec words_par : words.

(** ** What each option means *)

Section Effects.
Context `{MountEnv}.

(** An option with its value; [on] for a flag, or a value that is not 0. *)
Definition opt_effect (token : opt_token) (v : Z) (on : bool) (w : Z * Z) : Z * Z :=
  let '(o, o2) := w in
  let flag f := (switch on f o, o2) in
  let noflag f := (switch (negb on) f o, o2) in
  let quota f := if CONFIG_QUOTA then flag f else w in
  match token with
  | Opt_minix_df => flag EXT4_MOUNT_MINIX_DF
  | Opt_bsd_df => noflag EXT4_MOUNT_MINIX_DF
  | Opt_grpid => flag EXT4_MOUNT_GRPID
  | Opt_nogrpid => noflag EXT4_MOUNT_GRPID
  | Opt_block_validity => flag EXT4_MOUNT_BLOCK_VALIDITY
  | Opt_noblock_validity => noflag EXT4_MOUNT_BLOCK_VALIDITY
  | Opt_dioread_nolock => flag EXT4_MOUNT_DIOREAD_NOLOCK
  | Opt_dioread_lock => noflag EXT4_MOUNT_DIOREAD_NOLOCK
  | Opt_discard => flag EXT4_MOUNT_DISCARD
  | Opt_nodiscard => noflag EXT4_MOUNT_DISCARD
  | Opt_delalloc => (switch on EXT4_MOUNT_DELALLOC o, set_bits EXT4_MOUNT2_EXPLICIT_DELALLOC o2)
  | Opt_nodelalloc => noflag EXT4_MOUNT_DELALLOC
  | Opt_warn_on_error => flag EXT4_MOUNT_WARN_ON_ERROR
  | Opt_nowarn_on_error => noflag EXT4_MOUNT_WARN_ON_ERROR
  | Opt_nojournal_checksum => noflag EXT4_MOUNT_JOURNAL_CHECKSUM
  | Opt_journal_checksum =>
      (switch on EXT4_MOUNT_JOURNAL_CHECKSUM o, set_bits EXT4_MOUNT2_EXPLICIT_JOURNAL_CHECKSUM o2)
  | Opt_journal_async_commit =>
      (switch on (Z.lor EXT4_MOUNT_JOURNAL_ASYNC_COMMIT EXT4_MOUNT_JOURNAL_CHECKSUM) o,
       set_bits EXT4_MOUNT2_EXPLICIT_JOURNAL_CHECKSUM o2)
  | Opt_noload => flag EXT4_MOUNT_NOLOAD
  | Opt_data_err =>
      (if v =? Opt_data_err_abort_val then set_bits EXT4_MOUNT_DATA_ERR_ABORT o
       else if v =? Opt_data_err_ignore_val then clear_bits EXT4_MOUNT_DATA_ERR_ABORT o else o, o2)
  | Opt_barrier => flag EXT4_MOUNT_BARRIER
  | Opt_nobarrier => noflag EXT4_MOUNT_BARRIER
  | Opt_noauto_da_alloc => flag EXT4_MOUNT_NO_AUTO_DA_ALLOC
  | Opt_auto_da_alloc => noflag EXT4_MOUNT_NO_AUTO_DA_ALLOC
  | Opt_init_itable => (set_bits EXT4_MOUNT_INIT_INODE_TABLE o, o2)
  | Opt_noinit_itable => noflag EXT4_MOUNT_INIT_INODE_TABLE
  | Opt_errors => (set_bits v (clear_bits EXT4_MOUNT_ERRORS_MASK o), o2)
  | Opt_data => (set_bits v (clear_bits EXT4_MOUNT_DATA_FLAGS o), o2)
  | Opt_dax => (set_bits EXT4_MOUNT_DAX_ALWAYS o, clear_bits EXT4_MOUNT2_DAX_NEVER o2)
  | Opt_dax_type =>
      if v =? Opt_dax_always_val then (set_bits EXT4_MOUNT_DAX_ALWAYS o, clear_bits EXT4_MOUNT2_DAX_NEVER o2)
      else if v =? Opt_dax_never_val
      then (clear_bits EXT4_MOUNT_DAX_ALWAYS o, set_bits EXT4_MOUNT2_DAX_NEVER o2)
      else if v =? Opt_dax_inode_val
      then (clear_bits EXT4_MOUNT_DAX_ALWAYS o,
            set_bits EXT4_MOUNT2_DAX_INODE (clear_bits EXT4_MOUNT2_DAX_NEVER o2))
      else w
  | Opt_mb_optimize_scan => (o, switch (s32 v =? 1) EXT4_MOUNT2_MB_OPTIMIZE_SCAN o2)
  | Opt_user_xattr => flag EXT4_MOUNT_XATTR_USER
  | Opt_acl => if CONFIG_EXT4_FS_POSIX_ACL then flag EXT4_MOUNT_POSIX_ACL else w
  | Opt_nouid32 => flag EXT4_MOUNT_NO_UID32
  | Opt_debug => flag EXT4_MOUNT_DEBUG
  | Opt_quota | Opt_usrquota => quota (Z.lor EXT4_MOUNT_QUOTA EXT4_MOUNT_USRQUOTA)
  | Opt_grpquota => quota (Z.lor EXT4_MOUNT_QUOTA EXT4_MOUNT_GRPQUOTA)
  | Opt_prjquota => quota (Z.lor EXT4_MOUNT_QUOTA EXT4_MOUNT_PRJQUOTA)
  | Opt_noquota =>
      if CONFIG_QUOTA
      then noflag (lors [EXT4_MOUNT_QUOTA; EXT4_MOUNT_USRQUOTA; EXT4_MOUNT_GRPQUOTA; EXT4_MOUNT_PRJQUOTA])
      else w
  | Opt_nombcache => flag EXT4_MOUNT_NO_MBCACHE
  | Opt_no_prefetch_block_bitmaps => flag EXT4_MOUNT_NO_PREFETCH_BLOCK_BITMAPS
  | Opt_abort => (o, switch on EXT4_MOUNT2_ABORT o2)
  | _ => w
  end.

(** The effect of a parameter, as [fs_parse] understood it. *)
Definition param_effect (p : fs_parameter) (w : Z * Z) : Z * Z :=
  match p_parse p with
  | inl _ => w
  | inr (token, v) => opt_effect token v (p_is_flag p || (0 <? v)) w
  end.

(** *** One option *)

Context (enc inline : bool) (ioprio : Z -> Z).

Lemma qf_name_words q x c w : words_after (note_qtype q (set_qf_name q x c)) w = words_after c w.
Proof. done. Qed.
Lemma note_words q p c w : words_after (note_qf_name q p c).2 w = words_after c w.
Proof. unfold note_qf_name. repeat (case_match || done). Qed.

(** The end of the function: the bits of the table. *)
Lemma parse_flag_words p v bits flags c w :
  0 <= (parse_flag p v bits flags c).1 ->
  let on := p_is_flag p || (0 <? v) in
  let on := if negb (Z.land flags MOPT_CLEAR =? 0) then negb on else on in
  words_after (parse_flag p v bits flags c).2 w =
    (if negb (Z.land flags MOPT_2 =? 0)
     then ((words_after c w).1, switch on bits (words_after c w).2)
     else (switch on bits (words_after c w).1, (words_after c w).2)).
Proof.
  unfold parse_flag. cbv zeta. destruct (_ && _); [done|]. intros _. cbn [snd].
  destruct (negb (Z.land flags MOPT_2 =? 0)), (if negb (Z.land flags MOPT_CLEAR =? 0) then _ else _);
    by autorewrite with words.
Qed.

(** The options with a rule of their own. *)
Lemma parse_special_words rem p token v bits c w r :
  parse_special enc inline ioprio rem p token v bits c = Some r -> 0 <= r.1 ->
  (token = Opt_data_err -> bits = EXT4_MOUNT_DATA_ERR_ABORT) ->
  words_after r.2 w = opt_effect token v (p_is_flag p || (0 <? v)) (words_after c w).
Proof.
  unfold parse_special. intros Hr H0' Hb. destruct (words_after c w) as [o o2] eqn:Ew.
  assert (Eo : (words_after c w).1 = o) by by rewrite Ew. assert (Eo2 : (words_after c w).2 = o2) by by rewrite Ew.
  destruct token; try discriminate Hr; try (rewrite (Hb eq_refl) in Hr);
    repeat match type of Hr with
      | (if ?x then _ else _) = _ => destruct x eqn:?
      | (match ?x with _ => _ end) = _ => destruct x eqn:?
      end; try discriminate Hr; injection Hr as <-; cbn [fst snd] in *; try (unfold EINVAL in *; lia);
    cbn [opt_effect];
    repeat match goal with
      | |- context [if ?x then _ else _] => destruct x eqn:?
      end; try congruence; autorewrite with words; rewrite ?note_words, ?qf_name_words, ?Eo, ?Eo2; try done.
  all: try (by rewrite Ew).
  all: match goal with E : (s32 _ =? 1) = _ |- _ => by rewrite E end.
Qed.

(** The options left to the table, with the bits and flags it has for them: each of them
    has the effect of its bits. *)
Definition table_words (v : Z) (on : bool) (bits flags : Z) (w : Z * Z) : Z * Z :=
  let has f := negb (Z.land flags f =? 0) in
  let w :=
    if negb (has MOPT_EXPLICIT) then w
    else if negb (Z.land bits EXT4_MOUNT_DELALLOC =? 0) then (w.1, set_bits EXT4_MOUNT2_EXPLICIT_DELALLOC w.2)
    else (w.1, set_bits EXT4_MOUNT2_EXPLICIT_JOURNAL_CHECKSUM w.2) in
  let on := if has MOPT_CLEAR then negb on else on in
  if has MOPT_NOSUPPORT then w
  else if has MOPT_2 then (w.1, switch on bits w.2) else (switch on bits w.1, w.2).

Definition by_table (token : opt_token) : bool :=
  match token with
  | Opt_usrjquota | Opt_grpjquota | Opt_sb | Opt_removed | Opt_inlinecrypt | Opt_errors | Opt_jqfmt
  | Opt_data | Opt_commit | Opt_debug_want_extra_isize | Opt_max_batch_time | Opt_min_batch_time
  | Opt_inode_readahead_blks | Opt_init_itable | Opt_max_dir_size_kb | Opt_stripe | Opt_resuid | Opt_resgid
  | Opt_journal_dev | Opt_journal_path | Opt_journal_ioprio | Opt_test_dummy_encryption | Opt_dax
  | Opt_dax_type | Opt_data_err | Opt_mb_optimize_scan => false
  | _ => true
  end.
End Effects.

Lemma table_effect `{MountEnv} token bits flags v on w :
  by_table token = true -> find_opt token = Some (bits, flags) ->
  table_words v on bits flags w = opt_effect token v on w.
Proof.
  destruct w as [o o2]. match goal with E : MountEnv |- _ => destruct E as [? ? ? ? cq ? ca ? ? ? ? ? ?] end.
  destruct cq, ca, token; intros Hb Hf; try discriminate Hb; vm_compute in Hf; try discriminate Hf;
    injection Hf as <- <-; reflexivity.
Qed.

(** The options with a rule of their own: what the table says about them. *)
Lemma special_table `{MountEnv} token v on w :
  by_table token = false ->
  let '(bits, flags) := default (0, 0) (find_opt token) in
  Z.land flags MOPT_EXPLICIT = 0 /\ (token = Opt_data_err -> bits = EXT4_MOUNT_DATA_ERR_ABORT) /\
  (Z.land flags MOPT_NOSUPPORT <> 0 -> opt_effect token v on w = w) /\
  (CONFIG_QUOTA = false -> token = Opt_usrjquota \/ token = Opt_grpjquota \/ token = Opt_jqfmt ->
   Z.land flags MOPT_NOSUPPORT <> 0).
Proof.
  destruct w as [o o2]. match goal with E : MountEnv |- _ => destruct E as [? ? ? ? cq ? ca ? ? ? ? ? ?] end.
  destruct cq, ca, token; intros Hb; try discriminate Hb;
    (match goal with |- let '(_, _) := ?x in _ => let y := eval vm_compute in x in change x with y end);
    cbv beta iota; (split; [reflexivity|]); (split; [done|]);
    (split; [intros Hn; (reflexivity || by destruct Hn)|]); intros Hq Htok; (done || by destruct Htok as [?|[?|?]]).
Qed.

Lemma special_some `{MountEnv} enc inline ioprio rem p token v bits c :
  parse_special enc inline ioprio rem p token v bits c = None <->
  by_table token = true \/
  (CONFIG_QUOTA = false /\ (token = Opt_usrjquota \/ token = Opt_grpjquota \/ token = Opt_jqfmt)).
Proof.
  unfold parse_special. split.
  - destruct token; intros Hp; try (by left); try discriminate Hp;
      repeat match type of Hp with
        | (if ?x then _ else _) = _ => destruct x eqn:?
        | (match ?x with _ => _ end) = _ => destruct x eqn:?
        end; try discriminate Hp; right; (split; [by apply negb_true_iff|auto]).
  - intros [Hb|[Hq [->|[->| ->]]]]; [by destruct token|by rewrite Hq..].
Qed.

(** One parsed option changes the words as the option says. *)
Lemma parse_param_words `{MountEnv} enc inline ioprio rem p c w :
  0 <= (ext4_parse_param enc inline ioprio rem p c).1 ->
  words_after (ext4_parse_param enc inline ioprio rem p c).2 w = param_effect p (words_after c w).
Proof.
  unfold ext4_parse_param, param_effect. destruct (p_parse p) as [e|[token v]]; [done|]. cbv zeta.
  set (on := p_is_flag p || (0 <? v)).
  destruct (by_table token) eqn:Hb.
  - assert (Hsp : forall bits c, parse_special enc inline ioprio rem p token v bits c = None).
    { intros. apply special_some. by left. }
    destruct (find_opt token) as [[bits flags]|] eqn:Hf; unfold default, id; cbv beta iota.
    2: { change (Z.land 0 MOPT_EXPLICIT =? 0) with true. change (Z.land 0 MOPT_NOSUPPORT =? 0) with true.
         cbn [negb]. by rewrite Hsp. }
    rewrite <- (table_effect token bits flags v on) by done. unfold table_words.
    set (c1 := set_c_opt_flags (Z.lor (c_opt_flags c) flags) c). assert (Hc1 : words_after c1 w = words_after c w) by done.
    rewrite <- Hc1. clearbody c1. destruct (negb (Z.land flags MOPT_EXPLICIT =? 0)); cbn [negb].
    + destruct (negb (Z.land bits EXT4_MOUNT_DELALLOC =? 0)); [|destruct (negb (Z.land bits EXT4_MOUNT_JOURNAL_CHECKSUM =? 0));
           [|by intros Hr; exfalso; revert Hr; cbn; unfold EINVAL; lia]];
        (destruct (negb (Z.land flags MOPT_NOSUPPORT =? 0)); [intros _; cbn [snd]; by autorewrite with words|]);
        rewrite Hsp; intros Hr; rewrite parse_flag_words by done; by autorewrite with words.
    + destruct (negb (Z.land flags MOPT_NOSUPPORT =? 0)); [done|].
      rewrite Hsp. intros Hr. by rewrite parse_flag_words.
  - pose proof (special_table token v on (words_after c w) Hb) as Ht.
    destruct (default (0, 0) (find_opt token)) as [bits flags]. destruct Ht as (He & Hd & Hn & Hu). rewrite He. cbn [Z.eqb negb].
    destruct (Z.land flags MOPT_NOSUPPORT =? 0) eqn:Ens; cbn [negb]; reflect_bools; [|intros _; symmetry; by apply Hn].
    destruct (parse_special _ _ _ _ _ _ _ _ _) as [r|] eqn:Hs.
    + intros Hr. by rewrite (parse_special_words enc inline ioprio rem p token v bits _ w r Hs).
    + apply special_some in Hs as [Hs|[Hq Hs]]; [congruence|]. by destruct (Hu Hq Hs).
Qed.

(** ** The words of the options *)

Section Applied.
Context `{MountEnv} (enc inline : bool) (ioprio : Z -> Z).
Context (answers : nat -> string -> option string -> param_answers) (kmemdup_value : nat -> bool).

(** The parameter of a word, none for an empty word or an empty key. *)
Definition word_param (n : nat) (word : string) : option fs_parameter :=
  if String.eqb word "" then None
  else match key_value word with
       | (key, None) => Some (FsParameter key true ""%string (answers n key None))
       | (key, Some str) =>
           if String.eqb key "" then None else Some (FsParameter key false str (answers n key (Some str)))
       end.
(** One word after the other. *)
Fixpoint words_effect (n : nat) (ws : list string) (w : Z * Z) : Z * Z :=
  match ws with
  | [] => w
  | word :: ws => words_effect (S n) ws (match word_param n word with Some p => param_effect p w | None => w end)
  end.

(** The bits that also depend on the names of the quota files. *)
Definition quota_file_bits : Z := lors [EXT4_MOUNT_QUOTA; EXT4_MOUNT_USRQUOTA; EXT4_MOUNT_GRPQUOTA].
(** The same words but for the bits [q] of the first. *)
Definition same_but (q : Z) (w w' : Z * Z) : Prop :=
  Z.land w.1 (Z.lnot q) = Z.land w'.1 (Z.lnot q) /\ w.2 = w'.2.
#[local] Instance same_but_equiv q : Equivalence (same_but q).
Proof. unfold same_but. split; [done|intros ?? [-> ->]; done|intros ??? [-> ->] [-> ->]; done]. Qed.

Lemma same_but_clear q f o o2 : Z.land f (Z.lnot q) = 0 -> same_but q (clear_bits f o, o2) (o, o2).
Proof.
  intros Hf. split; [|done]. unfold clear_bits. cbn [fst]. apply Z.bits_inj'. intros i Hi.
  apply (f_equal (fun x => Z.testbit x i)) in Hf. revert Hf.
  rewrite !Z.land_spec, !Z.lnot_spec, Z.bits_0 by done. destruct (Z.testbit f i), (Z.testbit q i), (Z.testbit o i); done.
Qed.
Lemma same_but_set q f o o2 : Z.land f (Z.lnot q) = 0 -> same_but q (set_bits f o, o2) (o, o2).
Proof.
  intros Hf. split; [|done]. unfold set_bits. cbn [fst]. apply Z.bits_inj'. intros i Hi.
  apply (f_equal (fun x => Z.testbit x i)) in Hf. revert Hf.
  rewrite !Z.land_spec, !Z.lnot_spec, Z.lor_spec, Z.bits_0 by done.
  destruct (Z.testbit f i), (Z.testbit q i), (Z.testbit o i); done.
Qed.
Lemma words_quota_clear f c w :
  Z.land f (Z.lnot quota_file_bits) = 0 ->
  same_but quota_file_bits (words_after (ctx_clear_mount_opt f c) w) (words_after c w).
Proof.
  intros Hf. rewrite words_clear. destruct (words_after c w) as [o o2] eqn:E.
  cbn [fst snd]. by apply same_but_clear.
Qed.
Ltac quota_clears := repeat (etrans; [by apply words_quota_clear|]); done.

Lemma validate_words c w : same_but quota_file_bits (words_after (ext4_validate_options c).2 w) (words_after c w).
Proof.
  unfold ext4_validate_options. destruct CONFIG_QUOTA; cbn [negb]; [|done].
  destruct (negb _); [done|]. cbv zeta.
  destruct (negb (ctx_test_mount_opt c EXT4_MOUNT_USRQUOTA =? 0) && _), (negb (_ =? 0) && is_some_name _ GRPQUOTA);
    destruct (_ || _); cbn [snd]; quota_clears.
Qed.

Lemma parse_words_words n ws c w r :
  parse_words enc inline ioprio answers kmemdup_value n ws c = r -> 0 <= r.1 ->
  same_but quota_file_bits (words_after r.2 w) (words_effect n ws (words_after c w)).
Proof.
  intros <-. revert n c. induction ws as [|word ws IH]; intros n c; cbn [parse_words words_effect]; unfold word_param.
  { intros _. apply validate_words. }
  destruct (String.eqb word ""); [apply IH|]. destruct (key_value word) as [key value]. cbv zeta.
  assert (Hparse : forall p,
    let '(ret, c') := ext4_parse_param enc inline ioprio false p c in
    let r := if ret <? 0 then (ret, c') else parse_words enc inline ioprio answers kmemdup_value (S n) ws c' in
    0 <= r.1 -> same_but quota_file_bits (words_after r.2 w) (words_effect (S n) ws (param_effect p (words_after c w)))).
  { intros p. pose proof (parse_param_words enc inline ioprio false p c w) as Hw.
    destruct (ext4_parse_param enc inline ioprio false p c) as [ret c']. cbn [fst snd] in Hw. cbv zeta.
    destruct (ret <? 0) eqn:Er; reflect_bools; cbn [fst snd]; [lia|]. intros Hr. rewrite <- Hw by lia. by apply IH. }
  destruct value as [str|].
  - destruct (String.eqb key ""); [apply IH|]. destruct (negb (kmemdup_value n)); [cbn; unfold ENOMEM; lia|].
    specialize (Hparse (FsParameter key false str (answers n key (Some str)))).
    destruct (ext4_parse_param enc inline ioprio false _ c) as [ret c']. exact Hparse.
  - specialize (Hparse (FsParameter key true "" (answers n key None))).
    destruct (ext4_parse_param enc inline ioprio false _ c) as [ret c']. exact Hparse.
Qed.

(** *** The checks and the application *)

Lemma quota_not_mixed_words c s w :
  same_but quota_file_bits (words_after (quota_not_mixed c s).2 w) (words_after c w).
Proof.
  unfold quota_not_mixed. cbv zeta.
  destruct (is_some_name (s_qf_names _) USRQUOTA || _), (is_some_name (s_qf_names _) GRPQUOTA || _); cbn [orb];
    repeat (case_match; cbn [snd]); quota_clears.
Qed.
Lemma consistency_words loaded equal c s w :
  same_but quota_file_bits (words_after (ext4_check_opt_consistency loaded equal false c s).2 w) (words_after c w).
Proof.
  unfold ext4_check_opt_consistency, ext4_check_quota_consistency. rewrite andb_false_r. cbn [andb]. cbv zeta.
  repeat match goal with
    | |- same_but _ (words_after (snd (if ?b then (_, c) else _)) _) _ => destruct b; [done|]
    end; apply quota_not_mixed_words.
Qed.

Lemma apply_qf_name_words q c s :
  same_but quota_file_bits (m_opt (apply_qf_name q (c, s)).2, m_opt2 (apply_qf_name q (c, s)).2) (m_opt s, m_opt2 s).
Proof.
  unfold apply_qf_name. destruct (negb _); [done|]. cbn [snd]. destruct (is_some_name _ _); [|done].
  by apply same_but_set.
Qed.
Lemma quota_names_words c s :
  same_but quota_file_bits
    (m_opt (ext4_apply_quota_options c s).2, m_opt2 (ext4_apply_quota_options c s).2) (m_opt s, m_opt2 s).
Proof.
  unfold ext4_apply_quota_options. destruct (_ || _); [done|].
  destruct (has_spec c EXT4_SPEC_JQUOTA).
  - destruct (apply_qf_name USRQUOTA (c, s)) as [c1 s1] eqn:E1.
    destruct (apply_qf_name GRPQUOTA (c1, s1)) as [c2 s2] eqn:E2.
    destruct (apply_qf_name PRJQUOTA (c2, s2)) as [c3 s3] eqn:E3. cbn [snd].
    pose proof (apply_qf_name_words USRQUOTA c s) as Q1. pose proof (apply_qf_name_words GRPQUOTA c1 s1) as Q2.
    pose proof (apply_qf_name_words PRJQUOTA c2 s2) as Q3. rewrite E1 in Q1. rewrite E2 in Q2. rewrite E3 in Q3.
    etrans; [|etrans; [exact Q3|etrans; [exact Q2|exact Q1]]]. by destruct (has_spec c3 _).
  - by destruct (has_spec c EXT4_SPEC_JQFMT).
Qed.
Lemma apply_options_words c s :
  let s' := (ext4_apply_options c s).2 in
  same_but quota_file_bits (m_opt s', m_opt2 s') (words_after c (m_opt s, m_opt2 s)).
Proof.
  unfold ext4_apply_options. cbv zeta.
  match goal with |- context [when ?b ?f ?x] => set (s1 := when b f x) end.
  pose proof (quota_names_words c s1) as Q. destruct (ext4_apply_quota_options c s1) as [c' s2]. cbn [snd] in Q.
  transitivity (m_opt s2, m_opt2 s2).
  - unfold ext4_apply_test_dummy_encryption. by destruct (_ || _).
  - etrans; [exact Q|]. subst s1. by destruct (has_spec c _).
Qed.

(** C17: the options of a mount are collected as bits to change with their values, checked
    against the file system and applied at once to s_mount_opt and s_mount_opt2.  The words
    are those that the options give when each changes the words on its own, in the order they
    are written: of two options for the same bit the last wins, as does a value such as
    errors=, data= or dax=.  The bits QUOTA, USRQUOTA and GRPQUOTA are left out: a quota file
    by name changes them. *)
Theorem options_last_wins loaded equal options c c1 c2 s s' :
  parse_options enc inline ioprio answers kmemdup_value options c = (0, c1) ->
  ext4_check_opt_consistency loaded equal false c1 s = (0, c2) ->
  s' = (ext4_apply_options c2 s).2 ->
  let '(o, o2) := words_effect 0 (words "" options) (words_after c (m_opt s, m_opt2 s)) in
  Z.land (m_opt s') (Z.lnot quota_file_bits) = Z.land o (Z.lnot quota_file_bits) /\ m_opt2 s' = o2.
Proof.
  intros Hp Hc ->. unfold parse_options in Hp.
  destruct (parse_words _ _ _ _ _ _ _ _) as [ret c1'] eqn:Hr. injection Hp as Hret ->.
  pose proof (parse_words_words _ _ _ (m_opt s, m_opt2 s) _ Hr) as Hw. cbn [fst snd] in Hw.
  pose proof (consistency_words loaded equal c1 s (m_opt s, m_opt2 s)) as Hk. rewrite Hc in Hk.
  destruct (words_effect _ _ _) as [o o2].
  assert (Hall : same_but quota_file_bits (m_opt (ext4_apply_options c2 s).2, m_opt2 (ext4_apply_options c2 s).2) (o, o2)).
  { etrans; [apply apply_options_words|]. etrans; [exact Hk|]. apply Hw.
    destruct (ret <? 0) eqn:E; reflect_bools; lia. }
  exact Hall.
Qed.
End Applied.
