(* ===== verification/MountSuper.v ===== *)
(** * Mounting: reading the super block and the group descriptors (fs/ext4/super.c)

    [ext4_load_super], [ext4_init_metadata_csum], [ext4_encoding_init],
    [parse_apply_sb_mount_options], [ext4_check_descriptors], [ext4_group_desc_init], and
    [fill_super_checks], the part of [__ext4_fill_super] up to the group descriptors with
    its labels for errors.  The buffers read are references, given back on every error. *)

From stdpp Require Import prelude list strings.
From Stdlib Require Import ZArith Lia.
From S2P Require Import Prelude Kernel Bytes Layout Mount MountOpts.

Local Open Scope Z_scope.

(** The bytes of the device; a block at a block size is what a buffer holds once read. *)
Class Disk := disk_byte : Z -> Z.
Definition disk_block `{Disk} (size b : Z) : list Z :=
  (fun i => disk_byte (b * size + i)) <$> seqZ 0 size.

(** Whether memory is there, and what the outside answers about the options. *)
Class OptionAnswers := {
  sb_answers : nat -> string -> option string -> param_answers;
  sb_kmemdup : nat -> bool;
  sb_any_quota_loaded : bool;
  fscrypt_dummy_policies_equal : option Z -> option Z -> bool;
  CONFIG_FS_ENCRYPTION : bool;
  CONFIG_FS_ENCRYPTION_INLINE_CRYPT : bool;
  IOPRIO_BE : Z -> Z
}.

Section Super.
Context `{Env, MountEnv, Csum, Disk, OptionAnswers}.

(** A function of Mount.v, on the state. *)
Definition run (f : mount -> Z * mount) : K mount Z :=
  s <~ kget;; kmodify (fun _ => (f s).2);;; kret (f s).1.
Definition update (f : mount -> mount) : K mount unit := kmodify f.

Definition bh (b : Z) : res := Ref (RBh b).
Definition brelse (b : Z) : K mount unit := release (bh b).

(** ** The super block *)

(** [sb_min_blocksize] and [sb_set_blocksize]: 0, or the new block size. *)
Definition set_blocksize (n : Z) (s : mount) : mount :=
  set_m_bits (Z.log2 n) (upd_sbi (sbi_set_blocksize n) s).
Definition sb_min_blocksize (size : Z) : K mount Z :=
  n <~ call_int "sb_min_blocksize" [size];;
  (if n =? 0 then kret tt else update (set_blocksize n));;;
  kret n.
Definition sb_set_blocksize (size : Z) : K mount bool :=
  n <~ call_int "sb_set_blocksize" [size];;
  if n =? 0 then kret false else update (set_blocksize size);;; kret true.

(** [ext4_buffer_uptodate]: a buffer whose write failed counts as valid. *)
Definition ext4_buffer_uptodate (b : Z) : K mount bool :=
  failed <~ call_int "buffer_write_io_error" [b];;
  if negb (failed =? 0) then kret true
  else up <~ call_int "buffer_uptodate" [b];; kret (negb (up =? 0)).

(** [ext4_read_bh], on a locked buffer: the end of the read unlocks it and drops the
    reference taken for it. *)
Definition ext4_read_bh (b : Z) : K mount Z :=
  up <~ ext4_buffer_uptodate b;;
  if up then release (Excl (LBuffer b));;; kret 0
  else
    acquire (bh b);;;
    call_int "submit_bh" [b];;;
    release (Excl (LBuffer b));;; brelse b;;;
    up <~ call_int "buffer_uptodate" [b];;
    kret (if up =? 0 then - EIO else 0).
Definition ext4_read_bh_lock (b : Z) : K mount Z :=
  acquire (Excl (LBuffer b));;; ext4_read_bh b.

(** [__ext4_sb_bread_gfp]: a buffer with its bytes, or an error. *)
Definition contents (b : Z) : K mount (list Z) :=
  s <~ kget;; kret (disk_block (m_blocksize s) b).
Definition ext4_sb_bread_unmovable (b : Z) : K mount (Z + list Z) :=
  p <~ call_ptr "sb_getblk_gfp" [b];;
  match p with
  | PtrOk =>
      acquire (bh b);;;
      up <~ ext4_buffer_uptodate b;;
      if up then block <~ contents b;; kret (inr block) else
      ret <~ ext4_read_bh_lock b;;
      if ret =? 0 then block <~ contents b;; kret (inr block)
      else brelse b;;; kret (inl ret)
  | _ => kret (inl (- ENOMEM))
  end.

(** The super block at an offset of its buffer. *)
Definition sb_at (block : list Z) (offset : Z) : list Z :=
  gets block offset (Z.to_nat sizeof_ext4_super_block).

(** The end of [ext4_load_super] when the block size of the buffer was not that of the
    file system: it is read again. *)
Definition reload_super (blocksize : Z) : K mount (Z * Z) :=
  ok <~ sb_set_blocksize blocksize;;
  if negb ok then kret (- EINVAL, 0) else
  s <~ kget;;
  let pos := u64 (m_sb_block s * EXT4_MIN_BLOCK_SIZE) in
  let logical_sb_block := pos / blocksize in
  r <~ ext4_sb_bread_unmovable logical_sb_block;;
  match r with
  | inl err => kret (err, 0)
  | inr block =>
      let es := sb_at block (pos mod blocksize) in
      update (set_m_es es);;;
      if negb (s_magic es =? EXT4_SUPER_MAGIC)
      then brelse logical_sb_block;;; kret (- EINVAL, 0)
      else update (set_m_sbh (Some logical_sb_block));;; kret (0, logical_sb_block)
  end.

(** The result with *lsb. *)
Definition ext4_load_super : K mount (Z * Z) :=
  blocksize <~ sb_min_blocksize EXT4_MIN_BLOCK_SIZE;;
  if blocksize =? 0 then kret (- EINVAL, 0) else
  s <~ kget;;
  let pos := u64 (m_sb_block s * EXT4_MIN_BLOCK_SIZE) in
  let whole := negb (blocksize =? EXT4_MIN_BLOCK_SIZE) in
  let logical_sb_block := if whole then pos / blocksize else m_sb_block s in
  let offset := if whole then pos mod blocksize else 0 in
  r <~ ext4_sb_bread_unmovable logical_sb_block;;
  match r with
  | inl err => kret (err, 0)
  | inr block =>
      let es := sb_at block offset in
      update (set_m_es es);;;
      let out := brelse logical_sb_block;;; kret (- EINVAL, 0) in
      if negb (s_magic es =? EXT4_SUPER_MAGIC) then out
      else if EXT4_MAX_BLOCK_LOG_SIZE - EXT4_MIN_BLOCK_LOG_SIZE <? s_log_block_size es then out
      else if EXT4_MAX_CLUSTER_LOG_SIZE - EXT4_MIN_BLOCK_LOG_SIZE <? s_log_cluster_size es then out
      else
        let blocksize := s32 (Z.shiftl EXT4_MIN_BLOCK_SIZE (s_log_block_size es)) in
        s <~ kget;;
        if m_blocksize s =? blocksize
        then update (set_m_sbh (Some logical_sb_block));;; kret (0, logical_sb_block)
        else brelse logical_sb_block;;; reload_super blocksize
  end.

(** ** Checksums and names *)

Definition ext4_init_metadata_csum : K mount Z :=
  s <~ kget;;
  let es := m_es s in
  if negb (ext4_verify_csum_type es) then kret (- EINVAL) else
  drv <~ call_ptr "crypto_alloc_shash" [];;
  match drv with
  | PtrErr e => update (upd_sbi (fun i => sbi_set_csum false (s_csum_seed i) i));;; kret e
  | _ =>
      let loaded := match drv with PtrOk => true | _ => false end in
      update (upd_sbi (fun i => sbi_set_csum loaded (s_csum_seed i) i));;;
      s <~ kget;;
      let seed x := update (upd_sbi (fun i => sbi_set_csum (s_chksum_driver i) x i)) in
      if negb (ext4_superblock_csum_verify (m_sbi s) es) then kret (- EFSBADCRC)
      else if ext4_has_feature_csum_seed es then seed (s_checksum_seed es);;; kret 0
      else if ext4_has_metadata_csum (m_sbi s) es || ext4_has_feature_ea_inode es
      then seed (ext4_chksum (2 ^ 32 - 1) (s_uuid es));;; kret 0
      else kret 0
  end.

Definition s_encoding_flags (es : list Z) : Z := get16 es 0x27E.

(** [ext4_encoding_init], with the only encoding of [ext4_sb_read_encoding]. *)
Definition ext4_encoding_init : K mount Z :=
  s <~ kget;;
  let es := m_es s in
  if negb CONFIG_UNICODE then kret 0
  else if negb (ext4_has_feature_casefold es) || is_set (m_encoding s) then kret 0
  else if negb (s_encoding es =? EXT4_ENC_UTF8_12_1) then kret (- EINVAL)
  else
    u <~ call_ptr "utf8_load" [];;
    match u with
    | PtrErr _ => kret (- EINVAL)
    | _ => update (set_m_encoding (Some (s_encoding_flags es)));;; kret 0
    end.

(** ** Options *)

(** The string at the start of some bytes. *)
Fixpoint c_string (l : list Z) : string :=
  match l with
  | [] => EmptyString
  | b :: l => if b =? 0 then EmptyString else String (Ascii.ascii_of_N (Z.to_N b)) (c_string l)
  end.
Definition s_mount_opts (es : list Z) : list Z := gets es 0x200 64.

(** A context fresh from kzalloc. *)
Definition zero_params : opt_params := OptParams 0 0 0 0 0 0 0 0 0.
Definition zero_context : ext4_fs_context :=
  FsContext [None; None; None] None 0 0 0 0 0 0 0 zero_params 0 0 0 0 0 0 0.

Definition check_consistency (c : ext4_fs_context) (s : mount) : Z * ext4_fs_context :=
  ext4_check_opt_consistency sb_any_quota_loaded fscrypt_dummy_policies_equal false c s.

(** The journal options of the super block go to the context of the mount. *)
Definition take_journal_options (s_ctx m_ctx : ext4_fs_context) : ext4_fs_context :=
  let c := if has_spec s_ctx EXT4_SPEC_JOURNAL_DEV
           then set_c_journal_devnum (c_journal_devnum s_ctx) m_ctx else m_ctx in
  if has_spec s_ctx EXT4_SPEC_JOURNAL_IOPRIO then set_c_journal_ioprio (c_journal_ioprio s_ctx) c else c.

(** [parse_apply_sb_mount_options]: options that do not parse are ignored as a whole.  The
    result with the context of the mount. *)
Definition parse_apply_sb_mount_options (m_ctx : ext4_fs_context) : K mount (Z * ext4_fs_context) :=
  s <~ kget;;
  let opts := s_mount_opts (m_es s) in
  if getb opts 0 =? 0 then kret (0, m_ctx) else
  p <~ call_ptr "kstrndup" [];;
  match p with PtrOk =>
    p <~ call_ptr "kzalloc" [];;
    match p with PtrOk =>
      p <~ call_ptr "kzalloc" [];;
      match p with PtrOk =>
        let '(ret, s_ctx) := parse_options CONFIG_FS_ENCRYPTION CONFIG_FS_ENCRYPTION_INLINE_CRYPT
                               IOPRIO_BE sb_answers sb_kmemdup (c_string opts) zero_context in
        if ret <? 0 then kret (0, m_ctx) else
        let '(ret, s_ctx) := check_consistency s_ctx s in
        if ret <? 0 then kret (0, m_ctx) else
        update (fun s => (ext4_apply_options s_ctx s).2);;;
        kret (0, take_journal_options s_ctx m_ctx)
      | _ => kret (- ENOMEM, m_ctx) end
    | _ => kret (- ENOMEM, m_ctx) end
  | _ => kret (- ENOMEM, m_ctx) end.

(** ** Group descriptors *)

(** The bounds of group [i]: without flex_bg the blocks of the group itself. *)
Definition bounds_of (s : mount) (sb_block last_bg first i : Z) : group_bounds :=
  let sbi := m_sbi s in
  let last :=
    if (i =? u32 (s_groups_count sbi - 1)) || ext4_has_feature_flex_bg (m_es s)
    then u64 (ext4_blocks_count (m_es s) - 1)
    else u64 (first + u64 (s_blocks_per_group sbi - 1)) in
  GroupBounds sb_block last_bg first last.

(** The groups from [i] on, [n] of them: [None] for the return of 0, else the first group
    whose inode table is not zeroed. *)
Fixpoint check_groups (n : nat) (sb_block last_bg first i grp : Z) : K mount (option Z) :=
  match n with
  | O => kret (Some grp)
  | S n =>
      s <~ kget;;
      let sbi := m_sbi s in
      match ext4_get_group_desc sbi (snd <$> m_gdb s) i with
      | None => koops
      | Some gdp =>
          let b := bounds_of s sb_block last_bg first i in
          let grp := if (grp =? s_groups_count sbi) && negb (gd_has_flag gdp EXT4_BG_INODE_ZEROED)
                     then i else grp in
          if negb (group_blocks_ok s b gdp) then kret None else
          acquire (Excl (LGroup i));;;
          if negb (ext4_group_desc_csum_verify sbi (m_es s) i gdp) && negb (sb_rdonly s)
          then release (Excl (LGroup i));;; kret None
          else
            release (Excl (LGroup i));;;
            let first := if ext4_has_feature_flex_bg (m_es s) then first
                         else u64 (first + s_blocks_per_group sbi) in
            check_groups n sb_block last_bg first (i + 1) grp
      end
  end.

Definition ext4_check_descriptors (sb_block : Z) : K mount (option Z) :=
  s <~ kget;;
  let sbi := m_sbi s in
  let last_bg_block := u64 (sb_block + ext4_bg_num_gdb sbi (m_es s) 0) in
  check_groups (Z.to_nat (s_groups_count sbi)) sb_block last_bg_block
    (s_first_data_block (m_es s)) 0 (s_groups_count sbi).

(** The blocks of descriptors from [i] on, [n] of them. *)
Fixpoint read_gdb (n : nat) (logical_sb_block i : Z) : K mount Z :=
  match n with
  | O => kret 0
  | S n =>
      s <~ kget;;
      let block := descriptor_loc s logical_sb_block i in
      r <~ ext4_sb_bread_unmovable block;;
      match r with
      | inl err => kret err
      | inr bytes =>
          update (fun s => set_m_gdb (m_gdb s ++ [(block, bytes)]) s);;;
          read_gdb n logical_sb_block (i + 1)
      end
  end.

(** [ext4_sb_breadahead_unmovable] keeps no reference. *)
Fixpoint breadahead (n : nat) (logical_sb_block i : Z) : K mount unit :=
  match n with
  | O => kret tt
  | S n =>
      s <~ kget;;
      call_int "ext4_sb_breadahead_unmovable" [descriptor_loc s logical_sb_block i];;;
      breadahead n logical_sb_block (i + 1)
  end.

(** The result with *first_not_zeroed. *)
Definition ext4_group_desc_init (logical_sb_block : Z) : K mount (Z * Z) :=
  s <~ kget;;
  let es := m_es s in
  let dpb := s_desc_per_block (m_meta s) in
  let db_count := u32 (u64 (s_groups_count (m_sbi s) + dpb - 1) / dpb) in
  if ext4_has_feature_meta_bg es && (db_count <? s_first_meta_bg es) then kret (- EINVAL, 0) else
  p <~ call_ptr "kvmalloc_array" [db_count];;
  match p with
  | PtrOk =>
      breadahead (Z.to_nat db_count) logical_sb_block 0;;;
      err <~ read_gdb (Z.to_nat db_count) logical_sb_block 0;;
      if negb (err =? 0) then kret (err, 0) else
      ok <~ ext4_check_descriptors logical_sb_block;;
      match ok with
      | None => kret (- EFSCORRUPTED, 0)
      | Some first_not_zeroed => kret (0, first_not_zeroed)
      end
  | _ => kret (- ENOMEM, 0)
  end.

(** [ext4_group_desc_free] *)
Fixpoint brelse_all (l : list (Z * list Z)) : K mount unit :=
  match l with
  | [] => kret tt
  | (b, _) :: l => brelse b;;; brelse_all l
  end.
Definition ext4_group_desc_free : K mount unit :=
  s <~ kget;; brelse_all (m_gdb s).

(** ** The mount *)

(** The labels [failed_mount] and [failed_mount3] of [__ext4_fill_super], as far as they
    give back what the checks took. *)
Definition failed_mount (err : Z) : K mount (Z * Z) :=
  s <~ kget;;
  (if s_chksum_driver (m_sbi s) then call_int "crypto_free_shash" [] else kret 0);;;
  (match m_sbh s with Some b => brelse b | None => kret tt end);;;
  kret (err, 0).
Definition failed_mount3 (err : Z) : K mount (Z * Z) :=
  ext4_group_desc_free;;; failed_mount err.

(** A step that leaves for a label on an error. *)
Definition or_fail {A} (step : K mount Z) (fail : Z -> K mount A) (rest : K mount A) : K mount A :=
  err <~ step;; if negb (err =? 0) then fail err else rest.

(** The geometry, from the features to the group descriptors. *)
Definition mount_geometry (silent : bool) (logical_sb_block : Z) : K mount (Z * Z) :=
  or_fail (run (ext4_check_feature_compatibility silent)) failed_mount (
  or_fail (run ext4_block_group_meta_init) failed_mount (
  update ext4_hash_info_init;;;
  or_fail (run ext4_handle_clustersize) failed_mount (
  s <~ kget;;
  addressable <~ call_int "generic_check_addressable" [m_bits s; ext4_blocks_count (m_es s)];;
  nr_blocks <~ call_int "sb_bdev_nr_blocks" [];;
  or_fail (run (ext4_check_geometry addressable (u64 nr_blocks))) failed_mount (
  r <~ ext4_group_desc_init logical_sb_block;;
  if negb (r.1 =? 0) then failed_mount3 r.1 else kret r)))).

(** The defaults of [__ext4_fill_super] before the options. *)
Definition EXT4_DEF_MIN_BATCH_TIME : Z := 0.
Definition EXT4_DEF_MAX_BATCH_TIME : Z := 15000.
Definition EXT4_DEF_INODE_READAHEAD_BLKS : Z := 32.
Definition s_def_resuid (es : list Z) : Z := get16 es 0x50.
Definition s_def_resgid (es : list Z) : Z := get16 es 0x52.
Definition default_params (s : mount) : mount :=
  let es := m_es s in
  set_m_par (OptParams (u64 (JBD2_DEFAULT_MAX_COMMIT_AGE * HZ)) (s_stripe (m_par s)) EXT4_DEF_MIN_BATCH_TIME
    EXT4_DEF_MAX_BATCH_TIME EXT4_DEF_INODE_READAHEAD_BLKS (s_max_dir_size_kb (m_par s))
    EXT4_DEF_LI_WAIT_MULT (s_def_resuid es) (s_def_resgid es)) s.

(** The options: those of the super block first, then those of the user. *)
Definition mount_options (ctx : ext4_fs_context) (rest : K mount (Z * Z)) : K mount (Z * Z) :=
  r <~ parse_apply_sb_mount_options ctx;;
  if r.1 <? 0 then failed_mount r.1 else
  update (fun s => set_m_def_opt2 (m_opt2 s) (set_m_def_opt (m_opt s) s));;;
  s <~ kget;;
  let '(err, ctx) := check_consistency r.2 s in
  if err <? 0 then failed_mount err else
  update (fun s => (ext4_apply_options ctx s).2);;;
  rest.

(** sb->s_flags after the options: POSIX ACLs, and i_version always. *)
Definition mount_flags (s : mount) : mount :=
  let acl := if negb (test_opt s EXT4_MOUNT_POSIX_ACL =? 0) then SB_POSIXACL else 0 in
  set_m_flags (Z.lor (Z.lor (Z.land (m_flags s) (Z.lnot SB_POSIXACL)) acl) SB_I_VERSION) s.

(** [__ext4_fill_super] up to [ext4_group_desc_init]. *)
Definition fill_super_checks (ctx : ext4_fs_context) (silent : bool) : K mount (Z * Z) :=
  r <~ ext4_load_super;;
  let '(err, logical_sb_block) := r in
  if negb (err =? 0) then kret (err, 0) else
  or_fail ext4_init_metadata_csum failed_mount (
  update ext4_set_def_opts;;;
  update default_params;;;
  or_fail (run ext4_inode_info_init) failed_mount (
  mount_options ctx (
  or_fail ext4_encoding_init failed_mount (
  or_fail (run ext4_check_journal_data_mode) failed_mount (
  update mount_flags;;;
  mount_geometry silent logical_sb_block))))).
End Super.
