(* ===== verification/MountSpec.v ===== *)
(** * Mounting: the geometry a mount accepts

    A mount that is not refused has a consistent geometry: the sizes are powers of two
    that divide each other, the groups cover the file system, the inodes are those of the
    groups, and the bitmaps have room for their groups.  A mount that is refused gives
    back every buffer it read. *)

From stdpp Require Import prelude list strings.
From Stdlib Require Import ZArith Lia.
From S2P Require Import Prelude Kernel Bytes Layout Mount MountOpts MountSuper.

Local Open Scope Z_scope.

(** ** Powers of two *)

Lemma is_power_of_2_spec n : 0 <= n -> is_power_of_2 n = true -> exists k, 0 <= k /\ n = 2 ^ k.
Proof.
  intros Hn Hp. unfold is_power_of_2 in Hp. reflect_bools.
  assert (Hpos : 0 < n) by lia. exists (Z.log2 n). split; [apply Z.log2_nonneg|].
  destruct (Z.log2_spec n Hpos) as [Hlo Hhi]. set (k := Z.log2 n) in *.
  assert (Hk : 0 <= k) by apply Z.log2_nonneg.
  destruct (Z.eq_dec n (2 ^ k)) as [|Hne]; [done|].
  assert (Hb : forall x, 2 ^ k <= x < 2 ^ Z.succ k -> Z.testbit x k = true).
  { intros x Hx. replace k with (Z.log2 x); [apply Z.bit_log2; lia|].
    apply Z.log2_unique; lia. }
  assert (Hz : Z.testbit (Z.land n (n - 1)) k = true).
  { by rewrite Z.land_spec, (Hb n), (Hb (n - 1)) by lia. }
  rewrite H0, Z.bits_0 in Hz. done.
Qed.

Lemma pow2_div a b : 0 <= b <= a -> 2 ^ a / 2 ^ b = 2 ^ (a - b).
Proof. intros. symmetry. apply Z.pow_sub_r; lia. Qed.

Lemma pow2_range a b c : a <= b <= c -> 2 ^ a <= 2 ^ b <= 2 ^ c.
Proof. intros. split; apply Z.pow_le_mono_r; lia. Qed.

(** ** The stages of a mount *)

(** After [ext4_load_super]. *)
Record sized (s : mount) : Prop := {
  sz_es : es_wf (m_es s);
  sz_lb : 0 <= s_log_block_size (m_es s) <= 6;
  sz_lc : 0 <= s_log_cluster_size (m_es s) <= 20;
  sz_bits : m_bits s = 10 + s_log_block_size (m_es s);
  sz_bs : m_blocksize s = 2 ^ m_bits s
}.

(** After [ext4_inode_info_init]. *)
Definition inodes_sized (s : mount) : Prop :=
  exists k, 7 <= k <= m_bits s /\ s_inode_size (m_ino s) = 2 ^ k.

(** After [ext4_block_group_meta_init]. *)
Record tables_sized (s : mount) : Prop := {
  ts_ipb : exists k, 0 <= k <= m_bits s - 7 /\ s_inodes_per_block (m_meta s) = 2 ^ k;
  ts_desc : exists k, 5 <= k <= 10 /\ s_desc_size (m_sbi s) = 2 ^ k /\
              s_desc_per_block (m_meta s) = 2 ^ (m_bits s - k) /\
              s_desc_per_block_bits (m_meta s) = m_bits s - k;
  ts_bpg : 0 < s_blocks_per_group (m_sbi s) < 2 ^ 32;
  ts_ipg : s_inodes_per_block (m_meta s) <= s_inodes_per_group (m_sbi s) <= 8 * m_blocksize s;
  ts_itb : s_itb_per_group (m_meta s) = s_inodes_per_group (m_sbi s) / s_inodes_per_block (m_meta s);
  ts_addr : s_addr_per_block_bits (m_meta s) = m_bits s - 2
}.

(** After [ext4_handle_clustersize]. *)
Record clusters_sized (s : mount) : Prop := {
  cs_bits : 0 <= s_cluster_bits (m_sbi s) <= 20;
  cs_ratio : s_cluster_ratio (m_sbi s) = 2 ^ s_cluster_bits (m_sbi s);
  cs_cpg : 0 < s_clusters_per_group (m_sbi s) <= 8 * m_blocksize s;
  cs_bpg : s_blocks_per_group (m_sbi s) = s_clusters_per_group (m_sbi s) * s_cluster_ratio (m_sbi s)
}.

(** After [ext4_check_geometry]. *)
Record groups_sized (s : mount) : Prop := {
  gs_first : 0 <= s_first_data_block (m_es s) < ext4_blocks_count (m_es s);
  gs_groups : 0 < s_groups_count (m_sbi s) < 2 ^ 32;
  gs_cover : (s_groups_count (m_sbi s) - 1) * s_blocks_per_group (m_sbi s)
             < ext4_blocks_count (m_es s) - s_first_data_block (m_es s)
             <= s_groups_count (m_sbi s) * s_blocks_per_group (m_sbi s);
  gs_inodes : s_groups_count (m_sbi s) * s_inodes_per_group (m_sbi s) = s_inodes_count (m_es s)
}.

Record geometry_ok (s : mount) : Prop := {
  go_sized : sized s;
  go_inodes : inodes_sized s;
  go_tables : tables_sized s;
  go_clusters : clusters_sized s;
  go_groups : groups_sized s
}.

(** What the steps between two stages leave alone. *)
Record same_core (s s' : mount) : Prop := {
  sc_bits : m_bits s' = m_bits s;
  sc_es : m_es s' = m_es s;
  sc_sbi : m_sbi s' = m_sbi s;
  sc_size : s_inode_size (m_ino s') = s_inode_size (m_ino s);
  sc_sbh : m_sbh s' = m_sbh s;
  sc_gdb : m_gdb s' = m_gdb s
}.

#[export] Instance same_core_refl : Reflexive same_core.
Proof. by intros s. Qed.
#[export] Instance same_core_trans : Transitive same_core.
Proof. intros s1 s2 s3 [] []. split; congruence. Qed.

Lemma sized_core s s' : same_core s s' -> sized s -> sized s'.
Proof.
  intros [Hb He Hi _ _ _] [? ? ? ? Hbs]. unfold m_blocksize in Hbs.
  split; unfold m_blocksize; rewrite ?Hb, ?He, ?Hi; done.
Qed.
Lemma inodes_core s s' : same_core s s' -> inodes_sized s -> inodes_sized s'.
Proof. intros [Hb _ _ Hs _ _] (k & Hk & He). exists k. by rewrite Hb, Hs. Qed.

(** What every step leaves alone: the buffers held. *)
Definition same_bufs (s s' : mount) : Prop := m_sbh s' = m_sbh s /\ m_gdb s' = m_gdb s.
#[export] Instance same_bufs_refl : Reflexive same_bufs.
Proof. by intros s. Qed.
#[export] Instance same_bufs_trans : Transitive same_bufs.
Proof. intros s1 s2 s3 [] []. split; congruence. Qed.
Lemma core_bufs s s' : same_core s s' -> same_bufs s s'.
Proof. by intros []. Qed.

(** Compute the fields of an updated state. *)
Ltac mount_cbn :=
  cbn [
     s_inode_size s_first_ino s_want_extra_isize s_time s_bitmap_maxbytes s_maxbytes
     s_inodes_per_block s_itb_per_group s_desc_per_block s_addr_per_block_bits
     s_desc_per_block_bits s_hash_seed s_def_hash_version s_hash_unsigned s_commit_interval
     s_stripe s_min_batch_time s_max_batch_time s_inode_readahead_blks s_max_dir_size_kb
     s_li_wait_mult s_resuid s_resgid s_qf_names s_jquota_fmt s_dummy_enc_policy m_type
     m_sb_block m_daxdev m_flags m_iflags m_bits m_sbh m_es m_sbi m_opt m_opt2 m_def_opt
     m_def_opt2 m_bdev_is_dax m_par m_encoding m_ino m_meta m_hash m_blockfile_groups m_gdb
     m_journal m_quota s_desc_size s_blocks_per_group s_clusters_per_group s_inodes_per_group
     s_cluster_ratio s_cluster_bits s_groups_count s_blocksize s_csum_seed s_chksum_driver
     s_mount_state set_m_flags set_m_iflags set_m_bits set_m_sbh set_m_es set_m_sbi set_m_opt
     set_m_opt2 set_m_def_opt set_m_def_opt2 set_m_bdev_is_dax set_m_par set_m_encoding
     set_m_ino set_m_meta set_m_hash set_m_blockfile_groups set_m_gdb set_m_quota sbi_set_csum
     sbi_set_blocksize sbi_set_desc_size sbi_set_groups sbi_set_mount_state sbi_set_cluster
     sbi_set_ratio sbi_set_groups_count upd_sbi when set_ino_size set_want set_time upd_ino
     set_limits set_ipb set_tables upd_meta m_blocksize fst snd].

(** Case analysis of a function of Mount.v. *)
Ltac mount_cases := repeat (case_match || (progress cbn [fst snd])).

Lemma when_core b f s : (forall s, same_core s (f s)) -> same_core s (when b f s).
Proof. intros Hf. destruct b; simpl; [apply Hf|reflexivity]. Qed.
Lemma opt_core f s : same_core s (set_opt f s).
Proof. by split. Qed.
Lemma opt2_core f s : same_core s (set_opt2 f s).
Proof. by split. Qed.
Lemma clear_core f s : same_core s (clear_opt f s).
Proof. by split. Qed.
Lemma clear2_core f s : same_core s (clear_opt2 f s).
Proof. by split. Qed.
Lemma want_core w s : same_core s (upd_ino (set_want w) s).
Proof. by split. Qed.
#[export] Hint Resolve when_core opt_core opt2_core clear_core clear2_core want_core : evfs.

Section Stages.
Context `{MountEnv}.

(** *** Options and inodes *)

(** One assignment of a chain of them: it leaves the core alone, and only that is kept. *)
Ltac core_let :=
  match goal with
  | |- same_core ?s0 (let x := ?v in @?b x) =>
      let H := fresh in
      assert (H : same_core s0 v);
        [|revert H; change (same_core s0 v -> same_core s0 (b v)); generalize v; intros ? H; cbv beta]
  | |- same_core ?s0 (let x := ?v in @?b x) => change (same_core s0 (b v)); cbv beta
  end.
Ltac core_step :=
  first [core_let
        |match goal with |- same_core _ (if ?c then _ else _) => destruct c end
        |match goal with H : same_core ?s ?s1 |- same_core ?s _ => etrans; [exact H|auto with evfs] end
        |solve [auto with evfs]].

Lemma def_opts_core s : same_core s (ext4_set_def_opts s).
Proof. cbv delta [ext4_set_def_opts] beta. repeat core_step. Qed.

Lemma inode_extra_core s : same_core s (inode_extra_init s).2.
Proof. unfold inode_extra_init, when. mount_cases; by split. Qed.

Lemma inode_info_ok s :
  sized s ->
  same_bufs s (ext4_inode_info_init s).2 /\
  ((ext4_inode_info_init s).1 = 0 ->
   sized (ext4_inode_info_init s).2 /\ inodes_sized (ext4_inode_info_init s).2).
Proof.
  intros Hs. pose proof (sz_bits s Hs) as Hb. pose proof (sz_lb s Hs) as Hlb.
  unfold ext4_inode_info_init. destruct (s_rev_level (m_es s) =? EXT4_GOOD_OLD_REV).
  - set (s1 := upd_ino _ s). pose proof (inode_extra_core s1) as Hc.
    split; [by apply (core_bufs _ _ Hc)|]. intros _.
    assert (H1 : sized s1) by (destruct Hs; by split).
    split; [by eapply sized_core|]. eapply inodes_core; [exact Hc|].
    exists 7. split; [subst s1; cbn [m_bits upd_ino set_m_ino]; lia|done].
  - set (size := es_inode_size (m_es s)). set (s1 := upd_ino (set_ino_size size _) s).
    assert (H1 : sized s1) by (destruct Hs; by split).
    destruct (s_first_ino (m_ino s1) <? EXT4_GOOD_OLD_FIRST_INO); [by split|].
    destruct ((size <? EXT4_GOOD_OLD_INODE_SIZE) || negb (is_power_of_2 size) ||
              (m_blocksize s1 <? size)) eqn:Hsz; [by split|].
    set (s2 := upd_ino (set_time _) s1). pose proof (inode_extra_core s2) as Hc.
    split; [by apply (core_bufs _ _ Hc)|]. intros _.
    assert (H2 : sized s2) by (destruct H1; by split).
    split; [by eapply sized_core|]. eapply inodes_core; [exact Hc|].
    apply orb_false_iff in Hsz as [Hsz Hbs]. reflect_bools.
    destruct (is_power_of_2_spec size) as (k & Hk & He); [unfold EXT4_GOOD_OLD_INODE_SIZE in *; lia|done|].
    exists k. split; [|exact He].
    change (m_bits s2) with (m_bits s). change (m_blocksize s1) with (m_blocksize s) in Hbs.
    rewrite (sz_bs s Hs), He in Hbs. apply (Z.pow_le_mono_r_iff 2) in Hbs; [|lia..].
    split; [|done]. destruct (Z.lt_ge_cases k 7); [|done].
    pose proof (Z.pow_lt_mono_r 2 k 7). unfold EXT4_GOOD_OLD_INODE_SIZE in *. lia.
Qed.

Lemma journal_mode_core s : same_core s (ext4_check_journal_data_mode s).2.
Proof. unfold ext4_check_journal_data_mode, when. mount_cases; by split. Qed.

Lemma feature_set_core ro s : same_core s (ext4_feature_set_ok ro s).2.
Proof. unfold ext4_feature_set_ok. mount_cases; by split. Qed.

Lemma compat_core silent s : same_core s (ext4_check_feature_compatibility silent s).2.
Proof.
  unfold ext4_check_feature_compatibility. cbv zeta.
  set (s1 := when _ _ s). assert (H1 : same_core s s1) by (subst s1; auto with evfs).
  case_match; [done|]. unfold wrong_type. destruct (is_ext2 s1 && _); [|destruct (is_ext3 s1 && _)].
  1,2: destruct silent; [|done]; cbn [snd]; etrans; [exact H1|apply feature_set_core].
  pose proof (feature_set_core (sb_rdonly s1) s1) as Hf.
  destruct (ext4_feature_set_ok (sb_rdonly s1) s1) as [ok s2]. cbn [snd] in Hf.
  assert (H2 : same_core s s2) by (by etrans). destruct (negb ok); [done|].
  unfold dax_encrypt_ok, when. etrans; [exact H2|]. mount_cases; by split.
Qed.

(** *** Sizes and tables *)

Lemma meta_init_bufs s : same_bufs s (ext4_block_group_meta_init s).2.
Proof. unfold ext4_block_group_meta_init. cbv zeta. mount_cases; by split. Qed.

Lemma desc_pow2 s :
  es_wf (m_es s) ->
  (ext4_has_feature_64bit (m_es s) = true ->
   ((es_desc_size (m_es s) <? EXT4_MIN_DESC_SIZE_64BIT) || (EXT4_MAX_DESC_SIZE <? es_desc_size (m_es s)) ||
    negb (is_power_of_2 (es_desc_size (m_es s)))) = false) ->
  exists k, 5 <= k <= 10 /\ (if ext4_has_feature_64bit (m_es s) then es_desc_size (m_es s) else EXT4_MIN_DESC_SIZE) = 2 ^ k.
Proof.
  intros Hwf Hd. destruct (ext4_has_feature_64bit (m_es s)); [|by exists 5].
  specialize (Hd eq_refl). apply orb_false_iff in Hd as [Hd Hp]. reflect_bools.
  destruct (is_power_of_2_spec (es_desc_size (m_es s))) as (k & Hk & He);
    [unfold EXT4_MIN_DESC_SIZE_64BIT in *; lia|done|].
  exists k. split; [|done]. unfold EXT4_MIN_DESC_SIZE_64BIT, EXT4_MAX_DESC_SIZE, EXT4_MIN_BLOCK_SIZE in *.
  rewrite He in *. split.
  - destruct (Z.lt_ge_cases k 5); [|done]. pose proof (Z.pow_lt_mono_r 2 k 5). lia.
  - destruct (Z.lt_ge_cases 10 k); [|done]. pose proof (Z.pow_lt_mono_r 2 10 k). lia.
Qed.

Lemma meta_init_ok s :
  sized s -> inodes_sized s -> (ext4_block_group_meta_init s).1 = 0 ->
  let s' := (ext4_block_group_meta_init s).2 in
  sized s' /\ inodes_sized s' /\ tables_sized s' /\ m_es s' = m_es s.
Proof.
  intros Hs (ki & Hki & Hi) H0 s'. pose proof (sz_es s Hs) as Hwf. pose proof (sz_bs s Hs) as Hbs.
  pose proof (sz_bits s Hs) as Hbits. pose proof (sz_lb s Hs) as Hlb.
  unfold s'. revert H0. unfold ext4_block_group_meta_init. cbv zeta. cbn [m_ino m_es upd_sbi upd_meta set_m_sbi set_m_meta].
  destruct (ext4_has_feature_64bit (m_es s) && _) eqn:H64; [done|].
  destruct (desc_pow2 s) as (kd & Hkd & Hd); [done| |].
  { intros E. rewrite E in H64. done. }
  rewrite Hd, Hi, Hbs. set (bpg := es_blocks_per_group (m_es s)).
  set (ipg := es_inodes_per_group (m_es s)). rewrite !pow2_div by lia.
  destruct ((_ =? 0) || (bpg =? 0)) eqn:Hz; [done|].
  destruct ((ipg <? _) || _) eqn:Hg; [done|]. intros _. cbn [snd fst].
  apply orb_false_iff in Hz as [_ Hz]. apply orb_false_iff in Hg as [Hg1 Hg2]. reflect_bools.
  pose proof (get32_range (m_es s) 0x20 (proj2 Hwf)) as Hr. change (get32 (m_es s) 0x20) with bpg in Hr.
  split_and!.
  - destruct Hs. by split.
  - by exists ki.
  - split; mount_cbn; fold (m_blocksize s); rewrite ?Hbs.
    + exists (m_bits s - ki). split; [lia|done].
    + exists kd. split; [done|]. split; [done|]. split; [done|]. apply Z.log2_pow2. lia.
    + lia.
    + lia.
    + done.
    + change 4 with (2 ^ 2). rewrite pow2_div by lia. apply Z.log2_pow2. lia.
  - done.
Qed.

(** *** The directory hash *)

(** The flags of the super block are the only field a mount writes here. *)
Lemma hash_init_es s :
  m_es (ext4_hash_info_init s) = m_es s \/
  exists v, m_es (ext4_hash_info_init s) = put32 (m_es s) 0x160 v.
Proof. unfold ext4_hash_info_init, when. mount_cases; (by left) || (right; by eexists). Qed.

Lemma hash_init_same s :
  same_bufs s (ext4_hash_info_init s) /\ m_sbi (ext4_hash_info_init s) = m_sbi s /\
  m_bits (ext4_hash_info_init s) = m_bits s /\ m_meta (ext4_hash_info_init s) = m_meta s /\
  m_ino (ext4_hash_info_init s) = m_ino s.
Proof. unfold ext4_hash_info_init, when. mount_cases; by split_and!. Qed.

Lemma hash_init_ok s :
  sized s -> inodes_sized s -> tables_sized s ->
  let s' := ext4_hash_info_init s in sized s' /\ inodes_sized s' /\ tables_sized s'.
Proof.
  intros Hs Hi Ht s'. destruct (hash_init_same s) as (_ & Hsbi & Hb & Hm & Hino).
  fold s' in Hsbi, Hb, Hm, Hino. split_and!.
  - destruct Hs as [Hwf Hlb Hlc Hbits Hbs].
    assert (He : es_wf (m_es s') /\ s_log_block_size (m_es s') = s_log_block_size (m_es s) /\
                 s_log_cluster_size (m_es s') = s_log_cluster_size (m_es s)).
    { destruct (hash_init_es s) as [E|[v E]]; fold s' in E; rewrite E; [done|].
      destruct Hwf as [Hl Hok]. split; [split; [by autorewrite with len|auto with evfs]|].
      unfold s_log_block_size, s_log_cluster_size. by rewrite !le_get_put_out by lia. }
    destruct He as (He & El & Ec). unfold m_blocksize in Hbs.
    split; unfold m_blocksize; rewrite ?El, ?Ec, ?Hsbi, ?Hb; done.
  - destruct Hi as (k & Hk & E). exists k. by rewrite Hb, Hino.
  - destruct Ht as [? ? ? Hipg ? ?]. unfold m_blocksize in Hipg.
    split; unfold m_blocksize; rewrite ?Hm, ?Hsbi, ?Hb; done.
Qed.

(** *** Clusters *)

Lemma clustersize_bufs s : same_bufs s (ext4_handle_clustersize s).2.
Proof. unfold ext4_handle_clustersize, when. cbv zeta. mount_cases; by split. Qed.

Lemma clustersize_ok s :
  sized s -> inodes_sized s -> tables_sized s -> (ext4_handle_clustersize s).1 = 0 ->
  let s' := (ext4_handle_clustersize s).2 in
  sized s' /\ inodes_sized s' /\ tables_sized s' /\ clusters_sized s' /\ m_es s' = m_es s.
Proof.
  intros Hs Hi Ht H0 s'. pose proof (sz_bs s Hs) as Hbs. pose proof (sz_bits s Hs) as Hbits.
  pose proof (sz_lb s Hs) as Hlb. pose proof (sz_lc s Hs) as Hlc.
  set (lb := s_log_block_size (m_es s)) in *. set (lc := s_log_cluster_size (m_es s)) in *.
  assert (Hcs : s32 (Z.shiftl 1024 lc) = 2 ^ (10 + lc)).
  { rewrite Z.shiftl_mul_pow2 by lia. change 1024 with (2 ^ 10). rewrite <- Z.pow_add_r by lia.
    pose proof (pow2_range 0 (10 + lc) 30). rewrite s32_small; [done|]. lia. }
  (* what the end of the function sets, with its clusters and bits *)
  assert (Hdone : forall cpg bits x,
    0 <= bits <= 20 -> s_blocks_per_group (m_sbi s) = cpg * 2 ^ bits -> 0 < cpg <= 8 * m_blocksize s ->
    2 ^ (10 + lc) / m_blocksize s = 2 ^ bits ->
    s' = when x (set_opt2 EXT4_MOUNT2_STD_GROUP_SIZE)
           (upd_sbi (sbi_set_ratio (u32 (2 ^ (10 + lc) / m_blocksize s))) (upd_sbi (sbi_set_cluster cpg bits) s)) ->
    sized s' /\ inodes_sized s' /\ tables_sized s' /\ clusters_sized s' /\ m_es s' = m_es s).
  { intros cpg bits x Hb Hbpg Hcpg Hr ->. pose proof (pow2_range 0 bits 20).
    rewrite Hr, u32_small by lia. destruct x; cbn [when];
      (split_and!; [destruct Hs; by split|by destruct Hi as (k & ?); exists k|destruct Ht; by split|by split|done]). }
  revert H0 Hdone. unfold s'. unfold ext4_handle_clustersize. cbv zeta. fold lc. rewrite Hcs.
  destruct (ext4_has_feature_bigalloc (m_es s)).
  - destruct (2 ^ (10 + lc) <? m_blocksize s) eqn:Hlt; [done|]. fold lb.
    destruct (m_blocksize s * 8 <? _) eqn:Hcpg; [done|].
    destruct (_ =? u64 _) eqn:Hbpg; cbn [negb]; [|done].
    reflect_bools. rewrite Hbs in Hlt. apply Z.pow_le_mono_r_iff in Hlt; [|lia..].
    intros _ Hdone. rewrite (u32_small (lc - lb)) in * by lia.
    assert (Hr : 2 ^ (10 + lc) / m_blocksize s = 2 ^ (lc - lb)).
    { rewrite Hbs, pow2_div by lia. f_equal. lia. }
    pose proof (pow2_range 0 (lc - lb) 20). pose proof (ts_bpg s Ht) as Hpos.
    pose proof (get32_range (m_es s) 0x24 (proj2 (sz_es s Hs))) as Hrc.
    change (get32 (m_es s) 0x24) with (es_clusters_per_group (m_es s)) in Hrc.
    rewrite Hr, u64_small in Hbpg by nia.
    eapply Hdone; [| | |exact Hr|reflexivity]; [lia|done|nia].
  - destruct (2 ^ (10 + lc) =? m_blocksize s) eqn:Heq; cbn [negb]; [|done].
    destruct (m_blocksize s * 8 <? _) eqn:Hcpg; [done|]. reflect_bools. intros _ Hdone.
    pose proof (ts_bpg s Ht) as Hpos.
    eapply Hdone; [| | | |reflexivity]; [lia|lia|lia|].
    rewrite Heq, Z.div_same by (rewrite Hbs; pose proof (pow2_range 0 (m_bits s) 16); lia). done.
Qed.

(** *** The groups *)

Lemma geometry_bufs a n s : same_bufs s (ext4_check_geometry a n s).2.
Proof. unfold ext4_check_geometry. cbv zeta. mount_cases; by split. Qed.

Lemma check_geometry_ok a n s :
  sized s -> inodes_sized s -> tables_sized s -> clusters_sized s ->
  (a = 0 -> ext4_blocks_count (m_es s) <= 2 ^ 63) ->
  (ext4_check_geometry a n s).1 = 0 -> geometry_ok (ext4_check_geometry a n s).2.
Proof.
  intros Hs Hi Ht Hc Ha. unfold ext4_check_geometry. cbv zeta. intros H0.
  set (bpg := s_blocks_per_group (m_sbi s)) in *. set (fdb := s_first_data_block (m_es s)) in *.
  set (blocks := ext4_blocks_count (m_es s)) in *.
  destruct (_ <? s_reserved_gdt_blocks (m_es s)); [done|].
  destruct (a =? 0) eqn:Ea; cbn [negb] in *; [|by reflect_bools].
  destruct (negb (n =? 0) && _); [done|].
  destruct (blocks <=? fdb) eqn:Hfb; [done|].
  destruct (_ && (s_cluster_ratio (m_sbi s) =? 1)); [done|].
  pose proof (ts_bpg s Ht) as Hbpg. fold bpg in Hbpg. reflect_bools.
  pose proof (get32_range (m_es s) 0x14 (proj2 (sz_es s Hs))) as Hrf. change (get32 (m_es s) 0x14) with fdb in Hrf.
  specialize (Ha Ea).
  destruct (ts_desc s Ht) as (kd & Hkd & _ & Hdpb & _). pose proof (sz_bits s Hs) as Hbits.
  pose proof (sz_lb s Hs) as Hlb.
  pose proof (pow2_range 0 (m_bits s - kd) 16) as Hdr. rewrite Hdpb in *.
  rewrite (u64_small (blocks - fdb + bpg - 1)) in * by lia.
  rewrite (u64_small (2 ^ 32 - _)) in * by lia.
  set (groups := (blocks - fdb + bpg - 1) / bpg) in *.
  assert (Hgr : groups * bpg <= blocks - fdb + bpg - 1 < groups * bpg + bpg).
  { subst groups. pose proof (Z.div_mod (blocks - fdb + bpg - 1) bpg). pose proof (Z.mod_pos_bound (blocks - fdb + bpg - 1) bpg). lia. }
  destruct (2 ^ 32 - 2 ^ (m_bits s - kd) <? groups) eqn:Hmax; [done|]. reflect_bools.
  assert (Hg1 : 1 <= groups) by nia.
  rewrite (u32_small groups) in * by lia.
  destruct (u64 _ =? _) eqn:Hino; cbn [negb fst snd] in *; [|done]. reflect_bools.
  assert (Hipg : 0 <= s_inodes_per_group (m_sbi s) < 2 ^ 20).
  { pose proof (ts_ipg s Ht) as Hp. destruct (ts_ipb s Ht) as (k & Hk & E). rewrite E, (sz_bs s Hs) in Hp.
    pose proof (Z.pow_pos_nonneg 2 k). pose proof (pow2_range 0 (m_bits s) 16). lia. }
  rewrite u64_small in Hino by nia.
  split.
  - destruct Hs; by split.
  - destruct Hi as (k & ?); by exists k.
  - destruct Ht; by split.
  - destruct Hc; by split.
  - split; mount_cbn; fold bpg fdb blocks; [lia|lia|nia|done].
Qed.
End Stages.

(** ** The calls to the outside *)

(** What the outside promises: bytes, a power of two for the smallest block size, the
    bound of generic_check_addressable (include/linux/fs.h), and a descriptor for every
    group once the descriptor blocks are there. *)
Class MountEnvOk `{Env, MountEnv, Disk} := {
  mo_byte i : 0 <= disk_byte i < 256;
  mo_min h : env_int h "sb_min_blocksize" [1024] = 0 \/
             exists k, 10 <= k /\ env_int h "sb_min_blocksize" [1024] = 2 ^ k;
  mo_addressable h bits n :
    10 <= bits -> env_int h "generic_check_addressable" [bits; n] = 0 -> n <= 2 ^ 63;
  mo_desc sbi bufs i :
    0 <= i < s_groups_count sbi ->
    s_groups_count sbi <= Z.of_nat (length bufs) * (s_blocksize sbi / s_desc_size sbi) ->
    is_Some (ext4_get_group_desc sbi bufs i)
}.

(** No buffer or group is locked by this thread. *)
Definition mount_unlocked (held : list res) : Prop :=
  forall n, existsb (blocks_on (Excl (LBuffer n))) held = false /\
            existsb (blocks_on (Excl (LGroup n))) held = false.
Lemma unlocked_ref r held : mount_unlocked held -> mount_unlocked (Ref r :: held).
Proof. intros Hu n. simpl. apply Hu. Qed.
#[export] Hint Resolve unlocked_ref : evfs.

(** *** Blocks of the device *)

Section DiskBytes.
Context `{Disk}.

Definition disk_bytes (pos : Z) (n : nat) : list Z := (fun k => disk_byte (pos + Z.of_nat k)) <$> seq 0 n.

Lemma getb_disk_block size b i :
  0 <= i < size -> getb (disk_block size b) i = disk_byte (b * size + i).
Proof.
  intros Hi. unfold getb, disk_block. case_cmp; [lia|].
  rewrite nth_lookup, list_lookup_fmap, lookup_seqZ_lt by lia. simpl. f_equal. lia.
Qed.

(** The super block does not depend on the block size it is read with. *)
Lemma sb_at_disk k q :
  10 <= k -> 0 <= q ->
  sb_at (disk_block (2 ^ k) (q * 1024 / 2 ^ k)) (q * 1024 mod 2 ^ k) = disk_bytes (q * 1024) 1024.
Proof.
  intros Hk Hq. unfold sb_at, gets, disk_bytes. apply list_fmap_ext. intros i x Hx.
  apply lookup_seq in Hx as [-> Hi]. cbn in Hi.
  pose proof (Z.pow_pos_nonneg 2 k). pose proof (Z.div_mod (q * 1024) (2 ^ k)).
  assert (Hfit : q * 1024 mod 2 ^ k + 1024 <= 2 ^ k).
  { replace (2 ^ k) with (2 ^ (k - 10) * 1024)
      by (change 1024 with (2 ^ 10); rewrite <- Z.pow_add_r by lia; f_equal; lia).
    rewrite Z.mul_mod_distr_r by (try (apply Z.pow_nonzero); lia).
    pose proof (Z.mod_pos_bound q (2 ^ (k - 10))). pose proof (Z.pow_pos_nonneg 2 (k - 10)). lia. }
  pose proof (Z.mod_pos_bound (q * 1024) (2 ^ k)).
  rewrite getb_disk_block by lia. f_equal. lia.
Qed.

Lemma disk_bytes_wf pos : (forall i, 0 <= disk_byte i < 256) -> es_wf (disk_bytes pos 1024).
Proof.
  intros Hb. split; [unfold disk_bytes; by rewrite length_fmap, length_seq|].
  apply Forall_fmap, Forall_forall. intros k _. apply Hb.
Qed.
End DiskBytes.

Section Calls.
Context `{MountEnvOk, !EnvErrno}.

Lemma wp_mount_run f (Q : Z -> world mount -> Prop) w :
  Q (f (w_st w)).1 (World (f (w_st w)).2 (w_held w) (w_calls w)) -> wp (run f) Q w.
Proof. done. Qed.

Lemma wp_uptodate b (Q : bool -> world mount -> Prop) w :
  (forall up h, Q up (World (w_st w) (w_held w) h)) -> wp (ext4_buffer_uptodate b) Q w.
Proof. intros HQ. unfold ext4_buffer_uptodate. wp_auto; apply HQ. Qed.

(** A read gives a buffer with the bytes of the device, or an error and nothing. *)
Lemma wp_bread b (Q : Z + list Z -> world mount -> Prop) w :
  mount_unlocked (w_held w) ->
  (forall e h, e <> 0 -> Q (inl e) (World (w_st w) (w_held w) h)) ->
  (forall h, Q (inr (disk_block (m_blocksize (w_st w)) b)) (World (w_st w) (bh b :: w_held w) h)) ->
  wp (ext4_sb_bread_unmovable b) Q w.
Proof.
  intros Hu Herr Hok. unfold ext4_sb_bread_unmovable, ext4_read_bh_lock, ext4_read_bh, brelse, bh.
  do 2 wp_step. destruct r as [|e|]; [|wp_step; by apply Herr..].
  do 2 wp_step. apply wp_bind, wp_uptodate. intros [|] h; cbn [w_st w_held w_calls].
  { unfold contents. do 3 wp_step. apply Hok. }
  do 3 wp_step. { simpl. apply Hu. } apply wp_bind, wp_uptodate. intros [|] h1; cbn [w_st w_held w_calls].
  - do 3 wp_step. cbn [Z.eqb]. unfold contents. do 3 wp_step. apply Hok.
  - repeat wp_step. destruct (z0 =? 0).
    + change (- EIO =? 0) with false. cbn iota. repeat wp_step. by apply Herr.
    + cbn [Z.eqb]. unfold contents. repeat wp_step. apply Hok.
Qed.

(** *** The super block *)

(** A refusal gives back what it took; a result keeps the super block's buffer. *)
Definition loaded (held : list res) (gdb : list (Z * list Z)) (r : Z * Z) (w : world mount) : Prop :=
  m_gdb (w_st w) = gdb /\
  ((r.1 <> 0 /\ w_held w = held) \/
   (r.1 = 0 /\ sized (w_st w) /\ m_sbh (w_st w) = Some r.2 /\ w_held w = bh r.2 :: held /\ 0 <= r.2 < 2 ^ 63)).

Lemma loaded_fail held gdb e x s h :
  e <> 0 -> m_gdb s = gdb -> loaded held gdb (e, x) (World s held h).
Proof. intros. split; [done|]. by left. Qed.

Lemma sized_of s es k :
  m_es s = es -> es_wf es -> s_log_block_size es <= 6 -> s_log_cluster_size es <= 20 ->
  k = 10 + s_log_block_size es -> m_bits s = k -> m_blocksize s = 2 ^ k -> sized s.
Proof.
  intros He Hwf Hlb Hlc Hk Hb Hbs. pose proof (get32_range es 0x18 (proj2 Hwf)).
  pose proof (get32_range es 0x1C (proj2 Hwf)).
  unfold s_log_block_size, s_log_cluster_size in *.
  split; rewrite ?He; unfold s_log_block_size, s_log_cluster_size; [done|lia|lia|lia|congruence].
Qed.

Lemma blocksize_shift lb : 0 <= lb <= 6 -> s32 (Z.shiftl EXT4_MIN_BLOCK_SIZE lb) = 2 ^ (10 + lb).
Proof.
  intros. rewrite Z.shiftl_mul_pow2 by lia. unfold EXT4_MIN_BLOCK_SIZE. change 1024 with (2 ^ 10).
  rewrite <- Z.pow_add_r by lia. pose proof (pow2_range 0 (10 + lb) 16). apply s32_small. lia.
Qed.

Lemma sb_pos s : 0 <= m_sb_block s < 2 ^ 32 ->
  u64 (m_sb_block s * EXT4_MIN_BLOCK_SIZE) = m_sb_block s * 1024.
Proof. intros. unfold EXT4_MIN_BLOCK_SIZE. apply u64_small. lia. Qed.

Lemma sb_block_range q k : 0 <= q < 2 ^ 32 -> 10 <= k -> 0 <= q * 1024 / 2 ^ k < 2 ^ 63.
Proof.
  intros Hq Hk. pose proof (Z.pow_pos_nonneg 2 k).
  pose proof (Z.div_pos (q * 1024) (2 ^ k)). pose proof (Z.div_le_upper_bound (q * 1024) (2 ^ k) (q * 1024)).
  split; [lia|]. nia.
Qed.

(** The second read finds the super block of the first. *)
Lemma wp_reload lb held w :
  mount_unlocked held -> w_held w = held -> 0 <= m_sb_block (w_st w) < 2 ^ 32 -> 0 <= lb <= 6 ->
  let es := disk_bytes (m_sb_block (w_st w) * 1024) 1024 in
  s_log_block_size es = lb -> s_log_cluster_size es <= 20 ->
  wp (reload_super (2 ^ (10 + lb))) (loaded held (m_gdb (w_st w))) w.
Proof.
  intros Hu Hh Hsb Hlb es Hes Hlc. unfold reload_super, sb_set_blocksize, update. repeat wp_step.
  destruct (z =? 0); repeat wp_step; cbn [negb].
  - rewrite Hh. by apply loaded_fail.
  - repeat wp_step. cbn [set_blocksize set_m_bits upd_sbi set_m_sbi m_sb_block].
    rewrite (sb_pos _ Hsb), Hh. apply wp_bread; cbn [w_st w_held w_calls]; [done| |].
    + intros e h He. wp_step. by apply loaded_fail.
    + intros h. unfold m_blocksize. cbn [set_blocksize set_m_bits upd_sbi set_m_sbi m_sbi sbi_set_blocksize s_blocksize].
      rewrite sb_at_disk by lia. fold es. repeat wp_step. destruct (negb _).
      * unfold brelse, bh. repeat wp_step. by apply loaded_fail.
      * repeat wp_step. split; [done|]. right. split; [done|].
        split; [|split_and!; [done|done|by apply sb_block_range; lia..]].
        apply (sized_of _ es (10 + lb)); try done.
        -- apply disk_bytes_wf, mo_byte.
        -- rewrite Hes. lia.
        -- by rewrite Hes.
        -- mount_cbn. unfold set_blocksize. mount_cbn. apply Z.log2_pow2. lia.
Qed.

Lemma wp_load_super held w :
  mount_unlocked held -> w_held w = held -> 0 <= m_sb_block (w_st w) < 2 ^ 32 ->
  wp ext4_load_super (loaded held (m_gdb (w_st w))) w.
Proof.
  intros Hu Hh Hsb. unfold ext4_load_super, sb_min_blocksize, update. do 2 wp_step.
  apply wp_call_int. intros n Hn. change EXT4_MIN_BLOCK_SIZE with 1024 in Hn. wp_step.
  destruct (n =? 0) eqn:En; repeat wp_step; rewrite En; [rewrite Hh; by apply loaded_fail|].
  destruct (mo_min (w_calls w)) as [E|(k & Hk & E)]; rewrite E in Hn; [by subst; reflect_bools|]. subst n.
  repeat wp_step. cbn [set_blocksize set_m_bits upd_sbi set_m_sbi m_sb_block]. rewrite (sb_pos _ Hsb).
  set (q := m_sb_block (w_st w)) in *. set (es := disk_bytes (q * 1024) 1024).
  set (whole := negb (2 ^ k =? EXT4_MIN_BLOCK_SIZE)).
  apply wp_bread; cbn [w_st w_held w_calls]; [by rewrite Hh| |].
  { intros e h He. rewrite Hh. wp_step. by apply loaded_fail. }
  intros h. unfold m_blocksize. cbn [set_blocksize set_m_bits upd_sbi set_m_sbi m_sbi sbi_set_blocksize s_blocksize].
  assert (Hes : sb_at (disk_block (2 ^ k) (if whole then q * 1024 / 2 ^ k else q))
            (if whole then q * 1024 mod 2 ^ k else 0) = es).
  { subst whole. unfold EXT4_MIN_BLOCK_SIZE. destruct (2 ^ k =? 1024) eqn:E1; cbn [negb].
    - reflect_bools. rewrite E1. pose proof (sb_at_disk 10 q ltac:(lia) ltac:(lia)) as Hd.
      change (2 ^ 10) with 1024 in Hd. by rewrite Z.div_mul, Z.mod_mul in Hd by lia.
    - by apply sb_at_disk; lia. }
  rewrite Hes, Hh. set (lsb := if whole then _ else _). repeat wp_step.
  assert (Hwf : es_wf es) by apply disk_bytes_wf, mo_byte.
  pose proof (get32_range es 0x18 (proj2 Hwf)) as Hr. change (get32 es 0x18) with (s_log_block_size es) in Hr.
  assert (Hout : forall h', wp (brelse lsb;;; kret (- EINVAL, 0)) (loaded held (m_gdb (w_st w)))
            (World (set_m_es es (set_blocksize (2 ^ k) (w_st w))) (bh lsb :: held) h')).
  { intros h'. unfold brelse, bh. repeat wp_step. by apply loaded_fail. }
  destruct (negb (s_magic es =? _)); [apply Hout|].
  destruct (_ <? s_log_block_size es) eqn:El; [apply Hout|].
  destruct (_ <? s_log_cluster_size es) eqn:Ec; [apply Hout|].
  unfold EXT4_MAX_BLOCK_LOG_SIZE, EXT4_MIN_BLOCK_LOG_SIZE, EXT4_MAX_CLUSTER_LOG_SIZE in *. reflect_bools.
  rewrite blocksize_shift by lia. repeat wp_step.
  unfold m_blocksize. cbn [set_m_es m_sbi set_blocksize set_m_bits upd_sbi set_m_sbi sbi_set_blocksize s_blocksize].
  destruct (2 ^ k =? 2 ^ (10 + s_log_block_size es)) eqn:Ebs; repeat wp_step.
  - split; [done|]. right. split; [done|].
    split; [|split_and!; [done|done|subst lsb; destruct whole; (by apply sb_block_range; lia) || (cbn [snd]; lia)..]].
    reflect_bools. assert (Hkk : k = 10 + s_log_block_size es) by (apply (Z.pow_inj_r 2); lia).
    apply (sized_of _ es k); try done. unfold set_blocksize. mount_cbn. apply Z.log2_pow2. lia.
  - unfold brelse at 1, bh. repeat wp_step.
    change (m_gdb (w_st w)) with (m_gdb (w_st (World (set_m_es es (set_blocksize (2 ^ k) (w_st w))) held h))).
    apply wp_reload; cbn [w_st w_held]; try done; lia.
Qed.

End Calls.

Section Descriptors.
Context `{MountEnvOk, !EnvErrno, !Csum, !OptionAnswers}.

(** *** The group descriptors

    The bounds of a group, and what [ext4_check_descriptors] establishes about it. *)

Definition group_start (s : mount) (i : Z) : Z :=
  if ext4_has_feature_flex_bg (m_es s) then s_first_data_block (m_es s)
  else s_first_data_block (m_es s) + i * s_blocks_per_group (m_sbi s).
Definition group_end (s : mount) (i : Z) : Z :=
  if ext4_has_feature_flex_bg (m_es s) || (i =? s_groups_count (m_sbi s) - 1)
  then ext4_blocks_count (m_es s) - 1
  else group_start s i + s_blocks_per_group (m_sbi s) - 1.

(** The blocks of the super block and of the group descriptors after it. *)
Definition reserved (s : mount) (sb_block blk : Z) : Prop :=
  sb_block <= blk <= u64 (sb_block + ext4_bg_num_gdb (m_sbi s) (m_es s) 0) \/ blk = sb_block.

Definition placed (s : mount) (sb_block i blk last : Z) : Prop :=
  group_start s i <= blk /\ last <= group_end s i /\ (sb_rdonly s = false -> ~ reserved s sb_block blk).

(** The checks on group [i] with descriptor [gdp]; the end of the inode table wraps around
    in 64 bits. *)
Record group_placed (s : mount) (sb_block i : Z) (gdp : list Z) : Prop := {
  gp_bitmap : placed s sb_block i (ext4_block_bitmap (m_sbi s) gdp) (ext4_block_bitmap (m_sbi s) gdp);
  gp_ibitmap : placed s sb_block i (ext4_inode_bitmap (m_sbi s) gdp) (ext4_inode_bitmap (m_sbi s) gdp);
  gp_table : placed s sb_block i (ext4_inode_table (m_sbi s) gdp)
               (u64 (ext4_inode_table (m_sbi s) gdp + s_itb_per_group (m_meta s) - 1));
  gp_csum : sb_rdonly s = false -> ext4_group_desc_csum_verify (m_sbi s) (m_es s) i gdp = true
}.

Definition desc_of (s : mount) (i : Z) : option (list Z) := ext4_get_group_desc (m_sbi s) (snd <$> m_gdb s) i.
Definition zeroed (s : mount) (i : Z) : Prop :=
  exists gdp, desc_of s i = Some gdp /\ gd_has_flag gdp EXT4_BG_INODE_ZEROED = true.

(** The first group from which on an inode table may have to be zeroed. *)
Definition first_not_zeroed_upto (s : mount) (n f : Z) : Prop :=
  (f = s_groups_count (m_sbi s) /\ forall j, 0 <= j < n -> zeroed s j) \/
  (0 <= f < n /\ ~ zeroed s f /\ forall j, 0 <= j < f -> zeroed s j).

Definition groups_checked (s : mount) (sb_block f : Z) : Prop :=
  (forall i, 0 <= i < s_groups_count (m_sbi s) ->
     exists gdp, desc_of s i = Some gdp /\ group_placed s sb_block i gdp) /\
  first_not_zeroed_upto s (s_groups_count (m_sbi s)) f.

Lemma blocks_count_range s : es_wf (m_es s) -> 0 <= ext4_blocks_count (m_es s) < 2 ^ 64.
Proof.
  intros [_ Hb]. unfold ext4_blocks_count, read_incompat_64bit, s_blocks_count_hi, s_blocks_count_lo.
  pose proof (get32_range (m_es s) 0x150 Hb). pose proof (get32_range (m_es s) 0x4 Hb).
  rewrite Z.lor_comm. case_match; [rewrite lor_shiftl_add by lia; lia|rewrite Z.lor_0_r; lia].
Qed.

Lemma meta_block_ok_spec s b blk last sb_block i :
  gb_sb b = sb_block -> gb_last_bg b = u64 (sb_block + ext4_bg_num_gdb (m_sbi s) (m_es s) 0) ->
  gb_first b = group_start s i -> gb_last b = group_end s i -> 0 <= sb_block < 2 ^ 63 ->
  meta_block_ok (sb_rdonly s) b blk last = true <-> placed s sb_block i blk last.
Proof.
  intros Hsb Hbg Hf Hl Hr. unfold meta_block_ok, placed, reserved. rewrite Hsb, Hbg, Hf, Hl.
  rewrite (u64_small (sb_block + 1)) by lia. set (g := u64 (sb_block + _)).
  destruct (sb_rdonly s); cbn [negb]; rewrite ?andb_false_r, ?andb_true_r;
    repeat case_cmp; cbn; split; intros; try done; try lia;
    (split; [lia|]; split; [lia|]; intros; lia) || (exfalso; naive_solver lia).
Qed.

Lemma group_blocks_ok_spec s b gdp sb_block i :
  gb_sb b = sb_block -> gb_last_bg b = u64 (sb_block + ext4_bg_num_gdb (m_sbi s) (m_es s) 0) ->
  gb_first b = group_start s i -> gb_last b = group_end s i -> 0 <= sb_block < 2 ^ 63 ->
  group_blocks_ok s b gdp = true /\
  negb (ext4_group_desc_csum_verify (m_sbi s) (m_es s) i gdp) && negb (sb_rdonly s) = false <->
  group_placed s sb_block i gdp.
Proof.
  intros Hsb0 Hbg0 Hf0 Hl0 Hr0. unfold group_blocks_ok. cbv zeta. rewrite !andb_true_iff.
  rewrite !(meta_block_ok_spec s b _ _ sb_block i) by done. split.
  - intros [[[Hb Hi] Ht] Hc]. split; try done. intros Hro. rewrite Hro, andb_true_r in Hc.
    by apply negb_false_iff.
  - intros [Hb Hi Ht Hc]. split; [done|]. destruct (sb_rdonly s); [by rewrite andb_false_r|].
    by rewrite Hc.
Qed.

(** The bounds the loop computes are those of the group. *)
Lemma bounds_of_spec s sb_block last_bg i :
  geometry_ok s -> 0 <= i < s_groups_count (m_sbi s) ->
  let b := bounds_of s sb_block last_bg (group_start s i) i in
  gb_first b = group_start s i /\ gb_last b = group_end s i.
Proof.
  intros [Hs _ Ht _ Hg] Hi. split; [done|]. unfold bounds_of, group_end. cbn [gb_last].
  pose proof (blocks_count_range s (sz_es s Hs)) as Hr. destruct Hg as [Hf Hgc Hcov _].
  pose proof (ts_bpg s Ht) as Hbpg. rewrite (u32_small (s_groups_count (m_sbi s) - 1)) by lia.
  rewrite orb_comm. destruct (ext4_has_feature_flex_bg (m_es s)) eqn:Ef; cbn [orb].
  - apply u64_small. lia.
  - destruct (Z.eqb_spec i (s_groups_count (m_sbi s) - 1)); [apply u64_small; lia|].
    unfold group_start. rewrite Ef. rewrite (u64_small (_ - 1)) by lia. rewrite u64_small; [lia|nia].
Qed.

(** The start of the next group, as the loop computes it. *)
Lemma group_start_next s i :
  geometry_ok s -> 0 <= i -> i + 1 < s_groups_count (m_sbi s) ->
  (if ext4_has_feature_flex_bg (m_es s) then group_start s i
   else u64 (group_start s i + s_blocks_per_group (m_sbi s))) = group_start s (i + 1).
Proof.
  intros [Hs _ Ht _ Hg] Hlow Hi. pose proof (blocks_count_range s (sz_es s Hs)) as Hr.
  destruct Hg as [Hf Hgc Hcov _]. pose proof (ts_bpg s Ht) as Hbpg.
  unfold group_start. destruct (ext4_has_feature_flex_bg (m_es s)); [done|].
  rewrite u64_small by nia. lia.
Qed.

Lemma first_not_zeroed_next s i grp gdp :
  0 <= i < s_groups_count (m_sbi s) -> desc_of s i = Some gdp ->
  first_not_zeroed_upto s i grp ->
  first_not_zeroed_upto s (i + 1)
    (if (grp =? s_groups_count (m_sbi s)) && negb (gd_has_flag gdp EXT4_BG_INODE_ZEROED) then i else grp).
Proof.
  intros Hi Hd [[-> Hz]|(Hg & Hn & Hz)].
  - rewrite Z.eqb_refl. destruct (gd_has_flag gdp EXT4_BG_INODE_ZEROED) eqn:E; cbn [negb andb].
    + left. split; [done|]. intros j Hj. destruct (Z.eq_dec j i) as [->|]; [by exists gdp|apply Hz; lia].
    + right. split; [lia|]. split; [|intros; apply Hz; lia]. intros (g & Hg & Hf). congruence.
  - destruct (Z.eqb_spec grp (s_groups_count (m_sbi s))); [lia|]. cbn [andb]. right. split; [lia|done].
Qed.

(** What the loop establishes, from group [i] on. *)
Definition checked_from (s : mount) (sb_block i : Z) (held : list res) (r : option Z) (w : world mount) : Prop :=
  w_st w = s /\ w_held w = held /\
  match r with
  | Some f =>
      (forall j, i <= j < s_groups_count (m_sbi s) ->
         exists gdp, desc_of s j = Some gdp /\ group_placed s sb_block j gdp) /\
      first_not_zeroed_upto s (s_groups_count (m_sbi s)) f
  | None =>
      exists j gdp, i <= j < s_groups_count (m_sbi s) /\ desc_of s j = Some gdp /\
        ~ group_placed s sb_block j gdp
  end.

Lemma wp_check_groups s sb_block held n :
  geometry_ok s -> 0 <= sb_block < 2 ^ 63 -> mount_unlocked held ->
  (forall i, 0 <= i < s_groups_count (m_sbi s) -> is_Some (desc_of s i)) ->
  forall i first grp h, 0 <= i -> i + Z.of_nat n = s_groups_count (m_sbi s) ->
  (i < s_groups_count (m_sbi s) -> first = group_start s i) -> first_not_zeroed_upto s i grp ->
  wp (check_groups n sb_block (u64 (sb_block + ext4_bg_num_gdb (m_sbi s) (m_es s) 0)) first i grp)
    (checked_from s sb_block i held) (World s held h).
Proof.
  intros Hgeo Hsb Hu Hdesc. induction n as [|n IH]; intros i first grp h Hlow Hn Hfirst Hz; cbn [check_groups].
  - wp_step. do 2 (split; [done|]). split; [intros; lia|]. by replace (s_groups_count (m_sbi s)) with i by lia.
  - assert (Hi : 0 <= i < s_groups_count (m_sbi s)) by lia. rewrite (Hfirst (proj2 Hi)).
    do 2 wp_step. fold (desc_of s i). destruct (Hdesc i Hi) as [gdp Hd]. rewrite Hd.
    destruct (bounds_of_spec s sb_block (u64 (sb_block + ext4_bg_num_gdb (m_sbi s) (m_es s) 0)) i Hgeo Hi) as [Hb1 Hb2].
    set (b := bounds_of s _ _ _ i) in *.
    pose proof (group_blocks_ok_spec s b gdp sb_block i eq_refl eq_refl Hb1 Hb2 Hsb) as Hspec.
    destruct (group_blocks_ok s b gdp) eqn:Hok; cbn [negb].
    2: { wp_step. do 2 (split; [done|]). exists i, gdp. split; [lia|]. split; [done|]. rewrite <- Hspec. by intros []. }
    wp_step. apply wp_acquire; [apply Hu|]. cbn [w_st w_held w_calls].
    destruct (negb (ext4_group_desc_csum_verify _ _ _ _) && _) eqn:Hc.
    { repeat wp_step. do 2 (split; [done|]). exists i, gdp. split; [lia|]. split; [done|]. rewrite <- Hspec. by intros []. }
    do 2 wp_step. eapply wp_mono.
    + apply IH; [lia|lia| |by apply first_not_zeroed_next].
      intros Hlt. symmetry. rewrite <- group_start_next by (done || lia). by destruct (ext4_has_feature_flex_bg _).
    + intros r w' (Hs & Hh & Hr). do 2 (split; [done|]). destruct r as [f|].
      * destruct Hr as [Hr Hf]. split; [|done]. intros j Hj. destruct (Z.eq_dec j i) as [->|]; [|apply Hr; lia].
        exists gdp. split; [done|]. by apply Hspec.
      * destruct Hr as (j & g & Hj & Hr). exists j, g. split; [lia|done].
Qed.

Lemma wp_check_descriptors sb_block w :
  let s := w_st w in
  geometry_ok s -> 0 <= sb_block < 2 ^ 63 -> mount_unlocked (w_held w) ->
  (forall i, 0 <= i < s_groups_count (m_sbi s) -> is_Some (desc_of s i)) ->
  wp (ext4_check_descriptors sb_block) (checked_from s sb_block 0 (w_held w)) w.
Proof.
  intros s Hgeo Hsb Hu Hd. unfold ext4_check_descriptors. do 2 wp_step.
  destruct w as [s0 held h]. cbn [w_st w_held w_calls] in *. subst s.
  pose proof (gs_groups s0 (go_groups s0 Hgeo)). eapply wp_mono.
  - apply wp_check_groups; try done; [lia| |by left; split; [|intros; lia]].
    intros _. unfold group_start. case_match; lia.
  - intros [f|] w'; unfold checked_from; naive_solver.
Qed.

(** *** The buffers of a mount *)

Definition gdb_refs (l : list (Z * list Z)) : list res := (fun x => bh x.1) <$> l.

(** The buffers a mount holds on top of [held]. *)
Definition opened (held : list res) (lsb : Z) (w : world mount) : Prop :=
  m_sbh (w_st w) = Some lsb /\ on_top (gdb_refs (m_gdb (w_st w)) ++ [bh lsb]) held (w_held w).

Lemma on_top_unlocked (l : list Z) h0 held :
  on_top (bh <$> l) h0 held -> mount_unlocked h0 -> mount_unlocked held.
Proof.
  intros (k & -> & Hk) Hu n. rewrite !existsb_app.
  assert (Hx : forall r, existsb (blocks_on (Excl r)) k = false).
  { intros r. destruct (existsb _ k) eqn:E; [|done]. apply existsb_exists in E as (x & Hx & Hb).
    apply list_elem_of_In in Hx. rewrite Hk in Hx. by apply list_elem_of_fmap in Hx as (y & -> & _). }
  by rewrite !Hx, (proj1 (Hu n)), (proj2 (Hu n)).
Qed.

Lemma opened_unlocked held lsb w : opened held lsb w -> mount_unlocked held -> mount_unlocked (w_held w).
Proof.
  intros [_ Ho]. apply (on_top_unlocked ((fst <$> m_gdb (w_st w)) ++ [lsb])).
  by rewrite fmap_app, <- list_fmap_compose.
Qed.

(** *** Refusals *)

(** A mount refused with [err]. *)
Definition refused (held : list res) (r : Z * Z) (w : world mount) : Prop := r.1 <> 0 /\ w_held w = held.

Lemma wp_failed_mount held lsb e (Q : Z * Z -> world mount -> Prop) w :
  m_sbh (w_st w) = Some lsb -> on_top [bh lsb] held (w_held w) -> e <> 0 ->
  (forall r w', refused held r w' -> Q r w') -> wp (failed_mount e) Q w.
Proof.
  intros Hb Ho He HQ. unfold failed_mount. do 2 wp_step. rewrite Hb.
  assert (Hrel : forall h, wp (brelse lsb) (fun _ => wp (kret (e, 0)) Q) (World (w_st w) (w_held w) h)).
  { intros h. unfold brelse. eapply wp_release_top; [exact Ho|]. intros held' Hh. wp_step. apply HQ.
    split; [done|]. by apply on_top_nil. }
  wp_step. destruct (s_chksum_driver _); repeat wp_step; apply Hrel.
Qed.

Lemma wp_brelse_all l rest held (Q : unit -> world mount -> Prop) w :
  on_top (gdb_refs l ++ rest) held (w_held w) ->
  (forall h, on_top rest held h -> Q tt (World (w_st w) h (w_calls w))) -> wp (brelse_all l) Q w.
Proof.
  revert w. induction l as [|[b x] l IH]; intros w Ho HQ; cbn [brelse_all].
  - wp_step. destruct w. by apply HQ.
  - wp_step. unfold brelse. eapply wp_release_top; [exact Ho|]. intros h Hh. apply IH; [done|].
    intros h' Hh'. by apply HQ.
Qed.

Lemma wp_failed_mount3 held lsb e (Q : Z * Z -> world mount -> Prop) w :
  opened held lsb w -> e <> 0 ->
  (forall r w', refused held r w' -> Q r w') -> wp (failed_mount3 e) Q w.
Proof.
  intros [Hb Ho] He HQ. unfold failed_mount3, ext4_group_desc_free. do 3 wp_step.
  eapply wp_brelse_all; [exact Ho|]. intros h Hh. by apply (wp_failed_mount held lsb).
Qed.

(** *** Reading the descriptors *)

(** What a loop over descriptor blocks adds to the buffers. *)
Definition read_some (held : list res) (lsb : Z) (s : mount) (n : nat) (err : Z) (w : world mount) : Prop :=
  opened held lsb w /\
  exists l, w_st w = set_m_gdb l s /\ (err = 0 -> length l = (length (m_gdb s) + n)%nat).

Lemma wp_read_gdb held lsb n : mount_unlocked held -> forall i w,
  opened held lsb w -> wp (read_gdb n lsb i) (read_some held lsb (w_st w) n) w.
Proof.
  intros Hu. induction n as [|n IH]; intros i w Ho; cbn [read_gdb].
  - wp_step. split; [done|]. exists (m_gdb (w_st w)). split; [by destruct (w_st w)|lia].
  - do 3 wp_step. apply wp_bread; [by eapply opened_unlocked| |].
    + intros e h He. wp_step. split; [done|]. exists (m_gdb (w_st w)). split; [by destruct (w_st w)|done].
    + intros h. unfold update. do 2 wp_step. set (b := descriptor_loc _ _ _). set (x := disk_block _ _).
      set (w1 := World _ _ _). eapply wp_mono.
      * apply (IH (i + 1) w1). destruct Ho as [Hb Ho]. split; [done|]. subst w1. mount_cbn. cbn [w_st w_held].
        apply (on_top_permutation (bh b :: gdb_refs (m_gdb (w_st w)) ++ [bh lsb])); [|by apply on_top_cons].
        unfold gdb_refs. cbn [m_gdb set_m_gdb]. rewrite fmap_app. cbn [fmap list_fmap fst]. solve_Permutation.
      * intros err w2 (Ho2 & l & Hs & Hl). split; [done|]. exists l. split; [rewrite Hs; by destruct (w_st w)|].
        intros He. rewrite (Hl He). subst w1. mount_cbn. cbn [w_st m_gdb set_m_gdb]. rewrite length_app. cbn. lia.
Qed.

Lemma wp_breadahead lsb n (Q : unit -> world mount -> Prop) : forall i w,
  (forall h, Q tt (World (w_st w) (w_held w) h)) -> wp (breadahead n lsb i) Q w.
Proof.
  induction n as [|n IH]; intros i w HQ; cbn [breadahead].
  - wp_step. destruct w. apply HQ.
  - do 4 wp_step. by apply IH.
Qed.

Lemma geometry_gdb l s : geometry_ok s -> geometry_ok (set_m_gdb l s).
Proof.
  intros [Hs (k & Hi) Ht Hc Hg].
  split; [by destruct Hs|by exists k|by destruct Ht|by destruct Hc|by destruct Hg].
Qed.

(** The number of descriptor blocks is enough for the groups. *)
Lemma db_count_enough s :
  geometry_ok s ->
  let db_count := u32 (u64 (s_groups_count (m_sbi s) + s_desc_per_block (m_meta s) - 1) / s_desc_per_block (m_meta s)) in
  0 <= db_count /\
  s_groups_count (m_sbi s) <= db_count * (s_blocksize (m_sbi s) / s_desc_size (m_sbi s)).
Proof.
  intros [Hs _ Ht _ Hg]. destruct (ts_desc s Ht) as (k & Hk & Hd & Hdpb & _).
  pose proof (sz_bits s Hs). pose proof (sz_lb s Hs). pose proof (sz_bs s Hs) as Hbs. unfold m_blocksize in Hbs.
  rewrite Hbs, Hd, Hdpb, pow2_div by lia. pose proof (pow2_range 0 (m_bits s - k) 16).
  pose proof (gs_groups s Hg) as Hgr. set (g := s_groups_count (m_sbi s)) in *. set (d := 2 ^ (m_bits s - k)) in *.
  rewrite u64_small by lia. pose proof (Z.div_mod (g + d - 1) d). pose proof (Z.mod_pos_bound (g + d - 1) d).
  assert (Hq : 0 <= (g + d - 1) / d < 2 ^ 32) by nia. rewrite u32_small by lia. nia.
Qed.

(** The outcome of the checks from the descriptors on. *)
Definition described (held : list res) (lsb : Z) (r : Z * Z) (w : world mount) : Prop :=
  opened held lsb w /\
  (r.1 = 0 -> geometry_ok (w_st w) /\ groups_checked (w_st w) lsb r.2).

Lemma wp_group_desc_init held lsb w :
  mount_unlocked held -> opened held lsb w -> m_gdb (w_st w) = [] -> geometry_ok (w_st w) ->
  0 <= lsb < 2 ^ 63 -> wp (ext4_group_desc_init lsb) (described held lsb) w.
Proof.
  intros Hu Ho Hg Hgeo Hlsb. unfold ext4_group_desc_init. do 2 wp_step.
  destruct (db_count_enough _ Hgeo) as [Hn Hen]. set (db_count := u32 _) in *.
  destruct (_ && _); [wp_step; by split|]. do 2 wp_step. destruct r as [|e|]; [|wp_step; by split..].
  wp_step. apply wp_breadahead. intros h. cbn [w_st w_held w_calls].
  set (w1 := World _ _ h). wp_step. eapply wp_mono; [by apply (wp_read_gdb held lsb _ Hu 0 w1)|].
  intros err w2 (Ho2 & l & Hs2 & Hl). destruct (err =? 0) eqn:Ee; cbn [negb].
  2: { wp_step. split; [done|]. reflect_bools. done. }
  reflect_bools. specialize (Hl Ee). subst w1. cbn [w_st] in *. rewrite Hg in Hl. cbn in Hl.
  assert (Hgeo2 : geometry_ok (w_st w2)) by (rewrite Hs2; by apply geometry_gdb).
  wp_step. eapply wp_mono.
  - apply wp_check_descriptors; [done|lia|by eapply opened_unlocked|].
    intros i Hi. apply mo_desc; [done|]. rewrite Hs2 in *. cbn [m_gdb set_m_gdb m_sbi] in *.
    rewrite length_fmap, Hl, Z2Nat.id by done. done.
  - intros r w3 (Hst & Hh & Hr). assert (Ho3 : opened held lsb w3).
    { unfold opened in *. by rewrite Hst, Hh. }
    destruct r as [f|]; wp_step; (split; [done|]); cbn [fst snd]; [|done]. intros _. rewrite Hst. by split.
Qed.

(** *** The whole sequence *)

(** A mount that holds the super block only, in a state with [P]. *)
Record at_stage (held : list res) (lsb : Z) (P : mount -> Prop) (w : world mount) : Prop := {
  as_sbh : m_sbh (w_st w) = Some lsb;
  as_gdb : m_gdb (w_st w) = [];
  as_held : w_held w = bh lsb :: held;
  as_state : P (w_st w)
}.

(** The outcome: refused with everything given back, or accepted. *)
Definition mounted (held : list res) (r : Z * Z) (w : world mount) : Prop :=
  refused held r w \/
  (r.1 = 0 /\ exists lsb, opened held lsb w /\ geometry_ok (w_st w) /\ groups_checked (w_st w) lsb r.2).

Lemma at_stage_mono held lsb (P P' : mount -> Prop) w :
  at_stage held lsb P w -> (P (w_st w) -> P' (w_st w)) -> at_stage held lsb P' w.
Proof. intros [? ? ? ?] HP. split; auto. Qed.

Lemma at_stage_step held lsb (P P' : mount -> Prop) s s' h h' :
  at_stage held lsb P (World s (bh lsb :: held) h) -> same_bufs s s' -> P' s' ->
  at_stage held lsb P' (World s' (bh lsb :: held) h').
Proof. intros [Hb Hg _ _] [Hb' Hg'] HP. split; cbn in *; congruence || done. Qed.

Lemma at_stage_world held lsb P w : at_stage held lsb P w -> w = World (w_st w) (bh lsb :: held) (w_calls w).
Proof. intros [_ _ Hh _]. destruct w. cbn in *. by rewrite Hh. Qed.

Lemma stage_fail held lsb P e w :
  at_stage held lsb P w -> e <> 0 -> wp (failed_mount e) (mounted held) w.
Proof.
  intros [Hb Hg Hh _] He. apply (wp_failed_mount held lsb); try done.
  - rewrite Hh. by apply on_top_cons, on_top_nil.
  - intros r w' Hr. by left.
Qed.

(** A step that leaves for [failed_mount] on an error. *)
Lemma wp_or_fail held lsb (P P' : mount -> Prop) step (rest : K mount (Z * Z)) w :
  at_stage held lsb P w ->
  (forall w, at_stage held lsb P w ->
     wp step (fun err w' => at_stage held lsb (fun s => err = 0 -> P' s) w') w) ->
  (forall w, at_stage held lsb P' w -> wp rest (mounted held) w) ->
  wp (or_fail step failed_mount rest) (mounted held) w.
Proof.
  intros Hw Hstep Hrest. unfold or_fail. wp_step. eapply wp_mono; [by apply Hstep|].
  intros err w' Hw'. destruct (err =? 0) eqn:E; cbn [negb]; reflect_bools.
  - apply Hrest. eapply at_stage_mono; [exact Hw'|]. naive_solver.
  - eapply stage_fail; [exact Hw'|exact E].
Qed.

Lemma stage_run held lsb (P P' : mount -> Prop) f w :
  at_stage held lsb P w ->
  (forall s, P s -> same_bufs s (f s).2 /\ ((f s).1 = 0 -> P' (f s).2)) ->
  wp (run f) (fun err w' => at_stage held lsb (fun s => err = 0 -> P' s) w') w.
Proof.
  intros Hw Hf. apply wp_mount_run. rewrite (at_stage_world _ _ _ _ Hw) in Hw |- *. cbn [w_st w_held w_calls].
  destruct (Hf (w_st w) (as_state _ _ _ _ Hw)) as [Hs HP]. by eapply at_stage_step.
Qed.

Lemma stage_update held lsb (P P' : mount -> Prop) f (Q : unit -> world mount -> Prop) w :
  at_stage held lsb P w -> (forall s, P s -> same_bufs s (f s) /\ P' (f s)) ->
  (forall w', at_stage held lsb P' w' -> Q tt w') -> wp (update f) Q w.
Proof.
  intros Hw Hf HQ. unfold update. wp_step. apply HQ.
  rewrite (at_stage_world _ _ _ _ Hw) in Hw |- *. cbn [w_st w_held w_calls].
  destruct (Hf (w_st w) (as_state _ _ _ _ Hw)) as [Hs HP]. by eapply at_stage_step.
Qed.

(** *** Options leave the geometry alone *)

Lemma apply_qf_core i c s s0 : same_core s0 s -> same_core s0 (apply_qf_name i (c, s)).2.
Proof.
  intros Hs. unfold apply_qf_name. destruct (negb (qf_spec c i)); [done|]. cbn [snd].
  etrans; [exact Hs|]. unfold when. destruct (is_some_name _ _); by split.
Qed.

Lemma apply_options_core c s : same_core s (ext4_apply_options c s).2.
Proof.
  unfold ext4_apply_options. cbv zeta. set (s1 := when _ _ _).
  assert (H1' : same_core s s1) by (subst s1; unfold when; destruct (has_spec _ _); by split).
  assert (Hq : same_core s (ext4_apply_quota_options c s1).2).
  { unfold ext4_apply_quota_options. destruct (_ || _); [done|].
    destruct (if has_spec c EXT4_SPEC_JQUOTA then _ else _) as [c2 s2] eqn:E.
    assert (H2' : same_core s s2).
    { destruct (has_spec c EXT4_SPEC_JQUOTA); [|by injection E as _ <-].
      replace s2 with (apply_qf_name PRJQUOTA (apply_qf_name GRPQUOTA (apply_qf_name USRQUOTA (c, s1)))).2
        by (by rewrite E).
      destruct (apply_qf_name USRQUOTA (c, s1)) as [c3 s3] eqn:E3.
      assert (H3' : same_core s s3).
      { change s3 with (c3, s3).2. rewrite <- E3. by apply apply_qf_core. }
      destruct (apply_qf_name GRPQUOTA (c3, s3)) as [c4 s4] eqn:E4. apply apply_qf_core.
      change s4 with (c4, s4).2. rewrite <- E4. by apply apply_qf_core. }
    cbn [snd]. etrans; [exact H2'|]. unfold when. destruct (has_spec c2 _); [by split|reflexivity]. }
  destruct (ext4_apply_quota_options c s1) as [c2 s2]. cbn [snd] in Hq.
  unfold ext4_apply_test_dummy_encryption. cbv zeta. destruct (_ || _); [done|].
  cbn [snd]. etrans; [exact Hq|]. by split.
Qed.

(** The stage between the inodes and the features. *)
Definition ready (s : mount) : Prop := sized s /\ inodes_sized s.
Lemma ready_core s s' : same_core s s' -> ready s -> ready s'.
Proof. intros Hc [Hs Hi]. split; [by eapply sized_core|by eapply inodes_core]. Qed.

Lemma wp_parse_apply held lsb ctx w :
  at_stage held lsb ready w ->
  wp (parse_apply_sb_mount_options ctx) (fun _ w' => at_stage held lsb ready w') w.
Proof.
  intros Hw. assert (Hq : forall h, at_stage held lsb ready (World (w_st w) (w_held w) h)).
  { intros h. by destruct Hw. }
  unfold parse_apply_sb_mount_options. do 2 wp_step. destruct (getb _ _ =? 0); [by wp_step|].
  do 2 wp_step. destruct r; [|wp_step; apply Hq..]. do 2 wp_step. destruct r; [|wp_step; apply Hq..].
  do 2 wp_step. destruct r; [|wp_step; apply Hq..].
  destruct (parse_options _ _ _ _ _ _ _) as [ret c]. destruct (ret <? 0); [wp_step; apply Hq|].
  destruct (check_consistency _ _) as [ret2 c2]. destruct (ret2 <? 0); [wp_step; apply Hq|].
  wp_step. eapply (stage_update _ _ ready ready); [apply Hq| |intros w' Hw'; by wp_step].
  intros s Hs. pose proof (apply_options_core c2 s) as Hcore. split; [by apply core_bufs|by eapply ready_core].
Qed.

Lemma wp_mount_options held lsb ctx (rest : K mount (Z * Z)) w :
  at_stage held lsb ready w ->
  (forall w, at_stage held lsb ready w -> wp rest (mounted held) w) ->
  wp (mount_options ctx rest) (mounted held) w.
Proof.
  intros Hw Hrest. unfold mount_options. wp_step. eapply wp_mono; [by apply wp_parse_apply|].
  intros r w1 Hw1. destruct (r.1 <? 0) eqn:E; [reflect_bools; eapply stage_fail; [exact Hw1|lia]|].
  wp_step. eapply (stage_update _ _ ready ready); [exact Hw1| |].
  { intros s Hs. assert (Hcore : same_core s (set_m_def_opt2 (m_opt2 s) (set_m_def_opt (m_opt s) s))) by by split.
    split; [by apply core_bufs|by eapply ready_core]. }
  intros w2 Hw2. do 2 wp_step. destruct (check_consistency _ _) as [err c].
  destruct (err <? 0) eqn:E2; [reflect_bools; eapply stage_fail; [exact Hw2|lia]|].
  wp_step. eapply (stage_update _ _ ready ready); [exact Hw2| |exact Hrest].
  intros s Hs. pose proof (apply_options_core c s) as Hcore. split; [by apply core_bufs|by eapply ready_core].
Qed.

(** *** Checksums and encodings *)

Lemma csum_sized d x s : sized s -> sized (upd_sbi (fun i => sbi_set_csum (d i) (x i) i) s).
Proof. intros []. by split. Qed.

Lemma wp_metadata_csum held lsb w :
  at_stage held lsb sized w ->
  wp ext4_init_metadata_csum (fun err w' => at_stage held lsb (fun s => err = 0 -> sized s) w') w.
Proof.
  intros Hw. unfold ext4_init_metadata_csum. do 2 wp_step.
  destruct (negb (ext4_verify_csum_type _)); [wp_step; by eapply at_stage_mono|]. do 2 wp_step.
  assert (Hw' : at_stage held lsb sized (World (w_st w) (w_held w) (("crypto_alloc_shash"%string, []) :: w_calls w))).
  { by destruct Hw. }
  set (w1 := World _ _ _) in *. clearbody w1.
  assert (Hset : forall d x w (Q : unit -> world mount -> Prop), at_stage held lsb sized w ->
    (forall w', at_stage held lsb sized w' -> Q tt w') ->
    wp (update (upd_sbi (fun i => sbi_set_csum (d i) (x i) i))) Q w).
  { intros d x w2 Q Hw2 HQ. eapply stage_update; [exact Hw2| |exact HQ].
    intros s Hs. split; [done|by apply csum_sized]. }
  assert (Hrest : forall loaded, wp
    (update (upd_sbi (fun i => sbi_set_csum loaded (s_csum_seed i) i));;;
     s <~ kget;;
     let seed x := update (upd_sbi (fun i => sbi_set_csum (s_chksum_driver i) x i)) in
     if negb (ext4_superblock_csum_verify (m_sbi s) (m_es (w_st w))) then kret (- EFSBADCRC)
     else if ext4_has_feature_csum_seed (m_es (w_st w)) then seed (s_checksum_seed (m_es (w_st w)));;; kret 0
     else if ext4_has_metadata_csum (m_sbi s) (m_es (w_st w)) || ext4_has_feature_ea_inode (m_es (w_st w))
     then seed (ext4_chksum (2 ^ 32 - 1) (s_uuid (m_es (w_st w))));;; kret 0
     else kret 0) (fun err w' => at_stage held lsb (fun s => err = 0 -> sized s) w') w1).
  { intros ld. wp_step. apply (Hset (fun _ => ld) s_csum_seed); [done|]. intros w2 Hw2. do 2 wp_step. cbv zeta.
    destruct (negb _); [wp_step; by eapply at_stage_mono|].
    destruct (ext4_has_feature_csum_seed _);
      [|destruct (_ || _); [|wp_step; by eapply at_stage_mono]];
      (wp_step; apply (Hset s_chksum_driver (fun _ => _)); [done|]; intros w3 Hw3; wp_step; by eapply at_stage_mono). }
  destruct r as [|e|]; [apply Hrest| |apply Hrest].
  wp_step. apply (Hset (fun _ => false) s_csum_seed); [done|]. intros w2 Hw2. wp_step. by eapply at_stage_mono.
Qed.

Lemma wp_encoding held lsb w :
  at_stage held lsb ready w ->
  wp ext4_encoding_init (fun err w' => at_stage held lsb (fun s => err = 0 -> ready s) w') w.
Proof.
  intros Hw. unfold ext4_encoding_init. do 2 wp_step.
  destruct (negb CONFIG_UNICODE); [wp_step; by eapply at_stage_mono|].
  destruct (_ || _); [wp_step; by eapply at_stage_mono|].
  destruct (negb _); [wp_step; by eapply at_stage_mono|]. do 2 wp_step.
  assert (Hw' : forall h, at_stage held lsb ready (World (w_st w) (w_held w) h)) by (intros; by destruct Hw).
  destruct r as [|e|]; [|wp_step; by eapply at_stage_mono|].
  1,2: wp_step; eapply (stage_update _ _ ready ready); [apply Hw'| |intros w2 Hw2; wp_step; by eapply at_stage_mono];
    intros s Hs; (assert (Hcore : same_core s (set_m_encoding (Some (s_encoding_flags (m_es (w_st w)))) s)) by by split);
    (split; [by apply core_bufs|by eapply ready_core]).
Qed.

(** *** The geometry, step by step *)

Lemma same_core_run (f : mount -> Z * mount) (P : mount -> Prop) :
  (forall s, same_core s (f s).2) -> (forall s s', same_core s s' -> P s -> P s') ->
  forall s, P s -> same_bufs s (f s).2 /\ ((f s).1 = 0 -> P (f s).2).
Proof. intros Hf HP s Hs. split; [by apply core_bufs|intros _; by apply (HP s)]. Qed.

Definition with_tables (s : mount) : Prop := sized s /\ inodes_sized s /\ tables_sized s.
Definition with_clusters (s : mount) : Prop := with_tables s /\ clusters_sized s.

Lemma wp_mount_geometry held lsb silent w :
  mount_unlocked held -> 0 <= lsb < 2 ^ 63 -> at_stage held lsb ready w ->
  wp (mount_geometry silent lsb) (mounted held) w.
Proof.
  intros Hu Hlsb Hw. unfold mount_geometry.
  eapply (wp_or_fail _ _ ready ready); [exact Hw| |clear w Hw; intros w Hw].
  { intros w1 Hw1. eapply stage_run; [exact Hw1|].
    apply same_core_run; [apply compat_core|apply ready_core]. }
  eapply (wp_or_fail _ _ ready with_tables); [exact Hw| |clear w Hw; intros w Hw].
  { intros w1 Hw1. eapply stage_run; [exact Hw1|]. intros s [Hs Hi]. split; [apply meta_init_bufs|].
    intros He. destruct (meta_init_ok s Hs Hi He) as (? & ? & ? & _). by split_and!. }
  wp_step. eapply (stage_update _ _ with_tables with_tables); [exact Hw| |clear w Hw; intros w Hw].
  { intros s (Hs & Hi & Ht). split; [apply hash_init_same|by apply hash_init_ok]. }
  eapply (wp_or_fail _ _ with_tables with_clusters); [exact Hw| |clear w Hw; intros w Hw].
  { intros w1 Hw1. eapply stage_run; [exact Hw1|]. intros s (Hs & Hi & Ht). split; [apply clustersize_bufs|].
    intros He. destruct (clustersize_ok s Hs Hi Ht He) as (? & ? & ? & ? & _). by split_and!. }
  do 2 wp_step. repeat wp_step.
  set (w1 := World _ _ _). assert (Hw1 : at_stage held lsb with_clusters w1) by by destruct Hw.
  assert (Hadd : z = 0 -> ext4_blocks_count (m_es (w_st w1)) <= 2 ^ 63).
  { intros ->. destruct Hw as [_ _ _ [(Hs & _) _]]. eapply mo_addressable; [|done].
    pose proof (sz_bits _ Hs). pose proof (sz_lb _ Hs). lia. }
  eapply (wp_or_fail _ _ (fun s => with_clusters s /\ s = w_st w1) geometry_ok);
    [by destruct Hw1| |clear w1 Hw1 Hadd; intros w1 Hw1].
  { intros w2 Hw2. eapply stage_run; [exact Hw2|]. intros s [[(Hs & Hi & Ht) Hc'] ->]. split; [apply geometry_bufs|].
    intros He. by apply check_geometry_ok. }
  wp_step. assert (Ho : opened held lsb w1).
  { split; [apply Hw1|]. rewrite (as_gdb _ _ _ _ Hw1), (as_held _ _ _ _ Hw1). by apply on_top_cons, on_top_nil. }
  eapply wp_mono.
  - apply wp_group_desc_init; [done|exact Ho|apply Hw1|apply Hw1|done].
  - intros r w2 [Ho2 Hr]. destruct (r.1 =? 0) eqn:E; cbn [negb]; reflect_bools.
    + wp_step. right. split; [done|]. exists lsb. by destruct (Hr E).
    + eapply wp_failed_mount3; [exact Ho2|done|]. intros r' w' Hr'. by left.
Qed.

Lemma default_params_core s : same_core s (default_params s).
Proof. by split. Qed.
Lemma mount_flags_core s : same_core s (mount_flags s).
Proof. by split. Qed.
(** The whole sequence. *)
Lemma wp_fill_super_checks ctx silent w :
  mount_unlocked (w_held w) -> 0 <= m_sb_block (w_st w) < 2 ^ 32 -> m_gdb (w_st w) = [] ->
  wp (fill_super_checks ctx silent) (mounted (w_held w)) w.
Proof.
  intros Hu Hsb Hg. unfold fill_super_checks. wp_step.
  eapply wp_mono; [by apply wp_load_super|]. intros [err lsb] w1 (Hg1 & [[He Hh]|(He & Hs & Hb & Hh & Hr)]);
    cbn [fst snd] in *.
  { destruct (Z.eqb_spec err 0); [done|]. cbn [negb]. wp_step. left. by split. }
  subst err. cbn [Z.eqb negb].
  assert (Hw : at_stage (w_held w) lsb sized w1) by (split; [done|congruence|done|done]).
  eapply (wp_or_fail _ _ sized sized); [exact Hw|intros; by apply wp_metadata_csum|clear dependent w1; intros w1 Hw].
  wp_step. eapply (stage_update _ _ sized sized); [exact Hw| |clear w1 Hw; intros w1 Hw].
  { intros s Hs. pose proof (def_opts_core s). split; [by apply core_bufs|by eapply sized_core]. }
  wp_step. eapply (stage_update _ _ sized sized); [exact Hw| |clear w1 Hw; intros w1 Hw].
  { intros s Hs. pose proof (default_params_core s). split; [by apply core_bufs|by eapply sized_core]. }
  eapply (wp_or_fail _ _ sized ready); [exact Hw| |clear w1 Hw; intros w1 Hw].
  { intros w2 Hw2. eapply stage_run; [exact Hw2|]. apply inode_info_ok. }
  apply (wp_mount_options _ lsb); [done|clear w1 Hw; intros w1 Hw].
  eapply (wp_or_fail _ _ ready ready); [exact Hw|intros; by apply wp_encoding|clear w1 Hw; intros w1 Hw].
  eapply (wp_or_fail _ _ ready ready); [exact Hw| |clear w1 Hw; intros w1 Hw].
  { intros w2 Hw2. eapply stage_run; [exact Hw2|].
    apply same_core_run; [apply journal_mode_core|apply ready_core]. }
  wp_step. eapply (stage_update _ _ ready ready); [exact Hw| |clear w1 Hw; intros w1 Hw].
  { intros s Hs. pose proof (mount_flags_core s). split; [by apply core_bufs|by eapply ready_core]. }
  by apply wp_mount_geometry.
Qed.
End Descriptors.

(** ** Properties *)

(** C15: a mount either is refused, and then every buffer it read has been given back, or
    its geometry is consistent: block, inode and descriptor sizes are powers of two that
    divide each other, the groups cover the blocks and their inodes are the inodes, the
    bitmaps have a bit for every cluster and inode of a group; and the numbers of the bitmaps
    and of the inode table in the descriptor of every group are not below the start of the
    group, those of the bitmaps and of the table's last block are not above its end (with
    flexible groups: the file system's start and end), and unless read-only they are apart from the super
    block and the descriptors and the descriptor's checksum is valid.  The table's last block is
    the number the code computes, modulo 2^64 and with s_itb_per_group rounded down: the
    examples table_wraps_around and table_too_short are mounts it accepts.  No buffer is
    locked, no descriptor read, and the number of the super block has 32 bits at the start. *)
Theorem mount_checks `{MountEnvOk, !EnvErrno, !Csum, !OptionAnswers} ctx silent w :
  mount_unlocked (w_held w) -> 0 <= m_sb_block (w_st w) < 2 ^ 32 -> m_gdb (w_st w) = [] ->
  wp (fill_super_checks ctx silent) (mounted (w_held w)) w.
Proof. apply wp_fill_super_checks. Qed.
