(* ===== verification/MountUse.v ===== *)
(** * Mounting: what the rest of the program relies on

    The handlers of the other files take the numbers of a mounted file system as they are.
    A mount that was not refused gives them a geometry in which every inode and block number
    of the file system has one place: [evfs_inode_alloc] and [evfs_block_alloc] on such a
    file system take the bit of that place and no other. *)

From stdpp Require Import prelude list gmap strings.
From Stdlib Require Import ZArith Lia.
From S2P Require Import Prelude Kernel Bytes Layout Fs Block Inode Mount MountSuper MountSpec.

Local Open Scope Z_scope.

Section Places.

(** The place of a number [n] in rows of [k]. *)
Lemma rows_place n k rows :
  0 < k -> 0 <= n < rows * k -> 0 <= n / k < rows /\ 0 <= n mod k < k /\ n = n / k * k + n mod k.
Proof.
  intros Hk Hn. pose proof (Z.div_mod n k ltac:(lia)). pose proof (Z.mod_pos_bound n k Hk).
  split_and!; try lia; [apply Z.div_pos; lia|apply Z.div_lt_upper_bound; lia].
Qed.

(** The first block of a group that exists does not wrap around. *)
Lemma first_block_exact s g :
  geometry_ok s -> 0 <= g < s_groups_count (m_sbi s) ->
  ext4_group_first_block_no s g = g * s_blocks_per_group (m_sbi s) + s_first_data_block (m_es s) /\
  ext4_group_first_block_no s g < ext4_blocks_count (m_es s).
Proof.
  intros [Hs _ Ht _ Hg] Hr. pose proof (gs_first s Hg). pose proof (gs_cover s Hg). pose proof (ts_bpg s Ht).
  assert (Hb : ext4_blocks_count (m_es s) < 2 ^ 64) by apply blocks_count_range, (sz_es s Hs).
  assert (g * s_blocks_per_group (m_sbi s) <= (s_groups_count (m_sbi s) - 1) * s_blocks_per_group (m_sbi s))
    by (apply Z.mul_le_mono_nonneg_r; lia).
  assert (0 <= g * s_blocks_per_group (m_sbi s)) by (apply Z.mul_nonneg_nonneg; lia).
  unfold ext4_group_first_block_no. rewrite (u64_small (g * _)), u64_small by lia. lia.
Qed.

(** *** Inodes *)

(** Inode [n] is the [o]th inode of group [g]. *)
Definition inode_at (s : mount) (n g o : Z) : Prop :=
  0 <= g < s_groups_count (m_sbi s) /\ 0 <= o < s_inodes_per_group (m_sbi s) /\
  n = g * s_inodes_per_group (m_sbi s) + o + 1.

(** Inode [n] of the file system: its group and its place in it, as the handlers compute them. *)
Lemma inode_place s f n :
  geometry_ok s -> f_sbi f = m_sbi s -> 1 <= n <= s_inodes_count (m_es s) ->
  inode_at s n (inode_group f n) (inode_offset f n).
Proof.
  intros [Hs _ Ht _ Hg] Hf Hn. pose proof (gs_inodes s Hg) as Hc. pose proof (gs_groups s Hg).
  destruct (sz_es s Hs) as [_ Hb]. pose proof (get32_range (m_es s) 0 Hb) as Hmax.
  fold (s_inodes_count (m_es s)) in Hmax. destruct (ts_ipb s Ht) as (k & Hk & Hipb).
  pose proof (ts_ipg s Ht). pose proof (Z.pow_pos_nonneg 2 k ltac:(lia) ltac:(lia)).
  destruct (rows_place (n - 1) (s_inodes_per_group (m_sbi s)) (s_groups_count (m_sbi s))) as (Hq & Hr & He); [lia..|].
  unfold inode_at, inode_group, inode_offset. rewrite Hf, u64_small, u32_small by lia. split_and!; lia.
Qed.

(** *** Blocks *)

(** Block [b] is the [o]th block of group [g]. *)
Definition block_at (s : mount) (b g o : Z) : Prop :=
  0 <= g < s_groups_count (m_sbi s) /\ 0 <= o < s_blocks_per_group (m_sbi s) /\
  b = ext4_group_first_block_no s g + o.

Lemma block_place s b :
  geometry_ok s -> s_first_data_block (m_es s) <= b < ext4_blocks_count (m_es s) -> exists g o, block_at s b g o.
Proof.
  intros Hs Hb. pose proof Hs as [_ _ Ht _ Hg]. pose proof (gs_cover s Hg). pose proof (ts_bpg s Ht).
  destruct (rows_place (b - s_first_data_block (m_es s)) (s_blocks_per_group (m_sbi s)) (s_groups_count (m_sbi s)))
    as (Hq & Hr & He); [lia..|].
  eexists _, _. split; [exact Hq|]. split; [exact Hr|].
  destruct (first_block_exact s _ Hs Hq) as [-> _]. lia.
Qed.

(** The numbers of the block's group and its place in it. *)
Lemma block_numbers s b g o :
  geometry_ok s -> block_at s b g o ->
  (b - s_first_data_block (m_es s)) / s_blocks_per_group (m_sbi s) = g /\
  (b - s_first_data_block (m_es s)) mod s_blocks_per_group (m_sbi s) = o.
Proof.
  intros Hs (Hg & Ho & ->). destruct (first_block_exact s g Hs Hg) as [-> _].
  pose proof (ts_bpg s (go_tables s Hs)). split; symmetry;
    [apply (Z.div_unique_pos _ _ g o)|apply (Z.mod_unique_pos _ _ g o)]; lia.
Qed.

(** The cluster of a block of a group has a bit in the bitmap. *)
Lemma cluster_place s b g o :
  geometry_ok s -> block_at s b g o -> 0 <= EXT4_B2C (m_sbi s) o < s_clusters_per_group (m_sbi s).
Proof.
  intros [_ _ _ Hc _] (_ & Ho & _). destruct Hc as [Hb Hr _ Hbpg]. unfold EXT4_B2C.
  rewrite Z.shiftr_div_pow2 by lia. rewrite Hbpg, Hr in Ho.
  pose proof (Z.pow_pos_nonneg 2 (s_cluster_bits (m_sbi s)) ltac:(lia) ltac:(lia)).
  split; [apply Z.div_pos; lia|apply Z.div_lt_upper_bound; lia].
Qed.

Lemma inode_place_unique s n g o g' o' : inode_at s n g o -> inode_at s n g' o' -> g = g' /\ o = o'.
Proof.
  intros (Hg & Ho & E) (Hg' & Ho' & E').
  assert (g = g'); [|subst; lia]. apply (Z.div_mod_unique (s_inodes_per_group (m_sbi s)) g g' o o'); lia.
Qed.
End Places.

(** ** The handlers on a mounted file system *)

(** The state of the handlers begins with the super block and the numbers of the mount. *)
Record of_mount (s : mount) (f : fs) : Prop := {
  om_sbi : f_sbi f = m_sbi s;
  om_es : f_es f = m_es s
}.

(** What balloc.c computes for a block of the file system: its group, and the cluster of
    the group it lies in. *)
Definition group_numbering `{Balloc} : Prop :=
  forall sbi es b, 0 < s_blocks_per_group sbi -> s_first_data_block es <= b ->
  group_no_and_offset sbi es b =
    ((b - s_first_data_block es) / s_blocks_per_group sbi,
     EXT4_B2C sbi ((b - s_first_data_block es) mod s_blocks_per_group sbi)).

(** The inode handlers on [s]: an allocation that answers 0 takes the bit of the inode's
    place, which lies in the bitmap of an existing group, and in the eyes of the iterator
    that inode and no other is in use from then on. *)
Definition inodes_served `{Env} `{Csum} `{Balloc} (s : mount) : Prop :=
  forall f held calls n, of_mount s f -> tracker_ok f -> ialloc_unlocked n held ->
  1 <= n <= s_inodes_count (m_es s) ->
  exists g o ret f' calls',
    inode_at s n g o /\ o < 8 * m_blocksize s /\
    evfs_inode_alloc n (World f held calls) = Ret ret (World f' held calls') /\
    (ret <> 0 /\ f_ibm f' = f_ibm f \/
     Z.testbit (ibm_of f g) o = false /\ f_ibm f' = <[g := Z.setbit (ibm_of f g) o]> (f_ibm f) /\
     forall m, 1 <= m <= s_inodes_count (m_es s) ->
       inode_in_use f' m = bool_decide (m = n) || inode_in_use f m).

(** The block handler: it fails and changes nothing, or takes the bit of the block's
    cluster in the bitmap of an existing group. *)
Definition blocks_served `{Env} `{Csum} `{Balloc} (s : mount) : Prop :=
  forall f held calls b, of_mount s f -> no_block_lock held ->
  s_first_data_block (m_es s) <= b < ext4_blocks_count (m_es s) ->
  exists g o ret f' calls',
    block_at s b g o /\ EXT4_B2C (m_sbi s) o < s_clusters_per_group (m_sbi s) <= 8 * m_blocksize s /\
    evfs_block_alloc b (World f held calls) = Ret ret (World f' held calls') /\
    (ret < 0 /\ f' = f \/
     Z.testbit (bbm_of f g) (EXT4_B2C (m_sbi s) o) = false /\
     f_bbm f' = <[g := Z.setbit (bbm_of f g) (EXT4_B2C (m_sbi s) o)]> (f_bbm f)).

Section Served.
Context `{EnvFs} `{Csum} `{BallocOk}.

(** A taken bit is the bit of one inode. *)
Lemma in_use_after s f f' n m g o :
  geometry_ok s -> of_mount s f -> f_sbi f' = f_sbi f -> inode_at s n g o ->
  f_ibm f' = <[g := Z.setbit (ibm_of f g) o]> (f_ibm f) -> 1 <= m <= s_inodes_count (m_es s) ->
  inode_in_use f' m = bool_decide (m = n) || inode_in_use f m.
Proof.
  intros Hs [Hsbi Hes] Hf' Hn Hibm Hm.
  pose proof (inode_place s f m Hs Hsbi Hm) as Hat. pose proof Hat as (_ & Hom & Em).
  destruct (sz_es s (go_sized s Hs)) as [_ Hb]. pose proof (get32_range (m_es s) 0 Hb) as Hmax.
  fold (s_inodes_count (m_es s)) in Hmax.
  unfold inode_in_use. rewrite Hf'. rewrite (u32_small (m - 1)) by lia.
  assert (Hg : inode_group f m = (m - 1) / s_inodes_per_group (f_sbi f)).
  { unfold inode_group. rewrite u64_small by lia. apply u32_small. rewrite Hsbi.
    pose proof (ts_ipb s (go_tables s Hs)) as (k & Hk & E). pose proof (ts_ipg s (go_tables s Hs)).
    pose proof (Z.pow_pos_nonneg 2 k). split; [apply Z.div_pos; lia|].
    apply Z.div_lt_upper_bound; [lia|]. nia. }
  assert (Ho : inode_offset f m = (m - 1) mod s_inodes_per_group (f_sbi f)).
  { unfold inode_offset. by rewrite u64_small by lia. }
  rewrite <- Hg, <- Ho. destruct (decide (inode_group f m = g)) as [<-|Hne].
  - replace (ibm_of f' _) with (Z.setbit (ibm_of f (inode_group f m)) o)
      by (unfold ibm_of; by rewrite Hibm, lookup_insert_eq).
    destruct Hn as (_ & Hon & En). rewrite Z.setbit_eqb by lia. f_equal.
    case_bool_decide as E; apply eq_true_iff_eq; rewrite Z.eqb_eq; split; intros; try done; lia.
  - replace (ibm_of f' _) with (ibm_of f (inode_group f m))
      by (unfold ibm_of; by rewrite Hibm, lookup_insert_ne).
    rewrite bool_decide_eq_false_2; [done|]. intros ->. apply Hne.
    by destruct (inode_place_unique s n _ _ _ _ Hat Hn).
Qed.

Lemma serves_inodes s : kzalloc_ok -> geometry_ok s -> inodes_served s.
Proof.
  intros Hk Hs f held calls n Hf Ht Hul Hn. pose proof (inode_place s f n Hs (om_sbi _ _ Hf) Hn) as Hat.
  exists (inode_group f n), (inode_offset f n). pose proof Hat as (_ & Ho & _).
  pose proof (ts_ipg s (go_tables s Hs)).
  enough (Hwp : wp (evfs_inode_alloc n) (fun ret w' => w_held w' = held /\
    (ret <> 0 /\ f_ibm (w_st w') = f_ibm f \/
     Z.testbit (ibm_of f (inode_group f n)) (inode_offset f n) = false /\ f_sbi (w_st w') = f_sbi f /\
     f_ibm (w_st w') = <[inode_group f n := Z.setbit (ibm_of f (inode_group f n)) (inode_offset f n)]> (f_ibm f)))
    (World f held calls)).
  { apply wp_run in Hwp as (ret & [f' h' c'] & Hr & Hh & Hc). cbn in *. subst h'.
    exists ret, f', c'. split_and!; [exact Hat|lia|exact Hr|].
    destruct Hc as [Hc|(Hb & Hsbi & Hi)]; [by left|right]. split_and!; [done..|].
    intros m Hm. by eapply in_use_after. }
  apply wp_inode_alloc; [lia|rewrite (om_sbi _ _ Hf); lia|done..| | |].
  - intros ret c Hr. cbn. split; [done|]. by left.
  - intros ret f' c Hr Hb Hfr Hi. cbn. split; [done|]. right. destruct Hfr as (Hsbi & _). by split_and!.
  - intros f1 i c Hb _ _ (t' & -> & _) _. cbn. split; [done|]. right. by split_and!.
Qed.

Lemma serves_blocks s : group_numbering -> geometry_ok s -> blocks_served s.
Proof.
  intros Hgn Hs f held calls b Hf Hl Hb. pose proof (ts_bpg s (go_tables s Hs)) as Hbpg.
  pose proof (wp_block_alloc b f held calls) as Hwp. rewrite (om_sbi _ _ Hf), (om_es _ _ Hf) in Hwp.
  destruct (block_place s b Hs Hb) as (g & o & Hat).
  rewrite Hgn in Hwp by lia. destruct (block_numbers s b g o Hs Hat) as [Eg Eo]. rewrite Eg, Eo in Hwp.
  specialize (Hwp (fun ret w' => w_held w' = held /\ (ret < 0 /\ w_st w' = f \/
     Z.testbit (bbm_of f g) (EXT4_B2C (m_sbi s) o) = false /\
     f_bbm (w_st w') = <[g := Z.setbit (bbm_of f g) (EXT4_B2C (m_sbi s) o)]> (f_bbm f))) Hl).
  apply wp_run in Hwp as (ret & [f' h' c'] & Hr & Hh & Hc).
  - cbn in *. subst h'. exists g, o, ret, f', c'. split_and!; [exact Hat| | |exact Hr|exact Hc].
    + by eapply cluster_place.
    + apply (cs_cpg s (go_clusters s Hs)).
  - intros err c He. cbn. auto.
  - intros err c _ _ Hbit. cbn. auto.
Qed.
End Served.

(** ** Properties *)

(** C16: what a mount that was not refused gives the eVFS handlers.  On a file system with
    the super block and the numbers of the mount (and a well formed tracker whose bitmaps
    can be allocated, with the locks free), [evfs_inode_alloc] of an inode number
    1..s_inodes_count returns, and when it answers 0 it has set, in the inode bitmaps,
    exactly the clear bit of the inode's place: an existing group, below
    s_inodes_per_group and inside the bitmap block, from which the number can be read back;
    every inode of the file system is then in use for the iterator exactly when it was
    before or is that inode.  [evfs_block_alloc] of a block between s_first_data_block and
    ext4_blocks_count changes nothing or sets exactly the clear bit of the block's cluster
    in the bitmap of an existing group, inside the bitmap block, given that
    ext4_get_group_no_and_offset answers the quotient and the cluster of the remainder.  The
    hypotheses are those of the mount's checks. *)
Theorem mounted_serves_handlers
    `{Env, !EnvFs, MountEnv, Disk, !MountEnvOk, !EnvErrno, Csum, OptionAnswers, Balloc, !BallocOk} ctx silent w :
  mount_unlocked (w_held w) -> 0 <= m_sb_block (w_st w) < 2 ^ 32 -> m_gdb (w_st w) = [] ->
  kzalloc_ok -> group_numbering ->
  wp (fill_super_checks ctx silent) (fun r w' =>
    refused (w_held w) r w' \/
    r.1 = 0 /\ inodes_served (w_st w') /\ blocks_served (w_st w')) w.
Proof.
  intros Hu Hsb Hg Hk Hgn. eapply wp_mono; [by apply wp_fill_super_checks|].
  intros r w' [Hr|(He & lsb & _ & Hgeo & _)]; [by left|right].
  split_and!; [done|by apply serves_inodes|by apply serves_blocks].
Qed.
