(* ===== verification/SuperState.v ===== *)
(** * Error reports and the super block of a mounted file system (fs/ext4/super.c)

    [ext4_handle_error] notes an error in memory and decides by the option errors= how the
    file system goes on; [ext4_update_super] brings counters and errors to the buffer of the
    super block, which [ext4_commit_super] writes to the device and [update_super_work]
    hands to the journal.  A function that can report an error may panic: the result is then
    [None]. *)

From stdpp Require Import prelude list strings.
From Stdlib Require Import ZArith Lia.
From S2P Require Import Prelude Kernel Bytes Layout Mount MountOpts MountSuper.

Local Open Scope Z_scope.

(** ** Fields of struct ext4_super_block *)

Definition s_mnt_count (es : list Z) : Z := get16 es 0x34.
Definition s_max_mnt_count (es : list Z) : Z := get16 es 0x36.
Definition s_last_orphan (es : list Z) : Z := get32 es 0xE8.
Definition s_kbytes_written (es : list Z) : Z := le_get 8 es 0x178.
Definition s_error_count (es : list Z) : Z := get32 es 0x194.
Definition s_mmp_block (es : list Z) : Z := le_get 8 es 0x168.
Definition EXT4_VALID_FS : Z := 0x0001.
Definition EXT4_ERROR_FS : Z := 0x0002.
Definition EXT4_MAX_SUPP_REV : Z := EXT4_DYNAMIC_REV.
Definition EXT4_DFL_MAX_MNT_COUNT : Z := 20.

Definition EXT4_FEATURE_COMPAT_ORPHAN_FILE : Z := 0x1000.
Definition ext4_has_feature_orphan_file es := ext4_has_compat es EXT4_FEATURE_COMPAT_ORPHAN_FILE.
Definition ext4_has_feature_orphan_present es := ext4_has_ro_compat es EXT4_FEATURE_RO_COMPAT_ORPHAN_PRESENT.
Definition ext4_has_feature_journal_needs_recovery es := ext4_has_incompat es EXT4_FEATURE_INCOMPAT_RECOVER.
Definition ext4_has_feature_mmp es := ext4_has_incompat es EXT4_FEATURE_INCOMPAT_MMP.

(** A record of an error in the super block: offsets of its fields. *)
Record error_fields := ErrorFields {
  ef_time : Z; ef_time_hi : Z; ef_ino : Z; ef_block : Z; ef_func : Z; ef_line : Z; ef_code : Z
}.
Definition first_error : error_fields := ErrorFields 0x198 0x278 0x19C 0x1A0 0x1A8 0x1C8 0x27A.
Definition last_error : error_fields := ErrorFields 0x1CC 0x279 0x1D0 0x1D8 0x1E0 0x1D4 0x27B.

(** [ext4_update_tstamp] and [__ext4_update_tstamp] on fields of the super block. *)
Definition put_tstamp (es : list Z) (lo hi now : Z) : list Z :=
  let '(l, h) := ext4_update_tstamp now in putb (put32 es lo l) hi h.
Definition tstamp_of (es : list Z) (lo hi : Z) : Z := ext4_get_tstamp (get32 es lo) (getb es hi).

(** ** Error codes *)

Definition EROFS : Z := 30.
Definition EFBIG : Z := 27.
Definition ERANGE : Z := 34.
Definition EOVERFLOW : Z := 75.
Definition ESHUTDOWN : Z := 108.
Definition ENODEV : Z := 19.
Definition ENOTEMPTY : Z := 39.

Definition EXT4_ERR_UNKNOWN : Z := 1.
(** errno and code *)
Definition err_translation : list (Z * Z) :=
  [(EIO, 2); (ENOMEM, 3); (EFSBADCRC, 4); (EFSCORRUPTED, 5); (ENOSPC, 6); (ENOKEY, 7); (EROFS, 8); (EFBIG, 9);
   (EEXIST, 10); (ERANGE, 11); (EOVERFLOW, 12); (EBUSY, 13); (ENOTDIR, 14); (ENOTEMPTY, 15); (ESHUTDOWN, 16);
   (EFAULT, 17)].
Fixpoint translate (l : list (Z * Z)) (errno : Z) : Z :=
  match l with
  | [] => EXT4_ERR_UNKNOWN
  | (e, code) :: l => if e =? errno then code else translate l errno
  end.
Definition ext4_errno_to_code (errno : Z) : Z := translate err_translation errno.

(** ** The state *)

(** sbi->s_first_error_* and sbi->s_last_error_*; a name is its characters. *)
Record error_info := ErrorInfo {
  ei_code : Z;
  ei_line : Z;
  ei_ino : Z;
  ei_block : Z;
  ei_func : list Z;
  ei_time : Z
}.

Record super := Super {
  p_mount : mount;
  p_shutdown : bool;             (* EXT4_FLAGS_SHUTDOWN *)
  p_add_error_count : Z;
  p_first : error_info;
  p_last : error_info;
  p_work : bool;                 (* s_sb_upd_work is scheduled *)
  p_freeclusters : option Z;     (* the percpu counters, once they are initialised *)
  p_freeinodes : option Z;
  p_kbytes_written : Z;
  p_sectors_written_start : Z;
  p_disk : list (list Z);        (* what the super block on the device may be: after a failed write the
                                    old one or the new one *)
  p_logged : option (list Z)     (* the super block of the last transaction that has it *)
}.

Definition set_p_mount (x : mount) (s : super) : super :=
  Super x (p_shutdown s) (p_add_error_count s) (p_first s) (p_last s) (p_work s) (p_freeclusters s)
    (p_freeinodes s) (p_kbytes_written s) (p_sectors_written_start s) (p_disk s) (p_logged s).
Definition set_p_shutdown (x : bool) (s : super) : super :=
  Super (p_mount s) x (p_add_error_count s) (p_first s) (p_last s) (p_work s) (p_freeclusters s)
    (p_freeinodes s) (p_kbytes_written s) (p_sectors_written_start s) (p_disk s) (p_logged s).
Definition set_p_errors (count : Z) (first last : error_info) (s : super) : super :=
  Super (p_mount s) (p_shutdown s) count first last (p_work s) (p_freeclusters s)
    (p_freeinodes s) (p_kbytes_written s) (p_sectors_written_start s) (p_disk s) (p_logged s).
Definition set_p_work (x : bool) (s : super) : super :=
  Super (p_mount s) (p_shutdown s) (p_add_error_count s) (p_first s) (p_last s) x (p_freeclusters s)
    (p_freeinodes s) (p_kbytes_written s) (p_sectors_written_start s) (p_disk s) (p_logged s).
Definition set_p_disk (x : list (list Z)) (s : super) : super :=
  Super (p_mount s) (p_shutdown s) (p_add_error_count s) (p_first s) (p_last s) (p_work s) (p_freeclusters s)
    (p_freeinodes s) (p_kbytes_written s) (p_sectors_written_start s) x (p_logged s).
Definition set_p_logged (x : option (list Z)) (s : super) : super :=
  Super (p_mount s) (p_shutdown s) (p_add_error_count s) (p_first s) (p_last s) (p_work s) (p_freeclusters s)
    (p_freeinodes s) (p_kbytes_written s) (p_sectors_written_start s) (p_disk s) x.

Definition p_es (s : super) : list Z := m_es (p_mount s).
Definition p_sbi (s : super) : ext4_sb_info := m_sbi (p_mount s).
Definition p_rdonly (s : super) : bool := sb_rdonly (p_mount s).
Definition p_test_opt (s : super) (flag : Z) : bool := negb (test_opt (p_mount s) flag =? 0).
Definition upd_mount (f : mount -> mount) (s : super) : super := set_p_mount (f (p_mount s)) s.
Definition upd_es (f : list Z -> list Z) (s : super) : super := upd_mount (fun m => set_m_es (f (m_es m)) m) s.
Definition set_mount_state (x : Z) (s : super) : super := upd_mount (upd_sbi (sbi_set_mount_state (u16 x))) s.
Definition set_rdonly (s : super) : super := upd_mount (fun m => set_m_flags (Z.lor (m_flags m) SB_RDONLY) m) s.
Definition ext4_forced_shutdown (s : super) : bool := p_shutdown s.

(** The kernel's system_state. *)
Class SystemStates := {
  SYSTEM_HALT : Z;
  SYSTEM_POWER_OFF : Z;
  SYSTEM_RESTART : Z
}.

Section Super.
Context `{Env, Csum, SystemStates}.

(** ** Noting an error *)

Definition note_error (e : error_info) (s : super) : super :=
  set_p_errors (s32 (p_add_error_count s + 1)) (if ei_time (p_first s) =? 0 then e else p_first s) e s.

Definition save_error_info (error ino block : Z) (func : list Z) (line : Z) : K super unit :=
  let error := if error =? 0 then EFSCORRUPTED else error in
  acquire (Excl LError);;;
  now <~ call_int "ktime_get_real_seconds" [];;
  kmodify (note_error (ErrorInfo error line ino block func now));;;
  release (Excl LError).

(** ** The super block on the device *)

(** strncpy to a field of 32 bytes *)
Definition strncpy32 (f : list Z) : list Z := take 32 (f ++ replicate 32 0).

Definition put_error (f : error_fields) (e : error_info) (es : list Z) : list Z :=
  let es := put_tstamp es (ef_time f) (ef_time_hi f) (ei_time e) in
  let es := puts es (ef_func f) (strncpy32 (ei_func e)) in
  let es := put32 es (ef_line f) (ei_line e) in
  let es := put32 es (ef_ino f) (ei_ino e) in
  let es := le_put 8 es (ef_block f) (ei_block e) in
  putb es (ef_code f) (ext4_errno_to_code (ei_code e)).

(** The errors of [ext4_update_super] on the super block: the state and the two records. *)
Definition put_errors (s : super) (es : list Z) : list Z :=
  let es := put16 es 0x3A (Z.lor (s_state es) EXT4_ERROR_FS) in
  let es := if (get32 es (ef_time first_error) =? 0) && (getb es (ef_time_hi first_error) =? 0)
            then put_error first_error (p_first s) es else es in
  put_error last_error (p_last s) es.
(** The rest: the count. *)
Definition count_errors (s : super) : super :=
  set_p_errors 0 (p_first s) (p_last s)
    (upd_es (fun es => put32 es 0x194 (u32 (s_error_count es + p_add_error_count s))) s).

(** The lifetime writes in kilobytes. *)
Definition kbytes (s : super) (sectors : Z) : Z :=
  u64 (p_kbytes_written s + Z.shiftr (u64 (sectors - p_sectors_written_start s)) 1).

Definition put_counters (s : super) : super :=
  let s := match p_freeclusters s with
           | Some n => upd_es (fun es => ext4_free_blocks_count_set es
                                 (u64 (Z.shiftl (Z.max 0 n) (s_cluster_bits (p_sbi s))))) s
           | None => s end in
  match p_freeinodes s with
  | Some n => upd_es (fun es => put32 es 0x10 (u32 (Z.max 0 n))) s
  | None => s end.

(** Under [s_error_lock]. *)
Definition flush_errors : K super unit :=
  s <~ kget;;
  if 0 <? p_add_error_count s then
    kmodify (fun s => upd_es (put_errors s) s);;;
    s <~ kget;;
    (if s_error_count (p_es s) =? 0 then call_int "mod_timer" [] else kret 0);;;
    kmodify count_errors
  else kret tt.

Definition ext4_update_super : K super unit :=
  s <~ kget;;
  match m_sbh (p_mount s) with
  | None => koops
  | Some _ =>
      acquire (Excl LSbh);;;
      (if p_rdonly s then kret tt
       else now <~ call_int "ktime_get_real_seconds" [];;
            kmodify (upd_es (fun es => put_tstamp es 0x30 0x274 now)));;;
      sectors <~ call_int "part_stat_read" [];;
      kmodify (upd_es (fun es => le_put 8 es 0x178 (kbytes s sectors)));;;
      kmodify put_counters;;;
      acquire (Excl LError);;;
      flush_errors;;;
      release (Excl LError);;;
      kmodify (fun s => upd_es (ext4_superblock_csum_set (p_sbi s)) s);;;
      release (Excl LSbh)
  end.

(** A buffer whose write failed is used again. *)
Definition clear_write_error (b : Z) : K super unit :=
  failed <~ call_int "buffer_write_io_error" [b];;
  up <~ (if negb (failed =? 0) then kret 0 else call_int "buffer_uptodate" [b]);;
  if up =? 0 then call_int "clear_buffer_write_io_error" [b];;; call_int "set_buffer_uptodate" [b];;; kret tt
  else kret tt.

Definition ext4_commit_super : K super Z :=
  s <~ kget;;
  match m_sbh (p_mount s) with
  | None => kret (- EINVAL)
  | Some b =>
      dev <~ call_ptr "bdi_dev" [];;
      match dev with
      | PtrNull => kret (- ENODEV)      (* block_device_ejected *)
      | _ =>
          ext4_update_super;;;
          acquire (Excl LSbh);;;
          mapped <~ call_int "buffer_mapped" [b];;
          if mapped =? 0 then release (Excl LSbh);;; kret (- EIO) else
          clear_write_error b;;;
          acquire (bh b);;;
          call_int "clear_buffer_dirty" [b];;;
          call_int "submit_bh" [b; if p_test_opt s EXT4_MOUNT_BARRIER then 1 else 0];;;
          (* end_buffer_write_sync *)
          release (Excl LSbh);;; release (bh b);;;
          failed <~ call_int "buffer_write_io_error" [b];;
          if negb (failed =? 0) then
            kmodify (fun s => set_p_disk (p_es s :: p_disk s) s);;;
            call_int "clear_buffer_write_io_error" [b];;; call_int "set_buffer_uptodate" [b];;;
            kret (- EIO)
          else
            kmodify (fun s => set_p_disk [p_es s] s);;;
            kret 0
      end
  end.

(** ** The work that writes the super block later *)

Definition write_directly : K super unit :=
  ext4_commit_super;;; call_int "ext4_notify_error_sysfs" [];;; kret tt.

Definition jbd2_journal_stop : K super unit :=
  release (Ref RHandle);;; call_int "jbd2_journal_stop" [];;; kret tt.

Definition update_super_work : K super unit :=
  kmodify (set_p_work false);;;
  s <~ kget;;
  match m_sbh (p_mount s) with
  | Some b =>
      if negb (p_rdonly s) && m_journal (p_mount s) then
        handle <~ call_ptr "jbd2_journal_start" [1];;
        match handle with
        | PtrErr _ => write_directly
        | _ =>
            acquire (Ref RHandle);;;
            err <~ call_int "jbd2_journal_get_write_access" [b];;
            if negb (err =? 0) then jbd2_journal_stop;;; write_directly else
            s <~ kget;;
            let call_notify_err := 0 <? p_add_error_count s in
            ext4_update_super;;;
            clear_write_error b;;;
            err <~ call_int "jbd2_journal_dirty_metadata" [b];;
            if negb (err =? 0) then jbd2_journal_stop;;; write_directly else
            kmodify (fun s => set_p_logged (Some (p_es s)) s);;;
            jbd2_journal_stop;;;
            if call_notify_err then call_int "ext4_notify_error_sysfs" [];;; kret tt else kret tt
        end
      else write_directly
  | None => write_directly
  end.

(** ** Handling an error *)

Definition system_going_down : K super bool :=
  st <~ call_int "system_state" [];;
  kret ((st =? SYSTEM_HALT) || (st =? SYSTEM_POWER_OFF) || (st =? SYSTEM_RESTART)).

Definition ext4_handle_error (force_ro : bool) (error ino block : Z) (func : list Z) (line : Z)
    : K super (option unit) :=
  s <~ kget;;
  let journal := m_journal (p_mount s) in
  let continue_fs := negb force_ro && p_test_opt s EXT4_MOUNT_ERRORS_CONT in
  kmodify (fun s => set_mount_state (Z.lor (s_mount_state (p_sbi s)) EXT4_ERROR_FS) s);;;
  (if negb continue_fs && negb (p_rdonly s) then
     kmodify (set_p_shutdown true);;;
     if journal then call_int "jbd2_journal_abort" [- EIO];;; kret tt else kret tt
   else kret tt);;;
  bdev_ro <~ call_int "bdev_read_only" [];;
  (if bdev_ro =? 0 then
     save_error_info error ino block func line;;;
     if continue_fs && journal then kmodify (set_p_work true)
     else ext4_commit_super;;; kret tt
   else kret tt);;;
  let finish :=
    s <~ kget;;
    if p_rdonly s || continue_fs then kret (Some tt)
    else kmodify set_rdonly;;; kret (Some tt) in
  if p_test_opt s EXT4_MOUNT_ERRORS_PANIC then
    down <~ system_going_down;;
    if down then finish else kret None
  else finish.

Definition __ext4_error (func : list Z) (line : Z) (force_ro : bool) (error block : Z) : K super (option unit) :=
  s <~ kget;;
  if ext4_forced_shutdown s then kret (Some tt) else
  call_int "fsnotify_sb_error" [if error =? 0 then EFSCORRUPTED else error];;;
  ext4_handle_error force_ro error 0 block func line.

Definition __ext4_error_inode (ino : Z) (func : list Z) (line block error : Z) : K super (option unit) :=
  s <~ kget;;
  if ext4_forced_shutdown s then kret (Some tt) else
  call_int "fsnotify_sb_error" [if error =? 0 then EFSCORRUPTED else error; ino];;;
  ext4_handle_error false error (u32 ino) block func line.

Definition __ext4_error_file (ino : Z) (func : list Z) (line block : Z) : K super (option unit) :=
  s <~ kget;;
  if ext4_forced_shutdown s then kret (Some tt) else
  call_int "fsnotify_sb_error" [EFSCORRUPTED; ino];;;
  ext4_handle_error false EFSCORRUPTED (u32 ino) block func line.

Definition __ext4_std_error (func : list Z) (line errno : Z) : K super (option unit) :=
  s <~ kget;;
  if ext4_forced_shutdown s then kret (Some tt) else
  handle <~ (if errno =? - EROFS then call_ptr "journal_current_handle" [] else kret PtrOk);;
  match handle with
  | PtrNull =>
      if p_rdonly s then kret (Some tt) else
      call_int "fsnotify_sb_error" [errno];;;
      ext4_handle_error false (- errno) 0 0 func line
  | _ =>
      call_int "fsnotify_sb_error" [if errno =? 0 then EFSCORRUPTED else errno];;;
      ext4_handle_error false (- errno) 0 0 func line
  end.

(** An error under the lock of group [grp]. *)
Definition __ext4_grp_locked_error (func : list Z) (line grp ino block : Z) : K super (option unit) :=
  s <~ kget;;
  if ext4_forced_shutdown s then kret (Some tt) else
  if p_test_opt s EXT4_MOUNT_ERRORS_CONT then
    kmodify (fun s => set_mount_state (Z.lor (s_mount_state (p_sbi s)) EXT4_ERROR_FS) s);;;
    bdev_ro <~ call_int "bdev_read_only" [];;
    (if bdev_ro =? 0 then
       save_error_info EFSCORRUPTED (u32 ino) block func line;;;
       kmodify (set_p_work true)
     else kret tt);;;
    kret (Some tt)
  else
    release (Excl (LGroup grp));;;
    r <~ ext4_handle_error false EFSCORRUPTED (u32 ino) block func line;;
    match r with
    | None => kret None
    | Some _ => acquire (Excl (LGroup grp));;; kret (Some tt)
    end.
End Super.
