(* ===== verification/SuperSpec.v ===== *)
(** * Error reports: the log of errors

    The errors of a file system are a count, the first error and the last one.  They are
    kept in memory and, once written, in the super block; [error_log] is the abstraction
    over both.  A report adds to the log, an update of the super block leaves it alone. *)

From stdpp Require Import prelude list strings.
From Stdlib Require Import ZArith Lia.
From S2P Require Import Prelude Kernel Bytes Layout Mount MountOpts MountSuper SuperState.

Local Open Scope Z_scope.

(** ** The log *)

(** An error as the super block has it. *)
Record error_entry := ErrorEntry {
  en_time : Z; en_ino : Z; en_block : Z; en_func : list Z; en_line : Z; en_code : Z
}.
Definition entry_of (e : error_info) : error_entry :=
  ErrorEntry (Z.min (Z.max (ei_time e) 0) (2 ^ 40 - 1)) (u32 (ei_ino e)) (u64 (ei_block e))
    (u8 <$> strncpy32 (ei_func e)) (u32 (ei_line e)) (u8 (ext4_errno_to_code (ei_code e))).
Definition entry_at (f : error_fields) (es : list Z) : error_entry :=
  ErrorEntry (tstamp_of es (ef_time f) (ef_time_hi f)) (get32 es (ef_ino f)) (le_get 8 es (ef_block f))
    (gets es (ef_func f) 32) (get32 es (ef_line f)) (getb es (ef_code f)).

(** The super block has a first error. *)
Definition has_first (es : list Z) : bool :=
  negb ((get32 es (ef_time first_error) =? 0) && (getb es (ef_time_hi first_error) =? 0)).

(** What tells whether and how the file system can be mounted: features, revision, and the
    flag EXT4_VALID_FS. *)
Definition marks (es : list Z) : Z * Z * Z * Z * bool :=
  (s_feature_compat es, s_feature_incompat es, s_feature_ro_compat es, s_rev_level es, Z.testbit (s_state es) 0).
Lemma marks_same l es es' :
  same_off l es es' ->
  apart l 0x5C 4 && apart l 0x60 4 && apart l 0x64 4 && apart l 0x4C 4 = true ->
  apart l 0x3A 2 = true \/ Z.testbit (s_state es') 0 = Z.testbit (s_state es) 0 -> marks es' = marks es.
Proof.
  intros Hs Ha Hv. rewrite !andb_true_iff in Ha. destruct Ha as [[[H1 H2] H3] H4].
  unfold marks, s_feature_compat, s_feature_incompat, s_feature_ro_compat, s_rev_level.
  rewrite (same_off_get l es es' 4 _ Hs H1), (same_off_get l es es' 4 _ Hs H2), (same_off_get l es es' 4 _ Hs H3),
    (same_off_get l es es' 4 _ Hs H4). f_equal.
  destruct Hv as [Hv|Hv]; [|exact Hv]. unfold s_state. by rewrite (same_off_get l es es' 2 _ Hs Hv).
Qed.

Record error_log := ErrorLog { lg_count : Z; lg_first : option error_entry; lg_last : error_entry }.
Definition log_of (s : super) : error_log :=
  ErrorLog (u32 (s_error_count (p_es s) + p_add_error_count s))
    (if has_first (p_es s) then Some (entry_at first_error (p_es s))
     else if 0 <? p_add_error_count s then Some (entry_of (p_first s)) else None)
    (if 0 <? p_add_error_count s then entry_of (p_last s) else entry_at last_error (p_es s)).

(** One more error. *)
Definition add_entry (e : error_entry) (l : error_log) : error_log :=
  ErrorLog (u32 (lg_count l + 1)) (Some (default e (lg_first l))) e.

(** What memory and super block owe each other: an error not yet in the super block is after
    the first one in memory, and the first one in memory has reached the super block or is
    still to be written. *)
Record errors_ok (s : super) : Prop := {
  eo_es : es_wf (p_es s);
  eo_count : 0 <= p_add_error_count s;
  eo_time : 0 <= ei_time (p_first s);
  eo_pending : 0 < p_add_error_count s -> 0 < ei_time (p_first s);
  eo_first : ei_time (p_first s) <> 0 -> has_first (p_es s) = true \/ 0 < p_add_error_count s
}.

Lemma log_note e s :
  errors_ok s -> p_add_error_count s < 2 ^ 31 - 1 -> 0 < ei_time e ->
  log_of (note_error e s) = add_entry (entry_of e) (log_of s) /\ errors_ok (note_error e s).
Proof.
  intros [Hes Hc Ht Hp Hf] Hmax He.
  assert (Hadd : p_add_error_count (note_error e s) = p_add_error_count s + 1).
  { cbn. apply s32_small. lia. }
  split.
  - unfold log_of, add_entry. rewrite Hadd. cbn [lg_count lg_first p_es p_mount note_error set_p_errors p_first p_last].
    destruct (Z.ltb_spec 0 (p_add_error_count s + 1)); [|lia]. f_equal.
    + unfold u32, wrap. rewrite Zplus_mod_idemp_l. f_equal. unfold p_es, note_error. cbn. lia.
    + change (p_es (note_error e s)) with (p_es s). destruct (has_first (p_es s)) eqn:Eh; [done|].
      destruct (Z.ltb_spec 0 (p_add_error_count s)).
      * destruct (Z.eqb_spec (ei_time (p_first s)) 0); [lia|done].
      * destruct (Z.eqb_spec (ei_time (p_first s)) 0); [done|]. destruct Hf; [done|congruence|lia].
  - assert (Hn : 0 < ei_time (p_first (note_error e s))).
    { cbn. destruct (Z.eqb_spec (ei_time (p_first s)) 0); [done|lia]. }
    split; rewrite ?Hadd; [exact Hes|lia|lia|lia|]. intros _. right. lia.
Qed.

(** ** Writing an error to the super block *)

Definition error_ranges (f : error_fields) : list (Z * Z) :=
  [(ef_time f, 4); (ef_time_hi f, 1); (ef_func f, 32); (ef_line f, 4); (ef_ino f, 4); (ef_block f, 8); (ef_code f, 1)].

Lemma length_strncpy32 f : length (strncpy32 f) = 32%nat.
Proof. unfold strncpy32. rewrite length_take, length_app, length_replicate. lia. Qed.

Lemma same_off_tstamp es lo hi now : same_off [(lo, 4); (hi, 1)] es (put_tstamp es lo hi now).
Proof.
  unfold put_tstamp. destruct (ext4_update_tstamp now) as [l h].
  apply (same_off_app [(lo, 4)] [(hi, 1)] es (put32 es lo l)); [apply (same_off_put es lo 4 l)|apply same_off_putb].
Qed.
Lemma same_off_error f e es : same_off (error_ranges f) es (put_error f e es).
Proof.
  unfold put_error, error_ranges. pose proof (length_strncpy32 (ei_func e)) as Hl.
  eapply (same_off_app [(ef_time f, 4); (ef_time_hi f, 1)]); [apply same_off_tstamp|].
  eapply (same_off_app [(ef_func f, 32)]).
  { pose proof (same_off_puts (put_tstamp es (ef_time f) (ef_time_hi f) (ei_time e)) (ef_func f)
      (strncpy32 (ei_func e))) as Hs. rewrite Hl in Hs. exact Hs. }
  eapply (same_off_app [(ef_line f, 4)]); [apply (same_off_put _ _ 4)|].
  eapply (same_off_app [(ef_ino f, 4)]); [apply (same_off_put _ _ 4)|].
  eapply (same_off_app [(ef_block f, 8)]); [apply (same_off_put _ _ 8)|]. apply same_off_putb.
Qed.

Lemma length_put_tstamp es lo hi now : length (put_tstamp es lo hi now) = length es.
Proof. unfold put_tstamp. destruct (ext4_update_tstamp now). by autorewrite with len. Qed.
Lemma bytes_put_tstamp es lo hi now : bytes_ok es -> bytes_ok (put_tstamp es lo hi now).
Proof. unfold put_tstamp. destruct (ext4_update_tstamp now). auto with evfs. Qed.
Lemma put_tstamp_wf es lo hi now : es_wf es -> es_wf (put_tstamp es lo hi now).
Proof. intros [Hl Hb]. split; [by rewrite length_put_tstamp|by apply bytes_put_tstamp]. Qed.
Lemma put_error_wf f e es : es_wf es -> es_wf (put_error f e es).
Proof.
  intros [Hl Hb]. unfold put_error. split.
  - by autorewrite with len; rewrite length_put_tstamp.
  - auto 10 using bytes_put_tstamp with evfs.
Qed.

Lemma tstamp_put es lo hi now :
  0 <= lo -> lo + 4 <= Z.of_nat (length es) -> 0 <= hi < Z.of_nat (length es) -> lo + 4 <= hi ->
  tstamp_of (put_tstamp es lo hi now) lo hi = Z.min (Z.max now 0) (2 ^ 40 - 1).
Proof.
  intros Hlo Hl Hhi Hd. pose proof (tstamp_roundtrip now) as Ht. unfold tstamp_of, put_tstamp.
  destruct (ext4_update_tstamp now) as [l h]. destruct Ht as (<- & Hlr & Hhr).
  rewrite getb_putb_eq by (rewrite length_le_put; lia). rewrite le_get_putb_out, get32_put32_eq by lia.
  by rewrite u8_small, u32_small by (unfold in_u in *; lia).
Qed.

(** The two records: the offsets are in the super block and apart from each other. *)
Lemma error_layout f : f = first_error \/ f = last_error ->
  0 <= ef_time f /\ ef_time f + 4 <= ef_time_hi f < 1024 /\
  0 <= ef_ino f /\ ef_ino f + 4 <= ef_block f /\ ef_ino f + 4 <= ef_line f /\ ef_block f + 8 <= ef_func f /\
  (ef_line f + 4 <= ef_block f \/ ef_func f + 32 <= ef_line f) /\ (ef_line f + 4 <= ef_func f \/ ef_func f + 32 <= ef_line f) /\
  ef_line f + 4 <= ef_code f /\ ef_func f + 32 <= ef_code f < 1024 /\
  apart [(ef_func f, 32); (ef_line f, 4); (ef_ino f, 4); (ef_block f, 8); (ef_code f, 1)] (ef_time f) 4 = true /\
  apart [(ef_func f, 32); (ef_line f, 4); (ef_ino f, 4); (ef_block f, 8); (ef_code f, 1)] (ef_time_hi f) 1 = true.
Proof. intros [->| ->]; cbn; split_and!; (lia || reflexivity). Qed.

Lemma entry_put f e es :
  f = first_error \/ f = last_error -> es_wf es -> entry_at f (put_error f e es) = entry_of e.
Proof.
  intros Hf [Hl _]. unfold sizeof_ext4_super_block in Hl. pose proof (length_strncpy32 (ei_func e)) as Hn.
  destruct (error_layout f Hf) as (A1 & A2 & A3 & A4 & A5 & A6 & A7 & A8 & A9 & A10 & A11 & A12). clear Hf.
  unfold entry_at, entry_of, put_error.
  set (es1 := put_tstamp es (ef_time f) (ef_time_hi f) (ei_time e)).
  set (es2 := puts es1 (ef_func f) (strncpy32 (ei_func e))).
  set (es3 := put32 es2 (ef_line f) (ei_line e)). set (es4 := put32 es3 (ef_ino f) (ei_ino e)).
  set (es5 := le_put 8 es4 (ef_block f) (ei_block e)).
  assert (L1 : length es1 = length es) by apply length_put_tstamp.
  assert (L2 : length es2 = length es) by (unfold es2; by autorewrite with len).
  assert (L3 : length es3 = length es) by (unfold es3; by autorewrite with len).
  assert (L4 : length es4 = length es) by (unfold es4; by autorewrite with len).
  assert (L5 : length es5 = length es) by (unfold es5; by autorewrite with len).
  assert (S15 : same_off [(ef_func f, 32); (ef_line f, 4); (ef_ino f, 4); (ef_block f, 8); (ef_code f, 1)] es1
                  (putb es5 (ef_code f) (ext4_errno_to_code (ei_code e)))).
  { eapply (same_off_app [(ef_func f, 32)]).
    { pose proof (same_off_puts es1 (ef_func f) (strncpy32 (ei_func e))) as Hs. rewrite Hn in Hs. exact Hs. }
    eapply (same_off_app [(ef_line f, 4)]); [apply (same_off_put _ _ 4)|].
    eapply (same_off_app [(ef_ino f, 4)]); [apply (same_off_put _ _ 4)|].
    eapply (same_off_app [(ef_block f, 8)]); [apply (same_off_put _ _ 8)|]. apply same_off_putb. }
  f_equal.
  - unfold tstamp_of. rewrite (same_off_get _ _ _ 4 _ S15), (same_off_getb _ _ _ _ S15) by done.
    fold (tstamp_of es1 (ef_time f) (ef_time_hi f)). unfold es1. apply tstamp_put; lia.
  - rewrite le_get_putb_out by lia. unfold es5.
    rewrite le_get_put_out by lia. unfold es4.
    apply get32_put32_eq; lia.
  - rewrite le_get_putb_out by lia. unfold es5.
    apply le_get_put_eq; lia.
  - rewrite (gets_ext _ es2); [|intros i Hi].
    { unfold es2. rewrite <- Hn. apply gets_puts_u8; lia. }
    rewrite getb_putb_ne by lia.
    unfold es5, es4, es3. by rewrite !getb_put_out by lia.
  - rewrite le_get_putb_out by lia. unfold es5, es4.
    rewrite !le_get_put_out by lia. unfold es3.
    apply get32_put32_eq; lia.
  - apply getb_putb_eq. lia.
Qed.

(** A record does not change where nothing is stored. *)
Lemma error_entry_same f l es es' :
  same_off l es es' -> forallb (fun r => apart l r.1 r.2) (error_ranges f) = true -> entry_at f es' = entry_at f es.
Proof.
  intros Hs Ha. unfold error_ranges in Ha. cbn [forallb fst snd] in Ha. rewrite !andb_true_iff in Ha.
  destruct Ha as (H1 & H2 & H3 & H4 & H5 & H6 & H7 & _). unfold entry_at, tstamp_of.
  by rewrite (same_off_get l es es' 4 _ Hs H1), (same_off_getb l es es' _ Hs H2), (same_off_gets l es es' _ 32 Hs H3),
    (same_off_get l es es' 4 _ Hs H4), (same_off_get l es es' 4 _ Hs H5), (same_off_get l es es' 8 _ Hs H6),
    (same_off_getb l es es' _ Hs H7).
Qed.
Lemma first_same l es es' :
  same_off l es es' -> apart l (ef_time first_error) 4 && apart l (ef_time_hi first_error) 1 = true ->
  has_first es' = has_first es.
Proof.
  intros Hs Ha. apply andb_true_iff in Ha as [H1 H2]. unfold has_first.
  by rewrite (same_off_get l es es' 4 _ Hs H1), (same_off_getb l es es' _ Hs H2).
Qed.

(** A record with a time after 1970 counts as a first error. *)
Lemma has_first_put e es : es_wf es -> 0 < ei_time e -> has_first (put_error first_error e es) = true.
Proof.
  intros Hes Ht. pose proof (f_equal en_time (entry_put first_error e es (or_introl eq_refl) Hes)) as He.
  cbn [en_time entry_at entry_of] in He. unfold has_first, tstamp_of in *. destruct (_ && _) eqn:Hz; [|done].
  apply andb_true_iff in Hz as [Hz1 Hz2]. reflect_bools. rewrite Hz1, Hz2 in He. vm_compute ext4_get_tstamp in He. lia.
Qed.

(** ** The update of the super block *)

Section Update.
Context `{Env, Csum, SystemStates}.

(** What [ext4_update_super] leaves: the super block with write time, lifetime writes,
    counters, errors and checksum; [now] is [None] on a read-only file system. *)
Definition stamped (now : option Z) (s : super) : super :=
  match now with Some t => upd_es (fun es => put_tstamp es 0x30 0x274 t) s | None => s end.
Definition with_counters (now : option Z) (sectors : Z) (s : super) : super :=
  put_counters (upd_es (fun es => le_put 8 es 0x178 (kbytes s sectors)) (stamped now s)).
Definition with_errors (s : super) : super :=
  if 0 <? p_add_error_count s then count_errors (upd_es (put_errors s) s) else s.
Definition with_csum (s : super) : super := upd_es (ext4_superblock_csum_set (p_sbi s)) s.
Definition written (now : option Z) (sectors : Z) (s : super) : super :=
  with_csum (with_errors (with_counters now sectors s)).

Definition sb_unlocked (held : list res) : Prop :=
  existsb (blocks_on (Excl LSbh)) held = false /\ existsb (blocks_on (Excl LError)) held = false.

Lemma wp_update_super s held calls (Q : unit -> world super -> Prop) :
  m_sbh (p_mount s) <> None -> sb_unlocked held ->
  (forall now sectors calls, (now = None <-> p_rdonly s = true) -> Q tt (World (written now sectors s) held calls)) ->
  wp ext4_update_super Q (World s held calls).
Proof.
  intros Hb [Hsb Her] HQ. unfold ext4_update_super. wp_step. wp_step. destruct (m_sbh (p_mount s)) as [b|]; [|done].
  wp_step. wp_step. wp_step.
  assert (Hrest : forall now calls, (now = None <-> p_rdonly s = true) ->
    wp (sectors <~ call_int "part_stat_read" [];;
        kmodify (upd_es (fun es => le_put 8 es 0x178 (kbytes s sectors)));;;
        kmodify put_counters;;; acquire (Excl LError);;; flush_errors;;; release (Excl LError);;;
        kmodify (fun s => upd_es (ext4_superblock_csum_set (p_sbi s)) s);;; release (Excl LSbh)) Q
      (World (stamped now s) (Excl LSbh :: held) calls)).
  { intros now c Hn. repeat wp_step. unfold flush_errors. wp_step. wp_step.
    fold (with_counters now z s). set (s1 := with_counters now z s).
    assert (HQ' : forall c, Q tt (World (with_csum (with_errors s1)) held c)) by (intros; by apply HQ). clearbody s1.
    unfold with_errors in HQ'. destruct (0 <? p_add_error_count s1).
    - do 5 wp_step. match goal with |- wp (if ?b then _ else _) _ _ => destruct b end; repeat wp_step; apply HQ'.
    - repeat wp_step. apply HQ'. }
  destruct (p_rdonly s) eqn:Er.
  - wp_step. by apply (Hrest None).
  - do 3 wp_step. by apply (Hrest (Some z)).
Qed.

(** *** The parts of an update *)

(** A state with another super block. *)
Definition with_es (es : list Z) (s : super) : super := upd_es (fun _ => es) s.

Definition counters_ranges : list (Z * Z) := [(0x30, 4); (0x274, 1); (0x178, 8); (0xC, 4); (0x158, 4); (0x10, 4)].
Definition errors_ranges : list (Z * Z) :=
  (0x3A, 2) :: error_ranges first_error ++ error_ranges last_error ++ [(0x194, 4)].
Definition csum_range : list (Z * Z) := [(0x3FC, 4)].

Lemma put_wf es n off v : es_wf es -> es_wf (le_put n es off v).
Proof. intros [Hl Hb]. split; [by autorewrite with len|auto with evfs]. Qed.

(** More ranges. *)
Lemma same_off_more l l' b b' : (forall r, r ∈ l -> r ∈ l') -> same_off l b b' -> same_off l' b b'.
Proof.
  intros Hi. apply same_off_incl. intros i. rewrite !forallb_forall. intros Hl r Hr. apply Hl.
  apply list_elem_of_In, Hi. by apply list_elem_of_In.
Qed.
Ltac in_list := let Hr := fresh in intros ? Hr; rewrite !elem_of_cons in Hr; rewrite !elem_of_cons; tauto.

Lemma stamped_spec now s :
  es_wf (p_es s) ->
  stamped now s = with_es (p_es (stamped now s)) s /\ es_wf (p_es (stamped now s)) /\
  same_off [(0x30, 4); (0x274, 1)] (p_es s) (p_es (stamped now s)).
Proof.
  intros Hes. destruct now as [t|]; cbn [stamped].
  - split; [done|]. split; [by apply put_tstamp_wf|apply same_off_tstamp].
  - split; [by destruct s as [[] ? ? ? ? ? ? ? ? ? ? ?]|]. by split.
Qed.

Lemma put_counters_spec s :
  es_wf (p_es s) ->
  let es' := p_es (put_counters s) in
  put_counters s = with_es es' s /\ es_wf es' /\ same_off [(0xC, 4); (0x158, 4); (0x10, 4)] (p_es s) es' /\
  (forall n, p_freeclusters s = Some n ->
     ext4_free_blocks_count es' = u64 (Z.shiftl (Z.max 0 n) (s_cluster_bits (p_sbi s)))
                                  mod 2 ^ (if ext4_has_feature_64bit (p_es s) then 64 else 32)) /\
  (forall n, p_freeinodes s = Some n -> s_free_inodes_count es' = u32 (Z.max 0 n)).
Proof.
  intros Hes. unfold put_counters.
  set (s1 := match p_freeclusters s with Some n => _ | None => s end).
  assert (Hs1 : s1 = with_es (p_es s1) s /\ es_wf (p_es s1) /\ same_off [(0xC, 4); (0x158, 4)] (p_es s) (p_es s1) /\
    p_freeinodes s1 = p_freeinodes s /\
    (forall n, p_freeclusters s = Some n ->
       ext4_free_blocks_count (p_es s1) = u64 (Z.shiftl (Z.max 0 n) (s_cluster_bits (p_sbi s)))
                                          mod 2 ^ (if ext4_has_feature_64bit (p_es s) then 64 else 32))).
  { unfold s1. destruct (p_freeclusters s) as [n|] eqn:Ec.
    - split; [done|]. split; [by apply es_free_blocks_set_wf|]. split; [|split; [done|]].
      + unfold p_es at 2. cbn [p_mount upd_es upd_mount set_p_mount m_es set_m_es]. unfold ext4_free_blocks_count_set.
        eapply (same_off_app [(0xC, 4)]); apply (same_off_put _ _ 4).
      + intros n' [= <-]. by apply ext4_free_blocks_count_eq.
    - split_and!; try done. by destruct s as [[] ? ? ? ? ? ? ? ? ? ? ?]. }
  destruct Hs1 as (E1 & W1 & O1 & F1 & B1). rewrite F1. destruct (p_freeinodes s) as [n|].
  - split; [by rewrite E1|]. split; [by apply put_wf|]. split.
    { eapply (same_off_app [(0xC, 4); (0x158, 4)]); [exact O1|apply (same_off_put _ _ 4)]. }
    split.
    + intros n' Hn'. rewrite <- (B1 n' Hn'). unfold ext4_free_blocks_count, read_incompat_64bit, s_feature_incompat,
        s_free_blocks_count_hi, s_free_blocks_count_lo, p_es at 1 2 3. cbn [p_mount upd_es upd_mount set_p_mount m_es set_m_es].
      by rewrite !le_get_put_out by lia.
    + intros n' [= <-]. destruct W1 as [Hl _]. unfold sizeof_ext4_super_block, s_free_inodes_count in *.
      etrans; [apply get32_put32_eq; unfold p_es in Hl; lia|]. apply u32_small, u32_range.
  - split; [exact E1|]. split; [exact W1|]. split; [|by split].
    eapply same_off_more; [|exact O1]. in_list.
Qed.

(** The counters as the super block has them. *)
Record counters_in (s : super) (es : list Z) : Prop := {
  ci_clusters n : p_freeclusters s = Some n ->
    ext4_free_blocks_count es = u64 (Z.shiftl (Z.max 0 n) (s_cluster_bits (p_sbi s)))
                                mod 2 ^ (if ext4_has_feature_64bit (p_es s) then 64 else 32);
  ci_inodes n : p_freeinodes s = Some n -> s_free_inodes_count es = u32 (Z.max 0 n)
}.

Lemma with_counters_spec now sectors s :
  es_wf (p_es s) ->
  let es' := p_es (with_counters now sectors s) in
  with_counters now sectors s = with_es es' s /\ es_wf es' /\ same_off counters_ranges (p_es s) es' /\
  counters_in s es'.
Proof.
  intros Hes. destruct (stamped_spec now s Hes) as (E1 & W1 & O1).
  set (s2 := upd_es (fun es => le_put 8 es 0x178 (kbytes s sectors)) (stamped now s)).
  assert (W2 : es_wf (p_es s2)) by by apply put_wf.
  assert (O2 : same_off [(0x30, 4); (0x274, 1); (0x178, 8)] (p_es s) (p_es s2)).
  { eapply (same_off_app [(0x30, 4); (0x274, 1)]); [exact O1|apply (same_off_put _ _ 8)]. }
  assert (E2 : s2 = with_es (p_es s2) s) by (unfold s2; by rewrite E1).
  destruct (put_counters_spec s2 W2) as (E3 & W3 & O3 & B3 & I3). unfold with_counters. fold s2.
  split; [by rewrite E3, E2|]. split; [exact W3|]. split.
  - eapply (same_off_app [(0x30, 4); (0x274, 1); (0x178, 8)]); [exact O2|exact O3].
  - assert (Fc : p_freeclusters s2 = p_freeclusters s) by by rewrite E2.
    assert (Fi : p_freeinodes s2 = p_freeinodes s) by by rewrite E2.
    assert (Fs : p_sbi s2 = p_sbi s) by by rewrite E2.
    split; [|intros n Hn; apply I3; congruence]. intros n Hn. rewrite <- Fs, (B3 n) by congruence.
    unfold ext4_has_feature_64bit, ext4_has_incompat, s_feature_incompat.
    by rewrite (same_off_get _ _ _ 4 0x60 O2).
Qed.

Lemma with_errors_spec s :
  errors_ok s ->
  let es' := p_es (with_errors s) in
  with_errors s = with_es es' (set_p_errors 0 (p_first s) (p_last s) s) /\
  errors_ok (with_errors s) /\ same_off errors_ranges (p_es s) es' /\ log_of (with_errors s) = log_of s /\
  (0 < p_add_error_count s -> Z.testbit (s_state es') 1 = true) /\
  Z.testbit (s_state es') 0 = Z.testbit (s_state (p_es s)) 0.
Proof.
  intros [Hes Hc Ht Hp Hf]. unfold with_errors. destruct (Z.ltb_spec 0 (p_add_error_count s)) as [Hadd|Hadd].
  2:{ split; [|split; [done|split; [done|split; [done|split; [lia|done]]]]].
      destruct s as [[] ? a ? ? ? ? ? ? ? ? ?]. cbn in *. replace a with 0 by lia. done. }
  specialize (Hp Hadd). set (es1 := put16 (p_es s) 0x3A (Z.lor (s_state (p_es s)) EXT4_ERROR_FS)).
  set (es2 := if (get32 es1 (ef_time first_error) =? 0) && (getb es1 (ef_time_hi first_error) =? 0)
              then put_error first_error (p_first s) es1 else es1).
  set (es3 := put_error last_error (p_last s) es2).
  set (es4 := put32 es3 0x194 (u32 (s_error_count es3 + p_add_error_count s))).
  assert (Ees : p_es (count_errors (upd_es (put_errors s) s)) = es4) by done. rewrite Ees.
  assert (W1 : es_wf es1) by by apply put_wf.
  assert (W2 : es_wf es2) by (unfold es2; destruct (_ && _); [by apply put_error_wf|done]).
  assert (W3 : es_wf es3) by by apply put_error_wf.
  assert (W4 : es_wf es4) by by apply put_wf.
  assert (O1 : same_off [(0x3A, 2)] (p_es s) es1) by apply (same_off_put _ _ 2).
  assert (O2 : same_off (error_ranges first_error) es1 es2).
  { unfold es2. destruct (_ && _); [apply same_off_error|done]. }
  assert (O3 : same_off (error_ranges last_error) es2 es3) by apply same_off_error.
  assert (O4 : same_off [(0x194, 4)] es3 es4) by apply (same_off_put _ _ 4).
  assert (Hfirst : has_first es4 = true /\ lg_first (log_of s) = Some (entry_at first_error es4)).
  { assert (Hs1 : has_first es1 = has_first (p_es s)) by by apply (first_same [(0x3A, 2)]).
    pose proof (same_off_app _ _ _ _ _ O3 O4) as O34.
    rewrite (first_same _ _ _ O34) by reflexivity. rewrite (error_entry_same first_error _ _ _ O34) by reflexivity.
    unfold log_of. cbn [lg_first]. destruct (Z.ltb_spec 0 (p_add_error_count s)); [|lia]. rewrite <- Hs1. unfold es2.
    destruct (_ && _) eqn:Ez; unfold has_first at 2; rewrite Ez; cbn [negb].
    - split; [by apply has_first_put|]. f_equal. symmetry. apply entry_put; [by left|done].
    - split; [unfold has_first; by rewrite Ez|]. f_equal. symmetry. by apply (error_entry_same _ [(0x3A, 2)]). }
  destruct Hfirst as [Hfirst Hlog].
  split; [done|]. split.
  { split; [by rewrite Ees|done|exact Ht|intros; cbn in *; lia|]. intros _. left. by rewrite Ees. }
  split.
  { eapply (same_off_app [(0x3A, 2)]); [exact O1|]. eapply same_off_app; [exact O2|]. by eapply same_off_app. }
  split.
  - unfold log_of at 1. rewrite Ees, Hfirst. change (p_add_error_count (count_errors (upd_es (put_errors s) s))) with 0.
    cbn [Z.ltb Z.compare]. rewrite <- Hlog. unfold log_of at 1 2. cbn [lg_first]. destruct (Z.ltb_spec 0 (p_add_error_count s)); [|lia].
    f_equal.
    + pose proof (same_off_app _ _ _ _ _ O1 (same_off_app _ _ _ _ _ O2 O3)) as O13.
      assert (Ec : s_error_count es3 = s_error_count (p_es s)) by by apply (same_off_get _ _ _ 4 0x194 O13).
      rewrite Z.add_0_r. unfold s_error_count at 1, es4. destruct W3 as [Hl _]. unfold sizeof_ext4_super_block in Hl.
      rewrite get32_put32_eq by lia. rewrite Ec. rewrite !(u32_small (u32 _)); [done|apply u32_range..].
    + rewrite (error_entry_same last_error _ _ _ O4) by reflexivity. apply entry_put; [by right|done].
  - assert (Es : s_state es4 = u16 (Z.lor (s_state (p_es s)) EXT4_ERROR_FS)).
    { etrans; [apply (same_off_get _ _ _ 2 0x3A (same_off_app _ _ _ _ _ O2 (same_off_app _ _ _ _ _ O3 O4))); reflexivity|].
      destruct Hes as [Hl Hb]. unfold sizeof_ext4_super_block in Hl. apply get16_put16_eq; lia. }
    rewrite Es. unfold u16, wrap. rewrite !Z.mod_pow2_bits_low, !Z.lor_spec by lia.
    split; [by rewrite orb_true_r|]. by rewrite orb_false_r.
Qed.

(** A super block that differs away from the errors has the same log. *)
Lemma log_same l es s :
  same_off l (p_es s) es ->
  apart l 0x194 4 && forallb (fun r => apart l r.1 r.2) (error_ranges first_error ++ error_ranges last_error) = true ->
  log_of (with_es es s) = log_of s /\ (errors_ok s -> es_wf es -> errors_ok (with_es es s)).
Proof.
  intros Ho Ha. rewrite forallb_app, !andb_true_iff in Ha. destruct Ha as (Hc & Hf & Hl).
  assert (Eh : has_first es = has_first (p_es s)).
  { apply (first_same l); [done|]. pose proof Hf as Hf'. cbn [forallb error_ranges fst snd] in Hf'.
    rewrite !andb_true_iff in Hf'. apply andb_true_iff. tauto. }
  split.
  - unfold log_of. change (p_es (with_es es s)) with es. change (p_add_error_count (with_es es s)) with (p_add_error_count s).
    change (p_first (with_es es s)) with (p_first s). change (p_last (with_es es s)) with (p_last s).
    rewrite Eh, (error_entry_same first_error l _ _ Ho Hf), (error_entry_same last_error l _ _ Ho Hl).
    unfold s_error_count. by rewrite (same_off_get l _ _ 4 _ Ho Hc).
  - intros [Hes Hcn Ht Hp Hfi] Hw. split; [exact Hw|exact Hcn|exact Ht|exact Hp|].
    intros Hn. change (p_es (with_es es s)) with es. rewrite Eh. by apply Hfi.
Qed.

Lemma counters_same l s es es' :
  same_off l es es' -> apart l 0xC 4 && apart l 0x158 4 && apart l 0x60 4 && apart l 0x10 4 = true ->
  counters_in s es -> counters_in s es'.
Proof.
  intros Ho Ha [Hc Hi]. rewrite !andb_true_iff in Ha. destruct Ha as [[[Ha1 Ha2] Ha3] Ha4]. split.
  - intros n Hn. rewrite <- (Hc n Hn). unfold ext4_free_blocks_count, read_incompat_64bit, s_feature_incompat,
      s_free_blocks_count_hi, s_free_blocks_count_lo.
    by rewrite (same_off_get _ _ _ 4 _ Ho Ha1), (same_off_get _ _ _ 4 _ Ho Ha2), (same_off_get _ _ _ 4 _ Ho Ha3).
  - intros n Hn. rewrite <- (Hi n Hn). apply (same_off_get _ _ _ 4 _ Ho Ha4).
Qed.

(** What an update of the super block does. *)
Record flushed (s s' : super) : Prop := {
  fl_rest : s' = with_es (p_es s') (set_p_errors 0 (p_first s) (p_last s) s);
  fl_ok : errors_ok s';
  fl_log : log_of s' = log_of s;
  fl_csum : ext4_superblock_csum_verify (p_sbi s) (p_es s') = true;
  fl_counters : counters_in s (p_es s');
  fl_state : 0 < p_add_error_count s -> Z.testbit (s_state (p_es s')) 1 = true;
  fl_marks : marks (p_es s') = marks (p_es s);
  fl_off : same_off (counters_ranges ++ errors_ranges ++ csum_range) (p_es s) (p_es s')
}.

Lemma written_flushed now sectors s : errors_ok s -> flushed s (written now sectors s).
Proof.
  intros Hok. pose proof (eo_es s Hok) as Hes.
  destruct (with_counters_spec now sectors s Hes) as (E1 & W1 & O1 & C1). unfold written.
  set (s1 := with_counters now sectors s) in *.
  destruct (log_same counters_ranges (p_es s1) s O1 eq_refl) as [L1 K1]. rewrite <- E1 in L1, K1.
  specialize (K1 Hok W1).
  destruct (with_errors_spec s1 K1) as (E2 & K2 & O2 & L2 & S2 & V2). set (s2 := with_errors s1) in *.
  assert (A1 : p_add_error_count s1 = p_add_error_count s) by by rewrite E1.
  assert (B1 : p_sbi s2 = p_sbi s) by (rewrite E2, E1; done).
  set (es3 := ext4_superblock_csum_set (p_sbi s2) (p_es s2)).
  assert (O3 : same_off csum_range (p_es s2) es3).
  { unfold es3, ext4_superblock_csum_set. destruct (negb _); [done|apply (same_off_put _ _ 4)]. }
  change (with_csum s2) with (with_es es3 s2).
  destruct (log_same csum_range es3 s2 O3 eq_refl) as [L3 K3]. change (p_es (with_es es3 s2)) with es3.
  split; change (p_es (with_es es3 s2)) with es3.
  - rewrite E2, E1. done.
  - apply K3; [done|]. apply sb_csum_wf, (eo_es s2 K2).
  - by rewrite L3, L2, L1.
  - rewrite <- B1. apply sb_csum_verify, (eo_es s2 K2).
  - eapply (counters_same csum_range); [exact O3|reflexivity|].
    eapply (counters_same errors_ranges); [exact O2|reflexivity|exact C1].
  - rewrite <- A1. intros Ha. rewrite <- (S2 Ha). f_equal. apply (same_off_get _ _ _ 2 0x3A O3). reflexivity.
  - rewrite (marks_same _ _ _ O3), (marks_same _ _ _ O2), (marks_same _ _ _ O1); [done|reflexivity|..].
    all: try reflexivity; first [by left|by right].
  - eapply same_off_app; [exact O1|]. eapply same_off_app; [exact O2|exact O3].
Qed.
End Update.
