(* ===== verification/SuperReport.v ===== *)
(** * Error reports: what becomes of an error

    [ext4_handle_error], [ext4_commit_super] and [update_super_work] over the log of errors
    of SuperSpec.v. *)

From stdpp Require Import prelude list strings.
From Stdlib Require Import ZArith Lia.
From S2P Require Import Prelude Kernel Bytes Layout Mount MountOpts MountSuper SuperState SuperSpec.

Local Open Scope Z_scope.

Section Reports.
Context `{Env, Csum, SystemStates}.

(** ** Writing the super block *)

(** The end of a direct write: nothing was written, the write failed, or the device has it. *)
Definition committed (s : super) (r : Z) (s' : super) : Prop :=
  (r <> 0 /\ s' = s) \/
  exists s1, flushed s s1 /\
    ((r <> 0 /\ (s' = s1 \/ s' = set_p_disk (p_es s1 :: p_disk s1) s1)) \/ (r = 0 /\ s' = set_p_disk [p_es s1] s1)).

Lemma wp_clear_write_error b s held calls (Q : unit -> world super -> Prop) :
  (forall calls, Q tt (World s held calls)) -> wp (clear_write_error b) Q (World s held calls).
Proof.
  intros HQ. unfold clear_write_error. do 2 wp_step. wp_step.
  destruct (negb (z =? 0)); repeat wp_step;
    (match goal with |- context [if ?x =? 0 then _ else _] => destruct (x =? 0) end); repeat wp_step; apply HQ.
Qed.

Lemma wp_commit_super s held calls (Q : Z -> world super -> Prop) :
  errors_ok s -> sb_unlocked held ->
  (forall r s' calls, committed s r s' -> Q r (World s' held calls)) -> wp ext4_commit_super Q (World s held calls).
Proof.
  intros Hok Hul HQ. pose proof Hul as [Hsb Her]. unfold ext4_commit_super. wp_step. wp_step.
  destruct (m_sbh (p_mount s)) as [b|] eqn:Eb.
  2:{ wp_step. apply HQ. left. by split. }
  assert (Hgo : forall calls, wp (ext4_update_super;;;
      acquire (Excl LSbh);;; mapped <~ call_int "buffer_mapped" [b];;
      if mapped =? 0 then release (Excl LSbh);;; kret (- EIO) else
      clear_write_error b;;; acquire (bh b);;; call_int "clear_buffer_dirty" [b];;;
      call_int "submit_bh" [b; if p_test_opt s EXT4_MOUNT_BARRIER then 1 else 0];;;
      release (Excl LSbh);;; release (bh b);;; failed <~ call_int "buffer_write_io_error" [b];;
      if negb (failed =? 0) then
        kmodify (fun s => set_p_disk (p_es s :: p_disk s) s);;;
        call_int "clear_buffer_write_io_error" [b];;; call_int "set_buffer_uptodate" [b];;; kret (- EIO)
      else kmodify (fun s => set_p_disk [p_es s] s);;; kret 0) Q (World s held calls)).
  { intros c. wp_step. apply wp_update_super; [by rewrite Eb|exact Hul|]. intros now sectors c' _.
    pose proof (written_flushed now sectors s Hok) as Hfl. set (s1 := written now sectors s) in *. clearbody s1.
    wp_step. wp_step. wp_step. wp_step. destruct (z =? 0).
    { repeat wp_step. apply HQ. right. exists s1. split; [done|]. left. split; [done|by left]. }
    wp_step. apply wp_clear_write_error. intros c2. unfold bh. do 12 wp_step.
    match goal with |- context [negb (?x =? 0)] => destruct (negb (x =? 0)) end; repeat wp_step; apply HQ; right; exists s1;
      (split; [done|]); [left; split; [done|by right]|by right]. }
  wp_step. wp_step. match goal with |- context [match ?r with PtrOk => _ | PtrErr _ => _ | PtrNull => _ end] => destruct r end;
    [apply Hgo|apply Hgo|wp_step; apply HQ; left; by split].
Qed.

(** What writing keeps: everything but the super block, the errors still to be written and
    the copies. *)
Record kept (s s' : super) : Prop := {
  kp_mount : p_mount s' = set_m_es (p_es s') (p_mount s);
  kp_shutdown : p_shutdown s' = p_shutdown s;
  kp_ok : errors_ok s';
  kp_log : log_of s' = log_of s;
  kp_count : p_add_error_count s' <= p_add_error_count s;
  kp_marks : marks (p_es s') = marks (p_es s);
  kp_disk es : es ∈ p_disk s' -> es ∈ p_disk s \/ marks es = marks (p_es s)
}.
Lemma reported_refl s : errors_ok s -> kept s s.
Proof. intros Hok. split; try done; [by destruct s as [[] ? ? ? ? ? ? ? ? ? ? ?]|by left]. Qed.
Lemma kept_trans s1 s2 s3 : kept s1 s2 -> kept s2 s3 -> kept s1 s3.
Proof.
  intros [M1 D1 K1 L1 C1 F1 P1] [M2 D2 K2 L2 C2 F2 P2]. split; [by rewrite M2, M1|congruence|done|congruence|lia|congruence|].
  intros es Hes. destruct (P2 es Hes) as [Hes'|E]; [by apply P1|right; congruence].
Qed.

Lemma flushed_kept s s' : errors_ok s -> flushed s s' -> kept s s'.
Proof.
  intros Hs [Hr Hok Hl _ _ _ Hm _]. split; [by rewrite Hr|by rewrite Hr|done|done| |done|].
  - rewrite Hr. cbn. apply (eo_count s Hs).
  - rewrite Hr. by left.
Qed.
Lemma kept_disk x s s' :
  kept s s' -> (forall es, es ∈ x -> es = p_es s' \/ es ∈ p_disk s') -> kept s (set_p_disk x s').
Proof.
  intros [M D [? ? ? ? ?] L C F P] Hx. split; try done. intros es Hes.
  destruct (Hx es Hes) as [->|Hes']; [by right|by apply P].
Qed.
Lemma kept_logged x s s' : kept s s' -> kept s (set_p_logged x s').
Proof. intros [M D [? ? ? ? ?] L C F P]. by split. Qed.
Lemma kept_work x s s' : kept s s' -> kept s (set_p_work x s').
Proof. intros [M D [? ? ? ? ?] L C F P]. by split. Qed.

Lemma committed_kept s r s' : errors_ok s -> committed s r s' -> kept s s'.
Proof.
  intros Hok [[_ ->]|(s1 & Hf & [[_ [->| ->]]|[_ ->]])]; [by apply reported_refl|by apply flushed_kept|..];
    (apply kept_disk; [by apply flushed_kept|]); intros es; rewrite elem_of_cons; intros [->|Hes]; auto.
  by apply not_elem_of_nil in Hes.
Qed.
Lemma kept_rdonly s s' : kept s s' -> p_rdonly s' = p_rdonly s.
Proof. intros [M _ _ _ _ _ _]. unfold p_rdonly. by rewrite M. Qed.
Lemma kept_opt s s' f : kept s s' -> p_test_opt s' f = p_test_opt s f.
Proof. intros [M _ _ _ _ _ _]. unfold p_test_opt. by rewrite M. Qed.

(** ** The work *)

(** The super block is in the journal, or written directly. *)
Definition work_done (s s' : super) : Prop :=
  kept s s' /\ p_work s' = false /\
  ((p_logged s' = Some (p_es s') /\ p_add_error_count s' = 0 /\ p_rdonly s = false) \/
   exists s1 r, kept s s1 /\ committed s1 r s').

Lemma handle_unlocked held : sb_unlocked held -> sb_unlocked (Ref RHandle :: held).
Proof. intros [H2 H3]. by split. Qed.

Lemma committed_work s r s' : committed s r s' -> p_work s' = p_work s.
Proof. intros [[_ ->]|(s1 & Hf & Hr)]; [done|]. pose proof (fl_rest _ _ Hf) as E. destruct Hr as [[_ [->| ->]]|[_ ->]]; by rewrite E. Qed.
Lemma flushed_work s s' : flushed s s' -> p_work s' = p_work s.
Proof. intros Hf. by rewrite (fl_rest _ _ Hf). Qed.
Lemma flushed_count s s' : flushed s s' -> p_add_error_count s' = 0.
Proof. intros Hf. by rewrite (fl_rest _ _ Hf). Qed.

Lemma wp_write_directly s0 s held calls (Q : unit -> world super -> Prop) :
  kept s0 s -> p_work s = false -> sb_unlocked held ->
  (forall s' calls, work_done s0 s' -> Q tt (World s' held calls)) -> wp write_directly Q (World s held calls).
Proof.
  intros Hk Hw Hul HQ. unfold write_directly. wp_step. apply wp_commit_super; [apply Hk|done|].
  intros r s' c Hc. repeat wp_step. apply HQ. split; [|split].
  - eapply kept_trans; [exact Hk|]. eapply committed_kept; [apply Hk|exact Hc].
  - by rewrite (committed_work _ _ _ Hc).
  - right. by exists s, r.
Qed.

Lemma wp_update_super_work s held calls (Q : unit -> world super -> Prop) :
  errors_ok s -> sb_unlocked held ->
  (forall s' calls, work_done s s' -> Q tt (World s' held calls)) -> wp update_super_work Q (World s held calls).
Proof.
  intros Hok Hul HQ. unfold update_super_work. wp_step. wp_step. wp_step. wp_step.
  assert (K0 : kept s (set_p_work false s)) by by apply kept_work, reported_refl.
  set (s1 := set_p_work false s) in *.
  assert (W1 : p_work s1 = false) by done. assert (Hr : p_rdonly s1 = p_rdonly s) by done.
  destruct (m_sbh (p_mount s1)) as [b|] eqn:Eb; [|by eapply wp_write_directly].
  destruct (p_rdonly s1) eqn:Er; cbn [negb andb]; [by eapply wp_write_directly|].
  destruct (m_journal (p_mount s1)); [|by eapply wp_write_directly].
  clearbody s1. wp_step. wp_step.
  assert (Hgo : forall calls, wp (acquire (Ref RHandle);;;
      err <~ call_int "jbd2_journal_get_write_access" [b];;
      if negb (err =? 0) then jbd2_journal_stop;;; write_directly else
      s <~ kget;;
      let call_notify_err := 0 <? p_add_error_count s in
      ext4_update_super;;; clear_write_error b;;;
      err <~ call_int "jbd2_journal_dirty_metadata" [b];;
      if negb (err =? 0) then jbd2_journal_stop;;; write_directly else
      kmodify (fun s => set_p_logged (Some (p_es s)) s);;; jbd2_journal_stop;;;
      if call_notify_err then call_int "ext4_notify_error_sysfs" [];;; kret tt else kret tt) Q (World s1 held calls)).
  { intros c. wp_step. wp_step. wp_step. wp_step.
    destruct (negb (z =? 0)).
    { unfold jbd2_journal_stop. do 5 wp_step. by eapply wp_write_directly. }
    wp_step. wp_step. cbv zeta. wp_step.
    apply wp_update_super; [by rewrite Eb|by apply handle_unlocked|]. intros now sectors c' _.
    pose proof (written_flushed now sectors s1 (kp_ok _ _ K0)) as Hf. set (s2 := written now sectors s1) in *. clearbody s2.
    assert (K2 : kept s s2) by (eapply kept_trans; [exact K0|]; by apply flushed_kept; [apply K0|]).
    assert (W2 : p_work s2 = false) by by rewrite (flushed_work _ _ Hf).
    wp_step. apply wp_clear_write_error. intros c2. wp_step. wp_step.
    match goal with |- wp (if ?x then _ else _) _ _ => destruct x end.
    - unfold jbd2_journal_stop. do 5 wp_step. by eapply wp_write_directly.
    - unfold jbd2_journal_stop. do 6 wp_step.
      assert (Hd : work_done s (set_p_logged (Some (p_es s2)) s2)).
      { split; [by apply kept_logged|]. split; [done|]. left. split; [done|]. split; [exact (flushed_count s1 s2 Hf)|congruence]. }
      destruct (0 <? p_add_error_count s1); repeat wp_step; by apply HQ. }
  match goal with |- context [match ?r with PtrOk => _ | PtrErr _ => _ | PtrNull => _ end] => destruct r end;
    [apply Hgo|by eapply wp_write_directly|apply Hgo].
Qed.

(** ** A report *)

(** The clock is past 1970, and the device is writable or not. *)
Record outside_ok (writable : bool) : Prop := {
  oo_clock h : 0 < env_int h "ktime_get_real_seconds" [];
  oo_device h : (env_int h "bdev_read_only" [] =? 0) = writable
}.

(** The error a report notes. *)
Definition error_now (error ino block : Z) (func : list Z) (line now : Z) : error_info :=
  ErrorInfo (if error =? 0 then EFSCORRUPTED else error) line ino block func now.

Lemma wp_save_error_info error ino block func line s held calls (Q : unit -> world super -> Prop) :
  (forall h, 0 < env_int h "ktime_get_real_seconds" []) -> sb_unlocked held ->
  (forall now calls, 0 < now -> Q tt (World (note_error (error_now error ino block func line now) s) held calls)) ->
  wp (save_error_info error ino block func line) Q (World s held calls).
Proof.
  intros Hclock [Hsb Her] HQ. unfold save_error_info. wp_step. wp_step. wp_step. wp_step. do 3 wp_step.
  apply HQ. rewrite <- Hc. apply Hclock.
Qed.

(** The super block of the state has every error and its checksum. *)
Definition complete (s : super) : Prop :=
  p_add_error_count s = 0 /\
  Z.testbit (s_state (p_es s)) 1 = true /\ ext4_superblock_csum_verify (p_sbi s) (p_es s) = true.
(** What may be on the device was there before, or is the complete super block of the state. *)
Definition disk_ok (s s' : super) : Prop :=
  forall es, es ∈ p_disk s' -> es ∈ p_disk s \/ (es = p_es s' /\ complete s').

(** The state after the error was noted, and possibly written. *)
Record noted (writable cont : bool) (e0 : Z -> error_info) (s s' : super) : Prop := {
  nt_mount : p_mount s' = set_m_es (p_es s') (p_mount s);
  nt_shutdown : p_shutdown s' = p_shutdown s;
  nt_ok : errors_ok s';
  nt_log : if writable then exists now, 0 < now /\ log_of s' = add_entry (entry_of (e0 now)) (log_of s)
           else log_of s' = log_of s;
  nt_work : writable = true -> cont && m_journal (p_mount s) = true -> p_work s' = true;
  nt_disk : disk_ok s s';
  nt_count : p_add_error_count s' <= p_add_error_count s + 1;
  nt_marks : marks (p_es s') = marks (p_es s);
  nt_readonly : writable = false -> s' = s
}.

Lemma committed_disk s r s' :
  committed s r s' -> 0 < p_add_error_count s -> disk_ok s s'.
Proof.
  intros [[_ ->]|(s1 & Hf & Hr)] Ha es; [by left|].
  assert (Hc : complete s1).
  { split; [exact (flushed_count s s1 Hf)|]. split; [exact (fl_state s s1 Hf Ha)|].
    pose proof (fl_csum _ _ Hf) as Hv. assert (E : p_sbi s1 = p_sbi s) by by rewrite (fl_rest _ _ Hf). by rewrite <- E in Hv. }
  assert (Hd : p_disk s1 = p_disk s) by by rewrite (fl_rest _ _ Hf).
  destruct Hr as [[_ [->| ->]]|[_ ->]]; cbn [p_disk set_p_disk]; rewrite ?Hd, ?elem_of_cons.
  - by left.
  - intros [->|Hes]; [by right|by left].
  - intros [->|Hes]; [by right|by apply not_elem_of_nil in Hes].
Qed.

(** *** The part of [ext4_handle_error] that notes and writes the error *)
Lemma wp_note_and_write writable cont error ino block func line s held calls (rest : K super (option unit)) Q :
  outside_ok writable -> errors_ok s -> p_add_error_count s < 2 ^ 31 - 1 -> sb_unlocked held ->
  (forall s' calls, noted writable cont (error_now error ino block func line) s s' -> wp rest Q (World s' held calls)) ->
  wp (bdev_ro <~ call_int "bdev_read_only" [];;
      (if bdev_ro =? 0 then
        save_error_info error ino block func line;;;
        if cont && m_journal (p_mount s) then kmodify (set_p_work true) else ext4_commit_super;;; kret tt
      else kret tt);;; rest) Q (World s held calls).
Proof.
  intros [Hclock Hdev] Hok Hmax Hul HQ. wp_step. wp_step. wp_step. rewrite <- Hc, Hdev. destruct writable.
  2:{ wp_step. apply HQ. split; try done; [by destruct s as [[] ? ? ? ? ? ? ? ? ? ? ?]|by left|lia]. }
  wp_step. apply wp_save_error_info; [done|done|]. intros now c Hnow.
  set (e := error_now error ino block func line now).
  destruct (log_note e s Hok Hmax Hnow) as [Hl Hk].
  assert (Hadd : p_add_error_count (note_error e s) = p_add_error_count s + 1).
  { cbn. pose proof (eo_count s Hok). by rewrite s32_small by lia. }
  pose proof (eo_count s Hok) as Hcount.
  destruct (cont && m_journal (p_mount s)) eqn:Ecj.
  - wp_step. apply HQ. destruct Hk as [? ? ? ? ?].
    split; [by destruct s as [[] ? ? ? ? ? ? ? ? ? ? ?]|done|by split|by exists now|done|by left| |done|done].
    change (p_add_error_count (set_p_work true (note_error e s))) with (p_add_error_count (note_error e s)). lia.
  - wp_step. apply wp_commit_super; [done|done|]. intros r s' c' Hcm. wp_step. apply HQ.
    pose proof (committed_kept _ _ _ Hk Hcm) as [M D K L C F _].
    split; [by rewrite M|by rewrite D|done| |congruence| |lia|exact F|done].
    + exists now. split; [done|]. by rewrite L.
    + apply (committed_disk _ _ _ Hcm). lia.
Qed.

(** *** The whole report *)

Record handled (writable force_ro : bool) (e0 : Z -> error_info) (s : super) (r : option unit) (s' : super) : Prop := {
  hd_ok : errors_ok s';
  hd_state : Z.testbit (s_mount_state (p_sbi s')) 1 = true;
  hd_log : if writable then exists now, 0 < now /\ log_of s' = add_entry (entry_of (e0 now)) (log_of s)
           else log_of s' = log_of s;
  hd_opt f : p_test_opt s' f = p_test_opt s f;
  hd_journal : m_journal (p_mount s') = m_journal (p_mount s);
  hd_return : r = Some tt \/ p_test_opt s EXT4_MOUNT_ERRORS_PANIC = true;
  hd_mode : if negb force_ro && p_test_opt s EXT4_MOUNT_ERRORS_CONT
            then p_rdonly s' = p_rdonly s /\ p_shutdown s' = p_shutdown s /\
                 (writable = true -> m_journal (p_mount s) = true -> p_work s' = true)
            else (r = Some tt -> p_rdonly s' = true) /\ p_shutdown s' = p_shutdown s || negb (p_rdonly s);
  hd_disk : disk_ok s s';
  hd_count : p_add_error_count s' <= p_add_error_count s + 1;
  hd_mount : exists flags, (flags = m_flags (p_mount s) \/ flags = Z.lor (m_flags (p_mount s)) SB_RDONLY) /\
    p_mount s' = set_m_flags flags (set_m_es (p_es s') (p_mount (set_mount_state (Z.lor (s_mount_state (p_sbi s)) EXT4_ERROR_FS) s)));
  hd_marks : marks (p_es s') = marks (p_es s);
  hd_readonly : writable = false ->
    p_disk s' = p_disk s /\ p_es s' = p_es s /\ p_add_error_count s' = p_add_error_count s /\ p_work s' = p_work s
}.

Lemma set_flags_same m x : m_flags m = x -> set_m_flags x m = m.
Proof. intros <-. by destruct m. Qed.
Lemma set_rdonly_on s : p_rdonly (set_rdonly s) = true.
Proof.
  unfold p_rdonly, sb_rdonly, set_rdonly. cbn [p_mount upd_mount set_p_mount m_flags set_m_flags].
  destruct (Z.eqb_spec (Z.land (Z.lor (m_flags (p_mount s)) SB_RDONLY) SB_RDONLY) 0) as [E|]; [|done].
  apply (f_equal (fun x => Z.testbit x 0)) in E. revert E. rewrite Z.land_spec, Z.lor_spec, Z.bits_0.
  change (Z.testbit SB_RDONLY 0) with true. by rewrite orb_true_r.
Qed.

Lemma error_bit x : Z.testbit (u16 (Z.lor x EXT4_ERROR_FS)) 1 = true.
Proof. unfold u16, wrap. rewrite Z.mod_pow2_bits_low, Z.lor_spec by lia. by rewrite orb_true_r. Qed.

(** What the errors of a state depend on. *)
Lemma errors_same s s' :
  p_es s' = p_es s -> p_add_error_count s' = p_add_error_count s -> p_first s' = p_first s -> p_last s' = p_last s ->
  log_of s' = log_of s /\ (errors_ok s -> errors_ok s').
Proof.
  intros He Ha Hf Hl. split; [unfold log_of; by rewrite He, Ha, Hf, Hl|].
  intros [? ? ? ? ?]. split; rewrite ?He, ?Ha, ?Hf; done.
Qed.

Lemma wp_handle_error writable force_ro error ino block func line s held calls (Q : option unit -> world super -> Prop) :
  outside_ok writable -> errors_ok s -> p_add_error_count s < 2 ^ 31 - 1 -> sb_unlocked held ->
  (forall r s' calls, handled writable force_ro (error_now error ino block func line) s r s' ->
     Q r (World s' held calls)) ->
  wp (ext4_handle_error force_ro error ino block func line) Q (World s held calls).
Proof.
  intros Hout Hok Hmax Hul HQ. unfold ext4_handle_error. wp_step. wp_step. wp_step. wp_step.
  set (cont := negb force_ro && p_test_opt s EXT4_MOUNT_ERRORS_CONT) in *.
  set (s1 := set_mount_state (Z.lor (s_mount_state (p_sbi s)) EXT4_ERROR_FS) s).
  set (s2 := if negb cont && negb (p_rdonly s) then set_p_shutdown true s1 else s1).
  assert (K2 : log_of s2 = log_of s /\ (errors_ok s -> errors_ok s2)) by (apply errors_same; unfold s2; by destruct (negb cont && negb (p_rdonly s))).
  destruct K2 as [L2 K2]. specialize (K2 Hok).
  assert (M2 : p_mount s2 = p_mount s1) by (unfold s2; by destruct (negb cont && negb (p_rdonly s))).
  assert (D2 : p_disk s2 = p_disk s /\ p_add_error_count s2 = p_add_error_count s) by (unfold s2; destruct (negb cont && negb (p_rdonly s)); by split).
  assert (J2 : m_journal (p_mount s2) = m_journal (p_mount s)) by by rewrite M2.
  assert (S2 : p_shutdown s2 = p_shutdown s || (negb cont && negb (p_rdonly s))).
  { unfold s2. destruct (negb cont && negb (p_rdonly s)); cbn; by rewrite ?orb_true_r, ?orb_false_r. }
  (* the rest, from the state with the shutdown flag *)
  assert (Hrest : forall calls, wp (bdev_ro <~ call_int "bdev_read_only" [];;
    (if bdev_ro =? 0 then
       save_error_info error ino block func line;;;
       if cont && m_journal (p_mount s) then kmodify (set_p_work true) else ext4_commit_super;;; kret tt
     else kret tt);;;
    (if p_test_opt s EXT4_MOUNT_ERRORS_PANIC then
       down <~ system_going_down;;
       if down then
         s <~ kget;; if p_rdonly s || cont then kret (Some tt) else kmodify set_rdonly;;; kret (Some tt)
       else kret None
     else s <~ kget;; if p_rdonly s || cont then kret (Some tt) else kmodify set_rdonly;;; kret (Some tt))) Q
    (World s2 held calls)).
  { intros c. rewrite <- J2. apply (wp_note_and_write writable cont); [done|done|lia|done|]. intros s3 c3 Hn.
    destruct Hn as [M3 D3 K3 G3 W3 P3 C3 F3 Y3]. unfold disk_ok in P3; rewrite (proj1 D2) in P3. rewrite (proj2 D2) in C3. rewrite S2 in D3. rewrite L2 in G3. rewrite J2 in W3.
    assert (Y : writable = false ->
      p_disk s3 = p_disk s /\ p_es s3 = p_es s /\ p_add_error_count s3 = p_add_error_count s /\ p_work s3 = p_work s).
    { intros ->. rewrite Y3 by done. unfold s2. by destruct (negb cont && negb (p_rdonly s)). }
    assert (R3 : p_rdonly s3 = p_rdonly s) by (unfold p_rdonly; rewrite M3, M2; done).
    assert (O3 : forall f, p_test_opt s3 f = p_test_opt s f) by (intros f; unfold p_test_opt; rewrite M3, M2; done).
    assert (J3 : m_journal (p_mount s3) = m_journal (p_mount s)) by by rewrite M3.
    assert (E3 : Z.testbit (s_mount_state (p_sbi s3)) 1 = true).
    { unfold p_sbi. rewrite M3, M2. apply error_bit. }
    assert (F3' : marks (p_es s3) = marks (p_es s)) by (rewrite F3; unfold p_es; by rewrite M2).
    assert (M3' : p_mount s3 = set_m_es (p_es s3) (p_mount s1)) by by rewrite <- M2.
    assert (Hh : forall r, (cont = false -> r = Some tt -> p_rdonly s = true) ->
      r = Some tt \/ p_test_opt s EXT4_MOUNT_ERRORS_PANIC = true ->
      handled writable force_ro (error_now error ino block func line) s r s3).
    { intros r Hro Hr. split; try done; fold cont.
      - destruct cont; cbn [negb andb] in *.
        + rewrite orb_false_r in D3. split_and!; [done|done|]. intros Hw Hj. by apply W3.
        + split; [|done]. intros Hs. rewrite R3. by apply Hro.
      - exists (m_flags (p_mount s)). split; [by left|]. by rewrite set_flags_same. }
    assert (Hh' : cont = false ->
      handled writable force_ro (error_now error ino block func line) s (Some tt) (set_rdonly s3)).
    { intros Hcont. destruct (errors_same s3 (set_rdonly s3)) as [L4 K4]; [done..|]. specialize (K4 K3).
      split; [done|exact E3|by rewrite L4|exact O3|exact J3|by left| |exact P3|exact C3| |exact F3'|exact Y]; fold cont.
      - rewrite Hcont in *. split; [intros _; apply set_rdonly_on|exact D3].
      - exists (Z.lor (m_flags (p_mount s)) SB_RDONLY). split; [by right|].
        change (p_mount (set_rdonly s3)) with (set_m_flags (Z.lor (m_flags (p_mount s3)) SB_RDONLY) (p_mount s3)).
        by rewrite M3' at 1 2. }
    assert (Hfin : forall c, wp (s <~ kget;; if p_rdonly s || cont then kret (Some tt) else kmodify set_rdonly;;; kret (Some tt))
      Q (World s3 held c)).
    { intros c'. wp_step. wp_step. rewrite R3. destruct (p_rdonly s) eqn:Er; cbn [orb]; [|destruct cont eqn:Ec].
      - wp_step. apply HQ, Hh; [done|by left].
      - wp_step. apply HQ, Hh; [done|by left].
      - repeat wp_step. by apply HQ, Hh'. }
    destruct (p_test_opt s EXT4_MOUNT_ERRORS_PANIC) eqn:Ep; [|apply Hfin].
    unfold system_going_down. do 3 wp_step. wp_step.
    match goal with |- wp (if ?x then _ else _) _ _ => destruct x end; [apply Hfin|]. wp_step. apply HQ, Hh; [done|by right]. }
  wp_step. destruct (negb cont && negb (p_rdonly s)).
  - wp_step. wp_step. destruct (m_journal (p_mount s)); [do 3 wp_step|wp_step]; apply Hrest.
  - wp_step. apply Hrest.
Qed.

(** ** A history of reports and writes *)

(** A report on an inode, a direct write, or the work that writes later. *)
Inductive sb_event :=
  | EvReport (ino block : Z) (func : list Z) (line error : Z)
  | EvWrite
  | EvWork.
Definition run_event (ev : sb_event) : K super (option unit) :=
  match ev with
  | EvReport ino block func line error => __ext4_error_inode ino func line block error
  | EvWrite => ext4_commit_super;;; kret (Some tt)
  | EvWork => update_super_work;;; kret (Some tt)
  end.
Fixpoint run_events (evs : list sb_event) : K super (option unit) :=
  match evs with
  | [] => kret (Some tt)
  | ev :: evs => r <~ run_event ev;; match r with Some _ => run_events evs | None => kret None end
  end.

(** The entries a history adds, with the times they were noted at. *)
Definition entry_for (ev : sb_event) (e : option error_entry) : Prop :=
  match ev with
  | EvReport ino block func line error =>
      exists now, 0 < now /\ e = Some (entry_of (error_now error (u32 ino) block func line now))
  | _ => e = None
  end.
Definition add_entries (l : error_log) (es : list (option error_entry)) : error_log :=
  foldl (fun l e => match e with Some e => add_entry e l | None => l end) l es.
Definition is_report (ev : sb_event) : bool := match ev with EvReport _ _ _ _ _ => true | _ => false end.
Definition reports (evs : list sb_event) : Z := Z.of_nat (length (List.filter is_report evs)).

(** A file system that goes on after an error. *)
Record goes_on (s : super) : Prop := {
  go_ok : errors_ok s;
  go_cont : p_test_opt s EXT4_MOUNT_ERRORS_CONT = true;
  go_panic : p_test_opt s EXT4_MOUNT_ERRORS_PANIC = false;
  go_up : p_shutdown s = false
}.

Lemma kept_goes_on s s' : goes_on s -> kept s s' -> goes_on s'.
Proof.
  intros [Hok Hc Hp Hu] Hk. split; [by apply Hk|by rewrite (kept_opt _ _ _ Hk)..|]. by rewrite (kp_shutdown _ _ Hk).
Qed.

(** One event of a history. *)
Lemma wp_run_event ev s held calls (Q : option unit -> world super -> Prop) :
  outside_ok true -> goes_on s -> p_add_error_count s + reports [ev] < 2 ^ 31 -> sb_unlocked held ->
  (forall s' e calls, goes_on s' -> p_rdonly s' = p_rdonly s -> entry_for ev e -> log_of s' = add_entries (log_of s) [e] ->
     p_add_error_count s' <= p_add_error_count s + reports [ev] -> Q (Some tt) (World s' held calls)) ->
  wp (run_event ev) Q (World s held calls).
Proof.
  intros Hout Hgo Hmax Hul HQ. pose proof (go_ok s Hgo) as Hok. destruct ev as [ino block func line error| |]; cbn [run_event].
  - change (reports _) with 1 in *. unfold __ext4_error_inode. wp_step. wp_step. unfold ext4_forced_shutdown.
    rewrite (go_up s Hgo). wp_step. wp_step. apply (wp_handle_error true); [done|done|lia|done|]. intros r s' c Hh.
    pose proof (hd_mode _ _ _ _ _ _ Hh) as Hm. cbn [negb andb] in Hm. rewrite (go_cont s Hgo) in Hm.
    destruct Hm as (Hro & Hup & _). destruct (hd_return _ _ _ _ _ _ Hh) as [->|Hp].
    2:{ rewrite (go_panic s Hgo) in Hp. done. }
    destruct (hd_log _ _ _ _ _ _ Hh) as (now & Hnow & Hl).
    eapply HQ; [|exact Hro|by exists now|exact Hl|apply Hh].
    split; [apply Hh|by rewrite (hd_opt _ _ _ _ _ _ Hh), (go_cont s)|by rewrite (hd_opt _ _ _ _ _ _ Hh), (go_panic s)|].
    by rewrite Hup, (go_up s).
  - change (reports _) with 0 in *. wp_step. apply wp_commit_super; [done|done|]. intros r s' c Hc. wp_step.
    pose proof (committed_kept _ _ _ Hok Hc) as Hk. pose proof (kp_count _ _ Hk).
    apply (HQ s' None); [by apply (kept_goes_on s)|by apply kept_rdonly|done|apply Hk|lia].
  - change (reports _) with 0 in *. wp_step. apply wp_update_super_work; [done|done|]. intros s' c (Hk & _). wp_step.
    pose proof (kp_count _ _ Hk).
    apply (HQ s' None); [by apply (kept_goes_on s)|by apply kept_rdonly|done|apply Hk|lia].
Qed.
End Reports.

(** ** Properties *)

(** C20: on a writable device with errors=continue, no error is lost, in whatever order
    reports, direct writes of the super block and the work that hands it to the journal are
    run and whatever the journal and the device answer.  The log, read off the super block and
    the memory together, has at the end one more count for every report, the first error it
    had or else that of the first report, and the last report as the last error.  The file
    system stays as it was, read-write or read-only, and every lock is given back. *)
Theorem error_history_kept `{Env, Csum, SystemStates} evs s held calls :
  outside_ok true -> goes_on s -> sb_unlocked held -> p_add_error_count s + reports evs < 2 ^ 31 ->
  wp (run_events evs) (fun r w' =>
    r = Some tt /\ w_held w' = held /\ goes_on (w_st w') /\ p_rdonly (w_st w') = p_rdonly s /\
    exists entries, Forall2 entry_for evs entries /\ log_of (w_st w') = add_entries (log_of s) entries)
    (World s held calls).
Proof.
  intros Hout Hgo Hul. revert s calls Hgo. induction evs as [|ev evs IH]; intros s calls Hgo Hmax; cbn [run_events].
  { wp_step. split_and!; [done..|]. by exists []. }
  assert (Hr : reports (ev :: evs) = reports [ev] + reports evs).
  { unfold reports. cbn [List.filter]. destruct (is_report ev); cbn [length List.filter]; lia. }
  assert (Hpos : 0 <= reports evs) by (unfold reports; lia).
  wp_step. apply wp_run_event; [done|done|lia|done|]. intros s' e c Hgo' Hro He Hl Hcount.
  eapply wp_mono; [apply IH; [done|lia]|]. intros r w' (-> & Hh & Hg & Hr' & es & Hes & Hl').
  split_and!; [done|done|done|congruence|]. exists (e :: es). split; [by constructor|]. by rewrite Hl', Hl.
Qed.

(** C21: [ext4_handle_error] notes the error once, and then does what the option errors= says.
    To go on it leaves the flags alone, and with a journal schedules the work that writes the
    super block.  Else the file system is read-only when it returns, and shut down if it was
    writable before.  It does not return only with errors=panic.  A super block that
    reaches the device has the error flag, every error so far and a valid checksum; a
    device that is read-only is not written: what it holds, the buffer of the super block, the
    errors noted and the work scheduled are then as before.  The clock is positive, the device
    stays read-only or writable, the errors so far are consistent and fewer than 2^31 - 1, and
    the lock of the buffer is free. *)
Theorem handle_error_correct `{Env, Csum, SystemStates} writable force_ro error ino block func line s held calls :
  outside_ok writable -> errors_ok s -> p_add_error_count s < 2 ^ 31 - 1 -> sb_unlocked held ->
  wp (ext4_handle_error force_ro error ino block func line) (fun r w' =>
    w_held w' = held /\
    handled writable force_ro (error_now error ino block func line) s r (w_st w')) (World s held calls).
Proof. intros Hout Hok Hmax Hul. apply (wp_handle_error writable); [done..|]. intros r s' c Hh. by split. Qed.
