(* ===== verification/Remount.v ===== *)
(** * The life of a mounted file system (fs/ext4/super.c)

    From the end of a mount to the unmount the super block says whether the file system is in
    use: with a journal by the feature needs_recovery, without one by the missing flag
    EXT4_VALID_FS.  [ext4_setup_super] sets the mark, [ext4_mark_recovery_complete],
    [ext4_freeze] and [ext4_put_super] take it away, [__ext4_remount] does either.

    As in SuperState.v a function that can report an error may panic. *)

From stdpp Require Import prelude list strings.
From Stdlib Require Import ZArith Lia Ascii String.
From S2P Require Import Prelude Kernel Bytes Layout Mount MountOpts MountSuper SuperState.

Local Open Scope Z_scope.

(** A step that may panic, and the steps after it. *)
Definition unless_panic {S A B} (m : K S (option A)) (f : A -> K S (option B)) : K S (option B) :=
  r <~ m;; match r with Some a => f a | None => kret None end.
Notation "x <~? m ;; k" := (unless_panic m (fun x => k)) (at level 100, m at next level, right associativity).

Definition s16 (x : Z) : Z := (x + 2 ^ 15) mod 2 ^ 16 - 2 ^ 15.
(** The characters of __func__. *)
Definition c_bytes (s : string) : list Z := map (fun a => Z.of_N (N_of_ascii a)) (list_ascii_of_string s).

(** ** Marks of the super block *)

Definition s_checkinterval (es : list Z) : Z := get32 es 0x44.
Definition ext4_clear_feature_journal_needs_recovery es := ext4_clear_incompat es EXT4_FEATURE_INCOMPAT_RECOVER.
Definition ext4_set_feature_journal_needs_recovery es := ext4_set_incompat es EXT4_FEATURE_INCOMPAT_RECOVER.
Definition ext4_clear_feature_orphan_present es := ext4_clear_ro_compat es EXT4_FEATURE_RO_COMPAT_ORPHAN_PRESENT.
Definition ext4_set_feature_orphan_present es := ext4_set_ro_compat es EXT4_FEATURE_RO_COMPAT_ORPHAN_PRESENT.
Definition set_s_state (x : Z) (es : list Z) : list Z := put16 es 0x3A x.

(** The file system is in use, with a journal. *)
Definition set_in_use (es : list Z) : list Z :=
  let es := ext4_set_feature_journal_needs_recovery es in
  if ext4_has_feature_orphan_file es then ext4_set_feature_orphan_present es else es.

(** The super block of a file system mounted read-write. *)
Definition setup_es (journal : bool) (now : Z) (es : list Z) : list Z :=
  let es := if journal then es else set_s_state (Z.land (s_state es) (Z.lnot EXT4_VALID_FS)) es in
  let es := if s_max_mnt_count es =? 0 then put16 es 0x36 EXT4_DFL_MAX_MNT_COUNT else es in
  let es := put16 es 0x34 (u16 (s_mnt_count es + 1)) in
  let es := put_tstamp es 0x2C 0x275 now in
  if journal then set_in_use es else es.

Section Life.
Context `{Env, MountEnv, Csum, OptionAnswers, SystemStates}.

Definition ext4_error (func : string) (line : Z) : K super (option unit) := __ext4_error (c_bytes func) line false 0 0.
Definition ext4_abort (func : string) (line error : Z) : K super (option unit) :=
  __ext4_error (c_bytes func) line true error 0.

(** The first three tests for a warning failed, so that the time is looked at. *)
Definition looks_at_clock (s : super) : bool :=
  let st := s_mount_state (p_sbi s) in
  negb (Z.land st EXT4_VALID_FS =? 0) && (Z.land st EXT4_ERROR_FS =? 0) &&
  negb ((0 <? s16 (s_max_mnt_count (p_es s))) && (s_max_mnt_count (p_es s) <=? s_mnt_count (p_es s))) &&
  negb (s_checkinterval (p_es s) =? 0).

Definition ext4_setup_super (read_only : bool) : K super Z :=
  s <~ kget;;
  if EXT4_MAX_SUPP_REV <? s_rev_level (p_es s) then kret (- EROFS) else
  if read_only then kret 0 else
  (if looks_at_clock s then call_int "ktime_get_real_seconds" [] else kret 0);;;
  now <~ call_int "ktime_get_real_seconds" [];;
  kmodify (upd_es (setup_es (m_journal (p_mount s)) now));;;
  ext4_commit_super.

(** The end of a mount: an unknown revision makes it read-only. *)
Definition setup_on_mount : K super Z :=
  s <~ kget;;
  err <~ ext4_setup_super (p_rdonly s);;
  if err =? - EROFS then kmodify set_rdonly;;; kret 0 else kret err.

Definition ext4_mark_recovery_complete : K super (option Z) :=
  s <~ kget;;
  if negb (ext4_has_feature_journal (p_es s)) then
    if m_journal (p_mount s) then
      _ <~? ext4_error "ext4_mark_recovery_complete" 6248;;
      kret (Some (- EFSCORRUPTED))
    else kret (Some 0)
  else if negb (m_journal (p_mount s)) then koops
  else
    acquire (Excl LBarrier);;;
    err <~ call_int "jbd2_journal_flush" [0];;
    let out err := release (Excl LBarrier);;; kret (Some err) in
    if err <? 0 then out err else
    s <~ kget;;
    if p_rdonly s && (ext4_has_feature_journal_needs_recovery (p_es s) || ext4_has_feature_orphan_present (p_es s)) then
      empty <~ call_int "ext4_orphan_file_empty" [];;
      if empty =? 0 then
        _ <~? ext4_error "ext4_mark_recovery_complete" 6262;;
        out (- EFSCORRUPTED)
      else
        kmodify (upd_es (fun es => ext4_clear_feature_orphan_present (ext4_clear_feature_journal_needs_recovery es)));;;
        ext4_commit_super;;;
        out err
    else out err.

Definition ext4_clear_journal_err : K super (option Z) :=
  s <~ kget;;
  if negb (ext4_has_feature_journal (p_es s)) then
    _ <~? ext4_error "ext4_clear_journal_err" 6288;;
    kret (Some (- EFSCORRUPTED))
  else if negb (m_journal (p_mount s)) then koops
  else
    j_errno <~ call_int "jbd2_journal_errno" [];;
    if j_errno =? 0 then kret (Some 0) else
    kmodify (fun s => set_mount_state (Z.lor (s_mount_state (p_sbi s)) EXT4_ERROR_FS) s);;;
    kmodify (upd_es (fun es => set_s_state (Z.lor (s_state es) EXT4_ERROR_FS) es));;;
    err <~ ext4_commit_super;;
    if negb (err =? 0) then kret (Some err) else
    call_int "jbd2_journal_clear_err" [];;;
    call_int "jbd2_journal_update_sb_errno" [];;;
    kret (Some 0).

(** ** Freezing *)

Definition ext4_freeze : K super Z :=
  s <~ kget;;
  let journal := m_journal (p_mount s) in
  let out (error : Z) : K super Z :=
    if journal then release (Excl LBarrier);;; kret error else kret error in
  let commit : K super Z := error <~ ext4_commit_super;; out error in
  if journal then
    acquire (Excl LBarrier);;;
    error <~ call_int "jbd2_journal_flush" [0];;
    if error <? 0 then out error else
    kmodify (upd_es ext4_clear_feature_journal_needs_recovery);;;
    empty <~ call_int "ext4_orphan_file_empty" [];;
    (if empty =? 0 then kret tt else kmodify (upd_es ext4_clear_feature_orphan_present));;;
    commit
  else commit.

Definition ext4_unfreeze : K super Z :=
  s <~ kget;;
  if ext4_forced_shutdown s then kret 0 else
  (if m_journal (p_mount s) then kmodify (upd_es set_in_use) else kret tt);;;
  ext4_commit_super;;;
  kret 0.

(** ** Unmounting *)

Definition set_m_journal (x : bool) (s : mount) : mount :=
  Mount (m_type s) (m_sb_block s) (m_daxdev s) (m_flags s) (m_iflags s) (m_bits s) (m_sbh s) (m_es s)
    (m_sbi s) (m_opt s) (m_opt2 s) (m_def_opt s) (m_def_opt2 s) (m_bdev_is_dax s) (m_par s)
    (m_encoding s) (m_ino s) (m_meta s) (m_hash s) (m_blockfile_groups s) (m_gdb s) x (m_quota s).

(** [flush_work(&sbi->s_sb_upd_work)] *)
Definition flush_work : K super unit :=
  s <~ kget;; if p_work s then update_super_work else kret tt.

Definition mark_clean (s : super) : super :=
  upd_es (fun es => set_s_state (u16 (s_mount_state (p_sbi s)))
                      (ext4_clear_feature_orphan_present (ext4_clear_feature_journal_needs_recovery es))) s.

(** [ext4_put_super] up to the last write of the super block. *)
Definition put_super : K super (option unit) :=
  call_int "ext4_unregister_sysfs" [];;;
  call_int "ext4_unregister_li_request" [];;;
  call_int "ext4_quotas_off" [];;;
  flush_work;;;
  call_int "destroy_workqueue" [];;;
  call_int "ext4_release_orphan_info" [];;;
  s <~ kget;;
  aborted <~? (if m_journal (p_mount s) then
      aborted <~ call_int "is_journal_aborted" [];;
      err <~ call_int "jbd2_journal_destroy" [];;
      kmodify (upd_mount (set_m_journal false));;;
      _ <~? (if (err <? 0) && (aborted =? 0) then ext4_abort "ext4_put_super" 1326 (- err) else kret (Some tt));;
      kret (Some (negb (aborted =? 0)))
    else kret (Some false));;
  call_int "ext4_es_unregister_shrinker" [];;;
  call_int "timer_shutdown_sync" [];;;
  call_int "ext4_release_system_zone" [];;;
  call_int "ext4_mb_release" [];;;
  call_int "ext4_ext_release" [];;;
  s <~ kget;;
  (if negb (p_rdonly s) && negb aborted then kmodify mark_clean else kret tt);;;
  (if negb (p_rdonly s) then ext4_commit_super;;; kret tt else kret tt);;;
  kret (Some tt).

(** ** Remounting *)

(** struct ext4_mount_options *)
Record ext4_mount_options := MountOptions {
  o_mount_opt : Z; o_mount_opt2 : Z; o_resuid : Z; o_resgid : Z; o_commit_interval : Z;
  o_min_batch_time : Z; o_max_batch_time : Z; o_jquota_fmt : Z; o_qf_names : list (option string)
}.
Definition save_options (m : mount) : ext4_mount_options :=
  MountOptions (m_opt m) (m_opt2 m) (s_resuid (m_par m)) (s_resgid (m_par m)) (s_commit_interval (m_par m))
    (s_min_batch_time (m_par m)) (s_max_batch_time (m_par m)) (s_jquota_fmt (m_quota m)) (s_qf_names (m_quota m)).
Definition restore_params (o : ext4_mount_options) (p : opt_params) : opt_params :=
  OptParams (o_commit_interval o) (s_stripe p) (o_min_batch_time o) (o_max_batch_time o) (s_inode_readahead_blks p)
    (s_max_dir_size_kb p) (s_li_wait_mult p) (o_resuid o) (o_resgid o).
Definition restore_options (flags : Z) (o : ext4_mount_options) (m : mount) : mount :=
  set_m_par (restore_params o (m_par m)) (set_m_opt2 (o_mount_opt2 o) (set_m_opt (o_mount_opt o) (set_m_flags flags m))).
Definition restore_quota (o : ext4_mount_options) (m : mount) : mount :=
  set_m_quota (QuotaOpts (o_qf_names o) (o_jquota_fmt o) (s_dummy_enc_policy (m_quota m))) m.

(** Copies of the names of the quota files; whether there was memory for all. *)
Fixpoint dup_names (l : list (option string)) : K super bool :=
  match l with
  | [] => kret true
  | None :: l => dup_names l
  | Some _ :: l =>
      p <~ call_ptr "kstrdup" [];;
      match p with PtrNull => kret false | _ => dup_names l end
  end.

Definition DEFAULT_JOURNAL_IOPRIO : Z := IOPRIO_BE 3.
Definition journal_ioprio (c : ext4_fs_context) : K super Z :=
  if has_spec c EXT4_SPEC_JOURNAL_IOPRIO then kret (c_journal_ioprio c) else
  s <~ kget;;
  if m_journal (p_mount s) then
    io <~ call_ptr "j_task->io_context" [];;
    match io with PtrNull => kret DEFAULT_JOURNAL_IOPRIO | _ => call_int "io_context->ioprio" [] end
  else kret DEFAULT_JOURNAL_IOPRIO.

(** journal_checksum cannot be changed. *)
Definition keep_journal_checksum (old : Z) (m : mount) : mount :=
  if Z.lxor (Z.land old EXT4_MOUNT_JOURNAL_CHECKSUM) (test_opt m EXT4_MOUNT_JOURNAL_CHECKSUM) =? 0 then m
  else set_m_opt (Z.lxor (m_opt m) EXT4_MOUNT_JOURNAL_CHECKSUM) m.

(** Options that exclude each other, or cannot be changed. *)
Definition data_conflict (m : mount) : bool :=
  if test_opt m EXT4_MOUNT_DATA_FLAGS =? EXT4_MOUNT_JOURNAL_DATA
  then negb (test_opt2 m EXT4_MOUNT2_EXPLICIT_DELALLOC =? 0) || negb (test_opt m EXT4_MOUNT_DIOREAD_NOLOCK =? 0)
  else if test_opt m EXT4_MOUNT_DATA_FLAGS =? EXT4_MOUNT_ORDERED_DATA
  then negb (test_opt m EXT4_MOUNT_JOURNAL_ASYNC_COMMIT =? 0)
  else false.
Definition options_conflict (old : Z) (m : mount) : bool :=
  data_conflict m || negb (Z.land (Z.lxor (m_opt m) old) EXT4_MOUNT_NO_MBCACHE =? 0).

Definition set_posixacl (m : mount) : mount :=
  set_m_flags (Z.lor (Z.land (m_flags m) (Z.lnot SB_POSIXACL))
                 (if test_opt m EXT4_MOUNT_POSIX_ACL =? 0 then 0 else SB_POSIXACL)) m.

(** The parameters go to the journal. *)
Definition ext4_init_journal_params : K super unit :=
  s <~ kget;;
  let p := m_par (p_mount s) in
  call_int "j_params" [s_commit_interval p; s_min_batch_time p; s_max_batch_time p];;;
  call_int "ext4_fc_init" [];;;
  call_int "j_flags" [if p_test_opt s EXT4_MOUNT_BARRIER then 1 else 0;
                      if p_test_opt s EXT4_MOUNT_DATA_ERR_ABORT then 1 else 0];;;
  kret tt.

Definition desc (s : super) (g : Z) : option (list Z) :=
  ext4_get_group_desc (p_sbi s) (snd <$> m_gdb (p_mount s)) g.

(** The checksums of the [n] groups from [g] on; [None]: a missing descriptor is read. *)
Fixpoint csums_ok (n : nat) (s : super) (g : Z) : option bool :=
  match n with
  | O => Some true
  | S n =>
      match desc s g with
      | Some gdp => if ext4_group_desc_csum_verify (p_sbi s) (p_es s) g gdp then csums_ok n s (g + 1) else Some false
      | None => if ext4_has_group_desc_csum (p_sbi s) (p_es s) then None else csums_ok n s (g + 1)
      end
  end.

(** The first of the [n] groups from [g] on whose inode table is not zeroed. *)
Fixpoint uninit_itable (n : nat) (s : super) (g : Z) : Z :=
  match n with
  | O => g
  | S n =>
      match desc s g with
      | Some gdp => if gd_has_flag gdp EXT4_BG_INODE_ZEROED then uninit_itable n s (g + 1) else g
      | None => uninit_itable n s (g + 1)
      end
  end.
Definition ext4_has_uninit_itable (s : super) : Z :=
  let ngroups := s_groups_count (p_sbi s) in
  if ext4_has_group_desc_csum (p_sbi s) (p_es s) then uninit_itable (Z.to_nat ngroups) s 0 else ngroups.

(** To read-only, or back: an error to restore the options for, or whether the quota is to
    be enabled. *)
Definition remount_ro : K super (option (Z + bool)) :=
  err <~ call_int "sync_filesystem" [];;
  if err <? 0 then kret (Some (inl err)) else
  err <~ call_int "dquot_suspend" [-1];;
  if err <? 0 then kret (Some (inl err)) else
  kmodify set_rdonly;;;
  s <~ kget;;
  (if (Z.land (s_state (p_es s)) EXT4_VALID_FS =? 0) && negb (Z.land (s_mount_state (p_sbi s)) EXT4_VALID_FS =? 0)
   then kmodify (upd_es (set_s_state (u16 (s_mount_state (p_sbi s))))) else kret tt);;;
  _ <~? (if m_journal (p_mount s) then ext4_mark_recovery_complete else kret (Some 0));;
  kret (Some (inr false)).

(** The state is read again, for e2fsck may have changed it; then the file system is marked
    and writable. *)
Definition start_writing : K super (option (Z + bool)) :=
  kmodify (fun s => set_mount_state (Z.land (s_state (p_es s)) (Z.lnot EXT4_FC_REPLAY)) s);;;
  err <~ ext4_setup_super false;;
  if negb (err =? 0) then kret (Some (inl err)) else
  kmodify (upd_mount (fun m => set_m_flags (Z.land (m_flags m) (Z.lnot SB_RDONLY)) m));;;
  s <~ kget;;
  if ext4_has_feature_mmp (p_es s) then
    err <~ call_int "ext4_multi_mount_protect" [s_mmp_block (p_es s)];;
    kret (Some (if err =? 0 then inr true else inl err))
  else kret (Some (inr true)).

Definition remount_rw : K super (option (Z + bool)) :=
  s <~ kget;;
  if ext4_has_feature_readonly (p_es s) then kret (Some (inl (- EROFS))) else
  let '(ok, m) := ext4_feature_set_ok false (p_mount s) in
  kmodify (upd_mount (fun _ => m));;;
  if negb ok then kret (Some (inl (- EROFS))) else
  match csums_ok (Z.to_nat (s_groups_count (p_sbi s))) s 0 with
  | None => koops
  | Some false => kret (Some (inl (- EFSBADCRC)))
  | Some true =>
      empty <~ (if s_last_orphan (p_es s) =? 0 then call_int "ext4_orphan_file_empty" [] else kret 0);;
      if empty =? 0 then kret (Some (inl (- EINVAL))) else
      err <~? (if m_journal (p_mount s) then ext4_clear_journal_err else kret (Some 0));;
      if negb (err =? 0) then kret (Some (inl err)) else
      start_writing
  end.

Definition stop_mmpd : K super unit :=
  s <~ kget;;
  if negb (ext4_has_feature_mmp (p_es s)) || p_rdonly s then call_int "ext4_stop_mmpd" [];;; kret tt else kret tt.
Definition release_system_zone : K super unit :=
  s <~ kget;;
  if p_test_opt s EXT4_MOUNT_BLOCK_VALIDITY then kret tt else
  blks <~ call_int "s_system_blks" [];;
  if blks =? 0 then kret tt else call_int "ext4_release_system_zone" [];;; kret tt.

(** The label restore_opts *)
Definition restore_opts (flags : Z) (o : ext4_mount_options) (err : Z) : K super (option Z) :=
  s <~ kget;;
  (if p_rdonly s && (Z.land flags SB_RDONLY =? 0) then
     suspended <~ call_int "sb_any_quota_suspended" [-1];;
     if suspended =? 0 then kret tt else call_int "dquot_resume" [-1];;; kret tt
   else kret tt);;;
  acquire (Excl LWritepages);;;
  kmodify (upd_mount (restore_options flags o));;;
  release (Excl LWritepages);;;
  release_system_zone;;;
  (if CONFIG_QUOTA then kmodify (upd_mount (restore_quota o)) else kret tt);;;
  stop_mmpd;;;
  kret (Some err).

(** The steps from the creation of the system zone on. *)
Definition setup_zone : K super Z :=
  s <~ kget;;
  if p_test_opt s EXT4_MOUNT_BLOCK_VALIDITY then
    blks <~ call_int "s_system_blks" [];;
    if blks =? 0 then call_int "ext4_setup_system_zone" [] else kret 0
  else kret 0.
Definition commit_no_journal (flags : Z) : K super Z :=
  s <~ kget;;
  if negb (m_journal (p_mount s)) && (Z.land flags SB_RDONLY =? 0) then ext4_commit_super else kret 0.
Definition quota_again (enable_quota : bool) : K super Z :=
  if CONFIG_QUOTA && enable_quota then
    suspended <~ call_int "sb_any_quota_suspended" [-1];;
    if negb (suspended =? 0) then call_int "dquot_resume" [-1];;; kret 0
    else s <~ kget;; if ext4_has_feature_quota (p_es s) then call_int "ext4_enable_quotas" [] else kret 0
  else kret 0.
Definition remount_done : K super (option Z) :=
  release_system_zone;;;
  s <~ kget;;
  (if p_rdonly s || negb (p_test_opt s EXT4_MOUNT_INIT_INODE_TABLE)
   then call_int "ext4_unregister_li_request" []
   else call_int "ext4_register_li_request" [ext4_has_uninit_itable s]);;;
  stop_mmpd;;;
  kret (Some 0).

Definition or_restore (flags : Z) (o : ext4_mount_options) (err : Z) (rest : K super (option Z)) : K super (option Z) :=
  if negb (err =? 0) then restore_opts flags o err else rest.
Definition remount_end (flags : Z) (o : ext4_mount_options) (enable_quota : bool) : K super (option Z) :=
  err <~ setup_zone;; or_restore flags o err (
  err <~ commit_no_journal flags;; or_restore flags o err (
  err <~ quota_again enable_quota;; or_restore flags o err remount_done)).

(** From the test for the option abort on. *)
Definition remount_apply (rdonly : bool) (ioprio flags : Z) (o : ext4_mount_options)
    : K super (option Z) :=
  s <~ kget;;
  _ <~? (if negb (test_opt2 (p_mount s) EXT4_MOUNT2_ABORT =? 0)
         then ext4_abort "__ext4_remount" 6546 ESHUTDOWN else kret (Some tt));;
  kmodify (upd_mount set_posixacl);;;
  (if m_journal (p_mount s)
   then ext4_init_journal_params;;; call_int "set_task_ioprio" [ioprio];;; kret tt else kret tt);;;
  flush_work;;;
  s <~ kget;;
  r <~? (if Bool.eqb rdonly (p_rdonly s) then kret (Some (inr false))
         else if ext4_forced_shutdown s then kret (Some (inl (- EROFS)))
         else if rdonly then remount_ro else remount_rw);;
  match r with
  | inl err => restore_opts flags o err
  | inr enable_quota => remount_end flags o enable_quota
  end.

(** From the application of the options on; [m] is the mount as it was. *)
Definition remount_with (c : ext4_fs_context) (rdonly : bool) (m : mount) (ioprio : Z) : K super (option Z) :=
  acquire (Excl LWritepages);;;
  kmodify (upd_mount (fun m => (ext4_apply_options c m).2));;;
  release (Excl LWritepages);;;
  kmodify (upd_mount (keep_journal_checksum (m_opt m)));;;
  s <~ kget;;
  if options_conflict (m_opt m) (p_mount s) then restore_opts (m_flags m) (save_options m) (- EINVAL) else
  remount_apply rdonly ioprio (m_flags m) (save_options m).

Definition __ext4_remount (c : ext4_fs_context) (sb_flags : Z) : K super (option Z) :=
  s <~ kget;;
  let m := p_mount s in
  dup <~ (if CONFIG_QUOTA then dup_names (s_qf_names (m_quota m)) else kret true);;
  if negb dup then kret (Some (- ENOMEM)) else
  ioprio <~ journal_ioprio c;;
  remount_with c (negb (Z.land sb_flags SB_RDONLY =? 0)) m ioprio.

Definition ext4_reconfigure (c : ext4_fs_context) (sb_flags : Z) : K super (option Z) :=
  s <~ kget;;
  let '(err, c) := ext4_check_opt_consistency sb_any_quota_loaded fscrypt_dummy_policies_equal true c (p_mount s) in
  if err <? 0 then kret (Some err) else
  r <~? __ext4_remount c sb_flags;;
  kret (Some (if r <? 0 then r else 0)).
End Life.
