(* ===== verification/RemountSpec.v ===== *)
(** * The life of a mounted file system: what its operations keep

    [calm] is what every report and every write of the super block keeps of the state:
    nothing changes but the error flag, the buffer with its marks kept, and possibly
    SB_RDONLY.  [same_fs] is the weaker frame of the operations that change the marks. *)

From stdpp Require Import prelude list strings.
From Stdlib Require Import ZArith Lia.
From S2P Require Import Prelude Kernel Bytes Layout Mount MountOpts MountSuper SuperState SuperSpec SuperReport Remount.

Local Open Scope Z_scope.

(** ** Frames *)

(** A mount with other flags, super block and mount state. *)
Definition re_mount (flags : Z) (es : list Z) (st : Z) (m : mount) : mount :=
  set_m_flags flags (set_m_es es (upd_sbi (sbi_set_mount_state st) m)).
Lemma re_mount_same m : re_mount (m_flags m) (m_es m) (s_mount_state (m_sbi m)) m = m.
Proof. by destruct m as [???????? [] ??????????????]. Qed.
Lemma re_mount_twice f1 e1 t1 f2 e2 t2 m : re_mount f2 e2 t2 (re_mount f1 e1 t1 m) = re_mount f2 e2 t2 m.
Proof. done. Qed.

Record same_fs (k : Z) (s s' : super) : Prop := {
  sf_ok : errors_ok s';
  sf_mount : exists flags st, p_mount s' = re_mount flags (p_es s') st (p_mount s);
  sf_count : p_add_error_count s' <= p_add_error_count s + k
}.
Lemma same_fs_refl s : errors_ok s -> same_fs 0 s s.
Proof.
  intros Hok. split; [done| |lia]. eexists (m_flags (p_mount s)), _. symmetry. apply re_mount_same.
Qed.
Lemma same_fs_trans k1 k2 k s1 s2 s3 : same_fs k1 s1 s2 -> same_fs k2 s2 s3 -> k1 + k2 <= k -> same_fs k s1 s3.
Proof.
  intros [K1 (f1 & t1 & M1) C1] [K2 (f2 & t2 & M2) C2] Hk. split; [done| |lia].
  exists f2, t2. by rewrite M2, M1, re_mount_twice.
Qed.
Lemma same_fs_journal k s s' : same_fs k s s' -> m_journal (p_mount s') = m_journal (p_mount s).
Proof. intros [_ (f & t & ->) _]. done. Qed.
Lemma same_fs_opt k s s' f : same_fs k s s' -> p_test_opt s' f = p_test_opt s f.
Proof. intros [_ (fl & t & M) _]. unfold p_test_opt. by rewrite M. Qed.

(** Read-only stays read-only. *)
Definition stays_ro (s s' : super) : Prop := p_rdonly s = true -> p_rdonly s' = true.

(** No mark changes; who is made read-only is shut down. *)
Record calm (k : Z) (s s' : super) : Prop := {
  ca_ok : errors_ok s';
  ca_mount : exists flags st,
    Z.testbit st 0 = Z.testbit (s_mount_state (p_sbi s)) 0 /\
    p_mount s' = re_mount flags (p_es s') st (p_mount s);
  ca_count : p_add_error_count s' <= p_add_error_count s + k;
  ca_marks : marks (p_es s') = marks (p_es s);
  ca_disk es : es ∈ p_disk s' -> es ∈ p_disk s \/ marks es = marks (p_es s);
  ca_up : p_shutdown s = true -> p_shutdown s' = true;
  ca_stay : stays_ro s s';
  ca_ro : p_rdonly s' = true -> p_rdonly s = true \/ p_shutdown s' = true
}.
Lemma calm_same_fs k s s' : calm k s s' -> same_fs k s s'.
Proof. intros [K (f & t & _ & M) C _ _ _ _ _]. split; [done|by exists f, t|done]. Qed.
Lemma calm_refl s : errors_ok s -> calm 0 s s.
Proof.
  intros Hok. split; [done| |lia|done|by left|done|by intros ?|by left].
  exists (m_flags (p_mount s)), (s_mount_state (p_sbi s)). split; [done|]. symmetry. apply re_mount_same.
Qed.
Lemma calm_trans k1 k2 k s1 s2 s3 : calm k1 s1 s2 -> calm k2 s2 s3 -> k1 + k2 <= k -> calm k s1 s3.
Proof.
  intros [K1 (f1 & t1 & T1 & M1) C1 E1 D1 U1 S1 R1] [K2 (f2 & t2 & T2 & M2) C2 E2 D2 U2 S2 R2] Hk.
  split; [done| |lia|congruence| |auto|by intros ?; apply S2, S1|].
  - assert (T2' : Z.testbit t2 0 = Z.testbit t1 0) by (rewrite T2; unfold p_sbi; by rewrite M1).
    exists f2, t2. split; [congruence|by rewrite M2, M1].
  - intros es Hes. destruct (D2 es Hes) as [Hes'|E]; [by apply D1|right; congruence].
  - intros Hro. destruct (R2 Hro) as [Hro2|]; [|by right]. destruct (R1 Hro2); [by left|right; auto].
Qed.
Lemma calm_more k k' s s' : calm k s s' -> k <= k' -> calm k' s s'.
Proof. intros [? ? ? ? ? ? ? ?] Hk. split; try done. lia. Qed.

Lemma rdonly_lor m : sb_rdonly (set_m_flags (Z.lor (m_flags m) SB_RDONLY) m) = true.
Proof.
  set (e := ErrorInfo 0 0 0 0 [] 0). apply (set_rdonly_on (Super m false 0 e e false None None 0 0 [] None)).
Qed.

(** ** The mark of a file system in use *)

Definition in_use (journal : bool) (es : list Z) : Prop :=
  if journal then ext4_has_feature_journal_needs_recovery es = true else Z.testbit (s_state es) 0 = false.
Lemma in_use_marks j es es' : marks es' = marks es -> in_use j es -> in_use j es'.
Proof.
  intros E. pose proof (f_equal (fun m => m.1.1.1.2) E : s_feature_incompat es' = s_feature_incompat es) as E2.
  pose proof (f_equal snd E : Z.testbit (s_state es') 0 = Z.testbit (s_state es) 0) as E5. unfold in_use, ext4_has_feature_journal_needs_recovery, ext4_has_incompat. by rewrite E2, E5.
Qed.

(** A change of the super block away from the first error. *)
Definition tidy (es es' : list Z) : Prop := es_wf es -> es_wf es' /\ has_first es' = has_first es.
Lemma tidy_refl es : tidy es es.
Proof. by intros. Qed.
Lemma tidy_trans es es1 es2 : tidy es es1 -> tidy es1 es2 -> tidy es es2.
Proof. intros T1 T2 Hes. destruct (T1 Hes) as [H1 <-]. by apply T2. Qed.
Lemma tidy_put n es es1 off v :
  apart [(off, Z.of_nat n)] (ef_time first_error) 4 && apart [(off, Z.of_nat n)] (ef_time_hi first_error) 1 = true ->
  tidy es es1 -> tidy es (le_put n es1 off v).
Proof.
  intros Ha Ht. apply (tidy_trans _ _ _ Ht). intros Hes. split; [by apply put_wf|].
  by apply (first_same [(off, Z.of_nat n)]); [apply same_off_put|].
Qed.
Lemma tidy_tstamp es es1 lo hi now :
  apart [(lo, 4); (hi, 1)] (ef_time first_error) 4 && apart [(lo, 4); (hi, 1)] (ef_time_hi first_error) 1 = true ->
  tidy es es1 -> tidy es (put_tstamp es1 lo hi now).
Proof.
  intros Ha Ht. apply (tidy_trans _ _ _ Ht). intros Hes. split; [by apply put_tstamp_wf|].
  by apply (first_same [(lo, 4); (hi, 1)]); [apply same_off_tstamp|].
Qed.
Lemma tidy_dynamic_rev es : tidy es (ext4_update_dynamic_rev es).
Proof. unfold ext4_update_dynamic_rev. destruct (_ <? _); [apply tidy_refl|]. do 3 (apply tidy_put; [done|]). apply tidy_refl. Qed.
Lemma tidy_incompat es flag : tidy es (ext4_set_incompat es flag) /\ tidy es (ext4_clear_incompat es flag).
Proof. split; (apply tidy_put; [done|]); [apply tidy_dynamic_rev|apply tidy_refl]. Qed.
Lemma tidy_ro_compat es flag : tidy es (ext4_set_ro_compat es flag) /\ tidy es (ext4_clear_ro_compat es flag).
Proof. split; (apply tidy_put; [done|]); [apply tidy_dynamic_rev|apply tidy_refl]. Qed.
Lemma tidy_set_in_use es : tidy es (set_in_use es).
Proof.
  unfold set_in_use. eapply tidy_trans; [exact (proj1 (tidy_incompat es EXT4_FEATURE_INCOMPAT_RECOVER))|].
  destruct (ext4_has_feature_orphan_file _); [|apply tidy_refl]. exact (proj1 (tidy_ro_compat _ EXT4_FEATURE_RO_COMPAT_ORPHAN_PRESENT)).
Qed.
Lemma tidy_setup j now es : tidy es (setup_es j now es).
Proof.
  unfold setup_es. set (es1 := if j then es else _).
  assert (T1 : tidy es es1) by (unfold es1; destruct j; [apply tidy_refl|by apply tidy_put; [|apply tidy_refl]]). clearbody es1.
  set (es2 := if s_max_mnt_count es1 =? 0 then _ else es1).
  assert (T2 : tidy es es2) by (unfold es2; destruct (_ =? _); [by apply tidy_put|done]). clearbody es2.
  set (es3 := put_tstamp _ _ _ _). assert (T3 : tidy es es3) by by apply tidy_tstamp, tidy_put.
  destruct j; [|done]. apply (tidy_trans _ _ _ T3), tidy_set_in_use.
Qed.
Lemma errors_ok_es f s : errors_ok s -> tidy (p_es s) (f (p_es s)) -> errors_ok (upd_es f s).
Proof.
  intros [Hes ? ? ? Hf] Ht. destruct (Ht Hes) as [Hw Hh]. split; [exact Hw|done..|].
  intros Hn. change (p_es (upd_es f s)) with (f (p_es s)). rewrite Hh. by apply Hf.
Qed.

Lemma lor_recover x : negb (Z.land (u32 (Z.lor x EXT4_FEATURE_INCOMPAT_RECOVER)) EXT4_FEATURE_INCOMPAT_RECOVER =? 0) = true.
Proof.
  destruct (Z.eqb_spec (Z.land (u32 (Z.lor x EXT4_FEATURE_INCOMPAT_RECOVER)) EXT4_FEATURE_INCOMPAT_RECOVER) 0) as [E|]; [|done].
  apply (f_equal (fun x => Z.testbit x 2)) in E. revert E. rewrite Z.land_spec, Z.bits_0. unfold u32, wrap.
  rewrite Z.mod_pow2_bits_low, Z.lor_spec by lia. change (Z.testbit EXT4_FEATURE_INCOMPAT_RECOVER 2) with true. by rewrite orb_true_r.
Qed.
Lemma set_in_use_ok es : es_wf es -> in_use true (set_in_use es).
Proof.
  intros Hes. assert (Hr : ext4_has_feature_journal_needs_recovery (ext4_set_feature_journal_needs_recovery es) = true).
  { unfold ext4_has_feature_journal_needs_recovery, ext4_set_feature_journal_needs_recovery, ext4_has_incompat, ext4_set_incompat.
    destruct (tidy_dynamic_rev es Hes) as [[Hl _] _]. unfold sizeof_ext4_super_block in Hl.
    unfold s_feature_incompat at 1. rewrite get32_put32_eq by lia. apply lor_recover. }
  unfold set_in_use. destruct (ext4_has_feature_orphan_file _); [|exact Hr]. cbn [in_use]. rewrite <- Hr.
  unfold ext4_has_feature_journal_needs_recovery at 1 2, ext4_has_incompat, s_feature_incompat. do 3 f_equal.
  unfold ext4_set_feature_orphan_present, ext4_set_ro_compat, ext4_update_dynamic_rev.
  destruct (_ <? _); by rewrite !le_get_put_out by lia.
Qed.
Lemma setup_es_in_use j now es : es_wf es -> in_use j (setup_es j now es).
Proof.
  intros Hes. unfold setup_es. destruct j.
  - apply set_in_use_ok. set (es2 := if s_max_mnt_count es =? 0 then _ else es).
    assert (H2 : es_wf es2) by (unfold es2; destruct (_ =? _); [by apply put_wf|done]). by apply put_tstamp_wf, put_wf.
  - cbn [in_use]. set (es1 := set_s_state _ es). set (es2 := if s_max_mnt_count es1 =? 0 then _ else es1).
    assert (E1 : s_state es1 = u16 (Z.land (s_state es) (Z.lnot EXT4_VALID_FS))).
    { destruct Hes as [Hl _]. unfold sizeof_ext4_super_block in Hl. apply get16_put16_eq; lia. }
    assert (E2 : s_state es2 = s_state es1).
    { unfold es2. destruct (_ =? _); [|done]. apply le_get_put_out; lia. }
    unfold s_state at 1. rewrite (same_off_get _ _ _ 2 0x3A (same_off_tstamp (put16 es2 0x34 (u16 (s_mnt_count es2 + 1))) 0x2C 0x275 now)) by done.
    rewrite le_get_put_out by lia. fold (s_state es2). rewrite E2, E1. unfold u16, wrap.
    rewrite Z.mod_pow2_bits_low, Z.land_spec by lia. by rewrite andb_false_r.
Qed.

Section Spec.
Context `{Env, MountEnv, Csum, OptionAnswers, SystemStates}.

(** ** Reports and writes *)

Lemma kept_calm s s' : errors_ok s -> kept s s' -> calm 0 s s'.
Proof.
  intros Hok [M D K L C F P]. split; [done| |lia|done|done|congruence|..].
  - exists (m_flags (p_mount s)), (s_mount_state (p_sbi s)). split; [done|].
    rewrite M at 1. unfold p_sbi. generalize (p_mount s). by intros [???????? [] ??????????????].
  - intros Hro. unfold p_rdonly. by rewrite M.
  - unfold p_rdonly. rewrite M. by left.
Qed.

Lemma committed_disk_is s s' : committed s 0 s' -> p_disk s' = [p_es s'] /\ ext4_superblock_csum_verify (p_sbi s') (p_es s') = true.
Proof.
  intros [[Hr _]|(s1 & Hf & [[Hr _]|[_ ->]])]; [done..|]. split; [done|].
  pose proof (fl_csum _ _ Hf) as Hv. by replace (p_sbi s) with (p_sbi s1) in Hv by by rewrite (fl_rest _ _ Hf).
Qed.

Lemma wp_commit_kept s held calls (Q : Z -> world super -> Prop) :
  errors_ok s -> sb_unlocked held ->
  (forall r s' calls, kept s s' ->
     (r = 0 -> p_disk s' = [p_es s'] /\ ext4_superblock_csum_verify (p_sbi s') (p_es s') = true) -> Q r (World s' held calls)) ->
  wp ext4_commit_super Q (World s held calls).
Proof.
  intros Hok Hul HQ. apply wp_commit_super; [done..|]. intros r s' c Hc. apply HQ.
  - by apply (committed_kept s r).
  - intros ->. by apply (committed_disk_is s).
Qed.

Lemma wp_flush_work s held calls (Q : unit -> world super -> Prop) :
  errors_ok s -> sb_unlocked held ->
  (forall s' calls, calm 0 s s' -> Q tt (World s' held calls)) -> wp flush_work Q (World s held calls).
Proof.
  intros Hok Hul HQ. unfold flush_work. wp_step. wp_step. destruct (p_work s).
  - apply wp_update_super_work; [done..|]. intros s' c (Hk & _). apply HQ. by apply kept_calm.
  - wp_step. apply HQ. by apply calm_refl.
Qed.

(** A report panics only with errors=panic; then nothing runs any more. *)
Definition panics {A} (s : super) (Q : option A -> world super -> Prop) : Prop :=
  p_test_opt s EXT4_MOUNT_ERRORS_PANIC = true -> forall w', Q None w'.

Lemma mount_state_mount x s :
  p_mount (set_mount_state x s) = re_mount (m_flags (p_mount s)) (p_es (set_mount_state x s)) (u16 x) (p_mount s).
Proof. by destruct s as [[???????? [] ??????????????]]. Qed.
Lemma valid_bit x : Z.testbit (u16 (Z.lor x EXT4_ERROR_FS)) 0 = Z.testbit x 0.
Proof. unfold u16, wrap. rewrite Z.mod_pow2_bits_low, Z.lor_spec by lia. by rewrite orb_false_r. Qed.

Lemma handled_calm writable force_ro e0 s r s' :
  handled writable force_ro e0 s r s' -> calm 1 s s'.
Proof.
  intros Hh. pose proof (hd_mode _ _ _ _ _ _ Hh) as Hm. destruct Hh as [K _ _ _ _ Hr _ D C (fl & Hfl & M) F _].
  assert (Hms : p_mount s' = re_mount fl (p_es s') (u16 (Z.lor (s_mount_state (p_sbi s)) EXT4_ERROR_FS)) (p_mount s)).
  { exact M. }
  split; [done| |done|done| |..].
  - exists fl, (u16 (Z.lor (s_mount_state (p_sbi s)) EXT4_ERROR_FS)). split; [apply valid_bit|done].
  - intros es Hes. destruct (D es Hes) as [|[-> _]]; [by left|by right].
  - intros Hs. destruct (_ && _).
    + destruct Hm as (_ & -> & _). done.
    + destruct Hm as (_ & ->). by rewrite Hs.
  - intros Hro. unfold p_rdonly. rewrite Hms. destruct Hfl as [->| ->]; [exact Hro|apply (rdonly_lor (p_mount s))].
  - intros Hro. destruct (negb force_ro && _).
    + destruct Hm as (Hro' & _). left. congruence.
    + destruct Hm as (_ & ->). destruct (p_rdonly s); [by left|]. right. by rewrite orb_true_r.
Qed.

Lemma wp_unless {A B} (m : K super (option A)) (f : A -> K super (option B)) Q w :
  wp m (fun r w' => match r with Some a => wp (f a) Q w' | None => Q None w' end) w -> wp (unless_panic m f) Q w.
Proof. intros Hm. apply wp_bind. eapply wp_mono; [exact Hm|]. intros [a|] w' Hw; [done|by apply wp_ret]. Qed.

Context (writable : bool) (Hout : outside_ok writable).

Lemma wp_error func line force_ro error block s held calls (Q : option unit -> world super -> Prop) :
  errors_ok s -> p_add_error_count s + 1 < 2 ^ 31 -> sb_unlocked held -> panics s Q ->
  (forall s' calls, calm 1 s s' -> Q (Some tt) (World s' held calls)) ->
  wp (__ext4_error func line force_ro error block) Q (World s held calls).
Proof.
  intros Hok Hmax Hul HP HQ. unfold __ext4_error. wp_step. wp_step. unfold ext4_forced_shutdown. destruct (p_shutdown s).
  - wp_step. apply HQ. eapply calm_more; [by apply calm_refl|lia].
  - wp_step. wp_step. apply (wp_handle_error writable); [done|done|lia|done|]. intros r s' c Hh.
    destruct (hd_return _ _ _ _ _ _ Hh) as [->|Hp].
    + apply HQ. by eapply handled_calm.
    + destruct r as [[]|]; [|by apply HP]. apply HQ. by eapply handled_calm.
Qed.

Lemma upd_mount_same_fs f s :
  (exists flags st, f (p_mount s) = re_mount flags (m_es (f (p_mount s))) st (p_mount s)) ->
  errors_ok (upd_mount f s) -> same_fs 0 s (upd_mount f s).
Proof. intros Hf Hok. split; [done|exact Hf|]. cbn. lia. Qed.
Lemma upd_es_same_fs f s : errors_ok s -> tidy (p_es s) (f (p_es s)) -> same_fs 0 s (upd_es f s).
Proof.
  intros Hok Ht. apply upd_mount_same_fs; [|by apply errors_ok_es]. exists (m_flags (p_mount s)), (s_mount_state (p_sbi s)).
  unfold p_sbi. generalize (p_mount s). by intros [???????? [] ??????????????].
Qed.

(** ** Marks set *)

Lemma wp_setup_super s held calls (Q : Z -> world super -> Prop) :
  errors_ok s -> sb_unlocked held ->
  (forall r s' calls, same_fs 0 s s' -> p_rdonly s' = p_rdonly s -> p_shutdown s' = p_shutdown s ->
     (r = 0 -> in_use (m_journal (p_mount s)) (p_es s') /\ p_disk s' = [p_es s']) -> Q r (World s' held calls)) ->
  wp (ext4_setup_super false) Q (World s held calls).
Proof.
  intros Hok Hul HQ. unfold ext4_setup_super. wp_step. wp_step. destruct (_ <? _).
  { wp_step. by apply HQ; [apply same_fs_refl|..]. }
  wp_step.
  assert (Hgo : forall c, wp (now <~ call_int "ktime_get_real_seconds" [];;
    kmodify (upd_es (setup_es (m_journal (p_mount s)) now));;; ext4_commit_super) Q (World s held c)).
  { intros c. wp_step. wp_step. wp_step. wp_step. set (s1 := upd_es _ s).
    assert (Hs1 : same_fs 0 s s1) by by apply upd_es_same_fs, tidy_setup.
    apply wp_commit_kept; [apply Hs1|done|]. intros r s' c' Hk Hr.
    pose proof (calm_same_fs _ _ _ (kept_calm _ _ (sf_ok _ _ _ Hs1) Hk)) as Hf.
    apply HQ.
    - by eapply same_fs_trans.
    - by rewrite (kept_rdonly _ _ Hk).
    - by rewrite (kp_shutdown _ _ Hk).
    - intros E. destruct (Hr E) as [Hd _]. split; [|done]. apply (in_use_marks _ (p_es s1)); [apply Hk|].
      apply setup_es_in_use, Hok. }
  destruct (looks_at_clock s); wp_step; apply Hgo.
Qed.

(** No lock that this code takes is held. *)
Definition life_unlocked (held : list res) : Prop :=
  sb_unlocked held /\ existsb (blocks_on (Excl LBarrier)) held = false /\
  existsb (blocks_on (Excl LWritepages)) held = false.
Lemma barrier_unlocked held : sb_unlocked held -> sb_unlocked (Excl LBarrier :: held).
Proof. by intros [Hs He]. Qed.

Lemma kept_ro s s' : kept s s' -> stays_ro s s'.
Proof. intros Hk Hro. by rewrite (kept_rdonly _ _ Hk). Qed.

Lemma wp_mark_recovery s held calls (Q : option Z -> world super -> Prop) :
  errors_ok s -> p_add_error_count s + 1 < 2 ^ 31 -> life_unlocked held -> m_journal (p_mount s) = true -> panics s Q ->
  (forall r s' calls, same_fs 1 s s' -> stays_ro s s' -> Q (Some r) (World s' held calls)) ->
  wp ext4_mark_recovery_complete Q (World s held calls).
Proof.
  intros Hok Hmax (Hul & Hub & _) Hj HP HQ. unfold ext4_mark_recovery_complete. wp_step. wp_step. rewrite Hj.
  assert (Hcalm : forall r s' c, calm 1 s s' -> Q (Some r) (World s' held c)).
  { intros r s' c Hc. by apply HQ; [apply calm_same_fs|apply Hc]. }
  destruct (negb (ext4_has_feature_journal (p_es s))).
  { apply wp_unless, wp_error; [done..|]. intros s' c Hc. wp_step. by apply Hcalm. }
  cbn [negb]. wp_step. wp_step. wp_step. wp_step. cbv zeta.
  assert (C0 : calm 1 s s) by (eapply calm_more; [by apply calm_refl|lia]).
  destruct (z <? 0); [do 3 wp_step; by apply Hcalm|]. wp_step. wp_step.
  destruct (p_rdonly s && _); [|do 3 wp_step; by apply Hcalm]. wp_step. wp_step.
  match goal with |- wp (if ?x then _ else _) _ _ => destruct x end.
  { apply wp_unless, wp_error; [done|done|by apply barrier_unlocked|done|]. intros s' c Hc'. do 3 wp_step. by apply Hcalm. }
  wp_step. wp_step. wp_step. set (s1 := upd_es _ s).
  assert (F1 : same_fs 0 s s1).
  { apply upd_es_same_fs; [done|]. eapply tidy_trans; [exact (proj2 (tidy_incompat _ EXT4_FEATURE_INCOMPAT_RECOVER))|].
    exact (proj2 (tidy_ro_compat _ EXT4_FEATURE_RO_COMPAT_ORPHAN_PRESENT)). }
  apply wp_commit_kept; [apply F1|by apply barrier_unlocked|]. intros r s' c Hk _. do 3 wp_step.
  apply HQ; [|exact (kept_ro _ _ Hk)].
  eapply same_fs_trans; [exact F1|apply calm_same_fs, kept_calm; [apply F1|exact Hk]|lia].
Qed.

Lemma mount_state_es x f s :
  p_mount (upd_es f (set_mount_state x s))
  = re_mount (m_flags (p_mount s)) (p_es (upd_es f (set_mount_state x s))) (u16 x) (p_mount s).
Proof. by destruct s as [[???????? [] ??????????????]]. Qed.
(** An error of the journal is moved to the super block: the marks stay. *)
Lemma wp_clear_journal_err s held calls (Q : option Z -> world super -> Prop) :
  errors_ok s -> p_add_error_count s + 1 < 2 ^ 31 -> life_unlocked held -> m_journal (p_mount s) = true -> panics s Q ->
  (forall r s' calls, calm 1 s s' -> Q (Some r) (World s' held calls)) ->
  wp ext4_clear_journal_err Q (World s held calls).
Proof.
  intros Hok Hmax (Hul & _) Hj HP HQ. unfold ext4_clear_journal_err. wp_step. wp_step. rewrite Hj.
  destruct (negb (ext4_has_feature_journal (p_es s))).
  { apply wp_unless, wp_error; [done..|]. intros s' c Hc. wp_step. by apply HQ. }
  cbn [negb]. wp_step. wp_step.
  match goal with |- wp (if ?x then _ else _) _ _ => destruct x end.
  { wp_step. apply HQ. eapply calm_more; [by apply calm_refl|lia]. }
  wp_step. wp_step. wp_step. wp_step. wp_step. set (s1 := upd_es _ _).
  assert (F1 : calm 0 s s1).
  { destruct (eo_es s Hok) as [Hl Hb]. unfold sizeof_ext4_super_block in Hl.
    assert (Es : s_state (p_es s1) = u16 (Z.lor (s_state (p_es s)) EXT4_ERROR_FS)) by (apply (get16_put16_eq (p_es s)); lia).
    split; [| |change (p_add_error_count s1) with (p_add_error_count s); lia| |by left|done|by intros ?|by left].
    - apply errors_ok_es; [|apply tidy_put; [done|apply tidy_refl]]. by apply (errors_same s).
    - exists (m_flags (p_mount s)), (u16 (Z.lor (s_mount_state (p_sbi s)) EXT4_ERROR_FS)).
      split; [apply valid_bit|apply mount_state_es].
    - apply (marks_same [(0x3A, 2)]); [apply (same_off_put _ _ 2)|done|]. right. rewrite Es. apply valid_bit. }
  apply wp_commit_kept; [apply F1|done|]. intros r s' c Hk _.
  assert (C1 : calm 1 s s') by (eapply calm_trans; [exact F1|by apply kept_calm; [apply F1|]|lia]).
  destruct (negb (r =? 0)); [wp_step; by apply HQ|]. do 5 wp_step. by apply HQ.
Qed.

(** ** The parts of a remount *)

Lemma set_rdonly_same_fs s : errors_ok s -> same_fs 0 s (set_rdonly s).
Proof.
  intros Hok. apply upd_mount_same_fs; [|by apply (errors_same s)].
  exists (Z.lor (m_flags (p_mount s)) SB_RDONLY), (s_mount_state (p_sbi s)).
  unfold p_sbi. generalize (p_mount s). by intros [???????? [] ??????????????].
Qed.

Lemma wp_remount_ro s held calls (Q : option (Z + bool) -> world super -> Prop) :
  errors_ok s -> p_add_error_count s + 1 < 2 ^ 31 -> life_unlocked held -> panics s Q ->
  (forall err calls, err < 0 -> Q (Some (inl err)) (World s held calls)) ->
  (forall s' calls, same_fs 1 s s' -> p_rdonly s' = true -> Q (Some (inr false)) (World s' held calls)) ->
  wp remount_ro Q (World s held calls).
Proof.
  intros Hok Hmax Hul HP HE HQ. unfold remount_ro. wp_step. wp_step.
  destruct (Z.ltb_spec z 0); [wp_step; by apply HE|]. wp_step. wp_step.
  destruct (Z.ltb_spec z0 0); [wp_step; by apply HE|]. wp_step. wp_step. wp_step. wp_step. wp_step.
  set (s1 := set_rdonly s). pose proof (set_rdonly_same_fs s Hok : same_fs 0 s s1) as F1.
  assert (R1 : p_rdonly s1 = true) by apply set_rdonly_on.
  assert (Hgo : forall s2 c, same_fs 0 s s2 -> p_rdonly s2 = true ->
    wp (unless_panic (if m_journal (p_mount s1) then ext4_mark_recovery_complete else kret (Some 0))
          (fun _ => kret (Some (inr false)))) Q (World s2 held c)).
  { intros s2 c F2 R2. apply wp_unless.
    assert (C2 : p_add_error_count s2 + 1 < 2 ^ 31) by (pose proof (sf_count _ _ _ F2); lia).
    destruct (m_journal (p_mount s1)) eqn:Ej.
    - apply wp_mark_recovery; [apply F2|done|done| | |].
      + rewrite (same_fs_journal _ _ _ F2). by rewrite <- (same_fs_journal _ _ _ F1).
      + intros Hp w'. apply HP. by rewrite <- (same_fs_opt _ _ _ _ F2).
      + intros r s' c' Hs Hst. wp_step. apply HQ; [|by apply Hst]. by eapply same_fs_trans.
    - wp_step. wp_step. apply HQ; [|done]. eapply same_fs_trans; [exact F2|by apply same_fs_refl, F2|lia]. }
  destruct (_ && _).
  - wp_step. apply Hgo; [|exact R1].
    eapply same_fs_trans; [exact F1|apply upd_es_same_fs; [apply F1|]|lia]. apply tidy_put; [done|apply tidy_refl].
  - wp_step. by apply Hgo.
Qed.

(** What a file system must be to be written: its features, the checksums of its group
    descriptors, and no orphans. *)
Record writable_fs (s : super) : Prop := {
  wf_readonly : ext4_has_feature_readonly (p_es s) = false;
  wf_features : (ext4_feature_set_ok false (p_mount s)).1 = true;
  wf_csums g : 0 <= g < s_groups_count (p_sbi s) ->
    exists gdp, desc s g = Some gdp /\ ext4_group_desc_csum_verify (p_sbi s) (p_es s) g gdp = true;
  wf_orphans : s_last_orphan (p_es s) = 0
}.
Definition descs_ok (s : super) : Prop :=
  0 <= s_groups_count (p_sbi s) /\ forall g, 0 <= g < s_groups_count (p_sbi s) -> is_Some (desc s g).

Lemma csums_ok_spec n s g :
  0 <= g -> g + Z.of_nat n <= s_groups_count (p_sbi s) -> descs_ok s ->
  exists b, csums_ok n s g = Some b /\
  (b = true -> forall i, g <= i < g + Z.of_nat n ->
     exists gdp, desc s i = Some gdp /\ ext4_group_desc_csum_verify (p_sbi s) (p_es s) i gdp = true).
Proof.
  intros Hg Hn [_ Hd]. revert g Hg Hn. induction n as [|n IH]; intros g Hg Hn; cbn [csums_ok].
  { exists true. split; [done|]. intros _ i ?. lia. }
  destruct (Hd g) as [gdp Egd]; [lia|]. rewrite Egd. destruct (ext4_group_desc_csum_verify _ _ _ _) eqn:Ev; [|by exists false].
  destruct (IH (g + 1)) as (b & Eb & Hb); [lia..|]. exists b. split; [done|]. intros Ht i Hi.
  destruct (decide (i = g)) as [->|]; [by exists gdp|]. apply Hb; [done|lia].
Qed.

Lemma feature_set_flags m : exists flags, (ext4_feature_set_ok false m).2 = set_m_flags flags m.
Proof.
  assert (E : m = set_m_flags (m_flags m) m) by by destruct m.
  unfold ext4_feature_set_ok. repeat case_match; cbn [snd]; eauto.
Qed.

(** The end of [remount_rw]: the file system is in use, on the device too. *)
Record made_rw (s s' : super) : Prop := {
  rw_fs : same_fs 1 s s';
  rw_rdonly : p_rdonly s' = false;
  rw_mark : in_use (m_journal (p_mount s)) (p_es s');
  rw_disk : p_disk s' = [p_es s']
}.

Lemma clear_rdonly m : sb_rdonly (set_m_flags (Z.land (m_flags m) (Z.lnot SB_RDONLY)) m) = false.
Proof.
  unfold sb_rdonly. cbn [m_flags set_m_flags]. rewrite <- Z.land_assoc, (Z.land_comm (Z.lnot _)), Z.land_lnot_diag.
  by rewrite Z.land_0_r.
Qed.

Lemma wp_start_writing s s2 held calls (Q : option (Z + bool) -> world super -> Prop) :
  same_fs 1 s s2 -> sb_unlocked held ->
  (forall err s' calls, err <> 0 -> same_fs 1 s s' -> Q (Some (inl err)) (World s' held calls)) ->
  (forall s' calls, made_rw s s' -> Q (Some (inr true)) (World s' held calls)) ->
  wp start_writing Q (World s2 held calls).
Proof.
  intros F2 Hul HE HQ. unfold start_writing. wp_step. wp_step. set (s3 := set_mount_state _ s2).
  assert (F3 : same_fs 0 s2 s3).
  { apply upd_mount_same_fs; [|apply (errors_same s2); [done..|apply F2]].
    eexists _, _. apply mount_state_mount. }
  wp_step. apply wp_setup_super; [apply F3|done|]. intros r s4 c F4 _ _ Hr.
  assert (F : same_fs 1 s s4).
  { eapply (same_fs_trans 1 0); [exact F2| |lia]. by eapply (same_fs_trans 0 0 0); [exact F3|exact F4|]. }
  destruct (Z.eqb_spec r 0) as [E|]; cbn [negb]; [|wp_step; by apply HE]. destruct (Hr E) as [Hm Hd].
  wp_step. wp_step. wp_step. wp_step. set (s5 := upd_mount _ s4).
  assert (F5 : same_fs 0 s4 s5).
  { apply upd_mount_same_fs; [|apply (errors_same s4); [done..|apply F4]].
    exists (Z.land (m_flags (p_mount s4)) (Z.lnot SB_RDONLY)), (s_mount_state (m_sbi (p_mount s4))). generalize (p_mount s4). by intros [???????? [] ??????????????]. }
  assert (F' : same_fs 1 s s5) by (eapply same_fs_trans; [exact F|exact F5|lia]).
  assert (Hrw : made_rw s s5).
  { split; [done|apply clear_rdonly| |exact Hd]. rewrite (same_fs_journal _ _ _ F3), (same_fs_journal _ _ _ F2) in Hm. exact Hm. }
  destruct (ext4_has_feature_mmp (p_es s5)).
  - wp_step. wp_step. wp_step. destruct (Z.eqb_spec z 0); [by apply HQ|by apply HE].
  - wp_step. by apply HQ.
Qed.

Lemma wp_remount_rw s held calls (Q : option (Z + bool) -> world super -> Prop) :
  errors_ok s -> p_add_error_count s + 1 < 2 ^ 31 -> life_unlocked held -> descs_ok s -> panics s Q ->
  (forall err s' calls, err <> 0 -> same_fs 1 s s' -> Q (Some (inl err)) (World s' held calls)) ->
  (forall s' calls, writable_fs s -> made_rw s s' -> Q (Some (inr true)) (World s' held calls)) ->
  wp remount_rw Q (World s held calls).
Proof.
  intros Hok Hmax Hul Hd HP HE HQ. pose proof (proj1 Hul) as Hsb. unfold remount_rw. wp_step. wp_step.
  assert (F0 : same_fs 1 s s) by (eapply (same_fs_trans 0 0); [by apply same_fs_refl..|lia]).
  destruct (ext4_has_feature_readonly (p_es s)) eqn:Ero; [wp_step; by apply HE|].
  destruct (ext4_feature_set_ok false (p_mount s)) as [ok m] eqn:Eok. wp_step. wp_step. set (s1 := upd_mount _ s).
  assert (F1 : same_fs 0 s s1).
  { destruct (feature_set_flags (p_mount s)) as [fl Em]. rewrite Eok in Em. cbn [snd] in Em. subst m.
    apply upd_mount_same_fs; [|by apply (errors_same s)]. exists fl, (s_mount_state (m_sbi (p_mount s))).
    by destruct (p_mount s) as [???????? [] ??????????????]. }
  assert (F1' : same_fs 1 s s1) by (eapply same_fs_trans; [exact F1|by apply same_fs_refl, F1|lia]).
  destruct ok; cbn [negb]; [|wp_step; by apply HE].
  destruct (csums_ok_spec (Z.to_nat (s_groups_count (p_sbi s))) s 0) as (b & -> & Hb); [lia|pose proof (proj1 Hd); lia|done|].
  destruct b; [|wp_step; by apply HE]. wp_step.
  assert (Hrest : forall c, s_last_orphan (p_es s) = 0 -> wp (unless_panic
      (if m_journal (p_mount s) then ext4_clear_journal_err else kret (Some 0)) (fun err =>
      if negb (err =? 0) then kret (Some (inl err)) else start_writing)) Q (World s1 held c)).
  { intros c Horph. assert (Hw : writable_fs s).
    { split; [done|by rewrite Eok| |done]. intros g Hg. apply Hb; [done|]. pose proof (proj1 Hd). lia. }
    apply wp_unless.
    assert (Hgo : forall s2 err c, same_fs 1 s s2 ->
      wp (if negb (err =? 0) then kret (Some (inl err)) else start_writing) Q (World s2 held c)).
    { intros s2 err c' F2. destruct (Z.eqb_spec err 0); cbn [negb]; [|wp_step; by apply HE].
      apply (wp_start_writing s); [done..| |]; auto. }
    destruct (m_journal (p_mount s)) eqn:Ej.
    - apply wp_clear_journal_err; [apply F1|pose proof (sf_count _ _ _ F1); lia|done| | |].
      + by rewrite (same_fs_journal _ _ _ F1).
      + intros Hp w'. apply HP. by rewrite <- (same_fs_opt _ _ _ _ F1).
      + intros r s' c' Hc. apply Hgo. eapply same_fs_trans; [exact F1|by apply calm_same_fs|lia].
    - wp_step. by apply Hgo. }
  destruct (Z.eqb_spec (s_last_orphan (p_es s)) 0) as [Eo|Eo].
  - wp_step. match goal with |- wp (if ?x then _ else _) _ _ => destruct x end; [wp_step; by apply HE|]. by apply Hrest.
  - wp_step. cbn [Z.eqb]. wp_step. by apply HE.
Qed.

Lemma wp_release_system_zone s held calls (Q : unit -> world super -> Prop) :
  (forall c, Q tt (World s held c)) -> wp release_system_zone Q (World s held calls).
Proof.
  intros HQ. unfold release_system_zone. wp_step. wp_step. destruct (p_test_opt s _); [wp_step; apply HQ|]. wp_step. wp_step.
  match goal with |- wp (if ?x then _ else _) _ _ => destruct x end; repeat wp_step; apply HQ.
Qed.
Lemma wp_stop_mmpd s held calls (Q : unit -> world super -> Prop) :
  (forall c, Q tt (World s held c)) -> wp stop_mmpd Q (World s held calls).
Proof. intros HQ. unfold stop_mmpd. wp_step. wp_step. destruct (_ || _); repeat wp_step; apply HQ. Qed.

(** What a failed remount leaves of the mount. *)
Definition restored (flags : Z) (o : ext4_mount_options) (m : mount) : mount :=
  let m := restore_options flags o m in if CONFIG_QUOTA then restore_quota o m else m.

Lemma wp_restore_opts flags o err s held calls (Q : option Z -> world super -> Prop) :
  life_unlocked held -> (forall c, Q (Some err) (World (upd_mount (restored flags o) s) held c)) ->
  wp (restore_opts flags o err) Q (World s held calls).
Proof.
  intros (_ & _ & Hlw) HQ. unfold restore_opts. wp_step. wp_step. wp_step.
  assert (Hgo : forall c, wp (acquire (Excl LWritepages);;; kmodify (upd_mount (restore_options flags o));;;
    release (Excl LWritepages);;; release_system_zone;;;
    (if CONFIG_QUOTA then kmodify (upd_mount (restore_quota o)) else kret tt);;; stop_mmpd;;; kret (Some err)) Q
    (World s held c)).
  { intros c. do 7 wp_step. apply wp_release_system_zone. intros c2. wp_step. unfold restored in HQ. destruct CONFIG_QUOTA.
    - do 2 wp_step. apply wp_stop_mmpd. intros c3. wp_step. apply HQ.
    - do 2 wp_step. apply wp_stop_mmpd. intros c3. wp_step. apply HQ. }
  destruct (p_rdonly s && _); [|wp_step; apply Hgo]. wp_step. wp_step.
  match goal with |- wp (if ?x then _ else _) _ _ => destruct x end; [wp_step; apply Hgo|]. wp_step. wp_step. wp_step. apply Hgo.
Qed.

Lemma wp_or_restore flags o err rest s held calls (Q : option Z -> world super -> Prop) :
  life_unlocked held ->
  (forall c, err <> 0 -> Q (Some err) (World (upd_mount (restored flags o) s) held c)) ->
  (err = 0 -> wp rest Q (World s held calls)) -> wp (or_restore flags o err rest) Q (World s held calls).
Proof.
  intros Hul HE HQ. unfold or_restore. destruct (Z.eqb_spec err 0); cbn [negb]; [by apply HQ|].
  apply wp_restore_opts; [done|]. intros c. by apply HE.
Qed.

(** Steps that only ask the code around. *)
Definition answers (m : K super Z) : Prop := forall w, exists z c, m w = Ret z (World (w_st w) (w_held w) c).
Lemma wp_answer m s held calls (Q : Z -> world super -> Prop) :
  answers m -> (forall z c, Q z (World s held c)) -> wp m Q (World s held calls).
Proof. intros Hm HQ. destruct (Hm (World s held calls)) as (z & c & E). unfold wp. rewrite E. apply HQ. Qed.
Lemma setup_zone_answers : answers setup_zone.
Proof.
  intros [s h c]. unfold setup_zone, kbind, kget, call_int, kret. cbn [w_st w_held w_calls].
  repeat case_match; eauto.
Qed.
Lemma quota_again_answers b : answers (quota_again b).
Proof.
  intros [s h c]. unfold quota_again, kbind, kget, call_int, kret. destruct (CONFIG_QUOTA && b); [|eauto].
  cbn [w_st w_held w_calls]. repeat case_match; eauto.
Qed.

Lemma wp_remount_done s held calls (Q : option Z -> world super -> Prop) :
  (forall c, Q (Some 0) (World s held c)) -> wp remount_done Q (World s held calls).
Proof.
  intros HQ. unfold remount_done. wp_step. apply wp_release_system_zone. intros c. wp_step. wp_step. wp_step.
  destruct (_ || _); wp_step; wp_step; apply wp_stop_mmpd; intros c3; wp_step; apply HQ.
Qed.

(** The end of a remount: the super block of a file system without a journal that was
    writable is written. *)
Lemma wp_remount_end flags o enable_quota s held calls (Q : option Z -> world super -> Prop) :
  errors_ok s -> life_unlocked held ->
  (forall s' calls, kept s s' ->
     (m_journal (p_mount s) = false -> Z.land flags SB_RDONLY = 0 -> p_disk s' = [p_es s']) ->
     (p_disk s = [p_es s] -> p_disk s' = [p_es s']) -> Q (Some 0) (World s' held calls)) ->
  (forall err s' calls, err <> 0 -> kept s s' -> Q (Some err) (World (upd_mount (restored flags o) s') held calls)) ->
  wp (remount_end flags o enable_quota) Q (World s held calls).
Proof.
  intros Hok Hul HQ HE. unfold remount_end. wp_step. apply wp_answer; [apply setup_zone_answers|]. intros err c.
  apply wp_or_restore; [done|intros c2 ?; by apply HE, reported_refl|]. intros _.
  assert (Hquota : forall s2 c, kept s s2 ->
    (m_journal (p_mount s) = false -> Z.land flags SB_RDONLY = 0 -> p_disk s2 = [p_es s2]) ->
    (p_disk s = [p_es s] -> p_disk s2 = [p_es s2]) ->
    wp (err <~ quota_again enable_quota;; or_restore flags o err remount_done) Q (World s2 held c)).
  { intros s2 c2 K2 D2 D2'. wp_step. apply wp_answer; [apply quota_again_answers|]. intros err2 c3.
    apply wp_or_restore; [done|intros c4 ?; by apply HE|]. intros _. apply wp_remount_done. intros c4. by apply HQ. }
  wp_step. unfold commit_no_journal. wp_step. wp_step. destruct (negb _ && _) eqn:Ecommit.
  - apply wp_commit_kept; [done|apply Hul|]. intros r s' c2 Hk Hr. apply wp_or_restore; [done|intros c3 ?; by apply HE|].
    intros E. destruct (Hr E) as [Hd _]. by apply Hquota.
  - wp_step. apply wp_or_restore; [done|done|]. intros _. apply Hquota; [by apply reported_refl| |done].
    intros Ej Ef. rewrite Ej, Ef in Ecommit. done.
Qed.

Lemma kept_same_fs s s' : errors_ok s -> kept s s' -> same_fs 0 s s'.
Proof. intros Hok Hk. by apply calm_same_fs, kept_calm. Qed.

(** The checked options are in the state [s]: what a remount that succeeds does. *)
Record remount_ok (rdonly : bool) (flags : Z) (s s' : super) : Prop := {
  rm_fs : same_fs 3 s s';
  rm_mode : p_rdonly s' = rdonly;
  rm_same : rdonly = false -> p_rdonly s = false -> calm 1 s s';
  rm_rw : rdonly = false -> p_rdonly s = true ->
    in_use (m_journal (p_mount s)) (p_es s') /\ p_disk s' = [p_es s'] /\
    exists s1, calm 1 s s1 /\ p_shutdown s1 = false /\ writable_fs s1;
  rm_disk : m_journal (p_mount s) = false -> Z.land flags SB_RDONLY = 0 -> p_disk s' = [p_es s']
}.

Lemma set_posixacl_calm s : errors_ok s -> calm 0 s (upd_mount set_posixacl s) /\ p_rdonly (upd_mount set_posixacl s) = p_rdonly s.
Proof.
  intros Hok. assert (Hro : p_rdonly (upd_mount set_posixacl s) = p_rdonly s).
  { unfold p_rdonly, sb_rdonly, set_posixacl. cbn [p_mount upd_mount set_p_mount m_flags set_m_flags]. do 2 f_equal.
    set (f := if _ =? 0 then 0 else SB_POSIXACL).
    rewrite Z.land_comm, Z.land_lor_distr_r, Z.land_assoc, (Z.land_comm SB_RDONLY), <- Z.land_assoc.
    change (Z.land SB_RDONLY (Z.lnot SB_POSIXACL)) with SB_RDONLY.
    replace (Z.land SB_RDONLY f) with 0 by (unfold f; by destruct (_ =? _)). by rewrite Z.lor_0_r. }
  split; [|done]. split; [by apply (errors_same s)| |cbn; lia|done|by left|done|by intros ?; rewrite Hro|rewrite Hro; by left].
  exists (m_flags (set_posixacl (p_mount s))), (s_mount_state (p_sbi s)). split; [done|]. unfold p_sbi.
  change (p_mount (upd_mount set_posixacl s)) with (set_posixacl (p_mount s)).
  change (p_es (upd_mount set_posixacl s)) with (m_es (p_mount s)).
  generalize (p_mount s). by intros [???????? [] ??????????????].
Qed.

(** From the test for the change between read-only and read-write on. *)
Lemma wp_remount_mode rdonly flags o s0 s held calls (Q : option Z -> world super -> Prop) :
  calm 1 s0 s -> p_add_error_count s0 + 3 < 2 ^ 31 -> life_unlocked held -> descs_ok s -> panics s0 Q ->
  (forall s' calls, remount_ok rdonly flags s0 s' -> Q (Some 0) (World s' held calls)) ->
  (forall err s2 calls, err <> 0 -> same_fs 3 s0 s2 -> (rdonly = false -> p_rdonly s0 = false -> calm 1 s0 s2) ->
     Q (Some err) (World (upd_mount (restored flags o) s2) held calls)) ->
  wp (unless_panic (if Bool.eqb rdonly (p_rdonly s) then kret (Some (inr false))
         else if ext4_forced_shutdown s then kret (Some (inl (- EROFS)))
         else if rdonly then remount_ro else remount_rw)
       (fun r => match r with inl err => restore_opts flags o err | inr e => remount_end flags o e end)) Q (World s held calls).
Proof.
  intros Hc Hmax Hul Hd HP HQ HE. pose proof (ca_ok _ _ _ Hc) as Hok. pose proof (ca_count _ _ _ Hc) as Hcount.
  pose proof (calm_same_fs _ _ _ Hc) as F. pose proof (same_fs_journal _ _ _ F) as Ej.
  apply wp_unless.
  destruct (Bool.eqb_spec rdonly (p_rdonly s)) as [Em|Em].
  { wp_step. apply wp_remount_end; [done|done| |].
    - intros s' c Hk D1 _. pose proof (kept_calm _ _ Hok Hk) as Ck. apply HQ. split.
      + eapply same_fs_trans; [exact F|exact (calm_same_fs _ _ _ Ck)|lia].
      + by rewrite (kept_rdonly _ _ Hk).
      + intros _ _. eapply calm_trans; [exact Hc|exact Ck|lia].
      + intros Hrw Hro. pose proof (ca_stay _ _ _ Hc Hro). congruence.
      + intros E1 E2. apply D1; [congruence|done].
    - intros err s' c He Hk. pose proof (kept_calm _ _ Hok Hk) as Ck. apply HE; [done| |].
      + eapply same_fs_trans; [exact F|exact (calm_same_fs _ _ _ Ck)|lia].
      + intros _ _. eapply calm_trans; [exact Hc|exact Ck|lia]. }
  unfold ext4_forced_shutdown. destruct (p_shutdown s) eqn:Eup.
  { wp_step. apply wp_restore_opts; [done|]. intros c. apply HE; [done|eapply same_fs_trans; [exact F|by apply same_fs_refl|lia]|done]. }
  assert (HP' : panics s Q) by (intros Hp; apply HP; by rewrite <- (same_fs_opt _ _ _ _ F)).
  destruct rdonly.
  - apply wp_remount_ro; [done|lia|done|exact HP'| |].
    + intros err c He. apply wp_restore_opts; [done|]. intros c2.
      apply HE; [lia|eapply same_fs_trans; [exact F|by apply same_fs_refl|lia]|done].
    + intros s2 c F2 R2. apply wp_remount_end; [apply F2|done| |].
      * intros s' c' Hk D1 _. pose proof (kept_same_fs _ _ (sf_ok _ _ _ F2) Hk) as Fk. apply HQ.
        split; [|by rewrite (kept_rdonly _ _ Hk)|done|done|].
        -- eapply same_fs_trans; [exact F|eapply (same_fs_trans 1 0 1); [exact F2|exact Fk|lia]|lia].
        -- intros E1 E2. apply D1; [rewrite (same_fs_journal _ _ _ F2); congruence|done].
      * intros err s' c' He Hk. apply HE; [done| |done].
        eapply same_fs_trans; [exact F|eapply (same_fs_trans 1 0 1); [exact F2|by apply kept_same_fs; [apply F2|]|lia]|lia].
  - assert (Hro : p_rdonly s = true) by by destruct (p_rdonly s).
    assert (Hro0 : p_rdonly s0 = true) by (destruct (ca_ro _ _ _ Hc Hro); congruence).
    apply wp_remount_rw; [done|lia|done|done|exact HP'| |].
    + intros err s2 c He F2. apply wp_restore_opts; [done|]. intros c2.
      apply HE; [done|eapply same_fs_trans; [exact F|exact F2|lia]|congruence].
    + intros s2 c Hw [F2 R2 M2 D2]. apply wp_remount_end; [apply F2|done| |].
      * intros s' c' Hk D1 D1'. pose proof (kept_same_fs _ _ (sf_ok _ _ _ F2) Hk) as Fk. apply HQ. split.
        -- eapply same_fs_trans; [exact F|eapply (same_fs_trans 1 0 1); [exact F2|exact Fk|lia]|lia].
        -- by rewrite (kept_rdonly _ _ Hk).
        -- congruence.
        -- intros _ _. split; [|split; [by apply D1'|by exists s]]. rewrite <- Ej.
           apply (in_use_marks _ (p_es s2)); [apply Hk|exact M2].
        -- intros _ _. by apply D1'.
      * intros err s' c' He Hk. apply HE; [done| |congruence].
        eapply same_fs_trans; [exact F|eapply (same_fs_trans 1 0 1); [exact F2|by apply kept_same_fs; [apply F2|]|lia]|lia].
Qed.

(** The descriptors are there however the operations change the state. *)
Definition steady (s : super) : Prop := forall k s', same_fs k s s' -> descs_ok s'.

Lemma wp_remount_apply rdonly ioprio flags o s held calls (Q : option Z -> world super -> Prop) :
  errors_ok s -> p_add_error_count s + 3 < 2 ^ 31 -> life_unlocked held -> steady s -> panics s Q ->
  (forall s' calls, remount_ok rdonly flags s s' -> Q (Some 0) (World s' held calls)) ->
  (forall err s2 calls, err <> 0 -> same_fs 3 s s2 -> (rdonly = false -> p_rdonly s = false -> calm 1 s s2) ->
     Q (Some err) (World (upd_mount (restored flags o) s2) held calls)) ->
  wp (remount_apply rdonly ioprio flags o) Q (World s held calls).
Proof.
  intros Hok Hmax Hul Hd HP HQ HE. pose proof (proj1 Hul) as Hsb. unfold remount_apply. wp_step. wp_step. apply wp_unless.
  assert (Hgo : forall s1 c, calm 1 s s1 -> wp (kmodify (upd_mount set_posixacl);;;
      (if m_journal (p_mount s) then ext4_init_journal_params;;; call_int "set_task_ioprio" [ioprio];;; kret tt else kret tt);;;
      flush_work;;; s <~ kget;;
      unless_panic (if Bool.eqb rdonly (p_rdonly s) then kret (Some (inr false))
         else if ext4_forced_shutdown s then kret (Some (inl (- EROFS)))
         else if rdonly then remount_ro else remount_rw)
       (fun r => match r with inl err => restore_opts flags o err | inr e => remount_end flags o e end)) Q (World s1 held c)).
  { intros s1 c C1. wp_step. wp_step. destruct (set_posixacl_calm s1 (ca_ok _ _ _ C1)) as [C2 _].
    set (s2 := upd_mount set_posixacl s1) in *. assert (C : calm 1 s s2) by (eapply calm_trans; [exact C1|exact C2|lia]).
    assert (Hflush : forall c, wp (flush_work;;; s <~ kget;;
      unless_panic (if Bool.eqb rdonly (p_rdonly s) then kret (Some (inr false))
         else if ext4_forced_shutdown s then kret (Some (inl (- EROFS)))
         else if rdonly then remount_ro else remount_rw)
       (fun r => match r with inl err => restore_opts flags o err | inr e => remount_end flags o e end)) Q (World s2 held c)).
    { intros c2. wp_step. apply wp_flush_work; [apply C|done|]. intros s3 c3 C3. wp_step. wp_step.
      assert (C' : calm 1 s s3) by (eapply calm_trans; [exact C|exact C3|lia]).
      eapply wp_remount_mode; [exact C'|done|done| |done|done|done]. eapply Hd. by apply calm_same_fs. }
    wp_step. destruct (m_journal (p_mount s)).
    - unfold ext4_init_journal_params. do 11 wp_step. apply Hflush.
    - wp_step. apply Hflush. }
  destruct (negb _).
  - apply wp_error; [done|lia|done| |].
    + intros Hp w'. by apply HP.
    + intros s1 c C1. by apply Hgo.
  - wp_step. apply Hgo. eapply calm_more; [by apply calm_refl|lia].
Qed.
End Spec.
