(* ===== verification/RemountUse.v ===== *)
(** * Remounting and freezing

    [__ext4_remount] either does what was asked or takes the options back; a freeze that
    succeeds leaves a clean super block on the device, a thaw marks it again. *)

From stdpp Require Import prelude list strings.
From Stdlib Require Import ZArith Lia.
From S2P Require Import Prelude Kernel Bytes Layout Mount MountOpts MountSuper SuperState SuperSpec SuperReport.
From S2P Require Import Remount RemountSpec.

Local Open Scope Z_scope.

(** ** Options *)

(** A mount with other options. *)
Definition re_opts (flags opt opt2 : Z) (p : opt_params) (i : inode_info) (q : quota_opts) (m : mount) : mount :=
  set_m_quota q (set_m_ino i (set_m_par p (set_m_opt2 opt2 (set_m_opt opt (set_m_flags flags m))))).
Definition other_opts (m m' : mount) : Prop := exists flags opt opt2 p i q, m' = re_opts flags opt opt2 p i q m.
Lemma other_opts_refl m : other_opts m m.
Proof. exists (m_flags m), (m_opt m), (m_opt2 m), (m_par m), (m_ino m), (m_quota m). by destruct m. Qed.
Lemma other_opts_trans m1 m2 m3 : other_opts m1 m2 -> other_opts m2 m3 -> other_opts m1 m3.
Proof. intros (?&?&?&?&?&?&->) (f&o&o2&p&i&q&->). by exists f, o, o2, p, i, q. Qed.

Section Options.
Context `{MountEnv}.

Lemma when_opts b f m : (forall m, other_opts m (f m)) -> other_opts m (when b f m).
Proof. intros Hf. destruct b; [apply Hf|apply other_opts_refl]. Qed.
Lemma set_opt_opts x m : other_opts m (set_m_opt x m).
Proof. exists (m_flags m), x, (m_opt2 m), (m_par m), (m_ino m), (m_quota m). by destruct m. Qed.
Lemma set_flags_opts x m : other_opts m (set_m_flags x m).
Proof. exists x, (m_opt m), (m_opt2 m), (m_par m), (m_ino m), (m_quota m). by destruct m. Qed.
Lemma set_opt2_opts x m : other_opts m (set_m_opt2 x m).
Proof. exists (m_flags m), (m_opt m), x, (m_par m), (m_ino m), (m_quota m). by destruct m. Qed.
Lemma set_par_opts x m : other_opts m (set_m_par x m).
Proof. exists (m_flags m), (m_opt m), (m_opt2 m), x, (m_ino m), (m_quota m). by destruct m. Qed.
Lemma set_quota_opts x m : other_opts m (set_m_quota x m).
Proof. exists (m_flags m), (m_opt m), (m_opt2 m), (m_par m), (m_ino m), x. by destruct m. Qed.
Lemma set_ino_opts x m : other_opts m (set_m_ino x m).
Proof. exists (m_flags m), (m_opt m), (m_opt2 m), (m_par m), x, (m_quota m). by destruct m. Qed.

Lemma apply_qf_name_opts i cs m : other_opts m cs.2 -> other_opts m (apply_qf_name i cs).2.
Proof.
  destruct cs as [c s]. unfold apply_qf_name. cbn [snd]. intros Hm. destruct (negb _); [done|]. cbn [snd].
  apply (other_opts_trans _ _ _ Hm). eapply other_opts_trans; [|apply set_quota_opts]. apply when_opts. intros. apply set_opt_opts.
Qed.
Lemma apply_options_opts c m : other_opts m (ext4_apply_options c m).2.
Proof.
  unfold ext4_apply_options. set (m1 := when _ _ _).
  assert (Hm1 : other_opts m m1).
  { unfold m1. eapply other_opts_trans; [|apply when_opts; intros; apply set_ino_opts].
    eapply other_opts_trans; [|apply set_par_opts]. eapply other_opts_trans; [|apply set_flags_opts].
    eapply other_opts_trans; [|apply set_opt2_opts]. apply set_opt_opts. }
  clearbody m1.
  assert (H2 : other_opts m (ext4_apply_quota_options c m1).2).
  { unfold ext4_apply_quota_options. destruct (_ || _); [done|].
    set (cs := if has_spec c EXT4_SPEC_JQUOTA then _ else _).
    assert (Hcs : other_opts m cs.2) by (unfold cs; destruct (has_spec _ _); [by do 3 apply apply_qf_name_opts|done]).
    destruct cs as [c' m']. cbn [snd] in *. apply (other_opts_trans _ _ _ Hcs). apply when_opts. intros. apply set_quota_opts. }
  destruct (ext4_apply_quota_options c m1) as [c2 m2]. cbn [snd] in H2. unfold ext4_apply_test_dummy_encryption.
  destruct (_ || _); [done|]. apply (other_opts_trans _ _ _ H2), set_quota_opts.
Qed.

(** The state a remount checks: the options applied, journal_checksum as it was. *)
Definition applied (c : ext4_fs_context) (m : mount) : mount :=
  keep_journal_checksum (m_opt m) (ext4_apply_options c m).2.
Lemma applied_opts c m : other_opts m (applied c m).
Proof.
  unfold applied, keep_journal_checksum. eapply other_opts_trans; [apply apply_options_opts|].
  destruct (_ =? _); [apply other_opts_refl|apply set_opt_opts].
Qed.

(** The options do not touch SB_RDONLY. *)
Definition context_ok (c : ext4_fs_context) : Prop :=
  Z.testbit (c_mask_s_flags c) 0 = false /\ Z.testbit (c_vals_s_flags c) 0 = false.

Lemma when_flags b f m : (forall m, m_flags (f m) = m_flags m) -> m_flags (when b f m) = m_flags m.
Proof. intros Hf. destruct b; [apply Hf|done]. Qed.
Lemma apply_qf_name_flags i cs : m_flags (apply_qf_name i cs).2 = m_flags cs.2.
Proof.
  destruct cs as [c s]. unfold apply_qf_name. destruct (negb _); [done|]. cbn [snd].
  change (m_flags (when (is_some_name (c_qf_names c) i) (set_opt EXT4_MOUNT_QUOTA) s) = m_flags s). by apply when_flags.
Qed.
Lemma apply_options_flags c m :
  m_flags (ext4_apply_options c m).2 = Z.lor (Z.land (m_flags m) (Z.lnot (c_mask_s_flags c))) (c_vals_s_flags c).
Proof.
  unfold ext4_apply_options. set (m1 := when _ _ _).
  assert (Hm1 : m_flags m1 = Z.lor (Z.land (m_flags m) (Z.lnot (c_mask_s_flags c))) (c_vals_s_flags c)) by by apply when_flags.
  clearbody m1. rewrite <- Hm1.
  assert (H2 : m_flags (ext4_apply_quota_options c m1).2 = m_flags m1).
  { unfold ext4_apply_quota_options. destruct (_ || _); [done|]. set (cs := if has_spec c EXT4_SPEC_JQUOTA then _ else _).
    assert (Hcs : m_flags cs.2 = m_flags m1) by (unfold cs; destruct (has_spec _ _); [by rewrite !apply_qf_name_flags|done]).
    destruct cs as [c' m']. cbn [snd] in *. rewrite <- Hcs. by apply when_flags. }
  destruct (ext4_apply_quota_options c m1) as [c2 m2]. cbn [snd] in H2. unfold ext4_apply_test_dummy_encryption.
  by destruct (_ || _).
Qed.
Lemma rdonly_bit m : sb_rdonly m = Z.testbit (m_flags m) 0.
Proof.
  unfold sb_rdonly. change SB_RDONLY with (Z.ones 1). rewrite Z.land_ones by lia. change (2 ^ 1) with 2.
  rewrite <- Z.bit0_mod. by destruct (Z.testbit (m_flags m) 0).
Qed.
Lemma applied_rdonly c m : context_ok c -> sb_rdonly (applied c m) = sb_rdonly m.
Proof.
  intros [Hm Hv]. rewrite !rdonly_bit. unfold applied, keep_journal_checksum.
  set (m1 := (ext4_apply_options c m).2). assert (E : Z.testbit (m_flags m1) 0 = Z.testbit (m_flags m) 0).
  { unfold m1. rewrite apply_options_flags, Z.lor_spec, Z.land_spec, Z.lnot_spec, Hm, Hv by lia.
    by rewrite andb_true_r, orb_false_r. }
  by destruct (_ =? _).
Qed.
End Options.

Section Remounting.
Context `{Env, MountEnv, Csum, OptionAnswers, SystemStates}.
Context (writable : bool) (Hout : outside_ok writable).

(** A descriptor for every group of the table. *)
Class DescsThere := descs_there sbi bufs g :
  0 <= g < s_groups_count sbi -> s_groups_count sbi <= Z.of_nat (length bufs) * (s_blocksize sbi / s_desc_size sbi) ->
  is_Some (ext4_get_group_desc sbi bufs g).
Definition table_ok (m : mount) : Prop :=
  0 <= s_groups_count (m_sbi m) <= Z.of_nat (length (m_gdb m)) * (s_blocksize (m_sbi m) / s_desc_size (m_sbi m)).
Lemma table_steady `{DescsThere} s : table_ok (p_mount s) -> steady s.
Proof.
  intros [Hp Ht] k s' [_ (fl & st & M) _]. unfold descs_ok, desc, p_sbi. rewrite M. split; [exact Hp|].
  intros g Hg. apply descs_there; [exact Hg|]. rewrite length_fmap. exact Ht.
Qed.

(** ** Remounting *)

(** The options a failed remount has to give back. *)
Record rolled_back (m m' : mount) : Prop := {
  rb_flags : m_flags m' = m_flags m;
  rb_opt : m_opt m' = m_opt m;
  rb_opt2 : m_opt2 m' = m_opt2 m;
  rb_resuid : s_resuid (m_par m') = s_resuid (m_par m);
  rb_resgid : s_resgid (m_par m') = s_resgid (m_par m);
  rb_commit : s_commit_interval (m_par m') = s_commit_interval (m_par m);
  rb_min : s_min_batch_time (m_par m') = s_min_batch_time (m_par m);
  rb_max : s_max_batch_time (m_par m') = s_max_batch_time (m_par m);
  rb_quota : CONFIG_QUOTA = true ->
    s_jquota_fmt (m_quota m') = s_jquota_fmt (m_quota m) /\ s_qf_names (m_quota m') = s_qf_names (m_quota m)
}.
Lemma restored_rolled_back m m2 : rolled_back m (restored (m_flags m) (save_options m) m2).
Proof. unfold restored. by destruct CONFIG_QUOTA eqn:E; split; try done; rewrite E. Qed.

Definition with_options (c : ext4_fs_context) (s : super) : super := upd_mount (applied c) s.
Lemma with_options_ok c s : errors_ok s -> errors_ok (with_options c s) /\ p_es (with_options c s) = p_es s.
Proof.
  intros Hok. destruct (applied_opts c (p_mount s)) as (f & o & o2 & p & i & q & E).
  assert (Ees : p_es (with_options c s) = p_es s).
  { unfold p_es, with_options. cbn [p_mount upd_mount set_p_mount]. by rewrite E. }
  split; [|done]. destruct Hok as [? ? ? ? ?]. split; rewrite ?Ees; done.
Qed.

Lemma opts_table m m' : other_opts m m' -> table_ok m -> table_ok m'.
Proof. by intros (?&?&?&?&?&?&->). Qed.
Lemma opts_journal m m' : other_opts m m' -> m_journal m' = m_journal m.
Proof. by intros (?&?&?&?&?&?&->). Qed.
Lemma restored_opts flags o m : other_opts m (restored flags o m).
Proof.
  unfold restored, restore_options, restore_quota. set (m1 := set_m_par _ _).
  assert (Hm1 : other_opts m m1).
  { unfold m1. eapply other_opts_trans; [|apply set_par_opts]. eapply other_opts_trans; [|apply set_opt2_opts].
    eapply other_opts_trans; [|apply set_opt_opts]. apply set_flags_opts. }
  clearbody m1. destruct CONFIG_QUOTA; [|done]. eapply other_opts_trans; [exact Hm1|apply set_quota_opts].
Qed.

(** The end of a remount that returns [r]. *)
Definition remounted (c : ext4_fs_context) (rdonly : bool) (s : super) (r : Z) (s' : super) : Prop :=
  (r = - ENOMEM /\ s' = s) \/
  (r = 0 /\ options_conflict (m_opt (p_mount s)) (applied c (p_mount s)) = false /\
   remount_ok rdonly (m_flags (p_mount s)) (with_options c s) s') \/
  (r <> 0 /\ exists s2, same_fs 3 (with_options c s) s2 /\
     (rdonly = false -> p_rdonly s = false -> calm 1 (with_options c s) s2) /\
     s' = upd_mount (restored (m_flags (p_mount s)) (save_options (p_mount s))) s2).

Lemma wp_remount c sb_flags s held calls (Q : option Z -> world super -> Prop) :
  errors_ok s -> p_add_error_count s + 3 < 2 ^ 31 -> life_unlocked held -> steady (with_options c s) ->
  context_ok c -> panics (with_options c s) Q ->
  (forall r s' calls, remounted c (negb (Z.land sb_flags SB_RDONLY =? 0)) s r s' -> Q (Some r) (World s' held calls)) ->
  wp (__ext4_remount c sb_flags) Q (World s held calls).
Proof.
  intros Hok Hmax Hul Hst Hctx HP HQ. unfold __ext4_remount. wp_step. wp_step. wp_step. set (rdonly := negb (_ =? 0)) in *.
  assert (Hro : p_rdonly (with_options c s) = p_rdonly s) by by apply applied_rdonly.
  destruct (with_options_ok c s Hok) as [Hok1 _].
  assert (Happ : forall ioprio calls, wp (remount_with c rdonly (p_mount s) ioprio) Q (World s held calls)).
  { intros ioprio c0. pose proof (proj2 (proj2 Hul)) as Hlw. unfold remount_with. do 10 wp_step.
    change (upd_mount (keep_journal_checksum (m_opt (p_mount s))) (upd_mount (fun m => (ext4_apply_options c m).2) s))
      with (with_options c s).
    destruct (options_conflict _ _) eqn:Ecf.
    - apply wp_restore_opts; [done|]. intros c2. apply HQ. right; right. split; [done|].
      exists (with_options c s). split; [eapply (same_fs_trans 0 0); [by apply same_fs_refl..|lia]|].
      split; [|done]. intros _ _. eapply calm_more; [by apply calm_refl|lia].
    - apply (wp_remount_apply writable); [done|done|done|done|done|done| |].
      + intros s' c2 Hr. apply HQ. right; left. done.
      + intros err s2 c2 He F Hc. apply HQ. right; right. split; [done|]. exists s2. split; [done|]. split; [|done].
        intros Hr E. apply Hc; [done|by rewrite Hro]. }
  assert (Hdup : forall l c (Q : bool -> world super -> Prop), (forall b c, Q b (World s held c)) -> wp (dup_names l) Q (World s held c)).
  { intros l. induction l as [|[n|] l IH]; intros c0 Q' HQ'; cbn [dup_names]; [wp_step; apply HQ'| |by apply IH].
    wp_step. wp_step. destruct r; [by apply IH..|wp_step; apply HQ']. }
  assert (Hgo : forall dup c0, wp (if negb dup then kret (Some (- ENOMEM)) else
      ioprio <~ journal_ioprio c;; remount_with c rdonly (p_mount s) ioprio) Q (World s held c0)).
  { intros [] c0; cbn [negb]; [|wp_step; apply HQ; by left]. wp_step. unfold journal_ioprio.
    destruct (has_spec c _); [wp_step; apply Happ|]. wp_step. wp_step. destruct (m_journal _); [|wp_step; apply Happ].
    wp_step. wp_step. destruct r; wp_step; apply Happ. }
  destruct CONFIG_QUOTA; [apply Hdup; intros b c0|wp_step]; apply Hgo.
Qed.

(** ** Freezing *)

Lemma clear_recover es :
  es_wf es -> ext4_has_feature_journal_needs_recovery (ext4_clear_feature_journal_needs_recovery es) = false.
Proof.
  intros [Hl Hb]. unfold sizeof_ext4_super_block in Hl.
  unfold ext4_has_feature_journal_needs_recovery, ext4_clear_feature_journal_needs_recovery, ext4_has_incompat, ext4_clear_incompat.
  unfold s_feature_incompat at 1. rewrite get32_put32_eq by lia. apply negb_false_iff, Z.eqb_eq.
  apply Z.bits_inj'. intros i Hi. rewrite Z.land_spec, Z.bits_0. unfold u32, wrap.
  destruct (decide (i < 32)).
  - rewrite Z.mod_pow2_bits_low, Z.land_spec, Z.lnot_spec by lia. by destruct (Z.testbit EXT4_FEATURE_INCOMPAT_RECOVER i);
      rewrite ?andb_false_r.
  - rewrite Z.mod_pow2_bits_high by lia. done.
Qed.
Lemma clear_orphan_recover es :
  ext4_has_feature_journal_needs_recovery (ext4_clear_feature_orphan_present es) = ext4_has_feature_journal_needs_recovery es.
Proof.
  unfold ext4_has_feature_journal_needs_recovery, ext4_clear_feature_orphan_present, ext4_has_incompat, ext4_clear_ro_compat,
    s_feature_incompat. by rewrite le_get_put_out by lia.
Qed.

Lemma marks_recover es es' :
  marks es' = marks es -> ext4_has_feature_journal_needs_recovery es' = ext4_has_feature_journal_needs_recovery es.
Proof.
  intros E. pose proof (f_equal (fun m => m.1.1.1.2) E : s_feature_incompat es' = s_feature_incompat es) as E2.
  unfold ext4_has_feature_journal_needs_recovery, ext4_has_incompat. by rewrite E2.
Qed.

(** A freeze that succeeds leaves a clean super block on the device. *)
Record frozen_ok (r : Z) (s s' : super) : Prop := {
  fz_fs : same_fs 0 s s';
  fz_rdonly : p_rdonly s' = p_rdonly s;
  fz_shutdown : p_shutdown s' = p_shutdown s;
  fz_kept : m_journal (p_mount s) = false -> kept s s';
  fz_clean : r = 0 -> p_disk s' = [p_es s'] /\ ext4_superblock_csum_verify (p_sbi s') (p_es s') = true /\
    (m_journal (p_mount s) = true -> ext4_has_feature_journal_needs_recovery (p_es s') = false)
}.

Lemma commit_frozen s s1 r s' :
  errors_ok s -> same_fs 0 s s1 -> p_rdonly s1 = p_rdonly s -> p_shutdown s1 = p_shutdown s ->
  (if m_journal (p_mount s) then ext4_has_feature_journal_needs_recovery (p_es s1) = false else s1 = s) -> kept s1 s' ->
  (r = 0 -> p_disk s' = [p_es s'] /\ ext4_superblock_csum_verify (p_sbi s') (p_es s') = true) -> frozen_ok r s s'.
Proof.
  intros Hok F R U Hm Hk Hr. split.
  - eapply same_fs_trans; [exact F|apply kept_same_fs; [apply F|exact Hk]|lia].
  - by rewrite (kept_rdonly _ _ Hk).
  - by rewrite (kp_shutdown _ _ Hk).
  - intros Ej. rewrite Ej in Hm. by subst s1.
  - intros E. destruct (Hr E) as [Hd Hv]. split_and!; [done|done|]. intros Ej. rewrite Ej in Hm.
    by rewrite (marks_recover _ _ (kp_marks _ _ Hk)).
Qed.

Lemma wp_freeze s held calls (Q : Z -> world super -> Prop) :
  errors_ok s -> life_unlocked held -> (forall r s' calls, frozen_ok r s s' -> Q r (World s' held calls)) ->
  wp ext4_freeze Q (World s held calls).
Proof.
  intros Hok (Hul & Hub & _) HQ. unfold ext4_freeze. wp_step. wp_step. cbv zeta.
  destruct (m_journal (p_mount s)) eqn:Ej.
  2:{ wp_step. apply wp_commit_kept; [done|done|]. intros r s' c Hk Hr. wp_step. apply HQ.
      eapply (commit_frozen s s); [done|by apply same_fs_refl|done|done|by rewrite Ej|done|done]. }
  wp_step. wp_step. wp_step. wp_step. destruct (Z.ltb_spec z 0).
  { do 3 wp_step. apply HQ. split; [by apply same_fs_refl|done|done|congruence|lia]. }
  wp_step. wp_step. wp_step. wp_step. wp_step. set (s1 := upd_es _ s).
  assert (F1 : same_fs 0 s s1).
  { apply upd_es_same_fs; [done|]. exact (proj2 (tidy_incompat _ EXT4_FEATURE_INCOMPAT_RECOVER)). }
  assert (M1 : ext4_has_feature_journal_needs_recovery (p_es s1) = false) by apply clear_recover, Hok.
  assert (Hgo : forall s2 c, same_fs 0 s s2 -> p_rdonly s2 = p_rdonly s -> p_shutdown s2 = p_shutdown s ->
    ext4_has_feature_journal_needs_recovery (p_es s2) = false ->
    wp (error <~ ext4_commit_super;; release (Excl LBarrier);;; kret error) Q (World s2 (Excl LBarrier :: held) c)).
  { intros s2 c F2 R2 U2 M2. wp_step. apply wp_commit_kept; [apply F2|by apply barrier_unlocked|].
    intros r s' c' Hk Hr. do 3 wp_step. apply HQ. eapply (commit_frozen s s2); [done..|by rewrite Ej|done|done]. }
  match goal with |- wp (if ?x then _ else _) _ _ => destruct x end; [wp_step; by apply Hgo|]. wp_step.
  apply Hgo; [|done|done|].
  - eapply same_fs_trans; [exact F1|apply upd_es_same_fs; [apply F1|]|lia].
    exact (proj2 (tidy_ro_compat _ EXT4_FEATURE_RO_COMPAT_ORPHAN_PRESENT)).
  - by rewrite <- M1, <- (clear_orphan_recover (p_es s1)).
Qed.

(** A thaw marks the file system again. *)
Record thawed (s s' : super) : Prop := {
  th_fs : same_fs 0 s s';
  th_rdonly : p_rdonly s' = p_rdonly s;
  th_shutdown : p_shutdown s' = p_shutdown s;
  th_kept : m_journal (p_mount s) = false -> kept s s';
  th_mark : m_journal (p_mount s) = true -> p_shutdown s = false -> in_use true (p_es s')
}.
Lemma wp_unfreeze s held calls (Q : Z -> world super -> Prop) :
  errors_ok s -> life_unlocked held -> (forall s' calls, thawed s s' -> Q 0 (World s' held calls)) ->
  wp ext4_unfreeze Q (World s held calls).
Proof.
  intros Hok (Hul & _) HQ. unfold ext4_unfreeze. wp_step. wp_step. unfold ext4_forced_shutdown.
  destruct (p_shutdown s) eqn:Eu.
  { wp_step. apply HQ. split; [by apply same_fs_refl|done|done| |congruence]. intros _. by apply reported_refl. }
  wp_step. destruct (m_journal (p_mount s)) eqn:Ej.
  - wp_step. set (s1 := upd_es _ s). assert (F1 : same_fs 0 s s1) by by apply upd_es_same_fs, tidy_set_in_use.
    wp_step. apply wp_commit_kept; [apply F1|done|]. intros r s' c Hk _. wp_step. apply HQ. split.
    + eapply same_fs_trans; [exact F1|apply kept_same_fs; [apply F1|exact Hk]|lia].
    + by rewrite (kept_rdonly _ _ Hk).
    + by rewrite (kp_shutdown _ _ Hk).
    + congruence.
    + intros _ _. apply (in_use_marks _ (p_es s1)); [apply Hk|]. apply set_in_use_ok, Hok.
  - wp_step. wp_step. apply wp_commit_kept; [done|done|]. intros r s' c Hk _. wp_step. apply HQ.
    split; [by apply kept_same_fs|by rewrite (kept_rdonly _ _ Hk)|by rewrite (kp_shutdown _ _ Hk)|done|congruence].
Qed.
End Remounting.

(** ** Properties *)

(** C19: [__ext4_remount] returns with every lock given back, and one of three things
    happened.  It lacked memory for the names of the quota files, and nothing changed.  Or
    it succeeded: no two of the new options exclude each other, the file system is read-only
    or not as asked, and if it was read-only and is not any more, it has features, descriptor
    checksums and no orphans such that it may be written, was not shut down, and is marked in
    use on the device.  Or it failed: flags, option words, the times, the reserved user and
    group and the quota files are those from before, and a file system that was to stay
    writable has kept its marks.  It panics only if the new options say so. *)
Theorem remount_correct `{Env, MountEnv, Csum, OptionAnswers, SystemStates, !DescsThere} writable c sb_flags s held calls :
  outside_ok writable -> errors_ok s -> p_add_error_count s + 3 < 2 ^ 31 -> life_unlocked held -> table_ok (p_mount s) ->
  context_ok c ->
  wp (__ext4_remount c sb_flags) (fun r w' =>
    let rdonly := negb (Z.land sb_flags SB_RDONLY =? 0) in
    match r with
    | None => p_test_opt (with_options c s) EXT4_MOUNT_ERRORS_PANIC = true
    | Some r => w_held w' = held /\
        ((r = - ENOMEM /\ w_st w' = s) \/
         (r = 0 /\ options_conflict (m_opt (p_mount s)) (applied c (p_mount s)) = false /\
          remount_ok rdonly (m_flags (p_mount s)) (with_options c s) (w_st w')) \/
         (r <> 0 /\ rolled_back (p_mount s) (p_mount (w_st w')) /\
          (rdonly = false -> p_rdonly s = false -> marks (p_es (w_st w')) = marks (p_es s))))
    end) (World s held calls).
Proof.
  intros Hout Hok Hmax Hul Ht Hctx. apply (wp_remount writable Hout); [done|done|done| |done|by intros Hp w'|].
  { apply table_steady. by apply (opts_table _ _ (applied_opts c (p_mount s))). }
  intros r s' calls' Hr. split; [done|]. destruct Hr as [Hr|[Hr|(Hn & s2 & _ & Hc & ->)]]; [by left|by right; left|right; right].
  split; [done|]. split; [apply restored_rolled_back|]. intros Ha Hro. specialize (Hc Ha Hro).
  destruct (with_options_ok c s Hok) as [_ Ees]. rewrite <- Ees, <- (ca_marks _ _ _ Hc). f_equal. unfold p_es.
  cbn [p_mount w_st upd_mount set_p_mount]. by destruct (restored_opts (m_flags (p_mount s)) (save_options (p_mount s)) (p_mount s2))
    as (?&?&?&?&?&?&->).
Qed.
