(* ===== verification/Life.v ===== *)
(** * A life: from the mount on

    Over a whole history of reports, writes, remounts, freezes and thaws the super block says
    that the file system is in use whenever it can be written, and that it is clean while it
    is frozen. *)

From stdpp Require Import prelude list strings.
From Stdlib Require Import ZArith Lia.
From S2P Require Import Prelude Kernel Bytes Layout Mount MountOpts MountSuper SuperState SuperSpec SuperReport.
From S2P Require Import Remount RemountSpec RemountUse.

Local Open Scope Z_scope.

Section Life.
Context `{Env, MountEnv, Csum, OptionAnswers, SystemStates}.
Context (writable : bool) (Hout : outside_ok writable).

(** ** The operations *)

(** The operations, in any order; the VFS freezes and remounts only what is not frozen, thaws
    what is, and does not call the file system to freeze or thaw while it is read-only. *)
Inductive life_op :=
  | Report (ino block : Z) (func : list Z) (line error : Z)
  | WriteSuper
  | Work
  | Reconfigure (c : ext4_fs_context) (sb_flags : Z)
  | Freeze
  | Thaw.

Definition run_op (frozen : bool) (op : life_op) : K super (option (Z * bool)) :=
  match op with
  | Report ino block func line error => _ <~? __ext4_error_inode ino func line block error;; kret (Some (0, frozen))
  | WriteSuper => r <~ ext4_commit_super;; kret (Some (r, frozen))
  | Work => flush_work;;; kret (Some (0, frozen))
  | Reconfigure c sb_flags =>
      if frozen then kret (Some (0, frozen)) else r <~? ext4_reconfigure c sb_flags;; kret (Some (r, frozen))
  | Freeze =>
      if frozen then kret (Some (0, frozen)) else
      s <~ kget;;
      if p_rdonly s then kret (Some (0, true)) else r <~ ext4_freeze;; kret (Some (r, r =? 0))
  | Thaw =>
      if negb frozen then kret (Some (0, frozen)) else
      s <~ kget;;
      if p_rdonly s then kret (Some (0, false)) else r <~ ext4_unfreeze;; kret (Some (r, false))
  end.

(** The operations one after the other: whether the file system is frozen in the end, and
    what each left. *)
Fixpoint run_life (frozen : bool) (ops : list life_op) : K super (option (bool * list (Z * super))) :=
  match ops with
  | [] => kret (Some (frozen, []))
  | op :: ops =>
      r <~? run_op frozen op;;
      s <~ kget;;
      t <~? run_life r.2 ops;;
      kret (Some (t.1, (r.1, s) :: t.2))
  end.

Definition live (s : super) : Prop := p_rdonly s = false /\ p_shutdown s = false.
Definition asks_ro (sb_flags : Z) : bool := negb (Z.land sb_flags SB_RDONLY =? 0).
(** A remount to read-only makes it so, a freeze succeeds, and what a thaw writes reaches the
    device. *)
Definition went_well (op : life_op) (t : Z * super) : Prop :=
  match op with
  | Reconfigure _ sb_flags => asks_ro sb_flags = true -> p_rdonly t.2 = true
  | Freeze => t.1 = 0
  | Thaw => live t.2 -> p_disk t.2 = [p_es t.2]
  | _ => True
  end.

(** A file system that can be written is marked in use, in memory and on the device. *)
Definition guarded (s : super) : Prop :=
  live s -> in_use (m_journal (p_mount s)) (p_es s) /\ forall es, es ∈ p_disk s -> in_use (m_journal (p_mount s)) es.
(** A frozen file system with a journal is clean. *)
Definition clean (s : super) : Prop :=
  m_journal (p_mount s) = true -> p_rdonly s = false ->
  forall es, es ∈ p_disk s \/ es = p_es s -> ext4_has_feature_journal_needs_recovery es = false.
Definition marked (frozen : bool) (s : super) : Prop :=
  (frozen = false \/ m_journal (p_mount s) = false -> guarded s) /\ (frozen = true -> clean s).

Lemma calm_live k s s' : calm k s s' -> live s' -> live s.
Proof.
  intros [_ _ _ _ _ U S _] [Hro Hup]. split.
  - destruct (p_rdonly s) eqn:E; [|done]. rewrite (S E) in Hro. done.
  - destruct (p_shutdown s) eqn:E; [|done]. rewrite (U eq_refl) in Hup. done.
Qed.
Lemma calm_guarded k s s' : calm k s s' -> guarded s -> guarded s'.
Proof.
  intros Hc Hg Hl. destruct (Hg (calm_live _ _ _ Hc Hl)) as [Hm Hd]. rewrite (same_fs_journal _ _ _ (calm_same_fs _ _ _ Hc)).
  split; [by apply (in_use_marks _ (p_es s)), Hm; apply Hc|]. intros es Hes.
  destruct (ca_disk _ _ _ Hc es Hes) as [|E]; [by apply Hd|]. by apply (in_use_marks _ (p_es s)).
Qed.
Lemma calm_clean k s s' : calm k s s' -> clean s -> clean s'.
Proof.
  intros Hc Hcl Hj Hro es Hes. rewrite (same_fs_journal _ _ _ (calm_same_fs _ _ _ Hc)) in Hj.
  assert (Hro' : p_rdonly s = false).
  { destruct (p_rdonly s) eqn:E; [|done]. rewrite (ca_stay _ _ _ Hc E) in Hro. done. }
  specialize (Hcl Hj Hro'). destruct Hes as [Hes| ->].
  - destruct (ca_disk _ _ _ Hc es Hes) as [|E]; [by apply Hcl; left|]. rewrite (marks_recover _ _ E). by apply Hcl; right.
  - rewrite (marks_recover _ _ (ca_marks _ _ _ Hc)). by apply Hcl; right.
Qed.
Lemma calm_marked k frozen s s' : calm k s s' -> marked frozen s -> marked frozen s'.
Proof.
  intros Hc [Hg Hcl]. split.
  - intros Hf. apply (calm_guarded _ _ _ Hc), Hg. by rewrite <- (same_fs_journal _ _ _ (calm_same_fs _ _ _ Hc)).
  - intros Hf. by apply (calm_clean _ _ _ Hc), Hcl.
Qed.

(** What every operation keeps, whether it goes well or not. *)
Record base (k : Z) (s s' : super) : Prop := {
  ba_ok : errors_ok s';
  ba_table : table_ok (p_mount s');
  ba_journal : m_journal (p_mount s') = m_journal (p_mount s);
  ba_count : p_add_error_count s' <= p_add_error_count s + k
}.
Lemma same_fs_base k s s' : table_ok (p_mount s) -> same_fs k s s' -> base k s s'.
Proof. intros Ht [K (f & t & M) C]. split; [done|by rewrite M|by rewrite M|done]. Qed.

(** ** One operation *)

Lemma remounted_base c rdonly s r s' :
  errors_ok s -> table_ok (p_mount s) -> remounted c rdonly s r s' -> base 3 s s'.
Proof.
  intros Hok Ht Hr. destruct (with_options_ok c s Hok) as [Hok1 _]. pose proof (applied_opts c (p_mount s)) as Ho.
  assert (Hb : forall s2, same_fs 3 (with_options c s) s2 -> base 3 s s2).
  { intros s2 F. apply same_fs_base in F; [|by apply (opts_table _ _ Ho)]. destruct F as [K T J C]. split; try done.
    rewrite J. apply (opts_journal _ _ Ho). }
  destruct Hr as [[_ ->]|[(_ & _ & Hr)|(_ & s2 & F & _ & ->)]].
  - split; [done..|lia].
  - apply Hb, Hr.
  - destruct (Hb s2 F) as [K T J C]. pose proof (restored_opts (m_flags (p_mount s)) (save_options (p_mount s)) (p_mount s2)) as Hres.
    split; [|by apply (opts_table _ _ Hres)|by rewrite <- J; apply (opts_journal _ _ Hres)|done].
    assert (Ees : p_es (upd_mount (restored (m_flags (p_mount s)) (save_options (p_mount s))) s2) = p_es s2).
    { unfold p_es. cbn [p_mount upd_mount set_p_mount]. destruct Hres as (?&?&?&?&?&?&->). done. }
    destruct K as [? ? ? ? ?]. split; rewrite ?Ees; done.
Qed.

Lemma remounted_guarded c rdonly s r s' :
  errors_ok s -> context_ok c -> remounted c rdonly s r s' -> (rdonly = true -> p_rdonly s' = true) ->
  guarded s -> guarded s'.
Proof.
  intros Hok Hctx Hr Hwell Hg Hl. destruct rdonly; [destruct Hl as [Hl _]; rewrite (Hwell eq_refl) in Hl; done|].
  destruct (with_options_ok c s Hok) as [Hok1 Ees]. pose proof (applied_rdonly c (p_mount s) Hctx) as Hro1.
  pose proof (opts_journal _ _ (applied_opts c (p_mount s))) as Ej.
  assert (Hg1 : guarded (with_options c s)).
  { intros [Hro Hup]. change (p_rdonly (with_options c s)) with (sb_rdonly (applied c (p_mount s))) in Hro.
    rewrite Hro1 in Hro. change (m_journal (p_mount (with_options c s))) with (m_journal (applied c (p_mount s))).
    rewrite Ej, Ees. by apply Hg. }
  destruct Hr as [[_ ->]|[(_ & _ & Hr)|(_ & s2 & F & Hc & ->)]]; [by apply Hg| |].
  - destruct (p_rdonly (with_options c s)) eqn:Ero.
    + destruct (rm_rw _ _ _ _ Hr eq_refl Ero) as (Hm & Hd & _). rewrite (same_fs_journal _ _ _ (rm_fs _ _ _ _ Hr)).
      split; [done|]. intros es Hes. rewrite Hd in Hes. apply list_elem_of_singleton in Hes as ->. done.
    + apply (calm_guarded 1 (with_options c s)); [by apply Hr|done|done].
  - set (s' := upd_mount _ s2) in *.
    assert (Hro : p_rdonly s' = p_rdonly s).
    { unfold p_rdonly, sb_rdonly. f_equal. f_equal. f_equal.
      apply (rb_flags (p_mount s) (p_mount s')). apply restored_rolled_back. }
    destruct Hl as [Hlro Hlup]. rewrite Hro in Hlro. specialize (Hc eq_refl Hlro).
    assert (Hl1 : live (with_options c s)).
    { split; [exact (eq_trans Hro1 Hlro)|]. destruct (p_shutdown (with_options c s)) eqn:E; [|done].
      pose proof (ca_up _ _ _ Hc E). change (p_shutdown s') with (p_shutdown s2) in Hlup. congruence. }
    destruct (Hg1 Hl1) as [Hm Hd].
    pose proof (restored_opts (m_flags (p_mount s)) (save_options (p_mount s)) (p_mount s2)) as Hres.
    assert (Ees' : p_es s' = p_es s2).
    { unfold p_es, s'. cbn [p_mount upd_mount set_p_mount]. destruct Hres as (?&?&?&?&?&?&->). done. }
    change (m_journal (p_mount s')) with (m_journal (restored (m_flags (p_mount s)) (save_options (p_mount s)) (p_mount s2))).
    rewrite (opts_journal _ _ Hres), (same_fs_journal _ _ _ F), Ees'.
    split; [by apply (in_use_marks _ (p_es (with_options c s))), Hm; apply Hc|].
    intros es Hes. destruct (ca_disk _ _ _ Hc es Hes) as [|E]; [by apply Hd|]. by apply (in_use_marks _ (p_es (with_options c s))).
Qed.

Lemma consistency_context q f remount c m :
  context_ok c -> context_ok (ext4_check_opt_consistency q f remount c m).2.
Proof.
  intros Hc. unfold ext4_check_opt_consistency, ext4_check_quota_consistency, quota_not_mixed. cbv zeta.
  repeat case_match; try exact Hc; simplify_eq; done.
Qed.

Lemma wp_reconfigure `{!DescsThere} c sb_flags s held calls (Q : option Z -> world super -> Prop) :
  errors_ok s -> p_add_error_count s + 3 < 2 ^ 31 -> life_unlocked held -> table_ok (p_mount s) -> context_ok c ->
  (forall w', Q None w') ->
  (forall r c2 r2 s' calls, context_ok c2 -> remounted c2 (asks_ro sb_flags) s r2 s' -> Q (Some r) (World s' held calls)) ->
  (forall r calls, Q (Some r) (World s held calls)) ->
  wp (ext4_reconfigure c sb_flags) Q (World s held calls).
Proof.
  intros Hok Hmax Hul Ht Hctx HP HQ HE. unfold ext4_reconfigure. wp_step. wp_step.
  destruct (ext4_check_opt_consistency sb_any_quota_loaded fscrypt_dummy_policies_equal true c (p_mount s)) as [err c2] eqn:Ec.
  pose proof (consistency_context sb_any_quota_loaded fscrypt_dummy_policies_equal true c (p_mount s) Hctx) as Hc2.
  rewrite Ec in Hc2. cbn [snd] in Hc2.
  destruct (err <? 0); [wp_step; apply HE|]. apply wp_unless.
  apply (wp_remount writable); [done|done|done|done| |done|intros _ w'; apply HP|].
  - apply table_steady. by apply (opts_table _ _ (applied_opts c2 (p_mount s))).
  - intros r s' c' Hr. wp_step. by apply (HQ _ c2 r).
Qed.

Definition op_ok (op : life_op) : Prop := match op with Reconfigure c _ => context_ok c | _ => True end.

Lemma frozen_marked s s' : errors_ok s -> frozen_ok 0 s s' -> marked false s -> marked true s'.
Proof.
  intros Hok Hf [Hg _]. pose proof (same_fs_journal _ _ _ (fz_fs _ _ _ Hf)) as Ej.
  destruct (fz_clean _ _ _ Hf eq_refl) as (Hd & _ & Hcl). split.
  - intros [|Hj]; [done|]. rewrite Ej in Hj. apply (calm_guarded 0 s); [|apply Hg; by left].
    by apply kept_calm, (fz_kept _ _ _ Hf).
  - intros _ Hj Hro es Hes. rewrite Ej in Hj. rewrite Hd in Hes.
    assert (es = p_es s') as -> by (destruct Hes as [Hes| ->]; [by apply list_elem_of_singleton in Hes|done]). by apply Hcl.
Qed.
Lemma thawed_marked s s' :
  errors_ok s -> thawed s s' -> (live s' -> p_disk s' = [p_es s']) -> marked true s -> marked false s'.
Proof.
  intros Hok Ht Hw [Hg _]. pose proof (same_fs_journal _ _ _ (th_fs _ _ Ht)) as Ej. split; [intros _|done].
  destruct (m_journal (p_mount s)) eqn:Hj.
  - intros Hl. pose proof (proj2 Hl) as Hup. rewrite (th_shutdown _ _ Ht) in Hup.
    pose proof (th_mark _ _ Ht Hj Hup) as Hm. rewrite Ej. split; [done|]. intros es Hes. rewrite (Hw Hl) in Hes.
    by apply list_elem_of_singleton in Hes as ->.
  - apply (calm_guarded 0 s); [by apply kept_calm, (th_kept _ _ Ht)|]. apply Hg. by right.
Qed.

Lemma wp_run_op `{!DescsThere} frozen op s held calls (Q : option (Z * bool) -> world super -> Prop) :
  errors_ok s -> p_add_error_count s + 3 < 2 ^ 31 -> life_unlocked held -> table_ok (p_mount s) -> op_ok op ->
  (forall w', Q None w') ->
  (forall r f s' calls, base 3 s s' -> (went_well op (r, s') -> marked frozen s -> marked f s') ->
     Q (Some (r, f)) (World s' held calls)) ->
  wp (run_op frozen op) Q (World s held calls).
Proof.
  intros Hok Hmax Hul Ht Hop HP HQ. pose proof (proj1 Hul) as Hsb.
  assert (Hcalm : forall r s' c, calm 1 s s' -> Q (Some (r, frozen)) (World s' held c)).
  { intros r s' c Hc. apply HQ.
    - pose proof (same_fs_base _ _ _ Ht (calm_same_fs _ _ _ Hc)) as [? ? ? ?]. split; try done. lia.
    - intros _. by apply (calm_marked 1). }
  assert (Hkept : forall r s' c, kept s s' -> Q (Some (r, frozen)) (World s' held c)).
  { intros r s' c Hk. apply Hcalm. eapply calm_more; [by apply kept_calm|lia]. }
  assert (Hself : forall r c, Q (Some (r, frozen)) (World s held c)) by (intros; by apply Hkept, reported_refl).
  destruct op as [ino block func line error| | |c sb_flags| |]; cbn [run_op].
  - apply wp_unless. unfold __ext4_error_inode. wp_step. wp_step. unfold ext4_forced_shutdown.
    destruct (p_shutdown s); [wp_step; wp_step; apply Hself|]. wp_step. wp_step.
    apply (wp_handle_error writable); [done|done|lia|done|]. intros [[]|] s' c Hh; [|apply HP]. wp_step.
    apply Hcalm. by eapply handled_calm.
  - wp_step. apply wp_commit_kept; [done|done|]. intros r s' c Hk _. wp_step. by apply Hkept.
  - wp_step. apply wp_flush_work; [done|done|]. intros s' c Hc. wp_step. apply Hcalm. eapply calm_more; [exact Hc|lia].
  - destruct frozen; [wp_step; apply Hself|]. apply wp_unless.
    apply wp_reconfigure; [done|done|done|done|done|apply HP| |].
    + intros r c2 r2 s' c' Hctx Hr. wp_step. apply HQ; [by eapply remounted_base|].
      intros Hw [Hg _]. split; [intros _|done]. eapply remounted_guarded; [done|exact Hctx|exact Hr|exact Hw|]. apply Hg. by left.
    + intros r c'. wp_step. apply Hself.
  - destruct frozen; [wp_step; apply Hself|]. wp_step. wp_step. destruct (p_rdonly s) eqn:Ero.
    + wp_step. apply HQ; [split; [done..|lia]|]. intros _ [Hg _]. split; [intros _; apply Hg; by left|].
      intros _ Hj Hro. congruence.
    + wp_step. apply wp_freeze; [done|done|]. intros r s' c Hf. wp_step. apply HQ.
      * pose proof (same_fs_base _ _ _ Ht (fz_fs _ _ _ Hf)) as [? ? ? ?]. split; try done. lia.
      * cbn [went_well fst]. intros ->. by apply frozen_marked.
  - destruct frozen; cbn [negb]; [|wp_step; apply Hself]. wp_step. wp_step. destruct (p_rdonly s) eqn:Ero.
    + wp_step. apply HQ; [split; [done..|lia]|]. intros _ _. split; [|done]. intros _ [Hro _]. congruence.
    + wp_step. apply wp_unfreeze; [done|done|]. intros s' c Hth. wp_step. apply HQ.
      * pose proof (same_fs_base _ _ _ Ht (th_fs _ _ Hth)) as [? ? ? ?]. split; try done. lia.
      * intros Hw. by apply thawed_marked.
Qed.

(** ** All of them *)

Lemma wp_run_life `{!DescsThere} ops : forall frozen s held calls,
  errors_ok s -> p_add_error_count s + 3 * Z.of_nat (length ops) < 2 ^ 31 -> life_unlocked held -> table_ok (p_mount s) ->
  Forall op_ok ops ->
  wp (run_life frozen ops) (fun r w' => forall f trace, r = Some (f, trace) -> w_held w' = held /\
    (Forall2 went_well ops trace -> marked frozen s -> marked f (w_st w'))) (World s held calls).
Proof.
  induction ops as [|op ops IH]; intros frozen s held calls Hok Hmax Hul Ht Hops; cbn [run_life].
  { wp_step. by intros f trace [= <- <-]. }
  apply Forall_cons in Hops as [Hop Hops]. cbn [length] in Hmax. apply wp_unless.
  apply wp_run_op; [done|lia|done|done|done|done|]. intros r f s1 c [K1 T1 J1 C1] Hop1. wp_step. wp_step. apply wp_unless.
  eapply wp_mono; [apply IH; [done|lia|done|done|done]|]. intros [[f2 t2]|] w' Hw; [|done]. cbn [fst snd].
  apply wp_ret. intros f' trace [= <- <-]. destruct (Hw f2 t2 eq_refl) as [Hh Hm]. split; [done|].
  intros Hall Hms. apply Forall2_cons in Hall as [Hw1 Hw2]. apply Hm; [done|]. by apply Hop1.
Qed.

(** The end of a mount and a life. *)
Definition life (ops : list life_op) : K super (option (Z * (bool * list (Z * super)))) :=
  err <~ setup_on_mount;;
  if negb (err =? 0) then kret (Some (err, (false, []))) else
  t <~? run_life false ops;;
  kret (Some (0, t)).

Lemma wp_setup_on_mount s held calls (Q : Z -> world super -> Prop) :
  errors_ok s -> life_unlocked held ->
  (forall r s' calls, same_fs 0 s s' -> (r = 0 -> guarded s') -> Q r (World s' held calls)) ->
  wp setup_on_mount Q (World s held calls).
Proof.
  intros Hok [Hul _] HQ. unfold setup_on_mount. wp_step. wp_step. wp_step.
  assert (Hro : forall s' c, same_fs 0 s s' -> wp (kmodify set_rdonly;;; kret 0) Q (World s' held c)).
  { intros s' c F. wp_step. wp_step. wp_step. apply HQ.
    - eapply same_fs_trans; [exact F|apply set_rdonly_same_fs, F|lia].
    - intros _ [E _]. rewrite set_rdonly_on in E. done. }
  destruct (p_rdonly s) eqn:Ero.
  - unfold ext4_setup_super. wp_step. wp_step. destruct (_ <? _).
    + wp_step. cbn [Z.eqb]. rewrite Z.eqb_refl. apply Hro. by apply same_fs_refl.
    + wp_step. change (0 =? - EROFS) with false. cbv iota. wp_step. apply HQ; [by apply same_fs_refl|].
      intros _ [E _]. congruence.
  - apply wp_setup_super; [done|done|]. intros r s' c F R U Hr. destruct (r =? - EROFS); [by apply Hro|]. wp_step.
    apply HQ; [done|]. intros E Hl. destruct (Hr E) as [Hm Hd]. rewrite (same_fs_journal _ _ _ F). split; [done|].
    intros es Hes. rewrite Hd in Hes. by apply list_elem_of_singleton in Hes as ->.
Qed.
End Life.

(** ** Properties *)

(** C18: from the end of the mount on, in every history of reports, writes of the super block,
    remounts, freezes and thaws, whatever the device, the journal and the quota answer: a
    file system that can be written (neither read-only nor shut down) is marked in use, in the
    buffer of the super block and on the device, where a crash leaves it; one with a journal
    that is frozen and not read-only has a clean super block in both places (a file system
    without a journal has no such mark).  Of the history it is assumed that a remount to
    read-only makes it read-only, that a freeze succeeds, and that the super block of a thaw
    reaches the device: the examples remount_loses_mark, freeze_loses_mark and thaw_loses_mark
    of WitnessLife.v show what is lost without each of these three.  Besides, the clock is
    positive, the device is writable or not throughout, the state begins with a consistent list
    of errors, their number with three more for every step is below 2^31, the table of descriptors has all groups,
    the option contexts of the remounts are well formed, and the locks are free. *)
Theorem in_use_while_writable `{Env, MountEnv, Csum, OptionAnswers, SystemStates, !DescsThere} writable ops s held calls :
  outside_ok writable -> errors_ok s -> p_add_error_count s + 3 * Z.of_nat (length ops) < 2 ^ 31 ->
  life_unlocked held -> table_ok (p_mount s) -> Forall op_ok ops ->
  wp (life ops) (fun r w' =>
    forall frozen trace, r = Some (0, (frozen, trace)) -> w_held w' = held /\
    (Forall2 went_well ops trace ->
     (frozen = false -> guarded (w_st w')) /\ (frozen = true -> clean (w_st w')))) (World s held calls).
Proof.
  intros Hout Hok Hmax Hul Ht Hops. unfold life. wp_step. apply wp_setup_on_mount; [done|done|].
  intros r s1 c F Hg. destruct (Z.eqb_spec r 0) as [E|Hn]; cbn [negb]; [|wp_step; intros f t [= ? ? ?]; done].
  pose proof (sf_count _ _ _ F). destruct (same_fs_base _ _ _ Ht F) as [K1 T1 J1 _]. apply wp_unless.
  eapply wp_mono; [apply (wp_run_life writable); [done|done|done|lia|done|done|done]|].
  intros [[f t]|] w' Hw; [|done]. apply wp_ret. intros f' trace [= <- <-]. destruct (Hw f t eq_refl) as [Hh Hm].
  split; [done|]. intros Hall. destruct (Hm Hall) as [Hg' Hc']; [split; [intros _; by apply Hg|done]|].
  split; [intros Hf; apply Hg'; by left|done].
Qed.
