(* ===== verification/Ioctl.v ===== *)
(** * The eVFS ioctl interface (include/uapi/linux/evfs.h, fs/ext4/evfs.c)

    The command numbers, and [ext4_ioctl_evfs], which copies the arguments in, calls the
    handler and copies the answer out.  The user's structure is one record with the
    fields of all commands; what reaches user space is the list of the values copied
    out, in order.  Kernel memory that the handler did not write before it is copied out
    is explicit: [stack] for the argument structure and [heap] for the array obtained
    from [kmalloc]. *)

From stdpp Require Import prelude list gmap strings.
From Stdlib Require Import ZArith Lia.
From S2P Require Import Prelude Kernel Bytes Bmt Layout ExtentNode ExtentTree Fs Block Inode EvfsExtent Dirent Namei Dentry.

Local Open Scope string_scope.
Local Open Scope Z_scope.

(** ** Command numbers *)

(** [_IOC(dir, type, nr, size)] *)
Definition IOC (dir type nr size : Z) : Z :=
  Z.lor (Z.lor (Z.shiftl dir 30) (Z.shiftl size 16)) (Z.lor (Z.shiftl type 8) nr).
Definition IO (nr : Z) : Z := IOC 0 102 nr 0.
Definition IOW (nr size : Z) : Z := IOC 1 102 nr size.
Definition IOR (nr size : Z) : Z := IOC 2 102 nr size.
Definition IOWR (nr size : Z) : Z := IOC 3 102 nr size.

(** Sizes of the argument structures with the padding of the 64-bit ABI. *)
Definition sizeof_ino_read_args : Z := 8 + 128.
Definition sizeof_de_add_args : Z := 8 + 8 + 255 + 1.
Definition sizeof_de_read_args : Z := (8 + 4 + 4) + (8 + 1 + 1 + 255 + 7).
Definition sizeof_de_delete_args : Z := 8 + 255 + 1.
Definition sizeof_de_update_args : Z := 8 + 4 + 4 + 8.
Definition sizeof_ext_read_args : Z := (8 + 4 + 4) + (8 + 4 + 4).
Definition sizeof_ext_mv_args : Z := (8 + 8 + 24) + (4 + 4 + 8).

Definition EXT4_EVFS_HELLO : Z := IO 99.
Definition EXT4_EVFS_IVER : Z := IOR 100 8.
Definition EXT4_EVFS_BLK_ALLOC : Z := IO 101.
Definition EXT4_EVFS_BLK_FREE : Z := IO 102.
Definition EXT4_EVFS_INO_ALLOC : Z := IO 103.
Definition EXT4_EVFS_INO_FREE : Z := IO 104.
Definition EXT4_EVFS_INO_READ : Z := IOWR 105 sizeof_ino_read_args.
Definition EXT4_EVFS_DEN_ADD : Z := IOW 106 sizeof_de_add_args.
Definition EXT4_EVFS_DEN_READ : Z := IOWR 107 sizeof_de_read_args.
Definition EXT4_EVFS_DEN_DELETE : Z := IOW 108 sizeof_de_delete_args.
Definition EXT4_EVFS_DEN_UPDATE : Z := IOW 109 sizeof_de_update_args.
Definition EXT4_EVFS_EXT_READ : Z := IOWR 110 sizeof_ext_read_args.
Definition EXT4_EVFS_EXT_MV : Z := IOWR 111 sizeof_ext_mv_args.

(** ** Arguments and answers *)

(** The [in] fields of the user's structure. *)
Record user_args := UArgs {
  u_ino : Z;                (* iindex, dir_ino_num, parent_ino_num or ino_num *)
  u_child : Z;              (* child_ino_num, new_ino_num *)
  u_target : Z;             (* target_dentry_index *)
  u_name : list Z;          (* name, an array of 255 bytes *)
  u_max_num_exts : Z;
  u_exp_iver : Z;
  u_ext : evfs_ext
}.

(** One [copy_to_user]; [None] where the kernel variable was never written. *)
Inductive copied :=
  | CVer (v : Z)
  | CStat (st : option evfs_stat)
  | CDe (out : de_read_out)
  | CNum (num_exts : option Z)
  | CExts (exts : list evfs_ext).

(** [strlen] of a character array: the bytes before the first NUL. *)
Fixpoint c_str (l : list Z) : list Z :=
  match l with
  | [] => []
  | c :: l => if c =? 0 then [] else c :: c_str l
  end.

(** [k_args.in.name[sizeof(k_args.in.name) - 1] = 0] *)
Definition terminated (name : list Z) : list Z := putb name (EXT4_NAME_LEN - 1) 0.

Section Ioctl.
Context `{Env} `{Csum} `{Balloc} `{NameiEnv} `{DirNames} `{DirHooks} `{ExtFmt} `{ExtOps}.

(** The return value ([None] when it is an uninitialised variable) and what was
    copied out. *)
Definition answer : Type := option Z * list copied.

Definition copy_from_user (k : K fs answer) : K fs answer :=
  left <~ call_int "copy_from_user" [];;
  if negb (left =? 0) then kret (Some (- EFAULT), []) else k.

(** [if (copy_to_user(..)) return -EFAULT;] then go on. *)
Definition copy_to_user (c : copied) (k : K fs answer) : K fs answer :=
  left <~ call_int "copy_to_user" [];;
  if negb (left =? 0) then kret (Some (- EFAULT), [])
  else r <~ k;; kret (r.1, c :: r.2).

Definition simple (m : K fs Z) : K fs answer := ret <~ m;; kret (Some ret, []).

(** The end of [EXT4_EVFS_EXT_READ] and [EXT4_EVFS_EXT_MV]; [kfree] is reached only
    when both copies succeed. *)
Definition copy_exts (r : Z * list evfs_ext * option Z) : K fs answer :=
  let '(ret, exts, num) := r in
  copy_to_user (CNum num)
    (copy_to_user (CExts exts) (call_int "kfree" [];;; kret (Some ret, []))).

(** [kmalloc] of the array of extents. *)
Definition with_array (n : Z) (k : K fs answer) : K fs answer :=
  m <~ call_ptr "kmalloc" [24 * n];;
  match m with PtrOk => k | _ => kret (Some (- ENOMEM), []) end.

(** [ext4_ioctl_evfs(cmd, ino, sb, arg)] *)
Definition ext4_ioctl_evfs (cmd s_dev ino arg : Z) (u : user_args)
    (stack : de_read_out) (heap : list evfs_ext) : K fs answer :=
  if cmd =? EXT4_EVFS_HELLO then simple evfs_hello
  else if cmd =? EXT4_EVFS_IVER then
    r <~ evfs_iver ino;;
    copy_to_user (CVer r.2) (kret (Some r.1, []))
  else if cmd =? EXT4_EVFS_BLK_ALLOC then simple (evfs_block_alloc arg)
  else if cmd =? EXT4_EVFS_BLK_FREE then simple (evfs_block_free arg)
  else if cmd =? EXT4_EVFS_INO_ALLOC then simple (evfs_inode_alloc arg)
  else if cmd =? EXT4_EVFS_INO_FREE then simple (evfs_inode_free arg)
  else if cmd =? EXT4_EVFS_INO_READ then
    copy_from_user (
      r <~ evfs_inode_read s_dev (u_ino u);;
      copy_to_user (CStat r.2) (kret (Some r.1, [])))
  else if cmd =? EXT4_EVFS_DEN_ADD then
    copy_from_user (
      simple (evfs_dentry_add (u_ino u) (u_child u) (c_str (terminated (u_name u)))))
  else if cmd =? EXT4_EVFS_DEN_READ then
    copy_from_user (
      r <~ evfs_dentry_read (u_ino u) (u_target u) stack;;
      copy_to_user (CDe r.2) (kret (Some r.1, [])))
  else if cmd =? EXT4_EVFS_DEN_DELETE then
    copy_from_user (
      simple (evfs_dentry_delete (u_ino u) (c_str (terminated (u_name u)))))
  else if cmd =? EXT4_EVFS_DEN_UPDATE then
    copy_from_user (
      ret <~ evfs_dentry_update (u_ino u) (u_target u) (u_child u);;
      kret (ret, []))
  else if cmd =? EXT4_EVFS_EXT_READ then
    copy_from_user (copy_from_user (
      with_array (u_max_num_exts u) (
        r <~ evfs_extent_read (u_ino u) (u_max_num_exts u) heap;; copy_exts r)))
  else if cmd =? EXT4_EVFS_EXT_MV then
    copy_from_user (copy_from_user (
      with_array (e_length (u_ext u)) (
        r <~ evfs_extent_move (u_ino u) (u_exp_iver u) (u_ext u) heap;; copy_exts r)))
  else kret (Some (- ENOTTY), []).
End Ioctl.

(** ** Properties *)

(** Select the branch of a concrete command. *)
Ltac pick_command :=
  repeat match goal with |- context [if ?c =? ?d then _ else _] =>
    let v := eval vm_compute in (c =? d) in
    match v with true => idtac | false => idtac end;
    change (c =? d) with v; cbv iota
  end.

Section IoctlTheorems.
Context `{EnvFs} `{Csum} `{Balloc} `{NameiEnv} `{DirNames} `{DirHooks} `{ExtFmt} `{ExtOps}.

(** A name read from the user has at most 254 bytes, none of them NUL. *)
Lemma c_str_terminated l :
  length l = 255%nat -> (length (c_str (terminated l)) <= 254)%nat.
Proof.
  intros Hl. unfold terminated, putb, EXT4_NAME_LEN. change (255 - 1 <? 0) with false. cbv iota.
  assert (Hlt : forall k m, (k < length m)%nat -> (length (c_str (<[k := u8 0]> m)) <= k)%nat).
  { intros k m. revert k. induction m as [|c m IH]; intros k Hk; simpl in *; [lia|].
    destruct k as [|k]; simpl; [done|]. destruct (c =? 0); simpl; [lia|].
    specialize (IH k). lia. }
  apply (Hlt (Z.to_nat (255 - 1))). simpl. lia.
Qed.

(** The commands of the interface are distinct. *)
Definition evfs_commands : list Z :=
  [EXT4_EVFS_HELLO; EXT4_EVFS_IVER; EXT4_EVFS_BLK_ALLOC; EXT4_EVFS_BLK_FREE;
   EXT4_EVFS_INO_ALLOC; EXT4_EVFS_INO_FREE; EXT4_EVFS_INO_READ; EXT4_EVFS_DEN_ADD;
   EXT4_EVFS_DEN_READ; EXT4_EVFS_DEN_DELETE; EXT4_EVFS_DEN_UPDATE; EXT4_EVFS_EXT_READ;
   EXT4_EVFS_EXT_MV].

Lemma evfs_commands_distinct : NoDup evfs_commands.
Proof. apply (bool_decide_unpack _). by vm_compute. Qed.

(** Any other command is answered with -ENOTTY and has no effect. *)
Lemma ioctl_unknown cmd s_dev ino arg u stack heap w :
  cmd ∉ evfs_commands ->
  ext4_ioctl_evfs cmd s_dev ino arg u stack heap w = Ret (Some (- ENOTTY), []) w.
Proof.
  intros Hn. unfold ext4_ioctl_evfs.
  repeat match goal with |- context [cmd =? ?c] =>
    destruct (Z.eqb_spec cmd c) as [->|_]; [exfalso; apply Hn; unfold evfs_commands; set_solver|] end.
  done.
Qed.

(** C40: when the inode cannot be read, the handlers of the four commands with an
    answer (read an entry, an inode or extents, move an extent) return before writing
    it, but the answer is copied out all the same: the user receives the uninitialised
    structure from the kernel stack, or the uninitialised array from the kernel heap
    with an uninitialised count. *)
Theorem ioctl_copies_uninitialised s_dev ino arg u stack heap s held calls e :
  (forall h a, env_ptr h "ext4_iget" a = PtrErr e) ->
  (forall h a, env_ptr h "kmalloc" a = PtrOk) ->
  (forall h a, env_int h "copy_from_user" a = 0) ->
  (forall h a, env_int h "copy_to_user" a = 0) ->
  let run cmd r := exists calls',
    ext4_ioctl_evfs cmd s_dev ino arg u stack heap (World s held calls) =
      Ret (Some e, r) (World s held calls') in
  run EXT4_EVFS_DEN_READ [CDe stack] /\
  run EXT4_EVFS_INO_READ [CStat None] /\
  run EXT4_EVFS_EXT_READ [CNum None; CExts heap] /\
  run EXT4_EVFS_EXT_MV [CNum None; CExts heap].
Proof.
  intros Hi Hk Hf Ht run.
  assert (Hrun : forall cmd r, wp (ext4_ioctl_evfs cmd s_dev ino arg u stack heap)
      (fun r' w' => r' = (Some e, r) /\ exists calls', w' = World s held calls')
      (World s held calls) -> run cmd r).
  { intros cmd r Hwp. apply wp_run in Hwp as (r' & w' & Hr & -> & calls' & ->). by exists calls'. }
  split_and!; apply Hrun; unfold ext4_ioctl_evfs; pick_command;
    unfold copy_exts, with_array, copy_from_user, copy_to_user, evfs_dentry_read,
      evfs_inode_read, evfs_extent_read, evfs_extent_move, ext4_iget;
    repeat (wp_step;
      repeat match goal with
      | Hc : env_int _ "copy_from_user" _ = ?z |- _ => rewrite Hf in Hc; subst z
      | Hc : env_int _ "copy_to_user" _ = ?z |- _ => rewrite Ht in Hc; subst z
      | Hc : env_ptr _ "kmalloc" _ = ?z |- _ => is_var z; rewrite Hk in Hc; subst z
      | Hc : env_ptr _ "ext4_iget" _ = ?z |- _ => is_var z; rewrite Hi in Hc; subst z
      end; cbv iota; cbn [Z.eqb negb fst snd]);
    (split; [done|by eexists]).
Qed.
End IoctlTheorems.
