(* ===== verification/Witness.v ===== *)
(** * Concrete instances

    Every parameter of the development is instantiated by a concrete function, and the
    properties of the other files are applied to a small concrete file system: one block
    group with eight blocks and eight inodes, a file with one extent, and a directory
    with one block.  This shows that the hypotheses of the properties can hold
    together. *)

From stdpp Require Import prelude list gmap strings.
From Stdlib Require Import ZArith Lia.
From S2P Require Import Prelude Kernel Bytes Bmt Layout ExtentNode ExtentTree ExtentTreeSpec Fs Block Inode EvfsExtent Dirent Namei Dentry Ioctl.

Local Open Scope string_scope.
Local Open Scope Z_scope.

(** ** Instances *)

(** An environment in which every call succeeds; only group 0 has a descriptor. *)
Definition env0 : Env := {|
  env_int := fun _ f _ => if String.eqb f "ext4_new_meta_blocks" then 77 else 0;
  env_ptr := fun _ f a =>
    if String.eqb f "ext4_get_group_desc" && negb (bool_decide (a = [0])) then PtrNull else PtrOk
|}.

Definition envfs0 : @EnvFs env0.
Proof.
  split.
  - intros h f a e. simpl. by destruct (_ && _).
  - intros h f a Hf. simpl. destruct (String.eqb_spec f "ext4_get_group_desc") as [->|]; [|done].
    exfalso. revert Hf. unfold err_or_valid. apply (bool_decide_unpack _). by vm_compute.
Defined.

(** Every call succeeds, one integer answer is chosen. *)
Definition env_with (f : string) (v : Z) : Env := {|
  env_int := fun _ g _ => if String.eqb g f then v else 0;
  env_ptr := fun _ _ _ => PtrOk
|}.

(** One pointer function fails with a given answer. *)
Definition env_ptr_with (f : string) (r : reply) : Env := {|
  env_int := fun _ _ _ => 0;
  env_ptr := fun _ g _ => if String.eqb g f then r else PtrOk
|}.

Definition envfs_with f v : @EnvFs (env_with f v).
Proof. split; intros; simpl in *; done. Defined.

Definition csum0 : Csum := {|
  crypto_crc32c := fun c l => c + fold_right Z.add 0 l;
  crc16 := fun c l => (c + fold_right Z.add 0 l) mod 65536
|}.

Definition balloc0 : Balloc := {|
  group_no_and_offset := fun sbi _ b =>
    (b / s_clusters_per_group sbi, Z.max 0 (b mod s_clusters_per_group sbi));
  free_clusters_after_init := fun sbi _ _ _ => 5;
  block_bitmap_csum_set := fun _ _ gd bm => put16 gd bg_block_bitmap_csum_lo (bm mod 65536);
  inode_bitmap_csum_set := fun _ _ gd bm => put16 gd bg_inode_bitmap_csum_lo (bm mod 65536)
|}.

Lemma put16_csum_read sbi gd off v f :
  off = bg_block_bitmap_csum_lo \/ off = bg_inode_bitmap_csum_lo ->
  gd_read sbi f (put16 gd off v) = gd_read sbi f gd /\ gd_flags (put16 gd off v) = gd_flags gd.
Proof.
  intros Hoff. split.
  - destruct Hoff as [-> | ->]; unfold bg_block_bitmap_csum_lo, bg_inode_bitmap_csum_lo;
      destruct f; unfold_gd; unfold gd_block, gd_count; destruct (desc64 sbi);
      by rewrite ?le_get_put_out by lia.
  - unfold gd_flags, bg_flags. apply le_get_put_out.
    destruct Hoff as [-> | ->]; unfold bg_block_bitmap_csum_lo, bg_inode_bitmap_csum_lo; lia.
Qed.

Lemma put16_wf sbi gd off v : gd_wf sbi gd -> gd_wf sbi (put16 gd off v).
Proof.
  intros (Hl & Hm & Hb). split_and!; [by rewrite length_le_put|done|by apply bytes_ok_le_put].
Qed.

Definition ballocok0 : @BallocOk balloc0.
Proof.
  split; intros; simpl.
  - by apply put16_wf.
  - apply put16_csum_read. by left.
  - apply (put16_csum_read sbi gd _ _ FFreeClusters). by left.
  - by apply put16_wf.
  - apply put16_csum_read. by right.
  - apply (put16_csum_read sbi gd _ _ FFreeClusters). by right.
  - lia.
Defined.

(** The extent format of ext4_extents.h: lengths above 32768 are unwritten. *)
Definition fmt0 : ExtFmt := {|
  len_is_unwritten := fun l => 32768 <? l;
  len_actual := fun l => if 32768 <? l then Z.min (l - 32768) 32767 else Z.max 0 l;
  len_mark_unwritten := fun l => if 32768 <? l then l else l + 32768;
  len_mark_initialized := fun l => if 32768 <? l then Z.min (l - 32768) 32767 else Z.max 0 l;
  pblock_of := fun s => s mod 2 ^ 48;
  pblock_store := fun p => p;
  EXT_INIT_MAX_LEN := 32768;
  EXT_UNWRITTEN_MAX_LEN := 32767;
  EXT_MAX_BLOCKS := 2 ^ 32 - 1;
  EXT4_EXT_MAGIC := 0xf30a;
  EXT4_MAX_EXTENT_DEPTH := 5;
  sizeof_extent_header := 12;
  sizeof_extent := 12;
  sizeof_extent_idx := 12
|}.

Definition fmtok0 : @ExtFmtOk fmt0.
Proof.
  split; simpl; intros; try done.
  - case_cmp; lia.
  - rewrite (proj2 (Z.ltb_ge 32768 n)) by lia. case_cmp; lia.
  - cbn beta iota in *. rewrite H. cbn iota. rewrite H. by split.
  - case_cmp; lia.
  - destruct (Z.ltb_spec 32768 l); case_cmp; lia.
  - by apply Z.mod_small.
  - by apply Z.mod_pos_bound.
Defined.

Definition extops0 : ExtOps := {|
  inode_block_valid := fun _ _ _ => true;
  extent_node_csum := fun seed nd => seed + eh_entries nd
|}.

Definition tree0 : TreeEnv := {|
  ino := 12; blocksize := 1024; first_data_block := 1; has_csum := true;
  valid_block := fun _ _ => true; node_csum := fun nd => eh_entries nd
|}.

(** Names are compared byte by byte; the check is the decision of [sane]. *)
Definition dirnames0 : DirNames := {|
  fscrypt_match_name := fun _ f nm => bool_decide (disk_name f = nm);
  fname_disk_to_usr := fun _ nm => inr nm;
  utf8_strncasecmp := fun a b => if bool_decide (a = b) then 0 else 1;
  utf8_strncasecmp_folded := fun a b => if bool_decide (a = b) then 0 else 1;
  ext4_check_dir_entry := fun d b size de =>
    let rlen := rlen_at d b de in
    let next := de + rlen in
    negb ((12 <=? rlen) && (rlen mod 4 =? 0) &&
          (ext4_dir_rec_len (de_name_len b de) (Some d) <=? rlen) &&
          (next <=? size) && ((next =? size) || (next + 12 <=? size)) &&
          (de_inode b de <=? d_inodes d))
|}.

Definition dirnamesok0 : @DirNamesOk dirnames0.
Proof.
  split.
  - intros d b size de _. simpl. unfold sane. rewrite negb_false_iff, !andb_true_iff, orb_true_iff.
    rewrite !Z.leb_le, !Z.eqb_eq. tauto.
  - done.
Defined.

Definition nameienv0 : NameiEnv := {|
  nm_pagesize := 4096; nm_unicode := false; nm_strict := false; nm_has_key := fun _ => false;
  nm_inline_off := fun _ => 0; nm_max_dir_size_kb := 0; nm_data_trans_blocks := 8;
  nm_index_extra_blocks := 12; utf8_casefold := fun _ => None; nm_hash_unsigned := 0;
  nm_def_hash_version := 1; ext4fs_dirhash := fun _ nm => (0, (2 * (fold_right Z.add 0 nm mod 2 ^ 31), 0))
|}.

(** No inline directories and no hash trees. *)
Definition hooks0 : DirHooks := {|
  ext4_find_inline_entry := fun _ _ => kret (LNull, false);
  ext4_try_add_inline_entry := fun _ _ _ => kret 0;
  ext4_delete_inline_entry := fun _ _ _ => kret (0, false);
  ext4_dx_find_entry := fun _ _ => kret LNull;
  ext4_dx_add_entry := fun _ _ _ => kret 0;
  make_indexed_dir := fun _ _ _ => kret 0
|}.

Definition hookskeep0 : @HooksKeep hooks0.
Proof. split; intros; simpl; apply keeps_ret. Defined.

#[local] Existing Instances env0 envfs0 csum0 balloc0 ballocok0 fmt0 fmtok0 extops0 tree0
  dirnames0 dirnamesok0 nameienv0 hooks0 hookskeep0.

(** ** A small file system *)

Definition sbi0 : ext4_sb_info := SbInfo 64 8 8 8 1 0 1 1024 0 false 0.

(** Eight inodes, eight blocks, five of them free. *)
Definition es0 : list Z :=
  put32 (put32 (put32 (replicate 1024 0) 0 8) 4 8) 12 5.

Definition gd0 : list Z := put16 (put16 (put16 (replicate 64 0) 12 5) 14 6) 28 4.

(** A file of ten blocks in one extent, in a root with four slots. *)
Definition root0 : node :=
  Node 0xf30a 1 4 0 0 [Ext 0 10 100; Ext 0 0 0; Ext 0 0 0; Ext 0 0 0]
    [Idx 0 0; Idx 0 0; Idx 0 0; Idx 0 0].
Definition xtree0 : xtree := XTree root0 ∅ ∅.
Definition file0 : inode :=
  Inode S_IFREG 2 0 0 0 0 10240 20 zero_ts zero_ts zero_ts 0 false zero_ts 10240 0 0 0 0 0 0 0 xtree0 [].

(** A block with the entries "a" (inode 3) and "bc" (inode 4), then free space. *)
Definition entry (b : list Z) (off ino rec_len type : Z) (nm : list Z) : list Z :=
  puts (putb (putb (put16 (put32 b off ino) (off + 4) rec_len) (off + 6) (Z.of_nat (length nm)))
          (off + 7) type) (off + 8) nm.
Definition block0 : list Z :=
  entry (entry (replicate 1024 0) 0 3 12 1 [97]) 12 4 1012 1 [98; 99].
Definition dir0 : inode :=
  Inode S_IFDIR 2 0 0 0 0 1024 2 zero_ts zero_ts zero_ts 0 false zero_ts 1024 0 0 0 0 0 0 0
    zero_tree [block0].

Definition fs0 : fs :=
  Fs sbi0 es0 {[0 := gd0]} {[0 := 7]} {[0 := 3]} 5 6 (Some (Tracker [Some (Bitmap 32)] 1))
    {[2 := dir0; 3 := file0; 4 := file0; 5 := file0; 6 := file0]}.

Lemma es0_wf : es_wf es0.
Proof. split; [done|]. unfold es0. apply bytes_ok_le_put, bytes_ok_le_put, bytes_ok_le_put, Forall_replicate. lia. Qed.

Lemma gd0_wf : gd_wf sbi0 gd0.
Proof.
  split_and!; [done|done|]. unfold gd0. apply bytes_ok_le_put, bytes_ok_le_put, bytes_ok_le_put, Forall_replicate.
  lia.
Qed.

Lemma no_block_lock_nil : no_block_lock [].
Proof. intros l _. done. Qed.

(** ** Blocks *)

(** Compute the group and offset a property is stated for. *)
Ltac at_group H :=
  match type of H with context [group_no_and_offset ?a ?b ?c] =>
    let v := eval vm_compute in (group_no_and_offset a b c) in
    change (group_no_and_offset a b c) with v in H
  end; cbv beta iota in H.

Lemma block_alloc_correct_witness :
  exists ret s' calls', evfs_block_alloc 5 (World fs0 [] []) = Ret ret (World s' [] calls') /\
    (ret < 0 /\ s' = fs0 \/ bbm_of s' 0 = Z.setbit (bbm_of fs0 0) 5).
Proof.
  pose proof (block_alloc_correct 5 fs0 [] []) as H. at_group H.
  destruct (H no_block_lock_nil gd0_wf es0_wf)
    as (ret & s' & calls' & Hr & [Hf|(_ & _ & Hb & _)]); exists ret, s', calls'; auto.
Defined.

Lemma block_free_correct_witness :
  exists ret s' calls', evfs_block_free 1 (World fs0 [] []) = Ret ret (World s' [] calls') /\
    (ret < 0 /\ s' = fs0 \/ bbm_of s' 0 = Z.clearbit (bbm_of fs0 0) 1).
Proof.
  pose proof (block_free_correct 1 fs0 [] []) as H. at_group H.
  destruct (H no_block_lock_nil ltac:(done) gd0_wf es0_wf)
    as (ret & s' & calls' & Hr & [Hf|(_ & _ & Hb & _)]); exists ret, s', calls'; auto.
Defined.

Lemma blocks_inv0 : blocks_inv fs0.
Proof.
  split; simpl; try done.
  - apply es0_wf.
  - intros g Hg. assert (g = 0) as -> by lia. split; [apply gd0_wf|done|done|by vm_compute].
Qed.

Lemma geometry0 : geometry sbi0.
Proof.
  split; simpl.
  - intros es b. apply Z.max_lub_lt; [done|]. by apply Z.mod_pos_bound.
  - intros g (h & Hh). simpl in Hh. destruct (bool_decide_reflect ([g] = [0])) as [[= ->]|]; done.
Qed.

Lemma block_ops_keep_counts_witness :
  exists rs s' calls', run_blk_ops [BAlloc 5; BFree 1; BAlloc 5] (World fs0 [] []) =
      Ret rs (World s' [] calls') /\ length rs = 3%nat /\ blocks_inv s'.
Proof.
  destruct (block_ops_keep_counts [BAlloc 5; BFree 1; BAlloc 5] fs0 [] [] blocks_inv0 geometry0
              no_block_lock_nil) as (rs & s' & calls' & Hr & Hlen & _ & Hinv).
  exists rs, s', calls'. auto.
Defined.

(** The same file system with group checksums and an uninitialised bitmap. *)
Definition sbi_csum : ext4_sb_info := SbInfo 64 8 8 8 1 0 1 1024 0 true 0.
Definition fs_uninit : fs :=
  Fs sbi_csum (put32 es0 0x64 EXT4_FEATURE_RO_COMPAT_METADATA_CSUM)
    {[0 := put16 gd0 18 EXT4_BG_BLOCK_UNINIT]} {[0 := 7]} {[0 := 3]} 5 6 None ∅.

Lemma fs_uninit_wf : gd_wf sbi_csum (gd_of fs_uninit 0).
Proof. apply put16_wf, gd0_wf. Qed.

(** A run, by what it returns and holds. *)
Definition run_ret {S A} (o : outcome S A) : option (A * list res) :=
  match o with Ret a w => Some (a, w_held w) | _ => None end.

Lemma run_ret_eq {S A} (o : outcome S A) a h :
  run_ret o = Some (a, h) -> exists s calls, o = Ret a (World s h calls).
Proof. destruct o as [a' [s h' c]| |]; simpl; [|done..]. intros [= -> ->]. by exists s, c. Qed.

Lemma block_alloc_uninit_overcounts_witness :
  exists s' calls', evfs_block_alloc 5 (World fs_uninit [] []) = Ret 0 (World s' [] calls') /\
    ext4_free_group_clusters (f_sbi s') (gd_of s' 0) =
      count_clear (bbm_of s' 0) (Z.to_nat (s_clusters_per_group (f_sbi s'))) + 1.
Proof.
  destruct (run_ret_eq (evfs_block_alloc 5 (World fs_uninit [] [])) 0 [])
    as (s' & calls' & Hr); [vm_compute; reflexivity|].
  exists s', calls'. split; [exact Hr|].
  pose proof (block_alloc_uninit_overcounts 5 fs_uninit [] [] 0 s' calls') as H. at_group H.
  apply H; [apply no_block_lock_nil|apply fs_uninit_wf|vm_compute; reflexivity
    |vm_compute; reflexivity|intros gd; vm_compute; reflexivity|simpl; lia|simpl; lia
    |exact Hr|reflexivity].
Defined.

(** Clusters of two blocks. *)
Definition sbi_big : ext4_sb_info := SbInfo 64 16 8 8 2 1 1 1024 0 false 0.
Definition fs_big : fs :=
  Fs sbi_big es0 {[0 := gd0]} {[0 := 7]} {[0 := 3]} 5 6 None ∅.

Lemma block_alloc_bigalloc_no_decrement_witness :
  exists s' calls', evfs_block_alloc 5 (World fs_big [] []) = Ret 0 (World s' [] calls') /\
    group_free s' 0 = group_free fs_big 0.
Proof.
  destruct (run_ret_eq (evfs_block_alloc 5 (World fs_big [] [])) 0 [])
    as (s' & calls' & Hr); [vm_compute; reflexivity|].
  exists s', calls'. split; [exact Hr|].
  pose proof (block_alloc_bigalloc_no_decrement 5 fs_big [] [] 0 s' calls' 1) as H. at_group H.
  assert (Hg : group_free fs_big 0 = 5) by (vm_compute; reflexivity). rewrite Hg in H.
  apply H; [apply no_block_lock_nil|exact gd0_wf|vm_compute; reflexivity|lia|reflexivity|reflexivity
    |lia|lia|exact Hr|reflexivity].
Defined.

Lemma fspace_iter_first_run_witness :
  exists b len calls', evfs_fspace_iter 1 (World fs0 [] []) = Ret (b, len) (World fs0 [] calls').
Proof.
  destruct (fspace_iter_first_run 1 fs0 [] []) as (b & len & calls' & Hr & _);
    [intros h g; reflexivity|lia|vm_compute; reflexivity|].
  exists b, len, calls'. exact Hr.
Defined.

(** ** Inodes *)

Lemma tracker0_wf : tracker_ok fs0.
Proof. split; [done|]. repeat constructor; by vm_compute. Qed.

Lemma unlocked0 n : ialloc_unlocked n [].
Proof. split; [apply no_block_lock_nil|intros ?; done|done]. Qed.

Lemma inode_alloc_correct_witness :
  exists ret s' calls', evfs_inode_alloc 4 (World fs0 [] []) = Ret ret (World s' [] calls').
Proof.
  destruct (inode_alloc_correct 4 fs0 [] []) as (ret & s' & calls' & Hr & _);
    [lia|simpl; lia|apply tracker0_wf|apply unlocked0|intros h a; reflexivity|exact gd0_wf|].
  exists ret, s', calls'. exact Hr.
Defined.

Lemma inode_free_only_tracked_witness :
  exists ret s' calls', evfs_inode_free 5 (World fs0 [] []) = Ret ret (World s' [] calls') /\
    f_ibm s' = f_ibm fs0.
Proof.
  destruct (inode_free_only_tracked 5 fs0 [] []) as (ret & s' & calls' & Hr & _ & Hi & _);
    [lia|apply tracker0_wf|intros ?; done|done|intros h a; reflexivity|].
  exists ret, s', calls'. auto.
Defined.

Lemma inode_alloc_leaks_on_error_witness :
  exists s' calls',
    @evfs_inode_alloc (env_with "insert_inode_locked" (-1)) csum0 balloc0 4 (World fs0 [] []) =
      Ret (- EIO) (World s' [] calls') /\ is_tracked s' 4 = true.
Proof.
  destruct (@inode_alloc_leaks_on_error (env_with "insert_inode_locked" (-1))
              csum0 balloc0 4 fs0 [] [] (-1))
    as (ret & s' & calls' & Hr & -> & _ & Ht & _);
    [lia|simpl; lia|apply tracker0_wf|apply unlocked0|lia|split; reflexivity
    |vm_compute; reflexivity| |vm_compute; reflexivity|].
  - exists (Tracker [Some (Bitmap 32)] 1). split; [reflexivity|].
    change (capacity _) with 64. lia.
  - exists s', calls'. auto.
Defined.

Lemma inode_iter_first_witness :
  exists r calls', evfs_inode_iter 1 (World fs0 [] []) = Ret r (World fs0 [] calls').
Proof.
  destruct (inode_iter_first 1 fs0 [] []) as (r & calls' & Hr & _); [reflexivity|lia|vm_compute; reflexivity|].
  exists r, calls'. exact Hr.
Defined.

Lemma inode_read_exact_witness :
  exists ret o calls', evfs_inode_read 7 3 (World fs0 [] []) = Ret (ret, o) (World fs0 [] calls').
Proof.
  destruct (inode_read_exact 7 3 fs0 [] []) as (ret & o & calls' & Hr & _); [reflexivity|].
  exists ret, o, calls'. exact Hr.
Defined.

(** ** The tracker *)

Definition tracker0 : evfs_bm_tracker := Tracker [None; Some (Bitmap 5)] 2.

Lemma tracker0_ok : tracker_wf tracker0.
Proof. split; [done|]. repeat constructor; by vm_compute. Qed.

Lemma tracker_refines_set_witness :
  exists w', run_tracker [(TrkTestSet, 3); (TrkTestClear, 64); (TrkClear, 3)]
               (World (Some tracker0) [] []) = Ret [0; 1; 0] w'.
Proof.
  destruct (tracker_refines_set [(TrkTestSet, 3); (TrkTestClear, 64); (TrkClear, 3)] tracker0 [] [])
    as (w' & Hr & _); [apply tracker0_ok|intros ?; done|reflexivity| |].
  - repeat constructor; simpl; try change (capacity tracker0) with 128; lia.
  - exists w'. exact Hr.
Defined.

Lemma tracker_init_spec_witness :
  exists t calls', @evfs_bm_tracker_init (env_with "" 0) 100 (World None [] []) =
    Ret 0 (World (Some t) [] calls') /\ tracker_wf t.
Proof.
  destruct (@tracker_init_spec (env_with "" 0) 100 [] [] None) as (t & calls' & Hr & Hwf & _);
    [lia|reflexivity|].
  exists t, calls'. auto.
Defined.

Lemma bit_wrapper_oom_oops_witness :
  @evfs_bit_wrapper (env_ptr_with "kzalloc" PtrNull) (EBO_BOOL test_and_set_bit) 3
    (World (Some tracker0) [] []) = Oops.
Proof.
  apply (@bit_wrapper_oom_oops (env_ptr_with "kzalloc" PtrNull));
    [apply tracker0_ok|vm_compute; split; [intros [=]|reflexivity]|intros ?; reflexivity|reflexivity
    |intros [=]].
Defined.

Lemma tracker_misses_last_inode_witness :
  evfs_bit_wrapper (EBO_BOOL test_and_set_bit) 128 (World (Some tracker0) [] []) =
    Ret (- EINVAL) (World (Some tracker0) [] []).
Proof.
  apply (tracker_misses_last_inode (EBO_BOOL test_and_set_bit) 128 tracker0 [] []);
    [lia|reflexivity|reflexivity].
Defined.

(** ** On-disk structures *)

Lemma group_desc_accessors_witness :
  gd_read sbi0 FFreeInodes (gd_write sbi0 FFreeInodes gd0 9) = 9 /\ gd_wf sbi0 (gd_write sbi0 FFreeInodes gd0 9).
Proof.
  destruct (group_desc_accessors sbi0 FFreeInodes FFreeInodes gd0 9 gd0_wf) as (Hr & _ & Hw).
  split; [rewrite Hr; vm_compute; reflexivity|exact Hw].
Defined.

Lemma group_desc_csum_set_verify_witness :
  ext4_group_desc_csum_verify sbi_csum es0 0 (ext4_group_desc_csum_set sbi_csum es0 0 gd0) = true.
Proof. apply (group_desc_csum_set_verify sbi_csum es0 0 gd0). exact gd0_wf. Defined.

Lemma superblock_csum_set_verify_witness :
  ext4_superblock_csum_verify sbi0 (ext4_superblock_csum_set sbi0 es0) = true.
Proof. apply (superblock_csum_set_verify sbi0 es0). exact es0_wf. Defined.

(** ** Extents *)

(** A leaf with two neighbours that can be merged, and a third. *)
Definition leaf0 : node :=
  Node 0xf30a 3 4 0 0 [Ext 0 10 100; Ext 10 5 110; Ext 20 4 300; Ext 0 0 0] [].

Lemma leaf0_wf : node_wf leaf0.
Proof. unfold node_wf; simpl; lia. Qed.
Lemma leaf0_ok : leaf_ok 0 (entries leaf0).
Proof. simpl. unfold ext_ok, ext_end, ext4_ext_get_actual_len, ext4_ext_pblock. simpl. lia. Qed.

Lemma merge_preserves_mapping_witness :
  (forall b, mapping (entries (try_to_merge_leaf leaf0 1)) b = mapping (entries leaf0) b) /\
  leaf_ok 0 (entries leaf0).
Proof.
  split; [|exact leaf0_ok].
  apply (merge_preserves_mapping leaf0 1 0 leaf0_wf leaf0_ok). simpl. lia.
Defined.

Lemma binsearch_is_linear_scan_witness :
  ext4_ext_binsearch leaf0 12 =
    Some (check_binsearch (fun m => ee_block (slot leaf0 m)) 12 (eh_entries leaf0)).
Proof. apply (binsearch_is_linear_scan leaf0 0 12 leaf0_wf leaf0_ok). simpl. lia. Defined.

Lemma binsearch_finds_mapping_witness :
  exists p, ext4_ext_binsearch leaf0 12 = Some p /\ 0 <= p < 3.
Proof.
  destruct (binsearch_finds_mapping leaf0 0 12 leaf0_wf leaf0_ok) as (p & Hp & Hr & _); [simpl; lia|].
  exists p. auto.
Defined.

Lemma valid_entries_iff_witness :
  ext4_valid_extent_entries (fun _ _ => true) 0 leaf0 0 0 = true <->
  leaf_ok 0 (entries leaf0) /\ Forall (fun e => true = true) (entries leaf0).
Proof.
  apply (valid_entries_iff (fun _ _ => true) leaf0 leaf0_wf).
  repeat constructor; simpl; unfold in_u; simpl; lia.
Defined.

Lemma find_extent_total_witness :
  exists r w', ext4_find_extent 3 None 0 (World xtree0 [] []) = Ret r w'.
Proof.
  destruct (find_extent_total 3 None 0 [] (World xtree0 [] [])) as (r & w' & Hr & _); [reflexivity|].
  exists r, w'. exact Hr.
Defined.

Lemma root0_wf : node_wf root0.
Proof. unfold node_wf; simpl; lia. Qed.

Lemma grow_indepth_preserves_map_witness :
  exists err w', ext4_ext_grow_indepth 0 (World xtree0 [] []) = Ret err w' /\
    (forall block, tree_map (w_st w') block = tree_map xtree0 block).
Proof.
  destruct (grow_indepth_preserves_map 0 (World xtree0 [] [])) as (err & w' & Hr & _ & Hm & _).
  - exact root0_wf.
  - simpl. lia.
  - unfold ext_depth. simpl. lia.
  - intros h args z Hz. simpl in Hz. subst z. split; [lia|]. intros _. split; [lia|].
    intros i block Hi. assert (i = 0%nat) as -> by (unfold ext_depth in Hi; simpl in Hi; lia). done.
  - constructor.
  - exists err, w'. auto.
Defined.

Definition path0 : path := [Path 0 0 1 (Some 0) None InRoot None; Path 0 0 0 None None InRoot None].

Lemma journal_ok0 : journal_ok.
Proof. intros h a. done. Qed.

Lemma root0_ok : leaf_ok 0 (entries root0).
Proof. simpl. unfold ext_ok, ext_end, ext4_ext_get_actual_len, ext4_ext_pblock. simpl. lia. Qed.

Lemma force_split_preserves_map_witness :
  exists p' w', ext4_force_split_extent_at path0 4 false (World xtree0 [] []) = Ret (0, PSame p') w'.
Proof.
  destruct (force_split_preserves_map path0 0 4 false (World xtree0 [] [])) as (p' & w' & Hr & _);
    [exact journal_ok0|reflexivity|unfold ext_depth; simpl; lia|reflexivity|exact root0_wf|exact root0_ok
    |simpl; lia|simpl; lia|unfold ext_end, ext4_ext_get_actual_len; simpl; lia
    |unfold ext4_ext_get_actual_len; vm_compute; intros [=]|].
  exists p', w'. exact Hr.
Defined.

Lemma xtree0_flat : flat xtree0.
Proof. split; [reflexivity|exact root0_wf|exact root0_ok]. Qed.

Lemma in_extent0 : in_extent xtree0 (EExt 2 500 3) (Ext 0 10 100).
Proof.
  split; simpl; unfold ext_end, ext4_ext_get_actual_len, ext4_ext_pblock; simpl; try lia.
  - by left.
  - vm_compute. intros [=].
Qed.

Lemma extent_map_moves_range_witness :
  exists t' calls', evfs_extent_map (EExt 2 500 3) (World xtree0 [] []) =
    Ret (0, EExt 2 102 3, zero_ext) (World t' [] calls') /\ flat t'.
Proof.
  destruct (extent_map_moves_range (EExt 2 500 3) xtree0 (Ext 0 10 100) [] [])
    as (t' & calls' & Hr & Hf & _);
    [exact xtree0_flat|exact in_extent0|intros h a; reflexivity|exact journal_ok0|simpl; lia|simpl; lia|].
  exists t', calls'. auto.
Defined.

Lemma extent_map_lookup_error_oops_witness :
  @evfs_extent_map fmt0 (env_ptr_with "kcalloc" PtrNull) tree0 (EExt 2 500 3) (World xtree0 [] []) = Oops.
Proof.
  apply (@extent_map_lookup_error_oops fmt0 (env_ptr_with "kcalloc" PtrNull) tree0);
    [unfold ext_depth; simpl; lia|reflexivity].
Defined.

Definition xtree_hole : xtree := XTree leaf0 ∅ ∅.

Lemma extent_map_hole_overshoots_witness :
  exists calls', evfs_extent_map (EExt 17 500 2) (World xtree_hole [] []) =
    Ret (0, EExt 17 500 5, EExt 22 505 4294967293) (World xtree_hole [] calls').
Proof.
  destruct (extent_map_hole_overshoots (EExt 17 500 2) xtree_hole 1 [] []) as (_ & calls' & Hr);
    [split; [reflexivity|exact leaf0_wf|exact leaf0_ok]|intros h a; reflexivity|lia|simpl; lia
    |unfold ext_end, ext4_ext_get_actual_len; simpl; lia|].
  exists calls'. exact Hr.
Defined.

Lemma extent_move_correct_witness :
  exists ret exts' num s' calls',
    evfs_extent_move 3 0 (EExt 2 500 3) (replicate 3 zero_ext) (World fs0 [] []) =
      Ret (ret, exts', num) (World s' [] calls').
Proof.
  destruct (extent_move_correct 3 0 (EExt 2 500 3) (replicate 3 zero_ext) (Ext 0 10 100) fs0 [] [])
    as (ret & exts' & num & s' & calls' & Hr & _);
    [exact xtree0_flat|exact in_extent0|intros h a; reflexivity|exact journal_ok0|simpl; lia
    |change (i_tree (inode_of fs0 3)) with xtree0; simpl; lia|reflexivity|reflexivity|].
  exists ret, exts', num, s', calls'. exact Hr.
Defined.

Lemma extent_read_overreads_witness :
  evfs_extent_read 3 2 (replicate 2 zero_ext) (World fs0 [] []) = Oops.
Proof.
  apply (extent_read_overreads 3 2 fs0 [] []);
    [exact xtree0_flat|reflexivity|reflexivity|intros h a; reflexivity|intros h a; reflexivity|lia
    |reflexivity].
Defined.

(** ** Directories *)

Definition d0 : dirctx := dctx fs0 2.

Lemma entry_bytes b off i r t nm : bytes_ok b -> bytes_ok (entry b off i r t nm).
Proof. intros. unfold entry. eauto 10 with evfs. Qed.

Lemma block0_bytes : bytes_ok block0.
Proof. apply entry_bytes, entry_bytes, Forall_replicate. lia. Qed.

Lemma plain0 : plain d0.
Proof. split; vm_compute; reflexivity. Qed.
Lemma geometry_dir0 : dir_geometry d0.
Proof. vm_compute. repeat split; intros [=]. Qed.

Lemma block0_ok : dirblock d0 block0 [0; 12].
Proof.
  split_and!; [exact block0_bytes|vm_compute; reflexivity| |intros Hc; vm_compute in Hc; discriminate].
  assert (H0 : entry_ok d0 block0 0).
  { unfold entry_ok. split_and!; try (vm_compute; intros [=]; fail); [vm_compute; reflexivity|].
    intros _. vm_compute. intros [=]. }
  assert (H1 : entry_ok d0 block0 12).
  { unfold entry_ok. split_and!; try (vm_compute; intros [=]; fail); [vm_compute; reflexivity|].
    intros _. vm_compute. intros [=]. }
  constructor; [exact H0|]. replace (0 + rlen_at d0 block0 0) with 12 by (vm_compute; reflexivity).
  constructor; [exact H1|].
  replace (12 + rlen_at d0 block0 12) with (dir_limit d0) by (vm_compute; reflexivity). constructor.
Qed.

Definition fname_of (nm : list Z) : ext4_filename := Filename nm nm None 0 0.

Lemma dirblock_search_spec_witness :
  match search_dirblock d0 block0 (fname_of [98; 99]) with
  | Some (SFound o) => is_live block0 o = true | Some SNone => True | _ => False
  end.
Proof.
  pose proof (dirblock_search_spec d0 plain0 geometry_dir0 block0 [0; 12] (fname_of [98; 99]) block0_ok) as H.
  destruct (search_dirblock d0 block0 (fname_of [98; 99])) as [[| |o]|]; [exact H|exact I| |exact H].
  exact (proj1 (proj2 H)).
Defined.

Lemma name_ok0 : name_ok (fname_of [120]).
Proof. split; [repeat constructor; lia|simpl; unfold EXT4_NAME_LEN; lia]. Qed.

Lemma inodes0 : d_inodes d0 = 8.
Proof. vm_compute. reflexivity. Qed.

Lemma dirblock_insert_refines_witness :
  match ext4_find_dest_de d0 block0 (dir_limit d0) (fname_of [120]) with
  | Some (inr x) => exists b' os', ext4_insert_dentry d0 5 S_IFREG block0 x (d_blocksize d0) (fname_of [120])
                      = Some b' /\ dirblock d0 b' os'
  | Some (inl e) => e = - EEXIST \/ e = - ENOSPC
  | None => False
  end.
Proof.
  pose proof (dirblock_insert_refines d0 plain0 geometry_dir0 5 S_IFREG block0 [0; 12] (fname_of [120])
    block0_ok name_ok0 ltac:(lia) ltac:(rewrite inodes0; lia)) as H.
  destruct (ext4_find_dest_de d0 block0 (dir_limit d0) (fname_of [120])) as [[e|x]|]; [| |exact H].
  - destruct H as [[-> _]|[-> _]]; auto.
  - destruct H as (b' & os' & l1 & l2 & Hi & Hd & _). exists b', os'. auto.
Defined.

Lemma dirblock_delete_refines_witness :
  exists b' os', ext4_generic_delete_entry d0 block0 12 (d_blocksize d0) (csum_size d0) = Some (inr b') /\
    dirblock d0 b' os'.
Proof.
  destruct (proj1 (dirblock_delete_refines d0 plain0 geometry_dir0 block0 [0; 12] 12 block0_ok) [0] [] eq_refl)
    as (b' & os' & Hr & Hd & _).
  exists b', os'. auto.
Defined.

Lemma linear0 : linear 2 fs0 [[Dent [97] 3 1; Dent [98; 99] 4 1]].
Proof.
  split; [exact plain0|exact geometry_dir0|vm_compute; reflexivity|vm_compute; reflexivity
    |vm_compute; reflexivity|vm_compute; reflexivity|].
  change (i_dir (inode_of fs0 2)) with [block0]. constructor; [|constructor].
  exists [0; 12]. split; [exact block0_ok|vm_compute; reflexivity].
Qed.

(** ** Operations on directories *)

Lemma free_locks m : existsb (blocks_on (Excl (LInode m))) [] = false.
Proof. reflexivity. Qed.

Lemma dentry_add_correct_witness :
  exists ret s' calls', evfs_dentry_add 2 5 [120] (World fs0 [] []) = Ret ret (World s' [] calls') /\
    only2 2 5 fs0 s'.
Proof.
  destruct (dentry_add_correct 2 5 [120] fs0 [] [] _ linear0) as (ret & s' & calls' & Hr & Ho & _);
    [repeat constructor; lia|lia|lia|vm_compute; intros [=]
    |change (i_nlink (inode_of fs0 5)) with 2; lia| | | |reflexivity|reflexivity|].
  - intros h f a Hf. simpl. destruct (String.eqb_spec f "ext4_new_meta_blocks") as [->|]; [|reflexivity].
    vm_compute in Hf. discriminate Hf.
  - intros h a. simpl. discriminate.
  - intros h k _. reflexivity.
  - exists ret, s', calls'. auto.
Defined.

(** An empty answer buffer. *)
Definition out0 : de_read_out := DeOut 0 0 0 (replicate 255 0).

Lemma dentry_read_nth_witness :
  exists err out' calls',
    evfs_dentry_read 2 1 out0 (World fs0 [] []) = Ret (err, out') (World fs0 [] calls') /\
    (err < 0 \/ reported (Dent [98; 99] 4 1) out').
Proof.
  destruct (dentry_read_nth 2 1 out0 fs0 [] [] [0; 12] plain0 geometry_dir0) as (err & out' & calls' & Hr & Hd);
    [vm_compute; reflexivity|exact block0_ok|lia|reflexivity|reflexivity|].
  exists err, out', calls'. split; [exact Hr|].
  destruct Hd as [[Hd _]|[_ Hd]]; [by left|right].
  assert (Hl : live (dir_block fs0 2 0) [0; 12] !! Z.to_nat 1 = Some (Dent [98; 99] 4 1))
    by (vm_compute; reflexivity).
  rewrite Hl in Hd. exact Hd.
Defined.

Lemma update_ready0 : update_ready 2 fs0 [] [0; 12].
Proof.
  split; [exact plain0|exact geometry_dir0|vm_compute; reflexivity|exact block0_ok
    |change (i_dir (inode_of fs0 2)) with [block0]; simpl; lia|vm_compute; reflexivity|exact free_locks].
Qed.

(** The old inode has one link left. *)
Definition fs_last : fs := upd_inode 4 (set_nlink 1) fs0.
Lemma update_ready_last : update_ready 2 fs_last [] [0; 12].
Proof.
  assert (Hd : dctx fs_last 2 = dctx fs0 2) by (vm_compute; reflexivity).
  assert (Hi : inode_of fs_last 2 = inode_of fs0 2) by (vm_compute; reflexivity).
  destruct update_ready0 as [Hp Hg Hpg Hb Hn Hdir Hl].
  split; unfold dir_block; rewrite ?Hd, ?Hi; [exact Hp|exact Hg|exact Hpg|exact Hb|exact Hn|exact Hdir|exact Hl].
Qed.

Lemma dentry_update_redirects_witness :
  exists s' calls', @evfs_dentry_update (env_with "" 0) _ _ 2 1 5 (World fs_last [] []) =
    Ret (Some 0) (World s' [] calls') /\ ("ext4_orphan_add", [4]) ∈ calls' /\ is_tracked s' 4 = false.
Proof.
  assert (Hold : de_inode (dir_block fs_last 2 0) 12 = 4) by (vm_compute; reflexivity).
  assert (Hlinks : i_nlink (inode_of fs_last 4) = 1) by (vm_compute; reflexivity).
  pose proof (@dentry_update_redirects (env_with "" 0) _ _ ltac:(intros h f a; simpl; by destruct (String.eqb f ""))
    2 1 5 fs_last [] [] [0; 12] 12 update_ready_last) as H. cbv zeta in H. rewrite Hold, Hlinks in H.
  destruct H as (s' & calls' & Hr & _ & _ & _ & Htr & Ho);
    [intros h f a; reflexivity|lia|vm_compute; reflexivity|lia|vm_compute; intros [=]|lia|lia|lia|lia
    |intros _; split; [apply tracker0_wf|split; [|intros ?; done]]; eexists; split; [reflexivity|by vm_compute]|].
  exists s', calls'. split; [exact Hr|]. split; [exact (Ho eq_refl)|]. rewrite Htr by lia. reflexivity.
Defined.

(** Every call succeeds, but no inode has the number the handler makes up for a missing
    entry. *)
Definition env_no_ino : Env := {|
  env_int := fun _ _ _ => 0;
  env_ptr := fun _ f a =>
    if String.eqb f "ext4_iget" && bool_decide (a = [NO_INO]) then PtrErr (-117) else PtrOk
|}.

Lemma dentry_update_missing_succeeds_witness :
  exists calls', @evfs_dentry_update env_no_ino _ _ 2 5 5 (World fs0 [] []) =
    Ret (Some 0) (World (upd_inode 5 (fun i => set_nlink (u32 (i_nlink i + 1)) i) fs0) [] calls').
Proof.
  apply (@dentry_update_missing_succeeds env_no_ino _ _ ltac:(intros h f a; reflexivity)
    2 5 5 fs0 [] [] [0; 12] (-117) update_ready0);
    [vm_compute; intros [=]|lia|lia|lia|intros h; vm_compute; reflexivity|].
  intros h f a Ha. simpl. rewrite bool_decide_eq_false_2 by exact Ha. by rewrite andb_false_r.
Defined.

(** The entry "a" is deleted, and the directory stays locked. *)
Lemma dentry_delete_leaves_locked_witness :
  exists s' calls', @evfs_dentry_delete (env_with "buffer_uptodate" 1) _ _ _ _ 2 [97] (World fs0 [] []) =
    Ret 0 (World s' [Excl (LInode 2)] calls') /\ Excl (LInode 2) ∈ w_held (World s' [Excl (LInode 2)] calls').
Proof.
  destruct (run_ret_eq (@evfs_dentry_delete (env_with "buffer_uptodate" 1) _ _ _ _ 2 [97] (World fs0 [] []))
    0 [Excl (LInode 2)]) as (s' & calls' & Hr); [vm_compute; reflexivity|].
  exists s', calls'. split; [exact Hr|].
  exact (@dentry_delete_leaves_locked (env_with "buffer_uptodate" 1) _ _ _ _ _ 2 [97] (World fs0 [] []) _ _
    eq_refl eq_refl eq_refl Hr).
Defined.

Lemma dentry_add_self_deadlocks_witness : evfs_dentry_add 2 2 [120] (World fs0 [] []) = Deadlock.
Proof.
  apply (dentry_add_self_deadlocks 2 [120] fs0 [] []);
    [simpl; unfold EXT4_NAME_LEN; lia|vm_compute; reflexivity|intros h a; reflexivity|intros h a; reflexivity].
Defined.

Definition args0 : user_args := UArgs 2 5 0 (replicate 255 97) 8 0 (EExt 2 500 3).

Lemma ioctl_copies_uninitialised_witness :
  exists calls', @ext4_ioctl_evfs (env_ptr_with "ext4_iget" (PtrErr (-5))) _ _ _ _ _ _ _
    EXT4_EVFS_DEN_READ 1 2 0 args0 out0 [] (World fs0 [] []) =
      Ret (Some (-5), [CDe out0]) (World fs0 [] calls').
Proof.
  destruct (@ioctl_copies_uninitialised (env_ptr_with "ext4_iget" (PtrErr (-5))) _ _ _ _ _ _ _
    1 2 0 args0 out0 [] fs0 [] [] (-5)) as [Hr _]; [intros h a; reflexivity..|].
  exact Hr.
Defined.
