(* ===== verification/WitnessDx.v ===== *)
(** * Concrete hash trees

    The properties of the hash-tree files, applied to a directory with a root, two leaves
    and four entries; and a directory with a full leaf whose split leaves no room for the
    name it was made for. *)

From stdpp Require Import prelude list gmap strings.
From Stdlib Require Import ZArith Lia.
From S2P Require Import Prelude Kernel Bytes Layout ExtentNode Fs Inode Dirent DxBlock DxBlockSpec DxSplit DxRoom Namei Dx DxLookup DxTree DxAdd DxKeep DxInsert DxAddEntry DxHooks Witness.

Local Open Scope string_scope.
Local Open Scope Z_scope.

(** Every call succeeds, and the buffers were verified. *)
Definition env1 : Env := env_with "buffer_verified" 1.
Definition errno1 : @EnvErrno env1.
Proof. split. intros h f a e. done. Defined.
Definition hash1 : @DirHashOk nameienv0.
Proof.
  split; intros v nm; simpl; set (x := fold_right Z.add 0 nm).
  - pose proof (Z.mod_pos_bound x (2 ^ 31)). lia.
  - change 1 with (Z.ones 1). rewrite Z.land_ones by lia.
    rewrite Z.mul_comm. by rewrite Z.mod_mul by lia.
Defined.
Definition inline1 : InlineDir := {|
  find_inline_entry := fun _ _ => kret (LNull, false);
  try_add_inline_entry := fun _ _ _ => kret 0;
  delete_inline_entry := fun _ _ _ => kret (0, false)
|}.
#[local] Existing Instances env1 errno1 csum0 dirnames0 dirnamesok0 nameienv0 hash1 inline1.

(** The root: "." and "..", the information, and two entries; the leaves hold "a" and
    "b", and "c" and "d". *)
Definition root1 : list Z :=
  let b := entry (entry (replicate 1024 0) 0 7 12 2 [46]) 12 2 1012 2 [46; 46] in
  let b := putb (putb b 28 1) 29 8 in
  let b := put16 (put16 b 32 124) 34 2 in
  let b := put32 b 36 1 in
  put32 (put32 b 40 198) 44 2.
Definition leaf1 : list Z := entry (entry (replicate 1024 0) 0 3 12 1 [97]) 12 4 1012 1 [98].
Definition leaf2 : list Z := entry (entry (replicate 1024 0) 0 5 12 1 [99]) 12 6 1012 1 [100].
Definition dir1 : inode :=
  Inode S_IFDIR 2 0 0 0 0 3072 6 zero_ts zero_ts zero_ts 0 false zero_ts 3072 (2 ^ 12) 0 0 0 0 0 0
    zero_tree [root1; leaf1; leaf2].
Definition fs1 : fs :=
  Fs sbi0 (put32 es0 0x5c EXT4_FEATURE_COMPAT_DIR_INDEX) ∅ ∅ ∅ 0 0 None {[7 := dir1]}.

Example find_b : run_ret (dx_find_entry 7 (fname_of [98]) (World fs1 [] [])) = Some (LFound 1 12, [dbh 7 1]).
Proof. vm_compute. reflexivity. Qed.
Example find_d : run_ret (dx_find_entry 7 (fname_of [100]) (World fs1 [] [])) = Some (LFound 2 12, [dbh 7 2]).
Proof. vm_compute. reflexivity. Qed.
Example find_z : run_ret (dx_find_entry 7 (fname_of [122]) (World fs1 [] [])) = Some (LNull, []).
Proof. vm_compute. reflexivity. Qed.

Definition d1 : dirctx := dctx fs1 7.

Lemma plain1 : plain d1.
Proof. split; vm_compute; reflexivity. Qed.
Lemma geometry_dir1 : dir_geometry d1.
Proof. vm_compute. repeat split; intros [=]. Qed.

(** The chain of records, checked by evaluation. *)
Definition entry_okb (d : dirctx) (b : list Z) (o : Z) : bool :=
  let r := rlen_at d b o in
  (12 <=? r) && (r mod 4 =? 0) && (ext4_dir_rec_len (de_name_len b o) (Some d) <=? r) &&
  (de_inode b o <=? d_inodes d) && ((de_inode b o =? 0) || (1 <=? de_name_len b o)).
Fixpoint chainb (d : dirctx) (b : list Z) (o e : Z) (os : list Z) : bool :=
  match os with
  | [] => o =? e
  | x :: os => (x =? o) && entry_okb d b o && chainb d b (o + rlen_at d b o) e os
  end.

Lemma chainb_sound d b os : forall o e, chainb d b o e os = true -> chain d b o e os.
Proof.
  induction os as [|x os IH]; intros o e Hc; simpl in Hc; reflect_bools; subst; [constructor|].
  constructor; [|auto]. unfold entry_okb in *. reflect_bools. split_and!; try done.
  intros. lia.
Qed.

Ltac block_done :=
  split_and!; [repeat apply entry_bytes; apply Forall_replicate; lia|vm_compute; reflexivity| |
               intros Hc; vm_compute in Hc; discriminate];
  apply chainb_sound; vm_compute; reflexivity.

Lemma leaf1_ok : dirblock d1 leaf1 [0; 12].
Proof. block_done. Qed.
Lemma leaf2_ok : dirblock d1 leaf2 [0; 12].
Proof. block_done. Qed.
Lemma root1_bytes : bytes_ok root1.
Proof.
  unfold root1, entry. repeat (apply bytes_ok_le_put || apply bytes_ok_putb || apply bytes_ok_puts).
  apply Forall_replicate. lia.
Qed.
Lemma dir_bytes1 : dir_bytes fs1 7.
Proof.
  change (Forall bytes_ok [root1; leaf1; leaf2]).
  apply Forall_cons_2; [exact root1_bytes|]. apply Forall_cons_2; [apply leaf1_ok|].
  apply Forall_cons_2; [apply leaf2_ok|constructor].
Qed.

Lemma reads1 : reads_ok.
Proof. split; intros h a; [reflexivity|discriminate]. Qed.
Lemma readable1 blk t : 0 <= blk < 3 -> (t = INDEX -> blk = 0) -> readable 7 fs1 blk t.
Proof.
  intros Hb Ht. split_and!; [exact reads1|apply Hb|]. intros HI. split; [vm_compute; reflexivity|left; auto].
Qed.

Lemma root1_ok fname hinfo : root_ok 7 fs1 (Some fname) hinfo.
Proof.
  split_and!; [apply readable1; [lia|auto]|vm_compute; reflexivity| |vm_compute; reflexivity..|].
  - unfold probe_hash. eexists. reflexivity.
  - change (Z.to_nat _) with O. split_and!; [vm_compute; intros [=]|vm_compute; intros [=]| |].
    + intros i j Hi Hij Hj. change (j < 2) in Hj. lia.
    + intros i Hi. change (0 <= i < 2) in Hi. assert (i = 0 \/ i = 1) as [-> | ->] by lia.
      * split; [apply not_elem_of_cons; split; [vm_compute; discriminate|apply not_elem_of_nil]|].
        change (readable 7 fs1 1 DIRENT_HTREE). apply readable1; [lia|discriminate].
      * split; [apply not_elem_of_cons; split; [vm_compute; discriminate|apply not_elem_of_nil]|].
        change (readable 7 fs1 2 DIRENT_HTREE). apply readable1; [lia|discriminate].
Qed.

Lemma all_leaves1 : all_leaves 7 fs1 = [(0, 1); (198, 2)].
Proof. vm_compute. reflexivity. Qed.

Lemma htree1 : htree_ok 7 fs1.
Proof.
  split; [exact dir_bytes1|exact plain1|exact geometry_dir1|exact root1_ok| |].
  - rewrite all_leaves1. repeat constructor. simpl. lia.
  - intros l1 lo blk l2. rewrite all_leaves1. destruct l1 as [|x [|y l1]]; simpl.
    + intros [= <- <- <-]. exists [0; 12]. split; [exact leaf1_ok|].
      change (live (dir_block fs1 7 1) [0; 12]) with [Dent [97] 3 1; Dent [98] 4 1].
      intros e He. apply elem_of_cons in He as [->|He]; [|apply list_elem_of_singleton in He as ->];
        (split; [vm_compute; intros [=]|intros hi b3 l3 [= <- <- <-]; vm_compute; reflexivity]).
    + intros [= <- <- <- <-]. exists [0; 12]. split; [exact leaf2_ok|].
      change (live (dir_block fs1 7 2) [0; 12]) with [Dent [99] 5 1; Dent [100] 6 1].
      intros e He. apply elem_of_cons in He as [->|He]; [|apply list_elem_of_singleton in He as ->];
        (split; [vm_compute; intros [=]|intros hi b3 l3 [=]]).
    + intros Heq. apply (f_equal length) in Heq. simpl in Heq. rewrite length_app in Heq. simpl in Heq. lia.
Qed.

(** ** The properties *)

Lemma dx_find_entry_correct_witness :
  wp (dx_find_entry 7 (fname_of [98])) (fun r w' => w_st w' = fs1 /\ tree_result 7 fs1 (fname_of [98]) r)
    (World fs1 [] []).
Proof.
  eapply wp_mono; [apply (dx_find_entry_correct 7 (fname_of [98]) (World fs1 [] []) htree1)|].
  intros r w' (Hst & _ & Hr). split; [exact Hst|exact Hr].
Defined.

Lemma find_entry_htree_witness :
  wp (__ext4_find_entry 7 (fname_of [98])) (fun r w' => w_st w' = fs1 /\ tree_result 7 fs1 (fname_of [98]) r)
    (World fs1 [] []).
Proof.
  eapply wp_mono; [apply (find_entry_htree 7 (fname_of [98]) (World fs1 [] []) htree1);
                   [vm_compute; reflexivity|vm_compute; intros [=]|vm_compute; reflexivity]|].
  intros r w' (Hst & _ & Hr). split; [exact Hst|exact Hr].
Defined.

Lemma dx_find_entry_returns_witness :
  wp (dx_find_entry 7 (fname_of [122])) (fun r w' => w_st w' = fs1) (World fs1 [] []).
Proof.
  eapply wp_mono; [apply (dx_find_entry_returns 7 (fname_of [122]) (World fs1 [] []) dir_bytes1)|].
  intros r w' (Hst & _). exact Hst.
Defined.

Lemma leaf_split_correct_witness :
  exists map sp os1 os2,
    dx_make_map d1 (ext4fs_dirhash 1) leaf1 = Some (0, map) /\
    dx_split_blocks d1 leaf1 (replicate 1024 0) map = Some sp /\
    split_ok d1 (ext4fs_dirhash 1) [Dent [97] 3 1; Dent [98] 4 1] sp os1 os2 /\
    accepts d1 (sp_data2 sp) os2 (sp_de2 sp).
Proof.
  destruct (leaf_split_correct d1 plain1 geometry_dir1 (ext4fs_dirhash 1) leaf1 [0; 12] (replicate 1024 0))
    as (map & sp & os1 & os2 & Hm & Hs & Hok & Ha & _);
    [exact leaf1_ok|apply Forall_replicate; lia|vm_compute; reflexivity|intros nm; reflexivity
    |vm_compute; lia|].
  exists map, sp, os1, os2. split; [exact Hm|]. split; [exact Hs|]. split; [exact Hok|exact Ha].
Defined.

Lemma dx_search_is_linear_witness :
  dx_search root1 32 2 200 = Some (htree_linear root1 32 200 1 0).
Proof.
  apply (dx_search_is_linear root1 32 2 200); [intros i j Hi Hij Hj; lia|lia].
Defined.

Lemma dx_insert_adds_entry_witness :
  exists b', dx_insert_block root1 32 40 300 3 = Some b' /\
    dx_entries b' 32 = [(0, 1); (198, 2); (300, 3)].
Proof.
  destruct (dx_insert_adds_entry root1 32 1 300 3) as (b' & Hr & _ & _ & He & _);
    [split_and!; [exact root1_bytes|lia|vm_compute; intros [=]]|vm_compute; lia|vm_compute; reflexivity|lia|lia|].
  exists b'. split; [exact Hr|exact He].
Defined.

Lemma dx_sort_map_sorts_witness :
  exists map', dx_sort_map [MapE 9 0 12; MapE 3 3 12; MapE 5 6 12] = Some map' /\
    map' ≡ₚ [MapE 9 0 12; MapE 3 3 12; MapE 5 6 12].
Proof.
  destruct (dx_sort_map_sorts [MapE 9 0 12; MapE 3 3 12; MapE 5 6 12]) as (map' & Hr & Hp & _);
    [simpl; lia|]. exists map'. split; [exact Hr|exact Hp].
Defined.

(** ** Splitting the first leaf *)

Definition envfs1 : @EnvFs env1 := envfs_with "buffer_verified" 1.
#[local] Existing Instance envfs1.

Lemma calm1 : journal_calm.
Proof.
  intros h f a Hf. change (env_int h f a) with (if String.eqb f "buffer_verified" then 1 else 0).
  destruct (String.eqb_spec f "buffer_verified") as [->|]; [discriminate Hf|reflexivity].
Qed.

Lemma can_split1 : can_split 7 fs1 1 (Frame 0 32 32) 0 [0; 12].
Proof.
  split; [exact plain1|exact geometry_dir1|vm_compute; reflexivity|vm_compute; split; [intros [=]|reflexivity]
         |vm_compute; split; [intros [=]|reflexivity]|intros [=]|vm_compute; reflexivity|exact leaf1_ok
         |vm_compute; lia| |vm_compute; reflexivity|vm_compute; lia|vm_compute; reflexivity].
  split; [|vm_compute; reflexivity|intros Hc; vm_compute in Hc; discriminate].
  split_and!; [exact root1_bytes|vm_compute; intros [=]..].
Qed.

Lemma do_split_correct_witness :
  wp (do_split 7 1 (Frame 0 32 32) (HInfo 196 0 1)) (fun r w' =>
    match r with
    | inl err => err < 0 /\ w_st w' = fs1 /\ w_held w' = []
    | inr (target, de) =>
        split_done 7 fs1 1 (Frame 0 32 32) 0 [0; 12] 1 196 (w_st w') target de /\
        on_top [dbh 7 target] [] (w_held w')
    end) (World fs1 [dbh 7 1] []).
Proof.
  apply (do_split_correct calm1 ltac:(intros h a; discriminate) 7 1 (Frame 0 32 32) (HInfo 196 0 1) 0 [0; 12] []
           (World fs1 [dbh 7 1] [])); [exact can_split1|intros nm; reflexivity|].
  exists [dbh 7 1]. split; reflexivity.
Defined.

Example split1 :
  match do_split 7 1 (Frame 0 32 32) (HInfo 196 0 1) (World fs1 [dbh 7 1] []) with
  | Ret r w => (r, w_held w, dx_entries (dir_block (w_st w) 7 0) 32) = (inr (3, 0), [dbh 7 3], [(0, 1); (196, 3); (198, 2)])
  | _ => False
  end.
Proof. vm_compute. reflexivity. Qed.

(** ** Adding an entry *)

Lemma tree_dir1 : tree_dir 7 fs1.
Proof.
  split; [exact htree1| | |vm_compute; reflexivity|vm_compute; reflexivity|vm_compute; reflexivity].
  - change (tree_blocks 7 fs1) with [0; 1; 2]. apply (bool_decide_unpack (NoDup [0; 1; 2])). vm_compute. exact I.
  - change (idx_blocks 7 fs1 (root_levels 7 fs1) 0 (root_entries_at 7 fs1)) with [0].
    intros b ->%list_elem_of_singleton. apply (cs_index _ _ _ _ _ _ can_split1).
Qed.

Lemma can_add1 : can_add 7 8 (fname_of [101]) fs1.
Proof.
  split.
  - split; [apply Forall_cons_2; [lia|constructor]|vm_compute; split; intros [=]].
  - lia.
  - vm_compute. intros [=].
  - vm_compute. reflexivity.
  - change (idx_blocks 7 fs1 (root_levels 7 fs1) 0 (root_entries_at 7 fs1)) with [0].
    intros b ->%list_elem_of_singleton. vm_compute. reflexivity.
  - intros blk os (i & lo & Hi & _) Hd Hfull. exfalso. rewrite all_leaves1 in Hi.
    assert (Hb : blk = 1 \/ blk = 2) by (destruct i as [|[|i]]; simpl in Hi; [left|right|discriminate]; congruence).
    assert (Hos : os = [0; 12]).
    { destruct Hd as (_ & _ & Hc & _). destruct Hb as [-> | ->].
      - apply (chain_unique _ _ _ _ _ (proj1 (proj2 (proj2 leaf1_ok))) _ Hc).
      - apply (chain_unique _ _ _ _ _ (proj1 (proj2 (proj2 leaf2_ok))) _ Hc). }
    subst os. specialize (Hfull 12 ltac:(right; left)). destruct Hb as [-> | ->]; vm_compute in Hfull; discriminate.
Qed.

Lemma dx_add_entry_correct_witness :
  wp (dx_add_entry 7 8 (fname_of [101])) (fun r w' =>
    w_held w' = [] /\ add_post 7 8 (fname_of [101]) fs1 r (w_st w')) (World fs1 [] []).
Proof.
  apply (dx_add_entry_correct 7 8 (fname_of [101]) (World fs1 [] []) calm1 ltac:(intros h a; discriminate)
           tree_dir1 can_add1).
Defined.

Example add1 :
  match dx_add_entry 7 8 (fname_of [101]) (World fs1 [] []) with
  | Ret r w => (r, w_held w, live (dir_block (w_st w) 7 2) [0; 12; 24]) =
               (0, [], [Dent [99] 5 1; Dent [100] 6 1; Dent [101] 8 0])
  | _ => False
  end.
Proof. vm_compute. reflexivity. Qed.

(** ** A split that leaves no room *)

(** One leaf with three names of 255 bytes, which have the smallest hashes, and three
    short ones; the record with the smallest hash is the last. *)
Definition long (x : Z) : list Z := x :: replicate 254 1.
Definition root2 : list Z :=
  let b := entry (entry (replicate 1024 0) 0 7 12 2 [46]) 12 2 1012 2 [46; 46] in
  let b := putb (putb b 28 1) 29 8 in
  let b := put16 (put16 b 32 124) 34 1 in
  put32 b 36 1.
Definition full2 : list Z :=
  let b := entry (entry (replicate 1024 0) 0 3 264 1 (long 2)) 264 4 264 1 (long 3) in
  let b := entry (entry (entry b 528 5 12 1 [200; 200]) 540 6 12 1 [200; 201]) 552 7 12 1 [200; 202] in
  entry b 564 8 460 1 (long 1).
Definition records2 : list Z := [0; 264; 528; 540; 552; 564].
Definition dir2 : inode :=
  Inode S_IFDIR 2 0 0 0 0 2048 6 zero_ts zero_ts zero_ts 0 false zero_ts 2048 (2 ^ 12) 0 0 0 0 0 0
    zero_tree [root2; full2].
Definition fs2 : fs :=
  Fs sbi0 (put32 es0 0x5c EXT4_FEATURE_COMPAT_DIR_INDEX) ∅ ∅ ∅ 0 0 None {[7 := dir2]}.
Definition d2 : dirctx := dctx fs2 7.

Lemma full2_ok : dirblock d2 full2 records2.
Proof. block_done. Qed.
Lemma geometry_dir2 : dir_geometry d2.
Proof. vm_compute. repeat split; intros [=]. Qed.
Lemma root2_bytes : bytes_ok root2.
Proof.
  unfold root2, entry. repeat (apply bytes_ok_le_put || apply bytes_ok_putb || apply bytes_ok_puts).
  apply Forall_replicate. lia.
Qed.
Lemma root2_ok fname hinfo : root_ok 7 fs2 (Some fname) hinfo.
Proof.
  assert (Hrd : forall blk t, 0 <= blk < 2 -> (t = INDEX -> blk = 0) -> readable 7 fs2 blk t).
  { intros blk t Hb Ht. split_and!; [exact reads1|apply Hb|]. intros HI. split; [vm_compute; reflexivity|left; auto]. }
  split_and!; [apply Hrd; [lia|auto]|vm_compute; reflexivity| |vm_compute; reflexivity..|].
  - unfold probe_hash. eexists. reflexivity.
  - change (Z.to_nat _) with O. split_and!; [vm_compute; intros [=]|vm_compute; intros [=]| |].
    + intros i j Hi Hij Hj. change (j < 1) in Hj. lia.
    + intros i Hi. change (0 <= i < 1) in Hi. assert (i = 0) as -> by lia.
      split; [apply not_elem_of_cons; split; [vm_compute; discriminate|apply not_elem_of_nil]|].
      change (readable 7 fs2 1 DIRENT_HTREE). apply Hrd; [lia|discriminate].
Qed.

Lemma htree2 : htree_ok 7 fs2.
Proof.
  assert (Hl : all_leaves 7 fs2 = [(0, 1)]) by (vm_compute; reflexivity).
  split; [|split; vm_compute; reflexivity|exact geometry_dir2|exact root2_ok| |].
  - change (Forall bytes_ok [root2; full2]). apply Forall_cons_2; [exact root2_bytes|].
    apply Forall_cons_2; [apply full2_ok|constructor].
  - rewrite Hl. repeat constructor.
  - intros l1 lo blk l2. rewrite Hl. destruct l1 as [|x l1]; [|by destruct l1].
    intros [= <- <- <-]. exists records2. split; [exact full2_ok|]. intros e He. split; [|done].
    apply (proj1 (dirhash_range _ (e_name e))).
Qed.

Definition long_name : ext4_filename := fname_of (long 4).
Definition map2 : list dx_map_entry :=
  Eval vm_compute in default [] (snd <$> dx_make_map d2 (ext4fs_dirhash 1) full2).
Definition split2 : split_result :=
  Eval vm_compute in default (Split [] [] 0 0 0 0) (dx_split_blocks d2 full2 (replicate 1024 0) map2).

(** C38: the split point is off by one.  A well-formed hash tree with a full leaf: the
    scan over the sizes stops at the entry with the smallest hash (i == 0), where the
    entries are divided by their number although they fill more than half of the block;
    the first half is left with room for 232 bytes, a name of 255 bytes that belongs
    there needs 264, and adding it writes past the end of the block. *)
Theorem dx_add_writes_past_block :
  htree_ok 7 fs2 /\ name_ok long_name /\ stops_at_first d2 (ext4fs_dirhash 1) full2 /\
  (exists map sp,
    dx_make_map d2 (ext4fs_dirhash 1) full2 = Some (0, map) /\
    dx_split_blocks d2 full2 (replicate 1024 0) map = Some sp /\
    tree_hash 7 fs2 (disk_name long_name) < sp_hash2 sp /\
    room d2 (sp_data1 sp) (sp_de sp) = 232 /\ reclen_of d2 long_name = 264 /\
    ext4_insert_dentry d2 8 S_IFREG (sp_data1 sp) (sp_de sp) (d_blocksize d2) long_name = None) /\
  dx_add_entry 7 8 long_name (World fs2 [] []) = Oops.
Proof.
  split; [exact htree2|]. split; [|split; [|split]].
  - split; [|vm_compute; split; intros [=]]. apply Forall_cons_2; [lia|]. apply Forall_replicate. lia.
  - exists map2, (default [] (dx_sort_map map2)). split_and!; vm_compute; reflexivity.
  - exists map2, split2. split_and!; vm_compute; reflexivity.
  - vm_compute. reflexivity.
Qed.
