(* ===== verification/WitnessDir.v ===== *)
(** * A concrete directory tree

    The theorems on making and removing names, applied to a directory with one file and
    one empty subdirectory, with a concrete allocator of inodes; and runs of the same
    operations one after the other. *)

From stdpp Require Import prelude list gmap strings.
From Stdlib Require Import ZArith Lia.
From S2P Require Import Prelude Kernel Bytes Layout Fs Inode Dirent Namei NameiSpec Mkdir MkdirSpec DirOps Rename RenameSpec Witness WitnessDx.

Local Open Scope string_scope.
Local Open Scope Z_scope.

(** ** Instances *)

(** Every call succeeds; the buffers are up to date and verified. *)
Definition env2 : Env := {|
  env_int := fun _ f _ =>
    if String.eqb f "buffer_uptodate" || String.eqb f "buffer_verified" then 1 else 0;
  env_ptr := fun _ _ _ => PtrOk
|}.
Definition envfs2 : @EnvFs env2.
Proof. split; intros; simpl in *; done. Defined.

(** An inode with the mode asked for and nothing else. *)
Definition fresh2 (mode : Z) : inode := set_nlink 1
  (Inode mode 0 0 0 0 0 0 0 zero_ts zero_ts zero_ts 0 false zero_ts 0 0 0 0 0 0 0 0 zero_tree []).

(** The allocator hands out inode 8 (or 7 to directory 8), if there are that many. *)
Definition dirinode2 : DirInode := {|
  ext4_new_inode_start_handle := fun n mode _ w =>
    let s := w_st w in
    let ino := if n =? 8 then 7 else 8 in
    if s_inodes_count (f_es s) <? 8 then Ret (inl (- ENOSPC)) w
    else Ret (inr ino) (World (set_inode ino (fresh2 mode) s)
           (Ref RHandle :: Excl (LNew ino) :: Ref (RInode ino) :: w_held w) (w_calls w));
  init_special_inode := fun _ _ => kret tt;
  ext4_try_create_inline_dir := fun _ _ => kret 0;
  empty_inline_dir := fun _ => kret (true, false)
|}.

Definition newok2 : @NewInodeOk nameienv0 dirinode2.
Proof.
  split. intros n mode name s held calls Q Herr HQ. unfold wp. simpl.
  destruct (Z.ltb_spec (s_inodes_count (f_es s)) 8).
  - by apply (Herr (- ENOSPC) s false).
  - set (ino := if n =? 8 then 7 else 8).
    assert (Hino : ino <> n /\ 0 < ino <= 8) by (unfold ino; destruct (Z.eqb_spec n 8); lia).
    assert (Ei : inode_of (set_inode ino (fresh2 mode) s) ino = fresh2 mode).
    { unfold inode_of, set_inode. simpl. apply lookup_total_insert_eq. }
    apply HQ. split; rewrite ?Ei; try done.
    + apply (apart_upd ino (fun _ => fresh2 mode)).
    + unfold valid_ino. lia.
    + intros _. unfold plain, dctx. by rewrite Ei.
    + unfold ext4_has_inline_data. by rewrite Ei.
Defined.

Definition hookslinks2 : @HooksLinks hooks0.
Proof. split; intros; apply still_ret. Defined.

(** No directory keeps its data in the inode. *)
Definition renamehooks2 : RenameHooks := {|
  ext4_get_first_inline_block := fun _ => kret (inl (- EIO));
  set_inline_parent := fun _ _ _ => kret tt
|}.

#[local] Existing Instances env2 envfs2 csum0 dirnames0 dirnamesok0 nameienv0 hooks0 dirinode2 newok2 hookslinks2 renamehooks2.

(** ** The file system *)

Definition parent2 : list Z :=
  entry (entry (entry (entry (replicate 1024 0) 0 2 12 0 [46]) 12 2 12 0 [46; 46])
           24 3 12 0 [97]) 36 7 988 0 [115].
Definition sub2 : list Z := entry (entry (replicate 1024 0) 0 7 12 0 [46]) 12 2 1012 0 [46; 46].
Definition dirnode2 (nlink : Z) (b : list Z) : inode :=
  Inode S_IFDIR nlink 0 0 0 0 1024 2 zero_ts zero_ts zero_ts 0 false zero_ts 1024 0 0 0 0 0 0 0
    zero_tree [b].
Definition fs2 : fs :=
  Fs sbi0 es0 ∅ ∅ ∅ 0 0 None {[2 := dirnode2 3 parent2; 3 := file0; 7 := dirnode2 2 sub2]}.
Definition w2 : world fs := World fs2 [] [].

(** ** Runs *)

Example find_sub : run_ret (ext4_find_entry 2 [115] w2) = Some (LFound 0 36, [dbh 2 0]).
Proof. vm_compute. reflexivity. Qed.
Example sub_is_empty : run_ret (ext4_empty_dir 7 w2) = Some (true, []).
Proof. vm_compute. reflexivity. Qed.
Example parent_is_not_empty : run_ret (ext4_empty_dir 2 w2) = Some (false, []).
Proof. vm_compute. reflexivity. Qed.
Example make_and_remove :
  run_ret ((err1 <~ ext4_mkdir 2 493 [120];; empty <~ ext4_empty_dir 8;; err2 <~ ext4_rmdir 2 [120] 8;;
            again <~ ext4_find_entry 2 [120];; s <~ kget;;
            kret (err1, empty, err2, again, i_nlink (inode_of s 2), i_nlink (inode_of s 8))) w2) =
    Some (0, true, 0, LNull, 3, 0, []).
Proof. vm_compute. reflexivity. Qed.
Example not_empty_refused : run_ret ((ext4_create 7 0x81a4 [120];;; ext4_rmdir 2 [115] 7) w2) = Some (- ENOTEMPTY, []).
Proof. vm_compute. reflexivity. Qed.

Example move_and_back :
  run_ret ((err1 <~ ext4_rename2 2 [97] 3 7 [120] None 0;; gone <~ ext4_find_entry 2 [97];;
            err2 <~ ext4_rename2 7 [120] 3 2 [97] None 0;; empty <~ ext4_empty_dir 7;;
            kret (err1, gone, err2, empty)) w2) = Some (0, LNull, 0, true, []).
Proof. vm_compute. reflexivity. Qed.
(** The subdirectory 7 moves into directory 8: its dot-dot entry and the link counts follow. *)
Example move_directory :
  run_ret ((ext4_mkdir 2 493 [120];;; err <~ ext4_rename2 2 [115] 7 8 [121] None 0;; s <~ kget;;
            kret (err, de_inode (dir_block s 7 0) 12, i_nlink (inode_of s 2), i_nlink (inode_of s 8))) w2) =
    Some (0, 8, 3, 3, []).
Proof. vm_compute. reflexivity. Qed.
Example exchange_names :
  run_ret ((err <~ ext4_rename2 2 [97] 3 2 [115] (Some 7) RENAME_EXCHANGE;; s <~ kget;;
            kret (err, de_inode (dir_block s 2 0) 24, de_inode (dir_block s 2 0) 36)) w2) =
    Some (0, 7, 3, []).
Proof. vm_compute. reflexivity. Qed.
(** A file takes the place of another one, which loses its last link. *)
Example replace_target :
  run_ret ((ext4_create 2 0x81a4 [120];;; err <~ ext4_rename2 2 [97] 3 2 [120] (Some 8) 0;;
            again <~ ext4_find_entry 2 [97];; s <~ kget;;
            kret (err, again, i_nlink (inode_of s 8))) w2) = Some (0, LNull, 0, []).
Proof. vm_compute. reflexivity. Qed.

(** ** The hypotheses hold *)

Definition d2 (n : Z) : dirctx := dctx fs2 n.

Lemma parent2_ok : dirblock (d2 2) parent2 [0; 12; 24; 36].
Proof. block_done. Qed.
Lemma sub2_ok : dirblock (d2 7) sub2 [0; 12].
Proof. block_done. Qed.

Definition parent2_entries : list dent :=
  [Dent [46] 2 0; Dent [46; 46] 2 0; Dent [97] 3 0; Dent [115] 7 0].

Lemma linear_parent2 : linear 2 fs2 [parent2_entries].
Proof.
  split; [split; vm_compute; reflexivity|vm_compute; repeat split; intros [=]|vm_compute; reflexivity..|].
  constructor; [|constructor]. exists [0; 12; 24; 36]. split; [exact parent2_ok|vm_compute; reflexivity].
Qed.
Lemma linear_sub2 : linear 7 fs2 [dots (d2 7) 7 2].
Proof.
  split; [split; vm_compute; reflexivity|vm_compute; repeat split; intros [=]|vm_compute; reflexivity..|].
  constructor; [|constructor]. exists [0; 12]. split; [exact sub2_ok|vm_compute; reflexivity].
Qed.
Lemma dotted_sub2 : dotted 7 fs2 [dots (d2 7) 7 2].
Proof.
  split; [exact linear_sub2| |vm_compute; reflexivity|lia]. exists [0; 12]. split; [exact sub2_ok|].
  exists 12, []. split_and!; try (vm_compute; reflexivity). vm_compute. intros [=].
Qed.

Lemma calm2 : journal_calm.
Proof.
  intros h f a Hf. simpl. unfold journal_call in Hf. apply existsb_exists in Hf as (g & Hg & ->%String.eqb_eq).
  repeat (destruct Hg as [<-|Hg]; [reflexivity|]). destruct Hg.
Qed.
Lemma mapped2 : mapped.
Proof. intros h a. reflexivity. Qed.
Lemma holes2 : no_holes.
Proof. intros h a. discriminate. Qed.
Lemma retry2 : retry_bounded.
Proof. intros h k _. reflexivity. Qed.
Lemma valid2 n : 0 < n <= 8 -> valid_ino fs2 n.
Proof. intros Hn. split; [lia|]. change (s_inodes_count (f_es fs2)) with 8. lia. Qed.
Lemma name2 : name_ok (Filename [120] [120] None 0 0).
Proof. split; [by constructor|]. simpl. unfold EXT4_NAME_LEN. lia. Qed.

(** A blank inode 8. *)
Definition fs3 : fs := set_inode 8 (fresh2 S_IFDIR) fs2.
Lemma blank3 : blank 8 fs3.
Proof.
  split; [|split; [vm_compute; reflexivity|split; [lia|vm_compute; intros [=]]]].
  split; [split; vm_compute; reflexivity|vm_compute; repeat split; intros [=]|vm_compute; reflexivity..|].
  constructor.
Qed.

(** ** The properties at this file system *)

Lemma find_entry_correct_witness :
  wp (ext4_find_entry 2 [115]) (fun r w' => find_result 2 fs2 [parent2_entries] [115] [] (w_calls w') r) w2.
Proof.
  eapply wp_mono; [apply (find_entry_correct mapped2 2 [115] w2 [parent2_entries] linear_parent2)|];
    [simpl; lia|]. intros r w' [Hr _]. exact Hr.
Defined.

Lemma unlink_correct_witness :
  exists w', __ext4_unlink 2 [97] 3 w2 = Ret 0 w' /\ unlinked 3 fs2 (w_st w').
Proof.
  pose proof (unlink_correct calm2 2 3 [97] w2 [parent2_entries] mapped2 linear_parent2) as H.
  specialize (H ltac:(simpl; lia) ltac:(lia) ltac:(reflexivity)).
  apply wp_run in H as (err & w' & Hr & _ & Hpost).
  assert (err = 0) as ->.
  { pose proof (f_equal (fun o => option_map fst (run_ret o)) Hr) as E. vm_compute in E. injection E as <-. reflexivity. }
  destruct Hpost as (e & ess' & _ & _ & _ & _ & Hu & _). exists w'. split; [exact Hr|exact Hu].
Defined.

Lemma init_new_dir_correct_witness :
  wp (ext4_init_new_dir 2 8) (fun err w' => err < 0 \/ err = 0 /\ new_dir 8 2 (w_st w')) (World fs3 [] []).
Proof.
  eapply wp_mono; [apply (init_new_dir_correct calm2 holes2 2 8 (World fs3 [] []) blank3)|].
  - split; [lia|]. vm_compute. intros [=].
  - intros err w' (_ & _ & Hr). exact Hr.
Defined.

Lemma empty_dir_correct_witness :
  exists w', ext4_empty_dir 7 w2 = Ret true w' /\ w_st w' = fs2.
Proof.
  pose proof (empty_dir_correct 7 w2 _ holes2 dotted_sub2) as H.
  apply wp_run in H as (r & w' & Hr & Hs & _ & Hans).
  destruct r; [exists w'; split; [exact Hr|exact Hs]|]. exfalso. destruct Hans as [Hne|Hne]; [by apply Hne|].
  destruct Hne as (blk & _ & [(e & hm & _ & _ & He)|[(hm & _ & _ & He) _]]); discriminate He.
Defined.

Lemma rmdir_correct_witness :
  exists w', ext4_rmdir 2 [115] 7 w2 = Ret 0 w' /\ rmdir_done 2 7 fs2 (w_st w').
Proof.
  pose proof (rmdir_correct calm2 holes2 mapped2 2 7 [115] w2 _ [dots (d2 7) 7 2] linear_parent2) as H.
  specialize (H ltac:(simpl; lia) dotted_sub2 ltac:(lia)).
  apply wp_run in H as (err & w' & Hr & _ & Hpost).
  assert (err = 0) as ->.
  { pose proof (f_equal (fun o => option_map fst (run_ret o)) Hr) as E. vm_compute in E. injection E as <-. reflexivity. }
  destruct Hpost as (_ & e & ess' & _ & _ & _ & _ & Hd). exists w'. split; [exact Hr|exact Hd].
Defined.

Lemma mkdir_correct_witness :
  wp (ext4_mkdir 2 493 [120]) (fun err w' =>
    creation 2 [parent2_entries] [] fs2
      (fun s' => exists child ess', made 2 [120] [parent2_entries] child fs2 s' ess') err w') w2.
Proof.
  pose proof (mkdir_correct calm2 holes2 retry2 2 493 [120] [parent2_entries] [] name2
    ltac:(reflexivity) fs2 [] linear_parent2 (valid2 2 ltac:(lia)) ltac:(lia) ltac:(reflexivity)) as H.
  change (EXT4_DIR_LINK_MAX fs2 2) with false in H. exact H.
Defined.

Lemma create_correct_witness :
  wp (ext4_create 2 0x81a4 [120]) (creation 2 [parent2_entries] [] fs2
    (fun s' => exists child ess', created 2 [120] [parent2_entries] 0x81a4 child fs2 s' ess')) w2.
Proof.
  exact (create_correct calm2 holes2 retry2 2 0x81a4 [120] [parent2_entries] [] name2 ltac:(reflexivity)
    fs2 [] linear_parent2 (valid2 2 ltac:(lia))).
Defined.

Lemma reads2 : reads_fine.
Proof. intros h a. split; [reflexivity|]. split; discriminate. Qed.

Lemma rename_file_correct_witness :
  exists w', ext4_rename2 2 [97] 3 7 [120] None 0 w2 = Ret 0 w' /\
    renamed 2 7 3 [97] [120] [parent2_entries] [dots (d2 7) 7 2] fs2 (w_st w').
Proof.
  pose proof (rename_file_correct calm2 mapped2 reads2 holes2 2 7 3 [97] [120] [parent2_entries]
    [dots (d2 7) 7 2] [] name2) as H.
  specialize (H ltac:(simpl; lia) ltac:(simpl; lia) ltac:(lia) ltac:(apply (bool_decide_unpack _); vm_compute; exact I)
    ltac:(lia) 0 fs2 [] linear_parent2 linear_sub2 (valid2 3 ltac:(lia))
    ltac:(reflexivity) ltac:(reflexivity) ltac:(reflexivity)).
  apply wp_run in H as (err & w' & Hr & _ & Hpost).
  assert (err = 0) as ->.
  { pose proof (f_equal (fun o => option_map fst (run_ret o)) Hr) as E. vm_compute in E. injection E as <-. reflexivity. }
  exists w'. split; [exact Hr|exact Hpost].
Defined.
