(* ===== verification/WitnessRemove.v ===== *)
(** * Holes in a concrete file

    The theorem on [ext4_ext_remove_space] applied to the file of ten blocks of Witness.v;
    and runs of it: a hole, a truncation, a transaction restarted in the middle, a journal
    without room, clusters that outlive one of their extents. *)

From stdpp Require Import prelude list gmap strings.
From Stdlib Require Import ZArith Lia.
From S2P Require Import Prelude Kernel ExtentNode ExtentTree ExtentTreeSpec Layout Fs Inode EvfsExtent.
From S2P Require Import ExtentRemove ExtentRemoveSpec ExtentRemoveFlat Witness.

Local Open Scope string_scope.
Local Open Scope Z_scope.

#[local] Existing Instances fmt0 fmtok0 tree0.

(** A journal that answers each request for credits from a list, in order, and drops the
    semaphore when it has to restart. *)
Definition env_credits (answers : list Z) : Env := {|
  env_int := fun h f _ =>
    let answer := nth (credit_calls h) answers 0 in
    if String.eqb f "ext4_journal_ensure_credits_fn" then answer
    else if String.eqb f "ext4_journal_ensure_credits_fn:fn" then (if 0 <? answer then 1 else 0)
    else 0;
  env_ptr := fun _ _ _ => PtrOk
|}.

Definition remove0 : RemoveEnv := {| rm_sbi := sbi0; rm_inode := file0; EXT4_MAXQUOTAS_TRANS_BLOCKS := 3 |}.
Definition acct0 : acct := Acct (Partial 0 0 initial) 0 0 0.

(** A request for credits answered from the list is a last one after the list. *)
Lemma restart_bound0 l : @restart_bound (env_credits l) (length l).
Proof.
  intros h a Hh. cbn [env_int env_credits]. rewrite String.eqb_refl, nth_overflow by done. done.
Qed.

Lemma remove_space_correct_witness :
  let E := env_credits [1; 0] in
  exists err s w', @ext4_ext_remove_space fmt0 E tree0 remove0 3 3 5 acct0 (World xtree0 [data_sem] []) = Ret err w' /\
    (err = 0 -> s = 3) /\
    freed (w_calls w') ≡ₚ phys_range (mapping (entries (x_root xtree0))) s 5.
Proof.
  intros E.
  destruct (@remove_space_correct fmt0 fmtok0 E tree0 remove0 2 3 3 5 acct0 xtree0 [] [])
    as (err & s & w' & Hr & Hh & Hf & Hs & Hm & Hfr & Hz & _).
  - exact xtree0_flat.
  - reflexivity.
  - lia.
  - simpl; lia.
  - right. split; [simpl; lia|]. intros e He. apply list_elem_of_singleton in He as ->. vm_compute. intros [=].
  - intros h a. done.
  - intros h a. done.
  - done.
  - intros h a. done.
  - exact (restart_bound0 [1; 0]).
  - lia.
  - simpl. lia.
  - done.
  - exists err, s, w'. split_and!; [exact Hr|exact Hz|]. rewrite app_nil_r in Hfr. exact Hfr.
Defined.

(** ** Runs *)

(** What a run leaves: the answer, the extents, the blocks freed, the resources held. *)
Definition left_over (r : outcome xtree Z) : option (Z * list ext4_extent * list Z * list res) :=
  match r with
  | Ret err w => Some (err, entries (x_root (w_st w)), freed (w_calls w), w_held w)
  | _ => None
  end.
Definition run_remove (answers : list Z) (env : RemoveEnv) (start end_ : Z) (t : xtree) :=
  left_over (@ext4_ext_remove_space fmt0 (env_credits answers) tree0 env 3 start end_ acct0 (World t [data_sem] [])).

(** A hole in the middle: the extent is split and the middle goes. *)
Example run_punch : run_remove [] remove0 3 5 xtree0 =
  Some (0, [Ext 0 3 100; Ext 6 4 106], [103; 104; 105], [data_sem]).
Proof. vm_compute. reflexivity. Qed.

(** Truncation; an extent that starts at the first block goes altogether. *)
Example run_truncate : run_remove [] remove0 4 (2 ^ 32 - 2) xtree0 =
  Some (0, [Ext 0 4 100], [104; 105; 106; 107; 108; 109], [data_sem]).
Proof. vm_compute. reflexivity. Qed.
Example run_truncate_all : run_remove [] remove0 0 (2 ^ 32 - 2) xtree0 =
  Some (0, [], [100; 101; 102; 103; 104; 105; 106; 107; 108; 109], [data_sem]).
Proof. vm_compute. reflexivity. Qed.

(** Two extents around a hole. *)
Definition xtree1 : xtree := XTree (Node 0xf30a 2 4 0 0 [Ext 0 4 100; Ext 6 4 206; Ext 0 0 0; Ext 0 0 0]
  [Idx 0 0; Idx 0 0; Idx 0 0; Idx 0 0]) ∅ ∅.

(** The journal restarts the transaction before the second extent: the first one is not
    freed twice. *)
Example run_restart : run_remove [0; 1] remove0 2 7 xtree1 =
  Some (0, [Ext 0 2 100; Ext 8 2 208], [102; 103; 206; 207], [data_sem]).
Proof. vm_compute. reflexivity. Qed.

(** A journal that answers -30 there: the right part of the range is gone. *)
Example run_aborted : run_remove [0; -30] remove0 2 7 xtree1 =
  Some (-30, [Ext 0 4 100; Ext 8 2 208], [206; 207], [data_sem]).
Proof. vm_compute. reflexivity. Qed.

(** Clusters of four blocks: the halves of cluster 25 belong to a written and an unwritten
    extent. *)
Definition remove4 : RemoveEnv := {|
  rm_sbi := SbInfo 64 8 8 8 4 2 1 1024 0 false 0; rm_inode := file0; EXT4_MAXQUOTAS_TRANS_BLOCKS := 3 |}.
Definition xtree2 : xtree := XTree (Node 0xf30a 2 4 0 0 [Ext 0 2 100; Ext 2 0x8002 102; Ext 0 0 0; Ext 0 0 0]
  [Idx 0 0; Idx 0 0; Idx 0 0; Idx 0 0]) ∅ ∅.
Definition frees (answers : list Z) (env : RemoveEnv) (start end_ : Z) (t : xtree) : option (list (list Z)) :=
  match @ext4_ext_remove_space fmt0 (env_credits answers) tree0 env 3 start end_ acct0 (World t [data_sem] []) with
  | Ret _ w => Some (snd <$> filter (fun c => c.1 = "ext4_free_blocks") (rev (w_calls w)))
  | _ => None
  end.

(** The second extent goes: its blocks are freed without the clusters at its ends, and
    cluster 25 stays with the first one. *)
Example frees_shared : frees [] remove4 2 (2 ^ 32 - 2) xtree2 = Some [[102; 2; 0x30]].
Proof. vm_compute. reflexivity. Qed.

(** Both go: the cluster is freed with the first one. *)
Example frees_cluster : frees [] remove4 0 (2 ^ 32 - 2) xtree2 = Some [[102; 2; 0x30]; [100; 4; 0]; [100; 2; 0x30]].
Proof. vm_compute. reflexivity. Qed.
