(* ===== verification/WitnessMap.v ===== *)
(** * Mapping blocks of a concrete file

    The theorems on [ext4_ext_map_blocks] applied to the file of ten blocks of Witness.v;
    and runs of it: lookups, an allocation next to an extent, an allocation that fails,
    writes to unwritten extents. *)

From stdpp Require Import prelude list gmap strings.
From Stdlib Require Import ZArith Lia.
From S2P Require Import Prelude Kernel ExtentNode ExtentTree ExtentTreeSpec Layout Fs Inode EvfsExtent.
From S2P Require Import ExtentRemove ExtentRemoveSpec ExtentMap ExtentMapSpec ExtentMapFlat ExtentConvert ExtentWrite Witness.

Local Open Scope string_scope.
Local Open Scope Z_scope.

#[local] Existing Instances fmt0 fmtok0 tree0.

(** The status tree knows no delayed extent; the allocator gives what is asked for from
    [block] on, or, for 0, the error -28; zeroing answers [zeroout]. *)
Definition env_alloc (block zeroout : Z) : Env := {|
  env_int := fun _ f a =>
    if String.eqb f "ext4_mb_new_blocks" then block
    else if String.eqb f "ext4_mb_new_blocks:err" then -28
    else if String.eqb f "ext4_mb_new_blocks:len" then a !!! 2%nat
    else if String.eqb f "ext4_issue_zeroout" then zeroout
    else 0;
  env_ptr := fun _ _ _ => PtrOk
|}.

Definition remove0 : RemoveEnv := {| rm_sbi := sbi0; rm_inode := file0; EXT4_MAXQUOTAS_TRANS_BLOCKS := 3 |}.
Definition map0 : MapEnv := {|
  s_blocksize_bits := 10; s_extent_max_zeroout_kb := 32; opt_delalloc := false;
  BH_Mapped := 5; BH_New := 6; BH_Unwritten := 12
|}.
#[local] Existing Instances remove0 map0.

Definition request (lblk len : Z) : ext4_map_blocks := Map 0 lblk len 0.

Lemma no_delayed block zeroout : @es_ok (env_alloc block zeroout) tree0.
Proof. intros h s e. by left. Qed.

(** The allocator above, for a request of at least one block. *)
Definition env_one (block : Z) : Env := {|
  env_int := fun _ f a =>
    if String.eqb f "ext4_mb_new_blocks" then (if 0 <? a !!! 2%nat then block else 0)
    else if String.eqb f "ext4_mb_new_blocks:err" then -28
    else if String.eqb f "ext4_mb_new_blocks:len" then 1
    else 0;
  env_ptr := fun _ _ _ => PtrOk
|}.

Lemma gives_one block : 0 < block < 2 ^ 47 -> @mb_ok (env_one block).
Proof.
  intros Hb h a. cbn [env_int env_one]. change (String.eqb _ _) with true at 1.
  destruct (Z.ltb_spec 0 (a !!! 2%nat)); [right|by left]. change (_ && _) with true. cbn. lia.
Qed.

Lemma map_blocks_lookup_witness :
  let E := env_alloc 0 0 in
  exists ret m' calls',
    @ext4_ext_map_blocks fmt0 E tree0 remove0 map0 (request 4 20) 0 (World xtree0 [data_sem] []) =
      Ret (ret, m') (World xtree0 [data_sem] calls') /\
    ret = m_len m' /\ m_pblk m' = 104.
Proof.
  intros E.
  destruct (@map_blocks_lookup fmt0 fmtok0 E tree0 remove0 map0 (request 4 20) xtree0 [data_sem] [])
    as (ret & m' & calls' & Hr & _ & _ & Ha).
  - exact xtree0_flat.
  - intros h a. reflexivity.
  - exact (no_delayed 0 0).
  - simpl. lia.
  - simpl. lia.
  - exists ret, m', calls'. split; [exact Hr|]. destruct Ha as (H1 & H2 & _). by split.
Defined.

Lemma map_blocks_allocates_witness :
  let E := env_one 300 in
  exists ret m' t' calls',
    @ext4_ext_map_blocks fmt0 E tree0 remove0 map0 (request 20 4) EXT4_GET_BLOCKS_CREATE (World xtree0 [data_sem] []) =
      Ret (ret, m') (World t' [data_sem] calls') /\
    (ret < 0 \/ mapping (entries (x_root t')) 20 = Some (m_pblk m', false)).
Proof.
  intros E.
  destruct (@map_blocks_allocates fmt0 fmtok0 E tree0 remove0 map0 (request 20 4) EXT4_GET_BLOCKS_CREATE xtree0 [data_sem] [])
    as (ret & m' & t' & calls' & Hr & Ha).
  - exact xtree0_flat.
  - reflexivity.
  - intros h a. done.
  - intros h a. done.
  - split; reflexivity.
  - apply gives_one. lia.
  - reflexivity.
  - reflexivity.
  - simpl. lia.
  - simpl. lia.
  - simpl. lia.
  - reflexivity.
  - exists ret, m', t', calls'. split; [exact Hr|]. destruct Ha as [(He & _)|(Hn & _ & _ & _ & _ & _ & _ & Hm)]; [by left|right].
    rewrite Hm. cbn [m_lblk m_len request] in *. rewrite Z.leb_refl, (proj2 (Z.ltb_lt _ _)) by lia. cbn. f_equal. f_equal. lia.
Defined.

(** The ten blocks unwritten. *)
Definition xtree_unwritten : xtree := XTree (Node 0xf30a 1 4 0 0 [Ext 0 0x800a 100; Ext 0 0 0; Ext 0 0 0; Ext 0 0 0]
  [Idx 0 0; Idx 0 0; Idx 0 0; Idx 0 0]) ∅ ∅.

Lemma convert_unwritten_correct_witness :
  let E := env_alloc 0 0 in
  exists t' calls',
    @ext4_ext_map_blocks fmt0 E tree0 remove0 map0 (request 3 4) EXT4_GET_BLOCKS_IO_CONVERT_EXT
        (World xtree_unwritten [data_sem] []) =
      Ret (4, Map 103 3 4 EXT4_MAP_MAPPED) (World t' [data_sem] calls') /\
    mapping (entries (x_root t')) 2 = Some (102, true) /\ mapping (entries (x_root t')) 5 = Some (105, false).
Proof.
  intros E.
  destruct (@convert_unwritten_correct fmt0 fmtok0 E tree0 remove0 map0) with (m := request 3 4) (e := Ext 0 0x800a 100)
    (t := xtree_unwritten) (held := [data_sem]) (calls := @nil call) as (t' & calls' & Hr & _ & _ & Hm).
  - intros h a. done.
  - split; [reflexivity|split_and!; simpl; lia|]. simpl. unfold ext_ok, ext_end. simpl. lia.
  - simpl. lia.
  - intros h a. done.
  - apply list_elem_of_here.
  - reflexivity.
  - reflexivity.
  - unfold fits48. vm_compute. intros [=].
  - simpl. lia.
  - simpl. lia.
  - simpl. lia.
  - exists t', calls'. split; [exact Hr|]. rewrite !Hm. split; vm_compute; reflexivity.
Defined.

Lemma write_unwritten_safe_witness :
  let E := env_alloc 0 0 in
  exists s e2 t' calls',
    @ext4_ext_map_blocks fmt0 E tree0 remove0 map0 (request 3 4) EXT4_GET_BLOCKS_CREATE
        (World xtree_unwritten [data_sem] []) =
      Ret (4, Map 103 3 4 (Z.lor EXT4_MAP_NEW EXT4_MAP_MAPPED)) (World t' [data_sem] calls') /\
    s <= 3 /\ 7 <= e2 /\ forall b, s <= b < 3 -> @zeroed E calls' b (100 + b).
Proof.
  intros E.
  destruct (@write_unwritten_safe fmt0 fmtok0 E tree0 remove0 map0) with (m := request 3 4) (e := Ext 0 0x800a 100)
    (t := xtree_unwritten) (held := [data_sem]) (calls := @nil call) as (s & e2 & t' & calls' & Hr & _ & Hs & He & Hz).
  - intros h a. done.
  - split; [reflexivity|split_and!; simpl; lia|]. simpl. unfold ext_ok, ext_end. simpl. lia.
  - simpl. lia.
  - intros h a. done.
  - apply list_elem_of_here.
  - reflexivity.
  - reflexivity.
  - unfold fits48. vm_compute. intros [=].
  - simpl. lia.
  - simpl. lia.
  - simpl. lia.
  - exists s, e2, t', calls'. split; [exact Hr|]. change (m_lblk (request 3 4)) with 3 in Hs, He, Hz.
    change (Z.min _ _) with 4 in He, Hz. split_and!; [lia|lia|]. intros b Hb.
    specialize (Hz b ltac:(lia) ltac:(lia)). change (ext4_ext_pblock _) with 100 in Hz. change (ee_block _) with 0 in Hz.
    by rewrite Z.sub_0_r in Hz.
Defined.

(** ** Runs *)

(** What a run leaves: the answer, the map and the extents. *)
Definition mapped (block zeroout : Z) (m : ext4_map_blocks) (flags : Z) (t : xtree) :
    option (Z * ext4_map_blocks * list ext4_extent) :=
  match @ext4_ext_map_blocks fmt0 (env_alloc block zeroout) tree0 remove0 map0 m flags (World t [data_sem] []) with
  | Ret (ret, m') w => Some (ret, m', entries (x_root (w_st w)))
  | _ => None
  end.

Example run_lookup : mapped 0 0 (request 4 20) 0 xtree0 = Some (6, Map 104 4 6 EXT4_MAP_MAPPED, [Ext 0 10 100]).
Proof. vm_compute. reflexivity. Qed.
Example run_lookup_hole : mapped 0 0 (request 12 20) 0 xtree0 = Some (0, Map 0 12 20 0, [Ext 0 10 100]).
Proof. vm_compute. reflexivity. Qed.

(** New blocks that follow on disk extend the extent; others get an extent of their own. *)
Example run_append : mapped 110 0 (request 10 4) EXT4_GET_BLOCKS_CREATE xtree0 =
  Some (4, Map 110 10 4 (Z.lor EXT4_MAP_NEW EXT4_MAP_MAPPED), [Ext 0 14 100]).
Proof. vm_compute. reflexivity. Qed.
Example run_new : mapped 300 0 (request 20 4) EXT4_GET_BLOCKS_CREATE xtree0 =
  Some (4, Map 300 20 4 (Z.lor EXT4_MAP_NEW EXT4_MAP_MAPPED), [Ext 0 10 100; Ext 20 4 300]).
Proof. vm_compute. reflexivity. Qed.
Example run_no_space : mapped 0 0 (request 20 4) EXT4_GET_BLOCKS_CREATE xtree0 =
  Some (-28, Map 0 20 4 0, [Ext 0 10 100]).
Proof. vm_compute. reflexivity. Qed.

(** After the write of blocks 3 to 6 the extent is three. *)
Example run_endio : mapped 0 0 (request 3 4) EXT4_GET_BLOCKS_IO_CONVERT_EXT xtree_unwritten =
  Some (4, Map 103 3 4 EXT4_MAP_MAPPED, [Ext 0 0x8003 100; Ext 3 4 103; Ext 7 0x8003 107]).
Proof. vm_compute. reflexivity. Qed.

(** The next write joins its extent. *)
Example run_endio_merges :
  mapped 0 0 (request 7 3) EXT4_GET_BLOCKS_IO_CONVERT_EXT
    (XTree (Node 0xf30a 3 4 0 0 [Ext 0 0x8003 100; Ext 3 4 103; Ext 7 0x8003 107; Ext 0 0 0] [Idx 0 0; Idx 0 0; Idx 0 0; Idx 0 0]) ∅ ∅)
  = Some (3, Map 107 7 3 EXT4_MAP_MAPPED, [Ext 0 0x8003 100; Ext 3 7 103]).
Proof. vm_compute. reflexivity. Qed.

(** Written blocks become unwritten again. *)
Example run_unwrite : mapped 0 0 (request 3 4) EXT4_GET_BLOCKS_CONVERT_UNWRITTEN xtree0 =
  Some (4, Map 0 3 4 EXT4_MAP_UNWRITTEN, [Ext 0 3 100; Ext 3 0x8004 103; Ext 7 3 107]).
Proof. vm_compute. reflexivity. Qed.

(** A write to a part of an unwritten extent: blocks of the head and the tail are zeroed and
    the extent is written as a whole. *)
Example run_write : mapped 0 0 (request 3 4) EXT4_GET_BLOCKS_CREATE xtree_unwritten =
  Some (4, Map 103 3 4 (Z.lor EXT4_MAP_NEW EXT4_MAP_MAPPED), [Ext 0 10 100]).
Proof. vm_compute. reflexivity. Qed.

(** A write next to a written extent moves the border. *)
Example run_write_left : mapped 0 0 (request 5 2) EXT4_GET_BLOCKS_CREATE
    (XTree (Node 0xf30a 2 4 0 0 [Ext 0 5 100; Ext 5 0x8005 105; Ext 0 0 0; Ext 0 0 0] [Idx 0 0; Idx 0 0; Idx 0 0; Idx 0 0]) ∅ ∅)
  = Some (2, Map 105 5 2 (Z.lor EXT4_MAP_NEW EXT4_MAP_MAPPED), [Ext 0 7 100; Ext 7 0x8003 107]).
Proof. vm_compute. reflexivity. Qed.

(** The zeroing of the tail fails: the extent is split and the tail stays unwritten; the
    status tree records the tail as written all the same. *)
Example run_write_zeroout_fails :
  match @ext4_ext_map_blocks fmt0 (env_alloc 0 (-5)) tree0 remove0 map0 (request 3 4) EXT4_GET_BLOCKS_CREATE
          (World xtree_unwritten [data_sem] []) with
  | Ret (ret, _) w => Some (ret, entries (x_root (w_st w)),
                            filter (fun c => c.1 = "ext4_issue_zeroout" \/ c.1 = "ext4_es_insert_extent") (rev (w_calls w)))
  | _ => None
  end = Some (4, [Ext 0 0x8003 100; Ext 3 4 103; Ext 7 0x8003 107],
              [("ext4_issue_zeroout", [7; 107; 3]); ("ext4_es_insert_extent", [7; 3; 107])]).
Proof. vm_compute. reflexivity. Qed.
