(* ===== verification/WitnessMount.v ===== *)
(** * Mounting a concrete file system

    A device of 64 blocks of 1024 bytes with one group; the theorems on mounting and on mount
    options applied to it, and runs that show what the checks accept. *)

From stdpp Require Import prelude list gmap strings.
From Stdlib Require Import ZArith Lia.
From S2P Require Import Prelude Kernel Bytes Bmt Layout Fs Block Inode Mount MountOpts MountOptsSpec MountSuper MountSpec MountUse.
From S2P Require Import Witness.

Local Open Scope string_scope.
Local Open Scope Z_scope.

(** ** The outside *)

(** Memory and buffers are there; a device of [blocks] blocks. *)
Definition env_mount (blocks : Z) : Env := {|
  env_int := fun _ f a =>
    if String.eqb f "sb_min_blocksize" then 1024
    else if String.eqb f "sb_set_blocksize" then a !!! 0%nat
    else if String.eqb f "generic_check_addressable" then (if a !!! 1%nat <=? 2 ^ 54 then 0 else -27)
    else if String.eqb f "sb_bdev_nr_blocks" then blocks
    else if String.eqb f "buffer_uptodate" then 1
    else 0;
  env_ptr := fun _ _ _ => PtrOk
|}.

(** The descriptors in the buffers, one after the other. *)
Definition group_desc (sbi : ext4_sb_info) (bufs : list (list Z)) (i : Z) : option (list Z) :=
  let dpb := s_blocksize sbi / s_desc_size sbi in
  (fun b => gets b (i mod dpb * s_desc_size sbi) (Z.to_nat (s_desc_size sbi))) <$> bufs !! Z.to_nat (i / dpb).
Definition mountenv0 : MountEnv := {|
  PAGE_SIZE := 4096; HZ := 250; JBD2_DEFAULT_MAX_COMMIT_AGE := 5;
  CONFIG_UNICODE := true; CONFIG_QUOTA := true; CONFIG_QFMT_V2 := true;
  CONFIG_EXT4_FS_POSIX_ACL := true; CONFIG_FS_DAX := true; CHAR_UNSIGNED := false; EXT2_SUPPORT := true;
  ext4_bg_has_super := fun _ _ g => g =? 0;
  ext4_bg_num_gdb := fun sbi _ _ => (s_groups_count sbi + 31) / 32;
  ext4_get_group_desc := group_desc
|}.

Lemma group_desc_some sbi bufs i :
  0 <= i < s_groups_count sbi -> s_groups_count sbi <= Z.of_nat (length bufs) * (s_blocksize sbi / s_desc_size sbi) ->
  is_Some (group_desc sbi bufs i).
Proof.
  unfold group_desc. set (dpb := s_blocksize sbi / s_desc_size sbi). intros Hi Hg.
  assert (Hd : 0 < dpb) by nia. apply fmap_is_Some, lookup_lt_is_Some.
  assert (0 <= i / dpb < Z.of_nat (length bufs)); [|lia].
  split; [apply Z.div_pos; lia|apply Z.div_lt_upper_bound; lia].
Qed.

(** [fs_parse] knows three options; a value is the number the tables give for it. *)
Definition fs_parse0 (key : string) (value : option string) : Z + opt_token * Z :=
  if String.eqb key "delalloc" then inr (Opt_delalloc, 0)
  else if String.eqb key "nodelalloc" then inr (Opt_nodelalloc, 0)
  else if String.eqb key "errors" then
    match value with
    | Some v => if String.eqb v "panic" then inr (Opt_errors, EXT4_MOUNT_ERRORS_PANIC)
                else inr (Opt_errors, EXT4_MOUNT_ERRORS_RO)
    | None => inl (- EINVAL)
    end
  else inl (- EINVAL).
Definition answers0 : OptionAnswers := {|
  sb_answers := fun _ k v => ParamAnswers (fs_parse0 k v) true None (inl (- EINVAL)) (- EINVAL, None);
  sb_kmemdup := fun _ => true;
  sb_any_quota_loaded := false;
  fscrypt_dummy_policies_equal := fun _ _ => false;
  CONFIG_FS_ENCRYPTION := false;
  CONFIG_FS_ENCRYPTION_INLINE_CRYPT := false;
  IOPRIO_BE := fun v => 16384 + v
|}.
#[local] Existing Instances mountenv0 answers0 csum0.

(** ** The device *)

(** A super block: 16 inodes, 64 blocks, block size 1024, one group. *)
Definition puts32 (l : list (Z * Z)) (es : list Z) : list Z := foldl (fun es ov => put32 es ov.1 ov.2) es l.
Definition super0 : list Z :=
  put16 (put16 (puts32 [(0x0, 16); (0x4, 64); (0x14, 1); (0x20, 8192); (0x24, 8192); (0x28, 16);
      (0x4C, 1); (0x54, 11); (0x60, 0x42); (0x64, 0x1)] (replicate 1024 0)) 0x38 0xEF53) 0x58 256.
(** Its group: bitmaps in the blocks 3 and 4, inode table in the blocks 5 to 8. *)
Definition desc0 : list Z := puts32 [(0, 3); (4, 4); (8, 5)] (replicate 1024 0).
Definition device (super desc : list Z) : Disk := fun i =>
  if (1024 <=? i) && (i <? 2048) then getb super (i - 1024)
  else if (2048 <=? i) && (i <? 3072) then getb desc (i - 2048)
  else 0.

Lemma device_ok super desc blocks :
  bytes_ok super -> bytes_ok desc ->
  @MountEnvOk (env_mount blocks) mountenv0 (device super desc).
Proof.
  intros Hs Hd. split.
  - intros i. unfold disk_byte, device. repeat case_match; try (by apply getb_range); lia.
  - intros h. right. exists 10. split; [lia|reflexivity].
  - intros h bits n Hb Hr. change ((if n <=? 2 ^ 54 then 0 else -27) = 0) in Hr.
    destruct (Z.leb_spec n (2 ^ 54)); lia.
  - apply group_desc_some.
Qed.
Lemma env_mount_errno blocks : @EnvErrno (env_mount blocks).
Proof. split. done. Qed.

Lemma device0_ok blocks : @MountEnvOk (env_mount blocks) mountenv0 (device super0 desc0).
Proof. apply device_ok; apply (bool_decide_unpack _); vm_compute; reflexivity. Qed.

(** The state a mount begins with. *)
Definition mount0 : mount :=
  Mount Ext4Fs 1 false 0 0 0 None [] (SbInfo 0 0 0 0 0 0 0 0 0 false 0) 0 0 0 0 false zero_params None
    (InodeInfo 0 0 0 (0, 0, 0)) (BgMeta 0 0 0 0 0 0 0) (HashInfo [] 0 0) 0 [] false (QuotaOpts [None; None; None] 0 None).

Definition mount_of (super desc : list Z) : outcome mount (Z * Z) :=
  @fill_super_checks (env_mount 64) mountenv0 csum0 (device super desc) answers0 zero_context false (World mount0 [] []).

Definition result_of {S A} (o : outcome S A) : option (A * world S) := match o with Ret a w => Some (a, w) | _ => None end.

(** The mount succeeds. *)
Example mount_runs :
  option_map (fun r => (r.1, s_groups_count (m_sbi (w_st r.2)), s_itb_per_group (m_meta (w_st r.2)), w_held r.2))
    (result_of (mount_of super0 desc0)) = Some (0, 0, 1, 4, [bh 2; bh 1]).
Proof. vm_compute. reflexivity. Qed.

(** ** The theorems at work *)

Lemma mount_checks_witness :
  wp (@fill_super_checks (env_mount 64) mountenv0 csum0 (device super0 desc0) answers0 zero_context false)
     (mounted []) (World mount0 [] []).
Proof.
  apply (@mount_checks (env_mount 64) mountenv0 (device super0 desc0) (device0_ok 64) (env_mount_errno 64)
    csum0 answers0 zero_context false (World mount0 [] [])).
  - intros n. split; reflexivity.
  - cbn [w_st m_sb_block mount0]. lia.
  - reflexivity.
Defined.

(** The options change the words in their order: delayed allocation is on in the end. *)
Definition options0 : string := "nodelalloc,errors=panic,,delalloc".
Definition parsed0 : ext4_fs_context :=
  (@parse_options mountenv0 false false IOPRIO_BE sb_answers sb_kmemdup options0 zero_context).2.
Definition checked0 : ext4_fs_context := (@check_consistency mountenv0 answers0 parsed0 mount0).2.
Definition applied0 : mount := (@ext4_apply_options mountenv0 checked0 mount0).2.

Lemma parsed0_ok :
  @parse_options mountenv0 false false IOPRIO_BE sb_answers sb_kmemdup options0 zero_context = (0, parsed0).
Proof. vm_compute. reflexivity. Qed.
Lemma checked0_ok :
  @ext4_check_opt_consistency mountenv0 false (fun _ _ => false) false parsed0 mount0 = (0, checked0).
Proof. vm_compute. reflexivity. Qed.

Lemma options_last_wins_witness :
  let w := @words_effect mountenv0 sb_answers 0 (words "" options0) (0, 0) in
  w = (Z.lor EXT4_MOUNT_ERRORS_PANIC EXT4_MOUNT_DELALLOC, EXT4_MOUNT2_EXPLICIT_DELALLOC) /\
  Z.land (m_opt applied0) (Z.lnot quota_file_bits) = Z.land w.1 (Z.lnot quota_file_bits) /\ m_opt2 applied0 = w.2.
Proof.
  intros w. split; [vm_compute; reflexivity|].
  pose proof (@options_last_wins mountenv0 false false IOPRIO_BE sb_answers sb_kmemdup false (fun _ _ => false)
    options0 zero_context parsed0 checked0 mount0 applied0 parsed0_ok checked0_ok eq_refl) as Ho.
  change (words_after zero_context _) with (0, 0) in Ho. fold w in Ho. destruct w as [o o2]. exact Ho.
Defined.

(** The mounted file system. *)
Definition mounted0 : mount := match mount_of super0 desc0 with Ret _ w => w_st w | _ => mount0 end.
Definition files0 : fs :=
  Fs (m_sbi mounted0) (m_es mounted0) ∅ ∅ {[0 := 0x7FF]} 52 5 (Some (Tracker [Some (Bitmap 0)] 1)) ∅.

Ltac by_computing :=
  repeat match goal with
    | |- _ /\ _ => split
    | |- _ = _ => vm_compute; reflexivity
    | |- _ <= _ => vm_compute; intros [=]
    | |- _ < _ => vm_compute; reflexivity
    end.

(** The group and the cluster of a block. *)
Definition balloc1 : Balloc := {|
  group_no_and_offset := fun sbi es b =>
    let r := b - s_first_data_block es in
    (r / s_blocks_per_group sbi, Z.max 0 (EXT4_B2C sbi (r mod s_blocks_per_group sbi)));
  free_clusters_after_init := @free_clusters_after_init balloc0;
  block_bitmap_csum_set := @block_bitmap_csum_set balloc0;
  inode_bitmap_csum_set := @inode_bitmap_csum_set balloc0
|}.
Lemma balloc1_ok : @BallocOk balloc1.
Proof.
  split; intros; cbn; try apply Z.le_max_l.
  - by apply (@bbm_csum_wf balloc0 ballocok0 _ es).
  - exact (@bbm_csum_read balloc0 ballocok0 sbi es _ _ _).
  - exact (@bbm_csum_flags balloc0 ballocok0 sbi es _ _).
  - by apply (@ibm_csum_wf balloc0 ballocok0 _ es).
  - exact (@ibm_csum_read balloc0 ballocok0 sbi es _ _ _).
  - exact (@ibm_csum_flags balloc0 ballocok0 sbi es _ _).
Qed.
Lemma balloc1_numbering : @group_numbering balloc1.
Proof.
  intros sbi es b Hb Hr. cbn. f_equal. apply Z.max_r. unfold EXT4_B2C. apply Z.shiftr_nonneg.
  by apply Z.mod_pos_bound.
Qed.
Lemma env_mount_fs blocks : @EnvFs (env_mount blocks).
Proof. split; done. Qed.

Lemma mount_accepts : option_map (fun r => r.1.1) (result_of (mount_of super0 desc0)) = Some 0.
Proof. vm_compute. reflexivity. Qed.

(** The file system is mounted, inode 12 is allocated on it, and block 63 has a bit. *)
Lemma mounted_serves_handlers_witness :
  @inodes_served (env_mount 64) csum0 balloc1 mounted0 /\
  (exists g o ret f' calls',
    inode_at mounted0 12 g o /\
    @evfs_inode_alloc (env_mount 64) csum0 balloc1 12 (World files0 [] []) = Ret ret (World f' [] calls')) /\
  (exists g o, block_at mounted0 63 g o /\ EXT4_B2C (m_sbi mounted0) o < s_clusters_per_group (m_sbi mounted0)).
Proof.
  pose proof (@mounted_serves_handlers (env_mount 64) (env_mount_fs 64) mountenv0 (device super0 desc0) (device0_ok 64)
    (env_mount_errno 64) csum0 answers0 balloc1 balloc1_ok zero_context false (World mount0 [] [])) as Hwp.
  apply wp_run in Hwp; [|intros n; split; reflexivity|cbn [w_st m_sb_block mount0]; lia|reflexivity
    |intros h a; reflexivity|exact balloc1_numbering].
  destruct Hwp as (r & w & Hrun0 & Hw).
  assert (Hrun : mount_of super0 desc0 = Ret r w) by (unfold mount_of; exact Hrun0). clear Hrun0.
  pose proof mount_accepts as Ha. rewrite Hrun in Ha. cbn in Ha. injection Ha as Ha.
  assert (Hm : mounted0 = w_st w) by (unfold mounted0; rewrite Hrun; reflexivity).
  destruct Hw as [[Hr _]|(_ & Hi & Hb)]; [destruct (Hr Ha)|]. rewrite <- Hm in Hi, Hb.
  split; [exact Hi|]. split.
  - destruct (Hi files0 [] [] 12) as (g & o & ret & f' & calls' & Hat & _ & Hal & _).
    + split; reflexivity.
    + split; [done|]. repeat constructor; by vm_compute.
    + split; [apply no_block_lock_nil|intros ?; done|done].
    + by_computing.
    + exists g, o, ret, f', calls'. split; [exact Hat|exact Hal].
  - destruct (Hb files0 [] [] 63) as (g & o & ret & f' & calls' & Hat & Hc & _).
    + split; reflexivity.
    + apply no_block_lock_nil.
    + by_computing.
    + exists g, o. split; [exact Hat|apply Hc].
Defined.

(** ** What the checks accept *)

(** A device with 18 inodes in its group, four to a block: the inode table is taken to have
    four blocks, and the inodes 17 and 18 lie behind it. *)
Definition super_18 : list Z := puts32 [(0x0, 18); (0x28, 18)] super0.
Example table_too_short :
  option_map (fun r => (r.1, s_itb_per_group (m_meta (w_st r.2)), s_inodes_per_block (m_meta (w_st r.2))))
    (result_of (mount_of super_18 desc0)) = Some (0, 0, 4, 4).
Proof. vm_compute. reflexivity. Qed.

(** With 64-bit block numbers, an inode table whose first block is 2^64-1: its last block
    wraps around to 2, and the group is accepted. *)
Definition super_64 : list Z := put16 (puts32 [(0x60, 0xC2)] super0) 0xFE 64.
Definition desc_wrap : list Z := puts32 [(8, 0xFFFFFFFF); (0x28, 0xFFFFFFFF)] desc0.
Example table_wraps_around :
  option_map (fun r => (r.1, ext4_inode_table (m_sbi (w_st r.2)) desc_wrap)) (result_of (mount_of super_64 desc_wrap))
  = Some (0, 0, 2 ^ 64 - 1).
Proof. vm_compute. reflexivity. Qed.

(** A block size that the header of the file system does not have is refused, and the
    buffers are given back. *)
Example mount_refused :
  option_map (fun r => (r.1, w_held r.2)) (result_of (mount_of (puts32 [(0x20, 9000)] super0) desc0))
  = Some (- EINVAL, 0, []).
Proof. vm_compute. reflexivity. Qed.
