(* ===== verification/WitnessSuper.v ===== *)
(** * Error reports on a concrete file system

    The file system of WitnessMount.v after its mount; the theorems on error reports applied
    to it, and runs that show the super block that reaches the device. *)

From stdpp Require Import prelude list gmap strings.
From Stdlib Require Import ZArith Lia.
From S2P Require Import Prelude Kernel Bytes Layout Mount MountOpts MountSuper SuperState SuperSpec SuperReport.
From S2P Require Import Witness WitnessMount.

Local Open Scope string_scope.
Local Open Scope Z_scope.

(** ** The outside *)

(** A writable device that takes every write, or none; the clock goes on with every call. *)
Definition env_super (fails : bool) : Env := {|
  env_int := fun h f a =>
    if String.eqb f "ktime_get_real_seconds" then 1700000000 + Z.of_nat (length h)
    else if String.eqb f "part_stat_read" then 2 * Z.of_nat (length h)
    else if String.eqb f "buffer_mapped" then 1
    else if String.eqb f "buffer_uptodate" then 1
    else if String.eqb f "buffer_write_io_error" then (if fails then 1 else 0)
    else 0;
  env_ptr := fun _ _ _ => PtrOk
|}.
Definition states0 : SystemStates := {| SYSTEM_HALT := 4; SYSTEM_POWER_OFF := 5; SYSTEM_RESTART := 6 |}.
#[local] Existing Instances csum0 states0.

Lemma env_super_ok fails : @outside_ok (env_super fails) true.
Proof.
  split.
  - intros h. change (0 < 1700000000 + Z.of_nat (length h)). lia.
  - done.
Qed.

(** ** The file system *)

Definition no_error : error_info := ErrorInfo 0 0 0 0 [] 0.
Definition with_journal (x : bool) (s : mount) : mount :=
  Mount (m_type s) (m_sb_block s) (m_daxdev s) (m_flags s) (m_iflags s) (m_bits s) (m_sbh s) (m_es s)
    (m_sbi s) (m_opt s) (m_opt2 s) (m_def_opt s) (m_def_opt2 s) (m_bdev_is_dax s) (m_par s)
    (m_encoding s) (m_ino s) (m_meta s) (m_hash s) (m_blockfile_groups s) (m_gdb s) x (m_quota s).
(** With errors=[opt]; [journal] says whether it has one. *)
Definition super_on (m : mount) (opt : Z) (journal : bool) : super :=
  Super (with_journal journal (set_m_opt opt m)) false 0 no_error no_error false (Some 50) (Some 5) 0 0
    [super0] None.
Definition super_of : Z -> bool -> super := super_on mounted0.
Definition super_cont : super := super_of EXT4_MOUNT_ERRORS_CONT true.

Lemma mounted0_es : es_wf (m_es mounted0).
Proof. split; [vm_compute; reflexivity|apply (bool_decide_unpack _); vm_compute; reflexivity]. Qed.
Lemma super_on_ok m opt journal : es_wf (m_es m) -> errors_ok (super_on m opt journal).
Proof. intros Hes. split; [exact Hes|cbn; lia..|]. intros Ht. by destruct Ht. Qed.
Lemma super_of_ok opt journal : errors_ok (super_of opt journal).
Proof. apply super_on_ok, mounted0_es. Qed.
Lemma super_cont_goes_on : goes_on super_cont.
Proof. split; [apply super_of_ok|vm_compute; reflexivity..]. Qed.

Definition func0 : list Z := [101; 120; 116; 52].
Definition events0 : list sb_event :=
  [EvReport 12 0 func0 100 EFSCORRUPTED; EvWrite; EvReport 13 77 func0 200 EIO; EvReport 14 0 func0 300 0; EvWork].

(** ** The theorems at work *)

Lemma error_history_kept_witness :
  @outside_ok (env_super true) true /\ goes_on super_cont /\
  wp (@run_events (env_super true) csum0 states0 events0) (fun r w' =>
    r = Some tt /\ w_held w' = [] /\ goes_on (w_st w') /\ p_rdonly (w_st w') = p_rdonly super_cont /\
    exists entries, Forall2 entry_for events0 entries /\ log_of (w_st w') = add_entries (log_of super_cont) entries)
    (World super_cont [] []).
Proof.
  split; [exact (env_super_ok true)|]. split; [exact super_cont_goes_on|].
  apply (@error_history_kept (env_super true) csum0 states0 events0 super_cont [] []).
  - exact (env_super_ok true).
  - exact super_cont_goes_on.
  - split; reflexivity.
  - reflexivity.
Defined.

Lemma handle_error_correct_witness :
  wp (@ext4_handle_error (env_super false) csum0 states0 false EIO 12 0 func0 100) (fun r w' =>
    w_held w' = [] /\
    handled true false (error_now EIO 12 0 func0 100) (super_of EXT4_MOUNT_ERRORS_RO false) r (w_st w'))
    (World (super_of EXT4_MOUNT_ERRORS_RO false) [] []).
Proof.
  apply (@handle_error_correct (env_super false) csum0 states0 true false EIO 12 0 func0 100
    (super_of EXT4_MOUNT_ERRORS_RO false) [] []).
  - exact (env_super_ok false).
  - apply super_of_ok.
  - reflexivity.
  - split; reflexivity.
Defined.

(** ** Runs *)

Definition end_of {A} (o : outcome super A) : option super := match o with Ret _ w => Some (w_st w) | _ => None end.
(** The count, the inodes and the codes of the two errors. *)
Definition errors_on (es : list Z) : Z * (Z * Z) * (Z * Z) :=
  (s_error_count es, (en_ino (entry_at first_error es), en_code (entry_at first_error es)),
   (en_ino (entry_at last_error es), en_code (entry_at last_error es))).

(** The device has the first error only; the journal has all of them. *)
Example history_runs :
  option_map (fun s => (errors_on <$> p_disk s, errors_on <$> p_logged s))
    (end_of (@run_events (env_super false) csum0 states0 events0 (World super_cont [] [])))
  = Some ([(1, (12, 5), (12, 5))], Some (3, (12, 5), (14, 5))).
Proof. vm_compute. reflexivity. Qed.

(** With errors=remount-ro the file system is read-only at once, and the device has the
    error, the flag and the counters. *)
Example report_makes_read_only :
  option_map (fun s => (p_rdonly s, p_shutdown s,
      (fun es => (errors_on es, Z.testbit (s_state es) 1, ext4_free_blocks_count es, s_free_inodes_count es)) <$> p_disk s))
    (end_of (@ext4_handle_error (env_super false) csum0 states0 false EIO 12 0 func0 100
               (World (super_of EXT4_MOUNT_ERRORS_RO false) [] [])))
  = Some (true, true, [((1, (12, 2), (12, 2)), true, 50, 5)]).
Proof. vm_compute. reflexivity. Qed.

(** A report after the shutdown does nothing. *)
Example report_after_shutdown :
  option_map (fun s => (p_add_error_count s, s_mount_state (p_sbi s)))
    (end_of (@__ext4_error_inode (env_super false) csum0 states0 12 func0 1 0 EIO (World (set_p_shutdown true super_cont) [] [])))
  = Some (0, s_mount_state (p_sbi super_cont)).
Proof. vm_compute. reflexivity. Qed.
