(* ===== verification/WitnessLife.v ===== *)
(** * The life of a concrete file system

    The file system of WitnessMount.v, with a journal, from the end of its mount on: the
    theorems of RemountUse.v and Life.v applied to it, and the three ways to lose the mark of
    a file system in use. *)

From stdpp Require Import prelude list gmap strings.
From Stdlib Require Import ZArith Lia.
From S2P Require Import Prelude Kernel Bytes Layout Mount MountOpts MountSuper SuperState SuperSpec SuperReport.
From S2P Require Import Remount RemountSpec RemountUse Life.
From S2P Require Import Witness WitnessMount WitnessSuper.

Local Open Scope string_scope.
Local Open Scope Z_scope.

(** ** The outside *)

(** How many times the super block was sent to the device. *)
Definition sent (h : list call) : Z := Z.of_nat (length (List.filter (fun c => String.eqb c.1 "submit_bh") h)).

(** There are no orphans.  Writes of the super block fail from the [first]-th on, and there is
    memory for a system zone or not. *)
Definition env_life (first : Z) (zone : bool) : Env := {|
  env_int := fun h f a =>
    if String.eqb f "ktime_get_real_seconds" then 1700000000 + Z.of_nat (length h)
    else if String.eqb f "buffer_mapped" then 1
    else if String.eqb f "buffer_uptodate" then 1
    else if String.eqb f "buffer_write_io_error" then (if first <? sent h then 1 else 0)
    else if String.eqb f "ext4_orphan_file_empty" then 1
    else if String.eqb f "ext4_setup_system_zone" then (if zone then 0 else - ENOMEM)
    else 0;
  env_ptr := fun _ _ _ => PtrOk
|}.
#[local] Existing Instances csum0 states0 mountenv0 answers0.

Lemma env_life_ok first zone : @outside_ok (env_life first zone) true.
Proof.
  split.
  - intros h. change (0 < 1700000000 + Z.of_nat (length h)). lia.
  - done.
Qed.
Lemma descs_there0 : @DescsThere mountenv0.
Proof. exact group_desc_some. Qed.

(** ** The file system *)

(** With the feature has_journal in its super block. *)
Definition super_life : super :=
  upd_es (fun es => put32 es 0x5C EXT4_FEATURE_COMPAT_HAS_JOURNAL) (super_of EXT4_MOUNT_ERRORS_CONT true).
Lemma super_life_ok : errors_ok super_life.
Proof. apply errors_ok_es; [apply super_of_ok|]. apply tidy_put; [reflexivity|apply tidy_refl]. Qed.
Lemma super_life_table : table_ok (p_mount super_life).
Proof. unfold table_ok. split; vm_compute; intros [=]. Qed.
Lemma super_life_count : p_add_error_count super_life = 0.
Proof. reflexivity. Qed.

(** block_validity, and nothing else. *)
Definition context0 : ext4_fs_context := ctx_set_mount_opt EXT4_MOUNT_BLOCK_VALIDITY zero_context.
Lemma context0_ok : context_ok context0.
Proof. split; reflexivity. Qed.

Definition life0 : list life_op :=
  [Report 12 0 func0 100 EIO; Freeze; Thaw; Reconfigure context0 SB_RDONLY; Reconfigure context0 0; Work].
Lemma life0_ok : Forall op_ok life0.
Proof. repeat constructor; reflexivity. Qed.

(** ** The theorems at work *)

Lemma in_use_while_writable_witness :
  wp (@life (env_life 100 true) mountenv0 csum0 answers0 states0 life0) (fun r w' =>
    forall frozen trace, r = Some (0, (frozen, trace)) -> w_held w' = [] /\
    (Forall2 went_well life0 trace ->
     (frozen = false -> guarded (w_st w')) /\ (frozen = true -> clean (w_st w')))) (World super_life [] []).
Proof.
  apply (@in_use_while_writable (env_life 100 true) mountenv0 csum0 answers0 states0 descs_there0 true life0 super_life [] []).
  - exact (env_life_ok 100 true).
  - exact super_life_ok.
  - rewrite super_life_count. reflexivity.
  - split; [split|split]; reflexivity.
  - exact super_life_table.
  - exact life0_ok.
Defined.

Lemma remount_correct_witness :
  wp (@__ext4_remount (env_life 100 true) mountenv0 csum0 answers0 states0 context0 SB_RDONLY) (fun r w' =>
    let rdonly := negb (Z.land SB_RDONLY SB_RDONLY =? 0) in
    match r with
    | None => p_test_opt (with_options context0 super_life) EXT4_MOUNT_ERRORS_PANIC = true
    | Some r => w_held w' = [] /\
        ((r = - ENOMEM /\ w_st w' = super_life) \/
         (r = 0 /\ options_conflict (m_opt (p_mount super_life)) (applied context0 (p_mount super_life)) = false /\
          remount_ok rdonly (m_flags (p_mount super_life)) (with_options context0 super_life) (w_st w')) \/
         (r <> 0 /\ rolled_back (p_mount super_life) (p_mount (w_st w')) /\
          (rdonly = false -> p_rdonly super_life = false -> marks (p_es (w_st w')) = marks (p_es super_life))))
    end) (World super_life [] []).
Proof.
  apply (@remount_correct (env_life 100 true) mountenv0 csum0 answers0 states0 descs_there0 true context0 SB_RDONLY
    super_life [] []).
  - exact (env_life_ok 100 true).
  - exact super_life_ok.
  - rewrite super_life_count. reflexivity.
  - split; [split|split]; reflexivity.
  - exact super_life_table.
  - exact context0_ok.
Defined.

(** ** Runs *)

Definition recover := ext4_has_feature_journal_needs_recovery.
(** What a state is: read-only, shut down, and the mark in the buffer and on the device. *)
Definition state_of (s : super) : bool * bool * bool * list bool :=
  (p_rdonly s, p_shutdown s, recover (p_es s), recover <$> p_disk s).
Definition lived (first : Z) (zone : bool) (ops : list life_op) : option (Z * bool * list (Z * (bool * bool * bool * list bool))) :=
  match @life (env_life first zone) mountenv0 csum0 answers0 states0 ops (World super_life [] []) with
  | Ret (Some (r, (f, t))) _ => Some (r, f, (fun p => (p.1, state_of p.2)) <$> t)
  | _ => None
  end.

(** Everything goes well. *)
Example life_runs :
  lived 100 true life0 =
  Some (0, false,
    [(0, (false, false, true, [true])); (0, (false, false, false, [false])); (0, (false, false, true, [true]));
     (0, (true, false, false, [false])); (0, (false, false, true, [true])); (0, (false, false, true, [true]))]).
Proof. vm_compute. reflexivity. Qed.

(** A remount to read-only that fails for lack of memory for the system zone: the file system
    can be written again, but its mark is gone. *)
Example remount_loses_mark :
  lived 100 false [Reconfigure context0 SB_RDONLY] = Some (0, false, [(- ENOMEM, (false, false, false, [false]))]).
Proof. vm_compute. reflexivity. Qed.

(** A freeze whose write of the super block fails: the file system goes on without its mark in
    the buffer, and the next report brings it to the device. *)
Example freeze_loses_mark :
  lived 1 true [Freeze; WriteSuper] =
  Some (0, false, [(- EIO, (false, false, false, [false; true])); (- EIO, (false, false, false, [false; false; true]))]).
Proof. vm_compute. reflexivity. Qed.

(** A thaw whose write fails reports success: the device says clean. *)
Example thaw_loses_mark :
  lived 2 true [Freeze; Thaw] =
  Some (0, false, [(0, (false, false, false, [false])); (0, (false, false, true, [true; false]))]).
Proof. vm_compute. reflexivity. Qed.

(** The parameters a failed remount does not give back: the stripe of the new options stays. *)
Definition context_stripe : ext4_fs_context :=
  add_spec EXT4_SPEC_s_stripe (put_par (par_s_stripe 7) context0).
Example remount_keeps_stripe :
  match @__ext4_remount (env_life 100 false) mountenv0 csum0 answers0 states0 context_stripe 0 (World super_life [] []) with
  | Ret r w => Some (r, s_stripe (m_par (p_mount super_life)), s_stripe (m_par (p_mount (w_st w))))
  | _ => None
  end = Some (Some (- ENOMEM), 0, 7).
Proof. vm_compute. reflexivity. Qed.
