(* ===== verification/WitnessFalloc.v ===== *)
(** * Collapsing, inserting and truncating a concrete file

    The theorems of FallocSpec.v applied to the file of ten blocks of Witness.v; and runs of
    the handlers: a collapse, an insert, requests that are refused, a preallocation, and an
    insert whose lookup of the extents fails. *)

From stdpp Require Import prelude list gmap strings.
From Stdlib Require Import ZArith Lia.
From S2P Require Import Prelude Kernel Layout ExtentNode ExtentTree ExtentTreeSpec Fs Namei Inode EvfsExtent Witness.
From S2P Require Import ExtentRemove ExtentRemoveSpec ExtentRemoveFlat WitnessRemove Falloc FallocSpec FallocAlloc.

Local Open Scope string_scope.
Local Open Scope Z_scope.

#[local] Existing Instances fmt0 fmtok0 extops0.

Definition falloc0 : FallocEnv := {|
  PAGE_SIZE := 4096; sb_maxbytes := 2 ^ 42 - 1; fa_quota_credits := 3;
  IS_ENCRYPTED := fun _ => false; has_journal := true
|}.
#[local] Existing Instance falloc0.

(** The journal restarts the transaction once. *)
Definition env1 : Env := env_credits [1; 0].
Definition envfs1 : @EnvFs env1.
Proof. split; intros; simpl in *; done. Defined.
#[local] Existing Instance env1.

(** The file of Witness.v with the flag of extents. *)
Definition fs_ext : fs :=
  Fs sbi0 es0 {[0 := gd0]} {[0 := 7]} {[0 := 3]} 5 6 None {[3 := set_iflags (2 ^ 19) file0]}.

Lemma answers1 : @answers_ok env1 2.
Proof. split; [intros h a; done|intros h a; done|intros h a; done|exact (restart_bound0 [1; 0])]. Qed.

Lemma file_plain : plain_file fs_ext 3.
Proof. split; [exact xtree0_flat|done|done|done]. Qed.

Lemma file_room : room (x_root (i_tree (inode_of fs_ext 3))).
Proof. split; [vm_compute; done|]. intros e He. apply list_elem_of_singleton in He as ->. vm_compute. intros [=]. Qed.

Lemma nothing_held n : unlocked n [].
Proof. done. Qed.

Lemma collapse_range_correct_witness :
  exists err w', @ext4_collapse_range fmt0 env1 extops0 falloc0 3 acct0 3 2048 3072 (World fs_ext [] []) = Ret err w' /\
    w_held w' ≡ₚ [] /\ collapse_result 3 fs_ext [] 2 5 3072 err w'.
Proof.
  destruct (@collapse_range_correct fmt0 fmtok0 env1 envfs1 extops0 falloc0 2 3 3 fs_ext 2048 3072 acct0 [] [])
    as (err & w' & Hr & Hh & Hc & _).
  - exact answers1.
  - exact file_plain.
  - by vm_compute.
  - apply nothing_held.
  - lia.
  - simpl. lia.
  - vm_compute. split; [intros [=]|done].
  - lia.
  - lia.
  - lia.
  - by vm_compute.
  - right. exact file_room.
  - exists err, w'. by split_and!.
Defined.

Lemma insert_range_correct_witness :
  exists err w', @ext4_insert_range fmt0 env1 extops0 falloc0 3 3 2048 3072 (World fs_ext [] []) = Ret err w' /\
    w_held w' ≡ₚ [] /\ insert_result 3 fs_ext [] 2 3 3072 err w'.
Proof.
  destruct (@insert_range_correct fmt0 fmtok0 env1 envfs1 extops0 falloc0 2 3 3 fs_ext 2048 3072 [] [])
    as (err & w' & Hr & Hh & Hc & _).
  - exact answers1.
  - exact file_plain.
  - by vm_compute.
  - apply nothing_held.
  - lia.
  - simpl. lia.
  - vm_compute. split; [intros [=]|done].
  - vm_compute. by split; intros [=].
  - by vm_compute.
  - lia.
  - lia.
  - right. exact file_room.
  - exists err, w'. by split_and!.
Defined.

(** The size of the file cut to three blocks and a half. *)
Definition fs_cut : fs := upd_inode 3 (fun i => Mkdir.set_isize 3584 i) fs_ext.

Lemma truncate_correct_witness :
  exists w', @ext4_ext_truncate fmt0 (env_credits []) extops0 falloc0 1 1 acct0 3
      (World fs_cut [Excl (LDataSem 3)] []) = Ret 0 w' /\
    freed (w_calls w') ≡ₚ phys_range (file_map fs_cut 3) 4 (2 ^ 32 - 2).
Proof.
  destruct (@truncate_correct fmt0 fmtok0 (env_credits []) extops0 falloc0 0 1 1 acct0 3 fs_cut [] [])
    as (w' & Hr & _ & _ & _ & _ & _ & Hf).
  - split; [intros h a; done|intros h a; done|intros h a; done|exact (restart_bound0 [])].
  - split; [exact xtree0_flat|done|done|done].
  - intros (h & a & Hne). apply Hne. simpl. rewrite ?String.eqb_refl. by destruct (credit_calls h).
  - lia.
  - lia.
  - simpl. lia.
  - done.
  - by vm_compute.
  - by vm_compute.
  - by vm_compute.
  - exists w'. split; [exact Hr|]. rewrite app_nil_r in Hf. exact Hf.
Defined.

(** ** Runs *)

(** What a handler leaves of file 3: the answer, the sizes, the extents, the blocks freed,
    the resources held. *)
Definition file_left (r : outcome fs Z) : option (Z * (Z * Z) * list ext4_extent * list Z * list res) :=
  match r with
  | Ret err w =>
      let i := inode_of (w_st w) 3 in
      Some (err, (i_size i, i_disksize i), entries (x_root (i_tree i)), freed (w_calls w), w_held w)
  | _ => None
  end.

Definition run_collapse (E : Env) (offset len : Z) :=
  file_left (@ext4_collapse_range fmt0 E extops0 falloc0 3 acct0 3 offset len (World fs_ext [] [])).
Definition run_insert (E : Env) (offset len : Z) :=
  file_left (@ext4_insert_range fmt0 E extops0 falloc0 3 3 offset len (World fs_ext [] [])).

(** Blocks 2, 3 and 4 go, and the blocks behind them move up; with a restart as well. *)
Example run_collapse_middle : run_collapse (env_credits []) 2048 3072 =
  Some (0, (7168, 7168), [Ext 0 2 100; Ext 2 5 105], [102; 103; 104], []).
Proof. vm_compute. reflexivity. Qed.
Example run_collapse_restart : run_collapse env1 2048 3072 = run_collapse (env_credits []) 2048 3072.
Proof. vm_compute. reflexivity. Qed.

(** Requests that are refused: half a block, the end of the file. *)
Example run_collapse_refused :
  (run_collapse env1 2048 512, run_collapse env1 2048 8192) =
  (Some (- EINVAL, (10240, 10240), [Ext 0 10 100], [], []), Some (- EINVAL, (10240, 10240), [Ext 0 10 100], [], [])).
Proof. vm_compute. reflexivity. Qed.

(** A hole of three blocks at block 2; one for which the blocks past the end of the file
    have no room: the extent is cut and the file has grown, but no block has moved. *)
Example run_insert_middle : run_insert env1 2048 3072 =
  Some (0, (13312, 13312), [Ext 0 2 100; Ext 5 8 102], [], []).
Proof. vm_compute. reflexivity. Qed.
Example run_insert_no_room :
  file_left (@ext4_insert_range fmt0 env1 extops0 falloc0 3 3 2048 (2 ^ 42 - 10240) (World fs_cut [] [])) =
  Some (- EINVAL, (2 ^ 42 - 6656, 2 ^ 42), [Ext 0 2 100; Ext 2 8 102], [], []).
Proof. vm_compute. reflexivity. Qed.
Example run_insert_too_big : run_insert env1 2048 (2 ^ 42 - 10240) = Some (- EFBIG, (10240, 10240), [Ext 0 10 100], [], []).
Proof. vm_compute. reflexivity. Qed.

(** No memory for the path of the lookup: the answer is 0 and the file has grown, but no
    extent has moved. *)
Definition env_no_path : Env := {|
  env_int := fun _ _ _ => 0;
  env_ptr := fun _ f _ => if String.eqb f "kcalloc" then PtrNull else PtrOk
|}.
Example run_insert_lost : run_insert env_no_path 2048 3072 = Some (0, (13312, 13312), [Ext 0 10 100], [], []).
Proof. vm_compute. reflexivity. Qed.

(** A block allocator that maps at most four blocks at a time. *)
Definition fallocops0 : FallocOps := {|
  ext4_map_blocks := fun _ _ len _ => kret (Z.min 4 len, Z.min 4 len);
  ext4_punch_hole := fun _ _ _ => kret 0;
  ext4_update_disksize_before_punch := fun _ _ _ => kret 0;
  ext4_zero_partial_blocks := fun _ _ _ => kret 0;
  ext4_convert_inline_data := fun _ => kret 0
|}.
Definition run_fallocate (mode offset len : Z) :=
  file_left (@ext4_fallocate fmt0 (env_credits []) extops0 falloc0 fallocops0 3 acct0 false 3 mode offset len
    (World fs_ext [] [])).

(** Preallocation past the end of the file, with and without the size. *)
Example run_prealloc : run_fallocate 0 8192 6000 = Some (0, (14192, 14192), [Ext 0 10 100], [], []).
Proof. vm_compute. reflexivity. Qed.
Example run_prealloc_keep : run_fallocate FALLOC_FL_KEEP_SIZE 8192 6000 = Some (0, (10240, 10240), [Ext 0 10 100], [], []).
Proof. vm_compute. reflexivity. Qed.
Example run_fallocate_collapse : run_fallocate FALLOC_FL_COLLAPSE_RANGE 2048 3072 = run_collapse (env_credits []) 2048 3072.
Proof. vm_compute. reflexivity. Qed.
Example run_zero : run_fallocate FALLOC_FL_ZERO_RANGE 9000 3000 = Some (0, (12000, 12000), [Ext 0 10 100], [], []).
Proof. vm_compute. reflexivity. Qed.

(** ** Preallocation *)

(** An allocator that maps one block at a time: an unwritten extent is added to the root. *)
Definition add_block (b : Z) (t : xtree) : xtree :=
  let r := x_root t in
  let es := (entries r ++ [Ext b 0x8001 (1000 + b)])%list in
  XTree (Node (eh_magic r) (Z.of_nat (length es)) (eh_max r) (eh_depth r) (eh_generation r) es (n_idx r))
    (x_blk t) (x_verified t).
Definition falloc_ops1 : FallocOps := {|
  ext4_map_blocks := fun n lblk mlen _ =>
    s <~ kget;; kmodify (put_tree n (add_block lblk (i_tree (inode_of s n))));;; kret (1, 1);
  ext4_punch_hole := fun _ _ _ => kret 0;
  ext4_update_disksize_before_punch := fun _ _ _ => kret 0;
  ext4_zero_partial_blocks := fun _ _ _ => kret 0;
  ext4_convert_inline_data := fun _ => kret 0
|}.
#[local] Existing Instance falloc_ops1.

Lemma map_add_block b t b' :
  mapping (entries (x_root (add_block b t))) b' =
  match mapping (entries (x_root t)) b' with
  | Some p => Some p
  | None => if covers (Ext b 0x8001 (1000 + b)) b' then Some (phys (Ext b 0x8001 (1000 + b)) b') else None
  end.
Proof.
  unfold add_block, entries at 1. cbn [x_root eh_entries n_ext]. rewrite Nat2Z.id, firstn_all. by rewrite mapping_app.
Qed.

(** An environment whose allocator is out of room now and then: four tries. *)
Definition env2 : Env := {|
  env_int := fun h f a =>
    if String.eqb f "ext4_should_retry_alloc" then (if default 0 (head a) <=? 3 then 1 else 0)
    else if String.eqb f "ext4_should_retry_alloc:retries" then default 0 (head a) + 1
    else 0;
  env_ptr := fun _ _ _ => PtrOk
|}.
Definition envfs2 : @EnvFs env2.
Proof. split; intros; simpl in *; done. Defined.

Definition falloc_ops1_ok : @FallocOpsOk env2 falloc_ops1.
Proof.
  refine {| allocated := fun s n b => file_map s n b <> None |}.
  - unfold file_map. by intros n s s' b _ ->.
  - intros n lblk mlen flags s held calls Q Hl Hm _ _ HQ. cbn [ext4_map_blocks falloc_ops1]. repeat wp_step.
    apply HQ; unfold put_tree, file_map; rewrite ?inode_of_upd_eq; cbn [set_tree i_tree i_flags i_size i_disksize]; try done; try lia.
    + intros b. rewrite map_add_block. by destruct (mapping _ b).
    + intros b Hb. rewrite map_add_block. destruct (mapping _ b); [done|]. assert (b = lblk) as -> by lia.
      unfold covers, ext_end. cbn. by rewrite Z.leb_refl, (proj2 (Z.ltb_lt _ _)) by lia.
Defined.

Lemma retries2 : @retries_ok env2.
Proof.
  split; intros h r; simpl; [|lia]. intros Hr. by rewrite (proj2 (Z.leb_gt r 3)).
Qed.

Lemma preallocate_correct_witness :
  exists ret w', @preallocate fmt0 env2 falloc0 falloc_ops1 true 3 9000 3000 0 (World fs_ext [] []) = Ret ret w' /\
    w_held w' = [] /\ @preallocated env2 falloc_ops1 falloc_ops1_ok 3 false 9000 3000 ret fs_ext (w_st w').
Proof.
  destruct (@preallocate_correct fmt0 env2 envfs2 falloc0 falloc_ops1 falloc_ops1_ok 3 true 0 9000 3000 fs_ext [] [])
    as (ret & w' & Hr & Hh & Hp).
  - lia.
  - lia.
  - by vm_compute.
  - by vm_compute.
  - apply nothing_held.
  - exact retries2.
  - exists ret, w'. by split_and!.
Defined.

(** Blocks 8, 9, 10 and 11: the last two are new, and the file ends at byte 12000. *)
Example run_prealloc_blocks : file_left (@preallocate fmt0 env2 falloc0 falloc_ops1 true 3 9000 3000 0 (World fs_ext [] [])) =
  Some (0, (12000, 12000), [Ext 0 10 100; Ext 8 0x8001 1008; Ext 9 0x8001 1009; Ext 10 0x8001 1010; Ext 11 0x8001 1011], [], []).
Proof. vm_compute. reflexivity. Qed.
